(* ===== verification/_CoqProject ===== *)
-Q . S2P
Prelude.v
SamplingParams.v
Request.v
BlockQueue.v
BlockHash.v
KVCacheManager.v
KVCacheInv.v
KVAlloc.v
KVTheorems.v
SMController.v
EncoderCache.v
Scheduler.v
SchedulerInv.v
SchedulerLoops.v
SchedulerStep.v
SchedulerUpdate.v
SchedulerTheorems.v
SchedulerTrace.v
KVConfig.v
SchedulerEncoder.v
EncoderScheduler.v
MMMapper.v
Processor.v
MMProcessing.v
MMProcMatch.v
MMProcPlace.v
MMProcExpand.v
MMProcCache.v
MMProcTheorems.v
Detokenizer.v
Utf8.v
DetokTheorems.v
OutputProcessor.v
EngineCore.v
EngineTheorems.v
LLMEngine.v
InputBatch.v
InputBatchInv.v
ModelRunner.v
RunnerInv.v
PrepareInputs.v
RunnerSample.v
RunnerSpec.v
RunnerTheorems.v
WorkerSync.v
Cluster.v
Writes.v
MRope.v
MRopeSpec.v
EncoderWorker.v
V0Sequence.v
NaiveBlocks.v
BlockManager.v
V0Interface.v
BlockStore.v
BlockTables.v
BlockAppend.v
BlockCreate.v
BlockMove.v
BlockSpaceInv.v
BlockSpaceOps.v
BlockSpaceTheorems.v
Evictor.v
PrefixCaching.v
PrefixInv.v
PrefixSteps.v
PrefixTheorems.v
PrefixLookup.v
V0Scheduler.v
V0Engine.v
V0Contract.v
V0SchedInv.v
V0SchedOps.v
V0SchedLoops.v
V0SchedPrefill.v
V0SchedPriority.v
V0SchedStep.v
V0EngineInv.v
V0Requests.v
V0Theorems.v
