(* ===== verification/Prelude.v ===== *)
(** * SpaceServe: a verification library for the V1 engine

    SpaceServe is a serving engine for multi-modal language models, built on vLLM.
    Vision inputs are encoded by a process of their own ("encoder core") next to the
    process that decodes text ("engine core"); both share a GPU whose multiprocessors
    are partitioned between them.  This library models the Python code of the V1 engine
    from the client's prompt to the rows of the GPU batch and back, and proves what
    makes the parts correct, alone and together.  All paths below are under src/vllm/.

    ** The program and where it is modelled

    A request travels like this:

      client     v1/engine/llm_engine.py (LLMEngine), processor.py (Processor),
                 mm_input_mapper.py, output_processor.py, detokenizer.py
        |  EngineCoreRequest                       ^  EngineCoreOutputs
        v                                          |
      engine     v1/engine/core.py (EngineCore.step): schedule, execute, update
        |            v1/core/scheduler.py, kv_cache_manager.py, kv_cache_utils.py,
        |            encoder_cache_manager.py; results of the encoder core arrive
        |            through a queue
        v  SchedulerOutput                         ^  ModelRunnerOutput
      worker     v1/worker/gpu_model_runner.py, gpu_input_batch.py, block_table.py

    Files, in dependency order:

    - [Prelude]: Python exceptions and the [result] monad, for loops, floor and ceiling
      division, list and option lemmas, tactics.
    - [SamplingParams] (sampling_params.py), [Request] (v1/request.py, the messages of
      v1/engine/__init__.py, multimodal/inputs.py).
    - [BlockQueue]: KVCacheBlock and the intrusive doubly linked FreeKVCacheBlockQueue;
      the class [FreeQueueSpec] is what the KV-cache manager relies on, and the linked
      list is its instance.  [BlockHash]: the hash chain of prefix caching.
    - [KVCacheManager] (operations), [KVCacheInv] (invariant [kv_inv]), [KVAlloc]
      (allocate_slots), [KVTheorems].  [KVConfig]: sizing of the cache.
    - [SMController]: the masks that partition the multiprocessors.
    - [EncoderCache]: EncoderCacheManager and the encoder budgets.
    - [Scheduler] (operations), [SchedulerInv] (invariant [sched_inv]),
      [SchedulerLoops] and [SchedulerStep] (schedule), [SchedulerUpdate]
      (update_from_output), [SchedulerTheorems], [SchedulerTrace] (what the output of
      schedule says about each request), [SchedulerEncoder] (the encoder gate,
      progress).
    - [EncoderScheduler]: the scheduler of the encoder process.
    - [MMMapper]: the mirrored caches of multi-modal inputs and the LRU cache of
      utils.py.  [Processor]: from a prompt to an EngineCoreRequest.
    - [MMProcessing]: the multi-modal prompt processor (multimodal/processing.py), which
      gives the placeholder ranges the other parts go by.  [MMProcMatch]: matching,
      replacing and searching.  [MMProcPlace]: the placeholders returned.
      [MMProcExpand]: equality with a single-pass specification.  [MMProcCache]: the cache
      of processed items.  [MMProcTheorems].
    - [Detokenizer], [Utf8], [DetokTheorems]: incremental detokenization and stop strings,
      with decoding of UTF-8 for byte-level tokenizers.
      [OutputProcessor]: from engine outputs to request outputs.
    - [EngineCore], [EngineTheorems]: one step of the engine and of the encoder core.
      [LLMEngine]: the client with the in-process engine.
    - [InputBatch], [InputBatchInv]: the persistent batch of the worker and its
      representation as a finite map.  [ModelRunner], [RunnerInv], [PrepareInputs],
      [RunnerSample], [RunnerSpec], [RunnerTheorems]: one step of the worker.
    - [WorkerSync], [Cluster], [Writes]: scheduler and worker composed.
    - [MRope], [MRopeSpec]: multi-modal rotary positions (rotary_embedding.py).
    - [EncoderWorker]: the vision encoder's worker.

    The previous ("v0") engine generation is still part of the program.  Its step
    (engine/llm_engine.py) asks the scheduler (core/scheduler.py) for a batch, which asks
    the block manager (core/block_manager.py) for memory:

    - [NaiveBlocks]: reference counts, the pool of block objects, NaiveBlockAllocator and
      CpuGpuBlockAllocator (core/block/).  [BlockManager]: BlockTable (block_table.py)
      and SelfAttnBlockSpaceManager (block_manager.py).
    - [BlockStore]: the store of block objects, its invariant, and swapping.
      [BlockTables], [BlockAppend], [BlockCreate], [BlockMove]: what a
      table holds, and each of its operations.
    - [BlockSpaceInv], [BlockSpaceOps], [BlockSpaceTheorems]: the manager's invariant,
      its operations, and its refinement to a map from sequences to tokens.
    - [V0Sequence]: sequences and sequence groups (sequence.py).  [V0Interface]: the
      abstract block manager (core/interfaces.py) as the class [BlockSpaceOps], with the
      managers of paged attention and of models without a cache as instances.
      [V0Contract]: the class [BlockSpaceSpec], what the scheduler relies on, and the
      proofs that both managers provide it.
    - [Evictor] (core/evictor.py).  [PrefixCaching]: PrefixCachingBlockAllocator, its block
      objects and the hit rate (prefix_caching_block.py, common.py).  [PrefixInv]: the
      invariant [pc_inv] over physical blocks and block objects.  [PrefixSteps]: each
      operation.  [PrefixTheorems].  [PrefixLookup]: the trackers of cached and accessed
      blocks, and what they find.
    - [V0Scheduler]: SchedulerConfig (config.py), SchedulingBudget and Scheduler with
      both policies, chunked prefills, preemption by recomputation and swapping, LoRA
      limits and the delay of prompts.  [V0Engine]: LLMEngine.step with the single-step
      output processor and the stop checker (engine/output_processor/).
    - [V0SchedInv]: the invariant [mid] over the roles of groups in a step.
      [V0SchedOps]: each operation on one group.  [V0SchedLoops] (running groups and the
      budget), [V0SchedPrefill] (waiting groups), [V0SchedPriority].  [V0SchedStep]:
      a whole step and its metadata.  [V0EngineInv]: applying the
      outputs.  [V0Requests]: adding and aborting.  [V0Theorems]: reachable states.

    ** How code corresponds to definitions

    A class is a [Record] of the fields its code reads; a method is a function from
    the state and the arguments to [result (state * value)], with [Err] for the
    exception the code raises.  Guards, early returns and the order of effects are
    those of the code.  Names are the source's, with a prefix where two classes share
    one (ec_, es_, le_, op_, ib_, mr_, rs_).

    Objects that are shared are kept shared: requests live in a store and the queues
    hold references to them, because scheduler, queues and id map alias them; blocks
    live in a pool and are referred to by number; the set that ecm_free iterates over
    is the one its body changes.  Sets and dicts are [gset] and [gmap], unless their
    order is observable.  Integers are [Z], reduced to a machine width where the code
    computes at one: stream masks ([c_uint64], [c_uint32]), the int32 arrays of
    _prepare_inputs ([int32]), the int64 tensors of rotary positions ([int64]).  The
    theorems about them state the sizes under which nothing wraps; the arrays of the
    persistent batch keep the values they are given.  The floats of SamplingParams are
    finite values, infinities and NaN with Python's comparisons ([pyfloat]); the frame
    indices of videos are computed in float32 ([SpecFloat]); the statistics, watermarks and
    clocks of the v0 engine are exact rationals.

    Loops over lists are structural; [while] loops take fuel, and running out of it is
    the distinct value [OutOfFuel], which the totality theorems exclude: schedule uses
    the length of a queue, which every iteration shortens or passes; condense uses the
    number of rows; the recursion over prev_block links uses the number of block objects
    plus one, which a chain without a cycle cannot exceed; the loops of the v0 scheduler
    use the length of the queue they shorten, plus one; bisection uses the length of the
    list and resetting the prefix cache the size of the evictor, plus one.  The loop in EngineCore.step that
    waits for tokens does not terminate by itself; it is modelled over the sequence of
    polls of the result queue, and without a queue, as in-process clients build the engine,
    it raises AttributeError.

    Parameters, with what is assumed of them: Python's hash of a tuple ([PyHash]: injective
    on the tuples compared, where a theorem says so; [PrefixHash] of the v0 engine: nothing,
    its theorems name the collision that would break them); the model
    with its sampler ([model_ok]: one token per row); the vision encoder; the
    tokenizer (a class of the methods called; [byte_level] for the theorem that decoding
    loses nothing); the conversion of floats that have no int64 value; the HF processor and its hash of items
    ([one_by_one], [hash_ok]: items are processed one by one, and equal hashes mean equal
    results); the multi-modal registry's token limits;
    the dynamic loader and libsmctrl; the v0 engine's clock and its model (one sample per
    group of the batch).

    ** What is proved

    - Memory: the free queue refines a list; in every reachable state reference counts
      equal the uses, free blocks are exactly the unused ones, no block leaks,
      allocation gives a request what it needs or changes nothing, and a cache hit has
      the tokens it stands for.  The computed configuration fits the memory.
    - Scheduling: schedule returns in every reachable state, within the token, sequence
      and encoder budgets, first come first served; update_from_output appends exactly
      the sampled tokens and ends requests exactly on the stop conditions; some request
      makes progress when resources allow.
    - The worker: whole-array index arithmetic, int32 included, equals the per-request
      definition, the
      batch represents exactly the scheduled requests, positions (plain and rotary) are
      those of the tokens.
    - Composition: scheduler and worker stay in sync over every run ([Cluster]), and
      the tokens of a step go to distinct cache slots ([Writes]);
      engine and output processor stay in sync ([LLMEngine]); mirrored input caches
      agree ([MMMapper]).
    - Memory of the v0 engine: through any sequence of allocations, appends, forks, frees
      and swaps, the block manager stores for each sequence its tokens, although blocks
      are shared and copied on write; its checks suffice for the calls they guard
      (without a sliding window; with one they do not, [sliding_window_check_unsound]).
    - Prefix caching of the v0 engine: blocks are shared only by equal tokens, unless
      their hashes collide, and counted exactly; no operation fails unless memory is
      exhausted, in histories without forks and swaps whose access times are new to the evictor ([pc_step]);
      the tracker finds the
      longest cached prefix where the cached blocks are one, and all of a prompt that was
      computed before ([orphan_block_counted]: they need not be a prefix).
    - Scheduling of the v0 engine: over any block manager that keeps the contract, every
      step of the engine returns, within the token and sequence budgets, with the tokens
      of every scheduled group stored; no group is lost or overtaken, aborting removes
      exactly what is named, and when no group is left all blocks are free; a group is
      ignored only if it exceeds the prompt limit or could never be allocated.  The theorems
      are for groups of one sequence, single-step scheduling, preemption by recomputation
      and no prefix caching.
    - Multi-modal prompts: replacing the targets changes nothing else; the placeholder
      ranges are disjoint and select the features of the items in order; for prompts with
      one token per item, whose replacements start differently, the whole procedure equals a
      single pass ([mm_same_start_swaps]: otherwise it need not); the cache of processed
      items never changes a result.
    - Text: streaming deltas add up to the full text, nothing is lost in decoding
      byte-level tokens, the first stop string of the list that appears cuts the text at its
      first occurrence.
    - Errors: what is refused, and the behaviours that end badly: they are stated as
      theorems too (see the findings of the manifest).

    ** Not modelled

    GPU code (attention, sampling kernels, CUDA graphs, profiling), executors, process
    start and sockets, the asynchronous client and the API server, log probabilities,
    wall-clock statistics, the rounding of sampling parameters to float32, and LoRA and priorities in the V1 engine;
    of the v0 engine the runner, request creation, speculative decoding and the
    asynchronous and multi-step paths of the engine.  The v0 block manager is modelled over
    the naive allocator; the prefix-caching allocator is a component of its own.  Modelled
    without theorems: forking and swapping of prefix-caching blocks, the sliding window of
    the v0 block tables, and swapping, multi-step scheduling and the asynchronous callback
    in the v0 scheduler.  Encoder results are assumed to reach the
    worker's cache ([encoder_arrived]); that transport is part of the executor.

    ** What could come next

    The encoder outputs in [Cluster] from the encoder core's results; the block manager
    over the prefix-caching allocator; progress of the v0 scheduler; creation of sequence
    groups. *)

From stdpp Require Import base tactics list gmap sets strings.
From Stdlib Require Import ZArith Lia.

Local Open Scope Z_scope.

(** ** Python exceptions and the result monad *)

(** The exceptions the modelled code raises.  [OutOfFuel] is not a Python
    exception: it marks a loop of the model that ran out of iterations, and the
    totality theorems show it is never returned. *)
Inductive py_exn : Type :=
  | AssertionError
  | AttributeError
  | IndexError
  | KeyError
  | NotImplementedError
  | RuntimeError
  | TypeError
  | ValueError
  | ZeroDivisionError
  | OutOfFuel.

#[export] Instance py_exn_eq_dec : EqDecision py_exn.
Proof. solve_decision. Defined.

Inductive result (A : Type) : Type :=
  | Ok (a : A)
  | Err (e : py_exn).
Arguments Ok {A} a.
Arguments Err {A} e.

#[export] Instance result_ret : MRet result := fun A a => Ok a.
#[export] Instance result_bind : MBind result := fun A B f m =>
  match m with Ok a => f a | Err e => Err e end.
#[export] Instance result_fmap : FMap result := fun A B f m =>
  match m with Ok a => Ok (f a) | Err e => Err e end.

(** [assert b] *)
Definition py_assert (b : bool) : result unit :=
  if b then Ok tt else Err AssertionError.

(** [raise e unless the option holds a value], used for [d\[k\]] and [l\[i\]] *)
Definition or_raise {A} (e : py_exn) (o : option A) : result A :=
  match o with Some a => Ok a | None => Err e end.

(** A [for x in l] loop whose body threads a state and may raise. *)
Fixpoint for_each {A S} (f : A -> S -> result S) (l : list A) (s : S) : result S :=
  match l with
  | [] => Ok s
  | x :: l => s' ← f x s; for_each f l s'
  end.

Lemma Ok_inj {A} (a b : A) : Ok a = Ok b -> a = b.
Proof. congruence. Qed.

Lemma bind_Ok_inv {A B} (m : result A) (f : A -> result B) y :
  m ≫= f = Ok y -> ∃ x, m = Ok x ∧ f x = Ok y.
Proof. destruct m; naive_solver. Qed.

Section result_lemmas.
Context {A : Type}.

Lemma py_assert_Ok (b : bool) u : py_assert b = Ok u -> b = true.
Proof. by destruct b. Qed.

Lemma or_raise_Ok e (o : option A) a : or_raise e o = Ok a -> o = Some a.
Proof. destruct o; naive_solver. Qed.

(** The loop rule: an invariant indexed by the elements still to visit. *)
Lemma for_each_ind {S} (P : list A -> S -> Prop) (f : A -> S -> result S) l s :
  P l s ->
  (∀ x l s, P (x :: l) s -> ∃ s', f x s = Ok s' ∧ P l s') ->
  ∃ s', for_each f l s = Ok s' ∧ P [] s'.
Proof.
  intros HP Hstep. revert s HP. induction l as [|x l IH]; intros s HP; [by eauto|].
  destruct (Hstep _ _ _ HP) as (s' & Hf & HP'). simpl. rewrite Hf. by apply IH.
Qed.

(** The loop rule that also remembers which elements were visited. *)
Lemma for_each_inv {S} (P : S -> Prop) (f : A -> S -> result S) l s s' :
  for_each f l s = Ok s' -> P s ->
  (∀ x s s', x ∈ l -> P s -> f x s = Ok s' -> P s') -> P s'.
Proof.
  revert s. induction l as [|x l IH]; intros s; simpl.
  - by intros [= ->].
  - intros (s1 & H1 & H2)%bind_Ok_inv HP Hstep. eapply IH; [done| |].
    + eapply Hstep; [by left|done..].
    + intros y t t' Hy. apply Hstep. by right.
Qed.
End result_lemmas.

(** Splits [m ≫= f = Ok y] hypotheses into the intermediate results. *)
Ltac res_inv :=
  repeat match goal with
  | H : mbind _ _ = Ok _ |- _ =>
      let x := fresh "x" in
      let H1 := fresh "Hr" in
      apply bind_Ok_inv in H as (x & H1 & H)
  | H : py_assert _ = Ok _ |- _ => apply py_assert_Ok in H
  | H : or_raise _ _ = Ok _ |- _ => apply or_raise_Ok in H
  | H : Ok _ = Ok _ |- _ => injection H as H
  | H : mret _ = Ok _ |- _ => injection H as H
  | H : Err _ = Ok _ |- _ => discriminate H
  | p : prod _ _ |- _ => destruct p
  | u : unit |- _ => destruct u
  end.

(** ** Python integer arithmetic *)

(** [a // b] *)
Definition py_floordiv (a b : Z) : result Z := if b =? 0 then Err ZeroDivisionError else Ok (a / b).

(** [vllm.utils.cdiv]: [-(a // -b)], with Python's floor division. *)
Definition cdiv (a b : Z) : Z := - (a / - b).

Lemma cdiv_spec a b : 0 < b -> (cdiv a b - 1) * b < a <= cdiv a b * b.
Proof.
  intros Hb. unfold cdiv.
  pose proof (Z.div_mod a (- b) ltac:(lia)) as Hd.
  pose proof (Z.mod_neg_bound a (- b) ltac:(lia)) as Hm. nia.
Qed.

Lemma cdiv_unique a b c : 0 < b -> (c - 1) * b < a <= c * b -> cdiv a b = c.
Proof. intros Hb Hc. pose proof (cdiv_spec a b Hb). nia. Qed.

Lemma cdiv_mono a a' b : 0 < b -> a <= a' -> cdiv a b <= cdiv a' b.
Proof. intros Hb Ha. pose proof (cdiv_spec a b Hb). pose proof (cdiv_spec a' b Hb). nia. Qed.

Lemma cdiv_nonneg a b : 0 < b -> 0 <= a -> 0 <= cdiv a b.
Proof. intros Hb Ha. pose proof (cdiv_spec a b Hb). nia. Qed.

Lemma cdiv_add_mul a b k : 0 < b -> cdiv (a + k * b) b = cdiv a b + k.
Proof. intros Hb. apply cdiv_unique; [done|]. pose proof (cdiv_spec a b Hb). nia. Qed.

Lemma div_le_cdiv a b : 0 < b -> a / b <= cdiv a b.
Proof.
  intros Hb. pose proof (cdiv_spec a b Hb).
  pose proof (Z.mul_div_le a b Hb). nia.
Qed.

(** ** Lists *)

(** [len(l)] as a Python integer. *)
Abbreviation len l := (Z.of_nat (length l)).

(** [l\[i:j\]] for non-negative bounds. *)
Definition slice {A} (l : list A) (i j : nat) : list A := take (j - i) (drop i l).

Lemma elem_of_concat {A} (x : A) (ls : list (list A)) : x ∈ concat ls <-> ∃ l, l ∈ ls ∧ x ∈ l.
Proof.
  rewrite list_elem_of_In, in_concat. by setoid_rewrite list_elem_of_In.
Qed.

Lemma slice_lookup {A} (l : list A) i j k :
  slice l i j !! k = if decide (i + k < j)%nat then l !! (i + k)%nat else None.
Proof.
  unfold slice. case_decide.
  - rewrite lookup_take_lt by lia. by rewrite lookup_drop.
  - by rewrite lookup_take_ge by lia.
Qed.

Lemma slice_length {A} (l : list A) i j :
  length (slice l i j) = (min (j - i) (length l - i))%nat.
Proof. unfold slice. rewrite length_take, length_drop. lia. Qed.

Lemma slice_app_drop {A} (l : list A) i j : (i <= j)%nat -> slice l i j ++ drop j l = drop i l.
Proof.
  intros H. unfold slice. rewrite <- (take_drop (j - i) (drop i l)) at 2. rewrite drop_drop.
  do 2 f_equal. lia.
Qed.

Lemma slice_to_end {A} (l : list A) i : slice l i (length l) = drop i l.
Proof. unfold slice. apply take_ge. by rewrite length_drop. Qed.

Lemma slice_app_l {A} (l k : list A) i j : (j <= length l)%nat -> slice (l ++ k) i j = slice l i j.
Proof.
  intros H. unfold slice. destruct (decide (i <= j)%nat).
  - rewrite drop_app_le by lia. by rewrite take_app_le by (rewrite length_drop; lia).
  - by replace (j - i)%nat with 0%nat by lia.
Qed.

(** The number of occurrences of [x] in [l]. *)
Fixpoint occ `{EqDecision A} (x : A) (l : list A) : Z :=
  match l with
  | [] => 0
  | y :: l => (if decide (x = y) then 1 else 0) + occ x l
  end.

Section occ_lemmas.
Context `{EqDecision A}.
Implicit Types (x : A) (l : list A).

Lemma occ_nonneg x l : 0 <= occ x l.
Proof. induction l; simpl; [|case_decide]; lia. Qed.

Lemma occ_app x l1 l2 : occ x (l1 ++ l2) = occ x l1 + occ x l2.
Proof. induction l1; simpl; lia. Qed.

Lemma occ_0 x l : occ x l = 0 <-> x ∉ l.
Proof.
  induction l as [|y l IH]; simpl; [set_solver|].
  pose proof (occ_nonneg x l). rewrite not_elem_of_cons, <-IH. case_decide; split; [lia|tauto|intros; split; [done|lia]|lia].
Qed.

Lemma occ_pos x l : x ∈ l -> 1 <= occ x l.
Proof.
  intros Hx. pose proof (occ_nonneg x l).
  destruct (decide (occ x l = 0)) as [E|]; [by apply occ_0 in E|lia].
Qed.

Lemma occ_reverse x l : occ x (reverse l) = occ x l.
Proof.
  induction l as [|y l IH]; [done|].
  rewrite reverse_cons, occ_app, IH. simpl. lia.
Qed.

Lemma occ_NoDup x l : NoDup l -> x ∈ l -> occ x l = 1.
Proof.
  induction 1 as [|y l Hy Hl IH]; simpl; [set_solver|].
  intros [->|Hx]%elem_of_cons.
  - rewrite decide_True by done. apply occ_0 in Hy. lia.
  - rewrite IH by done. rewrite decide_False by (by intros ->). lia.
Qed.
End occ_lemmas.

(** A Python [str] of generated text: its code points.  Identifiers, which are only
    compared, are Rocq strings. *)
Abbreviation pystr := (list Z).

(** The first element satisfying a boolean test is removed: [list.remove]. *)
Fixpoint remove_first {A} (p : A -> bool) (l : list A) : option (list A) :=
  match l with
  | [] => None
  | x :: l => if p x then Some l else (x ::.) <$> remove_first p l
  end.
