(* ===== verification/SamplingParams.v ===== *)
(** * Sampling parameters: [vllm/sampling_params.py]

    [SamplingArgs] are the constructor's arguments, [SamplingParams] the object that
    [__post_init__] leaves: normalised, validated, and with greedy requests forced
    to their canonical form.  A float is a [pyfloat]: a finite value, given exactly
    as a rational, an infinity or NaN, with Python's comparisons, under which every
    test on NaN is false.  The guided-decoding, logit-bias and logits-processor
    fields are passed through untouched by this code and left out.  [stop] takes the three forms of its Python type. *)

From stdpp Require Import base tactics list gmap sets strings.
From Stdlib Require Import ZArith QArith Qminmax Lia Lqa.
From S2P Require Import Prelude.

Local Open Scope Z_scope.

Inductive RequestOutputKind : Type := CUMULATIVE | DELTA | FINAL_ONLY.

#[export] Instance RequestOutputKind_eq_dec : EqDecision RequestOutputKind.
Proof. solve_decision. Defined.

(** [Optional[Union[str, List[str]]]] *)
Inductive StopArg : Type :=
  | no_stop
  | one_stop (s : pystr)
  | many_stops (l : list pystr).

(** ** Floats *)

(** A Python float.  A finite double is a rational number, kept exactly; the two zeros,
    which compare equal, are one value. *)
Inductive pyfloat : Type :=
  | Fin (q : Q)
  | PosInf
  | NegInf
  | NaN.

Bind Scope Q_scope with pyfloat.
Coercion Fin : Q >-> pyfloat.

(** [a <= b]: false as soon as one side is NaN *)
Definition fle (a b : pyfloat) : bool :=
  match a, b with
  | NaN, _ | _, NaN => false
  | NegInf, _ | _, PosInf => true
  | Fin x, Fin y => Qle_bool x y
  | _, _ => false
  end.

(** [a < b] *)
Definition flt (a b : pyfloat) : bool :=
  match a, b with
  | NaN, _ | _, NaN => false
  | _, _ => negb (fle b a)
  end.

(** [a == b] *)
Definition feq (a b : pyfloat) : bool := fle a b && fle b a.

(** Python's [max(a, b)], which returns [a] unless [b] is greater. *)
Definition fmax (a b : pyfloat) : pyfloat := if flt a b then b else a.

(** The constructor's arguments. *)
Record SamplingArgs : Type := mkSamplingArgs {
  arg_n : Z;
  arg_best_of : option Z;
  arg_real_n : option Z;
  arg_presence_penalty : pyfloat;
  arg_frequency_penalty : pyfloat;
  arg_repetition_penalty : pyfloat;
  arg_temperature : pyfloat;
  arg_top_p : pyfloat;
  arg_top_k : Z;
  arg_min_p : pyfloat;
  arg_seed : option Z;
  arg_stop : StopArg;
  arg_stop_token_ids : option (list Z);
  arg_bad_words : option (list pystr);
  arg_ignore_eos : bool;
  arg_max_tokens : option Z;
  arg_min_tokens : Z;
  arg_logprobs : option Z;
  arg_prompt_logprobs : option Z;
  arg_detokenize : bool;
  arg_skip_special_tokens : bool;
  arg_spaces_between_special_tokens : bool;
  arg_include_stop_str_in_output : bool;
  arg_truncate_prompt_tokens : option Z;
  arg_output_kind : RequestOutputKind;
}.

Record SamplingParams : Type := mkSamplingParams {
  sp_n : Z;
  best_of : option Z;
  _real_n : option Z;
  presence_penalty : pyfloat;
  frequency_penalty : pyfloat;
  repetition_penalty : pyfloat;
  temperature : pyfloat;
  top_p : pyfloat;
  top_k : Z;
  min_p : pyfloat;
  seed : option Z;
  stop : list pystr;
  stop_token_ids : option (list Z);
  bad_words : list pystr;
  ignore_eos : bool;
  sp_max_tokens : option Z;
  min_tokens : Z;
  logprobs : option Z;
  prompt_logprobs : option Z;
  detokenize : bool;
  skip_special_tokens : bool;
  spaces_between_special_tokens : bool;
  include_stop_str_in_output : bool;
  truncate_prompt_tokens : option Z;
  output_kind : RequestOutputKind;
  output_text_buffer_length : Z;
  all_stop_token_ids : gset Z;
}.

Inductive SamplingType : Type := GREEDY | RANDOM | RANDOM_SEED.

#[export] Instance SamplingType_eq_dec : EqDecision SamplingType.
Proof. solve_decision. Defined.

(** [_SAMPLING_EPS] is the double [1e-5], [_MAX_TEMP] the double [1e-2]. *)
Definition _SAMPLING_EPS : Q := 5902958103587057 # 590295810358705651712.
Definition _MAX_TEMP : Q := 5764607523034235 # 576460752303423488.

Definition sampling_type (sp : SamplingParams) : SamplingType :=
  if flt (temperature sp) _SAMPLING_EPS then GREEDY
  else match seed sp with Some _ => RANDOM_SEED | None => RANDOM end.

(** ** [__post_init__] *)

(** [if self.best_of]: zero and [None] are falsy. *)
Definition truthy (o : option Z) : bool :=
  match o with Some n => negb (n =? 0) | None => false end.

(** [best_of] becomes [n]; the original [n] is kept in [_real_n]. *)
Definition resolve_best_of (n : Z) (best_of real_n : option Z) : result (Z * option Z) :=
  match best_of with
  | Some b =>
      if b =? 0 then Ok (n, real_n)
      else if b <? n then Err ValueError
      else if truthy real_n then Ok (n, real_n) else Ok (b, Some n)
  | None => Ok (n, real_n)
  end.

(** A positive temperature becomes at least [_MAX_TEMP]; NaN passes the test
    [0 < temperature < _MAX_TEMP] neither way and stays. *)
Definition clamp_temperature (t : pyfloat) : pyfloat :=
  if flt 0 t && flt t _MAX_TEMP then fmax t _MAX_TEMP else t.

(** [max(len(s) for s in stop) - 1], or zero when nothing is held back *)
Definition stop_buffer (stops : list pystr) (include : bool) : Z :=
  if negb (bool_decide (stops = [])) && negb include
  then Z.of_nat (max_list (length <$> stops)) - 1 else 0.

(** [if not (cond): raise ValueError] *)
Definition require (b : bool) : result unit := if b then Ok tt else Err ValueError.

Definition opt_all (p : Z -> bool) (o : option Z) : bool :=
  match o with Some x => p x | None => true end.

Definition _verify_args (sp : SamplingParams) : result unit :=
  _ ← require (1 <=? sp_n sp);
  _ ← require (fle (-2) (presence_penalty sp) && fle (presence_penalty sp) 2);
  _ ← require (fle (-2) (frequency_penalty sp) && fle (frequency_penalty sp) 2);
  _ ← require (flt 0 (repetition_penalty sp) && fle (repetition_penalty sp) 2);
  (* [if self.temperature < 0.0: raise] *)
  _ ← require (negb (flt (temperature sp) 0));
  _ ← require (flt 0 (top_p sp) && fle (top_p sp) 1);
  _ ← require ((-1 <=? top_k sp) && negb (top_k sp =? 0));
  _ ← require (fle 0 (min_p sp) && fle (min_p sp) 1);
  _ ← require (opt_all (fun m => 1 <=? m) (sp_max_tokens sp));
  _ ← require (0 <=? min_tokens sp);
  _ ← require (opt_all (fun m => min_tokens sp <=? m) (sp_max_tokens sp));
  _ ← require (opt_all (fun n => 0 <=? n) (logprobs sp));
  _ ← require (opt_all (fun n => 0 <=? n) (prompt_logprobs sp));
  _ ← require (opt_all (fun n => 1 <=? n) (truncate_prompt_tokens sp));
  _ ← require (bool_decide (Forall (.≠ []) (stop sp)));
  _ ← require (bool_decide (stop sp = []) || detokenize sp);
  require (bool_decide (best_of sp = _real_n sp) || negb (bool_decide (output_kind sp = DELTA))).

Definition _verify_greedy_sampling (sp : SamplingParams) : result unit := require (sp_n sp <=? 1).

(** The fields a greedy request is forced to. *)
Definition as_greedy (sp : SamplingParams) : SamplingParams :=
  mkSamplingParams (sp_n sp) (best_of sp) (_real_n sp) (presence_penalty sp)
    (frequency_penalty sp) (repetition_penalty sp) (temperature sp) 1 (-1) 0 (seed sp) (stop sp)
    (stop_token_ids sp) (bad_words sp) (ignore_eos sp) (sp_max_tokens sp) (min_tokens sp)
    (logprobs sp) (prompt_logprobs sp) (detokenize sp) (skip_special_tokens sp)
    (spaces_between_special_tokens sp) (include_stop_str_in_output sp)
    (truncate_prompt_tokens sp) (output_kind sp) (output_text_buffer_length sp)
    (all_stop_token_ids sp).

Definition __post_init__ (a : SamplingArgs) : result SamplingParams :=
  '(n, real_n) ← resolve_best_of (arg_n a) (arg_best_of a) (arg_real_n a);
  let temp := clamp_temperature (arg_temperature a) in
  let seed := if bool_decide (arg_seed a = Some (-1)) then None else arg_seed a in
  let stops := match arg_stop a with no_stop => [] | one_stop s => [s] | many_stops l => l end in
  let stop_ids := default [] (arg_stop_token_ids a) in
  let sp := mkSamplingParams n (arg_best_of a) real_n (arg_presence_penalty a)
    (arg_frequency_penalty a) (arg_repetition_penalty a) temp (arg_top_p a) (arg_top_k a)
    (arg_min_p a) seed stops (Some stop_ids) (default [] (arg_bad_words a)) (arg_ignore_eos a)
    (arg_max_tokens a) (arg_min_tokens a) (arg_logprobs a) (arg_prompt_logprobs a)
    (arg_detokenize a) (arg_skip_special_tokens a) (arg_spaces_between_special_tokens a)
    (arg_include_stop_str_in_output a) (arg_truncate_prompt_tokens a) (arg_output_kind a)
    (stop_buffer stops (arg_include_stop_str_in_output a)) (list_to_set stop_ids) in
  _ ← _verify_args sp;
  if flt temp _SAMPLING_EPS then
    let sp := as_greedy sp in
    _ ← _verify_greedy_sampling sp;
    Ok sp
  else Ok sp.

(** ** [update_from_generation_config] *)

Definition with_stop_ids (sp : SamplingParams) (ids : option (list Z)) (all : gset Z) : SamplingParams :=
  mkSamplingParams (sp_n sp) (best_of sp) (_real_n sp) (presence_penalty sp)
    (frequency_penalty sp) (repetition_penalty sp) (temperature sp) (top_p sp) (top_k sp)
    (min_p sp) (seed sp) (stop sp) ids (bad_words sp) (ignore_eos sp) (sp_max_tokens sp)
    (min_tokens sp) (logprobs sp) (prompt_logprobs sp) (detokenize sp) (skip_special_tokens sp)
    (spaces_between_special_tokens sp) (include_stop_str_in_output sp)
    (truncate_prompt_tokens sp) (output_kind sp) (output_text_buffer_length sp) all.

(** The order of [list(eos_ids)] is the set's; [elements] stands for it. *)
Definition update_from_generation_config (sp : SamplingParams) (config_eos : option (list Z))
    (model_eos_token_id : option Z) : SamplingParams :=
  let all := match model_eos_token_id with
             | Some e => {[e]} ∪ all_stop_token_ids sp
             | None => all_stop_token_ids sp
             end in
  match config_eos with
  | None => with_stop_ids sp (stop_token_ids sp) all
  | Some l =>
      let eos_ids : gset Z := list_to_set l ∖ match model_eos_token_id with
                                              | Some e => {[e]} | None => ∅ end in
      if bool_decide (eos_ids = ∅) then with_stop_ids sp (stop_token_ids sp) all
      else
        with_stop_ids sp
          (if ignore_eos sp then stop_token_ids sp
           else Some (elements (eos_ids ∪ list_to_set (default [] (stop_token_ids sp)))))
          (all ∪ eos_ids)
  end.

(** Greedy sampling without penalties, limited to [n] tokens. *)
Definition plain_sampling (n : option Z) : SamplingParams :=
  mkSamplingParams 1 None None 0 0 1 0 1 (-1) 0 None [] None [] false n 0 None None true true true
    false None CUMULATIVE 0 ∅.

Definition with_temperature (t : pyfloat) (sp : SamplingParams) : SamplingParams :=
  mkSamplingParams (sp_n sp) (best_of sp) (_real_n sp) (presence_penalty sp)
    (frequency_penalty sp) (repetition_penalty sp) t (top_p sp) (top_k sp)
    (min_p sp) (seed sp) (stop sp) (stop_token_ids sp) (bad_words sp) (ignore_eos sp)
    (sp_max_tokens sp) (min_tokens sp) (logprobs sp) (prompt_logprobs sp) (detokenize sp)
    (skip_special_tokens sp) (spaces_between_special_tokens sp) (include_stop_str_in_output sp)
    (truncate_prompt_tokens sp) (output_kind sp) (output_text_buffer_length sp)
    (all_stop_token_ids sp).

(** ** What validation guarantees *)

(** A finite float in a range. *)
Definition finite_in (P : Q -> Prop) (f : pyfloat) : Prop := ∃ q, f = Fin q ∧ P q.

(** The temperatures that validation lets through. *)
Definition temperature_ok (t : pyfloat) : Prop :=
  finite_in (fun q => q == 0 ∨ _MAX_TEMP <= q)%Q t ∨ t = PosInf ∨ t = NaN.

Record params_wf (sp : SamplingParams) : Prop := {
  pw_n : 1 <= sp_n sp;
  pw_presence : finite_in (fun q => -2 <= q <= 2)%Q (presence_penalty sp);
  pw_frequency : finite_in (fun q => -2 <= q <= 2)%Q (frequency_penalty sp);
  pw_repetition : finite_in (fun q => 0 < q <= 2)%Q (repetition_penalty sp);
  pw_temperature : temperature_ok (temperature sp);
  pw_top_p : finite_in (fun q => 0 < q <= 1)%Q (top_p sp);
  pw_top_k : top_k sp = -1 ∨ 1 <= top_k sp;
  pw_min_p : finite_in (fun q => 0 <= q <= 1)%Q (min_p sp);
  pw_tokens : 0 <= min_tokens sp ∧
    ∀ m, sp_max_tokens sp = Some m -> 1 <= m ∧ min_tokens sp <= m;
  pw_logprobs : ∀ k, logprobs sp = Some k ∨ prompt_logprobs sp = Some k -> 0 <= k;
  pw_stop : Forall (.≠ []) (stop sp) ∧ (stop sp ≠ [] -> detokenize sp = true);
  pw_seed : seed sp ≠ Some (-1);
  pw_buffer : output_text_buffer_length sp = stop_buffer (stop sp) (include_stop_str_in_output sp);
  pw_stop_ids : ∃ l, stop_token_ids sp = Some l ∧ all_stop_token_ids sp = list_to_set l;
  pw_best_of : ∀ b, best_of sp = Some b -> b ≠ 0 -> sp_n sp <= b;
  pw_delta : output_kind sp = DELTA -> best_of sp = _real_n sp;
  (* the canonical form of a greedy request *)
  pw_greedy : sampling_type sp = GREEDY ->
    sp_n sp = 1 ∧ top_p sp = Fin 1 ∧ top_k sp = -1 ∧ min_p sp = Fin 0;
}.

Lemma require_Ok b u : require b = Ok u -> b = true.
Proof. by destruct b. Qed.

Lemma fle_Fin (x y : Q) : fle x y = true <-> (x <= y)%Q.
Proof. apply Qle_bool_iff. Qed.

Lemma flt_Fin (x y : Q) : flt x y = true <-> (x < y)%Q.
Proof.
  cbn. rewrite negb_true_iff, <- not_true_iff_false, Qle_bool_iff.
  split; [apply Qnot_le_lt|apply Qlt_not_le].
Qed.

(** Chained comparisons with finite bounds hold of finite values only. *)
Lemma between_finite (a b : Q) f :
  fle a f && fle f b = true -> finite_in (fun q => a <= q <= b)%Q f.
Proof.
  intros [H1 H2]%andb_true_iff. destruct f as [q| | |]; try done. exists q. rewrite !fle_Fin in *. done.
Qed.

Lemma above_finite (a b : Q) f :
  flt a f && fle f b = true -> finite_in (fun q => a < q <= b)%Q f.
Proof.
  intros [H1 H2]%andb_true_iff. destruct f as [q| | |]; try done. exists q.
  rewrite flt_Fin in H1. rewrite fle_Fin in H2. done.
Qed.

Lemma opt_all_spec p o x : opt_all p o = true -> o = Some x -> p x = true.
Proof. by intros H ->. Qed.

Lemma resolve_best_of_spec n b r n' r' :
  resolve_best_of n b r = Ok (n', r') -> ∀ k, b = Some k -> k ≠ 0 -> n' <= k.
Proof.
  intros H k -> Hk. cbn in H. repeat case_match; simplify_eq; rewrite ?Z.eqb_eq, ?Z.ltb_lt, ?Z.ltb_ge in *; lia.
Qed.

(** Turns the boolean tests of the validation into propositions. *)
Ltac check_facts :=
  repeat match goal with
  | H : require _ = Ok _ |- _ => apply require_Ok in H
  | H : fle _ _ && fle _ _ = true |- _ => apply between_finite in H
  | H : flt _ _ && fle _ _ = true |- _ => apply above_finite in H
  | H : (_ <=? _) && _ = true |- _ => apply andb_true_iff in H as [? ?]
  | H : negb (flt _ _) = true |- _ => apply negb_true_iff in H
  | H : (_ <=? _) = true |- _ => apply Z.leb_le in H
  | H : negb (_ =? _) = true |- _ => apply negb_true_iff, Z.eqb_neq in H
  | H : bool_decide _ = true |- _ => apply bool_decide_eq_true in H
  end.

(** [_verify_args] accepts only parameters in range. *)
Lemma verify_args_spec sp u :
  _verify_args sp = Ok u ->
  1 <= sp_n sp ∧ finite_in (fun q => -2 <= q <= 2)%Q (presence_penalty sp) ∧
  finite_in (fun q => -2 <= q <= 2)%Q (frequency_penalty sp) ∧
  finite_in (fun q => 0 < q <= 2)%Q (repetition_penalty sp) ∧ flt (temperature sp) 0 = false ∧
  finite_in (fun q => 0 < q <= 1)%Q (top_p sp) ∧
  (top_k sp = -1 ∨ 1 <= top_k sp) ∧ finite_in (fun q => 0 <= q <= 1)%Q (min_p sp) ∧
  (0 <= min_tokens sp ∧ ∀ m, sp_max_tokens sp = Some m -> 1 <= m ∧ min_tokens sp <= m) ∧
  (∀ k, logprobs sp = Some k ∨ prompt_logprobs sp = Some k -> 0 <= k) ∧
  (Forall (.≠ []) (stop sp) ∧ (stop sp ≠ [] -> detokenize sp = true)) ∧
  (output_kind sp = DELTA -> best_of sp = _real_n sp).
Proof.
  unfold _verify_args. intros H. res_inv. check_facts. split_and!; try done.
  - lia.
  - intros m Hm. apply opt_all_spec with (x := m) in Hr7, Hr9; [|done..]. lia.
  - intros k [Hk|Hk]; eapply opt_all_spec in Hk; [apply Z.leb_le, Hk|done|apply Z.leb_le, Hk|done].
  - intros Hs. apply orb_true_iff in Hr14 as [?%bool_decide_eq_true|]; done.
  - intros Hd. apply orb_true_iff in H as [H|H]; [by apply bool_decide_eq_true in H|].
    by rewrite bool_decide_eq_true_2 in H.
Qed.

Lemma clamp_temperature_spec t :
  flt (clamp_temperature t) 0 = false -> temperature_ok (clamp_temperature t).
Proof.
  unfold clamp_temperature, fmax. destruct (flt 0 t && flt t _MAX_TEMP) eqn:E; intros H.
  - apply andb_true_iff in E as [_ E]. rewrite E. left. exists _MAX_TEMP. split; [done|right; apply Qle_refl].
  - destruct t as [q| | |]; [left|by right; left|done|by right; right]. exists q. split; [done|].
    rewrite <- not_true_iff_false, flt_Fin in H. apply Qnot_lt_le in H.
    apply andb_false_iff in E. rewrite <- !not_true_iff_false, !flt_Fin in E.
    destruct E as [E|E]; apply Qnot_lt_le in E; [left; by apply Qle_antisym|by right].
Qed.

Lemma clamp_temperature_id t : temperature_ok t -> clamp_temperature t = t.
Proof.
  intros [(q & -> & Ht)|[->| ->]]; [|done..]. unfold clamp_temperature.
  destruct (flt 0 q && flt q _MAX_TEMP) eqn:E; [|done].
  apply andb_true_iff in E as [E1%flt_Fin E2%flt_Fin].
  destruct Ht as [Ht|Ht]; [rewrite Ht in E1; by apply Qlt_irrefl in E1|]. by apply Qle_not_lt in Ht.
Qed.

(** The object before a greedy request is made canonical. *)
Lemma post_init_inv a sp :
  __post_init__ a = Ok sp ->
  ∃ sp0, _verify_args sp0 = Ok tt ∧
    (sp = sp0 ∧ flt (temperature sp0) _SAMPLING_EPS = false ∨
     sp = as_greedy sp0 ∧ flt (temperature sp0) _SAMPLING_EPS = true ∧ sp_n sp0 <= 1) ∧
    resolve_best_of (arg_n a) (arg_best_of a) (arg_real_n a) = Ok (sp_n sp0, _real_n sp0) ∧
    best_of sp0 = arg_best_of a ∧ temperature sp0 = clamp_temperature (arg_temperature a) ∧
    seed sp0 ≠ Some (-1) ∧
    output_text_buffer_length sp0 = stop_buffer (stop sp0) (include_stop_str_in_output sp0) ∧
    (∃ l, stop_token_ids sp0 = Some l ∧ all_stop_token_ids sp0 = list_to_set l).
Proof.
  unfold __post_init__. intros ([n r] & E1 & H)%bind_Ok_inv. rewrite E1.
  apply bind_Ok_inv in H as ([] & E2 & H). eexists. split; [exact E2|]. clear E2.
  cbn [sp_n _real_n best_of temperature seed output_text_buffer_length stop stop_token_ids
       all_stop_token_ids include_stop_str_in_output]. split; [|split_and!; try done; [|by eexists]].
  - destruct (flt (clamp_temperature _) _SAMPLING_EPS) eqn:Eg.
    + right. apply bind_Ok_inv in H as ([] & E3%require_Ok & H). injection H as <-.
      split; [done|]. split; [done|]. apply Z.leb_le in E3. exact E3.
    + left. by injection H as <-.
  - by case_bool_decide.
Qed.

(** Validation leaves well-formed parameters. *)
Lemma post_init_wf a sp : __post_init__ a = Ok sp -> params_wf sp.
Proof.
  intros (sp0 & Hv & Hg & Hb & Hbo & Ht & Hseed & Hbuf & Hids)%post_init_inv.
  apply verify_args_spec in Hv as (V1 & V2 & V3 & V4 & V5 & V6 & V7 & V8 & V9 & V10 & V11 & V12).
  rewrite <- Hbo in Hb.
  assert (W : ∀ k, best_of sp0 = Some k -> k ≠ 0 -> sp_n sp0 <= k) by (eapply resolve_best_of_spec, Hb).
  rewrite Ht in V5. pose proof (clamp_temperature_spec _ V5) as Hc. rewrite <- Ht in Hc.
  destruct Hg as [[-> Hg]|(-> & Hg & Hn)]; split; try done; cbn.
  - intros Hs. unfold sampling_type in Hs. rewrite Hg in Hs. by destruct (seed sp0).
  - by exists 1%Q.
  - by left.
  - by exists 0%Q.
  - intros _. split_and!; [lia|done..].
Qed.

(** The constructor arguments that rebuild an object, as decoding and copying do. *)
Definition args_of (sp : SamplingParams) : SamplingArgs :=
  mkSamplingArgs (sp_n sp) (best_of sp) (_real_n sp) (presence_penalty sp)
    (frequency_penalty sp) (repetition_penalty sp) (temperature sp) (top_p sp) (top_k sp)
    (min_p sp) (seed sp) (many_stops (stop sp)) (stop_token_ids sp) (Some (bad_words sp))
    (ignore_eos sp) (sp_max_tokens sp) (min_tokens sp) (logprobs sp) (prompt_logprobs sp)
    (detokenize sp) (skip_special_tokens sp) (spaces_between_special_tokens sp)
    (include_stop_str_in_output sp) (truncate_prompt_tokens sp) (output_kind sp).

Lemma resolve_best_of_again n b r n' r' :
  resolve_best_of n b r = Ok (n', r') -> r' ≠ Some 0 -> resolve_best_of n' b r' = Ok (n', r').
Proof.
  unfold resolve_best_of, truthy. intros H Hr. repeat case_match; simplify_eq; try done;
    rewrite ?Z.eqb_eq, ?Z.eqb_neq, ?Z.ltb_lt, ?Z.ltb_ge, ?negb_true_iff, ?negb_false_iff in *; try lia.
  all: repeat match goal with H : (_ =? _) = true |- _ => apply Z.eqb_eq in H end; subst; done.
Qed.

Lemma verify_as_greedy sp : _verify_args sp = Ok tt -> _verify_args (as_greedy sp) = Ok tt.
Proof.
  unfold _verify_args. intros H.
  repeat (apply bind_Ok_inv in H as ([] & ?%require_Ok & H)). apply require_Ok in H.
  cbn [as_greedy sp_n presence_penalty frequency_penalty repetition_penalty temperature top_p top_k
    min_p sp_max_tokens min_tokens logprobs prompt_logprobs truncate_prompt_tokens stop detokenize
    best_of _real_n output_kind].
  by repeat match goal with E : ?b = true |- context [require ?b] => rewrite E; cbn [require mbind result_bind] end.
Qed.

(** C38: constructing [SamplingParams] either raises or gives well-formed
    parameters: penalties, [top_p] and [min_p] finite and in their ranges, [top_k] and
    the token limits in theirs, stop strings non-empty, the seed sentinel -1 replaced,
    the stop-string buffer computed, and a greedy request in its canonical form.  The
    temperature is zero, at least [_MAX_TEMP], infinite or NaN: the test
    [temperature < 0.0] is false of NaN, which therefore passes.  Rebuilding the object from its
    fields, which is what decoding and copying do, gives the same object, unless
    an [n] of zero slipped in through [best_of]. *)
Theorem sampling_params_wf a sp :
  __post_init__ a = Ok sp ->
  params_wf sp ∧ (_real_n sp ≠ Some 0 -> __post_init__ (args_of sp) = Ok sp).
Proof.
  intros Hi. pose proof (post_init_wf a sp Hi) as Hwf. split; [done|]. intros Hr.
  apply post_init_inv in Hi as (sp0 & Hv & Hg & Hb & Hbo & Ht & _).
  assert (Hv' : _verify_args sp = Ok tt).
  { destruct Hg as [[-> _]|(-> & _)]; [done|by apply verify_as_greedy]. }
  assert (Hb' : resolve_best_of (sp_n sp) (best_of sp) (_real_n sp) = Ok (sp_n sp, _real_n sp)).
  { rewrite <- Hbo in Hb. destruct Hg as [[-> _]|(-> & _)]; by apply resolve_best_of_again in Hb. }
  destruct (pw_stop_ids _ Hwf) as (l & Hl & Hall). pose proof (pw_greedy _ Hwf) as Hgr.
  pose proof (pw_buffer _ Hwf) as Hbuf.
  unfold __post_init__. cbn [args_of arg_n arg_best_of arg_real_n arg_temperature arg_seed]. rewrite Hb'.
  cbn [mbind result_bind]. rewrite (clamp_temperature_id _ (pw_temperature _ Hwf)).
  rewrite (bool_decide_eq_false_2 _ (pw_seed _ Hwf)).
  destruct sp as [n bo rn pp fp rp t p k mp sd st ids bw ie mt mint lp plp dt sk spc inc tr ok buf all].
  cbn in *. subst ids buf all. cbn [from_option id]. rewrite Hv'.
  unfold sampling_type in Hgr. cbn [temperature seed] in Hgr.
  destruct (flt t _SAMPLING_EPS); [|done]. destruct Hgr as (-> & -> & -> & ->); done.
Qed.

(** A NaN temperature is accepted, and the request counts as a random one; a NaN in any
    other float field is rejected. *)
Theorem nan_temperature_accepted :
  ∃ sp, __post_init__ (mkSamplingArgs 1 None None 0 0 1 NaN 1 (-1) 0 None no_stop None None false
      (Some 16) 0 None None true true true false None CUMULATIVE) = Ok sp ∧
    temperature sp = NaN ∧ sampling_type sp = RANDOM.
Proof. eexists. split; [vm_compute; reflexivity|]. done. Qed.

(** A random request with a small temperature, two stop strings and [best_of]. *)
Definition demo_args : SamplingArgs :=
  mkSamplingArgs 1 (Some 2) None 0 0 1 (1 # 1000) (9 # 10) 5 0 (Some (-1))
    (many_stops [[46; 10]; [33]]) None None false (Some 16) 0 None None true true true false None
    CUMULATIVE.

Lemma sampling_params_wf_witness :
  ∃ sp, __post_init__ demo_args = Ok sp ∧ params_wf sp ∧ output_text_buffer_length sp = 1.
Proof.
  destruct (__post_init__ demo_args) as [sp|] eqn:E; [|vm_compute in E; congruence].
  exists sp. split; [done|]. split; [apply (sampling_params_wf demo_args sp E)|].
  vm_compute in E. injection E as <-. reflexivity.
Defined.

(** [n = 0] passes the check that [n] is at least one when [best_of] is given,
    because [__post_init__] replaces [n] by [best_of] before it validates. *)
Theorem zero_n_accepted :
  ∃ sp, __post_init__ (mkSamplingArgs 0 (Some 1) None 0 0 1 1 1 (-1) 0 None no_stop None None false
      (Some 16) 0 None None true true true false None CUMULATIVE) = Ok sp ∧ _real_n sp = Some 0.
Proof. eexists. split; vm_compute; reflexivity. Qed.
