(* ===== verification/Request.v ===== *)
(** * Requests: [vllm/v1/request.py] and the engine's wire types

    [Request] is the per-request record the schedulers mutate.  Its methods are
    state-passing functions; the read-only [ConstantList] views alias the private
    lists, so one field stands for both.  [EngineCoreRequest], [EngineCoreOutput]
    and [FinishReason] come from [vllm/v1/engine/__init__.py].

    Not carried over: [metrics], [arrival_time] and [lora_request], which no
    modelled operation reads (the schedulers assert that LoRA is off).  Tensors
    ([MultiModalKwargs]) are opaque handles of type [MMKwargs]. *)

From stdpp Require Import base tactics list gmap strings.
From Stdlib Require Import ZArith QArith Lia.
From S2P Require Import Prelude.
From S2P Require Import SamplingParams.

Local Open Scope Z_scope.

(** A handle on preprocessed multi-modal tensors. *)
Definition MMKwargs := nat.

(** ** Wire types *)

Inductive FinishReason : Type := STOP | LENGTH | ABORT.

#[export] Instance FinishReason_eq_dec : EqDecision FinishReason.
Proof. solve_decision. Defined.

(** [FinishReason.__str__] indexes [FINISH_REASON_STRINGS] with the enum value. *)
Definition FinishReason_str (r : FinishReason) : string :=
  match r with STOP => "stop" | LENGTH => "length" | ABORT => "abort" end.

(** [stop_reason: Union[int, str, None]] *)
Inductive StopReason : Type :=
  | stop_int (token : Z)
  | stop_str (s : pystr).

(** [PlaceholderRange]: where an encoder input's tokens sit in the prompt. *)
Record PlaceholderRange : Type := mkPlaceholder {
  offset : Z;
  length_ : Z;
}.

Record EngineCoreRequest : Type := mkEngineCoreRequest {
  ecr_request_id : string;
  ecr_prompt : option string;
  ecr_prompt_token_ids : list Z;
  ecr_mm_inputs : option (list (option MMKwargs));
  ecr_mm_hashes : option (list string);
  ecr_mm_placeholders : option (list PlaceholderRange);
  ecr_sampling_params : SamplingParams;
  ecr_eos_token_id : option Z;
}.

Record EngineCoreOutput : Type := mkEngineCoreOutput {
  eco_request_id : string;
  eco_new_token_ids : list Z;
  eco_finished : bool;
  eco_finish_reason : option FinishReason;
  eco_stop_reason : option StopReason;
}.

(** ** Block hashes, as stored in a request *)

(** [BlockHashType]: the hash of a full block, its tokens and its extra keys. *)
Record BlockHashType : Type := mkBlockHash {
  hash_value : Z;
  token_ids : list Z;
  extra_keys : option (list string);
}.

#[export] Instance BlockHashType_eq_dec : EqDecision BlockHashType.
Proof. solve_decision. Defined.

#[export] Instance BlockHashType_countable : Countable BlockHashType.
Proof.
  refine (inj_countable' (fun h => (hash_value h, token_ids h, extra_keys h))
    (fun '(v, t, k) => mkBlockHash v t k) _); by intros [].
Defined.

(** ** Request status *)

Inductive RequestStatus : Type :=
  | WAITING
  | RUNNING
  | PREEMPTED
  | FINISHED_STOPPED
  | FINISHED_LENGTH_CAPPED
  | FINISHED_ABORTED
  | FINISHED_IGNORED.

#[export] Instance RequestStatus_eq_dec : EqDecision RequestStatus.
Proof. solve_decision. Defined.

(** The value of the [IntEnum] member. *)
Definition status_value (s : RequestStatus) : Z :=
  match s with
  | WAITING => 0
  | RUNNING => 1
  | PREEMPTED => 2
  | FINISHED_STOPPED => 3
  | FINISHED_LENGTH_CAPPED => 4
  | FINISHED_ABORTED => 5
  | FINISHED_IGNORED => 6
  end.

(** [RequestStatus.is_finished]: [status > RequestStatus.PREEMPTED]. *)
Definition status_is_finished (s : RequestStatus) : bool :=
  status_value PREEMPTED <? status_value s.

(** [_FINISHED_REASON_MAP.get(status)] *)
Definition status_finished_reason (s : RequestStatus) : option FinishReason :=
  match s with
  | FINISHED_STOPPED => Some STOP
  | FINISHED_LENGTH_CAPPED => Some LENGTH
  | FINISHED_ABORTED => Some ABORT
  | FINISHED_IGNORED => Some LENGTH
  | _ => None
  end.

(** ** The request object *)

Record Request : Type := mkRequest {
  request_id : string;
  sampling_params : SamplingParams;
  eos_token_id : option Z;
  status : RequestStatus;
  stop_reason : option StopReason;
  max_tokens : Z;
  prompt : option string;
  prompt_token_ids : list Z;
  num_prompt_tokens : Z;
  output_token_ids : list Z;
  all_token_ids : list Z;
  num_computed_tokens : Z;
  mm_positions : list PlaceholderRange;
  mm_inputs : list (option MMKwargs);
  mm_hashes : list string;
  kv_block_hashes : list BlockHashType;
}.

(** [Request.__init__], with its three assertions; [x or \[\]] turns [None] into
    the empty list. *)
Definition Request_init (rid : string) (prompt : option string) (toks : list Z)
    (mm_in : option (list (option MMKwargs))) (hashes : option (list string))
    (places : option (list PlaceholderRange)) (sp : SamplingParams)
    (eos : option Z) : result Request :=
  mt ← or_raise AssertionError (sp_max_tokens sp);
  let positions := default [] places in
  let inputs := default [] mm_in in
  let mmh := default [] hashes in
  _ ← py_assert (bool_decide (length inputs = length positions));
  _ ← py_assert (bool_decide (mmh = []) ||
                 bool_decide (length inputs = length mmh));
  Ok {| request_id := rid; sampling_params := sp; eos_token_id := eos;
        status := WAITING; stop_reason := None; max_tokens := mt;
        prompt := prompt; prompt_token_ids := toks;
        num_prompt_tokens := len toks; output_token_ids := [];
        all_token_ids := toks; num_computed_tokens := 0;
        mm_positions := positions; mm_inputs := inputs; mm_hashes := mmh;
        kv_block_hashes := [] |}.

Definition from_engine_core_request (r : EngineCoreRequest) : result Request :=
  Request_init (ecr_request_id r) (ecr_prompt r) (ecr_prompt_token_ids r)
    (ecr_mm_inputs r) (ecr_mm_hashes r) (ecr_mm_placeholders r)
    (ecr_sampling_params r) (ecr_eos_token_id r).

(** Attribute assignments on the request object. *)
Definition set_status (st : RequestStatus) (r : Request) : Request :=
  mkRequest (request_id r) (sampling_params r) (eos_token_id r) st
    (stop_reason r) (max_tokens r) (prompt r) (prompt_token_ids r)
    (num_prompt_tokens r) (output_token_ids r) (all_token_ids r)
    (num_computed_tokens r) (mm_positions r) (mm_inputs r) (mm_hashes r)
    (kv_block_hashes r).

Definition set_stop_reason (sr : option StopReason) (r : Request) : Request :=
  mkRequest (request_id r) (sampling_params r) (eos_token_id r) (status r) sr
    (max_tokens r) (prompt r) (prompt_token_ids r) (num_prompt_tokens r)
    (output_token_ids r) (all_token_ids r) (num_computed_tokens r)
    (mm_positions r) (mm_inputs r) (mm_hashes r) (kv_block_hashes r).

Definition set_num_computed_tokens (nc : Z) (r : Request) : Request :=
  mkRequest (request_id r) (sampling_params r) (eos_token_id r) (status r)
    (stop_reason r) (max_tokens r) (prompt r) (prompt_token_ids r)
    (num_prompt_tokens r) (output_token_ids r) (all_token_ids r) nc
    (mm_positions r) (mm_inputs r) (mm_hashes r) (kv_block_hashes r).

Definition set_kv_block_hashes (kh : list BlockHashType) (r : Request) : Request :=
  mkRequest (request_id r) (sampling_params r) (eos_token_id r) (status r)
    (stop_reason r) (max_tokens r) (prompt r) (prompt_token_ids r)
    (num_prompt_tokens r) (output_token_ids r) (all_token_ids r)
    (num_computed_tokens r) (mm_positions r) (mm_inputs r) (mm_hashes r) kh.

Definition append_kv_block_hashes (h : BlockHashType) (r : Request) : Request :=
  set_kv_block_hashes (kv_block_hashes r ++ [h]) r.

(** [append_output_token_ids]: both lists grow together. *)
Definition append_output_token_ids (toks : list Z) (r : Request) : Request :=
  mkRequest (request_id r) (sampling_params r) (eos_token_id r) (status r)
    (stop_reason r) (max_tokens r) (prompt r) (prompt_token_ids r)
    (num_prompt_tokens r) (output_token_ids r ++ toks)
    (all_token_ids r ++ toks) (num_computed_tokens r) (mm_positions r)
    (mm_inputs r) (mm_hashes r) (kv_block_hashes r).

Definition num_tokens (r : Request) : Z := len (all_token_ids r).
Definition num_output_tokens (r : Request) : Z := len (output_token_ids r).
Definition is_finished (r : Request) : bool := status_is_finished (status r).
Definition get_finished_reason (r : Request) : option FinishReason :=
  status_finished_reason (status r).
Definition has_encoder_inputs (r : Request) : bool := 0 <? len (mm_inputs r).
Definition num_encoder_inputs (r : Request) : Z := len (mm_positions r).

(** [get_num_encoder_tokens]: the bound is asserted. *)
Definition get_num_encoder_tokens (r : Request) (input_id : nat) : result Z :=
  p ← or_raise AssertionError (mm_positions r !! input_id);
  Ok (length_ p).

(** ** The request invariant *)

(** What [__init__] establishes and every method keeps: the token lists agree,
    and the multi-modal lists have matching lengths. *)
Record request_wf (r : Request) : Prop := {
  rwf_tokens : all_token_ids r = prompt_token_ids r ++ output_token_ids r;
  rwf_prompt : num_prompt_tokens r = len (prompt_token_ids r);
  rwf_mm : length (mm_inputs r) = length (mm_positions r);
  rwf_hashes : mm_hashes r = [] ∨ length (mm_hashes r) = length (mm_inputs r);
}.

Create HintDb request.

Lemma set_status_wf st r : request_wf r -> request_wf (set_status st r).
Proof. by intros []. Qed.
Lemma set_stop_reason_wf sr r : request_wf r -> request_wf (set_stop_reason sr r).
Proof. by intros []. Qed.
Lemma set_num_computed_tokens_wf n r :
  request_wf r -> request_wf (set_num_computed_tokens n r).
Proof. by intros []. Qed.
Lemma set_kv_block_hashes_wf h r :
  request_wf r -> request_wf (set_kv_block_hashes h r).
Proof. by intros []. Qed.
Lemma append_output_token_ids_wf t r :
  request_wf r -> request_wf (append_output_token_ids t r).
Proof.
  intros []; constructor; simpl in *; try done.
  by rewrite rwf_tokens0, app_assoc.
Qed.
#[export] Hint Resolve set_status_wf set_stop_reason_wf set_num_computed_tokens_wf
  set_kv_block_hashes_wf append_output_token_ids_wf : request.

(** ** Theorems *)

(** A request is finished exactly when it has a finish reason to report. *)
Theorem finished_iff_reason r :
  is_finished r = true <-> is_Some (get_finished_reason r).
Proof.
  unfold is_finished, get_finished_reason.
  destruct (status r); vm_compute; split; eauto; try done; by intros [].
Qed.

(** [__init__] builds a well-formed request in the [WAITING] state. *)
Theorem from_engine_core_request_wf e r :
  from_engine_core_request e = Ok r ->
  request_wf r ∧ status r = WAITING ∧ num_computed_tokens r = 0 ∧
  request_id r = ecr_request_id e ∧ all_token_ids r = ecr_prompt_token_ids e.
Proof.
  unfold from_engine_core_request, Request_init. intros H. res_inv. subst.
  apply bool_decide_eq_true in Hr0. split; [|done]. constructor; simpl; try done.
  - by rewrite app_nil_r.
  - apply orb_true_iff in Hr1 as [?%bool_decide_eq_true|?%bool_decide_eq_true]; auto.
Qed.
