(* ===== verification/BlockQueue.v ===== *)
(** * The free-block queue: [KVCacheBlock] and [FreeKVCacheBlockQueue]

    [vllm/v1/core/kv_cache_utils.py], lines 31-169.  The queue is an intrusive
    doubly linked list: the links are attributes of the blocks.  A block object
    is referred to by its index in the block pool, which is its [block_id], so
    a pool is a [list KVCacheBlock] and a reference is a [nat].  [KVCacheBlock]
    is a dataclass, whose [==] compares field tuples starting with [block_id];
    ids are unique in a pool, so [==] is equality of references.

    The file ends with the interface [FreeQueueSpec]: what the queue promises to
    the KV-cache manager, in terms of the abstract list of free blocks, and the
    instance that discharges it. *)

From stdpp Require Import base tactics list sets.
From Stdlib Require Import ZArith Lia.
From S2P Require Import Prelude.
From S2P Require Import SamplingParams.
From S2P Require Import Request.

Local Open Scope Z_scope.

Record KVCacheBlock : Type := mkBlock {
  block_id : nat;
  ref_cnt : Z;
  block_hash : option BlockHashType;
  prev_free_block : option nat;
  next_free_block : option nat;
}.

#[export] Instance KVCacheBlock_inhabited : Inhabited KVCacheBlock :=
  populate (mkBlock 0 0 None None None).

(** [KVCacheBlock(idx)], with the dataclass defaults. *)
Definition new_block (idx : nat) : KVCacheBlock := mkBlock idx 0 None None None.

Definition incr_ref (b : KVCacheBlock) : KVCacheBlock :=
  mkBlock (block_id b) (ref_cnt b + 1) (block_hash b)
    (prev_free_block b) (next_free_block b).
Definition decr_ref (b : KVCacheBlock) : KVCacheBlock :=
  mkBlock (block_id b) (ref_cnt b - 1) (block_hash b)
    (prev_free_block b) (next_free_block b).
Definition reset_hash (b : KVCacheBlock) : KVCacheBlock :=
  mkBlock (block_id b) (ref_cnt b) None (prev_free_block b) (next_free_block b).

(** The [block_hash] property setter asserts that no hash is set yet. *)
Definition set_block_hash (h : BlockHashType) (b : KVCacheBlock) : result KVCacheBlock :=
  _ ← py_assert (bool_decide (block_hash b = None));
  Ok (mkBlock (block_id b) (ref_cnt b) (Some h) (prev_free_block b) (next_free_block b)).

Definition set_prev (p : option nat) (b : KVCacheBlock) : KVCacheBlock :=
  mkBlock (block_id b) (ref_cnt b) (block_hash b) p (next_free_block b).
Definition set_next (n : option nat) (b : KVCacheBlock) : KVCacheBlock :=
  mkBlock (block_id b) (ref_cnt b) (block_hash b) (prev_free_block b) n.

(** [obj.prev_free_block = p] and [obj.next_free_block = n], where the object
    may be [None] in the caller's [if ... is not None] tests. *)
Definition link_prev (o p : option nat) (pool : list KVCacheBlock) : list KVCacheBlock :=
  match o with Some b => alter (set_prev p) b pool | None => pool end.
Definition link_next (o n : option nat) (pool : list KVCacheBlock) : list KVCacheBlock :=
  match o with Some b => alter (set_next n) b pool | None => pool end.

Record FreeKVCacheBlockQueue : Type := mkQueue {
  num_free_blocks : Z;
  free_list_head : option nat;
  free_list_tail : option nat;
}.

(** [__init__]: indexing [blocks\[0\]] raises on an empty list. *)
Definition queue_init_link (n i : nat) (pool : list KVCacheBlock) : list KVCacheBlock :=
  let pool := if decide (0 < i)%nat then alter (set_prev (Some (i - 1)%nat)) i pool
              else pool in
  if decide (i < n - 1)%nat then alter (set_next (Some (i + 1)%nat)) i pool else pool.

Definition queue_init (blocks : list KVCacheBlock) :
    result (list KVCacheBlock * FreeKVCacheBlockQueue) :=
  match blocks with
  | [] => Err IndexError
  | _ =>
      let n := length blocks in
      let pool := foldl (fun pool i => queue_init_link n i pool) blocks (seq 0 n) in
      Ok (pool, mkQueue (Z.of_nat n) (Some 0%nat) (Some (n - 1)%nat))
  end.

Definition remove (pool : list KVCacheBlock) (q : FreeKVCacheBlockQueue) (b : nat) :
    list KVCacheBlock * FreeKVCacheBlockQueue :=
  let block := pool !!! b in
  let pool1 := link_next (prev_free_block block) (next_free_block block) pool in
  let pool2 := link_prev (next_free_block block) (prev_free_block block) pool1 in
  let block2 := pool2 !!! b in
  let head := if decide (Some b = free_list_head q)
              then next_free_block block2 else free_list_head q in
  let tail := if decide (Some b = free_list_tail q)
              then prev_free_block block2 else free_list_tail q in
  let pool3 := alter (fun x => set_prev None (set_next None x)) b pool2 in
  (pool3, mkQueue (num_free_blocks q - 1) head tail).

Definition popleft (pool : list KVCacheBlock) (q : FreeKVCacheBlockQueue) :
    result (nat * list KVCacheBlock * FreeKVCacheBlockQueue) :=
  match free_list_head q with
  | None => Err ValueError
  | Some b => let '(pool', q') := remove pool q b in Ok (b, pool', q')
  end.

Definition append (pool : list KVCacheBlock) (q : FreeKVCacheBlockQueue) (b : nat) :
    result (list KVCacheBlock * FreeKVCacheBlockQueue) :=
  '(pool1, head, tail) ←
    match free_list_tail q with
    | Some t =>
        let pool1 := alter (set_next (Some b)) t pool in
        let pool2 := alter (set_prev (Some t)) b pool1 in
        Ok (pool2, free_list_head q, Some b)
    | None =>
        _ ← py_assert (bool_decide (free_list_head q = None));
        Ok (pool, Some b, Some b)
    end;
  Ok (alter (set_next None) b pool1, mkQueue (num_free_blocks q + 1) head tail).

(** The [while curr_block is not None] traversal, with fuel. *)
Fixpoint get_all_free_blocks_loop (fuel : nat) (pool : list KVCacheBlock)
    (curr : option nat) : result (list nat) :=
  match curr with
  | None => Ok []
  | Some b =>
      match fuel with
      | O => Err OutOfFuel
      | S fuel =>
          ret ← get_all_free_blocks_loop fuel pool (next_free_block (pool !!! b));
          Ok (b :: ret)
      end
  end.

Definition get_all_free_blocks (pool : list KVCacheBlock) (q : FreeKVCacheBlockQueue) :
    result (list nat) :=
  get_all_free_blocks_loop (length pool) pool (free_list_head q).

#[global] Arguments remove : simpl never.

(** ** Successors and predecessors in an abstract list *)

Fixpoint succ_in (l : list nat) (c : nat) : option nat :=
  match l with
  | [] => None
  | x :: l' => if decide (c = x) then head l' else succ_in l' c
  end.

Definition pred_in (l : list nat) (c : nat) : option nat := succ_in (reverse l) c.

Lemma succ_in_notin l c : c ∉ l -> succ_in l c = None.
Proof.
  induction l as [|x l IH]; simpl; [done|]. intros [Hne Hl]%not_elem_of_cons.
  rewrite decide_False by done. by apply IH.
Qed.

Lemma succ_in_mid l1 b l2 : b ∉ l1 -> succ_in (l1 ++ b :: l2) b = head l2.
Proof.
  induction l1 as [|x l1 IH]; simpl; intros Hb.
  - by rewrite decide_True.
  - apply not_elem_of_cons in Hb as [??]. rewrite decide_False by done. by apply IH.
Qed.

Lemma succ_in_last l1 l2 c :
  NoDup (l1 ++ l2) -> last l1 = Some c -> succ_in (l1 ++ l2) c = head l2.
Proof.
  intros Hnd [l' ->]%last_Some. rewrite <-app_assoc in Hnd |- *. simpl in *.
  apply succ_in_mid. apply NoDup_app in Hnd as (_ & Hd & _).
  intros Hc. eapply (Hd c); [done|set_solver].
Qed.

Lemma succ_in_skip l1 b l2 c :
  NoDup (l1 ++ b :: l2) -> c ≠ b -> last l1 ≠ Some c ->
  succ_in (l1 ++ b :: l2) c = succ_in (l1 ++ l2) c.
Proof.
  induction l1 as [|x l1 IH]; simpl; intros Hnd Hcb Hlast.
  - by rewrite decide_False.
  - apply NoDup_cons in Hnd as [Hx Hnd]. case_decide as Hc.
    + subst. destruct l1; [done|done].
    + apply IH; [done..|]. destruct l1; [done|]. exact Hlast.
Qed.

(** ** The representation predicate *)

(** [dll pool q l]: the links of [pool] spell the list [l] in both directions,
    and blocks outside of [l] have both links clear. *)
Record dll (pool : list KVCacheBlock) (q : FreeKVCacheBlockQueue) (l : list nat) : Prop := {
  dll_nodup : NoDup l;
  dll_range : ∀ b, b ∈ l -> (b < length pool)%nat;
  dll_num : num_free_blocks q = len l;
  dll_head : free_list_head q = head l;
  dll_tail : free_list_tail q = last l;
  dll_next : ∀ b, (b < length pool)%nat -> next_free_block (pool !!! b) = succ_in l b;
  dll_prev : ∀ b, (b < length pool)%nat -> prev_free_block (pool !!! b) = pred_in l b;
}.

(** Two pools that differ in links only. *)
Record same_meta (pool pool' : list KVCacheBlock) : Prop := {
  sm_length : length pool' = length pool;
  sm_id : ∀ b, (b < length pool)%nat -> block_id (pool' !!! b) = block_id (pool !!! b);
  sm_ref : ∀ b, (b < length pool)%nat -> ref_cnt (pool' !!! b) = ref_cnt (pool !!! b);
  sm_hash : ∀ b, (b < length pool)%nat ->
    block_hash (pool' !!! b) = block_hash (pool !!! b);
}.

#[export] Instance same_meta_preorder : PreOrder same_meta.
Proof.
  split; [by split|].
  intros p1 p2 p3 [L1 A1 B1 C1] [L2 A2 B2 C2]. split; [congruence|..];
    intros b Hb; rewrite <-L1 in Hb; rewrite ?A2, ?B2, ?C2 by done; rewrite L1 in Hb; auto.
Qed.

Lemma alter_total (f : KVCacheBlock -> KVCacheBlock) (pool : list KVCacheBlock) b c :
  (c < length pool)%nat ->
  alter f b pool !!! c = if decide (b = c) then f (pool !!! c) else pool !!! c.
Proof.
  intros Hc. destruct (lookup_lt_is_Some_2 _ _ Hc) as [x Hx].
  rewrite !list_lookup_total_alt. destruct (decide (b = c)) as [->|Hne].
  - by rewrite list_lookup_alter_eq, Hx.
  - by rewrite list_lookup_alter_ne.
Qed.

Lemma alter_same_meta f b pool :
  (∀ x, block_id (f x) = block_id x ∧ ref_cnt (f x) = ref_cnt x ∧
        block_hash (f x) = block_hash x) ->
  same_meta pool (alter f b pool).
Proof.
  intros Hf. split; [by rewrite length_alter|..]; intros c Hc;
    rewrite alter_total by done; destruct (Hf (pool !!! c)) as (?&?&?); by case_decide.
Qed.

Lemma link_same_meta o p pool :
  same_meta pool (link_prev o p pool) ∧ same_meta pool (link_next o p pool).
Proof. destruct o; simpl; split; try done; by apply alter_same_meta. Qed.

Lemma link_next_total o n pool c :
  (c < length pool)%nat ->
  next_free_block (link_next o n pool !!! c) =
    (if decide (o = Some c) then n else next_free_block (pool !!! c)) ∧
  prev_free_block (link_next o n pool !!! c) = prev_free_block (pool !!! c).
Proof.
  intros Hc. destruct o as [b|]; simpl; [|done]. rewrite alter_total by done.
  destruct (decide (b = c)) as [->|Hne].
  - by rewrite decide_True.
  - by rewrite decide_False by congruence.
Qed.

Lemma link_prev_total o p pool c :
  (c < length pool)%nat ->
  prev_free_block (link_prev o p pool !!! c) =
    (if decide (o = Some c) then p else prev_free_block (pool !!! c)) ∧
  next_free_block (link_prev o p pool !!! c) = next_free_block (pool !!! c).
Proof.
  intros Hc. destruct o as [b|]; simpl; [|done]. rewrite alter_total by done.
  destruct (decide (b = c)) as [->|Hne].
  - by rewrite decide_True.
  - by rewrite decide_False by congruence.
Qed.

(** ** The operations on the abstract list *)

Lemma pred_in_mid l1 b l2 : b ∉ l2 -> pred_in (l1 ++ b :: l2) b = last l1.
Proof.
  intros Hb. unfold pred_in.
  rewrite reverse_app, reverse_cons, <-app_assoc. simpl.
  rewrite succ_in_mid by (by rewrite elem_of_reverse). by rewrite head_reverse.
Qed.

Lemma pred_in_first l1 l2 c :
  NoDup (l1 ++ l2) -> head l2 = Some c -> pred_in (l1 ++ l2) c = last l1.
Proof.
  intros Hnd Hc. destruct l2 as [|x l2]; simplify_eq/=.
  apply pred_in_mid. apply NoDup_app in Hnd as (_ & _ & Hnd). by apply NoDup_cons in Hnd as [??].
Qed.

Lemma pred_in_skip l1 b l2 c :
  NoDup (l1 ++ b :: l2) -> c ≠ b -> head l2 ≠ Some c ->
  pred_in (l1 ++ b :: l2) c = pred_in (l1 ++ l2) c.
Proof.
  intros Hnd Hcb Hh. unfold pred_in.
  assert (Hr : reverse (l1 ++ b :: l2) = reverse l2 ++ b :: reverse l1).
  { by rewrite reverse_app, reverse_cons, <-app_assoc. }
  rewrite Hr, reverse_app. apply succ_in_skip; [|done|].
  - rewrite <-Hr. by rewrite reverse_Permutation.
  - by rewrite last_reverse.
Qed.

Lemma remove_same_meta pool q b : same_meta pool (remove pool q b).1.
Proof.
  unfold remove. cbn.
  set (p1 := link_next _ _ pool). set (p2 := link_prev _ _ p1).
  transitivity p1; [exact (proj2 (link_same_meta _ _ _))|].
  transitivity p2; [exact (proj1 (link_same_meta _ _ _))|]. by apply alter_same_meta.
Qed.

(** The links after the two [if ... is not None] statements of [remove]. *)
Lemma unlink_links pool q l1 b l2 :
  dll pool q (l1 ++ b :: l2) ->
  let p2 := link_prev (head l2) (last l1) (link_next (last l1) (head l2) pool) in
  length p2 = length pool ∧
  (∀ c, (c < length pool)%nat -> next_free_block (p2 !!! c) =
    if decide (last l1 = Some c) then head l2 else succ_in (l1 ++ b :: l2) c) ∧
  (∀ c, (c < length pool)%nat -> prev_free_block (p2 !!! c) =
    if decide (head l2 = Some c) then last l1 else pred_in (l1 ++ b :: l2) c).
Proof.
  intros [_ _ _ _ _ Hnx Hpv]. simpl. set (p1 := link_next (last l1) (head l2) pool).
  assert (L1 : length p1 = length pool) by apply (sm_length _ _ (proj2 (link_same_meta _ _ _))).
  split_and!.
  - rewrite <-L1. apply (sm_length _ _ (proj1 (link_same_meta _ _ _))).
  - intros c Hc. destruct (link_prev_total (head l2) (last l1) p1 c) as [_ ->]; [lia|]. unfold p1.
    destruct (link_next_total (last l1) (head l2) pool c) as [-> _]; [lia|]. by rewrite Hnx.
  - intros c Hc. destruct (link_prev_total (head l2) (last l1) p1 c) as [-> _]; [lia|]. unfold p1.
    destruct (link_next_total (last l1) (head l2) pool c) as [_ ->]; [lia|]. by rewrite Hpv.
Qed.

Lemma NoDup_mid {A} (l1 : list A) b l2 :
  NoDup (l1 ++ b :: l2) -> (b ∉ l1) ∧ (b ∉ l2) ∧ NoDup (l1 ++ l2).
Proof.
  intros Hnd. apply (NoDup_Permutation_proper _ (b :: l1 ++ l2)) in Hnd; [|by rewrite Permutation_middle].
  apply NoDup_cons in Hnd as [Hb Hnd]. rewrite not_elem_of_app in Hb. naive_solver.
Qed.

Lemma remove_dll pool q l1 b l2 pool' q' :
  dll pool q (l1 ++ b :: l2) -> remove pool q b = (pool', q') ->
  dll pool' q' (l1 ++ l2).
Proof.
  intros Hd Hrm. destruct (unlink_links _ _ _ _ _ Hd) as (L2 & Hn2 & Hp2).
  destruct Hd as [Hnd Hrg Hnum Hhd Htl Hnx Hpv].
  assert (Hb : (b < length pool)%nat) by (apply Hrg; set_solver).
  destruct (NoDup_mid _ _ _ Hnd) as (Hb1 & Hb2 & Hnd').
  unfold remove in Hrm.
  rewrite (Hnx b Hb), (Hpv b Hb), (succ_in_mid l1 b l2), (pred_in_mid l1 b l2) in Hrm by done.
  set (p2 := link_prev _ _ _) in *.
  rewrite Hn2, Hp2, (succ_in_mid l1 b l2), (pred_in_mid l1 b l2) in Hrm by done.
  injection Hrm as <- <-. split; simpl; [done|..].
  - intros c Hc. rewrite length_alter, L2. apply Hrg. set_solver.
  - rewrite Hnum, !length_app. simpl. lia.
  - rewrite Hhd. destruct l1 as [|x l1]; simpl; [by repeat case_decide|].
    rewrite decide_False; [done|]. intros [= ->]. set_solver.
  - rewrite Htl, last_app_cons, last_app. destruct l2 as [|y l2 _] using rev_ind.
    + simpl. by repeat case_decide.
    + rewrite last_snoc, last_cons, last_snoc. rewrite decide_False; [done|].
      intros [= ->]. set_solver.
  - intros c Hc. rewrite length_alter, L2 in Hc. rewrite alter_total by lia.
    destruct (decide (b = c)) as [<-|Hne]; simpl.
    + rewrite succ_in_notin; [done|]. set_solver.
    + rewrite Hn2 by done. case_decide; [by rewrite succ_in_last|by apply succ_in_skip].
  - intros c Hc. rewrite length_alter, L2 in Hc. rewrite alter_total by lia.
    destruct (decide (b = c)) as [<-|Hne]; simpl.
    + unfold pred_in. rewrite succ_in_notin; [done|]. rewrite elem_of_reverse. set_solver.
    + rewrite Hp2 by done. case_decide; [by rewrite pred_in_first|by apply pred_in_skip].
Qed.

Lemma append_dll pool q l b :
  dll pool q l -> b ∉ l -> (b < length pool)%nat ->
  ∃ pool' q', append pool q b = Ok (pool', q') ∧ dll pool' q' (l ++ [b]) ∧
    same_meta pool pool'.
Proof.
  intros [Hnd Hrg Hnum Hhd Htl Hnx Hpv] Hbl Hb. unfold append.
  assert (Hnd' : NoDup (l ++ [b])).
  { apply NoDup_app. split_and!; [done| |apply NoDup_singleton]. set_solver. }
  assert (Hsucc : ∀ c, c ≠ b -> last l ≠ Some c -> succ_in (l ++ [b]) c = succ_in l c).
  { intros c ??. rewrite succ_in_skip by done. by rewrite app_nil_r. }
  assert (Hpred : ∀ c, c ≠ b -> pred_in (l ++ [b]) c = pred_in l c).
  { intros c ?. rewrite pred_in_skip by done. by rewrite app_nil_r. }
  rewrite Htl. destruct (last l) as [t|] eqn:Hlast; simpl.
  - assert (Htin : t ∈ l) by by apply last_Some_elem_of.
    assert (Htb : t ≠ b) by set_solver. assert (Ht := Hrg _ Htin).
    eexists _, _. split; [done|]. split.
    + assert (HL : ∀ c, (c < length pool)%nat ->
        alter (set_next None) b (alter (set_prev (Some t)) b
          (alter (set_next (Some b)) t pool)) !!! c =
        if decide (b = c) then set_next None (set_prev (Some t) (pool !!! c))
        else if decide (t = c) then set_next (Some b) (pool !!! c) else pool !!! c).
      { intros c Hc. rewrite !alter_total by (rewrite ?length_alter; lia).
        by repeat case_decide; simplify_eq. }
      split; simpl; try done; rewrite ?length_alter.
      * intros c [Hc| ->%list_elem_of_singleton]%elem_of_app; auto.
      * rewrite length_app, Hnum. simpl. lia.
      * rewrite Hhd. by destruct l.
      * by rewrite last_snoc.
      * intros c Hc. rewrite HL by done. case_decide; [subst; by rewrite succ_in_mid|].
        case_decide; [subst; by rewrite succ_in_last|]. rewrite Hsucc by congruence. auto.
      * intros c Hc. rewrite HL by done. case_decide; [subst; by rewrite pred_in_mid by set_solver|].
        rewrite Hpred by done. case_decide; simpl; auto.
    + transitivity (alter (set_next (Some b)) t pool); [by apply alter_same_meta|].
      etransitivity; by apply alter_same_meta.
  - apply last_None in Hlast as ->. rewrite Hhd. simpl.
    eexists _, _. split; [done|]. split; [|by apply alter_same_meta].
    split; simpl; try done; rewrite ?length_alter.
    + intros c ->%list_elem_of_singleton. done.
    + rewrite Hnum. simpl. lia.
    + intros c Hc. rewrite alter_total by done. case_decide; [by rewrite decide_True|].
      rewrite decide_False by done. by apply Hnx.
    + intros c Hc. rewrite alter_total by done.
      assert (Hp : prev_free_block (pool !!! c) = None) by by rewrite Hpv.
      unfold pred_in. simpl.
      case_decide; simpl; [by rewrite decide_True|by rewrite decide_False].
Qed.

Lemma popleft_dll pool q l :
  dll pool q l ->
  match l with
  | [] => popleft pool q = Err ValueError
  | b :: l' => ∃ pool' q', popleft pool q = Ok (b, pool', q') ∧ dll pool' q' l' ∧
      same_meta pool pool'
  end.
Proof.
  intros Hd. destruct l as [|b l]; unfold popleft; rewrite (dll_head _ _ _ Hd); [done|].
  pose proof (remove_same_meta pool q b) as Hm. cbn [head].
  destruct (remove pool q b) as [pool' q'] eqn:Hr. exists pool', q'. split; [done|].
  split; [|exact Hm]. by apply (remove_dll pool q [] b l).
Qed.

(** [__init__] links a fresh pool in block-id order. *)
Lemma queue_init_links n (pool : list KVCacheBlock) l c :
  NoDup l -> (c < length pool)%nat ->
  foldl (fun pool i => queue_init_link n i pool) pool l !!! c =
  if decide (c ∈ l) then
    (if decide (c < n - 1)%nat then set_next (Some (c + 1)%nat) else id)
    ((if decide (0 < c)%nat then set_prev (Some (c - 1)%nat) else id) (pool !!! c))
  else pool !!! c.
Proof.
  revert pool. induction l as [|i l IH]; intros pool Hnd Hc; simpl; [done|].
  apply NoDup_cons in Hnd as [Hi Hnd].
  assert (Hlen : length (queue_init_link n i pool) = length pool).
  { unfold queue_init_link. by repeat case_decide; rewrite ?length_alter. }
  rewrite IH by (done || lia).
  assert (Hl : queue_init_link n i pool !!! c = if decide (c = i) then
    (if decide (c < n - 1)%nat then set_next (Some (c + 1)%nat) else id)
    ((if decide (0 < c)%nat then set_prev (Some (c - 1)%nat) else id) (pool !!! c))
    else pool !!! c).
  { unfold queue_init_link. destruct (decide (c = i)) as [->|Hne].
    - repeat case_decide; rewrite ?alter_total by (rewrite ?length_alter; lia);
        by rewrite ?decide_True.
    - repeat case_decide; rewrite ?alter_total by (rewrite ?length_alter; lia);
        by rewrite ?decide_False by congruence. }
  rewrite Hl. destruct (decide (c = i)) as [->|Hne].
  - by rewrite (decide_False (P := i ∈ l)), (decide_True (P := i ∈ i :: l)) by set_solver.
  - destruct (decide (c ∈ l)).
    + by rewrite (decide_True (P := c ∈ i :: l)) by set_solver.
    + by rewrite (decide_False (P := c ∈ i :: l)) by set_solver.
Qed.

Lemma seq_split n c : (c < n)%nat -> seq 0 n = seq 0 c ++ c :: seq (S c) (n - S c).
Proof.
  intros Hc. replace n with (c + S (n - S c))%nat at 1 by lia. by rewrite seq_app.
Qed.

Lemma succ_pred_in_seq n c : (c < n)%nat ->
  succ_in (seq 0 n) c = (if decide (c < n - 1)%nat then Some (c + 1)%nat else None) ∧
  pred_in (seq 0 n) c = (if decide (0 < c)%nat then Some (c - 1)%nat else None).
Proof.
  intros Hc. rewrite (seq_split n c Hc). split.
  - rewrite succ_in_mid by (rewrite elem_of_seq; lia). case_decide.
    + replace (n - S c)%nat with (S (n - S (S c))) by lia. simpl. f_equal; lia.
    + by replace (n - S c)%nat with 0%nat by lia.
  - rewrite pred_in_mid by (rewrite elem_of_seq; lia). case_decide.
    + replace c with (S (c - 1)) at 1 by lia. rewrite seq_S, last_snoc. f_equal; lia.
    + by replace c with 0%nat by lia.
Qed.

Lemma queue_init_dll n :
  (0 < n)%nat ->
  ∃ pool q, queue_init (new_block <$> seq 0 n) = Ok (pool, q) ∧ dll pool q (seq 0 n) ∧
    same_meta (new_block <$> seq 0 n) pool.
Proof.
  intros Hn. unfold queue_init.
  assert (HL : length (new_block <$> seq 0 n) = n) by by rewrite length_fmap, length_seq.
  destruct (new_block <$> seq 0 n) as [|x bl] eqn:Hbl; [simpl in HL; lia|].
  rewrite <-Hbl in *. clear x bl Hbl. rewrite HL. eexists _, _. split; [done|].
  set (p0 := new_block <$> seq 0 n) in *.
  set (pool := foldl _ p0 _).
  assert (Hp : ∀ c, (c < n)%nat -> pool !!! c = mkBlock c 0 None
     (pred_in (seq 0 n) c) (succ_in (seq 0 n) c)).
  { intros c Hc. destruct (succ_pred_in_seq n c Hc) as [-> ->]. unfold pool.
    rewrite queue_init_links by (apply NoDup_seq || lia).
    rewrite decide_True by (rewrite elem_of_seq; lia).
    assert (p0 !!! c = new_block c) as ->.
    { unfold p0. apply list_lookup_total_correct. rewrite list_lookup_fmap, lookup_seq_lt by done. done. }
    by repeat case_decide. }
  assert (HLp : length pool = n).
  { unfold pool. clear -HL. revert HL. generalize p0. generalize (seq 0 n).
    induction l as [|i l IH]; simpl; [done|]. intros p Hp. apply IH.
    unfold queue_init_link. repeat case_decide; by rewrite ?length_alter. }
  split.
  - split; simpl; rewrite ?length_seq, ?HLp; try done.
    + apply NoDup_seq.
    + intros b. rewrite elem_of_seq. lia.
    + by destruct n; [lia|].
    + destruct n; [lia|]. rewrite seq_S, last_snoc. f_equal; lia.
    + intros c Hc. by rewrite Hp.
    + intros c Hc. by rewrite Hp.
  - assert (H0 : ∀ b, (b < length p0)%nat -> p0 !!! b = new_block b).
    { intros b Hb. unfold p0. apply list_lookup_total_correct.
      rewrite list_lookup_fmap, lookup_seq_lt by lia. done. }
    split; [lia|..]; intros b Hb; by rewrite H0, Hp by lia.
Qed.

Lemma get_all_free_blocks_loop_dll pool l1 l2 fuel :
  (∀ b, b ∈ l1 ++ l2 -> (b < length pool)%nat) -> NoDup (l1 ++ l2) ->
  (∀ b, (b < length pool)%nat -> next_free_block (pool !!! b) = succ_in (l1 ++ l2) b) ->
  (length l2 <= fuel)%nat ->
  get_all_free_blocks_loop fuel pool (head l2) = Ok l2.
Proof.
  intros Hrg Hnd Hnx. revert l1 fuel Hrg Hnd Hnx.
  induction l2 as [|b l2 IH]; intros l1 fuel Hrg Hnd Hnx Hf; [by destruct fuel|].
  destruct fuel as [|fuel]; simpl in *; [lia|].
  destruct (NoDup_mid _ _ _ Hnd) as (Hb1 & _ & _).
  rewrite Hnx, succ_in_mid by (done || apply Hrg; set_solver).
  rewrite (IH (l1 ++ [b])); rewrite <-?app_assoc; simpl; auto with lia.
Qed.

(** ** The interface to the KV-cache manager *)

(** A function on blocks that leaves the links alone. *)
Definition keeps_links (f : KVCacheBlock -> KVCacheBlock) : Prop :=
  ∀ x, prev_free_block (f x) = prev_free_block x ∧ next_free_block (f x) = next_free_block x.

(** [repr pool q l] relates the linked structure to the abstract queue [l]. *)
Class FreeQueueSpec
    (repr : list KVCacheBlock -> FreeKVCacheBlockQueue -> list nat -> Prop) : Prop := {
  fq_nodup pool q l : repr pool q l -> NoDup l;
  fq_range pool q l b : repr pool q l -> b ∈ l -> (b < length pool)%nat;
  fq_num pool q l : repr pool q l -> num_free_blocks q = len l;
  fq_init n : (0 < n)%nat ->
    ∃ pool q, queue_init (new_block <$> seq 0 n) = Ok (pool, q) ∧
      repr pool q (seq 0 n) ∧ same_meta (new_block <$> seq 0 n) pool;
  fq_popleft pool q b l : repr pool q (b :: l) ->
    ∃ pool' q', popleft pool q = Ok (b, pool', q') ∧ repr pool' q' l ∧
      same_meta pool pool';
  fq_remove pool q l1 b l2 : repr pool q (l1 ++ b :: l2) ->
    ∃ pool' q', remove pool q b = (pool', q') ∧ repr pool' q' (l1 ++ l2) ∧
      same_meta pool pool';
  fq_append pool q l b : repr pool q l -> b ∉ l -> (b < length pool)%nat ->
    ∃ pool' q', append pool q b = Ok (pool', q') ∧ repr pool' q' (l ++ [b]) ∧
      same_meta pool pool';
  fq_frame pool q l f b : keeps_links f -> repr pool q l -> repr (alter f b pool) q l;
  fq_frame_all pool q l f : keeps_links f -> repr pool q l -> repr (f <$> pool) q l;
}.

Lemma dll_frame pool pool' q l :
  length pool' = length pool ->
  (∀ b, (b < length pool)%nat ->
    prev_free_block (pool' !!! b) = prev_free_block (pool !!! b) ∧
    next_free_block (pool' !!! b) = next_free_block (pool !!! b)) ->
  dll pool q l -> dll pool' q l.
Proof.
  intros HL Hf [Hnd Hrg Hnum Hhd Htl Hnx Hpv]. split; rewrite ?HL; try done;
    intros b Hb; destruct (Hf b Hb) as [H1 H2]; rewrite ?H1, ?H2; auto.
Qed.

#[export] Instance dll_FreeQueueSpec : FreeQueueSpec dll.
Proof.
  split.
  - by intros ??? [].
  - intros ???? []. auto.
  - by intros ??? [].
  - apply queue_init_dll.
  - intros pool q b l Hd. by pose proof (popleft_dll _ _ _ Hd).
  - intros pool q l1 b l2 Hd. pose proof (remove_same_meta pool q b) as Hm.
    destruct (remove pool q b) as [pool' q'] eqn:Hr. exists pool', q'.
    split; [done|]. split; [by eapply remove_dll|exact Hm].
  - apply append_dll.
  - intros pool q l f b Hf. apply dll_frame; [apply length_alter|].
    intros c Hc. rewrite alter_total by done. case_decide; [apply Hf|done].
  - intros pool q l f Hf. apply dll_frame; [apply length_fmap|].
    intros c Hc. rewrite (list_lookup_total_fmap f pool c Hc). apply Hf.
Qed.

(** ** Refinement: the linked queue implements a list *)

Inductive queue_op : Type :=
  | Popleft
  | Remove (b : nat)
  | Append (b : nat).

(** The abstract queue of a pool of [n] blocks; [None]: the operation is not
    allowed in that state. *)
Definition abs_step (n : nat) (op : queue_op) (l : list nat) : option (list nat) :=
  match op with
  | Popleft => match l with [] => None | _ :: l' => Some l' end
  | Remove b => if decide (b ∈ l) then Some (filter (.≠ b) l) else None
  | Append b => if decide ((b ∉ l) ∧ (b < n)%nat) then Some (l ++ [b]) else None
  end.

Definition abs_run (n : nat) (ops : list queue_op) (l : list nat) : option (list nat) :=
  foldl (fun o op => o ≫= abs_step n op) (Some l) ops.

Definition conc_step (op : queue_op) (s : list KVCacheBlock * FreeKVCacheBlockQueue) :
    result (list KVCacheBlock * FreeKVCacheBlockQueue) :=
  match op with
  | Popleft => '(_, pool, q) ← popleft s.1 s.2; Ok (pool, q)
  | Remove b => Ok (remove s.1 s.2 b)
  | Append b => append s.1 s.2 b
  end.

Definition conc_run (n : nat) (ops : list queue_op) :
    result (list KVCacheBlock * FreeKVCacheBlockQueue) :=
  s ← queue_init (new_block <$> seq 0 n);
  for_each conc_step ops s.

Lemma filter_ne_notin (l : list nat) b : b ∉ l -> filter (.≠ b) l = l.
Proof.
  induction l as [|x l IH]; [done|]. intros [Hx Hl]%not_elem_of_cons.
  rewrite filter_cons_True by congruence. by rewrite IH.
Qed.

Lemma filter_ne_mid (l1 : list nat) b l2 :
  NoDup (l1 ++ b :: l2) -> filter (.≠ b) (l1 ++ b :: l2) = l1 ++ l2.
Proof.
  intros (Hb1 & Hb2 & _)%NoDup_mid.
  rewrite filter_app, filter_cons_False by tauto.
  by rewrite !filter_ne_notin.
Qed.

Lemma conc_step_refines n op pool q l l' :
  dll pool q l -> length pool = n -> abs_step n op l = Some l' ->
  ∃ s', conc_step op (pool, q) = Ok s' ∧ dll s'.1 s'.2 l' ∧ length s'.1 = n.
Proof.
  intros Hd HL Hs. destruct op as [|b|b]; simpl in Hs.
  - destruct l as [|x l]; [done|]. injection Hs as <-.
    destruct (fq_popleft pool q x l Hd) as (p' & q' & Hp & Hd' & Hm).
    exists (p', q'). simpl. rewrite Hp. split_and!; [done..|].
    by rewrite <-HL; apply sm_length.
  - case_decide as Hb; [|done]. injection Hs as <-.
    apply list_elem_of_split in Hb as (l1 & l2 & ->).
    destruct (fq_remove pool q l1 b l2 Hd) as (p' & q' & Hp & Hd' & Hm).
    exists (p', q'). unfold conc_step. cbn [fst snd]. rewrite Hp.
    rewrite filter_ne_mid by apply Hd. split_and!; [done..|].
    by rewrite <-HL; apply sm_length.
  - case_decide as Hb; [|done]. injection Hs as <-. destruct Hb as [Hb Hn].
    destruct (fq_append pool q l b Hd Hb ltac:(lia)) as (p' & q' & Hp & Hd' & Hm).
    exists (p', q'). split_and!; [done..|]. by rewrite <-HL; apply sm_length.
Qed.

Lemma conc_run_refines n ops pool q l l' :
  dll pool q l -> length pool = n -> abs_run n ops l = Some l' ->
  ∃ s', for_each conc_step ops (pool, q) = Ok s' ∧ dll s'.1 s'.2 l' ∧ length s'.1 = n.
Proof.
  revert pool q l. induction ops as [|op ops IH]; intros pool q l Hd HL Hrun.
  - injection Hrun as <-. by exists (pool, q).
  - unfold abs_run in Hrun. simpl in Hrun.
    destruct (abs_step n op l) as [l1|] eqn:Hs; simpl in Hrun.
    + destruct (conc_step_refines n op pool q l l1 Hd HL Hs) as ([p1 q1] & Hc & Hd1 & HL1).
      cbn [for_each]. rewrite Hc. by apply (IH p1 q1 l1).
    + exfalso. clear -Hrun. induction ops; simpl in *; [done|by apply IHops].
Qed.

(** C18: the doubly linked free list refines a plain list.  Starting from a
    fresh pool of [n] blocks, any sequence of [popleft], [remove] (of a queued
    block) and [append] (of an unqueued block) runs without an exception, and
    walking the links afterwards yields exactly the abstract list, whose length
    is the counter [num_free_blocks]. *)
Theorem queue_refines_list n ops l :
  (0 < n)%nat -> abs_run n ops (seq 0 n) = Some l ->
  ∃ pool q, conc_run n ops = Ok (pool, q) ∧ get_all_free_blocks pool q = Ok l ∧
    num_free_blocks q = len l.
Proof.
  intros Hn Hrun. destruct (fq_init n Hn) as (p0 & q0 & Hi & Hd0 & Hm0).
  assert (HL0 : length p0 = n) by by rewrite (sm_length _ _ Hm0), length_fmap, length_seq.
  destruct (conc_run_refines n ops p0 q0 _ l Hd0 HL0 Hrun) as ([p q] & Hc & Hd & HL).
  exists p, q. unfold conc_run. rewrite Hi. split; [exact Hc|]. split; [|by apply Hd].
  unfold get_all_free_blocks. simpl in *. rewrite (dll_head _ _ _ Hd).
  apply (get_all_free_blocks_loop_dll p [] l); [apply Hd..|].
  rewrite <-(length_seq (length p) 0). apply submseteq_length, NoDup_submseteq; [apply Hd|].
  intros b Hb. apply elem_of_seq. pose proof (dll_range _ _ _ Hd b Hb). lia.
Qed.

Lemma queue_refines_list_witness :
  ∃ pool q, conc_run 4 [Popleft; Remove 2; Append 0; Popleft] = Ok (pool, q) ∧
    get_all_free_blocks pool q = Ok [3; 0]%nat ∧ num_free_blocks q = 2.
Proof. apply (queue_refines_list 4 _ [3; 0]%nat); [lia|reflexivity]. Defined.
