(* ===== verification/BlockHash.v ===== *)
(** * Block hashes for prefix caching

    [vllm/v1/core/kv_cache_utils.py], lines 172-323: the extra keys of a block,
    the hash of one block and the chain of hashes of a request.

    Python's [hash] is seeded per process, so it is a parameter here: [PyHash]
    holds the hash of the tuple [(parent, tokens, extra_keys)] and the hash of
    the string ['None'].  Every definition and every theorem works for any
    [PyHash]; freedom from collisions is a hypothesis about the keys that are
    actually hashed, where it is needed. *)

From stdpp Require Import base tactics list sets strings.
From Stdlib Require Import ZArith Lia.
From S2P Require Import Prelude.
From S2P Require Import SamplingParams.
From S2P Require Import Request.

Local Open Scope Z_scope.

Class PyHash : Type := {
  hash_tuple : Z -> list Z -> option (list string) -> Z;
  hash_None_str : Z;
}.

(** ** Extra keys *)

(** The [while] loop; [fuel] bounds the inputs still to be looked at. *)
Fixpoint extra_keys_loop (fuel : nat) (positions : list PlaceholderRange)
    (hashes : list string) (start_idx end_idx : Z) (curr : nat)
    (keys : list string) : result (list string * nat) :=
  match fuel with
  | O => Err OutOfFuel
  | S fuel =>
      if decide (curr < length positions)%nat then
        h ← or_raise IndexError (hashes !! curr);
        p ← or_raise IndexError (positions !! curr);
        if offset p <? end_idx then
          if offset p + length_ p <? start_idx then
            (* This block has passed the current mm input. *)
            extra_keys_loop fuel positions hashes start_idx end_idx (S curr) keys
          else
            let keys := keys ++ [h] in
            if offset p + length_ p <=? end_idx then
              extra_keys_loop fuel positions hashes start_idx end_idx (S curr) keys
            else Ok (keys, curr)
        else Ok (keys, curr)
      else Ok (keys, curr)
  end.

Definition generate_block_hash_extra_keys (r : Request) (start_idx end_idx start_mm_idx : Z) :
    result (option (list string) * Z) :=
  let positions := mm_positions r in
  let hashes := mm_hashes r in
  match last positions with
  | None => Ok (None, start_mm_idx)
  | Some p =>
      if negb (bool_decide (length positions = length hashes)) then Err ValueError
      else if offset p + length_ p <? start_idx then Ok (None, start_mm_idx)
      else
        idx ← (if start_mm_idx <? 0 then
                 _ ← py_assert (- start_mm_idx <=? len positions);
                 Ok (len positions + start_mm_idx)
               else Ok start_mm_idx);
        '(keys, curr) ← extra_keys_loop (S (length positions)) positions hashes
                          start_idx end_idx (Z.to_nat idx) [];
        Ok (Some keys, Z.of_nat curr)
  end.

Section hashing.
Context `{PyHash}.

(** ** One block *)

(** [if not parent_block_hash]: both [None] and [0] select the hash of 'None'. *)
Definition parent_value (parent : option Z) : Z :=
  match parent with
  | None => hash_None_str
  | Some v => if v =? 0 then hash_None_str else v
  end.

Definition hash_block_tokens (parent : option Z) (toks : list Z)
    (keys : option (list string)) : BlockHashType :=
  mkBlockHash (hash_tuple (parent_value parent) toks keys) toks keys.

(** ** The chain of a request *)

(** The body of [for start in range(0, len(token_ids), block_size)]: the list
    holds the block indices still to be visited. *)
Fixpoint hash_request_loop (block_size : nat) (r : Request) (blocks : list nat)
    (curr_mm_idx : Z) (parent : option Z) : result (list BlockHashType) :=
  match blocks with
  | [] => Ok []
  | i :: blocks =>
      let start := (i * block_size)%nat in
      let stop := (start + block_size)%nat in
      let toks := slice (all_token_ids r) start stop in
      if decide (length toks < block_size)%nat then Ok []
      else
        '(keys, curr) ←
          (if bool_decide (mm_positions r = []) then Ok (None, curr_mm_idx)
           else generate_block_hash_extra_keys r (Z.of_nat start) (Z.of_nat stop) curr_mm_idx);
        let h := hash_block_tokens parent toks keys in
        ret ← hash_request_loop block_size r blocks curr (Some (hash_value h));
        Ok (h :: ret)
  end.

(** [range] raises [ValueError] on a zero step and is empty on a negative one. *)
Definition hash_request_tokens (block_size : Z) (r : Request) : result (list BlockHashType) :=
  if negb (bool_decide (mm_positions r = [])) &&
     negb (bool_decide (length (mm_positions r) = length (mm_hashes r)))
  then Err ValueError
  else if block_size =? 0 then Err ValueError
  else if block_size <? 0 then Ok []
  else hash_request_loop (Z.to_nat block_size) r
         (seq 0 (Z.to_nat (cdiv (num_tokens r) block_size))) 0 None.

(** ** Facts about the chain *)

(** The parent value used for position [i] of a chain. *)
Definition chain_parent (hs : list BlockHashType) (i : nat) : Z :=
  match i with
  | O => hash_None_str
  | S j => parent_value (hash_value <$> hs !! j)
  end.

(** Every hash of the chain is the hash of its parent, tokens and keys. *)
Definition chain (hs : list BlockHashType) : Prop :=
  ∀ i h, hs !! i = Some h ->
    hash_value h = hash_tuple (chain_parent hs i) (token_ids h) (extra_keys h).

Lemma extra_keys_loop_total fuel positions hashes s e curr keys :
  length positions = length hashes ->
  (curr <= length positions)%nat -> (length positions - curr < fuel)%nat ->
  ∃ ks c, extra_keys_loop fuel positions hashes s e curr keys = Ok (ks, c) ∧
    (c <= length positions)%nat.
Proof.
  intros Hlen. revert curr keys. induction fuel as [|fuel IH]; intros curr keys Hc Hf; [lia|].
  simpl. case_decide as Hcl; [|by eauto].
  destruct (lookup_lt_is_Some_2 hashes curr) as [h ->]; [lia|].
  destruct (lookup_lt_is_Some_2 positions curr) as [p ->]; [lia|]. simpl.
  repeat case_match; eauto with lia; apply IH; lia.
Qed.

Lemma extra_keys_total r s e mm :
  length (mm_positions r) = length (mm_hashes r) ->
  - len (mm_positions r) <= mm <= len (mm_positions r) ->
  ∃ ks c, generate_block_hash_extra_keys r s e mm = Ok (ks, c) ∧
    (0 <= mm -> 0 <= c <= len (mm_positions r)).
Proof.
  intros Hlen Hmm. unfold generate_block_hash_extra_keys.
  destruct (last (mm_positions r)) as [p|] eqn:Hlast; [|eexists _, _; split; [done|lia]].
  rewrite bool_decide_eq_true_2 by done. cbn [negb].
  case_match; [eexists _, _; split; [done|lia]|].
  assert (∃ idx, (if mm <? 0 then
      _ ← py_assert (- mm <=? len (mm_positions r)); Ok (len (mm_positions r) + mm)
      else Ok mm) = Ok idx ∧ 0 <= idx <= len (mm_positions r)) as (idx & -> & Hidx).
  { destruct (mm <? 0) eqn:Hneg; [|eexists; split; [done|lia]].
    assert ((- mm <=? len (mm_positions r)) = true) as -> by lia.
    eexists; split; [done|lia]. }
  cbn [mbind result_bind].
  destruct (extra_keys_loop_total (S (length (mm_positions r))) (mm_positions r)
    (mm_hashes r) s e (Z.to_nat idx) []) as (ks & c & -> & Hc); [done|lia..|].
  cbn [mbind result_bind]. eexists _, _. split; [done|lia].
Qed.

(** What the loop computes for the block indices [i0 .. i0 + k - 1]. *)
Lemma hash_request_loop_spec bs r i0 k mm parent :
  (0 < bs)%nat ->
  (mm_positions r = [] ∨ length (mm_positions r) = length (mm_hashes r)) ->
  0 <= mm <= len (mm_positions r) ->
  ∃ hs, hash_request_loop bs r (seq i0 k) mm parent = Ok hs ∧
    length hs = min k (length (all_token_ids r) / bs - i0)%nat ∧
    ∀ j h, hs !! j = Some h ->
      token_ids h = slice (all_token_ids r) ((i0 + j) * bs) ((i0 + j) * bs + bs) ∧
      hash_value h = hash_tuple
        (match j with O => parent_value parent
                    | S j => parent_value (hash_value <$> hs !! j) end)
        (token_ids h) (extra_keys h).
Proof.
  intros Hbs Hmmh. revert i0 mm parent. induction k as [|k IH]; intros i0 mm parent Hmm.
  - by exists [].
  - cbn [hash_request_loop seq]. set (toks := slice _ _ _).
    assert (Hlen : length toks = min bs (length (all_token_ids r) - i0 * bs)%nat)
      by (unfold toks; rewrite slice_length; lia).
    pose proof (Nat.div_mod_eq (length (all_token_ids r)) bs) as Hdm.
    pose proof (Nat.mod_upper_bound (length (all_token_ids r)) bs ltac:(lia)) as Hmu.
    set (D := (length (all_token_ids r) / bs)%nat) in *.
    case_decide as Hd.
    { assert (D <= i0)%nat by nia. exists []. split; [done|]. split; [|done].
      replace (D - i0)%nat with 0%nat by lia. done. }
    assert (HD : (i0 < D)%nat) by nia.
    assert (∃ ks c, (if bool_decide (mm_positions r = []) then Ok (None, mm) else
        generate_block_hash_extra_keys r (Z.of_nat (i0 * bs)) (Z.of_nat (i0 * bs + bs)) mm)
        = Ok (ks, c) ∧ 0 <= c <= len (mm_positions r)) as (ks & c & -> & Hc).
    { case_bool_decide; [by eexists _, _|].
      destruct (extra_keys_total r (Z.of_nat (i0 * bs)) (Z.of_nat (i0 * bs + bs)) mm)
        as (ks & c & -> & Hc); [naive_solver|lia|eexists _, _; split; [done|lia]]. }
    cbn [mbind result_bind].
    set (h := hash_block_tokens parent toks ks).
    destruct (IH (S i0) c (Some (hash_value h)) Hc) as (hs & -> & HL & Hhs).
    cbn [mbind result_bind]. exists (h :: hs). split; [done|].
    split; [cbn [length]; lia|].
    intros [|j] h' Hj; simpl in Hj.
    + injection Hj as <-. replace (i0 + 0)%nat with i0 by lia. done.
    + destruct (Hhs j h' Hj) as [Ht Hv].
      replace (i0 + S j)%nat with (S i0 + j)%nat by lia. split; [done|].
      rewrite Hv. by destruct j.
Qed.

(** The functional behaviour of [hash_request_tokens] on a request whose
    multi-modal hashes match its placeholders. *)
Lemma hash_request_tokens_spec bs r :
  0 < bs ->
  (mm_positions r = [] ∨ length (mm_positions r) = length (mm_hashes r)) ->
  ∃ hs, hash_request_tokens bs r = Ok hs ∧
    len hs = num_tokens r / bs ∧ chain hs ∧
    ∀ i h, hs !! i = Some h -> token_ids h =
      slice (all_token_ids r) (i * Z.to_nat bs) (i * Z.to_nat bs + Z.to_nat bs).
Proof.
  intros Hbs Hmm. unfold hash_request_tokens.
  assert (negb (bool_decide (mm_positions r = [])) &&
    negb (bool_decide (length (mm_positions r) = length (mm_hashes r))) = false) as ->.
  { destruct Hmm as [Hm|Hm].
    - by rewrite (bool_decide_eq_true_2 (mm_positions r = [])).
    - rewrite (bool_decide_eq_true_2 _ Hm). apply andb_false_r. }
  assert ((bs =? 0) = false) as -> by lia. assert ((bs <? 0) = false) as -> by lia.
  destruct (hash_request_loop_spec (Z.to_nat bs) r 0 (Z.to_nat (cdiv (num_tokens r) bs)) 0 None)
    as (hs & -> & HL & Hhs); [lia|done|lia|].
  exists hs. split; [done|]. split_and!.
  - rewrite HL. unfold num_tokens.
    pose proof (div_le_cdiv (len (all_token_ids r)) bs Hbs).
    assert (Z.of_nat (length (all_token_ids r) / Z.to_nat bs) = len (all_token_ids r) / bs).
    { rewrite Nat2Z.inj_div, Z2Nat.id by lia. done. }
    lia.
  - intros i h Hi. destruct (Hhs i h Hi) as [_ Hv]. rewrite Hv. by destruct i.
  - intros i h Hi. apply (Hhs i h Hi).
Qed.

(** ** No two prefixes share a block hash, unless [hash] collides on them *)

(** The tuples hashed along a chain. *)
Definition chain_keys (hs : list BlockHashType) : list (Z * list Z * option (list string)) :=
  imap (fun i h => (chain_parent hs i, token_ids h, extra_keys h)) hs.

(** [hash] is injective on the given keys, and its values avoid the two
    sentinels that stand for 'no parent'. *)
Definition collision_free (keys : list (Z * list Z * option (list string))) : Prop :=
  (∀ p t k p' t' k', (p, t, k) ∈ keys -> (p', t', k') ∈ keys ->
    hash_tuple p t k = hash_tuple p' t' k' -> (p, t, k) = (p', t', k')) ∧
  (∀ p t k, (p, t, k) ∈ keys -> hash_tuple p t k ≠ 0 ∧ hash_tuple p t k ≠ hash_None_str).

(** A decision procedure for it, to evaluate on concrete chains. *)
Definition collision_freeb (keys : list (Z * list Z * option (list string))) : bool :=
  forallb (fun '(p, t, k) =>
    forallb (fun '(p', t', k') =>
      negb (hash_tuple p t k =? hash_tuple p' t' k') ||
      bool_decide ((p, t, k) = (p', t', k'))) keys &&
    negb (hash_tuple p t k =? 0) && negb (hash_tuple p t k =? hash_None_str)) keys.

Lemma collision_freeb_sound keys : collision_freeb keys = true -> collision_free keys.
Proof.
  unfold collision_freeb. rewrite forallb_forall. intros Hall. split.
  - intros p t k p' t' k' H1%list_elem_of_In H2%list_elem_of_In Heq.
    specialize (Hall _ H1). simpl in Hall.
    apply andb_true_iff in Hall as [[Hall _]%andb_true_iff _].
    rewrite forallb_forall in Hall. specialize (Hall _ H2). simpl in Hall.
    rewrite (proj2 (Z.eqb_eq _ _) Heq) in Hall. by apply bool_decide_eq_true in Hall.
  - intros p t k H1%list_elem_of_In. specialize (Hall _ H1). simpl in Hall.
    apply andb_true_iff in Hall as [[_ H0]%andb_true_iff HN]. lia.
Qed.

Lemma chain_keys_elem hs i h :
  hs !! i = Some h -> (chain_parent hs i, token_ids h, extra_keys h) ∈ chain_keys hs.
Proof.
  intros Hi. apply list_elem_of_lookup_2 with i. unfold chain_keys.
  by rewrite list_lookup_imap, Hi.
Qed.

Section unique.
Context (hs1 hs2 : list BlockHashType).
Context (Hc1 : chain hs1) (Hc2 : chain hs2).
Context (Hcf : collision_free (chain_keys hs1 ++ chain_keys hs2)).

Lemma chain_parent_not_None hs i h :
  chain hs -> chain_keys hs ⊆ chain_keys hs1 ++ chain_keys hs2 -> hs !! i = Some h ->
  chain_parent hs (S i) = hash_value h ∧ hash_value h ≠ hash_None_str.
Proof.
  intros Hc Hsub Hi. destruct Hcf as [_ Hsent].
  destruct (Hsent (chain_parent hs i) (token_ids h) (extra_keys h)) as [H0 HN].
  - apply Hsub, chain_keys_elem, Hi.
  - rewrite <-(Hc i h Hi) in *. simpl. rewrite Hi. simpl.
    by rewrite (proj2 (Z.eqb_neq _ _) H0).
Qed.

Lemma chain_same_value i1 i2 h1 h2 :
  hs1 !! i1 = Some h1 -> hs2 !! i2 = Some h2 -> hash_value h1 = hash_value h2 ->
  h1 = h2 ∧ chain_parent hs1 i1 = chain_parent hs2 i2.
Proof.
  intros H1 H2 Heq. destruct Hcf as [Hinj _].
  pose proof (chain_keys_elem _ _ _ H1) as K1. pose proof (chain_keys_elem _ _ _ H2) as K2.
  rewrite (Hc1 _ _ H1), (Hc2 _ _ H2) in Heq.
  pose proof (Hinj _ _ _ _ _ _ ltac:(by apply elem_of_app; left)
    ltac:(by apply elem_of_app; right) Heq) as E.
  injection E as Ep Et Ek. split; [|done].
  pose proof (Hc1 _ _ H1) as V1. pose proof (Hc2 _ _ H2) as V2.
  destruct h1, h2; simpl in *. congruence.
Qed.

Lemma chain_prefix_unique i1 i2 h :
  hs1 !! i1 = Some h -> hs2 !! i2 = Some h ->
  i1 = i2 ∧ take (S i1) hs1 = take (S i2) hs2.
Proof.
  revert i2 h. induction i1 as [|i1 IH]; intros i2 h H1 H2;
    destruct (chain_same_value _ _ _ _ H1 H2 eq_refl) as [_ Hp].
  - destruct i2 as [|i2].
    + split; [done|]. by rewrite (take_S_r _ _ _ H1), (take_S_r _ _ _ H2).
    + destruct (lookup_lt_is_Some_2 hs2 i2) as [g Hg]; [apply lookup_lt_Some in H2; lia|].
      destruct (chain_parent_not_None hs2 i2 g Hc2 ltac:(set_solver) Hg) as [Hpar HN].
      rewrite Hpar in Hp. by destruct HN.
  - destruct (lookup_lt_is_Some_2 hs1 i1) as [g1 Hg1]; [apply lookup_lt_Some in H1; lia|].
    destruct (chain_parent_not_None hs1 i1 g1 Hc1 ltac:(set_solver) Hg1) as [Hpar1 HN1].
    rewrite Hpar1 in Hp. destruct i2 as [|i2]; [done|].
    destruct (lookup_lt_is_Some_2 hs2 i2) as [g2 Hg2]; [apply lookup_lt_Some in H2; lia|].
    destruct (chain_parent_not_None hs2 i2 g2 Hc2 ltac:(set_solver) Hg2) as [Hpar2 _].
    rewrite Hpar2 in Hp. destruct (chain_same_value _ _ _ _ Hg1 Hg2 Hp) as [<- _].
    destruct (IH i2 g1 Hg1 Hg2) as [<- Htake]. split; [done|].
    by rewrite (take_S_r _ _ _ H1), (take_S_r _ _ _ H2), Htake.
Qed.
End unique.
End hashing.

(** ** Theorems *)

Lemma slice_prefix_eq {A} (l1 l2 : list A) bs n :
  (∀ i, (i < n)%nat -> slice l1 (i * bs) (i * bs + bs) = slice l2 (i * bs) (i * bs + bs)) ->
  take (n * bs) l1 = take (n * bs) l2.
Proof.
  intros Hs. apply list_eq. intros k. destruct (decide (k < n * bs)%nat) as [Hk|Hk].
  - rewrite !lookup_take_lt by done.
    assert (Hbs : bs ≠ 0%nat) by nia.
    pose proof (Nat.div_mod_eq k bs) as Hd. pose proof (Nat.mod_upper_bound k bs Hbs) as Hm.
    assert (Hq : (k / bs < n)%nat) by nia.
    pose proof (f_equal (.!! (k mod bs)%nat) (Hs _ Hq)) as E. simpl in E.
    rewrite !slice_lookup, !decide_True in E by lia.
    by replace (k / bs * bs + k mod bs)%nat with k in E by lia.
  - by rewrite !lookup_take_ge by lia.
Qed.

(** C27: prefix-cache soundness of the hash chain.  When the two chains agree on
    one block hash (which is all a cache lookup compares), the block sits at the
    same position in both requests, all hashes before it agree - so the
    multi-modal keys of every earlier block agree - and the tokens up to the end
    of the block are the same, provided [hash] has no collision on the tuples of
    these two chains. *)
Theorem block_hash_identifies_prefix `{PyHash} bs r1 r2 hs1 hs2 i1 i2 h :
  0 < bs ->
  hash_request_tokens bs r1 = Ok hs1 -> hash_request_tokens bs r2 = Ok hs2 ->
  (mm_positions r1 = [] ∨ length (mm_positions r1) = length (mm_hashes r1)) ->
  (mm_positions r2 = [] ∨ length (mm_positions r2) = length (mm_hashes r2)) ->
  collision_free (chain_keys hs1 ++ chain_keys hs2) ->
  hs1 !! i1 = Some h -> hs2 !! i2 = Some h ->
  i1 = i2 ∧ take (S i1) hs1 = take (S i2) hs2 ∧
  take (S i1 * Z.to_nat bs) (all_token_ids r1) = take (S i2 * Z.to_nat bs) (all_token_ids r2).
Proof.
  intros Hbs E1 E2 M1 M2 Hcf H1 H2.
  destruct (hash_request_tokens_spec bs r1 Hbs M1) as (hs & E & _ & Hc1 & T1).
  rewrite E1 in E; injection E as <-.
  destruct (hash_request_tokens_spec bs r2 Hbs M2) as (hs & E & _ & Hc2 & T2).
  rewrite E2 in E; injection E as <-.
  destruct (chain_prefix_unique hs1 hs2 Hc1 Hc2 Hcf i1 i2 h H1 H2) as [<- Ht].
  split; [done|]. split; [done|]. apply slice_prefix_eq. intros i Hi.
  assert (Hl : hs1 !! i = hs2 !! i).
  { pose proof (f_equal (.!! i) Ht) as E. simpl in E. by rewrite !lookup_take_lt in E. }
  destruct (lookup_lt_is_Some_2 hs1 i) as [g Hg]; [apply lookup_lt_Some in H1; lia|].
  rewrite <-(T1 i g Hg), <-(T2 i g); [done|congruence].
Qed.

(** A toy hash for the witnesses: it is injective on the keys used below. *)
Definition demo_hash : PyHash := {|
  hash_tuple p toks keys :=
    1 + 2 * (foldl (fun acc t => acc * 100 + t) (p + 7) toks) +
    1000003 * len (default [] keys);
  hash_None_str := 2;
|}.

Definition demo_sp : SamplingParams := plain_sampling (Some 16).
Definition demo_request (rid : string) (toks : list Z) : Request :=
  mkRequest rid demo_sp None WAITING None 16 None toks (len toks) [] toks 0 [] [] [] [].

Lemma block_hash_identifies_prefix_witness :
  let hs r := default [] (match @hash_request_tokens demo_hash 2 r with
                          | Ok l => Some l | Err _ => None end) in
  let r1 := demo_request "a" [1; 2; 3; 4; 5] in
  let r2 := demo_request "b" [1; 2; 3; 4; 9; 9] in
  1%nat = 1%nat ∧ take 2 (hs r1) = take 2 (hs r2) ∧
  take (2 * 2) (all_token_ids r1) = take (2 * 2) (all_token_ids r2).
Proof.
  intros hs r1 r2.
  apply (@block_hash_identifies_prefix demo_hash 2 r1 r2 (hs r1) (hs r2) 1 1
    (@hash_block_tokens demo_hash (Some 180205) [3; 4] None)); try (left; reflexivity);
    try lia; try reflexivity.
  by apply collision_freeb_sound.
Defined.
