(* ===== verification/KVCacheManager.v ===== *)
(** * The KV-cache manager: [vllm/v1/core/kv_cache_manager.py]

    The state has the attributes of [KVCacheManager].  The block pool holds the
    block objects, referred to by index; [req_to_blocks] is a [defaultdict(list)]
    from request ids to block references, and [cached_block_hash_to_block] maps a
    block hash to a dict from block id to block, kept as the list of its keys in
    insertion order (the value stored under a key is the block with that id).

    Methods that mutate the request ([get_computed_blocks], [allocate_slots])
    return the updated request. *)

From stdpp Require Import base tactics list gmap sets strings.
From Stdlib Require Import ZArith QArith Lia.
From S2P Require Import Prelude.
From S2P Require Import SamplingParams.
From S2P Require Import Request.
From S2P Require Import BlockQueue.
From S2P Require Import BlockHash.

Local Open Scope Z_scope.

Record KVCacheManager : Type := mkKV {
  block_size : Z;
  num_gpu_blocks : Z;
  kv_max_model_len : Z;
  max_num_blocks_per_req : Z;
  sliding_window : option Z;
  enable_caching : bool;
  num_preallocate_tokens : Z;
  num_preallocate_blocks : Z;
  block_pool : list KVCacheBlock;
  free_block_queue : FreeKVCacheBlockQueue;
  cached_block_hash_to_block : gmap BlockHashType (list nat);
  req_to_blocks : gmap string (list nat);
}.

Definition with_blocks (m : KVCacheManager) (pool : list KVCacheBlock)
    (q : FreeKVCacheBlockQueue) : KVCacheManager :=
  mkKV (block_size m) (num_gpu_blocks m) (kv_max_model_len m) (max_num_blocks_per_req m)
    (sliding_window m) (enable_caching m) (num_preallocate_tokens m)
    (num_preallocate_blocks m) pool q (cached_block_hash_to_block m) (req_to_blocks m).
Definition with_pool (m : KVCacheManager) (pool : list KVCacheBlock) : KVCacheManager :=
  with_blocks m pool (free_block_queue m).
Definition with_cached (m : KVCacheManager) (c : gmap BlockHashType (list nat)) :
    KVCacheManager :=
  mkKV (block_size m) (num_gpu_blocks m) (kv_max_model_len m) (max_num_blocks_per_req m)
    (sliding_window m) (enable_caching m) (num_preallocate_tokens m)
    (num_preallocate_blocks m) (block_pool m) (free_block_queue m) c (req_to_blocks m).
Definition with_reqs (m : KVCacheManager) (rb : gmap string (list nat)) : KVCacheManager :=
  mkKV (block_size m) (num_gpu_blocks m) (kv_max_model_len m) (max_num_blocks_per_req m)
    (sliding_window m) (enable_caching m) (num_preallocate_tokens m)
    (num_preallocate_blocks m) (block_pool m) (free_block_queue m)
    (cached_block_hash_to_block m) rb.

(** [self.block_pool\[b\]] for a block reference. *)
Definition blk (m : KVCacheManager) (b : nat) : KVCacheBlock := block_pool m !!! b.

(** [self.req_to_blocks\[rid\]]: reading a [defaultdict] creates the entry. *)
Definition read_req_blocks (m : KVCacheManager) (rid : string) : KVCacheManager * list nat :=
  match req_to_blocks m !! rid with
  | Some bl => (m, bl)
  | None => (with_reqs m (<[rid := []]> (req_to_blocks m)), [])
  end.

Definition kv_init (block_size num_gpu_blocks max_model_len : Z) (sliding_window : option Z)
    (enable_caching : bool) (num_preallocate_tokens : Z) : result KVCacheManager :=
  let pool0 := new_block <$> seq 0 (Z.to_nat num_gpu_blocks) in
  '(pool, q) ← queue_init pool0;
  Ok (mkKV block_size num_gpu_blocks max_model_len (cdiv max_model_len block_size)
        sliding_window enable_caching num_preallocate_tokens
        (cdiv num_preallocate_tokens block_size) pool q ∅ ∅).

(** [usage], as an exact rational instead of a float. *)
Definition usage (m : KVCacheManager) : Q :=
  (1 - inject_Z (num_free_blocks (free_block_queue m)) / inject_Z (num_gpu_blocks m))%Q.

(** ** Prefix-cache lookups *)

(** [list(d.keys())\[0\]] raises on an empty inner dict. *)
Definition _get_cached_block (m : KVCacheManager) (h : BlockHashType) : result (option nat) :=
  match cached_block_hash_to_block m !! h with
  | None => Ok None
  | Some [] => Err IndexError
  | Some (b :: _) => Ok (Some b)
  end.

Fixpoint computed_blocks_loop (m : KVCacheManager) (hs : list BlockHashType) :
    result (list nat) :=
  match hs with
  | [] => Ok []
  | h :: hs =>
      o ← _get_cached_block m h;
      match o with
      | Some b => bl ← computed_blocks_loop m hs; Ok (b :: bl)
      | None => Ok []
      end
  end.

Definition get_computed_blocks `{PyHash} (m : KVCacheManager) (r : Request) :
    result (Request * list nat * Z) :=
  if negb (enable_caching m) then Ok (r, [], 0)
  else
    r ← (if bool_decide (kv_block_hashes r = [])
         then hs ← hash_request_tokens (block_size m) r; Ok (set_kv_block_hashes hs r)
         else Ok r);
    bl ← computed_blocks_loop m (kv_block_hashes r);
    Ok (r, bl, len bl * block_size m).

(** ** Taking and caching blocks *)

Definition _maybe_evict_cached_block (m : KVCacheManager) (b : nat) :
    result (KVCacheManager * bool) :=
  match block_hash (blk m b) with
  | None => Ok (m, false)
  | Some h =>
      match cached_block_hash_to_block m !! h with
      | None => Ok (m, false)
      | Some l =>
          let m := with_pool m (alter reset_hash b (block_pool m)) in
          if decide (b ∈ l) then
            let l' := filter (.≠ b) l in
            let c := <[h := l']> (cached_block_hash_to_block m) in
            Ok (with_cached m (if decide (l' = []) then delete h c else c), true)
          else Err KeyError
      end
  end.

Fixpoint get_new_blocks_loop (n : nat) (m : KVCacheManager) (ret : list nat) :
    result (KVCacheManager * list nat) :=
  match n with
  | O => Ok (m, ret)
  | S n =>
      '(b, pool, q) ← popleft (block_pool m) (free_block_queue m);
      let m := with_blocks m pool q in
      _ ← py_assert (ref_cnt (blk m b) =? 0);
      m ← (if enable_caching m then
             '(m, _) ← _maybe_evict_cached_block m b; Ok m
           else Ok m);
      get_new_blocks_loop n (with_pool m (alter incr_ref b (block_pool m))) (ret ++ [b])
  end.

Definition _get_new_blocks (m : KVCacheManager) (num_blocks : Z) :
    result (KVCacheManager * list nat) :=
  if num_free_blocks (free_block_queue m) <? num_blocks then Err ValueError
  else get_new_blocks_loop (Z.to_nat num_blocks) m [].

Definition touch_block (b : nat) (m : KVCacheManager) : result KVCacheManager :=
  let m := if ref_cnt (blk m b) =? 0 then
             let '(pool, q) := remove (block_pool m) (free_block_queue m) b in
             with_blocks m pool q
           else m in
  Ok (with_pool m (alter incr_ref b (block_pool m))).

Definition _touch (m : KVCacheManager) (blocks : list nat) : result KVCacheManager :=
  for_each touch_block blocks m.

(** The first loop of [_cache_full_blocks]: skip the blocks that have a hash.
    [None]: all of them have one, and the method returns. *)
Fixpoint find_uncached (m : KVCacheManager) (blocks : list nat) (offset : nat)
    (prev : option Z) : option (list nat * nat * option Z) :=
  match blocks with
  | [] => None
  | b :: rest =>
      match block_hash (blk m b) with
      | None => Some (blocks, offset, prev)
      | Some h => find_uncached m rest (S offset) (Some (hash_value h))
      end
  end.

(** [self.cached_block_hash_to_block\[h\]\[b\] = blk], through the [defaultdict]. *)
Definition cache_insert (h : BlockHashType) (b : nat)
    (c : gmap BlockHashType (list nat)) : gmap BlockHashType (list nat) :=
  let l := default [] (c !! h) in
  <[h := if decide (b ∈ l) then l else l ++ [b]]> c.

Section with_hash.
Context `{PyHash}.

(** The second loop; [num_cached] is [len(request.kv_block_hashes)] on entry. *)
Fixpoint cache_blocks_loop (m : KVCacheManager) (r : Request) (num_cached : nat)
    (blocks : list nat) (blk_idx : nat) (prev : option Z) :
    result (KVCacheManager * Request) :=
  match blocks with
  | [] => Ok (m, r)
  | b :: rest =>
      _ ← py_assert (bool_decide (block_hash (blk m b) = None));
      '(h, r) ←
        (if decide (blk_idx < num_cached)%nat then
           h ← or_raise IndexError (kv_block_hashes r !! blk_idx); Ok (h, r)
         else
           let bs := Z.to_nat (block_size m) in
           let start := (blk_idx * bs)%nat in
           let stop := ((blk_idx + 1) * bs)%nat in
           let toks := slice (all_token_ids r) start stop in
           _ ← py_assert (bool_decide (len toks = block_size m));
           '(keys, _) ← generate_block_hash_extra_keys r (Z.of_nat start) (Z.of_nat stop) (-1);
           let h := hash_block_tokens prev toks keys in
           Ok (h, append_kv_block_hashes h r));
      x ← set_block_hash h (blk m b);
      let m := with_pool m (<[b := x]> (block_pool m)) in
      let m := with_cached m (cache_insert h b (cached_block_hash_to_block m)) in
      cache_blocks_loop m r num_cached rest (S blk_idx) (Some (hash_value h))
  end.

Definition _cache_full_blocks (m : KVCacheManager) (r : Request) (blk_start_idx : nat)
    (full_blocks : list nat) (prev_block : option nat) :
    result (KVCacheManager * Request) :=
  let num_cached := length (kv_block_hashes r) in
  prev ← match prev_block with
         | None => Ok None
         | Some p =>
             h ← or_raise AssertionError (block_hash (blk m p));
             Ok (Some (hash_value h))
         end;
  match find_uncached m full_blocks 0 prev with
  | None => Ok (m, r)
  | Some (rest, offset, prev) =>
      cache_blocks_loop m r num_cached rest (blk_start_idx + offset) prev
  end.

(** ** Allocation *)

(** [allocate_slots], returning the new block list or [None] when the pool
    cannot serve the request. *)
Definition allocate_slots (m : KVCacheManager) (r : Request) (num_tokens : Z)
    (new_computed_blocks : list nat) :
    result (KVCacheManager * Request * option (list nat)) :=
  if num_tokens =? 0 then Err ValueError
  else
    let num_computed := num_computed_tokens r + len new_computed_blocks * block_size m in
    let num_required := cdiv (num_computed + num_tokens) (block_size m) in
    let '(m, req_blocks) := read_req_blocks m (request_id r) in
    let num_new := num_required - len req_blocks - len new_computed_blocks in
    let num_evictable :=
      len (filter (fun b => ref_cnt (blk m b) = 0) new_computed_blocks) in
    if num_free_blocks (free_block_queue m) - num_evictable <? num_new then Ok (m, r, None)
    else
      m ← (if enable_caching m then _touch m new_computed_blocks
           else _ ← py_assert (bool_decide (new_computed_blocks = [])); Ok m);
      let req_blocks := req_blocks ++ new_computed_blocks in
      '(m, new_blocks) ←
        (if num_new <=? 0 then Ok (m, [])
         else
           let n := Z.min (Z.min (num_new + num_preallocate_blocks m)
                             (num_free_blocks (free_block_queue m)))
                      (max_num_blocks_per_req m - len req_blocks) in
           _ ← py_assert (0 <? n);
           _get_new_blocks m n);
      let req_blocks := req_blocks ++ new_blocks in
      let m := with_reqs m (<[request_id r := req_blocks]> (req_to_blocks m)) in
      if negb (enable_caching m) then Ok (m, r, Some new_blocks)
      else
        let num_full := Z.to_nat ((num_computed + num_tokens) / block_size m) in
        let num_computed_full := Z.to_nat (num_computed / block_size m) in
        let new_full := slice req_blocks num_computed_full num_full in
        if bool_decide (new_full = []) then Ok (m, r, Some new_blocks)
        else
          prev ← (if decide (0 < num_computed_full)%nat
                  then p ← or_raise IndexError (req_blocks !! (num_computed_full - 1)%nat);
                       Ok (Some p)
                  else Ok None);
          '(m, r) ← _cache_full_blocks m r num_computed_full new_full prev;
          Ok (m, r, Some new_blocks).
End with_hash.

(** ** Freeing *)

Definition free_block (b : nat) (m : KVCacheManager) : result KVCacheManager :=
  let m := with_pool m (alter decr_ref b (block_pool m)) in
  if ref_cnt (blk m b) =? 0 then
    '(pool, q) ← append (block_pool m) (free_block_queue m) b;
    Ok (with_blocks m pool q)
  else Ok m.

Definition free (m : KVCacheManager) (r : Request) : result KVCacheManager :=
  let blocks := default [] (req_to_blocks m !! request_id r) in
  let m := with_reqs m (delete (request_id r) (req_to_blocks m)) in
  for_each free_block (if enable_caching m then reverse blocks else blocks) m.

Definition reset_prefix_cache (m : KVCacheManager) : KVCacheManager * bool :=
  let num_used := num_gpu_blocks m - num_free_blocks (free_block_queue m) in
  if 0 <? num_used then (m, false)
  else (with_pool (with_cached m ∅) (reset_hash <$> block_pool m), true).

Fixpoint common_prefix_loop (m : KVCacheManager) (blocks : list nat) (n : Z) : Z :=
  match blocks with
  | [] => 0
  | b :: blocks => if ref_cnt (blk m b) =? n then 1 + common_prefix_loop m blocks n else 0
  end.

Definition get_num_common_prefix_blocks (m : KVCacheManager) (r : Request)
    (num_running : Z) : result (KVCacheManager * Z) :=
  _ ← py_assert (bool_decide (status r = RUNNING));
  let '(m, blocks) := read_req_blocks m (request_id r) in
  Ok (m, common_prefix_loop m blocks num_running).
