(* ===== verification/KVCacheInv.v ===== *)
(** * The invariant of the KV-cache manager

    [kv_inv m fl pend] ties the linked free list, the reference counts, the
    request table and the prefix cache together.  [fl] is the abstract free
    list; [pend] lists the references a method holds while it runs (blocks popped
    from the pool but not yet stored in the request table, or taken out of it but
    not yet released), so that every loop of the manager has the same invariant.

    The proofs use the free queue through the interface [FreeQueueSpec] only. *)

From stdpp Require Import base tactics list gmap sets strings.
From Stdlib Require Import ZArith QArith Lia.
From S2P Require Import Prelude.
From S2P Require Import SamplingParams.
From S2P Require Import Request.
From S2P Require Import BlockQueue.
From S2P Require Import BlockHash.
From S2P Require Import KVCacheManager.

Local Open Scope Z_scope.

(** ** Reference counts of the request table *)

(** How often block [b] occurs in the block lists of all requests. *)
Definition refs (rb : gmap string (list nat)) (b : nat) : Z :=
  map_fold (fun _ bl acc => occ b bl + acc) 0 rb.

Section refs_lemmas.
Implicit Types (rb : gmap string (list nat)) (b : nat).

Lemma refs_insert_new rb k bl b :
  rb !! k = None -> refs (<[k := bl]> rb) b = occ b bl + refs rb b.
Proof.
  intros Hk. unfold refs. rewrite map_fold_insert_L; [done| |done].
  intros. lia.
Qed.

Lemma refs_delete rb k b :
  refs (delete k rb) b = refs rb b - occ b (default [] (rb !! k)).
Proof.
  destruct (rb !! k) as [bl|] eqn:Hk; simpl.
  - rewrite <-(insert_id rb k bl Hk) at 2. rewrite <-insert_delete_eq.
    rewrite refs_insert_new by apply lookup_delete_eq. lia.
  - rewrite delete_id by done. lia.
Qed.

Lemma refs_insert rb k bl b :
  refs (<[k := bl]> rb) b = refs rb b - occ b (default [] (rb !! k)) + occ b bl.
Proof.
  rewrite <-insert_delete_eq, refs_insert_new, refs_delete by apply lookup_delete_eq. lia.
Qed.

Lemma refs_nonneg rb b : 0 <= refs rb b.
Proof.
  unfold refs. apply (map_fold_weak_ind (fun acc _ => 0 <= acc)); [lia|].
  intros k bl rb' acc _ Hacc. pose proof (occ_nonneg b bl). lia.
Qed.

Lemma refs_lookup rb k bl b : rb !! k = Some bl -> occ b bl <= refs rb b.
Proof.
  intros Hk. pose proof (refs_delete rb k b) as Hd. rewrite Hk in Hd. simpl in Hd.
  pose proof (refs_nonneg (delete k rb) b). lia.
Qed.

Lemma refs_two rb k1 k2 bl1 bl2 b :
  k1 ≠ k2 -> rb !! k1 = Some bl1 -> rb !! k2 = Some bl2 ->
  occ b bl1 + occ b bl2 <= refs rb b.
Proof.
  intros Hne H1 H2. pose proof (refs_delete rb k1 b) as Hd. rewrite H1 in Hd. simpl in Hd.
  pose proof (refs_lookup (delete k1 rb) k2 bl2 b ltac:(by rewrite lookup_delete_ne)). lia.
Qed.

Lemma refs_none rb b : (∀ rid bl, rb !! rid = Some bl -> b ∉ bl) -> refs rb b = 0.
Proof.
  induction rb as [|k l rb Hk IH] using map_ind; [done|].
  intros Hno. rewrite refs_insert_new by done.
  rewrite IH; [|intros rid bl Hrb; apply (Hno rid); rewrite lookup_insert_ne; [done|congruence]].
  assert (b ∉ l) as ->%occ_0; [|done]. apply (Hno k), lookup_insert_eq.
Qed.
End refs_lemmas.

(** ** The configuration never changes *)

Record kv_frame (m m' : KVCacheManager) : Prop := {
  kf_bs : block_size m' = block_size m;
  kf_num : num_gpu_blocks m' = num_gpu_blocks m;
  kf_mml : kv_max_model_len m' = kv_max_model_len m;
  kf_max : max_num_blocks_per_req m' = max_num_blocks_per_req m;
  kf_cache : enable_caching m' = enable_caching m;
  kf_pre : num_preallocate_blocks m' = num_preallocate_blocks m;
  kf_len : length (block_pool m') = length (block_pool m);
}.

#[export] Instance kv_frame_preorder : PreOrder kv_frame.
Proof. split; [by split|]. intros ??? [] []. split; congruence. Qed.

(** Only the reference counts and the free list may differ. *)
Record kv_same (m m' : KVCacheManager) : Prop := {
  ks_frame : kv_frame m m';
  ks_reqs : req_to_blocks m' = req_to_blocks m;
  ks_cached : cached_block_hash_to_block m' = cached_block_hash_to_block m;
  ks_hash : ∀ c, (c < length (block_pool m))%nat ->
    block_hash (blk m' c) = block_hash (blk m c);
}.

#[export] Instance kv_same_preorder : PreOrder kv_same.
Proof.
  split; [by split|]. intros m1 m2 m3 [F1 R1 C1 H1] [F2 R2 C2 H2].
  split; [by transitivity m2|congruence..|].
  intros c Hc. rewrite H2, H1; [done..|]. by rewrite (kf_len _ _ F1).
Qed.

Section kv_inv.
Context (repr : list KVCacheBlock -> FreeKVCacheBlockQueue -> list nat -> Prop).
Context `{!FreeQueueSpec repr}.

(** ** The invariant *)
Record kv_inv (m : KVCacheManager) (fl pend : list nat) : Prop := {
  ki_bs : 0 < block_size m;
  ki_num : num_gpu_blocks m = len (block_pool m);
  ki_max : max_num_blocks_per_req m = cdiv (kv_max_model_len m) (block_size m);
  ki_pre : 0 <= num_preallocate_blocks m;
  ki_repr : repr (block_pool m) (free_block_queue m) fl;
  ki_id : ∀ b, (b < length (block_pool m))%nat -> block_id (blk m b) = b;
  (* a block's reference count is the number of its owners *)
  ki_ref : ∀ b, (b < length (block_pool m))%nat ->
    ref_cnt (blk m b) = refs (req_to_blocks m) b + occ b pend;
  (* the free list holds exactly the blocks nobody owns *)
  ki_free : ∀ b, (b < length (block_pool m))%nat -> b ∈ fl <-> ref_cnt (blk m b) = 0;
  ki_owned : ∀ b, 0 < refs (req_to_blocks m) b + occ b pend ->
    (b < length (block_pool m))%nat;
  (* the prefix cache and the hashes stored in the blocks agree *)
  ki_cached : ∀ h l, cached_block_hash_to_block m !! h = Some l ->
    l ≠ [] ∧ NoDup l ∧ ∀ b, b ∈ l ->
      (b < length (block_pool m))%nat ∧ block_hash (blk m b) = Some h;
  ki_hash : ∀ b h, (b < length (block_pool m))%nat -> block_hash (blk m b) = Some h ->
    ∃ l, cached_block_hash_to_block m !! h = Some l ∧ b ∈ l;
  (* only hashed blocks are shared *)
  ki_excl : ∀ b, (b < length (block_pool m))%nat -> block_hash (blk m b) = None ->
    ref_cnt (blk m b) <= 1;
  ki_nocache : enable_caching m = false -> cached_block_hash_to_block m = ∅;
}.

Implicit Types (m : KVCacheManager) (fl pend bl : list nat) (b : nat).

Lemma kv_inv_pend m fl p p' :
  (∀ b, occ b p = occ b p') -> kv_inv m fl p -> kv_inv m fl p'.
Proof.
  intros Hp []; split; try done; intros b; rewrite <-?Hp; auto.
Qed.

Lemma nocache_unhashed m fl pend b :
  kv_inv m fl pend -> enable_caching m = false -> (b < length (block_pool m))%nat ->
  block_hash (blk m b) = None.
Proof.
  intros Hi Hc Hb. destruct (block_hash (blk m b)) as [h|] eqn:Hh; [|done].
  destruct (ki_hash _ _ _ Hi b h Hb Hh) as (l & Hl & _).
  by rewrite (ki_nocache _ _ _ Hi Hc) in Hl.
Qed.

(** Moving references between [pend] and the request table. *)
Lemma kv_inv_reqs m fl pend pend' rb :
  (∀ b, refs rb b + occ b pend' = refs (req_to_blocks m) b + occ b pend) ->
  kv_inv m fl pend -> kv_inv (with_reqs m rb) fl pend'.
Proof.
  intros Hrb []. split; try done; simpl.
  - intros b Hb. rewrite Hrb. by apply ki_ref0.
  - intros b. rewrite Hrb. apply ki_owned0.
Qed.

Lemma read_req_blocks_spec m fl rid m' bl :
  kv_inv m fl [] -> read_req_blocks m rid = (m', bl) ->
  bl = default [] (req_to_blocks m !! rid) ∧ kv_inv m' fl [] ∧ kv_frame m m' ∧
  block_pool m' = block_pool m ∧ free_block_queue m' = free_block_queue m ∧
  cached_block_hash_to_block m' = cached_block_hash_to_block m ∧
  req_to_blocks m' = <[rid := bl]> (req_to_blocks m).
Proof.
  unfold read_req_blocks. intros Hi. destruct (req_to_blocks m !! rid) as [bl0|] eqn:Hrb.
  - intros [= <- <-]. split_and!; try done. by rewrite insert_id.
  - intros [= <- <-]. split_and!; try done. apply (kv_inv_reqs m fl [] []); [|done].
    intros b. rewrite refs_insert, Hrb. simpl. lia.
Qed.

(** ** Reference counting *)

(** Changing the links and the reference count of one block. *)
Lemma blk_with_blocks m pool q b : blk (with_blocks m pool q) b = pool !!! b.
Proof. done. Qed.

Lemma incr_inv m pool q fl fl' pend b :
  kv_inv m fl pend -> same_meta (block_pool m) pool -> repr pool q fl' ->
  (b < length (block_pool m))%nat ->
  (∀ c, c ∈ fl' <-> c ∈ fl ∧ c ≠ b) ->
  (block_hash (blk m b) = None -> ref_cnt (blk m b) = 0) ->
  kv_inv (with_pool (with_blocks m pool q) (alter incr_ref b pool)) fl' (b :: pend).
Proof.
  intros [] [L I R H] Hrepr Hb Hfl Hexcl.
  assert (HB : ∀ c, (c < length (block_pool m))%nat ->
    alter incr_ref b pool !!! c = if decide (b = c) then incr_ref (pool !!! c) else pool !!! c)
    by (intros; apply alter_total; lia).
  split; try done; unfold blk; simpl; rewrite ?length_alter, ?L; try done.
  - by apply fq_frame.
  - intros c Hc. rewrite HB by done. case_decide; simpl; rewrite I by done; by apply ki_id0.
  - intros c Hc. rewrite HB by done. pose proof (ki_ref0 c Hc) as E. unfold blk in E.
    case_decide; simpl; rewrite ?R by done.
    + subst. rewrite decide_True by done. lia.
    + rewrite decide_False by congruence. lia.
  - intros c Hc. rewrite HB, Hfl, ki_free0 by done. unfold blk.
    pose proof (ki_ref0 c Hc) as E. unfold blk in E.
    pose proof (refs_nonneg (req_to_blocks m) c). pose proof (occ_nonneg c pend).
    case_decide; simpl; rewrite ?R by done; [subst; split; [tauto|lia]|].
    split; [tauto|]. intros; by split; [|congruence].
  - intros c Hc. destruct (decide (c = b)) as [->|]; [done|]. apply ki_owned0. lia.
  - intros h l Hl. destruct (ki_cached0 h l Hl) as (? & ? & Hall). split_and!; [done..|].
    intros c Hc. destruct (Hall c Hc) as [Hc1 Hc2]. split; [done|].
    rewrite HB by done. case_decide; simpl; rewrite H by done; exact Hc2.
  - intros c h Hc. rewrite HB by done. intros Hh. apply ki_hash0; [done|].
    unfold blk. rewrite <-H by done. by case_decide.
  - intros c Hc. rewrite HB by done. pose proof (ki_excl0 c Hc) as E. unfold blk in E, Hexcl.
    case_decide; simpl; rewrite H, ?R by done; [|done]. subst. intros Hn.
    rewrite Hexcl by done. lia.
Qed.

Lemma touch_block_spec m fl pend b :
  kv_inv m fl pend -> (b < length (block_pool m))%nat -> is_Some (block_hash (blk m b)) ->
  ∃ m', touch_block b m = Ok m' ∧ kv_inv m' (filter (.≠ b) fl) (b :: pend) ∧ kv_same m m'.
Proof.
  intros Hi Hb [h Hh]. unfold touch_block.
  destruct (Z.eqb_spec (ref_cnt (blk m b)) 0) as [H0|H0].
  - assert (Hin : b ∈ fl) by by apply (ki_free _ _ _ Hi).
    apply list_elem_of_split in Hin as (l1 & l2 & ->).
    destruct (fq_remove _ _ l1 b l2 (ki_repr _ _ _ Hi)) as (pool & q & -> & Hr & Hm).
    pose proof (fq_nodup _ _ _ (ki_repr _ _ _ Hi)) as Hnd.
    rewrite (filter_ne_mid l1 b l2 Hnd).
    eexists. split; [done|]. split.
    + eapply incr_inv; [done..| |congruence]. intros c.
      pose proof (NoDup_mid _ _ _ Hnd) as (?&?&_). set_solver.
    + split; [split; simpl; try done; by rewrite length_alter, (sm_length _ _ Hm)|done..|].
      intros c Hc. unfold blk; simpl. rewrite alter_total by (rewrite (sm_length _ _ Hm); done).
      case_decide; simpl; by apply (sm_hash _ _ Hm).
  - assert (Hnin : b ∉ fl) by (intros Hin; by apply (ki_free _ _ _ Hi) in Hin).
    rewrite filter_ne_notin by done. eexists. split; [done|]. split.
    + eapply (incr_inv m _ (free_block_queue m) fl); [done..|apply Hi|done| |congruence].
      set_solver.
    + split; [by split; simpl; rewrite ?length_alter|done..|].
      intros c Hc. unfold blk; simpl. rewrite alter_total by done. by case_decide.
Qed.

Lemma touch_spec m fl pend bl :
  kv_inv m fl pend ->
  (∀ b, b ∈ bl -> (b < length (block_pool m))%nat ∧ is_Some (block_hash (blk m b))) ->
  ∃ m', _touch m bl = Ok m' ∧ kv_inv m' (filter (.∉ bl) fl) (bl ++ pend) ∧ kv_same m m'.
Proof.
  unfold _touch. revert m fl pend. induction bl as [|b bl IH]; intros m fl pend Hi Hbl; cbn [for_each].
  - exists m. split; [done|]. split; [|done].
    rewrite (list_filter_iff _ (fun _ => True)) by set_solver.
    assert (filter (fun _ : nat => True) fl = fl) as ->; [|done].
    clear. induction fl; [done|]. by rewrite filter_cons_True, IHfl.
  - destruct (Hbl b ltac:(by left)) as [Hb Hh].
    destruct (touch_block_spec m fl pend b Hi Hb Hh) as (m1 & -> & Hi1 & Hs1).
    cbn [mbind result_bind].
    destruct (IH m1 _ _ Hi1) as (m' & -> & Hi' & Hs').
    { intros c Hc. destruct (Hbl c ltac:(by right)) as [Hc1 Hc2].
      rewrite (kf_len _ _ (ks_frame _ _ Hs1)), (ks_hash _ _ Hs1) by done. done. }
    exists m'. split; [done|]. split; [|by transitivity m1].
    rewrite list_filter_filter in Hi'.
    rewrite (list_filter_iff _ (fun x => (x ∉ bl) ∧ x ≠ b)) by set_solver.
    eapply kv_inv_pend; [|exact Hi']. intros c. rewrite occ_app. simpl. rewrite !occ_app. simpl. lia.
Qed.

(** ** Eviction and popping *)

(** The prefix cache without block [b], which is filed under [h]. *)
Definition uncache (h : BlockHashType) (b : nat) (c : gmap BlockHashType (list nat)) :
    gmap BlockHashType (list nat) :=
  let l := filter (.≠ b) (default [] (c !! h)) in
  if decide (l = []) then delete h (<[h := l]> c) else <[h := l]> c.

Lemma uncache_lookup h b c h' l :
  uncache h b c !! h' = Some l <->
  if decide (h = h') then l = filter (.≠ b) (default [] (c !! h)) ∧ l ≠ []
  else c !! h' = Some l.
Proof.
  unfold uncache. set (l0 := filter _ _).
  destruct (decide (l0 = [])) as [E|E]; destruct (decide (h = h')) as [<-|Hne].
  - rewrite lookup_delete_eq. naive_solver.
  - by rewrite lookup_delete_ne, lookup_insert_ne.
  - rewrite lookup_insert_eq. naive_solver.
  - by rewrite lookup_insert_ne.
Qed.

Lemma reset_inv m fl pend b h :
  kv_inv m fl pend -> (b < length (block_pool m))%nat ->
  block_hash (blk m b) = Some h -> ref_cnt (blk m b) <= 1 ->
  kv_inv (with_cached (with_pool m (alter reset_hash b (block_pool m)))
    (uncache h b (cached_block_hash_to_block m))) fl pend.
Proof.
  intros Hi Hb Hh Hr. destruct (ki_hash _ _ _ Hi b h Hb Hh) as (l0 & Hl0 & Hbl0).
  assert (HB : ∀ c, (c < length (block_pool m))%nat ->
    alter reset_hash b (block_pool m) !!! c = if decide (b = c) then reset_hash (blk m c) else blk m c)
    by (intros; by apply alter_total).
  destruct Hi. split; try done; unfold blk at 1 || idtac; simpl; rewrite ?length_alter; try done.
  - by apply fq_frame.
  - intros c Hc. unfold blk; simpl. rewrite HB by done. case_decide; simpl; by apply ki_id0.
  - intros c Hc. rewrite HB by done. case_decide; simpl; by apply ki_ref0.
  - intros c Hc. unfold blk; simpl. rewrite HB by done. case_decide; simpl; by apply ki_free0.
  - intros h' l Hl. apply uncache_lookup in Hl. case_decide as Hd.
    + destruct Hl as [-> Hne]. subst h'. rewrite Hl0 in *. simpl in *.
      destruct (ki_cached0 h l0 Hl0) as (_ & Hnd & Hall). split_and!; [done|by apply NoDup_filter|].
      intros c [Hc1 Hc2]%list_elem_of_filter. destruct (Hall c Hc2). split; [done|].
      unfold blk; simpl. by rewrite HB, decide_False by (done || congruence).
    + destruct (ki_cached0 h' l Hl) as (? & ? & Hall). split_and!; [done..|].
      intros c Hc. destruct (Hall c Hc). split; [done|]. unfold blk; simpl.
      rewrite HB, decide_False; [done|congruence|done].
  - intros c h' Hc. unfold blk; simpl. rewrite HB by done. case_decide as Hd; [done|].
    intros Hh'. destruct (ki_hash0 c h' Hc Hh') as (l & Hl & Hcl).
    destruct (decide (h = h')) as [<-|Hne].
    + exists (filter (.≠ b) l). split; [|apply list_elem_of_filter; by split].
      apply uncache_lookup. rewrite decide_True, Hl by done. split; [done|].
      intros E. apply (elem_of_nil c). rewrite <-E. apply list_elem_of_filter. by split.
    + exists l. split; [|done]. apply uncache_lookup. by rewrite decide_False.
  - intros c Hc. unfold blk; simpl. rewrite HB by done. case_decide as Hd; simpl; [by subst|].
    by apply ki_excl0.
  - intros Hc. by rewrite (ki_nocache0 Hc) in Hl0.
Qed.

Lemma alter_reset_id (pool : list KVCacheBlock) b :
  block_hash (pool !!! b) = None -> alter reset_hash b pool = pool.
Proof.
  intros Hh. apply list_eq. intros i. destruct (decide (b = i)) as [->|].
  - rewrite list_lookup_alter_eq. destruct (pool !! i) as [x|] eqn:Hi; [|done].
    apply list_lookup_total_correct in Hi. rewrite Hi in Hh. simpl. f_equal.
    destruct x; simpl in *. by subst.
  - by rewrite list_lookup_alter_ne.
Qed.

(** [_maybe_evict_cached_block] on the manager whose links were just changed by
    [popleft]: it behaves as on [m] itself. *)
Lemma evict_spec m fl pend b pool q :
  kv_inv m fl pend -> (b < length (block_pool m))%nat -> ref_cnt (blk m b) <= 1 ->
  same_meta (block_pool m) pool ->
  ∃ m1 e, _maybe_evict_cached_block (with_blocks m pool q) b =
      Ok (with_blocks m1 (alter reset_hash b pool) q, e) ∧
    kv_inv m1 fl pend ∧ block_pool m1 = alter reset_hash b (block_pool m) ∧
    kv_frame m m1 ∧ req_to_blocks m1 = req_to_blocks m.
Proof.
  intros Hi Hb Hr Hm. unfold _maybe_evict_cached_block. rewrite blk_with_blocks.
  rewrite (sm_hash _ _ Hm b Hb). fold (blk m b).
  destruct (block_hash (blk m b)) as [h|] eqn:Hh.
  - destruct (ki_hash _ _ _ Hi b h Hb Hh) as (l0 & Hl0 & Hbl0).
    change (cached_block_hash_to_block (with_blocks m pool q)) with (cached_block_hash_to_block m).
    rewrite Hl0. rewrite decide_True by done.
    eexists (with_cached (with_pool m (alter reset_hash b (block_pool m)))
      (uncache h b (cached_block_hash_to_block m))), true.
    split_and!; try done.
    + unfold uncache. rewrite Hl0. done.
    + by apply reset_inv.
    + split; try done. apply length_alter.
  - exists m, false. rewrite (alter_reset_id pool) by (by rewrite (sm_hash _ _ Hm b Hb)).
    split_and!; try done. symmetry. by apply alter_reset_id.
Qed.

(** The hashes change on the blocks of [bl] only, which end up without one. *)
Record kv_popped (m m' : KVCacheManager) (bl : list nat) : Prop := {
  kp_frame : kv_frame m m';
  kp_reqs : req_to_blocks m' = req_to_blocks m;
  kp_none : ∀ b, b ∈ bl -> block_hash (blk m' b) = None;
  kp_hash : ∀ c, (c < length (block_pool m))%nat -> c ∉ bl ->
    block_hash (blk m' c) = block_hash (blk m c);
}.

(** One iteration of the loop of [_get_new_blocks]. *)
Lemma pop_step m fl pend b :
  kv_inv m (b :: fl) pend ->
  ∃ pool q m',
    popleft (block_pool m) (free_block_queue m) = Ok (b, pool, q) ∧
    py_assert (ref_cnt (blk (with_blocks m pool q) b) =? 0) = Ok tt ∧
    (if enable_caching m then
       '(m, _) ← _maybe_evict_cached_block (with_blocks m pool q) b; Ok m
     else Ok (with_blocks m pool q)) = Ok m' ∧
    kv_inv (with_pool m' (alter incr_ref b (block_pool m'))) fl (b :: pend) ∧
    kv_popped m (with_pool m' (alter incr_ref b (block_pool m'))) [b].
Proof.
  intros Hi. destruct (fq_popleft _ _ _ _ (ki_repr _ _ _ Hi)) as (pool & q & Hpop & Hr & Hm).
  assert (Hb : (b < length (block_pool m))%nat)
    by (eapply fq_range; [apply (ki_repr _ _ _ Hi)|by left]).
  assert (H0 : ref_cnt (blk m b) = 0) by (apply (ki_free _ _ _ Hi); [done|by left]).
  pose proof (fq_nodup _ _ _ (ki_repr _ _ _ Hi)) as [Hbfl _]%NoDup_cons.
  destruct (evict_spec m _ pend b pool q Hi Hb ltac:(lia) Hm)
    as (m1 & e & Hev & Hi1 & Hp1 & Hf1 & Hr1).
  assert (Hm1 : same_meta (block_pool m1) (alter reset_hash b pool)).
  { rewrite Hp1. destruct Hm as [L I R H]. split; rewrite ?length_alter; [done|..];
      intros c Hc; rewrite !alter_total by lia; case_decide; simpl; auto. }
  assert (Hb1 : blk m1 b = reset_hash (blk m b)).
  { unfold blk. rewrite Hp1, alter_total, decide_True by done. done. }
  exists pool, q, (with_blocks m1 (alter reset_hash b pool) q).
  split; [done|]. split; [by rewrite blk_with_blocks, (sm_ref _ _ Hm b Hb); fold (blk m b); rewrite H0|].
  split.
  { destruct (enable_caching m) eqn:Hc; [by rewrite Hev|].
    unfold _maybe_evict_cached_block in Hev. rewrite blk_with_blocks in Hev.
    rewrite (sm_hash _ _ Hm b Hb) in Hev. fold (blk m b) in Hev.
    rewrite (nocache_unhashed m _ _ b Hi Hc Hb) in Hev. exact (f_equal (fmap (M:=result) fst) Hev). }
  split.
  - eapply (incr_inv m1 _ q (b :: fl)); [done|done|by apply fq_frame| | |].
    + by rewrite Hp1, length_alter.
    + set_solver.
    + intros _. rewrite Hb1. done.
  - split; try done.
    + transitivity m1; [done|]. split; try done. simpl.
      by rewrite length_alter, (sm_length _ _ Hm1).
    + intros c ->%list_elem_of_singleton. unfold blk; simpl.
      rewrite alter_total, decide_True by (rewrite ?length_alter, ?(sm_length _ _ Hm); done).
      simpl. by rewrite alter_total, decide_True by (rewrite ?(sm_length _ _ Hm); done).
    + intros c Hc Hne. unfold blk; simpl.
      rewrite !alter_total, !decide_False by (rewrite ?length_alter, ?(sm_length _ _ Hm); done || set_solver).
      by apply (sm_hash _ _ Hm).
Qed.

Lemma get_new_blocks_loop_spec n m fl pend ret :
  kv_inv m fl pend -> (n <= length fl)%nat ->
  ∃ m', get_new_blocks_loop n m ret = Ok (m', ret ++ take n fl) ∧
    kv_inv m' (drop n fl) (take n fl ++ pend) ∧ kv_popped m m' (take n fl).
Proof.
  revert m fl pend ret. induction n as [|n IH]; intros m fl pend ret Hi Hn.
  - exists m. rewrite take_0, drop_0, app_nil_r. split_and!; try done. split; [done..|set_solver|done].
  - destruct fl as [|b fl]; [simpl in Hn; lia|].
    destruct (pop_step m fl pend b Hi) as (pool & q & m1 & H1 & H2 & H3 & Hi1 & Hp1).
    cbn [get_new_blocks_loop]. rewrite H1. cbn [mbind result_bind].
    rewrite H2. cbn [mbind result_bind].
    change (enable_caching (with_blocks m pool q)) with (enable_caching m).
    rewrite H3. cbn [mbind result_bind].
    destruct (IH _ fl (b :: pend) (ret ++ [b]) Hi1 ltac:(simpl in Hn; lia))
      as (m' & -> & Hi' & Hp').
    exists m'. cbn [take drop]. rewrite <-app_assoc. split_and!; [done|..].
    + eapply kv_inv_pend; [|exact Hi']. intros c. rewrite occ_app. simpl. rewrite occ_app. simpl. lia.
    + pose proof (fq_nodup _ _ _ (ki_repr _ _ _ Hi)) as [Hbfl _]%NoDup_cons.
      assert (Hbt : b ∉ take n fl) by (intros Hin; apply Hbfl; eapply subseteq_take; eauto).
      destruct Hp1 as [F1 R1 N1 S1], Hp' as [F2 R2 N2 S2].
      assert (Hb : (b < length (block_pool m))%nat)
        by (eapply fq_range; [apply (ki_repr _ _ _ Hi)|by left]).
      split; [by etransitivity|congruence|..].
      * intros c [->|Hc]%elem_of_cons; [|by apply N2].
        rewrite S2; [apply N1; by left|by rewrite (kf_len _ _ F1)|done].
      * intros c Hc [??]%not_elem_of_cons.
        rewrite S2; [apply S1; [done|set_solver]|by rewrite (kf_len _ _ F1)|done].
Qed.

(** ** Releasing *)

Lemma decr_inv m pool q fl fl' pend b :
  kv_inv m fl (b :: pend) -> same_meta (alter decr_ref b (block_pool m)) pool ->
  repr pool q fl' ->
  (∀ c, c ∈ fl' <-> c ∈ fl ∨ (c = b ∧ ref_cnt (blk m b) = 1)) ->
  kv_inv (with_blocks m pool q) fl' pend.
Proof.
  intros [] [L I R H] Hrepr Hfl. rewrite length_alter in *.
  assert (HB : ∀ c, (c < length (block_pool m))%nat ->
    alter decr_ref b (block_pool m) !!! c = if decide (b = c) then decr_ref (blk m c) else blk m c)
    by (intros; by apply alter_total).
  split; try done; unfold blk; simpl; rewrite ?L; try done.
  - intros c Hc. rewrite I, HB by done. case_decide; simpl; by apply ki_id0.
  - intros c Hc. rewrite R, HB by done. pose proof (ki_ref0 c Hc) as E. simpl in E.
    destruct (decide (b = c)) as [->|Hne]; simpl; [rewrite decide_True in E by done; lia|].
    rewrite decide_False in E by congruence. lia.
  - intros c Hc. rewrite R, HB, Hfl, ki_free0 by done.
    destruct (decide (b = c)) as [->|Hne]; simpl; [|naive_solver].
    pose proof (ki_ref0 c Hc) as E. simpl in E. rewrite decide_True in E by done.
    pose proof (refs_nonneg (req_to_blocks m) c). pose proof (occ_nonneg c pend). lia.
  - intros c Hc. apply ki_owned0. simpl. case_decide; lia.
  - intros h l Hl. destruct (ki_cached0 h l Hl) as (? & ? & Hall). split_and!; [done..|].
    intros c Hc. destruct (Hall c Hc) as [Hc1 Hc2]. split; [done|].
    rewrite H, HB by done. by case_decide.
  - intros c h Hc. rewrite H, HB by done. intros Hh. apply ki_hash0; [done|]. by case_decide.
  - intros c Hc. rewrite H, R, HB by done. pose proof (ki_excl0 c Hc) as E.
    case_decide; simpl; [|done]. intros Hn. specialize (E Hn). lia.
Qed.

Lemma free_block_spec m fl pend b :
  kv_inv m fl (b :: pend) ->
  ∃ m', free_block b m = Ok m' ∧ kv_same m m' ∧
    kv_inv m' (if ref_cnt (blk m b) =? 1 then fl ++ [b] else fl) pend.
Proof.
  intros Hi. unfold free_block.
  assert (Hocc : 0 < refs (req_to_blocks m) b + occ b (b :: pend)).
  { simpl. rewrite decide_True by done.
    pose proof (refs_nonneg (req_to_blocks m) b). pose proof (occ_nonneg b pend). lia. }
  pose proof (ki_owned _ _ _ Hi b Hocc) as Hb.
  pose proof (ki_ref _ _ _ Hi b Hb) as Href.
  assert (Hnin : b ∉ fl) by (rewrite (ki_free _ _ _ Hi) by done; lia).
  set (pool1 := alter decr_ref b (block_pool m)).
  assert (HB : blk (with_pool m pool1) b = decr_ref (blk m b)).
  { unfold blk, pool1; simpl. by rewrite alter_total, decide_True. }
  assert (HH : ∀ c, (c < length (block_pool m))%nat ->
    block_hash (pool1 !!! c) = block_hash (blk m c)).
  { intros c Hc. unfold pool1. rewrite alter_total by done. by case_decide. }
  rewrite HB. change (ref_cnt (decr_ref (blk m b))) with (ref_cnt (blk m b) - 1).
  pose proof (fq_frame _ _ fl decr_ref b ltac:(done) (ki_repr _ _ _ Hi)) as Hr1.
  fold pool1 in Hr1.
  destruct (Z.eqb_spec (ref_cnt (blk m b) - 1) 0) as [H0|H0].
  - destruct (fq_append pool1 _ fl b Hr1 Hnin) as (pool & q & Hap & Hr & Hm).
    { unfold pool1. by rewrite length_alter. }
    change (block_pool (with_pool m pool1)) with pool1.
    change (free_block_queue (with_pool m pool1)) with (free_block_queue m).
    rewrite Hap. cbn [mbind result_bind]. eexists. split; [done|].
    rewrite (proj2 (Z.eqb_eq _ 1)) by lia. split.
    + assert (HL : length pool = length (block_pool m)).
      { rewrite (sm_length _ _ Hm). unfold pool1. apply length_alter. }
      split; [by split|done..|]. intros c Hc. unfold blk at 1; simpl.
      rewrite (sm_hash _ _ Hm); [by apply HH|]. unfold pool1. by rewrite length_alter.
    + eapply (decr_inv m pool q fl); [done..|]. set_solver by lia.
  - eexists. split; [done|]. rewrite (proj2 (Z.eqb_neq _ 1)) by lia. split.
    + split; [split; try done; simpl; unfold pool1; apply length_alter|done..|exact HH].
    + eapply (decr_inv m pool1 _ fl); [done..|]. set_solver by lia.
Qed.

(** Releasing a list of references never raises, and gives back exactly the
    blocks whose last reference was in the list, in order. *)
Lemma free_blocks_spec m fl bl :
  kv_inv m fl bl ->
  ∃ m' freed, for_each free_block bl m = Ok m' ∧ kv_same m m' ∧
    kv_inv m' (fl ++ freed) [] ∧
    ∀ b, b ∈ freed <-> b ∈ bl ∧ refs (req_to_blocks m) b = 0.
Proof.
  revert m fl. induction bl as [|b bl IH]; intros m fl Hi.
  - exists m, []. split_and!; [done..| |set_solver]. by rewrite app_nil_r.
  - destruct (free_block_spec m fl bl b Hi) as (m1 & H1 & Hs1 & Hi1).
    destruct (IH m1 _ Hi1) as (m' & freed & H2 & Hs2 & Hi2 & Hf).
    exists m', ((if ref_cnt (blk m b) =? 1 then [b] else []) ++ freed).
    cbn [for_each]. rewrite H1. cbn [mbind result_bind].
    split_and!; [done|by transitivity m1| |].
    + rewrite app_assoc. case_match; [done|]. by rewrite app_nil_r.
    + intros c. rewrite elem_of_app, Hf, (ks_reqs _ _ Hs1), elem_of_cons.
      assert (Hocc : 0 < refs (req_to_blocks m) b + occ b (b :: bl)).
      { simpl. rewrite decide_True by done.
        pose proof (refs_nonneg (req_to_blocks m) b). pose proof (occ_nonneg b bl). lia. }
      pose proof (ki_ref _ _ _ Hi b (ki_owned _ _ _ Hi b Hocc)) as Href.
      simpl in Href. rewrite decide_True in Href by done.
      pose proof (refs_nonneg (req_to_blocks m) b). pose proof (occ_nonneg b bl).
      destruct (Z.eqb_spec (ref_cnt (blk m b)) 1) as [E|E].
      * rewrite list_elem_of_singleton. split; [|naive_solver].
        intros [->|[??]]; [split; [by left|lia]|by split; [right|]].
      * split; [set_solver|]. intros [[->|Hc] Hr0]; [|by right].
        right. split; [|done]. destruct (decide (b ∈ bl)) as [|Hn]; [done|].
        apply occ_0 in Hn. lia.
Qed.

Lemma free_spec m fl r :
  kv_inv m fl [] ->
  ∃ m' freed, free m r = Ok m' ∧ kv_inv m' (fl ++ freed) [] ∧ kv_frame m m' ∧
    req_to_blocks m' = delete (request_id r) (req_to_blocks m) ∧
    cached_block_hash_to_block m' = cached_block_hash_to_block m ∧
    (∀ c, (c < length (block_pool m))%nat -> block_hash (blk m' c) = block_hash (blk m c)) ∧
    ∀ b, b ∈ freed <-> b ∈ default [] (req_to_blocks m !! request_id r) ∧
      refs (delete (request_id r) (req_to_blocks m)) b = 0.
Proof.
  intros Hi. unfold free. set (bl := default [] (req_to_blocks m !! request_id r)).
  set (m1 := with_reqs m (delete (request_id r) (req_to_blocks m))).
  set (order := if enable_caching m1 then reverse bl else bl).
  assert (Hocc : ∀ b, occ b order = occ b bl).
  { intros b. unfold order. case_match; [apply occ_reverse|done]. }
  assert (Hi1 : kv_inv m1 fl order).
  { apply (kv_inv_reqs m fl []); [|done]. intros b. rewrite Hocc, refs_delete. fold bl. simpl. lia. }
  destruct (free_blocks_spec m1 fl order Hi1) as (m' & freed & -> & Hs & Hi' & Hf).
  exists m', freed. destruct Hs as [F R C H]. split_and!; try done.
  - transitivity m1; [|done]. by split.
  - intros b. rewrite Hf. unfold order. case_match; [by rewrite elem_of_reverse|done].
Qed.

(** ** Caching full blocks *)

Definition hashed m b : Prop := is_Some (block_hash (blk m b)).

Definition put_hash (h : BlockHashType) (x : KVCacheBlock) : KVCacheBlock :=
  mkBlock (block_id x) (ref_cnt x) (Some h) (prev_free_block x) (next_free_block x).

Lemma insert_alter (f : KVCacheBlock -> KVCacheBlock) (pool : list KVCacheBlock) b :
  <[b := f (pool !!! b)]> pool = alter f b pool.
Proof.
  apply list_eq. intros i. destruct (decide (b = i)) as [->|Hne].
  - rewrite list_lookup_alter_eq. destruct (pool !! i) as [x|] eqn:Hi; simpl.
    + rewrite list_lookup_insert_eq by by eapply lookup_lt_Some.
      by rewrite (list_lookup_total_correct _ _ _ Hi).
    + apply lookup_ge_None in Hi. rewrite list_insert_ge by done. by apply lookup_ge_None.
  - by rewrite list_lookup_insert_ne, list_lookup_alter_ne.
Qed.

Lemma cache_insert_inv m fl pend b h :
  kv_inv m fl pend -> (b < length (block_pool m))%nat ->
  block_hash (blk m b) = None -> enable_caching m = true ->
  kv_inv (with_cached (with_pool m (alter (put_hash h) b (block_pool m)))
    (cache_insert h b (cached_block_hash_to_block m))) fl pend.
Proof.
  intros Hi Hb Hh Hen. set (l0 := default [] (cached_block_hash_to_block m !! h)).
  assert (Hall0 : NoDup l0 ∧ ∀ c, c ∈ l0 ->
    (c < length (block_pool m))%nat ∧ block_hash (blk m c) = Some h).
  { unfold l0. destruct (cached_block_hash_to_block m !! h) as [l|] eqn:Hl; simpl.
    - destruct (ki_cached _ _ _ Hi h l Hl) as (_ & ? & ?). done.
    - split; [apply NoDup_nil_2|set_solver]. }
  assert (Hbl : b ∉ l0) by (intros Hin; apply Hall0 in Hin as [_ Hin]; congruence).
  assert (HB : ∀ c, (c < length (block_pool m))%nat ->
    alter (put_hash h) b (block_pool m) !!! c =
    if decide (b = c) then put_hash h (blk m c) else blk m c) by (intros; by apply alter_total).
  unfold cache_insert. fold l0. rewrite decide_False by done.
  destruct Hi. split; try done; unfold blk; simpl; rewrite ?length_alter; try done.
  - by apply fq_frame.
  - intros c Hc. rewrite HB by done. case_decide; simpl; by apply ki_id0.
  - intros c Hc. rewrite HB by done. case_decide; simpl; by apply ki_ref0.
  - intros c Hc. rewrite HB by done. case_decide; simpl; by apply ki_free0.
  - intros h' l. destruct (decide (h = h')) as [<-|Hne].
    + rewrite lookup_insert_eq. intros [= <-]. destruct Hall0 as [Hnd Hall].
      split; [by destruct l0|]. split; [apply NoDup_app; split_and!; [done|set_solver|apply NoDup_singleton]|].
      intros c [Hc| ->%list_elem_of_singleton]%elem_of_app.
      * destruct (Hall c Hc). split; [done|]. rewrite HB by done. by case_decide.
      * split; [done|]. by rewrite HB, decide_True.
    + rewrite lookup_insert_ne by done. intros Hl.
      destruct (ki_cached0 h' l Hl) as (? & ? & Hall). split_and!; [done..|].
      intros c Hc. destruct (Hall c Hc). split; [done|].
      rewrite HB, decide_False; [done|congruence|done].
  - intros c h' Hc. rewrite HB by done. destruct (decide (b = c)) as [->|Hne]; simpl.
    + intros [= <-]. eexists. split; [apply lookup_insert_eq|set_solver].
    + intros Hh'. destruct (ki_hash0 c h' Hc Hh') as (l & Hl & Hcl).
      destruct (decide (h = h')) as [<-|Hne'].
      * eexists. split; [apply lookup_insert_eq|]. unfold l0. rewrite Hl. set_solver.
      * exists l. by rewrite lookup_insert_ne.
  - intros c Hc. rewrite HB by done. case_decide; simpl; [done|]. by apply ki_excl0.
  - congruence.
Qed.

(** What [_cache_full_blocks] may change: the hashes of the blocks of [bl]. *)
Record kv_hashed (m m' : KVCacheManager) (bl : list nat) : Prop := {
  kh_frame : kv_frame m m';
  kh_reqs : req_to_blocks m' = req_to_blocks m;
  kh_some : ∀ b, b ∈ bl -> hashed m' b;
  kh_hash : ∀ c, (c < length (block_pool m))%nat -> c ∉ bl ->
    block_hash (blk m' c) = block_hash (blk m c);
}.

Context `{PyHash}.

(** The multi-modal side condition of the hash functions. *)
Definition mm_ok (r : Request) : Prop :=
  mm_positions r = [] ∨ length (mm_positions r) = length (mm_hashes r).

Lemma extra_keys_last_total r s e : mm_ok r ->
  ∃ ks c, generate_block_hash_extra_keys r s e (-1) = Ok (ks, c).
Proof.
  intros [Hm|Hm].
  - unfold generate_block_hash_extra_keys. rewrite Hm. by eexists _, _.
  - destruct (mm_positions r) as [|p ps] eqn:Hp.
    + unfold generate_block_hash_extra_keys. rewrite Hp. by eexists _, _.
    + destruct (extra_keys_total r s e (-1)) as (ks & c & -> & _); [congruence| |by eexists _, _].
      rewrite Hp. simpl. lia.
Qed.

Lemma cache_blocks_loop_spec m r fl pend n0 blocks idx prev :
  kv_inv m fl pend -> enable_caching m = true -> mm_ok r -> NoDup blocks ->
  (∀ b, b ∈ blocks -> (b < length (block_pool m))%nat ∧ block_hash (blk m b) = None) ->
  length (kv_block_hashes r) = max n0 idx ->
  ((idx + length blocks) * Z.to_nat (block_size m) <= length (all_token_ids r))%nat ->
  ∃ m' hs, cache_blocks_loop m r n0 blocks idx prev = Ok (m', set_kv_block_hashes hs r) ∧
    kv_inv m' fl pend ∧ kv_hashed m m' blocks ∧
    kv_block_hashes r `prefix_of` hs ∧ length hs = max n0 (idx + length blocks).
Proof.
  revert m r idx prev. induction blocks as [|b blocks IH];
    intros m r idx prev Hi Hen Hmm Hnd Hall Hlen Htok.
  - exists m, (kv_block_hashes r). split_and!; [by destruct r|done| |done|simpl; lia].
    split; [done..|set_solver|done].
  - apply NoDup_cons in Hnd as [Hbn Hnd]. destruct (Hall b ltac:(by left)) as [Hb Hh].
    cbn [cache_blocks_loop]. rewrite (bool_decide_eq_true_2 _ Hh). cbn [py_assert mbind result_bind].
    match goal with |- context [mbind _ ?e] => assert (∃ h hs, e = Ok (h, set_kv_block_hashes hs r) ∧
      kv_block_hashes r `prefix_of` hs ∧ length hs = max n0 (S idx)) as (h & hs & -> & Hpre & Hhs) end.
    { case_decide as Hidx.
      - destruct (lookup_lt_is_Some_2 (kv_block_hashes r) idx) as [h Hl]; [lia|].
        exists h, (kv_block_hashes r). rewrite Hl. split_and!; [by destruct r|done|lia].
      - pose proof (ki_bs _ _ _ Hi) as Hbs. simpl in Htok.
        rewrite bool_decide_eq_true_2 by (rewrite slice_length; nia). cbn [py_assert mbind result_bind].
        edestruct (extra_keys_last_total r) as (ks & c & ->); [done|]. cbn [mbind result_bind].
        eexists _, _. split; [done|]. split; [by eexists|]. rewrite length_app. simpl. lia. }
    cbn [mbind result_bind]. unfold set_block_hash.
    rewrite (bool_decide_eq_true_2 _ Hh). cbn [py_assert mbind result_bind].
    change (mkBlock _ _ _ _ _) with (put_hash h (block_pool m !!! b)). rewrite insert_alter.
    set (m1 := with_cached _ _).
    assert (Hi1 : kv_inv m1 fl pend) by exact (cache_insert_inv m fl pend b h Hi Hb Hh Hen).
    assert (HB : ∀ c, (c < length (block_pool m))%nat -> block_hash (blk m1 c) =
      if decide (b = c) then Some h else block_hash (blk m c)).
    { intros c Hc. unfold m1, blk; simpl. rewrite alter_total by done. by case_decide. }
    assert (HL : length (block_pool m1) = length (block_pool m)) by apply length_alter.
    destruct (IH m1 (set_kv_block_hashes hs r) (S idx) (Some (hash_value h)))
      as (m' & hs' & -> & Hi' & Hk & Hpre' & Hlen'); try done.
    + intros c Hc. destruct (Hall c ltac:(by right)) as [Hc1 Hc2]. split; [by rewrite HL|].
      rewrite HB, decide_False; [done|by intros ->|done].
    + simpl. simpl in Htok. change (block_size m1) with (block_size m). lia.
    + exists m', hs'. split_and!; [done|done| |by etransitivity|simpl; lia].
      destruct Hk as [F R S D]. split.
      * transitivity m1; [by split|done].
      * done.
      * intros c [->|Hc]%elem_of_cons; [|by apply S]. unfold hashed.
        rewrite D, HB, decide_True by (done || by rewrite HL). by eexists.
      * intros c Hc [??]%not_elem_of_cons. rewrite D by (done || by rewrite HL).
        rewrite HB, decide_False; [done|congruence|done].
Qed.
End kv_inv.
