(* ===== verification/KVAlloc.v ===== *)
(** * [KVCacheManager.allocate_slots]: it never raises, and what it allocates

    The specification of allocation on top of the invariant of [KVCacheInv]:
    under the scheduler's calling conditions ([alloc_pre]) the method returns,
    either [None] with an untouched pool, or new blocks that cover all scheduled
    tokens ([alloc_post]). *)

From stdpp Require Import base tactics list gmap sets strings.
From Stdlib Require Import ZArith QArith Lia.
From S2P Require Import Prelude.
From S2P Require Import SamplingParams.
From S2P Require Import Request.
From S2P Require Import BlockQueue.
From S2P Require Import BlockHash.
From S2P Require Import KVCacheManager.
From S2P Require Import KVCacheInv.

Local Open Scope Z_scope.

Lemma occ_le_1_NoDup (l : list nat) : (∀ b, b ∈ l -> occ b l <= 1) -> NoDup l.
Proof.
  induction l as [|x l IH]; intros Hall; [apply NoDup_nil_2|].
  apply NoDup_cons. split.
  - intros Hx. specialize (Hall x ltac:(by left)). simpl in Hall.
    rewrite decide_True in Hall by done. pose proof (occ_pos x l Hx). lia.
  - apply IH. intros b Hb. specialize (Hall b ltac:(by right)). simpl in Hall.
    case_decide; lia.
Qed.

Lemma occ_drop (l : list nat) k b : occ b (drop k l) <= occ b l.
Proof.
  rewrite <-(take_drop k l) at 2. rewrite occ_app. pose proof (occ_nonneg b (take k l)). lia.
Qed.

Lemma take_length_take {A} k (l : list A) : take (length (take k l)) l = take k l.
Proof.
  rewrite length_take. destruct (decide (k <= length l)%nat).
  - by rewrite Nat.min_l.
  - by rewrite !take_ge by lia.
Qed.

Lemma elem_of_slice {A} (l : list A) i k f x :
  l !! i = Some x -> (k <= i < f)%nat -> x ∈ slice l k f.
Proof.
  intros Hx Hi. apply list_elem_of_lookup. exists (i - k)%nat.
  rewrite slice_lookup, decide_True by lia. by replace (k + (i - k))%nat with i by lia.
Qed.

Lemma slice_elem_inv {A} (l : list A) k f x :
  x ∈ slice l k f -> ∃ i, l !! i = Some x ∧ (k <= i < f)%nat.
Proof.
  intros [j Hj]%list_elem_of_lookup. rewrite slice_lookup in Hj. case_decide; [|done].
  exists (k + j)%nat. split; [done|lia].
Qed.

Lemma NoDup_drop_lookup (l : list nat) k i j x :
  NoDup (drop k l) -> l !! i = Some x -> l !! j = Some x -> (k <= i)%nat -> (k <= j)%nat -> i = j.
Proof.
  intros Hnd Hi Hj Hki Hkj.
  pose proof (NoDup_lookup (drop k l) (i - k) (j - k) x Hnd) as E. rewrite !lookup_drop in E.
  replace (k + (i - k))%nat with i in E by lia. replace (k + (j - k))%nat with j in E by lia.
  specialize (E Hi Hj). lia.
Qed.

(** The blocks of a request that carry a hash form a prefix of length [k]. *)
Definition hashed_prefix (m : KVCacheManager) (bl : list nat) (k : nat) : Prop :=
  (k <= length bl)%nat ∧ ∀ i b, bl !! i = Some b -> hashed m b <-> (i < k)%nat.

Lemma hashed_prefix_ext m m' bl k :
  (∀ b, b ∈ bl -> hashed m' b <-> hashed m b) -> hashed_prefix m bl k -> hashed_prefix m' bl k.
Proof.
  intros Hext [Hk Hall]. split; [done|]. intros i b Hb.
  rewrite Hext by by eapply list_elem_of_lookup_2. by apply Hall.
Qed.

Lemma find_uncached_spec m blocks j off prev :
  hashed_prefix m blocks j ->
  ∃ prev', find_uncached m blocks off prev =
    if decide (j = length blocks) then None else Some (drop j blocks, (off + j)%nat, prev').
Proof.
  revert j off prev. induction blocks as [|b blocks IH]; intros j off prev [Hj Hall]; simpl in Hj.
  - exists None. replace j with 0%nat by lia. done.
  - pose proof (Hall 0%nat b eq_refl) as Hb. unfold hashed in Hb. cbn [find_uncached].
    destruct (block_hash (blk m b)) as [h|].
    + assert (Hj0 : (0 < j)%nat) by by apply Hb. destruct j as [|j]; [lia|].
      destruct (IH j (S off) (Some (hash_value h))) as [prev' ->].
      { split; [lia|]. intros i c Hc. rewrite (Hall (S i) c Hc). lia. }
      exists prev'. simpl. repeat case_decide; try lia; [done|].
      by replace (off + S j)%nat with (S (off + j)) by lia.
    + destruct j as [|j]; [|exfalso; assert (is_Some (@None BlockHashType)) as [? [=]] by (apply Hb; lia)].
      exists prev. rewrite decide_False by (simpl; lia). by replace (off + 0)%nat with off by lia.
Qed.

Section alloc.
Context (repr : list KVCacheBlock -> FreeKVCacheBlockQueue -> list nat -> Prop).
Context `{!FreeQueueSpec repr} `{PyHash}.
Abbreviation kv_inv := (kv_inv repr).
Implicit Types (m : KVCacheManager) (fl bl : list nat).

(** Unhashed blocks of one request are pairwise distinct, and belong to no
    other request. *)
Lemma unhashed_NoDup m fl rid bl k :
  kv_inv m fl [] -> req_to_blocks m !! rid = Some bl -> hashed_prefix m bl k ->
  NoDup (drop k bl).
Proof.
  intros Hi Hrb [Hk Hall]. apply occ_le_1_NoDup. intros b Hb.
  pose proof (occ_drop bl k b). pose proof (refs_lookup _ _ _ b Hrb) as Hrf.
  pose proof (occ_pos b _ Hb).
  assert (Hlt : (b < length (block_pool m))%nat) by (apply (ki_owned _ _ _ _ Hi); simpl; lia).
  assert (Hn : block_hash (blk m b) = None).
  { apply list_elem_of_lookup in Hb as [i Hi']. rewrite lookup_drop in Hi'.
    specialize (Hall _ _ Hi'). unfold hashed in Hall.
    destruct (block_hash (blk m b)); [|done].
    assert (k + i < k)%nat by by apply Hall. lia. }
  pose proof (ki_excl _ _ _ _ Hi b Hlt Hn) as Hx.
  rewrite (ki_ref _ _ _ _ Hi b Hlt) in Hx. simpl in Hx. lia.
Qed.

Lemma unhashed_not_shared m fl rid rid' bl bl' b :
  kv_inv m fl [] -> rid ≠ rid' -> req_to_blocks m !! rid = Some bl ->
  req_to_blocks m !! rid' = Some bl' -> b ∈ bl -> b ∈ bl' -> hashed m b.
Proof.
  intros Hi Hne H1 H2 Hb Hb'. unfold hashed.
  destruct (block_hash (blk m b)) as [h|] eqn:Hh; [by eexists|]. exfalso.
  pose proof (refs_two _ _ _ _ _ b Hne H1 H2). pose proof (occ_pos b _ Hb).
  pose proof (occ_pos b _ Hb').
  assert (Hlt : (b < length (block_pool m))%nat) by (apply (ki_owned _ _ _ _ Hi); simpl; lia).
  pose proof (ki_excl _ _ _ _ Hi b Hlt Hh) as Hx.
  rewrite (ki_ref _ _ _ _ Hi b Hlt) in Hx. simpl in Hx. lia.
Qed.

Lemma req_block_range m fl rid bl b :
  kv_inv m fl [] -> req_to_blocks m !! rid = Some bl -> b ∈ bl ->
  (b < length (block_pool m))%nat.
Proof.
  intros Hi Hrb Hb. apply (ki_owned _ _ _ _ Hi). simpl.
  pose proof (refs_lookup _ _ _ b Hrb). pose proof (occ_pos b _ Hb). lia.
Qed.

Lemma slice_hashed_prefix m bl k a f :
  hashed_prefix m bl k -> (a <= k)%nat -> (f <= length bl)%nat -> (a <= f)%nat ->
  hashed_prefix m (slice bl a f) (min (k - a) (f - a)).
Proof.
  intros [Hk Hall] Ha Hf Haf. split; [rewrite slice_length; lia|].
  intros i b. rewrite slice_lookup. case_decide; [|done]. intros Hb.
  rewrite (Hall _ _ Hb). lia.
Qed.

Lemma drop_slice (bl : list nat) a f j :
  (a + j <= f)%nat -> drop j (slice bl a f) = slice bl (a + j) f.
Proof.
  intros Hj. unfold slice. rewrite skipn_firstn_comm, drop_drop.
  f_equal. lia.
Qed.

(** [_cache_full_blocks] on the blocks [a .. f-1] of a request. *)
Lemma cache_full_spec m fl r bl k a f prev :
  kv_inv m fl [] -> enable_caching m = true -> mm_ok r ->
  req_to_blocks m !! request_id r = Some bl ->
  hashed_prefix m bl k -> (a <= k)%nat -> (a <= f)%nat -> (f <= length bl)%nat ->
  (k <= length (kv_block_hashes r))%nat ->
  (f * Z.to_nat (block_size m) <= length (all_token_ids r))%nat ->
  match prev with Some p => hashed m p | None => True end ->
  ∃ m' hs, _cache_full_blocks m r a (slice bl a f) prev = Ok (m', set_kv_block_hashes hs r) ∧
    kv_inv m' fl [] ∧ kv_hashed m m' (slice bl k f) ∧
    hashed_prefix m' bl (max k f) ∧
    kv_block_hashes r `prefix_of` hs ∧ (max k f <= length hs)%nat ∧
    (length hs <= max (length (kv_block_hashes r)) f)%nat.
Proof.
  intros Hi Hen Hmm Hrb Hpre Ha Haf Hf Hkh Htok Hprev. unfold _cache_full_blocks.
  match goal with |- context [mbind _ ?e] =>
    assert (∃ pv, e = Ok pv) as [pv ->] end.
  { destruct prev as [p|]; [|by eexists]. destruct Hprev as [h ->]. by eexists. }
  cbn [mbind result_bind].
  destruct (find_uncached_spec m (slice bl a f) (min (k - a) (f - a)) 0 pv) as [pv' ->].
  { by apply slice_hashed_prefix. }
  rewrite slice_length. case_decide as Hd.
  - exists m, (kv_block_hashes r). assert (Hkf : (f <= k)%nat) by lia.
    split_and!; [by destruct r|done| | |done|lia|lia].
    + assert (slice bl k f = []) as -> by (apply length_zero_iff_nil; rewrite slice_length; lia).
      split; [done..|set_solver|done].
    + by replace (max k f) with k by lia.
  - assert (Hkf : (k < f)%nat) by lia.
    rewrite drop_slice by lia. replace (a + min (k - a) (f - a))%nat with k by lia.
    replace (a + (0 + min (k - a) (f - a)))%nat with k by lia.
    pose proof Hpre as [Hk Hall].
    destruct (cache_blocks_loop_spec repr m r fl [] (length (kv_block_hashes r))
      (slice bl k f) k pv') as (m' & hs & -> & Hi' & Hkh' & Hp & Hl); try done.
    + unfold slice. eapply sublist_NoDup; [by eapply unhashed_NoDup|apply sublist_take].
    + intros b Hb. apply list_elem_of_lookup in Hb as [i Hb]. rewrite slice_lookup in Hb.
      case_decide; [|done]. split; [eapply req_block_range; [done..|by eapply list_elem_of_lookup_2]|].
      specialize (Hall _ _ Hb). unfold hashed in Hall.
      destruct (block_hash (blk m b)); [|done]. assert (k + i < k)%nat by by apply Hall. lia.
    + lia.
    + rewrite slice_length. nia.
    + exists m', hs. rewrite slice_length in Hl. split_and!; try done; [|lia|lia].
      replace (max k f) with f by lia. split; [done|]. clear Htok Hkh Hl Hd.
      intros i b Hb. destruct Hkh' as [F R S D].
      destruct (decide (b ∈ slice bl k f)) as [Hin|Hnin].
      * split; [|by intros; apply S]. intros _.
        apply slice_elem_inv in Hin as (j & Hj & Hjk).
        destruct (decide (i < k)%nat); [lia|]. (* b is unhashed in m: its position is unique *)
        pose proof (unhashed_NoDup _ _ _ _ _ Hi Hrb Hpre) as Hnd.
        rewrite (NoDup_drop_lookup bl k i j b Hnd); [lia|done..|lia|lia].
      * assert (Hlt := req_block_range _ _ _ _ b Hi Hrb (list_elem_of_lookup_2 _ _ _ Hb)).
        unfold hashed. rewrite D by done. fold (hashed m b). rewrite (Hall _ _ Hb).
        split; [by intros; eapply Nat.lt_trans|]. intros Hif.
        destruct (decide (i < k)%nat); [done|]. destruct Hnin.
        eapply elem_of_slice; [done|lia].
Qed.

(** ** The contract of [allocate_slots] *)

(** What the scheduler guarantees when it asks for [n] more tokens of [r], whose
    current blocks are [bl], with prefix-cache hits [ncb]. *)
Record alloc_pre m r (n : Z) (bl ncb : list nat) (k : nat) : Prop := {
  ap_bl : bl = default [] (req_to_blocks m !! request_id r);
  ap_num : 0 < n;
  ap_comp : 0 <= num_computed_tokens r;
  ap_ncb : ∀ b, b ∈ ncb -> (b < length (block_pool m))%nat ∧ hashed m b;
  ap_nocache : enable_caching m = false -> ncb = [];
  ap_fresh : ncb = [] ∨ bl = [];
  ap_cover : num_computed_tokens r <= len bl * block_size m;
  ap_total : num_computed_tokens r + len ncb * block_size m + n <= num_tokens r;
  ap_max : num_tokens r <= kv_max_model_len m;
  ap_len : len bl <= max_num_blocks_per_req m;
  ap_prefix : enable_caching m = true ->
    hashed_prefix m bl k ∧ num_computed_tokens r / block_size m <= Z.of_nat k ∧
    (k + length ncb <= length (kv_block_hashes r))%nat ∧ mm_ok r;
}.

(** What a successful call returns: the blocks [nb] come from the front of the
    free list, the request's table covers every scheduled token, and no other
    request is affected. *)
Record alloc_post m fl r (n : Z) (bl ncb nb : list nat) (k : nat) m' r' : Prop := {
  po_frame : kv_frame m m';
  po_inv : kv_inv m' (drop (length nb) (filter (.∉ ncb) fl)) [];
  po_nb : nb = take (length nb) (filter (.∉ ncb) fl);
  po_reqs : req_to_blocks m' = <[request_id r := bl ++ ncb ++ nb]> (req_to_blocks m);
  po_cover : num_computed_tokens r + len ncb * block_size m + n <=
    len (bl ++ ncb ++ nb) * block_size m;
  po_len : len (bl ++ ncb ++ nb) <= max_num_blocks_per_req m;
  po_req : ∃ hs, r' = set_kv_block_hashes hs r ∧ kv_block_hashes r `prefix_of` hs;
  po_hashes : len (kv_block_hashes r') * block_size m <=
    Z.max (len (kv_block_hashes r) * block_size m) (num_tokens r);
  po_prefix : enable_caching m = true -> ∃ k',
    hashed_prefix m' (bl ++ ncb ++ nb) k' ∧
    (num_computed_tokens r + len ncb * block_size m + n) / block_size m <= Z.of_nat k' ∧
    (k' <= length (kv_block_hashes r'))%nat;
  po_others : ∀ rid bl' b, rid ≠ request_id r -> req_to_blocks m !! rid = Some bl' ->
    b ∈ bl' -> block_hash (blk m' b) = block_hash (blk m b);
}.

(** The evictable hits are at least the hits that leave the free list. *)
Lemma filter_evictable m fl ncb :
  kv_inv m fl [] -> (∀ b, b ∈ ncb -> (b < length (block_pool m))%nat) ->
  len fl - len (filter (fun b => ref_cnt (blk m b) = 0) ncb) <= len (filter (.∉ ncb) fl).
Proof.
  intros Hi Hncb.
  assert (Hsplit : length fl = (length (filter (.∈ ncb) fl) + length (filter (.∉ ncb) fl))%nat).
  { clear. induction fl as [|x fl IH]; [done|]. rewrite !filter_cons. simpl.
    repeat case_decide; simpl; try done; lia. }
  assert (length (filter (.∈ ncb) fl) <=
    length (filter (fun b => ref_cnt (blk m b) = 0%Z) ncb))%nat.
  { apply submseteq_length, NoDup_submseteq.
    - apply NoDup_filter. eapply fq_nodup, Hi.
    - intros b [H1 H2]%list_elem_of_filter. apply list_elem_of_filter. split; [|done].
      apply (ki_free _ _ _ _ Hi); [by apply Hncb|done]. }
  lia.
Qed.

(** The number of blocks [allocate_slots] takes from the pool. *)
Definition take_count m (num_new : Z) (rbl : list nat) (free : Z) : nat :=
  if num_new <=? 0 then 0%nat
  else Z.to_nat (Z.min (Z.min (num_new + num_preallocate_blocks m) free)
                   (max_num_blocks_per_req m - len rbl)).

(** The middle of [allocate_slots]: from the touched manager to the request
    table with the new blocks. *)
Lemma take_blocks_spec m fl pend rid bl rbl num_new :
  kv_inv m fl pend ->
  req_to_blocks m !! rid = Some bl ->
  (∀ b, occ b rbl = occ b bl + occ b pend) ->
  num_new <= len fl -> num_new <= max_num_blocks_per_req m - len rbl ->
  let nb := take (take_count m num_new rbl (len fl)) fl in
  ∃ m', (if num_new <=? 0 then Ok (m, [])
         else
           let n := Z.min (Z.min (num_new + num_preallocate_blocks m)
                             (num_free_blocks (free_block_queue m)))
                      (max_num_blocks_per_req m - len rbl) in
           _ ← py_assert (0 <? n);
           _get_new_blocks m n) = Ok (m', nb) ∧
    kv_popped m m' nb ∧
    kv_inv (with_reqs m' (<[rid := rbl ++ nb]> (req_to_blocks m'))) (drop (length nb) fl) [] ∧
    num_new <= len nb ∧ (0 < len nb -> len nb <= max_num_blocks_per_req m - len rbl).
Proof.
  intros Hi Hrid Hocc Hfree Hmax nb. unfold take_count in nb. cbn zeta.
  assert (Hcommit : ∀ m' fl', kv_inv m' fl' (nb ++ pend) -> req_to_blocks m' = req_to_blocks m ->
    kv_inv (with_reqs m' (<[rid := rbl ++ nb]> (req_to_blocks m'))) fl' []).
  { intros m' fl' Hi' Hr. apply (kv_inv_reqs repr m' fl' (nb ++ pend)); [|done].
    intros b. rewrite refs_insert, Hr, Hrid, !occ_app, Hocc. simpl. lia. }
  rewrite (fq_num _ _ _ (ki_repr _ _ _ _ Hi)).
  destruct (Z.leb_spec num_new 0) as [H0|H0].
  - exists m. split_and!; [done| | |simpl; lia..].
    + split; [done..|set_solver|done].
    + rewrite drop_0. by apply Hcommit.
  - set (n := Z.min _ _) in *. pose proof (ki_pre _ _ _ _ Hi).
    assert (Hn : 0 < n ∧ num_new <= n ∧ n <= len fl ∧
      n <= max_num_blocks_per_req m - len rbl) by (unfold n; lia).
    rewrite (proj2 (Z.ltb_lt 0 n)) by lia. cbn [py_assert mbind result_bind].
    unfold _get_new_blocks. rewrite (fq_num _ _ _ (ki_repr _ _ _ _ Hi)).
    rewrite (proj2 (Z.ltb_ge (len fl) n)) by lia.
    destruct (get_new_blocks_loop_spec repr (Z.to_nat n) m fl pend []) as (m' & -> & Hi' & Hp);
      [done|lia|].
    assert (Hlen : length nb = Z.to_nat n) by (unfold nb; rewrite length_take; lia).
    exists m'. split_and!; [done|done| |lia..].
    rewrite Hlen. apply Hcommit; [done|apply Hp].
Qed.

(** Caching the freshly completed blocks, the last part of [allocate_slots]. *)
Lemma cache_tail_spec m fl r bl k (C n : Z) :
  kv_inv m fl [] -> enable_caching m = true -> mm_ok r ->
  req_to_blocks m !! request_id r = Some bl ->
  hashed_prefix m bl k -> 0 <= C -> 0 < n -> C / block_size m <= Z.of_nat k ->
  (k <= length (kv_block_hashes r))%nat ->
  C + n <= len bl * block_size m -> C + n <= num_tokens r ->
  ∃ m' hs k',
    (let num_full := Z.to_nat ((C + n) / block_size m) in
     let num_computed_full := Z.to_nat (C / block_size m) in
     let new_full := slice bl num_computed_full num_full in
     if bool_decide (new_full = []) then Ok (m, r)
     else
       prev ← (if decide (0 < num_computed_full)%nat
               then p ← or_raise IndexError (bl !! (num_computed_full - 1)%nat); Ok (Some p)
               else Ok None);
       _cache_full_blocks m r num_computed_full new_full prev)
    = Ok (m', set_kv_block_hashes hs r) ∧
    kv_inv m' fl [] ∧ kv_hashed m m' (slice bl k (Z.to_nat ((C + n) / block_size m))) ∧
    hashed_prefix m' bl k' ∧ (C + n) / block_size m <= Z.of_nat k' ∧
    kv_block_hashes r `prefix_of` hs ∧ (k' <= length hs)%nat ∧
    len hs * block_size m <= Z.max (len (kv_block_hashes r) * block_size m) (num_tokens r).
Proof.
  intros Hi Hen Hmm Hrb Hpre HC Hn Hk Hkh Hcov Htot. cbn zeta.
  pose proof (ki_bs _ _ _ _ Hi) as Hbs.
  assert (HCf : C / block_size m <= (C + n) / block_size m) by (apply Z.div_le_mono; lia).
  pose proof (Z.div_pos C (block_size m) HC Hbs) as HC0.
  assert (Hfl : (C + n) / block_size m <= len bl).
  { apply Z.div_le_upper_bound; nia. }
  assert (Hft : (C + n) / block_size m * block_size m <= num_tokens r).
  { pose proof (Z.mul_div_le (C + n) (block_size m) Hbs). nia. }
  set (a := Z.to_nat (C / block_size m)) in *.
  set (f := Z.to_nat ((C + n) / block_size m)) in *.
  case_bool_decide as Hempty.
  - apply (f_equal length) in Hempty. rewrite slice_length in Hempty. simpl in Hempty.
    exists m, (kv_block_hashes r), k. split_and!; [by destruct r|done| |done|lia|done|done|lia].
    assert (slice bl k f = []) as -> by (apply length_zero_iff_nil; rewrite slice_length; lia).
    split; [done..|set_solver|done].
  - assert (∃ prev, (if decide (0 < a)%nat then
        p ← or_raise IndexError (bl !! (a - 1)%nat); Ok (Some p) else Ok None) = Ok prev ∧
        match prev with Some p => hashed m p | None => True end) as (prev & -> & Hprev).
    { case_decide as Ha; [|by eexists].
      destruct (lookup_lt_is_Some_2 bl (a - 1)) as [p Hp]; [lia|]. rewrite Hp.
      exists (Some p). split; [done|]. apply (proj2 Hpre _ _ Hp). lia. }
    cbn [mbind result_bind].
    destruct (cache_full_spec m fl r bl k a f prev) as (m' & hs & -> & Hi' & Hh & Hp & Hpr & Hl & Hu);
      try done; try lia.
    { unfold num_tokens in Hft. nia. }
    exists m', hs, (max k f). split_and!; try done; [lia|]. clear -Hu Hft HC0 HCf Hbs. subst f.
    assert (len hs <= Z.max (len (kv_block_hashes r)) ((C + n) / block_size m)) by lia. nia.
Qed.

(** How many blocks the call is short of: required blocks less owned blocks. *)
Definition blocks_needed m r (n : Z) (bl ncb : list nat) : Z :=
  cdiv (num_computed_tokens r + len ncb * block_size m + n) (block_size m) -
  len bl - len ncb.

Definition evictable m (ncb : list nat) : Z :=
  len (filter (fun b => ref_cnt (blk m b) = 0) ncb).

Lemma touch_or_assert m fl ncb :
  kv_inv m fl [] -> (enable_caching m = false -> ncb = []) ->
  (∀ b, b ∈ ncb -> (b < length (block_pool m))%nat ∧ hashed m b) ->
  ∃ m', (if enable_caching m then _touch m ncb
         else _ ← py_assert (bool_decide (ncb = [])); Ok m) = Ok m' ∧
    kv_inv m' (filter (.∉ ncb) fl) ncb ∧ kv_same m m'.
Proof.
  intros Hi Hnc Hncb. destruct (touch_spec repr m fl [] ncb Hi Hncb) as (m' & Ht & Hi' & Hs).
  rewrite app_nil_r in Hi'. destruct (enable_caching m); [by exists m'|].
  rewrite Hnc in * by done. injection Ht as <-. by exists m.
Qed.

(** The hashed prefix after the cache hits and the new blocks were appended. *)
Lemma hashed_prefix_extend m bl ncb nb k :
  hashed_prefix m bl k -> (ncb = [] ∨ bl = []) ->
  (∀ b, b ∈ ncb -> hashed m b) -> (∀ b, b ∈ nb -> block_hash (blk m b) = None) ->
  hashed_prefix m (bl ++ ncb ++ nb) (k + length ncb).
Proof.
  intros [Hk Hall] Hfresh Hncb Hnb.
  assert (Hnbi : ∀ i b, nb !! i = Some b -> hashed m b <-> False).
  { intros i b Hb. unfold hashed. rewrite Hnb by by eapply list_elem_of_lookup_2.
    split; [by intros []|done]. }
  split; [rewrite !length_app; lia|]. intros i b Hb. destruct Hfresh as [->| ->]; simpl in *.
  - apply lookup_app_Some in Hb as [Hb|[Hi Hb]]; [rewrite (Hall _ _ Hb); lia|].
    rewrite (Hnbi _ _ Hb). lia.
  - apply lookup_app_Some in Hb as [Hb|[Hi Hb]].
    + pose proof (lookup_lt_Some _ _ _ Hb). split; [lia|]. intros _.
      apply Hncb. by eapply list_elem_of_lookup_2.
    + rewrite (Hnbi _ _ Hb). lia.
Qed.

(** Free blocks are owned by no request. *)
Lemma free_not_owned m fl rid bl b :
  kv_inv m fl [] -> b ∈ fl -> req_to_blocks m !! rid = Some bl -> b ∉ bl.
Proof.
  intros Hi Hb Hrb Hbl.
  pose proof (fq_range _ _ _ _ (ki_repr _ _ _ _ Hi) Hb) as Hlt.
  apply (ki_free _ _ _ _ Hi) in Hb; [|done]. rewrite (ki_ref _ _ _ _ Hi) in Hb by done.
  pose proof (refs_lookup _ _ _ b Hrb). pose proof (occ_pos b _ Hbl). simpl in Hb. lia.
Qed.

(** The state after the new blocks were entered in the request table. *)
Record alloc_mid m fl r (n : Z) (bl ncb nb : list nat) m4 : Prop := {
  am_frame : kv_frame m m4;
  am_inv : kv_inv m4 (drop (length nb) (filter (.∉ ncb) fl)) [];
  am_nb : nb = take (length nb) (filter (.∉ ncb) fl);
  am_reqs : req_to_blocks m4 = <[request_id r := bl ++ ncb ++ nb]> (req_to_blocks m);
  am_none : ∀ b, b ∈ nb -> block_hash (blk m4 b) = None;
  am_hash : ∀ c, (c < length (block_pool m))%nat -> c ∉ nb ->
    block_hash (blk m4 c) = block_hash (blk m c);
  am_need : blocks_needed m r n bl ncb <= len nb;
  am_max : 0 < len nb -> len nb <= max_num_blocks_per_req m - len (bl ++ ncb);
}.

Lemma alloc_to_mid m fl r n bl ncb k m1 rbl :
  kv_inv m fl [] -> alloc_pre m r n bl ncb k ->
  read_req_blocks m (request_id r) = (m1, rbl) ->
  blocks_needed m r n bl ncb <= len fl - evictable m ncb ->
  ∃ m2 m3 nb,
    (if enable_caching m1 then _touch m1 ncb
     else _ ← py_assert (bool_decide (ncb = [])); Ok m1) = Ok m2 ∧
    (if blocks_needed m r n bl ncb <=? 0 then Ok (m2, [])
     else
       let n0 := Z.min (Z.min (blocks_needed m r n bl ncb + num_preallocate_blocks m2)
                         (num_free_blocks (free_block_queue m2)))
                  (max_num_blocks_per_req m2 - len (bl ++ ncb)) in
       _ ← py_assert (0 <? n0);
       _get_new_blocks m2 n0) = Ok (m3, nb) ∧
    alloc_mid m fl r n bl ncb nb
      (with_reqs m3 (<[request_id r := (bl ++ ncb) ++ nb]> (req_to_blocks m3))).
Proof.
  intros Hi Hap Hread Hfree.
  destruct (read_req_blocks_spec repr _ _ _ _ _ Hi Hread)
    as (-> & Hi1 & F1 & P1 & Q1 & C1 & R1). rewrite <-(ap_bl _ _ _ _ _ _ Hap) in *.
  assert (Hblk : ∀ c, blk m1 c = blk m c) by (intros c; unfold blk; by rewrite P1).
  destruct (touch_or_assert m1 fl ncb Hi1) as (m2 & Ht & Hi2 & Hs2).
  { rewrite (kf_cache _ _ F1). apply Hap. }
  { intros b Hb. unfold hashed. rewrite Hblk, P1. by apply (ap_ncb _ _ _ _ _ _ Hap). }
  pose proof (filter_evictable m fl ncb Hi ltac:(intros b Hb; by apply (ap_ncb _ _ _ _ _ _ Hap)))
    as Hev.
  pose proof (ks_frame _ _ Hs2) as F2.
  assert (HF : kv_frame m m2) by by transitivity m1.
  destruct (take_blocks_spec m2 (filter (.∉ ncb) fl) ncb (request_id r) bl (bl ++ ncb)
    (blocks_needed m r n bl ncb)) as (m3 & Hnb & Hp3 & Hi4 & Hneed & Hmx).
  { done. }
  { rewrite (ks_reqs _ _ Hs2), R1. apply lookup_insert_eq. }
  { intros b. apply occ_app. }
  { unfold evictable in Hfree. lia. }
  { rewrite (kf_max _ _ HF), length_app. unfold blocks_needed.
    rewrite (ki_max _ _ _ _ Hi).
    assert (cdiv (num_computed_tokens r + len ncb * block_size m + n) (block_size m) <=
      cdiv (kv_max_model_len m) (block_size m)); [|lia].
    apply cdiv_mono; [apply Hi|]. pose proof (ap_total _ _ _ _ _ _ Hap).
    pose proof (ap_max _ _ _ _ _ _ Hap). lia. }
  set (nb := take _ _) in *. exists m2, m3, nb. split; [done|]. split; [done|].
  destruct Hp3 as [F3 R3 N3 H3].
  split; simpl; try done.
  - transitivity m3; [by transitivity m2|]. by split.
  - unfold nb. by rewrite take_length_take.
  - rewrite R3, (ks_reqs _ _ Hs2), R1, insert_insert_eq, app_assoc. done.
  - intros c Hc Hcn. change (blk (with_reqs m3 _) c) with (blk m3 c).
    rewrite H3 by (rewrite ?(kf_len _ _ HF); done).
    rewrite (ks_hash _ _ Hs2) by (by rewrite P1). by rewrite Hblk.
  - by rewrite <-(kf_max _ _ HF).
Qed.

(** Consequences shared by the branches with and without prefix caching. *)
Lemma mid_facts m fl r n bl ncb nb k m4 :
  kv_inv m fl [] -> alloc_pre m r n bl ncb k -> alloc_mid m fl r n bl ncb nb m4 ->
  num_computed_tokens r + len ncb * block_size m + n <= len (bl ++ ncb ++ nb) * block_size m ∧
  len (bl ++ ncb ++ nb) <= max_num_blocks_per_req m ∧
  (∀ rid bl' b, rid ≠ request_id r -> req_to_blocks m !! rid = Some bl' -> b ∈ bl' ->
    (b ∉ nb) ∧ block_hash (blk m4 b) = block_hash (blk m b)).
Proof.
  intros Hi [] []. pose proof (ki_bs _ _ _ _ Hi) as Hbs.
  unfold blocks_needed in am_need0.
  pose proof (cdiv_spec (num_computed_tokens r + len ncb * block_size m + n) _ Hbs) as Hcd.
  rewrite !length_app in *. split_and!.
  - nia.
  - destruct nb as [|x nb]; [|simpl in *; lia]. simpl.
    destruct ap_fresh0 as [->| ->]; simpl in *; [lia|].
    rewrite (ki_max _ _ _ _ Hi).
    pose proof (cdiv_spec (kv_max_model_len m) _ Hbs). nia.
  - intros rid bl' b Hne Hrb Hb.
    assert (Hnb : b ∉ nb).
    { intros Hnb. rewrite am_nb0 in Hnb. eapply (free_not_owned m fl); [done| |done..].
      apply elem_of_take in Hnb as (i & Hnb & _). apply list_elem_of_lookup_2 in Hnb.
      by apply list_elem_of_filter in Hnb as [_ Hnb]. }
    split; [done|]. apply am_hash0; [by eapply req_block_range|done].
Qed.

Lemma mid_to_post_nocache m fl r n bl ncb nb k m4 :
  kv_inv m fl [] -> alloc_pre m r n bl ncb k -> alloc_mid m fl r n bl ncb nb m4 ->
  enable_caching m = false -> alloc_post m fl r n bl ncb nb k m4 r.
Proof.
  intros Hi Hap Hmid Hc. destruct (mid_facts _ _ _ _ _ _ _ _ _ Hi Hap Hmid) as (Hcov & Hlen & Hoth).
  destruct Hmid. split; try done.
  - exists (kv_block_hashes r). split; [by destruct r|done].
  - lia.
  - congruence.
  - intros rid bl' b Hne Hrb Hb. by eapply Hoth.
Qed.

Lemma mid_prefix m fl r n bl ncb nb k m4 :
  kv_inv m fl [] -> alloc_pre m r n bl ncb k -> alloc_mid m fl r n bl ncb nb m4 ->
  enable_caching m = true -> hashed_prefix m4 (bl ++ ncb ++ nb) (k + length ncb).
Proof.
  intros Hi [] [] Hc. destruct (ap_prefix0 Hc) as (Hpre & _ & _ & _).
  assert (Hfr : ∀ b, b ∈ nb -> b ∈ fl ∧ b ∉ ncb).
  { intros b Hb. rewrite am_nb0 in Hb.
    apply elem_of_take in Hb as (i & Hb & _). apply list_elem_of_lookup_2 in Hb.
    apply list_elem_of_filter in Hb as [??]. done. }
  assert (Hbln : ∀ b, b ∈ bl -> (b < length (block_pool m))%nat ∧ b ∉ nb).
  { intros b Hb. destruct (req_to_blocks m !! request_id r) as [bl0|] eqn:Hrb; simpl in *;
      subst bl; [|set_solver].
    split; [by eapply req_block_range|]. intros Hnb. destruct (Hfr b Hnb) as [Hf _].
    by eapply (free_not_owned m fl). }
  apply hashed_prefix_extend; [|done| |done].
  - eapply hashed_prefix_ext; [|exact Hpre]. intros b Hb. unfold hashed.
    rewrite am_hash0; [done|apply (Hbln b Hb)..].
  - intros b Hb. destruct (ap_ncb0 b Hb) as [Hlt Hh]. unfold hashed.
    rewrite am_hash0; [done|done|]. intros Hnb. by apply (Hfr b Hnb).
Qed.

Lemma mid_to_post_cache m fl r n bl ncb nb k m4 :
  kv_inv m fl [] -> alloc_pre m r n bl ncb k -> alloc_mid m fl r n bl ncb nb m4 ->
  enable_caching m = true ->
  let C := num_computed_tokens r + len ncb * block_size m in
  let rbl := (bl ++ ncb) ++ nb in
  ∃ m' r',
    (let num_full := Z.to_nat ((C + n) / block_size m4) in
     let num_computed_full := Z.to_nat (C / block_size m4) in
     let new_full := slice rbl num_computed_full num_full in
     if bool_decide (new_full = []) then Ok (m4, r)
     else
       prev ← (if decide (0 < num_computed_full)%nat
               then p ← or_raise IndexError (rbl !! (num_computed_full - 1)%nat); Ok (Some p)
               else Ok None);
       _cache_full_blocks m4 r num_computed_full new_full prev)
    = Ok (m', r') ∧ alloc_post m fl r n bl ncb nb k m' r'.
Proof.
  intros Hi Hap Hmid Hc C rbl.
  pose proof (mid_prefix _ _ _ _ _ _ _ _ _ Hi Hap Hmid Hc) as Hpre4.
  destruct (mid_facts _ _ _ _ _ _ _ _ _ Hi Hap Hmid) as (Hcov & Hlen & Hoth).
  destruct Hap, Hmid. destruct (ap_prefix0 Hc) as (_ & Hk & Hkh & Hmm).
  pose proof (kf_bs _ _ am_frame0) as Ebs. pose proof (ki_bs _ _ _ _ Hi) as Hbs.
  unfold rbl. rewrite <-app_assoc.
  assert (Hrid4 : req_to_blocks m4 !! request_id r = Some (bl ++ ncb ++ nb))
    by (rewrite am_reqs0; apply lookup_insert_eq).
  destruct (cache_tail_spec m4 (drop (length nb) (filter (.∉ ncb) fl)) r (bl ++ ncb ++ nb)
    (k + length ncb) C n) as (m' & hs & k' & HE & Hi' & Hh & Hp' & Hk' & Hpr & Hl' & Hu');
    try done; try (rewrite ?Ebs; lia).
  { by rewrite (kf_cache _ _ am_frame0). }
  { rewrite Ebs. unfold C. rewrite Z.div_add by lia. lia. }
  exists m', (set_kv_block_hashes hs r). split; [exact HE|]. destruct Hh as [F R S D].
  split; try done.
  - by transitivity m4.
  - by rewrite R.
  - by exists hs.
  - by rewrite <-Ebs.
  - intros _. exists k'. split_and!; [done| |done]. fold C. by rewrite <-Ebs.
  - intros rid bl' b Hne Hrb Hb. destruct (Hoth rid bl' b Hne Hrb Hb) as [Hnb <-].
    apply D.
    + rewrite (kf_len _ _ am_frame0). by eapply req_block_range.
    + intros Hin. apply slice_elem_inv in Hin as (i & Hbi & Hik).
      assert (Hh4 : hashed m4 b).
      { eapply (unhashed_not_shared m4); [done| |done| | |exact Hb].
        - by apply not_eq_sym.
        - by rewrite am_reqs0, lookup_insert_ne.
        - by eapply list_elem_of_lookup_2. }
      apply (proj2 Hpre4 _ _ Hbi) in Hh4. lia.
Qed.

(** [allocate_slots] never raises on a call of the scheduler; it answers [None]
    exactly when the pool is too small, and otherwise meets [alloc_post]. *)
Lemma allocate_slots_spec m fl r n bl ncb k :
  kv_inv m fl [] -> alloc_pre m r n bl ncb k ->
  ∃ m' r' o, allocate_slots m r n ncb = Ok (m', r', o) ∧
    match o with
    | None => r' = r ∧ m' = (read_req_blocks m (request_id r)).1 ∧
        len fl - evictable m ncb < blocks_needed m r n bl ncb
    | Some nb => blocks_needed m r n bl ncb <= len fl - evictable m ncb ∧
        alloc_post m fl r n bl ncb nb k m' r'
    end.
Proof.
  intros Hi Hap. unfold allocate_slots.
  rewrite (proj2 (Z.eqb_neq n 0)) by (pose proof (ap_num _ _ _ _ _ _ Hap); lia).
  destruct (read_req_blocks m (request_id r)) as [m1 rbl] eqn:Hread.
  destruct (read_req_blocks_spec repr _ _ _ _ _ Hi Hread)
    as (-> & Hi1 & F1 & P1 & Q1 & C1 & R1). rewrite <-(ap_bl _ _ _ _ _ _ Hap) in *.
  assert (HE : len (filter (fun b => ref_cnt (blk m1 b) = 0) ncb) = evictable m ncb).
  { unfold evictable, blk. by rewrite P1. }
  rewrite HE, Q1, (fq_num _ _ _ (ki_repr _ _ _ _ Hi)). clear HE.
  cbn zeta. fold (blocks_needed m r n bl ncb).
  destruct (Z.ltb_spec (len fl - evictable m ncb) (blocks_needed m r n bl ncb)) as [Hlt|Hge].
  { exists m1, r, None. by split_and!. }
  destruct (alloc_to_mid m fl r n bl ncb k m1 bl Hi Hap Hread Hge)
    as (m2 & m3 & nb & -> & H3 & Hmid). cbn [mbind result_bind].
  cbn zeta in H3. rewrite H3. cbn [mbind result_bind]. set (m4 := with_reqs _ _) in *.
  rewrite (kf_cache _ _ (am_frame _ _ _ _ _ _ _ _ Hmid)).
  destruct (enable_caching m) eqn:Hc; cbn [negb].
  - destruct (mid_to_post_cache m fl r n bl ncb nb k m4 Hi Hap Hmid Hc) as (m' & r' & HE & Hpost).
    exists m', r', (Some nb). split; [|done]. cbn zeta in HE.
    rewrite (kf_bs _ _ (am_frame _ _ _ _ _ _ _ _ Hmid)) in *.
    case_bool_decide; [injection HE as -> ->; done|].
    apply bind_Ok_inv in HE as (prev & -> & HE). cbn [mbind result_bind]. by rewrite HE.
  - exists m4, r, (Some nb). split; [done|]. split; [done|]. by apply mid_to_post_nocache.
Qed.
End alloc.
