(* ===== verification/KVTheorems.v ===== *)
(** * Theorems about the KV-cache manager

    The remaining operations ([__init__], [get_computed_blocks],
    [reset_prefix_cache], [get_num_common_prefix_blocks], [usage]) and the main
    theorems of the component, stated for the linked free list [dll]. *)

From stdpp Require Import base tactics list gmap sets strings.
From Stdlib Require Import ZArith QArith Lqa Lia.
From S2P Require Import Prelude.
From S2P Require Import SamplingParams.
From S2P Require Import Request.
From S2P Require Import BlockQueue.
From S2P Require Import BlockHash.
From S2P Require Import KVCacheManager.
From S2P Require Import KVCacheInv.
From S2P Require Import KVAlloc.

Local Open Scope Z_scope.

Section ops.
Context (repr : list KVCacheBlock -> FreeKVCacheBlockQueue -> list nat -> Prop).
Context `{!FreeQueueSpec repr} `{PyHash}.
Abbreviation kv_inv := (kv_inv repr).
Implicit Types (m : KVCacheManager) (fl bl : list nat).

Lemma refs_empty b : refs ∅ b = 0.
Proof. done. Qed.

Lemma kv_init_spec bs n mml sw ec pre :
  0 < bs -> 0 < n -> 0 <= pre ->
  ∃ m, kv_init bs n mml sw ec pre = Ok m ∧
    kv_inv m (seq 0 (Z.to_nat n)) [] ∧
    req_to_blocks m = ∅ ∧ block_size m = bs ∧ kv_max_model_len m = mml ∧
    enable_caching m = ec ∧ num_gpu_blocks m = n.
Proof.
  intros Hbs Hn Hpre. unfold kv_init.
  destruct (fq_init (Z.to_nat n) ltac:(lia)) as (pool & q & -> & Hr & [L I R HH]).
  rewrite length_fmap, length_seq in *. cbn [mbind result_bind].
  assert (Hnew : ∀ b, (b < Z.to_nat n)%nat ->
    (new_block <$> seq 0 (Z.to_nat n)) !!! b = new_block b).
  { intros b Hb. apply list_lookup_total_correct. by rewrite list_lookup_fmap, lookup_seq_lt. }
  eexists. split; [done|]. split_and!; try done.
  split; unfold blk; simpl; rewrite ?L; try done.
  - lia.
  - by apply cdiv_nonneg.
  - intros b Hb. rewrite I, Hnew by done. done.
  - intros b Hb. rewrite R, Hnew by done. done.
  - intros b Hb. rewrite R, Hnew by done. rewrite elem_of_seq. simpl. split; [done|lia].
  - intros b h Hb. by rewrite HH, Hnew.
  - intros b Hb _. rewrite R, Hnew by done. simpl. lia.
Qed.

(** ** Lookups *)

Lemma computed_blocks_loop_spec m fl hs :
  kv_inv m fl [] ->
  ∃ bl, computed_blocks_loop m hs = Ok bl ∧ (length bl <= length hs)%nat ∧
    (∀ i b, bl !! i = Some b -> ∃ h, hs !! i = Some h ∧
      (b < length (block_pool m))%nat ∧ block_hash (blk m b) = Some h) ∧
    (∀ h, hs !! length bl = Some h -> cached_block_hash_to_block m !! h = None).
Proof.
  intros Hi. induction hs as [|h hs IH]; [by exists []|].
  cbn [computed_blocks_loop]. unfold _get_cached_block.
  destruct (cached_block_hash_to_block m !! h) as [l|] eqn:Hl.
  - destruct (ki_cached _ _ _ _ Hi h l Hl) as (Hne & _ & Hall).
    destruct l as [|b l]; [done|]. cbn [mbind result_bind].
    destruct IH as (bl & -> & Hlen & Hbl & Hmax). cbn [mbind result_bind].
    exists (b :: bl). split; [done|]. split; [simpl; lia|]. split; [|done].
    intros [|i] c Hc; simpl in Hc.
    + injection Hc as <-. exists h. split; [done|]. apply Hall. by left.
    + by apply Hbl.
  - exists []. split; [done|]. split; [simpl; lia|]. split; [done|].
    intros h' [= <-]. done.
Qed.

Record computed_post m r r' bl : Prop := {
  gp_req : ∃ hs, r' = set_kv_block_hashes hs r ∧
    (hs = kv_block_hashes r ∨ (kv_block_hashes r = [] ∧ len hs * block_size m <= num_tokens r));
  gp_len : (length bl <= length (kv_block_hashes r'))%nat;
  gp_hit : ∀ i b, bl !! i = Some b -> ∃ h, kv_block_hashes r' !! i = Some h ∧
    (b < length (block_pool m))%nat ∧ block_hash (blk m b) = Some h;
  gp_nocache : enable_caching m = false -> bl = [] ∧ r' = r;
}.

Lemma get_computed_blocks_spec m fl r :
  kv_inv m fl [] -> mm_ok r ->
  ∃ r' bl, get_computed_blocks m r = Ok (r', bl, len bl * block_size m) ∧
    computed_post m r r' bl.
Proof.
  intros Hi Hmm. unfold get_computed_blocks.
  destruct (enable_caching m) eqn:Hc; cbn [negb].
  - match goal with |- context [mbind _ ?e] => assert (∃ hs,
      e = Ok (set_kv_block_hashes hs r) ∧ (hs = kv_block_hashes r ∨
        (kv_block_hashes r = [] ∧ len hs * block_size m <= num_tokens r)))
      as (hs & -> & Hhs) end.
    { case_bool_decide as He.
      - destruct (hash_request_tokens_spec (block_size m) r (ki_bs _ _ _ _ Hi) Hmm)
          as (hs & -> & Hl & _). exists hs. split; [done|]. right. split; [done|].
        rewrite Hl. pose proof (ki_bs _ _ _ _ Hi) as Hbs.
        pose proof (Z.mul_div_le (num_tokens r) _ Hbs). lia.
      - exists (kv_block_hashes r). split; [by destruct r|by left]. }
    cbn [mbind result_bind].
    destruct (computed_blocks_loop_spec m fl hs Hi) as (bl & Hbl & Hlen & Hhit & _).
    change (kv_block_hashes (set_kv_block_hashes hs r)) with hs. rewrite Hbl.
    cbn [mbind result_bind]. eexists _, bl. split; [done|].
    split; [by exists hs|done..|congruence].
  - exists r, []. split; [done|]. split; try done; [|simpl; lia].
    exists (kv_block_hashes r). split; [by destruct r|by left].
Qed.

(** ** Resetting the prefix cache *)

(** When no block is in use, every reference count is zero. *)
Lemma unused_all_free m fl :
  kv_inv m fl [] ->
  (0 <? num_gpu_blocks m - num_free_blocks (free_block_queue m)) = false ->
  ∀ b, (b < length (block_pool m))%nat -> ref_cnt (blk m b) = 0.
Proof.
  intros Hi Hu b Hb. apply (ki_free _ _ _ _ Hi); [done|].
  rewrite (fq_num _ _ _ (ki_repr _ _ _ _ Hi)), (ki_num _ _ _ _ Hi) in Hu.
  pose proof (fq_nodup _ _ _ (ki_repr _ _ _ _ Hi)) as Hnd.
  destruct (decide (b ∈ fl)) as [|Hn]; [done|exfalso].
  assert (S (length fl) <= length (block_pool m))%nat; [|lia].
  rewrite <-(length_seq (length (block_pool m)) 0).
  change (S (length fl)) with (length (b :: fl)).
  apply submseteq_length, NoDup_submseteq; [by apply NoDup_cons|].
  intros c [->|Hc]%elem_of_cons; apply elem_of_seq; [lia|].
  pose proof (fq_range _ _ _ _ (ki_repr _ _ _ _ Hi) Hc). lia.
Qed.

Lemma reset_prefix_cache_inv m fl :
  kv_inv m fl [] -> kv_inv (reset_prefix_cache m).1 fl [].
Proof.
  intros Hi. unfold reset_prefix_cache. case_match eqn:Hu; [done|]. simpl.
  pose proof (unused_all_free m fl Hi Hu) as Hall.
  assert (HB : ∀ b, (b < length (block_pool m))%nat ->
    (reset_hash <$> block_pool m) !!! b = reset_hash (blk m b)).
  { intros b Hb. apply (list_lookup_total_fmap reset_hash _ _ Hb). }
  destruct Hi. split; unfold blk; simpl; rewrite ?length_fmap; try done.
  - by apply fq_frame_all.
  - intros b Hb. rewrite HB by done. by apply ki_id.
  - intros b Hb. rewrite HB by done. by apply ki_ref.
  - intros b Hb. rewrite HB by done. by apply ki_free.
  - intros b h Hb. by rewrite HB.
  - intros b Hb _. rewrite HB by done. simpl. rewrite Hall by done. lia.
Qed.

Lemma common_prefix_spec m fl r nr bl :
  kv_inv m fl [] -> status r = RUNNING -> req_to_blocks m !! request_id r = Some bl ->
  ∃ c, get_num_common_prefix_blocks m r nr = Ok (m, c) ∧ 0 <= c <= len bl ∧
    ∀ i b, bl !! i = Some b -> Z.of_nat i < c -> refs (req_to_blocks m) b = nr.
Proof.
  intros Hi Hst Hbl. unfold get_num_common_prefix_blocks.
  rewrite bool_decide_eq_true_2 by done. cbn [py_assert mbind result_bind].
  unfold read_req_blocks. rewrite Hbl. eexists. split; [done|].
  assert (Hr : ∀ b, b ∈ bl -> (b < length (block_pool m))%nat)
    by (intros b Hb; by eapply req_block_range).
  clear Hbl. revert Hr. induction bl as [|b bl IH]; intros Hr; cbn [common_prefix_loop length]; [done|].
  destruct IH as [Hc Hall]; [set_solver|].
  destruct (Z.eqb_spec (ref_cnt (blk m b)) nr) as [E|E]; [|split; [lia|intros [|i]; lia]].
  split; [lia|]. intros [|i] c Hic Hlt; simpl in Hic.
  - injection Hic as <-. rewrite <-E, (ki_ref _ _ _ _ Hi) by (apply Hr; by left). simpl. lia.
  - apply (Hall i c Hic). lia.
Qed.
End ops.

(** ** Reachable states *)

(** The states a [KVCacheManager] goes through when it is called under the
    contract of [allocate_slots]; lookups do not change it. *)
Inductive kv_reach `{PyHash} : KVCacheManager -> Prop :=
  | kr_init bs n mml sw ec pre m :
      0 < bs -> 0 < n -> 0 <= pre -> kv_init bs n mml sw ec pre = Ok m -> kv_reach m
  | kr_alloc m r n bl ncb k m' r' o :
      kv_reach m -> alloc_pre m r n bl ncb k ->
      allocate_slots m r n ncb = Ok (m', r', o) -> kv_reach m'
  | kr_free m r m' : kv_reach m -> free m r = Ok m' -> kv_reach m'
  | kr_reset m : kv_reach m -> kv_reach (reset_prefix_cache m).1.

Lemma kv_reach_inv `{PyHash} m : kv_reach m -> ∃ fl, kv_inv dll m fl [].
Proof.
  induction 1 as [bs n mml sw ec pre m Hbs Hn Hpre Hinit
    |m r n bl ncb k m' r' o _ [fl Hi] Hap Hal|m r m' _ [fl Hi] Hf|m _ [fl Hi]].
  - destruct (kv_init_spec dll bs n mml sw ec pre Hbs Hn Hpre) as (m0 & E & Hi & _).
    rewrite Hinit in E. injection E as ->. eauto.
  - destruct (allocate_slots_spec dll m fl r n bl ncb k Hi Hap) as (m1 & r1 & o1 & E & Ho).
    rewrite Hal in E. injection E as -> -> ->. destruct o1 as [nb|].
    + destruct Ho as [_ []]. eauto.
    + destruct Ho as (_ & -> & _). exists fl.
      destruct (read_req_blocks m (request_id r)) as [m1' bl'] eqn:Hrd.
      by destruct (read_req_blocks_spec dll _ _ _ _ _ Hi Hrd) as (_ & Hi1 & _).
  - destruct (free_spec dll m fl r Hi) as (m1 & freed & E & Hi1 & _).
    rewrite Hf in E. injection E as ->. eauto.
  - exists fl. exact (reset_prefix_cache_inv dll m fl Hi).
Qed.

Lemma dll_walk pool q l : dll pool q l -> get_all_free_blocks pool q = Ok l.
Proof.
  intros Hd. unfold get_all_free_blocks. rewrite (dll_head _ _ _ Hd).
  apply (get_all_free_blocks_loop_dll pool [] l); [apply Hd..|].
  rewrite <-(length_seq (length pool) 0). apply submseteq_length, NoDup_submseteq; [apply Hd|].
  intros b Hb. apply elem_of_seq. pose proof (dll_range _ _ _ Hd b Hb). lia.
Qed.

(** C4: memory safety of the KV-cache manager.  In every reachable state the
    linked free list can be walked and has [num_free_blocks] distinct blocks; a
    block is on it exactly when no request holds it; the reference count of a
    block is the number of its occurrences in the block tables of the requests;
    and two different requests share a block only if the block carries a
    prefix-cache hash. *)
Theorem kv_reachable_safe `{PyHash} m :
  kv_reach m ->
  ∃ fl, get_all_free_blocks (block_pool m) (free_block_queue m) = Ok fl ∧ NoDup fl ∧
    num_free_blocks (free_block_queue m) = len fl ∧
    (∀ b, (b < length (block_pool m))%nat ->
      (b ∈ fl <-> ∀ rid bl, req_to_blocks m !! rid = Some bl -> b ∉ bl) ∧
      ref_cnt (blk m b) = refs (req_to_blocks m) b) ∧
    (∀ rid rid' bl bl' b, rid ≠ rid' -> req_to_blocks m !! rid = Some bl ->
      req_to_blocks m !! rid' = Some bl' -> b ∈ bl -> b ∈ bl' -> hashed m b).
Proof.
  intros [fl Hi]%kv_reach_inv. pose proof (ki_repr _ _ _ _ Hi) as Hd. exists fl.
  split_and!; [by apply dll_walk|apply Hd|apply Hd| |].
  - intros b Hb. pose proof (ki_ref _ _ _ _ Hi b Hb) as Hr. simpl in Hr. split; [|lia]. split.
    + intros Hin rid bl Hrb. exact (free_not_owned dll m fl rid bl b Hi Hin Hrb).
    + intros Hno. apply (ki_free _ _ _ _ Hi); [done|]. rewrite Hr, Z.add_0_r.
      by apply refs_none.
  - intros. by eapply (unhashed_not_shared dll m fl).
Qed.

(** A small manager for the witnesses: block size 2, 6 blocks, caching on. *)
Definition demo_kv : KVCacheManager :=
  match kv_init 2 6 20 None true 2 with
  | Ok m => m
  | Err _ => mkKV 1 0 0 0 None false 0 0 [] (mkQueue 0 None None) ∅ ∅
  end.

Lemma demo_kv_reach : @kv_reach demo_hash demo_kv.
Proof. by apply (kr_init 2 6 20 None true 2); [lia..|]. Qed.

Definition ok_or {A} (d : A) (x : result A) : A := match x with Ok a => a | Err _ => d end.

(** A waiting request whose hashes were computed. *)
Definition demo_hashed (rid : string) (toks : list Z) : Request :=
  let r := demo_request rid toks in
  set_kv_block_hashes (ok_or [] (@hash_request_tokens demo_hash 2 r)) r.

Lemma demo_alloc_pre (rid : string) :
  alloc_pre demo_kv (demo_hashed rid [1; 2; 3; 4; 5]) 5 [] [] 0.
Proof.
  split; [done|lia|done|set_solver|done|by left|by vm_compute..|].
  intros _. split_and!; [split; [done|by intros []]|done|simpl; lia|by left].
Qed.

Lemma kv_reachable_safe_witness :
  let m := (ok_or (demo_kv, demo_hashed "a" [], None)
    (@allocate_slots demo_hash demo_kv (demo_hashed "a" [1; 2; 3; 4; 5]) 5 [])).1.1 in
  ∃ fl, get_all_free_blocks (block_pool m) (free_block_queue m) = Ok fl ∧ NoDup fl ∧
    num_free_blocks (free_block_queue m) = len fl ∧
    (∀ b, (b < length (block_pool m))%nat ->
      (b ∈ fl <-> ∀ rid bl, req_to_blocks m !! rid = Some bl -> b ∉ bl) ∧
      ref_cnt (blk m b) = refs (req_to_blocks m) b) ∧
    (∀ rid rid' bl bl' b, rid ≠ rid' -> req_to_blocks m !! rid = Some bl ->
      req_to_blocks m !! rid' = Some bl' -> b ∈ bl -> b ∈ bl' -> hashed m b).
Proof.
  intros m. apply (@kv_reachable_safe demo_hash m).
  eapply (@kr_alloc demo_hash demo_kv (demo_hashed "a" [1; 2; 3; 4; 5]) 5 [] [] 0);
    [apply demo_kv_reach|apply demo_alloc_pre|vm_compute; reflexivity].
Defined.

(** ** Behaviour of the operations *)

Lemma walk_unique pool q fl fl' : dll pool q fl -> get_all_free_blocks pool q = Ok fl' -> fl' = fl.
Proof. intros Hd E. rewrite (dll_walk _ _ _ Hd) in E. by injection E as <-. Qed.

(** C5: [allocate_slots] never raises when the scheduler calls it within its
    contract.  It answers [None] - changing nothing - exactly when the pool has
    fewer free blocks than the request is short of (not counting the cache hits
    that are about to leave the free list).  Otherwise the new blocks are distinct
    free blocks, the request's table grows by the hits and the new blocks and
    covers all scheduled tokens within the per-request limit, and the tables of
    the other requests are unchanged. *)
Theorem allocate_slots_correct `{PyHash} m fl r n bl ncb k :
  kv_reach m -> get_all_free_blocks (block_pool m) (free_block_queue m) = Ok fl ->
  alloc_pre m r n bl ncb k ->
  ∃ m' r' o, allocate_slots m r n ncb = Ok (m', r', o) ∧
    match o with
    | None => len fl - evictable m ncb < blocks_needed m r n bl ncb ∧
        block_pool m' = block_pool m ∧ free_block_queue m' = free_block_queue m ∧ r' = r
    | Some nb => blocks_needed m r n bl ncb <= len fl - evictable m ncb ∧
        NoDup nb ∧ (∀ b, b ∈ nb -> b ∈ fl ∧ b ∉ ncb) ∧
        req_to_blocks m' = <[request_id r := bl ++ ncb ++ nb]> (req_to_blocks m) ∧
        num_computed_tokens r + len ncb * block_size m + n <=
          len (bl ++ ncb ++ nb) * block_size m ∧
        len (bl ++ ncb ++ nb) <= max_num_blocks_per_req m
    end.
Proof.
  intros [fl' Hi]%kv_reach_inv Hfl Hap.
  rewrite (walk_unique _ _ _ _ (ki_repr _ _ _ _ Hi) Hfl) in *. clear fl Hfl.
  destruct (allocate_slots_spec dll m fl' r n bl ncb k Hi Hap) as (m' & r' & o & E & Ho).
  exists m', r', o. split; [done|]. destruct o as [nb|].
  - destruct Ho as [Hge []]. rewrite po_nb.
    split_and!; try done; try (by rewrite <-po_nb).
    + eapply sublist_NoDup; [|apply sublist_take]. apply NoDup_filter, (ki_repr _ _ _ _ Hi).
    + intros b (i & Hb & _)%elem_of_take. apply list_elem_of_lookup_2 in Hb.
      by apply list_elem_of_filter in Hb as [??].
  - destruct Ho as (-> & -> & Hlt). split_and!; try done;
      unfold read_req_blocks; by destruct (req_to_blocks m !! request_id r).
Qed.

Lemma allocate_slots_correct_witness :
  let r := demo_hashed "a" [1; 2; 3; 4; 5] in
  ∃ m' r' o, @allocate_slots demo_hash demo_kv r 5 [] = Ok (m', r', o) ∧
    match o with
    | None => len (seq 0 6) - evictable demo_kv [] < blocks_needed demo_kv r 5 [] [] ∧
        block_pool m' = block_pool demo_kv ∧
        free_block_queue m' = free_block_queue demo_kv ∧ r' = r
    | Some nb => blocks_needed demo_kv r 5 [] [] <= len (seq 0 6) - evictable demo_kv [] ∧
        NoDup nb ∧ (∀ b, b ∈ nb -> b ∈ seq 0 6 ∧ b ∉ []) ∧
        req_to_blocks m' = <[request_id r := [] ++ [] ++ nb]> (req_to_blocks demo_kv) ∧
        num_computed_tokens r + len (@nil nat) * block_size demo_kv + 5 <=
          len ([] ++ [] ++ nb) * block_size demo_kv ∧
        len ([] ++ [] ++ nb) <= max_num_blocks_per_req demo_kv
    end.
Proof.
  apply (@allocate_slots_correct demo_hash demo_kv (seq 0 6) (demo_hashed "a" [1; 2; 3; 4; 5])
    5 [] [] 0); [apply demo_kv_reach|reflexivity|apply demo_alloc_pre].
Defined.

(** [free] never raises; it drops the request's table, puts exactly those
    of its blocks back on the free list that no other request holds (after all
    blocks that were free before), and keeps every cached hash, so the blocks can
    still be hit until they are evicted. *)
Theorem free_correct `{PyHash} m fl r :
  kv_reach m -> get_all_free_blocks (block_pool m) (free_block_queue m) = Ok fl ->
  ∃ m' freed, free m r = Ok m' ∧
    get_all_free_blocks (block_pool m') (free_block_queue m') = Ok (fl ++ freed) ∧
    req_to_blocks m' = delete (request_id r) (req_to_blocks m) ∧
    cached_block_hash_to_block m' = cached_block_hash_to_block m ∧
    ∀ b, b ∈ freed <-> b ∈ default [] (req_to_blocks m !! request_id r) ∧
      refs (delete (request_id r) (req_to_blocks m)) b = 0.
Proof.
  intros [fl' Hi]%kv_reach_inv Hfl.
  rewrite (walk_unique _ _ _ _ (ki_repr _ _ _ _ Hi) Hfl) in *. clear fl Hfl.
  destruct (free_spec dll m fl' r Hi) as (m' & freed & E & Hi' & _ & Hr & Hc & _ & Hf).
  exists m', freed. split_and!; try done. apply dll_walk, (ki_repr _ _ _ _ Hi').
Qed.

Definition demo_kv1 : KVCacheManager := (ok_or (demo_kv, demo_hashed "a" [], None)
  (@allocate_slots demo_hash demo_kv (demo_hashed "a" [1; 2; 3; 4; 5]) 5 [])).1.1.

Lemma demo_kv1_reach : @kv_reach demo_hash demo_kv1.
Proof.
  eapply (@kr_alloc demo_hash demo_kv (demo_hashed "a" [1; 2; 3; 4; 5]) 5 [] [] 0);
    [apply demo_kv_reach|apply demo_alloc_pre|vm_compute; reflexivity].
Qed.

Lemma free_correct_witness :
  ∃ m' freed, free demo_kv1 (demo_hashed "a" [1; 2; 3; 4; 5]) = Ok m' ∧
    get_all_free_blocks (block_pool m') (free_block_queue m') = Ok ([4; 5]%nat ++ freed) ∧
    req_to_blocks m' = delete "a"%string (req_to_blocks demo_kv1) ∧
    cached_block_hash_to_block m' = cached_block_hash_to_block demo_kv1 ∧
    ∀ b, b ∈ freed <-> b ∈ default [] (req_to_blocks demo_kv1 !! "a"%string) ∧
      refs (delete "a"%string (req_to_blocks demo_kv1)) b = 0.
Proof.
  apply (@free_correct demo_hash demo_kv1 [4; 5]%nat (demo_hashed "a" [1; 2; 3; 4; 5]));
    [apply demo_kv1_reach|vm_compute; reflexivity].
Defined.

(** A prefix-cache lookup is sound.  [get_computed_blocks] never raises; the
    [i]-th block it returns stores, in its own [block_hash], exactly the [i]-th
    hash of the request's chain, and the number of computed tokens it reports is
    the number of tokens in those blocks. *)
Theorem get_computed_blocks_sound `{PyHash} m r :
  kv_reach m -> mm_ok r ->
  ∃ r' bl, get_computed_blocks m r = Ok (r', bl, len bl * block_size m) ∧
    all_token_ids r' = all_token_ids r ∧
    ∀ i b, bl !! i = Some b -> ∃ h, kv_block_hashes r' !! i = Some h ∧
      block_hash (blk m b) = Some h.
Proof.
  intros [fl Hi]%kv_reach_inv Hmm.
  destruct (get_computed_blocks_spec dll m fl r Hi Hmm) as (r' & bl & E & [(hs & -> & _) _ Hhit _]).
  eexists _, bl. split; [done|]. split; [done|]. intros i b Hb.
  destruct (Hhit i b Hb) as (h & ? & _ & ?). by exists h.
Qed.

Lemma get_computed_blocks_sound_witness :
  let r := demo_request "b" [1; 2; 3; 4; 9] in
  ∃ r' bl, @get_computed_blocks demo_hash demo_kv1 r = Ok (r', bl, len bl * block_size demo_kv1) ∧
    all_token_ids r' = all_token_ids r ∧
    ∀ i b, bl !! i = Some b -> ∃ h, kv_block_hashes r' !! i = Some h ∧
      block_hash (blk demo_kv1 b) = Some h.
Proof.
  apply (@get_computed_blocks_sound demo_hash demo_kv1 (demo_request "b" [1; 2; 3; 4; 9]));
    [apply demo_kv1_reach|by left].
Defined.

(** The lookup above really hits: it returns the two full blocks of request "a". *)
Example demo_hit :
  match @get_computed_blocks demo_hash demo_kv1 (demo_request "b" [1; 2; 3; 4; 9]) with
  | Ok (_, bl, n) => bl = [0; 1]%nat ∧ n = 4
  | Err _ => False
  end.
Proof. by vm_compute. Qed.

(** [reset_prefix_cache] succeeds exactly when no block is in use, and after
    a successful reset no lookup hits; otherwise it changes nothing. *)
Theorem reset_prefix_cache_correct `{PyHash} m fl :
  kv_reach m -> get_all_free_blocks (block_pool m) (free_block_queue m) = Ok fl ->
  let '(m', ok) := reset_prefix_cache m in
  (ok = true <-> length fl = length (block_pool m)) ∧
  (ok = false -> m' = m) ∧
  (ok = true -> ∀ hs, computed_blocks_loop m' hs = Ok []).
Proof.
  intros [fl' Hi]%kv_reach_inv Hfl.
  rewrite (walk_unique _ _ _ _ (ki_repr _ _ _ _ Hi) Hfl) in *. clear fl Hfl.
  unfold reset_prefix_cache. rewrite (ki_num _ _ _ _ Hi), (dll_num _ _ _ (ki_repr _ _ _ _ Hi)).
  assert (Hle : (length fl' <= length (block_pool m))%nat).
  { rewrite <-(length_seq (length (block_pool m)) 0).
    apply submseteq_length, NoDup_submseteq; [apply (ki_repr _ _ _ _ Hi)|].
    intros b Hb. apply elem_of_seq. pose proof (dll_range _ _ _ (ki_repr _ _ _ _ Hi) b Hb). lia. }
  destruct (Z.ltb_spec 0 (len (block_pool m) - len fl')) as [Hu|Hu]; split_and!; try done.
  - split; [done|lia].
  - split; [lia|done].
  - intros _ [|h hs]; [done|]. cbn [computed_blocks_loop]. unfold _get_cached_block. simpl.
    by rewrite lookup_empty.
Qed.

Lemma reset_prefix_cache_correct_witness :
  let '(m', ok) := reset_prefix_cache demo_kv1 in
  (ok = true <-> length [4; 5]%nat = length (block_pool demo_kv1)) ∧
  (ok = false -> m' = demo_kv1) ∧
  (ok = true -> ∀ hs, computed_blocks_loop m' hs = Ok []).
Proof.
  apply (@reset_prefix_cache_correct demo_hash demo_kv1 [4; 5]%nat);
    [apply demo_kv1_reach|vm_compute; reflexivity].
Defined.

(** The pool usage reported in the scheduler statistics is a fraction. *)
Theorem usage_bounds `{PyHash} m :
  kv_reach m -> (0 <= usage m <= 1)%Q ∨ num_gpu_blocks m = 0.
Proof.
  intros [fl Hi]%kv_reach_inv.
  destruct (decide (num_gpu_blocks m = 0)) as [|Hn]; [by right|left].
  assert (Hle : (length fl <= length (block_pool m))%nat).
  { rewrite <-(length_seq (length (block_pool m)) 0).
    apply submseteq_length, NoDup_submseteq; [apply (ki_repr _ _ _ _ Hi)|].
    intros b Hb. apply elem_of_seq. pose proof (dll_range _ _ _ (ki_repr _ _ _ _ Hi) b Hb). lia. }
  unfold usage. rewrite (dll_num _ _ _ (ki_repr _ _ _ _ Hi)).
  pose proof (ki_num _ _ _ _ Hi) as HN. rewrite HN in *.
  set (a := len fl) in *. set (b := len (block_pool m)) in *.
  assert (Hab : 0 <= a <= b ∧ 0 < b) by lia.
  assert (Hb : (0 < inject_Z b)%Q) by (change 0%Q with (inject_Z 0); rewrite <-Zlt_Qlt; lia).
  assert (H1 : (0 <= inject_Z a / inject_Z b)%Q).
  { apply Qle_shift_div_l; [done|]. rewrite Qmult_0_l.
    change 0%Q with (inject_Z 0). rewrite <-Zle_Qle. lia. }
  assert (H2 : (inject_Z a / inject_Z b <= 1)%Q).
  { apply Qle_shift_div_r; [done|]. rewrite Qmult_1_l. rewrite <-Zle_Qle. lia. }
  clear -H1 H2. split; lra.
Qed.
