(* ===== verification/SMController.v ===== *)
(** * SM partitioning: [vllm/v1/smcontroller/__init__.py]

    The encoder process restricts its CUDA stream to some of the GPU's thread
    processing clusters by handing bit masks to [libsmctrl].  Modelled: the search for
    the library, the masks as arbitrary-precision integers, and their truncation to
    the C types of the calls.  The library is a parameter: what loads, and the
    arguments each call receives. *)

From stdpp Require Import base tactics list sets strings.
From Stdlib Require Import ZArith Lia Bool.
From S2P Require Import Prelude.

Local Open Scope Z_scope.

(** ** Finding the library *)

(** [list(dict.fromkeys(l))]: the first occurrence of each element, in order. *)
Fixpoint dict_fromkeys (seen l : list string) : list string :=
  match l with
  | [] => []
  | x :: l => if decide (x ∈ seen) then dict_fromkeys seen l else x :: dict_fromkeys (x :: seen) l
  end.

Definition LIB_NAMES : list string := ["smctrl"; "libsmctrl"].

Definition opt_path (o : option string) : list string :=
  match o with Some p => if decide (p = "") then [] else [p] | None => [] end.

(** [env_path] is the environment variable, [find_library] is [ctypes]'s search and
    [own_path] the library beside this file. *)
Definition _candidate_libsmctrl_paths (env_path : option string)
    (find_library : string -> option string) (own_path : string) : list string :=
  dict_fromkeys []
    (opt_path env_path ++ concat ((fun n => opt_path (find_library n)) <$> LIB_NAMES) ++ [own_path]).

(** [loads p]: [ctypes.CDLL(p)] returns instead of raising [OSError].  The result is
    the path, or the candidates that failed. *)
Fixpoint load_first (loads : string -> bool) (failed candidates : list string) : string + list string :=
  match candidates with
  | [] => inr failed
  | p :: l => if loads p then inl p else load_first loads (failed ++ [p]) l
  end.

Definition _load_libsmctrl (loads : string -> bool) (candidates : list string) : string + list string :=
  load_first loads [] candidates.

Definition _require_libsmctrl (lib : string + list string) : result string :=
  match lib with inl p => Ok p | inr _ => Err RuntimeError end.

(** ** Masks *)

(** [int(s, 2)] for a string of binary digits. *)
Definition int_base2 (digits : list bool) : result Z :=
  match digits with
  | [] => Err ValueError
  | _ => Ok (foldl (fun acc d => 2 * acc + (if d : bool then 1 else 0)) 0 digits)
  end.

(** [~(int('1' * n, 2) << shift)]; ['1' * n] is empty for [n <= 0], and a negative
    shift count raises. *)
Definition generate_mask (n shift : Z) : result Z :=
  ones ← int_base2 (replicate (Z.to_nat n) true);
  if shift <? 0 then Err ValueError else Ok (Z.lnot (Z.shiftl ones shift)).

(** [ctypes.c_uint64(x)], [ctypes.c_uint32(x)] *)
Definition c_uint64 (x : Z) : Z := x mod 2 ^ 64.
Definition c_uint32 (x : Z) : Z := x mod 2 ^ 32.

(** The argument of [libsmctrl_set_stream_mask]. *)
Definition set_stream_mask (lib : string + list string) (mask : Z) : result Z :=
  _ ← _require_libsmctrl lib; Ok (c_uint64 mask).

(** The arguments of [libsmctrl_set_stream_mask_lzc]. *)
Definition stream_lzc_mask (lib : string + list string) (mask_list : list Z) : result (list Z) :=
  _ ← _require_libsmctrl lib;
  if bool_decide (length mask_list ≠ 4%nat) then Err ValueError
  else Ok (c_uint32 <$> mask_list).

(** ** Theorems *)

Lemma ones_value n acc :
  foldl (fun acc d => 2 * acc + (if d : bool then 1 else 0)) acc (replicate n true) = (acc + 1) * 2 ^ Z.of_nat n - 1.
Proof.
  revert acc. induction n as [|n IH]; intros acc; [simpl; lia|]. cbn [replicate foldl]. rewrite IH.
  rewrite Nat2Z.inj_succ, Z.pow_succ_r by lia. lia.
Qed.

Lemma generate_mask_value n shift :
  0 < n -> 0 <= shift -> generate_mask n shift = Ok (Z.lnot (Z.shiftl (Z.ones n) shift)).
Proof.
  intros Hn Hs. unfold generate_mask, int_base2. destruct (Z.to_nat n) as [|k] eqn:E; [lia|].
  change (match replicate (S k) true with [] => _ | _ => ?x end) with x.
  rewrite ones_value. cbn [mbind result_bind]. rewrite (proj2 (Z.ltb_ge shift 0)) by lia.
  do 3 f_equal. rewrite Z.ones_equiv. rewrite <-E, Z2Nat.id by lia. lia.
Qed.

Lemma generate_mask_testbit n shift mask i :
  generate_mask n shift = Ok mask -> 0 <= i ->
  Z.testbit mask i = negb ((shift <=? i) && (i <? shift + n)).
Proof.
  intros Hm Hi. destruct (decide (0 < n)) as [Hn|Hn]; cycle 1.
  { unfold generate_mask in Hm. by replace (Z.to_nat n) with 0%nat in Hm by lia. }
  destruct (decide (0 <= shift)) as [Hs|Hs]; cycle 1.
  { unfold generate_mask in Hm. apply bind_Ok_inv in Hm as (x & _ & Hm).
    by rewrite (proj2 (Z.ltb_lt shift 0)) in Hm by lia. }
  rewrite generate_mask_value in Hm by done. injection Hm as <-.
  rewrite Z.lnot_spec, Z.shiftl_spec by done. f_equal.
  rewrite Z.testbit_ones by lia. apply eq_true_iff_eq.
  rewrite !andb_true_iff, !Z.leb_le, !Z.ltb_lt. lia.
Qed.

Lemma generate_mask_bad n shift : ¬ (0 < n ∧ 0 <= shift) -> generate_mask n shift = Err ValueError.
Proof.
  intros Hbad. unfold generate_mask. destruct (Z.to_nat n) as [|k] eqn:E; [done|].
  unfold int_base2. cbn [replicate mbind result_bind].
  by rewrite (proj2 (Z.ltb_lt shift 0)) by lia.
Qed.

(** C37: the masks reach the driver bit for bit.  [generate_mask n shift] returns
    exactly for [n > 0] and [shift >= 0] ([ValueError] otherwise), and clears exactly
    the bits [shift .. shift + n - 1]; the 64-bit argument of the call agrees with the
    mask on its 64 bits and is in range.  A list of masks is passed on exactly when it
    has four entries, each with the low 32 bits of its value; without the library
    both calls raise [RuntimeError]. *)
Theorem sm_masks_correct n shift lib ms :
  (0 < n ∧ 0 <= shift <-> ∃ mask, generate_mask n shift = Ok mask) ∧
  (¬ (0 < n ∧ 0 <= shift) -> generate_mask n shift = Err ValueError) ∧
  (∀ mask i, generate_mask n shift = Ok mask -> 0 <= i ->
     Z.testbit mask i = negb ((shift <=? i) && (i <? shift + n)) ∧
     ∀ p, ∃ arg, set_stream_mask (inl p) mask = Ok arg ∧ 0 <= arg < 2 ^ 64 ∧
       Z.testbit arg i = (i <? 64) && Z.testbit mask i) ∧
  (∀ args, stream_lzc_mask lib ms = Ok args <->
     (∃ p, lib = inl p) ∧ length ms = 4%nat ∧ args = c_uint32 <$> ms) ∧
  (∀ failed, set_stream_mask (inr failed) n = Err RuntimeError ∧
     stream_lzc_mask (inr failed) ms = Err RuntimeError).
Proof.
  split_and!.
  - split; [intros [? ?]; eexists; by apply generate_mask_value|]. intros [mask Hm].
    destruct (decide (0 < n ∧ 0 <= shift)) as [|Hbad]; [done|]. by rewrite generate_mask_bad in Hm.
  - apply generate_mask_bad.
  - intros mask i Hm Hi. split; [by eapply generate_mask_testbit|]. intros p. eexists. split; [done|].
    unfold c_uint64. split; [apply Z.mod_pos_bound; lia|].
    destruct (Z.ltb_spec i 64); [by rewrite Z.mod_pow2_bits_low|by rewrite Z.mod_pow2_bits_high].
  - intros args. unfold stream_lzc_mask. destruct lib as [p|f]; cbn [_require_libsmctrl mbind result_bind].
    + case_bool_decide as Hl; [naive_solver|]. split; [intros [= <-]; eauto|].
      by intros (_ & _ & ->).
    + split; [done|]. by intros ([? ?] & _).
  - done.
Qed.

(** The mask of eight clusters from bit 4 on. *)
Lemma sm_masks_correct_witness :
  ∃ mask, generate_mask 8 4 = Ok mask ∧ Z.testbit mask 4 = false ∧ Z.testbit mask 12 = true.
Proof.
  destruct (sm_masks_correct 8 4 (inl "libsmctrl.so"%string) []) as (H1 & _ & H3 & _).
  destruct (proj1 H1) as [mask Hm]; [lia|]. exists mask. split; [done|].
  destruct (H3 mask 4 Hm ltac:(lia)) as [-> _], (H3 mask 12 Hm ltac:(lia)) as [-> _]. by split.
Defined.

(** ** The search order *)

Lemma dict_fromkeys_spec seen l :
  NoDup (dict_fromkeys seen l) ∧ ∀ x, x ∈ dict_fromkeys seen l <-> x ∈ l ∧ x ∉ seen.
Proof.
  revert seen. induction l as [|y l IH]; intros seen; cbn [dict_fromkeys]; [split; [constructor|set_solver]|].
  case_decide as Hd.
  - destruct (IH seen) as [Hn Hx]. split; [done|]. intros x. rewrite Hx. set_solver.
  - destruct (IH (y :: seen)) as [Hn Hx]. split.
    + apply NoDup_cons. split; [|done]. rewrite Hx. set_solver.
    + intros x. rewrite elem_of_cons, Hx. destruct (decide (x = y)) as [->|]; set_solver.
Qed.

Lemma load_first_spec loads failed l :
  match load_first loads failed l with
  | inl p => ∃ i, l !! i = Some p ∧ loads p = true ∧ ∀ j q, (j < i)%nat -> l !! j = Some q -> loads q = false
  | inr f => f = failed ++ l ∧ ∀ q, q ∈ l -> loads q = false
  end.
Proof.
  revert failed. induction l as [|p l IH]; intros failed; cbn [load_first]; [by rewrite app_nil_r; split; [|set_solver]|].
  destruct (loads p) eqn:Hp; [exists 0%nat; split_and!; [done..|lia]|].
  specialize (IH (failed ++ [p])). destruct (load_first loads (failed ++ [p]) l) as [q|f].
  - destruct IH as (i & Hi & Hq & Hb). exists (S i). split_and!; [done..|].
    intros [|j] q' Hj Hl; [by injection Hl as <-|]. by apply (Hb j); [lia|].
  - destruct IH as [-> Hb]. split; [by rewrite <-app_assoc|]. intros q [->|Hq]%elem_of_cons; auto.
Qed.

(** Every candidate is tried once, the environment variable first and the library
    beside the package if nothing before it loads; the first one that loads is used. *)
Theorem library_search env find own loads :
  let cs := _candidate_libsmctrl_paths env find own in
  NoDup cs ∧ own ∈ cs ∧ (∀ p, env = Some p -> p ≠ ""%string -> head cs = Some p) ∧
  match _load_libsmctrl loads cs with
  | inl p => ∃ i, cs !! i = Some p ∧ loads p = true ∧ ∀ j q, (j < i)%nat -> cs !! j = Some q -> loads q = false
  | inr f => f = cs ∧ ∀ q, q ∈ cs -> loads q = false
  end.
Proof.
  intros cs. unfold cs, _candidate_libsmctrl_paths.
  destruct (dict_fromkeys_spec [] (opt_path env ++ concat ((fun n => opt_path (find n)) <$> LIB_NAMES) ++ [own]))
    as [Hn Hx]. split_and!; [done| | |apply load_first_spec].
  - apply Hx. set_solver.
  - intros p -> Hp. cbn [opt_path]. rewrite decide_False by done. done.
Qed.
