(* ===== verification/EncoderCache.v ===== *)
(** * The encoder cache manager: [vllm/v1/core/encoder_cache_manager.py]

    [EncoderCacheManager] accounts for the space of encoder outputs, in tokens.
    [cached] maps a request id to the set of its cached input ids.  Python leaves
    the iteration order of a set open; the model iterates in the order of
    [elements].

    [free] iterates over the set object stored in [cached] while its body discards
    elements from that same object.  The model keeps the set object apart from the
    dict entry and performs the check CPython makes on every [next()]: the size
    must be the one the iterator started with. *)

From stdpp Require Import base tactics list gmap sets strings.
From Stdlib Require Import ZArith Lia.
From S2P Require Import Prelude.
From S2P Require Import SamplingParams.
From S2P Require Import Request.

Local Open Scope Z_scope.

Record EncoderCacheManager : Type := mkECM {
  cache_size : Z;
  num_free_slots : Z;
  cached : gmap string (gset nat);
  freed : list (string * nat);
}.

Definition ecm_init (size : Z) : EncoderCacheManager := mkECM size size ∅ [].

Definition has_cache (e : EncoderCacheManager) (r : Request) (i : nat) : bool :=
  match cached e !! request_id r with
  | Some s => bool_decide (i ∈ s)
  | None => false
  end.

Definition can_allocate (e : EncoderCacheManager) (r : Request) (i : nat) : result bool :=
  n ← get_num_encoder_tokens r i;
  Ok (n <=? num_free_slots e).

Definition allocate (e : EncoderCacheManager) (r : Request) (i : nat) :
    result EncoderCacheManager :=
  let s := default ∅ (cached e !! request_id r) in
  let c := <[request_id r := {[i]} ∪ s]> (cached e) in
  n ← get_num_encoder_tokens r i;
  Ok (mkECM (cache_size e) (num_free_slots e - n) c (freed e)).

Definition get_cached_input_ids (e : EncoderCacheManager) (r : Request) : gset nat :=
  default ∅ (cached e !! request_id r).

Definition free_encoder_input (e : EncoderCacheManager) (r : Request) (i : nat) :
    result EncoderCacheManager :=
  match cached e !! request_id r with
  | None => Ok e
  | Some s =>
      let s' := s ∖ {[i]} in
      let c := if decide (s' = ∅) then delete (request_id r) (cached e)
               else <[request_id r := s']> (cached e) in
      n ← get_num_encoder_tokens r i;
      Ok (mkECM (cache_size e) (num_free_slots e + n) c (freed e ++ [(request_id r, i)]))
  end.

(** [for input_id in input_ids: self.free_encoder_input(...)], where [obj] is the
    set object under iteration, [size0] its size when the iterator was made and
    [todo] the elements the iterator has not produced yet. *)
Fixpoint ecm_free_loop (r : Request) (size0 : nat) (todo : list nat) (obj : gset nat)
    (e : EncoderCacheManager) : result EncoderCacheManager :=
  if decide (size obj = size0) then
    match todo with
    | [] => Ok e
    | i :: todo =>
        e' ← free_encoder_input e r i;
        let obj' := if decide (is_Some (cached e !! request_id r)) then obj ∖ {[i]} else obj in
        ecm_free_loop r size0 todo obj' e'
    end
  else Err RuntimeError.

Definition ecm_free (e : EncoderCacheManager) (r : Request) : result EncoderCacheManager :=
  let input_ids := get_cached_input_ids e r in
  ecm_free_loop r (size input_ids) (elements input_ids) input_ids e.

Definition get_freed_ids (e : EncoderCacheManager) : EncoderCacheManager * list (string * nat) :=
  (mkECM (cache_size e) (num_free_slots e) (cached e) [], freed e).

(** ** Encoder budgets *)

(** [max(d.items(), key=lambda item: item\[1\])], which keeps the first maximum. *)
Definition max_item_tokens (items : list (string * Z)) : option Z :=
  match items with
  | [] => None
  | (_, n) :: items => Some (foldl (fun acc it => Z.max acc it.2) n items)
  end.

(** [max_tokens_by_modality] is the dict [MULTIMODAL_REGISTRY] returns for the
    model; the two other arguments are the attributes of [scheduler_config]. *)
Definition _compute_encoder_budget_multimodal (max_tokens_by_modality : list (string * Z))
    (max_num_encoder_input_tokens encoder_cache_size : Z) : Z * Z :=
  match max_item_tokens max_tokens_by_modality with
  | None => (0, 0)
  | Some n => (Z.max max_num_encoder_input_tokens n, Z.max encoder_cache_size n)
  end.

Definition compute_encoder_budget (is_multimodal_model : bool)
    (max_tokens_by_modality : list (string * Z))
    (max_num_encoder_input_tokens encoder_cache_size : Z) : Z * Z :=
  if negb is_multimodal_model then (0, 0)
  else _compute_encoder_budget_multimodal max_tokens_by_modality
         max_num_encoder_input_tokens encoder_cache_size.

(** ** Accounting *)

(** The space used by the entries of [c], when the request with id [rid] needs
    [w rid i] tokens for its input [i]. *)
Definition weight (w : string -> nat -> Z) (rid : string) (s : gset nat) : Z :=
  set_fold (fun i acc => w rid i + acc) 0 s.
Definition used (w : string -> nat -> Z) (c : gmap string (gset nat)) : Z :=
  map_fold (fun rid s acc => weight w rid s + acc) 0 c.

(** Slots are conserved, and no empty set is stored. *)
Definition ecm_inv (w : string -> nat -> Z) (e : EncoderCacheManager) : Prop :=
  num_free_slots e + used w (cached e) = cache_size e ∧
  ∀ rid s, cached e !! rid = Some s -> s ≠ ∅.

(** [w] gives the sizes of the encoder inputs of [r]. *)
Definition sizes_of (w : string -> nat -> Z) (r : Request) : Prop :=
  ∀ i p, mm_positions r !! i = Some p -> w (request_id r) i = length_ p.

Section accounting.
Context (w : string -> nat -> Z).

Lemma weight_empty rid : weight w rid ∅ = 0.
Proof. done. Qed.

Lemma weight_insert rid i s : i ∉ s -> weight w rid ({[i]} ∪ s) = w rid i + weight w rid s.
Proof.
  intros Hi. unfold weight, set_fold. simpl.
  assert (Hperm : ∀ l l' : list nat, l ≡ₚ l' ->
    foldr (fun i acc => w rid i + acc) 0 l = foldr (fun i acc => w rid i + acc) 0 l').
  { induction 1; simpl; lia. }
  by rewrite (Hperm _ _ (elements_union_singleton s i Hi)).
Qed.

Lemma weight_remove rid i s : i ∈ s -> weight w rid s = w rid i + weight w rid (s ∖ {[i]}).
Proof.
  intros Hi. rewrite <-weight_insert by set_solver. f_equal.
  apply set_eq. intros x. destruct (decide (x = i)); set_solver.
Qed.

Lemma used_insert c rid s :
  used w (<[rid := s]> c) = used w c - weight w rid (default ∅ (c !! rid)) + weight w rid s.
Proof.
  assert (Hnew : ∀ c s, c !! rid = None ->
    used w (<[rid := s]> c) = weight w rid s + used w c).
  { intros c' s' Hc. unfold used. rewrite map_fold_insert_L; [done|intros; lia|done]. }
  rewrite <-insert_delete_eq, Hnew by apply lookup_delete_eq.
  destruct (c !! rid) as [s0|] eqn:Hc; simpl.
  - rewrite <-(insert_id c rid s0 Hc) at 2. rewrite <-(insert_delete_eq c rid s0).
    rewrite Hnew by apply lookup_delete_eq. lia.
  - rewrite delete_id by done. rewrite weight_empty. lia.
Qed.

Lemma used_delete c rid :
  used w (delete rid c) = used w c - weight w rid (default ∅ (c !! rid)).
Proof.
  pose proof (used_insert (delete rid c) rid (default ∅ (c !! rid))) as E.
  rewrite lookup_delete_eq, insert_delete_eq in E. simpl in E. rewrite weight_empty in E.
  rewrite (used_insert c rid) in E. lia.
Qed.

Lemma allocate_inv e r i e' :
  ecm_inv w e -> sizes_of w r -> has_cache e r i = false ->
  allocate e r i = Ok e' -> ecm_inv w e'.
Proof.
  intros [Hn He] Hw Hnew Hal. unfold allocate, get_num_encoder_tokens in Hal. res_inv. subst.
  set (s := default ∅ (cached e !! request_id r)).
  assert (Hi : i ∉ s).
  { unfold has_cache in Hnew. unfold s. destruct (cached e !! request_id r); simpl;
      [by apply bool_decide_eq_false in Hnew|set_solver]. }
  split; simpl.
  - rewrite used_insert. fold s. rewrite weight_insert by done.
    rewrite (Hw i x0) by done. lia.
  - intros rid t Ht. destruct (decide (request_id r = rid)) as [<-|Hne].
    + rewrite lookup_insert_eq in Ht. injection Ht as <-. set_solver.
    + rewrite lookup_insert_ne in Ht by done. by eapply He.
Qed.

Lemma free_encoder_input_inv e r i e' :
  ecm_inv w e -> sizes_of w r -> has_cache e r i = true ->
  free_encoder_input e r i = Ok e' -> ecm_inv w e'.
Proof.
  intros [Hn He] Hw Hhas Hf. unfold free_encoder_input in Hf. unfold has_cache in Hhas.
  destruct (cached e !! request_id r) as [s|] eqn:Hs; [|done].
  apply bool_decide_eq_true in Hhas. unfold get_num_encoder_tokens in Hf. res_inv. subst.
  pose proof (weight_remove (request_id r) i s Hhas) as Hwt.
  rewrite (Hw i x0) in Hwt by done.
  split; simpl; case_decide as Hd.
  - rewrite used_delete, Hs. simpl. rewrite Hd, weight_empty in Hwt. lia.
  - rewrite used_insert, Hs. simpl. lia.
  - intros rid t Ht. apply (He rid). by apply lookup_delete_Some in Ht as [_ Ht].
  - intros rid t Ht. destruct (decide (request_id r = rid)) as [<-|Hne].
    + rewrite lookup_insert_eq in Ht. by injection Ht as <-.
    + rewrite lookup_insert_ne in Ht by done. by eapply He.
Qed.
End accounting.

(** ** Theorems *)

Inductive ecm_op : Type :=
  | OpAlloc (r : Request) (i : nat)
  | OpFree (r : Request) (i : nat)
  | OpGetFreed.

Definition ecm_apply (op : ecm_op) (e : EncoderCacheManager) : result EncoderCacheManager :=
  match op with
  | OpAlloc r i => allocate e r i
  | OpFree r i => free_encoder_input e r i
  | OpGetFreed => Ok (get_freed_ids e).1
  end.

(** The scheduler allocates inputs that are not cached, and frees cached ones. *)
Definition ecm_allowed (w : string -> nat -> Z) (op : ecm_op) (e : EncoderCacheManager) : Prop :=
  match op with
  | OpAlloc r i => sizes_of w r ∧ has_cache e r i = false
  | OpFree r i => sizes_of w r ∧ has_cache e r i = true
  | OpGetFreed => True
  end.

Fixpoint ecm_run (w : string -> nat -> Z) (ops : list ecm_op) (e e' : EncoderCacheManager) : Prop :=
  match ops with
  | [] => e' = e
  | op :: ops => ecm_allowed w op e ∧
      match ecm_apply op e with Ok e1 => ecm_run w ops e1 e' | Err _ => False end
  end.

(** Encoder-cache slots are conserved.  After any sequence of allocations of
    uncached inputs and releases of cached inputs, the free slots and the sizes of
    all cached inputs add up to the cache size; in particular, when every entry
    has been released the cache is completely free again. *)
Theorem encoder_slots_conserved w size ops e :
  ecm_run w ops (ecm_init size) e ->
  num_free_slots e + used w (cached e) = cache_size e ∧ cache_size e = size ∧
  (cached e = ∅ -> num_free_slots e = size).
Proof.
  assert (Hgen : ∀ e0, ecm_inv w e0 -> cache_size e0 = size -> ecm_run w ops e0 e ->
    ecm_inv w e ∧ cache_size e = size).
  { induction ops as [|op ops IH]; intros e0 Hi Hs Hrun; simpl in Hrun; [by subst|].
    destruct Hrun as [Hal Hrun]. destruct (ecm_apply op e0) as [e1|] eqn:E; [|done].
    apply (IH e1); [..|done].
    - destruct op as [r i|r i|]; simpl in *.
      + destruct Hal. by eapply allocate_inv.
      + destruct Hal. by eapply free_encoder_input_inv.
      + by injection E as <-.
    - rewrite <-Hs. destruct op as [r i|r i|]; simpl in E.
      + unfold allocate in E. by res_inv; subst.
      + unfold free_encoder_input in E. case_match; [|by res_inv; subst]. by res_inv; subst.
      + by injection E as <-. }
  intros Hrun. destruct (Hgen (ecm_init size)) as [[Hn _] Hs]; [|done..|].
  - split; simpl; [|intros ??; by rewrite lookup_empty]. unfold used. rewrite map_fold_empty. lia.
  - split_and!; [done..|]. intros He. rewrite He in Hn. unfold used in Hn.
    rewrite map_fold_empty in Hn. lia.
Qed.

Definition demo_mm_request (rid : string) (n : Z) (places : list PlaceholderRange)
    (hashes : list string) (toks : list Z) : Request :=
  mkRequest rid (plain_sampling (Some n)) None WAITING None n None toks (len toks)
    [] toks 0 places ((fun i => Some i) <$> seq 0 (length places)) hashes [].

Definition demo_img : Request :=
  demo_mm_request "img" 8 [mkPlaceholder 1 4; mkPlaceholder 6 3] ["h0"; "h1"]%string
    [1; 0; 0; 0; 0; 2; 0; 0; 0; 3].

Definition demo_w (rid : string) (i : nat) : Z :=
  default 0 (length_ <$> mm_positions demo_img !! i).

Lemma encoder_slots_conserved_witness :
  ∃ e, ecm_run demo_w [OpAlloc demo_img 0; OpAlloc demo_img 1; OpFree demo_img 0] (ecm_init 10) e ∧
    num_free_slots e = 7 ∧
    num_free_slots e + used demo_w (cached e) = cache_size e ∧ cache_size e = 10 ∧
    (cached e = ∅ -> num_free_slots e = 10).
Proof.
  eexists. assert (Hrun : ecm_run demo_w
    [OpAlloc demo_img 0; OpAlloc demo_img 1; OpFree demo_img 0] (ecm_init 10)
    (mkECM 10 7 (<["img"%string := ({[1%nat]} ∪ ({[0%nat]} ∪ ∅)) ∖ {[0%nat]}]>
       (<["img"%string := {[1%nat]} ∪ ({[0%nat]} ∪ ∅)]>
         (<["img"%string := {[0%nat]} ∪ ∅]> ∅))) [("img"%string, 0%nat)])).
  { assert (Hw : sizes_of demo_w demo_img) by (intros i p Hp; unfold demo_w; by rewrite Hp).
    repeat (split; [split; [exact Hw|vm_compute; reflexivity]|]). vm_compute. reflexivity. }
  split; [exact Hrun|]. split; [reflexivity|].
  exact (encoder_slots_conserved demo_w 10 _ _ Hrun).
Defined.

Lemma ecm_free_spec e r :
  (∀ i, i ∈ get_cached_input_ids e r -> (i < length (mm_positions r))%nat) ->
  ecm_free e r = if decide (get_cached_input_ids e r = ∅) then Ok e else Err RuntimeError.
Proof.
  intros Hrng. unfold ecm_free. destruct (elements (get_cached_input_ids e r)) as [|i l] eqn:He.
  - apply elements_empty_inv, leibniz_equiv in He. rewrite He. by rewrite decide_True.
  - assert (Hi : i ∈ get_cached_input_ids e r) by (apply elem_of_elements; rewrite He; by left).
    rewrite (decide_False (P := _ = ∅)) by set_solver.
    cbn [ecm_free_loop]. rewrite decide_True by done.
    unfold free_encoder_input. unfold get_cached_input_ids in *.
    destruct (cached e !! request_id r) as [s|] eqn:Hs; simpl in *; [|set_solver].
    destruct (lookup_lt_is_Some_2 (mm_positions r) i (Hrng i Hi)) as [p Hp].
    unfold get_num_encoder_tokens. rewrite Hp. simpl.
    destruct l; simpl; (rewrite (decide_False (P := size _ = size _)); [done|]);
      rewrite size_difference, size_singleton by set_solver;
      (assert (size s ≠ 0%nat) by (apply size_non_empty_iff; set_solver)); lia.
Qed.

(** Releasing a request that still has cached encoder inputs crashes.
    [free] iterates over the very set its body shrinks, so whenever the set is not
    empty the second [next()] raises [RuntimeError]; without cached inputs it is a
    no-op. *)
Theorem ecm_free_raises e r :
  (∀ i, i ∈ get_cached_input_ids e r -> (i < length (mm_positions r))%nat) ->
  ecm_free e r = if decide (get_cached_input_ids e r = ∅) then Ok e else Err RuntimeError.
Proof. apply ecm_free_spec. Qed.

Lemma ecm_free_raises_witness :
  let e := mkECM 10 6 {["img"%string := {[0%nat]}]} [] in
  ecm_free e demo_img = if decide (get_cached_input_ids e demo_img = ∅) then Ok e
                        else Err RuntimeError.
Proof.
  apply (ecm_free_raises (mkECM 10 6 {["img"%string := {[0%nat]}]} []) demo_img).
  intros i Hi. unfold get_cached_input_ids in Hi. simpl in Hi.
  assert (Hl : ({["img"%string := {[0%nat]}]} : gmap string (gset nat)) !! "img"%string
    = Some {[0%nat]}) by apply lookup_singleton_eq.
  rewrite Hl in Hi. simpl in Hi. apply elem_of_singleton in Hi. subst. simpl. lia.
Defined.

Lemma max_item_tokens_ge items n : max_item_tokens items = Some n ->
  ∀ k v, (k, v) ∈ items -> v <= n.
Proof.
  destruct items as [|[k0 v0] items]; [done|]. simpl. intros [= <-] k v.
  assert (Hge : ∀ l acc, acc <= foldl (fun acc (it : string * Z) => Z.max acc it.2) acc l ∧
    ∀ k v, (k, v) ∈ l -> v <= foldl (fun acc (it : string * Z) => Z.max acc it.2) acc l).
  { induction l as [|[k1 v1] l IH]; intros acc; simpl; [split; [lia|set_solver]|].
    destruct (IH (Z.max acc v1)) as [H1 H2]. split; [lia|].
    intros k' v' [[= -> ->]|Hin]%elem_of_cons; [lia|by eapply H2]. }
  intros [[= -> ->]|Hin]%elem_of_cons; [apply Hge|by eapply Hge].
Qed.

(** The encoder budgets fit every item.  For a multi-modal model, an item of
    any enabled modality fits into both the per-step compute budget and the empty
    encoder cache. *)
Theorem encoder_budget_fits items mt cs k v :
  (k, v) ∈ items ->
  let '(budget, size) := compute_encoder_budget true items mt cs in
  v <= budget ∧ v <= size ∧ mt <= budget ∧ cs <= size.
Proof.
  intros Hin. unfold compute_encoder_budget, _compute_encoder_budget_multimodal. simpl.
  destruct (max_item_tokens items) as [n|] eqn:Hn.
  - pose proof (max_item_tokens_ge _ _ Hn k v Hin). lia.
  - destruct items as [|[??]]; [set_solver|done].
Qed.

Lemma encoder_budget_fits_witness :
  let '(budget, size) := compute_encoder_budget true [("image"%string, 576); ("video"%string, 2048)] 1024 1024 in
  2048 <= budget ∧ 2048 <= size ∧ 1024 <= budget ∧ 1024 <= size.
Proof. apply (encoder_budget_fits _ 1024 1024 "video"%string 2048). set_solver. Defined.
