(* ===== verification/Scheduler.v ===== *)
(** * The decoder scheduler: [vllm/v1/core/scheduler.py]

    [Scheduler] owns the KV-cache manager and the encoder-cache manager.  Request
    objects live in a heap [objs]; [requests] (by id), [waiting] and [running] hold
    references to them, as the Python collections do, so two requests that were
    added under the same id stay two objects.

    [encoder_cache] is the dict that the engine core fills with the results of the
    encoder process; the scheduler only tests membership.  It is shared with the
    worker, so it is part of the state here and is changed by the engine core
    (see [EngineCore]).

    Loops whose length is not a list at hand carry fuel; [schedule] passes the
    number of running (waiting) requests, and [SchedulerInv] shows that this is
    always enough. *)

From stdpp Require Import base tactics list gmap sets strings.
From Stdlib Require Import ZArith QArith Lia.
From S2P Require Import Prelude.
From S2P Require Import SamplingParams.
From S2P Require Import Request.
From S2P Require Import BlockQueue.
From S2P Require Import BlockHash.
From S2P Require Import KVCacheManager.
From S2P Require Import EncoderCache.

Local Open Scope Z_scope.

#[export] Instance Request_inhabited : Inhabited Request :=
  populate (mkRequest "" (plain_sampling None) None WAITING None 0 None
              [] 0 [] [] 0 [] [] [] []).

(** ** Scheduler output *)

Record NewRequestData : Type := mkNewRequestData {
  nrd_req_id : string;
  nrd_prompt_token_ids : list Z;
  nrd_prompt : option string;
  nrd_mm_inputs : list (option MMKwargs);
  nrd_mm_hashes : list string;
  nrd_mm_positions : list PlaceholderRange;
  nrd_sampling_params : SamplingParams;
  nrd_block_ids : list nat;
  nrd_num_computed_tokens : Z;
}.

Definition NewRequestData_from_request (r : Request) (block_ids : list nat) (n : Z) :
    NewRequestData :=
  mkNewRequestData (request_id r) (prompt_token_ids r) (prompt r) (mm_inputs r)
    (mm_hashes r) (mm_positions r) (sampling_params r) block_ids n.

Record CachedRequestData : Type := mkCachedRequestData {
  crd_req_id : string;
  crd_resumed_from_preemption : bool;
  crd_new_block_ids : list nat;
  crd_num_computed_tokens : Z;
}.

Definition CachedRequestData_from_request (r : Request) (resumed : bool)
    (block_ids : list nat) (n : Z) : CachedRequestData :=
  mkCachedRequestData (request_id r) resumed block_ids n.

Record SchedulerOutput : Type := mkSchedulerOutput {
  scheduled_new_reqs : list NewRequestData;
  scheduled_cached_reqs : list CachedRequestData;
  num_scheduled_tokens : gmap string Z;
  total_num_scheduled_tokens : Z;
  scheduled_encoder_inputs : gmap string (list nat);
  num_common_prefix_blocks : Z;
  so_finished_req_ids : gset string;
  free_encoder_input_ids : list (string * nat);
}.

Record SchedulerStats : Type := mkSchedulerStats {
  num_running_reqs : Z;
  num_waiting_reqs : Z;
  gpu_cache_usage : Q;
}.

Record EngineCoreOutputs : Type := mkEngineCoreOutputs {
  outputs : list EngineCoreOutput;
  scheduler_stats : SchedulerStats;
}.

(** ** State *)

Record Scheduler : Type := mkScheduler {
  max_num_running_reqs : Z;
  max_num_scheduled_tokens : Z;
  max_model_len : Z;
  kv_cache_manager : KVCacheManager;
  objs : gmap nat Request;
  requests : gmap string nat;
  waiting : list nat;
  running : list nat;
  finished_req_ids : gset string;
  _cached_reqs_data : gmap string CachedRequestData;
  max_num_encoder_input_tokens : Z;
  encoder_cache_manager : EncoderCacheManager;
  encoder_cache : gmap string (gmap nat nat);
}.

Definition with_kv (s : Scheduler) (kv : KVCacheManager) : Scheduler :=
  mkScheduler (max_num_running_reqs s) (max_num_scheduled_tokens s) (max_model_len s) kv
    (objs s) (requests s) (waiting s) (running s) (finished_req_ids s) (_cached_reqs_data s)
    (max_num_encoder_input_tokens s) (encoder_cache_manager s) (encoder_cache s).
Definition with_obj (s : Scheduler) (ref : nat) (r : Request) : Scheduler :=
  mkScheduler (max_num_running_reqs s) (max_num_scheduled_tokens s) (max_model_len s)
    (kv_cache_manager s) (<[ref := r]> (objs s)) (requests s) (waiting s) (running s)
    (finished_req_ids s) (_cached_reqs_data s) (max_num_encoder_input_tokens s)
    (encoder_cache_manager s) (encoder_cache s).
Definition with_requests (s : Scheduler) (m : gmap string nat) : Scheduler :=
  mkScheduler (max_num_running_reqs s) (max_num_scheduled_tokens s) (max_model_len s)
    (kv_cache_manager s) (objs s) m (waiting s) (running s) (finished_req_ids s)
    (_cached_reqs_data s) (max_num_encoder_input_tokens s) (encoder_cache_manager s)
    (encoder_cache s).
Definition with_queues (s : Scheduler) (wait run : list nat) : Scheduler :=
  mkScheduler (max_num_running_reqs s) (max_num_scheduled_tokens s) (max_model_len s)
    (kv_cache_manager s) (objs s) (requests s) wait run (finished_req_ids s)
    (_cached_reqs_data s) (max_num_encoder_input_tokens s) (encoder_cache_manager s)
    (encoder_cache s).
Definition with_finished (s : Scheduler) (f : gset string) : Scheduler :=
  mkScheduler (max_num_running_reqs s) (max_num_scheduled_tokens s) (max_model_len s)
    (kv_cache_manager s) (objs s) (requests s) (waiting s) (running s) f
    (_cached_reqs_data s) (max_num_encoder_input_tokens s) (encoder_cache_manager s)
    (encoder_cache s).
Definition with_cached_data (s : Scheduler) (c : gmap string CachedRequestData) : Scheduler :=
  mkScheduler (max_num_running_reqs s) (max_num_scheduled_tokens s) (max_model_len s)
    (kv_cache_manager s) (objs s) (requests s) (waiting s) (running s) (finished_req_ids s) c
    (max_num_encoder_input_tokens s) (encoder_cache_manager s) (encoder_cache s).
Definition with_ecm (s : Scheduler) (e : EncoderCacheManager) : Scheduler :=
  mkScheduler (max_num_running_reqs s) (max_num_scheduled_tokens s) (max_model_len s)
    (kv_cache_manager s) (objs s) (requests s) (waiting s) (running s) (finished_req_ids s)
    (_cached_reqs_data s) (max_num_encoder_input_tokens s) e (encoder_cache s).
Definition with_encoder_cache (s : Scheduler) (c : gmap string (gmap nat nat)) : Scheduler :=
  mkScheduler (max_num_running_reqs s) (max_num_scheduled_tokens s) (max_model_len s)
    (kv_cache_manager s) (objs s) (requests s) (waiting s) (running s) (finished_req_ids s)
    (_cached_reqs_data s) (max_num_encoder_input_tokens s) (encoder_cache_manager s) c.

(** The object behind a reference. *)
Definition obj (s : Scheduler) (ref : nat) : Request := objs s !!! ref.

(** [__init__], after [assert isinstance(num_gpu_blocks, int) and num_gpu_blocks > 0];
    the encoder budgets are those of [compute_encoder_budget]. *)
Definition scheduler_init (max_num_seqs max_num_batched_tokens max_model_len : Z)
    (num_gpu_blocks block_size : Z) (sliding_window : option Z) (enable_prefix_caching : bool)
    (budgets : Z * Z) (enc : gmap string (gmap nat nat)) : result Scheduler :=
  _ ← py_assert (0 <? num_gpu_blocks);
  kv ← kv_init block_size num_gpu_blocks max_model_len sliding_window enable_prefix_caching 64;
  Ok (mkScheduler max_num_seqs max_num_batched_tokens max_model_len kv ∅ ∅ [] [] ∅ ∅
        budgets.1 (ecm_init budgets.2) enc).

(** ** Encoder inputs *)

(** The [for i, pos_info in enumerate(mm_positions)] loop. *)
Fixpoint try_encoder_loop (s : Scheduler) (r : Request) (l : list PlaceholderRange) (i : nat)
    (num_computed num_new budget : Z) (acc : list nat) : result (list nat * Z * Z) :=
  match l with
  | [] => Ok (acc, num_new, budget)
  | p :: l =>
      let start_pos := offset p in
      let num_encoder_tokens := length_ p in
      (* the tokens just before an input that cannot be used yet *)
      let cut := if num_computed <? start_pos then start_pos - num_computed else 0 in
      if num_computed + num_new <=? start_pos then Ok (acc, num_new, budget)
      else if start_pos + num_encoder_tokens <=? num_computed
      then try_encoder_loop s r l (S i) num_computed num_new budget acc
      else if has_cache (encoder_cache_manager s) r i
      then try_encoder_loop s r l (S i) num_computed num_new budget acc
      else
        can ← can_allocate (encoder_cache_manager s) r i;
        if negb can || (budget <? num_encoder_tokens) then Ok (acc, cut, budget)
        else if bool_decide (is_Some (encoder_cache s !! request_id r ≫= (.!! i))) then
          try_encoder_loop s r l (S i) num_computed num_new (budget - num_encoder_tokens)
            (acc ++ [i])
        else Ok (acc, cut, budget)
  end.

Definition _try_schedule_encoder_inputs (s : Scheduler) (r : Request)
    (num_computed num_new budget : Z) : result (list nat * Z * Z) :=
  if negb (has_encoder_inputs r) then Ok ([], num_new, budget)
  else
    _ ← py_assert (0 <? len (mm_positions r));
    try_encoder_loop s r (mm_positions r) 0 num_computed num_new budget [].

(** [for i in encoder_inputs_to_schedule: self.encoder_cache_manager.allocate(...)] *)
Definition allocate_encoder (s : Scheduler) (r : Request) (ids : list nat) : result Scheduler :=
  e ← for_each (fun i e => allocate e r i) ids (encoder_cache_manager s);
  Ok (with_ecm s e).

(** ** The local variables of [schedule] *)

Record sched_vars : Type := mkVars {
  v_new : list nat;
  v_resumed : list nat;
  v_running : list nat;
  v_preempted : list nat;
  v_block_ids : gmap string (list nat);
  v_tokens : gmap string Z;
  v_token_budget : Z;
  v_encoder : gmap string (list nat);
  v_encoder_budget : Z;
}.

(** The end of both loop bodies: record the scheduled tokens and encoder inputs. *)
Definition record_tokens (v : sched_vars) (rid : string) (blocks : list nat) (n : Z)
    (enc : list nat) (new_budget : Z) : sched_vars :=
  mkVars (v_new v) (v_resumed v) (v_running v) (v_preempted v)
    (<[rid := blocks]> (v_block_ids v)) (<[rid := n]> (v_tokens v)) (v_token_budget v - n)
    (if bool_decide (enc = []) then v_encoder v else <[rid := enc]> (v_encoder v))
    (if bool_decide (enc = []) then v_encoder_budget v else new_budget).

Definition add_new (v : sched_vars) (ref : nat) : sched_vars :=
  mkVars (v_new v ++ [ref]) (v_resumed v) (v_running v) (v_preempted v) (v_block_ids v)
    (v_tokens v) (v_token_budget v) (v_encoder v) (v_encoder_budget v).
Definition add_resumed (v : sched_vars) (ref : nat) : sched_vars :=
  mkVars (v_new v) (v_resumed v ++ [ref]) (v_running v) (v_preempted v) (v_block_ids v)
    (v_tokens v) (v_token_budget v) (v_encoder v) (v_encoder_budget v).
Definition add_running (v : sched_vars) (ref : nat) : sched_vars :=
  mkVars (v_new v) (v_resumed v) (v_running v ++ [ref]) (v_preempted v) (v_block_ids v)
    (v_tokens v) (v_token_budget v) (v_encoder v) (v_encoder_budget v).
Definition add_preempted (v : sched_vars) (refs : list nat) : sched_vars :=
  mkVars (v_new v) (v_resumed v) (v_running v) (v_preempted v ++ refs) (v_block_ids v)
    (v_tokens v) (v_token_budget v) (v_encoder v) (v_encoder_budget v).

Section schedule.
Context `{PyHash}.

(** ** Running requests *)

(** Preempt the last running request: [self.running.pop()] and its cleanup. *)
Definition preempt_last (s : Scheduler) : result (Scheduler * nat) :=
  p ← or_raise IndexError (last (running s));
  kv ← free (kv_cache_manager s) (obj s p);
  let r := set_num_computed_tokens 0 (set_status PREEMPTED (obj s p)) in
  let s := with_obj (with_kv s kv) p r in
  Ok (with_queues s (p :: waiting s) (removelast (running s)), p).

(** The [while True] loop around [allocate_slots]; the result lists the preempted
    requests and the new blocks, [None] when the request itself was preempted. *)
Fixpoint alloc_or_preempt (fuel : nat) (s : Scheduler) (ref : nat) (n : Z)
    (preempted : list nat) : result (Scheduler * list nat * option (list nat)) :=
  match fuel with
  | O => Err OutOfFuel
  | S fuel =>
      '(kv, r, o) ← allocate_slots (kv_cache_manager s) (obj s ref) n [];
      let s := with_obj (with_kv s kv) ref r in
      match o with
      | Some blocks => Ok (s, preempted, Some blocks)
      | None =>
          '(s, p) ← preempt_last s;
          if decide (p = ref) then Ok (s, preempted ++ [p], None)
          else alloc_or_preempt fuel s ref n (preempted ++ [p])
      end
  end.

Fixpoint schedule_running (fuel : nat) (s : Scheduler) (v : sched_vars) (idx : nat) :
    result (Scheduler * sched_vars) :=
  match running s !! idx with
  | None => Ok (s, v)
  | Some ref =>
      if v_token_budget v <=? 0 then Ok (s, v)
      else
        match fuel with
        | O => Err OutOfFuel
        | S fuel =>
            let r := obj s ref in
            let num_new := Z.min (num_tokens r - num_computed_tokens r) (v_token_budget v) in
            _ ← py_assert (0 <? num_new);
            '(enc, num_new, new_budget) ←
              _try_schedule_encoder_inputs s r (num_computed_tokens r) num_new
                (v_encoder_budget v);
            if num_new =? 0 then schedule_running fuel s v (S idx)
            else
              '(s, pre, o) ← alloc_or_preempt (length (running s)) s ref num_new [];
              let v := add_preempted v pre in
              match o with
              | None => Ok (s, v)
              | Some blocks =>
                  let v := record_tokens (add_running v ref) (request_id r) blocks num_new
                             enc new_budget in
                  s ← allocate_encoder s r enc;
                  schedule_running fuel s v (S idx)
              end
        end
  end.

(** ** Waiting requests *)

(** The cached blocks of the first waiting request and its number of new tokens;
    when every token is cached, the last block is recomputed. *)
Definition waiting_lookup (s : Scheduler) (ref : nat) :
    result (Scheduler * list nat * Z * Z) :=
  '(r, computed, num_computed) ← get_computed_blocks (kv_cache_manager s) (obj s ref);
  let s := with_obj s ref r in
  let num_new := num_tokens r - num_computed in
  if num_new =? 0 then
    _ ← or_raise IndexError (last computed);
    Ok (s, removelast computed, num_computed - block_size (kv_cache_manager s),
        block_size (kv_cache_manager s))
  else Ok (s, computed, num_computed, num_new).

(** The loop body for the first waiting request; [false] stands for [break]. *)
Definition schedule_waiting_one (s : Scheduler) (v : sched_vars) (ref : nat) (rest : list nat) :
    result (Scheduler * sched_vars * bool) :=
  '(s, computed, num_computed, num_new) ← waiting_lookup s ref;
  let num_new := Z.min num_new (v_token_budget v) in
  _ ← py_assert (0 <? num_new);
  '(enc, num_new, new_budget) ←
    _try_schedule_encoder_inputs s (obj s ref) num_computed num_new (v_encoder_budget v);
  if num_new =? 0 then Ok (s, v, false)
  else
    '(kv, r, o) ← allocate_slots (kv_cache_manager s) (obj s ref) num_new computed;
    let s := with_obj (with_kv s kv) ref r in
    match o with
    | None => Ok (s, v, false)
    | Some blocks =>
        let s := with_queues s rest (running s ++ [ref]) in
        v ← match status r with
            | WAITING => Ok (add_new v ref)
            | PREEMPTED => Ok (add_resumed v ref)
            | _ => Err RuntimeError
            end;
        let v := record_tokens v (request_id r) (computed ++ blocks) num_new enc new_budget in
        let r := set_num_computed_tokens num_computed (set_status RUNNING r) in
        let s := with_obj s ref r in
        s ← allocate_encoder s r enc;
        Ok (s, v, true)
    end.

Fixpoint schedule_waiting (fuel : nat) (s : Scheduler) (v : sched_vars) :
    result (Scheduler * sched_vars) :=
  match waiting s with
  | [] => Ok (s, v)
  | ref :: rest =>
      if v_token_budget v <=? 0 then Ok (s, v)
      else if len (running s) =? max_num_running_reqs s then Ok (s, v)
      else
        match fuel with
        | O => Err OutOfFuel
        | S fuel =>
            '(s, v, admitted) ← schedule_waiting_one s v ref rest;
            if (admitted : bool) then schedule_waiting fuel s v else Ok (s, v)
        end
  end.
End schedule.

(** ** Building the output *)

Definition _make_cached_request_data (s : Scheduler) (r : Request) (new_block_ids : list nat)
    (n : Z) (resumed : bool) : Scheduler * CachedRequestData :=
  let d := match _cached_reqs_data s !! request_id r with
           | Some d => mkCachedRequestData (crd_req_id d) resumed new_block_ids n
           | None => CachedRequestData_from_request r resumed new_block_ids n
           end in
  (with_cached_data s (<[request_id r := d]> (_cached_reqs_data s)), d).

Fixpoint cached_data_list (s : Scheduler) (refs : list nat) (ids : gmap string (list nat))
    (resumed : bool) : result (Scheduler * list CachedRequestData) :=
  match refs with
  | [] => Ok (s, [])
  | ref :: refs =>
      let r := obj s ref in
      bl ← or_raise KeyError (ids !! request_id r);
      let '(s, d) := _make_cached_request_data s r bl (num_computed_tokens r) resumed in
      '(s, l) ← cached_data_list s refs ids resumed;
      Ok (s, d :: l)
  end.

Fixpoint new_data_list (s : Scheduler) (refs : list nat) (ids : gmap string (list nat)) :
    result (list NewRequestData) :=
  match refs with
  | [] => Ok []
  | ref :: refs =>
      let r := obj s ref in
      bl ← or_raise KeyError (ids !! request_id r);
      l ← new_data_list s refs ids;
      Ok (NewRequestData_from_request r bl (num_computed_tokens r) :: l)
  end.

(** [sum(num_scheduled_tokens.values())] *)
Definition sum_tokens (m : gmap string Z) : Z := map_fold (fun _ n acc => n + acc) 0 m.

(** The end of [schedule]: the assertions and the output. *)
Definition schedule_output (s : Scheduler) (v : sched_vars) : result (Scheduler * SchedulerOutput) :=
  let total := sum_tokens (v_tokens v) in
  _ ← py_assert (total <=? max_num_scheduled_tokens s);
  _ ← py_assert (0 <=? v_token_budget v);
  _ ← py_assert (len (running s) <=? max_num_running_reqs s);
  _ ← py_assert (len (v_new v) + len (v_resumed v) + len (v_running v) <=? len (running s));
  '(s, common) ←
    match running s with
    | [] => Ok (s, 0)
    | ref :: _ =>
        '(kv, c) ← get_num_common_prefix_blocks (kv_cache_manager s) (obj s ref) (len (running s));
        Ok (with_kv s kv, c)
    end;
  new_data ← new_data_list s (v_new v) (v_block_ids v);
  '(s, resumed_data) ← cached_data_list s (v_resumed v) (v_block_ids v) true;
  '(s, running_data) ← cached_data_list s (v_running v) (v_block_ids v) false;
  let '(e, freed_ids) := get_freed_ids (encoder_cache_manager s) in
  let out := mkSchedulerOutput new_data (resumed_data ++ running_data) (v_tokens v) total
               (v_encoder v) common (finished_req_ids s) freed_ids in
  Ok (with_finished (with_ecm s e) ∅, out).

Definition schedule `{PyHash} (s : Scheduler) : result (Scheduler * SchedulerOutput) :=
  let v := mkVars [] [] [] [] ∅ ∅ (max_num_scheduled_tokens s) ∅
             (max_num_encoder_input_tokens s) in
  '(s, v) ← schedule_running (length (running s)) s v 0;
  '(s, v) ← (if bool_decide (v_preempted v = [])
             then schedule_waiting (length (waiting s)) s v
             else Ok (s, v));
  schedule_output s v.

(** ** Updating from the model's output *)

(** [vllm/v1/outputs.py]; the log-probability tensors are not read here. *)
Record ModelRunnerOutput : Type := mkModelRunnerOutput {
  mro_req_ids : list string;
  req_id_to_index : gmap string nat;
  sampled_token_ids : list Z;
}.

Definition _check_stop (s : Scheduler) (r : Request) : result (Request * bool) :=
  if (max_model_len s <=? num_tokens r) || (max_tokens r <=? num_output_tokens r)
  then Ok (set_status FINISHED_LENGTH_CAPPED r, true)
  else
    last_token_id ← or_raise IndexError (last (output_token_ids r));
    if negb (ignore_eos (sampling_params r)) && bool_decide (eos_token_id r = Some last_token_id)
    then Ok (set_status FINISHED_STOPPED r, true)
    else if bool_decide (last_token_id ∈ default [] (stop_token_ids (sampling_params r)))
    then Ok (set_stop_reason (Some (stop_int last_token_id)) (set_status FINISHED_STOPPED r), true)
    else Ok (r, false).

Definition _free_request (s : Scheduler) (r : Request) : result Scheduler :=
  _ ← py_assert (is_finished r);
  kv ← free (kv_cache_manager s) r;
  let s := with_kv s kv in
  e ← ecm_free (encoder_cache_manager s) r;
  let s := with_ecm s e in
  let s := with_cached_data s (delete (request_id r) (_cached_reqs_data s)) in
  _ ← or_raise KeyError (requests s !! request_id r);
  let s := with_requests s (delete (request_id r) (requests s)) in
  Ok (with_finished s ({[request_id r]} ∪ finished_req_ids s)).

(** Release the encoder inputs whose tokens are all in the KV cache now. *)
Definition release_consumed (r : Request) (i : nat) (e : EncoderCacheManager) :
    result EncoderCacheManager :=
  p ← or_raise IndexError (mm_positions r !! i);
  if offset p + length_ p <=? num_computed_tokens r then free_encoder_input e r i else Ok e.

(** The request caught up with its tokens: take the sampled token, check for a stop
    and build the output. *)
Definition sample_request (out : ModelRunnerOutput) (ref : nat) (r : Request) (s : Scheduler) :
    result (Scheduler * bool * option EngineCoreOutput) :=
  let req_id := request_id r in
  idx ← or_raise KeyError (req_id_to_index out !! req_id);
  token_id ← or_raise IndexError (sampled_token_ids out !! idx);
  let r := append_output_token_ids [token_id] r in
  '(r, stopped) ← _check_stop s r;
  let s := with_obj s ref r in
  s ← (if (stopped : bool) then _free_request s r else Ok s);
  let o := mkEngineCoreOutput req_id
             (drop (length (output_token_ids r) - 1) (output_token_ids r))
             (is_finished r) (get_finished_reason r) (stop_reason r) in
  Ok (s, negb stopped, Some o).

(** One iteration of the loop over [self.running]: the new state, whether the
    request stays in [running], and its output. *)
Definition update_request (num_scheduled : gmap string Z) (out : ModelRunnerOutput) (ref : nat)
    (s : Scheduler) : result (Scheduler * bool * option EngineCoreOutput) :=
  let r := obj s ref in
  let n := default 0 (num_scheduled !! request_id r) in
  if n =? 0 then Ok (s, true, None)
  else
    let r := set_num_computed_tokens (num_computed_tokens r + n) r in
    let s := with_obj s ref r in
    _ ← py_assert (num_computed_tokens r <=? num_tokens r);
    e ← for_each (release_consumed r) (elements (get_cached_input_ids (encoder_cache_manager s) r))
          (encoder_cache_manager s);
    let s := with_ecm s e in
    if num_computed_tokens r =? num_tokens r then sample_request out ref r s
    else Ok (s, true, None).

Fixpoint update_loop (num_scheduled : gmap string Z) (out : ModelRunnerOutput) (refs : list nat)
    (s : Scheduler) (new_running : list nat) (outs : list EngineCoreOutput) :
    result (Scheduler * list nat * list EngineCoreOutput) :=
  match refs with
  | [] => Ok (s, new_running, outs)
  | ref :: refs =>
      '(s, keep, o) ← update_request num_scheduled out ref s;
      update_loop num_scheduled out refs s
        (if (keep : bool) then new_running ++ [ref] else new_running)
        (outs ++ match o with Some x => [x] | None => [] end)
  end.

Definition make_stats (s : Scheduler) : SchedulerStats :=
  mkSchedulerStats (len (running s)) (len (waiting s)) (usage (kv_cache_manager s)).

Definition update_from_output (s : Scheduler) (so : SchedulerOutput) (out : ModelRunnerOutput) :
    result (Scheduler * EngineCoreOutputs) :=
  '(s, new_running, outs) ← update_loop (num_scheduled_tokens so) out (running s) s [] [];
  let s := with_queues s (waiting s) new_running in
  Ok (s, mkEngineCoreOutputs outs (make_stats s)).

(** ** Adding and finishing requests *)

(** A new request object is allocated on the heap, then added. *)
Definition new_ref (s : Scheduler) : nat := fresh (dom (objs s)).
Definition add_request (s : Scheduler) (r : Request) : Scheduler :=
  let ref := new_ref s in
  let s := with_queues (with_obj s ref r) (waiting s ++ [ref]) (running s) in
  with_requests s (<[request_id r := ref]> (requests s)).

Definition finish_request (finished_status : RequestStatus) (req_id : string) (s : Scheduler) :
    result Scheduler :=
  match requests s !! req_id with
  | None => Ok s
  | Some ref =>
      let r := obj s ref in
      s ← (if decide (status r = RUNNING)
           then l ← or_raise ValueError (remove_first (Nat.eqb ref) (running s));
                Ok (with_queues s (waiting s) l)
           else l ← or_raise ValueError (remove_first (Nat.eqb ref) (waiting s));
                Ok (with_queues s l (running s)));
      let r := set_status finished_status r in
      _free_request (with_obj s ref r) r
  end.

Definition finish_requests (s : Scheduler) (request_ids : list string)
    (finished_status : RequestStatus) : result Scheduler :=
  _ ← py_assert (status_is_finished finished_status);
  for_each (finish_request finished_status) (elements (list_to_set request_ids : gset string)) s.

Definition get_num_unfinished_requests (s : Scheduler) : Z := len (waiting s) + len (running s).
Definition has_unfinished_requests (s : Scheduler) : bool := 0 <? get_num_unfinished_requests s.

Definition scheduler_reset_prefix_cache (s : Scheduler) : Scheduler * bool :=
  let '(kv, b) := reset_prefix_cache (kv_cache_manager s) in (with_kv s kv, b).
