(* ===== verification/SchedulerInv.v ===== *)
(** * The scheduler invariant

    [sched_inv] relates the request objects, the two queues and the KV-cache
    manager: waiting requests own no block, running requests own enough blocks
    for their computed tokens, request ids are distinct, and the encoder cache
    only mentions live requests.  This file shows that every building block of
    [schedule] keeps it and does not raise; [SchedulerTheorems] composes them. *)

From stdpp Require Import base tactics list gmap sets strings.
From Stdlib Require Import ZArith QArith Lia.
From S2P Require Import Prelude.
From S2P Require Import SamplingParams.
From S2P Require Import Request.
From S2P Require Import BlockQueue.
From S2P Require Import BlockHash.
From S2P Require Import KVCacheManager.
From S2P Require Import KVCacheInv.
From S2P Require Import KVAlloc.
From S2P Require Import KVTheorems.
From S2P Require Import EncoderCache.
From S2P Require Import Scheduler.

Local Open Scope Z_scope.

(** ** What may change in a request while it is scheduled *)

Definition req_core (r : Request) : Request :=
  set_kv_block_hashes [] (set_num_computed_tokens 0 (set_status WAITING r)).

Lemma req_core_id r r' : req_core r' = req_core r -> request_id r' = request_id r.
Proof. intros E. exact (f_equal request_id E). Qed.
Lemma req_core_tokens r r' : req_core r' = req_core r -> num_tokens r' = num_tokens r.
Proof. intros E. exact (f_equal num_tokens E). Qed.
Lemma req_core_mm r r' : req_core r' = req_core r -> mm_positions r' = mm_positions r.
Proof. intros E. exact (f_equal mm_positions E). Qed.
Lemma req_core_mm_ok r r' : req_core r' = req_core r -> mm_ok r -> mm_ok r'.
Proof.
  intros E. unfold mm_ok. rewrite (req_core_mm _ _ E). by rewrite (f_equal mm_hashes E : mm_hashes r' = _).
Qed.
Lemma req_core_wf r r' : req_core r' = req_core r -> request_wf r -> request_wf r'.
Proof.
  intros E []. pose proof (f_equal mm_inputs E : mm_inputs r' = mm_inputs r).
  pose proof (f_equal mm_hashes E : mm_hashes r' = mm_hashes r).
  pose proof (f_equal all_token_ids E : all_token_ids r' = all_token_ids r).
  pose proof (f_equal prompt_token_ids E : prompt_token_ids r' = prompt_token_ids r).
  pose proof (f_equal output_token_ids E : output_token_ids r' = output_token_ids r).
  pose proof (f_equal num_prompt_tokens E : num_prompt_tokens r' = num_prompt_tokens r).
  pose proof (req_core_mm _ _ E). split; congruence.
Qed.

(** ** Conditions on one request *)

Record req_ok (mml bs : Z) (r : Request) : Prop := {
  ro_wf : request_wf r;
  ro_mm : mm_ok r;
  ro_pos : 0 < num_tokens r;
  ro_max : num_tokens r <= mml;
  ro_hashes : len (kv_block_hashes r) * bs <= num_tokens r;
  ro_places : ∀ p, p ∈ mm_positions r -> offset p + length_ p <= num_tokens r;
}.

Definition wait_ok (m : KVCacheManager) (r : Request) : Prop :=
  (status r = WAITING ∨ status r = PREEMPTED) ∧ num_computed_tokens r = 0 ∧
  default [] (req_to_blocks m !! request_id r) = [].

(** The blocks of [r] hold its first [c] tokens, and every full block among them
    is in the prefix cache. *)
Definition run_ok (m : KVCacheManager) (r : Request) (c : Z) : Prop :=
  ∃ bl k, req_to_blocks m !! request_id r = Some bl ∧
    c <= len bl * block_size m ∧ len bl <= max_num_blocks_per_req m ∧
    (enable_caching m = true -> hashed_prefix m bl k ∧ c / block_size m <= Z.of_nat k ∧
      (k <= length (kv_block_hashes r))%nat).

Definition running_ok (m : KVCacheManager) (r : Request) : Prop :=
  status r = RUNNING ∧ 0 <= num_computed_tokens r < num_tokens r ∧
  run_ok m r (num_computed_tokens r).

(** ** Changes of the KV-cache manager on behalf of one request *)

Record kv_keeps (rid : string) (m m' : KVCacheManager) : Prop := {
  kk_frame : kv_frame m m';
  kk_reqs : ∀ rid', rid' ≠ rid -> req_to_blocks m' !! rid' = req_to_blocks m !! rid';
  kk_hash : ∀ rid' bl b, rid' ≠ rid -> req_to_blocks m !! rid' = Some bl -> b ∈ bl ->
    block_hash (blk m' b) = block_hash (blk m b);
}.

Lemma run_ok_mono m r c c' : 0 < block_size m -> c' <= c -> run_ok m r c -> run_ok m r c'.
Proof.
  intros Hbs Hc (bl & k & H1 & H2 & H3 & H4). exists bl, k. split_and!; [done|lia|done|].
  intros Hen. destruct (H4 Hen) as (? & ? & ?). split_and!; [done| |done].
  pose proof (Z.div_le_mono c' c (block_size m) Hbs Hc). lia.
Qed.

Lemma run_ok_keep rid m m' r c :
  kv_keeps rid m m' -> request_id r ≠ rid -> run_ok m r c -> run_ok m' r c.
Proof.
  intros [F R H] Hne (bl & k & H1 & H2 & H3 & H4).
  exists bl, k. rewrite (kf_bs _ _ F), (kf_max _ _ F), (kf_cache _ _ F), (R _ Hne).
  split_and!; [done..|]. intros Hen. destruct (H4 Hen) as (Hp & ? & ?). split_and!; [|done..].
  eapply hashed_prefix_ext; [|exact Hp]. intros b Hb. unfold hashed. by rewrite (H _ _ _ Hne H1 Hb).
Qed.

Lemma wait_ok_keep rid m m' r :
  kv_keeps rid m m' -> request_id r ≠ rid -> wait_ok m r -> wait_ok m' r.
Proof. intros K Hne (? & ? & ?). unfold wait_ok. by rewrite (kk_reqs _ _ _ K _ Hne). Qed.

Lemma running_ok_keep rid m m' r :
  kv_keeps rid m m' -> request_id r ≠ rid -> running_ok m r -> running_ok m' r.
Proof. intros K Hne (? & ? & ?). split; [done|]. split; [done|]. by eapply run_ok_keep. Qed.

(** ** The queues *)

Record queues_ok (mml : Z) (m : KVCacheManager) (o : nat -> Request) (wait run : list nat) :
    Prop := {
  qo_nodup : NoDup (wait ++ run);
  qo_ids : ∀ x y, x ∈ wait ++ run -> y ∈ wait ++ run -> request_id (o x) = request_id (o y) -> x = y;
  qo_req : ∀ x, x ∈ wait ++ run -> req_ok mml (block_size m) (o x);
  qo_wait : ∀ x, x ∈ wait -> wait_ok m (o x);
  qo_run : ∀ x, x ∈ run -> running_ok m (o x);
  qo_owned : ∀ rid bl, req_to_blocks m !! rid = Some bl -> bl ≠ [] ->
    ∃ x, x ∈ run ∧ request_id (o x) = rid;
}.

(** One request [ref] changes, possibly its place too; the others stay. *)
Lemma queues_ok_update mml m m' o o' wait run wait' run' ref :
  queues_ok mml m o wait run ->
  kv_keeps (request_id (o ref)) m m' ->
  (∀ x, x ≠ ref -> o' x = o x) -> request_id (o' ref) = request_id (o ref) ->
  req_ok mml (block_size m) (o' ref) ->
  ref ∈ wait ++ run -> wait' ++ run' ≡ₚ wait ++ run ->
  (∀ x, x ≠ ref -> x ∈ wait' <-> x ∈ wait) -> (∀ x, x ≠ ref -> x ∈ run' <-> x ∈ run) ->
  (ref ∈ wait' -> wait_ok m' (o' ref)) -> (ref ∈ run' -> running_ok m' (o' ref)) ->
  queues_ok mml m' o' wait' run'.
Proof.
  intros [Hnd Hids Hreq Hw Hr Hown] K Ho Hidr Hok Href Hperm Hwait Hrun HW HR.
  assert (Hid : ∀ x, request_id (o' x) = request_id (o x)).
  { intros x. destruct (decide (x = ref)) as [->|Hx]; [done|by rewrite Ho]. }
  assert (Hne : ∀ x, x ∈ wait ++ run -> x ≠ ref -> request_id (o x) ≠ request_id (o ref)).
  { intros x Hx Hxr E. by apply Hxr, Hids. }
  split.
  - by rewrite Hperm.
  - intros x y. rewrite Hperm, !Hid. apply Hids.
  - intros x. rewrite Hperm. intros Hx. rewrite (kf_bs _ _ (kk_frame _ _ _ K)).
    destruct (decide (x = ref)) as [->|Hxr]; [done|rewrite Ho by done; by apply Hreq].
  - intros x Hx. destruct (decide (x = ref)) as [->|Hxr]; [by apply HW|].
    rewrite Ho by done. apply Hwait in Hx; [|done].
    eapply wait_ok_keep; [done| |by apply Hw]. apply Hne; [set_solver|done].
  - intros x Hx. destruct (decide (x = ref)) as [->|Hxr]; [by apply HR|].
    rewrite Ho by done. apply Hrun in Hx; [|done].
    eapply running_ok_keep; [done| |by apply Hr]. apply Hne; [set_solver|done].
  - intros rid bl Hbl Hbn. destruct (decide (rid = request_id (o ref))) as [->|Hrid].
    + exists ref. split; [|apply Hid].
      assert (Hin : ref ∈ wait' ++ run') by by rewrite Hperm.
      apply elem_of_app in Hin as [Hin|Hin]; [|done].
      destruct (HW Hin) as (_ & _ & E). rewrite Hid, Hbl in E. by simpl in E.
    + rewrite (kk_reqs _ _ _ K _ Hrid) in Hbl. destruct (Hown _ _ Hbl Hbn) as (x & Hx & E).
      exists x. rewrite Hid. split; [|done]. apply Hrun; [|done]. congruence.
Qed.

(** The case of [schedule]: only the status, the computed tokens and the block
    hashes change. *)
Lemma queues_ok_change mml m m' o o' wait run wait' run' ref :
  queues_ok mml m o wait run ->
  kv_keeps (request_id (o ref)) m m' ->
  (∀ x, x ≠ ref -> o' x = o x) -> req_core (o' ref) = req_core (o ref) ->
  len (kv_block_hashes (o' ref)) * block_size m <= num_tokens (o ref) ->
  ref ∈ wait ++ run -> wait' ++ run' ≡ₚ wait ++ run ->
  (∀ x, x ≠ ref -> x ∈ wait' <-> x ∈ wait) -> (∀ x, x ≠ ref -> x ∈ run' <-> x ∈ run) ->
  (ref ∈ wait' -> wait_ok m' (o' ref)) -> (ref ∈ run' -> running_ok m' (o' ref)) ->
  queues_ok mml m' o' wait' run'.
Proof.
  intros Q K Ho Hcore Hh Href. eapply queues_ok_update; try done; [by apply req_core_id|].
  destruct (qo_req _ _ _ _ _ Q ref Href). pose proof (req_core_tokens _ _ Hcore) as Et.
  split; rewrite ?Et, ?(req_core_mm _ _ Hcore); try done.
  - by eapply req_core_wf.
  - by eapply req_core_mm_ok.
Qed.

(** One request leaves the queues and its blocks are released. *)
Lemma queues_ok_remove mml m m' o o' wait run wait' run' ref :
  queues_ok mml m o wait run ->
  kv_keeps (request_id (o ref)) m m' -> req_to_blocks m' !! request_id (o ref) = None ->
  (∀ x, x ≠ ref -> o' x = o x) -> wait ++ run ≡ₚ ref :: wait' ++ run' ->
  (∀ x, x ≠ ref -> x ∈ wait' <-> x ∈ wait) -> (∀ x, x ≠ ref -> x ∈ run' <-> x ∈ run) ->
  queues_ok mml m' o' wait' run'.
Proof.
  intros [Hnd Hids Hreq Hw Hr Hown] K Hnone Ho Hperm Hwait Hrun.
  rewrite Hperm in Hnd. apply NoDup_cons in Hnd as [Hnin Hnd].
  assert (Hx' : ∀ x, x ∈ wait' ++ run' -> x ≠ ref ∧ x ∈ wait ++ run ∧
    request_id (o x) ≠ request_id (o ref)).
  { intros x Hx. assert (x ≠ ref) by (by intros ->).
    assert (x ∈ wait ++ run) by (rewrite Hperm; by right).
    split_and!; try done. intros E. assert (x = ref); [|done].
    apply Hids; [done| |done]. rewrite Hperm. by left. }
  split; try done.
  - intros x y Hx Hy. destruct (Hx' x Hx) as (? & ? & _), (Hx' y Hy) as (? & ? & _).
    rewrite !Ho by done. by apply Hids.
  - intros x Hx. destruct (Hx' x Hx) as (? & ? & _). rewrite Ho, (kf_bs _ _ (kk_frame _ _ _ K)) by done.
    by apply Hreq.
  - intros x Hx. destruct (Hx' x ltac:(set_solver)) as (? & ? & ?). rewrite Ho by done.
    eapply wait_ok_keep; [done..|]. by apply Hw, Hwait.
  - intros x Hx. destruct (Hx' x ltac:(set_solver)) as (? & ? & ?). rewrite Ho by done.
    eapply running_ok_keep; [done..|]. by apply Hr, Hrun.
  - intros rid bl Hbl Hbn. destruct (decide (rid = request_id (o ref))) as [->|Hrid]; [congruence|].
    rewrite (kk_reqs _ _ _ K _ Hrid) in Hbl. destruct (Hown _ _ Hbl Hbn) as (x & Hx & E).
    exists x. assert (x ≠ ref) by congruence. rewrite Ho by done. split; [|done]. by apply Hrun.
Qed.

(** ** The whole scheduler *)

Definition live (s : Scheduler) : list nat := waiting s ++ running s.

(** The encoder cache only holds inputs of live requests. *)
Definition enc_ok (s : Scheduler) : Prop :=
  ∀ rid st, cached (encoder_cache_manager s) !! rid = Some st ->
    st ≠ ∅ ∧ ∃ x, x ∈ live s ∧ request_id (obj s x) = rid ∧
      ∀ i, i ∈ st -> (i < length (mm_positions (obj s x)))%nat.

(** What a step of [schedule] keeps. *)
Record sched_frame (s s' : Scheduler) : Prop := {
  sf_max_run : max_num_running_reqs s' = max_num_running_reqs s;
  sf_max_tok : max_num_scheduled_tokens s' = max_num_scheduled_tokens s;
  sf_mml : max_model_len s' = max_model_len s;
  sf_requests : requests s' = requests s;
  sf_finished : finished_req_ids s' = finished_req_ids s;
  sf_cached : _cached_reqs_data s' = _cached_reqs_data s;
  sf_enc : encoder_cache s' = encoder_cache s;
  sf_live : live s' ≡ₚ live s;
  sf_core : ∀ x, req_core (obj s' x) = req_core (obj s x);
  sf_dom : ∀ x, is_Some (objs s !! x) -> is_Some (objs s' !! x);
  sf_kv : kv_frame (kv_cache_manager s) (kv_cache_manager s');
}.

#[export] Instance sched_frame_preorder : PreOrder sched_frame.
Proof.
  split; [by split|]. intros s1 s2 s3 [] [].
  split; try congruence; [by etransitivity|auto|by etransitivity].
Qed.

(** The configuration, which no operation changes. *)
Record same_limits (s s' : Scheduler) : Prop := {
  sl_max_run : max_num_running_reqs s' = max_num_running_reqs s;
  sl_max_tok : max_num_scheduled_tokens s' = max_num_scheduled_tokens s;
  sl_mml : max_model_len s' = max_model_len s;
  sl_kv : kv_frame (kv_cache_manager s) (kv_cache_manager s');
}.

#[export] Instance same_limits_preorder : PreOrder same_limits.
Proof. split; [by split|]. intros s1 s2 s3 [] []. split; try congruence. by etransitivity. Qed.

Lemma obj_with_obj s ref r x :
  obj (with_obj s ref r) x = if decide (x = ref) then r else obj s x.
Proof.
  unfold obj. simpl. case_decide as E; [subst; by rewrite lookup_total_insert_eq|].
  by rewrite lookup_total_insert_ne.
Qed.

Lemma dom_with_obj s ref r x : is_Some (objs s !! x) -> is_Some (objs (with_obj s ref r) !! x).
Proof.
  simpl. destruct (decide (ref = x)) as [->|?]; [rewrite lookup_insert_eq; by eexists|].
  by rewrite lookup_insert_ne.
Qed.

(** ** Encoder inputs *)

Definition enc_sum (r : Request) (ids : list nat) : Z :=
  foldr (fun i acc => default 0 (length_ <$> mm_positions r !! i) + acc) 0 ids.

(** The result of the loop from position [i] on: the tokens left to schedule, the
    inputs taken, and what the budget pays. *)
Record try_post s r (i : nat) (nc n b : Z) (enc : list nat) (n' b' : Z) : Prop := {
  tp_num : 0 <= n' <= n;
  tp_range : ∀ j, j ∈ enc -> (i <= j < length (mm_positions r))%nat;
  tp_nodup : NoDup enc;
  tp_new : ∀ j, j ∈ enc -> has_cache (encoder_cache_manager s) r j = false;
  tp_ready : ∀ j, j ∈ enc -> is_Some (encoder_cache s !! request_id r ≫= (.!! j));
  tp_fits : ∀ j p, j ∈ enc -> mm_positions r !! j = Some p ->
    length_ p <= num_free_slots (encoder_cache_manager s);
  tp_budget : b' = b - enc_sum r enc;
  tp_paid : enc = [] ∨ 0 <= b';
}.

Lemma try_post_stop s r i nc n b n' : 0 <= n' <= n -> try_post s r i nc n b [] n' b.
Proof.
  intros Hn. split; try set_solver; [constructor|simpl; lia].
Qed.

Lemma try_encoder_loop_spec s r l i nc n b acc :
  drop i (mm_positions r) = l -> 0 <= n ->
  ∃ enc n' b', try_encoder_loop s r l i nc n b acc = Ok (acc ++ enc, n', b') ∧
    try_post s r i nc n b enc n' b'.
Proof.
  revert i b acc. induction l as [|p l IH]; intros i b acc Hl Hn; cbn [try_encoder_loop].
  - exists [], n, b. rewrite app_nil_r. split; [done|]. apply try_post_stop. lia.
  - assert (Hp : mm_positions r !! i = Some p).
    { rewrite <-(Nat.add_0_r i), <-lookup_drop, Hl. done. }
    assert (Hl' : drop (S i) (mm_positions r) = l).
    { replace (S i) with (i + 1)%nat by lia. by rewrite <-drop_drop, Hl. }
    assert (Hskip : ∃ enc n' b', try_encoder_loop s r l (S i) nc n b acc = Ok (acc ++ enc, n', b') ∧
      try_post s r i nc n b enc n' b').
    { destruct (IH (S i) b acc Hl' Hn) as (enc & n' & b' & E & []).
      exists enc, n', b'. split; [done|]. split; try done. intros j Hj. specialize (tp_range0 j Hj). lia. }
    destruct (Z.leb_spec (nc + n) (offset p)) as [Hs|Hs].
    { exists [], n, b. rewrite app_nil_r. split; [done|]. apply try_post_stop. lia. }
    destruct (Z.leb_spec (offset p + length_ p) nc); [done|].
    destruct (has_cache (encoder_cache_manager s) r i) eqn:Hhc; [done|].
    unfold can_allocate, get_num_encoder_tokens. rewrite Hp. cbn [or_raise mbind result_bind].
    assert (Hcut : ∀ e, e = Ok (acc, if nc <? offset p then offset p - nc else 0, b) ->
      ∃ enc n' b', e = Ok (acc ++ enc, n', b') ∧ try_post s r i nc n b enc n' b').
    { intros e ->. eexists [], _, b. rewrite app_nil_r. split; [done|]. apply try_post_stop.
      destruct (Z.ltb_spec nc (offset p)); lia. }
    destruct (Z.leb_spec (length_ p) (num_free_slots (encoder_cache_manager s))); cbn [negb orb];
      [|by apply Hcut].
    destruct (Z.ltb_spec b (length_ p)); [by apply Hcut|].
    case_bool_decide as Henc; [|by apply Hcut].
    destruct (IH (S i) (b - length_ p) (acc ++ [i]) Hl' Hn) as (enc & n' & b' & -> & []).
    exists (i :: enc), n', b'. rewrite <-app_assoc. split; [done|].
    assert (Hi : (i < length (mm_positions r))%nat) by by eapply lookup_lt_Some.
    split; try done.
    + intros j [->|Hj]%elem_of_cons; [lia|]. specialize (tp_range0 j Hj). lia.
    + apply NoDup_cons. split; [|done]. intros Hin. specialize (tp_range0 i Hin). lia.
    + intros j [->|Hj]%elem_of_cons; [done|by apply tp_new0].
    + intros j [->|Hj]%elem_of_cons; [done|by apply tp_ready0].
    + intros j q [->|Hj]%elem_of_cons; [intros; by simplify_eq|by eapply tp_fits0].
    + simpl. rewrite Hp. simpl. lia.
    + right. destruct tp_paid0 as [->|]; [simpl in tp_budget0; lia|done].
Qed.

Lemma try_schedule_spec s r nc n b :
  request_wf r -> 0 <= n ->
  ∃ enc n' b', _try_schedule_encoder_inputs s r nc n b = Ok (enc, n', b') ∧
    try_post s r 0 nc n b enc n' b'.
Proof.
  intros Hwf Hn. unfold _try_schedule_encoder_inputs, has_encoder_inputs.
  rewrite (rwf_mm _ Hwf). destruct (Z.ltb_spec 0 (len (mm_positions r))) as [Hlt|Hge]; cbn [negb].
  - cbn [py_assert mbind result_bind].
    by apply (try_encoder_loop_spec s r (mm_positions r) 0 nc n b []).
  - exists [], n, b. split; [done|]. apply try_post_stop. lia.
Qed.

Section sched_inv.
Context (repr : list KVCacheBlock -> FreeKVCacheBlockQueue -> list nat -> Prop).
Context `{!FreeQueueSpec repr} `{PyHash}.
Abbreviation kv_inv := (kv_inv repr).
Abbreviation kv := kv_cache_manager.
Implicit Types (s : Scheduler) (fl : list nat).

Record sched_inv s fl : Prop := {
  si_kv : kv_inv (kv s) fl [];
  si_queues : queues_ok (max_model_len s) (kv s) (obj s) (waiting s) (running s);
  si_mml : kv_max_model_len (kv s) = max_model_len s;
  si_budget : 0 <= max_num_scheduled_tokens s;
  si_len : len (running s) <= max_num_running_reqs s;
  si_dom : ∀ x, x ∈ live s -> is_Some (objs s !! x);
  si_requests : ∀ rid x, requests s !! rid = Some x <-> x ∈ live s ∧ request_id (obj s x) = rid;
  si_enc : enc_ok s;
}.

(** The parts that follow from the frame. *)
Lemma sched_inv_frame s s' fl fl' :
  sched_inv s fl -> sched_frame s s' -> encoder_cache_manager s' = encoder_cache_manager s ->
  kv_inv (kv s') fl' [] ->
  queues_ok (max_model_len s) (kv s') (obj s') (waiting s') (running s') ->
  len (running s') <= max_num_running_reqs s -> sched_inv s' fl'.
Proof.
  intros [] F Hecm Hkv Hq Hlen. pose proof (sf_core _ _ F) as Hcore.
  assert (Hid : ∀ x, request_id (obj s' x) = request_id (obj s x)) by (intros; by apply req_core_id).
  split; try done.
  - by rewrite (sf_mml _ _ F).
  - by rewrite (kf_mml _ _ (sf_kv _ _ F)), (sf_mml _ _ F).
  - by rewrite (sf_max_tok _ _ F).
  - by rewrite (sf_max_run _ _ F).
  - intros x. rewrite (sf_live _ _ F). intros. by apply (sf_dom _ _ F), si_dom0.
  - intros rid x. rewrite (sf_requests _ _ F), (sf_live _ _ F), Hid. apply si_requests0.
  - intros rid st. rewrite Hecm. intros Hst. destruct (si_enc0 rid st Hst) as (Hne & x & Hx & E & Hi).
    split; [done|]. exists x. rewrite (sf_live _ _ F), Hid, (req_core_mm _ _ (Hcore x)). done.
Qed.

Lemma free_keeps m fl r m' :
  kv_inv m fl [] -> free m r = Ok m' -> kv_keeps (request_id r) m m' ∧
    req_to_blocks m' !! request_id r = None ∧ ∃ fl', kv_inv m' fl' [].
Proof.
  intros Hi Hf. destruct (free_spec repr m fl r Hi) as (m1 & freed & E & Hi1 & F & R & _ & HH & _).
  rewrite Hf in E. injection E as <-. split; [split; [done|..]|split; [|by eexists]].
  - intros rid' Hne. by rewrite R, lookup_delete_ne.
  - intros rid' bl b _ Hbl Hb. apply HH. by eapply (req_block_range repr m fl).
  - by rewrite R, lookup_delete_eq.
Qed.

Lemma read_keeps m fl rid :
  kv_inv m fl [] -> kv_keeps rid m (read_req_blocks m rid).1 ∧
    kv_inv (read_req_blocks m rid).1 fl [] ∧
    default [] (req_to_blocks (read_req_blocks m rid).1 !! rid) =
      default [] (req_to_blocks m !! rid).
Proof.
  intros Hi. destruct (read_req_blocks m rid) as [m' bl] eqn:Hrd.
  destruct (read_req_blocks_spec repr _ _ _ _ _ Hi Hrd) as (-> & Hi' & F & P & _ & _ & R). simpl.
  split_and!; [|done|by rewrite R, lookup_insert_eq]. split; [done|..].
  - intros rid' Hne. by rewrite R, lookup_insert_ne.
  - intros. unfold blk. by rewrite P.
Qed.

Lemma alloc_keeps m fl r n bl ncb nb k m' r' :
  alloc_post repr m fl r n bl ncb nb k m' r' -> kv_keeps (request_id r) m m'.
Proof.
  intros []. split; [done| |done]. intros rid' Hne. by rewrite po_reqs, lookup_insert_ne.
Qed.

(** ** Preemption *)

Lemma preempt_last_spec s fl l p :
  sched_inv s fl -> running s = l ++ [p] ->
  ∃ s' fl', preempt_last s = Ok (s', p) ∧ sched_inv s' fl' ∧ sched_frame s s' ∧
    encoder_cache_manager s' = encoder_cache_manager s ∧
    _cached_reqs_data s' = _cached_reqs_data s ∧
    running s' = l ∧ waiting s' = p :: waiting s ∧
    kv_keeps (request_id (obj s p)) (kv s) (kv s') ∧
    (∀ x, x ≠ p -> obj s' x = obj s x).
Proof.
  intros Hi Hrun. unfold preempt_last. rewrite Hrun, last_snoc. cbn [or_raise mbind result_bind].
  destruct (free_spec repr _ fl (obj s p) (si_kv _ _ Hi)) as (m' & freed & E & _).
  destruct (free_keeps _ _ _ _ (si_kv _ _ Hi) E) as (K & Hnone & fl' & Hi'). rewrite E.
  cbn [mbind result_bind]. cbn [running waiting with_obj with_kv].
  rewrite Hrun, removelast_last. eexists _, fl'. split; [done|].
  set (s' := with_queues _ _ _).
  assert (Hobj : ∀ x, obj s' x = if decide (x = p)
    then set_num_computed_tokens 0 (set_status PREEMPTED (obj s p)) else obj s x).
  { intros x. exact (obj_with_obj (with_kv s m') p _ x). }
  assert (Hlive : (p :: waiting s) ++ l ≡ₚ waiting s ++ running s)
    by (rewrite Hrun; solve_Permutation).
  assert (F : sched_frame s s').
  { split; try done.
    - intros x. rewrite Hobj. by case_decide as E'; [subst|].
    - intros x. apply (dom_with_obj (with_kv s m')).
    - apply K. }
  assert (Hp : p ∈ waiting s ++ running s) by (rewrite Hrun; set_solver).
  pose proof (si_queues _ _ Hi) as Q.
  assert (Hpl : (p ∉ waiting s) ∧ p ∉ l).
  { pose proof (qo_nodup _ _ _ _ _ Q) as Hnd. rewrite Hrun in Hnd.
    apply NoDup_app in Hnd as (_ & Hd & Hnd). apply NoDup_app in Hnd as (_ & Hd' & _).
    split; [intros Hw; apply (Hd p Hw)|intros Hl; apply (Hd' p Hl)]; set_solver. }
  split_and!; try done; [|intros x Hx; by rewrite Hobj, decide_False].
  eapply sched_inv_frame; [done..| |].
  - eapply (queues_ok_change _ (kv s) _ (obj s) _ _ _ _ _ p Q); try done.
    + intros x Hx. by rewrite Hobj, decide_False.
    + by rewrite Hobj, decide_True.
    + rewrite Hobj, decide_True by done. by apply (ro_hashes _ _ _ (qo_req _ _ _ _ _ Q p Hp)).
    + intros x Hx. simpl. rewrite elem_of_cons. naive_solver.
    + intros x Hx. simpl. rewrite Hrun, elem_of_app, list_elem_of_singleton. naive_solver.
    + intros _. rewrite Hobj, decide_True by done. split_and!; [by right|done|].
      simpl. by rewrite Hnone.
    + simpl. intros. naive_solver.
  - simpl. pose proof (si_len _ _ Hi) as Hlen. rewrite Hrun, length_app in Hlen. lia.
Qed.

(** ** Allocating for a running request *)

Lemma running_alloc_pre s fl ref n :
  sched_inv s fl -> ref ∈ running s -> 0 < n ->
  num_computed_tokens (obj s ref) + n <= num_tokens (obj s ref) ->
  ∃ bl k, req_to_blocks (kv s) !! request_id (obj s ref) = Some bl ∧
    alloc_pre (kv s) (obj s ref) n bl [] k.
Proof.
  intros Hi Href Hn Htot. pose proof (si_queues _ _ Hi) as Q.
  destruct (qo_run _ _ _ _ _ Q ref Href) as (_ & Hc & bl & k & Hbl & Hcov & Hlen & Hen).
  destruct (qo_req _ _ _ _ _ Q ref ltac:(set_solver)) as [? Hmm ? Hmax ? ?].
  exists bl, k. split; [done|]. split; try done.
  - by rewrite Hbl.
  - lia.
  - set_solver.
  - by left.
  - simpl. lia.
  - by rewrite (si_mml _ _ Hi).
  - intros Hca. destruct (Hen Hca) as (? & ? & ?). split_and!; try done. simpl. lia.
Qed.

Lemma alloc_running_spec s fl ref n :
  sched_inv s fl -> ref ∈ running s -> 0 < n ->
  num_computed_tokens (obj s ref) + n <= num_tokens (obj s ref) ->
  ∃ m' hs o fl',
    allocate_slots (kv s) (obj s ref) n [] = Ok (m', set_kv_block_hashes hs (obj s ref), o) ∧
    let s' := with_obj (with_kv s m') ref (set_kv_block_hashes hs (obj s ref)) in
    sched_inv s' fl' ∧ sched_frame s s' ∧ kv_keeps (request_id (obj s ref)) (kv s) m' ∧
    (is_Some o -> run_ok m' (obj s' ref) (num_computed_tokens (obj s ref) + n)).
Proof.
  intros Hi Href Hn Htot. pose proof (si_queues _ _ Hi) as Q.
  assert (Hlv : ref ∈ waiting s ++ running s) by set_solver.
  destruct (running_alloc_pre s fl ref n Hi Href Hn Htot) as (bl & k & Hbl & Hap).
  destruct (allocate_slots_spec repr _ fl _ n bl [] k (si_kv _ _ Hi) Hap) as (m' & r' & o & E & Ho).
  assert (∃ hs fl', r' = set_kv_block_hashes hs (obj s ref) ∧ kv_inv m' fl' [] ∧
    kv_keeps (request_id (obj s ref)) (kv s) m' ∧
    len hs * block_size (kv s) <= num_tokens (obj s ref) ∧
    running_ok m' r' ∧
    (is_Some o -> run_ok m' r' (num_computed_tokens (obj s ref) + n)))
    as (hs & fl' & -> & Hi' & K & Hhs & Hrun & Hsome).
  { pose proof (qo_run _ _ _ _ _ Q ref Href) as Hold.
    pose proof (ro_hashes _ _ _ (qo_req _ _ _ _ _ Q ref Hlv)) as Hh0.
    destruct o as [nb|].
    - destruct Ho as [_ Hpost]. pose proof (alloc_keeps _ _ _ _ _ _ _ _ _ _ Hpost) as K.
      destruct Hpost. destruct po_req as (hs & -> & _). exists hs, (drop (length nb) (filter (.∉ []) fl)).
      assert (Hnew : run_ok m' (set_kv_block_hashes hs (obj s ref))
        (num_computed_tokens (obj s ref) + n)).
      { exists (bl ++ [] ++ nb).
        simpl in po_cover, po_prefix, po_reqs. rewrite Z.add_0_r in po_cover, po_prefix.
        destruct (enable_caching (kv s)) eqn:Hca.
        - destruct (po_prefix eq_refl) as (k' & ? & ? & ?). exists k'.
          rewrite (kf_bs _ _ po_frame), (kf_max _ _ po_frame), po_reqs. simpl.
          split_and!; [apply lookup_insert_eq|done|done|done].
        - exists 0%nat. rewrite (kf_bs _ _ po_frame), (kf_max _ _ po_frame), (kf_cache _ _ po_frame), po_reqs.
          simpl. split_and!; [apply lookup_insert_eq|done|done|congruence]. }
      split_and!; try done; [simpl in po_hashes; lia|].
      destruct Hold as (? & ? & _). split; [done|]. split; [done|].
      eapply run_ok_mono; [|..|exact Hnew]; [|simpl; lia].
      rewrite (kf_bs _ _ po_frame). apply (si_kv _ _ Hi).
    - destruct Ho as (-> & -> & _). exists (kv_block_hashes (obj s ref)), fl.
      destruct (read_keeps (kv s) fl (request_id (obj s ref)) (si_kv _ _ Hi)) as (K & Hkv & _).
      unfold read_req_blocks in *. rewrite Hbl in *. simpl in *.
      split_and!; [by destruct (obj s ref)|done..|by intros []]. }
  exists m', hs, o, fl'. split; [done|]. cbn zeta. set (s' := with_obj _ _ _).
  assert (Hobj : ∀ x, obj s' x = if decide (x = ref)
    then set_kv_block_hashes hs (obj s ref) else obj s x).
  { intros x. exact (obj_with_obj (with_kv s m') ref _ x). }
  assert (F : sched_frame s s').
  { split; try done.
    - intros x. rewrite Hobj. by case_decide as E'; [subst|].
    - intros x. apply (dom_with_obj (with_kv s m')).
    - apply K. }
  assert (Hobjr : obj s' ref = set_kv_block_hashes hs (obj s ref)) by by rewrite Hobj, decide_True.
  rewrite Hobjr. split_and!; try done.
  eapply sched_inv_frame; [done..| |apply (si_len _ _ Hi)].
  eapply (queues_ok_change _ (kv s) _ (obj s) _ _ _ _ _ ref Q); rewrite ?Hobjr; try done.
  - intros x Hx. by rewrite Hobj, decide_False.
  - simpl. intros Hw. exfalso. pose proof (qo_nodup _ _ _ _ _ Q) as Hnd.
    apply NoDup_app in Hnd as (_ & Hd & _). exact (Hd ref Hw Href).
Qed.

(** ** The allocation loop of a running request *)

Lemma alloc_or_preempt_spec fuel s fl ref n pre0 l tl :
  sched_inv s fl -> running s = l ++ ref :: tl -> (length tl < fuel)%nat -> 0 < n ->
  num_computed_tokens (obj s ref) + n <= num_tokens (obj s ref) ->
  ∃ s' pre o fl', alloc_or_preempt fuel s ref n pre0 = Ok (s', pre0 ++ pre, o) ∧
    sched_inv s' fl' ∧ sched_frame s s' ∧
    encoder_cache_manager s' = encoder_cache_manager s ∧
    waiting s' = reverse pre ++ waiting s ∧ running s = running s' ++ reverse pre ∧
    (∀ x, x ∈ l -> obj s' x = obj s x ∧
      ∀ c, run_ok (kv s) (obj s x) c -> run_ok (kv s') (obj s x) c) ∧
    match o with
    | None => running s' = l
    | Some _ => ∃ tl' hs, running s' = l ++ ref :: tl' ∧
        obj s' ref = set_kv_block_hashes hs (obj s ref) ∧
        run_ok (kv s') (obj s' ref) (num_computed_tokens (obj s ref) + n)
    end.
Proof.
  revert s fl pre0 tl. induction fuel as [|fuel IH]; intros s fl pre0 tl Hi Hrun Hfuel Hn Htot; [lia|].
  assert (Href : ref ∈ running s) by (rewrite Hrun; set_solver).
  assert (Hll : ∀ x, x ∈ l -> x ≠ ref ∧ (x ∉ tl) ∧ request_id (obj s x) ≠ request_id (obj s ref) ∧
    ∀ p, p ∈ tl -> request_id (obj s x) ≠ request_id (obj s p)).
  { intros x Hx. pose proof (si_queues _ _ Hi) as [Hnd Hids _ _ _ _]. rewrite Hrun in Hnd, Hids.
    apply NoDup_app in Hnd as (_ & _ & Hnd). apply NoDup_app in Hnd as (_ & Hd & _).
    pose proof (Hd x Hx) as Hx'. split_and!; [set_solver..| |].
    - intros E. assert (x = ref) by (apply Hids; [set_solver..|done]). set_solver.
    - intros p Hp E. assert (x = p) by (apply Hids; [set_solver..|done]). set_solver. }
  cbn [alloc_or_preempt].
  destruct (alloc_running_spec s fl ref n Hi Href Hn Htot)
    as (m1 & hs & o & fl1 & -> & Hi1 & F1 & K1 & Hsome). cbn [mbind result_bind].
  set (s1 := with_obj _ _ _) in *.
  assert (Hobj1 : ∀ x, obj s1 x = if decide (x = ref)
    then set_kv_block_hashes hs (obj s ref) else obj s x).
  { intros x. exact (obj_with_obj (with_kv s m1) ref _ x). }
  assert (Hkeep1 : ∀ x, x ∈ l -> obj s1 x = obj s x ∧
    ∀ c, run_ok (kv s) (obj s x) c -> run_ok (kv s1) (obj s x) c).
  { intros x Hx. destruct (Hll x Hx) as (Hne & _ & Hid & _). rewrite Hobj1, decide_False by done.
    split; [done|]. intros c. by eapply run_ok_keep. }
  destruct o as [nb|].
  - exists s1, [], (Some nb), fl1. rewrite app_nil_r. split_and!; try done.
    + change (running s1) with (running s). by rewrite reverse_nil, app_nil_r.
    + exists tl, hs. split_and!; [done|by rewrite Hobj1, decide_True|by apply Hsome].
  - clear Hsome. destruct tl as [|p0 tl0 _] using rev_ind.
    + destruct (preempt_last_spec s1 fl1 l ref Hi1 Hrun)
        as (s2 & fl2 & -> & Hi2 & F2 & He2 & _ & Hr2 & Hw2 & K2 & Ho2).
      cbn [mbind result_bind]. rewrite decide_True by done.
      exists s2, [ref], None, fl2. split_and!; try done.
      * by transitivity s1.
      * by rewrite Hr2.
      * intros x Hx. destruct (Hkeep1 x Hx) as [E1 R1]. destruct (Hll x Hx) as (Hne & _ & Hid & _).
        rewrite (Ho2 x Hne). split; [done|]. intros c Hc. eapply run_ok_keep; [exact K2| |by apply R1].
        by rewrite Hobj1, decide_True.
    + destruct (preempt_last_spec s1 fl1 (l ++ ref :: tl0) p0 Hi1)
        as (s2 & fl2 & -> & Hi2 & F2 & He2 & _ & Hr2 & Hw2 & K2 & Ho2).
      { change (running s1) with (running s). by rewrite Hrun, <-app_assoc. }
      cbn [mbind result_bind].
      assert (Hp : p0 ≠ ref ∧ p0 ∉ l).
      { split; [intros ->|intros Hx; destruct (Hll _ Hx) as (_ & Hx' & _); set_solver].
        pose proof (qo_nodup _ _ _ _ _ (si_queues _ _ Hi)) as Hnd. rewrite Hrun in Hnd.
        apply NoDup_app in Hnd as (_ & _ & Hnd). apply NoDup_app in Hnd as (_ & _ & Hnd).
        apply NoDup_cons in Hnd as [Hnd _]. set_solver. }
      rewrite decide_False by naive_solver.
      assert (Hr : obj s2 ref = set_kv_block_hashes hs (obj s ref)).
      { rewrite Ho2 by naive_solver. by rewrite Hobj1, decide_True. }
      rewrite length_app in Hfuel. simpl in Hfuel.
      destruct (IH s2 fl2 (pre0 ++ [p0]) tl0 Hi2 Hr2)
        as (s' & pre & o & fl' & -> & Hi' & F' & He' & Hw' & Hrun' & Hk' & Ho');
        [lia|done|by rewrite Hr|].
      exists s', (p0 :: pre), o, fl'. rewrite <-app_assoc. rewrite reverse_cons. split_and!; try done.
      * transitivity s2; [by transitivity s1|done].
      * by rewrite He', He2.
      * by rewrite Hw', Hw2, <-app_assoc.
      * rewrite Hrun, app_assoc, <-Hrun', Hr2, <-app_assoc. done.
      * intros x Hx. destruct (Hkeep1 x Hx) as [E1 R1].
        destruct (Hll x Hx) as (Hne & Hnt & Hid & Hidp). destruct (Hk' x Hx) as [E2 R2].
        assert (Hxp : x ≠ p0) by set_solver. rewrite E2, (Ho2 x Hxp).
        split; [done|]. intros c Hc. rewrite (Ho2 x Hxp), E1 in R2. apply R2.
        eapply run_ok_keep; [exact K2| |by apply R1].
        rewrite Hobj1, decide_False by naive_solver. apply Hidp. set_solver.
      * destruct o as [nb|]; [|done]. destruct Ho' as (tl' & hs' & E1 & E2 & E3).
        rewrite Hr in E2, E3. exists tl', hs'. split_and!; [done|by rewrite E2|done].
Qed.

(** ** Allocating encoder inputs *)

Lemma allocate_encoder_spec s fl r ref ids :
  sched_inv s fl -> ref ∈ live s -> request_id r = request_id (obj s ref) ->
  mm_positions r = mm_positions (obj s ref) ->
  (∀ i, i ∈ ids -> (i < length (mm_positions r))%nat) ->
  ∃ e, allocate_encoder s r ids = Ok (with_ecm s e) ∧ sched_inv (with_ecm s e) fl.
Proof.
  intros Hi Href Hid Hmm Hids. unfold allocate_encoder.
  assert (Hgen : ∀ e0, enc_ok (with_ecm s e0) ->
    ∃ e, for_each (fun i e => allocate e r i) ids e0 = Ok e ∧ enc_ok (with_ecm s e)).
  { induction ids as [|i ids IH]; intros e0 He0; [by exists e0|]. cbn [for_each].
    destruct (lookup_lt_is_Some_2 (mm_positions r) i) as [p Hp]; [apply Hids; by left|].
    assert (allocate e0 r i = Ok (mkECM (cache_size e0) (num_free_slots e0 - length_ p)
      (<[request_id r := {[i]} ∪ default ∅ (cached e0 !! request_id r)]> (cached e0)) (freed e0)))
      as -> by (unfold allocate, get_num_encoder_tokens; by rewrite Hp).
    apply IH; [intros j Hj; apply Hids; by right|].
    intros rid st Hst. cbn [with_ecm cached encoder_cache_manager] in Hst.
    apply lookup_insert_Some in Hst as [[<- <-]|[Hne Hst]]; [|by apply He0].
    split; [set_solver|]. exists ref. split; [done|]. split; [done|].
    assert (Hi' : (i < length (mm_positions (obj s ref)))%nat) by (rewrite <-Hmm; apply Hids; by left).
    intros j [->%elem_of_singleton|Hj]%elem_of_union; [done|].
    destruct (cached e0 !! request_id r) as [st|] eqn:Hc; simpl in Hj; [|set_solver].
    destruct (He0 _ _ Hc) as (_ & x & Hx & Ex & Hx').
    assert (x = ref) as ->; [|by apply Hx'].
    apply (qo_ids _ _ _ _ _ (si_queues _ _ Hi)); [done..|by rewrite <-Hid]. }
  destruct (Hgen (encoder_cache_manager s)) as (e & -> & He).
  { pose proof (si_enc _ _ Hi). by destruct s. }
  exists e. split; [done|]. destruct Hi. by split.
Qed.
End sched_inv.
