(* ===== verification/SchedulerLoops.v ===== *)
(** * The two loops of [schedule]

    [vars_ok] is the loop invariant on the local variables of [schedule]: the token
    budget, the tokens handed out so far, and for every picked request that it is
    running and that its blocks cover the tokens it was given. *)

From stdpp Require Import base tactics list gmap sets strings.
From Stdlib Require Import ZArith QArith Lia.
From S2P Require Import Prelude.
From S2P Require Import SamplingParams.
From S2P Require Import Request.
From S2P Require Import BlockQueue.
From S2P Require Import BlockHash.
From S2P Require Import KVCacheManager.
From S2P Require Import KVCacheInv.
From S2P Require Import KVAlloc.
From S2P Require Import KVTheorems.
From S2P Require Import EncoderCache.
From S2P Require Import Scheduler.
From S2P Require Import SchedulerInv.

Local Open Scope Z_scope.

Definition picked (v : sched_vars) : list nat := v_new v ++ v_resumed v ++ v_running v.

(** [x] was given [n] tokens that its blocks can hold. *)
Definition given (s : Scheduler) (x : nat) (n : Z) : Prop :=
  0 < n ∧ num_computed_tokens (obj s x) + n <= num_tokens (obj s x) ∧
  run_ok (kv_cache_manager s) (obj s x) (num_computed_tokens (obj s x) + n).

Record vars_ok (s : Scheduler) (v : sched_vars) : Prop := {
  vo_budget : 0 <= v_token_budget v;
  vo_sum : sum_tokens (v_tokens v) + v_token_budget v = max_num_scheduled_tokens s;
  vo_dom : ∀ rid n, v_tokens v !! rid = Some n ->
    ∃ x, x ∈ picked v ∧ request_id (obj s x) = rid;
  vo_picked : ∀ x, x ∈ picked v -> x ∈ running s ∧
    ∃ n, v_tokens v !! request_id (obj s x) = Some n ∧ given s x n;
  vo_blocks : ∀ x, x ∈ picked v -> is_Some (v_block_ids v !! request_id (obj s x));
  vo_nodup : NoDup (picked v);
}.

Lemma sum_tokens_insert m k n :
  m !! k = None -> sum_tokens (<[k := n]> m) = n + sum_tokens m.
Proof. intros Hk. unfold sum_tokens. rewrite map_fold_insert_L; [done|intros; lia|done]. Qed.

(** The requests in [xs] are not touched between [s] and [s']. *)
Definition untouched (xs : list nat) (s s' : Scheduler) : Prop :=
  ∀ x, x ∈ xs -> x ∈ running s' ∧ obj s' x = obj s x ∧
    ∀ c, run_ok (kv_cache_manager s) (obj s x) c -> run_ok (kv_cache_manager s') (obj s x) c.

Lemma given_untouched xs s s' x n :
  untouched xs s s' -> x ∈ xs -> given s x n -> given s' x n.
Proof.
  intros Hu Hx (? & ? & ?). destruct (Hu x Hx) as (_ & E & R). unfold given. rewrite E. auto.
Qed.

Lemma vars_ok_untouched s s' v :
  vars_ok s v -> untouched (picked v) s s' ->
  max_num_scheduled_tokens s' = max_num_scheduled_tokens s -> vars_ok s' v.
Proof.
  intros [] Hu Hm. split; try done.
  - by rewrite Hm.
  - intros rid n Hn. destruct (vo_dom0 rid n Hn) as (x & Hx & E). exists x.
    by destruct (Hu x Hx) as (_ & -> & _).
  - intros x Hx. destruct (vo_picked0 x Hx) as (_ & n & Hn & Hg). destruct (Hu x Hx) as (Hr & E & _).
    split; [done|]. exists n. rewrite E. split; [done|]. by eapply given_untouched.
  - intros x Hx. destruct (Hu x Hx) as (_ & -> & _). by apply vo_blocks0.
Qed.

(** Recording the tokens of one more request. *)
Lemma vars_ok_record s v v0 ref blocks n enc nb :
  vars_ok s v -> ref ∈ running s ->
  (∀ x, x ∈ picked v -> request_id (obj s x) ≠ request_id (obj s ref)) ->
  n <= v_token_budget v -> given s ref n ->
  picked v0 ≡ₚ ref :: picked v -> v_tokens v0 = v_tokens v -> v_block_ids v0 = v_block_ids v ->
  v_token_budget v0 = v_token_budget v ->
  vars_ok s (record_tokens v0 (request_id (obj s ref)) blocks n enc nb).
Proof.
  intros [] Href Hid Hn Hg Hp Et Eb Eg.
  assert (Hfresh : v_tokens v !! request_id (obj s ref) = None).
  { destruct (v_tokens v !! _) as [n0|] eqn:E; [|done]. destruct (vo_dom0 _ _ E) as (x & Hx & Ex).
    by destruct (Hid x Hx). }
  assert (Hpick : picked (record_tokens v0 (request_id (obj s ref)) blocks n enc nb) ≡ₚ ref :: picked v)
    by done.
  split; simpl; rewrite ?Et, ?Eb, ?Eg.
  - lia.
  - rewrite sum_tokens_insert by done. lia.
  - intros rid n0 Hrid. apply lookup_insert_Some in Hrid as [[<- _]|[Hne Hrid]].
    + exists ref. rewrite Hpick. split; [by left|done].
    + destruct (vo_dom0 _ _ Hrid) as (x & Hx & E). exists x. rewrite Hpick. split; [by right|done].
  - intros x. rewrite Hpick. intros [->|Hx]%elem_of_cons.
    + split; [done|]. exists n. split; [apply lookup_insert_eq|done].
    + rewrite lookup_insert_ne by (by apply not_eq_sym, Hid). by apply vo_picked0.
  - intros x. rewrite Hpick. intros [->|Hx]%elem_of_cons; [rewrite lookup_insert_eq; by eexists|].
    rewrite lookup_insert_ne by (by apply not_eq_sym, Hid). by apply vo_blocks0.
  - rewrite Hpick. apply NoDup_cons. split; [|done]. intros Hin. by apply (Hid ref Hin).
Qed.

Section loops.
Context (repr : list KVCacheBlock -> FreeKVCacheBlockQueue -> list nat -> Prop).
Context `{!FreeQueueSpec repr} `{PyHash}.
Abbreviation kv := kv_cache_manager.
Abbreviation sched_inv := (sched_inv repr).
Implicit Types (s : Scheduler) (fl : list nat) (v : sched_vars).

(** ** Running requests *)

(** The tail of the loop body: the blocks of [ref] are allocated, preempting from
    the end of [running], and its tokens and encoder inputs are recorded. *)
Lemma pick_running_spec s fl v l ref tl n enc nb :
  sched_inv s fl -> vars_ok s v -> v_new v = [] -> v_resumed v = [] -> v_running v ⊆ l ->
  running s = l ++ ref :: tl -> 0 < n <= v_token_budget v ->
  num_computed_tokens (obj s ref) + n <= num_tokens (obj s ref) ->
  (∀ i, i ∈ enc -> (i < length (mm_positions (obj s ref)))%nat) ->
  ∃ s1 pre o fl1, alloc_or_preempt (length (running s)) s ref n [] = Ok (s1, pre, o) ∧
    waiting s1 = reverse pre ++ waiting s ∧ running s = running s1 ++ reverse pre ∧
    match o with
    | None => sched_inv s1 fl1 ∧ sched_frame s s1 ∧ vars_ok s1 (add_preempted v pre)
    | Some blocks => ∃ e tl', allocate_encoder s1 (obj s ref) enc = Ok (with_ecm s1 e) ∧
        sched_inv (with_ecm s1 e) fl1 ∧ sched_frame s (with_ecm s1 e) ∧
        running s1 = l ++ ref :: tl' ∧
        vars_ok (with_ecm s1 e) (record_tokens (add_running (add_preempted v pre) ref)
          (request_id (obj s ref)) blocks n enc nb)
    end.
Proof.
  intros Hi Hv Hnew Hres Hsub Hrun Hn Htot Henc. pose proof (si_queues _ _ _ Hi) as Q.
  destruct (alloc_or_preempt_spec repr (length (running s)) s fl ref n [] l tl Hi Hrun)
    as (s1 & pre & o & fl1 & -> & Hi1 & F1 & He1 & Hw1 & Hr1 & Hk1 & Ho1);
    [rewrite Hrun, length_app; simpl; lia|lia|lia|].
  assert (Hpl : ∀ x, x ∈ picked v -> x ∈ l).
  { intros x. unfold picked. rewrite Hnew, Hres. apply Hsub. }
  assert (Hu : untouched (picked v) s s1).
  { intros x Hx%Hpl. destruct (Hk1 x Hx) as [E R]. split; [|by split]. destruct o.
    - destruct Ho1 as (? & ? & -> & _). set_solver.
    - by rewrite Ho1. }
  assert (Hv1 : vars_ok s1 (add_preempted v pre)).
  { destruct (vars_ok_untouched _ _ _ Hv Hu (sf_max_tok _ _ F1)). by split. }
  exists s1, pre, o, fl1. split_and!; try done. destruct o as [blocks|]; [|done].
  destruct Ho1 as (tl' & hs & Hr1' & Hobj & Hrok). pose proof (sf_core _ _ F1 ref) as Hcore.
  assert (Hrl : ref ∉ l).
  { pose proof (qo_nodup _ _ _ _ _ Q) as Hnd. rewrite Hrun in Hnd.
    apply NoDup_app in Hnd as (_ & _ & Hnd). apply NoDup_app in Hnd as (_ & Hd & _).
    intros Hin. apply (Hd ref Hin). by left. }
  destruct (allocate_encoder_spec repr s1 fl1 (obj s ref) ref enc Hi1) as (e & -> & Hi2);
    [unfold live; rewrite Hr1'; set_solver|symmetry; by apply req_core_id
    |symmetry; by apply req_core_mm|done|].
  exists e, tl'. split_and!; try done; [by transitivity s1|].
  rewrite <-(req_core_id _ _ Hcore).
  apply (vars_ok_record (with_ecm s1 e) (add_preempted v pre)); try done.
  - destruct Hv1. by split.
  - simpl. rewrite Hr1'. set_solver.
  - intros x Hx%Hpl E. apply Hrl. replace ref with x; [done|].
    apply (qo_ids _ _ _ _ _ (si_queues _ _ _ Hi1)); rewrite ?Hr1'; [set_solver..|done].
  - simpl. lia.
  - split; [lia|]. change (obj (with_ecm s1 e) ref) with (obj s1 ref).
    rewrite (req_core_tokens _ _ Hcore), Hobj. simpl. split; [lia|]. by rewrite Hobj in Hrok.
  - unfold picked. simpl. rewrite Hnew, Hres. simpl. apply Permutation_app_comm.
Qed.

Lemma schedule_running_spec fuel s fl v l rest :
  sched_inv s fl -> vars_ok s v -> v_new v = [] -> v_resumed v = [] ->
  v_running v ⊆ l -> running s = l ++ rest -> (length rest <= fuel)%nat ->
  ∃ s' v' fl' pre, schedule_running fuel s v (length l) = Ok (s', v') ∧
    sched_inv s' fl' ∧ sched_frame s s' ∧ vars_ok s' v' ∧
    v_preempted v' = v_preempted v ++ pre ∧ v_new v' = [] ∧ v_resumed v' = [] ∧
    waiting s' = reverse pre ++ waiting s ∧ running s = running s' ++ reverse pre.
Proof.
  revert s fl v l rest. induction fuel as [|fuel IH];
    intros s fl v l rest Hi Hv Hnew Hres Hsub Hrun Hfuel; (destruct rest as [|ref tl];
    [rewrite app_nil_r in Hrun; exists s, v, fl, []; rewrite !app_nil_r; split_and!; try done;
     simpl; by rewrite Hrun, lookup_ge_None_2|]); simpl in Hfuel; [lia|].
  cbn [schedule_running]. rewrite Hrun, list_lookup_middle by done.
  destruct (Z.leb_spec (v_token_budget v) 0) as [Hb|Hb].
  { exists s, v, fl, []. rewrite app_nil_r, reverse_nil, app_nil_r. by split_and!. }
  assert (Href : ref ∈ running s) by (rewrite Hrun; set_solver).
  pose proof (si_queues _ _ _ Hi) as Q.
  destruct (qo_run _ _ _ _ _ Q ref Href) as (_ & Hc & _).
  rewrite (proj2 (Z.ltb_lt _ _)) by lia. cbn [py_assert mbind result_bind].
  destruct (try_schedule_spec s (obj s ref) (num_computed_tokens (obj s ref))
    (Z.min (num_tokens (obj s ref) - num_computed_tokens (obj s ref)) (v_token_budget v))
    (v_encoder_budget v)) as (enc & n & nb & -> & Ht);
    [by apply (ro_wf _ _ _ (qo_req _ _ _ _ _ Q ref ltac:(set_solver)))|lia|].
  cbn [mbind result_bind]. pose proof (tp_num _ _ _ _ _ _ _ _ _ Ht) as Hn.
  replace (S (length l)) with (length (l ++ [ref])) by (rewrite length_app; simpl; lia).
  destruct (Z.eqb_spec n 0) as [->|Hn0].
  { rewrite <-Hrun. apply (IH s fl v (l ++ [ref]) tl); try done; [set_solver|by rewrite <-app_assoc|lia]. }
  destruct (pick_running_spec s fl v l ref tl n enc nb) as (s1 & pre & o & fl1 & E1 & Hw1 & Hr1 & Ho);
    try done; [lia|lia|by intros i Hin; apply (tp_range _ _ _ _ _ _ _ _ _ Ht)|].
  rewrite Hrun in E1. rewrite E1. cbn [mbind result_bind].
  destruct o as [blocks|].
  2: { destruct Ho as (Hi1 & F1 & Hv1). exists s1, (add_preempted v pre), fl1, pre.
       split_and!; try done. by rewrite <-Hrun. }
  destruct Ho as (e & tl' & -> & Hi2 & F2 & Hr1' & Hv2). cbn [mbind result_bind].
  destruct (IH (with_ecm s1 e) fl1 _ (l ++ [ref]) tl' Hi2 Hv2 Hnew Hres)
    as (s' & v' & fl' & pre' & -> & Hi' & F' & Hv' & Hp' & ? & ? & Hw' & Hr').
  { simpl. set_solver. }
  { simpl. by rewrite Hr1', <-app_assoc. }
  { rewrite Hr1', Hrun, <-app_assoc in Hr1. apply (f_equal length) in Hr1.
    rewrite !length_app in Hr1. simpl in *. lia. }
  exists s', v', fl', (pre ++ pre'). simpl in Hp', Hw', Hr'. split_and!; try done.
  - by transitivity (with_ecm s1 e).
  - by rewrite Hp', app_assoc.
  - by rewrite Hw', Hw1, reverse_app, app_assoc.
  - rewrite <-Hrun, Hr1, Hr', reverse_app, app_assoc. done.
Qed.

(** ** Waiting requests *)

Lemma obj_change_frame s m ref r :
  req_core r = req_core (obj s ref) -> kv_frame (kv s) m ->
  sched_frame s (with_obj (with_kv s m) ref r).
Proof.
  intros Hcore Hf. split; try done.
  - intros x. rewrite (obj_with_obj (with_kv s m)). by case_decide; subst.
  - intros x. apply (dom_with_obj (with_kv s m)).
Qed.

(** Any change of a waiting request that keeps it waiting. *)
Lemma waiting_change_inv s fl m ref r :
  sched_inv s fl -> ref ∈ waiting s -> kv_inv repr m fl [] ->
  kv_keeps (request_id (obj s ref)) (kv s) m -> req_core r = req_core (obj s ref) ->
  len (kv_block_hashes r) * block_size (kv s) <= num_tokens (obj s ref) -> wait_ok m r ->
  sched_inv (with_obj (with_kv s m) ref r) fl.
Proof.
  intros Hi Href Hm K Hcore Hh Hw. pose proof (si_queues _ _ _ Hi) as Q.
  eapply (sched_inv_frame repr s); [done|by apply obj_change_frame, K|done|done| |apply (si_len _ _ _ Hi)].
  assert (Hobj : obj (with_obj (with_kv s m) ref r) ref = r)
    by (rewrite obj_with_obj; by rewrite decide_True).
  eapply (queues_ok_change _ (kv s) m (obj s) _ _ _ _ _ ref Q); rewrite ?Hobj; try done.
  - intros x Hx. rewrite obj_with_obj. by rewrite decide_False.
  - set_solver.
  - intros Hr. exfalso. pose proof (qo_nodup _ _ _ _ _ Q) as Hnd.
    apply NoDup_app in Hnd as (_ & Hd & _). by apply (Hd ref Href).
Qed.

Lemma waiting_not_picked s fl v ref x :
  sched_inv s fl -> vars_ok s v -> ref ∈ waiting s -> x ∈ picked v ->
  x ≠ ref ∧ x ∈ running s ∧ request_id (obj s x) ≠ request_id (obj s ref).
Proof.
  intros Hi Hv Href Hx. pose proof (si_queues _ _ _ Hi) as Q.
  destruct (vo_picked _ _ Hv x Hx) as [Hr _].
  pose proof (qo_nodup _ _ _ _ _ Q) as Hnd. apply NoDup_app in Hnd as (_ & Hd & _).
  assert (x ≠ ref) by (intros ->; by apply (Hd ref Href)).
  split_and!; try done. intros E. by apply (qo_ids _ _ _ _ _ Q) in E; [|set_solver..].
Qed.

Lemma waiting_untouched s fl v m ref r wait run :
  sched_inv s fl -> vars_ok s v -> ref ∈ waiting s ->
  kv_keeps (request_id (obj s ref)) (kv s) m -> running s ⊆ run ->
  untouched (picked v) s (with_queues (with_obj (with_kv s m) ref r) wait run).
Proof.
  intros Hi Hv Href K Hsub x Hx.
  destruct (waiting_not_picked s fl v ref x Hi Hv Href Hx) as (Hne & Hr & Hid).
  split; [by apply Hsub|]. split.
  - change (obj (with_obj (with_kv s m) ref r) x = obj s x). rewrite obj_with_obj.
    by rewrite decide_False.
  - intros c. by eapply run_ok_keep.
Qed.

Lemma with_kv_id s : with_kv s (kv s) = s.
Proof. by destruct s. Qed.

(** Looking up the prefix cache only records the block hashes in the request. *)
Lemma lookup_step s fl ref :
  sched_inv s fl -> ref ∈ waiting s ->
  ∃ hs bl, get_computed_blocks (kv s) (obj s ref) =
      Ok (set_kv_block_hashes hs (obj s ref), bl, len bl * block_size (kv s)) ∧
    sched_inv (with_obj s ref (set_kv_block_hashes hs (obj s ref))) fl ∧
    (length bl <= length hs)%nat ∧ len hs * block_size (kv s) <= num_tokens (obj s ref) ∧
    (∀ b, b ∈ bl -> (b < length (block_pool (kv s)))%nat ∧ hashed (kv s) b) ∧
    (enable_caching (kv s) = false -> bl = []).
Proof.
  intros Hi Href. pose proof (si_queues _ _ _ Hi) as Q.
  destruct (qo_req _ _ _ _ _ Q ref ltac:(set_solver)) as [Hwf Hmm Hpos Hmax Hh Hpl].
  destruct (get_computed_blocks_spec repr (kv s) fl (obj s ref) (si_kv _ _ _ Hi) Hmm)
    as (r' & bl & E & [(hs & -> & Hhs) Hlen Hhit Hnc]).
  assert (Hh' : len hs * block_size (kv s) <= num_tokens (obj s ref))
    by (destruct Hhs as [->|[_ ?]]; lia).
  exists hs, bl. split_and!; try done; [| |intros Hc; by apply Hnc].
  - rewrite <-(with_kv_id s) at 1.
    apply waiting_change_inv; [done|done|apply Hi|by split|done|done|].
    exact (qo_wait _ _ _ _ _ Q ref Href).
  - intros b Hb. apply list_elem_of_lookup in Hb as [i Hb].
    destruct (Hhit i b Hb) as (h & _ & ? & ?). split; [done|]. by eexists.
Qed.

(** When every token is cached, the last block is recomputed. *)
Lemma trim_step (bl : list nat) bs nt :
  0 < bs -> 0 < nt -> len bl * bs <= nt ->
  ∃ cb, (if nt - len bl * bs =? 0 then
           _ ← or_raise IndexError (last bl); Ok (removelast bl, len bl * bs - bs, bs)
         else Ok (bl, len bl * bs, nt - len bl * bs)) = Ok (cb, len cb * bs, nt - len cb * bs) ∧
    cb `prefix_of` bl ∧ len cb * bs < nt.
Proof.
  intros Hbs Hnt Hle. destruct (Z.eqb_spec (nt - len bl * bs) 0) as [E|E].
  - destruct bl as [|b bl _] using rev_ind; [simpl in E; lia|].
    rewrite last_snoc, removelast_last. cbn [or_raise mbind result_bind].
    rewrite length_app in *. simpl in *. exists bl. split_and!; [|by eexists|lia].
    do 2 f_equal; [f_equal|]; lia.
  - exists bl. split_and!; [done|done|lia].
Qed.

(** The cached blocks of a waiting request: they are full blocks of its tokens, at
    least one token is left to compute, and only its block hashes changed. *)
Lemma waiting_lookup_spec s fl ref :
  sched_inv s fl -> ref ∈ waiting s ->
  ∃ hs cb, let s1 := with_obj s ref (set_kv_block_hashes hs (obj s ref)) in
    let nc := len cb * block_size (kv s) in
    waiting_lookup s ref = Ok (s1, cb, nc, num_tokens (obj s ref) - nc) ∧
    obj s1 ref = set_kv_block_hashes hs (obj s ref) ∧
    sched_inv s1 fl ∧ sched_frame s s1 ∧ nc < num_tokens (obj s ref) ∧
    (length cb <= length hs)%nat ∧
    (∀ b, b ∈ cb -> (b < length (block_pool (kv s)))%nat ∧ hashed (kv s) b) ∧
    (enable_caching (kv s) = false -> cb = []).
Proof.
  intros Hi Href. pose proof (si_queues _ _ _ Hi) as Q.
  pose proof (ki_bs _ _ _ _ (si_kv _ _ _ Hi)) as Hbs.
  destruct (qo_req _ _ _ _ _ Q ref ltac:(set_solver)) as [_ _ Hpos _ _ _].
  destruct (lookup_step s fl ref Hi Href) as (hs & bl & E & Hi1 & Hlen & Hhs & Hhit & Hnc).
  destruct (trim_step bl (block_size (kv s)) (num_tokens (obj s ref)) Hbs Hpos ltac:(nia))
    as (cb & Et & Hpre & Hcb). pose proof (prefix_length _ _ Hpre).
  exists hs, cb. cbn zeta. split_and!; try done.
  - unfold waiting_lookup. rewrite E. cbn [mbind result_bind].
    change (num_tokens (set_kv_block_hashes hs (obj s ref))) with (num_tokens (obj s ref)).
    change (kv (with_obj s ref _)) with (kv s).
    destruct (num_tokens (obj s ref) - len bl * block_size (kv s) =? 0).
    + apply bind_Ok_inv in Et as (x & -> & Et). cbn [mbind result_bind]. congruence.
    + congruence.
  - by rewrite obj_with_obj, decide_True.
  - rewrite <-(with_kv_id s) at 2. by apply obj_change_frame.
  - lia.
  - intros b Hin. apply Hhit. destruct Hpre as [k ->]. set_solver.
  - intros Hca. destruct Hpre as [k ->]. specialize (Hnc Hca). by destruct cb.
Qed.

Lemma run_ok_core m r r' c :
  request_id r' = request_id r -> kv_block_hashes r' = kv_block_hashes r ->
  run_ok m r c -> run_ok m r' c.
Proof. unfold run_ok. by intros -> ->. Qed.

Lemma waiting_alloc_pre s fl ref cb n :
  sched_inv s fl -> ref ∈ waiting s ->
  (∀ b, b ∈ cb -> (b < length (block_pool (kv s)))%nat ∧ hashed (kv s) b) ->
  (length cb <= length (kv_block_hashes (obj s ref)))%nat ->
  (enable_caching (kv s) = false -> cb = []) -> 0 < n ->
  len cb * block_size (kv s) + n <= num_tokens (obj s ref) ->
  alloc_pre (kv s) (obj s ref) n [] cb 0.
Proof.
  intros Hi Href Hcb Hlen Hnc Hn Htot. pose proof (si_queues _ _ _ Hi) as Q.
  destruct (qo_req _ _ _ _ _ Q ref ltac:(set_solver)) as [Hwf Hmm Hpos Hmax Hh Hpl].
  destruct (qo_wait _ _ _ _ _ Q ref Href) as (Hst & Hc0 & Hbl).
  split; rewrite ?Hc0; try done; simpl; [by right|by rewrite (si_mml _ _ _ Hi)|].
  rewrite (ki_max _ _ _ _ (si_kv _ _ _ Hi)). apply cdiv_nonneg; [apply (si_kv _ _ _ Hi)|].
  rewrite (si_mml _ _ _ Hi). lia.
Qed.

(** Allocating for the first waiting request, with prefix-cache hits [cb]. *)
Lemma waiting_alloc_spec s fl ref cb n :
  sched_inv s fl -> ref ∈ waiting s ->
  (∀ b, b ∈ cb -> (b < length (block_pool (kv s)))%nat ∧ hashed (kv s) b) ->
  (length cb <= length (kv_block_hashes (obj s ref)))%nat ->
  (enable_caching (kv s) = false -> cb = []) -> 0 < n ->
  len cb * block_size (kv s) + n <= num_tokens (obj s ref) ->
  ∃ m' hs o fl',
    allocate_slots (kv s) (obj s ref) n cb = Ok (m', set_kv_block_hashes hs (obj s ref), o) ∧
    kv_keeps (request_id (obj s ref)) (kv s) m' ∧ kv_inv repr m' fl' [] ∧
    match o with
    | None => sched_inv (with_obj (with_kv s m') ref (set_kv_block_hashes hs (obj s ref))) fl'
    | Some nb => len hs * block_size (kv s) <= num_tokens (obj s ref) ∧
        run_ok m' (set_kv_block_hashes hs (obj s ref)) (len cb * block_size (kv s) + n)
    end.
Proof.
  intros Hi Href Hcb Hlen Hnc Hn Htot. pose proof (si_queues _ _ _ Hi) as Q.
  destruct (qo_req _ _ _ _ _ Q ref ltac:(set_solver)) as [Hwf Hmm Hpos Hmax Hh Hpl].
  pose proof (qo_wait _ _ _ _ _ Q ref Href) as Hw. destruct Hw as (Hst & Hc0 & Hbl).
  pose proof (waiting_alloc_pre s fl ref cb n Hi Href Hcb Hlen Hnc Hn Htot) as Hap.
  destruct (allocate_slots_spec repr _ fl _ n [] cb 0 (si_kv _ _ _ Hi) Hap) as (m' & r' & o & E & Ho).
  destruct o as [nb|].
  - destruct Ho as [_ Hpost]. pose proof (alloc_keeps _ _ _ _ _ _ _ _ _ _ _ Hpost) as K.
    destruct Hpost. destruct po_req as (hs & -> & _).
    exists m', hs, (Some nb), (drop (length nb) (filter (.∉ cb) fl)). split_and!; try done.
    + simpl in po_hashes. lia.
    + rewrite Hc0, Z.add_0_l in *. destruct (enable_caching (kv s)) eqn:Hca.
      * destruct (po_prefix eq_refl) as (k' & ? & ? & ?). exists ([] ++ cb ++ nb), k'.
        rewrite (kf_bs _ _ po_frame), (kf_max _ _ po_frame), po_reqs.
        split_and!; [apply lookup_insert_eq|done|done|done].
      * exists ([] ++ cb ++ nb), 0%nat.
        rewrite (kf_bs _ _ po_frame), (kf_max _ _ po_frame), (kf_cache _ _ po_frame), po_reqs.
        split_and!; [apply lookup_insert_eq|done|done|congruence].
  - destruct Ho as (-> & -> & _). exists (read_req_blocks (kv s) (request_id (obj s ref))).1,
      (kv_block_hashes (obj s ref)), None, fl.
    destruct (read_keeps repr (kv s) fl (request_id (obj s ref)) (si_kv _ _ _ Hi)) as (K & Hkv & Hd).
    assert (Hid : set_kv_block_hashes (kv_block_hashes (obj s ref)) (obj s ref) = obj s ref)
      by by destruct (obj s ref).
    rewrite Hid. split_and!; try done.
    apply waiting_change_inv; try done. split_and!; [done|done|by rewrite Hd].
Qed.

(** The state after the first waiting request was admitted. *)
Definition admitted s (m : KVCacheManager) (ref : nat) (rest : list nat) (r : Request) (nc : Z) :=
  with_obj (with_queues (with_obj (with_kv s m) ref r) rest (running s ++ [ref])) ref
    (set_num_computed_tokens nc (set_status RUNNING r)).

Lemma admit_inv s fl fl' m ref rest hs nc n :
  sched_inv s fl -> waiting s = ref :: rest -> len (running s) < max_num_running_reqs s ->
  kv_inv repr m fl' [] ->
  kv_keeps (request_id (obj s ref)) (kv s) m ->
  len hs * block_size (kv s) <= num_tokens (obj s ref) ->
  0 <= nc -> 0 < n -> nc + n <= num_tokens (obj s ref) ->
  run_ok m (set_kv_block_hashes hs (obj s ref)) (nc + n) ->
  let s' := admitted s m ref rest (set_kv_block_hashes hs (obj s ref)) nc in
  sched_inv s' fl' ∧ sched_frame s s' ∧ given s' ref n ∧
  obj s' ref = set_num_computed_tokens nc (set_status RUNNING (set_kv_block_hashes hs (obj s ref))).
Proof.
  intros Hi Hw Hlen Hm' K Hh Hnc Hn Htot Hrok s'. pose proof (si_queues _ _ _ Hi) as Q.
  set (r4 := set_num_computed_tokens nc (set_status RUNNING (set_kv_block_hashes hs (obj s ref)))).
  assert (Hobj : ∀ x, obj s' x = if decide (x = ref) then r4 else obj s x).
  { intros x. unfold s', admitted. rewrite obj_with_obj. case_decide; [done|].
    change (obj (with_obj (with_kv s m) ref (set_kv_block_hashes hs (obj s ref))) x = obj s x).
    rewrite obj_with_obj. by rewrite decide_False. }
  assert (Hobjr : obj s' ref = r4) by by rewrite Hobj, decide_True.
  assert (Hperm : rest ++ running s ++ [ref] ≡ₚ waiting s ++ running s)
    by (rewrite Hw; solve_Permutation).
  assert (F : sched_frame s s').
  { split; try done.
    - intros x. rewrite Hobj. by case_decide; subst.
    - intros x Hx. unfold s', admitted. apply dom_with_obj.
      exact (dom_with_obj (with_kv s m) ref _ x Hx).
    - apply K. }
  assert (Hnd : (ref ∉ rest) ∧ ref ∉ running s).
  { pose proof (qo_nodup _ _ _ _ _ Q) as Hnd. rewrite Hw in Hnd. simpl in Hnd.
    apply NoDup_cons in Hnd as [Hnd _]. set_solver. }
  assert (Hrok' : ∀ c, c <= nc + n -> run_ok m r4 c).
  { intros c Hc. eapply run_ok_mono; [|exact Hc|by eapply run_ok_core].
    rewrite (kf_bs _ _ (kk_frame _ _ _ K)). apply (si_kv _ _ _ Hi). }
  split_and!; [|done| |done].
  - eapply (sched_inv_frame repr s); [done..| |].
    + eapply (queues_ok_change _ (kv s) m (obj s) _ _ _ _ _ ref Q); rewrite ?Hobjr; try done.
      * intros x Hx. by rewrite Hobj, decide_False.
      * rewrite Hw. set_solver.
      * intros x Hx. rewrite Hw, elem_of_cons. change (waiting s') with rest. naive_solver.
      * intros x Hx. change (running s') with (running s ++ [ref]).
        rewrite elem_of_app, list_elem_of_singleton. naive_solver.
      * change (waiting s') with rest. naive_solver.
      * intros _. split; [done|]. change (num_tokens r4) with (num_tokens (obj s ref)). simpl.
        split; [lia|]. apply Hrok'. lia.
    + change (running s') with (running s ++ [ref]). rewrite length_app. simpl. lia.
  - split; [done|]. rewrite Hobjr. change (num_tokens r4) with (num_tokens (obj s ref)). simpl.
    split; [lia|]. by apply Hrok'.
Qed.

(** Admitting the first waiting request: the new variables and the encoder cache. *)
Lemma admit_vars s fl v m fl' ref rest hs nc n cb nb enc new_budget v0 :
  sched_inv s fl -> vars_ok s v -> waiting s = ref :: rest ->
  len (running s) < max_num_running_reqs s -> kv_inv repr m fl' [] ->
  kv_keeps (request_id (obj s ref)) (kv s) m ->
  len hs * block_size (kv s) <= num_tokens (obj s ref) ->
  0 <= nc -> 0 < n <= v_token_budget v -> nc + n <= num_tokens (obj s ref) ->
  run_ok m (set_kv_block_hashes hs (obj s ref)) (nc + n) ->
  (∀ i, i ∈ enc -> (i < length (mm_positions (obj s ref)))%nat) ->
  v0 = add_new v ref ∨ v0 = add_resumed v ref ->
  let s' := admitted s m ref rest (set_kv_block_hashes hs (obj s ref)) nc in
  ∃ e, allocate_encoder s' (obj s' ref) enc = Ok (with_ecm s' e) ∧
    sched_inv (with_ecm s' e) fl' ∧ sched_frame s (with_ecm s' e) ∧
    vars_ok (with_ecm s' e) (record_tokens v0 (request_id (obj s ref)) (cb ++ nb) n enc new_budget).
Proof.
  intros Hi Hv Hw Hlen Hm K Hh Hnc Hn Htot Hrok Henc Hv0 s'.
  destruct (admit_inv s fl fl' m ref rest hs nc n) as (Hi' & F & Hg & Hobj); try done; [lia|].
  fold s' in Hi', F, Hg, Hobj.
  assert (Href : ref ∈ running s') by (change (running s') with (running s ++ [ref]); set_solver).
  destruct (allocate_encoder_spec repr s' fl' (obj s' ref) ref enc Hi') as (e & -> & Hi2);
    [unfold live; set_solver|done|done|by rewrite Hobj|].
  exists e. split_and!; try done; [by transitivity s'|].
  assert (Hu : untouched (picked v) s s').
  { intros x Hx. destruct (waiting_untouched s fl v m ref (set_kv_block_hashes hs (obj s ref)) rest
      (running s ++ [ref]) Hi Hv ltac:(rewrite Hw; set_solver) K ltac:(set_solver) x Hx)
      as (H1 & H2 & H3). split; [done|]. split; [|done].
    unfold s', admitted. rewrite obj_with_obj, decide_False; [done|].
    by apply (waiting_not_picked s fl v ref x Hi Hv ltac:(rewrite Hw; set_solver) Hx). }
  assert (Hv' : vars_ok (with_ecm s' e) v).
  { destruct (vars_ok_untouched _ _ _ Hv Hu (sf_max_tok _ _ F)). by split. }
  rewrite <-(req_core_id _ _ (sf_core _ _ F ref)).
  apply (vars_ok_record (with_ecm s' e) v); try done.
  - intros x Hx. change (obj (with_ecm s' e)) with (obj s').
    rewrite !(req_core_id _ _ (sf_core _ _ F _)).
    by apply (waiting_not_picked s fl v ref x Hi Hv ltac:(rewrite Hw; set_solver) Hx).
  - lia.
  - destruct Hv0 as [->| ->]; unfold picked; simpl; solve_Permutation.
  - by destruct Hv0 as [->| ->].
  - by destruct Hv0 as [->| ->].
  - by destruct Hv0 as [->| ->].
Qed.

(** Where the loop body leaves the queues. *)
Definition one_post s v (ref : nat) (rest : list nat) s' v' (admitted : bool) : Prop :=
  sched_frame s s' ∧ vars_ok s' v' ∧ v_preempted v' = v_preempted v ∧
  if admitted then waiting s' = rest ∧ running s' = running s ++ [ref] ∧
    v_token_budget v' < v_token_budget v
  else waiting s' = ref :: rest ∧ running s' = running s ∧ v' = v.

Lemma schedule_waiting_one_spec s fl v ref rest :
  sched_inv s fl -> vars_ok s v -> waiting s = ref :: rest ->
  0 < v_token_budget v -> len (running s) < max_num_running_reqs s ->
  ∃ s' v' fl' b, schedule_waiting_one s v ref rest = Ok (s', v', b) ∧
    sched_inv s' fl' ∧ one_post s v ref rest s' v' b.
Proof.
  intros Hi Hv Hw Hb Hmax. assert (Href : ref ∈ waiting s) by (rewrite Hw; by left).
  pose proof (si_queues _ _ _ Hi) as Q. unfold schedule_waiting_one.
  destruct (waiting_lookup_spec s fl ref Hi Href)
    as (hs & cb & -> & Hobj1 & Hi1 & F1 & Hcb & Hlen & Hhit & Hnc).
  cbn [mbind result_bind]. set (s1 := with_obj s ref _) in *.
  assert (Hv1 : vars_ok s1 v).
  { apply (vars_ok_untouched s); [done| |done].
    pose proof (waiting_untouched s fl v (kv s) ref (set_kv_block_hashes hs (obj s ref))
      (waiting s) (running s) Hi Hv Href) as W.
    rewrite with_kv_id in W. intros x Hx. apply (W ltac:(by split) ltac:(done) x Hx). }
  rewrite <-(req_core_tokens _ _ (sf_core _ _ F1 ref)) in *. change (kv s) with (kv s1) in *.
  rewrite (proj2 (Z.ltb_lt _ _)) by lia. cbn [py_assert mbind result_bind].
  destruct (try_schedule_spec s1 (obj s1 ref) (len cb * block_size (kv s1))
    (Z.min (num_tokens (obj s1 ref) - len cb * block_size (kv s1)) (v_token_budget v))
    (v_encoder_budget v)) as (enc & n & nbud & -> & Ht);
    [apply (qo_req _ _ _ _ _ (si_queues _ _ _ Hi1)); apply elem_of_app; by left|lia|].
  cbn [mbind result_bind]. pose proof (tp_num _ _ _ _ _ _ _ _ _ Ht) as Hn.
  destruct (Z.eqb_spec n 0) as [->|Hn0]; [by exists s1, v, fl, false|].
  destruct (waiting_alloc_spec s1 fl ref cb n) as (m & hs2 & o & fl2 & -> & K & Hm & Ho);
    try done; [by rewrite Hobj1|lia|lia|]. cbn [mbind result_bind].
  destruct o as [nb|].
  2: { eexists _, v, fl2, false. split; [done|]. split; [done|]. split_and!; try done.
       - transitivity s1; [done|]. apply obj_change_frame; [done|apply K].
       - eapply vars_ok_untouched; [exact Hv1| |done].
         intros x Hx. by eapply (waiting_untouched s1 fl v m ref). }
  destruct Ho as [Hh2 Hrok]. pose proof (qo_wait _ _ _ _ _ (si_queues _ _ _ Hi1) ref Href) as (Hst & _).
  match goal with |- context [mbind _ (match ?st with _ => _ end)] =>
    assert (∃ v0, (match st with WAITING => Ok (add_new v ref) | PREEMPTED => Ok (add_resumed v ref)
      | _ => Err RuntimeError end) = Ok v0 ∧ (v0 = add_new v ref ∨ v0 = add_resumed v ref))
    as (v0 & -> & Hv0) end.
  { simpl. destruct Hst as [->| ->]; eauto. }
  cbn [mbind result_bind]. assert (Hnc0 : 0 <= len cb * block_size (kv s1))
    by (pose proof (ki_bs _ _ _ _ (si_kv _ _ _ Hi1)); nia).
  destruct (admit_vars s1 fl v m fl2 ref rest hs2 (len cb * block_size (kv s1)) n cb nb enc nbud v0)
    as (e & Ee & Hi3 & F3 & Hv3); try done; [lia|lia| |].
  { intros i Hin. by apply (tp_range _ _ _ _ _ _ _ _ _ Ht). }
  unfold admitted in Ee. rewrite obj_with_obj, decide_True in Ee by done.
  change (running (with_obj (with_kv s1 m) ref _)) with (running s1). rewrite Ee. cbn [mbind result_bind].
  eexists _, _, fl2, true. split; [done|]. split; [done|]. split_and!; try done.
  - by transitivity s1.
  - by destruct Hv0 as [->| ->].
  - destruct Hv0 as [->| ->]; simpl; lia.
Qed.

Lemma schedule_waiting_spec fuel s fl v :
  sched_inv s fl -> vars_ok s v -> (length (waiting s) <= fuel)%nat ->
  ∃ s' v' fl' adm, schedule_waiting fuel s v = Ok (s', v') ∧
    sched_inv s' fl' ∧ sched_frame s s' ∧ vars_ok s' v' ∧
    v_preempted v' = v_preempted v ∧ v_token_budget v' <= v_token_budget v ∧
    waiting s = adm ++ waiting s' ∧ running s' = running s ++ adm.
Proof.
  revert s fl v. induction fuel as [|fuel IH]; intros s fl v Hi Hv Hfuel;
    cbn [schedule_waiting]; (destruct (waiting s) as [|ref rest] eqn:Hw;
    [exists s, v, fl, []; rewrite app_nil_r; by split_and!|]); simpl in Hfuel; [lia|].
  destruct (Z.leb_spec (v_token_budget v) 0) as [Hb|Hb].
  { exists s, v, fl, []. rewrite app_nil_r. by split_and!. }
  destruct (Z.eqb_spec (len (running s)) (max_num_running_reqs s)) as [Hmax|Hmax].
  { exists s, v, fl, []. rewrite app_nil_r. by split_and!. }
  pose proof (si_len _ _ _ Hi) as Hlen.
  destruct (schedule_waiting_one_spec s fl v ref rest Hi Hv Hw Hb ltac:(lia))
    as (s1 & v1 & fl1 & b & -> & Hi1 & F1 & Hv1 & Hp1 & Hq). cbn [mbind result_bind].
  destruct b, Hq as (Hw1 & Hr1 & Hb1).
  - destruct (IH s1 fl1 v1 Hi1 Hv1) as (s' & v' & fl' & adm & -> & Hi' & F' & Hv' & Hp' & Hb' & Hw' & Hr');
      [rewrite Hw1; lia|].
    exists s', v', fl', (ref :: adm). split_and!; try done.
    + by transitivity s1.
    + by rewrite Hp'.
    + lia.
    + by rewrite <-Hw1, Hw'.
    + by rewrite Hr', Hr1, <-app_assoc.
  - subst v1. exists s1, v, fl1, []. rewrite app_nil_r. by split_and!.
Qed.
End loops.
