(* ===== verification/SchedulerUpdate.v ===== *)
(** * [update_from_output], [_check_stop] and the end of a request

    The loop of [update_from_output] keeps [self.running] until it ends; the
    invariant is stated for the queues the loop is building ([inv_at]). *)

From stdpp Require Import base tactics list gmap sets strings.
From Stdlib Require Import ZArith QArith Lia.
From S2P Require Import Prelude.
From S2P Require Import SamplingParams.
From S2P Require Import Request.
From S2P Require Import BlockQueue.
From S2P Require Import BlockHash.
From S2P Require Import KVCacheManager.
From S2P Require Import KVCacheInv.
From S2P Require Import KVAlloc.
From S2P Require Import KVTheorems.
From S2P Require Import EncoderCache.
From S2P Require Import Scheduler.
From S2P Require Import SchedulerInv.
From S2P Require Import SchedulerLoops.
From S2P Require Import SchedulerStep.

Local Open Scope Z_scope.

(** ** Releasing consumed encoder inputs *)

Definition consumed (r : Request) (i : nat) : Prop :=
  ∃ p, mm_positions r !! i = Some p ∧ offset p + length_ p <= num_computed_tokens r.

(** The effect on the cache entries: only those of [r] change, and no entry is empty. *)
Record ecm_own (r : Request) (e e' : EncoderCacheManager) : Prop := {
  eo_others : ∀ rid, rid ≠ request_id r -> cached e' !! rid = cached e !! rid;
  eo_nonempty : ∀ st, cached e' !! request_id r = Some st -> st ≠ ∅;
}.

Lemma free_encoder_input_spec e r i :
  (i < length (mm_positions r))%nat -> (∀ st, cached e !! request_id r = Some st -> st ≠ ∅) ->
  ∃ e', free_encoder_input e r i = Ok e' ∧ ecm_own r e e' ∧
    get_cached_input_ids e' r = get_cached_input_ids e r ∖ {[i]}.
Proof.
  intros Hi Hne. unfold free_encoder_input, get_cached_input_ids.
  destruct (cached e !! request_id r) as [st|] eqn:Hst.
  - destruct (lookup_lt_is_Some_2 _ _ Hi) as [p Hp]. unfold get_num_encoder_tokens. rewrite Hp.
    cbn [or_raise mbind result_bind]. eexists. split; [done|]. cbn [cached]. case_decide as Hd.
    + split; [|rewrite lookup_delete_eq; simpl; by rewrite Hd]. split; cbn [cached].
      * intros rid Hr. by rewrite lookup_delete_ne.
      * intros st' Hs'. by rewrite lookup_delete_eq in Hs'.
    + split; [|by rewrite lookup_insert_eq]. split; cbn [cached].
      * intros rid Hr. by rewrite lookup_insert_ne.
      * intros st' Hs'. rewrite lookup_insert_eq in Hs'. by injection Hs' as <-.
  - exists e. split; [done|]. rewrite Hst. simpl. split; [split; [done|intros st; by rewrite Hst]|set_solver].
Qed.

Lemma release_loop_spec r ids e :
  (∀ i, i ∈ ids -> (i < length (mm_positions r))%nat) ->
  (∀ st, cached e !! request_id r = Some st -> st ≠ ∅) ->
  ∃ e', for_each (release_consumed r) ids e = Ok e' ∧ ecm_own r e e' ∧
    ∀ i, i ∈ get_cached_input_ids e' r <->
      i ∈ get_cached_input_ids e r ∧ ¬ (i ∈ ids ∧ consumed r i).
Proof.
  revert e. induction ids as [|i ids IH]; intros e Hids Hne; cbn [for_each].
  { exists e. split; [done|]. split; [by split|]. set_solver. }
  destruct (lookup_lt_is_Some_2 _ _ (Hids i ltac:(by left))) as [p Hp].
  assert (∃ e1, release_consumed r i e = Ok e1 ∧ ecm_own r e e1 ∧ ∀ j, j ∈ get_cached_input_ids e1 r <->
        j ∈ get_cached_input_ids e r ∧ ¬ (j = i ∧ consumed r j)) as (e1 & -> & O1 & H1).
  { unfold release_consumed. rewrite Hp. cbn [or_raise mbind result_bind].
    destruct (Z.leb_spec (offset p + length_ p) (num_computed_tokens r)) as [Hc|Hc].
    - destruct (free_encoder_input_spec e r i (Hids i ltac:(by left)) Hne) as (e1 & -> & O1 & E1).
      exists e1. split_and!; try done. intros j. rewrite E1. assert (consumed r i) by by exists p.
      set_solver.
    - exists e. split_and!; [done|by split|]. intros j. split; [|tauto]. intros Hj. split; [done|].
      intros [-> (p' & Hp' & Hc')]. rewrite Hp in Hp'. injection Hp' as <-. lia. }
  cbn [mbind result_bind].
  destruct (IH e1) as (e' & -> & O2 & H2); [intros j Hj; apply Hids; by right|apply O1|].
  exists e'. split; [done|]. destruct O1 as [A1 B1], O2 as [A2 B2]. split; [split; [|done]|].
  - intros rid Hr. by rewrite A2, A1.
  - intros j. rewrite H2, H1, elem_of_cons. naive_solver.
Qed.

(** ** [_check_stop] *)

(** The stop conditions, in the order of the code. *)
Definition length_capped (s : Scheduler) (r : Request) : Prop :=
  max_model_len s <= num_tokens r ∨ max_tokens r <= num_output_tokens r.
Definition eos_reached (r : Request) (t : Z) : Prop :=
  ignore_eos (sampling_params r) = false ∧ eos_token_id r = Some t.
Definition stop_token_hit (r : Request) (t : Z) : Prop :=
  t ∈ default [] (stop_token_ids (sampling_params r)).

Lemma check_stop_spec s r t :
  last (output_token_ids r) = Some t ->
  ∃ r' b, _check_stop s r = Ok (r', b) ∧
    if (b : bool) then (∃ st sr, r' = set_stop_reason sr (set_status st r) ∧ status_is_finished st = true) ∧
      (length_capped s r ∨ eos_reached r t ∨ stop_token_hit r t)
    else r' = r ∧ ¬ length_capped s r ∧ ¬ eos_reached r t ∧ ¬ stop_token_hit r t.
Proof.
  intros Ht. unfold _check_stop, length_capped, eos_reached, stop_token_hit.
  destruct (Z.leb_spec (max_model_len s) (num_tokens r)) as [H1|H1]; cbn [orb].
  { eexists _, true. split; [done|]. split; [|by left; left].
    exists FINISHED_LENGTH_CAPPED, (stop_reason r). split; [by destruct r|done]. }
  destruct (Z.leb_spec (max_tokens r) (num_output_tokens r)) as [H2|H2].
  { eexists _, true. split; [done|]. split; [|by left; right].
    exists FINISHED_LENGTH_CAPPED, (stop_reason r). split; [by destruct r|done]. }
  rewrite Ht. cbn [or_raise mbind result_bind].
  destruct (ignore_eos (sampling_params r)); cbn [negb andb]; [|case_bool_decide as H3].
  2: { eexists _, true. split; [done|]. split; [|by right; left].
       exists FINISHED_STOPPED, (stop_reason r). split; [by destruct r|done]. }
  all: case_bool_decide as H4; [|eexists _, false; split; [done|]; split_and!; [done|lia|naive_solver..]].
  all: eexists _, true; split; [done|]; split; [|by right; right].
  all: exists FINISHED_STOPPED, (Some (stop_int t)); done.
Qed.

(** ** Changing or removing one request *)

(** [s] is [s0] with another object at [ref] and another encoder cache. *)
Record touched (ref : nat) (s0 s : Scheduler) : Prop := {
  to_max_run : max_num_running_reqs s = max_num_running_reqs s0;
  to_max_tok : max_num_scheduled_tokens s = max_num_scheduled_tokens s0;
  to_mml : max_model_len s = max_model_len s0;
  to_kv : kv_cache_manager s = kv_cache_manager s0;
  to_requests : requests s = requests s0;
  to_finished : finished_req_ids s = finished_req_ids s0;
  to_cached : _cached_reqs_data s = _cached_reqs_data s0;
  to_waiting : waiting s = waiting s0;
  to_objs : ∀ x, x ≠ ref -> obj s x = obj s0 x;
  to_dom : ∀ x, is_Some (objs s0 !! x) -> is_Some (objs s !! x);
}.

Lemma touched_obj s ref r : touched ref s (with_obj s ref r).
Proof.
  split; try done; [|apply dom_with_obj]. intros x Hx. by rewrite obj_with_obj, decide_False.
Qed.

Lemma touched_trans ref s1 s2 s3 : touched ref s1 s2 -> touched ref s2 s3 -> touched ref s1 s3.
Proof. intros [] []. split; try congruence; [|auto]. intros x Hx. rewrite to_objs1, to_objs0; done. Qed.

Section update.
Context (repr : list KVCacheBlock -> FreeKVCacheBlockQueue -> list nat -> Prop).
Context `{!FreeQueueSpec repr} `{PyHash}.
Abbreviation kv := kv_cache_manager.
Abbreviation ecm := encoder_cache_manager.
Abbreviation sched_inv := (sched_inv repr).
Implicit Types (s : Scheduler) (fl : list nat).

(** The invariant with the queues [wait] and [run]. *)
Definition inv_at s (wait run : list nat) fl : Prop := sched_inv (with_queues s wait run) fl.

Lemma touched_keep_inv s0 s fl ref wait run :
  inv_at s0 wait run fl -> touched ref s0 s -> ref ∈ run -> ref ∉ wait ->
  request_id (obj s ref) = request_id (obj s0 ref) ->
  mm_positions (obj s ref) = mm_positions (obj s0 ref) ->
  req_ok (max_model_len s0) (block_size (kv s0)) (obj s ref) ->
  running_ok (kv s0) (obj s ref) ->
  (∀ rid, rid ≠ request_id (obj s0 ref) -> cached (ecm s) !! rid = cached (ecm s0) !! rid) ->
  (∀ st, cached (ecm s) !! request_id (obj s0 ref) = Some st ->
    st ≠ ∅ ∧ ∀ i, i ∈ st -> (i < length (mm_positions (obj s0 ref)))%nat) ->
  inv_at s wait run fl.
Proof.
  intros Hi T Hrun Hwait Hid Hmm Hok Hrok Hoth Hown. unfold inv_at in *.
  pose proof (si_queues _ _ _ Hi) as Q. destruct Hi. destruct T as [T1 T2 T3 T4 T5 T6 T7 T8 T9 T10].
  assert (Hids : ∀ x, request_id (obj s x) = request_id (obj s0 x)).
  { intros x. destruct (decide (x = ref)) as [->|]; [done|by rewrite T9]. }
  split; simpl in *; rewrite ?T1, ?T2, ?T3, ?T4, ?T5; try done.
  - eapply (queues_ok_update _ (kv s0) (kv s0) (obj s0) _ wait run wait run ref); try done.
    set_solver.
  - intros x Hx. apply T10, si_dom. done.
  - intros rid x. change (obj (with_queues s wait run) x) with (obj s x). rewrite Hids. apply si_requests.
  - intros rid st Hst. simpl in Hst. destruct (decide (rid = request_id (obj s0 ref))) as [->|Hne].
    + destruct (Hown st Hst) as [? Hin]. split; [done|]. exists ref.
      change (obj (with_queues s wait run) ref) with (obj s ref). rewrite Hid, Hmm.
      split_and!; [|done|done]. unfold live. simpl. set_solver.
    + rewrite Hoth in Hst by done. destruct (si_enc rid st Hst) as (? & x & Hx & Ex & Hin).
      split; [done|]. exists x. change (obj (with_queues s wait run) x) with (obj s x).
      change (obj (with_queues s0 wait run) x) with (obj s0 x) in *.
      rewrite T9 by (intros ->; by rewrite Ex in Hne). done.
Qed.

(** A finished request without cached encoder inputs is released. *)
Lemma free_request_inv s0 s fl ref r wait run wait' run' :
  inv_at s0 wait run fl -> touched ref s0 s -> request_id r = request_id (obj s0 ref) ->
  is_finished r = true -> cached (ecm s) !! request_id r = None ->
  (∀ rid, rid ≠ request_id r -> cached (ecm s) !! rid = cached (ecm s0) !! rid) ->
  wait ++ run ≡ₚ ref :: wait' ++ run' -> (length run' <= length run)%nat ->
  (∀ x, x ≠ ref -> x ∈ wait' <-> x ∈ wait) -> (∀ x, x ≠ ref -> x ∈ run' <-> x ∈ run) ->
  ∃ s' fl', _free_request s r = Ok s' ∧ inv_at s' wait' run' fl' ∧
    kv_keeps (request_id r) (kv s0) (kv s') ∧ (∀ x, obj s' x = obj s x) ∧
    max_model_len s' = max_model_len s0 ∧ finished_req_ids s' = {[request_id r]} ∪ finished_req_ids s0 ∧
    req_to_blocks (kv s') !! request_id r = None ∧ requests s' = delete (request_id r) (requests s0) ∧
    waiting s' = waiting s0 ∧ running s' = running s ∧ ecm s' = ecm s ∧
    _cached_reqs_data s' = delete (request_id r) (_cached_reqs_data s0).
Proof.
  intros Hi T Hid Hfin Hnone Hoth Hperm Hlen Hw Hr. unfold inv_at in *.
  destruct T as [T1 T2 T3 T4 T5 T6 T7 T8 T9 T10]. unfold _free_request.
  rewrite Hfin. cbn [py_assert mbind result_bind]. rewrite T4.
  destruct (free_spec repr _ fl r (si_kv _ _ _ Hi)) as (m' & freed & E & _).
  destruct (free_keeps repr _ _ _ _ (si_kv _ _ _ Hi) E) as (K & Hblk & fl' & Hi').
  simpl in E, K. rewrite E. cbn [mbind result_bind].
  unfold ecm_free. change (ecm (with_kv s m')) with (ecm s). unfold get_cached_input_ids.
  rewrite Hnone. cbn [from_option]. rewrite elements_empty. cbn [ecm_free_loop].
  rewrite decide_True by done. cbn [mbind result_bind].
  assert (Hreq : requests s0 !! request_id r = Some ref).
  { apply (si_requests _ _ _ Hi). split; [unfold live; simpl; rewrite Hperm; by left|done]. }
  change (requests (with_cached_data _ _)) with (requests s). rewrite T5, Hreq.
  cbn [or_raise mbind result_bind]. eexists _, fl'. split; [done|]. set (s' := with_finished _ _).
  pose proof (si_queues _ _ _ Hi) as Q. destruct Hi. simpl in *.
  assert (Hx : ∀ x, x ∈ wait' ++ run' -> x ≠ ref ∧ x ∈ wait ++ run).
  { intros x Hx. pose proof (qo_nodup _ _ _ _ _ Q) as Hnd. rewrite Hperm in Hnd.
    apply NoDup_cons in Hnd as [Hnd _]. rewrite Hperm. split; [by intros ->|by right]. }
  split_and!; try done; [split; simpl; try done| |].
  - rewrite T3. eapply (queues_ok_remove _ (kv s0) m' (obj s0) _ wait run); try done.
    by rewrite <-Hid. by rewrite <-Hid.
  - by rewrite (kf_mml _ _ (kk_frame _ _ _ K)), T3.
  - by rewrite T2.
  - rewrite T1. lia.
  - intros x [_ Hx']%Hx. by apply T10, si_dom.
  - intros rid x. change (obj (with_queues s' wait' run') x) with (obj s x).
    rewrite lookup_delete_Some, si_requests. unfold live. simpl. split.
    + intros (Hne & Hin & Ex). assert (x ≠ ref) by (intros ->; apply Hne; rewrite Hid; exact Ex).
      rewrite T9 by done. split; [|done]. rewrite Hperm in Hin. set_solver.
    + intros [Hin Ex]. destruct (Hx x Hin) as [Hne Hin']. rewrite T9 in Ex by done.
      split_and!; [|done|done]. intros E'. apply Hne. apply (qo_ids _ _ _ _ _ Q); [done| |].
      * rewrite Hperm. by left.
      * change (request_id (obj s0 x) = request_id (obj s0 ref)). congruence.
  - intros rid st Hst. simpl in Hst. assert (Hne : rid ≠ request_id r) by (intros ->; congruence).
    rewrite Hoth in Hst by done. destruct (si_enc rid st Hst) as (? & x & Hin & Ex & Hi2).
    split; [done|]. exists x. change (obj (with_queues s' wait' run') x) with (obj s x).
    change (obj (with_queues s0 wait run) x) with (obj s0 x) in *.
    assert (x ≠ ref) by (intros ->; congruence). rewrite T9 by done. split_and!; [|done|done].
    unfold live in *. simpl in *. rewrite Hperm in Hin. set_solver.
  - by rewrite T6.
  - by rewrite T7.
Qed.

(** ** One iteration of the loop *)

(** The model runner sampled [t] for the request [rid]. *)
Definition sampled (mo : ModelRunnerOutput) (rid : string) (t : Z) : Prop :=
  ∃ idx, req_id_to_index mo !! rid = Some idx ∧ sampled_token_ids mo !! idx = Some t.

Definition scheduled_for (ns : gmap string Z) (r : Request) : Z := default 0 (ns !! request_id r).

(** What the model runner and the scheduler output owe to the request [ref]. *)
Definition update_pre s (ns : gmap string Z) (mo : ModelRunnerOutput) (ref : nat) : Prop :=
  let r := obj s ref in
  let n := scheduled_for ns r in
  n ≠ 0 -> given s ref n ∧
    (num_computed_tokens r + n = num_tokens r -> ∃ t, sampled mo (request_id r) t).

(** The output and the new object [r'] of a request [r] that had [n] tokens
    scheduled. *)
Definition update_out s (mo : ModelRunnerOutput) (r : Request) (n : Z) (keep : bool)
    (o : option EngineCoreOutput) (r' : Request) : Prop :=
  match o with
  | None => keep = true ∧ r' = set_num_computed_tokens (num_computed_tokens r + n) r ∧
      (n ≠ 0 -> num_computed_tokens r + n < num_tokens r)
  | Some eo => n ≠ 0 ∧ num_computed_tokens r + n = num_tokens r ∧ ∃ t, sampled mo (request_id r) t ∧
      all_token_ids r' = all_token_ids r ++ [t] ∧ is_finished r' = negb keep ∧
      eo = mkEngineCoreOutput (request_id r) [t] (negb keep) (get_finished_reason r') (stop_reason r') ∧
      (keep = false <-> length_capped s (append_output_token_ids [t] r) ∨
         eos_reached r t ∨ stop_token_hit r t)
  end.

(** The encoder cache entries after the iteration for [ref]: those of the other
    requests are untouched, and a request that got a token has none left. *)
Definition enc_after s s' (ref : nat) (o : option EngineCoreOutput) : Prop :=
  (∀ rid, rid ≠ request_id (obj s ref) -> cached (ecm s') !! rid = cached (ecm s) !! rid) ∧
  (is_Some o -> cached (ecm s') !! request_id (obj s ref) = None).

(** After the computed tokens were advanced and consumed inputs released. *)
Definition advanced s (ref : nat) (r1 : Request) (e : EncoderCacheManager) : Scheduler :=
  with_ecm (with_obj s ref r1) e.

Lemma advanced_touched s ref r1 e :
  touched ref s (advanced s ref r1 e) ∧ obj (advanced s ref r1 e) ref = r1.
Proof.
  split; [destruct (touched_obj s ref r1); by split|].
  change (obj (with_obj s ref r1) ref = r1). by rewrite obj_with_obj, decide_True.
Qed.

Lemma live_cached_range s fl wait run ref :
  inv_at s wait run fl -> ref ∈ wait ++ run ->
  (∀ st, cached (ecm s) !! request_id (obj s ref) = Some st -> st ≠ ∅) ∧
  (∀ i, i ∈ get_cached_input_ids (ecm s) (obj s ref) -> (i < length (mm_positions (obj s ref)))%nat).
Proof.
  intros Hi Href. split; [intros st Hst; by apply (si_enc _ _ _ Hi) in Hst as [? _]|].
  intros i. unfold get_cached_input_ids.
  destruct (cached (ecm s) !! request_id (obj s ref)) as [st|] eqn:Hst; simpl; [|set_solver].
  destruct (si_enc _ _ _ Hi _ _ Hst) as (_ & x & Hx & Ex & Hin).
  assert (x = ref) as -> by by apply (qo_ids _ _ _ _ _ (si_queues _ _ _ Hi)). apply Hin.
Qed.

Lemma release_step s fl wait run ref r1 :
  inv_at s wait run fl -> ref ∈ wait ++ run ->
  request_id r1 = request_id (obj s ref) -> mm_positions r1 = mm_positions (obj s ref) ->
  ∃ e, for_each (release_consumed r1) (elements (get_cached_input_ids (ecm s) r1)) (ecm s) = Ok e ∧
    (∀ rid, rid ≠ request_id r1 -> cached e !! rid = cached (ecm s) !! rid) ∧
    (∀ st, cached e !! request_id r1 = Some st -> st ≠ ∅ ∧
       ∀ i, i ∈ st -> (i < length (mm_positions r1))%nat ∧ ¬ consumed r1 i).
Proof.
  intros Hi Href Hid Hmm. destruct (live_cached_range s fl wait run ref Hi Href) as [Hne Hrng].
  assert (Eg : get_cached_input_ids (ecm s) r1 = get_cached_input_ids (ecm s) (obj s ref))
    by (unfold get_cached_input_ids; by rewrite Hid).
  destruct (release_loop_spec r1 (elements (get_cached_input_ids (ecm s) r1)) (ecm s))
    as (e & -> & [Ho Hn] & Hin).
  { intros i. rewrite elem_of_elements, Eg, Hmm. apply Hrng. }
  { by rewrite Hid. }
  exists e. split_and!; try done. intros st Hst. split; [by apply Hn|]. intros i Hi'.
  assert (Hg : i ∈ get_cached_input_ids e r1) by (unfold get_cached_input_ids; by rewrite Hst).
  apply Hin in Hg as [Hg Hnc]. rewrite Hmm. split; [apply Hrng; by rewrite <-Eg|].
  intros Hc. apply Hnc. by rewrite elem_of_elements.
Qed.

Lemma mid_not_in (wait l rest : list nat) ref :
  NoDup (wait ++ l ++ ref :: rest) -> (ref ∉ wait) ∧ (ref ∉ l) ∧ ref ∉ rest.
Proof.
  intros Hnd. apply NoDup_app in Hnd as (_ & Hw & Hnd). apply NoDup_app in Hnd as (_ & Hl & Hnd).
  apply NoDup_cons in Hnd as [Hr _]. split_and!; [|intros Hin; apply (Hl ref Hin); by left|done].
  intros Hin. apply (Hw ref Hin). set_solver.
Qed.

(** The request stays: its tokens may have grown by the sampled ones [ts]. *)
Lemma update_keep s fl wait l ref rest n e s2 ts :
  inv_at s wait (l ++ ref :: rest) fl -> given s ref n ->
  let r1 := set_num_computed_tokens (num_computed_tokens (obj s ref) + n) (obj s ref) in
  let r2 := append_output_token_ids ts r1 in
  num_computed_tokens r2 < num_tokens r2 <= max_model_len s ->
  touched ref s s2 -> obj s2 ref = r2 -> ecm s2 = e ->
  (∀ rid, rid ≠ request_id r1 -> cached e !! rid = cached (ecm s) !! rid) ->
  (∀ st, cached e !! request_id r1 = Some st -> st ≠ ∅ ∧
     ∀ i, i ∈ st -> (i < length (mm_positions r1))%nat ∧ ¬ consumed r1 i) ->
  inv_at s2 wait (l ++ ref :: rest) fl.
Proof.
  intros Hi Hg r1 r2 Hnum T Hobj He Hoth Hown.
  pose proof (si_queues _ _ _ Hi) as Q. simpl in Q.
  destruct (mid_not_in _ _ _ _ (qo_nodup _ _ _ _ _ Q)) as (Hw & _).
  assert (Href : ref ∈ wait ++ l ++ ref :: rest) by set_solver.
  destruct (qo_run _ _ _ _ _ Q ref ltac:(set_solver)) as (Hst & Hc & _).
  destruct (qo_req _ _ _ _ _ Q ref Href) as [Hwf Hmm Hpos Hmax Hh Hpl].
  change (obj (with_queues s _ _) ref) with (obj s ref) in *.
  assert (Hnt : num_tokens r2 = num_tokens (obj s ref) + len ts).
  { unfold num_tokens. simpl. rewrite length_app. lia. }
  destruct Hg as (Hn & Htot & Hrok).
  apply (touched_keep_inv s s2 fl ref); try done; rewrite ?Hobj; try done.
  - set_solver.
  - split; rewrite ?Hnt; try lia.
    + apply append_output_token_ids_wf, set_num_computed_tokens_wf, Hwf.
    + exact Hmm.
    + simpl. change (block_size (kv (with_queues s wait (l ++ ref :: rest)))) with (block_size (kv s)) in Hh.
      lia.
    + intros p Hp. specialize (Hpl p Hp). lia.
  - split; [done|]. split; [simpl in *; lia|]. exact Hrok.
  - by rewrite He.
  - rewrite He. intros st Hst'. destruct (Hown st Hst') as [? Hin]. split; [done|].
    intros i Hi'. by apply Hin.
Qed.

(** The request caught up: a token is sampled, and the request stays or ends. *)
Lemma sample_request_spec s fl wait l ref rest n mo e :
  inv_at s wait (l ++ ref :: rest) fl -> n ≠ 0 -> given s ref n ->
  num_computed_tokens (obj s ref) + n = num_tokens (obj s ref) ->
  (∃ t, sampled mo (request_id (obj s ref)) t) ->
  let r1 := set_num_computed_tokens (num_computed_tokens (obj s ref) + n) (obj s ref) in
  (∀ rid, rid ≠ request_id r1 -> cached e !! rid = cached (ecm s) !! rid) ->
  (∀ st, cached e !! request_id r1 = Some st -> st ≠ ∅ ∧
     ∀ i, i ∈ st -> (i < length (mm_positions r1))%nat ∧ ¬ consumed r1 i) ->
  ∃ s' keep o fl', sample_request mo ref r1 (advanced s ref r1 e) = Ok (s', keep, o) ∧
    inv_at s' wait (l ++ (if keep then [ref] else []) ++ rest) fl' ∧
    kv_keeps (request_id (obj s ref)) (kv s) (kv s') ∧ (∀ x, x ≠ ref -> obj s' x = obj s x) ∧
    waiting s' = waiting s ∧ max_model_len s' = max_model_len s ∧
    requests s' = (if keep then requests s else delete (request_id (obj s ref)) (requests s)) ∧
    (cached_ids_ok s -> cached_ids_ok s') ∧ enc_after s s' ref o ∧
    update_out s mo (obj s ref) n keep o (obj s' ref).
Proof.
  intros Hi Hn0 Hg Heq (t & idx & Hidx & Htok) r1 Hoth Hown. unfold sample_request.
  change (request_id r1) with (request_id (obj s ref)) in *.
  rewrite Hidx. cbn [or_raise mbind result_bind]. rewrite Htok. cbn [or_raise mbind result_bind].
  destruct (advanced_touched s ref r1 e) as [T Hobj]. set (s1 := advanced s ref r1 e) in *.
  pose proof (si_queues _ _ _ Hi) as Q. simpl in Q.
  destruct (mid_not_in _ _ _ _ (qo_nodup _ _ _ _ _ Q)) as (Hw & Hl & Hrest).
  destruct (qo_req _ _ _ _ _ Q ref ltac:(set_solver)) as [_ _ _ _ _ Hpl].
  set (r2 := append_output_token_ids [t] r1).
  destruct (check_stop_spec s1 r2 t) as (r3 & b & -> & Hb); [simpl; apply last_snoc|].
  cbn [mbind result_bind]. set (s2 := with_obj s1 ref r3).
  assert (T2 : touched ref s s2) by (eapply touched_trans; [exact T|apply touched_obj]).
  assert (Hobj2 : obj s2 ref = r3) by (unfold s2; by rewrite obj_with_obj, decide_True).
  assert (Hlast : drop (length (output_token_ids r2) - 1) (output_token_ids r2) = [t]).
  { simpl. rewrite length_app. simpl. rewrite Nat.add_sub. apply drop_app_length. }
  assert (Hsmp : sampled mo (request_id (obj s ref)) t) by by exists idx.
  assert (Hnone : cached e !! request_id (obj s ref) = None).
  { apply eq_None_not_Some. intros [stt Hst].
    destruct (Hown stt Hst) as [Hne Hall]. apply set_choose_L in Hne as [i Hin].
    destruct (Hall i Hin) as [Hlt Hnc]. apply Hnc.
    destruct (lookup_lt_is_Some_2 _ _ Hlt) as [p Hp]. exists p. split; [done|].
    specialize (Hpl p (list_elem_of_lookup_2 _ _ _ Hp)).
    change (offset p + length_ p <= num_tokens (obj s ref)) in Hpl. simpl. lia. }
  destruct b.
  - destruct Hb as [(st & sr & -> & Hfin) Hstop].
    destruct (free_request_inv s s2 fl ref (set_stop_reason sr (set_status st r2)) wait
      (l ++ ref :: rest) wait (l ++ rest) Hi T2)
      as (s' & fl' & -> & Hi' & K' & Hobj' & Hml & _ & _ & Hreq' & Hwait' & _ & Hecm' & Hcd); try done.
    + by rewrite <-!Permutation_middle.
    + rewrite !length_app. simpl. lia.
    + intros x Hx. rewrite !elem_of_app, elem_of_cons. naive_solver.
    + cbn [mbind result_bind]. exists s', false. eexists _, fl'. split; [done|].
      split_and!; try done.
      * intros x Hx. rewrite Hobj'. by apply T2.
      * intros Hc rid d. rewrite Hcd. intros [_ Hd]%lookup_delete_Some. by apply Hc.
      * unfold enc_after. by rewrite Hecm'.
      * split_and!; [done|done|]. exists t. rewrite Hobj', Hobj2. split_and!; try done.
        f_equal; [exact Hlast|exact Hfin].
  - destruct Hb as (-> & Hstop). cbn [mbind result_bind]. exists s2, true. eexists _, fl. split; [done|].
    destruct (qo_run _ _ _ _ _ Q ref ltac:(set_solver)) as (Hst & _).
    change (obj (with_queues s _ _) ref) with (obj s ref) in Hst.
    assert (Hfin : is_finished r2 = false) by (unfold is_finished; simpl; by rewrite Hst).
    split; [|split_and!; try done; [apply T2|]].
    + apply (update_keep s fl wait l ref rest n e s2 [t]); try done. unfold length_capped in Hstop.
      change (max_model_len s1) with (max_model_len s) in Hstop. fold r1 r2.
      assert (num_tokens r2 = num_tokens (obj s ref) + 1)
        by (unfold num_tokens; simpl; rewrite length_app; simpl; lia).
      change (num_computed_tokens r2) with (num_computed_tokens (obj s ref) + n). lia.
    + split_and!; [done|done|]. exists t. rewrite Hobj2. split_and!; try done.
      * f_equal; [exact Hlast|exact Hfin].
      * split; [done|]. intros Hs. exfalso. destruct Hstop as (H1 & H2 & H3).
        destruct Hs as [Hs|[Hs|Hs]]; [by apply H1|by apply H2|by apply H3].
Qed.

(** What the iteration for [ref] leaves alone: the identity and the prompt of the
    request; a request that stays keeps its block table, one that ends is reported. *)
Record iteration (ns : gmap string Z) s s' (ref : nat) (keep : bool) : Prop := {
  it_id : request_id (obj s' ref) = request_id (obj s ref);
  it_prompt : prompt_token_ids (obj s' ref) = prompt_token_ids (obj s ref);
  it_computed : num_computed_tokens (obj s' ref) = num_computed_tokens (obj s ref) + scheduled_for ns (obj s ref);
  it_kv : keep = true -> kv s' = kv s;
  it_finished : finished_req_ids s' =
    if keep then finished_req_ids s else {[request_id (obj s ref)]} ∪ finished_req_ids s;
  it_limits : max_num_running_reqs s' = max_num_running_reqs s ∧
    max_num_scheduled_tokens s' = max_num_scheduled_tokens s;
}.

Lemma check_stop_frame s r r' b : _check_stop s r = Ok (r', b) ->
  request_id r' = request_id r ∧ prompt_token_ids r' = prompt_token_ids r ∧
  num_computed_tokens r' = num_computed_tokens r.
Proof.
  unfold _check_stop. intros E. case_match; [by simplify_eq|].
  apply bind_Ok_inv in E as (t & _ & E). repeat case_match; by simplify_eq.
Qed.

Lemma free_request_frame s r s' : _free_request s r = Ok s' ->
  finished_req_ids s' = {[request_id r]} ∪ finished_req_ids s ∧ (∀ x, obj s' x = obj s x) ∧
  max_num_running_reqs s' = max_num_running_reqs s ∧
  max_num_scheduled_tokens s' = max_num_scheduled_tokens s ∧ max_model_len s' = max_model_len s ∧
  waiting s' = waiting s ∧ running s' = running s ∧ free (kv s) r = Ok (kv s').
Proof.
  unfold _free_request. intros E. apply bind_Ok_inv in E as (u & _ & E).
  apply bind_Ok_inv in E as (m & Em & E). apply bind_Ok_inv in E as (e & _ & E).
  apply bind_Ok_inv in E as (v & _ & E). injection E as <-. done.
Qed.

Lemma update_request_frame s ns mo ref s' keep o :
  update_request ns mo ref s = Ok (s', keep, o) -> iteration ns s s' ref keep.
Proof.
  unfold update_request. intros E. fold (scheduled_for ns (obj s ref)) in E.
  destruct (Z.eqb_spec (scheduled_for ns (obj s ref)) 0) as [Hz|Hz]; [injection E as <- <- _; split; by rewrite ?Hz, ?Z.add_0_r|].
  apply bind_Ok_inv in E as (u & _ & E). apply bind_Ok_inv in E as (e & _ & E).
  set (r1 := set_num_computed_tokens _ (obj s ref)) in *. set (s1 := with_ecm (with_obj s ref r1) e) in *.
  assert (Hobj : obj s1 ref = r1) by (unfold s1; exact (eq_trans (obj_with_obj s ref r1 ref) (decide_True _ _ eq_refl))).
  case_match; [|injection E as <- <- _; split; by rewrite ?Hobj].
  unfold sample_request in E. apply bind_Ok_inv in E as (i & _ & E). apply bind_Ok_inv in E as (t & _ & E).
  apply bind_Ok_inv in E as ([r2 stopped] & Ec & E). apply check_stop_frame in Ec as (Eid & Epr & Enc).
  apply bind_Ok_inv in E as (s2 & Es & E). injection E as <- <- _.
  assert (Hobj2 : obj (with_obj s1 ref r2) ref = r2) by (by rewrite obj_with_obj, decide_True).
  destruct stopped.
  - apply free_request_frame in Es as (Ef & Eo & Er & Et & _). split; rewrite ?Eo, ?Hobj2; try done. by rewrite Ef, Eid.
  - injection Es as <-. split; by rewrite ?Hobj2.
Qed.

Lemma update_request_spec s fl wait l ref rest ns mo :
  inv_at s wait (l ++ ref :: rest) fl -> update_pre s ns mo ref ->
  ∃ s' keep o fl', update_request ns mo ref s = Ok (s', keep, o) ∧
    inv_at s' wait (l ++ (if keep then [ref] else []) ++ rest) fl' ∧
    kv_keeps (request_id (obj s ref)) (kv s) (kv s') ∧ (∀ x, x ≠ ref -> obj s' x = obj s x) ∧
    waiting s' = waiting s ∧ max_model_len s' = max_model_len s ∧
    requests s' = (if keep then requests s else delete (request_id (obj s ref)) (requests s)) ∧
    (cached_ids_ok s -> cached_ids_ok s') ∧ enc_after s s' ref o ∧
    update_out s mo (obj s ref) (scheduled_for ns (obj s ref)) keep o (obj s' ref).
Proof.
  intros Hi Hpre. unfold update_pre, update_request in *. fold (scheduled_for ns (obj s ref)).
  set (n := scheduled_for ns (obj s ref)) in *. destruct (Z.eqb_spec n 0) as [Hn0|Hn0].
  { exists s, true, None, fl. split_and!; try done. split_and!; [done| |done].
    rewrite Hn0, Z.add_0_r. by destruct (obj s ref). }
  destruct (Hpre Hn0) as [Hg Hsamp]. pose proof Hg as (Hn & Htot & Hrok).
  set (r1 := set_num_computed_tokens (num_computed_tokens (obj s ref) + n) (obj s ref)).
  change (num_tokens r1) with (num_tokens (obj s ref)).
  change (num_computed_tokens r1) with (num_computed_tokens (obj s ref) + n).
  rewrite (proj2 (Z.leb_le _ _) Htot). cbn [py_assert mbind result_bind].
  pose proof (si_queues _ _ _ Hi) as Q. simpl in Q.
  assert (Href : ref ∈ wait ++ l ++ ref :: rest) by set_solver.
  destruct (release_step s fl wait _ ref r1 Hi Href eq_refl eq_refl) as (e & Ee & Hoth & Hown).
  change (ecm (with_obj s ref r1)) with (ecm s). rewrite Ee. cbn [mbind result_bind].
  destruct (advanced_touched s ref r1 e) as [T Hobj]. fold (advanced s ref r1 e).
  pose proof (ro_max _ _ _ (qo_req _ _ _ _ _ Q ref Href)) as Hmax.
  change (obj (with_queues s _ _) ref) with (obj s ref) in Hmax.
  destruct (Z.eqb_spec (num_computed_tokens (obj s ref) + n) (num_tokens (obj s ref))) as [Heq|Hneq].
  { by apply (sample_request_spec s fl wait l ref rest n mo e Hi Hn0 Hg Heq (Hsamp Heq)). }
  exists (advanced s ref r1 e), true, None, fl. split; [done|]. split.
  - apply (update_keep s fl wait l ref rest n e (advanced s ref r1 e) []); try done.
    + change (num_tokens (append_output_token_ids [] _)) with (len (all_token_ids (obj s ref) ++ [])).
      rewrite app_nil_r. fold (num_tokens (obj s ref)). simpl. lia.
    + rewrite Hobj. unfold append_output_token_ids. simpl. rewrite !app_nil_r. by destruct (obj s ref).
  - split_and!; try done; [apply T|]. split_and!; [done|by rewrite Hobj|lia].
Qed.

(** ** The loop *)

(** What the loop over [refs] did: [kept] stay, [outs] are sent to the clients. *)
Record update_post s s' (ns : gmap string Z) mo (refs kept : list nat)
    (outs : list EngineCoreOutput) : Prop := {
  up_sublist : kept `sublist_of` refs;
  up_each : ∀ x, x ∈ refs -> ∃ keep o,
    update_out s mo (obj s x) (scheduled_for ns (obj s x)) keep o (obj s' x) ∧
    (keep = true <-> x ∈ kept) ∧ (∀ eo, o = Some eo -> eo ∈ outs);
  up_outs : ∀ eo, eo ∈ outs -> ∃ x keep, x ∈ refs ∧ (keep = true <-> x ∈ kept) ∧
    update_out s mo (obj s x) (scheduled_for ns (obj s x)) keep (Some eo) (obj s' x);
  up_distinct : NoDup (eco_request_id <$> outs);
  up_encoder : ∀ eo, eo ∈ outs -> cached (ecm s') !! eco_request_id eo = None;
  up_enc_frame : ∀ rid, (∀ x, x ∈ refs -> request_id (obj s x) ≠ rid) ->
    cached (ecm s') !! rid = cached (ecm s) !! rid;
  up_requests : ∀ rid x, requests s' !! rid = Some x <->
    requests s !! rid = Some x ∧ (x ∈ refs -> x ∈ kept);
  up_rest : ∀ x, x ∉ refs -> obj s' x = obj s x;
  up_limits : same_limits s s';
  up_prompts : ∀ x, request_id (obj s' x) = request_id (obj s x) ∧
    prompt_token_ids (obj s' x) = prompt_token_ids (obj s x);
  up_computed : ∀ x, x ∈ refs ->
    num_computed_tokens (obj s' x) = num_computed_tokens (obj s x) + scheduled_for ns (obj s x);
  up_tables : ∀ rid, (∀ x, x ∈ refs -> request_id (obj s x) = rid -> x ∈ kept) ->
    req_to_blocks (kv s') !! rid = req_to_blocks (kv s) !! rid;
  up_finished : ∀ rid, rid ∈ finished_req_ids s' <-> rid ∈ finished_req_ids s ∨
    ∃ x, x ∈ refs ∧ (x ∉ kept) ∧ request_id (obj s x) = rid;
}.

Lemma update_pre_other s fl wait run s' ns mo ref x :
  inv_at s wait run fl -> ref ∈ wait ++ run -> x ∈ wait ++ run -> x ≠ ref ->
  kv_keeps (request_id (obj s ref)) (kv s) (kv s') -> (∀ y, y ≠ ref -> obj s' y = obj s y) ->
  update_pre s ns mo x -> update_pre s' ns mo x.
Proof.
  intros Hi Href Hx Hne K Ho Hpre. unfold update_pre, given in *. rewrite (Ho x Hne).
  intros Hn. destruct (Hpre Hn) as ((? & ? & ?) & ?). split_and!; try done.
  eapply run_ok_keep; [done| |done]. intros E. apply Hne.
  by apply (qo_ids _ _ _ _ _ (si_queues _ _ _ Hi)).
Qed.

(** [update_out] only reads the configuration and the object of its request. *)
Lemma update_out_eq s1 s mo r n keep o r' :
  max_model_len s1 = max_model_len s -> update_out s1 mo r n keep o r' -> update_out s mo r n keep o r'.
Proof.
  intros Hm. destruct o as [eo|]; [|done]. intros (? & ? & t & ? & ? & ? & ? & Hst).
  split_and!; try done. exists t. split_and!; try done. unfold length_capped in *. by rewrite <-Hm.
Qed.

Lemma update_out_id s mo r n keep eo r' :
  update_out s mo r n keep (Some eo) r' -> eco_request_id eo = request_id r.
Proof. by intros (_ & _ & t & _ & _ & _ & -> & _). Qed.

(** One iteration followed by the rest of the loop. *)
Lemma update_post_cons s s1 s' ns mo ref refs (keep : bool) o kept outs :
  NoDup (ref :: refs) ->
  (∀ x y, x ∈ ref :: refs -> y ∈ ref :: refs -> request_id (obj s x) = request_id (obj s y) -> x = y) ->
  (∀ rid : string, requests s !! rid = Some ref <-> rid = request_id (obj s ref)) ->
  requests s1 = (if keep then requests s else delete (request_id (obj s ref)) (requests s)) ->
  (∀ x, x ≠ ref -> obj s1 x = obj s x) -> max_model_len s1 = max_model_len s ->
  kv_keeps (request_id (obj s ref)) (kv s) (kv s1) -> iteration ns s s1 ref keep ->
  enc_after s s1 ref o -> update_out s mo (obj s ref) (scheduled_for ns (obj s ref)) keep o (obj s1 ref) ->
  update_post s1 s' ns mo refs kept outs ->
  update_post s s' ns mo (ref :: refs) ((if keep then [ref] else []) ++ kept)
    (match o with Some x => [x] | None => [] end ++ outs).
Proof.
  intros [Hnr Hnd]%NoDup_cons Hids Hrq Hrq1 Ho1 Hm K Hit [He1 He2] Hu1
    [Hs Heach Houts Hdist Henc Hfr Hreqs Hrest Hmml Hprompts Hcomp Htables Hfin].
  assert (Hne : ∀ x, x ∈ refs -> x ≠ ref) by (by intros x Hx ->).
  assert (Hnk : ref ∉ kept) by (intros Hk; apply Hnr; by eapply elem_of_sublist).
  assert (Hin : ∀ k x, x ∈ refs -> (k = true <-> x ∈ kept) -> k = true <-> x ∈ (if keep then [ref] else []) ++ kept).
  { intros k x Hx ->. specialize (Hne x Hx). destruct keep; set_solver. }
  assert (Hid2 : ∀ x, x ∈ refs -> request_id (obj s1 x) ≠ request_id (obj s ref)).
  { intros x Hx. rewrite Ho1 by auto. intros E. apply (Hne x Hx). apply Hids; [by right|by left|done]. }
  assert (Hkr : keep = true <-> ref ∈ (if keep then [ref] else []) ++ kept) by (destruct keep; set_solver).
  split.
  - destruct keep; [by apply sublist_skip|by apply sublist_cons].
  - intros x [->|Hx]%elem_of_cons.
    + exists keep, o. rewrite (Hrest ref) by done. split_and!; [done..|]. intros eo ->. set_solver.
    + destruct (Heach x Hx) as (k & o' & Hu & Hk & Ho'). rewrite (Ho1 x (Hne x Hx)) in Hu.
      exists k, o'. split_and!; [by eapply update_out_eq|by apply Hin|].
      intros eo E. apply elem_of_app. right. by apply Ho'.
  - intros eo [Heo|Heo]%elem_of_app.
    + destruct o as [eo'|]; [|set_solver]. apply list_elem_of_singleton in Heo as ->.
      exists ref, keep. rewrite (Hrest ref) by done. split_and!; [by left|done|done].
    + destruct (Houts eo Heo) as (x & k & Hx & Hk & Hu). rewrite (Ho1 x (Hne x Hx)) in Hu.
      exists x, k. split_and!; [by right|by apply Hin|by eapply update_out_eq].
  - destruct o as [eo|]; [|done]. apply NoDup_cons. split; [|done].
    rewrite (update_out_id _ _ _ _ _ _ _ Hu1). intros (eo' & E & Heo)%list_elem_of_fmap.
    destruct (Houts eo' Heo) as (x & k & Hx & _ & Hu). rewrite (update_out_id _ _ _ _ _ _ _ Hu) in E.
    by apply (Hid2 x Hx).
  - intros eo [Heo|Heo]%elem_of_app; [|by apply Henc].
    destruct o as [eo'|]; [|set_solver]. apply list_elem_of_singleton in Heo as ->.
    rewrite (update_out_id _ _ _ _ _ _ _ Hu1), Hfr by done. by apply He2.
  - intros rid Hrid. rewrite Hfr, He1; [done| |].
    + intros ->. by apply (Hrid ref); [left|].
    + intros x Hx. rewrite Ho1 by auto. apply Hrid. by right.
  - intros rid x. rewrite Hreqs, Hrq1. destruct (decide (x = ref)) as [->|Hxr].
    + rewrite Hrq. destruct keep; [rewrite Hrq; set_solver|].
      rewrite lookup_delete_Some, Hrq. set_solver.
    + assert (requests s !! rid = Some x -> rid ≠ request_id (obj s ref)).
      { intros Hx E. apply Hrq in E. congruence. }
      destruct keep; [set_solver|]. rewrite lookup_delete_Some. set_solver.
  - intros x [Hx Hx']%not_elem_of_cons. by rewrite Hrest, Ho1.
  - transitivity s1; [|done]. destruct (it_limits _ _ _ _ _ Hit). split; try done. apply K.
  - intros x. destruct (Hprompts x) as [-> ->]. destruct (decide (x = ref)) as [->|Hx]; [by destruct Hit|by rewrite Ho1].
  - intros x [->|Hx]%elem_of_cons; [rewrite (Hrest ref Hnr); apply (it_computed _ _ _ _ _ Hit)|].
    rewrite (Hcomp x Hx). by rewrite Ho1 by auto.
  - intros rid Hrid. rewrite Htables.
    + destruct (decide (rid = request_id (obj s ref))) as [->|Hr]; [|by apply (kk_reqs _ _ _ K)].
      by rewrite (it_kv _ _ _ _ _ Hit) by (apply Hkr, Hrid; [left|done]).
    + intros x Hx E. rewrite Ho1 in E by auto. specialize (Hrid x ltac:(by right) E). specialize (Hne x Hx).
      destruct keep; set_solver.
  - intros rid. rewrite Hfin, (it_finished _ _ _ _ _ Hit). split.
    + intros [Hr|(x & Hx & Hk & E)].
      * destruct keep; [by left|]. apply elem_of_union in Hr as [->%elem_of_singleton|Hr]; [|by left].
        right. exists ref. split_and!; [by left|set_solver|done].
      * right. exists x. rewrite <-Ho1 by auto. specialize (Hne x Hx).
        split_and!; [by right|destruct keep; set_solver|done].
    + intros [Hr|(x & Hx & Hk & E)]; [left; destruct keep; set_solver|].
      apply elem_of_cons in Hx as [->|Hx].
      * left. destruct keep; [destruct Hk; apply elem_of_app; left; by left|]. rewrite <-E. set_solver.
      * right. exists x. rewrite Ho1 by auto. split_and!; [done|set_solver|done].
Qed.

Lemma update_loop_spec refs s fl wait nr outs ns mo :
  inv_at s wait (nr ++ refs) fl -> (∀ x, x ∈ refs -> update_pre s ns mo x) ->
  ∃ s' kept outs' fl', update_loop ns mo refs s nr outs = Ok (s', nr ++ kept, outs ++ outs') ∧
    inv_at s' wait (nr ++ kept) fl' ∧ waiting s' = waiting s ∧
    (cached_ids_ok s -> cached_ids_ok s') ∧ max_model_len s' = max_model_len s ∧
    update_post s s' ns mo refs kept outs'.
Proof.
  revert s fl nr outs. induction refs as [|ref refs IH]; intros s fl nr outs Hi Hpre.
  { exists s, [], [], fl. rewrite !app_nil_r in *. split_and!; try done. split; try set_solver. constructor. }
  cbn [update_loop].
  destruct (update_request_spec s fl wait nr ref refs ns mo Hi (Hpre ref ltac:(by left)))
    as (s1 & keep & o & fl1 & E1 & Hi1 & K1 & Ho1 & Hw1 & Hm1 & Hq1 & Hc1 & He1 & Hu1).
  pose proof (update_request_frame _ _ _ _ _ _ _ E1) as Hit. rewrite E1. cbn [mbind result_bind].
  pose proof (si_queues _ _ _ Hi) as Q. pose proof (qo_nodup _ _ _ _ _ Q) as Hnd. simpl in Hnd.
  destruct (mid_not_in _ _ _ _ Hnd) as (Hnw & Hnl & Hnr).
  replace (if keep then nr ++ [ref] else nr) with (nr ++ if keep then [ref] else [])
    by (destruct keep; [done|by rewrite app_nil_r]).
  rewrite app_assoc in Hi1.
  destruct (IH s1 fl1 (nr ++ if keep then [ref] else [])
    (outs ++ match o with Some x => [x] | None => [] end) Hi1)
    as (s' & kept & outs' & fl' & -> & Hi' & Hw' & Hc' & Hm' & P).
  { intros x Hx. apply (update_pre_other s fl wait (nr ++ ref :: refs) s1 ns mo ref x Hi);
      [set_solver|set_solver|set_solver|done..|]. apply Hpre. by right. }
  exists s', ((if keep then [ref] else []) ++ kept), (match o with Some x => [x] | None => [] end ++ outs'), fl'.
  rewrite <-!app_assoc in *. split_and!; try done; [by rewrite Hw'|auto|by rewrite Hm'|].
  apply (update_post_cons s s1); try done.
  - apply NoDup_app in Hnd as (_ & _ & Hnd). by apply NoDup_app in Hnd as (_ & _ & Hnd).
  - intros x y Hx Hy. apply (qo_ids _ _ _ _ _ Q); set_solver.
  - intros rid. change (requests s) with (requests (with_queues s wait (nr ++ ref :: refs))).
    rewrite (si_requests _ _ _ Hi). unfold live. simpl. set_solver.
Qed.

Lemma update_from_output_spec s fl so mo :
  sched_inv s fl -> (∀ x, x ∈ running s -> update_pre s (num_scheduled_tokens so) mo x) ->
  ∃ s' eo fl', update_from_output s so mo = Ok (s', eo) ∧ sched_inv s' fl' ∧
    waiting s' = waiting s ∧ (cached_ids_ok s -> cached_ids_ok s') ∧
    scheduler_stats eo = make_stats s' ∧
    update_post s s' (num_scheduled_tokens so) mo (running s) (running s') (outputs eo).
Proof.
  intros Hi Hpre. unfold update_from_output.
  destruct (update_loop_spec (running s) s fl (waiting s) [] [] (num_scheduled_tokens so) mo)
    as (s' & kept & outs & fl' & -> & Hi' & Hw' & Hc & _ & [P1 P2 P3 P4 P5 P6 P7 P8 P9 P10 P11 P12 P13]); [|done|].
  { unfold inv_at. simpl. by destruct s. }
  cbn [mbind result_bind app]. eexists _, _, fl'. split; [done|].
  rewrite Hw'. split_and!; try done. split; try done. destruct P9. by split.
Qed.
End update.
