(* ===== verification/SchedulerTheorems.v ===== *)
(** * Theorems about the decoder scheduler

    [sched_reach] are the states the engine drives a [Scheduler] through: requests
    are added under fresh ids, encoder results arrive, steps are scheduled and
    their outputs processed (the worker may change the shared encoder cache in
    between), requests are finished from outside.  The theorems
    hold in every such state. *)

From stdpp Require Import base tactics list gmap sets strings.
From Stdlib Require Import ZArith QArith Lia.
From S2P Require Import Prelude.
From S2P Require Import SamplingParams.
From S2P Require Import Request.
From S2P Require Import BlockQueue.
From S2P Require Import BlockHash.
From S2P Require Import KVCacheManager.
From S2P Require Import KVCacheInv.
From S2P Require Import KVAlloc.
From S2P Require Import KVTheorems.
From S2P Require Import EncoderCache.
From S2P Require Import Scheduler.
From S2P Require Import SchedulerInv.
From S2P Require Import SchedulerLoops.
From S2P Require Import SchedulerStep.
From S2P Require Import SchedulerUpdate.

Local Open Scope Z_scope.

(** ** Adding and finishing requests *)

(** What the engine checks before it adds a request. *)
Record admissible (s : Scheduler) (r : Request) : Prop := {
  ad_ok : req_ok (max_model_len s) (block_size (kv_cache_manager s)) r;
  ad_status : status r = WAITING;
  ad_computed : num_computed_tokens r = 0;
  ad_fresh : requests s !! request_id r = None;
}.

(** A live request that still has cached encoder inputs. *)
Definition holds_encoder_inputs (s : Scheduler) (rid : string) : Prop :=
  is_Some (requests s !! rid) ∧ cached (encoder_cache_manager s) !! rid ≠ None.

#[export] Instance holds_encoder_inputs_dec s rid : Decision (holds_encoder_inputs s rid).
Proof. unfold holds_encoder_inputs. apply _. Defined.

Section ops.
Context (repr : list KVCacheBlock -> FreeKVCacheBlockQueue -> list nat -> Prop).
Context `{!FreeQueueSpec repr} `{PyHash}.
Abbreviation kv := kv_cache_manager.
Abbreviation ecm := encoder_cache_manager.
Abbreviation sched_inv := (sched_inv repr).
Implicit Types (s : Scheduler) (fl : list nat).

Lemma add_request_inv s fl r :
  sched_inv s fl -> admissible s r -> sched_inv (add_request s r) fl.
Proof.
  intros Hi [Hok Hst Hc Hf]. pose proof (si_queues _ _ _ Hi) as Q.
  set (ref := new_ref s). set (s' := add_request s r).
  assert (Hnd : objs s !! ref = None).
  { assert (Hfr : ref ∉ dom (objs s)) by exact (is_fresh (dom (objs s) : gset nat)). by apply not_elem_of_dom in Hfr. }
  assert (Hnl : ref ∉ live s).
  { intros Hl. destruct (si_dom _ _ _ Hi ref Hl). congruence. }
  assert (Hid : ∀ x, x ∈ live s -> request_id (obj s x) ≠ request_id r).
  { intros x Hx E. rewrite (proj2 (si_requests _ _ _ Hi (request_id r) x)) in Hf; done. }
  assert (Hobj : ∀ x, obj s' x = if decide (x = ref) then r else obj s x)
    by (intros x; exact (obj_with_obj s ref r x)).
  assert (Hobjl : ∀ x, x ∈ live s -> obj s' x = obj s x)
    by (intros x Hx; rewrite Hobj, decide_False; [done|congruence]).
  assert (Hobjr : obj s' ref = r) by (rewrite Hobj; by rewrite decide_True).
  assert (Hlive : ∀ x, x ∈ live s' <-> x = ref ∨ x ∈ live s).
  { intros x. unfold live. simpl. set_solver. }
  destruct Hi. split; try done.
  - destruct Q as [Hnod Hids Hreq Hw Hr Hown]. simpl. split.
    + fold ref. rewrite (Permutation_app_comm _ [ref]), <-app_assoc. simpl. by apply NoDup_cons.
    + intros x y Hx%Hlive Hy%Hlive E. destruct Hx as [->|Hx], Hy as [->|Hy]; try done.
      * rewrite Hobjr, (Hobjl y Hy) in E. by destruct (Hid y Hy).
      * rewrite Hobjr, (Hobjl x Hx) in E. by destruct (Hid x Hx).
      * rewrite (Hobjl x Hx), (Hobjl y Hy) in E. by apply Hids.
    + intros x [->|Hx]%Hlive; [by rewrite Hobjr|rewrite (Hobjl x Hx); by apply Hreq].
    + intros x [Hx|Hx]%elem_of_app; [|apply list_elem_of_singleton in Hx as ->].
      * rewrite (Hobjl x) by (unfold live; set_solver). by apply Hw.
      * change (new_ref s) with ref. rewrite Hobjr. split_and!; [by left|done|].
        destruct (req_to_blocks (kv s) !! request_id r) as [bl|] eqn:Hbl; [|done].
        destruct (decide (bl = [])) as [->|Hn]; [done|].
        destruct (Hown _ _ Hbl Hn) as (x & Hx & E).
        destruct (Hid x ltac:(unfold live; set_solver) E).
    + intros x Hx. rewrite (Hobjl x) by (unfold live; set_solver). by apply Hr.
    + intros rid bl Hbl Hn. destruct (Hown rid bl Hbl Hn) as (x & Hx & E). exists x.
      rewrite (Hobjl x) by (unfold live; set_solver). done.
  - intros x [->|Hx]%Hlive; simpl; [fold ref; rewrite lookup_insert_eq; by eexists|].
    apply (dom_with_obj s ref r). by apply si_dom.
  - intros rid x. rewrite Hlive. simpl. fold ref. rewrite lookup_insert_Some, si_requests. split.
    + intros [[<- <-]|(Hne & Hx & E)]; [rewrite Hobjr; naive_solver|]. rewrite (Hobjl x Hx). naive_solver.
    + intros [[->|Hx] E]; [left; by rewrite Hobjr in E|right]. rewrite (Hobjl x Hx) in E.
      split_and!; try done. intros E'. apply (Hid x Hx). congruence.
  - intros rid st Hst'. destruct (si_enc rid st Hst') as (? & x & Hx & E & Hin). split; [done|].
    exists x. rewrite Hlive, (Hobjl x Hx). naive_solver.
Qed.

Lemma remove_first_spec (x : nat) l : NoDup l -> x ∈ l ->
  ∃ l', remove_first (Nat.eqb x) l = Some l' ∧ l ≡ₚ x :: l' ∧ l' `sublist_of` l ∧
    (∀ y, y ≠ x -> y ∈ l' <-> y ∈ l).
Proof.
  induction 1 as [|y l Hy Hnd IH]; intros Hx; [by apply elem_of_nil in Hx|]. cbn [remove_first].
  destruct (Nat.eqb_spec x y) as [->|Hne].
  - exists l. split_and!; [done..|by apply sublist_cons|]. set_solver.
  - destruct IH as (l' & -> & Hp & Hs & Hm); [set_solver|]. exists (y :: l'). simpl.
    split_and!; [done|rewrite Hp; apply Permutation_swap|by apply sublist_skip|].
    intros z Hz. rewrite !elem_of_cons, (Hm z Hz). done.
Qed.

(** A request is finished from outside: it leaves the queues and its blocks are
    released, unless it still has cached encoder inputs. *)
Lemma finish_request_spec st rid s fl :
  sched_inv s fl -> status_is_finished st = true ->
  match requests s !! rid with
  | None => finish_request st rid s = Ok s
  | Some ref =>
      if decide (cached (ecm s) !! rid = None) then
        ∃ s' fl', finish_request st rid s = Ok s' ∧ sched_inv s' fl' ∧
          live s ≡ₚ ref :: live s' ∧ waiting s' `sublist_of` waiting s ∧
          running s' `sublist_of` running s ∧ requests s' = delete rid (requests s) ∧
          req_to_blocks (kv s') !! rid = None ∧ (cached_ids_ok s -> cached_ids_ok s') ∧
          finished_req_ids s' = {[rid]} ∪ finished_req_ids s ∧ ecm s' = ecm s ∧
          max_model_len s' = max_model_len s ∧ status (obj s' ref) = st
      else finish_request st rid s = Err RuntimeError
  end.
Proof.
  intros Hi Hfin. unfold finish_request.
  destruct (requests s !! rid) as [ref|] eqn:Hreq; [|done].
  destruct (proj1 (si_requests _ _ _ Hi rid ref) Hreq) as [Hlive Hid].
  pose proof (si_queues _ _ _ Hi) as Q. pose proof (qo_nodup _ _ _ _ _ Q) as Hnd.
  apply NoDup_app in Hnd as (Hndw & Hd & Hndr).
  assert (∃ w r, (if decide (status (obj s ref) = RUNNING)
       then l ← or_raise ValueError (remove_first (Nat.eqb ref) (running s));
            Ok (with_queues s (waiting s) l)
       else l ← or_raise ValueError (remove_first (Nat.eqb ref) (waiting s));
            Ok (with_queues s l (running s))) = Ok (with_queues s w r) ∧
     waiting s ++ running s ≡ₚ ref :: w ++ r ∧ w `sublist_of` waiting s ∧ r `sublist_of` running s ∧
     (∀ x, x ≠ ref -> x ∈ w <-> x ∈ waiting s) ∧ (∀ x, x ≠ ref -> x ∈ r <-> x ∈ running s))
    as (w & r & -> & Hperm & Hsw & Hsr & Hmw & Hmr).
  { case_decide as Hst.
    - assert (Hr : ref ∈ running s).
      { apply elem_of_app in Hlive as [Hw|]; [|done]. apply (qo_wait _ _ _ _ _ Q) in Hw as ([?|?] & _); congruence. }
      destruct (remove_first_spec ref (running s) Hndr Hr) as (l & -> & Hp & Hs & Hm).
      exists (waiting s), l. split_and!; try done. rewrite Hp. by rewrite Permutation_middle.
    - assert (Hw : ref ∈ waiting s).
      { apply elem_of_app in Hlive as [|Hr]; [done|]. by apply (qo_run _ _ _ _ _ Q) in Hr as (? & _). }
      destruct (remove_first_spec ref (waiting s) Hndw Hw) as (l & -> & Hp & Hs & Hm).
      exists l, (running s). split_and!; try done. by rewrite Hp. }
  cbn [mbind result_bind]. set (r' := set_status st (obj s ref)).
  set (s1 := with_obj (with_queues s w r) ref r').
  assert (T : touched ref (with_queues s w r) s1) by apply touched_obj.
  assert (Hi0 : inv_at repr (with_queues s w r) (waiting s) (running s) fl)
    by (unfold inv_at; simpl; by destruct s).
  case_decide as Hc.
  - destruct (free_request_inv repr (with_queues s w r) s1 fl ref r' (waiting s) (running s) w r Hi0 T)
      as (s' & fl' & E & Hi' & K & Ho & Hml & Hf & Hb & Hr & Hw' & Hrun' & He' & Hcd); try done.
    + change (request_id r') with (request_id (obj s ref)). by rewrite Hid.
    + by apply sublist_length.
    + change (request_id r') with (request_id (obj s ref)) in *. rewrite Hid in *.
      assert (Es : with_queues s' w r = s') by (destruct s'; simpl in *; by subst).
      unfold inv_at in Hi'. rewrite Es in Hi'.
      exists s', fl'. simpl in Hw', Hrun'. unfold live. rewrite Hw', Hrun'. split_and!; try done.
      * intros Hck rid' d. rewrite Hcd. intros [_ ?]%lookup_delete_Some. by apply Hck.
      * rewrite Ho. unfold s1. by rewrite obj_with_obj, decide_True.
  - unfold _free_request. change (is_finished r') with (status_is_finished st). rewrite Hfin. cbn [py_assert mbind result_bind].
    destruct (free_spec repr (kv s1) fl r' (si_kv _ _ _ Hi)) as (m' & freed & -> & _).
    cbn [mbind result_bind]. change (ecm (with_kv s1 m')) with (ecm s).
    destruct (live_cached_range repr s fl (waiting s) (running s) ref Hi0 Hlive) as [Hne Hrng].
    rewrite ecm_free_spec by exact Hrng.
    rewrite (decide_False (P := get_cached_input_ids (ecm s) r' = ∅)); [done|].
    unfold get_cached_input_ids. change (request_id r') with (request_id (obj s ref)). rewrite Hid in *.
    destruct (cached (ecm s) !! rid) as [stt|] eqn:Hst; [|done]. simpl. by apply Hne.
Qed.

(** The loop of [finish_requests], in any order of the ids. *)
Lemma finish_loop_Ok st ids s fl :
  sched_inv s fl -> cached_ids_ok s -> status_is_finished st = true ->
  (∀ rid, rid ∈ ids -> is_Some (requests s !! rid) -> cached (ecm s) !! rid = None) ->
  ∃ s' fl', for_each (finish_request st) ids s = Ok s' ∧ sched_inv s' fl' ∧ cached_ids_ok s' ∧
    waiting s' `sublist_of` waiting s ∧ running s' `sublist_of` running s ∧
    max_model_len s' = max_model_len s ∧
    (∀ rid, requests s' !! rid = if decide (rid ∈ ids) then None else requests s !! rid).
Proof.
  intros Hi Hc Hfin. revert s fl Hi Hc. induction ids as [|rid ids IH]; intros s fl Hi Hc Hnone.
  { exists s, fl. split_and!; try done. }
  cbn [for_each]. pose proof (finish_request_spec st rid s fl Hi Hfin) as Hf.
  destruct (requests s !! rid) as [ref|] eqn:Hreq.
  - rewrite decide_True in Hf by (apply Hnone; [by left|by rewrite Hreq]).
    destruct Hf as (s1 & fl1 & -> & Hi1 & _ & Hw1 & Hr1 & Hq1 & _ & Hc1 & _ & He1 & Hm1 & _).
    cbn [mbind result_bind].
    destruct (IH s1 fl1 Hi1 (Hc1 Hc)) as (s' & fl' & -> & Hi' & Hc' & Hw' & Hr' & Hm' & Hq').
    { intros rid' Hin. rewrite Hq1, He1. intros [x Hx]. apply lookup_delete_Some in Hx as [_ Hx].
      apply Hnone; [by right|by eexists]. }
    exists s', fl'. split_and!; try done; [by etransitivity..|by rewrite Hm'|]. intros rid'. rewrite Hq', Hq1.
    destruct (decide (rid' = rid)) as [->|Hne].
    + rewrite lookup_delete_eq. rewrite (decide_True (P := rid ∈ rid :: ids)) by by left. by case_decide.
    + rewrite lookup_delete_ne by done. repeat case_decide; set_solver.
  - rewrite Hf. cbn [mbind result_bind].
    destruct (IH s fl Hi Hc) as (s' & fl' & -> & Hi' & Hc' & Hw' & Hr' & Hm' & Hq').
    { intros rid' Hin. apply Hnone. by right. }
    exists s', fl'. split_and!; try done. intros rid'. rewrite Hq'.
    destruct (decide (rid' = rid)) as [->|Hne]; [|repeat case_decide; set_solver].
    rewrite Hreq. repeat case_decide; done.
Qed.

Lemma finish_loop_Err st ids s fl :
  sched_inv s fl -> cached_ids_ok s -> status_is_finished st = true -> NoDup ids ->
  (∃ rid, rid ∈ ids ∧ holds_encoder_inputs s rid) ->
  for_each (finish_request st) ids s = Err RuntimeError.
Proof.
  intros Hi Hc Hfin Hnd. revert s fl Hi Hc.
  induction Hnd as [|rid ids Hnin Hnd IH]; intros s fl Hi Hc (rid0 & Hin & Hreq0 & Hca); [set_solver|].
  cbn [for_each]. pose proof (finish_request_spec st rid s fl Hi Hfin) as Hf.
  destruct (requests s !! rid) as [ref|] eqn:Hreq.
  - case_decide as Hd; [|by rewrite Hf].
    destruct Hf as (s1 & fl1 & -> & Hi1 & _ & _ & _ & Hq1 & _ & Hc1 & _ & He1 & _).
    cbn [mbind result_bind]. apply (IH s1 fl1 Hi1 (Hc1 Hc)). exists rid0.
    assert (rid0 ≠ rid) by (by intros ->). split; [set_solver|].
    split; [by rewrite Hq1, lookup_delete_ne|by rewrite He1].
  - rewrite Hf. cbn [mbind result_bind]. apply (IH s fl Hi Hc). exists rid0.
    split; [|done]. destruct (decide (rid0 = rid)) as [->|]; [|set_solver].
    rewrite Hreq in Hreq0. by destruct Hreq0.
Qed.

Lemma reset_inv_sched s fl : sched_inv s fl -> sched_inv (scheduler_reset_prefix_cache s).1 fl.
Proof.
  intros Hi. unfold scheduler_reset_prefix_cache, reset_prefix_cache.
  pose proof (reset_prefix_cache_inv repr (kv s) fl (si_kv _ _ _ Hi)) as Hkv.
  unfold reset_prefix_cache in Hkv. case_match eqn:Hu; simpl in *; [by rewrite with_kv_id|].
  pose proof (unused_all_free repr (kv s) fl (si_kv _ _ _ Hi) Hu) as Hall.
  set (m := with_pool _ _) in *.
  assert (Hnil : ∀ rid bl, req_to_blocks (kv s) !! rid = Some bl -> bl = []).
  { intros rid [|b bl] Hbl; [done|exfalso].
    pose proof (req_block_range repr (kv s) fl rid _ b (si_kv _ _ _ Hi) Hbl ltac:(by left)) as Hb.
    pose proof (refs_lookup _ _ _ b Hbl) as Hrf. pose proof (occ_pos b (b :: bl) ltac:(by left)).
    pose proof (ki_ref _ _ _ _ (si_kv _ _ _ Hi) b Hb) as E. rewrite Hall in E by done. simpl in E. lia. }
  assert (Hrun : ∀ r, running_ok (kv s) r -> running_ok m r).
  { intros r (? & ? & bl & k & Hbl & Hc & Hl & Hp). split; [done|]. split; [done|].
    exists bl, k. split_and!; try done. intros Hen. destruct (Hp Hen) as ([Hk Hh] & ? & ?).
    rewrite (Hnil _ _ Hbl) in *. split_and!; try done. }
  destruct Hi as [? [] ? ? ? ? ? ?]. split; try done. split; try done. intros x Hx. apply Hrun. exact (qo_run x Hx).
Qed.
End ops.

(** ** Reachable states *)

(** The model runner returns a token for every request it was given. *)
Definition runner_ok (out : SchedulerOutput) (mo : ModelRunnerOutput) : Prop :=
  ∀ rid, is_Some (num_scheduled_tokens out !! rid) -> ∃ t, sampled mo rid t.

Inductive sched_reach `{PyHash} : Scheduler -> Prop :=
  | sr_init max_seqs max_tok mml blocks bs sw ec budgets enc s :
      0 <= max_seqs -> 0 <= max_tok -> 0 < bs ->
      scheduler_init max_seqs max_tok mml blocks bs sw ec budgets enc = Ok s -> sched_reach s
  | sr_add s r : sched_reach s -> admissible s r -> sched_reach (add_request s r)
  | sr_encoder s enc : sched_reach s -> sched_reach (with_encoder_cache s enc)
  | sr_schedule s s' out : sched_reach s -> schedule s = Ok (s', out) -> sched_reach s'
  | sr_step s s1 out enc mo s' eo : sched_reach s -> schedule s = Ok (s1, out) -> runner_ok out mo ->
      update_from_output (with_encoder_cache s1 enc) out mo = Ok (s', eo) -> sched_reach s'
  | sr_finish s ids st s' : sched_reach s -> finish_requests s ids st = Ok s' -> sched_reach s'
  | sr_reset s : sched_reach s -> sched_reach (scheduler_reset_prefix_cache s).1.

Lemma scheduler_init_inv `{PyHash} max_seqs max_tok mml blocks bs sw ec budgets enc s :
  0 <= max_seqs -> 0 <= max_tok -> 0 < bs ->
  scheduler_init max_seqs max_tok mml blocks bs sw ec budgets enc = Ok s ->
  ∃ fl, sched_inv dll s fl ∧ cached_ids_ok s.
Proof.
  intros Hs Ht Hbs Hinit. unfold scheduler_init in Hinit.
  apply bind_Ok_inv in Hinit as (u & Ha & Hinit). apply py_assert_Ok, Z.ltb_lt in Ha.
  destruct (kv_init_spec dll bs blocks mml sw ec 64 Hbs Ha ltac:(lia)) as (m & Em & Hm & Hr & E1 & E2 & _).
  rewrite Em in Hinit. cbn [mbind result_bind] in Hinit.
  assert (Es : s = mkScheduler max_seqs max_tok mml m ∅ ∅ [] [] ∅ ∅ budgets.1 (ecm_init budgets.2) enc)
    by congruence. subst s. exists (seq 0 (Z.to_nat blocks)). split; [|by intros ??].
  split; simpl; try done.
  - split; simpl; try set_solver; [constructor|]. intros rid bl. rewrite Hr. by rewrite lookup_empty.
  - set_solver.
  - intros rid x. rewrite lookup_empty. unfold live. simpl. set_solver.
Qed.

Lemma update_pre_of_schedule `{PyHash} s s1 fl1 out mo :
  sched_inv dll s1 fl1 -> schedule_post s s1 out -> runner_ok out mo ->
  ∀ x, x ∈ running s1 -> update_pre s1 (num_scheduled_tokens out) mo x.
Proof.
  intros Hi Hp Hr x Hx Hn. unfold scheduled_for in *.
  destruct (num_scheduled_tokens out !! request_id (obj s1 x)) as [n|] eqn:En; [|done].
  destruct (sp_given _ _ _ Hp _ _ En) as (y & Hy & Ey & Hg).
  assert (y = x) as -> by (apply (qo_ids _ _ _ _ _ (si_queues _ _ _ Hi)); [set_solver..|done]).
  split; [done|]. intros _. apply Hr. by eexists.
Qed.

Lemma sched_reach_inv `{PyHash} s : sched_reach s -> ∃ fl, sched_inv dll s fl ∧ cached_ids_ok s.
Proof.
  induction 1 as [max_seqs max_tok mml blocks bs sw ec budgets enc s Hs Ht Hbs Hinit
    |s r _ (fl & Hi & Hc) Ha|s enc _ (fl & Hi & Hc)|s s' out _ (fl & Hi & Hc) Hsch
    |s s1 out enc mo s' eo _ (fl & Hi & Hc) Hsch Hr Hup|s ids st s' _ (fl & Hi & Hc) Hf|s _ (fl & Hi & Hc)].
  - exact (scheduler_init_inv _ _ _ _ _ _ _ _ _ s Hs Ht Hbs Hinit).
  - exists fl. split; [exact (add_request_inv dll s fl r Hi Ha)|done].
  - exists fl. split; [|done]. destruct Hi. by split.
  - destruct (schedule_spec dll s fl Hi Hc) as (s1 & out1 & fl1 & E & Hi1 & Hc1 & _).
    rewrite Hsch in E. injection E as -> ->. by exists fl1.
  - destruct (schedule_spec dll s fl Hi Hc) as (s2 & out1 & fl1 & E & Hi1 & Hc1 & Hp & _).
    rewrite Hsch in E. injection E as -> ->.
    assert (Hi1' : sched_inv dll (with_encoder_cache s2 enc) fl1) by (destruct Hi1; by split).
    destruct (update_from_output_spec dll _ fl1 out1 mo Hi1') as (s3 & eo3 & fl3 & E & Hi3 & _ & Hc3 & _).
    { exact (update_pre_of_schedule s s2 fl1 out1 mo Hi1 Hp Hr). }
    rewrite Hup in E. injection E as -> ->. exists fl3. auto.
  - unfold finish_requests in Hf. apply bind_Ok_inv in Hf as (u & Hfin%py_assert_Ok & Hf).
    set (ids' := elements _) in *.
    destruct (decide (Exists (holds_encoder_inputs s) ids')) as [Hbad|Hgood]; rewrite Exists_exists in *.
    + rewrite (finish_loop_Err dll st ids' s fl) in Hf; try done. apply NoDup_elements.
    + destruct (finish_loop_Ok dll st ids' s fl Hi Hc Hfin) as (s1 & fl1 & E & Hi1 & Hc1 & _).
      { intros rid Hin Hreq. destruct (cached _ !! rid) eqn:Hca; [|done]. destruct Hgood.
        exists rid. unfold holds_encoder_inputs. by rewrite Hca. }
      rewrite Hf in E. injection E as ->. eauto.
  - exists fl. split; [exact (reset_inv_sched dll s fl Hi)|].
    unfold scheduler_reset_prefix_cache. by case_match.
Qed.

(** While nothing runs, the free list is the whole pool. *)
Lemma idle_pool_free `{PyHash} s fl :
  sched_inv dll s fl -> running s = [] ->
  len fl = num_gpu_blocks (kv_cache_manager s) ∧
  ∀ b, (b < length (block_pool (kv_cache_manager s)))%nat ->
    ref_cnt (blk (kv_cache_manager s) b) = 0.
Proof.
  intros Hi Hr. pose proof (si_queues _ _ _ Hi) as Q. pose proof (si_kv _ _ _ Hi) as Hm.
  set (m := kv_cache_manager s) in *.
  assert (Hfree : ∀ b, (b < length (block_pool m))%nat -> ref_cnt (blk m b) = 0).
  { intros b Hb. rewrite (ki_ref _ _ _ _ Hm b Hb). simpl. rewrite refs_none; [done|].
    intros rid bl Hbl Hin. assert (bl ≠ []) as Hn by (by intros ->; apply elem_of_nil in Hin).
    destruct (qo_owned _ _ _ _ _ Q rid bl Hbl Hn) as (x & Hx & _). rewrite Hr in Hx. set_solver. }
  split; [|done]. rewrite (ki_num _ _ _ _ Hm). f_equal.
  apply Nat.le_antisymm; rewrite <-(length_seq (length (block_pool m)) 0);
    apply submseteq_length, NoDup_submseteq.
  - eapply fq_nodup, (ki_repr _ _ _ _ Hm).
  - intros b Hb. apply elem_of_seq. pose proof (fq_range _ _ _ _ (ki_repr _ _ _ _ Hm) Hb). lia.
  - apply NoDup_seq.
  - intros b [_ Hb]%elem_of_seq. apply (ki_free _ _ _ _ Hm); [lia|]. apply Hfree. lia.
Qed.

(** ** Main theorems *)

(** C1: [schedule] never fails and respects every limit.  In every reachable state
    it returns (no assertion, lookup or allocation raises, and the loops finish);
    the tokens it hands out add up to the reported total and stay within the token
    budget; at most [max_num_running_reqs] requests run; the queues keep their
    first-come-first-served order, preemption and admission only move the boundary
    between running and waiting; every request that got tokens is running, has that
    many tokens left to compute, and owns blocks for all of them; the request data
    sent to the workers are those of exactly these requests; and the finished ids
    are reported once. *)
Theorem schedule_total_and_safe `{PyHash} s :
  sched_reach s -> ∃ s' out, schedule s = Ok (s', out) ∧ schedule_post s s' out.
Proof.
  intros (fl & Hi & Hc)%sched_reach_inv.
  destruct (schedule_spec dll s fl Hi Hc) as (s' & out & fl' & E & _ & _ & Hp & _). eauto.
Qed.

(** C6: [update_from_output] is total after [schedule] and does its bookkeeping.
    When the model runner returns a token for every scheduled request, the call
    returns; a request that was given tokens advances by that number; when it
    catches up with its tokens it is extended by exactly the sampled token, which
    is also the output sent to the client; the request ends exactly when it is
    length-capped, hit its end-of-sequence token or a stop token, and then leaves
    the running queue; every other request stays, in order. *)
Theorem update_from_output_correct `{PyHash} s s1 out mo :
  sched_reach s -> schedule s = Ok (s1, out) -> runner_ok out mo ->
  ∃ s2 eo, update_from_output s1 out mo = Ok (s2, eo) ∧ waiting s2 = waiting s1 ∧
    scheduler_stats eo = make_stats s2 ∧
    update_post s1 s2 (num_scheduled_tokens out) mo (running s1) (running s2) (outputs eo).
Proof.
  intros (fl & Hi & Hc)%sched_reach_inv Hsch Hr.
  destruct (schedule_spec dll s fl Hi Hc) as (s' & out' & fl' & E & Hi' & _ & Hp & _).
  rewrite Hsch in E. injection E as -> ->.
  destruct (update_from_output_spec dll s' fl' out' mo Hi') as (s2 & eo & _ & E & _ & ? & _ & ? & ?);
    [by eapply update_pre_of_schedule|]. eauto 10.
Qed.

Lemma elements_list_to_set ids (rid : string) :
  rid ∈ elements (list_to_set ids : gset string) <-> rid ∈ ids.
Proof. by rewrite elem_of_elements, elem_of_list_to_set. Qed.

Lemma finish_requests_Ok `{PyHash} s ids st :
  sched_reach s -> status_is_finished st = true -> (∀ rid, rid ∈ ids -> ¬ holds_encoder_inputs s rid) ->
  ∃ s', finish_requests s ids st = Ok s' ∧
    waiting s' `sublist_of` waiting s ∧ running s' `sublist_of` running s ∧
    max_model_len s' = max_model_len s ∧
    (∀ rid, requests s' !! rid = if decide (rid ∈ ids) then None else requests s !! rid) ∧
    (∀ x, x ∈ live s' <-> ∃ rid, requests s' !! rid = Some x).
Proof.
  intros (fl & Hi & Hc)%sched_reach_inv Hfin Hids. unfold finish_requests. rewrite Hfin.
  cbn [py_assert mbind result_bind].
  destruct (finish_loop_Ok dll st (elements (list_to_set ids : gset string)) s fl Hi Hc Hfin)
    as (s' & fl' & -> & Hi' & _ & Hw & Hr & Hm & Hq).
  { intros rid Hin Hreq. apply (proj1 (elements_list_to_set ids rid)) in Hin. destruct (cached _ !! rid) eqn:Hca; [|done].
    destruct (Hids rid Hin). unfold holds_encoder_inputs. by rewrite Hca. }
  exists s'. split_and!; try done.
  - intros rid. rewrite Hq. repeat case_decide; try done; by rewrite (elements_list_to_set ids rid) in *.
  - intros x. split.
    + intros Hx. exists (request_id (obj s' x)). by apply (si_requests _ _ _ Hi').
    + intros [rid Hx]. by apply (si_requests _ _ _ Hi') in Hx as [? _].
Qed.

(** Finishing requests from outside.  A status that is not a finished one trips
    the assertion.  If some request to finish still has cached encoder inputs, the
    call raises [RuntimeError].  Otherwise it succeeds: exactly the given requests
    are forgotten, the others keep their order in both queues, and the queues hold
    exactly the requests that are still registered. *)
Theorem finish_requests_correct `{PyHash} s ids st :
  sched_reach s ->
  (status_is_finished st = false -> finish_requests s ids st = Err AssertionError) ∧
  (status_is_finished st = true -> (∃ rid, rid ∈ ids ∧ holds_encoder_inputs s rid) ->
    finish_requests s ids st = Err RuntimeError) ∧
  (status_is_finished st = true -> (∀ rid, rid ∈ ids -> ¬ holds_encoder_inputs s rid) ->
    ∃ s', finish_requests s ids st = Ok s' ∧
      waiting s' `sublist_of` waiting s ∧ running s' `sublist_of` running s ∧
      (∀ rid, requests s' !! rid = if decide (rid ∈ ids) then None else requests s !! rid) ∧
      (∀ x, x ∈ live s' <-> ∃ rid, requests s' !! rid = Some x)).
Proof.
  intros Hr. split; [by unfold finish_requests; intros ->|]. split; intros Hfin Hids.
  - destruct (sched_reach_inv _ Hr) as (fl & Hi & Hc). destruct Hids as (rid & Hin & Hh).
    unfold finish_requests. rewrite Hfin. cbn [py_assert mbind result_bind].
    apply (finish_loop_Err dll st _ s fl Hi Hc Hfin); [apply NoDup_elements|].
    exists rid. by rewrite elements_list_to_set.
  - destruct (finish_requests_Ok s ids st Hr Hfin Hids) as (s' & ? & ? & ? & _ & ? & ?). by exists s'.
Qed.

(** C25: no block leaks.  In every reachable state a block is held only by a running
    request, whose block table covers its computed tokens; so when no request is
    left, the whole pool is free again. *)
Theorem no_block_leak `{PyHash} s :
  sched_reach s ->
  let m := kv_cache_manager s in
  (∀ rid bl, req_to_blocks m !! rid = Some bl -> bl ≠ [] ->
    ∃ x, x ∈ running s ∧ request_id (obj s x) = rid ∧
      num_computed_tokens (obj s x) <= len bl * block_size m) ∧
  (running s = [] -> num_free_blocks (free_block_queue m) = num_gpu_blocks m ∧
    ∀ b, (b < length (block_pool m))%nat -> ref_cnt (blk m b) = 0).
Proof.
  intros (fl & Hi & Hc)%sched_reach_inv m. pose proof (si_queues _ _ _ Hi) as Q.
  pose proof (si_kv _ _ _ Hi) as Hm. fold m in Q, Hm. split.
  - intros rid bl Hbl Hn. destruct (qo_owned _ _ _ _ _ Q rid bl Hbl Hn) as (x & Hx & E).
    destruct (qo_run _ _ _ _ _ Q x Hx) as (_ & _ & bl' & k & Hbl' & Hcov & _).
    rewrite E, Hbl in Hbl'. injection Hbl' as <-. eauto.
  - intros Hr. destruct (idle_pool_free s fl Hi Hr) as [Hlen Hfree]. fold m in Hlen, Hfree.
    split; [|done]. by rewrite (fq_num _ _ _ (ki_repr _ _ _ _ Hm)).
Qed.

(** ** Witnesses *)

Definition empty_kv : KVCacheManager :=
  mkKV 1 0 0 0 None false 0 0 [] (mkQueue 0 None None) ∅ ∅.
Definition empty_sched : Scheduler :=
  mkScheduler 0 0 0 empty_kv ∅ ∅ [] [] ∅ ∅ 0 (ecm_init 0) ∅.

(** Block size 2, 24 blocks, four requests, eight tokens per step. *)
Definition demo_sched0 : Scheduler :=
  ok_or empty_sched (scheduler_init 4 8 20 24 2 None true (10, 10) ∅).
Definition demo_sched : Scheduler :=
  add_request (add_request demo_sched0 (demo_request "a" [1; 2; 3; 4; 5]))
    (demo_request "b" [1; 2; 3; 4; 6; 7]).

Lemma demo_request_ok rid toks : 0 < len toks <= 20 -> req_ok 20 2 (demo_request rid toks).
Proof.
  intros Ht. split; unfold num_tokens; simpl; try done; [|by left|lia..|set_solver].
  split; simpl; try done; [by rewrite app_nil_r|by left].
Qed.

Lemma demo_sched_reach : @sched_reach demo_hash demo_sched.
Proof.
  unfold demo_sched.
  repeat (apply (@sr_add demo_hash)); [|split; [by apply demo_request_ok|vm_compute; reflexivity..]..].
  apply (@sr_init demo_hash 4 8 20 24 2 None true (10, 10) ∅); [lia..|vm_compute; reflexivity].
Qed.

Lemma schedule_total_and_safe_witness :
  ∃ s' out, @schedule demo_hash demo_sched = Ok (s', out) ∧ schedule_post demo_sched s' out.
Proof. apply (@schedule_total_and_safe demo_hash), demo_sched_reach. Defined.

Definition demo_scheduled : Scheduler * SchedulerOutput :=
  ok_or (empty_sched, mkSchedulerOutput [] [] ∅ 0 ∅ 0 ∅ []) (@schedule demo_hash demo_sched).
Definition demo_mo : ModelRunnerOutput :=
  mkModelRunnerOutput ["a"; "b"]%string {["a" := 0%nat; "b" := 1%nat]}%string [17; 18].

Lemma update_from_output_correct_witness :
  runner_ok demo_scheduled.2 demo_mo ∧
  ∃ s2 eo, update_from_output demo_scheduled.1 demo_scheduled.2 demo_mo = Ok (s2, eo) ∧
    waiting s2 = waiting demo_scheduled.1 ∧ scheduler_stats eo = make_stats s2 ∧
    update_post demo_scheduled.1 s2 (num_scheduled_tokens demo_scheduled.2) demo_mo
      (running demo_scheduled.1) (running s2) (outputs eo).
Proof.
  assert (Hr : runner_ok demo_scheduled.2 demo_mo).
  { assert (E : num_scheduled_tokens demo_scheduled.2 = {["a" := 5; "b" := 2]}%string)
      by (vm_compute; reflexivity).
    intros rid. rewrite E. intros [n Hn].
    apply lookup_insert_Some in Hn as [[<- _]|[_ [<- _]%lookup_singleton_Some]];
      [exists 17, 0%nat|exists 18, 1%nat]; split; vm_compute; reflexivity. }
  split; [exact Hr|].
  apply (@update_from_output_correct demo_hash demo_sched);
    [apply demo_sched_reach|vm_compute; reflexivity|exact Hr].
Defined.

Lemma finish_requests_correct_witness :
  (status_is_finished RUNNING = false ->
    finish_requests demo_sched ["a"%string] RUNNING = Err AssertionError) ∧
  ∃ s', finish_requests demo_sched ["a"%string] FINISHED_ABORTED = Ok s' ∧
    (∀ rid, requests s' !! rid =
      if decide (rid ∈ ["a"%string]) then None else requests demo_sched !! rid).
Proof.
  split; [apply (@finish_requests_correct demo_hash demo_sched ["a"%string] RUNNING demo_sched_reach)|].
  destruct (proj2 (proj2 (@finish_requests_correct demo_hash demo_sched ["a"%string] FINISHED_ABORTED
    demo_sched_reach))) as (s' & E & _ & _ & Hq & _); [reflexivity| |by exists s'].
  intros rid _ [_ Hc]. apply Hc. change (cached (encoder_cache_manager demo_sched)) with (∅ : gmap string (gset nat)).
  apply lookup_empty.
Defined.

Lemma no_block_leak_witness :
  num_free_blocks (free_block_queue (kv_cache_manager demo_sched)) = 24.
Proof. by apply (@no_block_leak demo_hash demo_sched demo_sched_reach). Defined.
