(* ===== verification/SchedulerTrace.v ===== *)
(** * What [schedule] tells the workers

    [trace s0 s v] relates the state [s0] in which [schedule] was called, the current
    state and the local variables: the block ids recorded for a running request are
    exactly those appended to its table, those of a new or resumed request are its
    whole table, and the tables of the requests that got no tokens have not changed.
    The request data built from these variables let a worker that knew the tables
    before the call know them afterwards. *)

From stdpp Require Import base tactics list gmap sets strings.
From Stdlib Require Import ZArith QArith Lia.
From S2P Require Import Prelude.
From S2P Require Import SamplingParams.
From S2P Require Import Request.
From S2P Require Import BlockQueue.
From S2P Require Import BlockHash.
From S2P Require Import KVCacheManager.
From S2P Require Import KVCacheInv.
From S2P Require Import KVAlloc.
From S2P Require Import KVTheorems.
From S2P Require Import EncoderCache.
From S2P Require Import Scheduler.
From S2P Require Import SchedulerInv.
From S2P Require Import SchedulerLoops.
From S2P Require Import SchedulerStep.

Local Open Scope Z_scope.

(** The block table of a request. *)
Definition blocks_of (s : Scheduler) (x : nat) : list nat :=
  default [] (req_to_blocks (kv_cache_manager s) !! request_id (obj s x)).

(** No block is about to be written through two table entries: of two entries with the
    same block, one lies within the computed tokens of its request. *)
Definition computed_entry (s : Scheduler) (x i : nat) : Prop :=
  Z.of_nat i < num_computed_tokens (obj s x) / block_size (kv_cache_manager s).
Definition apart (s : Scheduler) : Prop :=
  ∀ x y i j b, x ∈ running s -> y ∈ running s -> (x, i) ≠ (y, j) ->
    blocks_of s x !! i = Some b -> blocks_of s y !! j = Some b ->
    computed_entry s x i ∨ computed_entry s y j.

Record trace (s0 s : Scheduler) (v : sched_vars) : Prop := {
  tr_running : ∀ x, x ∈ v_running v -> x ∈ running s0 ∧
    ∃ new, v_block_ids v !! request_id (obj s x) = Some new ∧ blocks_of s x = blocks_of s0 x ++ new;
  tr_new : ∀ x, x ∈ v_new v -> x ∈ waiting s0 ∧ status (obj s0 x) = WAITING ∧
    v_block_ids v !! request_id (obj s x) = Some (blocks_of s x);
  tr_resumed : ∀ x, x ∈ v_resumed v -> x ∈ waiting s0 ∧ status (obj s0 x) = PREEMPTED ∧
    v_block_ids v !! request_id (obj s x) = Some (blocks_of s x);
  tr_idle : ∀ x, x ∈ running s -> x ∉ picked v -> x ∈ running s0 ∧ blocks_of s x = blocks_of s0 x;
  tr_waiting : ∀ x, x ∈ waiting s -> status (obj s x) = WAITING <-> status (obj s0 x) = WAITING;
  tr_apart : apart s0 -> apart s;
}.

(** Requests leave or advance, their tables stay. *)
Lemma apart_mono s s' :
  0 < block_size (kv_cache_manager s) ->
  block_size (kv_cache_manager s') = block_size (kv_cache_manager s) ->
  (∀ x, x ∈ running s' -> x ∈ running s ∧ blocks_of s' x = blocks_of s x ∧
    num_computed_tokens (obj s x) <= num_computed_tokens (obj s' x)) ->
  apart s -> apart s'.
Proof.
  intros Hbs Ebs Hall Ha x y i j b Hx Hy Hne Hi Hj.
  destruct (Hall x Hx) as (Hx' & Ex & Cx), (Hall y Hy) as (Hy' & Ey & Cy). rewrite Ex in Hi. rewrite Ey in Hj.
  unfold computed_entry in *. rewrite Ebs.
  pose proof (Z.div_le_mono _ _ _ Hbs Cx). pose proof (Z.div_le_mono _ _ _ Hbs Cy).
  destruct (Ha x y i j b Hx' Hy' Hne Hi Hj) as [H1|H1]; unfold computed_entry in H1; [left|right]; lia.
Qed.

(** One request gets new blocks that nobody owns, behind entries that were its own or
    lie within its computed tokens. *)
Lemma apart_extend s s' ref old nb :
  block_size (kv_cache_manager s') = block_size (kv_cache_manager s) ->
  (∀ x, x ∈ running s' -> x ≠ ref -> x ∈ running s ∧ blocks_of s' x = blocks_of s x ∧
    num_computed_tokens (obj s' x) = num_computed_tokens (obj s x)) ->
  blocks_of s' ref = old ++ nb ->
  (∀ i b, old !! i = Some b -> computed_entry s' ref i ∨
    (ref ∈ running s ∧ blocks_of s ref !! i = Some b ∧
     num_computed_tokens (obj s' ref) = num_computed_tokens (obj s ref))) ->
  NoDup nb -> (∀ b x, b ∈ nb -> x ∈ running s -> b ∉ blocks_of s x) -> apart s -> apart s'.
Proof.
  intros Ebs Hoth Href Hold Hnd Hfresh Ha.
  assert (Hsame : ∀ x i, num_computed_tokens (obj s' x) = num_computed_tokens (obj s x) ->
    computed_entry s x i -> computed_entry s' x i) by (intros x i E; unfold computed_entry; by rewrite E, Ebs).
  assert (Hcase : ∀ i b, blocks_of s' ref !! i = Some b -> computed_entry s' ref i ∨
    (ref ∈ running s ∧ blocks_of s ref !! i = Some b ∧
     num_computed_tokens (obj s' ref) = num_computed_tokens (obj s ref)) ∨
    (length old <= i)%nat ∧ nb !! (i - length old)%nat = Some b).
  { intros i b Hi. rewrite Href in Hi. apply lookup_app_Some in Hi as [Hi|[Hl Hi]]; [destruct (Hold i b Hi); auto|auto]. }
  (* an entry of [ref] against an entry of another request *)
  assert (Hcross : ∀ y i j b, y ∈ running s' -> y ≠ ref -> blocks_of s' ref !! i = Some b ->
    blocks_of s' y !! j = Some b -> computed_entry s' ref i ∨ computed_entry s' y j).
  { intros y i j b Hy Hne Hi Hj. destruct (Hoth y Hy Hne) as (Hy' & Ey & Cy). rewrite Ey in Hj.
    destruct (Hcase i b Hi) as [?|[(Hr & Hi' & Cr)|[_ Hi']]]; [by left| |].
    - destruct (Ha ref y i j b Hr Hy' ltac:(congruence) Hi' Hj) as [?|?]; [left|right]; by apply Hsame.
    - destruct (Hfresh b y); [by eapply list_elem_of_lookup_2|done|by eapply list_elem_of_lookup_2]. }
  intros x y i j b Hx Hy Hne Hi Hj.
  destruct (decide (x = ref)) as [->|Hxr], (decide (y = ref)) as [->|Hyr].
  - destruct (Hcase i b Hi) as [?|Hi']; [by left|]. destruct (Hcase j b Hj) as [?|Hj']; [by right|].
    destruct Hi' as [(Hr & Hi' & Cr)|[Li Hi']], Hj' as [(Hr' & Hj' & Cr')|[Lj Hj']].
    + destruct (Ha ref ref i j b Hr Hr Hne Hi' Hj') as [?|?]; [left|right]; by apply Hsame.
    + destruct (Hfresh b ref); [by eapply list_elem_of_lookup_2|done|by eapply list_elem_of_lookup_2].
    + destruct (Hfresh b ref); [by eapply list_elem_of_lookup_2|done|by eapply list_elem_of_lookup_2].
    + destruct Hne. f_equal. pose proof (NoDup_lookup _ _ _ _ Hnd Hi' Hj'). lia.
  - by eapply Hcross.
  - destruct (Hcross x j i b Hx Hxr Hj Hi) as [?|?]; auto.
  - destruct (Hoth x Hx Hxr) as (Hx' & Ex & Cx), (Hoth y Hy Hyr) as (Hy' & Ey & Cy). rewrite Ex in Hi. rewrite Ey in Hj.
    destruct (Ha x y i j b Hx' Hy' Hne Hi Hj) as [?|?]; [left|right]; by apply Hsame.
Qed.

Section trace.
Context (repr : list KVCacheBlock -> FreeKVCacheBlockQueue -> list nat -> Prop).
Context `{!FreeQueueSpec repr} `{PyHash}.
Abbreviation kv := kv_cache_manager.
Abbreviation sched_inv := (sched_inv repr).
Implicit Types (s : Scheduler) (fl : list nat) (v : sched_vars).

(** ** Block tables across one operation *)

Lemma keeps_blocks s s' x rid :
  kv_keeps rid (kv s) (kv s') -> request_id (obj s x) ≠ rid ->
  request_id (obj s' x) = request_id (obj s x) -> blocks_of s' x = blocks_of s x.
Proof. intros K Hne E. unfold blocks_of. by rewrite E, (kk_reqs _ _ _ K). Qed.

Lemma live_ids s fl x y :
  sched_inv s fl -> x ∈ live s -> y ∈ live s -> x ≠ y -> request_id (obj s x) ≠ request_id (obj s y).
Proof. intros Hi Hx Hy Hne E. apply Hne. by apply (qo_ids _ _ _ _ _ (si_queues _ _ _ Hi)). Qed.

Lemma alloc_blocks m fl r n ncb k m' r' o :
  kv_inv repr m fl [] -> alloc_pre m r n (default [] (req_to_blocks m !! request_id r)) ncb k ->
  allocate_slots m r n ncb = Ok (m', r', o) ->
  default [] (req_to_blocks m' !! request_id r) =
    default [] (req_to_blocks m !! request_id r) ++ match o with Some nb => ncb ++ nb | None => [] end.
Proof.
  intros Hm Hap E. destruct (allocate_slots_spec repr m fl r n _ ncb k Hm Hap) as (m1 & r1 & o1 & E1 & Ho).
  rewrite E in E1. injection E1 as <- <- <-. destruct o as [nb|].
  - destruct Ho as [_ Hpost]. by rewrite (po_reqs _ _ _ _ _ _ _ _ _ _ _ Hpost), lookup_insert_eq.
  - destruct Ho as (_ & -> & _). rewrite app_nil_r. by apply (read_keeps repr m fl (request_id r) Hm).
Qed.

(** New blocks come from the free list. *)
Lemma alloc_fresh m fl r n ncb k m' r' nb :
  kv_inv repr m fl [] -> alloc_pre m r n (default [] (req_to_blocks m !! request_id r)) ncb k ->
  allocate_slots m r n ncb = Ok (m', r', Some nb) -> NoDup nb ∧ ∀ b, b ∈ nb -> b ∈ fl.
Proof.
  intros Hm Hap E. destruct (allocate_slots_spec repr m fl r n _ ncb k Hm Hap) as (m1 & r1 & o1 & E1 & Ho).
  rewrite E in E1. injection E1 as <- <- <-. destruct Ho as [_ Hpost].
  pose proof (po_nb _ _ _ _ _ _ _ _ _ _ _ Hpost) as Hnb.
  pose proof (fq_nodup _ _ _ (ki_repr _ _ _ _ Hm)) as Hnd. split.
  - rewrite Hnb. apply (sublist_NoDup _ (filter (.∉ ncb) fl)); [by apply NoDup_filter|apply sublist_take].
  - intros b Hb. rewrite Hnb in Hb. apply elem_of_take in Hb as (i & Hb & _).
    apply list_elem_of_lookup_2, list_elem_of_filter in Hb. tauto.
Qed.

Lemma fresh_blocks s fl b x : sched_inv s fl -> b ∈ fl -> b ∉ blocks_of s x.
Proof.
  intros Hi Hb. unfold blocks_of. destruct (req_to_blocks (kv s) !! _) as [bl|] eqn:E; [|apply not_elem_of_nil].
  by apply (free_not_owned repr (kv s) fl _ bl b (si_kv _ _ _ Hi) Hb E).
Qed.

Lemma preempt_trace s fl l p s' p' :
  sched_inv s fl -> running s = l ++ [p] -> preempt_last s = Ok (s', p') ->
  p' = p ∧ status (obj s' p) = PREEMPTED ∧
  ∀ x, x ∈ live s -> x ≠ p -> blocks_of s' x = blocks_of s x ∧ obj s' x = obj s x.
Proof.
  intros Hi Hrun E. destruct (preempt_last_spec repr s fl l p Hi Hrun)
    as (s1 & fl1 & E1 & _ & _ & _ & _ & _ & _ & K & Ho).
  rewrite E in E1. injection E1 as <- ->. split; [done|]. split.
  - unfold preempt_last in E. rewrite Hrun, last_snoc in E. cbn [or_raise mbind result_bind] in E.
    apply bind_Ok_inv in E as (m & _ & E). injection E as <-.
    match goal with |- status (obj (with_queues ?t _ _) p) = _ => change (status (obj t p) = PREEMPTED) end.
    by rewrite obj_with_obj, decide_True.
  - intros x Hx Hne. rewrite Ho by done. split; [|done].
    apply (keeps_blocks s s' x (request_id (obj s p)) K); [|by rewrite Ho].
    apply (live_ids s fl x p Hi Hx); [|done]. unfold live. rewrite Hrun. set_solver.
Qed.

Lemma alloc_or_preempt_trace fuel s fl ref n pre0 l tl s' pre o :
  sched_inv s fl -> running s = l ++ ref :: tl -> (length tl < fuel)%nat -> 0 < n ->
  num_computed_tokens (obj s ref) + n <= num_tokens (obj s ref) ->
  alloc_or_preempt fuel s ref n pre0 = Ok (s', pre, o) ->
  (∀ x, x ∈ running s' -> x ≠ ref -> blocks_of s' x = blocks_of s x) ∧
  (∀ nb, o = Some nb -> blocks_of s' ref = blocks_of s ref ++ nb) ∧
  (∀ x, x ∈ waiting s' -> status (obj s' x) = WAITING <-> status (obj s x) = WAITING) ∧
  (apart s -> apart s').
Proof.
  revert s fl pre0 tl. induction fuel as [|fuel IH]; intros s fl pre0 tl Hi Hrun Hfuel Hn Htot E; [lia|].
  assert (Href : ref ∈ running s) by (rewrite Hrun; set_solver).
  pose proof (si_queues _ _ _ Hi) as Q. cbn [alloc_or_preempt] in E.
  destruct (alloc_running_spec repr s fl ref n Hi Href Hn Htot)
    as (m1 & hs & o1 & fl1 & E1 & Hi1 & F1 & K1 & _).
  destruct (running_alloc_pre repr s fl ref n Hi Href Hn Htot) as (bl & k & Hbl & Hap).
  assert (Hb1 := alloc_blocks (kv s) fl (obj s ref) n [] k m1 (set_kv_block_hashes hs (obj s ref)) o1 (si_kv _ _ _ Hi)).
  rewrite Hbl in Hb1. specialize (Hb1 Hap E1). rewrite E1 in E. cbn [mbind result_bind] in E.
  set (s1 := with_obj (with_kv s m1) ref (set_kv_block_hashes hs (obj s ref))) in *.
  assert (Hobj1 : ∀ x, obj s1 x = if decide (x = ref)
    then set_kv_block_hashes hs (obj s ref) else obj s x).
  { intros x. exact (obj_with_obj (with_kv s m1) ref _ x). }
  assert (Hst1 : ∀ x, status (obj s1 x) = status (obj s x)).
  { intros x. rewrite Hobj1. by case_decide; subst. }
  assert (Hid1 : ∀ x, request_id (obj s1 x) = request_id (obj s x)) by (intros; apply req_core_id, F1).
  assert (Hk1 : ∀ x, x ∈ live s -> x ≠ ref -> blocks_of s1 x = blocks_of s x).
  { intros x Hx Hne. apply (keeps_blocks s s1 x (request_id (obj s ref))); [done| |done].
    apply (live_ids s fl x ref Hi Hx); [|done]. apply elem_of_app. by right. }
  assert (Hr1 : blocks_of s1 ref = blocks_of s ref ++ match o1 with Some nb => nb | None => [] end).
  { unfold blocks_of. rewrite Hid1. change (kv s1) with m1. rewrite Hb1, Hbl. by destruct o1. }
  assert (Hnc1 : ∀ x, num_computed_tokens (obj s1 x) = num_computed_tokens (obj s x)).
  { intros x. rewrite Hobj1. by case_decide; subst. }
  assert (Hbs : 0 < block_size (kv s)) by apply (si_kv _ _ _ Hi).
  pose proof (kf_bs _ _ (sf_kv _ _ F1)) as Ebs1.
  assert (Hlr : ∀ x, x ∈ running s -> x ∈ live s) by (intros; apply elem_of_app; by right).
  destruct o1 as [nb|].
  { destruct (alloc_fresh (kv s) fl (obj s ref) n [] k m1 (set_kv_block_hashes hs (obj s ref)) nb (si_kv _ _ _ Hi))
      as [Hnd Hfr]; [by rewrite Hbl|done|].
    injection E as <- <- <-. split_and!; [|by intros ? [= ->]|by intros; rewrite Hst1|].
    { intros x Hx. apply Hk1. auto. }
    apply (apart_extend s s1 ref (blocks_of s ref) nb Ebs1); auto.
    - intros b x Hb _. apply (fresh_blocks s fl b x Hi). auto. }
  rewrite app_nil_r in Hr1.
  destruct (exists_last (l := ref :: tl)) as (tl0 & p & Etl); [done|].
  rewrite Etl, app_assoc in Hrun. change (running s) with (running s1) in Hrun.
  destruct (preempt_last_spec repr s1 fl1 (l ++ tl0) p Hi1 Hrun)
    as (s2 & fl2 & E2 & Hi2 & F2 & _ & _ & Hr2 & Hw2 & _ & Ho2).
  pose proof (kf_bs _ _ (sf_kv _ _ F2)) as Ebs2.
  destruct (preempt_trace s1 fl1 (l ++ tl0) p s2 p Hi1 Hrun E2) as (_ & Hst2 & Hk2).
  rewrite E2 in E. cbn [mbind result_bind] in E.
  assert (Hlive : ∀ x, x ∈ running s2 -> x ∈ live s ∧ x ≠ p).
  { intros x Hx. rewrite Hr2 in Hx. change (live s) with (live s1). split; [unfold live; rewrite Hrun; set_solver|].
    pose proof (qo_nodup _ _ _ _ _ (si_queues _ _ _ Hi1)) as Hnd. rewrite Hrun in Hnd.
    apply NoDup_app in Hnd as (_ & _ & Hnd). apply NoDup_app in Hnd as (_ & Hd & _). set_solver. }
  assert (Hstw : ∀ x, status (obj s2 x) = WAITING <-> status (obj s x) = WAITING).
  { intros x. destruct (decide (x = p)) as [->|Hne]; [|by rewrite Ho2, Hst1].
    destruct (qo_run _ _ _ _ _ (si_queues _ _ _ Hi1) p ltac:(rewrite Hrun; set_solver)) as (Hs & _).
    rewrite Hst1 in Hs. by rewrite Hst2, Hs. }
  assert (Hblk : ∀ x, x ∈ running s2 -> blocks_of s2 x = blocks_of s x).
  { intros x Hx. destruct (Hlive x Hx) as [Hl Hp]. destruct (Hk2 x Hl Hp) as [-> _].
    destruct (decide (x = ref)) as [->|Hne]; [done|by apply Hk1]. }
  assert (Ha2 : apart s -> apart s2).
  { apply apart_mono; [done|congruence|]. intros x Hx. destruct (Hlive x Hx) as [Hl Hp].
    split; [change (running s) with (running s1); rewrite Hrun; rewrite Hr2 in Hx; set_solver|].
    split; [by apply Hblk|]. by rewrite Ho2, Hnc1. }
  destruct (decide (p = ref)) as [->|Hpr].
  { injection E as <- <- <-. split_and!; auto. done. }
  assert (Htl : ∃ tl1, tl0 = ref :: tl1) by (destruct tl0; simplify_eq/=; eauto). destruct Htl as [tl1 ->].
  assert (Hr2obj : obj s2 ref = set_kv_block_hashes hs (obj s ref)) by (by rewrite Ho2, Hobj1, decide_True).
  assert (Hlref : ref ∈ live s1) by (apply elem_of_app; by right).
  destruct (IH s2 fl2 (pre0 ++ [p]) tl1 Hi2 Hr2) as (IH1 & IH2 & IH3 & IH4); [|done|by rewrite Hr2obj|done|].
  { apply (f_equal length) in Etl. rewrite length_app in Etl. simpl in Etl. lia. }
  destruct (alloc_or_preempt_spec repr fuel s2 fl2 ref n (pre0 ++ [p]) l tl1 Hi2 Hr2)
    as (s3 & pre3 & o3 & fl3 & E3 & _ & _ & _ & _ & Hr3 & _); [|done|by rewrite Hr2obj|].
  { apply (f_equal length) in Etl. rewrite length_app in Etl. simpl in Etl. lia. }
  rewrite E in E3. injection E3 as <- _ _. split_and!.
  - intros x Hx Hne. assert (Hx2 : x ∈ running s2) by (rewrite Hr3; set_solver).
    rewrite IH1 by done. by apply Hblk.
  - intros nb Hnb. rewrite (IH2 nb Hnb). destruct (Hk2 ref Hlref ltac:(done)) as [-> _]. by rewrite Hr1.
  - intros x Hx. by rewrite IH3.
  - auto.
Qed.

(** ** Running requests *)

Section running.
Context (s0 : Scheduler) (Hrun0 : ∀ x, x ∈ running s0 -> status (obj s0 x) = RUNNING).

(** Preemption from the end of [running], then perhaps new blocks for [ref]. *)
Lemma trace_alloc s s1 v ref pre nb n enc b :
  trace s0 s v -> v_new v = [] -> v_resumed v = [] ->
  (∀ x, x ∈ running s -> status (obj s x) = RUNNING) ->
  (∀ x, request_id (obj s1 x) = request_id (obj s x)) ->
  running s1 ⊆ running s -> (∀ x, x ∈ waiting s1 -> x ∈ waiting s ∨ (x ∈ running s ∧ x ∉ v_running v)) ->
  (∀ x, x ∈ v_running v -> x ∈ running s1 ∧ request_id (obj s x) ≠ request_id (obj s ref)) ->
  (∀ x, x ∈ running s1 -> x ≠ ref -> blocks_of s1 x = blocks_of s x) ->
  (∀ x, x ∈ waiting s1 -> status (obj s1 x) = WAITING <-> status (obj s x) = WAITING) ->
  (apart s -> apart s1) ->
  (ref ∉ running s1 -> trace s0 s1 (add_preempted v pre)) ∧
  (ref ∈ running s1 -> blocks_of s1 ref = blocks_of s ref ++ nb ->
   trace s0 s1 (record_tokens (add_running (add_preempted v pre) ref) (request_id (obj s ref)) nb n enc b)).
Proof.
  intros [Tr Tn Ts Ti Tw Ta] Hnew Hres HR Hid Hsub Hwait Hl Hblk Hst Hap.
  assert (Hpick : picked v = v_running v) by (unfold picked; by rewrite Hnew, Hres). rewrite Hpick in Ti.
  assert (Hw : ∀ x, x ∈ waiting s1 -> status (obj s1 x) = WAITING <-> status (obj s0 x) = WAITING).
  { intros x Hx. rewrite (Hst x Hx). destruct (Hwait x Hx) as [Hx'|[Hx' Hp]]; [by apply Tw|].
    destruct (Ti x Hx' Hp) as [Hx0 _]. by rewrite (HR x Hx'), (Hrun0 x Hx0). }
  assert (Hold : ∀ x, x ∈ v_running v -> x ≠ ref ∧ blocks_of s1 x = blocks_of s x).
  { intros x Hx. destruct (Hl x Hx) as [Hx1 Hne]. assert (x ≠ ref) by congruence. auto. }
  split; intros Href; [|intros Hbr]; split; simpl; rewrite ?Hnew, ?Hres; try (by intros x ?%elem_of_nil); try done; try (by auto).
  - intros x Hx. destruct (Hold x Hx) as [_ ->]. rewrite Hid. by apply Tr.
  - intros x Hx Hn. unfold picked in Hn. simpl in Hn. rewrite Hnew, Hres in Hn. simpl in Hn.
    rewrite (Hblk x Hx) by congruence. apply Ti; [by apply Hsub|done].
  - intros x [Hx|Hx]%elem_of_app.
    + destruct (Hold x Hx) as [_ ->]. destruct (Hl x Hx) as [_ Hne]. rewrite Hid, lookup_insert_ne by congruence. by apply Tr.
    + apply list_elem_of_singleton in Hx as ->. assert (Hnr : ref ∉ v_running v) by (intros Hr; by destruct (Hold _ Hr)).
      destruct (Ti ref (Hsub _ Href) Hnr) as [? E]. split; [done|]. exists nb.
      rewrite Hid, lookup_insert_eq, Hbr, E. done.
  - intros x Hx Hn. unfold picked in Hn. simpl in Hn. rewrite Hnew, Hres in Hn. simpl in Hn.
    apply not_elem_of_app in Hn as [Hn1 Hn2]. rewrite (Hblk x Hx) by set_solver. apply Ti; [by apply Hsub|done].
Qed.

Lemma schedule_running_trace fuel s fl v l rest s' v' :
  sched_inv s fl -> vars_ok s v -> v_new v = [] -> v_resumed v = [] ->
  v_running v ⊆ l -> running s = l ++ rest -> (length rest <= fuel)%nat -> trace s0 s v ->
  schedule_running fuel s v (length l) = Ok (s', v') -> trace s0 s' v'.
Proof.
  revert s fl v l rest. induction fuel as [|fuel IH];
    intros s fl v l rest Hi Hv Hnew Hres Hsub Hrun Hfuel T E; (destruct rest as [|ref tl];
    [rewrite app_nil_r in Hrun; simpl in E; rewrite Hrun, lookup_ge_None_2 in E by done; by simplify_eq|]);
    simpl in Hfuel; [lia|].
  cbn [schedule_running] in E. rewrite Hrun, list_lookup_middle in E by done.
  destruct (Z.leb_spec (v_token_budget v) 0) as [Hb|Hb]; [by simplify_eq|].
  assert (Href : ref ∈ running s) by (rewrite Hrun; set_solver).
  pose proof (si_queues _ _ _ Hi) as Q. destruct (qo_run _ _ _ _ _ Q ref Href) as (_ & Hc & _).
  rewrite (proj2 (Z.ltb_lt _ _)) in E by lia. cbn [py_assert mbind result_bind] in E.
  destruct (try_schedule_spec s (obj s ref) (num_computed_tokens (obj s ref))
    (Z.min (num_tokens (obj s ref) - num_computed_tokens (obj s ref)) (v_token_budget v))
    (v_encoder_budget v)) as (enc & n & nb & Et & Ht);
    [by apply (ro_wf _ _ _ (qo_req _ _ _ _ _ Q ref ltac:(set_solver)))|lia|].
  rewrite Et in E. cbn [mbind result_bind] in E. pose proof (tp_num _ _ _ _ _ _ _ _ _ Ht) as Hn.
  replace (S (length l)) with (length (l ++ [ref])) in E by (rewrite length_app; simpl; lia).
  destruct (Z.eqb_spec n 0) as [->|Hn0].
  { apply (IH s fl v (l ++ [ref]) tl); try done; [set_solver|by rewrite <-app_assoc|lia]. }
  destruct (pick_running_spec repr s fl v l ref tl n enc nb) as (s1 & pre & o & fl1 & E1 & Hw1 & Hr1 & Ho);
    try done; [lia|lia|by intros i Hin; apply (tp_range _ _ _ _ _ _ _ _ _ Ht)|].
  destruct (alloc_or_preempt_trace (length (running s)) s fl ref n [] l tl s1 pre o Hi Hrun)
    as (B1 & B2 & B3 & B4); [rewrite Hrun, length_app; simpl; lia|lia|lia|done|].
  rewrite Hrun in E1. rewrite E1 in E. cbn [mbind result_bind] in E.
  pose proof (qo_nodup _ _ _ _ _ Q) as Hnd. apply NoDup_app in Hnd as (_ & _ & Hnd).
  assert (Hrl : ref ∉ l).
  { rewrite Hrun in Hnd. apply NoDup_app in Hnd as (_ & Hd & _). intros Hin. apply (Hd ref Hin). by left. }
  assert (F1 : ∀ x, request_id (obj s1 x) = request_id (obj s x)).
  { intros x. apply req_core_id. destruct o as [blocks|]; [|by apply Ho].
    destruct Ho as (e & tl' & _ & _ & F & _). exact (sf_core _ _ F x). }
  assert (Hlr : ∃ tl', running s1 = l ++ tl' ∧ (o = None -> tl' = [])).
  { destruct o as [blocks|].
    - destruct Ho as (e & tl' & _ & _ & _ & -> & _). by eexists.
    - destruct (alloc_or_preempt_spec repr (length (l ++ ref :: tl)) s fl ref n [] l tl Hi Hrun)
        as (s2 & pre2 & o2 & fl2 & E2 & _ & _ & _ & _ & _ & _ & Ho2); [rewrite length_app; simpl; lia|lia|lia|].
      rewrite E1 in E2. injection E2 as <- _ <-. exists []. by rewrite app_nil_r. }
  destruct Hlr as (tl1 & Hlr & Hnone).
  destruct (trace_alloc s s1 v ref pre (default [] o) n enc nb T Hnew Hres) as [T1 T2]; try done.
  { intros x Hx. apply (qo_run _ _ _ _ _ Q x Hx). }
  { rewrite Hr1. set_solver. }
  { intros x Hx. rewrite Hw1 in Hx. apply elem_of_app in Hx as [Hx|Hx]; [|by left]. right.
    split; [rewrite Hr1; set_solver|]. intros Hv1. rewrite Hr1 in Hnd. apply NoDup_app in Hnd as (_ & Hd & _).
    apply (Hd x); [rewrite Hlr; set_solver|done]. }
  { intros x Hx. apply Hsub in Hx. split; [rewrite Hlr; set_solver|].
    apply (live_ids s fl x ref Hi); unfold live; rewrite ?Hrun; set_solver. }
  destruct o as [blocks|].
  2: { injection E as <- <-. apply T1. rewrite Hlr, (Hnone eq_refl), app_nil_r. done. }
  destruct Ho as (e & tl' & Ee & Hi2 & F2 & Hr1' & Hv2). rewrite Ee in E. cbn [mbind result_bind] in E.
  apply (IH (with_ecm s1 e) fl1 _ (l ++ [ref]) tl' Hi2 Hv2 Hnew Hres); try done.
  - simpl. set_solver.
  - simpl. by rewrite Hr1', <-app_assoc.
  - rewrite Hr1', Hrun, <-app_assoc in Hr1. apply (f_equal length) in Hr1.
    rewrite !length_app in Hr1. simpl in *. lia.
  - assert (T3 : trace s0 s1 (record_tokens (add_running (add_preempted v pre) ref) (request_id (obj s ref)) blocks n enc nb)).
    { apply T2; [rewrite Hr1'; set_solver|by apply B2]. }
    destruct T3. by split.
Qed.
End running.

(** ** Waiting requests *)

Section waiting.
Context (s0 : Scheduler).
Context (Hwait0 : ∀ x, x ∈ waiting s0 -> status (obj s0 x) = WAITING ∨ status (obj s0 x) = PREEMPTED).

(** Only the object and the table of a waiting request change. *)
Lemma trace_waiting s fl v ref m r :
  sched_inv s fl -> vars_ok s v -> trace s0 s v -> ref ∈ waiting s ->
  kv_keeps (request_id (obj s ref)) (kv s) m -> req_core r = req_core (obj s ref) ->
  status r = status (obj s ref) -> trace s0 (with_obj (with_kv s m) ref r) v.
Proof.
  intros Hi Hv T Href K Hcore Hst. set (s1 := with_obj (with_kv s m) ref r).
  assert (Hobj : ∀ x, obj s1 x = if decide (x = ref) then r else obj s x)
    by (intros x; exact (obj_with_obj (with_kv s m) ref r x)).
  assert (Hid : ∀ x, request_id (obj s1 x) = request_id (obj s x)).
  { intros x. rewrite Hobj. case_decide; subst; [by apply req_core_id|done]. }
  assert (Hne : ∀ x, x ∈ running s -> x ≠ ref).
  { intros x Hx ->. pose proof (qo_nodup _ _ _ _ _ (si_queues _ _ _ Hi)) as Hnd.
    apply NoDup_app in Hnd as (_ & Hd & _). by apply (Hd ref Href). }
  assert (Hblk : ∀ x, x ∈ running s -> blocks_of s1 x = blocks_of s x).
  { intros x Hx. apply (keeps_blocks s s1 x (request_id (obj s ref)) K); [|done].
    apply (live_ids s fl x ref Hi); unfold live; [set_solver..|by apply Hne]. }
  assert (Hpk : ∀ x, x ∈ picked v -> blocks_of s1 x = blocks_of s x).
  { intros x Hx. apply Hblk. by apply (vo_picked _ _ Hv). }
  destruct T as [Tr Tn Ts Ti Tw Ta]. unfold picked in Hpk. split.
  - intros x Hx. rewrite Hid, Hpk by set_solver. by apply Tr.
  - intros x Hx. rewrite Hid, Hpk by set_solver. by apply Tn.
  - intros x Hx. rewrite Hid, Hpk by set_solver. by apply Ts.
  - intros x Hx Hn. change (running s1) with (running s) in Hx. rewrite Hblk by done. by apply Ti.
  - intros x Hx. change (waiting s1) with (waiting s) in Hx. rewrite <-(Tw x Hx), Hobj.
    case_decide; subst; [by rewrite Hst|done].
  - intros Ha. apply (apart_mono s s1); [apply (si_kv _ _ _ Hi)|apply (kf_bs _ _ (kk_frame _ _ _ K))| |by apply Ta].
    intros x Hx. change (running s1) with (running s) in Hx. split; [done|]. split; [by apply Hblk|].
    rewrite Hobj, decide_False by by apply Hne. done.
Qed.

(** The first waiting request is admitted with the hits [cb] and new blocks [nb]. *)
Lemma trace_admit s fl v v0 ref rest m hs nc n cb nb enc b :
  sched_inv s fl -> vars_ok s v -> trace s0 s v -> waiting s = ref :: rest -> ref ∈ waiting s0 ->
  kv_keeps (request_id (obj s ref)) (kv s) m -> 
  default [] (req_to_blocks m !! request_id (obj s ref)) = cb ++ nb ->
  nc = len cb * block_size (kv s) -> NoDup nb -> (∀ b, b ∈ nb -> b ∈ fl) ->
  v0 = match status (obj s ref) with WAITING => add_new v ref | _ => add_resumed v ref end ->
  trace s0 (admitted s m ref rest (set_kv_block_hashes hs (obj s ref)) nc)
    (record_tokens v0 (request_id (obj s ref)) (cb ++ nb) n enc b).
Proof.
  intros Hi Hv T Hw Href0 K Hbl Enc Hnb Hfr Hv0. set (bl := cb ++ nb) in *.
  set (s1 := admitted s m ref rest (set_kv_block_hashes hs (obj s ref)) nc).
  assert (Hobj : ∀ x, x ≠ ref -> obj s1 x = obj s x).
  { intros x Hx. unfold s1, admitted. rewrite obj_with_obj, decide_False by done.
    exact (eq_trans (obj_with_obj (with_kv s m) ref _ x) (decide_False _ _ Hx)). }
  assert (Hobjr : obj s1 ref = set_num_computed_tokens nc (set_status RUNNING (set_kv_block_hashes hs (obj s ref))))
    by (unfold s1, admitted; by rewrite obj_with_obj, decide_True).
  assert (Hid : ∀ x, request_id (obj s1 x) = request_id (obj s x)).
  { intros x. destruct (decide (x = ref)) as [->|Hx]; [by rewrite Hobjr|by rewrite Hobj]. }
  assert (Href : ref ∈ waiting s) by (rewrite Hw; by left).
  assert (Hne : ∀ x, x ∈ running s -> x ≠ ref ∧ request_id (obj s x) ≠ request_id (obj s ref)).
  { intros x Hx. assert (x ≠ ref).
    { intros ->. pose proof (qo_nodup _ _ _ _ _ (si_queues _ _ _ Hi)) as Hnd.
      apply NoDup_app in Hnd as (_ & Hd & _). by apply (Hd ref Href). }
    split; [done|]. apply (live_ids s fl x ref Hi); unfold live; set_solver. }
  assert (Hblk : ∀ x, x ∈ running s -> blocks_of s1 x = blocks_of s x).
  { intros x Hx. apply (keeps_blocks s s1 x (request_id (obj s ref)) K); [|done]. by apply Hne. }
  assert (Hblr : blocks_of s1 ref = bl) by (unfold blocks_of; by rewrite Hid).
  assert (Hpk : ∀ x, x ∈ picked v -> x ∈ running s) by (intros x Hx; by apply (vo_picked _ _ Hv)).
  assert (Hlk : ∀ x, x ∈ running s -> <[request_id (obj s ref) := bl]> (v_block_ids v) !! request_id (obj s1 x) =
     v_block_ids v !! request_id (obj s x)).
  { intros x Hx. rewrite Hid. apply lookup_insert_ne. by apply not_eq_sym, Hne. }
  destruct T as [Tr Tn Ts Ti Tw Ta]. unfold picked in Hpk.
  assert (Hst : status (obj s ref) = WAITING ∧ v0 = add_new v ref ∧ status (obj s0 ref) = WAITING ∨
     v0 = add_resumed v ref ∧ status (obj s0 ref) = PREEMPTED).
  { destruct (qo_wait _ _ _ _ _ (si_queues _ _ _ Hi) ref Href) as ([Es|Es] & _); rewrite Es in Hv0.
    - left. split_and!; [done|done|by apply Tw].
    - right. split; [done|]. destruct (Hwait0 ref Href0) as [Hs|Hs]; [|done]. apply Tw in Hs; [congruence|done]. }
  assert (Hrun : ∀ x, x ∈ running s1 -> x ≠ ref -> x ∈ running s).
  { intros x Hx Hx'. change (running s1) with (running s ++ [ref]) in Hx. set_solver. }
  assert (HR : ∀ x, x ∈ v_running v -> x ∈ running s) by (intros; apply Hpk; rewrite !elem_of_app; tauto).
  assert (HN : ∀ x, x ∈ v_new v -> x ∈ running s) by (intros; apply Hpk; rewrite !elem_of_app; tauto).
  assert (HS : ∀ x, x ∈ v_resumed v -> x ∈ running s) by (intros; apply Hpk; rewrite !elem_of_app; tauto).
  assert (Tr' : ∀ x, x ∈ v_running v -> x ∈ running s0 ∧ ∃ new,
     <[request_id (obj s ref) := bl]> (v_block_ids v) !! request_id (obj s1 x) = Some new ∧
     blocks_of s1 x = blocks_of s0 x ++ new).
  { intros x Hx. rewrite Hlk, Hblk by auto. by apply Tr. }
  assert (Tn' : ∀ x, x ∈ v_new v -> x ∈ waiting s0 ∧ status (obj s0 x) = WAITING ∧
     <[request_id (obj s ref) := bl]> (v_block_ids v) !! request_id (obj s1 x) = Some (blocks_of s1 x)).
  { intros x Hx. rewrite Hlk, Hblk by auto. by apply Tn. }
  assert (Ts' : ∀ x, x ∈ v_resumed v -> x ∈ waiting s0 ∧ status (obj s0 x) = PREEMPTED ∧
     <[request_id (obj s ref) := bl]> (v_block_ids v) !! request_id (obj s1 x) = Some (blocks_of s1 x)).
  { intros x Hx. rewrite Hlk, Hblk by auto. by apply Ts. }
  assert (Hnew : <[request_id (obj s ref) := bl]> (v_block_ids v) !! request_id (obj s1 ref) = Some (blocks_of s1 ref))
    by (by rewrite Hid, lookup_insert_eq, Hblr).
  assert (Hidle : ∀ x, x ∈ running s1 -> x ≠ ref -> (x ∉ picked v) -> x ∈ running s0 ∧ blocks_of s1 x = blocks_of s0 x).
  { intros x Hx Hxr Hn. specialize (Hrun x Hx Hxr). rewrite Hblk by done. by apply Ti. }
  assert (Hwt : ∀ x, x ∈ waiting s1 -> status (obj s1 x) = WAITING <-> status (obj s0 x) = WAITING).
  { intros x Hx. assert (x ≠ ref).
    { intros ->. pose proof (qo_nodup _ _ _ _ _ (si_queues _ _ _ Hi)) as Hnd. rewrite Hw in Hnd. simpl in Hnd.
      apply NoDup_cons in Hnd as [Hnd _]. apply Hnd, elem_of_app. by left. }
    rewrite Hobj by done. apply Tw. rewrite Hw. by right. }
  assert (Hap : apart s0 -> apart s1).
  { intros Ha. pose proof (ki_bs _ _ _ _ (si_kv _ _ _ Hi)) as Hbs.
    pose proof (kf_bs _ _ (kk_frame _ _ _ K) : block_size (kv s1) = block_size (kv s)) as Ebs.
    apply (apart_extend s s1 ref cb nb); try done; [| | |by apply Ta].
    - intros x Hx Hxr. specialize (Hrun x Hx Hxr). split; [done|]. split; [by apply Hblk|]. by rewrite Hobj.
    - intros i b' Hi'. left. unfold computed_entry. rewrite Hobjr, Ebs. cbn. rewrite Enc, Z.div_mul by lia.
      apply lookup_lt_Some in Hi'. lia.
    - intros b' x Hb' _. apply (fresh_blocks s fl b' x Hi). auto. }
  unfold picked in Hidle.
  destruct Hst as [(_ & -> & Hs0)|(-> & Hs0)]; split; simpl; try done.
  - intros x [Hx| ->%list_elem_of_singleton]%elem_of_app; auto.
  - intros x Hx Hn. unfold picked in Hn. simpl in Hn. rewrite !not_elem_of_app, not_elem_of_cons in Hn.
    apply Hidle; rewrite ?not_elem_of_app; tauto.
  - intros x [Hx| ->%list_elem_of_singleton]%elem_of_app; auto.
  - intros x Hx Hn. unfold picked in Hn. simpl in Hn. rewrite !not_elem_of_app, not_elem_of_cons in Hn.
    apply Hidle; rewrite ?not_elem_of_app; tauto.
Qed.

Lemma schedule_waiting_one_trace s fl v ref rest s' v' b :
  sched_inv s fl -> vars_ok s v -> trace s0 s v -> waiting s = ref :: rest -> ref ∈ waiting s0 ->
  0 < v_token_budget v -> len (running s) < max_num_running_reqs s ->
  schedule_waiting_one s v ref rest = Ok (s', v', b) -> trace s0 s' v'.
Proof.
  intros Hi Hv T Hw Href0 Hb Hmax E. assert (Href : ref ∈ waiting s) by (rewrite Hw; by left).
  unfold schedule_waiting_one in E.
  destruct (waiting_lookup_spec repr s fl ref Hi Href)
    as (hs & cb & E1 & Hobj1 & Hi1 & F1 & Hcb & Hlen & Hhit & Hnc).
  rewrite E1 in E. cbn [mbind result_bind] in E. set (s1 := with_obj s ref _) in *.
  assert (T1 : trace s0 s1 v).
  { unfold s1. rewrite <-(with_kv_id s) at 1. by apply (trace_waiting s fl). }
  assert (Hv1 : vars_ok s1 v).
  { apply (vars_ok_untouched s); [done| |done].
    pose proof (waiting_untouched repr s fl v (kv s) ref (set_kv_block_hashes hs (obj s ref))
      (waiting s) (running s) Hi Hv Href) as W.
    rewrite with_kv_id in W. intros x Hx. apply (W ltac:(by split) ltac:(done) x Hx). }
  rewrite <-(req_core_tokens _ _ (sf_core _ _ F1 ref)) in *. change (kv s) with (kv s1) in *.
  rewrite (proj2 (Z.ltb_lt _ _)) in E by lia. cbn [py_assert mbind result_bind] in E.
  destruct (try_schedule_spec s1 (obj s1 ref) (len cb * block_size (kv s1))
    (Z.min (num_tokens (obj s1 ref) - len cb * block_size (kv s1)) (v_token_budget v))
    (v_encoder_budget v)) as (enc & n & nbud & Et & Ht);
    [apply (qo_req _ _ _ _ _ (si_queues _ _ _ Hi1)); apply elem_of_app; by left|lia|].
  rewrite Et in E. cbn [mbind result_bind] in E. pose proof (tp_num _ _ _ _ _ _ _ _ _ Ht) as Hn.
  destruct (Z.eqb_spec n 0) as [->|Hn0]; [by simplify_eq|].
  destruct (waiting_alloc_spec repr s1 fl ref cb n) as (m & hs2 & o & fl2 & E2 & K & Hm & Ho);
    try done; [by rewrite Hobj1|lia|lia|].
  pose proof (qo_wait _ _ _ _ _ (si_queues _ _ _ Hi1) ref Href) as (Hst & _ & Hbl0).
  assert (Hap : alloc_pre (kv s1) (obj s1 ref) n [] cb 0).
  { apply (waiting_alloc_pre repr s1 fl); try done; [by rewrite Hobj1|lia|lia]. }
  rewrite <-Hbl0 in Hap.
  pose proof (alloc_blocks (kv s1) fl (obj s1 ref) n cb 0 m _ o (si_kv _ _ _ Hi1) Hap E2) as Hbl.
  rewrite Hbl0 in Hbl. simpl in Hbl. rewrite E2 in E. cbn [mbind result_bind] in E. destruct o as [nb|].
  2: { injection E as <- <- _. by apply (trace_waiting s1 fl). }
  match type of E with context [mbind _ (match ?st with _ => _ end)] =>
    assert (Est : (match st with WAITING => Ok (add_new v ref) | PREEMPTED => Ok (add_resumed v ref)
      | _ => Err RuntimeError end) = Ok (match status (obj s1 ref) with WAITING => add_new v ref | _ => add_resumed v ref end))
  end.
  { change (status (set_kv_block_hashes hs2 (obj s1 ref))) with (status (obj s1 ref)). by destruct Hst as [->| ->]. }
  rewrite Est in E. cbn [mbind result_bind] in E. apply bind_Ok_inv in E as (s3 & Ee & E). injection E as <- <- _.
  unfold allocate_encoder in Ee. apply bind_Ok_inv in Ee as (e & _ & Ee). injection Ee as <-.
  destruct (alloc_fresh (kv s1) fl (obj s1 ref) n cb 0 m _ nb (si_kv _ _ _ Hi1) Hap E2) as [Hnd Hfr].
  destruct (trace_admit s1 fl v _ ref rest m hs2 (len cb * block_size (kv s1)) n cb nb enc nbud
    Hi1 Hv1 T1 Hw Href0 K Hbl eq_refl Hnd Hfr eq_refl) as []. by split.
Qed.

Lemma schedule_waiting_trace fuel s fl v s' v' :
  sched_inv s fl -> vars_ok s v -> trace s0 s v -> (length (waiting s) <= fuel)%nat -> waiting s ⊆ waiting s0 ->
  schedule_waiting fuel s v = Ok (s', v') -> trace s0 s' v'.
Proof.
  revert s fl v. induction fuel as [|fuel IH]; intros s fl v Hi Hv T Hfuel Hsub E;
    cbn [schedule_waiting] in E; (destruct (waiting s) as [|ref rest] eqn:Hw; [by simplify_eq|]);
    simpl in Hfuel; [lia|].
  destruct (Z.leb_spec (v_token_budget v) 0) as [Hb|Hb]; [by simplify_eq|].
  destruct (Z.eqb_spec (len (running s)) (max_num_running_reqs s)) as [Hmax|Hmax]; [by simplify_eq|].
  pose proof (si_len _ _ _ Hi) as Hlen.
  destruct (schedule_waiting_one_spec repr s fl v ref rest Hi Hv Hw Hb ltac:(lia))
    as (s1 & v1 & fl1 & b & E1 & Hi1 & F1 & Hv1 & Hp1 & Hq). rewrite E1 in E. cbn [mbind result_bind] in E.
  assert (T1 : trace s0 s1 v1).
  { apply (schedule_waiting_one_trace s fl v ref rest s1 v1 b); try done; [set_solver|lia]. }
  destruct b, Hq as (Hw1 & _); [|by simplify_eq].
  apply (IH s1 fl1 v1); try done; rewrite Hw1; [lia|set_solver].
Qed.
End waiting.

(** ** The data in the output *)

(** What the output of [schedule] says of the requests, against their state before
    ([s0]) and after ([s1]) the call. *)
Record told (s0 s1 : Scheduler) (out : SchedulerOutput) : Prop := {
  td_new : ∀ d, d ∈ scheduled_new_reqs out -> ∃ x, x ∈ running s1 ∧ x ∈ waiting s0 ∧
    status (obj s0 x) = WAITING ∧
    d = NewRequestData_from_request (obj s1 x) (blocks_of s1 x) (num_computed_tokens (obj s1 x));
  td_cached : ∀ d, d ∈ scheduled_cached_reqs out -> ∃ x, x ∈ running s1 ∧
    crd_req_id d = request_id (obj s1 x) ∧ crd_num_computed_tokens d = num_computed_tokens (obj s1 x) ∧
    if crd_resumed_from_preemption d
    then x ∈ waiting s0 ∧ status (obj s0 x) = PREEMPTED ∧ crd_new_block_ids d = blocks_of s1 x
    else x ∈ running s0 ∧ blocks_of s1 x = blocks_of s0 x ++ crd_new_block_ids d;
  td_idle : ∀ x, x ∈ running s1 -> num_scheduled_tokens out !! request_id (obj s1 x) = None ->
    x ∈ running s0 ∧ blocks_of s1 x = blocks_of s0 x;
  td_waiting : ∀ x, x ∈ waiting s1 -> status (obj s1 x) = WAITING <-> status (obj s0 x) = WAITING;
  td_apart : apart s0 -> apart s1;
  td_limits : same_limits s0 s1;
  td_finished : so_finished_req_ids out = finished_req_ids s0 ∧ finished_req_ids s1 = ∅;
  td_nodup : NoDup ((nrd_req_id <$> scheduled_new_reqs out) ++ (crd_req_id <$> scheduled_cached_reqs out));
}.

Lemma new_data_list_elem s refs ids l d :
  new_data_list s refs ids = Ok l -> d ∈ l ->
  ∃ x bl, x ∈ refs ∧ ids !! request_id (obj s x) = Some bl ∧
    d = NewRequestData_from_request (obj s x) bl (num_computed_tokens (obj s x)).
Proof.
  revert l. induction refs as [|ref refs IH]; intros l E Hd; cbn [new_data_list] in E.
  { simplify_eq. by apply elem_of_nil in Hd. }
  apply bind_Ok_inv in E as (bl & Eb & E). apply bind_Ok_inv in E as (l' & El & E). simplify_eq.
  apply elem_of_cons in Hd as [->|Hd].
  - exists ref, bl. split_and!; [left| |done]. by destruct (ids !! _); simplify_eq/=.
  - destruct (IH l' El Hd) as (x & bl' & Hx & ?). exists x, bl'. split; [by right|done].
Qed.

Lemma cached_data_list_elem s refs ids resumed s' l d :
  cached_ids_ok s -> cached_data_list s refs ids resumed = Ok (s', l) -> d ∈ l ->
  ∃ x bl, x ∈ refs ∧ ids !! request_id (obj s x) = Some bl ∧
    d = mkCachedRequestData (request_id (obj s x)) resumed bl (num_computed_tokens (obj s x)).
Proof.
  revert s l. induction refs as [|ref refs IH]; intros s l Hc E Hd; cbn [cached_data_list] in E.
  { simplify_eq. by apply elem_of_nil in Hd. }
  apply bind_Ok_inv in E as (bl & Eb & E). unfold _make_cached_request_data in E. cbv zeta in E.
  set (d0 := match _cached_reqs_data s !! _ with Some _ => _ | None => _ end) in E.
  assert (Hd0 : d0 = mkCachedRequestData (request_id (obj s ref)) resumed bl (num_computed_tokens (obj s ref))).
  { unfold d0. destruct (_cached_reqs_data s !! _) as [d1|] eqn:E1; [by rewrite (Hc _ _ E1)|done]. }
  apply bind_Ok_inv in E as ([s1 l'] & El & E). simplify_eq. apply elem_of_cons in Hd as [->|Hd].
  - exists ref, bl. split_and!; [left| |done]. by destruct (ids !! _); simplify_eq/=.
  - apply IH in El as (x & bl' & Hx & ?); [|intros rid d' Hd'; simpl in Hd';
      apply lookup_insert_Some in Hd' as [[<- <-]|[_ ?]]; [by rewrite Hd0|by apply Hc]|done].
    exists x, bl'. split; [by right|done].
Qed.

Lemma schedule_output_told s0 s fl v s' out :
  sched_inv s fl -> vars_ok s v -> cached_ids_ok s -> trace s0 s v -> sched_frame s0 s ->
  schedule_output s v = Ok (s', out) -> told s0 s' out.
Proof.
  intros Hi Hv Hc T F E.
  destruct (schedule_output_spec repr s fl v Hi Hv Hc) as (cc & new & cach & nn & E' & _ & Hids). cbn zeta in E'.
  pose proof E as E0. rewrite E' in E0. injection E0 as Es Eo. subst s' out. clear E'.
  set (s' := with_finished _ _) in *.
  unfold schedule_output in E. cbn zeta in E.
  do 4 (let u := fresh "u" in apply bind_Ok_inv in E as (u & _ & E)).
  destruct (common_prefix_step repr s fl Hi) as (n & E1). rewrite E1 in E. cbn [mbind result_bind] in E.
  apply bind_Ok_inv in E as (new' & En & E). apply bind_Ok_inv in E as ([s1 l1] & E2 & E).
  apply bind_Ok_inv in E as ([s2 l2] & E3 & E). 
  apply (f_equal (fun r => match r with Ok (_, o) => (scheduled_new_reqs o, scheduled_cached_reqs o) | Err _ => ([], []) end)) in E.
  destruct (get_freed_ids (encoder_cache_manager s2)) as [e fr].
  cbn [scheduled_new_reqs scheduled_cached_reqs] in E. injection E as <- <-.
  pose proof (vo_blocks _ _ Hv) as Hb. unfold picked in Hb.
  destruct (cached_data_list_spec s (v_resumed v) (v_block_ids v) true Hc) as (c1 & l1' & E2' & Hc1 & _);
    [set_solver|]. rewrite E2 in E2'. injection E2' as -> _.
  destruct T as [Tr Tn Ts Ti Tw Ta]. pose proof (vo_picked _ _ Hv) as Hp. unfold picked in Hp.
  split; cbn [scheduled_new_reqs scheduled_cached_reqs num_scheduled_tokens].
  - intros d Hd. destruct (new_data_list_elem _ _ _ _ _ En Hd) as (x & bl & Hx & Ebl & ->).
    destruct (Tn x Hx) as (Hx0 & Hs0 & Eb). rewrite Ebl in Eb. injection Eb as ->.
    exists x. split_and!; try done. apply (Hp x). set_solver.
  - intros d [Hd|Hd]%elem_of_app.
    + destruct (cached_data_list_elem _ _ _ _ _ _ _ Hc E2 Hd) as (x & bl & Hx & Ebl & ->).
      destruct (Ts x Hx) as (Hx0 & Hs0 & Eb). rewrite Ebl in Eb. injection Eb as ->.
      exists x. cbn. split_and!; try done. apply (Hp x). set_solver.
    + destruct (cached_data_list_elem _ _ _ _ _ _ _ Hc1 E3 Hd) as (x & bl & Hx & Ebl & ->).
      destruct (Tr x Hx) as (Hx0 & bl' & Eb & Hbl). change (obj (with_cached_data s c1)) with (obj s) in *.
      rewrite Ebl in Eb. injection Eb as ->. exists x. cbn. split_and!; try done. apply (Hp x). set_solver.
  - intros x Hx Hnone. apply Ti; [done|]. intros Hin. destruct (vo_picked _ _ Hv x Hin) as (_ & n' & En' & _).
    change (obj s' x) with (obj s x) in Hnone. congruence.
  - exact Tw.
  - exact Ta.
  - destruct F. by split.
  - split; [exact (sf_finished _ _ F)|done].
  - cbn [scheduled_new_reqs scheduled_cached_reqs] in *. rewrite Hids.
    apply NoDup_fmap_2_strong; [|apply Hv]. intros x y Hx Hy. apply (qo_ids _ _ _ _ _ (si_queues _ _ _ Hi));
      apply elem_of_app; right; by apply (vo_picked _ _ Hv).
Qed.

Lemma schedule_told s fl s' out :
  sched_inv s fl -> cached_ids_ok s -> schedule s = Ok (s', out) -> told s s' out.
Proof.
  intros Hi Hc E. unfold schedule in E. set (v0 := mkVars _ _ _ _ _ _ _ _ _) in E.
  pose proof (si_queues _ _ _ Hi) as Q.
  assert (Hv0 : vars_ok s v0).
  { pose proof (si_budget _ _ _ Hi). split; simpl; try set_solver; constructor. }
  assert (T0 : trace s s v0) by (split; simpl; set_solver).
  destruct (schedule_running_spec repr (length (running s)) s fl v0 [] (running s) Hi Hv0)
    as (s1 & v1 & fl1 & pre & E1 & Hi1 & F1 & Hv1 & Hp1 & Hn1 & Hr1 & Hw1 & Hrun1); try done.
  assert (T1 : trace s s1 v1).
  { apply (schedule_running_trace s (fun x Hx => proj1 (qo_run _ _ _ _ _ Q x Hx))
      (length (running s)) s fl v0 [] (running s)); done. }
  simpl in E1. rewrite E1 in E. cbn [mbind result_bind] in E.
  assert (∃ s2 v2 fl2, (if bool_decide (v_preempted v1 = [])
      then schedule_waiting (length (waiting s1)) s1 v1 else Ok (s1, v1)) = Ok (s2, v2) ∧
    sched_inv s2 fl2 ∧ sched_frame s s2 ∧ vars_ok s2 v2 ∧ trace s s2 v2)
    as (s2 & v2 & fl2 & E2 & Hi2 & F2 & Hv2 & T2).
  { case_bool_decide as Hpre; [|by exists s1, v1, fl1].
    destruct (schedule_waiting_spec repr (length (waiting s1)) s1 fl1 v1 Hi1 Hv1)
      as (s2 & v2 & fl2 & adm & E2 & Hi2 & F2 & Hv2 & _); [done|].
    exists s2, v2, fl2. split_and!; try done; [by transitivity s1|].
    apply (schedule_waiting_trace s) with (fuel := length (waiting s1)) (s := s1) (fl := fl1) (v := v1); try done.
    - intros x Hx. by apply (qo_wait _ _ _ _ _ Q x Hx).
    - rewrite Hp1 in Hpre. simpl in Hpre. by rewrite Hw1, Hpre. }
  rewrite E2 in E. cbn [mbind result_bind] in E.
  apply (schedule_output_told s s2 fl2 v2); try done. unfold cached_ids_ok. by rewrite (sf_cached _ _ F2).
Qed.
End trace.
