(* ===== verification/KVConfig.v ===== *)
(** * Sizing the KV cache

    [vllm/v1/kv_cache_interface.py] and [get_kv_cache_config] with its helpers in
    [vllm/v1/core/kv_cache_utils.py]: from the layers' cache formats and the memory
    left after profiling to the number of blocks.  The theorems bound the memory that
    is used, and say which requests the resulting pool can hold.

    A [KVCacheSpec] is an association list from layer names.  The size of a data type
    is that of its elements ([get_dtype_size]).  Log messages are left out. *)

From stdpp Require Import base tactics list gmap sets strings.
From Stdlib Require Import ZArith QArith Lia.
From S2P Require Import Prelude.
From S2P Require Import SamplingParams.
From S2P Require Import Request.
From S2P Require Import BlockQueue.
From S2P Require Import BlockHash.
From S2P Require Import KVCacheManager.
From S2P Require Import KVCacheInv.
From S2P Require Import KVAlloc.
From S2P Require Import KVTheorems.
From S2P Require Import EncoderCache.
From S2P Require Import Scheduler.
From S2P Require Import SchedulerInv.
From S2P Require Import SchedulerLoops.
From S2P Require Import SchedulerStep.
From S2P Require Import SchedulerUpdate.
From S2P Require Import SchedulerTheorems.

Local Open Scope Z_scope.

(** ** Cache formats *)

Record FullAttentionSpec : Type := mkFullAttention {
  fa_block_size : Z;
  num_kv_heads : Z;
  head_size : Z;
  dtype_size : Z;
}.

Definition page_size_bytes (l : FullAttentionSpec) : Z :=
  2 * fa_block_size l * num_kv_heads l * head_size l * dtype_size l.

(** [type_id] prints these two numbers. *)
Definition type_id (l : FullAttentionSpec) : Z * Z := (fa_block_size l, page_size_bytes l).

Definition bytes_for_tokens (l : FullAttentionSpec) (num_tokens : Z) : result Z :=
  if fa_block_size l =? 0 then Err ZeroDivisionError
  else Ok (cdiv num_tokens (fa_block_size l) * page_size_bytes l).

Abbreviation KVCacheSpec := (list (string * FullAttentionSpec)).

Record KVCacheConfig : Type := mkKVCacheConfig {
  num_blocks : Z;
  tensors : list (string * Z);
  groups : list (list string);
  kv_cache_spec : KVCacheSpec;
}.

(** What is read of the [VllmConfig]. *)
Record CacheSizing : Type := mkCacheSizing {
  cs_max_model_len : Z;
  num_gpu_blocks_override : option Z;
}.

(** ** The configuration *)

Fixpoint needed_memory (spec : KVCacheSpec) (max_model_len : Z) : result Z :=
  match spec with
  | [] => Ok 0
  | (_, l) :: spec =>
      b ← bytes_for_tokens l max_model_len; rest ← needed_memory spec max_model_len; Ok (b + rest)
  end.

Definition check_enough_kv_cache_memory (c : CacheSizing) (spec : KVCacheSpec) (available_memory : Z) :
    result unit :=
  if available_memory <=? 0 then Err ValueError
  else
    let max_model_len := if 4096 <? cs_max_model_len c then 4096 else cs_max_model_len c in
    needed ← needed_memory spec max_model_len;
    if available_memory <? needed then Err ValueError else Ok tt.

Definition is_kv_cache_type_uniform (spec : KVCacheSpec) : bool :=
  bool_decide (size (list_to_set (type_id <$> spec.*2) : gset (Z * Z)) = 1%nat).

Definition _get_kv_cache_config_uniform_type (c : CacheSizing) (spec : KVCacheSpec) (available_memory : Z) :
    result KVCacheConfig :=
  let page_sizes : gset Z := list_to_set (page_size_bytes <$> spec.*2) in
  page_size ← match elements page_sizes with [p] => Ok p | _ => Err AssertionError end;
  per_page ← py_floordiv available_memory page_size;
  blocks ← py_floordiv per_page (len spec);
  let blocks := Z.max blocks 0 in
  let blocks := default blocks (num_gpu_blocks_override c) in
  (* the logged concurrency divides by the context length *)
  _ ← (if cs_max_model_len c =? 0 then Err ZeroDivisionError else Ok tt);
  let per_layer_size := page_size * blocks in
  Ok (mkKVCacheConfig blocks ((fun l => (l, per_layer_size)) <$> spec.*1) [spec.*1] spec).

Definition get_kv_cache_config (c : CacheSizing) (spec : KVCacheSpec) (available_memory : Z) :
    result KVCacheConfig :=
  _ ← check_enough_kv_cache_memory c spec available_memory;
  if is_kv_cache_type_uniform spec then _get_kv_cache_config_uniform_type c spec available_memory
  else Err NotImplementedError.

(** ** Memory *)

Lemma needed_uniform spec mml bs page :
  0 < bs -> (∀ l, l ∈ spec.*2 -> fa_block_size l = bs ∧ page_size_bytes l = page) ->
  needed_memory spec mml = Ok (len spec * (cdiv mml bs * page)).
Proof.
  intros Hbs. induction spec as [|[n l] spec IH]; intros Hall; [done|]. cbn [needed_memory].
  destruct (Hall l ltac:(by left)) as [E1 E2]. unfold bytes_for_tokens.
  rewrite E1, E2, (proj2 (Z.eqb_neq bs 0)) by lia. cbn [mbind result_bind].
  rewrite IH by (intros; apply Hall; by right). cbn [mbind result_bind]. f_equal. simpl length. lia.
Qed.

Lemma size_one_all {A} `{Countable A} (l : list A) :
  size (list_to_set l : gset A) = 1%nat -> ∃ x, x ∈ l ∧ ∀ y, y ∈ l -> y = x.
Proof.
  intros [x Hx]%size_1_elem_of. exists x. split.
  - apply (elem_of_list_to_set (C := gset A)). set_solver.
  - intros y Hy. apply (elem_of_list_to_set (C := gset A)) in Hy. set_solver.
Qed.

(** All layers have the same format, and the block count comes from the memory. *)
Lemma kv_config_inv c spec mem cfg :
  get_kv_cache_config c spec mem = Ok cfg -> num_gpu_blocks_override c = None ->
  (∀ l, l ∈ spec.*2 -> 0 < fa_block_size l ∧ 0 < page_size_bytes l) ->
  ∃ bs page, 0 < bs ∧ 0 < page ∧ 0 < len spec ∧ 0 < mem ∧
    (∀ l, l ∈ spec.*2 -> fa_block_size l = bs ∧ page_size_bytes l = page) ∧
    num_blocks cfg = mem / (page * len spec) ∧
    tensors cfg = (fun n => (n, page * num_blocks cfg)) <$> spec.*1 ∧
    len spec * (cdiv (Z.min 4096 (cs_max_model_len c)) bs * page) <= mem.
Proof.
  intros Hcfg Hno Hpos. unfold get_kv_cache_config in Hcfg. apply bind_Ok_inv in Hcfg as (u & Hck & Hcfg).
  destruct (is_kv_cache_type_uniform spec) eqn:Hu; [|done].
  apply bool_decide_eq_true, size_one_all in Hu as ([bs page] & Hin & Hall).
  apply list_elem_of_fmap in Hin as (l0 & [= -> ->] & Hl0). destruct (Hpos l0 Hl0) as [Hbs Hpg].
  set (bs := fa_block_size l0) in *. set (page := page_size_bytes l0) in *.
  assert (Hsame : ∀ l, l ∈ spec.*2 -> fa_block_size l = bs ∧ page_size_bytes l = page).
  { intros l Hl. assert (type_id l = (bs, page)) as [= -> ->]; [|done]. apply Hall. by apply list_elem_of_fmap_2. }
  assert (Hlen : 0 < len spec) by (destruct spec; [by apply elem_of_nil in Hl0|simpl; lia]).
  exists bs, page. unfold check_enough_kv_cache_memory in Hck.
  destruct (Z.leb_spec mem 0) as [|Hmem]; [done|].
  rewrite (needed_uniform spec _ bs page Hbs Hsame) in Hck. cbn [mbind result_bind] in Hck.
  destruct (Z.ltb_spec mem (len spec * (cdiv (if 4096 <? cs_max_model_len c then 4096 else cs_max_model_len c) bs * page)))
    as [|Hfit]; [done|].
  unfold _get_kv_cache_config_uniform_type in Hcfg.
  assert (list_to_set (page_size_bytes <$> spec.*2) = ({[page]} : gset Z)) as Hset.
  { apply set_eq. intros x. rewrite elem_of_list_to_set, list_elem_of_fmap, elem_of_singleton. split.
    - intros (l & -> & Hl). by apply Hsame.
    - intros ->. by exists l0. }
  rewrite Hset, elements_singleton in Hcfg. cbn [mbind result_bind] in Hcfg. unfold py_floordiv in Hcfg.
  rewrite (proj2 (Z.eqb_neq page 0)), (proj2 (Z.eqb_neq (len spec) 0)) in Hcfg by lia.
  cbn [mbind result_bind] in Hcfg. rewrite Hno in Hcfg. cbn [default from_option] in Hcfg.
  destruct (cs_max_model_len c =? 0); [done|]. injection Hcfg as <-. cbn [num_blocks tensors].
  rewrite Z.div_div by lia. rewrite Z.max_l by (apply Z.div_pos; nia). split_and!; try done.
  replace (Z.min 4096 (cs_max_model_len c)) with (if 4096 <? cs_max_model_len c then 4096 else cs_max_model_len c)
    by (destruct (Z.ltb_spec 4096 (cs_max_model_len c)); lia).
  done.
Qed.

Definition sum_bytes (l : list (string * Z)) : Z := foldr (fun x acc => x.2 + acc) 0 l.

Lemma sum_bytes_const (names : list string) b : sum_bytes ((fun n => (n, b)) <$> names) = len names * b.
Proof. induction names as [|n l IH]; [done|]. rewrite fmap_cons. unfold sum_bytes in *. cbn [foldr snd]. rewrite IH. simpl length. lia. Qed.

(** C36: the KV cache fits the memory and holds a request.  Without an override of the
    block count, a returned configuration gives every layer the same number of bytes,
    [num_blocks] pages; all layers together use at most the available memory, one
    more block would exceed it; and the blocks hold a request of [max_model_len]
    tokens, or of 4096 if the model's context is longer. *)
Theorem kv_cache_config_sound c spec mem cfg :
  get_kv_cache_config c spec mem = Ok cfg -> num_gpu_blocks_override c = None ->
  (∀ l, l ∈ spec.*2 -> 0 < fa_block_size l ∧ 0 < page_size_bytes l) ->
  (tensors cfg).*1 = spec.*1 ∧
  (∀ n l, (n, l) ∈ spec -> (n, page_size_bytes l * num_blocks cfg) ∈ tensors cfg) ∧
  sum_bytes (tensors cfg) <= mem ∧
  (∀ l, l ∈ spec.*2 -> mem < len spec * (page_size_bytes l * (num_blocks cfg + 1)) ∧
     Z.min 4096 (cs_max_model_len c) <= num_blocks cfg * fa_block_size l).
Proof.
  intros Hcfg Hno Hpos.
  destruct (kv_config_inv c spec mem cfg Hcfg Hno Hpos) as (bs & page & Hbs & Hpg & Hn & Hmem & Hsame & Hnb & Ht & Hfit).
  assert (Hlt : 0 < page * len spec) by nia.
  pose proof (Z.mul_div_le mem (page * len spec) Hlt) as H1.
  pose proof (Z.mul_succ_div_gt mem (page * len spec) Hlt) as H2. rewrite <-Hnb in H1, H2.
  split_and!.
  - rewrite Ht, <-list_fmap_compose. apply list_fmap_id.
  - intros n l Hl. destruct (Hsame l) as [_ ->]; [by apply (list_elem_of_fmap_2 snd _ _ Hl)|].
    rewrite Ht. apply list_elem_of_fmap. exists n. split; [done|]. by apply (list_elem_of_fmap_2 fst _ _ Hl).
  - rewrite Ht, sum_bytes_const, length_fmap. nia.
  - intros l Hl. destruct (Hsame l Hl) as [-> ->]. split; [nia|].
    pose proof (cdiv_spec (Z.min 4096 (cs_max_model_len c)) bs Hbs) as [_ Hc].
    assert (cdiv (Z.min 4096 (cs_max_model_len c)) bs <= num_blocks cfg); [|nia].
    rewrite Hnb. apply Z.div_le_lower_bound; nia.
Qed.

Definition demo_layer : FullAttentionSpec := mkFullAttention 16 2 4 2.
Definition demo_spec : KVCacheSpec := [("l0", demo_layer); ("l1", demo_layer)]%string.

(** Two layers, context 8192, memory for 256 blocks and a bit. *)
Lemma kv_cache_config_sound_witness :
  ∃ cfg, get_kv_cache_config (mkCacheSizing 8192 None) demo_spec 262200 = Ok cfg ∧
    num_blocks cfg = 256 ∧ sum_bytes (tensors cfg) <= 262200.
Proof.
  destruct (get_kv_cache_config (mkCacheSizing 8192 None) demo_spec 262200) as [cfg|] eqn:E;
    [|exfalso; revert E; vm_compute; discriminate].
  exists cfg. split; [done|]. split; [vm_compute in E; by injection E as <-|].
  apply (kv_cache_config_sound (mkCacheSizing 8192 None) demo_spec 262200 cfg E); [done|].
  clear E. intros l Hl. change (l ∈ [demo_layer; demo_layer]) in Hl.
  assert (l = demo_layer) as -> by set_solver. split; reflexivity.
Defined.

(** ** Requests the pool cannot hold *)

Section oversized.
Context `{PyHash}.

(** Without prefix caching, the block table of a request has no repetitions. *)
Lemma blocks_within_pool s fl rid bl :
  sched_inv dll s fl -> enable_caching (kv_cache_manager s) = false ->
  req_to_blocks (kv_cache_manager s) !! rid = Some bl -> len bl <= num_gpu_blocks (kv_cache_manager s).
Proof.
  intros Hi Hno Hbl. set (m := kv_cache_manager s) in *. pose proof (si_kv _ _ _ Hi) as Hm. fold m in Hm.
  assert (Hrng : ∀ b, b ∈ bl -> (b < length (block_pool m))%nat).
  { intros b Hb. eapply (req_block_range dll m fl rid bl b Hm Hbl Hb). }
  assert (Hp : hashed_prefix m bl 0).
  { split; [lia|]. intros i b Hb. split; [|lia]. intros Hh. exfalso. unfold hashed in Hh.
    destruct (block_hash (blk m b)) as [h|] eqn:E; [|by destruct Hh].
    destruct (ki_hash _ _ _ _ Hm b h (Hrng b (list_elem_of_lookup_2 _ _ _ Hb)) E) as (l & Hl & _).
    by rewrite (ki_nocache _ _ _ _ Hm Hno) in Hl. }
  pose proof (unhashed_NoDup dll m fl rid bl 0 Hm Hbl Hp) as Hnd. rewrite drop_0 in Hnd.
  rewrite (ki_num _ _ _ _ Hm). apply Nat2Z.inj_le. rewrite <-(length_seq (length (block_pool m)) 0).
  apply submseteq_length, NoDup_submseteq; [done|]. intros b Hb%Hrng. apply elem_of_seq. lia.
Qed.

(** A request longer than the pool is never answered.  Without prefix caching, a
    request whose tokens exceed [num_gpu_blocks * block_size] gets no output, in any
    step from any reachable state.  (The sizing above checks at most 4096 tokens, and
    the input processor accepts prompts up to the model's context.) *)
Theorem oversized_request_never_answered s s1 out mo s2 eo x :
  sched_reach s -> enable_caching (kv_cache_manager s1) = false -> x ∈ live s ->
  schedule s = Ok (s1, out) -> runner_ok out mo -> update_from_output s1 out mo = Ok (s2, eo) ->
  num_gpu_blocks (kv_cache_manager s1) * block_size (kv_cache_manager s1) < num_tokens (obj s x) ->
  ∀ o, o ∈ outputs eo -> eco_request_id o ≠ request_id (obj s x).
Proof.
  intros (fl & Hi & Hc)%sched_reach_inv Hno Hx Hs Hr Hu Hbig o Ho Eid.
  destruct (schedule_spec dll s fl Hi Hc) as (s1' & out' & fl1 & E & Hi1 & _ & Hp & Hcore).
  rewrite Hs in E. injection E as <- <-.
  pose proof (update_pre_of_schedule s s1 fl1 out mo Hi1 Hp Hr) as Hpre.
  destruct (update_from_output_spec dll s1 fl1 out mo Hi1 Hpre) as (s2' & eo' & fl2 & E & _ & _ & _ & _ & U).
  rewrite Hu in E. injection E as <- <-.
  destruct (up_outs _ _ _ _ _ _ _ U o Ho) as (y & keep & Hy & _ & Ho').
  pose proof (update_out_id _ _ _ _ _ _ _ Ho') as Ey. destruct Ho' as (Hn & Heq & _).
  assert (y = x) as ->.
  { apply (qo_ids _ _ _ _ _ (si_queues _ _ _ Hi1)); [set_solver| |].
    - unfold live in Hx. pose proof (sp_order _ _ _ Hp) as Hord.
      assert (x ∈ running s1 ++ waiting s1) by (rewrite Hord; set_solver). set_solver.
    - rewrite <-Ey, Eid. symmetry. by apply req_core_id. }
  destruct (Hpre x Hy Hn) as [(_ & _ & bl & k & Hbl & Hcap & _) _].
  pose proof (blocks_within_pool s1 fl1 _ bl Hi1 Hno Hbl).
  pose proof (ki_bs _ _ _ _ (si_kv _ _ _ Hi1)).
  assert (num_tokens (obj s1 x) = num_tokens (obj s x)) by (by apply req_core_tokens). nia.
Qed.
End oversized.

(** A pool of three blocks of 64 tokens, a request that fits and one that does not. *)
Definition small_sched : Scheduler :=
  add_request (add_request (ok_or empty_sched (scheduler_init 4 5 300 3 64 None false (10, 10) ∅))
    (demo_request "b" [9])) (demo_request "a" (replicate 200 1)).
Definition small_scheduled : Scheduler * SchedulerOutput :=
  ok_or (empty_sched, mkSchedulerOutput [] [] ∅ 0 ∅ 0 ∅ []) (@schedule demo_hash small_sched).
Definition small_mo : ModelRunnerOutput :=
  mkModelRunnerOutput [] {["a"%string := 0%nat; "b"%string := 1%nat]} [7; 7].
Definition small_updated : Scheduler * EngineCoreOutputs :=
  ok_or (empty_sched, mkEngineCoreOutputs [] (make_stats empty_sched))
    (update_from_output small_scheduled.1 small_scheduled.2 small_mo).

Lemma small_sched_reach : @sched_reach demo_hash small_sched.
Proof.
  assert (Hok : ∀ rid toks, 0 < len toks <= 300 -> req_ok 300 64 (demo_request rid toks)).
  { intros rid toks Ht. split; unfold num_tokens; simpl; try done; [|by left|lia..|set_solver].
    split; simpl; try done; [by rewrite app_nil_r|by left]. }
  apply (@sr_add demo_hash); [apply (@sr_add demo_hash)|].
  - apply (@sr_init demo_hash 4 5 300 3 64 None false (10, 10) ∅); [lia..|vm_compute; reflexivity].
  - split; [apply Hok; simpl; lia|vm_compute; reflexivity..].
  - split; [apply Hok; simpl; lia|vm_compute; reflexivity..].
Qed.

Lemma oversized_request_never_answered_witness :
  eco_request_id <$> outputs small_updated.2 = ["b"%string] ∧
  num_scheduled_tokens small_scheduled.2 = {["a"%string := 4; "b"%string := 1]} ∧
  ∀ o, o ∈ outputs small_updated.2 -> eco_request_id o ≠ "a"%string.
Proof.
  split; [vm_compute; reflexivity|]. split; [vm_compute; reflexivity|].
  apply (@oversized_request_never_answered demo_hash small_sched small_scheduled.1 small_scheduled.2 small_mo
    small_updated.1 small_updated.2 1%nat);
    [apply small_sched_reach|vm_compute; reflexivity| |vm_compute; reflexivity| |vm_compute; reflexivity|vm_compute; reflexivity].
  - apply list_elem_of_In. vm_compute. tauto.
  - intros rid [n Hn]. assert (Hin : rid = "a"%string ∨ rid = "b"%string).
    { assert (Hd : rid ∈ dom (num_scheduled_tokens small_scheduled.2)) by (apply elem_of_dom; by eexists).
      assert (E : dom (num_scheduled_tokens small_scheduled.2) = {["a"%string; "b"%string]}) by (vm_compute; reflexivity).
      rewrite E in Hd. clear -Hd. apply elem_of_union in Hd as [?%elem_of_singleton|?%elem_of_singleton]; auto. }
    clear Hn. destruct Hin as [-> | ->]; exists 7; [exists 0%nat|exists 1%nat]; split; reflexivity.
Defined.
