(* ===== verification/SchedulerEncoder.v ===== *)
(** * How the decoder scheduler gates on encoder outputs

    A decoder step may only compute placeholder tokens whose encoder outputs are
    available.  [_try_schedule_encoder_inputs] cuts the step short before the first
    input that is not, and charges the others to the encoder budget.  The checks
    against the encoder cache and their consequences are here too. *)

From stdpp Require Import base tactics list gmap sets strings.
From Stdlib Require Import ZArith QArith Lia.
From S2P Require Import Prelude.
From S2P Require Import SamplingParams.
From S2P Require Import Request.
From S2P Require Import BlockQueue.
From S2P Require Import BlockHash.
From S2P Require Import KVCacheManager.
From S2P Require Import KVCacheInv.
From S2P Require Import KVAlloc.
From S2P Require Import KVTheorems.
From S2P Require Import EncoderCache.
From S2P Require Import Scheduler.
From S2P Require Import SchedulerInv.
From S2P Require Import SchedulerLoops.
From S2P Require Import SchedulerStep.
From S2P Require Import SchedulerUpdate.
From S2P Require Import SchedulerTheorems.

Local Open Scope Z_scope.

(** Placeholders are listed in prompt order. *)
Definition places_sorted (r : Request) : Prop :=
  ∀ i j p q, (i <= j)%nat -> mm_positions r !! i = Some p -> mm_positions r !! j = Some q ->
    offset p <= offset q.

(** One of the tokens [nc .. nc + n - 1] belongs to the placeholder [p]. *)
Definition overlaps (nc n : Z) (p : PlaceholderRange) : Prop :=
  ∃ t, nc <= t < nc + n ∧ offset p <= t < offset p + length_ p.

Lemma try_encoder_cover s r l i nc n b acc enc n' b' :
  places_sorted r -> drop i (mm_positions r) = l -> 0 <= n ->
  try_encoder_loop s r l i nc n b acc = Ok (enc, n', b') ->
  acc ⊆ enc ∧ ∀ j p, (i <= j)%nat -> mm_positions r !! j = Some p -> overlaps nc n' p ->
    has_cache (encoder_cache_manager s) r j = true ∨ j ∈ enc.
Proof.
  intros Hs. revert i b acc. induction l as [|p l IH]; intros i b acc Hl Hn; cbn [try_encoder_loop].
  { intros [= <- <- <-]. split; [done|]. intros j p Hj Hp. apply lookup_lt_Some in Hp.
    apply (f_equal length) in Hl. rewrite length_drop in Hl. simpl in Hl. lia. }
  assert (Hp : mm_positions r !! i = Some p) by (rewrite <-(Nat.add_0_r i), <-lookup_drop, Hl; done).
  assert (Hl' : drop (S i) (mm_positions r) = l)
    by (replace (S i) with (i + 1)%nat by lia; by rewrite <-drop_drop, Hl).
  assert (Hafter : ∀ (m : Z), nc + m <= offset p -> ∀ j q, (i <= j)%nat -> mm_positions r !! j = Some q ->
    ¬ overlaps nc m q).
  { intros m Hm j q Hj Hq (t & ? & ?). pose proof (Hs i j p q Hj Hp Hq). lia. }
  assert (Hskip : ∀ acc' b1, try_encoder_loop s r l (S i) nc n b1 acc' = Ok (enc, n', b') -> acc ⊆ acc' ->
    (has_cache (encoder_cache_manager s) r i = true ∨ i ∈ acc' ∨ ¬ overlaps nc n' p) ->
    acc ⊆ enc ∧ ∀ j q, (i <= j)%nat -> mm_positions r !! j = Some q -> overlaps nc n' q ->
      has_cache (encoder_cache_manager s) r j = true ∨ j ∈ enc).
  { intros acc' b1 E Ha Hi. destruct (IH (S i) b1 acc' Hl' Hn E) as [Hsub Hall].
    split; [set_solver|]. intros j q Hj Hq Ho. destruct (decide (j = i)) as [->|Hne].
    - rewrite Hp in Hq. injection Hq as <-. destruct Hi as [?|[?|?]]; [by left|right; by apply Hsub|done].
    - apply (Hall j q); [lia|done..]. }
  assert (Hcut : Ok (acc, if nc <? offset p then offset p - nc else 0, b) = Ok (enc, n', b') ->
    acc ⊆ enc ∧ ∀ j q, (i <= j)%nat -> mm_positions r !! j = Some q -> overlaps nc n' q ->
      has_cache (encoder_cache_manager s) r j = true ∨ j ∈ enc).
  { intros [= <- <- <-]. split; [done|]. intros j q Hj Hq Ho. exfalso.
    destruct (Z.ltb_spec nc (offset p)); [by eapply (Hafter (offset p - nc)); [lia|..]|].
    destruct Ho as (t & ? & ?). lia. }
  destruct (Z.leb_spec (nc + n) (offset p)).
  { intros [= <- <- <-]. split; [done|]. intros j q Hj Hq Ho. exfalso. by eapply (Hafter n). }
  destruct (Z.leb_spec (offset p + length_ p) nc).
  { intros E. eapply Hskip; [exact E|done|]. right. right. intros (t & ? & ?). lia. }
  destruct (has_cache (encoder_cache_manager s) r i) eqn:Hhc.
  { intros E. eapply Hskip; [exact E|done|]. by left. }
  unfold can_allocate, get_num_encoder_tokens. rewrite Hp. cbn [or_raise mbind result_bind].
  destruct (negb _ || _); [done|]. case_bool_decide; [|done].
  intros E. eapply Hskip; [exact E|set_solver|]. right. left. set_solver.
Qed.

(** C28: the encoder gate.  For a request whose placeholders are in prompt order,
    [_try_schedule_encoder_inputs] returns at most the requested number of tokens,
    and every placeholder touched by the tokens it lets through is either already
    accounted in the encoder cache or scheduled now.  The inputs scheduled now were
    not cached, their outputs have arrived from the encoder process, each fits the
    free encoder cache, and their sizes are charged to the budget, which does not
    become negative. *)
Theorem encoder_gate s r nc n b :
  request_wf r -> places_sorted r -> 0 <= n ->
  ∃ enc n' b', _try_schedule_encoder_inputs s r nc n b = Ok (enc, n', b') ∧
    0 <= n' <= n ∧ NoDup enc ∧ b' = b - enc_sum r enc ∧ (enc = [] ∨ 0 <= b') ∧
    (∀ j, j ∈ enc -> has_cache (encoder_cache_manager s) r j = false ∧
      is_Some (encoder_cache s !! request_id r ≫= (.!! j)) ∧
      ∃ p, mm_positions r !! j = Some p ∧ length_ p <= num_free_slots (encoder_cache_manager s)) ∧
    (∀ j p, mm_positions r !! j = Some p -> overlaps nc n' p ->
      has_cache (encoder_cache_manager s) r j = true ∨ j ∈ enc).
Proof.
  intros Hwf Hs Hn. destruct (try_schedule_spec s r nc n b Hwf Hn) as (enc & n' & b' & E & []).
  exists enc, n', b'. split_and!; try done; try lia.
  - intros j Hj. split_and!; [by apply tp_new|by apply tp_ready|].
    destruct (lookup_lt_is_Some_2 (mm_positions r) j) as [p Hp]; [by apply tp_range|]. eauto.
  - intros j p Hp Ho. unfold _try_schedule_encoder_inputs, has_encoder_inputs in E.
    rewrite (rwf_mm _ Hwf) in E. pose proof (lookup_lt_Some _ _ _ Hp).
    destruct (Z.ltb_spec 0 (len (mm_positions r))); [|lia]. cbn [negb py_assert mbind result_bind] in E.
    eapply (try_encoder_cover s r (mm_positions r) 0); try done. lia.
Qed.

Lemma encoder_gate_witness :
  let s := with_encoder_cache demo_sched {["img"%string := {[0%nat := 7%nat]}]} in
  ∃ enc n' b', _try_schedule_encoder_inputs s demo_img 0 10 10 = Ok (enc, n', b') ∧
    0 <= n' <= 10 ∧ NoDup enc ∧ b' = 10 - enc_sum demo_img enc ∧ (enc = [] ∨ 0 <= b') ∧
    (∀ j, j ∈ enc -> has_cache (encoder_cache_manager s) demo_img j = false ∧
      is_Some (encoder_cache s !! request_id demo_img ≫= (.!! j)) ∧
      ∃ p, mm_positions demo_img !! j = Some p ∧
        length_ p <= num_free_slots (encoder_cache_manager s)) ∧
    (∀ j p, mm_positions demo_img !! j = Some p -> overlaps 0 n' p ->
      has_cache (encoder_cache_manager s) demo_img j = true ∨ j ∈ enc).
Proof.
  intros s. apply (encoder_gate s demo_img 0 10 10); [| |lia].
  - split; simpl; try reflexivity. by right.
  - intros [|[|i]] [|[|j]] p q Hij Hp Hq; simpl in *; try done; try lia; simplify_eq; simpl; lia.
Defined.

(** ** Over-commitment of the encoder cache *)

(** Request ["x"] fills half of the encoder cache in the first step and still needs
    it in the second, when both inputs of ["y"] are checked one by one against the
    other half. *)
Definition over_x : Request :=
  demo_mm_request "x" 8 [mkPlaceholder 10 5] ["hx"]%string (replicate 16 1).
Definition over_y : Request :=
  demo_mm_request "y" 8 [mkPlaceholder 0 4; mkPlaceholder 4 3] ["h0"; "h1"]%string (replicate 8 2).
Definition over_enc : gmap string (gmap nat nat) :=
  {["x" := {[0%nat := 0%nat]}; "y" := {[0%nat := 1%nat; 1%nat := 2%nat]}]}%string.
Definition over_s0 : Scheduler :=
  add_request (add_request
    (ok_or empty_sched (scheduler_init 4 12 40 60 2 None true (10, 10) over_enc)) over_x) over_y.
Definition over_out0 : Scheduler * SchedulerOutput :=
  ok_or (empty_sched, mkSchedulerOutput [] [] ∅ 0 ∅ 0 ∅ []) (@schedule demo_hash over_s0).
Definition over_mo : ModelRunnerOutput :=
  mkModelRunnerOutput ["x"; "y"]%string {["x" := 0%nat; "y" := 1%nat]}%string [5; 6].
Definition over_s1 : Scheduler :=
  (ok_or (empty_sched, mkEngineCoreOutputs [] (make_stats empty_sched))
    (update_from_output over_out0.1 over_out0.2 over_mo)).1.

Lemma over_s1_reach : @sched_reach demo_hash over_s1.
Proof.
  eapply (@sr_step demo_hash over_s0 over_out0.1 over_out0.2 over_enc over_mo over_s1).
  - unfold over_s0. apply (@sr_add demo_hash); [apply (@sr_add demo_hash)|].
    + apply (@sr_init demo_hash 4 12 40 60 2 None true (10, 10) over_enc); [lia..|vm_compute; reflexivity].
    + split; [|vm_compute; reflexivity..]. split; [|by right|vm_compute; congruence..|].
      * split; simpl; try reflexivity. by right.
      * intros p Hp. simpl in Hp. apply list_elem_of_singleton in Hp as ->. vm_compute. congruence.
    + split; [|vm_compute; reflexivity..]. split; [|by right|vm_compute; congruence..|].
      * split; simpl; try reflexivity. by right.
      * intros p Hp. simpl in Hp. rewrite elem_of_cons, list_elem_of_singleton in Hp.
        destruct Hp as [->| ->]; vm_compute; congruence.
  - vm_compute; reflexivity.
  - assert (E : num_scheduled_tokens over_out0.2 = {["x"%string := 12]}) by (vm_compute; reflexivity).
    intros rid. rewrite E. intros [n [<- _]%lookup_singleton_Some]. exists 5, 0%nat.
    split; vm_compute; reflexivity.
  - vm_compute; reflexivity.
Qed.

(** The encoder cache can be over-committed.  [can_allocate] is asked for every
    input of a request against the same number of free slots, and the slots are
    taken only afterwards.  There is a reachable state, with equal compute budget
    and cache size, from which [schedule] drives the number of free slots below
    zero. *)
Theorem encoder_cache_overcommit :
  ∃ s s' out, @sched_reach demo_hash s ∧ @schedule demo_hash s = Ok (s', out) ∧
    max_num_encoder_input_tokens s = cache_size (encoder_cache_manager s) ∧
    num_free_slots (encoder_cache_manager s') < 0.
Proof.
  set (x := ok_or (empty_sched, mkSchedulerOutput [] [] ∅ 0 ∅ 0 ∅ []) (@schedule demo_hash over_s1)).
  exists over_s1, x.1, x.2. split; [apply over_s1_reach|].
  split; [vm_compute; reflexivity|]. split; vm_compute; reflexivity.
Qed.

(** ** Progress *)

Section progress.
Context `{PyHash}.
Abbreviation kv := kv_cache_manager.

(** With an empty running queue the first waiting text request is admitted. *)
Lemma text_head_admitted s fl v ref rest s' v' b :
  sched_inv dll s fl -> vars_ok s v -> waiting s = ref :: rest -> running s = [] ->
  mm_inputs (obj s ref) = [] -> 0 < v_token_budget v ->
  cdiv (num_tokens (obj s ref)) (block_size (kv s)) <= num_gpu_blocks (kv s) ->
  schedule_waiting_one s v ref rest = Ok (s', v', b) -> b = true.
Proof.
  intros Hi Hv Hw Hr Hmm Hb Hfit E. assert (Href : ref ∈ waiting s) by (rewrite Hw; by left).
  unfold schedule_waiting_one in E.
  destruct (waiting_lookup_spec dll s fl ref Hi Href)
    as (hs & cb & Hl & Hobj1 & Hi1 & F1 & Hcb & Hlen & Hhit & Hnc).
  rewrite Hl in E. cbn [mbind result_bind] in E. set (s1 := with_obj s ref _) in *.
  rewrite <-(req_core_tokens _ _ (sf_core _ _ F1 ref)) in *. change (kv s) with (kv s1) in *.
  rewrite (proj2 (Z.ltb_lt _ _)) in E by lia. cbn [py_assert mbind result_bind] in E.
  unfold _try_schedule_encoder_inputs in E.
  assert (Hni : has_encoder_inputs (obj s1 ref) = false).
  { unfold has_encoder_inputs. rewrite Hobj1. simpl. by rewrite Hmm. }
  rewrite Hni in E. cbn [negb mbind result_bind] in E.
  set (n := Z.min _ _) in *. assert (Hn : 0 < n) by (unfold n; lia).
  destruct (Z.eqb_spec n 0) as [|_]; [lia|].
  assert (Hr1 : running s1 = []) by exact Hr.
  destruct (idle_pool_free s1 fl Hi1 Hr1) as [Hfl Hfree].
  assert (Hap : alloc_pre (kv s1) (obj s1 ref) n [] cb 0).
  { apply (waiting_alloc_pre dll s1 fl); try done; [by rewrite Hobj1|unfold n; lia]. }
  destruct (allocate_slots_spec dll _ fl _ n [] cb 0 (si_kv _ _ _ Hi1) Hap) as (m' & r' & o & Ea & Ho).
  rewrite Ea in E. cbn [mbind result_bind] in E. destruct o as [nb|].
  { res_inv. congruence. }
  exfalso. destruct Ho as (_ & _ & Ho). revert Ho. apply Z.nlt_ge.
  destruct (qo_wait _ _ _ _ _ (si_queues _ _ _ Hi1) ref Href) as (_ & Hc0 & _).
  unfold blocks_needed, evictable. rewrite Hc0, Hfl.
  assert (len (filter (fun b => ref_cnt (blk (kv s1) b) = 0) cb) <= len cb)
    by (pose proof (length_filter (fun b => ref_cnt (blk (kv s1) b) = 0) cb); lia).
  pose proof (cdiv_mono (0 + len cb * block_size (kv s1) + n) (num_tokens (obj s1 ref))
    (block_size (kv s1)) (ki_bs _ _ _ _ (si_kv _ _ _ Hi1)) ltac:(unfold n; lia)). cbn [length]. lia.
Qed.
End progress.

(** C29: progress.  When nothing runs, the pool can hold the first waiting request
    and that request has no encoder inputs, the next [schedule] admits it and hands
    out tokens, so the engine's step loop does not spin. *)
Theorem schedule_progress `{PyHash} s ref rest :
  sched_reach s -> running s = [] -> waiting s = ref :: rest -> mm_inputs (obj s ref) = [] ->
  cdiv (num_tokens (obj s ref)) (block_size (kv_cache_manager s)) <=
    num_gpu_blocks (kv_cache_manager s) ->
  0 < max_num_scheduled_tokens s -> 0 < max_num_running_reqs s ->
  ∃ s' out, schedule s = Ok (s', out) ∧ 0 < total_num_scheduled_tokens out ∧ ref ∈ running s'.
Proof.
  intros (fl & Hi & Hc)%sched_reach_inv Hr Hw Hmm Hfit Htok Hmax. unfold schedule.
  set (v0 := mkVars _ _ _ _ _ _ _ _ _). rewrite Hr. cbn [length schedule_running]. rewrite Hr, lookup_nil.
  cbn [mbind result_bind]. rewrite bool_decide_eq_true_2, Hw by done.
  cbn [length schedule_waiting]. rewrite Hw, Hr.
  assert (Hv0 : vars_ok s v0) by (split; simpl; try set_solver; [lia|constructor]).
  destruct (Z.leb_spec (v_token_budget v0) 0) as [Hb|Hb]; [simpl in Hb; lia|].
  destruct (Z.eqb_spec (len (@nil nat)) (max_num_running_reqs s)) as [Hb'|Hb']; [simpl in Hb'; lia|].
  destruct (schedule_waiting_one_spec dll s fl v0 ref rest Hi Hv0 Hw Hb ltac:(rewrite Hr; simpl; lia))
    as (s1 & v1 & fl1 & b & E1 & Hi1 & F1 & Hv1 & _ & Hq).
  assert (b = true) as -> by exact (text_head_admitted s fl v0 ref rest s1 v1 b Hi Hv0 Hw Hr Hmm Hb Hfit E1). rewrite E1. cbn [mbind result_bind].
  destruct Hq as (Hw1 & Hr1 & Hb1).
  destruct (schedule_waiting_spec dll (length rest) s1 fl1 v1 Hi1 Hv1)
    as (s2 & v2 & fl2 & adm & -> & Hi2 & F2 & Hv2 & _ & Hb2 & Hw2 & Hr2); [by rewrite Hw1|].
  cbn [mbind result_bind].
  assert (Hc2 : cached_ids_ok s2)
    by (unfold cached_ids_ok; by rewrite (sf_cached _ _ F2), (sf_cached _ _ F1)).
  destruct (schedule_output_spec dll s2 fl2 v2 Hi2 Hv2 Hc2) as (c & new & cach & n & -> & _ & _).
  eexists _, _. split; [done|]. split.
  - pose proof (vo_sum _ _ Hv2) as Hs. rewrite (sf_max_tok _ _ F2), (sf_max_tok _ _ F1) in Hs. simpl in *. lia.
  - simpl. rewrite Hr2, Hr1. set_solver.
Qed.

Lemma schedule_progress_witness :
  ∃ s' out, @schedule demo_hash demo_sched = Ok (s', out) ∧ 0 < total_num_scheduled_tokens out ∧
    0%nat ∈ running s'.
Proof.
  apply (@schedule_progress demo_hash demo_sched 0 [1%nat]);
    [apply demo_sched_reach|vm_compute; (reflexivity || congruence)..].
Defined.
