(* ===== verification/EncoderScheduler.v ===== *)
(** * The encoder scheduler: [vllm/v1/core/encoder_scheduler.py]

    The scheduler of the separate vision-encoder process.  It shares the request
    and encoder-cache modules with the decoder side but has no KV cache; each call
    of [schedule] takes at most one request, and the encoder process never calls
    [update_from_output] or frees anything.

    As in [Scheduler], request objects live in a heap and the queues hold
    references.  The output's fields that the code sets to [None] or [-1] are
    [None] and [-1] here. *)

From stdpp Require Import base tactics list gmap sets strings.
From Stdlib Require Import ZArith QArith Lia.
From S2P Require Import Prelude.
From S2P Require Import SamplingParams.
From S2P Require Import Request.
From S2P Require Import BlockHash.
From S2P Require Import EncoderCache.
From S2P Require Import Scheduler.

Local Open Scope Z_scope.

Record EncoderScheduler : Type := mkEncoderScheduler {
  es_max_num_running_reqs : Z;
  es_max_num_scheduled_tokens : Z;
  es_max_model_len : Z;
  es_objs : gmap nat Request;
  es_requests : gmap string nat;
  es_waiting : list nat;
  es_running : list nat;
  es_finished_req_ids : gset string;
  es_cached_reqs_data : gmap string CachedRequestData;
  es_max_num_encoder_input_tokens : Z;
  es_ecm : EncoderCacheManager;
}.

(** What the encoder worker is told about a new request. *)
Record EncNewRequestData : Type := mkEncNewRequestData {
  enr_req_id : string;
  enr_prompt_token_ids : list Z;
  enr_prompt : option string;
  enr_mm_inputs : list (option MMKwargs);
  enr_mm_hashes : list string;
  enr_mm_positions : list PlaceholderRange;
  enr_sampling_params : SamplingParams;
  enr_block_ids : option (list nat);
  enr_num_computed_tokens : Z;
}.

Definition EncNewRequestData_from_request (r : Request) (block_ids : option (list nat)) (n : Z) :
    EncNewRequestData :=
  mkEncNewRequestData (request_id r) (prompt_token_ids r) (prompt r) (mm_inputs r)
    (mm_hashes r) (mm_positions r) (sampling_params r) block_ids n.

Record EncSchedulerOutput : Type := mkEncSchedulerOutput {
  eso_new_reqs : list EncNewRequestData;
  eso_cached_reqs : option (list CachedRequestData);
  eso_num_scheduled_tokens : option (gmap string Z);
  eso_total_num_scheduled_tokens : Z;
  eso_encoder_inputs : gmap string (list nat);
  eso_num_common_prefix_blocks : Z;
  eso_finished_req_ids : option (gset string);
  eso_free_encoder_input_ids : option (list (string * nat));
}.

Definition es_with_queues (s : EncoderScheduler) (wait run : list nat) : EncoderScheduler :=
  mkEncoderScheduler (es_max_num_running_reqs s) (es_max_num_scheduled_tokens s)
    (es_max_model_len s) (es_objs s) (es_requests s) wait run (es_finished_req_ids s)
    (es_cached_reqs_data s) (es_max_num_encoder_input_tokens s) (es_ecm s).
Definition es_with_obj (s : EncoderScheduler) (ref : nat) (r : Request) : EncoderScheduler :=
  mkEncoderScheduler (es_max_num_running_reqs s) (es_max_num_scheduled_tokens s)
    (es_max_model_len s) (<[ref := r]> (es_objs s)) (es_requests s) (es_waiting s) (es_running s)
    (es_finished_req_ids s) (es_cached_reqs_data s) (es_max_num_encoder_input_tokens s) (es_ecm s).
Definition es_with_ecm (s : EncoderScheduler) (e : EncoderCacheManager) : EncoderScheduler :=
  mkEncoderScheduler (es_max_num_running_reqs s) (es_max_num_scheduled_tokens s)
    (es_max_model_len s) (es_objs s) (es_requests s) (es_waiting s) (es_running s)
    (es_finished_req_ids s) (es_cached_reqs_data s) (es_max_num_encoder_input_tokens s) e.
Definition es_with_requests (s : EncoderScheduler) (m : gmap string nat) : EncoderScheduler :=
  mkEncoderScheduler (es_max_num_running_reqs s) (es_max_num_scheduled_tokens s)
    (es_max_model_len s) (es_objs s) m (es_waiting s) (es_running s)
    (es_finished_req_ids s) (es_cached_reqs_data s) (es_max_num_encoder_input_tokens s) (es_ecm s).
Definition es_with_finished (s : EncoderScheduler) (f : gset string)
    (c : gmap string CachedRequestData) : EncoderScheduler :=
  mkEncoderScheduler (es_max_num_running_reqs s) (es_max_num_scheduled_tokens s)
    (es_max_model_len s) (es_objs s) (es_requests s) (es_waiting s) (es_running s)
    f c (es_max_num_encoder_input_tokens s) (es_ecm s).

Definition es_obj (s : EncoderScheduler) (ref : nat) : Request := es_objs s !!! ref.

(** [__init__]; the encoder budgets are those of [compute_encoder_budget]. *)
Definition es_init (max_num_seqs max_num_batched_tokens max_model_len : Z) (budgets : Z * Z) :
    EncoderScheduler :=
  mkEncoderScheduler max_num_seqs max_num_batched_tokens max_model_len ∅ ∅ [] [] ∅ ∅
    budgets.1 (ecm_init budgets.2).

(** ** Scheduling *)

(** [_try_schedule_encoder_inputs]: the loop over [enumerate(request.mm_positions)]. *)
Fixpoint es_try_schedule (l : list PlaceholderRange) (i : nat) (remaining_budget : Z)
    (schedulable : list nat) : list nat * Z :=
  match l with
  | [] => (schedulable, remaining_budget)
  | item :: l =>
      let input_size := length_ item in
      if input_size <=? remaining_budget
      then es_try_schedule l (S i) (remaining_budget - input_size) (schedulable ++ [i])
      else (schedulable, remaining_budget)
  end.

(** The output of a call that scheduled [reqs]. *)
Definition es_output (s : EncoderScheduler) (reqs : list nat) (inputs : gmap string (list nat)) :
    EncSchedulerOutput :=
  mkEncSchedulerOutput
    ((fun ref => EncNewRequestData_from_request (es_obj s ref) None (-1)) <$> reqs)
    None None 0 inputs 0 None None.

(** [schedule]: the [while] loop leaves after its first iteration in every case. *)
Definition es_schedule (s : EncoderScheduler) : result (EncoderScheduler * EncSchedulerOutput) :=
  let budget := es_max_num_encoder_input_tokens s in
  match es_waiting s with
  | [] => Ok (s, es_output s [] ∅)
  | ref :: rest =>
      if budget <=? 0 then Ok (s, es_output s [] ∅)
      else if len (es_running s) =? es_max_num_running_reqs s then Ok (s, es_output s [] ∅)
      else
        let r := es_obj s ref in
        let '(inputs, _) := es_try_schedule (mm_positions r) 0 budget [] in
        if bool_decide (inputs = []) then Ok (s, es_output s [] ∅)
        else
          e ← for_each (fun i e => allocate e r i) inputs (es_ecm s);
          let s := es_with_queues (es_with_ecm s e) rest (es_running s ++ [ref]) in
          let s := es_with_obj s ref (set_status RUNNING r) in
          Ok (s, es_output s [ref] {[request_id r := inputs]})
  end.

(** ** Request life cycle *)

Definition es_add_request (s : EncoderScheduler) (r : Request) : EncoderScheduler :=
  let ref := fresh (dom (es_objs s)) in
  let s := es_with_queues (es_with_obj s ref r) (es_waiting s ++ [ref]) (es_running s) in
  es_with_requests s (<[request_id r := ref]> (es_requests s)).

Definition es_free_request (s : EncoderScheduler) (r : Request) : result EncoderScheduler :=
  _ ← py_assert (is_finished r);
  e ← ecm_free (es_ecm s) r;
  let s := es_with_ecm s e in
  _ ← or_raise KeyError (es_requests s !! request_id r);
  let s := es_with_requests s (delete (request_id r) (es_requests s)) in
  Ok (es_with_finished s ({[request_id r]} ∪ es_finished_req_ids s)
        (delete (request_id r) (es_cached_reqs_data s))).

Definition es_finish_request (finished_status : RequestStatus) (req_id : string)
    (s : EncoderScheduler) : result EncoderScheduler :=
  match es_requests s !! req_id with
  | None => Ok s
  | Some ref =>
      let r := es_obj s ref in
      s ← (if decide (status r = RUNNING)
           then l ← or_raise ValueError (remove_first (Nat.eqb ref) (es_running s));
                Ok (es_with_queues s (es_waiting s) l)
           else l ← or_raise ValueError (remove_first (Nat.eqb ref) (es_waiting s));
                Ok (es_with_queues s l (es_running s)));
      let r := set_status finished_status r in
      es_free_request (es_with_obj s ref r) r
  end.

Definition es_finish_requests (s : EncoderScheduler) (request_ids : list string)
    (finished_status : RequestStatus) : result EncoderScheduler :=
  _ ← py_assert (status_is_finished finished_status);
  for_each (es_finish_request finished_status)
    (elements (list_to_set request_ids : gset string)) s.

Definition es_get_num_unfinished_requests (s : EncoderScheduler) : Z :=
  len (es_waiting s) + len (es_running s).
Definition es_has_unfinished_requests (s : EncoderScheduler) : bool :=
  0 <? es_get_num_unfinished_requests s.

(** [self.kv_cache_manager] does not exist on this class. *)
Definition es_reset_prefix_cache (s : EncoderScheduler) : result bool := Err AttributeError.

Definition es_make_stats (s : EncoderScheduler) : SchedulerStats :=
  mkSchedulerStats (len (es_running s)) (len (es_waiting s)) 0.

(** ** Theorems *)

Definition total_length (l : list PlaceholderRange) : Z := foldr (fun p acc => length_ p + acc) 0 l.

Lemma total_length_snoc l p : total_length (l ++ [p]) = total_length l + length_ p.
Proof. induction l as [|q l IH]; simpl; lia. Qed.

(** The inputs [0 .. k-1] are taken, one by one, and [k] is the first that does not
    fit what is left of the budget. *)
Record fitting_prefix (l : list PlaceholderRange) (budget : Z) (k : nat) : Prop := {
  fp_len : (k <= length l)%nat;
  fp_fits : ∀ j, (j <= k)%nat -> (0 < j)%nat -> total_length (take j l) <= budget;
  fp_max : ∀ p, l !! k = Some p -> budget < total_length (take (S k) l);
}.

Lemma es_try_schedule_spec l i b acc :
  ∃ k, es_try_schedule l i b acc = (acc ++ seq i k, b - total_length (take k l)) ∧
    fitting_prefix l b k.
Proof.
  revert i b acc. induction l as [|p l IH]; intros i b acc; simpl.
  { exists 0%nat. rewrite app_nil_r. split; [f_equal; simpl; lia|]. split; [done|lia|done]. }
  destruct (Z.leb_spec (length_ p) b) as [Hle|Hgt].
  - destruct (IH (S i) (b - length_ p) (acc ++ [i])) as (k & -> & [Hk Hf Hm]).
    exists (S k). split; [rewrite <-app_assoc; simpl; f_equal; lia|]. split; simpl.
    + lia.
    + intros [|j] Hj Hj0; [lia|]. simpl. destruct (decide (j = 0)%nat) as [->|]; [simpl; lia|].
      specialize (Hf j ltac:(lia) ltac:(lia)). lia.
    + intros q Hq. specialize (Hm q Hq). simpl in Hm. lia.
  - exists 0%nat. rewrite app_nil_r. split; [f_equal; simpl; lia|]. split; [simpl; lia|lia|].
    simpl. intros q [= <-]. lia.
Qed.

Lemma allocate_all_Ok r ids e :
  (∀ i, i ∈ ids -> (i < length (mm_positions r))%nat) ->
  ∃ e', for_each (fun i e => allocate e r i) ids e = Ok e'.
Proof.
  intros Hids. destruct (for_each_ind (fun l _ => ∀ i, i ∈ l -> (i < length (mm_positions r))%nat)
    (fun i e => allocate e r i) ids e Hids) as (e' & -> & _); [|by eexists].
  intros i l e0 Hl. destruct (lookup_lt_is_Some_2 _ _ (Hl i ltac:(by left))) as [p Hp].
  unfold allocate, get_num_encoder_tokens. rewrite Hp. eexists. split; [done|].
  intros j Hj. apply Hl. by right.
Qed.

(** Why the first waiting request is not taken. *)
Definition es_stuck (s : EncoderScheduler) (ref : nat) : Prop :=
  es_max_num_encoder_input_tokens s <= 0 ∨
  len (es_running s) = es_max_num_running_reqs s ∨
  match mm_positions (es_obj s ref) with
  | [] => True
  | p :: _ => es_max_num_encoder_input_tokens s < length_ p
  end.

Definition es_nothing (out : EncSchedulerOutput) : Prop :=
  eso_new_reqs out = [] ∧ eso_encoder_inputs out = ∅.

(** [schedule] takes the first waiting request, or nothing. *)
Lemma es_schedule_spec s :
  ∃ s' out, es_schedule s = Ok (s', out) ∧
    match es_waiting s with
    | [] => s' = s ∧ es_nothing out
    | ref :: rest =>
        (es_stuck s ref ∧ s' = s ∧ es_nothing out) ∨
        (¬ es_stuck s ref ∧ es_waiting s' = rest ∧ es_running s' = es_running s ++ [ref] ∧
         es_max_num_running_reqs s' = es_max_num_running_reqs s ∧
         enr_req_id <$> eso_new_reqs out = [request_id (es_obj s ref)] ∧
         ∃ k, fitting_prefix (mm_positions (es_obj s ref)) (es_max_num_encoder_input_tokens s) k ∧
           (0 < k)%nat ∧ eso_encoder_inputs out = {[request_id (es_obj s ref) := seq 0 k]})
    end.
Proof.
  unfold es_schedule, es_stuck. destruct (es_waiting s) as [|ref rest] eqn:Hw; [by eexists _, _|].
  destruct (Z.leb_spec (es_max_num_encoder_input_tokens s) 0) as [Hb|Hb].
  { eexists _, _. split; [done|]. left. by split; [left|]. }
  destruct (Z.eqb_spec (len (es_running s)) (es_max_num_running_reqs s)) as [Hm|Hm].
  { eexists _, _. split; [done|]. left. by split; [right; left|]. }
  destruct (es_try_schedule_spec (mm_positions (es_obj s ref)) 0 (es_max_num_encoder_input_tokens s) [])
    as (k & -> & Hfit). simpl app. case_bool_decide as Hk.
  - eexists _, _. split; [done|]. left. split; [|done]. right. right.
    destruct (mm_positions (es_obj s ref)) as [|p l]; [done|].
    destruct k; [|discriminate]. pose proof (fp_max _ _ _ Hfit p eq_refl) as Hx. simpl in Hx. lia.
  - destruct (allocate_all_Ok (es_obj s ref) (seq 0 k) (es_ecm s)) as [e ->].
    { intros i [_ Hi]%elem_of_seq. pose proof (fp_len _ _ _ Hfit). lia. }
    cbn [mbind result_bind]. eexists _, _. split; [done|]. right.
    assert (Hk0 : (0 < k)%nat) by (destruct k; [done|lia]).
    split_and!; try done.
    + intros [?|[?|Hx]]; [lia|done|]. destruct (mm_positions (es_obj s ref)) as [|p l].
      * pose proof (fp_len _ _ _ Hfit). simpl in *. lia.
      * pose proof (fp_fits _ _ _ Hfit 1 ltac:(lia) ltac:(lia)) as Hy. simpl in Hy. lia.
    + unfold es_output. simpl. unfold es_obj. simpl. by rewrite lookup_total_insert_eq.
    + by exists k.
Qed.

(** C40: the encoder scheduler serves in order and greedily.  [schedule] always
    returns.  When a request waits and the first one is not stuck (the encoder
    budget is positive, the limit of running requests is not reached, and its first
    encoder input exists and fits the budget), the step takes exactly that request,
    moves it to the end of [running], and schedules the longest run of its leading
    inputs whose sizes fit the budget, at least one.  When nothing waits, or the
    first request is stuck, the step schedules nothing and changes nothing: no later
    request overtakes.  The overall order of the requests is kept and at most
    [max_num_running_reqs] requests run. *)
Theorem es_schedule_fcfs s :
  len (es_running s) <= es_max_num_running_reqs s ->
  ∃ s' out, es_schedule s = Ok (s', out) ∧
    es_running s' ++ es_waiting s' = es_running s ++ es_waiting s ∧
    len (es_running s') <= es_max_num_running_reqs s' ∧
    (∀ ref rest, es_waiting s = ref :: rest -> ¬ es_stuck s ref ->
      es_waiting s' = rest ∧ es_running s' = es_running s ++ [ref] ∧
      enr_req_id <$> eso_new_reqs out = [request_id (es_obj s ref)] ∧
      ∃ k, fitting_prefix (mm_positions (es_obj s ref)) (es_max_num_encoder_input_tokens s) k ∧
        (0 < k)%nat ∧ eso_encoder_inputs out = {[request_id (es_obj s ref) := seq 0 k]}) ∧
    ((es_waiting s = [] ∨ ∃ ref rest, es_waiting s = ref :: rest ∧ es_stuck s ref) ->
      s' = s ∧ es_nothing out).
Proof.
  intros Hlen. destruct (es_schedule_spec s) as (s' & out & -> & H). exists s', out. split; [done|].
  destruct (es_waiting s) as [|ref rest] eqn:Hw.
  { destruct H as (-> & ?). rewrite Hw. by split_and!. }
  destruct H as [(Hst & -> & Hn)|(Hs & Hw' & Hr & Hm & Hn & k & Hf & Hk & He)].
  - rewrite Hw. split_and!; [done..| |done]. by intros ? ? [= <- <-].
  - rewrite Hw', Hr, Hm, <-app_assoc, length_app. split; [done|]. simpl. split_and!.
    + unfold es_stuck in Hs. destruct (decide (len (es_running s) = es_max_num_running_reqs s)); [tauto|lia].
    + intros ? ? [= <- <-] _. by eauto 10.
    + by intros [?|(? & ? & [= <- <-] & ?)].
Qed.

(** ** The encoder process over time *)

(** The encoder process only adds requests and steps. *)
Inductive es_event : Type := EsAdd (r : Request) | EsStep.

(** The outputs of the steps are collected. *)
Fixpoint es_run (l : list es_event) (s : EncoderScheduler) :
    result (EncoderScheduler * list EncSchedulerOutput) :=
  match l with
  | [] => Ok (s, [])
  | EsAdd r :: l => es_run l (es_add_request s r)
  | EsStep :: l =>
      '(s, out) ← es_schedule s;
      '(s, outs) ← es_run l s;
      Ok (s, out :: outs)
  end.

Lemma es_add_obj s r x : is_Some (es_objs s !! x) -> es_obj (es_add_request s r) x = es_obj s x.
Proof.
  intros Hx. unfold es_obj. simpl. rewrite lookup_total_insert_ne; [done|].
  intros E. assert (Hfr : fresh (dom (es_objs s)) ∉ dom (es_objs s))
    by exact (is_fresh (dom (es_objs s) : gset nat)).
  apply Hfr. rewrite E. by apply elem_of_dom.
Qed.

(** A request without encoder inputs blocks the encoder for good.  Once such a
    request is the first one waiting, no later step of the encoder process, in
    whatever way new requests arrive in between, schedules any encoder input. *)
Theorem text_request_blocks_encoder s ref rest l :
  es_waiting s = ref :: rest -> is_Some (es_objs s !! ref) -> mm_positions (es_obj s ref) = [] ->
  ∃ s' outs, es_run l s = Ok (s', outs) ∧ Forall es_nothing outs ∧ es_running s' = es_running s.
Proof.
  revert s rest. induction l as [|[r|] l IH]; intros s rest Hw Ho Hm; cbn [es_run].
  - by eexists _, _.
  - apply (IH (es_add_request s r) (rest ++ [fresh (dom (es_objs s))])).
    + simpl. by rewrite Hw.
    + simpl. destruct (decide (fresh (dom (es_objs s)) = ref)) as [->|Hne];
        [rewrite lookup_insert_eq; by eexists|by rewrite lookup_insert_ne].
    + by rewrite es_add_obj.
  - destruct (es_schedule_spec s) as (s1 & out & -> & H). rewrite Hw in H.
    assert (s1 = s ∧ es_nothing out) as [-> Hn].
    { destruct H as [(_ & ? & ?)|(Hs & _)]; [done|]. destruct Hs. unfold es_stuck. rewrite Hm. tauto. }
    cbn [mbind result_bind]. destruct (IH s rest Hw Ho Hm) as (s' & outs & -> & Hall & Hr).
    cbn [mbind result_bind]. eexists _, _. split; [done|]. split; [by constructor|done].
Qed.

(** The number of requests a list of outputs covers. *)
Definition es_served (outs : list EncSchedulerOutput) : nat :=
  sum_list ((fun o => length (eso_new_reqs o)) <$> outs).

(** The encoder process serves at most [max_num_running_reqs] requests in its
    life.  The client sends it additions only (aborts go to the engine core), and a
    step never takes a served request off [running]; so over any run of additions
    and steps from the initial state the number of served requests is the length
    of [running] and never exceeds the limit. *)
Theorem encoder_serves_at_most_max seqs toks mml budgets l :
  0 <= seqs ->
  ∃ s' outs, es_run l (es_init seqs toks mml budgets) = Ok (s', outs) ∧
    Z.of_nat (es_served outs) = len (es_running s') ∧ Z.of_nat (es_served outs) <= seqs.
Proof.
  intros Hseqs.
  assert (Hgen : ∀ s, len (es_running s) <= es_max_num_running_reqs s ->
    ∃ s' outs, es_run l s = Ok (s', outs) ∧
      len (es_running s') = len (es_running s) + Z.of_nat (es_served outs) ∧
      len (es_running s') <= es_max_num_running_reqs s).
  { induction l as [|[r|] l IH]; intros s Hs; cbn [es_run].
    - eexists _, _. split; [done|]. change (es_served []) with 0%nat. lia.
    - by apply (IH (es_add_request s r)).
    - destruct (es_schedule_spec s) as (s1 & out & -> & H).
      assert (H1 : len (es_running s1) = len (es_running s) + len (eso_new_reqs out) ∧
        len (es_running s1) <= es_max_num_running_reqs s ∧
        es_max_num_running_reqs s1 = es_max_num_running_reqs s).
      { destruct (es_waiting s) as [|ref rest].
        - destruct H as (-> & -> & _). simpl. lia.
        - destruct H as [(_ & -> & -> & _)|(Hst & _ & Hr & Hm & Hn & _)]; [simpl; lia|].
          rewrite Hr, length_app. apply (f_equal length) in Hn. rewrite length_fmap in Hn. rewrite Hn, Hm.
          unfold es_stuck in Hst. simpl. split; [lia|]. split; [|done].
          destruct (decide (len (es_running s) = es_max_num_running_reqs s)); [tauto|lia]. }
      destruct H1 as (H1 & H2 & H3). cbn [mbind result_bind].
      destruct (IH s1) as (s' & outs & -> & H4 & H5); [lia|]. cbn [mbind result_bind].
      eexists _, _. split; [done|].
      change (es_served (out :: outs)) with (length (eso_new_reqs out) + es_served outs)%nat. lia. }
  destruct (Hgen (es_init seqs toks mml budgets)) as (s' & outs & -> & H1 & H2); [done|].
  eexists _, _. split; [done|]. simpl in *. lia.
Qed.

(** ** Witnesses *)

Definition demo_es : EncoderScheduler :=
  es_add_request (es_init 2 8 20 (5, 10)) demo_img.

(** At the demo state the first request is not stuck, so the step takes it. *)
Lemma es_schedule_fcfs_witness :
  ∃ s' out, es_schedule demo_es = Ok (s', out) ∧ es_waiting s' = [] ∧ es_running s' = [0%nat] ∧
    enr_req_id <$> eso_new_reqs out = [request_id (es_obj demo_es 0)] ∧
    ∃ k, fitting_prefix (mm_positions (es_obj demo_es 0)) (es_max_num_encoder_input_tokens demo_es) k ∧
      (0 < k)%nat ∧ eso_encoder_inputs out = {[request_id (es_obj demo_es 0) := seq 0 k]}.
Proof.
  destruct (es_schedule_fcfs demo_es) as (s' & out & E & _ & _ & H & _); [vm_compute; congruence|].
  exists s', out. split; [exact E|].
  destruct (H 0%nat []) as (H1 & H2 & H3 & H4); [vm_compute; reflexivity| |].
  - unfold es_stuck. vm_compute. intros [X|[X|X]]; [by apply X|discriminate|discriminate].
  - split; [exact H1|]. split; [rewrite H2; vm_compute; reflexivity|]. by split.
Defined.

Lemma text_request_blocks_encoder_witness :
  ∃ s' outs, es_run [EsStep; EsAdd demo_img; EsStep]
      (es_add_request (es_init 2 8 20 (5, 10)) (demo_request "t" [1; 2])) = Ok (s', outs) ∧
    Forall es_nothing outs ∧ es_running s' = [].
Proof.
  apply (text_request_blocks_encoder
    (es_add_request (es_init 2 8 20 (5, 10)) (demo_request "t" [1; 2])) 0 []);
    [vm_compute; reflexivity|vm_compute; by eexists|vm_compute; reflexivity].
Defined.

Lemma encoder_serves_at_most_max_witness :
  ∃ s' outs, es_run [EsAdd demo_img; EsStep; EsAdd demo_img; EsStep] (es_init 1 8 20 (5, 10)) = Ok (s', outs) ∧
    Z.of_nat (es_served outs) = len (es_running s') ∧ Z.of_nat (es_served outs) <= 1.
Proof. apply (encoder_serves_at_most_max 1 8 20 (5, 10)). lia. Defined.
