(* ===== verification/MMMapper.v ===== *)
(** * LRU caches and the mirrored multi-modal input caches

    [LRUCache] of [vllm/utils.py] and the two sides of
    [vllm/v1/engine/mm_input_mapper.py].  The client (frontend process) sends
    [None] for an input whose hash is in its cache; the server (engine or encoder
    process) looks the hash up in its own cache.  The scheme is sound only if both
    caches evolve identically, which the theorems show.

    An [OrderedDict] is an association list in order, oldest entry first. *)

From stdpp Require Import base tactics list gmap sets strings.
From Stdlib Require Import ZArith Lia.
From S2P Require Import Prelude.
From S2P Require Import SamplingParams.
From S2P Require Import Request.

Local Open Scope Z_scope.

(** ** Ordered dictionaries *)

Section ordered_dict.
Context {V : Type}.
Implicit Types (l : list (string * V)) (k : string).

Fixpoint od_get (k : string) (l : list (string * V)) : option V :=
  match l with
  | [] => None
  | (k', v) :: l => if decide (k = k') then Some v else od_get k l
  end.

(** [d\[k\] = v]: in place for an existing key, at the end otherwise. *)
Fixpoint od_set (k : string) (v : V) (l : list (string * V)) : list (string * V) :=
  match l with
  | [] => [(k, v)]
  | (k', v') :: l => if decide (k = k') then (k, v) :: l else (k', v') :: od_set k v l
  end.

Definition od_remove (k : string) (l : list (string * V)) : list (string * V) :=
  filter (fun kv => kv.1 ≠ k) l.

(** [d.move_to_end(k)] *)
Definition od_move_to_end (k : string) (l : list (string * V)) : result (list (string * V)) :=
  v ← or_raise KeyError (od_get k l);
  Ok (od_remove k l ++ [(k, v)]).

Lemma od_get_set k v l : od_get k (od_set k v l) = Some v.
Proof.
  induction l as [|[k' v'] l IH]; simpl; [by rewrite decide_True|].
  case_decide as E; simpl; [by rewrite decide_True|by rewrite decide_False].
Qed.

Lemma od_remove_set k v l : NoDup l.*1 -> od_remove k (od_set k v l) = od_remove k l.
Proof.
  unfold od_remove. induction l as [|[k' v'] l IH]; intros Hnd; simpl.
  - rewrite filter_cons, decide_False; naive_solver.
  - apply NoDup_cons in Hnd as [Hn Hnd]. case_decide as E.
    + subst k'. rewrite !filter_cons, !decide_False; naive_solver.
    + rewrite !filter_cons. simpl. case_decide; [f_equal|]; by apply IH.
Qed.

Lemma od_remove_absent k l : k ∉ l.*1 -> od_remove k l = l.
Proof.
  unfold od_remove. induction l as [|[k' v'] l IH]; intros Hn; [done|].
  rewrite filter_cons, decide_True by set_solver. f_equal. apply IH. set_solver.
Qed.

Lemma od_remove_keys k l : (od_remove k l).*1 = filter (.≠ k) l.*1.
Proof.
  unfold od_remove. induction l as [|[k' v'] l IH]; [done|]. rewrite fmap_cons, !filter_cons. simpl.
  case_decide; [|done]. rewrite fmap_cons. by f_equal.
Qed.

Lemma od_get_In k v l : od_get k l = Some v -> (k, v) ∈ l.
Proof.
  induction l as [|[k' v'] l IH]; simpl; [done|].
  case_decide; [intros [= ->]; subst; by left|intros; right; by apply IH].
Qed.
End ordered_dict.

(** ** The LRU cache *)

Record LRUCache (V : Type) : Type := mkLRU {
  lru_cache : list (string * V);
  pinned_items : gset string;
  capacity : Z;
  lru_hits : Z;
  lru_total : Z;
}.
Arguments mkLRU {V} _ _ _ _ _.
Arguments lru_cache {V} _.
Arguments pinned_items {V} _.
Arguments capacity {V} _.
Arguments lru_hits {V} _.
Arguments lru_total {V} _.

Section lru.
Context {V : Type}.
Implicit Types (c : LRUCache V) (k : string) (v : V).

Definition lru_init (cap : Z) : LRUCache V := mkLRU [] ∅ cap 0 0.

Definition with_cache c (l : list (string * V)) : LRUCache V :=
  mkLRU l (pinned_items c) (capacity c) (lru_hits c) (lru_total c).

Definition lru_contains c k : bool := bool_decide (is_Some (od_get k (lru_cache c))).
Definition lru_len c : Z := len (lru_cache c).

(** [__getitem__] *)
Definition lru_getitem c k : result (LRUCache V * V) :=
  v ← or_raise KeyError (od_get k (lru_cache c));
  l ← od_move_to_end k (lru_cache c);
  Ok (with_cache c l, v).

Definition lru_touch c k : result (LRUCache V) :=
  l ← od_move_to_end k (lru_cache c); Ok (with_cache c l).

Definition lru_get c k (default : option V) : result (LRUCache V * option V) :=
  match od_get k (lru_cache c) with
  | Some v =>
      l ← od_move_to_end k (lru_cache c);
      Ok (mkLRU l (pinned_items c) (capacity c) (lru_hits c + 1) (lru_total c + 1), Some v)
  | None => Ok (mkLRU (lru_cache c) (pinned_items c) (capacity c) (lru_hits c) (lru_total c + 1),
                default)
  end.

(** [_unpin] raises on a key that is not pinned. *)
Definition lru_unpin c k : result (LRUCache V) :=
  if decide (k ∈ pinned_items c)
  then Ok (mkLRU (lru_cache c) (pinned_items c ∖ {[k]}) (capacity c) (lru_hits c) (lru_total c))
  else Err KeyError.

Definition lru_pop c k (default : option V) : result (LRUCache V * option V) :=
  let v := match od_get k (lru_cache c) with Some v => Some v | None => default end in
  let c := with_cache c (od_remove k (lru_cache c)) in
  c ← (if decide (k ∈ pinned_items c) then lru_unpin c k else Ok c);
  Ok (c, v).

Definition lru_pin c k : result (LRUCache V) :=
  if lru_contains c k
  then Ok (mkLRU (lru_cache c) ({[k]} ∪ pinned_items c) (capacity c) (lru_hits c) (lru_total c))
  else Err ValueError.

Definition lru_remove_oldest c (remove_pinned : bool) : result (LRUCache V) :=
  match lru_cache c with
  | [] => Ok c
  | (k0, _) :: _ =>
      lru_key ← (if remove_pinned then Ok k0
                 else or_raise RuntimeError
                        (head (filter (fun k => k ∉ pinned_items c) (lru_cache c).*1)));
      '(c, _) ← lru_pop c lru_key None;
      Ok c
  end.

(** [while len(self.cache) > self.capacity: self.remove_oldest()] *)
Fixpoint lru_remove_old_if_needed (fuel : nat) c : result (LRUCache V) :=
  if capacity c <? lru_len c then
    match fuel with
    | O => Err OutOfFuel
    | S fuel => c ← lru_remove_oldest c false; lru_remove_old_if_needed fuel c
    end
  else Ok c.

Definition lru_put c k v : result (LRUCache V) :=
  l ← od_move_to_end k (od_set k v (lru_cache c));
  lru_remove_old_if_needed (length l) (with_cache c l).

(** ** The contract of an unpinned cache *)

Record lru_ok c : Prop := {
  lo_keys : NoDup (lru_cache c).*1;
  lo_pins : pinned_items c = ∅;
  lo_cap : 0 <= capacity c;
  lo_len : lru_len c <= capacity c;
}.

(** Keep the [cap] most recent entries. *)
Definition most_recent (cap : Z) (l : list (string * V)) : list (string * V) :=
  drop (length l - Z.to_nat cap) l.

Lemma filter_no_pins (P : gset string) (ks : list string) :
  P = ∅ -> filter (fun k => k ∉ P) ks = ks.
Proof. intros HP. induction ks; [done|]. rewrite filter_cons, decide_True by set_solver. by f_equal. Qed.

Lemma remove_old_spec fuel c :
  NoDup (lru_cache c).*1 -> pinned_items c = ∅ -> 0 <= capacity c ->
  (length (lru_cache c) <= fuel)%nat ->
  lru_remove_old_if_needed fuel c = Ok (with_cache c (most_recent (capacity c) (lru_cache c))).
Proof.
  unfold most_recent, lru_len. revert c. induction fuel as [|fuel IH]; intros c Hnd Hp Hc Hf;
    cbn [lru_remove_old_if_needed]; unfold lru_len;
    destruct (Z.ltb_spec (capacity c) (len (lru_cache c))) as [Hlt|Hge]; try lia.
  - replace (length (lru_cache c) - Z.to_nat (capacity c))%nat with 0%nat by lia. by destruct c.
  - unfold lru_remove_oldest. destruct (lru_cache c) as [|[k v] l] eqn:El; [simpl in Hlt; lia|].
    rewrite filter_no_pins by done. cbn [fmap list_fmap head or_raise mbind result_bind].
    change (fst (k, v)) with k. cbn [or_raise mbind result_bind].
    rewrite fmap_cons in Hnd. apply NoDup_cons in Hnd as [Hk Hnd].
    unfold lru_pop. rewrite El. cbn [od_get with_cache pinned_items]. rewrite Hp.
    rewrite (decide_False (P := k ∈ ∅)) by set_solver. cbn [mbind result_bind].
    assert (od_remove k ((k, v) :: l) = l) as ->.
    { unfold od_remove. rewrite filter_cons, decide_False by naive_solver. by apply od_remove_absent. }
    rewrite IH; simpl in *; try done; [|lia].
    f_equal. unfold with_cache. simpl. f_equal.
    replace (S (length l) - Z.to_nat (capacity c))%nat with (S (length l - Z.to_nat (capacity c))) by lia.
    done.
  - replace (length (lru_cache c) - Z.to_nat (capacity c))%nat with 0%nat by lia. by destruct c.
Qed.

Lemma moved_keys_NoDup k v (l : list (string * V)) :
  NoDup l.*1 -> NoDup (od_remove k l ++ [(k, v)]).*1.
Proof.
  intros Hnd. rewrite fmap_app, od_remove_keys. apply NoDup_app. split; [by apply NoDup_filter|].
  split; [|apply NoDup_singleton]. intros x [? _]%list_elem_of_filter. set_solver.
Qed.

Lemma lru_put_spec c k v :
  lru_ok c ->
  ∃ c', lru_put c k v = Ok c' ∧ lru_ok c' ∧
    lru_cache c' = most_recent (capacity c) (od_remove k (lru_cache c) ++ [(k, v)]) ∧
    capacity c' = capacity c.
Proof.
  intros [Hnd Hp Hc Hl]. unfold lru_put, od_move_to_end. rewrite od_get_set.
  cbn [or_raise mbind result_bind]. rewrite od_remove_set by done.
  pose proof (moved_keys_NoDup k v (lru_cache c) Hnd) as Hnd'.
  rewrite remove_old_spec by done. eexists. split; [done|]. split; [|done].
  split; simpl; try done; unfold most_recent.
  - rewrite fmap_drop. eapply sublist_NoDup; [done|apply sublist_drop].
  - unfold lru_len. simpl. rewrite length_drop. lia.
Qed.

(** A hit moves the entry to the end, a miss changes nothing but the counters. *)
Lemma lru_get_spec c k :
  lru_ok c ->
  ∃ c', lru_get c k None = Ok (c', od_get k (lru_cache c)) ∧ lru_ok c' ∧
    capacity c' = capacity c ∧
    lru_cache c' = match od_get k (lru_cache c) with
                   | Some v => od_remove k (lru_cache c) ++ [(k, v)]
                   | None => lru_cache c
                   end.
Proof.
  intros [Hnd Hp Hc Hl]. unfold lru_get. destruct (od_get k (lru_cache c)) as [v|] eqn:E.
  - unfold od_move_to_end. rewrite E. cbn [or_raise mbind result_bind].
    eexists. split; [done|]. split; [|done]. split; simpl; try done.
    + by apply moved_keys_NoDup.
    + unfold lru_len in *. simpl. rewrite length_app. simpl.
      assert (length (od_remove k (lru_cache c)) < length (lru_cache c))%nat; [|lia].
      apply od_get_In in E. unfold od_remove. clear -E.
      induction (lru_cache c) as [|[k' v'] l IH]; [set_solver|]. rewrite filter_cons.
      apply elem_of_cons in E as [E|E].
      * injection E as <- <-. rewrite decide_False by naive_solver. simpl.
        pose proof (length_filter (fun kv : string * V => kv.1 ≠ k) l). lia.
      * case_decide; simpl; specialize (IH E); lia.
  - eexists. split; [done|]. split; [|done]. by split.
Qed.

Lemma od_get_app k (l1 l2 : list (string * V)) :
  od_get k (l1 ++ l2) = match od_get k l1 with Some v => Some v | None => od_get k l2 end.
Proof. induction l1 as [|[k' v'] l1 IH]; simpl; [done|]. by case_decide. Qed.

(** The entry that was put last survives. *)
Lemma most_recent_last cap k v (l : list (string * V)) :
  1 <= cap -> od_get k (most_recent cap (od_remove k l ++ [(k, v)])) = Some v.
Proof.
  intros Hcap. unfold most_recent. rewrite length_app. simpl.
  rewrite drop_app_le by lia. rewrite od_get_app.
  assert (od_get k (drop (length (od_remove k l) + 1 - Z.to_nat cap) (od_remove k l)) = None) as ->;
    [|simpl; by rewrite decide_True].
  destruct (od_get k (drop _ _)) as [v'|] eqn:E; [|done]. exfalso.
  apply od_get_In in E. apply (sublist_subseteq _ _ (sublist_drop _ _)) in E.
  apply list_elem_of_filter in E as [E _]. naive_solver.
Qed.
End lru.

(** The LRU cache.  On a cache without pinned items, [put] makes the entry the
    most recent one and keeps the [capacity] most recent entries; a [get] right
    after it returns the value; a [get] that hits makes its entry the most recent
    one and evicts nothing. *)
Theorem lru_put_get {V} (c : LRUCache V) k v :
  lru_ok c -> 1 <= capacity c ->
  ∃ c1 c2, lru_put c k v = Ok c1 ∧ lru_get c1 k None = Ok (c2, Some v) ∧
    lru_cache c1 = most_recent (capacity c) (od_remove k (lru_cache c) ++ [(k, v)]) ∧
    lru_cache c2 ≡ₚ lru_cache c1 ∧ lru_ok c2.
Proof.
  intros Hc Hcap. destruct (lru_put_spec c k v Hc) as (c1 & E1 & Hc1 & L1 & _).
  destruct (lru_get_spec c1 k Hc1) as (c2 & E2 & Hc2 & _ & L2).
  pose proof (most_recent_last (capacity c) k v (lru_cache c) Hcap) as Hget. rewrite <-L1 in Hget.
  rewrite Hget in E2, L2. exists c1, c2. split_and!; try done. rewrite L2.
  clear -Hget Hc1. pose proof (lo_keys _ Hc1) as Hnd. revert Hnd Hget.
  induction (lru_cache c1) as [|[k' v'] l IH]; simpl; [done|]. intros [Hk Hnd]%NoDup_cons.
  unfold od_remove. rewrite filter_cons. case_decide as E.
  - subst k'. intros [= ->]. rewrite decide_False by naive_solver.
    fold (od_remove k l). rewrite od_remove_absent by done. apply Permutation_app_comm.
  - intros Hg. rewrite decide_True by naive_solver. simpl. f_equiv. by apply IH.
Qed.

Lemma lru_put_get_witness :
  let c := mkLRU [("a", 1%nat); ("b", 2%nat)]%string ∅ 2 0 0 in
  ∃ c1 c2, lru_put c "c"%string 3%nat = Ok c1 ∧ lru_get c1 "c"%string None = Ok (c2, Some 3%nat) ∧
    lru_cache c1 = most_recent 2 (od_remove "c"%string (lru_cache c) ++ [("c"%string, 3%nat)]) ∧
    lru_cache c2 ≡ₚ lru_cache c1 ∧ lru_ok c2.
Proof.
  intros c. apply (lru_put_get c "c"%string 3%nat); [|simpl; lia].
  split; simpl; [|done|lia|unfold lru_len; simpl; lia].
  repeat constructor; set_solver.
Defined.

(** ** The client and the server of the input mapper *)

Definition MM_CACHE_SIZE : Z := 256.

Record MMInputMapperClient : Type := mkMMClient {
  mmc_use_cache : bool;
  mmc_cache : LRUCache MMKwargs;
  mm_cache_hits : Z;
  mm_cache_total : Z;
}.

Record MMInputMapperServer : Type := mkMMServer {
  mms_use_cache : bool;
  mms_cache : LRUCache MMKwargs;
}.

Definition mm_client_init (disable_cache : bool) : MMInputMapperClient :=
  mkMMClient (negb disable_cache) (lru_init MM_CACHE_SIZE) 0 0.
Definition mm_server_init (disable_cache : bool) : MMInputMapperServer :=
  mkMMServer (negb disable_cache) (lru_init MM_CACHE_SIZE).

(** One iteration of the client's loop.  [input] is what the mapper yields for this
    image, or the precomputed input. *)
Definition client_item (c : MMInputMapperClient) (mm_hash : option string) (input : MMKwargs) :
    result (MMInputMapperClient * option MMKwargs) :=
  '(cache, mm_input) ←
    (if mmc_use_cache c then
       h ← or_raise AssertionError mm_hash;
       lru_get (mmc_cache c) h None
     else Ok (mmc_cache c, None));
  match mm_input with
  | None =>
      cache ← (if mmc_use_cache c then
                 h ← or_raise AssertionError mm_hash;
                 lru_put cache h input
               else Ok cache);
      Ok (mkMMClient (mmc_use_cache c) cache (mm_cache_hits c) (mm_cache_total c + 1), Some input)
  | Some _ =>
      Ok (mkMMClient (mmc_use_cache c) cache (mm_cache_hits c + 1) (mm_cache_total c + 1), None)
  end.

Fixpoint client_loop (c : MMInputMapperClient) (hashes : list (option string))
    (inputs : list MMKwargs) (ret : list (option MMKwargs)) :
    result (MMInputMapperClient * list (option MMKwargs)) :=
  match inputs, hashes with
  | [], _ => Ok (c, ret)
  | x :: inputs, h :: hashes =>
      '(c, o) ← client_item c h x;
      client_loop c hashes inputs (ret ++ [o])
  | _ :: _, [] => Err IndexError
  end.

(** [MMInputMapperClient.process_inputs], on the inputs the mapper yields. *)
Definition client_process_inputs (c : MMInputMapperClient) (inputs : list MMKwargs)
    (mm_hashes : option (list string)) :
    result (MMInputMapperClient * list (option MMKwargs)) :=
  if mmc_use_cache c then
    hs ← or_raise AssertionError mm_hashes;
    _ ← py_assert (bool_decide (length inputs = length hs));
    client_loop c (Some <$> hs) inputs []
  else client_loop c (replicate (length inputs) None) inputs [].

Definition server_item (s : MMInputMapperServer) (mm_input : option MMKwargs) (mm_hash : string) :
    result (MMInputMapperServer * MMKwargs) :=
  match mm_input with
  | None =>
      '(cache, o) ← lru_get (mms_cache s) mm_hash None;
      x ← or_raise AssertionError o;
      Ok (mkMMServer (mms_use_cache s) cache, x)
  | Some x =>
      cache ← lru_put (mms_cache s) mm_hash x;
      Ok (mkMMServer (mms_use_cache s) cache, x)
  end.

Fixpoint server_loop (s : MMInputMapperServer) (mm_inputs : list (option MMKwargs))
    (hashes : list string) (full : list MMKwargs) :
    result (MMInputMapperServer * list MMKwargs) :=
  match mm_inputs, hashes with
  | o :: mm_inputs, h :: hashes =>
      '(s, x) ← server_item s o h;
      server_loop s mm_inputs hashes (full ++ [x])
  | _, _ => Ok (s, full)
  end.

(** [MMInputMapperServer.process_inputs] *)
Definition server_process_inputs (s : MMInputMapperServer) (mm_inputs : list (option MMKwargs))
    (hashes : list string) : result (MMInputMapperServer * list (option MMKwargs)) :=
  _ ← py_assert (bool_decide (length mm_inputs = length hashes));
  if negb (mms_use_cache s) then Ok (s, mm_inputs)
  else
    '(s, full) ← server_loop s mm_inputs hashes [];
    Ok (s, Some <$> (full : list MMKwargs)).

(** Both sides hold the same entries, and an entry is determined by its hash. *)
Record mirrored (F : string -> MMKwargs) (c : MMInputMapperClient) (s : MMInputMapperServer) :
    Prop := {
  mi_use : mmc_use_cache c = true ∧ mms_use_cache s = true;
  mi_ok : lru_ok (mmc_cache c) ∧ lru_ok (mms_cache s);
  mi_same : lru_cache (mmc_cache c) = lru_cache (mms_cache s) ∧
    capacity (mmc_cache c) = capacity (mms_cache s);
  mi_hash : ∀ h x, (h, x) ∈ lru_cache (mmc_cache c) -> x = F h;
}.

Lemma mirrored_init F : mirrored F (mm_client_init false) (mm_server_init false).
Proof.
  assert (Hok : lru_ok (lru_init MM_CACHE_SIZE : LRUCache MMKwargs)) by (split; [constructor|done..]).
  split; [done|done|done|]. intros h x Hin. by apply elem_of_nil in Hin.
Qed.

Lemma mirrored_item F c s h :
  mirrored F c s ->
  ∃ c' o s', client_item c (Some h) (F h) = Ok (c', o) ∧ server_item s o h = Ok (s', F h) ∧
    mirrored F c' s'.
Proof.
  intros [[Uc Us] [Oc Os] [Sc Sp] Hh]. unfold client_item, server_item. rewrite Uc.
  cbn [or_raise mbind result_bind].
  destruct (lru_get_spec (mmc_cache c) h Oc) as (c1 & -> & Oc1 & Cc1 & Lc1). cbn [mbind result_bind].
  destruct (od_get h (lru_cache (mmc_cache c))) as [x|] eqn:Hg.
  - destruct (lru_get_spec (mms_cache s) h Os) as (s1 & Es & Os1 & Cs1 & Ls1). rewrite <-Sc, Hg in *.
    apply od_get_In, Hh in Hg as ->.
    eexists _, None, (mkMMServer _ s1). split; [done|]. rewrite Es. split; [done|].
    split; simpl; try done.
    + by rewrite Lc1, Ls1, Cc1, Cs1.
    + intros h' x'. rewrite Lc1. intros [[_ Hin]%list_elem_of_filter|Hin]%elem_of_app; [by apply Hh|].
      apply list_elem_of_singleton in Hin. naive_solver.
  - destruct (lru_put_spec c1 h (F h) Oc1) as (c2 & -> & Oc2 & Lc2 & Cc2). cbn [mbind result_bind].
    destruct (lru_put_spec (mms_cache s) h (F h) Os) as (s1 & Es & Os1 & Ls1 & Cs1).
    eexists _, (Some (F h)), (mkMMServer _ s1). split; [done|]. rewrite Es.
    split; [done|]. split; simpl; try done.
    + by rewrite Lc2, Ls1, Lc1, Cc2, Cc1, Cs1, Sc, Sp.
    + intros h' x'. rewrite Lc2, Lc1. unfold most_recent.
      intros Hin%(sublist_subseteq _ _ (sublist_drop _ _)).
      apply elem_of_app in Hin as [[_ Hin]%list_elem_of_filter|Hin]; [by apply Hh|].
      apply list_elem_of_singleton in Hin. naive_solver.
Qed.

Lemma mirrored_loop F hs c s ret full :
  mirrored F c s ->
  ∃ c' os s', client_loop c (Some <$> hs) (F <$> hs) ret = Ok (c', ret ++ os) ∧
    length os = length hs ∧ server_loop s os hs full = Ok (s', full ++ (F <$> hs)) ∧ mirrored F c' s'.
Proof.
  revert c s ret full. induction hs as [|h hs IH]; intros c s ret full Hm.
  { exists c, [], s. rewrite !app_nil_r. by split_and!. }
  rewrite !fmap_cons. cbn [client_loop].
  destruct (mirrored_item F c s h Hm) as (c1 & o & s1 & -> & Es & Hm1). cbn [mbind result_bind].
  destruct (IH c1 s1 (ret ++ [o]) (full ++ [F h]) Hm1) as (c' & os & s' & -> & Hl & Es' & Hm').
  exists c', (o :: os), s'. rewrite <-app_assoc. split; [done|]. split; [simpl; by rewrite Hl|].
  cbn [server_loop]. rewrite Es. cbn [mbind result_bind]. rewrite Es', <-app_assoc. done.
Qed.

(** A request through the client and then the server. *)
Lemma mirrored_process F hs c s :
  mirrored F c s ->
  ∃ c' sent s', client_process_inputs c (F <$> hs) (Some hs) = Ok (c', sent) ∧
    length sent = length hs ∧ server_process_inputs s sent hs = Ok (s', Some <$> (F <$> hs)) ∧
    mirrored F c' s'.
Proof.
  intros Hm. unfold client_process_inputs, server_process_inputs.
  rewrite (proj1 (mi_use _ _ _ Hm)), (proj2 (mi_use _ _ _ Hm)). cbn [or_raise mbind result_bind].
  rewrite (bool_decide_eq_true_2 (length (F <$> hs) = length hs)) by by rewrite length_fmap.
  cbn [py_assert mbind result_bind].
  destruct (mirrored_loop F hs c s [] [] Hm) as (c' & os & s' & -> & Hl & Es & Hm').
  exists c', os, s'. split_and!; try done. rewrite bool_decide_eq_true_2 by done.
  cbn [negb py_assert mbind result_bind]. by rewrite Es.
Qed.

(** A conversation: every request goes through the client, then the server. *)
Fixpoint mm_conversation (c : MMInputMapperClient) (s : MMInputMapperServer)
    (reqs : list (list MMKwargs * list string)) : result (list (list (option MMKwargs))) :=
  match reqs with
  | [] => Ok []
  | (inputs, hs) :: reqs =>
      '(c, sent) ← client_process_inputs c inputs (Some hs);
      '(s, full) ← server_process_inputs s sent hs;
      rest ← mm_conversation c s reqs;
      Ok (full :: rest)
  end.

(** C39: the mirrored caches lose nothing.  If an input is determined by its hash
    ([F]), then however many requests pass, whatever the client leaves out because
    its cache hits is found in the server's cache: no assertion fails, and the
    server recovers exactly the inputs the client was given, evictions included. *)
Theorem mm_mirrored_caches_lossless F reqs :
  (∀ inputs hs, (inputs, hs) ∈ reqs -> inputs = F <$> hs) ->
  mm_conversation (mm_client_init false) (mm_server_init false) reqs =
    Ok ((fun req : list MMKwargs * list string => Some <$> req.1) <$> reqs).
Proof.
  intros HF.
  pose proof (mirrored_init F) as Hinit. revert Hinit. generalize (mm_client_init false) (mm_server_init false).
  induction reqs as [|[inputs hs] reqs IH]; intros c s Hm; [done|]. cbn [mm_conversation].
  rewrite (HF inputs hs) by by left.
  destruct (mirrored_process F hs c s Hm) as (c' & sent & s' & -> & _ & Es & Hm').
  cbn [mbind result_bind]. rewrite Es. cbn [mbind result_bind].
  rewrite IH; [done| |done]. intros i h Hin. apply HF. by right.
Qed.

Lemma mm_mirrored_caches_lossless_witness :
  mm_conversation (mm_client_init false) (mm_server_init false)
    [([1; 5], ["a"; "aaaaa"]); ([5; 2], ["aaaaa"; "bb"])]%nat%string =
    Ok [[Some 1%nat; Some 5%nat]; [Some 5%nat; Some 2%nat]].
Proof.
  apply (mm_mirrored_caches_lossless String.length [([1; 5], ["a"; "aaaaa"]); ([5; 2], ["aaaaa"; "bb"])]%nat%string).
  intros inputs hs [E|[E|E]%elem_of_cons]%elem_of_cons; [by injection E as -> ->..|].
  by apply elem_of_nil in E.
Defined.
