(* ===== verification/Processor.v ===== *)
(** * The input processor: [vllm/v1/engine/processor.py]

    [Processor.process_inputs] turns a preprocessed prompt into the
    [EngineCoreRequest] that is sent to the engine core and to the encoder: it
    validates the prompt, completes the sampling parameters, sorts the multi-modal
    items of all modalities by their place in the prompt
    ([merge_and_sort_multimodal_metadata] of [vllm/multimodal/utils.py]) and passes
    them through the client side of the mirrored input cache.

    Dicts keyed by modality are association lists in insertion order.  What the
    tokenizer, the merged multi-modal processor and the hasher return are arguments:
    [ProcessorInputs] is the preprocessed prompt, [prompt_hashes] the result of
    [MultiModalHasher.hash_prompt_mm_data]. *)

From stdpp Require Import base tactics list gmap sets strings sorting.
From Stdlib Require Import ZArith QArith Lia.
From S2P Require Import Prelude.
From S2P Require Import SamplingParams.
From S2P Require Import Request.
From S2P Require Import MMMapper.

Local Open Scope Z_scope.

(** ** Python's stable sort *)

Fixpoint insert_by {A} (x : Z * A) (l : list (Z * A)) : list (Z * A) :=
  match l with
  | [] => [x]
  | y :: l' => if x.1 <=? y.1 then x :: l else y :: insert_by x l'
  end.

Definition sort_by_key {A} (l : list (Z * A)) : list (Z * A) := foldr insert_by [] l.

(** Each element with its key; computing a key may raise. *)
Fixpoint with_keys {A} (key : A -> result Z) (l : list A) : result (list (Z * A)) :=
  match l with
  | [] => Ok []
  | x :: l => k ← key x; rest ← with_keys key l; Ok ((k, x) :: rest)
  end.

(** [sorted(l, key=key)] *)
Definition py_sorted {A} (key : A -> result Z) (l : list A) : result (list A) :=
  keyed ← with_keys key l; Ok (sort_by_key keyed).*2.

(** ** [merge_and_sort_multimodal_metadata] *)

Abbreviation dict V := (list (string * V)).

(** [placeholder_list\[0\]\['offset'\]] *)
Definition first_offset (ps : list PlaceholderRange) : result Z :=
  p ← or_raise IndexError (head ps); Ok (offset p).

(** The flattening loop with its check for interleaving. *)
Fixpoint merge_placeholders (merged : list PlaceholderRange) (lists : dict (list PlaceholderRange)) :
    result (list PlaceholderRange) :=
  match lists with
  | [] => Ok merged
  | (_, ps) :: lists =>
      _ ← match last merged with
          | None => Ok tt
          | Some q => o ← first_offset ps; if o <? offset q then Err ValueError else Ok tt
          end;
      merge_placeholders (merged ++ ps) lists
  end.

(** The placeholder lists of several modalities, sorted by their first placeholder,
    and the hash lists in the same order. *)
Definition sort_modalities (mm_positions : dict (list PlaceholderRange))
    (mm_hashes : option (dict (list string))) :
    result (dict (list PlaceholderRange) * option (list (list string))) :=
  match mm_hashes with
  | None => l ← py_sorted (fun x => first_offset x.2) mm_positions; Ok (l, None)
  | Some hs =>
      let hashes_lists := omap (fun m => od_get m hs) (mm_positions.*1 : list string) in
      pairs ← py_sorted (fun x => first_offset x.1.2) (zip mm_positions hashes_lists);
      (* unpacking the transposed pairs raises when there are none *)
      match pairs with [] => Err ValueError | _ => Ok (pairs.*1, Some pairs.*2) end
  end.

(** More than one modality, or none. *)
Definition merge_modalities (mm_positions : dict (list PlaceholderRange))
    (mm_hashes : option (dict (list string))) :
    result (list string * list PlaceholderRange * option (list string)) :=
  '(sorted_placeholder_lists, sorted_hash_lists) ← sort_modalities mm_positions mm_hashes;
  merged ← merge_placeholders [] sorted_placeholder_lists;
  Ok (sorted_placeholder_lists.*1, merged, match sorted_hash_lists with Some l => Some (concat l) | None => None end).

Definition merge_and_sort_multimodal_metadata (mm_positions : dict (list PlaceholderRange))
    (mm_hashes : option (dict (list string))) :
    result (list string * list PlaceholderRange * option (list string)) :=
  _ ← py_assert (0 <? len mm_positions);
  match mm_positions, mm_hashes with
  | [(m, ps)], None => Ok ([m], ps, None)
  | [(m, ps)], Some hs => h ← or_raise KeyError (od_get m hs); Ok ([m], ps, Some h)
  | _, _ => merge_modalities mm_positions mm_hashes
  end.

(** ** [process_inputs] *)

(** [multi_modal_data]: the output of a merged processor, items per modality, or
    raw data whose ["image"] entry goes through the model's input mapper (the
    handles are the mapper's results). *)
Inductive MultiModalData : Type :=
  | MMProcessed (items : dict (list MMKwargs))
  | MMRaw (images : option (list MMKwargs)).

(** What [SingletonInputsAdapter] reads. *)
Record SingletonInputs : Type := mkSingletonInputs {
  in_prompt : option string;
  in_prompt_token_ids : list Z;
  in_mm_data : MultiModalData;
  in_mm_hashes : dict (list string);
  in_mm_placeholders : dict (list PlaceholderRange);
}.

Inductive ProcessorInputs : Type :=
  | DecoderOnly (inputs : SingletonInputs)
  | EncoderDecoder (encoder decoder : SingletonInputs).

Record Processor : Type := mkProcessor {
  pr_max_model_len : Z;
  pr_is_multimodal_model : bool;
  pr_generation_eos : option (list Z);
  pr_eos_token_id : option Z;
  use_hash : bool;
  mm_input_mapper_client : MMInputMapperClient;
}.

Definition processor_init (max_model_len : Z) (is_multimodal : bool) (generation_eos : option (list Z))
    (eos : option Z) (disable_mm_preprocessor_cache enable_prefix_caching : bool) : Processor :=
  mkProcessor max_model_len is_multimodal generation_eos eos
    (negb disable_mm_preprocessor_cache || enable_prefix_caching)
    (mm_client_init disable_mm_preprocessor_cache).

Definition with_client (p : Processor) (c : MMInputMapperClient) : Processor :=
  mkProcessor (pr_max_model_len p) (pr_is_multimodal_model p) (pr_generation_eos p)
    (pr_eos_token_id p) (use_hash p) c.

Definition _validate_model_inputs (p : Processor) (inputs : ProcessorInputs) : result unit :=
  let prompt_inputs := match inputs with
                       | EncoderDecoder enc dec => if pr_is_multimodal_model p then dec else enc
                       | DecoderOnly i => i
                       end in
  let n := len (in_prompt_token_ids prompt_inputs) in
  if n =? 0 then Err ValueError
  else if pr_max_model_len p <=? n then Err ValueError
  else if pr_is_multimodal_model p && (pr_max_model_len p <? n) then Err ValueError
  else Ok tt.

(** One [MultiModalKwargs] per item, with its modality. *)
Definition split_items (items : dict (list MMKwargs)) : dict MMKwargs :=
  concat ((fun mi : string * list MMKwargs => (fun x => (mi.1, x)) <$> mi.2) <$> items).

(** [{modality: order for order, modality in enumerate(modalities)}\[m\]] *)
Definition modality_order (modalities : list string) (m : string) : result Z :=
  '(i, _) ← or_raise KeyError (list_find (m =.) modalities); Ok (Z.of_nat i).

(** The inputs in the order of the placeholders. *)
Definition sort_mm_inputs (modalities : list string) (precomputed : dict MMKwargs) :
    result (list MMKwargs) :=
  if bool_decide (1 < length modalities)%nat && negb (bool_decide (precomputed = [])) then
    l ← py_sorted (fun x => modality_order modalities x.1) precomputed; Ok l.*2
  else Ok precomputed.*2.

Definition mapper_inputs (modalities : list string) (d : MultiModalData) : result (list MMKwargs) :=
  match d with
  | MMProcessed items => sort_mm_inputs modalities (split_items items)
  | MMRaw images => or_raise KeyError images
  end.

Definition request_hashes (p : Processor) (i : SingletonInputs) (prompt_hashes : option (dict (list string))) :
    option (dict (list string)) :=
  if use_hash p then
    match in_mm_hashes i with [] => prompt_hashes | hs => Some hs end
  else None.

Definition process_inputs (p : Processor) (request_id : string) (inputs : ProcessorInputs)
    (params : SamplingParams) (prompt_hashes : option (dict (list string))) :
    result (Processor * EngineCoreRequest) :=
  _ ← _validate_model_inputs p inputs;
  match inputs with
  | EncoderDecoder _ _ => Err NotImplementedError
  | DecoderOnly i =>
      let sampling_params := update_from_generation_config params (pr_generation_eos p) (pr_eos_token_id p) in
      let mm_hashes := request_hashes p i prompt_hashes in
      '(p, mm) ←
        match in_mm_placeholders i with
        | [] => Ok (p, (None, None, None))
        | mm_positions =>
            '(modalities, positions, hashes) ← merge_and_sort_multimodal_metadata mm_positions mm_hashes;
            mm_inputs ← mapper_inputs modalities (in_mm_data i);
            '(c, sent) ← client_process_inputs (mm_input_mapper_client p) mm_inputs hashes;
            Ok (with_client p c, (Some sent, hashes, Some positions))
        end;
      let '(inputs, hashes, positions) := mm in
      Ok (p, mkEngineCoreRequest request_id (in_prompt i) (in_prompt_token_ids i) inputs hashes positions
               sampling_params (pr_eos_token_id p))
  end.

(** ** The stable sort *)

Section sort.
Context {A : Type}.
Implicit Types (l : list (Z * A)).

Lemma insert_by_perm x l : insert_by x l ≡ₚ x :: l.
Proof.
  induction l as [|y l IH]; [done|]. cbn [insert_by]. case_match; [done|].
  rewrite IH. apply Permutation_swap.
Qed.

Lemma sort_by_key_perm l : sort_by_key l ≡ₚ l.
Proof. induction l as [|x l IH]; [done|]. simpl. by rewrite insert_by_perm, IH. Qed.

Abbreviation by_key := (fun x y : Z * A => x.1 <= y.1).

Lemma insert_by_sorted x l : StronglySorted by_key l -> StronglySorted by_key (insert_by x l).
Proof.
  induction 1 as [|y l Hs IH Hall]; cbn [insert_by]; [by repeat constructor|].
  destruct (Z.leb_spec x.1 y.1) as [Hle|Hgt].
  - constructor; [by constructor|]. constructor; [done|]. eapply Forall_impl; [exact Hall|].
    intros z Hz. simpl in *. lia.
  - constructor; [done|]. rewrite insert_by_perm. constructor; [simpl; lia|done].
Qed.

Lemma sort_by_key_sorted l : StronglySorted by_key (sort_by_key l).
Proof. induction l; [constructor|by apply insert_by_sorted]. Qed.

(** Inserting goes in front of the elements with the same key. *)
Lemma insert_by_groups x (F : Z -> list (Z * A)) (ks : list Z) :
  StronglySorted Z.lt ks -> (∀ k y, y ∈ F k -> y.1 = k) -> x.1 ∈ ks ->
  insert_by x (concat (F <$> ks)) = concat ((fun k => if decide (x.1 = k) then x :: F k else F k) <$> ks).
Proof.
  intros Hs HF. induction Hs as [|k ks Hs IH Hall]; intros Hx; [set_solver|].
  rewrite !fmap_cons. cbn [concat].
  assert (Hskip : ∀ l1 l2, Forall (fun y => y.1 < x.1) l1 -> insert_by x (l1 ++ l2) = l1 ++ insert_by x l2).
  { intros l1 l2. induction 1 as [|y l1 Hy _ IHl]; [done|]. simpl.
    destruct (Z.leb_spec x.1 y.1); [lia|]. by rewrite IHl. }
  case_decide as Hd.
  - assert (Hrest : (fun k' => if decide (x.1 = k') then x :: F k' else F k') <$> ks = F <$> ks).
    { apply list_fmap_ext. intros i k' Hk'. rewrite decide_False; [done|]. intros E.
      rewrite Forall_forall in Hall. specialize (Hall k' (list_elem_of_lookup_2 _ _ _ Hk')). lia. }
    rewrite Hrest. change ((x :: F k) ++ concat (F <$> ks)) with (x :: F k ++ concat (F <$> ks)).
    destruct (F k ++ concat (F <$> ks)) as [|y l] eqn:E; [done|]. cbn [insert_by].
    destruct (Z.leb_spec x.1 y.1) as [|Hlt]; [done|]. exfalso.
    assert (Hy : y ∈ F k ++ concat (F <$> ks)) by (rewrite E; by left).
    apply elem_of_app in Hy as [Hy%HF|Hy]; [lia|].
    apply elem_of_concat in Hy as (l' & Hl' & Hy).
    apply list_elem_of_fmap in Hl' as (k' & -> & Hk'). apply HF in Hy.
    rewrite Forall_forall in Hall. specialize (Hall k' Hk'). lia.
  - apply elem_of_cons in Hx as [Hx|Hx]; [done|].
    rewrite Hskip; [by rewrite IH|]. apply Forall_forall. intros y ->%HF.
    rewrite Forall_forall in Hall. by apply Hall.
Qed.

(** A stable sort is the concatenation of the groups of equal keys, each in the
    original order. *)
Lemma sort_by_key_groups l (ks : list Z) :
  StronglySorted Z.lt ks -> (∀ x, x ∈ l -> x.1 ∈ ks) ->
  sort_by_key l = concat ((fun k => filter (fun x : Z * A => x.1 = k) l) <$> ks).
Proof.
  intros Hs. induction l as [|x l IH]; intros Hl.
  - simpl. clear Hs Hl. induction ks as [|k ks IH]; [done|]. rewrite fmap_cons. cbn [concat]. by rewrite <-IH.
  - change (sort_by_key (x :: l)) with (insert_by x (sort_by_key l)).
    rewrite IH by (intros; apply Hl; by right).
    rewrite insert_by_groups; [|done|by intros k y [? _]%list_elem_of_filter|apply Hl; by left].
    f_equal.
Qed.
End sort.

Lemma with_keys_Ok {A} (f : A -> result Z) (k : A -> Z) l :
  (∀ x, x ∈ l -> f x = Ok (k x)) -> with_keys f l = Ok ((fun x => (k x, x)) <$> l).
Proof.
  induction l as [|x l IH]; intros Hf; [done|]. cbn [with_keys]. rewrite Hf by by left.
  cbn [mbind result_bind]. rewrite IH by (intros; apply Hf; by right). done.
Qed.

Lemma py_sorted_Ok {A} (f : A -> result Z) (k : A -> Z) l :
  (∀ x, x ∈ l -> f x = Ok (k x)) ->
  ∃ l', py_sorted f l = Ok l' ∧ l' ≡ₚ l ∧ StronglySorted (fun x y => k x <= k y) l'.
Proof.
  intros Hf. unfold py_sorted. rewrite (with_keys_Ok f k l Hf). cbn [mbind result_bind].
  set (kl := (fun x => (k x, x)) <$> l). exists (sort_by_key kl).*2. split; [done|].
  assert (Hp : (sort_by_key kl).*2 ≡ₚ l).
  { rewrite (sort_by_key_perm kl). unfold kl. by rewrite <-list_fmap_compose, list_fmap_id. }
  split; [done|]. pose proof (sort_by_key_sorted kl) as Hs.
  assert (Hk : ∀ y, y ∈ sort_by_key kl -> y.1 = k y.2).
  { intros y. rewrite sort_by_key_perm. by intros (x & -> & _)%list_elem_of_fmap. }
  clear Hp. induction Hs as [|y ys Hs IH Hall]; [constructor|]. rewrite fmap_cons. constructor.
  - apply IH. intros z Hz. apply Hk. by right.
  - apply Forall_fmap. rewrite Forall_forall in *. intros z Hz. simpl.
    rewrite <-(Hk y), <-(Hk z) by set_solver. by apply Hall.
Qed.

(** An arrangement with strictly increasing keys is the sorted list. *)
Lemma py_sorted_unique {A} (f : A -> result Z) (k : A -> Z) l l' :
  (∀ x, x ∈ l -> f x = Ok (k x)) -> l' ≡ₚ l -> StronglySorted (fun x y => k x < k y) l' ->
  py_sorted f l = Ok l'.
Proof.
  intros Hf Hp Hs. destruct (py_sorted_Ok f k l Hf) as (l1 & -> & Hp1 & Hs1). f_equal.
  assert (Hinj : ∀ x y, x ∈ l' -> y ∈ l' -> k x = k y -> x = y).
  { clear -Hs. induction Hs as [|z l Hs IH Hall]; [set_solver|]. rewrite Forall_forall in Hall.
    intros x y [->|Hx]%elem_of_cons [->|Hy]%elem_of_cons E; [done| | |by apply IH].
    - specialize (Hall y Hy). simpl in *. lia.
    - specialize (Hall x Hx). simpl in *. lia. }
  eapply (StronglySorted_unique_strong (fun x y => k x <= k y)); [|done| |by rewrite Hp1].
  - intros x y Hx Hy ??. apply Hinj; [by rewrite Hp, <-Hp1|done|lia].
  - clear -Hs. induction Hs; constructor; [done|]. eapply Forall_impl; [done|]. simpl. lia.
Qed.

(** ** Multi-modal items *)

(** An item of the prompt: where it goes, its hash and its tensors. *)
Record MMItem : Type := mkItem { it_place : PlaceholderRange; it_hash : string; it_input : MMKwargs }.

(** The items per modality, and what the dicts of the preprocessor hold of them. *)
Abbreviation mm_groups := (dict (list MMItem)).
Definition per_group {B} (f : MMItem -> B) (gs : mm_groups) : dict (list B) :=
  (fun g : string * list MMItem => (g.1, f <$> g.2)) <$> gs.
Definition all_items (gs : mm_groups) : list MMItem := concat gs.*2.

Definition it_offset (x : MMItem) : Z := offset (it_place x).
Abbreviation before := (fun x y => it_offset x < it_offset y).

(** The items of the groups, one group after the other, are in prompt order. *)
Definition in_order (gs : mm_groups) : Prop := StronglySorted before (all_items gs).

(** What the preprocessor promises: every modality has items, in prompt order. *)
Record groups_ok (gs : mm_groups) : Prop := {
  go_some : gs ≠ [];
  go_names : NoDup gs.*1;
  go_group : ∀ g, g ∈ gs -> g.2 ≠ [] ∧ StronglySorted before g.2;
  go_places : NoDup (it_offset <$> all_items gs);
}.

Lemma all_items_perm gs gs' : gs' ≡ₚ gs -> all_items gs' ≡ₚ all_items gs.
Proof. intros Hp. unfold all_items. by rewrite Hp. Qed.

Lemma groups_ok_perm gs gs' : gs' ≡ₚ gs -> groups_ok gs -> groups_ok gs'.
Proof.
  intros Hp [H1 H2 H3 H4]. split.
  - intros ->. by apply Permutation_nil in Hp.
  - by rewrite Hp.
  - intros g. rewrite Hp. apply H3.
  - by rewrite (all_items_perm _ _ Hp).
Qed.

Lemma concat_per_group {B} (f : MMItem -> B) gs : concat (per_group f gs).*2 = f <$> all_items gs.
Proof.
  unfold per_group, all_items. induction gs as [|g gs IH]; [done|].
  rewrite !fmap_cons. cbn [concat snd]. by rewrite fmap_app, IH.
Qed.

(** The first offset of a group; the groups of an arrangement in prompt order have
    increasing first offsets. *)
Definition group_key (g : string * list MMItem) : Z := from_option it_offset 0 (head g.2).

Lemma in_order_keys gs : (∀ g, g ∈ gs -> g.2 ≠ []) -> in_order gs ->
  StronglySorted (fun g h => group_key g < group_key h) gs.
Proof.
  unfold in_order, all_items. intros Hne. induction gs as [|g gs IH]; intros Hs; [constructor|].
  rewrite fmap_cons in Hs. cbn [concat] in Hs. apply StronglySorted_app in Hs as (Hc & Hs1 & Hs2).
  constructor; [apply IH; [intros; apply Hne; by right|done]|].
  apply Forall_forall. intros h Hh. unfold group_key.
  pose proof (Hne g ltac:(by left)). pose proof (Hne h ltac:(by right)).
  destruct g as [m [|x xs]], h as [m' [|y ys]]; try done. simpl in *.
  apply Hc; [by left|]. apply elem_of_concat. exists (y :: ys). split; [|by left].
  apply list_elem_of_fmap. by exists (m', y :: ys).
Qed.

Abbreviation no_later := (fun x y => it_offset x <= it_offset y).

Lemma before_no_later (xs : list MMItem) : StronglySorted before xs -> StronglySorted no_later xs.
Proof. induction 1; constructor; [done|]. eapply Forall_impl; [done|]. simpl. lia. Qed.

(** The flattening loop returns the items in order, or finds them interleaved. *)
Lemma merge_placeholders_cases gs xs :
  (∀ g, g ∈ gs -> g.2 ≠ [] ∧ StronglySorted before g.2) -> StronglySorted no_later xs ->
  let r := merge_placeholders (it_place <$> xs) (per_group it_place gs) in
  (r = Ok (it_place <$> xs ++ all_items gs) ∧ StronglySorted no_later (xs ++ all_items gs)) ∨
  (r = Err ValueError ∧ ¬ StronglySorted no_later (xs ++ all_items gs)).
Proof.
  revert xs. induction gs as [|[m ys] gs IH]; intros xs Hg Hxs r; subst r.
  { left. unfold all_items. simpl. by rewrite app_nil_r. }
  destruct (Hg (m, ys) ltac:(by left)) as [Hne Hys]. simpl in Hne, Hys.
  apply before_no_later in Hys as Hys'.
  assert (Hg' : ∀ g, g ∈ gs -> g.2 ≠ [] ∧ StronglySorted before g.2) by (intros; apply Hg; by right).
  unfold all_items. rewrite fmap_cons. cbn [concat snd]. fold (all_items gs).
  change (per_group it_place ((m, ys) :: gs)) with ((m, it_place <$> ys) :: per_group it_place gs).
  cbn [merge_placeholders]. destruct ys as [|y ys]; [done|]. rewrite fmap_last, app_assoc.
  assert (Hjoin : (∀ x, last xs = Some x -> it_offset x <= it_offset y) <-> StronglySorted no_later (xs ++ y :: ys)).
  { rewrite StronglySorted_app. split.
    - intros Hl. split_and!; try done. intros x1 x2 Hx1 Hx2.
      destruct (last xs) as [z|] eqn:Hz; [|apply last_None in Hz; subst; set_solver].
      specialize (Hl z eq_refl). apply last_Some in Hz as [l' ->].
      apply StronglySorted_app in Hxs as (Hc & _).
      assert (it_offset x1 <= it_offset z).
      { apply elem_of_app in Hx1 as [Hx1|Hx1]; [apply Hc; set_solver|].
        apply list_elem_of_singleton in Hx1 as ->. lia. }
      apply StronglySorted_inv in Hys' as [_ Hall]. rewrite Forall_forall in Hall.
      apply elem_of_cons in Hx2 as [->|Hx2]; [lia|]. specialize (Hall x2 Hx2). simpl in Hall. lia.
    - intros (Hc & _) x Hx. apply Hc; [|by left]. apply last_Some in Hx as [l' ->]. set_solver. }
  destruct (last xs) as [z|] eqn:Hz; cbn [fmap option_fmap option_map mbind result_bind].
  - unfold first_offset. cbn [fmap list_fmap head or_raise mbind result_bind].
    change (offset (it_place y)) with (it_offset y). change (offset (it_place z)) with (it_offset z).
    destruct (Z.ltb_spec (it_offset y) (it_offset z)) as [Hlt|Hge]; cbn [mbind result_bind].
    + right. split; [done|]. intros Hs%StronglySorted_app_1_l. apply Hjoin with (x := z) in Hs; [lia|done].
    + change (it_place y :: list_fmap _ _ it_place ys) with (it_place <$> y :: ys).
      rewrite <-fmap_app. apply IH; [done|]. apply Hjoin. by intros x [= ->].
  - change (it_place y :: list_fmap _ _ it_place ys) with (it_place <$> y :: ys).
    rewrite <-fmap_app. apply IH; [done|]. by apply Hjoin.
Qed.

Lemma no_later_before (xs : list MMItem) :
  NoDup (it_offset <$> xs) -> StronglySorted no_later xs -> StronglySorted before xs.
Proof.
  intros Hnd Hs. induction Hs as [|x xs Hs IH Hall]; [constructor|].
  rewrite fmap_cons in Hnd. apply NoDup_cons in Hnd as [Hx Hnd]. constructor; [by apply IH|].
  rewrite Forall_forall in *. intros y Hy. specialize (Hall y Hy). simpl in *.
  assert (it_offset x ≠ it_offset y); [|lia]. intros E. apply Hx. rewrite E. by apply list_elem_of_fmap_2.
Qed.

(** ** Sorting the modalities *)

Definition on_values {A B} (h : A -> B) (l : list (Z * A)) : list (Z * B) := (fun x => (x.1, h x.2)) <$> l.

Lemma insert_by_fmap {A B} (h : A -> B) x l :
  insert_by (x.1, h x.2) (on_values h l) = on_values h (insert_by x l).
Proof.
  unfold on_values. induction l as [|y l IH]; [done|]. rewrite fmap_cons. cbn [insert_by fst].
  case_match; [done|]. rewrite fmap_cons. by f_equal.
Qed.

Lemma sort_by_key_fmap {A B} (h : A -> B) l : sort_by_key (on_values h l) = on_values h (sort_by_key l).
Proof.
  induction l as [|x l IH]; [done|]. cbn [sort_by_key foldr]. fold (sort_by_key l).
  rewrite <-insert_by_fmap, <-IH. done.
Qed.

Lemma py_sorted_fmap {A B} (h : A -> B) (f : B -> result Z) (l : list A) :
  py_sorted f ((h <$> l) : list B) =
    match py_sorted (fun x => f (h x)) l with Ok l' => Ok (h <$> l') | Err e => Err e end.
Proof.
  unfold py_sorted.
  assert (with_keys f (h <$> l) =
    match with_keys (fun x => f (h x)) l with Ok kl => Ok (on_values h kl) | Err e => Err e end) as ->.
  { induction l as [|x l IH]; [done|]. rewrite fmap_cons. cbn [with_keys]. rewrite IH.
    by destruct (f (h x)); [destruct (with_keys _ l)|]. }
  destruct (with_keys _ l) as [kl|]; [|done]. cbn [mbind result_bind]. f_equal.
  rewrite sort_by_key_fmap. unfold on_values. by rewrite <-!list_fmap_compose.
Qed.

(** The dict of hashes, if there is one, holds the hashes of every group. *)
Definition hashes_ok (hs : option (dict (list string))) (gs : mm_groups) : Prop :=
  match hs with
  | None => True
  | Some d => ∀ g, g ∈ gs -> od_get g.1 d = Some (it_hash <$> g.2)
  end.

(** The hashes of the request, given the arrangement of the groups. *)
Definition sorted_hashes (hs : option (dict (list string))) (gs : mm_groups) : option (list string) :=
  match hs with None => None | Some _ => Some (it_hash <$> all_items gs) end.

Lemma first_offset_group (g : string * list MMItem) :
  g.2 ≠ [] -> first_offset (it_place <$> g.2) = Ok (group_key g).
Proof. destruct g as [m [|x xs]]; done. Qed.

Lemma sort_modalities_spec gs hs :
  groups_ok gs -> hashes_ok hs gs ->
  ∃ gs', gs' ≡ₚ gs ∧
    sort_modalities (per_group it_place gs) hs =
      Ok (per_group it_place gs', match hs with None => None | Some _ => Some (per_group it_hash gs').*2 end) ∧
    (∀ gs'', gs'' ≡ₚ gs -> in_order gs'' -> gs'' = gs').
Proof.
  intros Hok Hhs.
  assert (Hkey : ∀ g, g ∈ gs -> first_offset (it_place <$> g.2) = Ok (group_key g)).
  { intros g Hg. apply first_offset_group. by apply (go_group _ Hok). }
  destruct (py_sorted_Ok (fun g : string * list MMItem => first_offset (it_place <$> g.2)) group_key gs Hkey)
    as (gs' & Es & Hp & _).
  exists gs'. split; [done|]. split.
  - unfold sort_modalities. destruct hs as [d|].
    + assert (zip (per_group it_place gs) (omap (fun m => od_get m d) ((per_group it_place gs).*1 : list string)) =
        (fun g : string * list MMItem => ((g.1, it_place <$> g.2), it_hash <$> g.2)) <$> gs) as ->.
      { clear -Hhs. simpl in Hhs. induction gs as [|g gs IH]; [done|].
        unfold per_group in *. rewrite !fmap_cons. cbn [omap list_omap fst].
        rewrite (Hhs g ltac:(by left)). cbn [zip_with]. f_equal. apply IH. intros; apply Hhs; by right. }
      rewrite py_sorted_fmap. cbn [fst snd]. rewrite Es. cbn [mbind result_bind].
      destruct gs' as [|g gs']; [by apply Permutation_nil_l in Hp as <-; destruct (go_some _ Hok)|].
      unfold per_group. by rewrite <-!list_fmap_compose.
    + unfold per_group at 1. rewrite py_sorted_fmap. cbn [fst snd]. by rewrite Es.
  - intros gs'' Hp'' Ho.
    pose proof (groups_ok_perm _ _ Hp'' Hok) as Hok''.
    assert (Hs : StronglySorted (fun g h => group_key g < group_key h) gs'').
    { apply in_order_keys; [|done]. intros g Hg. by apply (go_group _ Hok''). }
    pose proof (py_sorted_unique _ group_key gs gs'' Hkey Hp'' Hs). congruence.
Qed.

(** The arrangement in prompt order, if there is one. *)
Lemma merge_cases gs hs :
  groups_ok gs -> hashes_ok hs gs ->
  (∀ gs', gs' ≡ₚ gs -> in_order gs' ->
     merge_and_sort_multimodal_metadata (per_group it_place gs) hs =
       Ok (gs'.*1, it_place <$> all_items gs', sorted_hashes hs gs')) ∧
  ((∀ gs', gs' ≡ₚ gs -> ¬ in_order gs') ->
     merge_and_sort_multimodal_metadata (per_group it_place gs) hs = Err ValueError).
Proof.
  intros Hok Hhs.
  destruct (sort_modalities_spec gs hs Hok Hhs) as (gs0 & Hp0 & Es & Huniq).
  pose proof (groups_ok_perm _ _ Hp0 Hok) as Hok0.
  pose proof (merge_placeholders_cases gs0 [] (go_group _ Hok0) ltac:(constructor)) as Hm.
  cbn [fmap list_fmap app] in Hm.
  assert (Hsort : merge_modalities (per_group it_place gs) hs =
    match merge_placeholders [] (per_group it_place gs0) with
    | Ok ps => Ok (gs0.*1, ps, sorted_hashes hs gs0) | Err e => Err e end).
  { unfold merge_modalities. rewrite Es. cbn [mbind result_bind].
    destruct (merge_placeholders [] _); [|done]. cbn [mbind result_bind]. do 2 f_equal.
    - f_equal. unfold per_group. by rewrite <-list_fmap_compose.
    - unfold sorted_hashes. destruct hs; [|done]. by rewrite concat_per_group. }
  assert (Hmerge : merge_and_sort_multimodal_metadata (per_group it_place gs) hs =
    match merge_placeholders [] (per_group it_place gs0) with
    | Ok ps => Ok (gs0.*1, ps, sorted_hashes hs gs0) | Err e => Err e end).
  { unfold merge_and_sort_multimodal_metadata. destruct gs as [|[m xs] [|g gs]].
    - by destruct (go_some _ Hok).
    - apply Permutation_singleton_r in Hp0 as ->. unfold sorted_hashes, all_items. simpl.
      rewrite !app_nil_r. destruct hs as [d|]; [|done]. by rewrite (Hhs (m, xs) ltac:(by left) : od_get m d = _).
    - rewrite <-Hsort. simpl. by destruct hs. }
  rewrite Hmerge. split.
  - intros gs' Hp' Ho. pose proof (Huniq gs' Hp' Ho) as ->.
    destruct Hm as [[-> _]|[_ Hn]]; [done|]. destruct Hn. exact (before_no_later _ Ho).
  - intros Hno. destruct Hm as [[_ Hs]|[-> _]]; [|done]. destruct (Hno gs0 Hp0).
    apply no_later_before; [apply (go_places _ Hok0)|done].
Qed.

(** Multi-modal metadata is merged in prompt order or refused.  If the items of
    the modalities can be laid out modality by modality in prompt order, the function
    returns that layout: the modalities, the placeholders sorted by offset, and the
    hash of every placeholder at the same index.  If they cannot (modalities
    interleave), it raises [ValueError]. *)
Theorem merge_metadata_correct gs hs :
  groups_ok gs -> hashes_ok hs gs ->
  (∀ gs', gs' ≡ₚ gs -> in_order gs' ->
     merge_and_sort_multimodal_metadata (per_group it_place gs) hs =
       Ok (gs'.*1, it_place <$> all_items gs', sorted_hashes hs gs')) ∧
  ((∀ gs', gs' ≡ₚ gs -> ¬ in_order gs') ->
     merge_and_sort_multimodal_metadata (per_group it_place gs) hs = Err ValueError).
Proof. apply merge_cases. Qed.

Definition demo_groups : mm_groups :=
  [("audio", [mkItem (mkPlaceholder 9 2) "a" 3%nat]);
   ("image", [mkItem (mkPlaceholder 1 3) "x" 1%nat; mkItem (mkPlaceholder 5 3) "y" 2%nat])].
Definition demo_hashes : dict (list string) := [("image", ["x"; "y"]); ("audio", ["a"])].

Lemma demo_groups_ok : groups_ok demo_groups ∧ hashes_ok (Some demo_hashes) demo_groups.
Proof.
  split; [split|].
  - done.
  - apply (bool_decide_unpack _). by vm_compute.
  - intros g [->|[->|Hg]%elem_of_cons]%elem_of_cons; [| |by apply elem_of_nil in Hg];
      (split; [done|repeat (constructor; try done)]).
  - apply (bool_decide_unpack _). by vm_compute.
  - intros g [->|[->|Hg]%elem_of_cons]%elem_of_cons; [done|done|by apply elem_of_nil in Hg].
Qed.

Lemma merge_metadata_correct_witness :
  merge_and_sort_multimodal_metadata (per_group it_place demo_groups) (Some demo_hashes) =
    Ok (["image"; "audio"], [mkPlaceholder 1 3; mkPlaceholder 5 3; mkPlaceholder 9 2], Some ["x"; "y"; "a"])%string.
Proof.
  destruct demo_groups_ok as [Hg Hh].
  apply (proj1 (merge_metadata_correct demo_groups (Some demo_hashes) Hg Hh) (reverse demo_groups)).
  - apply Permutation_swap.
  - repeat (constructor; try done).
Defined.

(** ** Sorting the inputs *)

Lemma filter_ext_in {A} (P Q : A -> Prop) `{∀ x, Decision (P x)} `{∀ x, Decision (Q x)} (l : list A) :
  (∀ x, x ∈ l -> P x <-> Q x) -> filter P l = filter Q l.
Proof.
  induction l as [|x l IH]; intros HPQ; [done|]. rewrite !filter_cons.
  rewrite IH by (intros; apply HPQ; by right). specialize (HPQ x ltac:(by left)).
  repeat case_decide; tauto.
Qed.

Lemma filter_all {A} (P : A -> Prop) `{∀ x, Decision (P x)} (l : list A) :
  (∀ x, x ∈ l -> P x) -> filter P l = l.
Proof.
  induction l as [|x l IH]; intros HP; [done|]. rewrite filter_cons, decide_True by (apply HP; by left).
  f_equal. apply IH. intros; apply HP; by right.
Qed.

Lemma filter_none {A} (P : A -> Prop) `{∀ x, Decision (P x)} (l : list A) :
  (∀ x, x ∈ l -> ¬ P x) -> filter P l = [].
Proof.
  induction l as [|x l IH]; intros HP; [done|]. rewrite filter_cons, decide_False by (apply HP; by left).
  apply IH. intros; apply HP; by right.
Qed.

Lemma elem_of_split_items items x :
  x ∈ split_items items <-> ∃ l, (x.1, l) ∈ items ∧ x.2 ∈ l.
Proof.
  unfold split_items. rewrite elem_of_concat. split.
  - intros (l & ([m k] & -> & Hg)%list_elem_of_fmap & (y & -> & Hy)%list_elem_of_fmap). by exists k.
  - intros (l & Hg & Hx). eexists. split; [by apply (list_elem_of_fmap_2 _ _ _ Hg)|].
    apply list_elem_of_fmap. exists x.2. by destruct x.
Qed.

Lemma fmap_concat {A B} (f : A -> B) (ls : list (list A)) : (f <$> concat ls : list B) = concat ((fun l : list A => (f <$> l : list B)) <$> ls).
Proof. induction ls as [|l ls IH]; [done|]. rewrite fmap_cons. cbn [concat]. by rewrite fmap_app, IH. Qed.

Lemma filter_fmap_key {A} (k : A -> Z) (z : Z) (l : list A) :
  (filter (fun y : Z * A => y.1 = z) ((fun x => (k x, x)) <$> l)).*2 = filter (fun x => k x = z) l.
Proof.
  induction l as [|x l IH]; [done|]. rewrite fmap_cons, !filter_cons. cbn [fst].
  case_decide; [|done]. rewrite fmap_cons. by f_equal.
Qed.

(** The items of one modality. *)
Lemma split_items_filter items m l :
  NoDup items.*1 -> (m, l) ∈ items ->
  (filter (fun x : string * MMKwargs => x.1 = m) (split_items items)).*2 = l.
Proof.
  unfold split_items. induction items as [|[m' l'] items IH]; intros Hnd Hin; [by apply elem_of_nil in Hin|].
  rewrite fmap_cons in Hnd. apply NoDup_cons in Hnd as [Hm Hnd].
  rewrite fmap_cons. cbn [concat fst snd]. fold (split_items items) in *. rewrite filter_app, fmap_app.
  apply elem_of_cons in Hin as [[= -> ->]|Hin].
  - rewrite filter_all by (by intros x (? & -> & _)%list_elem_of_fmap).
    rewrite filter_none; [|intros x (k & Hk & _)%elem_of_split_items <-; apply Hm;
      by apply (list_elem_of_fmap_2 fst _ _ Hk)].
    rewrite app_nil_r, <-list_fmap_compose. apply list_fmap_id.
  - rewrite filter_none; [by apply IH|]. intros x (? & -> & _)%list_elem_of_fmap. simpl. intros ->.
    apply Hm. by apply (list_elem_of_fmap_2 fst _ _ Hin).
Qed.

(** The position of a modality. *)
Definition mod_index (mods : list string) (m : string) : Z :=
  from_option (fun p : nat * string => Z.of_nat p.1) 0 (list_find (m =.) mods).

Lemma modality_order_lookup mods i m :
  NoDup mods -> mods !! i = Some m ->
  modality_order mods m = Ok (Z.of_nat i) ∧ mod_index mods m = Z.of_nat i.
Proof.
  intros Hnd Hi. assert (list_find (m =.) mods = Some (i, m)) as E.
  { apply list_find_Some. split_and!; [done|done|]. intros j y Hj Hlt ->.
    pose proof (NoDup_lookup _ _ _ _ Hnd Hi Hj). lia. }
  unfold modality_order, mod_index. by rewrite E.
Qed.

Lemma seqZ_fmap_lookup {A B} (f : Z -> list B) (h : A -> list B) (l : list A) (base : Z) :
  (∀ i x, l !! i = Some x -> f (base + Z.of_nat i) = h x) ->
  concat (f <$> seqZ base (len l)) = concat (h <$> l).
Proof.
  revert base. induction l as [|x l IH]; intros base Hf; [done|].
  rewrite seqZ_cons by (simpl; lia). rewrite !fmap_cons. cbn [concat]. f_equal.
  - rewrite <-(Hf 0%nat x eq_refl). f_equal. lia.
  - replace (Z.pred (len (x :: l))) with (len l) by (simpl; lia). apply IH.
    intros i y Hy. rewrite <-(Hf (S i) y Hy). f_equal. lia.
Qed.

Lemma seqZ_sorted a n : StronglySorted Z.lt (seqZ a (Z.of_nat n)).
Proof.
  revert a. induction n as [|n IH]; intros a; [constructor|]. rewrite seqZ_cons by lia.
  replace (Z.pred (Z.of_nat (S n))) with (Z.of_nat n) by lia. constructor; [apply IH|].
  apply Forall_forall. intros x [? _]%elem_of_seqZ. lia.
Qed.

Lemma sort_mm_inputs_spec gs items :
  groups_ok gs -> items ≡ₚ per_group it_input gs ->
  sort_mm_inputs gs.*1 (split_items items) = Ok (it_input <$> all_items gs).
Proof.
  intros Hok Hp. assert (Hkeys : items.*1 ≡ₚ gs.*1).
  { rewrite Hp. unfold per_group. by rewrite <-list_fmap_compose. }
  assert (Hnd : NoDup items.*1) by (rewrite Hkeys; apply (go_names _ Hok)).
  assert (Hin : ∀ g, g ∈ gs -> (g.1, it_input <$> g.2) ∈ items).
  { intros g Hg. rewrite Hp. apply list_elem_of_fmap. by exists g. }
  unfold sort_mm_inputs. case_bool_decide as Hlen; cbn [andb].
  - case_bool_decide as Hnil; cbn [negb].
    { exfalso. destruct gs as [|g gs]; [by destruct (go_some _ Hok)|].
      destruct (go_group _ Hok g ltac:(by left)) as [Hne _]. destruct g as [m [|x xs]]; [done|].
      assert (Hx : (m, it_input x) ∈ split_items items).
      { apply elem_of_split_items. eexists. split; [apply (Hin (m, x :: xs)); by left|by left]. }
      rewrite Hnil in Hx. by apply elem_of_nil in Hx. }
    set (mods := gs.*1). assert (Hmod : ∀ i g, gs !! i = Some g -> mods !! i = Some g.1).
    { intros i g Hg. unfold mods. by rewrite list_lookup_fmap, Hg. }
    assert (Hord : ∀ x, x ∈ split_items items -> ∃ i g, gs !! i = Some g ∧ x.1 = g.1 ∧
      modality_order mods x.1 = Ok (Z.of_nat i) ∧ mod_index mods x.1 = Z.of_nat i).
    { intros x (l & Hl & _)%elem_of_split_items. rewrite Hp in Hl.
      apply list_elem_of_fmap in Hl as (g & [= E _] & [i Hi]%list_elem_of_lookup).
      exists i, g. split; [done|]. split; [done|]. rewrite E.
      apply (modality_order_lookup mods i g.1 (go_names _ Hok) (Hmod _ _ Hi)). }
    unfold py_sorted. rewrite (with_keys_Ok _ (fun x => mod_index mods x.1)).
    2: { intros x Hx. destruct (Hord x Hx) as (i & g & _ & _ & -> & ->). done. }
    cbn [mbind result_bind]. f_equal.
    rewrite (sort_by_key_groups _ (seqZ 0 (len gs))).
    2: { apply seqZ_sorted. }
    2: { intros y (x & -> & Hx)%list_elem_of_fmap. cbn [fst]. apply elem_of_seqZ.
         destruct (Hord x Hx) as (i & g & Hi & _ & _ & ->). apply lookup_lt_Some in Hi. lia. }
    rewrite <-(concat_per_group it_input gs), !fmap_concat, <-!list_fmap_compose.
    unfold per_group. rewrite <-list_fmap_compose.
    apply (seqZ_fmap_lookup _ (fun g : string * list MMItem => it_input <$> g.2) gs 0).
    intros i g Hi. cbn [Z.add]. unfold compose.
    rewrite <-(split_items_filter items g.1 _ Hnd (Hin g (list_elem_of_lookup_2 _ _ _ Hi))).
    rewrite filter_fmap_key. f_equal. apply filter_ext_in.
    intros x Hx. destruct (Hord x Hx) as (j & h & Hj & -> & _ & ->).
    split; [intros E; assert (i = j) as -> by lia; congruence|]. intros E.
    rewrite Z.add_0_l. f_equal.
    eapply NoDup_lookup; [apply (go_names _ Hok)|apply Hmod, Hj|]. rewrite E. by apply Hmod.
  - assert (∃ g, gs = [g]) as [[m xs] ->].
    { destruct gs as [|g [|g' gs]]; [by destruct (go_some _ Hok)|by exists g|simpl in Hlen; lia]. }
    apply Permutation_singleton_r in Hp as ->. unfold split_items, all_items. simpl.
    rewrite !app_nil_r, <-list_fmap_compose. f_equal. apply list_fmap_id.
Qed.

(** ** The whole request *)

(** A prompt that becomes a request: its length fits the model, and it has no multi-modal
    items ([gs = []]), or it has been through the merged multi-modal processor
    ([MMProcessed]), its items can be arranged modality by modality in prompt order, as
    [gs] (interleaved modalities are refused), there are hashes for all of them (hashing is
    on), and the hashes determine the items ([F]). *)
Record prompt_ok (p : Processor) (F : string -> MMKwargs) (i : SingletonInputs)
    (ph : option (dict (list string))) (gs : mm_groups) : Prop := {
  po_len : 0 < len (in_prompt_token_ids i) < pr_max_model_len p;
  po_places : in_mm_placeholders i ≡ₚ per_group it_place gs;
  po_groups : gs ≠ [] -> groups_ok gs ∧ in_order gs;
  po_inputs : gs ≠ [] -> ∃ items, in_mm_data i = MMProcessed items ∧ items ≡ₚ per_group it_input gs;
  po_hashes : gs ≠ [] -> ∃ d, request_hashes p i ph = Some d ∧ hashes_ok (Some d) gs;
  po_hash : ∀ x, x ∈ all_items gs -> it_input x = F (it_hash x);
  po_fit : ∀ x, x ∈ all_items gs -> it_offset x + length_ (it_place x) <= len (in_prompt_token_ids i);
}.

(** The multi-modal part of the request: the items in prompt order.  The server
    recovers the inputs that the client left out. *)
Definition mm_part (F : string -> MMKwargs) (c c' : MMInputMapperClient) (srv : MMInputMapperServer)
    (gs : mm_groups) (req : EngineCoreRequest) : Prop :=
  match gs with
  | [] => ecr_mm_placeholders req = None ∧ ecr_mm_hashes req = None ∧ ecr_mm_inputs req = None ∧ c' = c
  | _ => ecr_mm_placeholders req = Some (it_place <$> all_items gs) ∧
      ecr_mm_hashes req = Some (it_hash <$> all_items gs) ∧
      ∃ sent srv', ecr_mm_inputs req = Some sent ∧ length sent = length (all_items gs) ∧
        server_process_inputs srv sent (it_hash <$> all_items gs) =
          Ok (srv', Some <$> (it_input <$> all_items gs)) ∧
        mirrored F c' srv'
  end.

Lemma validate_Ok p i :
  0 < len (in_prompt_token_ids i) < pr_max_model_len p -> _validate_model_inputs p (DecoderOnly i) = Ok tt.
Proof.
  intros H. unfold _validate_model_inputs.
  rewrite (proj2 (Z.eqb_neq _ _)) by lia.
  rewrite (proj2 (Z.leb_gt (pr_max_model_len p) (len (in_prompt_token_ids i)))) by lia.
  rewrite (proj2 (Z.ltb_ge (pr_max_model_len p) (len (in_prompt_token_ids i)))) by lia.
  by rewrite andb_false_r.
Qed.

Lemma process_inputs_spec p rid i params ph F srv gs :
  prompt_ok p F i ph gs -> mirrored F (mm_input_mapper_client p) srv ->
  ∃ c' req, process_inputs p rid (DecoderOnly i) params ph = Ok (with_client p c', req) ∧
    ecr_request_id req = rid ∧ ecr_prompt_token_ids req = in_prompt_token_ids i ∧
    ecr_sampling_params req =
      update_from_generation_config params (pr_generation_eos p) (pr_eos_token_id p) ∧
    mm_part F (mm_input_mapper_client p) c' srv gs req.
Proof.
  intros [Hlen Hpl Hgs Hin Hhs HF _] Hm. unfold process_inputs. rewrite validate_Ok by done.
  cbn [mbind result_bind]. destruct gs as [|g gs].
  - apply Permutation_nil_r in Hpl. rewrite Hpl. cbn [mbind result_bind].
    exists (mm_input_mapper_client p). eexists. split; [by destruct p|]. by split_and!.
  - destruct (Hgs ltac:(done)) as [Hok Hord], (Hin ltac:(done)) as (items & Ed & Hit),
      (Hhs ltac:(done)) as (d & Eh & Hd). clear Hgs Hin Hhs. set (gs' := g :: gs) in *.
    apply Permutation_map_inv in Hpl as (gs0 & Hpl & Hp).
    assert (Hok0 : groups_ok gs0) by (eapply groups_ok_perm; [symmetry|]; done).
    assert (Hd0 : hashes_ok (Some d) gs0) by (intros x; rewrite <-Hp; apply Hd).
    change (List.map _ gs0) with (per_group it_place gs0) in Hpl.
    rewrite Hpl. destruct (per_group it_place gs0) as [|q qs] eqn:Eq.
    { destruct gs0; [by destruct (go_some _ Hok0)|done]. }
    rewrite <-Eq, Eh.
    rewrite (proj1 (merge_cases gs0 (Some d) Hok0 Hd0) gs' Hp Hord).
    cbn [mbind result_bind]. rewrite Ed. unfold mapper_inputs.
    rewrite (sort_mm_inputs_spec gs' items Hok Hit). cbn [mbind result_bind].
    assert (it_input <$> all_items gs' = F <$> (it_hash <$> all_items gs')) as Ei.
    { rewrite <-list_fmap_compose. apply list_fmap_ext. intros j x Hx. apply HF.
      by eapply list_elem_of_lookup_2. }
    destruct (mirrored_process F (it_hash <$> all_items gs') _ srv Hm) as (c' & sent & srv' & Ec & Hl & Es & Hm').
    cbn [sorted_hashes]. rewrite Ei, Ec. cbn [mbind result_bind]. eexists _, _. split; [done|]. split_and!; [done..|].
    subst gs'. cbn [mm_part]. split_and!; [done..|]. exists sent, srv'.
    rewrite length_fmap in Hl. by rewrite Ei.
Qed.

(** The prompt whose length is checked, and the check. *)
Definition checked_prompt (p : Processor) (inputs : ProcessorInputs) : SingletonInputs :=
  match inputs with
  | EncoderDecoder enc dec => if pr_is_multimodal_model p then dec else enc
  | DecoderOnly i => i
  end.

Lemma validate_cases p inputs :
  let n := len (in_prompt_token_ids (checked_prompt p inputs)) in
  _validate_model_inputs p inputs = if decide (0 < n < pr_max_model_len p) then Ok tt else Err ValueError.
Proof.
  intros n. unfold _validate_model_inputs. change (match inputs with DecoderOnly i => i | EncoderDecoder enc dec => _ end) with (checked_prompt p inputs).
  fold n. destruct (Z.eqb_spec n 0); [rewrite decide_False by lia; done|].
  destruct (Z.leb_spec (pr_max_model_len p) n); [rewrite decide_False by lia; done|].
  rewrite (proj2 (Z.ltb_ge (pr_max_model_len p) n)) by lia. rewrite andb_false_r, decide_True; [done|].
  pose proof (Zle_0_nat (length (in_prompt_token_ids (checked_prompt p inputs)))). lia.
Qed.

Lemma process_interleaved p rid i params ph gs :
  0 < len (in_prompt_token_ids i) < pr_max_model_len p -> in_mm_placeholders i ≡ₚ per_group it_place gs -> groups_ok gs ->
  hashes_ok (request_hashes p i ph) gs -> (∀ gs', gs' ≡ₚ gs -> ¬ in_order gs') ->
  process_inputs p rid (DecoderOnly i) params ph = Err ValueError.
Proof.
  intros Hlen Hpl Hok Hd Hno. unfold process_inputs. rewrite validate_Ok by done. cbn [mbind result_bind].
  apply Permutation_map_inv in Hpl as (gs0 & Hpl & Hp).
  assert (Hok0 : groups_ok gs0) by (eapply groups_ok_perm; [symmetry|]; done).
  assert (Hd0 : hashes_ok (request_hashes p i ph) gs0) by (destruct (request_hashes p i ph); [|done]; intros x; rewrite <-Hp; apply Hd).
  change (List.map _ gs0) with (per_group it_place gs0) in Hpl. rewrite Hpl.
  destruct (per_group it_place gs0) as [|q qs] eqn:Eq.
  { destruct gs0; [by destruct (go_some _ Hok0)|done]. }
  rewrite <-Eq, (proj2 (merge_cases gs0 _ Hok0 Hd0)); [done|]. intros gs' Hp'. apply Hno. by rewrite Hp', Hp.
Qed.

(** C31: processing a prompt.  The length of the prompt (for an encoder-decoder prompt that
    of the decoder part in multi-modal models, of the encoder part otherwise) must be
    positive and below the model's context; if not, [ValueError] is raised.  Otherwise:
    an encoder-decoder prompt raises [NotImplementedError]; a prompt without placeholders
    becomes a request with its id, its tokens and completed sampling parameters, without
    multi-modal fields, and the client's cache is unchanged; a prompt whose modalities
    interleave (each modality's items in prompt order, but no order of the modalities
    puts all items in prompt order) raises [ValueError]; and a prompt of the merged
    multi-modal processor with hashes for all items, whose modalities do not interleave
    ([prompt_ok]), becomes a request with its items in prompt order, placeholder, hash
    and input of an item at the same index, such that what the client's cache lets it
    leave out, the server's mirrored cache restores. *)
Theorem process_inputs_correct p rid params ph :
  (∀ inputs, ¬ (0 < len (in_prompt_token_ids (checked_prompt p inputs)) < pr_max_model_len p) ->
     process_inputs p rid inputs params ph = Err ValueError) ∧
  (∀ enc i, 0 < len (in_prompt_token_ids (checked_prompt p (EncoderDecoder enc i))) < pr_max_model_len p ->
     process_inputs p rid (EncoderDecoder enc i) params ph = Err NotImplementedError) ∧
  (∀ i, 0 < len (in_prompt_token_ids i) < pr_max_model_len p -> in_mm_placeholders i = [] ->
     process_inputs p rid (DecoderOnly i) params ph =
       Ok (p, mkEngineCoreRequest rid (in_prompt i) (in_prompt_token_ids i) None None None
                (update_from_generation_config params (pr_generation_eos p) (pr_eos_token_id p)) (pr_eos_token_id p))) ∧
  (∀ i gs, 0 < len (in_prompt_token_ids i) < pr_max_model_len p -> in_mm_placeholders i ≡ₚ per_group it_place gs -> groups_ok gs ->
     hashes_ok (request_hashes p i ph) gs -> (∀ gs', gs' ≡ₚ gs -> ¬ in_order gs') ->
     process_inputs p rid (DecoderOnly i) params ph = Err ValueError) ∧
  (∀ i F srv gs, prompt_ok p F i ph gs -> mirrored F (mm_input_mapper_client p) srv ->
     ∃ c' req, process_inputs p rid (DecoderOnly i) params ph = Ok (with_client p c', req) ∧
       ecr_request_id req = rid ∧ ecr_prompt_token_ids req = in_prompt_token_ids i ∧
       ecr_sampling_params req =
         update_from_generation_config params (pr_generation_eos p) (pr_eos_token_id p) ∧
       mm_part F (mm_input_mapper_client p) c' srv gs req).
Proof.
  split_and!.
  - intros inputs Hbad. unfold process_inputs. by rewrite validate_cases, decide_False.
  - intros enc i Hl. unfold process_inputs. by rewrite validate_cases, decide_True.
  - intros i Hl Hp. unfold process_inputs. by rewrite validate_Ok, Hp.
  - intros i gs. apply process_interleaved.
  - intros i F srv gs. apply process_inputs_spec.
Qed.

Definition demo_inputs : SingletonInputs :=
  mkSingletonInputs None (replicate 12 7) (MMProcessed [("image", [1; 2]%nat); ("audio", [3]%nat)])
    demo_hashes (per_group it_place demo_groups).
Definition demo_processor : Processor := processor_init 20 true None (Some 2) false true.

(** The inputs of the demo items by their hashes. *)
Definition demo_input (h : string) : MMKwargs :=
  if decide (h = "x"%string) then 1%nat else if decide (h = "y"%string) then 2%nat else 3%nat.

Lemma demo_prompt_ok : prompt_ok demo_processor demo_input demo_inputs None (reverse demo_groups).
Proof.
  destruct demo_groups_ok as [Hg Hh]. split.
  - by vm_compute.
  - apply Permutation_swap.
  - intros _. split; [eapply groups_ok_perm; [apply Permutation_swap|exact Hg]|].
    repeat (constructor; try done).
  - intros _. eexists. split; [done|]. done.
  - intros _. exists demo_hashes. split; [done|]. intros g.
    rewrite (reverse_Permutation demo_groups). apply Hh.
  - intros x. rewrite list_elem_of_In. intros [<-|[<-|[<-|[]]]]; reflexivity.
  - intros x. rewrite list_elem_of_In. intros [<-|[<-|[<-|[]]]]; by vm_compute.
Qed.

Lemma process_inputs_correct_witness :
  ∃ c' req, process_inputs demo_processor "r" (DecoderOnly demo_inputs) (plain_sampling (Some 4)) None =
      Ok (with_client demo_processor c', req) ∧
    ecr_mm_placeholders req = Some [mkPlaceholder 1 3; mkPlaceholder 5 3; mkPlaceholder 9 2].
Proof.
  destruct (process_inputs_correct demo_processor "r" (plain_sampling (Some 4)) None) as (_ & _ & _ & _ & H).
  destruct (H demo_inputs demo_input (mm_server_init false) (reverse demo_groups) demo_prompt_ok (mirrored_init _))
    as (c' & req & E & _ & _ & _ & Hmm).
  exists c', req. split; [exact E|]. apply Hmm.
Defined.
