(* ===== verification/MMProcessing.v ===== *)
(** * The multi-modal prompt processor (multimodal/processing.py)

    [BaseMultiModalProcessor] turns a prompt with images, audio or video into token ids
    in which every item has as many placeholder tokens as it has features, and reports
    where they are: the [mm_placeholders] that the input processor, the scheduler and the
    worker go by.  Token and text prompts are both lists of integers (ids, code points).

    Parameters: the tokenizer, the HF processor with its dummy text, the hash of an item,
    and what a model subclass supplies ([_get_prompt_replacements], whether an item is
    passed through).  Items are given as the parser left them.  Memoisation
    ([_cached_encode], [_cached_decode], [_replacement_cache]) does not change results
    and is left out. *)

From stdpp Require Import base tactics list gmap sets strings.
From Stdlib Require Import ZArith Lia.
From S2P Require Import Prelude.
From S2P Require Import Request.
From S2P Require Import MMMapper.
From S2P Require Import Processor.

Local Open Scope Z_scope.

(** ** Replacements *)

(** Text or token ids. *)
Inductive PromptSeq : Type :=
  | PromptText (text : pystr)
  | PromptTokens (token_ids : list Z).

Record PromptReplacementDetails : Type := mkDetails {
  rd_full : PromptSeq;
  rd_features : PromptSeq;
}.

Definition from_seq (seq : PromptSeq) : PromptReplacementDetails := mkDetails seq seq.

Inductive PromptRepl : Type :=
  | ReplSeq (seq : PromptSeq)
  | ReplDetails (d : PromptReplacementDetails).

(** The field [replacement]: a value, or a function of the item's index. *)
Inductive Replacement : Type :=
  | ReplConst (r : PromptRepl)
  | ReplCallable (f : Z -> PromptRepl).

(** [PromptReplacement], and [BoundPromptReplacement] with the tokenizer in context. *)
Record PromptReplacement : Type := mkReplacement {
  modality : string;
  target : PromptSeq;
  replacement : Replacement;
}.

Class PromptTokenizer : Type := {
  encode_tokens : pystr -> list Z;
  decode_tokens : list Z -> pystr;
}.

(** A match of a target; [start_idx] and [end_idx] are indices into the prompt. *)
Record PromptMatch : Type := mkMatch {
  prompt_repl : PromptReplacement;
  start_idx : nat;
  end_idx : nat;
}.

Record PlaceholderFeaturesInfo : Type := mkPlaceholderInfo {
  pi_modality : string;
  pi_item_idx : Z;
  pi_start_idx : nat;
  pi_tokens : list Z;
}.

Definition to_range (p : PlaceholderFeaturesInfo) : PlaceholderRange :=
  mkPlaceholder (Z.of_nat (pi_start_idx p)) (len (pi_tokens p)).

(** [full_groupby]: a dict in the order of first appearance. *)
Definition groupby_add {A} (key : A -> string) (x : A) (groups : dict (list A)) : dict (list A) :=
  od_set (key x) (default [] (od_get (key x) groups) ++ [x]) groups.
Definition full_groupby {A} (key : A -> string) (l : list A) : dict (list A) :=
  foldl (fun groups x => groupby_add key x groups) [] l.

(** ** Matching *)

(** The loop of [iter_token_matches]; its condition is
    [start_idx < prompt_len - match_len + 1]. *)
Fixpoint token_match_loop (fuel : nat) (token_ids match_ids : list Z) (start : nat) : result (list (nat * nat)) :=
  match fuel with
  | O => Err OutOfFuel
  | S fuel =>
      if (start + length match_ids <=? length token_ids)%nat then
        let end_ := (start + length match_ids)%nat in
        if decide (slice token_ids start end_ = match_ids)
        then l ← token_match_loop fuel token_ids match_ids end_; Ok ((start, end_) :: l)
        else token_match_loop fuel token_ids match_ids (S start)
      else Ok []
  end.

Definition iter_token_matches (token_ids match_ids : list Z) : result (list (nat * nat)) :=
  match match_ids with
  | [] => Ok []
  | _ => token_match_loop (S (length token_ids)) token_ids match_ids 0
  end.

(** [re.finditer(re.escape(pattern), text)]: an empty pattern matches everywhere. *)
Definition finditer (pattern text : pystr) : result (list (nat * nat)) :=
  match pattern with
  | [] => Ok ((fun i => (i, i)) <$> seq 0 (S (length text)))
  | _ => iter_token_matches text pattern
  end.

Section processing.
Context `{!PromptTokenizer}.

Definition seq_text (s : PromptSeq) : pystr := match s with PromptText t => t | PromptTokens l => decode_tokens l end.
Definition seq_token_ids (s : PromptSeq) : list Z := match s with PromptText t => encode_tokens t | PromptTokens l => l end.

Definition get_replacement (r : PromptReplacement) (item_idx : Z) : PromptReplacementDetails :=
  let repl := match replacement r with ReplConst x => x | ReplCallable f => f item_idx end in
  match repl with ReplSeq s => from_seq s | ReplDetails d => d end.

Fixpoint find_token_matches (prompt : list Z) (repls : list PromptReplacement) : result (list PromptMatch) :=
  match repls with
  | [] => Ok []
  | r :: repls =>
      l ← iter_token_matches prompt (seq_token_ids (target r));
      rest ← find_token_matches prompt repls;
      Ok (((fun m => mkMatch r m.1 m.2) <$> l) ++ rest)
  end.

Fixpoint find_text_matches (prompt : pystr) (repls : list PromptReplacement) : result (list PromptMatch) :=
  match repls with
  | [] => Ok []
  | r :: repls =>
      l ← finditer (seq_text (target r)) prompt;
      rest ← find_text_matches prompt repls;
      Ok (((fun m => mkMatch r m.1 m.2) <$> l) ++ rest)
  end.

(** The matches for every modality. *)
Fixpoint find_all (find : list PromptReplacement -> result (list PromptMatch)) (repls : dict (list PromptReplacement)) :
    result (dict (list PromptMatch)) :=
  match repls with
  | [] => Ok []
  | (m, rs) :: repls => l ← find rs; rest ← find_all find repls; Ok ((m, l) :: rest)
  end.

(** ** Replacing *)

(** [seen_matches\[idx\] = match], if it was None. *)
Definition mark_seen (idx : nat) (seen : list bool) : result (list bool) :=
  b ← or_raise IndexError (seen !! idx);
  if (b : bool) then Err ValueError else Ok (<[idx := true]> seen).

Definition mark_match (m : PromptMatch) (seen : list bool) : result (list bool) :=
  for_each mark_seen (seq (start_idx m) (end_idx m - start_idx m)) seen.

Definition _resolve_matches (prompt_len : nat) (mm_matches : dict (list PromptMatch)) : result (list PromptMatch) :=
  let matches := concat mm_matches.*2 in
  _ ← for_each mark_match matches (replicate prompt_len false);
  Ok (sort_by_key ((fun m => (Z.of_nat (start_idx m), m)) <$> matches)).*2.

(** The loop of [_replace_matches] over the resolved matches; [repl] reads the text or
    the token ids of a replacement. *)
Fixpoint replace_loop (repl : PromptSeq -> list Z) (prompt : list Z) (mm_item_counts : dict Z) (matches : list PromptMatch)
    (prev_end_idx : nat) (next_idx : gmap string Z) : list (list Z) :=
  match matches with
  | [] => [drop prev_end_idx prompt]
  | m :: matches =>
      let mo := modality (prompt_repl m) in
      let item_idx := default 0 (next_idx !! mo) in
      if default 0 (od_get mo mm_item_counts) <=? item_idx
      then replace_loop repl prompt mm_item_counts matches prev_end_idx next_idx
      else
        (slice prompt prev_end_idx (start_idx m) ++ repl (rd_full (get_replacement (prompt_repl m) item_idx))) ::
        replace_loop repl prompt mm_item_counts matches (end_idx m) (<[mo := item_idx + 1]> next_idx)
  end.

Definition _replace_matches (repl : PromptSeq -> list Z) (prompt : list Z) (mm_matches : dict (list PromptMatch)) (mm_item_counts : dict Z) :
    result (list (list Z)) :=
  matches ← _resolve_matches (length prompt) mm_matches;
  Ok (replace_loop repl prompt mm_item_counts matches 0 ∅).

Definition replace_token_matches (prompt : list Z) (mm_matches : dict (list PromptMatch)) (mm_item_counts : dict Z) : result (list Z) :=
  match mm_matches with
  | [] => Ok prompt
  | _ => l ← _replace_matches seq_token_ids prompt mm_matches mm_item_counts; Ok (concat l)
  end.

Definition replace_text_matches (prompt : pystr) (mm_matches : dict (list PromptMatch)) (mm_item_counts : dict Z) : result pystr :=
  match mm_matches with
  | [] => Ok prompt
  | _ => l ← _replace_matches seq_text prompt mm_matches mm_item_counts; Ok (concat l)
  end.

(** ** Finding placeholders *)

(** The loop over the replacements of one modality at one position; the second
    component is where the search goes on. *)
Fixpoint try_repls (prompt : list Z) (start : nat) (mo : string) (item_idx : Z) (repls : list PromptReplacement) :
    result (option (PlaceholderFeaturesInfo * nat)) :=
  match repls with
  | [] => Ok None
  | r :: repls =>
      let d := get_replacement r item_idx in
      let full := seq_token_ids (rd_full d) in
      let end_full := (start + length full)%nat in
      if (length full =? 0)%nat || (length prompt <? end_full)%nat then try_repls prompt start mo item_idx repls
      else if decide (slice prompt start end_full = full) then
        let feat := seq_token_ids (rd_features d) in
        l ← iter_token_matches full feat;
        m ← or_raise AssertionError (head l);
        Ok (Some (mkPlaceholderInfo mo item_idx (start + m.1) feat, end_full))
      else try_repls prompt start mo item_idx repls
  end.

Fixpoint try_modalities (prompt : list Z) (start : nat) (mm_item_counts : dict Z) (item_idx_by_modality : gmap string Z)
    (repls : dict (list PromptReplacement)) : result (option (PlaceholderFeaturesInfo * nat)) :=
  match repls with
  | [] => Ok None
  | (mo, rs) :: repls =>
      let item_idx := default 0 (item_idx_by_modality !! mo) in
      if default 0 (od_get mo mm_item_counts) <=? item_idx
      then try_modalities prompt start mm_item_counts item_idx_by_modality repls
      else
        x ← try_repls prompt start mo item_idx rs;
        match x with
        | Some y => Ok (Some y)
        | None => try_modalities prompt start mm_item_counts item_idx_by_modality repls
        end
  end.

Fixpoint placeholder_loop (fuel : nat) (repls : dict (list PromptReplacement)) (prompt : list Z) (mm_item_counts : dict Z)
    (start : nat) (item_idx_by_modality : gmap string Z) : result (list PlaceholderFeaturesInfo) :=
  match fuel with
  | O => Err OutOfFuel
  | S fuel =>
      if (start <? length prompt)%nat then
        x ← try_modalities prompt start mm_item_counts item_idx_by_modality repls;
        match x with
        | Some (p, end_full) =>
            l ← placeholder_loop fuel repls prompt mm_item_counts end_full
                  (<[pi_modality p := pi_item_idx p + 1]> item_idx_by_modality);
            Ok (p :: l)
        | None => placeholder_loop fuel repls prompt mm_item_counts (S start) item_idx_by_modality
        end
      else Ok []
  end.

Definition _iter_placeholders (repls : dict (list PromptReplacement)) (prompt : list Z) (mm_item_counts : dict Z) :
    result (list PlaceholderFeaturesInfo) :=
  placeholder_loop (S (length prompt)) repls prompt mm_item_counts 0 ∅.

Definition find_mm_placeholders (repls : dict (list PromptReplacement)) (prompt : list Z) (mm_item_counts : dict Z) :
    result (dict (list PlaceholderFeaturesInfo)) :=
  l ← _iter_placeholders repls prompt mm_item_counts; Ok (full_groupby pi_modality l).

(** ** Applying the replacements *)

(** [{modality: [match.prompt_repl for match in matches]}] *)
Definition matched_repls (mm_matches : dict (list PromptMatch)) : dict (list PromptReplacement) :=
  (fun x : string * list PromptMatch => (x.1, prompt_repl <$> x.2)) <$> mm_matches.

Definition enough_matches (mm_matches : dict (list PromptMatch)) (mm_item_counts : dict Z) : bool :=
  forallb (fun x => x.2 <=? from_option (fun l => len l) 0 (od_get x.1 mm_matches)) mm_item_counts.

Definition _apply_prompt_replacements (token_ids : list Z) (repls : dict (list PromptReplacement)) (mm_item_counts : dict Z) :
    result (list Z * pystr * dict (list PlaceholderFeaturesInfo)) :=
  mm_token_matches ← find_all (find_token_matches token_ids) repls;
  x ← (if enough_matches mm_token_matches mm_item_counts then
         token_ids ← replace_token_matches token_ids mm_token_matches mm_item_counts;
         Ok (token_ids, decode_tokens token_ids, matched_repls mm_token_matches)
       else
         let text := decode_tokens token_ids in
         mm_text_matches ← find_all (find_text_matches text) repls;
         text ← replace_text_matches text mm_text_matches mm_item_counts;
         Ok (encode_tokens text, text, matched_repls mm_text_matches));
  let '(token_ids, text, matched) := x in
  placeholders ← find_mm_placeholders matched token_ids mm_item_counts;
  Ok (token_ids, text, placeholders).

(** ** Validation *)

(** [_validate_mm_kwargs]: the number of processed items of every modality. *)
Definition _validate_mm_kwargs {KwItem} (mm_kwargs : dict (list KwItem)) (mm_item_counts : dict Z) : result unit :=
  if forallb (fun x => len (default [] (od_get x.1 mm_kwargs)) =? x.2) mm_item_counts then Ok tt else Err RuntimeError.

Fixpoint _validate_mm_placeholders (allow_missing : bool) (mm_placeholders : dict (list PlaceholderFeaturesInfo)) (mm_item_counts : dict Z) :
    result (dict Z) :=
  match mm_item_counts with
  | [] => Ok []
  | (mo, n) :: counts =>
      let k := len (default [] (od_get mo mm_placeholders)) in
      if negb (k =? n) && negb allow_missing then Err RuntimeError
      else rest ← _validate_mm_placeholders allow_missing mm_placeholders counts; Ok ((mo, n - k) :: rest)
  end.

(** The replacements the HF processor did not make: all or none of a modality. *)
Fixpoint missing_repls (mm_prompt_repls : dict (list PromptReplacement)) (mm_item_counts missing : dict Z) :
    result (dict (list PromptReplacement)) :=
  match missing with
  | [] => Ok []
  | (mo, n) :: missing =>
      rs ← (if n =? 0 then Ok []
            else if n =? default 0 (od_get mo mm_item_counts) then or_raise KeyError (od_get mo mm_prompt_repls)
            else Err ValueError);
      rest ← missing_repls mm_prompt_repls mm_item_counts missing;
      Ok ((mo, rs) :: rest)
  end.

(** [{**a, **b}] *)
Definition dict_merge {A} (a b : dict A) : dict A := foldl (fun d x => od_set x.1 x.2 d) a b.

(** The part of [apply] after the HF processor: from the token ids it returned to the
    final ids, text and placeholders.  [always]: [_always_apply_prompt_replacements]. *)
Definition place_items (always : bool) (prompt_ids : list Z) (mm_prompt_repls : dict (list PromptReplacement)) (mm_item_counts : dict Z) :
    result (list Z * pystr * dict (list PlaceholderFeaturesInfo)) :=
  hf ← find_mm_placeholders mm_prompt_repls prompt_ids mm_item_counts;
  x ← (if always then Ok (mm_item_counts, mm_prompt_repls)
       else
         missing ← _validate_mm_placeholders true hf mm_item_counts;
         repls ← missing_repls mm_prompt_repls mm_item_counts missing;
         Ok (missing, repls));
  let '(missing_counts, repls) := x in
  y ← (if forallb (fun r => bool_decide (r.2 = [])) repls then Ok (prompt_ids, decode_tokens prompt_ids, hf)
       else
         z ← _apply_prompt_replacements prompt_ids repls missing_counts;
         Ok (z.1.1, z.1.2, dict_merge hf z.2));
  _ ← _validate_mm_placeholders false y.2 mm_item_counts;
  Ok y.
End processing.

(** ** With the HF processor *)

Section apply.
Context `{!PromptTokenizer} {Item KwItem : Type}.
(* [MultiModalKwargsItem.modality] *)
Context (kw_modality : KwItem -> string).
(* [_apply_hf_processor_text_mm]: token ids and processed items of a text with items *)
Context (hf_processor : pystr -> dict (list Item) -> result (list Z * list KwItem)).
(* [dummy_inputs.get_dummy_processor_inputs] *)
Context (dummy_text : dict Z -> pystr).
(* whether [_get_hf_mm_data] has data to pass through (embeddings) *)
Context (passthrough : dict (list Item) -> bool).
(* [MultiModalHasher.hash_kwargs] with the model id and the processor's arguments *)
Context (hash_kwargs : string -> Item -> string).
Context (get_prompt_replacements : dict (list Item) -> list KwItem -> list PromptReplacement).
Context (limit_per_prompt : dict Z) (always : bool).

Record MultiModalInputs : Type := mkMultiModalInputs {
  mmi_prompt : pystr;
  mmi_prompt_token_ids : list Z;
  mmi_mm_kwargs : list KwItem;
  mmi_mm_hashes : dict (list string);
  mmi_mm_placeholders : dict (list PlaceholderRange);
}.

Definition get_all_counts (items : dict (list Item)) : dict Z := (fun x : string * list Item => (x.1, len x.2)) <$> items.

Definition _to_mm_items (items : dict (list Item)) : result (dict (list Item)) :=
  if forallb (fun x : string * list Item => len x.2 <=? default 1 (od_get x.1 limit_per_prompt)) items then Ok items else Err ValueError.

(** [MultiModalKwargs.get_item] *)
Definition get_item (kwargs : list KwItem) (mo : string) (idx : Z) : result KwItem :=
  match full_groupby kw_modality kwargs with
  | [] => Err RuntimeError
  | groups => l ← or_raise KeyError (od_get mo groups); or_raise IndexError (l !! Z.to_nat idx)
  end.

Definition _apply_hf_processor_text_only (prompt : pystr) : result (list Z) := x ← hf_processor prompt []; Ok x.1.

Definition _apply_hf_processor_mm_only (items : dict (list Item)) : result (list KwItem) :=
  x ← hf_processor (dummy_text (get_all_counts items)) items; Ok x.2.

Definition _apply_hf_processor_main (prompt : PromptSeq) (items : dict (list Item)) (enable_hf_prompt_replacement : bool) :
    result (list Z * list KwItem) :=
  match prompt, enable_hf_prompt_replacement with
  | PromptText text, true => hf_processor text items
  | PromptText text, false =>
      ids ← _apply_hf_processor_text_only text; kw ← _apply_hf_processor_mm_only items; Ok (ids, kw)
  | PromptTokens ids, _ => kw ← _apply_hf_processor_mm_only items; Ok (ids, kw)
  end.

(** [mm_maybe_cached_kw_items]: every item with what the cache has for it. *)
Fixpoint get_cached (mo : string) (items : list Item) (c : LRUCache KwItem) : result (list (Item * option KwItem) * LRUCache KwItem) :=
  match items with
  | [] => Ok ([], c)
  | item :: items =>
      x ← lru_get c (hash_kwargs mo item) None;
      y ← get_cached mo items x.1;
      Ok ((item, x.2) :: y.1, y.2)
  end.

Fixpoint get_all_cached (items : dict (list Item)) (c : LRUCache KwItem) :
    result (dict (list (Item * option KwItem)) * LRUCache KwItem) :=
  match items with
  | [] => Ok ([], c)
  | (mo, l) :: items => x ← get_cached mo l c; y ← get_all_cached items x.2; Ok ((mo, x.1) :: y.1, y.2)
  end.

(** [mm_missing_data] *)
Definition missing_items (cached : dict (list (Item * option KwItem))) : dict (list Item) :=
  (fun x : string * list (Item * option KwItem) => (x.1, (filter (fun y => y.2 = None) x.2).*1)) <$> cached.

(** The loop over the items of one modality that merges and fills the cache. *)
Fixpoint merge_items (mo : string) (missing_kwargs : list KwItem) (l : list (Item * option KwItem)) (next_idx : Z) (c : LRUCache KwItem) :
    result (list KwItem * Z * LRUCache KwItem) :=
  match l with
  | [] => Ok ([], next_idx, c)
  | (item, Some kw) :: l => x ← merge_items mo missing_kwargs l next_idx c; Ok (kw :: x.1.1, x.1.2, x.2)
  | (item, None) :: l =>
      kw ← get_item missing_kwargs mo next_idx;
      c ← lru_put c (hash_kwargs mo item) kw;
      x ← merge_items mo missing_kwargs l (next_idx + 1) c;
      Ok (kw :: x.1.1, x.1.2, x.2)
  end.

(** All modalities; the counts at the end are [mm_missing_next_idx]. *)
Fixpoint merge_all (missing_kwargs : list KwItem) (cached : dict (list (Item * option KwItem))) (c : LRUCache KwItem) :
    result (list KwItem * dict Z * LRUCache KwItem) :=
  match cached with
  | [] => Ok ([], [], c)
  | (mo, l) :: cached =>
      x ← merge_items mo missing_kwargs l 0 c;
      y ← merge_all missing_kwargs cached x.2;
      Ok (x.1.1 ++ y.1.1, (mo, x.1.2) :: y.1.2, y.2)
  end.

Definition _cached_apply_hf_processor (cache : option (LRUCache KwItem)) (prompt : PromptSeq) (items : dict (list Item)) :
    result (list Z * list KwItem * option (LRUCache KwItem)) :=
  match cache with
  | Some c =>
      if passthrough items then x ← _apply_hf_processor_main prompt items true; Ok (x, cache)
      else
        cached ← get_all_cached items c;
        missing ← _to_mm_items (missing_items cached.1);
        x ← _apply_hf_processor_main prompt missing false;
        y ← merge_all x.2 cached.1 cached.2;
        _ ← py_assert (forallb (fun z : string * Z => bool_decide (od_get z.1 (get_all_counts missing) = Some z.2)) y.1.2);
        Ok (x.1, y.1.1, Some y.2)
  | None => x ← _apply_hf_processor_main prompt items true; Ok (x, cache)
  end.

Definition processor_apply (cache : option (LRUCache KwItem)) (prompt : PromptSeq) (mm_data : dict (list Item)) :
    result (MultiModalInputs * option (LRUCache KwItem)) :=
  mm_items ← _to_mm_items mm_data;
  let mm_hashes := (fun x : string * list Item => (x.1, hash_kwargs x.1 <$> x.2)) <$> mm_items in
  x ← _cached_apply_hf_processor cache prompt mm_items;
  let '(prompt_ids, mm_kwargs, cache) := x in
  let mm_prompt_repls := full_groupby modality (get_prompt_replacements mm_items mm_kwargs) in
  let mm_item_counts := get_all_counts mm_items in
  _ ← _validate_mm_kwargs (full_groupby kw_modality mm_kwargs) mm_item_counts;
  y ← place_items always prompt_ids mm_prompt_repls mm_item_counts;
  let '(prompt_ids, prompt, mm_placeholders) := y in
  Ok (mkMultiModalInputs prompt prompt_ids mm_kwargs mm_hashes
        ((fun z : string * list PlaceholderFeaturesInfo => (z.1, to_range <$> z.2)) <$> mm_placeholders), cache).
End apply.
