(* ===== verification/MMProcMatch.v ===== *)
(** * Finding and replacing targets

    [iter_token_matches] finds the leftmost occurrences that do not overlap,
    [_resolve_matches] accepts matches exactly when they are disjoint, and
    [_replace_matches] rewrites them in order. *)

From stdpp Require Import base tactics list gmap sets strings sorting.
From Stdlib Require Import ZArith Lia.
From S2P Require Import Prelude.
From S2P Require Import Request.
From S2P Require Import MMMapper.
From S2P Require Import Processor.
From S2P Require Import MMProcessing.

(** ** Occurrences *)

Definition occurs (l m : list Z) (i : nat) : Prop := i + length m <= length l ∧ slice l i (i + length m) = m.

#[export] Instance occurs_dec l m i : Decision (occurs l m i).
Proof. apply _. Defined.

(** What the matches of [m] from index [start] on are. *)
Record matches_ok (l m : list Z) (start : nat) (L : list (nat * nat)) : Prop := {
  mo_occurs : ∀ x, x ∈ L -> occurs l m x.1 ∧ x.2 = x.1 + length m ∧ start <= x.1;
  mo_apart : StronglySorted (fun x y => x.2 <= y.1) L;
  mo_all : ∀ i, start <= i -> occurs l m i -> ∃ x, x ∈ L ∧ x.1 <= i < x.2;
}.

Lemma token_match_loop_spec l m fuel : ∀ start, m ≠ [] -> length l - start < fuel ->
  ∃ L, token_match_loop fuel l m start = Ok L ∧ matches_ok l m start L.
Proof.
  induction fuel as [|fuel IH]; intros start Hm Hf; [lia|]. cbn [token_match_loop].
  assert (Hpos : 0 < length m) by (destruct m; [done|cbn; lia]).
  destruct (Nat.leb_spec (start + length m) (length l)) as [Hle|Hgt].
  - case_decide as Heq.
    + destruct (IH (start + length m) Hm ltac:(lia)) as (L & E & [H1 H2 H3]). rewrite E. cbn [mbind result_bind].
      eexists. split; [reflexivity|]. split.
      * intros x [->|Hx]%elem_of_cons; [done|]. destruct (H1 x Hx) as (? & ? & ?). split; [done|]. split; [done|lia].
      * constructor; [done|]. apply Forall_forall. intros x Hx. by destruct (H1 x Hx) as (_ & _ & ?).
      * intros i Hi Ho. destruct (decide (i < start + length m)).
        { exists (start, start + length m). split; [by left|]. cbn. lia. }
        destruct (H3 i ltac:(lia) Ho) as (x & Hx & Hr). exists x. split; [by right|done].
    + destruct (IH (S start) Hm ltac:(lia)) as (L & E & [H1 H2 H3]). exists L. split; [done|]. split; [|done|].
      * intros x Hx. destruct (H1 x Hx) as (? & ? & ?). split; [done|]. split; [done|lia].
      * intros i Hi Ho. destruct (decide (i = start)) as [->|]; [by destruct Ho|]. apply H3; [lia|done].
  - exists []. split; [done|]. split; [by intros x ?%not_elem_of_nil|constructor|]. intros i Hi [Ho _]. lia.
Qed.

Lemma iter_token_matches_spec l m : m ≠ [] -> ∃ L, iter_token_matches l m = Ok L ∧ matches_ok l m 0 L.
Proof.
  intros Hm. unfold iter_token_matches. destruct m as [|t m]; [done|]. apply token_match_loop_spec; [done|lia].
Qed.

Lemma iter_token_matches_total l m : ∃ L, iter_token_matches l m = Ok L ∧ (∀ x, x ∈ L -> m ≠ [] ∧ occurs l m x.1 ∧ x.2 = x.1 + length m).
Proof.
  destruct (decide (m = [])) as [->|Hm]; [exists []; split; [done|]; by intros x ?%not_elem_of_nil|].
  destruct (iter_token_matches_spec l m Hm) as (L & E & [H _ _]). exists L. split; [done|]. intros x Hx. by destruct (H x Hx) as (? & ? & _).
Qed.

(** The first match is the leftmost occurrence. *)
Lemma first_match l m i : m ≠ [] -> occurs l m i -> (∀ j, j < i -> ~ occurs l m j) ->
  ∃ L, iter_token_matches l m = Ok ((i, i + length m) :: L).
Proof.
  intros Hm Hi Hmin. destruct (iter_token_matches_spec l m Hm) as (L & E & [H1 H2 H3]).
  destruct (H3 i ltac:(lia) Hi) as (x & Hx & Hr). destruct L as [|y L]; [by apply not_elem_of_nil in Hx|].
  destruct (H1 y) as (Hy1 & Hy2 & _); [by left|]. exists L. rewrite E. do 2 f_equal.
  assert (y.1 <= x.1).
  { apply elem_of_cons in Hx as [->|Hx]; [done|]. apply StronglySorted_inv in H2 as [_ H2]. rewrite Forall_forall in H2. specialize (H2 x Hx). lia. }
  assert (y.1 = i) as Hyi by (destruct (decide (y.1 = i)); [done|]; destruct (Hmin y.1 ltac:(lia)); done).
  destruct y as [a b]. cbn in *. by subst.
Qed.

(** ** Disjoint matches *)

Definition proper_match (n : nat) (x : PromptMatch) : Prop := start_idx x < end_idx x <= n.

Lemma mark_range start n : ∀ seen, start + n <= length seen ->
  ((∀ i, start <= i < start + n -> seen !! i = Some false) ->
    ∃ seen', for_each mark_seen (seq start n) seen = Ok seen' ∧ length seen' = length seen ∧
      ∀ i, seen' !! i = if decide (start <= i < start + n) then Some true else seen !! i) ∧
  (∀ i, start <= i < start + n -> seen !! i = Some true -> ∃ e, for_each mark_seen (seq start n) seen = Err e).
Proof.
  revert start. induction n as [|n IH]; intros start seen Hlen.
  { split; [|intros i Hi; lia]. intros _. exists seen. split; [done|]. split; [done|]. intros i. rewrite decide_False by lia. done. }
  cbn [seq for_each]. destruct (lookup_lt_is_Some_2 seen start) as [b Hb]; [lia|].
  assert (E1 : mark_seen start seen = if b then Err ValueError else Ok (<[start := true]> seen)) by (unfold mark_seen; by rewrite Hb).
  rewrite E1. destruct b; cbn [mbind result_bind].
  { split; [|intros i Hi Ht; by eexists]. intros H. rewrite (H start ltac:(lia)) in Hb. done. }
  destruct (IH (S start) (<[start := true]> seen)) as [IH1 IH2]; [rewrite length_insert; lia|]. split.
  - intros H. destruct IH1 as (seen' & E & Hl & Hs).
    { intros i Hi. rewrite list_lookup_insert_ne by lia. apply H. lia. }
    exists seen'. split; [done|]. split; [by rewrite Hl, length_insert|]. intros i. rewrite Hs.
    destruct (decide (i = start)) as [->|Hne].
    + rewrite decide_False by lia. rewrite decide_True by lia. apply list_lookup_insert_eq. lia.
    + rewrite list_lookup_insert_ne by lia. repeat case_decide; try done; lia.
  - intros i Hi Ht. destruct (decide (i = start)) as [->|Hne]; [congruence|]. apply (IH2 i); [lia|]. rewrite list_lookup_insert_ne by lia. done.
Qed.

Definition disjoint_matches (x y : PromptMatch) : Prop := end_idx x <= start_idx y ∨ end_idx y <= start_idx x.

Fixpoint all_disjoint (l : list PromptMatch) : Prop :=
  match l with
  | [] => True
  | x :: l => Forall (disjoint_matches x) l ∧ all_disjoint l
  end.

#[export] Instance all_disjoint_dec l : Decision (all_disjoint l).
Proof.
  induction l as [|x l IH]; [left; exact I|]. apply and_dec; [|exact IH].
  apply Forall_dec. intros y. apply or_dec; apply _.
Defined.

Lemma all_disjoint_perm l l' : l ≡ₚ l' -> all_disjoint l -> all_disjoint l'.
Proof.
  induction 1 as [|x l l' HP IH|x y l|l1 l2 l3 _ IH1 _ IH2]; cbn; [done| | |by auto].
  - intros [H1 H2]. split; [by rewrite <-HP|by auto].
  - intros [H1 [H2 H3]]. apply Forall_cons in H1 as [H1 H4]. split; [|done]. constructor; [|done]. unfold disjoint_matches in *. tauto.
Qed.

Lemma mark_all l : ∀ seen, Forall (proper_match (length seen)) l ->
  (∃ seen', for_each mark_match l seen = Ok seen') <->
  all_disjoint l ∧ ∀ x i, x ∈ l -> start_idx x <= i < end_idx x -> seen !! i = Some false.
Proof.
  induction l as [|x l IH]; intros seen Hp.
  { split; [|by eexists]. intros _. split; [done|]. by intros x i ?%not_elem_of_nil. }
  apply Forall_cons in Hp as [Hx Hp]. cbn [for_each]. unfold proper_match in Hx.
  destruct (mark_range (start_idx x) (end_idx x - start_idx x) seen) as [Hok Hbad]; [lia|].
  assert (Hclean : (∀ i, start_idx x <= i < end_idx x -> seen !! i = Some false) ∨ ∃ i, start_idx x <= i < end_idx x ∧ seen !! i = Some true).
  { destruct (decide (Forall (fun i => seen !! i = Some false) (seq (start_idx x) (end_idx x - start_idx x)))) as [H|H].
    - left. intros i Hi. rewrite Forall_forall in H. apply H, elem_of_seq. lia.
    - right. apply not_Forall_Exists in H; [|apply _]. apply Exists_exists in H as (i & Hi%elem_of_seq & Hn). exists i. split; [lia|].
      destruct (lookup_lt_is_Some_2 seen i) as [[] E]; [lia|done|done]. }
  destruct Hclean as [Hclean|(i & Hi & Ht)].
  - destruct Hok as (seen1 & E & Hl & Hs); [intros i Hi; apply Hclean; lia|].
    assert (E1 : mark_match x seen = Ok seen1) by exact E. rewrite E1. cbn [mbind result_bind].
    rewrite (IH seen1) by (by rewrite Hl). cbn. split.
    + intros [Hd Hc]. split; [split; [|done]|].
      * apply Forall_forall. intros y Hy. rewrite Forall_forall in Hp. specialize (Hp y Hy). unfold proper_match in Hp.
        destruct (decide (end_idx x <= start_idx y)) as [|H1]; [by left|]. destruct (decide (end_idx y <= start_idx x)) as [|H2]; [by right|].
        specialize (Hc y (max (start_idx x) (start_idx y)) Hy ltac:(lia)). rewrite Hs, decide_True in Hc by lia. done.
      * intros y i [->|Hy]%elem_of_cons Hi; [by apply Hclean|]. specialize (Hc y i Hy Hi). rewrite Hs in Hc. by case_decide.
    + intros [[Hf Hd] Hc]. split; [done|]. intros y i Hy Hi. rewrite Hs. rewrite Forall_forall in Hf. destruct (Hf y Hy); rewrite decide_False by lia; apply (Hc y); try done; by right.
  - destruct (Hbad i ltac:(lia) Ht) as [e E].
    assert (E1 : mark_match x seen = Err e) by exact E. rewrite E1. cbn [mbind result_bind]. split; [by intros [? ?]|].
    intros [_ Hc]. specialize (Hc x i ltac:(by left) Hi). congruence.
Qed.

Lemma mark_range_errors n : ∀ start seen, start + n <= length seen ->
  match for_each mark_seen (seq start n) seen with Ok s => length s = length seen | Err e => e = ValueError end.
Proof.
  induction n as [|n IH]; intros start seen Hn; [done|]. cbn [seq for_each].
  destruct (lookup_lt_is_Some_2 seen start) as [b Hb]; [lia|].
  assert (E1 : mark_seen start seen = if b then Err ValueError else Ok (<[start := true]> seen)) by (unfold mark_seen; by rewrite Hb).
  rewrite E1. destruct b; cbn [mbind result_bind]; [done|].
  specialize (IH (S start) (<[start := true]> seen)). rewrite length_insert in IH. apply IH. lia.
Qed.

Lemma mark_errors l : ∀ seen, Forall (proper_match (length seen)) l ->
  match for_each mark_match l seen with Ok _ => True | Err e => e = ValueError end.
Proof.
  induction l as [|x l IH]; intros seen Hp; [done|]. apply Forall_cons in Hp as [Hx Hp]. unfold proper_match in Hx. cbn [for_each].
  pose proof (mark_range_errors (end_idx x - start_idx x) (start_idx x) seen ltac:(lia)) as He.
  assert (E1 : mark_match x seen = for_each mark_seen (seq (start_idx x) (end_idx x - start_idx x)) seen) by done.
  rewrite <-E1 in He. destruct (mark_match x seen) as [s|e]; cbn [mbind result_bind]; [|done]. apply IH. by rewrite He.
Qed.

Lemma sorted_starts (l : list PromptMatch) : ∀ k : list (Z * PromptMatch),
  k ≡ₚ (fun m => (Z.of_nat (start_idx m), m)) <$> l -> StronglySorted (fun x y : Z * PromptMatch => (x.1 <= y.1)%Z) k -> StronglySorted (fun x y => start_idx x <= start_idx y) k.*2.
Proof.
  intros k HP Hs. assert (Hk : Forall (fun y => y.1 = Z.of_nat (start_idx y.2)) k).
  { rewrite HP. apply Forall_fmap, Forall_forall. done. }
  clear HP. induction Hs as [|y k Hs IH Hf]; [constructor|]. apply Forall_cons in Hk as [Hy Hk]. rewrite fmap_cons. constructor; [by apply IH|].
  apply Forall_fmap, Forall_forall. intros z Hz. rewrite Forall_forall in Hf, Hk. specialize (Hf z Hz). specialize (Hk z Hz). cbn in Hf |- *. lia.
Qed.

Lemma sorted_sublist {A} (R : relation A) l k : l `sublist_of` k -> StronglySorted R k -> StronglySorted R l.
Proof.
  induction 1 as [|x l k Hs IH|x l k Hs IH]; intros Hk; [done| |].
  - apply StronglySorted_inv in Hk as [Hk Hx]. constructor; [by apply IH|]. rewrite Forall_forall in Hx |- *. intros y Hy. apply Hx.
    eapply elem_of_submseteq; [exact Hy|]. by apply sublist_submseteq.
  - apply StronglySorted_inv in Hk as [Hk _]. by apply IH.
Qed.

Definition in_order (x y : PromptMatch) : Prop := end_idx x <= start_idx y.

Lemma disjoint_in_order n l : Forall (proper_match n) l -> all_disjoint l ->
  StronglySorted (fun x y => start_idx x <= start_idx y) l -> StronglySorted in_order l.
Proof.
  intros Hp Hd Hs. induction Hs as [|x l Hs IH Hf]; [constructor|]. apply Forall_cons in Hp as [Hx Hp]. destruct Hd as [Hx2 Hd].
  constructor; [by apply IH|]. rewrite Forall_forall in Hp, Hf, Hx2 |- *. intros y Hy.
  specialize (Hp y Hy). specialize (Hf y Hy). specialize (Hx2 y Hy). unfold proper_match, disjoint_matches, in_order in *. lia.
Qed.

(** Disjoint matches are returned in order; others are refused. *)
Lemma resolve_spec n mm : Forall (proper_match n) (concat mm.*2) ->
  if decide (all_disjoint (concat mm.*2))
  then ∃ l, _resolve_matches n mm = Ok l ∧ l ≡ₚ concat mm.*2 ∧ StronglySorted in_order l
  else _resolve_matches n mm = Err ValueError.
Proof.
  intros Hp. unfold _resolve_matches. cbn zeta.
  destruct (mark_all (concat mm.*2) (replicate n false)) as [H1 H2]; [by rewrite length_replicate|].
  case_decide as Hd.
  - destruct H2 as [seen E].
    { split; [done|]. intros x i Hx Hi. rewrite Forall_forall in Hp. specialize (Hp x Hx). unfold proper_match in Hp. apply lookup_replicate. lia. }
    rewrite E. cbn [mbind result_bind]. eexists. split; [reflexivity|]. set (k := sort_by_key _).
    assert (HP : k ≡ₚ (fun m => (Z.of_nat (start_idx m), m)) <$> concat mm.*2) by apply sort_by_key_perm.
    assert (HP2 : k.*2 ≡ₚ concat mm.*2) by (rewrite HP, <-list_fmap_compose; by rewrite list_fmap_id).
    split; [done|]. apply (disjoint_in_order n); [by rewrite HP2|by eapply all_disjoint_perm; [symmetry; exact HP2|]|].
    eapply sorted_starts; [exact HP|]. apply sort_by_key_sorted.
  - pose proof (mark_errors (concat mm.*2) (replicate n false)) as He. rewrite length_replicate in He. specialize (He Hp).
    destruct (for_each mark_match (concat mm.*2) (replicate n false)) as [seen|e] eqn:E; cbn [mbind result_bind]; [|by subst].
    destruct Hd. apply H1. by eexists.
Qed.

(** ** Rewriting the prompt and finding the placeholders

    [_replace_matches] replaces, of the matches of a modality, as many as there are
    items, the k-th by the replacement of item k; [_iter_placeholders] reports ranges
    that select the feature tokens, in order. *)

Section replace.
Context `{TK : !PromptTokenizer}.

(** *** The matches found *)

(** [m] is a match in [prompt] of the target of one of [repls]. *)
Definition match_in (prompt : list Z) (repls : list PromptReplacement) (m : PromptMatch) : Prop :=
  prompt_repl m ∈ repls ∧ proper_match (length prompt) m ∧
  slice prompt (start_idx m) (end_idx m) = seq_token_ids (target (prompt_repl m)).

Lemma find_token_matches_spec prompt repls :
  ∃ l, find_token_matches prompt repls = Ok l ∧ Forall (match_in prompt repls) l.
Proof.
  induction repls as [|r repls IH]; [by exists []|]. cbn [find_token_matches].
  destruct (iter_token_matches_total prompt (seq_token_ids (target r))) as (L & E & HL). destruct IH as (l & El & Hl).
  rewrite E, El. cbn [mbind result_bind]. eexists. split; [reflexivity|]. apply Forall_app. split.
  - apply Forall_fmap, Forall_forall. intros x Hx. destruct (HL x Hx) as (Hne & [Hlen Hs] & Hx2). cbn.
    assert (0 < length (seq_token_ids (target r))) by (destruct (seq_token_ids _); [done|cbn; lia]).
    split; [by left|]. cbn. unfold proper_match. cbn. rewrite Hx2. split; [lia|done].
  - eapply Forall_impl; [exact Hl|]. intros m (? & ? & ?). by split; [right|].
Qed.

Lemma find_all_spec prompt repls :
  ∃ mm, find_all (find_token_matches prompt) repls = Ok mm ∧
    Forall2 (fun (x : string * list PromptReplacement) (y : string * list PromptMatch) =>
      y.1 = x.1 ∧ find_token_matches prompt x.2 = Ok y.2 ∧ Forall (match_in prompt x.2) y.2) repls mm.
Proof.
  induction repls as [|[mo rs] repls IH]; [by exists []|]. cbn [find_all].
  destruct (find_token_matches_spec prompt rs) as (l & E & Hl). destruct IH as (mm & Em & Hm).
  rewrite E, Em. cbn [mbind result_bind]. eexists. split; [reflexivity|]. by constructor.
Qed.

Lemma all_matches prompt repls mm : find_all (find_token_matches prompt) repls = Ok mm ->
  Forall (match_in prompt (concat repls.*2)) (concat mm.*2).
Proof.
  intros E. destruct (find_all_spec prompt repls) as (mm' & E' & HF). rewrite E in E'. apply Ok_inj in E' as <-. clear E.
  induction HF as [|x y repls mm (_ & _ & Hxy) Hr IH]; [constructor|]. rewrite !fmap_cons. cbn [concat]. apply Forall_app. split.
  - eapply Forall_impl; [exact Hxy|]. intros m (? & ?). split; [apply elem_of_app; by left|done].
  - eapply Forall_impl; [exact IH|]. intros m (? & ?). split; [apply elem_of_app; by right|done].
Qed.

(** *** Which matches are replaced *)

(** How many matches have modality [mo]. *)
Definition rank (mo : string) (l : list PromptMatch) : Z := len (filter (fun m => modality (prompt_repl m) = mo) l).

(** Of the matches [l] after [pre], those that stand for an item, with its index. *)
Fixpoint chosen (counts : dict Z) (pre l : list PromptMatch) : list (PromptMatch * Z) :=
  match l with
  | [] => []
  | m :: l =>
      let k := rank (modality (prompt_repl m)) pre in
      if bool_decide (k < default 0 (od_get (modality (prompt_repl m)) counts))%Z
      then (m, k) :: chosen counts (pre ++ [m]) l
      else chosen counts (pre ++ [m]) l
  end.

(** The prompt from [prev] on with [f] in place of every match. *)
Fixpoint splice (f : PromptMatch -> Z -> list Z) (prompt : list Z) (prev : nat) (es : list (PromptMatch * Z)) : list Z :=
  match es with
  | [] => drop prev prompt
  | (m, k) :: es => slice prompt prev (start_idx m) ++ f m k ++ splice f prompt (end_idx m) es
  end.

Definition full_of (repl : PromptSeq -> list Z) (m : PromptMatch) (k : Z) : list Z := repl (rd_full (get_replacement (prompt_repl m) k)).

Lemma rank_snoc mo pre m : rank mo (pre ++ [m]) = (rank mo pre + if decide (modality (prompt_repl m) = mo) then 1 else 0)%Z.
Proof.
  unfold rank. rewrite filter_app, length_app, filter_cons, filter_nil. case_decide; cbn [length]; lia.
Qed.

Lemma replace_loop_chosen repl prompt counts l : ∀ pre prev next,
  (∀ mo, default 0 (next !! mo) = Z.min (rank mo pre) (Z.max 0 (default 0 (od_get mo counts))))%Z ->
  concat (replace_loop repl prompt counts l prev next) = splice (full_of repl) prompt prev (chosen counts pre l).
Proof.
  induction l as [|m l IH]; intros pre prev next Hn; [cbn; by rewrite app_nil_r|].
  cbn [replace_loop chosen]. set (mo := modality (prompt_repl m)). pose proof (Hn mo) as Hm.
  assert (0 <= rank mo pre)%Z by (unfold rank; lia). set (c := default 0%Z (od_get mo counts)) in *.
  case_bool_decide as Hk.
  - destruct (Z.leb_spec c (default 0%Z (next !! mo))); [lia|]. cbn [concat splice].
    assert (Hi : default 0%Z (next !! mo) = rank mo pre) by lia. rewrite Hi, <-app_assoc. do 2 f_equal. apply IH.
    intros mo'. rewrite rank_snoc. fold mo. case_decide as Hmo.
    + subst mo'. rewrite lookup_insert_eq. cbn. fold c. lia.
    + rewrite lookup_insert_ne by done. rewrite Hn. lia.
  - destruct (Z.leb_spec c (default 0%Z (next !! mo))); [|lia]. apply IH. intros mo'. rewrite rank_snoc. fold mo. rewrite Hn.
    case_decide as Hmo; [subst mo'; fold c; lia|lia].
Qed.

Lemma replace_spec repl prompt counts l :
  concat (replace_loop repl prompt counts l 0 ∅) = splice (full_of repl) prompt 0 (chosen counts [] l).
Proof. apply replace_loop_chosen. intros mo. rewrite lookup_empty. cbn. unfold rank. cbn. lia. Qed.

Lemma chosen_sublist counts l : ∀ pre, (chosen counts pre l).*1 `sublist_of` l.
Proof.
  induction l as [|m l IH]; intros pre; [constructor|]. cbn [chosen]. case_bool_decide; [rewrite fmap_cons; by constructor|by constructor].
Qed.

(** Putting the matched tokens back gives the prompt. *)
Lemma splice_id f prompt es : ∀ prev,
  StronglySorted in_order es.*1 -> Forall (fun e => proper_match (length prompt) e.1) es -> (∀ m k, (m, k) ∈ es -> prev <= start_idx m) ->
  (∀ m k, (m, k) ∈ es -> f m k = slice prompt (start_idx m) (end_idx m)) -> splice f prompt prev es = drop prev prompt.
Proof.
  induction es as [|[m k] es IH]; intros prev Hs Hp Hprev Hf; [done|]. cbn [splice]. rewrite fmap_cons in Hs.
  apply StronglySorted_inv in Hs as [Hs Hm]. apply Forall_cons in Hp as [Hx Hp]. unfold proper_match in Hx. cbn in Hx.
  rewrite (Hf m k) by (by left). rewrite (IH (end_idx m) Hs Hp).
  - rewrite slice_app_drop by lia. apply slice_app_drop. apply (Hprev m k). by left.
  - intros m' k' H. rewrite Forall_forall in Hm. apply (Hm m'). apply list_elem_of_fmap. by exists (m', k').
  - intros m' k' H. apply Hf. by right.
Qed.

(** *** Placeholders *)

(** The tokens put in for item [k], and those of them that hold features. *)
Definition full_ids (r : PromptReplacement) (k : Z) : list Z := seq_token_ids (rd_full (get_replacement r k)).
Definition feature_ids (r : PromptReplacement) (k : Z) : list Z := seq_token_ids (rd_features (get_replacement r k)).

(** The features are part of the replacement. *)
Definition repl_ok (r : PromptReplacement) : Prop :=
  ∀ k, full_ids r k ≠ [] -> feature_ids r k ≠ [] ∧ ∃ i, occurs (full_ids r k) (feature_ids r k) i.

(** [p] describes the replacement by one of [repls] that takes [seg] of the prompt. *)
Definition placed (prompt : list Z) (repls : list PromptReplacement) (p : PlaceholderFeaturesInfo) (seg : nat * nat) : Prop :=
  ∃ r, r ∈ repls ∧ full_ids r (pi_item_idx p) ≠ [] ∧
    occurs prompt (full_ids r (pi_item_idx p)) seg.1 ∧ seg.2 = seg.1 + length (full_ids r (pi_item_idx p)) ∧
    pi_tokens p = feature_ids r (pi_item_idx p) ∧ pi_tokens p ≠ [] ∧
    seg.1 <= pi_start_idx p ∧ pi_start_idx p + length (pi_tokens p) <= seg.2 ∧ occurs prompt (pi_tokens p) (pi_start_idx p) ∧
    ∃ i j L, iter_token_matches (full_ids r (pi_item_idx p)) (feature_ids r (pi_item_idx p)) = Ok ((i, j) :: L) ∧ pi_start_idx p = seg.1 + i.

Lemma occurs_in (l m k : list Z) i j : occurs l m i -> occurs m k j -> occurs l k (i + j).
Proof.
  intros [H1 H2] [H3 H4]. split; [lia|]. apply list_eq. intros n. rewrite slice_lookup.
  pose proof (f_equal (.!! n) H4) as E4. pose proof (f_equal (.!! (j + n)) H2) as E2. cbn beta in E2, E4. rewrite slice_lookup in E2, E4.
  rewrite <-E4. repeat case_decide; try lia; try done. rewrite <-E2. f_equal. lia.
Qed.

Lemma try_repls_spec prompt start mo k repls :
  match try_repls prompt start mo k repls with
  | Ok (Some (p, e)) => pi_modality p = mo ∧ pi_item_idx p = k ∧ placed prompt repls p (start, e)
  | Ok None => ∀ r, r ∈ repls -> full_ids r k ≠ [] -> ~ occurs prompt (full_ids r k) start
  | Err e => e = AssertionError ∧ ~ Forall repl_ok repls
  end.
Proof.
  induction repls as [|r repls IH]; [by intros r ?%not_elem_of_nil|]. cbn [try_repls]. cbn zeta.
  fold (full_ids r k). fold (feature_ids r k).
  assert (Hskip : (full_ids r k ≠ [] -> ~ occurs prompt (full_ids r k) start) ->
    match try_repls prompt start mo k repls with
    | Ok (Some (p, e)) => pi_modality p = mo ∧ pi_item_idx p = k ∧ placed prompt (r :: repls) p (start, e)
    | Ok None => ∀ r', r' ∈ r :: repls -> full_ids r' k ≠ [] -> ~ occurs prompt (full_ids r' k) start
    | Err e => e = AssertionError ∧ ~ Forall repl_ok (r :: repls)
    end).
  { intros Hr. destruct (try_repls prompt start mo k repls) as [[[p e]|]|e].
    - destruct IH as (? & ? & r' & ? & ?). split; [done|]. split; [done|]. exists r'. split; [by right|done].
    - intros r' [->|Hr']%elem_of_cons; [done|by apply IH].
    - destruct IH as [-> Hn]. split; [done|]. intros Hf%Forall_cons. by destruct Hf. }
  destruct (Nat.eqb_spec (length (full_ids r k)) 0) as [H0|H0]; cbn [orb].
  { apply Hskip. intros Hn. by apply length_zero_iff_nil in H0. }
  destruct (Nat.ltb_spec (length prompt) (start + length (full_ids r k))) as [Hl|Hl]; [apply Hskip; intros _ [? _]; lia|].
  case_decide as Hs; [|apply Hskip; by intros _ [_ ?]]. clear Hskip IH.
  assert (Hocc : occurs prompt (full_ids r k) start) by (split; [lia|done]).
  assert (Hne : full_ids r k ≠ []) by (by intros Hn; rewrite Hn in H0).
  destruct (iter_token_matches_total (full_ids r k) (feature_ids r k)) as (L & E & HL). rewrite E. cbn [mbind result_bind].
  destruct L as [|x L]; cbn [head or_raise mbind result_bind].
  - split; [done|]. intros [Hr _]%Forall_cons. destruct (Hr k Hne) as (Hf & i & Hi).
    destruct (iter_token_matches_spec (full_ids r k) (feature_ids r k) Hf) as (L & E' & [_ _ Hall]). rewrite E in E'. apply Ok_inj in E' as <-.
    destruct (Hall i ltac:(lia) Hi) as (x & Hx & _). by apply not_elem_of_nil in Hx.
  - cbn. destruct (HL x) as (Hf & Hx1 & Hx2); [by left|]. split; [done|]. split; [done|]. exists r. cbn. pose proof Hx1 as [Hxl _].
    split; [by left|]. split; [done|]. split; [done|]. split; [done|]. split; [done|]. split; [done|]. split; [lia|]. split; [lia|].
    split; [by eapply occurs_in|]. destruct x as [i j]. exists i, j, L. done.
Qed.

Abbreviation repls_ok := (Forall (fun x : string * list PromptReplacement => Forall repl_ok x.2)).

Lemma try_modalities_spec prompt start counts next repls :
  match try_modalities prompt start counts next repls with
  | Ok (Some (p, e)) =>
      (∃ rs, (pi_modality p, rs) ∈ repls ∧ placed prompt rs p (start, e)) ∧
      pi_item_idx p = default 0%Z (next !! pi_modality p) ∧ (pi_item_idx p < default 0 (od_get (pi_modality p) counts))%Z
  | Ok None => ∀ mo rs r, (mo, rs) ∈ repls -> r ∈ rs ->
      (default 0 (next !! mo) < default 0 (od_get mo counts))%Z ->
      full_ids r (default 0%Z (next !! mo)) ≠ [] -> ~ occurs prompt (full_ids r (default 0%Z (next !! mo))) start
  | Err e => e = AssertionError ∧ ~ repls_ok repls
  end.
Proof.
  induction repls as [|[mo rs] repls IH]; [by intros mo rs r ?%not_elem_of_nil|]. cbn [try_modalities]. cbn zeta.
  assert (Hskip : (∀ r, r ∈ rs -> (default 0 (next !! mo) < default 0 (od_get mo counts))%Z ->
      full_ids r (default 0%Z (next !! mo)) ≠ [] -> ~ occurs prompt (full_ids r (default 0%Z (next !! mo))) start) ->
    match try_modalities prompt start counts next repls with
    | Ok (Some (p, e)) =>
        (∃ rs', (pi_modality p, rs') ∈ (mo, rs) :: repls ∧ placed prompt rs' p (start, e)) ∧
        pi_item_idx p = default 0%Z (next !! pi_modality p) ∧ (pi_item_idx p < default 0 (od_get (pi_modality p) counts))%Z
    | Ok None => ∀ mo' rs' r, (mo', rs') ∈ (mo, rs) :: repls -> r ∈ rs' ->
        (default 0 (next !! mo') < default 0 (od_get mo' counts))%Z ->
        full_ids r (default 0%Z (next !! mo')) ≠ [] -> ~ occurs prompt (full_ids r (default 0%Z (next !! mo'))) start
    | Err e => e = AssertionError ∧ ~ repls_ok ((mo, rs) :: repls)
    end).
  { intros Hr. destruct (try_modalities prompt start counts next repls) as [[[p e]|]|e].
    - destruct IH as ((rs' & Hin & Hp) & Hi). split; [|done]. exists rs'. split; [by right|done].
    - intros mo' rs' r [[= -> ->]|Hin]%elem_of_cons; [by apply Hr|by apply (IH mo' rs')].
    - destruct IH as [-> Hn]. split; [done|]. intros Hf%Forall_cons. by destruct Hf. }
  destruct (Z.leb_spec (default 0%Z (od_get mo counts)) (default 0%Z (next !! mo))) as [Hge|Hlt]; [apply Hskip; intros; lia|].
  pose proof (try_repls_spec prompt start mo (default 0%Z (next !! mo)) rs) as Ht.
  destruct (try_repls prompt start mo _ rs) as [[[p e]|]|e]; cbn [mbind result_bind].
  - destruct Ht as (Hm & Hi & Hp). rewrite Hm, Hi. split; [|done]. exists rs. split; [by left|done].
  - apply Hskip. intros r Hr _. by apply Ht.
  - destruct Ht as [-> Hn]. split; [done|]. by intros [? _]%Forall_cons.
Qed.

(** What the placeholders found from [start] on are; [next] counts the items already found. *)
Record placements (repls : dict (list PromptReplacement)) (prompt : list Z) (counts : dict Z) (start : nat) (next : gmap string Z)
    (l : list PlaceholderFeaturesInfo) : Prop := {
  pl_segs : ∃ segs, Forall2 (fun p seg => start <= seg.1 ∧ ∃ rs, (pi_modality p, rs) ∈ repls ∧ placed prompt rs p seg) l segs ∧
    StronglySorted (fun x y : nat * nat => x.2 <= y.1) segs;
  pl_index : ∀ mo, pi_item_idx <$> filter (fun p => pi_modality p = mo) l =
    seqZ (default 0%Z (next !! mo)) (len (filter (fun p => pi_modality p = mo) l));
  pl_count : ∀ p, p ∈ l -> (pi_item_idx p < default 0 (od_get (pi_modality p) counts))%Z;
}.

Lemma placeholder_loop_spec repls prompt counts fuel : ∀ start next, length prompt - start < fuel ->
  match placeholder_loop fuel repls prompt counts start next with
  | Ok l => placements repls prompt counts start next l
  | Err e => e = AssertionError ∧ ~ repls_ok repls
  end.
Proof.
  induction fuel as [|fuel IH]; intros start next Hf; [lia|]. cbn [placeholder_loop].
  destruct (Nat.ltb_spec start (length prompt)) as [Hlt|Hge].
  2: { split; [by exists []; repeat constructor|done|by intros p ?%not_elem_of_nil]. }
  pose proof (try_modalities_spec prompt start counts next repls) as Ht.
  destruct (try_modalities prompt start counts next repls) as [[[p e]|]|e]; cbn [mbind result_bind]; [| |done].
  - destruct Ht as ((rs & Hin & Hp) & Hidx & Hcnt).
    assert (He : start < e). { destruct Hp as (r & _ & Hne & _ & He & _). cbn in He. destruct (full_ids r _); [done|cbn in He; lia]. }
    specialize (IH e (<[pi_modality p := (pi_item_idx p + 1)%Z]> next) ltac:(lia)).
    destruct (placeholder_loop fuel repls prompt counts e _) as [l|e']; cbn [mbind result_bind]; [|done].
    destruct IH as [(segs & Hsegs & Hord) Hix Hc]. split.
    + exists ((start, e) :: segs). split.
      * constructor; [split; [done|]; by exists rs|]. eapply Forall2_impl; [exact Hsegs|]. intros x seg [Hx ?]. split; [lia|done].
      * constructor; [done|]. apply Forall_forall. intros seg (i & Hi)%list_elem_of_lookup. cbn.
        destruct (Forall2_lookup_r _ _ _ _ _ Hsegs Hi) as (x & _ & ? & _). done.
    + intros mo. rewrite !filter_cons. specialize (Hix mo). destruct (decide (pi_modality p = mo)) as [Hmo|Hmo].
      * subst mo. rewrite lookup_insert_eq in Hix. cbn [default] in Hix. rewrite fmap_cons, Hix. cbn [length]. rewrite Nat2Z.inj_succ.
        rewrite <-Hidx. rewrite (seqZ_cons (pi_item_idx p)) by lia. f_equal. f_equal; lia.
      * rewrite lookup_insert_ne in Hix by done. exact Hix.
    + intros x [->|Hx]%elem_of_cons; [done|by apply Hc].
  - specialize (IH (S start) next ltac:(lia)). destruct (placeholder_loop fuel repls prompt counts (S start) next) as [l|e]; [|done].
    destruct IH as [(segs & Hsegs & Hord) Hix Hc]. split; [|done|done]. exists segs. split; [|done].
    eapply Forall2_impl; [exact Hsegs|]. intros x seg [Hx ?]. split; [lia|done].
Qed.

Lemma iter_placeholders_spec repls prompt counts :
  match _iter_placeholders repls prompt counts with
  | Ok l => placements repls prompt counts 0 ∅ l
  | Err e => e = AssertionError ∧ ~ repls_ok repls
  end.
Proof. apply placeholder_loop_spec. lia. Qed.

Lemma find_text_matches_repls prompt repls l : find_text_matches prompt repls = Ok l -> Forall (fun m => prompt_repl m ∈ repls) l.
Proof.
  revert l. induction repls as [|r repls IH]; intros l E; [apply Ok_inj in E as <-; constructor|]. cbn [find_text_matches] in E.
  apply bind_Ok_inv in E as (L & _ & E). apply bind_Ok_inv in E as (rest & E2 & E). apply Ok_inj in E as <-.
  apply Forall_app. split; [apply Forall_fmap, Forall_forall; intros x _; by left|].
  eapply Forall_impl; [by apply IH|]. intros m Hm. by right.
Qed.

(** Every replacement recorded as matched was given. *)
Lemma matched_in find repls mm mo rs :
  (∀ rs l, find rs = Ok l -> Forall (fun m => prompt_repl m ∈ rs) l) -> find_all find repls = Ok mm -> (mo, rs) ∈ matched_repls mm ->
  ∃ rs', (mo, rs') ∈ repls ∧ ∀ r, r ∈ rs -> r ∈ rs'.
Proof.
  intros Hfind. revert mm. induction repls as [|[mo' rs'] repls IH]; intros mm E Hin.
  { apply Ok_inj in E as <-. by apply not_elem_of_nil in Hin. }
  cbn [find_all] in E. apply bind_Ok_inv in E as (l & El & E). apply bind_Ok_inv in E as (rest & Er & E). apply Ok_inj in E as <-.
  unfold matched_repls in Hin. rewrite fmap_cons in Hin. apply elem_of_cons in Hin as [[= -> ->]|Hin].
  - exists rs'. split; [by left|]. intros r (m & -> & Hm)%list_elem_of_fmap. specialize (Hfind _ _ El). rewrite Forall_forall in Hfind. by apply Hfind.
  - destruct (IH rest Er Hin) as (rs2 & H1 & H2). exists rs2. split; [by right|done].
Qed.

(** *** Grouping *)

Lemma od_get_set_ne {A} (k k' : string) (v : A) d : k ≠ k' -> od_get k (od_set k' v d) = od_get k d.
Proof.
  intros Hk. induction d as [|[k0 v0] d IH]; cbn; repeat (case_decide; subst; cbn); try done.
Qed.

Lemma groupby_get {A} (key : A -> string) l : ∀ mo d,
  default [] (od_get mo (foldl (fun g x => groupby_add key x g) d l)) = default [] (od_get mo d) ++ filter (fun x => key x = mo) l.
Proof.
  induction l as [|x l IH]; intros mo d; [by rewrite app_nil_r|]. cbn [foldl]. rewrite IH, filter_cons. unfold groupby_add.
  case_decide as Hk; [subst mo; rewrite od_get_set; cbn; by rewrite <-app_assoc|]. rewrite od_get_set_ne by done. done.
Qed.

Lemma full_groupby_get {A} (key : A -> string) l mo : default [] (od_get mo (full_groupby key l)) = filter (fun x => key x = mo) l.
Proof. apply (groupby_get key l mo []). Qed.
End replace.
