(* ===== verification/MMProcPlace.v ===== *)
(** * The placeholders that are returned

    Whatever [place_items] (the part of [apply] after the HF processor) returns has one
    placeholder per item; and when the HF processor replaced everything or nothing, the
    placeholders describe the token ids returned with them. *)

From stdpp Require Import base tactics list gmap sets strings sorting.
From Stdlib Require Import ZArith Lia.
From S2P Require Import Prelude.
From S2P Require Import Request.
From S2P Require Import MMMapper.
From S2P Require Import Processor.
From S2P Require Import MMProcessing.
From S2P Require Import MMProcMatch.

(** ** Dicts *)

Lemma od_set_keys {A} k (v : A) d : k ∈ (od_set k v d).*1 ∧ (∀ k', k' ∈ (od_set k v d).*1 -> k' = k ∨ k' ∈ d.*1) ∧ (NoDup d.*1 -> NoDup (od_set k v d).*1).
Proof.
  induction d as [|[k0 v0] d (IH1 & IH2 & IH3)]; cbn [od_set].
  - cbn. split; [by left|]. split; [intros k' Hk%list_elem_of_singleton; by left|]. intros _. apply NoDup_singleton.
  - case_decide as Hk.
    + subst k0. cbn. split; [by left|]. split; [intros k' Hk; by right|done].
    + rewrite !fmap_cons. cbn. split; [by right|]. split.
      * intros k' [->|Hk']%elem_of_cons; [by right; left|]. destruct (IH2 k' Hk') as [->|]; [by left|by right; right].
      * intros [Hn Hd]%NoDup_cons. apply NoDup_cons. split; [|by apply IH3]. intros [->|Hin]%IH2; done.
Qed.

Lemma groupby_keys {A} (key : A -> string) l : ∀ d, NoDup d.*1 -> NoDup (foldl (fun g x => groupby_add key x g) d l).*1.
Proof. induction l as [|x l IH]; intros d Hd; [done|]. cbn [foldl]. apply IH. by apply od_set_keys. Qed.

Lemma dict_merge_get {A} mo (b : dict A) : ∀ a, NoDup b.*1 ->
  od_get mo (dict_merge a b) = match od_get mo b with Some v => Some v | None => od_get mo a end.
Proof.
  induction b as [|[k v] b IH]; intros a Hb; [done|]. rewrite fmap_cons in Hb. cbn in Hb. apply NoDup_cons in Hb as [Hk Hb].
  unfold dict_merge. cbn [foldl fst snd]. fold (dict_merge (od_set k v a) b). rewrite IH by done. cbn [od_get].
  destruct (decide (mo = k)) as [->|Hne].
  - destruct (od_get k b) as [w|] eqn:E; [|by rewrite od_get_set].
    apply od_get_In in E. destruct Hk. apply list_elem_of_fmap. by exists (k, w).
  - by rewrite od_get_set_ne.
Qed.

Section place.
Context `{TK : !PromptTokenizer}.

(** ** What the placeholders say *)

Definition before (p q : PlaceholderFeaturesInfo) : Prop := pi_start_idx p + length (pi_tokens p) <= pi_start_idx q.

(** [ph] lists, by modality, feature ranges of the token ids: they select the features
    of the items in order and are disjoint. *)
Definition describes (ids : list Z) (repls : dict (list PromptReplacement)) (ph : dict (list PlaceholderFeaturesInfo)) : Prop :=
  ∃ L, (∀ mo, default [] (od_get mo ph) = filter (fun p => pi_modality p = mo) L) ∧
    StronglySorted before L ∧
    (∀ p, p ∈ L -> occurs ids (pi_tokens p) (pi_start_idx p) ∧
      ∃ rs r, (pi_modality p, rs) ∈ repls ∧ r ∈ rs ∧ pi_tokens p = feature_ids r (pi_item_idx p)) ∧
    (∀ mo, pi_item_idx <$> default [] (od_get mo ph) = seqZ 0 (len (default [] (od_get mo ph)))).

Lemma describes_repls ids repls repls' ph :
  (∀ mo rs r, (mo, rs) ∈ repls -> r ∈ rs -> ∃ rs', (mo, rs') ∈ repls' ∧ r ∈ rs') -> describes ids repls ph -> describes ids repls' ph.
Proof.
  intros Hsub (L & H1 & H2 & H3 & H4). exists L. split; [done|]. split; [done|]. split; [|done].
  intros p Hp. destruct (H3 p Hp) as (Ho & rs & r & Hrs & Hr & Ht). split; [done|].
  destruct (Hsub _ _ _ Hrs Hr) as (rs' & Hrs' & Hr'). by exists rs', r.
Qed.

Lemma placed_before prompt l segs : 
  Forall2 (fun p (seg : nat * nat) => ∃ rs, placed prompt rs p seg) l segs -> StronglySorted (fun x y : nat * nat => x.2 <= y.1) segs -> StronglySorted before l.
Proof.
  intros HF Hs. induction HF as [|p seg l segs Hp HF IH]; [constructor|]. apply StronglySorted_inv in Hs as [Hs Hseg].
  constructor; [by apply IH|]. apply Forall_forall. intros q (i & Hi)%list_elem_of_lookup.
  destruct (Forall2_lookup_l _ _ _ _ _ HF Hi) as (seg' & Hi' & rs' & Hq). rewrite Forall_forall in Hseg.
  specialize (Hseg seg' ltac:(by eapply list_elem_of_lookup_2)). destruct Hp as (rs & r & Hp), Hq as (r' & Hq). unfold before.
  destruct Hp as (_ & _ & _ & _ & _ & _ & _ & Hp & _), Hq as (_ & _ & _ & _ & _ & _ & Hq & _). lia.
Qed.

Lemma find_describes repls prompt counts ph : find_mm_placeholders repls prompt counts = Ok ph -> describes prompt repls ph ∧ NoDup ph.*1.
Proof.
  unfold find_mm_placeholders. intros (l & E & H)%bind_Ok_inv. apply Ok_inj in H as <-.
  pose proof (iter_placeholders_spec repls prompt counts) as Hs. rewrite E in Hs. destruct Hs as [(segs & Hsegs & Hord) Hidx Hc].
  split; [|apply groupby_keys; constructor]. exists l. split; [intros mo; apply full_groupby_get|]. split; [|split].
  - eapply placed_before; [|exact Hord]. eapply Forall2_impl; [exact Hsegs|]. intros p seg (_ & rs & _ & ?). by exists rs.
  - intros p (i & Hi)%list_elem_of_lookup. destruct (Forall2_lookup_l _ _ _ _ _ Hsegs Hi) as (seg & _ & _ & rs & Hrs & r & Hr & _ & _ & _ & Ht & _ & _ & _ & Ho & _).
    split; [done|]. by exists rs, r.
  - intros mo. rewrite full_groupby_get. rewrite Hidx, lookup_empty. done.
Qed.

Lemma apply_describes ids repls counts ids' text ph :
  _apply_prompt_replacements ids repls counts = Ok (ids', text, ph) -> describes ids' repls ph ∧ NoDup ph.*1.
Proof.
  unfold _apply_prompt_replacements. intros (mm & Em & H)%bind_Ok_inv. apply bind_Ok_inv in H as ([[ids1 text1] matched] & Ex & H).
  apply bind_Ok_inv in H as (ph1 & Ep & H). apply Ok_inj in H as [= -> -> ->]. apply find_describes in Ep as [Hd Hk]. split; [|done].
  eapply describes_repls; [|exact Hd]. intros mo rs r Hrs Hr.
  assert (∃ rs', (mo, rs') ∈ repls ∧ ∀ r, r ∈ rs -> r ∈ rs') as (rs' & Hrs' & Hsub); [|exists rs'; split; [done|by apply Hsub]].
  clear r Hr. destruct (enough_matches mm counts).
  - apply bind_Ok_inv in Ex as (? & _ & Ex). apply Ok_inj in Ex as [= _ _ <-]. eapply matched_in; [|exact Em|exact Hrs].
    intros rs0 l El. destruct (find_token_matches_spec ids rs0) as (l' & El' & Hl). rewrite El in El'. apply Ok_inj in El' as <-.
    eapply Forall_impl; [exact Hl|]. by intros m [? _].
  - apply bind_Ok_inv in Ex as (mm2 & Em2 & Ex). apply bind_Ok_inv in Ex as (? & _ & Ex). apply Ok_inj in Ex as [= _ _ <-].
    eapply matched_in; [|exact Em2|exact Hrs]. apply find_text_matches_repls.
Qed.

(** ** Validation *)

Lemma validate_strict ph counts missing : _validate_mm_placeholders false ph counts = Ok missing ->
  ∀ mo n, (mo, n) ∈ counts -> len (default [] (od_get mo ph)) = n.
Proof.
  revert missing. induction counts as [|[mo n] counts IH]; intros missing E mo' n' Hin; [by apply not_elem_of_nil in Hin|].
  cbn [_validate_mm_placeholders negb] in E. rewrite andb_true_r in E.
  destruct (Z.eqb_spec (len (default [] (od_get mo ph))) n) as [Hn|Hn]; cbn [negb] in E; [|done].
  apply bind_Ok_inv in E as (rest & E & _). apply elem_of_cons in Hin as [[= -> ->]|Hin]; [done|by eapply IH].
Qed.

Lemma validate_missing ph counts :
  _validate_mm_placeholders true ph counts = Ok ((fun x : string * Z => (x.1, x.2 - len (default [] (od_get x.1 ph)))%Z) <$> counts).
Proof.
  induction counts as [|[mo n] counts IH]; [done|]. cbn [_validate_mm_placeholders negb]. rewrite andb_false_r, IH. cbn [mbind result_bind]. done.
Qed.

(** The replacements left to make are those given. *)
Lemma missing_sub repls counts missing rs' : missing_repls repls counts missing = Ok rs' ->
  ∀ mo rs, (mo, rs) ∈ rs' -> rs = [] ∨ (mo, rs) ∈ repls.
Proof.
  revert rs'. induction missing as [|[mo n] missing IH]; intros rs' E mo' rs Hin; [apply Ok_inj in E as <-; by apply not_elem_of_nil in Hin|].
  cbn [missing_repls] in E. apply bind_Ok_inv in E as (x & Ex & E). apply bind_Ok_inv in E as (rest & Er & E). apply Ok_inj in E as <-.
  apply elem_of_cons in Hin as [[= -> ->]|Hin]; [|by eapply IH].
  destruct (n =? 0)%Z; [apply Ok_inj in Ex as <-; by left|]. right. destruct (n =? _)%Z; [|done].
  destruct (od_get mo repls) eqn:Eg; [|done]. apply Ok_inj in Ex as <-. by apply od_get_In.
Qed.

(** The HF processor inserted no placeholders, or (when the processor looks) all of them. *)
Definition hf_all_or_none (always : bool) (hf : dict (list PlaceholderFeaturesInfo)) (counts : dict Z) : Prop :=
  hf = [] ∨ (always = false ∧ ∀ mo n, (mo, n) ∈ counts -> len (default [] (od_get mo hf)) = n).

Lemma nothing_missing repls counts missing rs' : missing_repls repls counts missing = Ok rs' -> (∀ mo n, (mo, n) ∈ missing -> n = 0%Z) ->
  forallb (fun r => bool_decide (r.2 = [])) rs' = true.
Proof.
  revert rs'. induction missing as [|[mo n] missing IH]; intros rs' E Hz; [by apply Ok_inj in E as <-|].
  cbn [missing_repls] in E. rewrite (Hz mo n) in E by (by left). cbn [mbind result_bind Z.eqb] in E.
  apply bind_Ok_inv in E as (rest & Er & E). apply Ok_inj in E as <-. cbn. eapply IH; [done|]. intros mo' n' Hin. apply (Hz mo'). by right.
Qed.

Lemma describes_merge ids repls ph : NoDup ph.*1 -> describes ids repls ph -> describes ids repls (dict_merge [] ph).
Proof.
  intros Hk (L & H1 & H2 & H3 & H4). assert (Hg : ∀ mo, od_get mo (dict_merge [] ph) = od_get mo ph).
  { intros mo. rewrite dict_merge_get by done. by destruct (od_get mo ph). }
  exists L. split; [|split; [done|split; [done|]]]; intros mo; by rewrite Hg.
Qed.

Lemma place_items_spec always ids repls counts ids' text ph : place_items always ids repls counts = Ok (ids', text, ph) ->
  (∀ mo n, (mo, n) ∈ counts -> len (default [] (od_get mo ph)) = n) ∧
  ∃ hf, find_mm_placeholders repls ids counts = Ok hf ∧ (hf_all_or_none always hf counts -> describes ids' repls ph).
Proof.
  unfold place_items. intros (hf & Ehf & H)%bind_Ok_inv. apply bind_Ok_inv in H as ([missing rs] & Em & H).
  apply bind_Ok_inv in H as ([[ids1 text1] ph1] & Ey & H). apply bind_Ok_inv in H as (m & Ev & H). apply Ok_inj in H as [= -> -> ->].
  split; [by eapply validate_strict|]. exists hf. split; [done|]. intros Hhf.
  destruct (forallb _ rs) eqn:Eall.
  { apply Ok_inj in Ey as [= <- _ <-]. by apply find_describes in Ehf as [? _]. }
  apply bind_Ok_inv in Ey as ([[ids2 text2] ph2] & Ea & Ey). apply Ok_inj in Ey as [= -> _ <-].
  destruct (apply_describes _ _ _ _ _ _ Ea) as [Hd Hk].
  assert (Hsub : ∀ mo rs' r, (mo, rs') ∈ rs -> r ∈ rs' -> ∃ rs'', (mo, rs'') ∈ repls ∧ r ∈ rs'').
  { intros mo rs' r Hin Hr. exists rs'. destruct always; [apply Ok_inj in Em as [= <- <-]; done|].
    apply bind_Ok_inv in Em as (mi & _ & Em). apply bind_Ok_inv in Em as (rs2 & Er & Em). apply Ok_inj in Em as [= _ <-].
    destruct (missing_sub _ _ _ _ Er mo rs' Hin) as [->|]; [by apply not_elem_of_nil in Hr|done]. }
  destruct Hhf as [->|[-> Hall]]; [apply describes_merge; [done|]; by eapply describes_repls|]. exfalso.
  rewrite validate_missing in Em. cbn [mbind result_bind] in Em. apply bind_Ok_inv in Em as (rs2 & Er & Em). apply Ok_inj in Em as [= _ <-].
  rewrite (nothing_missing _ _ _ _ Er) in Eall; [done|]. intros mo n Hin. apply list_elem_of_fmap in Hin as ([mo' n'] & [= -> ->] & Hin).
  cbn. rewrite (Hall mo' n' Hin). lia.
Qed.
End place.
