(* ===== verification/MMProcExpand.v ===== *)
(** * Placeholder tokens expand in place

    For the common shape of a multi-modal prompt, in which an item is one special token
    (say [<image>]) and its replacement starts with a token that does not otherwise occur,
    matching, resolving, replacing and searching again amount to [expand]: a single pass
    that expands the first tokens and notes where the features went. *)

From stdpp Require Import base tactics list gmap sets strings sorting.
From Stdlib Require Import ZArith Lia.
From S2P Require Import Prelude.
From S2P Require Import Request.
From S2P Require Import MMMapper.
From S2P Require Import Processor.
From S2P Require Import MMProcessing.
From S2P Require Import MMProcMatch.
From S2P Require Import MMProcPlace.

(** ** Single-token matches *)

Fixpoint idx_of (t : Z) (off : nat) (l : list Z) : list nat :=
  match l with
  | [] => []
  | x :: l => (if decide (x = t) then [off] else []) ++ idx_of t (S off) l
  end.

Lemma slice_one {A} (l k : list A) x : slice (l ++ x :: k) (length l) (length l + 1) = [x].
Proof. unfold slice. rewrite drop_app_length. by replace (length l + 1 - length l) with 1 by lia. Qed.

Lemma match_one t suf : ∀ pre fuel, length suf < fuel ->
  token_match_loop fuel (pre ++ suf) [t] (length pre) = Ok ((fun i => (i, S i)) <$> idx_of t (length pre) suf).
Proof.
  induction suf as [|x suf IH]; intros pre fuel Hf; (destruct fuel as [|fuel]; [cbn in Hf; lia|]); cbn [token_match_loop].
  { destruct (Nat.leb_spec (length pre + length [t]) (length (pre ++ []))) as [H|H]; [|done]. rewrite length_app in H. cbn in H. lia. }
  destruct (Nat.leb_spec (length pre + length [t]) (length (pre ++ x :: suf))) as [H|H]; [|rewrite length_app in H; cbn in H; lia].
  assert (Hn : token_match_loop fuel (pre ++ x :: suf) [t] (S (length pre)) = Ok ((fun i => (i, S i)) <$> idx_of t (S (length pre)) suf)).
  { specialize (IH (pre ++ [x]) fuel ltac:(cbn in Hf; lia)). rewrite <-app_assoc, length_app in IH. cbn [length app] in IH.
    by rewrite Nat.add_1_r in IH. }
  cbn [length]. rewrite slice_one. cbn [idx_of]. destruct (decide (x = t)) as [->|Hx].
  - rewrite decide_True by done. rewrite Nat.add_1_r, Hn. cbn [mbind result_bind]. by rewrite fmap_app.
  - by rewrite decide_False by congruence.
Qed.

Lemma iter_one ids t : iter_token_matches ids [t] = Ok ((fun i => (i, S i)) <$> idx_of t 0 ids).
Proof. apply (match_one t ids []). lia. Qed.

Lemma idx_of_occ t l : ∀ off, len (idx_of t off l) = occ t l.
Proof.
  induction l as [|x l IH]; intros off; [done|]. cbn [idx_of occ]. rewrite length_app, Nat2Z.inj_add, IH.
  repeat case_decide; subst; try done; cbn; lia.
Qed.

Section expand.
Context `{TK : !PromptTokenizer}.

(** ** One token per item *)

(** A modality whose items are marked by one token, and how many there are. *)
Record slot : Type := mkSlot {
  sl_token : Z;
  sl_repl : PromptReplacement;
  sl_count : Z;
}.

Abbreviation sl_modality s := (modality (sl_repl s)).

Definition repls_of (slots : list slot) : dict (list PromptReplacement) := (fun s => (sl_modality s, [sl_repl s])) <$> slots.
Definition counts_of (slots : list slot) : dict Z := (fun s => (sl_modality s, sl_count s)) <$> slots.

Definition slot_of (slots : list slot) (x : Z) : option slot := head (filter (fun s => sl_token s = x) slots).

Definition first_feature (r : PromptReplacement) (k : Z) : nat :=
  match iter_token_matches (full_ids r k) (feature_ids r k) with Ok ((i, _) :: _) => i | _ => 0 end.

(** The specification: the token ids and the placeholders. *)
Fixpoint expand (slots : list slot) (next : gmap string Z) (off : nat) (ids : list Z) : list Z * list PlaceholderFeaturesInfo :=
  match ids with
  | [] => ([], [])
  | x :: ids =>
      match slot_of slots x with
      | Some s =>
          let k := default 0%Z (next !! sl_modality s) in
          if (k <? sl_count s)%Z then
            let full := full_ids (sl_repl s) k in
            let rest := expand slots (<[sl_modality s := (k + 1)%Z]> next) (off + length full) ids in
            (full ++ rest.1, mkPlaceholderInfo (sl_modality s) k (off + first_feature (sl_repl s) k) (feature_ids (sl_repl s) k) :: rest.2)
          else let rest := expand slots next (S off) ids in (x :: rest.1, rest.2)
      | None => let rest := expand slots next (S off) ids in (x :: rest.1, rest.2)
      end
  end.

Record slots_ok (ids : list Z) (slots : list slot) : Prop := {
  so_target : ∀ s, s ∈ slots -> seq_token_ids (target (sl_repl s)) = [sl_token s];
  so_tokens : NoDup (sl_token <$> slots);
  so_modalities : NoDup ((fun s => sl_modality s) <$> slots);
  so_enough : ∀ s, s ∈ slots -> (0 < sl_count s <= occ (sl_token s) ids)%Z;
  so_full : ∀ s k, s ∈ slots -> (0 <= k < sl_count s)%Z -> full_ids (sl_repl s) k ≠ [];
  so_features : ∀ s, s ∈ slots -> repl_ok (sl_repl s);
  so_heads : ∀ s k h, s ∈ slots -> (0 <= k < sl_count s)%Z -> head (full_ids (sl_repl s) k) = Some h -> h ∈ ids -> h = sl_token s;
  so_apart : ∀ s s' k k', s ∈ slots -> s' ∈ slots -> (0 <= k < sl_count s)%Z -> (0 <= k' < sl_count s')%Z ->
    head (full_ids (sl_repl s) k) = head (full_ids (sl_repl s') k') -> s = s';
}.

Lemma slot_of_elem slots x s : slot_of slots x = Some s -> s ∈ slots ∧ sl_token s = x.
Proof.
  unfold slot_of. intros Hh. assert (Hs : s ∈ filter (fun s => sl_token s = x) slots).
  { destruct (filter _ slots); [done|]. injection Hh as ->. by left. }
  apply list_elem_of_filter in Hs as [??]. done.
Qed.

Lemma slot_of_token slots s : NoDup (sl_token <$> slots) -> s ∈ slots -> slot_of slots (sl_token s) = Some s.
Proof.
  unfold slot_of. induction slots as [|s0 slots IH]; intros Hn Hs; [by apply not_elem_of_nil in Hs|].
  rewrite fmap_cons in Hn. apply NoDup_cons in Hn as [H0 Hn]. rewrite filter_cons. apply elem_of_cons in Hs as [->|Hs]; [by rewrite decide_True|].
  rewrite decide_False; [by apply IH|]. intros E. destruct H0. rewrite E. by apply list_elem_of_fmap_2.
Qed.

Lemma od_get_map {A} (f : slot -> A) slots s : NoDup ((fun s => sl_modality s) <$> slots) -> s ∈ slots ->
  od_get (sl_modality s) ((fun s => (sl_modality s, f s)) <$> slots) = Some (f s).
Proof.
  induction slots as [|s0 slots IH]; intros Hn Hs; [by apply not_elem_of_nil in Hs|]. rewrite fmap_cons in Hn. rewrite fmap_cons.
  apply NoDup_cons in Hn as [H0 Hn]. cbn [od_get]. apply elem_of_cons in Hs as [->|Hs]; [by rewrite decide_True|].
  rewrite decide_False; [by apply IH|]. intros E. destruct H0. rewrite <-E. by apply (list_elem_of_fmap_2 (fun s => sl_modality s)).
Qed.

(** ** The matches *)

Fixpoint positions (slots : list slot) (off : nat) (ids : list Z) : list PromptMatch :=
  match ids with
  | [] => []
  | x :: ids => from_option (fun s => [mkMatch (sl_repl s) off (S off)]) [] (slot_of slots x) ++ positions slots (S off) ids
  end.

Definition matches_of (ids : list Z) (off : nat) (s : slot) : list PromptMatch := (fun i => mkMatch (sl_repl s) i (S i)) <$> idx_of (sl_token s) off ids.

Lemma find_all_one ids slots : (∀ s, s ∈ slots -> seq_token_ids (target (sl_repl s)) = [sl_token s]) ->
  find_all (find_token_matches ids) (repls_of slots) = Ok ((fun s => (sl_modality s, matches_of ids 0 s)) <$> slots).
Proof.
  intros Ht. induction slots as [|s slots IH]; [done|]. unfold repls_of. rewrite fmap_cons. cbn [find_all find_token_matches].
  rewrite (Ht s) by (by left). rewrite iter_one. cbn [mbind result_bind]. fold (repls_of slots).
  rewrite IH by (intros; apply Ht; by right). cbn [mbind result_bind]. rewrite fmap_cons, app_nil_r, <-list_fmap_compose. done.
Qed.

Lemma positions_perm slots ids : NoDup (sl_token <$> slots) -> ∀ off, concat (matches_of ids off <$> slots) ≡ₚ positions slots off ids.
Proof.
  intros Hn. induction ids as [|x ids IH]; intros off; cbn [positions].
  { induction slots as [|s slots IHs]; [done|]. rewrite fmap_cons. cbn [concat]. rewrite fmap_cons in Hn. apply NoDup_cons in Hn as [_ Hn]. by rewrite IHs. }
  rewrite <-(IH (S off)). clear IH. induction slots as [|s slots IHs]; [done|].
  rewrite fmap_cons in Hn. apply NoDup_cons in Hn as [H0 Hn]. rewrite !fmap_cons. cbn [concat].
  assert (Hm : matches_of (x :: ids) off s = (if decide (x = sl_token s) then [mkMatch (sl_repl s) off (S off)] else []) ++ matches_of ids (S off) s).
  { unfold matches_of. cbn [idx_of]. rewrite fmap_app. by case_decide. }
  rewrite Hm, (IHs Hn). unfold slot_of. rewrite filter_cons. destruct (decide (x = sl_token s)) as [->|Hx].
  - rewrite decide_True by done. cbn [head from_option]. assert (filter (fun s0 => sl_token s0 = sl_token s) slots = []) as ->; [|done].
    apply elem_of_nil_inv. intros s' [E Hs']%list_elem_of_filter. destruct H0. rewrite <-E. by apply list_elem_of_fmap_2.
  - rewrite decide_False by done. cbn [app]. rewrite !app_assoc. apply Permutation_app_tail, Permutation_app_comm.
Qed.

Lemma positions_start slots ids : ∀ off m, m ∈ positions slots off ids -> off <= start_idx m < off + length ids ∧ end_idx m = S (start_idx m).
Proof.
  induction ids as [|x ids IH]; intros off m Hm; [by apply not_elem_of_nil in Hm|]. cbn [positions length] in *.
  apply elem_of_app in Hm as [Hm|Hm]; [|destruct (IH (S off) m Hm); lia].
  destruct (slot_of slots x) as [s|]; cbn in Hm; [|by apply not_elem_of_nil in Hm]. apply list_elem_of_singleton in Hm as ->. cbn. lia.
Qed.

Lemma positions_sorted slots ids : ∀ off, StronglySorted in_order (positions slots off ids).
Proof.
  induction ids as [|x ids IH]; intros off; [constructor|]. cbn [positions]. destruct (slot_of slots x) as [s|]; cbn; [|apply IH].
  constructor; [apply IH|]. apply Forall_forall. intros m Hm%positions_start. unfold in_order. cbn. lia.
Qed.

Lemma sorted_disjoint l : StronglySorted in_order l -> all_disjoint l.
Proof.
  induction 1 as [|x l Hs IH Hf]; [done|]. split; [|done]. eapply Forall_impl; [exact Hf|]. intros y Hy. by left.
Qed.

Lemma resolve_one ids slots : NoDup (sl_token <$> slots) ->
  _resolve_matches (length ids) ((fun s => (sl_modality s, matches_of ids 0 s)) <$> slots) = Ok (positions slots 0 ids).
Proof.
  intros Hn. set (mm := _ <$> slots).
  assert (HP : concat mm.*2 ≡ₚ positions slots 0 ids).
  { unfold mm. rewrite <-list_fmap_compose. by apply positions_perm. }
  assert (Hp : Forall (proper_match (length ids)) (positions slots 0 ids)).
  { apply Forall_forall. intros m Hm%positions_start. unfold proper_match. lia. }
  pose proof (resolve_spec (length ids) mm) as Hr. rewrite decide_True in Hr.
  2: { eapply all_disjoint_perm; [symmetry; exact HP|]. apply sorted_disjoint, positions_sorted. }
  destruct Hr as (l & E & HPl & Hs); [by rewrite HP|]. rewrite E. f_equal.
  apply (StronglySorted_unique_strong in_order); [|done|apply positions_sorted|by rewrite HPl].
  intros x y Hx Hy. rewrite HPl, HP in Hx. apply positions_start in Hx, Hy. unfold in_order. lia.
Qed.

(** ** The rewritten prompt *)

Lemma splice_step f ids prev es x : ids !! prev = Some x -> (∀ e, e ∈ es -> prev < start_idx e.1) ->
  splice f ids prev es = x :: splice f ids (S prev) es.
Proof.
  intros Hx Hes. destruct es as [|[m k] es]; cbn [splice].
  - by rewrite (drop_S ids x prev).
  - specialize (Hes (m, k) ltac:(by left)). cbn in Hes. unfold slice. rewrite (drop_S ids x prev) by done.
    replace (start_idx m - prev) with (S (start_idx m - S prev)) by lia. done.
Qed.

(** The counter of every modality, after the matches [pre]. *)
Definition next_ok (slots : list slot) (pre : list PromptMatch) (next : gmap string Z) : Prop :=
  ∀ s, s ∈ slots -> default 0%Z (next !! sl_modality s) = Z.min (rank (sl_modality s) pre) (sl_count s).

Lemma next_ok_step slots pre next s m b : slots_ok b slots -> s ∈ slots -> prompt_repl m = sl_repl s ->
  next_ok slots pre next -> let k := default 0%Z (next !! sl_modality s) in
  next_ok slots (pre ++ [m]) (if (k <? sl_count s)%Z then <[sl_modality s := (k + 1)%Z]> next else next).
Proof.
  intros Hok Hs Hm Hn k s' Hs'. rewrite rank_snoc, Hm. pose proof (Hn s Hs) as Hk. fold k in Hk. specialize (Hn s' Hs').
  assert (Heq : sl_modality s = sl_modality s' -> sl_count s = sl_count s').
  { intros E. pose proof (od_get_map sl_count slots s (so_modalities _ _ Hok) Hs) as E1.
    pose proof (od_get_map sl_count slots s' (so_modalities _ _ Hok) Hs') as E2. rewrite E in E1. congruence. }
  case_decide as Hmo.
  - specialize (Heq Hmo). rewrite <-Hmo in *. rewrite <-Heq in *. destruct (Z.ltb_spec k (sl_count s)).
    + rewrite lookup_insert_eq. cbn. lia.
    + fold k. lia.
  - destruct (k <? sl_count s)%Z; [rewrite lookup_insert_ne by done|]; lia.
Qed.

Lemma chosen_elem counts l : ∀ pre e, e ∈ chosen counts pre l -> e.1 ∈ l.
Proof.
  induction l as [|m l IH]; intros pre e He; [by apply not_elem_of_nil in He|]. cbn [chosen] in He.
  case_bool_decide; [apply elem_of_cons in He as [->|He]; [by left|]|]; right; by eapply IH.
Qed.

Lemma splice_expand ids0 slots suf : slots_ok ids0 slots -> ∀ ids pre prem next off, ids = pre ++ suf -> next_ok slots prem next ->
  splice (full_of seq_token_ids) ids (length pre) (chosen (counts_of slots) prem (positions slots (length pre) suf)) = (expand slots next off suf).1.
Proof.
  intros Hok. induction suf as [|x suf IH]; intros ids pre prem next off -> Hn.
  { cbn. by rewrite app_nil_r, drop_all. }
  assert (Hids : pre ++ x :: suf = (pre ++ [x]) ++ suf) by (by rewrite <-app_assoc).
  assert (Hlen : length (pre ++ [x]) = S (length pre)) by (rewrite length_app; cbn; lia).
  assert (Hx : (pre ++ x :: suf) !! length pre = Some x) by (by rewrite list_lookup_middle).
  assert (Hskip : ∀ prem next, next_ok slots prem next ->
    splice (full_of seq_token_ids) (pre ++ x :: suf) (length pre) (chosen (counts_of slots) prem (positions slots (S (length pre)) suf)) =
    x :: (expand slots next (S off) suf).1).
  { intros prem' next' Hn'. rewrite (splice_step _ _ _ _ x Hx).
    - f_equal. rewrite <-Hlen. by apply IH.
    - intros e He%chosen_elem%positions_start. lia. }
  cbn [positions expand]. destruct (slot_of slots x) as [s|] eqn:Es; cbn [from_option app]; [|by apply Hskip].
  apply slot_of_elem in Es as [Hs <-]. set (m := mkMatch (sl_repl s) (length pre) (S (length pre))).
  pose proof (next_ok_step slots prem next s m ids0 Hok Hs eq_refl Hn) as Hn'. cbn zeta in Hn'. pose proof (Hn s Hs) as Hk.
  cbn [chosen]. cbn zeta. change (prompt_repl m) with (sl_repl s).
  assert (Hc : default 0%Z (od_get (sl_modality s) (counts_of slots)) = sl_count s).
  { unfold counts_of. by rewrite (od_get_map sl_count slots s (so_modalities _ _ Hok) Hs). }
  destruct (Z.ltb_spec (default 0%Z (next !! sl_modality s)) (sl_count s)) as [Hlt|Hge].
  - rewrite bool_decide_eq_true_2 by (rewrite Hc; lia). cbn [splice fst]. change (start_idx m) with (length pre). change (end_idx m) with (S (length pre)).
    assert (slice (pre ++ sl_token s :: suf) (length pre) (length pre) = []) as -> by (unfold slice; by rewrite Nat.sub_diag).
    cbn [app]. replace (rank (sl_modality s) prem) with (default 0%Z (next !! sl_modality s)) by lia. unfold full_of. cbn [prompt_repl]. f_equal.
    rewrite <-Hlen. by apply IH.
  - rewrite bool_decide_eq_false_2 by (rewrite Hc; lia). cbn [fst]. by apply Hskip.
Qed.

Lemma replace_one ids slots : slots_ok ids slots -> slots ≠ [] ->
  replace_token_matches ids ((fun s => (sl_modality s, matches_of ids 0 s)) <$> slots) (counts_of slots) = Ok (expand slots ∅ 0 ids).1.
Proof.
  intros Hok Hne. unfold replace_token_matches, _replace_matches. destruct slots as [|s slots]; [done|]. rewrite fmap_cons.
  set (mm := (sl_modality s, matches_of ids 0 s) :: _). change mm with ((fun s => (sl_modality s, matches_of ids 0 s)) <$> s :: slots).
  rewrite resolve_one by apply Hok. cbn [mbind result_bind]. f_equal. rewrite replace_spec.
  apply (splice_expand ids (s :: slots) ids Hok ids [] [] ∅ 0); [done|]. intros s' Hs'. rewrite lookup_empty. cbn.
  pose proof (so_enough _ _ Hok s' Hs'). unfold rank. cbn. lia.
Qed.
End expand.

(** ** The placeholders of an expanded prompt

    Searching the expanded prompt finds exactly the placeholders that [expand] notes, and
    so the whole part of [apply] after the HF processor computes [expand]. *)

Section search.
Context `{TK : !PromptTokenizer}.

(** [R] holds the replacements of the slots, perhaps several times. *)
Record covers (slots : list slot) (R : dict (list PromptReplacement)) : Prop := {
  cv_sound : ∀ mo rs r, (mo, rs) ∈ R -> r ∈ rs -> ∃ s, s ∈ slots ∧ mo = modality (sl_repl s) ∧ r = sl_repl s;
  cv_complete : ∀ s, s ∈ slots -> ∃ rs, (modality (sl_repl s), rs) ∈ R ∧ sl_repl s ∈ rs;
}.

Lemma covers_ok ids slots R : slots_ok ids slots -> covers slots R -> Forall (fun x : string * list PromptReplacement => Forall repl_ok x.2) R.
Proof.
  intros Hok [Hc _]. apply Forall_forall. intros [mo rs] Hin. apply Forall_forall. intros r Hr.
  destruct (Hc mo rs r Hin Hr) as (s & Hs & _ & ->). by apply (so_features _ _ Hok).
Qed.

Lemma counts_get ids slots s : slots_ok ids slots -> s ∈ slots -> default 0%Z (od_get (modality (sl_repl s)) (counts_of slots)) = sl_count s.
Proof. intros Hok Hs. unfold counts_of. by rewrite (od_get_map sl_count slots s (so_modalities _ _ Hok) Hs). Qed.

Lemma occurs_head (l m : list Z) i : m ≠ [] -> occurs l m i -> l !! i = head m.
Proof.
  intros Hm [_ Ho]. destruct m as [|h m]; [done|]. cbn [head]. pose proof (f_equal (.!! 0) Ho) as E. cbn beta in E.
  rewrite slice_lookup in E. rewrite decide_True in E by (cbn; lia). by rewrite Nat.add_0_r in E.
Qed.

Lemma occurs_middle (a m b : list Z) : occurs (a ++ m ++ b) m (length a).
Proof.
  split; [rewrite !length_app; lia|]. unfold slice. rewrite drop_app_length. replace (length a + length m - length a) with (length m) by lia.
  apply take_app_length.
Qed.

Lemma same_slot ids slots s s' : slots_ok ids slots -> s ∈ slots -> s' ∈ slots -> modality (sl_repl s) = modality (sl_repl s') -> s = s'.
Proof.
  intros Hok Hs Hs' E. pose proof (od_get_map (fun s => s) slots s (so_modalities _ _ Hok) Hs) as E1.
  pose proof (od_get_map (fun s => s) slots s' (so_modalities _ _ Hok) Hs') as E2. rewrite E in E1. cbn beta in E1, E2. rewrite E1 in E2. by injection E2.
Qed.

(** At a token that stands for no item, nothing is found. *)
Lemma no_placeholder ids slots R next out start x :
  slots_ok ids slots -> covers slots R -> x ∈ ids -> out !! start = Some x ->
  (∀ s, s ∈ slots -> 0 <= default 0 (next !! modality (sl_repl s)))%Z ->
  (∀ s, s ∈ slots -> sl_token s = x -> sl_count s <= default 0 (next !! modality (sl_repl s)))%Z ->
  try_modalities out start (counts_of slots) next R = Ok None.
Proof.
  intros Hok Hcov Hx Hstart Hpos Hdone. pose proof (try_modalities_spec out start (counts_of slots) next R) as Ht.
  destruct (try_modalities _ _ _ _ _) as [[[p e]|]|e]; [exfalso|done|exfalso; destruct Ht as [_ []]; by eapply covers_ok].
  destruct Ht as ((rs & Hrs & r & Hr & Hne & Ho & _) & Hidx & Hlt). destruct (cv_sound _ _ Hcov _ _ _ Hrs Hr) as (s & Hs & Hmo & ->).
  rewrite Hmo in Hidx, Hlt. rewrite (counts_get ids slots s Hok Hs) in Hlt. cbn [fst] in Ho. apply occurs_head in Ho; [|done]. rewrite Hstart in Ho.
  pose proof (Hpos s Hs). assert (x = sl_token s) as Hxs by (eapply (so_heads _ _ Hok s (pi_item_idx p)); [done|lia|by symmetry|done]).
  specialize (Hdone s Hs ltac:(done)). lia.
Qed.

(** Where an item was put in, it is found. *)
Lemma one_placeholder ids slots R next a b s :
  slots_ok ids slots -> covers slots R -> s ∈ slots ->
  (∀ s, s ∈ slots -> 0 <= default 0 (next !! modality (sl_repl s)))%Z ->
  let k := default 0%Z (next !! modality (sl_repl s)) in
  (k < sl_count s)%Z ->
  let full := full_ids (sl_repl s) k in
  try_modalities (a ++ full ++ b) (length a) (counts_of slots) next R =
    Ok (Some (mkPlaceholderInfo (modality (sl_repl s)) k (length a + first_feature (sl_repl s) k) (feature_ids (sl_repl s) k), length a + length full)).
Proof.
  intros Hok Hcov Hs Hpos k Hk full. pose proof (Hpos s Hs) as Hk0. fold k in Hk0.
  pose proof (so_full _ _ Hok s k Hs ltac:(lia)) as Hne. fold full in Hne.
  pose proof (try_modalities_spec (a ++ full ++ b) (length a) (counts_of slots) next R) as Ht.
  destruct (try_modalities _ _ _ _ _) as [[[p e]|]|e]; [|exfalso|exfalso; destruct Ht as [_ []]; by eapply covers_ok].
  - destruct Ht as ((rs & Hrs & r & Hr & Hfull & Ho & He & Htok & _ & _ & _ & _ & i & j & L & Ei & Hi) & Hidx & Hlt).
    destruct (cv_sound _ _ Hcov _ _ _ Hrs Hr) as (s' & Hs' & Hmo & ->).
    rewrite Hmo in Hidx, Hlt. rewrite (counts_get ids slots s' Hok Hs') in Hlt. cbn [fst snd] in Ho, He, Hi.
    assert (s = s') as <-.
    { pose proof (Hpos s' Hs'). apply occurs_head in Ho; [|done]. pose proof (occurs_head _ _ _ Hne (occurs_middle a full b)) as Hh.
      eapply (so_apart _ _ Hok s s' k (pi_item_idx p)); [done|done|lia|lia|]. rewrite <-Ho. symmetry. exact Hh. }
    fold k in Hidx. destruct p as [pm pk ps pt]. cbn in *. subst pm pk pt. unfold first_feature. rewrite Ei. subst ps e. done.
  - destruct (cv_complete _ _ Hcov s Hs) as (rs & Hrs & Hr). eapply (Ht _ rs (sl_repl s)); [done|done| |done|apply occurs_middle].
    rewrite (counts_get ids slots s Hok Hs). done.
Qed.

Lemma search_expand ids slots R suf : slots_ok ids slots -> covers slots R -> (∀ x, x ∈ suf -> x ∈ ids) -> ∀ a next fuel,
  (∀ s, s ∈ slots -> 0 <= default 0 (next !! modality (sl_repl s)))%Z ->
  length (expand slots next (length a) suf).1 < fuel ->
  placeholder_loop fuel R (a ++ (expand slots next (length a) suf).1) (counts_of slots) (length a) next = Ok (expand slots next (length a) suf).2.
Proof.
  intros Hok Hcov. induction suf as [|x suf IH]; intros Hsub a next fuel Hpos Hf; (destruct fuel as [|fuel]; [lia|]).
  { cbn [expand fst snd placeholder_loop]. rewrite app_nil_r, Nat.ltb_irrefl. done. }
  assert (Hsub' : ∀ y, y ∈ suf -> y ∈ ids) by (intros y Hy; apply Hsub; by right).
  assert (Hx : x ∈ ids) by (apply Hsub; by left).
  assert (Hskip : length (expand slots next (S (length a)) suf).1 < fuel ->
    (∀ s, s ∈ slots -> sl_token s = x -> sl_count s <= default 0 (next !! modality (sl_repl s)))%Z ->
    placeholder_loop (S fuel) R (a ++ x :: (expand slots next (S (length a)) suf).1) (counts_of slots) (length a) next = Ok (expand slots next (S (length a)) suf).2).
  { intros Hfu Hdone. cbn [placeholder_loop]. destruct (Nat.ltb_spec (length a) (length (a ++ x :: (expand slots next (S (length a)) suf).1))) as [_|Hge];
      [|rewrite length_app in Hge; cbn in Hge; lia].
    rewrite (no_placeholder ids slots R next _ _ x); [|done|done|done|by rewrite list_lookup_middle|done|done]. cbn [mbind result_bind].
    specialize (IH Hsub' (a ++ [x]) next fuel Hpos). rewrite length_app, Nat.add_1_r, <-app_assoc in IH. by apply IH. }
  cbn [expand] in Hf |- *. destruct (slot_of slots x) as [s|] eqn:Es.
  2: { cbn [fst snd length] in Hf |- *. apply Hskip; [lia|]. intros s Hs Ht. rewrite <-Ht, (slot_of_token slots s) in Es; [done|apply Hok|done]. }
  apply slot_of_elem in Es as [Hs Ht]. destruct (Z.ltb_spec (default 0%Z (next !! modality (sl_repl s))) (sl_count s)) as [Hlt|Hge].
  - set (k := default 0%Z (next !! modality (sl_repl s))) in *. set (full := full_ids (sl_repl s) k) in *. cbn [fst snd] in Hf |- *.
    set (rest := expand _ _ _ suf) in *. pose proof (Hpos s Hs) as Hk0. fold k in Hk0.
    pose proof (so_full _ _ Hok s k Hs ltac:(lia)) as Hne. fold full in Hne. assert (0 < length full) by (destruct full; [done|cbn; lia]).
    rewrite length_app in Hf. cbn [placeholder_loop]. destruct (Nat.ltb_spec (length a) (length (a ++ full ++ rest.1))) as [_|Hge'];
      [|rewrite !length_app in Hge'; lia].
    pose proof (one_placeholder ids slots R next a rest.1 s Hok Hcov Hs Hpos Hlt) as Ep. cbn zeta in Ep. fold k in Ep. fold full in Ep.
    rewrite Ep. cbn [mbind result_bind pi_modality pi_item_idx].
    specialize (IH Hsub' (a ++ full) (<[modality (sl_repl s) := (k + 1)%Z]> next) fuel). rewrite length_app, <-app_assoc in IH. fold rest in IH.
    rewrite IH; [done| |lia]. intros s' Hs'. destruct (decide (modality (sl_repl s) = modality (sl_repl s'))) as [E|E].
    + rewrite <-E, lookup_insert_eq. cbn. lia.
    + rewrite lookup_insert_ne by done. by apply Hpos.
  - cbn [fst snd length] in Hf |- *. apply Hskip; [lia|]. intros s' Hs' Ht'.
    assert (s' = s) as ->; [|done]. pose proof (slot_of_token slots s (so_tokens _ _ Hok) Hs) as E1.
    pose proof (slot_of_token slots s' (so_tokens _ _ Hok) Hs') as E2. rewrite Ht, <-Ht' in E1. congruence.
Qed.

(** *** Replacing and searching *)

Lemma matched_covers ids slots : slots_ok ids slots ->
  covers slots (matched_repls ((fun s => (modality (sl_repl s), matches_of ids 0 s)) <$> slots)).
Proof.
  intros Hok. unfold matched_repls. rewrite <-list_fmap_compose. split.
  - intros mo rs r (s & [= -> ->] & Hs)%list_elem_of_fmap Hr. exists s. split; [done|]. split; [done|].
    cbn in Hr. apply list_elem_of_fmap in Hr as (m & -> & Hm). unfold matches_of in Hm. by apply list_elem_of_fmap in Hm as (i & -> & _).
  - intros s Hs. exists (prompt_repl <$> matches_of ids 0 s). split; [by apply list_elem_of_fmap; exists s|].
    pose proof (so_enough _ _ Hok s Hs) as He. rewrite <-(idx_of_occ (sl_token s) ids 0) in He. unfold matches_of.
    destruct (idx_of (sl_token s) 0 ids) as [|i l]; [cbn in He; lia|]. rewrite !fmap_cons. by left.
Qed.

Lemma repls_covers slots : covers slots (repls_of slots).
Proof.
  unfold repls_of. split.
  - intros mo rs r (s & [= -> ->] & Hs)%list_elem_of_fmap ->%list_elem_of_singleton. by exists s.
  - intros s Hs. exists [sl_repl s]. split; [by apply list_elem_of_fmap; exists s|by left].
Qed.

Lemma enough_one ids slots : slots_ok ids slots ->
  enough_matches ((fun s => (modality (sl_repl s), matches_of ids 0 s)) <$> slots) (counts_of slots) = true.
Proof.
  intros Hok. unfold enough_matches. apply List.forallb_forall. intros [mo n]. rewrite <-list_elem_of_In. intros (s & [= -> ->] & Hs)%list_elem_of_fmap. cbn [fst snd].
  rewrite (od_get_map (matches_of ids 0) slots s (so_modalities _ _ Hok) Hs). cbn [from_option]. unfold matches_of. rewrite length_fmap.
  pose proof (so_enough _ _ Hok s Hs). rewrite <-(idx_of_occ (sl_token s) ids 0) in *. apply Z.leb_le. lia.
Qed.

Lemma apply_expand ids slots : slots_ok ids slots -> slots ≠ [] ->
  let out := (expand slots ∅ 0 ids).1 in
  _apply_prompt_replacements ids (repls_of slots) (counts_of slots) = Ok (out, decode_tokens out, full_groupby pi_modality (expand slots ∅ 0 ids).2).
Proof.
  intros Hok Hne out. unfold _apply_prompt_replacements. rewrite find_all_one by apply Hok. cbn [mbind result_bind].
  rewrite (enough_one ids slots Hok), (replace_one ids slots Hok Hne). cbn [mbind result_bind]. fold out.
  unfold find_mm_placeholders, _iter_placeholders.
  pose proof (search_expand ids slots _ ids Hok (matched_covers ids slots Hok) (fun x Hx => Hx) [] ∅ (S (length out))) as Es.
  cbn [app length] in Es. fold out in Es. rewrite Es; [done| |by apply Nat.lt_succ_diag_r]. intros s _. by rewrite lookup_empty.
Qed.

(** *** The HF processor inserted nothing *)

Lemma hf_none ids slots : slots_ok ids slots -> (∀ s i, s ∈ slots -> ~ occurs ids (full_ids (sl_repl s) 0) i) ->
  find_mm_placeholders (repls_of slots) ids (counts_of slots) = Ok [].
Proof.
  intros Hok Hno. unfold find_mm_placeholders. pose proof (iter_placeholders_spec (repls_of slots) ids (counts_of slots)) as Hs.
  destruct (_iter_placeholders _ _ _) as [l|e]; cbn [mbind result_bind].
  2: { destruct Hs as [_ []]. eapply covers_ok; [done|apply repls_covers]. }
  destruct l as [|p l]; [done|exfalso]. destruct Hs as [(segs & Hsegs & _) Hidx _]. specialize (Hidx (pi_modality p)).
  rewrite filter_cons, decide_True in Hidx by done. rewrite lookup_empty, fmap_cons in Hidx. cbn [default length] in Hidx.
  rewrite Nat2Z.inj_succ in Hidx. rewrite seqZ_cons in Hidx by lia. injection Hidx as H0 _.
  apply Forall2_cons_inv_l in Hsegs as (seg & segs' & (_ & rs & Hrs & r & Hr & _ & Ho & _) & _ & _).
  destruct (cv_sound _ _ (repls_covers slots) _ _ _ Hrs Hr) as (s & Hs & _ & ->). rewrite H0 in Ho. by eapply Hno.
Qed.

Lemma missing_all slots all : (∀ s, s ∈ slots -> s ∈ all) -> NoDup ((fun s => modality (sl_repl s)) <$> all) -> (∀ s, s ∈ slots -> 0 < sl_count s)%Z ->
  missing_repls (repls_of all) (counts_of all) (counts_of slots) = Ok (repls_of slots).
Proof.
  intros Hsub Hn Hpos. induction slots as [|s slots IH]; [done|]. unfold counts_of at 2, repls_of at 2. rewrite !fmap_cons. cbn [missing_repls].
  assert (Hs : s ∈ all) by (apply Hsub; by left). pose proof (Hpos s ltac:(by left)) as Hp.
  destruct (Z.eqb_spec (sl_count s) 0) as [|_]; [lia|].
  assert (Hc : od_get (modality (sl_repl s)) (counts_of all) = Some (sl_count s)) by exact (od_get_map sl_count all s Hn Hs).
  assert (Hr : od_get (modality (sl_repl s)) (repls_of all) = Some [sl_repl s]) by exact (od_get_map (fun s => [sl_repl s]) all s Hn Hs).
  rewrite Hc, Hr. cbn [default from_option]. unfold default. cbn [from_option]. rewrite Z.eqb_refl. cbn [or_raise mbind result_bind].
  fold (counts_of slots). fold (repls_of slots). rewrite IH; [done|intros; apply Hsub; by right|intros; apply Hpos; by right].
Qed.

(** Every item gets a placeholder. *)
Lemma places_count ids slots s suf : slots_ok ids slots -> s ∈ slots -> ∀ next off, (default 0 (next !! modality (sl_repl s)) <= sl_count s)%Z ->
  len (filter (fun p => pi_modality p = modality (sl_repl s)) (expand slots next off suf).2) =
    (Z.min (sl_count s - default 0 (next !! modality (sl_repl s))) (occ (sl_token s) suf))%Z.
Proof.
  intros Hok Hs. induction suf as [|x suf IH]; intros next off Hle; [cbn; lia|]. cbn [expand occ].
  pose proof (occ_nonneg (sl_token s) suf) as Ho. destruct (slot_of slots x) as [s'|] eqn:Es.
  - apply slot_of_elem in Es as [Hs' Hx]. destruct (decide (sl_token s' = sl_token s)) as [Et|Hne].
    + assert (s' = s) as ->.
      { pose proof (slot_of_token slots s (so_tokens _ _ Hok) Hs) as E1. pose proof (slot_of_token slots s' (so_tokens _ _ Hok) Hs') as E2. congruence. }
      rewrite decide_True by done. destruct (Z.ltb_spec (default 0%Z (next !! modality (sl_repl s))) (sl_count s)) as [Hlt|Hge]; cbn [snd].
      * rewrite filter_cons. rewrite decide_True by done. cbn [length]. rewrite Nat2Z.inj_succ, IH by (rewrite lookup_insert_eq; cbn; lia).
        rewrite lookup_insert_eq. cbn [default from_option]. unfold default. cbn. lia.
      * rewrite IH by done. lia.
    + rewrite decide_False by congruence.
      assert (modality (sl_repl s') ≠ modality (sl_repl s)) as Hmo by (intros E; apply Hne; f_equal; by eapply same_slot).
      destruct (_ <? _)%Z; cbn [snd]; [|rewrite IH by done; lia]. rewrite filter_cons, decide_False by done.
      rewrite IH by (by rewrite lookup_insert_ne). rewrite lookup_insert_ne by done. lia.
  - cbn [snd]. rewrite decide_False; [rewrite IH by done; lia|]. intros <-. rewrite (slot_of_token slots s) in Es; [done|apply Hok|done].
Qed.

Lemma dict_merge_nil {A} (b : dict A) : ∀ a, NoDup (a ++ b).*1 -> dict_merge a b = a ++ b.
Proof.
  induction b as [|[k v] b IH]; intros a Hn; [by rewrite app_nil_r|]. unfold dict_merge. cbn [foldl fst snd]. fold (dict_merge (od_set k v a) b).
  assert (Hset : od_set k v a = a ++ [(k, v)]).
  { assert (Hk : k ∉ a.*1). { rewrite fmap_app, fmap_cons in Hn. apply NoDup_app in Hn as (_ & Hn & _). intros Hk. apply (Hn k Hk). by left. }
    clear Hn IH. induction a as [|[k' v'] a IHa]; [done|]. rewrite fmap_cons in Hk. apply not_elem_of_cons in Hk as [Hk1 Hk2]. cbn [od_set].
    rewrite decide_False by done. cbn [app]. by rewrite IHa. }
  rewrite Hset, IH; [by rewrite <-app_assoc|]. by rewrite <-app_assoc.
Qed.

Lemma validate_all ph counts : (∀ mo n, (mo, n) ∈ counts -> len (default [] (od_get mo ph)) = n) -> ∃ m, _validate_mm_placeholders false ph counts = Ok m.
Proof.
  induction counts as [|[mo n] counts IH]; intros H; [by eexists|]. cbn [_validate_mm_placeholders].
  rewrite (H mo n) by (by left). rewrite Z.eqb_refl. cbn [negb andb].
  destruct IH as [m E]; [intros mo' n' Hin; apply H; by right|]. rewrite E. cbn [mbind result_bind]. by eexists.
Qed.

Lemma place_expand ids slots : slots_ok ids slots -> (∀ s i, s ∈ slots -> ~ occurs ids (full_ids (sl_repl s) 0) i) ->
  let out := (expand slots ∅ 0 ids).1 in
  place_items false ids (repls_of slots) (counts_of slots) = Ok (out, decode_tokens out, full_groupby pi_modality (expand slots ∅ 0 ids).2).
Proof.
  intros Hok Hno out. unfold place_items. rewrite (hf_none ids slots Hok Hno). cbn [mbind result_bind]. rewrite validate_missing. cbn [mbind result_bind].
  assert (Hmiss : (fun x : string * Z => (x.1, x.2 - len (default [] (od_get x.1 ([] : dict (list PlaceholderFeaturesInfo)))))%Z) <$> counts_of slots = counts_of slots).
  { rewrite <-(list_fmap_id (counts_of slots)) at 2. apply list_fmap_ext. intros i [mo n] _. cbn. by rewrite Z.sub_0_r. }
  rewrite Hmiss, (missing_all slots slots); [|done|apply Hok|intros s Hs; by apply (so_enough _ _ Hok)]. cbn [mbind result_bind].
  destruct slots as [|s0 slots]; [cbn; unfold out; clear; assert (E : (expand [] ∅ 0 ids) = (ids, [])); [|by rewrite E]|].
  { generalize 0, (∅ : gmap string Z). induction ids as [|x ids IH]; intros n next; [done|]. cbn [expand slot_of filter list_filter head]. by rewrite IH. }
  set (sl := s0 :: slots) in *. assert (Hf : forallb (fun r : string * list PromptReplacement => bool_decide (r.2 = [])) (repls_of sl) = false) by done.
  rewrite Hf, (apply_expand ids sl Hok) by done. cbn [mbind result_bind fst snd].
  rewrite dict_merge_nil by (apply groupby_keys; constructor). cbn [app].
  destruct (validate_all (full_groupby pi_modality (expand sl ∅ 0 ids).2) (counts_of sl)) as [m Em]; [|rewrite Em; done].
  intros mo n (s & [= -> ->] & Hs)%list_elem_of_fmap. rewrite full_groupby_get, (places_count ids sl s ids Hok Hs).
  - rewrite lookup_empty. cbn. pose proof (so_enough _ _ Hok s Hs). lia.
  - rewrite lookup_empty. cbn. pose proof (so_enough _ _ Hok s Hs). lia.
Qed.
End search.
