(* ===== verification/MMProcCache.v ===== *)
(** * The processing cache is transparent

    [_cached_apply_hf_processor] hands only the items that are not cached to the HF
    processor and merges.  If the HF processor treats items one by one and the hash
    determines the item, the merged items are those it would return for all of them, in
    order, whatever was cached or evicted. *)

From stdpp Require Import base tactics list gmap sets strings sorting.
From Stdlib Require Import ZArith Lia.
From S2P Require Import Prelude.
From S2P Require Import Request.
From S2P Require Import MMMapper.
From S2P Require Import Processor.
From S2P Require Import MMProcessing.
From S2P Require Import MMProcMatch.
From S2P Require Import MMProcPlace.

Local Open Scope Z_scope.

Section cache.
Context `{TK : !PromptTokenizer} {Item KwItem : Type}.
Context (kw_modality : KwItem -> string).
Context (hf_processor : pystr -> dict (list Item) -> result (list Z * list KwItem)).
Context (dummy_text : dict Z -> pystr).
Context (passthrough : dict (list Item) -> bool).
Context (hash_kwargs : string -> Item -> string).
Context (limit_per_prompt : dict Z).

(** What the HF processor makes of one item. *)
Context (process : string -> Item -> KwItem).

(** [kw] are the processed [items], modality by modality in order. *)
Definition processed (kw : list KwItem) (items : dict (list Item)) : Prop :=
  ∀ mo, filter (fun k => kw_modality k = mo) kw = process mo <$> default [] (od_get mo items).

(** Items are processed one by one. *)
Record one_by_one : Prop := {
  ob_modality : ∀ mo item, kw_modality (process mo item) = mo;
  ob_items : ∀ text items ids kw, hf_processor text items = Ok (ids, kw) -> processed kw items;
}.

(** Items with the same hash are processed to the same result. *)
Definition hash_ok : Prop := ∀ mo mo' item item', hash_kwargs mo item = hash_kwargs mo' item' -> process mo item = process mo' item'.

(** Every entry is what processing its item gives. *)
Record cache_ok (c : LRUCache KwItem) : Prop := {
  co_lru : lru_ok c;
  co_entries : ∀ k v mo item, (k, v) ∈ lru_cache c -> hash_kwargs mo item = k -> v = process mo item;
}.

Lemma filter_process (Hmo : ∀ mo item, kw_modality (process mo item) = mo) mo mo' (l : list Item) :
  filter (fun k => kw_modality k = mo) (process mo' <$> l) = if decide (mo' = mo) then process mo <$> l else [].
Proof.
  induction l as [|x l IH]; [by case_decide|]. rewrite fmap_cons, filter_cons, IH. rewrite Hmo.
  repeat case_decide; subst; try done.
Qed.

Lemma processed_concat (Hmo : ∀ mo item, kw_modality (process mo item) = mo) (items : dict (list Item)) : NoDup items.*1 -> processed (concat ((fun x : string * list Item => process x.1 <$> x.2) <$> items)) items.
Proof.
  intros Hn mo. induction items as [|[k l] items IH]; [done|]. rewrite fmap_cons in Hn. apply NoDup_cons in Hn as [Hk Hn].
  rewrite fmap_cons. cbn [concat fst snd od_get]. rewrite filter_app, (filter_process Hmo), (IH Hn). destruct (decide (mo = k)) as [->|Hne].
  - rewrite decide_True by done. destruct (od_get k items) as [l'|] eqn:E; [|by rewrite app_nil_r].
    destruct Hk. apply od_get_In in E. apply list_elem_of_fmap. by exists (k, l').
  - by rewrite decide_False.
Qed.

Context (H1 : one_by_one) (HH : hash_ok).

(** ** Reading the cache *)

Definition cached_ok (mo : string) (l : list (Item * option KwItem)) : Prop := ∀ item v, (item, Some v) ∈ l -> v = process mo item.

Lemma lru_get_ok c mo item : cache_ok c ->
  ∃ c' v, lru_get c (hash_kwargs mo item) None = Ok (c', v) ∧ cache_ok c' ∧ ∀ w, v = Some w -> w = process mo item.
Proof.
  intros [Hl He]. destruct (lru_get_spec c (hash_kwargs mo item) Hl) as (c' & E & Hl' & _ & Hc'). exists c', (od_get (hash_kwargs mo item) (lru_cache c)).
  split; [done|]. assert (Hv : ∀ w, od_get (hash_kwargs mo item) (lru_cache c) = Some w -> w = process mo item) by (intros w Hw%od_get_In; by eapply He).
  split; [|done]. split; [done|]. intros k v mo' item' Hin Hk. rewrite Hc' in Hin.
  destruct (od_get (hash_kwargs mo item) (lru_cache c)) as [w|]; [|by eapply He].
  apply elem_of_app in Hin as [Hin|[= -> ->]%list_elem_of_singleton]; [|rewrite (Hv w eq_refl); by apply HH].
  apply list_elem_of_filter in Hin as [_ Hin]. by eapply He.
Qed.

Lemma lru_put_ok c mo item : cache_ok c -> ∃ c', lru_put c (hash_kwargs mo item) (process mo item) = Ok c' ∧ cache_ok c'.
Proof.
  intros [Hl He]. destruct (lru_put_spec c (hash_kwargs mo item) (process mo item) Hl) as (c' & E & Hl' & Hc' & _). exists c'. split; [done|].
  split; [done|]. intros k v mo' item' Hin Hk. rewrite Hc' in Hin. unfold most_recent in Hin. eapply elem_of_submseteq in Hin; [|apply submseteq_drop].
  apply elem_of_app in Hin as [Hin|[= -> ->]%list_elem_of_singleton]; [|by apply HH].
  apply list_elem_of_filter in Hin as [_ Hin]. by eapply He.
Qed.

Lemma get_cached_spec mo items : ∀ c, cache_ok c ->
  ∃ l c', get_cached hash_kwargs mo items c = Ok (l, c') ∧ l.*1 = items ∧ cached_ok mo l ∧ cache_ok c'.
Proof.
  induction items as [|item items IH]; intros c Hc; [exists [], c; split; [done|]; split; [done|]; split; [|done]; by intros ?? ?%not_elem_of_nil|].
  cbn [get_cached]. destruct (lru_get_ok c mo item Hc) as (c1 & v & E & Hc1 & Hv). rewrite E. cbn [mbind result_bind fst snd].
  destruct (IH c1 Hc1) as (l & c2 & E2 & Hl & Hok & Hc2). rewrite E2. cbn [mbind result_bind fst snd].
  exists ((item, v) :: l), c2. split; [done|]. split; [by rewrite fmap_cons, Hl|]. split; [|done].
  intros item' w [[= -> <-]|Hin]%elem_of_cons; [by apply Hv|by eapply Hok].
Qed.

Lemma get_all_cached_spec items : ∀ c, cache_ok c ->
  ∃ l c', get_all_cached hash_kwargs items c = Ok (l, c') ∧ cache_ok c' ∧
    Forall2 (fun (x : string * list Item) (y : string * list (Item * option KwItem)) => y.1 = x.1 ∧ y.2.*1 = x.2 ∧ cached_ok y.1 y.2) items l.
Proof.
  induction items as [|[mo its] items IH]; intros c Hc; [by exists [], c|]. cbn [get_all_cached].
  destruct (get_cached_spec mo its c Hc) as (l & c1 & E & Hl & Hok & Hc1). rewrite E. cbn [mbind result_bind fst snd].
  destruct (IH c1 Hc1) as (ls & c2 & E2 & Hc2 & HF). rewrite E2. cbn [mbind result_bind fst snd].
  exists ((mo, l) :: ls), c2. split; [done|]. split; [done|]. by constructor.
Qed.

(** ** Merging *)

Lemma get_item_ok kws mo n kw : filter (fun k => kw_modality k = mo) kws !! n = Some kw -> get_item kw_modality kws mo (Z.of_nat n) = Ok kw.
Proof.
  intros Hn. unfold get_item. pose proof (full_groupby_get kw_modality kws mo) as Hg. rewrite <-Hg in Hn. clear Hg.
  destruct (full_groupby kw_modality kws) as [|x groups]; [done|].
  destruct (od_get mo (x :: groups)) as [l|]; [|done]. cbn in Hn. cbn [or_raise mbind result_bind]. rewrite Nat2Z.id, Hn. done.
Qed.

Abbreviation missing_of l := (filter (fun y : Item * option KwItem => y.2 = None) l).*1.

Lemma merge_items_spec mo kws l : ∀ n c, cached_ok mo l -> cache_ok c ->
  drop n (filter (fun k => kw_modality k = mo) kws) = process mo <$> missing_of l ->
  ∃ c', merge_items kw_modality hash_kwargs mo kws l (Z.of_nat n) c = Ok (process mo <$> l.*1, Z.of_nat n + len (missing_of l), c') ∧ cache_ok c'.
Proof.
  induction l as [|[item v] l IH]; intros n c Hok Hc Hd; [exists c; cbn; by rewrite Z.add_0_r|].
  assert (Hok' : cached_ok mo l) by (intros i w Hin; apply Hok; by right).
  rewrite filter_cons in Hd |- *. cbn [snd] in Hd |- *. destruct v as [w|]; cbn [merge_items].
  - rewrite decide_False in Hd |- * by done. destruct (IH n c Hok' Hc Hd) as (c' & E & Hc'). rewrite E. cbn [mbind result_bind fst snd].
    exists c'. split; [|done]. rewrite fmap_cons, fmap_cons. cbn [fst]. by rewrite (Hok item w) by (by left).
  - rewrite decide_True in Hd |- * by done. rewrite !fmap_cons in Hd. cbn [fst] in Hd.
    assert (Hn : filter (fun k => kw_modality k = mo) kws !! n = Some (process mo item)).
    { pose proof (f_equal (.!! 0%nat) Hd) as E. cbn beta in E. rewrite lookup_drop, Nat.add_0_r in E. exact E. }
    rewrite (get_item_ok kws mo n _ Hn). cbn [mbind result_bind]. destruct (lru_put_ok c mo item Hc) as (c1 & E1 & Hc1). rewrite E1. cbn [mbind result_bind].
    replace (Z.of_nat n + 1) with (Z.of_nat (S n)) by lia. destruct (IH (S n) c1 Hok' Hc1) as (c' & E & Hc').
    { rewrite (drop_S _ _ _ Hn) in Hd. by injection Hd. }
    rewrite E. cbn [mbind result_bind fst snd]. exists c'. split; [|done]. do 3 f_equal. rewrite fmap_cons. cbn [length]. lia.
Qed.

Lemma merge_all_spec kws cached : ∀ c, cache_ok c ->
  (∀ mo l, (mo, l) ∈ cached -> cached_ok mo l ∧ filter (fun k => kw_modality k = mo) kws = process mo <$> missing_of l) ->
  ∃ c', merge_all kw_modality hash_kwargs kws cached c =
      Ok (concat ((fun x : string * list (Item * option KwItem) => process x.1 <$> x.2.*1) <$> cached),
          (fun x : string * list (Item * option KwItem) => (x.1, len (missing_of x.2))) <$> cached, c') ∧ cache_ok c'.
Proof.
  induction cached as [|[mo l] cached IH]; intros c Hc Hl; [by exists c|]. cbn [merge_all]. destruct (Hl mo l) as [Hok Hf]; [by left|].
  destruct (merge_items_spec mo kws l 0 c Hok Hc Hf) as (c1 & E & Hc1). change (Z.of_nat 0) with 0 in E.
  rewrite E, Z.add_0_l. cbn [mbind result_bind fst snd].
  destruct (IH c1 Hc1) as (c2 & E2 & Hc2); [intros; apply Hl; by right|]. rewrite E2. cbn [mbind result_bind fst snd].
  exists c2. split; [|done]. by rewrite !fmap_cons.
Qed.

(** ** Grouped by modality *)

Lemma od_get_elem {A} mo (v : A) d : NoDup d.*1 -> (mo, v) ∈ d -> od_get mo d = Some v.
Proof.
  induction d as [|[k w] d IH]; intros Hn Hin; [by apply not_elem_of_nil in Hin|]. rewrite fmap_cons in Hn. apply NoDup_cons in Hn as [Hk Hn].
  cbn [od_get]. apply elem_of_cons in Hin as [[= -> ->]|Hin]; [by rewrite decide_True|]. rewrite decide_False; [by apply IH|].
  intros ->. destruct Hk. apply list_elem_of_fmap. by exists (k, v).
Qed.

(** ** The whole operation *)

Abbreviation step_ok := (Forall2 (fun (x : string * list Item) (y : string * list (Item * option KwItem)) =>
  y.1 = x.1 ∧ y.2.*1 = x.2 ∧ cached_ok y.1 y.2)).

Lemma cached_keys items l : step_ok items l -> l.*1 = items.*1.
Proof. induction 1 as [|x y items l [E _] HF IH]; [done|]. by rewrite !fmap_cons, E, IH. Qed.

Lemma cached_items items l : step_ok items l ->
  concat ((fun x : string * list (Item * option KwItem) => process x.1 <$> x.2.*1) <$> l) = concat ((fun x : string * list Item => process x.1 <$> x.2) <$> items).
Proof. induction 1 as [|x y items l (E1 & E2 & _) HF IH]; [done|]. rewrite !fmap_cons. cbn [concat]. by rewrite E1, E2, IH. Qed.

Lemma missing_limit items l : step_ok items l -> _to_mm_items limit_per_prompt items = Ok items ->
  _to_mm_items limit_per_prompt (missing_items l) = Ok (missing_items l).
Proof.
  unfold _to_mm_items. intros HF Hi. destruct (forallb _ items) eqn:E; [clear Hi|done].
  assert (forallb (fun x : string * list Item => len x.2 <=? default 1 (od_get x.1 limit_per_prompt)) (missing_items l) = true) as ->; [|done].
  induction HF as [|x y items l (E1 & E2 & _) HF IH]; [done|]. cbn [forallb] in E. apply andb_prop in E as [E E']. unfold missing_items.
  rewrite fmap_cons. fold (missing_items l). cbn [forallb fst snd]. rewrite (IH E'), andb_true_r. apply Z.leb_le. apply Z.leb_le in E. rewrite E1.
  rewrite <-E2, length_fmap in E. rewrite length_fmap. pose proof (length_filter (fun z : Item * option KwItem => z.2 = None) y.2). lia.
Qed.

(** The error of [_apply_hf_processor_main] is one of the HF processor. *)
Lemma main_spec prompt items enable :
  match _apply_hf_processor_main hf_processor dummy_text prompt items enable with
  | Ok x => processed x.2 items
  | Err e => ∃ text its, hf_processor text its = Err e
  end.
Proof.
  assert (Hmm : match _apply_hf_processor_mm_only hf_processor dummy_text items with
                | Ok kw => processed kw items | Err e => ∃ text its, hf_processor text its = Err e end).
  { unfold _apply_hf_processor_mm_only. destruct (hf_processor _ items) as [[ids kw]|e] eqn:E; cbn [mbind result_bind]; [by eapply (ob_items H1)|by eauto]. }
  unfold _apply_hf_processor_main. destruct prompt as [text|ids].
  - destruct enable.
    + destruct (hf_processor text items) as [[ids kw]|e] eqn:E; [by eapply (ob_items H1)|by eauto].
    + unfold _apply_hf_processor_text_only. destruct (hf_processor text []) as [[ids kw]|e] eqn:E; cbn [mbind result_bind]; [|by eauto].
      destruct (_apply_hf_processor_mm_only _ _ items); cbn [mbind result_bind]; done.
  - destruct (_apply_hf_processor_mm_only _ _ items); cbn [mbind result_bind]; done.
Qed.

Lemma cached_spec cache prompt items : NoDup items.*1 -> _to_mm_items limit_per_prompt items = Ok items ->
  (∀ c, cache = Some c -> cache_ok c) ->
  match _cached_apply_hf_processor kw_modality hf_processor dummy_text passthrough hash_kwargs limit_per_prompt cache prompt items with
  | Ok (ids, kw, cache') => processed kw items ∧ ∀ c', cache' = Some c' -> cache_ok c'
  | Err e => ∃ text its, hf_processor text its = Err e
  end.
Proof.
  intros Hn Hlim Hc. unfold _cached_apply_hf_processor.
  assert (Hmain : ∀ en, match (x ← _apply_hf_processor_main hf_processor dummy_text prompt items en; Ok (x, cache)) with
    | Ok (ids, kw, cache') => processed kw items ∧ ∀ c', cache' = Some c' -> cache_ok c'
    | Err e => ∃ text its, hf_processor text its = Err e end).
  { intros en. pose proof (main_spec prompt items en) as Hm.
    destruct (_apply_hf_processor_main _ _ prompt items en) as [[ids kw]|e]; cbn [mbind result_bind]; done. }
  destruct cache as [c|]; [|apply Hmain]. destruct (passthrough items); [apply Hmain|clear Hmain].
  destruct (get_all_cached_spec items c (Hc c eq_refl)) as (l & c1 & E & Hc1 & HF). rewrite E. cbn [mbind result_bind fst snd].
  rewrite (missing_limit items l HF Hlim). cbn [mbind result_bind]. pose proof (main_spec prompt (missing_items l) false) as Hm.
  destruct (_apply_hf_processor_main _ _ prompt (missing_items l) false) as [[ids kw]|e]; cbn [mbind result_bind fst snd] in *; [|done].
  assert (Hkeys : NoDup (missing_items l).*1).
  { unfold missing_items. rewrite <-list_fmap_compose. change (NoDup (fst <$> l)). by rewrite (cached_keys items l HF). }
  assert (Hget : ∀ mo ys, (mo, ys) ∈ l -> od_get mo (missing_items l) = Some (missing_of ys)).
  { intros mo ys Hin. apply od_get_elem; [done|]. apply list_elem_of_fmap. by exists (mo, ys). }
  destruct (merge_all_spec kw l c1 Hc1) as (c2 & E2 & Hc2).
  { intros mo ys Hin. split; [|by rewrite (Hm mo), (Hget mo ys Hin)].
    apply list_elem_of_lookup in Hin as [i Hi]. by destruct (Forall2_lookup_r _ _ _ _ _ HF Hi) as (x & _ & _ & _ & ?). }
  rewrite E2. cbn [mbind result_bind fst snd].
  assert (Hassert : forallb (fun z : string * Z => bool_decide (od_get z.1 (get_all_counts (missing_items l)) = Some z.2))
      ((fun x : string * list (Item * option KwItem) => (x.1, len (missing_of x.2))) <$> l) = true).
  { apply List.forallb_forall. intros [mo n]. rewrite <-list_elem_of_In. intros ([mo' ys] & [= -> ->] & Hin)%list_elem_of_fmap. cbn [fst snd].
    apply bool_decide_eq_true_2. apply od_get_elem.
    - unfold get_all_counts. rewrite <-list_fmap_compose. exact Hkeys.
    - unfold get_all_counts. apply list_elem_of_fmap. exists (mo', missing_of ys). split; [done|]. apply list_elem_of_fmap. by exists (mo', ys). }
  rewrite Hassert. cbn [py_assert mbind result_bind]. split; [|by intros c' [= <-]].
  rewrite (cached_items items l HF). apply processed_concat; [apply H1|done].
Qed.
End cache.
