(* ===== verification/MMProcTheorems.v ===== *)
(** * Correctness of the multi-modal prompt processor

    What [BaseMultiModalProcessor.apply] and the functions it is made of promise to the
    input processor: the token ids, the processed items and the placeholder ranges agree. *)

From stdpp Require Import base tactics list gmap sets strings sorting.
From Stdlib Require Import ZArith Lia.
From S2P Require Import Prelude.
From S2P Require Import Request.
From S2P Require Import MMMapper.
From S2P Require Import Processor.
From S2P Require Import MMProcessing.
From S2P Require Import MMProcMatch.
From S2P Require Import MMProcPlace.
From S2P Require Import MMProcExpand.
From S2P Require Import MMProcCache.

(** ** A processor to evaluate: characters are tokens *)

Definition char_tokenizer : PromptTokenizer := {| encode_tokens := fun l => l; decode_tokens := fun l => l |}.
#[local] Existing Instance char_tokenizer.

Definition const_repl (mo : string) (t : list Z) (full : list Z) : PromptReplacement :=
  mkReplacement mo (PromptTokens t) (ReplConst (ReplSeq (PromptTokens full))).

(** Image [k] has [k + 2] features, between two markers. *)
Definition demo_image : PromptReplacement :=
  mkReplacement "image" (PromptTokens [1%Z])
    (ReplCallable (fun k => ReplDetails (mkDetails (PromptTokens (8%Z :: replicate (Z.to_nat k + 2) 1%Z ++ [9%Z])) (PromptTokens (replicate (Z.to_nat k + 2) 1%Z))))).
Definition demo_audio : PromptReplacement := const_repl "audio" [2%Z] [3; 3]%Z.

(** ** Replacing *)

(** Finding the targets of any replacements in a prompt and replacing them is total.
    If two matches overlap the prompt is refused with a ValueError.  Otherwise, in order
    of position, the k-th match of a modality, for k below the modality's item count, is
    replaced by the replacement of item k and everything else is kept: putting the target
    back in place of every replacement gives the original prompt. *)
Theorem mm_replace_correct {TK : PromptTokenizer} prompt repls counts :
  ∃ mm, find_all (find_token_matches prompt) repls = Ok mm ∧
    if decide (all_disjoint (concat mm.*2)) then
      ∃ l, l ≡ₚ concat mm.*2 ∧ StronglySorted in_order l ∧
        replace_token_matches prompt mm counts = Ok (splice (full_of seq_token_ids) prompt 0 (chosen counts [] l)) ∧
        splice (fun m _ => seq_token_ids (target (prompt_repl m))) prompt 0 (chosen counts [] l) = prompt
    else replace_token_matches prompt mm counts = Err ValueError.
Proof.
  destruct (find_all_spec prompt repls) as (mm & E & _). exists mm. split; [done|]. pose proof (all_matches prompt repls mm E) as Hm.
  assert (Hp : Forall (proper_match (length prompt)) (concat mm.*2)) by (eapply Forall_impl; [exact Hm|]; by intros m (_ & ? & _)).
  destruct mm as [|x mm].
  { cbn. exists []. split; [done|]. split; [constructor|]. done. }
  pose proof (resolve_spec (length prompt) (x :: mm) Hp) as Hr. unfold replace_token_matches, _replace_matches. case_decide as Hd.
  2: { by rewrite Hr. }
  destruct Hr as (l & El & HP & Hs). exists l. rewrite El. cbn [mbind result_bind]. split; [done|]. split; [done|]. split; [by rewrite replace_spec|].
  rewrite <-HP in Hm, Hp. rewrite Forall_forall in Hm, Hp. apply splice_id.
  - eapply sorted_sublist; [apply chosen_sublist|done].
  - apply Forall_forall. intros e He%chosen_elem. by apply Hp.
  - intros; lia.
  - intros m k He%chosen_elem. destruct (Hm m He) as (_ & _ & ?). done.
Qed.

(** ** One call of [apply] *)

(** C16: if the HF processor treats items one by one and the hash determines the item,
    then a call of [apply] that returns gives exactly the processed items of every
    modality, in order, whatever the cache held, leaves a sound cache, and gives one
    placeholder per item.  Let [ids] be the token ids that the (cached) call of the HF
    processor returned and [hf] the placeholders found in them.  When [hf] is empty, or,
    for a processor that does not always apply its replacements, when [hf] already has
    a placeholder for every item, the returned placeholders are disjoint ranges of the
    returned token ids, the k-th range of a modality holding the feature tokens of item
    k.  The other cases are left open: see [mm_stale_placeholders] for a wrong range
    when [hf] covers one modality and not another. *)
Theorem mm_apply_sound {TK : PromptTokenizer} {Item KwItem : Type} kw_modality hf_processor dummy_text passthrough hash_kwargs
    get_prompt_replacements limit always (process : string -> Item -> KwItem) cache prompt mm_data out cache' :
  one_by_one kw_modality hf_processor process -> hash_ok hash_kwargs process ->
  (∀ c, cache = Some c -> cache_ok hash_kwargs process c) -> NoDup mm_data.*1 ->
  processor_apply kw_modality hf_processor dummy_text passthrough hash_kwargs get_prompt_replacements limit always cache prompt mm_data = Ok (out, cache') ->
  processed kw_modality process (mmi_mm_kwargs out) mm_data ∧
  (∀ c, cache' = Some c -> cache_ok hash_kwargs process c) ∧
  (∀ mo items, (mo, items) ∈ mm_data -> length (default [] (od_get mo (mmi_mm_placeholders out))) = length items) ∧
  ∃ ids hf ph, let repls := full_groupby modality (get_prompt_replacements mm_data (mmi_mm_kwargs out)) in
    _cached_apply_hf_processor kw_modality hf_processor dummy_text passthrough hash_kwargs limit cache prompt mm_data = Ok (ids, mmi_mm_kwargs out, cache') ∧
    find_mm_placeholders repls ids (get_all_counts mm_data) = Ok hf ∧
    mmi_mm_placeholders out = (fun z : string * list PlaceholderFeaturesInfo => (z.1, to_range <$> z.2)) <$> ph ∧
    (hf_all_or_none always hf (get_all_counts mm_data) -> describes (mmi_prompt_token_ids out) repls ph).
Proof.
  intros H1 HH Hc Hn. unfold processor_apply. intros (items & Ei & H)%bind_Ok_inv.
  assert (items = mm_data) as ->. { unfold _to_mm_items in Ei. destruct (forallb _ _); [by apply Ok_inj in Ei|done]. }
  apply bind_Ok_inv in H as ([[ids kw] c1] & Ex & H).
  pose proof (cached_spec kw_modality hf_processor dummy_text passthrough hash_kwargs limit process H1 HH cache prompt mm_data Hn Ei Hc) as Hcs.
  rewrite Ex in Hcs. destruct Hcs as [Hkw Hc1]. apply bind_Ok_inv in H as (? & _ & H). apply bind_Ok_inv in H as ([[ids' text] ph] & Ep & H).
  apply Ok_inj in H as [= <- <-]. cbn. destruct (place_items_spec _ _ _ _ _ _ _ Ep) as (Hcount & hf & Ehf & Hd).
  assert (Hget : ∀ mo, od_get mo ((fun z : string * list PlaceholderFeaturesInfo => (z.1, to_range <$> z.2)) <$> ph) = (fun l : list PlaceholderFeaturesInfo => to_range <$> l) <$> od_get mo ph).
  { intros mo. clear. induction ph as [|[k l] ph IH]; [done|]. rewrite fmap_cons. cbn. by case_decide. }
  split; [done|]. split; [done|]. split.
  - intros mo items Hin. rewrite Hget. specialize (Hcount mo (len items)).
    assert (E : len (default [] (od_get mo ph)) = len items) by (apply Hcount; apply list_elem_of_fmap; by exists (mo, items)).
    apply Nat2Z.inj in E. rewrite <-E. destruct (od_get mo ph); cbn; [by rewrite length_fmap|done].
  - exists ids, hf, ph. done.
Qed.

(** Two images, one of them cached, and an audio clip; an item is a flag. *)
Module ApplyDemo.
Definition process (mo : string) (b : bool) : string * bool := (mo, b).
Definition hash (mo : string) (b : bool) : string := ((if b then "1" else "0") +:+ mo)%string.
Definition hf (text : pystr) (items : dict (list bool)) : result (list Z * list (string * bool)) :=
  if decide (NoDup items.*1) then Ok (text, concat ((fun x : string * list bool => process x.1 <$> x.2) <$> items)) else Err RuntimeError.
Definition repls (_ : dict (list bool)) (_ : list (string * bool)) : list PromptReplacement := [demo_image; demo_audio].
Definition data : dict (list bool) := [("image", [true; false]); ("audio", [true])]%string.
Definition cache : LRUCache (string * bool) := mkLRU [(hash "image" true, ("image"%string, true))] ∅ 4 0 0.
Definition run : result (MultiModalInputs * option (LRUCache (string * bool))) :=
  processor_apply fst hf (fun _ => []) (fun _ => false) hash repls [("image"%string, 2%Z)] false (Some cache) (PromptTokens [7; 1; 2; 1; 7]%Z) data.

Lemma hf_one_by_one : one_by_one fst hf process.
Proof.
  split; [done|]. intros text items ids kw. unfold hf. case_decide as Hn; [|done]. intros [= _ <-]. by apply processed_concat.
Qed.

Lemma hash_inj : hash_ok hash process.
Proof. intros mo mo' b b'. unfold hash, process. destruct b, b'; cbn; intros Heq; simplify_eq; done. Qed.

Lemma cache_sound : cache_ok hash process cache.
Proof.
  split; [split; [apply NoDup_singleton|done|done|done]|]. intros k v mo b Hin Hk. cbn in Hin. apply list_elem_of_singleton in Hin as [= -> ->].
  unfold hash in Hk. destruct b; cbn in Hk; simplify_eq. done.
Qed.
End ApplyDemo.

Lemma mm_apply_sound_witness : ∃ out cache', ApplyDemo.run = Ok (out, cache') ∧
  mmi_prompt_token_ids out = [7; 8; 1; 1; 9; 3; 3; 8; 1; 1; 1; 9; 7]%Z ∧
  mmi_mm_placeholders out = [("image", [mkPlaceholder 2 2; mkPlaceholder 8 3]); ("audio", [mkPlaceholder 5 2])]%string%Z ∧
  processed fst ApplyDemo.process (mmi_mm_kwargs out) ApplyDemo.data ∧
  ∃ ph, mmi_mm_placeholders out = (fun z : string * list PlaceholderFeaturesInfo => (z.1, to_range <$> z.2)) <$> ph ∧
    describes (mmi_prompt_token_ids out) (full_groupby modality [demo_image; demo_audio]) ph.
Proof.
  eexists _, _. split; [vm_compute; reflexivity|]. split; [reflexivity|]. split; [reflexivity|].
  edestruct (mm_apply_sound fst ApplyDemo.hf (fun _ => []) (fun _ => false) ApplyDemo.hash ApplyDemo.repls [("image"%string, 2%Z)] false ApplyDemo.process
    (Some ApplyDemo.cache) (PromptTokens [7; 1; 2; 1; 7]%Z) ApplyDemo.data) as (H1 & _ & _ & ids & hf & ph & E & Eh & Ep & Hd).
  - exact ApplyDemo.hf_one_by_one.
  - exact ApplyDemo.hash_inj.
  - intros c [= <-]. exact ApplyDemo.cache_sound.
  - apply (bool_decide_unpack (NoDup (ApplyDemo.data).*1)). vm_compute. exact I.
  - vm_compute. reflexivity.
  - split; [exact H1|]. exists ph. split; [exact Ep|]. apply Hd. left.
    vm_compute in E. injection E as <-. vm_compute in Eh. by injection Eh as <-.
Defined.

(** ** The specification of the common case *)

(** C17: the common case of placing the items, for a processor that does not always apply
    its replacements.  Assume ([slots_ok]): every modality has one replacement, whose
    target is a single token, different for different modalities, which occurs in the
    token ids at least as often as the modality has items; every replacement is
    non-empty and contains its features; the first token of a replacement does not
    occur in the token ids, unless it is the modality's own target; and replacements of
    different modalities start with different tokens.  Assume also that no replacement
    of a first item is in the token ids already.  Then the part of [apply] after the HF
    processor (search, validation, matching, resolving, replacing, searching again,
    validation) never fails and computes [expand]: the single pass that replaces the
    first tokens and notes where the features are.  Without the last condition on first
    tokens the ranges can be wrong ([mm_same_start_swaps]). *)
Theorem mm_place_expand {TK : PromptTokenizer} ids slots :
  slots_ok ids slots -> (∀ s i, s ∈ slots -> ~ occurs ids (full_ids (sl_repl s) 0) i) ->
  let out := (expand slots ∅ 0 ids).1 in
  place_items false ids (repls_of slots) (counts_of slots) = Ok (out, decode_tokens out, full_groupby pi_modality (expand slots ∅ 0 ids).2).
Proof. apply place_expand. Qed.

Definition demo_slots : list slot := [mkSlot 1 demo_image 2; mkSlot 2 demo_audio 1].
Definition demo_ids : list Z := [7; 1; 2; 1; 7; 1]%Z.

Lemma demo_cases s : s ∈ demo_slots -> s = mkSlot 1 demo_image 2 ∨ s = mkSlot 2 demo_audio 1.
Proof. intros [->|[->|?%not_elem_of_nil]%elem_of_cons]%elem_of_cons; auto; done. Qed.

Lemma demo_head s k : s ∈ demo_slots -> head (full_ids (sl_repl s) k) = Some (if bool_decide (sl_token s = 1%Z) then 8%Z else 3%Z).
Proof. intros [->| ->]%demo_cases; reflexivity. Qed.

Lemma demo_slots_ok : slots_ok demo_ids demo_slots.
Proof.
  assert (Hno : ∀ h, h = 8%Z ∨ h = 3%Z -> h ∉ demo_ids) by (intros h [->| ->]; apply (bool_decide_unpack (_ ∉ demo_ids)); vm_compute; exact I).
  split.
  - by intros s [->| ->]%demo_cases.
  - apply (bool_decide_unpack (NoDup (sl_token <$> demo_slots))). vm_compute. exact I.
  - apply (bool_decide_unpack (NoDup ((fun s => modality (sl_repl s)) <$> demo_slots))). vm_compute. exact I.
  - intros s [->| ->]%demo_cases; vm_compute; split; done.
  - intros s k Hs _ E. pose proof (demo_head s k Hs) as Hh. by rewrite E in Hh.
  - intros s [->| ->]%demo_cases k _; [|by split; [|exists 0; split; [cbn; lia|]]].
    split; [unfold feature_ids; cbn; rewrite Nat.add_comm; done|]. exists 1. apply (occurs_middle [8%Z] (replicate (Z.to_nat k + 2) 1%Z) [9%Z]).
  - intros s k h Hs _ Hh Hin. rewrite (demo_head s k Hs) in Hh. injection Hh as <-. exfalso. revert Hin. apply Hno.
    case_bool_decide; [by left|by right].
  - intros s s' k k' Hs Hs' _ _. rewrite (demo_head s k Hs), (demo_head s' k' Hs'). apply demo_cases in Hs as [->| ->], Hs' as [->| ->]; done.
Qed.

Lemma mm_place_expand_witness :
  place_items false demo_ids (repls_of demo_slots) (counts_of demo_slots) =
    Ok ([7; 8; 1; 1; 9; 3; 3; 8; 1; 1; 1; 9; 7; 1]%Z, [7; 8; 1; 1; 9; 3; 3; 8; 1; 1; 1; 9; 7; 1]%Z,
        [("image", [mkPlaceholderInfo "image" 0 2 [1; 1]; mkPlaceholderInfo "image" 1 8 [1; 1; 1]]); ("audio", [mkPlaceholderInfo "audio" 0 5 [3; 3]])]%string%Z).
Proof.
  refine (mm_place_expand demo_ids demo_slots demo_slots_ok _). intros s i Hs Ho. apply occurs_head in Ho; [|by destruct (demo_cases s Hs) as [->| ->]].
  rewrite (demo_head s 0 Hs) in Ho. apply list_elem_of_lookup_2 in Ho. revert Ho. case_bool_decide; intros Ho.
  - revert Ho. apply (bool_decide_unpack (8%Z ∉ demo_ids)). vm_compute. exact I.
  - revert Ho. apply (bool_decide_unpack (3%Z ∉ demo_ids)). vm_compute. exact I.
Defined.

(** ** Stale placeholders *)

(** When the HF processor has inserted the placeholders of one modality and those of
    another are still missing, the placeholders found before the replacement are kept
    although the tokens have moved: here the audio features are at 3, the returned range
    says 1, and it selects image tokens. *)
Theorem mm_stale_placeholders :
  let repls := [("image", [const_repl "image" [1%Z] [4; 4; 4]%Z]); ("audio", [const_repl "audio" [2%Z] [3; 3]%Z])]%string in
  ∃ ids text ph, place_items false [1; 3; 3]%Z repls [("image", 1%Z); ("audio", 1%Z)]%string = Ok (ids, text, ph) ∧
    ids = [4; 4; 4; 3; 3]%Z ∧
    ((fun l : list PlaceholderFeaturesInfo => to_range <$> l) <$> od_get "audio" ph) = Some [mkPlaceholder 1 2] ∧ slice ids 1 3 = [4; 4]%Z.
Proof. eexists _, _, _. split; [vm_compute; reflexivity|]. done. Qed.

(** ** Replacements that start alike *)

(** When the replacements of two modalities start with the same token, the search after
    the replacement gives priority to the modality whose replacements are listed first (as
    the comment of [_iter_placeholders] says), not to the order in the prompt:
    with an audio clip before an image, the image is found where the audio clip is, and
    reaches into the image's features. *)
Theorem mm_same_start_swaps :
  let repls := [("image", [const_repl "image" [1%Z] [8; 8; 8]%Z]); ("audio", [const_repl "audio" [2%Z] [8; 8]%Z])]%string in
  ∃ text ph, place_items false [2; 1]%Z repls [("image", 1%Z); ("audio", 1%Z)]%string = Ok ([8; 8; 8; 8; 8]%Z, text, ph) ∧
    ((fun l : list PlaceholderFeaturesInfo => to_range <$> l) <$> od_get "image" ph) = Some [mkPlaceholder 0 3] ∧
    ((fun l : list PlaceholderFeaturesInfo => to_range <$> l) <$> od_get "audio" ph) = Some [mkPlaceholder 3 2].
Proof. eexists _, _. split; [vm_compute; reflexivity|]. done. Qed.
