(* ===== verification/Detokenizer.v ===== *)
(** * Incremental detokenization: [vllm/v1/engine/detokenizer.py],
    [vllm/transformers_utils/detokenizer_utils.py] and [check_stop_strings] of
    [vllm/engine/output_processor/stop_checker.py]

    The tokenizer is third-party code and enters as the class [Tokenizer].  Text is
    a list of code points.  The file gives the operations; [DetokTheorems] what
    they guarantee. *)

From stdpp Require Import base tactics list gmap sets strings.
From Stdlib Require Import ZArith Lia.
From S2P Require Import Prelude.
From S2P Require Import SamplingParams.
From S2P Require Import Request.

Local Open Scope Z_scope.

(** A token as the tokenizer spells it; out-of-vocabulary ids give [None]. *)
Abbreviation token := (option pystr).

(** What the code uses of a tokenizer. *)
Class Tokenizer : Type := {
  tokenizer_len : Z;
  convert_ids_to_tokens : list Z -> bool -> list token;
  convert_tokens_to_string : list token -> pystr;
  is_fast : bool;
  get_added_vocab : list pystr;
  all_special_tokens : list pystr;
}.

(** ** Python strings *)

(** [s.startswith(sub)] *)
Definition starts_with (sub s : pystr) : bool := bool_decide (take (length sub) s = sub).

(** The first position of [sub] in [s]. *)
Fixpoint str_index (sub s : pystr) : option nat :=
  if starts_with sub s then Some 0%nat
  else match s with
       | [] => None
       | _ :: s => S <$> str_index sub s
       end.

(** [s.find(sub, start)]; a negative [start] counts from the end. *)
Definition py_find (s sub : pystr) (start : Z) : Z :=
  let i := Z.to_nat (if start <? 0 then Z.max 0 (len s + start) else start) in
  if (length s <? i)%nat then -1
  else match str_index sub (drop i s) with
       | Some k => Z.of_nat (i + k)
       | None => -1
       end.

(** [s\[:n\]] *)
Definition str_take (n : Z) (s : pystr) : pystr :=
  if 0 <=? n then take (Z.to_nat n) s else take (Z.to_nat (len s + n)) s.

(** [s.endswith] of the replacement character U+FFFD *)
Definition ends_with_replacement (s : pystr) : bool := bool_decide (last s = Some 65533).

(** [sep.join(parts)] *)
Fixpoint str_join (sep : pystr) (parts : list pystr) : pystr :=
  match parts with
  | [] => []
  | [p] => p
  | p :: parts => p ++ sep ++ str_join sep parts
  end.

(** ** [check_stop_strings] *)

(** The body of the loop over the stop strings, once one is found at
    [stop_index]: the length to cut the text to, -1 for no cut. *)
Definition truncate_to (text stop_string : pystr) (stop_index : Z) (include_in_output : bool) : Z :=
  if include_in_output then
    let stop_index := stop_index + len stop_string in
    if len text <=? stop_index then -1 else stop_index
  else stop_index.

Fixpoint check_stops (output_text : pystr) (new_char_count : Z) (stops : list pystr)
    (include_in_output : bool) : option (pystr * Z) :=
  match stops with
  | [] => None
  | s :: stops =>
      let stop_index := py_find output_text s (- new_char_count - len s) in
      if stop_index =? -1 then check_stops output_text new_char_count stops include_in_output
      else Some (s, truncate_to output_text s stop_index include_in_output)
  end.

Definition check_stop_strings (output_text : pystr) (new_char_count : Z) (stops : list pystr)
    (include_in_output : bool) : option (pystr * Z) :=
  if (new_char_count =? 0) || bool_decide (stops = []) then None
  else check_stops output_text new_char_count stops include_in_output.

Section tokenizer.
Context `{Tokenizer}.

(** ** [detokenizer_utils] *)

Definition _replace_none_with_empty (tokens : list token) : list token :=
  (fun t => Some (default [] t)) <$> tokens.

Definition in_strings (t : token) (l : list pystr) : bool :=
  match t with Some s => bool_decide (s ∈ l) | None => false end.

(** The loop of [_convert_tokens_to_string_with_added_encoders]; the state is
    ([sub_texts], [current_sub_text]). *)
Definition added_step (skip_special : bool) (acc : list pystr * list token) (t : token) :
    list pystr * list token :=
  let '(subs, cur) := acc in
  if skip_special && in_strings t all_special_tokens then (subs, cur)
  else if in_strings t get_added_vocab then
    let subs := if bool_decide (cur = []) then subs else subs ++ [convert_tokens_to_string cur] in
    (subs ++ [default [] t], [])
  else (subs, cur ++ [t]).

Definition _convert_tokens_to_string_with_added_encoders (output_tokens : list token)
    (skip_special spaces_between : bool) : pystr :=
  let '(subs, cur) := foldl (added_step skip_special) ([], []) output_tokens in
  let subs := if bool_decide (cur = []) then subs else subs ++ [convert_tokens_to_string cur] in
  str_join (if spaces_between then [32] else []) subs.

Definition INITIAL_INCREMENTAL_DETOKENIZATION_OFFSET : nat := 5.

(** [prompt_ids\[-7:\]] *)
Definition convert_prompt_ids_to_tokens (prompt_ids : list Z) (skip_special : bool) :
    list token * nat * nat :=
  let k := (INITIAL_INCREMENTAL_DETOKENIZATION_OFFSET + 2)%nat in
  let new_tokens := convert_ids_to_tokens (drop (length prompt_ids - k) prompt_ids) skip_special in
  let read_offset := length new_tokens in
  let prefix_offset := (read_offset - INITIAL_INCREMENTAL_DETOKENIZATION_OFFSET)%nat in
  (_replace_none_with_empty new_tokens, prefix_offset, read_offset).

(** The text of a list of tokens, by the tokenizer's own or the added-encoder
    route. *)
Definition tokens_to_text (skip_special spaces_between : bool) (tokens : list token) : pystr :=
  if is_fast || bool_decide (get_added_vocab = []) then convert_tokens_to_string tokens
  else _convert_tokens_to_string_with_added_encoders tokens skip_special spaces_between.

(** [detokenize_incrementally] with [prev_tokens] given, as the detokenizer calls
    it: the new tokens, the new text, and the two offsets. *)
Definition detokenize_incrementally (all_input_ids : list Z) (prev_tokens : list token)
    (prefix_offset read_offset : nat) (skip_special spaces_between : bool) :
    result (list token * pystr * nat * nat) :=
  new_token_id ← or_raise IndexError (last all_input_ids);
  let new_tokens :=
    if (0 <=? new_token_id) && (new_token_id <? tokenizer_len)
    then convert_ids_to_tokens [new_token_id] skip_special else [Some []] in
  let output_tokens := prev_tokens ++ new_tokens in
  let prefix_text :=
    tokens_to_text skip_special spaces_between (slice output_tokens prefix_offset read_offset) in
  let new_text := tokens_to_text skip_special spaces_between (drop prefix_offset output_tokens) in
  if (length new_text <=? length prefix_text)%nat || ends_with_replacement new_text
  then Ok (new_tokens, [], prefix_offset, read_offset)
  else Ok (new_tokens, drop (length prefix_text) new_text, read_offset, length output_tokens).

(** ** The detokenizer of a request *)

Record DetokenizerOutput : Type := mkDetokOutput {
  do_output_text : pystr;
  do_token_ids : list Z;
  do_finished : bool;
  do_finish_reason : option FinishReason;
  do_stop_reason : option StopReason;
}.

Record IncrementalDetokenizer : Type := mkDetok {
  output_text : pystr;
  dt_tokens : list token;
  dt_token_ids : list Z;
  dt_prompt_len : nat;
  dt_stop : list pystr;
  dt_include_stop : bool;
  prefix_offset : nat;
  read_offset : nat;
  dt_skip_special : bool;
  dt_spaces_between : bool;
  dt_output_kind : RequestOutputKind;
  stop_buffer_length : Z;
  _last_output_text_offset : Z;
}.

Definition dt_output_token_ids (d : IncrementalDetokenizer) : list Z :=
  drop (dt_prompt_len d) (dt_token_ids d).

(** [from_new_request] *)
Definition detok_from_new_request (r : EngineCoreRequest) : IncrementalDetokenizer :=
  let sp := ecr_sampling_params r in
  let '(tokens, prefix, read) :=
    convert_prompt_ids_to_tokens (ecr_prompt_token_ids r) (skip_special_tokens sp) in
  mkDetok [] tokens (ecr_prompt_token_ids r) (length (ecr_prompt_token_ids r)) (stop sp)
    (include_stop_str_in_output sp) prefix read (skip_special_tokens sp)
    (spaces_between_special_tokens sp) (output_kind sp)
    (stop_buffer (stop sp) (include_stop_str_in_output sp)) 0.

(** The loop over the new token ids; the second component is [decoded_text]. *)
Definition decode_token (new_token_id : Z) (acc : IncrementalDetokenizer * pystr) :
    result (IncrementalDetokenizer * pystr) :=
  let '(d, decoded_text) := acc in
  let ids := dt_token_ids d ++ [new_token_id] in
  '(new_tokens, new_text, prefix, read) ←
    detokenize_incrementally ids (dt_tokens d) (prefix_offset d) (read_offset d)
      (dt_skip_special d) (dt_spaces_between d);
  Ok (mkDetok (output_text d ++ new_text) (dt_tokens d ++ new_tokens) ids (dt_prompt_len d)
        (dt_stop d) (dt_include_stop d) prefix read (dt_skip_special d) (dt_spaces_between d)
        (dt_output_kind d) (stop_buffer_length d) (_last_output_text_offset d),
      decoded_text ++ new_text).

Definition with_text (d : IncrementalDetokenizer) (text : pystr) (offset : Z) : IncrementalDetokenizer :=
  mkDetok text (dt_tokens d) (dt_token_ids d) (dt_prompt_len d) (dt_stop d) (dt_include_stop d)
    (prefix_offset d) (read_offset d) (dt_skip_special d) (dt_spaces_between d)
    (dt_output_kind d) (stop_buffer_length d) offset.

(** [_get_next_output_text] *)
Definition _get_next_output_text (d : IncrementalDetokenizer) (finished delta : bool) :
    IncrementalDetokenizer * pystr :=
  let text := output_text d in
  let buffer_length := if finished then 0 else stop_buffer_length d in
  if negb delta then
    (d, if buffer_length =? 0 then text else str_take (- buffer_length) text)
  else
    let length := len text - buffer_length in
    let last_offset := _last_output_text_offset d in
    if last_offset <? length then
      (with_text d text length, slice text (Z.to_nat last_offset) (Z.to_nat length))
    else (d, []).

(** Step 2 of [update_from_output]: the stop strings. *)
Definition apply_stop (d : IncrementalDetokenizer) (decoded_text : pystr) (output : EngineCoreOutput) :
    IncrementalDetokenizer * option FinishReason * option StopReason :=
  match (if bool_decide (dt_stop d = []) then None
         else check_stop_strings (output_text d) (len decoded_text) (dt_stop d) (dt_include_stop d)) with
  | Some (s, n) =>
      (if n =? -1 then d else with_text d (str_take n (output_text d)) (_last_output_text_offset d),
       Some STOP, Some (stop_str s))
  | None => (d, eco_finish_reason output, eco_stop_reason output)
  end.

(** Step 3: what is reported. *)
Definition next_output (d : IncrementalDetokenizer) (new_token_ids : list Z)
    (finish_reason : option FinishReason) (stop_reason : option StopReason) :
    IncrementalDetokenizer * option DetokenizerOutput :=
  let finished := match finish_reason with Some _ => true | None => false end in
  if bool_decide (dt_output_kind d = FINAL_ONLY) && negb finished then (d, None)
  else
    let delta := bool_decide (dt_output_kind d = DELTA) in
    let '(d, text) := _get_next_output_text d finished delta in
    let token_ids := if delta then new_token_ids else dt_output_token_ids d in
    (d, Some (mkDetokOutput text token_ids finished finish_reason stop_reason)).

(** [update_from_output] *)
Definition detok_update (d : IncrementalDetokenizer) (output : EngineCoreOutput) :
    result (IncrementalDetokenizer * option DetokenizerOutput) :=
  let new_token_ids := eco_new_token_ids output in
  '(d, decoded_text) ← for_each decode_token new_token_ids (d, []);
  let '(d, finish_reason, stop_reason) := apply_stop d decoded_text output in
  Ok (next_output d new_token_ids finish_reason stop_reason).
End tokenizer.
