(* ===== verification/Utf8.v ===== *)
(** * UTF-8 decoding with replacement

    What a byte-level tokenizer does with the bytes of its tokens ([bytes.decode] with
    [errors] set to replace, or Rust's [from_utf8_lossy]): an automaton that emits a code
    point after the last byte of a well-formed sequence, and U+FFFD for every maximal part
    of an ill-formed one (Unicode, table 3-7 and the practice recommended there).  Bytes
    are integers between 0 and 255, text is a list of code points.

    The fact the detokenizer depends on: decoding can be split wherever the text so far
    does not end in U+FFFD ([utf8_decode_app]). *)

From stdpp Require Import base tactics list.
From Stdlib Require Import ZArith Lia.
From S2P Require Import Prelude.

Local Open Scope Z_scope.

Definition replacement : Z := 65533.

(** Between characters, or inside one: the ranges of the bytes to come and the bits read. *)
Inductive utf8_state : Type :=
  | Between
  | Inside (lo hi : Z) (rest : nat) (bits : Z).

Definition in_range (lo hi b : Z) : bool := (lo <=? b) && (b <=? hi).

(** The first byte of a character. *)
Definition utf8_lead (b : Z) : list Z * utf8_state :=
  if in_range 0 127 b then ([b], Between)
  else if in_range 194 223 b then ([], Inside 128 191 0 (b - 192))
  else if b =? 224 then ([], Inside 160 191 1 0)
  else if b =? 237 then ([], Inside 128 159 1 (237 - 224))
  else if in_range 225 239 b then ([], Inside 128 191 1 (b - 224))
  else if b =? 240 then ([], Inside 144 191 2 0)
  else if in_range 241 243 b then ([], Inside 128 191 2 (b - 240))
  else if b =? 244 then ([], Inside 128 143 2 4)
  else ([replacement], Between).

(** One byte; [rest] more continuation bytes follow the next one. *)
Definition utf8_byte (s : utf8_state) (b : Z) : list Z * utf8_state :=
  match s with
  | Between => utf8_lead b
  | Inside lo hi rest bits =>
      if in_range lo hi b then
        let bits := bits * 64 + (b - 128) in
        match rest with
        | O => ([bits], Between)
        | S rest => ([], Inside 128 191 rest bits)
        end
      else let x := utf8_lead b in (replacement :: x.1, x.2)
  end.

(** The end of the input: an unfinished character is replaced. *)
Definition utf8_end (s : utf8_state) : list Z :=
  match s with Between => [] | Inside _ _ _ _ => [replacement] end.

Fixpoint utf8_run (s : utf8_state) (bytes : list Z) : list Z :=
  match bytes with
  | [] => utf8_end s
  | b :: bytes => let x := utf8_byte s b in x.1 ++ utf8_run x.2 bytes
  end.

Definition utf8_decode (bytes : list Z) : list Z := utf8_run Between bytes.

(** ** Splitting *)

Lemma utf8_run_app bytes bytes' : ∀ s, last (utf8_run s bytes) ≠ Some replacement ->
  utf8_run s (bytes ++ bytes') = utf8_run s bytes ++ utf8_run Between bytes'.
Proof.
  induction bytes as [|b bytes IH]; intros s Hl; cbn [utf8_run app] in *.
  - by destruct s.
  - rewrite IH, app_assoc; [done|]. intros E. apply Hl. by rewrite last_app, E.
Qed.

(** Text that does not end in the replacement character ends between two characters. *)
Lemma utf8_decode_app bytes bytes' : last (utf8_decode bytes) ≠ Some replacement ->
  utf8_decode (bytes ++ bytes') = utf8_decode bytes ++ utf8_decode bytes'.
Proof. apply utf8_run_app. Qed.

(** ** Encoding *)

(** The bytes of a code point ([chr(c).encode]). *)
Definition utf8_encode (c : Z) : list Z :=
  if c <? 128 then [c]
  else if c <? 2048 then [192 + c / 64; 128 + c mod 64]
  else if c <? 65536 then [224 + c / 4096; 128 + c / 64 mod 64; 128 + c mod 64]
  else [240 + c / 262144; 128 + c / 4096 mod 64; 128 + c / 64 mod 64; 128 + c mod 64].

(** A Unicode scalar value: no surrogate. *)
Definition scalar (c : Z) : Prop := 0 <= c < 55296 ∨ 57344 <= c < 1114112.

Lemma in_range_true lo hi b : lo <= b <= hi -> in_range lo hi b = true.
Proof. intros H. unfold in_range. apply andb_true_iff. rewrite !Z.leb_le. lia. Qed.

Lemma in_range_false lo hi b : ¬ (lo <= b <= hi) -> in_range lo hi b = false.
Proof. intros H. unfold in_range. apply andb_false_iff. rewrite !Z.leb_gt. lia. Qed.

Ltac byte_tests := repeat match goal with
  | |- context [in_range ?lo ?hi ?b] =>
      first [rewrite (in_range_true lo hi b) by lia | rewrite (in_range_false lo hi b) by lia]
  | |- context [?a =? ?b] =>
      first [rewrite (proj2 (Z.eqb_neq a b)) by lia | rewrite (proj2 (Z.eqb_eq a b)) by lia]
  end.

(** Characters of two, three and four bytes, by their digits of base 64. *)
Lemma utf8_two a d bytes : 2 <= a <= 31 -> 0 <= d < 64 ->
  utf8_run Between (192 + a :: 128 + d :: bytes) = a * 64 + d :: utf8_run Between bytes.
Proof.
  intros Ha Hd. assert (E : utf8_lead (192 + a) = ([], Inside 128 191 0 a)) by (unfold utf8_lead; byte_tests; do 2 f_equal; lia).
  cbn [utf8_run]. change (utf8_byte Between (192 + a)) with (utf8_lead (192 + a)). rewrite E. cbn [utf8_byte fst snd app]. byte_tests.
  cbn [fst snd app]. f_equal. lia.
Qed.

Lemma utf8_three a b d bytes : 0 <= a <= 15 -> 0 <= b < 64 -> 0 <= d < 64 -> (a = 0 -> 32 <= b) -> (a = 13 -> b < 32) ->
  utf8_run Between (224 + a :: 128 + b :: 128 + d :: bytes) = (a * 64 + b) * 64 + d :: utf8_run Between bytes.
Proof.
  intros Ha Hb Hd H0 H13.
  assert (E : utf8_lead (224 + a) = ([], Inside (if a =? 0 then 160 else 128) (if a =? 13 then 159 else 191) 1 a)).
  { unfold utf8_lead. destruct (Z.eqb_spec a 0) as [->|]; [done|]. destruct (Z.eqb_spec a 13) as [->|]; [done|]. byte_tests.
    do 2 f_equal. lia. }
  cbn [utf8_run]. change (utf8_byte Between (224 + a)) with (utf8_lead (224 + a)). rewrite E. cbn [utf8_byte fst snd app].
  rewrite in_range_true by (destruct (Z.eqb_spec a 0), (Z.eqb_spec a 13); lia). cbn [utf8_byte fst snd app]. byte_tests.
  cbn [fst snd app]. f_equal. lia.
Qed.

Lemma utf8_four a b d e bytes : 0 <= a <= 4 -> 0 <= b < 64 -> 0 <= d < 64 -> 0 <= e < 64 -> (a = 0 -> 16 <= b) -> (a = 4 -> b < 16) ->
  utf8_run Between (240 + a :: 128 + b :: 128 + d :: 128 + e :: bytes) = ((a * 64 + b) * 64 + d) * 64 + e :: utf8_run Between bytes.
Proof.
  intros Ha Hb Hd He H0 H4.
  assert (E : utf8_lead (240 + a) = ([], Inside (if a =? 0 then 144 else 128) (if a =? 4 then 143 else 191) 2 a)).
  { unfold utf8_lead. destruct (Z.eqb_spec a 0) as [->|]; [done|]. destruct (Z.eqb_spec a 4) as [->|]; [done|]. byte_tests.
    do 2 f_equal. lia. }
  cbn [utf8_run]. change (utf8_byte Between (240 + a)) with (utf8_lead (240 + a)). rewrite E. cbn [utf8_byte fst snd app].
  rewrite in_range_true by (destruct (Z.eqb_spec a 0), (Z.eqb_spec a 4); lia). cbn [utf8_byte fst snd app]. byte_tests.
  cbn [utf8_byte fst snd app]. byte_tests. cbn [fst snd app]. f_equal. lia.
Qed.

(** One character: its bytes give it back. *)
Lemma utf8_char c bytes : scalar c -> utf8_run Between (utf8_encode c ++ bytes) = c :: utf8_run Between bytes.
Proof.
  intros Hc. unfold scalar in Hc. unfold utf8_encode.
  pose proof (Z.div_mod c 64 ltac:(lia)) as E1. pose proof (Z.mod_pos_bound c 64 ltac:(lia)) as B1.
  pose proof (Z.div_mod (c / 64) 64 ltac:(lia)) as E2. pose proof (Z.mod_pos_bound (c / 64) 64 ltac:(lia)) as B2.
  pose proof (Z.div_mod (c / 4096) 64 ltac:(lia)) as E3. pose proof (Z.mod_pos_bound (c / 4096) 64 ltac:(lia)) as B3.
  rewrite (Z.div_div c 64 64 ltac:(lia) ltac:(lia)) in E2. rewrite (Z.div_div c 4096 64 ltac:(lia) ltac:(lia)) in E3.
  change (64 * 64) with 4096 in E2. change (4096 * 64) with 262144 in E3.
  destruct (Z.ltb_spec c 128); [cbn [app utf8_run utf8_byte]; unfold utf8_lead; byte_tests; done|].
  destruct (Z.ltb_spec c 2048); [cbn [app]; rewrite utf8_two by lia; f_equal; lia|].
  destruct (Z.ltb_spec c 65536); [cbn [app]; rewrite utf8_three by lia; f_equal; lia|].
  cbn [app]. rewrite utf8_four by lia. f_equal. lia.
Qed.

(** Decoding undoes encoding. *)
Lemma utf8_decode_encode cs : Forall scalar cs -> utf8_decode (concat (utf8_encode <$> cs)) = cs.
Proof.
  unfold utf8_decode. induction 1 as [|c cs Hc _ IH]; [done|]. rewrite fmap_cons. cbn [concat]. by rewrite utf8_char, IH.
Qed.
