(* ===== verification/DetokTheorems.v ===== *)
(** * What the detokenizer guarantees

    The incremental stop-string search is the search over the whole text; text that
    has been streamed out is never taken back, so the streamed pieces add up to the
    cumulative output; and for a byte-level tokenizer no text is lost between the
    pieces, although characters may be split over tokens. *)

From stdpp Require Import base tactics list gmap sets strings.
From Stdlib Require Import ZArith QArith Lia.
From S2P Require Import Prelude.
From S2P Require Import SamplingParams.
From S2P Require Import Request.
From S2P Require Import Detokenizer.
From S2P Require Import Utf8.

Local Open Scope Z_scope.

(** ** Searching *)

Definition occurs_at (sub s : pystr) (k : nat) : Prop :=
  take (length sub) (drop k s) = sub ∧ (k + length sub <= length s)%nat.

(** None of the strings occurs in the text. *)
Definition clean (stops : list pystr) (text : pystr) : Prop :=
  ∀ s k, s ∈ stops -> ¬ occurs_at s text k.

Lemma occurs_at_0 sub s : sub ≠ [] -> occurs_at sub s 0 <-> starts_with sub s = true.
Proof.
  intros Hne. unfold occurs_at, starts_with. rewrite bool_decide_eq_true, drop_0. split; [by intros [? _]|].
  intros E. split; [done|]. rewrite <- E at 1. rewrite length_take. lia.
Qed.

Lemma occurs_at_S sub x s k : occurs_at sub (x :: s) (S k) <-> occurs_at sub s k.
Proof. unfold occurs_at. cbn [drop length]. split; intros [? ?]; split; (done || lia). Qed.

Lemma str_index_spec sub s :
  sub ≠ [] ->
  match str_index sub s with
  | Some k => occurs_at sub s k ∧ ∀ j, (j < k)%nat -> ¬ occurs_at sub s j
  | None => ∀ j, ¬ occurs_at sub s j
  end.
Proof.
  intros Hne. induction s as [|x s IH]; cbn [str_index].
  - destruct (starts_with sub []) eqn:E; [split; [by apply occurs_at_0|lia]|].
    intros j [_ Hl]. destruct sub; [done|simpl in Hl; lia].
  - destruct (starts_with sub (x :: s)) eqn:E; [split; [by apply occurs_at_0|lia]|].
    assert (H0 : ¬ occurs_at sub (x :: s) 0) by (rewrite occurs_at_0 by done; by rewrite E).
    destruct (str_index sub s) as [k|]; cbn.
    + destruct IH as [IH1 IH2]. split; [by apply occurs_at_S|].
      intros [|j] Hj; [done|]. rewrite occurs_at_S. apply IH2. lia.
    + intros [|j]; [done|]. rewrite occurs_at_S. apply IH.
Qed.

Lemma occurs_at_drop sub s i k : (i <= length s)%nat -> occurs_at sub (drop i s) k <-> occurs_at sub s (i + k).
Proof. intros Hi. unfold occurs_at. rewrite drop_drop, length_drop. split; intros [? ?]; split; (done || lia). Qed.

(** A string that does not occur in the old text occurs only across its end. *)
Lemma occurs_at_app sub old new k :
  (∀ j, ¬ occurs_at sub old j) -> occurs_at sub (old ++ new) k -> (length old < k + length sub)%nat.
Proof.
  intros Hold [Ht Hl]. destruct (decide (length old < k + length sub)%nat) as [|Hge]; [done|].
  exfalso. apply (Hold k). split; [|lia]. rewrite drop_app_le in Ht by lia.
  by rewrite take_app_le in Ht by (rewrite length_drop; lia).
Qed.

(** Searching from the window of [check_stop_strings] finds what a search of the
    whole text finds. *)
Lemma find_window sub old new :
  sub ≠ [] -> (∀ j, ¬ occurs_at sub old j) ->
  py_find (old ++ new) sub (- len new - len sub) =
    match str_index sub (old ++ new) with Some k => Z.of_nat k | None => -1 end.
Proof.
  intros Hne Hold. unfold py_find. set (text := old ++ new).
  assert (Hs : (0 < length sub)%nat) by (destruct sub; [done|simpl; lia]).
  rewrite (proj2 (Z.ltb_lt _ 0)) by lia.
  set (i := Z.to_nat _). assert (Hi : (i <= length text)%nat) by (unfold i; lia).
  rewrite (proj2 (Nat.ltb_ge (length text) i)) by done.
  pose proof (str_index_spec sub (drop i text) Hne) as H1. pose proof (str_index_spec sub text Hne) as H2.
  assert (Hlow : ∀ k, occurs_at sub text k -> (i <= k)%nat).
  { intros k Hk. apply occurs_at_app in Hk; [|done]. unfold i, text. rewrite length_app. lia. }
  destruct (str_index sub (drop i text)) as [k1|], (str_index sub text) as [k2|].
  - destruct H1 as [H1 H1'], H2 as [H2 H2']. rewrite occurs_at_drop in H1 by done.
    destruct (decide (i + k1 < k2)%nat) as [Hlt|]; [by destruct (H2' _ Hlt)|].
    pose proof (Hlow _ H2). destruct (decide (k2 < i + k1)%nat) as [Hlt|]; [|f_equal; lia].
    destruct (H1' (k2 - i)%nat ltac:(lia)). rewrite occurs_at_drop by done.
    by replace (i + (k2 - i))%nat with k2 by lia.
  - destruct H1 as [H1 _]. rewrite occurs_at_drop in H1 by done. by destruct (H2 _ H1).
  - destruct H2 as [H2 _]. pose proof (Hlow _ H2). destruct (H1 (k2 - i)%nat).
    rewrite occurs_at_drop by done. by replace (i + (k2 - i))%nat with k2 by lia.
  - done.
Qed.

(** The reference: every stop string is searched for in the whole text. *)
Fixpoint full_check (text : pystr) (stops : list pystr) (include_in_output : bool) :
    option (pystr * Z) :=
  match stops with
  | [] => None
  | s :: stops =>
      match str_index s text with
      | Some k => Some (s, truncate_to text s (Z.of_nat k) include_in_output)
      | None => full_check text stops include_in_output
      end
  end.

Lemma full_check_None text stops incl :
  Forall (.≠ []) stops -> full_check text stops incl = None <-> clean stops text.
Proof.
  induction 1 as [|s stops Hs _ IH]; [split; [by intros _ s k ?%elem_of_nil|done]|]. cbn [full_check].
  pose proof (str_index_spec s text Hs) as Hi. destruct (str_index s text) as [k|].
  - split; [done|]. intros Hc. destruct (Hc s k); [by left|apply Hi].
  - rewrite IH. split.
    + intros Hc s' k [->|Hin]%elem_of_cons; [apply Hi|by apply Hc].
    + intros Hc s' k Hin. apply Hc. by right.
Qed.

Lemma full_check_Some text stops incl s n :
  Forall (.≠ []) stops -> full_check text stops incl = Some (s, n) ->
  (∃ pre post, stops = pre ++ s :: post ∧ clean pre text) ∧ ∃ k, occurs_at s text k ∧ (∀ j, (j < k)%nat -> ¬ occurs_at s text j) ∧
    n = truncate_to text s (Z.of_nat k) incl.
Proof.
  induction 1 as [|s' stops Hs _ IH]; [done|]. cbn [full_check].
  pose proof (str_index_spec s' text Hs) as Hi. destruct (str_index s' text) as [k|].
  - intros [= <- <-]. split; [exists [], stops; split; [done|]; by intros ? ? ?%not_elem_of_nil|]. exists k. naive_solver.
  - intros [(pre & post & -> & Hpre) Hk]%IH. split; [|done]. exists (s' :: pre), post. split; [done|].
    intros x k [->|Hx]%elem_of_cons; [apply Hi|by apply Hpre].
Qed.

Lemma check_stops_full old new stops incl :
  Forall (.≠ []) stops -> clean stops old ->
  check_stop_strings (old ++ new) (len new) stops incl = full_check (old ++ new) stops incl.
Proof.
  intros Hne Hc. unfold check_stop_strings. destruct (decide (new = [])) as [->|Hnew].
  { cbn. rewrite app_nil_r. symmetry. by apply full_check_None. }
  rewrite (proj2 (Z.eqb_neq (len new) 0)) by (destruct new; [done|simpl; lia]). cbn [orb].
  assert (Hm : check_stops (old ++ new) (len new) stops incl = full_check (old ++ new) stops incl).
  { induction Hne as [|s stops Hs Hne IH]; [done|]. cbn [check_stops full_check].
    rewrite find_window; [|done|intros j; apply Hc; by left].
    destruct (str_index s (old ++ new)) as [k|].
    - by rewrite (proj2 (Z.eqb_neq _ (-1))) by lia.
    - rewrite Z.eqb_refl. apply IH. intros s' k Hin. apply Hc. by right. }
  case_bool_decide as E; [by rewrite E|done].
Qed.

Section tokenizer.
Context `{Tokenizer}.

(** ** Decoding the new tokens *)

(** The same detokenizer for another kind of output. *)
Definition as_kind (k : RequestOutputKind) (off : Z) (d : IncrementalDetokenizer) : IncrementalDetokenizer :=
  mkDetok (output_text d) (dt_tokens d) (dt_token_ids d) (dt_prompt_len d) (dt_stop d)
    (dt_include_stop d) (prefix_offset d) (read_offset d) (dt_skip_special d) (dt_spaces_between d)
    k (stop_buffer_length d) off.

(** What decoding leaves alone. *)
Record same_request (d d' : IncrementalDetokenizer) : Prop := {
  sr_prompt : dt_prompt_len d' = dt_prompt_len d;
  sr_stop : dt_stop d' = dt_stop d;
  sr_include : dt_include_stop d' = dt_include_stop d;
  sr_kind : dt_output_kind d' = dt_output_kind d;
  sr_buffer : stop_buffer_length d' = stop_buffer_length d;
  sr_offset : _last_output_text_offset d' = _last_output_text_offset d;
}.

Lemma detokenize_total ids t prev p r sk sb :
  ∃ x, detokenize_incrementally (ids ++ [t]) prev p r sk sb = Ok x.
Proof. unfold detokenize_incrementally. rewrite last_snoc. cbn. case_match; by eexists. Qed.

Lemma decode_token_spec t d acc :
  ∃ d1 txt, decode_token t (d, acc) = Ok (d1, acc ++ txt) ∧
    output_text d1 = output_text d ++ txt ∧ dt_token_ids d1 = dt_token_ids d ++ [t] ∧
    same_request d d1 ∧
    ∀ k off, decode_token t (as_kind k off d, acc) = Ok (as_kind k off d1, acc ++ txt).
Proof.
  destruct (detokenize_total (dt_token_ids d) t (dt_tokens d) (prefix_offset d) (read_offset d)
    (dt_skip_special d) (dt_spaces_between d)) as [[[[nt txt] pre] rd] E].
  eexists _, txt. unfold decode_token. rewrite E. cbn [mbind result_bind]. split; [done|].
  split; [done|]. split; [done|]. split; [done|]. intros k off.
  cbn [as_kind dt_token_ids dt_tokens prefix_offset read_offset dt_skip_special dt_spaces_between].
  by rewrite E.
Qed.

Lemma decode_loop_spec toks d acc :
  ∃ d' new, for_each decode_token toks (d, acc) = Ok (d', acc ++ new) ∧
    output_text d' = output_text d ++ new ∧ dt_token_ids d' = dt_token_ids d ++ toks ∧
    same_request d d' ∧
    ∀ k off, for_each decode_token toks (as_kind k off d, acc) = Ok (as_kind k off d', acc ++ new).
Proof.
  revert d acc. induction toks as [|t toks IH]; intros d acc; cbn [for_each].
  { exists d, []. rewrite !app_nil_r. by split_and!. }
  destruct (decode_token_spec t d acc) as (d1 & txt & -> & Ht1 & Hi1 & [] & Hk1). cbn [mbind result_bind].
  destruct (IH d1 (acc ++ txt)) as (d' & new & E1 & Ht & Hi & [] & Hk).
  exists d', (txt ++ new). rewrite !(assoc_L app). split_and!; try done.
  - by rewrite Ht, Ht1.
  - by rewrite Hi, Hi1, <- (assoc_L app).
  - split; congruence.
  - intros k off. rewrite Hk1. apply Hk.
Qed.

(** ** One update *)

(** What an update does to the text: nothing, when no stop string has appeared in
    it; otherwise the first stop string of the list that occurs in it is reported, and it
    is cut at the first place of that string, or just after it. *)
Definition settles (stops : list pystr) (include : bool) (full : pystr) (o : EngineCoreOutput)
    (text : pystr) (fr : option FinishReason) (sr : option StopReason) : Prop :=
  (clean stops full ∧ text = full ∧ fr = eco_finish_reason o ∧ sr = eco_stop_reason o) ∨
  (∃ s k, (∃ pre post, stops = pre ++ s :: post ∧ clean pre full) ∧ occurs_at s full k ∧ (∀ j, (j < k)%nat -> ¬ occurs_at s full j) ∧
    text = take (k + if include then length s else 0) full ∧ fr = Some STOP ∧ sr = Some (stop_str s)).

(** The length of the text that may be shown before the request has finished. *)
Definition visible (d : IncrementalDetokenizer) : nat :=
  Z.to_nat (len (output_text d) - stop_buffer_length d).

Record detok_inv (d : IncrementalDetokenizer) : Prop := {
  di_stops : Forall (.≠ []) (dt_stop d);
  di_clean : clean (dt_stop d) (output_text d);
  di_buffer : stop_buffer_length d = stop_buffer (dt_stop d) (dt_include_stop d);
  di_ids : (dt_prompt_len d <= length (dt_token_ids d))%nat;
}.

Lemma buffer_ge stops (s : pystr) : s ∈ stops -> len s - 1 <= stop_buffer stops false.
Proof.
  intros Hs. unfold stop_buffer. rewrite bool_decide_eq_false_2 by (by intros ->; apply elem_of_nil in Hs).
  cbn. apply (list_elem_of_fmap_2 length) in Hs. apply max_list_elem_of_le in Hs. lia.
Qed.

Lemma buffer_nonneg stops incl : Forall (.≠ []) stops -> 0 <= stop_buffer stops incl.
Proof.
  intros Hne. unfold stop_buffer. destruct incl; [by rewrite andb_false_r|].
  destruct Hne as [|s stops Hs Hne]; [done|]. pose proof (buffer_ge (s :: stops) s ltac:(by left)) as Hb.
  unfold stop_buffer in Hb. destruct s; [done|]. cbn [length] in *. lia.
Qed.

Lemma apply_stop_frame d new o d' fr sr :
  apply_stop d new o = (d', fr, sr) ->
  same_request d d' ∧ dt_token_ids d' = dt_token_ids d ∧
  ∀ k off, apply_stop (as_kind k off d) new o = (as_kind k off d', fr, sr).
Proof.
  unfold apply_stop. cbn [as_kind dt_stop output_text dt_include_stop].
  destruct (if bool_decide _ then _ else _) as [[s n]|]; intros [= <- <- <-]; [|done].
  by destruct (n =? -1).
Qed.

Lemma apply_stop_spec d d1 new o d2 fr sr :
  detok_inv d -> output_text d1 = output_text d ++ new -> same_request d d1 ->
  apply_stop d1 new o = (d2, fr, sr) ->
  settles (dt_stop d) (dt_include_stop d) (output_text d1) o (output_text d2) fr sr ∧
  (visible d <= length (output_text d2))%nat ∧
  output_text d2 = take (length (output_text d2)) (output_text d1).
Proof.
  intros [Hst Hcl Hbuf _] Ht Hsr. unfold apply_stop. rewrite (sr_stop _ _ Hsr), (sr_include _ _ Hsr), Ht.
  pose proof (buffer_nonneg _ (dt_include_stop d) Hst) as Hb0. rewrite <- Hbuf in Hb0.
  replace (if bool_decide (dt_stop d = []) then None else _) with
    (full_check (output_text d ++ new) (dt_stop d) (dt_include_stop d)); cycle 1.
  { case_bool_decide as E; [by rewrite E|]. symmetry. by apply check_stops_full. }
  assert (Hvis : (visible d <= length (output_text d))%nat) by (unfold visible; lia).
  destruct (full_check _ _ _) as [[s n]|] eqn:Ef; intros Heq; injection Heq as Ed <- <-.
  - apply full_check_Some in Ef as (Hlist & k & Hk & Hfirst & ->); [|done].
    assert (Hin : s ∈ dt_stop d) by (destruct Hlist as (pre & post & -> & _); apply elem_of_app; right; by left).
    pose proof (occurs_at_app s _ _ k (fun j => Hcl s j Hin) Hk) as Hlate. destruct (Hk) as [_ Hlen].
    assert (output_text d2 = take (k + if dt_include_stop d then length s else 0) (output_text d ++ new)) as ->.
    { rewrite <- Ed. unfold truncate_to. destruct (dt_include_stop d).
      - destruct (_ <=? _) eqn:E; [rewrite take_ge; [done|lia]|].
        rewrite (proj2 (Z.eqb_neq _ _)) by lia. cbn [with_text output_text]. unfold str_take. rewrite (proj2 (Z.leb_le 0 _)) by lia. f_equal. lia.
      - rewrite (proj2 (Z.eqb_neq _ _)) by lia. cbn [with_text output_text]. unfold str_take. rewrite (proj2 (Z.leb_le 0 _)) by lia. f_equal. lia. }
    split; [right; exists s, k; by split_and!|].
    rewrite length_take. split; cycle 1.
    { destruct (Nat.min_spec (k + if dt_include_stop d then length s else 0) (length (output_text d ++ new)))
        as [[_ ->]|[? ->]]; [done|by rewrite !take_ge by lia]. }
    destruct (dt_include_stop d) eqn:Ei; [lia|]. rewrite Nat.add_0_r.
    pose proof (buffer_ge _ s Hin). rewrite <- Hbuf in *. unfold visible. lia.
  - subst d2. rewrite Ht. apply full_check_None in Ef; [|done]. split; [by left|]. rewrite take_ge by lia. split; [|done].
    rewrite length_app. lia.
Qed.

(** The text a request that has finished or not may show. *)
Definition shown (d : IncrementalDetokenizer) (finished : bool) : pystr :=
  if finished then output_text d else take (visible d) (output_text d).

Lemma next_text_whole d fin :
  0 <= stop_buffer_length d -> _get_next_output_text d fin false = (d, shown d fin).
Proof.
  intros Hb. unfold _get_next_output_text, shown, visible. cbn [negb]. destruct fin; [done|].
  destruct (stop_buffer_length d =? 0) eqn:E; [rewrite take_ge; [done|lia]|].
  unfold str_take. rewrite (proj2 (Z.leb_gt 0 _)) by lia. by rewrite Z.add_opp_r.
Qed.

Lemma next_text_delta d fin (v : nat) :
  0 <= stop_buffer_length d -> _last_output_text_offset d = Z.of_nat v ->
  (v <= length (shown d fin))%nat ->
  ∃ off piece, _get_next_output_text d fin true = (as_kind (dt_output_kind d) off d, piece) ∧
    take v (output_text d) ++ piece = shown d fin ∧ off = Z.of_nat (length (shown d fin)).
Proof.
  intros Hb Hv Hle. unfold _get_next_output_text. cbn [negb].
  set (n := len (output_text d) - (if fin then 0 else stop_buffer_length d)).
  assert (Hs : shown d fin = take (Z.to_nat n) (output_text d) ∧ (Z.to_nat n <= length (output_text d))%nat).
  { unfold shown, visible, n. destruct fin; [rewrite take_ge; [split; [done|]|]; lia|split; [done|lia]]. }
  destruct Hs as [Hs Hn]. rewrite Hs in Hle |- *. rewrite length_take_le in Hle |- * by done. rewrite Hv.
  destruct (Z.of_nat v <? n) eqn:E.
  - eexists _, _. split; [done|]. rewrite Nat2Z.id. split; [|lia].
    unfold slice. rewrite <- (take_drop v (take (Z.to_nat n) (output_text d))).
    rewrite take_take, skipn_firstn_comm. f_equal. f_equal. lia.
  - exists (_last_output_text_offset d), []. split; [by destruct d|]. rewrite app_nil_r, Hv.
    assert (Z.to_nat n = v) as -> by lia. done.
Qed.

(** Whether a request has finished, from its finish reason. *)
Definition ended (fr : option FinishReason) : bool := match fr with Some _ => true | None => false end.

(** One engine output, for the three kinds of output at once. *)
Lemma detok_step d o :
  detok_inv d ->
  ∃ d' fr sr piece off,
    (∃ new, settles (dt_stop d) (dt_include_stop d) (output_text d ++ new) o (output_text d') fr sr) ∧
    let out := mkDetokOutput (shown d' (ended fr)) (dt_output_token_ids d') (ended fr) fr sr in
    detok_update (as_kind CUMULATIVE 0 d) o = Ok (as_kind CUMULATIVE 0 d', Some out) ∧
    detok_update (as_kind FINAL_ONLY 0 d) o =
      Ok (as_kind FINAL_ONLY 0 d', if ended fr then Some out else None) ∧
    detok_update (as_kind DELTA (Z.of_nat (visible d)) d) o =
      Ok (as_kind DELTA off d', Some (mkDetokOutput piece (eco_new_token_ids o) (ended fr) fr sr)) ∧
    take (visible d) (output_text d) ++ piece = shown d' (ended fr) ∧
    dt_output_token_ids d' = dt_output_token_ids d ++ eco_new_token_ids o ∧
    (ended fr = false -> detok_inv d' ∧ off = Z.of_nat (visible d')).
Proof.
  intros Hinv. destruct (decode_loop_spec (eco_new_token_ids o) d []) as (d1 & new & _ & Ht & Hids & Hsr & Hk).
  destruct (apply_stop d1 new o) as [[d2 fr] sr] eqn:Es.
  destruct (apply_stop_frame _ _ _ _ _ _ Es) as (Hsr2 & Hids2 & Hk2).
  destruct (apply_stop_spec d d1 new o d2 fr sr Hinv Ht Hsr Es) as (Hset & Hvis & Hpre).
  pose proof (buffer_nonneg _ (dt_include_stop d) (di_stops _ Hinv)) as Hb0. rewrite <- (di_buffer _ Hinv) in Hb0.
  assert (Hb2 : stop_buffer_length d2 = stop_buffer_length d)
    by (by rewrite (sr_buffer _ _ Hsr2), (sr_buffer _ _ Hsr)).
  assert (Hgrow : ended fr = false -> output_text d2 = output_text d ++ new ∧ clean (dt_stop d) (output_text d2)).
  { intros Hfr. rewrite <- Ht. destruct Hset as [(Hc & -> & _)|(? & ? & ? & ? & ? & ? & -> & ?)]; done. }
  assert (Hv : (visible d <= length (shown d2 (ended fr)))%nat).
  { unfold shown. destruct (ended fr) eqn:Efr; [done|]. destruct (Hgrow eq_refl) as [Hg _].
    unfold visible in *. rewrite Hb2, length_take, Hg, length_app. lia. }
  assert (Hsame : take (visible d) (output_text d2) = take (visible d) (output_text d)).
  { rewrite Hpre, take_take, Nat.min_l by done. rewrite Ht, take_app_le; [done|unfold visible; lia]. }
  destruct (next_text_delta (as_kind DELTA (Z.of_nat (visible d)) d2) (ended fr) (visible d))
    as (off & piece & Ep & Hpiece & Hoff); [cbn; lia|done|done|].
  exists d2, fr, sr, piece, off.
  assert (Hout : dt_output_token_ids d2 = dt_output_token_ids d ++ eco_new_token_ids o).
  { unfold dt_output_token_ids. rewrite Hids2, Hids, (sr_prompt _ _ Hsr2), (sr_prompt _ _ Hsr).
    apply drop_app_le, (di_ids _ Hinv). }
  split; [exists new; by rewrite <- Ht|]. unfold detok_update. rewrite !Hk. cbn [mbind result_bind].
  rewrite !app_nil_l, !Hk2. unfold next_output. cbn [as_kind dt_output_kind].
  fold (ended fr). change (bool_decide (CUMULATIVE = FINAL_ONLY)) with false.
  change (bool_decide (CUMULATIVE = DELTA)) with false. change (bool_decide (FINAL_ONLY = FINAL_ONLY)) with true.
  change (bool_decide (FINAL_ONLY = DELTA)) with false. change (bool_decide (DELTA = DELTA)) with true.
  change (bool_decide (DELTA = FINAL_ONLY)) with false. cbn [andb].
  fold (as_kind CUMULATIVE 0 d2) (as_kind FINAL_ONLY 0 d2) (as_kind DELTA (Z.of_nat (visible d)) d2).
  rewrite !next_text_whole by (cbn; lia). rewrite Ep. cbn [dt_output_kind as_kind].
  split; [done|]. split; [by destruct (ended fr)|]. split; [done|].
  split; [by rewrite <- Hsame|]. split; [done|]. intros Hfr. destruct (Hgrow Hfr) as [Hg Hc]. split.
  - split.
    + rewrite (sr_stop _ _ Hsr2), (sr_stop _ _ Hsr). apply Hinv.
    + by rewrite (sr_stop _ _ Hsr2), (sr_stop _ _ Hsr).
    + rewrite Hb2, (sr_stop _ _ Hsr2), (sr_stop _ _ Hsr), (sr_include _ _ Hsr2), (sr_include _ _ Hsr). apply Hinv.
    + rewrite Hids2, Hids, (sr_prompt _ _ Hsr2), (sr_prompt _ _ Hsr), length_app. pose proof (di_ids _ Hinv). lia.
  - rewrite Hoff, Hfr. unfold shown. cbn [as_kind output_text]. rewrite length_take_le; [done|].
    unfold visible in *. cbn. lia.
Qed.

(** ** A whole request *)

(** The outputs a request's detokenizer reports; after a finished one the request is
    gone. *)
Fixpoint stream (d : IncrementalDetokenizer) (outs : list EngineCoreOutput) :
    result (list DetokenizerOutput) :=
  match outs with
  | [] => Ok []
  | o :: outs =>
      '(d, r) ← detok_update d o;
      match r with
      | None => stream d outs
      | Some out =>
          if do_finished out then Ok [out]
          else rest ← stream d outs; Ok (out :: rest)
      end
  end.

(** The text and the tokens of the first [n] pieces. *)
Definition text_upto (n : nat) (l : list DetokenizerOutput) : pystr := concat (do_output_text <$> take n l).
Definition tokens_upto (n : nat) (l : list DetokenizerOutput) : list Z := concat (do_token_ids <$> take n l).

(** The streamed outputs against the cumulative ones. *)
Record agrees (text0 : pystr) (ids0 : list Z) (deltas cums : list DetokenizerOutput) : Prop := {
  ag_length : length deltas = length cums;
  ag_text : ∀ i c, cums !! i = Some c -> do_output_text c = text0 ++ text_upto (S i) deltas;
  ag_ids : ∀ i c, cums !! i = Some c -> do_token_ids c = ids0 ++ tokens_upto (S i) deltas;
  ag_end : ∀ i c x, cums !! i = Some c -> deltas !! i = Some x ->
    do_finished x = do_finished c ∧ do_finish_reason x = do_finish_reason c ∧
    do_stop_reason x = do_stop_reason c;
}.

Lemma agrees_cons text0 ids0 x c deltas cums :
  text0 ++ do_output_text x = do_output_text c -> ids0 ++ do_token_ids x = do_token_ids c ->
  do_finished x = do_finished c ∧ do_finish_reason x = do_finish_reason c ∧
    do_stop_reason x = do_stop_reason c ->
  agrees (do_output_text c) (do_token_ids c) deltas cums -> agrees text0 ids0 (x :: deltas) (c :: cums).
Proof.
  intros Ht Hi He []. split; [simpl; congruence|..].
  - intros [|i] c' Hc; cbn in Hc; simplify_eq; unfold text_upto in *; rewrite firstn_cons, fmap_cons; cbn [concat].
    + by rewrite take_0, app_nil_r.
    + by rewrite (ag_text0 _ _ Hc), <- Ht, <- (assoc_L app).
  - intros [|i] c' Hc; cbn in Hc; simplify_eq; unfold tokens_upto in *; rewrite firstn_cons, fmap_cons; cbn [concat].
    + by rewrite take_0, app_nil_r.
    + by rewrite (ag_ids0 _ _ Hc), <- Hi, <- (assoc_L app).
  - intros [|i] c' x'; cbn; [by intros [= <-] [= <-]|apply ag_end0].
Qed.

Lemma stream_kinds outs d :
  detok_inv d ->
  ∃ deltas cums, stream (as_kind DELTA (Z.of_nat (visible d)) d) outs = Ok deltas ∧
    stream (as_kind CUMULATIVE 0 d) outs = Ok cums ∧
    stream (as_kind FINAL_ONLY 0 d) outs = Ok (filter (fun c => do_finished c = true) cums) ∧
    agrees (take (visible d) (output_text d)) (dt_output_token_ids d) deltas cums.
Proof.
  revert d. induction outs as [|o outs IH]; intros d Hinv; [by exists [], []|]. cbn [stream].
  destruct (detok_step d o Hinv) as (d' & fr & sr & piece & off & _ & Ec & Ef & Ed & Ht & Hi & Hnext).
  rewrite Ec, Ef, Ed. cbn [mbind result_bind do_finished]. destruct (ended fr) eqn:Efr.
  - eexists [_], [_]. split; [done|]. split; [done|]. rewrite filter_cons_True by done. split; [done|].
    by apply agrees_cons.
  - destruct (Hnext eq_refl) as [Hinv' ->]. destruct (IH d' Hinv') as (deltas & cums & -> & -> & -> & Hag).
    cbn [mbind result_bind]. eexists (_ :: _), (_ :: _). split; [done|]. split; [done|].
    rewrite filter_cons_False by done. split; [done|].
    by apply agrees_cons.
Qed.

Lemma detok_new_inv r : Forall (.≠ []) (stop (ecr_sampling_params r)) -> detok_inv (detok_from_new_request r) ∧
  visible (detok_from_new_request r) = 0%nat ∧ dt_output_token_ids (detok_from_new_request r) = [].
Proof.
  intros Hne. unfold detok_from_new_request.
  destruct (convert_prompt_ids_to_tokens _ _) as [[toks p] rd]. split_and!.
  - split; [done| |done|done]. intros s k Hin [_ Hl]. rewrite Forall_forall in Hne.
    specialize (Hne s Hin). destruct s; [done|]. cbn in Hl. lia.
  - unfold visible. cbn. pose proof (buffer_nonneg _ (include_stop_str_in_output (ecr_sampling_params r)) Hne). lia.
  - unfold dt_output_token_ids. cbn. by rewrite drop_all.
Qed.

(** C24: streaming and non-streaming clients get the same answer.  Whatever the
    tokenizer and the engine's outputs, the texts streamed in [DELTA] mode up to any
    step, put together, are the text the [CUMULATIVE] mode reports at that step
    (so no streamed character is ever taken back, although a stop string may cut the
    text), the token ids likewise, both finish at the same step for the same reason,
    and [FINAL_ONLY] reports exactly the finished output. *)
Theorem streaming_agrees r outs :
  Forall (.≠ []) (stop (ecr_sampling_params r)) ->
  let d := detok_from_new_request r in
  ∃ deltas cums, stream (as_kind DELTA 0 d) outs = Ok deltas ∧
    stream (as_kind CUMULATIVE 0 d) outs = Ok cums ∧
    stream (as_kind FINAL_ONLY 0 d) outs = Ok (filter (fun c => do_finished c = true) cums) ∧
    agrees [] [] deltas cums.
Proof.
  intros Hne d. destruct (detok_new_inv r Hne) as (Hinv & Hv & Hids).
  destruct (stream_kinds outs d Hinv) as (deltas & cums & E1 & E2 & E3 & Hag).
  unfold d in *. rewrite Hv in E1, Hag. rewrite Hids, take_0 in Hag. by exists deltas, cums.
Qed.

Lemma next_output_frame d toks fr sr :
  ∃ d' out, next_output d toks fr sr = (d', out) ∧ output_text d' = output_text d ∧
    dt_stop d' = dt_stop d ∧ dt_include_stop d' = dt_include_stop d ∧
    stop_buffer_length d' = stop_buffer_length d ∧ dt_prompt_len d' = dt_prompt_len d ∧
    dt_token_ids d' = dt_token_ids d ∧
    (∀ x, out = Some x -> do_finish_reason x = fr ∧ do_stop_reason x = sr ∧ do_finished x = ended fr) ∧
    (is_Some fr -> is_Some out).
Proof.
  unfold next_output. destruct (_ && _) eqn:E.
  - eexists _, _. split; [done|]. split_and!; try done. intros [r ->]. by rewrite andb_false_r in E.
  - destruct (_get_next_output_text _ _ _) as [d' t] eqn:Eg. eexists _, _. split; [done|].
    assert (Hd : d' = d ∨ ∃ off, d' = with_text d (output_text d) off).
    { unfold _get_next_output_text in Eg. repeat case_match; simplify_eq; eauto. }
    destruct Hd as [->|[off ->]]; split_and!; try done; (by intros x [= <-]) || by eexists.
Qed.

(** An update in any mode: the text settles, a finished request is reported, and an
    unfinished one is again free of stop strings. *)
Lemma detok_update_full d o :
  detok_inv d ->
  ∃ d1 d' out new fr sr, for_each decode_token (eco_new_token_ids o) (d, []) = Ok (d1, new) ∧ detok_update d o = Ok (d', out) ∧
    settles (dt_stop d) (dt_include_stop d) (output_text d ++ new) o (output_text d') fr sr ∧
    (∀ x, out = Some x -> do_finish_reason x = fr ∧ do_stop_reason x = sr ∧ do_finished x = ended fr) ∧
    (ended fr = true -> is_Some out) ∧ (ended fr = false -> detok_inv d').
Proof.
  intros Hinv. destruct (decode_loop_spec (eco_new_token_ids o) d []) as (d1 & new & E & Ht & Hids & Hsr & _).
  destruct (apply_stop d1 new o) as [[d2 fr] sr] eqn:Es.
  destruct (apply_stop_frame _ _ _ _ _ _ Es) as (Hsr2 & Hids2 & _).
  destruct (apply_stop_spec d d1 new o d2 fr sr Hinv Ht Hsr Es) as (Hset & _). rewrite Ht in Hset.
  destruct (next_output_frame d2 (eco_new_token_ids o) fr sr)
    as (d' & out & En & Htext & Hst & Hinc & Hbuf & Hpl & Hti & Hout & Hsome).
  exists d1, d', out, new, fr, sr. split; [exact E|]. unfold detok_update. rewrite E. cbn [mbind result_bind]. rewrite app_nil_l, Es, En, Htext.
  split; [done|]. split; [done|]. split; [done|]. split; [by destruct fr; [intros _; apply Hsome; eexists|]|].
  intros Hfr. destruct Hset as [(Hc & Htx & _)|(? & ? & ? & ? & ? & ? & -> & ?)]; [|done]. split.
  - rewrite Hst, (sr_stop _ _ Hsr2), (sr_stop _ _ Hsr). apply Hinv.
  - by rewrite Hst, (sr_stop _ _ Hsr2), (sr_stop _ _ Hsr), Htext, Htx.
  - rewrite Hbuf, Hst, Hinc, (sr_buffer _ _ Hsr2), (sr_buffer _ _ Hsr), (sr_stop _ _ Hsr2), (sr_stop _ _ Hsr),
      (sr_include _ _ Hsr2), (sr_include _ _ Hsr). apply Hinv.
  - rewrite Hpl, Hti, Hids2, Hids, (sr_prompt _ _ Hsr2), (sr_prompt _ _ Hsr), length_app.
    pose proof (di_ids _ Hinv). lia.
Qed.

Lemma detok_update_spec d o :
  detok_inv d ->
  ∃ d' out new fr sr, detok_update d o = Ok (d', out) ∧
    settles (dt_stop d) (dt_include_stop d) (output_text d ++ new) o (output_text d') fr sr ∧
    (∀ x, out = Some x -> do_finish_reason x = fr ∧ do_stop_reason x = sr ∧ do_finished x = ended fr) ∧
    (ended fr = true -> is_Some out) ∧ (ended fr = false -> detok_inv d').
Proof. intros Hi. destruct (detok_update_full d o Hi) as (d1 & d' & out & new & fr & sr & _ & H'). eauto 10. Qed.

(** C30: stop strings.  Let [new] be the text that decoding the output's tokens adds, and
    assume that no stop string occurs in the text so far (as is the case until the
    request finishes).  If no stop string occurs in the text with [new], the update keeps
    the whole text and passes the engine's finish and stop reason on.  Otherwise, let [s]
    be the first string in the list of stop strings that occurs in it: the update
    reports [STOP] with [s] as the stop reason, and the text is cut at the first
    occurrence of [s], or right after it when stop strings are to be included.  The
    search only looks at a window at the end of the text.  Another stop string, later in
    the list, may remain in the text before the cut ([earlier_stop_string_kept]). *)
Theorem stop_strings_correct d o :
  detok_inv d ->
  ∃ d1 new d' out, for_each decode_token (eco_new_token_ids o) (d, []) = Ok (d1, new) ∧ detok_update d o = Ok (d', out) ∧
    ((clean (dt_stop d) (output_text d ++ new) ∧ output_text d' = output_text d ++ new ∧
      (∀ x, out = Some x -> do_finish_reason x = eco_finish_reason o ∧ do_stop_reason x = eco_stop_reason o)) ∨
     ∃ pre s post k x, dt_stop d = pre ++ s :: post ∧ clean pre (output_text d ++ new) ∧
       occurs_at s (output_text d ++ new) k ∧ (∀ j, (j < k)%nat -> ¬ occurs_at s (output_text d ++ new) j) ∧
       output_text d' = take (k + if dt_include_stop d then length s else 0) (output_text d ++ new) ∧
       out = Some x ∧ do_finish_reason x = Some STOP ∧ do_stop_reason x = Some (stop_str s)).
Proof.
  intros Hinv. destruct (detok_update_full d o Hinv) as (d1 & d' & out & new & fr & sr & Ed & E & Hset & Hout & Hsome & _).
  exists d1, new, d', out. split; [done|]. split; [done|].
  destruct Hset as [(Hc & Htx & -> & ->)|(s & k & (pre & post & Hl & Hpre) & Hk & Hfirst & Htx & -> & ->)].
  - left. split; [done|]. split; [done|]. intros x Hx. by destruct (Hout x Hx) as (? & ? & _).
  - right. destruct (Hsome eq_refl) as [x Hx]. destruct (Hout x Hx) as (Hfr & Hsr' & _).
    exists pre, s, post, k, x. by split_and!.
Qed.

(** ** Byte-level tokenizers *)

(** What a byte-level tokenizer documents: a token stands for a sequence of bytes, and the
    text of a list of tokens is the decoding of all their bytes as UTF-8, with the
    replacement character for what is not well-formed.  Its text is asked for by
    [convert_tokens_to_string] (the tokenizer is fast or has no added tokens). *)
Record byte_level (token_bytes : token -> list Z) : Prop := {
  bl_route : is_fast || bool_decide (get_added_vocab = []) = true;
  bl_text : ∀ l, convert_tokens_to_string l = utf8_decode (concat (token_bytes <$> l));
}.

(** The tokens of a list of generated ids. *)
Definition spelled (skip_special : bool) (ids : list Z) : list token :=
  concat ((fun i => if (0 <=? i) && (i <? tokenizer_len) then convert_ids_to_tokens [i] skip_special else [Some []]) <$> ids).

Section lossless.
Context (r : EngineCoreRequest) (token_bytes : token -> list Z) (Hbl : byte_level token_bytes).
Let sk := skip_special_tokens (ecr_sampling_params r).
Let sb := spaces_between_special_tokens (ecr_sampling_params r).
Let d0 := detok_from_new_request r.
Abbreviation n0 := (length (dt_tokens d0)).
Abbreviation text := (tokens_to_text sk sb).
(** The tokens of the prompt that are kept as context end at the end of a character. *)
Context (Hprompt : ends_with_replacement (text (drop (prefix_offset d0) (dt_tokens d0))) = false).

Lemma text_bytes l : text l = utf8_decode (concat (token_bytes <$> l)).
Proof. unfold tokens_to_text. rewrite (bl_route _ Hbl). apply Hbl. Qed.

Lemma text_nil : text [] = [].
Proof. by rewrite text_bytes. Qed.

(** Text can be split where it does not end in a replacement character. *)
Lemma text_app a b : ends_with_replacement (text a) = false -> text (a ++ b) = text a ++ text b.
Proof.
  rewrite !text_bytes, fmap_app, concat_app. intros Ha. apply utf8_decode_app.
  unfold ends_with_replacement in Ha. by apply bool_decide_eq_false in Ha.
Qed.

Lemma ends_with_app a b : b ≠ [] -> ends_with_replacement (a ++ b) = ends_with_replacement b.
Proof. intros Hb. unfold ends_with_replacement. rewrite last_app. by destruct (last b) eqn:E; [|apply last_None in E]. Qed.

Lemma ends_with_none a b : ends_with_replacement a = false -> ends_with_replacement b = false -> ends_with_replacement (a ++ b) = false.
Proof. intros Ha Hb. destruct b; [by rewrite app_nil_r|by rewrite ends_with_app]. Qed.

(** The tokens are read up to [read_offset], where the text ends at the end of a
    character; the text of the rest is held back, and is empty or ends in a replacement
    character. *)
Record reads (d : IncrementalDetokenizer) (ids : list Z) : Prop := {
  rd_modes : dt_skip_special d = sk ∧ dt_spaces_between d = sb;
  rd_tokens : dt_tokens d = dt_tokens d0 ++ spelled sk ids;
  rd_order : (prefix_offset d <= read_offset d)%nat ∧ (n0 <= read_offset d <= length (dt_tokens d))%nat;
  rd_clean : ends_with_replacement (text (slice (dt_tokens d) (prefix_offset d) (read_offset d))) = false;
  rd_text : output_text d = text (slice (dt_tokens d) n0 (read_offset d));
  rd_whole : ends_with_replacement (output_text d) = false;
  rd_pending : let rest := text (drop (read_offset d) (dt_tokens d)) in rest = [] ∨ ends_with_replacement rest = true;
}.

Lemma new_offsets : read_offset d0 = n0 ∧ (prefix_offset d0 <= read_offset d0)%nat.
Proof.
  unfold d0, detok_from_new_request, convert_prompt_ids_to_tokens, _replace_none_with_empty.
  cbn [dt_tokens prefix_offset read_offset]. rewrite length_fmap. lia.
Qed.

Lemma reads_new : reads d0 [].
Proof.
  destruct new_offsets as [Hr Hp]. split; rewrite ?Hr.
  - done.
  - by rewrite app_nil_r.
  - lia.
  - by rewrite slice_to_end.
  - unfold slice. rewrite Nat.sub_diag, take_0. symmetry. apply text_nil.
  - done.
  - left. rewrite drop_ge by done. apply text_nil.
Qed.

Lemma spelled_snoc ids t : spelled sk (ids ++ [t]) = spelled sk ids ++ spelled sk [t].
Proof. unfold spelled. by rewrite fmap_app, concat_app. Qed.

Lemma reads_step t ids d acc : reads d ids ->
  ∃ d' txt, decode_token t (d, acc) = Ok (d', acc ++ txt) ∧ output_text d' = output_text d ++ txt ∧ reads d' (ids ++ [t]).
Proof.
  intros [[Hsk Hsb] Htk (Ho1 & Ho2 & Ho3) Hcl Htx Hwh Hpe]. unfold decode_token, detokenize_incrementally.
  rewrite last_snoc. cbn [or_raise mbind result_bind]. rewrite Hsk, Hsb.
  set (nt := if _ && _ then _ else _). set (toks := dt_tokens d ++ nt).
  assert (Hnt : nt = spelled sk [t]) by (unfold spelled; cbn; by rewrite app_nil_r).
  assert (Htk' : toks = dt_tokens d0 ++ spelled sk (ids ++ [t])) by (unfold toks; by rewrite spelled_snoc, app_assoc, <-Htk, Hnt).
  assert (Hlen : (length (dt_tokens d) <= length toks)%nat) by (unfold toks; rewrite length_app; lia).
  assert (Hsl : slice toks (prefix_offset d) (read_offset d) = slice (dt_tokens d) (prefix_offset d) (read_offset d)) by (unfold toks; by apply slice_app_l).
  pose proof (slice_app_drop toks (prefix_offset d) (read_offset d) Ho1) as Hsplit.
  rewrite <-Hsplit, Hsl, (text_app _ _ Hcl), length_app, drop_app_length.
  set (pend := text (drop (read_offset d) toks)). set (pre := text (slice _ _ _)) in *.
  destruct ((length pre + length pend <=? length pre)%nat || _) eqn:Ehold; cbn [mbind result_bind].
  - eexists _, []. split; [done|]. split; [done|]. split; cbn [dt_skip_special dt_spaces_between dt_tokens prefix_offset read_offset output_text]; fold toks.
    + done.
    + done.
    + lia.
    + by rewrite Hsl.
    + rewrite app_nil_r, Htx. unfold toks. by rewrite slice_app_l.
    + by rewrite app_nil_r.
    + fold pend. destruct (decide (pend = [])) as [|Hp]; [by left|right].
      rewrite ends_with_app in Ehold by done. apply orb_true_iff in Ehold as [He%Nat.leb_le|]; [|done].
      destruct pend; [done|]. simpl in He. lia.
  - apply orb_false_iff in Ehold as [Hpos%Nat.leb_gt Hend].
    assert (Hne : pend ≠ []) by (intros E; rewrite E in Hpos; simpl in Hpos; lia). rewrite ends_with_app in Hend by done.
    eexists _, pend. split; [done|]. split; [done|]. split; cbn [dt_skip_special dt_spaces_between dt_tokens prefix_offset read_offset output_text]; fold toks.
    + done.
    + done.
    + lia.
    + by rewrite slice_to_end.
    + rewrite Htx. rewrite Htx in Hwh. unfold pend. rewrite slice_to_end, <-(text_app _ _ Hwh). f_equal.
      rewrite <-(slice_app_drop toks n0 (read_offset d) Ho2). unfold toks. by rewrite slice_app_l.
    + by apply ends_with_none.
    + left. rewrite drop_ge by done. apply text_nil.
Qed.

Lemma reads_all toks ids d acc : reads d ids ->
  ∃ d' txt, for_each decode_token toks (d, acc) = Ok (d', acc ++ txt) ∧ output_text d' = output_text d ++ txt ∧ reads d' (ids ++ toks).
Proof.
  revert ids d acc. induction toks as [|t toks IH]; intros ids d acc Hr; cbn [for_each].
  { exists d, []. by rewrite !app_nil_r. }
  destruct (reads_step t ids d acc Hr) as (d1 & txt & -> & Ht & Hr1). cbn [mbind result_bind].
  destruct (IH _ d1 (acc ++ txt) Hr1) as (d' & txt' & E & Ht' & Hr'). exists d', (txt ++ txt').
  rewrite !app_assoc. rewrite <-app_assoc in Hr'. split; [done|]. split; [by rewrite Ht', Ht|done].
Qed.

(** C34: no text is lost between the pieces.  For a byte-level tokenizer (the text of tokens
    is the UTF-8 decoding of all their bytes, with replacement characters for what is
    not well-formed) and a prompt whose last tokens end at the end of a character: the
    generated ids are decoded without an error, one by one, and the text produced so
    far, followed by a piece that is held back, is the decoding of the bytes of all
    tokens generated so far; the piece is empty or ends in a replacement character,
    since a character may be unfinished.  In particular, when the bytes spell a text
    that does not end in the replacement character, all of it has been produced, however
    its characters were split over the tokens. *)
Theorem detokenize_lossless ids :
  ∃ d text held, for_each decode_token ids (d0, []) = Ok (d, text) ∧ output_text d = text ∧
    utf8_decode (concat (token_bytes <$> spelled sk ids)) = text ++ held ∧
    (held = [] ∨ ends_with_replacement held = true) ∧
    ∀ cs, Forall scalar cs -> last cs ≠ Some replacement ->
      concat (token_bytes <$> spelled sk ids) = concat (utf8_encode <$> cs) -> text = cs.
Proof.
  destruct (reads_all ids [] d0 [] reads_new) as (d & txt & E & Ht & [_ Htk (_ & Ho & _) _ Htx Hwh Hpe]).
  assert (E0 : output_text d0 = []) by (unfold d0, detok_from_new_request; by destruct (convert_prompt_ids_to_tokens _ _) as [[? ?] ?]).
  rewrite E0 in Ht. cbn [app] in *. exists d, txt, (text (drop (read_offset d) (dt_tokens d))). rewrite <-Ht.
  assert (Hall : utf8_decode (concat (token_bytes <$> spelled sk ids)) = output_text d ++ text (drop (read_offset d) (dt_tokens d))).
  { rewrite <-text_bytes. rewrite Htx in Hwh |- *. rewrite <-(text_app _ _ Hwh), slice_app_drop by done. by rewrite Htk, drop_app_length. }
  split; [by rewrite Ht|]. split; [done|]. split; [done|]. split; [done|].
  intros cs Hcs Hl Eb. rewrite Eb, (utf8_decode_encode cs Hcs) in Hall. rewrite Hall.
  destruct Hpe as [->|Hp]; [by rewrite app_nil_r|]. exfalso. apply Hl. rewrite Hall, last_app.
  unfold ends_with_replacement in Hp. apply bool_decide_eq_true in Hp. by rewrite Hp.
Qed.
End lossless.
End tokenizer.

(** ** A small tokenizer *)

(** Ids below 100 are characters, the others spell three letters. *)
Definition spell_token (i : Z) : token := Some (if i <? 100 then [i] else [65; 66; 67]).
Definition spelling : Tokenizer :=
  {| tokenizer_len := 128;
     convert_ids_to_tokens ids _ := spell_token <$> ids;
     convert_tokens_to_string ts := concat (default [] <$> ts);
     is_fast := true; get_added_vocab := []; all_special_tokens := [] |}.

Definition demo_request (stops : list pystr) : EngineCoreRequest :=
  mkEngineCoreRequest "r" None [10; 11] None None None
    (mkSamplingParams 1 None None 0 0 1 0 1 (-1) 0 None stops None [] false (Some 16) 0 None None true
       true true false None CUMULATIVE (stop_buffer stops false) ∅) None.
Definition demo_output (t : Z) : EngineCoreOutput := mkEngineCoreOutput "r" [t] false None None.

Lemma streaming_agrees_witness :
  ∃ deltas cums, @stream spelling (as_kind DELTA 0 (@detok_from_new_request spelling (demo_request [[66; 67; 68]])))
      (demo_output <$> [33; 100; 68]) = Ok deltas ∧ agrees [] [] deltas cums ∧ length deltas = 3%nat.
Proof.
  destruct (@streaming_agrees spelling (demo_request [[66; 67; 68]]) (demo_output <$> [33; 100; 68]))
    as (deltas & cums & E & _ & _ & Hag).
  - repeat (constructor; [discriminate|]). constructor.
  - exists deltas, cums. split; [done|]. split; [done|]. vm_compute in E. by injection E as <-.
Defined.

Lemma stop_strings_correct_witness :
  ∃ d' out, @detok_update spelling (@detok_from_new_request spelling (demo_request [[67]])) (demo_output 100) =
      Ok (d', Some out) ∧ do_finish_reason out = Some STOP ∧ output_text d' = [65; 66].
Proof.
  destruct (@stop_strings_correct spelling (@detok_from_new_request spelling (demo_request [[67]])) (demo_output 100))
    as (d1 & new & d' & out & E1 & E & _).
  - apply detok_new_inv. repeat (constructor; [discriminate|]). constructor.
  - vm_compute in E. injection E as <- <-. by eexists _, _.
Defined.

(** A byte-level tokenizer: every id is a byte. *)
Definition bytes_tokenizer : Tokenizer :=
  {| tokenizer_len := 256;
     convert_ids_to_tokens ids _ := (fun i => Some [i]) <$> ids;
     convert_tokens_to_string ts := utf8_decode (concat (default [] <$> ts));
     is_fast := true; get_added_vocab := []; all_special_tokens := [] |}.

Lemma bytes_byte_level : @byte_level bytes_tokenizer (default []).
Proof. by split. Qed.

(** The euro sign is three bytes: nothing is produced until the last one. *)
Lemma detokenize_lossless_witness :
  (∃ d held, for_each (@decode_token bytes_tokenizer) [33; 226; 130] (@detok_from_new_request bytes_tokenizer (demo_request []), []) = Ok (d, [33]) ∧
     utf8_decode [33; 226; 130] = [33] ++ held) ∧
  ∃ d, for_each (@decode_token bytes_tokenizer) [33; 226; 130; 172] (@detok_from_new_request bytes_tokenizer (demo_request []), []) = Ok (d, [33; 8364]).
Proof.
  split.
  - destruct (@detokenize_lossless bytes_tokenizer (demo_request []) (default []) bytes_byte_level ltac:(by vm_compute) [33; 226; 130])
      as (d & text & held & E & _ & Ht & _).
    assert (text = [33]) as -> by (vm_compute in E; by injection E as _ <-). exists d, held. split; [exact E|exact Ht].
  - destruct (@detokenize_lossless bytes_tokenizer (demo_request []) (default []) bytes_byte_level ltac:(by vm_compute) [33; 226; 130; 172])
      as (d & text & held & E & _ & _ & _ & Hall).
    exists d. rewrite <-(Hall [33; 8364]); [exact E| |done|by vm_compute].
    repeat (constructor; [left; lia|]). constructor.
Defined.

(** Two stop strings in one token: the text is cut at the one that comes first in the
    list of stop strings, and the other one, which occurs before it, stays in the
    output. *)
Theorem earlier_stop_string_kept :
  ∃ d' out, @detok_update spelling (@detok_from_new_request spelling (demo_request [[67]; [65]])) (demo_output 100) =
      Ok (d', Some out) ∧ do_finish_reason out = Some STOP ∧ do_stop_reason out = Some (stop_str [67]) ∧
    occurs_at [65] (do_output_text out) 0.
Proof. eexists _, _. split; [vm_compute; reflexivity|].
  split; [done|]. split; [done|]. split; [done|cbn; lia]. Qed.
