(* ===== verification/OutputProcessor.v ===== *)
(** * The client side of the outputs: [vllm/v1/engine/output_processor.py],
    [IterationStats] of [vllm/v1/metrics/stats.py] and [RequestOutput] of
    [vllm/outputs.py]

    The output processor keeps one detokenizer per active request, turns engine
    outputs into request outputs, and reports the requests that a stop string has
    finished although the engine has not.  An [asyncio.Queue] outlives the request
    state that points to it, so queues are a store of their own and the request
    state holds a handle.  Wall-clock times are not kept. *)

From stdpp Require Import base tactics list gmap sets strings.
From Stdlib Require Import ZArith Lia.
From S2P Require Import Prelude.
From S2P Require Import SamplingParams.
From S2P Require Import Request.
From S2P Require Import Detokenizer.
From S2P Require Import DetokTheorems.

Local Open Scope Z_scope.

(** ** Data *)

Record CompletionOutput : Type := mkCompletion {
  co_index : Z;
  co_text : pystr;
  co_token_ids : list Z;
  co_finish_reason : option string;
  co_stop_reason : option StopReason;
}.

Record RequestOutput : Type := mkRequestOutput {
  ro_request_id : string;
  ro_prompt : option string;
  ro_prompt_token_ids : list Z;
  ro_outputs : list CompletionOutput;
  ro_finished : bool;
}.

(** [RequestOutput.new] *)
Definition RequestOutput_new (rid : string) (prompt : option string) (prompt_ids : list Z)
    (text : pystr) (token_ids : list Z) (finished : bool) : RequestOutput :=
  mkRequestOutput rid prompt prompt_ids [mkCompletion 0 text token_ids None None] finished.

(** [RequestStateStats] without the time stamp. *)
Record RequestStateStats : Type := mkStateStats { rss_num_generation_tokens : Z }.

Record FinishedRequestStats : Type := mkFinishedStats {
  frs_finish_reason : FinishReason;
  frs_num_prompt_tokens : Z;
  frs_num_generation_tokens : Z;
}.

Record IterationStats : Type := mkIterStats {
  it_log_stats : bool;
  it_num_generation_tokens : Z;
  it_num_prompt_tokens : Z;
  it_finished_requests : list FinishedRequestStats;
}.

Definition IterationStats_init (log_stats : bool) : IterationStats := mkIterStats log_stats 0 0 [].

(** [update_from_output] of the statistics. *)
Definition stats_update (it : IterationStats) (output : EngineCoreOutput) (is_prefilling : bool)
    (prompt_len : Z) (st : RequestStateStats) : result (IterationStats * RequestStateStats) :=
  if negb (it_log_stats it) then Ok (it, st)
  else
    let n := len (eco_new_token_ids output) in
    _ ← py_assert (negb is_prefilling || (0 <? n));
    Ok (mkIterStats (it_log_stats it) (it_num_generation_tokens it + n)
          (if is_prefilling then it_num_prompt_tokens it + prompt_len else it_num_prompt_tokens it)
          (it_finished_requests it),
        mkStateStats (rss_num_generation_tokens st + n)).

(** [update_from_finished_request] *)
Definition stats_finished (it : IterationStats) (reason : FinishReason) (out : RequestOutput)
    (st : RequestStateStats) : IterationStats :=
  mkIterStats (it_log_stats it) (it_num_generation_tokens it) (it_num_prompt_tokens it)
    (it_finished_requests it ++
     [mkFinishedStats reason (len (ro_prompt_token_ids out)) (rss_num_generation_tokens st)]).

Record RequestState : Type := mkReqStateOut {
  rs_request_id : string;
  rs_prompt : option string;
  rs_prompt_token_ids : list Z;
  rs_prompt_len : Z;
  rs_detokenizer : IncrementalDetokenizer;
  rs_is_prefilling : bool;
  rs_queue : option nat;
  rs_stats : RequestStateStats;
}.

Record OutputProcessor : Type := mkOutputProcessor {
  op_log_stats : bool;
  request_states : gmap string RequestState;
  op_queues : gmap nat (list RequestOutput);
}.

Definition with_states (op : OutputProcessor) (m : gmap string RequestState) : OutputProcessor :=
  mkOutputProcessor (op_log_stats op) m (op_queues op).

(** ** Bookkeeping *)

Definition is_request_active (op : OutputProcessor) (rid : string) : bool :=
  bool_decide (is_Some (request_states op !! rid)).
Definition op_get_num_unfinished_requests (op : OutputProcessor) : Z := Z.of_nat (size (request_states op)).
Definition op_has_unfinished_requests (op : OutputProcessor) : bool :=
  0 <? op_get_num_unfinished_requests op.

Definition op_abort_requests (op : OutputProcessor) (ids : list string) : OutputProcessor :=
  with_states op (foldl (fun m rid => delete rid m) (request_states op) ids).

Section processor.
Context `{Tokenizer}.

Definition rs_from_new_request (r : EngineCoreRequest) (queue : option nat) : RequestState :=
  mkReqStateOut (ecr_request_id r) (ecr_prompt r) (ecr_prompt_token_ids r)
    (len (ecr_prompt_token_ids r)) (detok_from_new_request r) true queue (mkStateStats 0).

Definition op_add_request (op : OutputProcessor) (r : EngineCoreRequest) (queue : option nat) :
    result OutputProcessor :=
  match request_states op !! ecr_request_id r with
  | Some _ => Err ValueError
  | None => Ok (with_states op (<[ecr_request_id r := rs_from_new_request r queue]> (request_states op)))
  end.

(** [_make_request_output] *)
Definition _make_request_output (st : RequestState) (d : DetokenizerOutput) : RequestOutput :=
  let out := RequestOutput_new (rs_request_id st) (rs_prompt st) (rs_prompt_token_ids st)
               (do_output_text d) (do_token_ids d) (do_finished d) in
  if do_finished d then
    mkRequestOutput (ro_request_id out) (ro_prompt out) (ro_prompt_token_ids out)
      [mkCompletion 0 (do_output_text d) (do_token_ids d)
         (Some (match do_finish_reason d with Some r => FinishReason_str r | None => "None" end))
         (do_stop_reason d)] (ro_finished out)
  else out.

Record OutputProcessorOutput : Type := mkOPO {
  opo_request_outputs : list RequestOutput;
  opo_reqs_to_abort : list string;
  opo_iteration_stats : IterationStats;
}.

(** Hand over a request output: to the request's queue, or to the caller's list. *)
Definition deliver (op : OutputProcessor) (st : RequestState) (out : RequestOutput)
    (outs : list RequestOutput) : OutputProcessor * list RequestOutput :=
  match rs_queue st with
  | Some q =>
      (mkOutputProcessor (op_log_stats op) (request_states op)
         (<[q := default [] (op_queues op !! q) ++ [out]]> (op_queues op)), outs)
  | None => (op, outs ++ [out])
  end.

(** The body of the loop of [process_outputs]. *)
Definition process_output (output : EngineCoreOutput) (acc : OutputProcessor * OutputProcessorOutput) :
    result (OutputProcessor * OutputProcessorOutput) :=
  let '(op, res) := acc in
  let req_id := eco_request_id output in
  match request_states op !! req_id with
  | None => Ok (op, res)
  | Some st =>
      '(it, rstats) ← stats_update (opo_iteration_stats res) output (rs_is_prefilling st)
                        (rs_prompt_len st) (rs_stats st);
      '(d, r) ← detok_update (rs_detokenizer st) output;
      let st := mkReqStateOut (rs_request_id st) (rs_prompt st) (rs_prompt_token_ids st)
                  (rs_prompt_len st) d false (rs_queue st) rstats in
      let op := with_states op (<[req_id := st]> (request_states op)) in
      match r with
      | None => Ok (op, mkOPO (opo_request_outputs res) (opo_reqs_to_abort res) it)
      | Some dout =>
          let out := _make_request_output st dout in
          let '(op, outs) := deliver op st out (opo_request_outputs res) in
          if ro_finished out then
            reason ← or_raise AssertionError (do_finish_reason dout);
            let op := with_states op (delete req_id (request_states op)) in
            let aborts := if eco_finished output then opo_reqs_to_abort res
                          else opo_reqs_to_abort res ++ [req_id] in
            Ok (op, mkOPO outs aborts (stats_finished it reason out rstats))
          else Ok (op, mkOPO outs (opo_reqs_to_abort res) it)
      end
  end.

Definition process_outputs (op : OutputProcessor) (outputs : list EngineCoreOutput)
    (stats : option IterationStats) : result (OutputProcessor * OutputProcessorOutput) :=
  for_each process_output outputs
    (op, mkOPO [] [] (default (IterationStats_init (op_log_stats op)) stats)).

(** ** What processing does *)

Definition op_inv (op : OutputProcessor) : Prop :=
  ∀ rid st, request_states op !! rid = Some st -> rs_request_id st = rid ∧ detok_inv (rs_detokenizer st).

(** The detokenizer's report for an output of the engine, and whether it ends the
    request. *)
Definition detok_report (st : RequestState) (o : EngineCoreOutput) : option DetokenizerOutput :=
  match detok_update (rs_detokenizer st) o with Ok (_, r) => r | Err _ => None end.
Definition ends (st : RequestState) (o : EngineCoreOutput) : bool :=
  match detok_report st o with Some x => do_finished x | None => false end.

(** The request outputs that go to a destination: a queue, or the caller. *)
Definition report_to (op : OutputProcessor) (dst : option nat) (o : EngineCoreOutput) : option RequestOutput :=
  st ← request_states op !! eco_request_id o;
  if decide (rs_queue st = dst) then _make_request_output st <$> detok_report st o else None.

(** Requests that end here although the engine goes on with them. *)
Definition to_abort (op : OutputProcessor) (o : EngineCoreOutput) : option string :=
  st ← request_states op !! eco_request_id o;
  if ends st o && negb (eco_finished o) then Some (eco_request_id o) else None.

Definition queue (op : OutputProcessor) (q : nat) : list RequestOutput := default [] (op_queues op !! q).

(** What one or several outputs did to the processor. *)
Record processed (op op' : OutputProcessor) (res res' : OutputProcessorOutput)
    (outs : list EngineCoreOutput) : Prop := {
  pr_other : ∀ rid, (rid ∉ eco_request_id <$> outs) -> request_states op' !! rid = request_states op !! rid;
  pr_gone : ∀ o st, o ∈ outs -> request_states op !! eco_request_id o = Some st -> ends st o = true ->
    request_states op' !! eco_request_id o = None;
  pr_next : ∀ o st, o ∈ outs -> request_states op !! eco_request_id o = Some st -> ends st o = false ->
    ∃ st', request_states op' !! eco_request_id o = Some st' ∧ rs_queue st' = rs_queue st ∧
      detok_update (rs_detokenizer st) o = Ok (rs_detokenizer st', detok_report st o);
  pr_inactive : ∀ o, o ∈ outs -> request_states op !! eco_request_id o = None ->
    request_states op' !! eco_request_id o = None;
  pr_outputs : opo_request_outputs res' = opo_request_outputs res ++ omap (report_to op None) outs;
  pr_queues : ∀ q, queue op' q = queue op q ++ omap (report_to op (Some q)) outs;
  pr_aborts : opo_reqs_to_abort res' = opo_reqs_to_abort res ++ omap (to_abort op) outs;
}.

Lemma queue_deliver op st out outs op' outs' q :
  deliver op st out outs = (op', outs') ->
  request_states op' = request_states op ∧
  queue op' q = queue op q ++ (if decide (rs_queue st = Some q) then [out] else []) ∧
  outs' = outs ++ (if decide (rs_queue st = None) then [out] else []).
Proof.
  unfold deliver, queue. destruct (rs_queue st) as [q'|]; intros [= <- <-].
  - cbn. rewrite app_nil_r. split; [done|]. split; [|done]. destruct (decide (q' = q)) as [->|Hne].
    + rewrite lookup_insert_eq, decide_True by done. done.
    + rewrite lookup_insert_ne, decide_False by congruence. by rewrite app_nil_r.
  - cbn. by rewrite app_nil_r.
Qed.

Lemma ends_finished st o x d :
  detok_update (rs_detokenizer st) o = Ok (d, Some x) -> ends st o = do_finished x.
Proof. intros E. unfold ends, detok_report. by rewrite E. Qed.

Lemma processed_one op op' res res' o :
  (∀ rid, rid ≠ eco_request_id o -> request_states op' !! rid = request_states op !! rid) ->
  match request_states op !! eco_request_id o with
  | None => request_states op' !! eco_request_id o = None
  | Some st =>
      if ends st o then request_states op' !! eco_request_id o = None
      else ∃ st', request_states op' !! eco_request_id o = Some st' ∧ rs_queue st' = rs_queue st ∧
        detok_update (rs_detokenizer st) o = Ok (rs_detokenizer st', detok_report st o)
  end ->
  opo_request_outputs res' = opo_request_outputs res ++ omap (report_to op None) [o] ->
  (∀ q, queue op' q = queue op q ++ omap (report_to op (Some q)) [o]) ->
  opo_reqs_to_abort res' = opo_reqs_to_abort res ++ omap (to_abort op) [o] ->
  processed op op' res res' [o].
Proof.
  intros Hoth Hid Ho Hq Ha. split; try done.
  - intros rid Hr. apply Hoth. intros ->. by apply Hr, list_elem_of_singleton.
  - intros o' st ->%list_elem_of_singleton Hst He. by rewrite Hst, He in Hid.
  - intros o' st ->%list_elem_of_singleton Hst He. by rewrite Hst, He in Hid.
  - intros o' ->%list_elem_of_singleton Hst. by rewrite Hst in Hid.
Qed.

Lemma process_output_spec op res o :
  op_inv op -> eco_new_token_ids o ≠ [] ->
  ∃ op' res', process_output o (op, res) = Ok (op', res') ∧ op_inv op' ∧ processed op op' res res' [o].
Proof.
  intros Hinv Hnew. unfold process_output.
  destruct (request_states op !! eco_request_id o) as [st|] eqn:Hst; cycle 1.
  { exists op, res. split; [done|]. split; [done|].
    apply processed_one; unfold report_to, to_abort; cbn; rewrite ?Hst; cbn; rewrite ?app_nil_r; try done.
    intros q. by rewrite app_nil_r. }
  assert (∃ it rst, stats_update (opo_iteration_stats res) o (rs_is_prefilling st)
    (rs_prompt_len st) (rs_stats st) = Ok (it, rst)) as (it & rst & ->).
  { unfold stats_update. destruct (negb (it_log_stats _)); [by eexists _, _|].
    rewrite (proj2 (Z.ltb_lt 0 _)) by (destruct (eco_new_token_ids o); [done|cbn; lia]).
    rewrite orb_true_r. by eexists _, _. }
  cbn [mbind result_bind]. destruct (Hinv _ _ Hst) as [Hid Hdi].
  destruct (detok_update_spec _ o Hdi) as (d & r & new & fr & sr & Ed & _ & Hr & Hsome & Hnext).
  rewrite Ed. cbn [mbind result_bind]. set (st' := mkReqStateOut _ _ _ _ d false _ rst).
  assert (Hrep : detok_report st o = r) by (unfold detok_report; by rewrite Ed).
  assert (Hkeep : ended fr = false -> op_inv (with_states op (<[eco_request_id o := st']> (request_states op)))).
  { intros Hfr rid s'. cbn. destruct (decide (rid = eco_request_id o)) as [->|Hne].
    - rewrite lookup_insert_eq. intros [= <-]. by split; [|apply Hnext].
    - rewrite lookup_insert_ne by done. apply Hinv. }
  destruct r as [x|]; cycle 1.
  { assert (ended fr = false) as Hfr by (destruct (ended fr); [by destruct Hsome|done]).
    eexists _, _. split; [done|]. split; [by apply Hkeep|].
    assert (ends st o = false) as He by (unfold ends; by rewrite Hrep).
    apply processed_one; unfold report_to, to_abort, queue; cbn; rewrite ?Hst; cbn; rewrite ?He, ?Hrep; cbn.
    - intros rid Hne. by apply lookup_insert_ne.
    - exists st'. rewrite lookup_insert_eq. by split_and!.
    - by case_decide; rewrite app_nil_r.
    - intros q. by case_decide; rewrite app_nil_r.
    - by rewrite app_nil_r. }
  destruct (Hr x eq_refl) as (Hfr & Hsr & Hfin). pose proof (ends_finished st o x d Ed) as He. rewrite Hfin in He.
  assert (Hmk : _make_request_output st' x = _make_request_output st x) by done.
  assert (Hrf : ro_finished (_make_request_output st' x) = ended fr).
  { rewrite <- Hfin. unfold _make_request_output. by destruct (do_finished x). }
  destruct (deliver _ st' (_make_request_output st' x) _) as [op1 outs1] eqn:Edel.
  pose proof (fun q => queue_deliver _ _ _ _ _ _ q Edel) as Hdel.
  destruct (Hdel 0%nat) as (Hs1 & _ & Ho1). cbn [with_states request_states] in Hs1.
  assert (Hq1 : ∀ q, queue op1 q = queue op q ++ (if decide (rs_queue st = Some q) then [_make_request_output st x] else [])).
  { intros q. by destruct (Hdel q) as (_ & -> & _). }
  change (rs_queue st') with (rs_queue st) in Ho1. rewrite Hrf. destruct (ended fr) eqn:Efr.
  - rewrite Hfr. destruct fr as [reason|]; [|done]. cbn [or_raise mbind result_bind].
    eexists _, _. split; [done|]. split.
    { intros rid s'. cbn. rewrite Hs1. rewrite delete_insert_eq. intros [_ Hl]%lookup_delete_Some. by apply Hinv. }
    apply processed_one; unfold report_to, to_abort; cbn; rewrite ?Hst; cbn; rewrite ?He, ?Hrep; cbn.
    + intros rid Hne. by rewrite Hs1, lookup_delete_ne, lookup_insert_ne.
    + apply lookup_delete_eq.
    + rewrite Ho1. repeat case_decide; done.
    + intros q. change (queue (with_states op1 _) q) with (queue op1 q). rewrite Hq1. repeat case_decide; done.
    + destruct (eco_finished o); [by rewrite app_nil_r|done].
  - eexists _, _. split; [done|]. split.
    { intros rid s'. rewrite Hs1. by apply (Hkeep eq_refl). }
    apply processed_one; unfold report_to, to_abort; cbn; rewrite ?Hst; cbn; rewrite ?He, ?Hrep; cbn.
    + intros rid Hne. by rewrite Hs1, lookup_insert_ne.
    + exists st'. rewrite Hs1, lookup_insert_eq. by split_and!.
    + rewrite Ho1. repeat case_decide; done.
    + intros q. rewrite Hq1. repeat case_decide; done.
    + by rewrite app_nil_r.
Qed.

Lemma omap_ext_in {A B} (f g : A -> option B) (l : list A) : (∀ x, x ∈ l -> f x = g x) -> omap f l = omap g l.
Proof.
  induction l as [|x l IH]; intros Hl; [done|]. cbn. rewrite (Hl x) by by left.
  rewrite IH; [done|]. intros y Hy. apply Hl. by right.
Qed.

Lemma processed_cons op op1 op2 res res1 res2 o outs :
  (eco_request_id o ∉ eco_request_id <$> outs) ->
  processed op op1 res res1 [o] -> processed op1 op2 res1 res2 outs -> processed op op2 res res2 (o :: outs).
Proof.
  intros Hn P1 P2.
  assert (Hsame : ∀ o', o' ∈ outs -> request_states op1 !! eco_request_id o' = request_states op !! eco_request_id o').
  { intros o' Ho. apply (pr_other _ _ _ _ _ P1). intros Hin%list_elem_of_singleton. apply Hn.
    rewrite <- Hin. by apply list_elem_of_fmap_2. }
  pose proof (pr_other _ _ _ _ _ P2 _ Hn) as Hid.
  split.
  - intros rid. rewrite fmap_cons, not_elem_of_cons. intros [Hne Hr]. rewrite (pr_other _ _ _ _ _ P2 _ Hr).
    apply (pr_other _ _ _ _ _ P1). by intros ?%list_elem_of_singleton.
  - intros o' st [->|Ho]%elem_of_cons Hst He.
    + rewrite Hid. apply (pr_gone _ _ _ _ _ P1 o st); [by left|done..].
    + apply (pr_gone _ _ _ _ _ P2 o' st Ho); [by rewrite Hsame|done].
  - intros o' st [->|Ho]%elem_of_cons Hst He.
    + rewrite Hid. apply (pr_next _ _ _ _ _ P1 o st); [by left|done..].
    + apply (pr_next _ _ _ _ _ P2 o' st Ho); [by rewrite Hsame|done].
  - intros o' [->|Ho]%elem_of_cons Hst.
    + rewrite Hid. apply (pr_inactive _ _ _ _ _ P1 o); [by left|done].
    + apply (pr_inactive _ _ _ _ _ P2 o' Ho). by rewrite Hsame.
  - rewrite (pr_outputs _ _ _ _ _ P2), (pr_outputs _ _ _ _ _ P1), <- (assoc_L app). f_equal.
    rewrite (omap_ext_in (report_to op1 None) (report_to op None));
      [cbn; by destruct (report_to op None o)|]. intros x Hx. unfold report_to. by rewrite Hsame.
  - intros q. rewrite (pr_queues _ _ _ _ _ P2), (pr_queues _ _ _ _ _ P1), <- (assoc_L app). f_equal.
    rewrite (omap_ext_in (report_to op1 (Some q)) (report_to op (Some q)));
      [cbn; by destruct (report_to op (Some q) o)|]. intros x Hx. unfold report_to. by rewrite Hsame.
  - rewrite (pr_aborts _ _ _ _ _ P2), (pr_aborts _ _ _ _ _ P1), <- (assoc_L app). f_equal.
    rewrite (omap_ext_in (to_abort op1) (to_abort op));
      [cbn; by destruct (to_abort op o)|]. intros x Hx. unfold to_abort. by rewrite Hsame.
Qed.

Lemma process_outputs_spec outs op res :
  op_inv op -> NoDup (eco_request_id <$> outs) -> Forall (fun o => eco_new_token_ids o ≠ []) outs ->
  ∃ op' res', for_each process_output outs (op, res) = Ok (op', res') ∧ op_inv op' ∧
    processed op op' res res' outs.
Proof.
  revert op res. induction outs as [|o outs IH]; intros op res Hinv Hnd Hne.
  { exists op, res. split; [done|]. split; [done|].
    split; cbn; rewrite ?app_nil_r; try done; try (by intros ? ? ?%elem_of_nil); try (by intros ? ?%elem_of_nil).
    intros q. by rewrite app_nil_r. }
  rewrite fmap_cons in Hnd. apply NoDup_cons in Hnd as [Hn Hnd]. apply Forall_cons in Hne as [Ho Hne].
  destruct (process_output_spec op res o Hinv Ho) as (op1 & res1 & E1 & Hinv1 & P1).
  destruct (IH op1 res1 Hinv1 Hnd Hne) as (op2 & res2 & E2 & Hinv2 & P2).
  exists op2, res2. cbn [for_each]. rewrite E1. cbn [mbind result_bind]. split; [done|]. split; [done|].
  by eapply processed_cons.
Qed.

Lemma op_add_request_inv op r q op' :
  op_inv op -> Forall (.≠ []) (stop (ecr_sampling_params r)) -> op_add_request op r q = Ok op' ->
  op_inv op' ∧ dom (request_states op') = {[ecr_request_id r]} ∪ dom (request_states op).
Proof.
  intros Hinv Hst. unfold op_add_request. destruct (request_states op !! _) eqn:E; [done|]. intros [= <-].
  split; [|cbn; by rewrite dom_insert_L]. intros rid st. cbn.
  destruct (decide (rid = ecr_request_id r)) as [->|Hne].
  - rewrite lookup_insert_eq. intros [= <-]. split; [done|]. by apply detok_new_inv.
  - rewrite lookup_insert_ne by done. apply Hinv.
Qed.

(** C32: processing the engine's outputs.  With one output per request, each with a
    new token, [process_outputs] returns; a request that is not active is ignored;
    a request that ends, by the engine's word or by a stop string, is forgotten and
    every other one keeps its advanced detokenizer; the reports go to the request's
    queue or to the caller, in the order of the outputs; and exactly the requests
    that a stop string ended while the engine goes on are to be aborted. *)
Theorem process_outputs_correct op outs stats :
  op_inv op -> NoDup (eco_request_id <$> outs) -> Forall (fun o => eco_new_token_ids o ≠ []) outs ->
  ∃ op' res, process_outputs op outs stats = Ok (op', res) ∧ op_inv op' ∧
    processed op op' (mkOPO [] [] (default (IterationStats_init (op_log_stats op)) stats)) res outs.
Proof. intros. by apply process_outputs_spec. Qed.
End processor.

(** Two active requests: one streams to a queue and meets its stop string, the other
    reports to the caller; a third id is unknown. *)
Definition demo_op : OutputProcessor :=
  mkOutputProcessor true
    {["r"%string := @rs_from_new_request spelling (demo_request [[67]]) (Some 0%nat);
      "s"%string := @rs_from_new_request spelling
        (mkEngineCoreRequest "s" None [10] None None None (plain_sampling (Some 4)) None) None]} ∅.
Definition demo_outs : list EngineCoreOutput :=
  [demo_output 100; mkEngineCoreOutput "s" [33] false None None; mkEngineCoreOutput "t" [1] false None None].

Lemma process_outputs_correct_witness :
  ∃ op' res, @process_outputs spelling demo_op demo_outs None = Ok (op', res) ∧
    opo_reqs_to_abort res = ["r"%string] ∧ request_states op' !! "r"%string = None.
Proof.
  destruct (@process_outputs_correct spelling demo_op demo_outs None) as (op' & res & E & _ & P).
  - intros rid st. cbn. rewrite lookup_insert_Some, lookup_singleton_Some.
    intros [[<- <-]|[_ [<- <-]]]; (split; [done|]); apply detok_new_inv;
      repeat (constructor; [discriminate|]); constructor.
  - apply (bool_decide_unpack _). vm_compute. done.
  - repeat (constructor; [discriminate|]). constructor.
  - exists op', res. split; [done|]. split.
    + rewrite (pr_aborts _ _ _ _ _ P). vm_compute. reflexivity.
    + apply (pr_gone _ _ _ _ _ P (demo_output 100) (@rs_from_new_request spelling (demo_request [[67]]) (Some 0%nat)));
        [by left|vm_compute; reflexivity|vm_compute; reflexivity].
Defined.
