(* ===== verification/EngineCore.v ===== *)
(** * The engine core and the encoder core: [vllm/v1/engine/core.py]

    [EngineCore] owns the decoder scheduler, the server side of the multi-modal
    input cache and the dict of encoder results, which is shared with the scheduler
    (its [encoder_cache]) and the worker.  [EncoderCore] is its counterpart in the
    encoder process.

    The worker is a parameter: [execute_model] takes the shared encoder cache and
    the scheduler output and returns the sampled tokens and the cache as it leaves
    it.  The queue of encoder results is filled by another process, so the loop in
    [step] takes the list of what each poll of the queue finds; the list is also
    its fuel, and [OutOfFuel] means that the loop is still spinning.  An engine core
    built without a queue (in process) has [None] for it, and the loop raises
    AttributeError. *)

From stdpp Require Import base tactics list gmap sets strings.
From Stdlib Require Import ZArith QArith Lia.
From S2P Require Import Prelude.
From S2P Require Import SamplingParams.
From S2P Require Import Request.
From S2P Require Import BlockQueue.
From S2P Require Import BlockHash.
From S2P Require Import KVCacheManager.
From S2P Require Import KVCacheInv.
From S2P Require Import KVAlloc.
From S2P Require Import KVTheorems.
From S2P Require Import EncoderCache.
From S2P Require Import Scheduler.
From S2P Require Import SchedulerInv.
From S2P Require Import SchedulerLoops.
From S2P Require Import SchedulerStep.
From S2P Require Import SchedulerUpdate.
From S2P Require Import SchedulerTheorems.
From S2P Require Import EncoderScheduler.
From S2P Require Import MMMapper.

Local Open Scope Z_scope.

(** One message of the encoder process: a list of dicts from request ids to dicts
    from input ids to outputs (tensors, here handles). *)
Definition EncoderResult : Type := list (list (string * list (nat * nat))).

Record EngineCore : Type := mkEngineCore {
  scheduler : Scheduler;
  mm_input_mapper_server : MMInputMapperServer;
}.

(** The messages of a client. *)
Inductive EngineCoreRequestUnion : Type :=
  | ReqAdd (r : EngineCoreRequest)
  | ReqAbort (request_ids : list string)
  | ReqProfile (is_start : bool)
  | ReqResetPrefixCache.

(** ** Encoder results *)

(** [self.encoder_result_cache\[k\]\[v_k\] = v_v], creating the inner dict. *)
Definition store_result (k : string) (c : gmap string (gmap nat nat)) (kv : nat * nat) :
    gmap string (gmap nat nat) :=
  match c !! k with
  | Some d => <[k := <[kv.1 := kv.2]> d]> c
  | None => <[k := {[kv.1 := kv.2]}]> c
  end.

Definition _handle_encoder_result (c : gmap string (gmap nat nat)) (res : EncoderResult) :
    gmap string (gmap nat nat) :=
  foldl (fun c item => foldl (fun c '(k, v) => foldl (store_result k) c v) c item) c res.

(** ** Requests *)

Definition ec_add_request (e : EngineCore) (request : EngineCoreRequest) : result EngineCore :=
  '(srv, request) ←
    match ecr_mm_hashes request with
    | None => Ok (mm_input_mapper_server e, request)
    | Some hs =>
        inputs ← or_raise AssertionError (ecr_mm_inputs request);
        '(srv, full) ← server_process_inputs (mm_input_mapper_server e) inputs hs;
        Ok (srv, mkEngineCoreRequest (ecr_request_id request) (ecr_prompt request)
                   (ecr_prompt_token_ids request) (Some full) (ecr_mm_hashes request)
                   (ecr_mm_placeholders request) (ecr_sampling_params request)
                   (ecr_eos_token_id request))
    end;
  req ← from_engine_core_request request;
  Ok (mkEngineCore (add_request (scheduler e) req) srv).

Definition ec_abort_requests (e : EngineCore) (request_ids : list string) : result EngineCore :=
  s ← finish_requests (scheduler e) request_ids FINISHED_ABORTED;
  Ok (mkEngineCore s (mm_input_mapper_server e)).

Definition ec_reset_prefix_cache (e : EngineCore) : EngineCore :=
  mkEngineCore (scheduler_reset_prefix_cache (scheduler e)).1 (mm_input_mapper_server e).

(** [EngineCoreProc._handle_client_request]; profiling does not touch the state. *)
Definition _handle_client_request (e : EngineCore) (request : EngineCoreRequestUnion) :
    result EngineCore :=
  match request with
  | ReqAdd r => ec_add_request e r
  | ReqProfile _ => Ok e
  | ReqResetPrefixCache => Ok (ec_reset_prefix_cache e)
  | ReqAbort ids => ec_abort_requests e ids
  end.

(** ** Steps *)

Section step.
Context `{PyHash}.
Context (execute_model : gmap string (gmap nat nat) -> SchedulerOutput ->
           result (ModelRunnerOutput * gmap string (gmap nat nat))).

(** [while scheduler_output.total_num_scheduled_tokens == 0]: schedule again, then
    poll the queue of encoder results once. *)
Fixpoint step_wait (polls : list (option EncoderResult)) (s : Scheduler) (out : SchedulerOutput) :
    result (Scheduler * SchedulerOutput) :=
  if total_num_scheduled_tokens out =? 0 then
    match polls with
    | [] => Err OutOfFuel
    | p :: polls =>
        '(s, out) ← schedule s;
        let s := match p with
                 | Some res => with_encoder_cache s (_handle_encoder_result (encoder_cache s) res)
                 | None => s
                 end in
        step_wait polls s out
    end
  else Ok (s, out).

(** [self.encoder_result_queue] is [None] when the engine core was built without a
    queue (as [InprocClient] does); [.empty()] on it raises AttributeError.  With a
    queue, the list is what its polls find. *)
Definition step_loop (encoder_result_queue : option (list (option EncoderResult))) (s : Scheduler) (out : SchedulerOutput) :
    result (Scheduler * SchedulerOutput) :=
  match encoder_result_queue with
  | Some polls => step_wait polls s out
  | None =>
      if total_num_scheduled_tokens out =? 0 then _ ← schedule s; Err AttributeError
      else Ok (s, out)
  end.

Definition step (e : EngineCore) (encoder_result_queue : option (list (option EncoderResult))) :
    result (EngineCore * EngineCoreOutputs) :=
  let s := scheduler e in
  if negb (has_unfinished_requests s) then Ok (e, mkEngineCoreOutputs [] (make_stats s))
  else
    '(s, out) ← schedule s;
    '(s, out) ← step_loop encoder_result_queue s out;
    '(output, enc) ← execute_model (encoder_cache s) out;
    let s := with_encoder_cache s enc in
    '(s, outputs) ← update_from_output s out output;
    Ok (mkEngineCore s (mm_input_mapper_server e), outputs).

(** One turn of [EngineCoreProc.run_busy_loop] once there is work: the client
    requests and encoder results at hand are handled in order, then a step. *)
Definition busy_loop_turn (e : EngineCore) (requests : list EngineCoreRequestUnion)
    (results : list EncoderResult) (polls : list (option EncoderResult)) :
    result (EngineCore * EngineCoreOutputs) :=
  e ← for_each (fun r e => _handle_client_request e r) requests e;
  let c := foldl _handle_encoder_result (encoder_cache (scheduler e)) results in
  step (mkEngineCore (with_encoder_cache (scheduler e) c) (mm_input_mapper_server e)) (Some polls).
End step.

(** ** The encoder core *)

Record EncoderCore : Type := mkEncoderCore {
  enc_scheduler : EncoderScheduler;
  enc_mm_server : MMInputMapperServer;
}.

Definition enc_add_request (e : EncoderCore) (request : EngineCoreRequest) : result EncoderCore :=
  '(srv, request) ←
    match ecr_mm_hashes request with
    | None => Ok (enc_mm_server e, request)
    | Some hs =>
        inputs ← or_raise AssertionError (ecr_mm_inputs request);
        '(srv, full) ← server_process_inputs (enc_mm_server e) inputs hs;
        Ok (srv, mkEngineCoreRequest (ecr_request_id request) (ecr_prompt request)
                   (ecr_prompt_token_ids request) (Some full) (ecr_mm_hashes request)
                   (ecr_mm_placeholders request) (ecr_sampling_params request)
                   (ecr_eos_token_id request))
    end;
  req ← from_engine_core_request request;
  Ok (mkEncoderCore (es_add_request (enc_scheduler e) req) srv).

Definition enc_abort_requests (e : EncoderCore) (request_ids : list string) : result EncoderCore :=
  s ← es_finish_requests (enc_scheduler e) request_ids FINISHED_ABORTED;
  Ok (mkEncoderCore s (enc_mm_server e)).

(** [self.reset_prefix_cache] is commented out in [EncoderCore]. *)
Definition enc_handle_client_request (e : EncoderCore) (request : EngineCoreRequestUnion) :
    result EncoderCore :=
  match request with
  | ReqAdd r => enc_add_request e r
  | ReqProfile _ => Ok e
  | ReqResetPrefixCache => Err AttributeError
  | ReqAbort ids => enc_abort_requests e ids
  end.

(** [EncoderCore.step]: the result is what is put on the queue, if anything.
    [execute_vision_encoder] is the encoder worker. *)
Definition enc_step (execute_vision_encoder : EncSchedulerOutput -> result EncoderResult)
    (e : EncoderCore) : result (EncoderCore * option EncoderResult) :=
  let s := enc_scheduler e in
  if negb (es_has_unfinished_requests s) then Ok (e, None)
  else
    '(s, out) ← es_schedule s;
    put ← (if 0 <? len (eso_new_reqs out)
           then res ← execute_vision_encoder out; Ok (Some res)
           else Ok None);
    Ok (mkEncoderCore s (enc_mm_server e), put).
