(* ===== verification/EngineTheorems.v ===== *)
(** * Theorems about the engine core

    Merging encoder results, totality of [step], and two consequences of its
    waiting loop: ids of finished requests that are lost, and a loop that spins for
    as long as an encoder output is missing. *)

From stdpp Require Import base tactics list gmap sets strings.
From Stdlib Require Import ZArith QArith Lia.
From S2P Require Import Prelude.
From S2P Require Import SamplingParams.
From S2P Require Import Request.
From S2P Require Import BlockQueue.
From S2P Require Import BlockHash.
From S2P Require Import KVCacheManager.
From S2P Require Import KVCacheInv.
From S2P Require Import KVAlloc.
From S2P Require Import KVTheorems.
From S2P Require Import EncoderCache.
From S2P Require Import Scheduler.
From S2P Require Import SchedulerInv.
From S2P Require Import SchedulerLoops.
From S2P Require Import SchedulerStep.
From S2P Require Import SchedulerUpdate.
From S2P Require Import SchedulerTheorems.
From S2P Require Import EncoderScheduler.
From S2P Require Import MMMapper.
From S2P Require Import EngineCore.

Local Open Scope Z_scope.

(** ** Encoder results *)

(** [d\[k\]\[i\]], if present. *)
Definition lookup2 (c : gmap string (gmap nat nat)) (k : string) (i : nat) : option nat :=
  c !! k ≫= (.!! i).

(** The writes of a message, in order. *)
Definition writes (res : EncoderResult) : list (string * (nat * nat)) :=
  List.flat_map (fun item => List.flat_map (fun kv => List.map (pair kv.1) kv.2) item) res.

(** The value the last write to [k, i] stored. *)
Definition last_write (k : string) (i : nat) (ws : list (string * (nat * nat))) : option nat :=
  snd ∘ snd <$> last (filter (fun w : string * (nat * nat) => w.1 = k ∧ w.2.1 = i) ws).

Lemma store_result_lookup k c kv k' i :
  lookup2 (store_result k c kv) k' i =
    if decide (k' = k ∧ i = kv.1) then Some kv.2 else lookup2 c k' i.
Proof.
  unfold lookup2, store_result. destruct (decide (k' = k)) as [->|Hne].
  - destruct (c !! k) as [d|] eqn:Hc; rewrite lookup_insert_eq; simpl.
    + case_decide as E; [destruct E as [_ ->]; apply lookup_insert_eq|].
      rewrite lookup_insert_ne; [done|naive_solver].
    + case_decide as E; [destruct E as [_ ->]; apply lookup_singleton_eq|].
      rewrite lookup_singleton_ne; [done|naive_solver].
  - rewrite decide_False by naive_solver. by case_match; rewrite lookup_insert_ne.
Qed.

Lemma handle_flat c res :
  _handle_encoder_result c res = foldl (fun c w => store_result w.1 c w.2) c (writes res).
Proof.
  unfold _handle_encoder_result, writes. revert c. induction res as [|item res IH]; intros c; [done|].
  simpl. rewrite IH, foldl_app. f_equal. clear IH. revert c.
  induction item as [|[k v] item IH]; intros c; [done|]. simpl. rewrite IH, foldl_app. f_equal.
  clear IH. revert c. induction v as [|kv v IH]; intros c; [done|]. simpl. apply IH.
Qed.

(** Merging encoder results.  After [_handle_encoder_result], the output stored
    for an input of a request is the last one the message carries for it, and the
    old one if it carries none; nothing else changes. *)
Theorem encoder_results_merge c res k i :
  lookup2 (_handle_encoder_result c res) k i =
    match last_write k i (writes res) with Some v => Some v | None => lookup2 c k i end.
Proof.
  rewrite handle_flat. generalize (writes res) as ws. intros ws. clear res.
  induction ws as [|[k' [i' v]] ws IH] using rev_ind; [done|].
  rewrite foldl_app. cbn [foldl fst snd]. rewrite store_result_lookup. unfold last_write in *.
  rewrite filter_app, filter_cons, filter_nil. cbn [fst snd].
  destruct (decide (k' = k ∧ i' = i)) as [[-> ->]|Hne].
  - rewrite decide_True by done. rewrite last_snoc. done.
  - rewrite decide_False by naive_solver. by rewrite app_nil_r, IH.
Qed.

(** ** Steps *)

Section step.
Context `{PyHash}.
Context (execute_model : gmap string (gmap nat nat) -> SchedulerOutput ->
           result (ModelRunnerOutput * gmap string (gmap nat nat))).

(** What the worker promises: it returns, with a token for every scheduled request. *)
Definition worker_ok : Prop :=
  ∀ c out, ∃ mo c', execute_model c out = Ok (mo, c') ∧ runner_ok out mo.

(** The waiting loop ends with an output of some [schedule] call and a state that
    differs from that call's state in the encoder cache only. *)
Definition from_schedule (s : Scheduler) (out : SchedulerOutput) : Prop :=
  ∃ s0 s1 enc, sched_reach s0 ∧ schedule s0 = Ok (s1, out) ∧ s = with_encoder_cache s1 enc.

Lemma from_schedule_reach s out : from_schedule s out -> sched_reach s.
Proof. intros (s0 & s1 & enc & Hr & Hs & ->). apply sr_encoder. by eapply sr_schedule. Qed.

Lemma with_encoder_cache_id s : with_encoder_cache s (encoder_cache s) = s.
Proof. by destruct s. Qed.

Lemma step_wait_spec polls s out :
  from_schedule s out ->
  (∃ s' out', step_wait polls s out = Ok (s', out') ∧ from_schedule s' out' ∧
     total_num_scheduled_tokens out' ≠ 0) ∨
  step_wait polls s out = Err OutOfFuel.
Proof.
  revert s out. induction polls as [|p polls IH]; intros s out Hf; cbn [step_wait];
    (destruct (Z.eqb_spec (total_num_scheduled_tokens out) 0) as [E|E]; [|left; by eauto]); [by right|].
  pose proof (from_schedule_reach _ _ Hf) as Hr.
  destruct (sched_reach_inv s Hr) as (fl & Hi & Hc).
  destruct (schedule_spec dll s fl Hi Hc) as (s1 & out1 & fl1 & Es & _). rewrite Es.
  cbn [mbind result_bind]. apply IH. destruct p as [res|].
  - by exists s, s1, (_handle_encoder_result (encoder_cache s1) res).
  - exists s, s1, (encoder_cache s1). by rewrite with_encoder_cache_id.
Qed.

(** What a step tells the clients, given the schedulers before and after it: one
    token for each request that has an output, which then holds no encoder input;
    and the requests that are gone are those whose output says that they finished. *)
Record engine_outs (s s' : Scheduler) (outs : list EngineCoreOutput) : Prop := {
  ou_distinct : NoDup (eco_request_id <$> outs);
  ou_token : ∀ o, o ∈ outs -> ∃ t, eco_new_token_ids o = [t];
  ou_reason : ∀ o, o ∈ outs -> eco_finished o = bool_decide (is_Some (eco_finish_reason o));
  ou_known : ∀ o, o ∈ outs -> is_Some (requests s !! eco_request_id o);
  ou_encoder : ∀ o, o ∈ outs -> cached (encoder_cache_manager s') !! eco_request_id o = None;
  ou_requests : ∀ rid x, requests s' !! rid = Some x <-> requests s !! rid = Some x ∧
    ¬ ∃ o, o ∈ outs ∧ eco_request_id o = rid ∧ eco_finished o = true;
}.

Lemma update_post_outs s1 fl s' ns mo outs :
  sched_inv dll s1 fl -> update_post s1 s' ns mo (running s1) (running s') outs ->
  engine_outs s1 s' outs.
Proof.
  intros Hi U. pose proof (si_requests _ _ _ Hi) as Hrq.
  assert (Hrun : ∀ x, x ∈ running s1 -> requests s1 !! request_id (obj s1 x) = Some x).
  { intros x Hx. apply Hrq. split; [unfold live; set_solver|done]. }
  assert (Hout : ∀ o, o ∈ outs -> ∃ x, x ∈ running s1 ∧ eco_request_id o = request_id (obj s1 x) ∧
    (∃ t, eco_new_token_ids o = [t]) ∧ eco_finished o = bool_decide (is_Some (eco_finish_reason o)) ∧
    (eco_finished o = true -> x ∉ running s')).
  { intros o Ho. destruct (up_outs _ _ _ _ _ _ _ U o Ho) as (x & keep & Hx & Hk & Hu). exists x.
    destruct Hu as (_ & _ & t & _ & _ & Hfin & -> & _). split_and!; [done|done|by exists t| |].
    - cbn. rewrite <-Hfin. pose proof (finished_iff_reason (obj s' x)) as Hf.
      destruct (is_finished (obj s' x)); symmetry; [apply bool_decide_eq_true|apply bool_decide_eq_false]; naive_solver.
    - cbn. intros Hn Hin. destruct keep; [done|]. by apply Hk in Hin. }
  split.
  - apply (up_distinct _ _ _ _ _ _ _ U).
  - intros o (x & _ & _ & Ht & _)%Hout. done.
  - intros o (x & _ & _ & _ & Hr & _)%Hout. done.
  - intros o (x & Hx & -> & _)%Hout. by rewrite Hrun.
  - apply (up_encoder _ _ _ _ _ _ _ U).
  - intros rid x. rewrite (up_requests _ _ _ _ _ _ _ U). split; intros [Hr Hk]; (split; [done|]).
    + intros (o & Ho & Eo & Hf). destruct (Hout o Ho) as (y & Hy & Ey & _ & _ & Hnk).
      assert (y = x) as -> by (apply Hrun in Hy; congruence). by apply Hnk, Hk.
    + intros Hx. destruct (up_each _ _ _ _ _ _ _ U x Hx) as (keep & o & Hu & Hkk & Ho).
      destruct keep; [by apply Hkk|]. destruct o as [eo|]; [|by destruct Hu]. destruct Hk.
      exists eo. destruct Hu as (_ & _ & t & _ & _ & _ & -> & _). split_and!; [by apply Ho| |done].
      by destruct (proj1 (Hrq rid x) Hr).
Qed.

Lemma step_wait_requests polls s out s' out' :
  sched_reach s -> step_wait polls s out = Ok (s', out') ->
  requests s' = requests s ∧ max_model_len s' = max_model_len s.
Proof.
  revert s out. induction polls as [|p polls IH]; intros s out Hr; cbn [step_wait];
    (destruct (_ =? 0); [|by intros [= -> _]]); [done|].
  destruct (sched_reach_inv s Hr) as (fl & Hi & Hc).
  destruct (schedule_spec dll s fl Hi Hc) as (s1 & out1 & fl1 & Es & _ & _ & Hp & _). rewrite Es.
  cbn [mbind result_bind]. pose proof (sr_schedule _ _ _ Hr Es) as Hr1.
  intros Hw. rewrite <-(sp_requests _ _ _ Hp), <-(sp_mml _ _ _ Hp). destruct p as [res|].
  - apply IH in Hw; [done|by apply sr_encoder].
  - by apply IH in Hw.
Qed.

(** Without a queue of encoder results, a step raises when there is work and the first
    [schedule] hands out no tokens. *)
Definition step_without_queue (e : EngineCore) : Prop :=
  has_unfinished_requests (scheduler e) = true ∧
  ∃ s1 out1, schedule (scheduler e) = Ok (s1, out1) ∧ total_num_scheduled_tokens out1 = 0.

(** The end of the waiting loop, with a queue and without. *)
Lemma step_loop_spec queue s out :
  from_schedule s out ->
  (∃ s' out', step_loop queue s out = Ok (s', out') ∧ from_schedule s' out' ∧
     requests s' = requests s ∧ max_model_len s' = max_model_len s) ∨
  (queue ≠ None ∧ step_loop queue s out = Err OutOfFuel) ∨
  (queue = None ∧ total_num_scheduled_tokens out = 0 ∧ step_loop queue s out = Err AttributeError).
Proof.
  intros Hf. pose proof (from_schedule_reach _ _ Hf) as Hr. destruct queue as [polls|]; cbn [step_loop].
  - destruct (step_wait_spec polls s out Hf) as [(s' & out' & E & Hf' & _)|E]; [left|by right; left].
    exists s', out'. split; [done|]. split; [done|]. by apply (step_wait_requests polls s out s' out').
  - destruct (Z.eqb_spec (total_num_scheduled_tokens out) 0) as [Ht|Ht]; [|left; by exists s, out].
    right. right. destruct (sched_reach_inv s Hr) as (fl & Hi & Hc).
    destruct (schedule_spec dll s fl Hi Hc) as (s1 & out1 & fl1 & -> & _). done.
Qed.

(** A step returns and tells the clients what it did, or is still waiting, or has no
    queue to wait for. *)
Lemma step_outputs e queue :
  worker_ok -> sched_reach (scheduler e) ->
  (∃ e' outs, step execute_model e queue = Ok (e', outs) ∧ sched_reach (scheduler e') ∧
     mm_input_mapper_server e' = mm_input_mapper_server e ∧
     max_model_len (scheduler e') = max_model_len (scheduler e) ∧
     engine_outs (scheduler e) (scheduler e') (outputs outs)) ∨
  (queue ≠ None ∧ step execute_model e queue = Err OutOfFuel) ∨
  (queue = None ∧ step_without_queue e ∧ step execute_model e queue = Err AttributeError).
Proof.
  intros Hw Hr. unfold step, step_without_queue. destruct (has_unfinished_requests (scheduler e)); cbn [negb]; cycle 1.
  { left. eexists _, _. split; [done|]. split_and!; try done. split; try set_solver. constructor. }
  destruct (sched_reach_inv _ Hr) as (fl & Hi & Hc).
  destruct (schedule_spec dll _ fl Hi Hc) as (s1 & out1 & fl1 & Es & _ & _ & Hp1 & _). rewrite Es.
  cbn [mbind result_bind].
  assert (Hf : from_schedule s1 out1).
  { exists (scheduler e), s1, (encoder_cache s1). by rewrite with_encoder_cache_id. }
  destruct (step_loop_spec queue s1 out1 Hf) as [(s2 & out2 & Ew & Hf2 & Hreq & Hmml)|[[? ->]|(? & ? & ->)]];
    [|by right; left|right; right; split; [done|]; split; [split; [done|by exists s1, out1]|done]].
  rewrite (sp_mml _ _ _ Hp1) in Hmml.
  rewrite Ew. cbn [mbind result_bind]. left.
  destruct (Hw (encoder_cache s2) out2) as (mo & c' & -> & Hmo).
  cbn [mbind result_bind]. destruct Hf2 as (s0 & s3 & enc & Hr0 & Es0 & ->).
  change (with_encoder_cache (with_encoder_cache s3 enc) c') with (with_encoder_cache s3 c').
  destruct (sched_reach_inv _ Hr0) as (fl0 & Hi0 & Hc0).
  destruct (schedule_spec dll _ fl0 Hi0 Hc0) as (s4 & out4 & fl4 & E4 & Hi4 & _ & Hp & _).
  rewrite Es0 in E4. injection E4 as <- <-.
  assert (Hi4' : sched_inv dll (with_encoder_cache s3 c') fl4) by (destruct Hi4; by split).
  destruct (update_from_output_spec dll _ fl4 out2 mo Hi4') as (s5 & eo & fl5 & Eu & _ & _ & _ & _ & U).
  { exact (update_pre_of_schedule s0 s3 fl4 out2 mo Hi4 Hp Hmo). }
  rewrite Eu. cbn [mbind result_bind]. eexists _, _. split; [done|].
  split; [by eapply (sr_step s0 s3 out2 c' mo s5)|]. split; [done|].
  pose proof (update_post_outs _ _ _ _ _ _ Hi4' U) as O. split.
  { cbn [scheduler]. rewrite (sl_mml _ _ (up_limits _ _ _ _ _ _ _ U)). exact Hmml. }
  assert (Hrq : requests (with_encoder_cache s3 c') = requests (scheduler e)).
  { by rewrite <-(sp_requests _ _ _ Hp1), <-Hreq. }
  destruct O as [O1 O2 O3 O4 O5 O6]. rewrite Hrq in O4, O6. by split.
Qed.

Lemma step_spec e polls :
  worker_ok -> sched_reach (scheduler e) ->
  (∃ e' outs, step execute_model e (Some polls) = Ok (e', outs) ∧ sched_reach (scheduler e')) ∨
  step execute_model e (Some polls) = Err OutOfFuel.
Proof.
  intros Hw Hr. destruct (step_outputs e (Some polls) Hw Hr) as [(e' & outs & ? & ? & _)|[[_ ?]|[? _]]]; [left|right|]; eauto; done.
Qed.
End step.

(** A step of an engine core that has a queue of encoder results (as in the engine's
    own process) never raises.  From every state whose scheduler is reachable,
    with a worker that returns a token for every scheduled request, [step] either
    returns, leaving a reachable scheduler again, or is still in its waiting loop;
    it always returns when there is nothing to do or the first [schedule] hands out
    tokens. *)
Theorem engine_step_safe `{PyHash} execute_model e polls :
  worker_ok execute_model -> sched_reach (scheduler e) ->
  ((∃ e' outs, step execute_model e (Some polls) = Ok (e', outs) ∧ sched_reach (scheduler e')) ∨
   step execute_model e (Some polls) = Err OutOfFuel) ∧
  (∀ s1 out1, schedule (scheduler e) = Ok (s1, out1) -> total_num_scheduled_tokens out1 ≠ 0 ->
     ∃ e' outs, step execute_model e (Some polls) = Ok (e', outs)).
Proof.
  intros Hw Hr. split; [by apply step_spec|]. intros s1 out1 Es Ht.
  destruct (step_spec execute_model e polls Hw Hr) as [(e' & outs & E & _)|E]; [by eauto|].
  exfalso. revert E. unfold step. destruct (negb _); [done|]. rewrite Es. cbn [mbind result_bind step_loop].
  assert (step_wait polls s1 out1 = Ok (s1, out1)) as ->.
  { destruct polls; cbn [step_wait]; by rewrite (proj2 (Z.eqb_neq _ _) Ht). }
  cbn [mbind result_bind]. destruct (Hw (encoder_cache s1) out1) as (mo & c' & -> & Hmo).
  cbn [mbind result_bind]. destruct (sched_reach_inv _ Hr) as (fl & Hi & Hc).
  destruct (schedule_spec dll _ fl Hi Hc) as (s4 & out4 & fl4 & E4 & Hi4 & _ & Hp & _).
  rewrite Es in E4. injection E4 as <- <-.
  assert (Hi4' : sched_inv dll (with_encoder_cache s1 c') fl4) by (destruct Hi4; by split).
  destruct (update_from_output_spec dll _ fl4 out1 mo Hi4') as (s5 & eo & fl5 & Eu & _).
  { exact (update_pre_of_schedule _ s1 fl4 out1 mo Hi4 Hp Hmo). }
  by rewrite Eu.
Qed.

(** The waiting loop drops the finished ids.  If the first [schedule] of a step
    hands out no tokens, the ids of the requests that finished since the last step
    are in its output only, which is thrown away: whatever output the step finally
    executes, its [finished_req_ids] is empty and the worker never hears of them. *)
Theorem waiting_loop_drops_finished `{PyHash} s s1 out1 p polls s' out' :
  sched_reach s -> schedule s = Ok (s1, out1) -> total_num_scheduled_tokens out1 = 0 ->
  step_wait (p :: polls) s1 out1 = Ok (s', out') ->
  so_finished_req_ids out1 = finished_req_ids s ∧ so_finished_req_ids out' = ∅.
Proof.
  intros Hr Es Ht Hst. destruct (sched_reach_inv _ Hr) as (fl & Hi & Hc).
  destruct (schedule_spec dll _ fl Hi Hc) as (s2 & out2 & fl2 & E2 & _ & _ & Hp & _).
  rewrite Es in E2. injection E2 as <- <-. split; [apply Hp|].
  assert (Hgen : ∀ polls s out, sched_reach s -> finished_req_ids s = ∅ ->
    (total_num_scheduled_tokens out ≠ 0 -> so_finished_req_ids out = ∅) ->
    ∀ s' out', step_wait polls s out = Ok (s', out') -> so_finished_req_ids out' = ∅).
  { clear. induction polls as [|p polls IH]; intros s out Hr Hf Ho s' out'; cbn [step_wait];
      (destruct (Z.eqb_spec (total_num_scheduled_tokens out) 0) as [E|E]; [|intros [= <- <-]; auto]); [done|].
    destruct (sched_reach_inv _ Hr) as (fl & Hi & Hc).
    destruct (schedule_spec dll _ fl Hi Hc) as (s1 & out1 & fl1 & Es & _ & _ & Hp & _). rewrite Es.
    cbn [mbind result_bind]. destruct (sp_finished _ _ _ Hp) as [F1 F2].
    apply IH; [|by destruct p|by rewrite F1].
    pose proof (sr_schedule _ _ _ Hr Es). destruct p; [by apply sr_encoder|done]. }
  apply (Hgen (p :: polls) s1 out1) with (s' := s'); [by eapply sr_schedule|apply Hp|done|done].
Qed.

(** ** Spinning *)

(** The only runnable request starts with an encoder input that is not available. *)
Record starved (s : Scheduler) (ref : nat) (rest : list nat) : Prop := {
  st_run : running s = [];
  st_wait : waiting s = ref :: rest;
  st_first : ∃ p l, mm_positions (obj s ref) = p :: l ∧ offset p = 0 ∧ 0 < length_ p;
  st_inputs : mm_inputs (obj s ref) ≠ [];
  st_missing : lookup2 (encoder_cache s) (request_id (obj s ref)) 0 = None;
  st_uncached : cached (encoder_cache_manager s) !! request_id (obj s ref) = None;
  st_nocache : enable_caching (kv_cache_manager s) = false;
  st_budget : 0 < max_num_scheduled_tokens s;
  st_tokens : 0 < num_tokens (obj s ref);
}.

Lemma starved_one `{PyHash} s fl v ref rest :
  sched_inv dll s fl -> starved s ref rest -> 0 < v_token_budget v ->
  ∃ s1, schedule_waiting_one s v ref rest = Ok (s1, v, false) ∧
    s1 = with_obj s ref (obj s ref).
Proof.
  intros Hi [Hr Hw (p & l & Hp & Ho & Hlen) Hin Hmiss Hunc Hnc Hb Ht] Hv.
  unfold schedule_waiting_one, waiting_lookup, get_computed_blocks. rewrite Hnc.
  cbn [negb mbind result_bind]. rewrite Z.sub_0_r, (proj2 (Z.eqb_neq _ _)) by lia.
  cbn [mbind result_bind]. rewrite (proj2 (Z.ltb_lt _ _)) by lia. cbn [py_assert mbind result_bind].
  set (s1 := with_obj s ref (obj s ref)).
  assert (Hobj : obj s1 ref = obj s ref) by (unfold s1; by rewrite obj_with_obj, decide_True).
  rewrite Hobj. unfold _try_schedule_encoder_inputs, has_encoder_inputs.
  rewrite (proj2 (Z.ltb_lt 0 (len (mm_inputs (obj s ref))))) by (destruct (mm_inputs (obj s ref)); [done|simpl; lia]).
  cbn [negb]. rewrite Hp. cbn [length]. rewrite (proj2 (Z.ltb_lt 0 _)) by lia.
  cbn [py_assert mbind result_bind try_encoder_loop]. rewrite Ho.
  rewrite (proj2 (Z.leb_gt _ _)) by lia. rewrite (proj2 (Z.leb_gt _ 0)) by lia.
  assert (has_cache (encoder_cache_manager s1) (obj s ref) 0 = false) as ->.
  { unfold has_cache. change (encoder_cache_manager s1) with (encoder_cache_manager s). by rewrite Hunc. }
  unfold can_allocate, get_num_encoder_tokens. rewrite Hp. cbn [lookup list_lookup or_raise mbind result_bind].
  rewrite (bool_decide_eq_false_2 (is_Some (encoder_cache s1 !! request_id (obj s ref) ≫= (.!! 0%nat)))).
  2: { unfold lookup2 in Hmiss. change (encoder_cache s1) with (encoder_cache s). rewrite Hmiss. by intros []. }
  exists s1. split; [|done].
  by destruct (negb _ || _); cbn [mbind result_bind Z.ltb Z.compare Z.eqb].
Qed.

(** [schedule] hands out nothing and the request stays starved. *)
Lemma starved_schedule `{PyHash} s fl ref rest :
  sched_inv dll s fl -> cached_ids_ok s -> starved s ref rest ->
  ∃ s' out, schedule s = Ok (s', out) ∧ total_num_scheduled_tokens out = 0 ∧ starved s' ref rest.
Proof.
  intros Hi Hc Hs. pose proof Hs as [Hr Hw Hp Hin Hmiss Hunc Hnc Hb Ht]. unfold schedule.
  set (v0 := mkVars _ _ _ _ _ _ _ _ _). rewrite Hr. cbn [length schedule_running]. rewrite Hr, lookup_nil.
  cbn [mbind result_bind]. rewrite bool_decide_eq_true_2, Hw by done.
  cbn [length schedule_waiting]. rewrite Hw, Hr.
  assert (Hv0 : vars_ok s v0) by (split; simpl; try set_solver; [lia|constructor]).
  rewrite (proj2 (Z.leb_gt (v_token_budget v0) 0)) by (simpl; lia).
  destruct (starved_one s fl v0 ref rest Hi Hs Hb) as (s1 & E1 & Es1).
  assert (Ex : ∃ s2, (if len (@nil nat) =? max_num_running_reqs s then Ok (s, v0)
      else '(s, v, admitted) ← schedule_waiting_one s v0 ref rest;
           if (admitted : bool) then schedule_waiting (length rest) s v else Ok (s, v)) = Ok (s2, v0) ∧
    (s2 = s ∨ s2 = s1)).
  { case_match; [by eauto|]. rewrite E1. cbn [mbind result_bind]. eauto. }
  destruct Ex as (s2 & -> & Hs2). cbn [mbind result_bind].
  assert (Hobj : ∀ x, obj s1 x = obj s x).
  { intros x. rewrite Es1, obj_with_obj. by case_decide; subst. }
  assert (Hi2 : sched_inv dll s2 fl ∧ cached_ids_ok s2 ∧ vars_ok s2 v0 ∧ starved s2 ref rest).
  { destruct Hs2 as [->| ->]; [done|]. split_and!.
    - rewrite Es1, <-(with_kv_id s) at 1.
      pose proof (si_queues _ _ _ Hi) as Q.
      assert (Href : ref ∈ waiting s) by (rewrite Hw; by left).
      apply (waiting_change_inv dll); [done|done|apply Hi|by split|done| |].
      + apply (ro_hashes _ _ _ (qo_req _ _ _ _ _ Q ref ltac:(set_solver))).
      + exact (qo_wait _ _ _ _ _ Q ref Href).
    - by rewrite Es1.
    - rewrite Es1. split; simpl; try set_solver; [lia|constructor].
    - split; rewrite ?Hobj; try done; by rewrite Es1. }
  destruct Hi2 as (Hi2 & Hc2 & Hv2 & Hs3).
  destruct (schedule_output_spec dll s2 fl v0 Hi2 Hv2 Hc2) as (c & new & cach & n & -> & _ & _).
  eexists _, _. split; [done|]. split; [done|]. destruct Hs3. by split.
Qed.

(** The waiting loop spins while an encoder output is missing.  If nothing runs
    and the first waiting request begins with an encoder input whose output is not
    there (prefix caching off), then [step] does not return, however often it polls
    a queue that does not deliver it; client requests are not looked at meanwhile,
    so not even an abort of that request ends the loop. *)
Theorem step_spins_while_starved `{PyHash} execute_model e ref rest n :
  sched_reach (scheduler e) -> starved (scheduler e) ref rest ->
  step execute_model e (Some (replicate n None)) = Err OutOfFuel.
Proof.
  intros Hr Hs. unfold step.
  assert (has_unfinished_requests (scheduler e) = true) as ->.
  { unfold has_unfinished_requests, get_num_unfinished_requests.
    rewrite (st_wait _ _ _ Hs). apply Z.ltb_lt. simpl. lia. }
  cbn [negb]. destruct (sched_reach_inv _ Hr) as (fl & Hi & Hc).
  destruct (starved_schedule _ fl ref rest Hi Hc Hs) as (s1 & out1 & Es & Ht & Hs1). rewrite Es.
  cbn [mbind result_bind step_loop]. pose proof (sr_schedule _ _ _ Hr Es) as Hr1. clear Es Hi Hc Hr Hs fl.
  revert s1 out1 Ht Hs1 Hr1. induction n as [|n IH]; intros s1 out1 Ht Hs1 Hr1;
    cbn [replicate step_wait]; rewrite Ht; cbn [Z.eqb]; [done|].
  destruct (sched_reach_inv _ Hr1) as (fl & Hi & Hc).
  destruct (starved_schedule _ fl ref rest Hi Hc Hs1) as (s2 & out2 & Es & Ht2 & Hs2). rewrite Es.
  cbn [mbind result_bind]. apply IH; [done|done|by eapply sr_schedule].
Qed.

(** ** Witnesses *)

(** A worker that samples token 7 for every scheduled request. *)
Definition demo_worker (c : gmap string (gmap nat nat)) (out : SchedulerOutput) :
    result (ModelRunnerOutput * gmap string (gmap nat nat)) :=
  Ok (mkModelRunnerOutput [] ((fun _ => 0%nat) <$> num_scheduled_tokens out) [7], c).

Lemma demo_worker_ok : worker_ok demo_worker.
Proof.
  intros c out. eexists _, _. split; [done|]. intros rid [n Hn]. exists 7, 0%nat.
  split; [|done]. simpl. by rewrite lookup_fmap, Hn.
Qed.

Lemma engine_step_safe_witness :
  let e := mkEngineCore demo_sched (mm_server_init false) in
  ((∃ e' outs, @step demo_hash demo_worker e (Some []) = Ok (e', outs) ∧ @sched_reach demo_hash (scheduler e')) ∨
   @step demo_hash demo_worker e (Some []) = Err OutOfFuel) ∧
  (∀ s1 out1, @schedule demo_hash (scheduler e) = Ok (s1, out1) -> total_num_scheduled_tokens out1 ≠ 0 ->
     ∃ e' outs, @step demo_hash demo_worker e (Some []) = Ok (e', outs)).
Proof.
  intros e. apply (@engine_step_safe demo_hash demo_worker e []); [apply demo_worker_ok|].
  apply demo_sched_reach.
Defined.

(** A request that starts with an image. *)
Definition demo_lead : Request :=
  demo_mm_request "m" 8 [mkPlaceholder 0 2] ["h"]%string [1; 1; 2; 3].

Lemma demo_lead_ok : req_ok 20 2 demo_lead.
Proof.
  split; [split; simpl; try done; by right|by right|done|done|done|].
  intros p Hp. simpl in Hp. apply list_elem_of_singleton in Hp as ->. done.
Qed.

Definition drop_s0 : Scheduler :=
  add_request (add_request demo_sched0 demo_lead) (demo_request "t" [1; 2]).
Definition drop_s : Scheduler := ok_or empty_sched (finish_requests drop_s0 ["t"%string] FINISHED_ABORTED).
Definition no_output : Scheduler * SchedulerOutput :=
  (empty_sched, mkSchedulerOutput [] [] ∅ 0 ∅ 0 ∅ []).
Definition drop_1 : Scheduler * SchedulerOutput := ok_or no_output (@schedule demo_hash drop_s).
Definition drop_polls : list (option EncoderResult) :=
  [Some [[("m"%string, [(0%nat, 9%nat)])]]; None].
Definition drop_2 : Scheduler * SchedulerOutput :=
  ok_or no_output (@step_wait demo_hash drop_polls drop_1.1 drop_1.2).

Lemma drop_s_reach : @sched_reach demo_hash drop_s.
Proof.
  apply (@sr_finish demo_hash drop_s0 ["t"%string] FINISHED_ABORTED); [|vm_compute; reflexivity].
  apply (@sr_add demo_hash); [apply (@sr_add demo_hash)|].
  - apply (@sr_init demo_hash 4 8 20 24 2 None true (10, 10) ∅); [lia..|vm_compute; reflexivity].
  - split; [apply demo_lead_ok|vm_compute; reflexivity..].
  - split; [|vm_compute; reflexivity..]. split; [split; simpl; try done; by left|by left|done|done|done|].
    simpl. set_solver.
Qed.

Lemma waiting_loop_drops_finished_witness :
  finished_req_ids drop_s = {["t"%string]} ∧ total_num_scheduled_tokens drop_2.2 = 4 ∧
  so_finished_req_ids drop_1.2 = finished_req_ids drop_s ∧ so_finished_req_ids drop_2.2 = ∅.
Proof.
  split; [vm_compute; reflexivity|]. split; [vm_compute; reflexivity|].
  apply (@waiting_loop_drops_finished demo_hash drop_s drop_1.1 drop_1.2
    (Some [[("m"%string, [(0%nat, 9%nat)])]]) [None] drop_2.1 drop_2.2);
    [apply drop_s_reach|vm_compute; reflexivity..].
Defined.

Definition spin_s : Scheduler :=
  add_request (ok_or empty_sched (scheduler_init 4 8 20 24 2 None false (10, 10) ∅)) demo_lead.

Lemma step_spins_while_starved_witness :
  @step demo_hash demo_worker (mkEngineCore spin_s (mm_server_init false)) (Some (replicate 100 None)) =
    Err OutOfFuel.
Proof.
  apply (@step_spins_while_starved demo_hash demo_worker (mkEngineCore spin_s (mm_server_init false)) 0 []).
  - apply (@sr_add demo_hash); [|split; [apply demo_lead_ok|vm_compute; reflexivity..]].
    apply (@sr_init demo_hash 4 8 20 24 2 None false (10, 10) ∅); [lia..|vm_compute; reflexivity].
  - split; first [vm_compute; reflexivity | vm_compute; congruence | idtac].
    exists (mkPlaceholder 0 2), []. vm_compute. split_and!; reflexivity.
Defined.
