(* ===== verification/LLMEngine.v ===== *)
(** * The in-process engine: [vllm/v1/engine/llm_engine.py]

    [LLMEngine] puts the parts together: the input processor, the engine core behind
    an [InprocClient] ([vllm/v1/engine/core_client.py]) and the output processor.
    A request lives twice, in the output processor (its detokenizer) and in the
    scheduler; the theorems show that the two stay in step: a stop string found by
    the client aborts the request in the engine, and a request is gone on both sides
    exactly when its last output was returned.  [InprocClient] gives the engine core no
    queue of encoder results, so a step that schedules no tokens raises AttributeError.

    A call that raises leaves behind what it had changed before: [add_outcome] keeps
    the state of the client side.  When the exception comes out of the engine core,
    the core's own state is not followed further. *)

From stdpp Require Import base tactics list gmap sets strings.
From Stdlib Require Import ZArith QArith Lia.
From S2P Require Import Prelude.
From S2P Require Import SamplingParams.
From S2P Require Import Request.
From S2P Require Import BlockQueue.
From S2P Require Import BlockHash.
From S2P Require Import KVCacheManager.
From S2P Require Import KVCacheInv.
From S2P Require Import KVAlloc.
From S2P Require Import KVTheorems.
From S2P Require Import EncoderCache.
From S2P Require Import Scheduler.
From S2P Require Import SchedulerInv.
From S2P Require Import SchedulerLoops.
From S2P Require Import SchedulerStep.
From S2P Require Import SchedulerUpdate.
From S2P Require Import SchedulerTheorems.
From S2P Require Import EncoderScheduler.
From S2P Require Import MMMapper.
From S2P Require Import Processor.
From S2P Require Import Detokenizer.
From S2P Require Import DetokTheorems.
From S2P Require Import OutputProcessor.
From S2P Require Import EngineCore.
From S2P Require Import EngineTheorems.

Local Open Scope Z_scope.

Record LLMEngine : Type := mkLLMEngine {
  processor : Processor;
  engine_core : EngineCore;
  output_processor : OutputProcessor;
}.

(** ** [InprocClient] *)

Definition inproc_abort_requests (c : EngineCore) (request_ids : list string) : result EngineCore :=
  if 0 <? len request_ids then ec_abort_requests c request_ids else Ok c.

(** ** The operations *)

Definition le_get_num_unfinished_requests (e : LLMEngine) : Z :=
  op_get_num_unfinished_requests (output_processor e).
Definition le_has_unfinished_requests (e : LLMEngine) : bool :=
  op_has_unfinished_requests (output_processor e).

(** How [add_request] ends: done; raised before the engine core was called; raised by
    the engine core. *)
Inductive add_outcome : Type :=
  | AddDone (e : LLMEngine)
  | AddRejected (x : py_exn) (e : LLMEngine)
  | AddFailed (x : py_exn) (p : Processor) (op : OutputProcessor).

Section engine.
Context `{PyHash} `{Tokenizer}.
Context (execute_model : gmap string (gmap nat nat) -> SchedulerOutput ->
           result (ModelRunnerOutput * gmap string (gmap nat nat))).

(** The client cache is updated by the last step of [process_inputs] that can
    raise, so an exception there leaves the engine as it was. *)
Definition le_add_request (e : LLMEngine) (request_id : string) (inputs : ProcessorInputs)
    (params : SamplingParams) (prompt_hashes : option (dict (list string))) : add_outcome :=
  match process_inputs (processor e) request_id inputs params prompt_hashes with
  | Err x => AddRejected x e
  | Ok (p, request) =>
      match op_add_request (output_processor e) request None with
      | Err x => AddRejected x (mkLLMEngine p (engine_core e) (output_processor e))
      | Ok op =>
          match ec_add_request (engine_core e) request with
          | Err x => AddFailed x p op
          | Ok core => AddDone (mkLLMEngine p core op)
          end
      end
  end.

Definition le_abort_request (e : LLMEngine) (request_ids : list string) : result LLMEngine :=
  core ← inproc_abort_requests (engine_core e) request_ids;
  Ok (mkLLMEngine (processor e) core (op_abort_requests (output_processor e) request_ids)).

(** [InprocClient] builds the engine core without a queue of encoder results. *)
Definition le_step (e : LLMEngine) : result (LLMEngine * list RequestOutput) :=
  '(core, core_outputs) ← step execute_model (engine_core e) None;
  '(op, processed) ← process_outputs (output_processor e) (outputs core_outputs) None;
  core ← inproc_abort_requests core (opo_reqs_to_abort processed);
  Ok (mkLLMEngine (processor e) core op, opo_request_outputs processed).

Definition le_reset_prefix_cache (e : LLMEngine) : LLMEngine :=
  mkLLMEngine (processor e) (ec_reset_prefix_cache (engine_core e)) (output_processor e).

(** ** The client and the engine in step *)

Abbreviation sched e := (scheduler (engine_core e)).

Record le_inv (F : string -> MMKwargs) (e : LLMEngine) : Prop := {
  li_sched : sched_reach (sched e);
  li_op : op_inv (output_processor e);
  li_direct : ∀ rid st, request_states (output_processor e) !! rid = Some st -> rs_queue st = None;
  li_sync : ∀ rid, is_Some (request_states (output_processor e) !! rid) <->
    is_Some (requests (sched e) !! rid);
  li_mm : mirrored F (mm_input_mapper_client (processor e)) (mm_input_mapper_server (engine_core e));
  li_len : pr_max_model_len (processor e) = max_model_len (sched e);
}.

(** A step: the reports, and the requests that stay. *)
Record le_stepped (e e' : LLMEngine) (outs : list RequestOutput) : Prop := {
  ls_from : ∀ o, o ∈ outs -> is_Some (requests (sched e) !! ro_request_id o);
  ls_once : NoDup (ro_request_id <$> outs);
  ls_gone : ∀ rid, is_Some (requests (sched e') !! rid) <->
    is_Some (requests (sched e) !! rid) ∧ ¬ ∃ o, o ∈ outs ∧ ro_request_id o = rid ∧ ro_finished o = true;
}.

Lemma inproc_abort_Ok c ids :
  sched_reach (scheduler c) -> (∀ rid, rid ∈ ids -> cached (encoder_cache_manager (scheduler c)) !! rid = None) ->
  ∃ c', inproc_abort_requests c ids = Ok c' ∧ sched_reach (scheduler c') ∧
    mm_input_mapper_server c' = mm_input_mapper_server c ∧
    max_model_len (scheduler c') = max_model_len (scheduler c) ∧
    (∀ rid, requests (scheduler c') !! rid = if decide (rid ∈ ids) then None else requests (scheduler c) !! rid).
Proof.
  intros Hr Hn. unfold inproc_abort_requests. destruct (Z.ltb_spec 0 (len ids)) as [Hl|Hl].
  - destruct (finish_requests_Ok (scheduler c) ids FINISHED_ABORTED Hr eq_refl) as (s' & E & _ & _ & Hm & Hq & _).
    { intros rid Hin [_ Hc]. by apply Hc, Hn. }
    unfold ec_abort_requests. rewrite E. cbn [mbind result_bind]. eexists. split; [done|]. cbn.
    split; [by eapply sr_finish|]. by split_and!.
  - assert (ids = []) as -> by (destruct ids; [done|simpl in Hl; lia]).
    exists c. split_and!; try done.
Qed.

(** An output with a finish reason ends the request for the detokenizer too. *)
Lemma reason_ends st o :
  detok_inv (rs_detokenizer st) -> is_Some (eco_finish_reason o) -> ends st o = true.
Proof.
  intros Hd [r Hr]. destruct (detok_update_spec _ o Hd) as (d' & out & new & fr & sr & E & Hset & Hout & Hsome & _).
  assert (Hfr : ended fr = true).
  { destruct Hset as [(_ & _ & -> & _)|(? & ? & ? & ? & ? & ? & -> & _)]; [by rewrite Hr|done]. }
  destruct (Hsome Hfr) as [x ->]. destruct (Hout x eq_refl) as (_ & _ & Hf).
  unfold ends, detok_report. rewrite E. by rewrite Hf.
Qed.

(** A request that ends is reported as finished. *)
Lemma report_ends op st o :
  request_states op !! eco_request_id o = Some st -> rs_queue st = None -> rs_request_id st = eco_request_id o ->
  (ends st o = true <-> ∃ ro, report_to op None o = Some ro ∧ ro_finished ro = true) ∧
  ∀ ro, report_to op None o = Some ro -> ro_request_id ro = eco_request_id o.
Proof.
  intros Hst Hq Hid. unfold report_to, ends. rewrite Hst. cbn. rewrite decide_True by done.
  destruct (detok_report st o) as [x|]; cbn; [|split; [split; [done|by intros (? & ? & _)]|done]].
  assert (Hf : ro_finished (_make_request_output st x) = do_finished x)
    by (unfold _make_request_output; by destruct (do_finished x)).
  assert (Hi : ro_request_id (_make_request_output st x) = rs_request_id st)
    by (unfold _make_request_output; by destruct (do_finished x)).
  split; [|intros ro [= <-]; congruence]. rewrite <-Hf. split; [by eexists|]. by intros (ro & [= <-] & ?).
Qed.

(** ** One step, seen from both sides *)

Section client_step.
Context (e : LLMEngine) (s' : Scheduler) (outs : list EngineCoreOutput).
Context (op' : OutputProcessor) (res0 res : OutputProcessorOutput).
Abbreviation op := (output_processor e).
Context (Hop : op_inv op).
Context (Hdirect : ∀ rid st, request_states op !! rid = Some st -> rs_queue st = None).
Context (Hsync : ∀ rid, is_Some (request_states op !! rid) <-> is_Some (requests (sched e) !! rid)).
Context (O : engine_outs (sched e) s' outs).
Context (P : processed op op' res0 res outs).
Context (Hres0 : opo_request_outputs res0 = [] ∧ opo_reqs_to_abort res0 = []).

Abbreviation aborts := (opo_reqs_to_abort res).
Abbreviation reports := (opo_request_outputs res).

Lemma aborts_spec rid :
  rid ∈ aborts <-> ∃ o st, o ∈ outs ∧ eco_request_id o = rid ∧ request_states op !! rid = Some st ∧
    ends st o = true ∧ eco_finished o = false.
Proof.
  rewrite (pr_aborts _ _ _ _ _ P), (proj2 Hres0). cbn [app]. rewrite list_elem_of_omap.
  unfold to_abort. split.
  - intros (o & Ho & E). destruct (request_states op !! eco_request_id o) as [st|] eqn:Hst; [|done].
    cbn in E. destruct (ends st o) eqn:He, (eco_finished o) eqn:Hf; try done.
    injection E as <-. by exists o, st.
  - intros (o & st & Ho & <- & Hst & He & Hf). exists o. split; [done|]. rewrite Hst. cbn. by rewrite He, Hf.
Qed.

Lemma reports_spec ro : ro ∈ reports <-> ∃ o, o ∈ outs ∧ report_to op None o = Some ro.
Proof. rewrite (pr_outputs _ _ _ _ _ P), (proj1 Hres0). cbn [app]. by rewrite list_elem_of_omap. Qed.

Lemma known_state o : o ∈ outs -> ∃ st, request_states op !! eco_request_id o = Some st ∧
  rs_queue st = None ∧ rs_request_id st = eco_request_id o ∧ detok_inv (rs_detokenizer st).
Proof.
  intros Ho. destruct (proj2 (Hsync _) (ou_known _ _ _ O o Ho)) as [st Hst].
  exists st. destruct (Hop _ _ Hst). split_and!; try done. by eapply Hdirect.
Qed.

Lemma report_id o ro : o ∈ outs -> report_to op None o = Some ro -> ro_request_id ro = eco_request_id o.
Proof. intros Ho. destruct (known_state o Ho) as (st & Hst & Hq & Hid & _). by apply (report_ends op st o). Qed.

Lemma same_output o1 o2 : o1 ∈ outs -> o2 ∈ outs -> eco_request_id o1 = eco_request_id o2 -> o1 = o2.
Proof.
  intros [i Hi]%list_elem_of_lookup [j Hj]%list_elem_of_lookup E.
  assert (i = j) as ->; [|congruence].
  eapply (NoDup_lookup _ _ _ _ (ou_distinct _ _ _ O)); rewrite list_lookup_fmap; [by rewrite Hi|].
  rewrite Hj. cbn. by rewrite E.
Qed.

(** A request without an output. *)
Lemma client_untouched rid :
  (rid ∉ eco_request_id <$> outs) ->
  request_states op' !! rid = request_states op !! rid ∧ (rid ∉ aborts) ∧
  (∀ ro, ro ∈ reports -> ro_request_id ro ≠ rid) ∧ requests s' !! rid = requests (sched e) !! rid.
Proof.
  intros Hn. assert (Hno : ∀ o, o ∈ outs -> eco_request_id o ≠ rid).
  { intros o Ho <-. apply Hn. by apply list_elem_of_fmap_2. }
  split_and!.
  - by apply (pr_other _ _ _ _ _ P).
  - intros (o & st & Ho & E & _)%aborts_spec. by apply (Hno o).
  - intros ro (o & Ho & Hr)%reports_spec E. apply (Hno o Ho). by rewrite <-(report_id o ro Ho Hr).
  - apply option_eq. intros x. rewrite (ou_requests _ _ _ O). split; [tauto|]. intros Hx. split; [done|].
    intros (o & Ho & E & _). by apply (Hno o).
Qed.

(** A request with an output: it ends on both sides, or goes on. *)
Lemma client_touched o :
  o ∈ outs -> let rid := eco_request_id o in
  is_Some (request_states op !! rid) ∧
  ((request_states op' !! rid = None ∧ (rid ∈ aborts ∨ requests s' !! rid = None) ∧
      ∃ ro, ro ∈ reports ∧ ro_request_id ro = rid ∧ ro_finished ro = true) ∨
   ((∃ st', request_states op' !! rid = Some st' ∧ rs_queue st' = None) ∧ (rid ∉ aborts) ∧
      is_Some (requests s' !! rid) ∧ ∀ ro, ro ∈ reports -> ro_request_id ro = rid -> ro_finished ro = false)).
Proof.
  intros Ho rid. destruct (known_state o Ho) as (st & Hst & Hq & Hid & Hd). split; [by eexists|].
  destruct (report_ends op st o Hst Hq Hid) as [Hends _].
  assert (Hfin : eco_finished o = true -> ends st o = true).
  { intros Hf. apply reason_ends; [done|]. rewrite (ou_reason _ _ _ O o Ho) in Hf. by apply bool_decide_eq_true in Hf. }
  destruct (ends st o) eqn:He; [left|right]; split_and!.
  - by apply (pr_gone _ _ _ _ _ P o st).
  - destruct (eco_finished o) eqn:Hf; [right|left; apply aborts_spec; by exists o, st].
    apply eq_None_not_Some. intros [x [_ Hx]%(ou_requests _ _ _ O)]. apply Hx. by exists o.
  - destruct (proj1 Hends eq_refl) as (ro & Hr & Hf). exists ro. split; [apply reports_spec; by exists o|].
    split; [by apply report_id|done].
  - destruct (pr_next _ _ _ _ _ P o st Ho Hst He) as (st' & ? & Hq' & _). exists st'. by rewrite Hq'.
  - intros (o' & st' & Ho' & E & Hst' & He' & _)%aborts_spec.
    assert (o' = o) as -> by by apply same_output. congruence.
  - destruct (ou_known _ _ _ O o Ho) as [x Hx]. exists x. apply (ou_requests _ _ _ O). split; [done|].
    intros (o' & Ho' & E & Hf). assert (o' = o) as -> by by apply same_output. by specialize (Hfin Hf).
  - intros ro (o' & Ho' & Hr)%reports_spec E. rewrite (report_id o' ro Ho' Hr) in E.
    assert (o' = o) as -> by by apply same_output. destruct (ro_finished ro) eqn:Hf; [|done].
    exfalso. assert (false = true) by (apply Hends; eauto). done.
Qed.

Lemma reports_once : NoDup (ro_request_id <$> reports).
Proof.
  rewrite (pr_outputs _ _ _ _ _ P), (proj1 Hres0). cbn [app].
  pose proof (ou_distinct _ _ _ O) as Hnd. pose proof report_id as Hid. revert Hnd Hid. clear.
  induction outs as [|o l IH]; intros Hnd Hid; [constructor|].
  rewrite fmap_cons in Hnd. apply NoDup_cons in Hnd as [Hn Hnd]. cbn [omap list_omap].
  assert (IH' : NoDup (ro_request_id <$> omap (report_to op None) l))
    by (apply IH; [done|]; intros; apply Hid; [by right|done]).
  destruct (report_to op None o) as [ro|] eqn:Hr; [|done]. rewrite fmap_cons. apply NoDup_cons. split; [|done].
  rewrite (Hid o ro ltac:(by left) Hr). intros (ro' & E & (o' & Ho' & Hr')%list_elem_of_omap)%list_elem_of_fmap.
  apply Hn. rewrite E, (Hid o' ro' ltac:(by right) Hr'). by apply list_elem_of_fmap_2.
Qed.
End client_step.

Lemma le_step_spec F e :
  worker_ok execute_model -> le_inv F e ->
  (∃ e' outs, le_step e = Ok (e', outs) ∧ le_inv F e' ∧ le_stepped e e' outs) ∨
  (step_without_queue (engine_core e) ∧ le_step e = Err AttributeError).
Proof.
  intros Hw [Hr Hop Hd Hsync Hmm Hlen]. unfold le_step.
  destruct (step_outputs execute_model (engine_core e) None Hw Hr)
    as [(core & eo & -> & Hr' & Hsrv & Hml & O)|[[? _]|(_ & ? & ->)]]; [left|done|by right]. cbn [mbind result_bind].
  destruct (process_outputs_spec (outputs eo) (output_processor e)
    (mkOPO [] [] (IterationStats_init (op_log_stats (output_processor e)))) Hop (ou_distinct _ _ _ O))
    as (op' & res & Ep & Hop' & P).
  { apply Forall_forall. intros o Ho. by destruct (ou_token _ _ _ O o Ho) as [t ->]. }
  unfold process_outputs. cbn [default]. rewrite Ep. cbn [mbind result_bind].
  pose proof (client_untouched e _ _ _ _ _ Hop Hd Hsync O P (conj eq_refl eq_refl)) as HA.
  pose proof (client_touched e _ _ _ _ _ Hop Hd Hsync O P (conj eq_refl eq_refl)) as HB.
  assert (Hcase : ∀ rid, (rid ∉ eco_request_id <$> outputs eo) ∨ ∃ o, o ∈ outputs eo ∧ rid = eco_request_id o).
  { intros rid. destruct (decide (rid ∈ eco_request_id <$> outputs eo)) as [Hin|]; [right|by left].
    apply list_elem_of_fmap in Hin as (o & -> & Ho). by exists o. }
  destruct (inproc_abort_Ok core (opo_reqs_to_abort res) Hr') as (core' & -> & Hr'' & Hsrv' & Hml' & Hq).
  { intros rid Hin. destruct (Hcase rid) as [Hn|(o & Ho & ->)]; [by apply HA in Hn as (_ & ? & _)|].
    by apply (ou_encoder _ _ _ O). }
  cbn [mbind result_bind]. eexists _, _. split; [done|]. split; split; cbn; try done.
  - intros rid st Hst. destruct (Hcase rid) as [Hn|(o & Ho & ->)].
    + destruct (HA rid Hn) as (E & _). rewrite E in Hst. by eapply Hd.
    + destruct (HB o Ho) as (_ & [(E & _)|((st' & E & Hq') & _)]); congruence.
  - intros rid. rewrite Hq. destruct (Hcase rid) as [Hn|(o & Ho & ->)].
    + destruct (HA rid Hn) as (-> & Hna & _ & ->). rewrite decide_False by done. apply Hsync.
    + destruct (HB o Ho) as (_ & [(-> & Hor & _)|((st' & -> & _) & Hna & Hs & _)]).
      * split; [by intros [? ?]|]. case_decide; [by intros [? ?]|]. destruct Hor as [|Hnone]; [done|].
        rewrite Hnone. by intros [? ?].
      * rewrite decide_False by done. split; [done|by eexists].
  - by rewrite Hsrv', Hsrv.
  - by rewrite Hml', Hml.
  - intros ro Hin. apply Hsync. destruct (Hcase (ro_request_id ro)) as [Hn|(o & Ho & ->)].
    + by destruct (HA _ Hn) as (_ & _ & Hne & _); destruct (Hne ro Hin).
    + apply (HB o Ho).
  - by apply (reports_once e (scheduler core) (outputs eo) op'
      (mkOPO [] [] (IterationStats_init (op_log_stats (output_processor e)))) res).
  - intros rid. rewrite Hq. destruct (Hcase rid) as [Hn|(o & Ho & ->)].
    + destruct (HA rid Hn) as (_ & Hna & Hne & ->). rewrite decide_False by done.
      split; [intros Hs; split; [done|]|tauto]. intros (ro & Hro & E & _). by apply (Hne ro).
    + destruct (HB o Ho) as (Hst & [(_ & Hor & ro & Hro)|(_ & Hna & Hs & Hnf)]).
      * split; [|intros [_ []]; by exists ro].
        case_decide; [by intros [? ?]|]. destruct Hor as [|Hnone]; [done|]. rewrite Hnone. by intros [? ?].
      * rewrite decide_False by done. split; [intros _|done]. split; [by apply Hsync|].
        intros (ro & Hro & E & Hf). rewrite (Hnf ro Hro E) in Hf. done.
Qed.

(** ** Adding and aborting *)

(** The parameters of a request the engine takes: no empty stop string. *)
Definition stops_ok (params : SamplingParams) : Prop := Forall (.≠ []) (stop params).

Lemma config_keeps params g eos :
  stop (update_from_generation_config params g eos) = stop params ∧
  sp_max_tokens (update_from_generation_config params g eos) = sp_max_tokens params.
Proof. unfold update_from_generation_config. by repeat case_match. Qed.

(** The request that reaches the scheduler. *)
Record arrives (req : EngineCoreRequest) (gs : mm_groups) (r : Request) : Prop := {
  ar_id : request_id r = ecr_request_id req;
  ar_tokens : all_token_ids r = ecr_prompt_token_ids req;
  ar_places : mm_positions r = it_place <$> all_items gs;
  ar_inputs : mm_inputs r = Some <$> (it_input <$> all_items gs);
  ar_hashes : mm_hashes r = it_hash <$> all_items gs;
}.

Lemma ec_add_spec F e rid i params ph gs c' req mt :
  le_inv F e -> prompt_ok (processor e) F i ph gs -> requests (sched e) !! rid = None ->
  ecr_request_id req = rid -> ecr_prompt_token_ids req = in_prompt_token_ids i ->
  ecr_sampling_params req =
    update_from_generation_config params (pr_generation_eos (processor e)) (pr_eos_token_id (processor e)) ->
  mm_part F (mm_input_mapper_client (processor e)) c' (mm_input_mapper_server (engine_core e)) gs req ->
  sp_max_tokens params = Some mt ->
  ∃ srv r, ec_add_request (engine_core e) req = Ok (mkEngineCore (add_request (sched e) r) srv) ∧
    arrives req gs r ∧ admissible (sched e) r ∧ mirrored F c' srv.
Proof.
  intros Hi Hp Hfresh Hid Htok Hsp Hmm Hmt. unfold ec_add_request.
  assert (Hmax : sp_max_tokens (ecr_sampling_params req) = Some mt).
  { rewrite Hsp. by rewrite (proj2 (config_keeps _ _ _)). }
  assert (Hlen : 0 < len (ecr_prompt_token_ids req) < max_model_len (sched e)).
  { rewrite Htok, <-(li_len _ _ Hi). apply Hp. }
  assert (Hmk : ∀ r, arrives req gs r -> request_wf r -> status r = WAITING -> num_computed_tokens r = 0 ->
    kv_block_hashes r = [] -> admissible (sched e) r).
  { intros r [A1 A2 A3 A4 A5] Hwf Hst Hc Hh. split; try done; [|by rewrite A1, Hid].
    split; unfold num_tokens; rewrite ?A2; try done.
    - right. by rewrite A3, A5, !length_fmap.
    - lia.
    - lia.
    - rewrite Hh. simpl. lia.
    - intros p. rewrite A3, Htok. intros (x & -> & Hx)%list_elem_of_fmap. by apply (po_fit _ _ _ _ _ Hp). }
  destruct gs as [|g gs].
  - destruct Hmm as (Hpl & Hha & Hin & ->). rewrite Hha. cbn [mbind result_bind].
    unfold from_engine_core_request, Request_init. rewrite Hmax, Hpl, Hha, Hin.
    cbn [or_raise mbind result_bind default py_assert]. eexists _, _. split; [done|].
    assert (Ha : arrives req [] (mkRequest (ecr_request_id req) (ecr_sampling_params req) (ecr_eos_token_id req)
      WAITING None mt (ecr_prompt req) (ecr_prompt_token_ids req) (len (ecr_prompt_token_ids req)) []
      (ecr_prompt_token_ids req) 0 [] [] [] [])) by by split.
    split; [done|]. split; [|apply (li_mm _ _ Hi)]. apply Hmk; try done. split; cbn; try done; [by rewrite app_nil_r|by left].
  - destruct Hmm as (Hpl & Hha & sent & srv & Hin & Hl & Es & Hm).
    set (gs' := g :: gs) in *. rewrite Hha, Hin. cbn [or_raise mbind result_bind].
    rewrite Es. cbn [mbind result_bind]. unfold from_engine_core_request, Request_init. cbn.
    rewrite Hmax, Hpl. cbn [or_raise mbind result_bind default from_option id].
    rewrite (bool_decide_eq_true_2 (length (Some <$> (it_input <$> all_items gs')) = length (it_place <$> all_items gs')))
      by by rewrite !length_fmap.
    cbn [py_assert mbind result_bind].
    rewrite (bool_decide_eq_true_2 (length (Some <$> (it_input <$> all_items gs')) = length (it_hash <$> all_items gs')))
      by by rewrite !length_fmap.
    rewrite orb_true_r. cbn [py_assert mbind result_bind]. eexists srv, _. split; [done|].
    match goal with |- arrives _ _ ?r ∧ _ => assert (Ha : arrives req gs' r) by by split end.
    split; [done|]. split; [|done]. apply Hmk; try done. split; cbn; try done.
    + by rewrite app_nil_r.
    + by rewrite !length_fmap.
    + right. by rewrite !length_fmap.
Qed.

(** [add_request] of a prompt the processor takes: refused if the id is in use,
    failing inside the engine core if [max_tokens] is not set, and done otherwise. *)
Lemma le_add_spec F e rid i params ph gs :
  le_inv F e -> prompt_ok (processor e) F i ph gs -> stops_ok params ->
  ∃ c' req, process_inputs (processor e) rid (DecoderOnly i) params ph = Ok (with_client (processor e) c', req) ∧
  (is_Some (requests (sched e) !! rid) ->
     le_add_request e rid (DecoderOnly i) params ph =
       AddRejected ValueError (mkLLMEngine (with_client (processor e) c') (engine_core e) (output_processor e))) ∧
  (requests (sched e) !! rid = None -> sp_max_tokens params = None -> ∃ op,
     le_add_request e rid (DecoderOnly i) params ph = AddFailed AssertionError (with_client (processor e) c') op ∧
     is_request_active op rid = true) ∧
  (requests (sched e) !! rid = None -> sp_max_tokens params ≠ None -> ∃ e' r,
     le_add_request e rid (DecoderOnly i) params ph = AddDone e' ∧ le_inv F e' ∧
     arrives req gs r ∧ sched e' = add_request (sched e) r).
Proof.
  intros Hi Hp Hst.
  destruct (process_inputs_spec (processor e) rid i params ph F _ gs Hp (li_mm _ _ Hi))
    as (c' & req & E & Hid & Htok & Hsp & Hmm).
  exists c', req. split; [done|]. unfold le_add_request. rewrite E. unfold op_add_request. rewrite Hid.
  split; [|split].
  - intros [st Hs]%(li_sync _ _ Hi). by rewrite Hs.
  - intros Hn Hmax. destruct (request_states (output_processor e) !! rid) as [st|] eqn:Hs.
    { exfalso. assert (is_Some (requests (sched e) !! rid)) as [? ?] by (apply (li_sync _ _ Hi); by eexists). congruence. }
    exists (with_states (output_processor e)
      (<[rid := rs_from_new_request req None]> (request_states (output_processor e)))).
    split; [|unfold is_request_active; cbn; rewrite lookup_insert_eq; by apply bool_decide_eq_true].
    assert (ec_add_request (engine_core e) req = Err AssertionError) as ->; [|done].
    assert (Hnone : sp_max_tokens (ecr_sampling_params req) = None).
    { rewrite Hsp. by rewrite (proj2 (config_keeps _ _ _)). }
    unfold ec_add_request. destruct gs as [|g gs].
    + destruct Hmm as (_ & -> & _). cbn [mbind result_bind]. unfold from_engine_core_request, Request_init.
      by rewrite Hnone.
    + destruct Hmm as (_ & -> & sent & srv & -> & _ & Es & _). cbn [or_raise mbind result_bind].
      rewrite Es. cbn [mbind result_bind]. unfold from_engine_core_request, Request_init. cbn. by rewrite Hnone.
  - intros Hn Hmax. destruct (request_states (output_processor e) !! rid) as [st|] eqn:Hs.
    { exfalso. assert (is_Some (requests (sched e) !! rid)) as [? ?] by (apply (li_sync _ _ Hi); by eexists). congruence. }
    destruct (sp_max_tokens params) as [mt|] eqn:Emt; [|done].
    destruct (ec_add_spec F e rid i params ph gs c' req mt Hi Hp Hn Hid Htok Hsp Hmm Emt)
      as (srv & r & -> & Har & Had & Hm'). eexists _, r. split; [done|]. split; [|done].
    assert (Hr : request_id r = rid) by by rewrite (ar_id _ _ _ Har).
    split; cbn; try done.
    + by apply sr_add; [apply Hi|].
    + apply (op_add_request_inv (output_processor e) req None); [apply Hi| |].
      * rewrite Hsp, (proj1 (config_keeps _ _ _)). exact Hst.
      * unfold op_add_request. by rewrite Hid, Hs.
    + intros rid' st'. cbn. rewrite lookup_insert_Some. intros [[_ <-]|[_ Hl]]; [done|by apply (li_direct _ _ Hi) in Hl].
    + intros rid'. cbn. rewrite Hr. destruct (decide (rid' = rid)) as [->|Hne].
      * rewrite !lookup_insert_eq. by split; eexists.
      * rewrite !lookup_insert_ne by done. apply (li_sync _ _ Hi).
    + apply (li_len _ _ Hi).
Qed.

Lemma finish_requests_inv s ids st s' :
  sched_reach s -> finish_requests s ids st = Ok s' ->
  max_model_len s' = max_model_len s ∧
  ∀ rid, requests s' !! rid = if decide (rid ∈ ids) then None else requests s !! rid.
Proof.
  intros Hr Hf. destruct (status_is_finished st) eqn:Hfin; cycle 1.
  { unfold finish_requests in Hf. by rewrite Hfin in Hf. }
  destruct (decide (Exists (holds_encoder_inputs s) ids)) as [Hbad|Hgood]; rewrite Exists_exists in *.
  - destruct Hbad as (rid & Hin & Hh). destruct (sched_reach_inv _ Hr) as (fl & Hi & Hc).
    unfold finish_requests in Hf. rewrite Hfin in Hf. cbn [py_assert mbind result_bind] in Hf.
    rewrite (finish_loop_Err dll st _ s fl Hi Hc Hfin) in Hf; [done|apply NoDup_elements|].
    exists rid. by rewrite elements_list_to_set.
  - destruct (finish_requests_Ok s ids st Hr Hfin) as (s1 & E & _ & _ & Hm & Hq & _).
    { intros rid Hin Hh. apply Hgood. by exists rid. }
    rewrite Hf in E. by injection E as ->.
Qed.

Lemma op_abort_lookup op ids rid :
  request_states (op_abort_requests op ids) !! rid =
    if decide (rid ∈ ids) then None else request_states op !! rid.
Proof.
  unfold op_abort_requests. cbn. generalize (request_states op) as m. induction ids as [|x ids IH]; intros m; [done|].
  cbn [foldl]. rewrite IH. destruct (decide (rid = x)) as [->|Hne].
  - rewrite lookup_delete_eq. repeat case_decide; set_solver.
  - rewrite lookup_delete_ne by done. repeat case_decide; set_solver.
Qed.

Lemma le_abort_inv F e ids e' : le_inv F e -> le_abort_request e ids = Ok e' -> le_inv F e'.
Proof.
  intros [Hr Hop Hd Hsync Hmm Hlen] Ha. unfold le_abort_request, inproc_abort_requests in Ha.
  apply bind_Ok_inv in Ha as (core & Hc & [= <-]).
  assert (sched_reach (scheduler core) ∧ mm_input_mapper_server core = mm_input_mapper_server (engine_core e) ∧
    max_model_len (scheduler core) = max_model_len (sched e) ∧
    ∀ rid, requests (scheduler core) !! rid = if decide (rid ∈ ids) then None else requests (sched e) !! rid)
    as (Hr' & Hsrv & Hml & Hq).
  { destruct (Z.ltb_spec 0 (len ids)) as [|Hl].
    - unfold ec_abort_requests in Hc. apply bind_Ok_inv in Hc as (s' & Hf & [= <-]). cbn.
      destruct (finish_requests_inv _ _ _ _ Hr Hf). split; [by eapply sr_finish|done].
    - injection Hc as <-. assert (ids = []) as -> by (destruct ids; [done|simpl in Hl; lia]). done. }
  split; cbn [engine_core output_processor processor]; try done.
  - intros rid st. rewrite op_abort_lookup. case_decide; [done|apply Hop].
  - intros rid st. rewrite op_abort_lookup. case_decide; [done|apply Hd].
  - intros rid. rewrite op_abort_lookup, Hq. case_decide; [by split; intros [? ?]|apply Hsync].
  - by rewrite Hsrv.
  - by rewrite Hml.
Qed.

(** ** Reachable engines *)

(** The states of an engine whose caller adds prompts the processor takes, with
    inputs determined by their hashes ([F]), under ids that are free. *)
Inductive le_reach (F : string -> MMKwargs) : LLMEngine -> Prop :=
  | lr_init max_seqs max_tok mml blocks bs sw ec budgets enc s mm geos eos caching :
      0 <= max_seqs -> 0 <= max_tok -> 0 < bs ->
      scheduler_init max_seqs max_tok mml blocks bs sw ec budgets enc = Ok s ->
      le_reach F (mkLLMEngine (processor_init mml mm geos eos false caching)
        (mkEngineCore s (mm_server_init false)) (mkOutputProcessor false ∅ ∅))
  | lr_add e rid i params ph gs e' :
      le_reach F e -> prompt_ok (processor e) F i ph gs -> stops_ok params ->
      le_add_request e rid (DecoderOnly i) params ph = AddDone e' -> le_reach F e'
  | lr_abort e ids e' : le_reach F e -> le_abort_request e ids = Ok e' -> le_reach F e'
  | lr_step e e' outs :
      le_reach F e -> worker_ok execute_model -> le_step e = Ok (e', outs) -> le_reach F e'
  | lr_reset e : le_reach F e -> le_reach F (le_reset_prefix_cache e).

Lemma le_reach_inv F e : le_reach F e -> le_inv F e.
Proof.
  induction 1 as [max_seqs max_tok mml blocks bs sw ec budgets enc s mm geos eos caching Hs Ht Hb Hinit
    |e rid i params ph gs e' _ Hi Hp Hst Ha|e ids e' _ Hi Ha|e e' outs _ Hi Hw Hs|e _ Hi].
  - assert (Hreq : requests s = ∅ ∧ max_model_len s = mml).
    { unfold scheduler_init in Hinit. apply bind_Ok_inv in Hinit as (u & _ & Hinit).
      apply bind_Ok_inv in Hinit as (m & _ & [= <-]). done. }
    split; cbn; try done.
    + exact (sr_init _ _ _ _ _ _ _ _ _ _ Hs Ht Hb Hinit).
    + intros rid. rewrite (proj1 Hreq), !lookup_empty. by split; intros [? ?].
    + apply mirrored_init.
    + by rewrite (proj2 Hreq).
  - destruct (le_add_spec F e rid i params ph gs Hi Hp Hst) as (c' & req & _ & H1 & H2 & H3).
    destruct (requests (sched e) !! rid) as [x|] eqn:Hx; [by rewrite H1 in Ha|].
    destruct (decide (sp_max_tokens params = None)) as [Hm|Hm].
    + destruct (H2 eq_refl Hm) as (op & E & _). congruence.
    + destruct (H3 eq_refl Hm) as (e1 & r & E & Hi1 & _). rewrite E in Ha. by injection Ha as <-.
  - by eapply le_abort_inv.
  - destruct (le_step_spec F e Hw Hi) as [(e1 & outs1 & E & Hi1 & _)|[_ E]]; [|congruence].
    rewrite Hs in E. by injection E as -> ->.
  - destruct Hi as [Hr Hop Hd Hsync Hmm Hlen].
    assert (Hq : requests (scheduler_reset_prefix_cache (sched e)).1 = requests (sched e) ∧
      max_model_len (scheduler_reset_prefix_cache (sched e)).1 = max_model_len (sched e)).
    { unfold scheduler_reset_prefix_cache. by case_match. }
    split; cbn; try done; [by apply sr_reset| |].
    + by rewrite (proj1 Hq).
    + by rewrite (proj2 Hq).
Qed.

(** C23: the client and the in-process engine stay in step.  In every reachable state the
    output processor knows exactly the requests of the scheduler.  With a worker that
    returns a token for every scheduled request, a [step] either returns, or raises
    AttributeError; it raises exactly when there are unfinished requests and the first
    [schedule] hands out no tokens, because [InprocClient] builds the engine core
    without the queue of encoder results that the waiting loop reads.  When it returns,
    every report belongs to a request of the engine and each request gets at most one; a
    request is gone from the engine afterwards exactly when a finished report was returned
    for it, even if it was a stop string that ended it; and the resulting state is
    reachable again. *)
Theorem llm_engine_in_sync F e :
  le_reach F e -> worker_ok execute_model ->
  (∀ rid, is_request_active (output_processor e) rid = bool_decide (is_Some (requests (sched e) !! rid))) ∧
  ((∃ e' outs, le_step e = Ok (e', outs) ∧ le_stepped e e' outs ∧ le_reach F e') ∨ le_step e = Err AttributeError) ∧
  (le_step e = Err AttributeError <->
   has_unfinished_requests (sched e) = true ∧
   ∃ s1 out1, schedule (sched e) = Ok (s1, out1) ∧ total_num_scheduled_tokens out1 = 0).
Proof.
  intros Hr Hw. pose proof (le_reach_inv _ _ Hr) as Hi. split.
  - intros rid. unfold is_request_active. apply bool_decide_ext, (li_sync _ _ Hi).
  - destruct (le_step_spec F e Hw Hi) as [(e' & outs & E & _ & Hs)|[Hq E]].
    + split; [left; exists e', outs; split_and!; [done..|]; by eapply lr_step|]. split; [congruence|].
      intros (Hu & s1 & out1 & E1 & Ht). exfalso. revert E. unfold le_step, step. rewrite Hu. cbn [negb]. rewrite E1.
      cbn [mbind result_bind step_loop]. rewrite Ht. cbn [Z.eqb mbind result_bind]. by destruct (schedule s1).
    + split; [by right|]. by split.
Qed.

(** C33: adding a request.  For a prompt the processor takes: a free id with
    [max_tokens] set is added on both sides, and the scheduler gets the items in
    prompt order; an id in use raises [ValueError] after the client's input cache was
    advanced, while the server's was not; and without [max_tokens] the engine core
    raises [AssertionError] after the output processor has registered the request,
    which stays active there. *)
Theorem llm_add_request_outcomes F e rid i params ph gs :
  le_reach F e -> prompt_ok (processor e) F i ph gs -> stops_ok params ->
  ∃ c' req, process_inputs (processor e) rid (DecoderOnly i) params ph = Ok (with_client (processor e) c', req) ∧
  (is_Some (requests (sched e) !! rid) ->
     le_add_request e rid (DecoderOnly i) params ph =
       AddRejected ValueError (mkLLMEngine (with_client (processor e) c') (engine_core e) (output_processor e))) ∧
  (requests (sched e) !! rid = None -> sp_max_tokens params = None -> ∃ op,
     le_add_request e rid (DecoderOnly i) params ph = AddFailed AssertionError (with_client (processor e) c') op ∧
     is_request_active op rid = true) ∧
  (requests (sched e) !! rid = None -> sp_max_tokens params ≠ None -> ∃ e' r,
     le_add_request e rid (DecoderOnly i) params ph = AddDone e' ∧ le_reach F e' ∧
     arrives req gs r ∧ sched e' = add_request (sched e) r).
Proof.
  intros Hr Hp Hst.
  destruct (le_add_spec F e rid i params ph gs (le_reach_inv _ _ Hr) Hp Hst) as (c' & req & E & H1 & H2 & H3).
  exists c', req. split_and!; [done..|]. intros Hn Hm. destruct (H3 Hn Hm) as (e' & r & Ea & _ & Har & Hs).
  exists e', r. split_and!; [done| |done..]. by eapply lr_add.
Qed.
End engine.

(** ** Witnesses *)

Definition demo_llm0 : LLMEngine :=
  mkLLMEngine demo_processor (mkEngineCore demo_sched0 (mm_server_init false)) (mkOutputProcessor false ∅ ∅).
Definition text_inputs : SingletonInputs := mkSingletonInputs None [10; 11; 12] (MMRaw None) [] [].
Definition added (o : add_outcome) : LLMEngine := match o with AddDone e => e | _ => demo_llm0 end.
Definition demo_llm : LLMEngine :=
  added (@le_add_request spelling demo_llm0 "r" (DecoderOnly text_inputs) (plain_sampling (Some 4)) None).

Lemma demo_llm0_reach : @le_reach demo_hash spelling demo_worker demo_input demo_llm0.
Proof.
  apply (@lr_init demo_hash spelling demo_worker demo_input 4 8 20 24 2 None true (10, 10) ∅);
    [lia..|vm_compute; reflexivity].
Qed.

Lemma text_prompt_ok : prompt_ok demo_processor demo_input text_inputs None [].
Proof. split; try done; by intros x Hx%elem_of_nil. Qed.

Lemma demo_llm_reach : @le_reach demo_hash spelling demo_worker demo_input demo_llm.
Proof.
  apply (@lr_add demo_hash spelling demo_worker demo_input demo_llm0 "r" text_inputs (plain_sampling (Some 4)) None []);
    [apply demo_llm0_reach|apply text_prompt_ok|constructor|vm_compute; reflexivity].
Qed.

Lemma llm_engine_in_sync_witness :
  (∃ e' outs, @le_step demo_hash spelling demo_worker demo_llm = Ok (e', outs) ∧
     ro_request_id <$> outs = ["r"%string]) ∧
  is_request_active (output_processor demo_llm) "r" = true.
Proof.
  destruct (@llm_engine_in_sync demo_hash spelling demo_worker demo_input demo_llm
    demo_llm_reach demo_worker_ok) as [Hact [[(e' & outs & E & _)|E] _]].
  - split; [|rewrite Hact; vm_compute; reflexivity]. exists e', outs. split; [exact E|].
    revert E. vm_compute. intros [= _ <-]. reflexivity.
  - exfalso. revert E. vm_compute. discriminate.
Defined.

(** In process, an image at the head of a prompt ends the engine: nothing computes its
    encoder output, so the first step schedules no tokens and the waiting loop fails on
    the missing queue. *)
Theorem inproc_image_fails :
  @le_step demo_hash spelling demo_worker
    (mkLLMEngine demo_processor (mkEngineCore spin_s (mm_server_init false)) (mkOutputProcessor false ∅ ∅)) =
  Err AttributeError.
Proof. vm_compute. reflexivity. Qed.

Lemma llm_add_request_outcomes_witness :
  (∃ e' r, @le_add_request spelling demo_llm0 "m" (DecoderOnly demo_inputs) (plain_sampling (Some 4)) None = AddDone e' ∧
     mm_hashes r = ["x"; "y"; "a"]%string ∧ scheduler (engine_core e') = add_request demo_sched0 r).
Proof.
  destruct (@llm_add_request_outcomes demo_hash spelling demo_worker demo_input demo_llm0 "m" demo_inputs
    (plain_sampling (Some 4)) None (reverse demo_groups) demo_llm0_reach demo_prompt_ok
    ltac:(constructor)) as (c' & req & _ & _ & _ & H).
  destruct H as (e' & r & E & _ & Har & Hs); [vm_compute; reflexivity|discriminate|].
  exists e', r. split; [exact E|]. split; [apply (ar_hashes _ _ _ Har)|exact Hs].
Defined.

(** What a call raised, and the engine it leaves. *)
Definition raised (o : add_outcome) : option py_exn :=
  match o with AddDone _ => None | AddRejected x _ => Some x | AddFailed x _ _ => Some x end.
Definition left_by (o : add_outcome) (e : LLMEngine) : LLMEngine :=
  match o with AddDone e' => e' | AddRejected _ e' => e' | AddFailed _ _ _ => e end.

(** A rejected request spoils the mirrored caches: re-using the id of a running
    request raises [ValueError], but the images of the rejected prompt are now in the
    client's cache only.  The next request with the same images, which the engine
    would have taken before, makes the engine core fail its assertion. *)
Theorem rejected_request_breaks_cache :
  let add := fun e rid => @le_add_request spelling e rid (DecoderOnly demo_inputs) (plain_sampling (Some 4)) None in
  let rejected := add demo_llm "r"%string in
  raised rejected = Some ValueError ∧ raised (add demo_llm "q"%string) = None ∧
  raised (add (left_by rejected demo_llm) "q"%string) = Some AssertionError.
Proof. split_and!; vm_compute; reflexivity. Qed.
