(* ===== verification/InputBatch.v ===== *)
(** * The persistent input batch: [vllm/v1/worker/gpu_input_batch.py],
    [vllm/v1/worker/block_table.py]

    The worker keeps the scheduled requests in the first rows of a set of
    preallocated arrays.  The numpy and torch arrays that are indexed by the row
    ([token_ids_cpu], [num_tokens], [temperature_cpu], ...) are one list of
    [BatchRow] records here; the block table is its own component, as in the code.
    The device tensors that are refreshed only when the batch changes are kept
    apart from their CPU originals.

    A numpy slice assignment [row\[i:j\] = vals] clips the slice to the row and
    raises [ValueError] when the lengths differ, except that one value is
    broadcast; [np_assign] spells this out.  Integers are unbounded: token ids and
    block ids are assumed to fit the 32-bit arrays. *)

From stdpp Require Import base tactics list gmap sets strings.
From Stdlib Require Import ZArith QArith Lia.
From S2P Require Import Prelude.
From S2P Require Import SamplingParams.
From S2P Require Import Request.

Local Open Scope Z_scope.

(** [row\[start:start + len(vals)\] = vals] *)
Definition np_assign {A} (row : list A) (start : nat) (vals : list A) : result (list A) :=
  let width := length (slice row start (start + length vals)) in
  if decide (width = length vals) then Ok (list_inserts start vals row)
  else if decide (length vals = 1%nat) then Ok row
  else Err ValueError.

(** [dst\[:n\] = src\[:n\]] for rows of the same length *)
Definition np_copy {A} (n : nat) (src dst : list A) : list A := take n src ++ drop n dst.

(** ** Block table *)

Record BlockTable : Type := mkBlockTable {
  block_table : list (list nat);
  block_table_np : list (list nat);
  num_blocks_per_row : list nat;
}.

Definition bt_init (max_num_reqs max_num_blocks_per_req : nat) : BlockTable :=
  let zeros := replicate max_num_reqs (replicate max_num_blocks_per_req 0%nat) in
  mkBlockTable zeros zeros (replicate max_num_reqs 0%nat).

Definition append_row (t : BlockTable) (row_idx start : nat) (block_ids : list nat) :
    result BlockTable :=
  if bool_decide (block_ids = []) then Ok t
  else
    row ← or_raise IndexError (block_table_np t !! row_idx);
    row ← np_assign row start block_ids;
    Ok (mkBlockTable (block_table t) (<[row_idx := row]> (block_table_np t))
          (<[row_idx := (start + length block_ids)%nat]> (num_blocks_per_row t))).

Definition add_row (t : BlockTable) (row_idx : nat) (block_ids : list nat) : result BlockTable :=
  append_row t row_idx 0 block_ids.

Definition move_row (t : BlockTable) (src tgt : nat) : result BlockTable :=
  num_blocks ← or_raise IndexError (num_blocks_per_row t !! src);
  from ← or_raise IndexError (block_table_np t !! src);
  to ← or_raise IndexError (block_table_np t !! tgt);
  Ok (mkBlockTable (block_table t) (<[tgt := np_copy num_blocks from to]> (block_table_np t))
        (<[tgt := num_blocks]> (num_blocks_per_row t))).

Definition commit (t : BlockTable) (num_reqs : nat) : BlockTable :=
  mkBlockTable (np_copy num_reqs (block_table_np t) (block_table t)) (block_table_np t)
    (num_blocks_per_row t).

Definition bt_clear (t : BlockTable) : BlockTable :=
  let zero (row : list nat) := replicate (length row) 0%nat in
  mkBlockTable (zero <$> block_table t) (zero <$> block_table_np t) (num_blocks_per_row t).

(** ** Requests as the worker caches them *)

Record CachedRequestState : Type := mkReqState {
  st_req_id : string;
  st_prompt_token_ids : list Z;
  st_prompt : option string;
  st_mm_inputs : list (option MMKwargs);
  st_mm_positions : list PlaceholderRange;
  st_sampling_params : SamplingParams;
  (* a handle on the torch generator of a seeded request *)
  st_generator : option Z;
  st_block_ids : list nat;
  st_num_computed_tokens : Z;
  st_output_token_ids : list Z;
}.

Definition st_num_tokens (st : CachedRequestState) : nat :=
  (length (st_prompt_token_ids st) + length (st_output_token_ids st))%nat.

(** ** Rows *)

(** The sampling arrays at one index. *)
Record SamplingRow : Type := mkSamplingRow {
  temperature_cpu : pyfloat;
  top_p_cpu : pyfloat;
  top_k_cpu : Z;
  frequency_penalties_cpu : pyfloat;
  presence_penalties_cpu : pyfloat;
  repetition_penalties_cpu : pyfloat;
  row_min_tokens : Z;
  row_stop_token_ids : gset Z;
}.

Definition sampling_row (sp : SamplingParams) : SamplingRow :=
  mkSamplingRow (temperature sp) (top_p sp) (top_k sp) (frequency_penalty sp)
    (presence_penalty sp) (repetition_penalty sp) (min_tokens sp) (all_stop_token_ids sp).

Record BatchRow : Type := mkRow {
  token_ids_cpu : list Z;
  row_num_tokens : nat;
  row_num_prompt_tokens : nat;
  num_computed_tokens_cpu : Z;
  row_sampling : SamplingRow;
}.

(** The sets of requests that need a sampling feature. *)
Record SamplingSets : Type := mkSets {
  greedy_reqs : gset string;
  random_reqs : gset string;
  top_p_reqs : gset string;
  top_k_reqs : gset string;
  frequency_penalties_reqs : gset string;
  presence_penalties_reqs : gset string;
  repetition_penalties_reqs : gset string;
  num_logprobs : gmap string Z;
  prompt_logprob_reqs : gset string;
}.

Definition sets_empty : SamplingSets := mkSets ∅ ∅ ∅ ∅ ∅ ∅ ∅ ∅ ∅.

(** [if b: s.add(req_id)] *)
Definition add_if (b : bool) (req_id : string) (s : gset string) : gset string :=
  if b then {[req_id]} ∪ s else s.

(** The features of a request, as [add_request] tests them. *)
Definition is_greedy (sp : SamplingParams) : bool := bool_decide (sampling_type sp = GREEDY).
Definition uses_top_p (sp : SamplingParams) : bool := flt (top_p sp) 1.
Definition uses_top_k (sp : SamplingParams) : bool := 0 <? top_k sp.
Definition uses_frequency (sp : SamplingParams) : bool := negb (feq (frequency_penalty sp) 0).
Definition uses_presence (sp : SamplingParams) : bool := negb (feq (presence_penalty sp) 0).
Definition uses_repetition (sp : SamplingParams) : bool := negb (feq (repetition_penalty sp) 1).
Definition wants_logprobs (sp : SamplingParams) : option Z :=
  match logprobs sp with Some n => if 0 <? n then Some n else None | None => None end.
Definition wants_prompt_logprobs (sp : SamplingParams) : bool :=
  match prompt_logprobs sp with Some n => negb (n =? 0) | None => false end.

Definition sets_add (req_id : string) (sp : SamplingParams) (ss : SamplingSets) : SamplingSets :=
  mkSets (add_if (is_greedy sp) req_id (greedy_reqs ss))
    (add_if (negb (is_greedy sp)) req_id (random_reqs ss))
    (add_if (uses_top_p sp) req_id (top_p_reqs ss))
    (add_if (uses_top_k sp) req_id (top_k_reqs ss))
    (add_if (uses_frequency sp) req_id (frequency_penalties_reqs ss))
    (add_if (uses_presence sp) req_id (presence_penalties_reqs ss))
    (add_if (uses_repetition sp) req_id (repetition_penalties_reqs ss))
    (match wants_logprobs sp with
     | Some n => <[req_id := n]> (num_logprobs ss)
     | None => num_logprobs ss
     end)
    (add_if (wants_prompt_logprobs sp) req_id (prompt_logprob_reqs ss)).

Definition sets_discard (req_id : string) (ss : SamplingSets) : SamplingSets :=
  mkSets (greedy_reqs ss ∖ {[req_id]}) (random_reqs ss ∖ {[req_id]})
    (top_p_reqs ss ∖ {[req_id]}) (top_k_reqs ss ∖ {[req_id]})
    (frequency_penalties_reqs ss ∖ {[req_id]}) (presence_penalties_reqs ss ∖ {[req_id]})
    (repetition_penalties_reqs ss ∖ {[req_id]}) (delete req_id (num_logprobs ss))
    (prompt_logprob_reqs ss ∖ {[req_id]}).

(** ** The batch *)

(** The device copies of the sampling arrays. *)
Record DeviceSampling : Type := mkDevice {
  dev_temperature : list pyfloat;
  dev_top_p : list pyfloat;
  dev_top_k : list Z;
  dev_frequency_penalties : list pyfloat;
  dev_presence_penalties : list pyfloat;
  dev_repetition_penalties : list pyfloat;
  dev_prompt_token_ids : option (list (list Z));
}.

Record InputBatch : Type := mkBatch {
  max_num_reqs : nat;
  vocab_size : Z;
  req_ids : list (option string);
  ib_req_id_to_index : gmap string nat;
  ib_rows : list BatchRow;
  ib_block_table : BlockTable;
  ib_sets : SamplingSets;
  generators : gmap nat Z;
  ib_device : DeviceSampling;
}.

(** [uninit] stands for the contents of the [np.empty] and [torch.empty] buffers. *)
Definition ib_init (max_num_reqs max_model_len max_num_blocks_per_req : nat) (vocab_size : Z)
    (uninit : Z * SamplingRow) : InputBatch :=
  let n := max_num_reqs in
  let u := uninit.2 in
  let sampling := mkSamplingRow (temperature_cpu u) (top_p_cpu u) (top_k_cpu u)
                    (frequency_penalties_cpu u) (presence_penalties_cpu u)
                    (repetition_penalties_cpu u) 0 ∅ in
  let row := mkRow (replicate max_model_len 0) 0 0 uninit.1 sampling in
  mkBatch n vocab_size (replicate n None) ∅ (replicate n row) (bt_init n max_num_blocks_per_req)
    sets_empty ∅
    (mkDevice (replicate n (temperature_cpu u)) (replicate n (top_p_cpu u))
       (replicate n (top_k_cpu u)) (replicate n (frequency_penalties_cpu u))
       (replicate n (presence_penalties_cpu u)) (replicate n (repetition_penalties_cpu u)) None).

Definition ib_num_reqs (b : InputBatch) : nat := size (ib_req_id_to_index b).

(** [add_request]; the caller passes an empty index or [None] for the end. *)
Definition ib_add_request (b : InputBatch) (request : CachedRequestState)
    (req_index : option nat) : result InputBatch :=
  let i := default (ib_num_reqs b) req_index in
  _ ← py_assert (bool_decide (i < max_num_reqs b)%nat);
  let req_id := st_req_id request in
  row ← or_raise IndexError (ib_rows b !! i);
  let num_prompt := length (st_prompt_token_ids request) in
  toks ← np_assign (token_ids_cpu row) 0 (st_prompt_token_ids request);
  toks ← np_assign toks num_prompt (st_output_token_ids request);
  bt ← add_row (ib_block_table b) i (st_block_ids request);
  let sp := st_sampling_params request in
  let row := mkRow toks (st_num_tokens request) num_prompt (st_num_computed_tokens request)
               (sampling_row sp) in
  Ok (mkBatch (max_num_reqs b) (vocab_size b) (<[i := Some req_id]> (req_ids b))
        (<[req_id := i]> (ib_req_id_to_index b)) (<[i := row]> (ib_rows b)) bt
        (sets_add req_id sp (ib_sets b))
        (match st_generator request with
         | Some g => <[i := g]> (generators b)
         | None => generators b
         end) (ib_device b)).

Definition ib_remove_request (b : InputBatch) (req_id : string) : InputBatch * option nat :=
  match ib_req_id_to_index b !! req_id with
  | None => (b, None)
  | Some i =>
      (mkBatch (max_num_reqs b) (vocab_size b) (<[i := None]> (req_ids b))
         (delete req_id (ib_req_id_to_index b)) (ib_rows b) (ib_block_table b)
         (sets_discard req_id (ib_sets b)) (delete i (generators b)) (ib_device b), Some i)
  end.

Definition ib_clear (b : InputBatch) : InputBatch :=
  mkBatch (max_num_reqs b) (vocab_size b) (replicate (max_num_reqs b) None) ∅ (ib_rows b)
    (ib_block_table b) sets_empty ∅ (ib_device b).

(** The body of the loop of [condense]: move the row [last] to the empty index
    [empty]. *)
Definition move_request (b : InputBatch) (last empty : nat) : result InputBatch :=
  o ← or_raise IndexError (req_ids b !! last);
  req_id ← or_raise AssertionError o;
  from ← or_raise IndexError (ib_rows b !! last);
  to ← or_raise IndexError (ib_rows b !! empty);
  bt ← move_row (ib_block_table b) last empty;
  let row := mkRow (np_copy (row_num_tokens from) (token_ids_cpu from) (token_ids_cpu to))
               (row_num_tokens from) (row_num_prompt_tokens from) (num_computed_tokens_cpu from)
               (row_sampling from) in
  Ok (mkBatch (max_num_reqs b) (vocab_size b)
        (<[last := None]> (<[empty := Some req_id]> (req_ids b)))
        (<[req_id := empty]> (ib_req_id_to_index b)) (<[empty := row]> (ib_rows b)) bt (ib_sets b)
        (match generators b !! last with
         | Some g => <[empty := g]> (delete last (generators b))
         | None => generators b
         end) (ib_device b)).

(** [while last_req_index in empty_req_indices: last_req_index -= 1] *)
Fixpoint skip_empty (fuel : nat) (empties : list nat) (last : Z) : Z :=
  if bool_decide (last ∈ Z.of_nat <$> empties) then
    match fuel with
    | O => last
    | S fuel => skip_empty fuel empties (last - 1)
    end
  else last.

(** The outer loop, on the empty indices from the smallest to the largest (the
    code pops them from the end of a descending list). *)
Fixpoint condense_loop (b : InputBatch) (empties : list nat) (last : Z) : result InputBatch :=
  match empties with
  | [] => Ok b
  | empty :: rest =>
      let last := skip_empty (Z.to_nat (last + 1)) empties last in
      if last <=? Z.of_nat empty then Ok b
      else
        b ← move_request b (Z.to_nat last) empty;
        condense_loop b rest (last - 1)
  end.

Definition condense (b : InputBatch) (empty_req_indices : list nat) : result InputBatch :=
  if bool_decide (ib_num_reqs b = 0%nat) then Ok b
  else condense_loop b (reverse empty_req_indices)
         (Z.of_nat (ib_num_reqs b) + len empty_req_indices - 1).

(** ** Sampling metadata *)

Definition all_greedy (b : InputBatch) : bool := bool_decide (random_reqs (ib_sets b) = ∅).
Definition all_random (b : InputBatch) : bool := bool_decide (greedy_reqs (ib_sets b) = ∅).
Definition no_top_p (b : InputBatch) : bool := bool_decide (top_p_reqs (ib_sets b) = ∅).
Definition no_top_k (b : InputBatch) : bool := bool_decide (top_k_reqs (ib_sets b) = ∅).
Definition no_penalties (b : InputBatch) : bool :=
  bool_decide (presence_penalties_reqs (ib_sets b) = ∅) &&
  bool_decide (frequency_penalties_reqs (ib_sets b) = ∅) &&
  bool_decide (repetition_penalties_reqs (ib_sets b) = ∅).
Definition max_num_logprobs (b : InputBatch) : Z :=
  map_fold (fun _ n acc => Z.max n acc) 0 (num_logprobs (ib_sets b)).
Definition no_logprob (b : InputBatch) : bool := bool_decide (num_logprobs (ib_sets b) = ∅).
Definition no_prompt_logprob (b : InputBatch) : bool :=
  bool_decide (prompt_logprob_reqs (ib_sets b) = ∅).

(** [_make_prompt_token_ids_tensor]: the prompts, padded with [vocab_size] to the
    longest one. *)
Definition _make_prompt_token_ids_tensor (b : InputBatch) : list (list Z) :=
  let rows := take (ib_num_reqs b) (ib_rows b) in
  let max_prompt_len := max_list (row_num_prompt_tokens <$> rows) in
  (fun row => take (row_num_prompt_tokens row) (take max_prompt_len (token_ids_cpu row)) ++
              replicate (max_prompt_len - row_num_prompt_tokens row) (vocab_size b)) <$> rows.

Record SamplingMetadata : Type := mkSamplingMetadata {
  sm_temperature : list pyfloat;
  sm_all_greedy : bool;
  sm_all_random : bool;
  sm_top_p : list pyfloat;
  sm_top_k : list Z;
  sm_no_top_p : bool;
  sm_no_top_k : bool;
  sm_generators : gmap nat Z;
  sm_max_num_logprobs : Z;
  sm_no_penalties : bool;
  sm_prompt_token_ids : option (list (list Z));
  sm_frequency_penalties : list pyfloat;
  sm_presence_penalties : list pyfloat;
  sm_repetition_penalties : list pyfloat;
  sm_output_token_ids : list (list Z);
  sm_min_tokens : list Z;
  sm_stop_token_ids : list (gset Z);
}.

(** The copies to the device at the start of [make_sampling_metadata]. *)
Definition copy_to_device (b : InputBatch) : DeviceSampling :=
  let n := ib_num_reqs b in
  let d := ib_device b in
  let col {A} (f : SamplingRow -> A) (dst : list A) :=
    np_copy n ((fun row => f (row_sampling row)) <$> ib_rows b) dst in
  if no_penalties b then
    mkDevice (col temperature_cpu (dev_temperature d)) (col top_p_cpu (dev_top_p d))
      (col top_k_cpu (dev_top_k d)) (dev_frequency_penalties d) (dev_presence_penalties d)
      (dev_repetition_penalties d) (dev_prompt_token_ids d)
  else
    mkDevice (col temperature_cpu (dev_temperature d)) (col top_p_cpu (dev_top_p d))
      (col top_k_cpu (dev_top_k d))
      (col frequency_penalties_cpu (dev_frequency_penalties d))
      (col presence_penalties_cpu (dev_presence_penalties d))
      (col repetition_penalties_cpu (dev_repetition_penalties d))
      (Some (_make_prompt_token_ids_tensor b)).

Fixpoint gather_outputs (ids : list (option string)) (outs : gmap string (list Z)) :
    result (list (list Z)) :=
  match ids with
  | [] => Ok []
  | o :: ids =>
      req_id ← or_raise AssertionError o;
      toks ← or_raise KeyError (outs !! req_id);
      rest ← gather_outputs ids outs;
      Ok (toks :: rest)
  end.

Definition make_sampling_metadata (b : InputBatch) (req_id_output_token_ids : gmap string (list Z))
    (skip_copy : bool) : result (InputBatch * SamplingMetadata) :=
  let d := if skip_copy then ib_device b else copy_to_device b in
  let n := ib_num_reqs b in
  outs ← gather_outputs (take n (req_ids b)) req_id_output_token_ids;
  Ok (mkBatch (max_num_reqs b) (vocab_size b) (req_ids b) (ib_req_id_to_index b) (ib_rows b)
        (ib_block_table b) (ib_sets b) (generators b) d,
      mkSamplingMetadata (take n (dev_temperature d)) (all_greedy b) (all_random b)
        (take n (dev_top_p d)) (take n (dev_top_k d)) (no_top_p b) (no_top_k b) (generators b)
        (max_num_logprobs b) (no_penalties b) (dev_prompt_token_ids d)
        (take n (dev_frequency_penalties d)) (take n (dev_presence_penalties d))
        (take n (dev_repetition_penalties d)) outs
        ((fun row => row_min_tokens (row_sampling row)) <$> take n (ib_rows b))
        ((fun row => row_stop_token_ids (row_sampling row)) <$> take n (ib_rows b))).
