(* ===== verification/InputBatchInv.v ===== *)
(** * The input batch as a finite map of request states

    [batch_map b A] says that the batch [b] represents the finite map [A] from
    request ids to cached request states: every request of [A] has a row of its
    own that holds its tokens, counters, blocks, sampling parameters and
    generator, and the feature sets are exactly those of the requests of [A].
    [batch_rep b A E] adds where the rows are: the occupied indices are those below
    [size A + length E] that are not in [E], the list of holes.  Each operation of
    the batch is an operation on [A]; [condense] closes the holes. *)

From stdpp Require Import base tactics list gmap sets strings sorting.
From Stdlib Require Import ZArith QArith Lia.
From S2P Require Import Prelude.
From S2P Require Import SamplingParams.
From S2P Require Import Request.
From S2P Require Import InputBatch.

Local Open Scope Z_scope.

(** ** numpy slices *)

Lemma list_inserts_eq {A} i (k l : list A) :
  (i + length k <= length l)%nat -> list_inserts i k l = take i l ++ k ++ drop (i + length k) l.
Proof.
  intros H. rewrite <- (take_drop i l) at 1.
  rewrite <- (Nat.add_0_r i) at 1. rewrite <- (length_take_le l i) at 1 by lia.
  rewrite list_inserts_app_r. f_equal. rewrite <- (take_drop (length k) (drop i l)) at 1.
  rewrite list_inserts_0_r by (rewrite length_take, length_drop; lia).
  by rewrite drop_drop.
Qed.

Lemma np_assign_spec {A} (row : list A) start vals :
  (start + length vals <= length row)%nat ->
  ∃ row', np_assign row start vals = Ok row' ∧ length row' = length row ∧
    take (start + length vals) row' = take start row ++ vals.
Proof.
  intros H. unfold np_assign.
  rewrite decide_True by (unfold slice; rewrite length_take, length_drop; lia).
  eexists. split; [done|]. split; [apply length_inserts|].
  rewrite list_inserts_eq by done. rewrite (assoc app).
  apply take_app_length'. rewrite length_app, length_take_le; lia.
Qed.

Lemma np_copy_length {A} n (src dst : list A) :
  length src = length dst -> length (np_copy n src dst) = length dst.
Proof. intros E. unfold np_copy. rewrite length_app, length_take, length_drop. lia. Qed.

Lemma np_copy_take {A} n k (src dst : list A) :
  (k <= n)%nat -> (k <= length src)%nat -> take k (np_copy n src dst) = take k src.
Proof.
  intros H1 H2. unfold np_copy. rewrite take_app_le by (rewrite length_take; lia).
  rewrite take_take. f_equal. lia.
Qed.

(** ** Representation *)

Record batch_shape (b : InputBatch) (L W : nat) : Prop := {
  bs_ids : length (req_ids b) = max_num_reqs b;
  bs_rows : length (ib_rows b) = max_num_reqs b;
  bs_table : length (block_table_np (ib_block_table b)) = max_num_reqs b;
  bs_nums : length (num_blocks_per_row (ib_block_table b)) = max_num_reqs b;
  bs_len : ∀ i row, ib_rows b !! i = Some row -> length (token_ids_cpu row) = L;
  bs_width : ∀ i row, block_table_np (ib_block_table b) !! i = Some row -> length row = W;
}.

Record row_holds (st : CachedRequestState) (row : BatchRow) : Prop := {
  rh_tokens : take (st_num_tokens st) (token_ids_cpu row) =
    st_prompt_token_ids st ++ st_output_token_ids st;
  rh_num_tokens : row_num_tokens row = st_num_tokens st;
  rh_num_prompt : row_num_prompt_tokens row = length (st_prompt_token_ids st);
  rh_num_computed : num_computed_tokens_cpu row = st_num_computed_tokens st;
  rh_sampling : row_sampling row = sampling_row (st_sampling_params st);
}.

Definition blocks_hold (st : CachedRequestState) (blocks : list nat) (n : nat) : Prop :=
  take (length (st_block_ids st)) blocks = st_block_ids st ∧ (length (st_block_ids st) <= n)%nat.

Definition row_agrees (st : CachedRequestState) (b : InputBatch) (i : nat) : Prop :=
  ∃ row blocks n,
    ib_rows b !! i = Some row ∧ row_holds st row ∧
    block_table_np (ib_block_table b) !! i = Some blocks ∧
    num_blocks_per_row (ib_block_table b) !! i = Some n ∧ blocks_hold st blocks n ∧
    generators b !! i = st_generator st.

(** A feature set holds exactly the requests with the feature. *)
Definition tracks (s : gset string) (P : SamplingParams -> bool)
    (ps : gmap string SamplingParams) : Prop :=
  ∀ rid, rid ∈ s <-> ∃ sp, ps !! rid = Some sp ∧ P sp = true.

Record sets_ok (ss : SamplingSets) (ps : gmap string SamplingParams) : Prop := {
  so_greedy : tracks (greedy_reqs ss) is_greedy ps;
  so_random : tracks (random_reqs ss) (fun sp => negb (is_greedy sp)) ps;
  so_top_p : tracks (top_p_reqs ss) uses_top_p ps;
  so_top_k : tracks (top_k_reqs ss) uses_top_k ps;
  so_frequency : tracks (frequency_penalties_reqs ss) uses_frequency ps;
  so_presence : tracks (presence_penalties_reqs ss) uses_presence ps;
  so_repetition : tracks (repetition_penalties_reqs ss) uses_repetition ps;
  so_logprobs : ∀ rid, num_logprobs ss !! rid = ps !! rid ≫= wants_logprobs;
  so_prompt_logprobs : tracks (prompt_logprob_reqs ss) wants_prompt_logprobs ps;
}.

Definition occupied (b : InputBatch) (i : nat) : Prop := ∃ rid, req_ids b !! i = Some (Some rid).

Record batch_map (b : InputBatch) (A : gmap string CachedRequestState) (L W : nat) : Prop := {
  bm_shape : batch_shape b L W;
  bm_index : ∀ rid i, ib_req_id_to_index b !! rid = Some i <-> req_ids b !! i = Some (Some rid);
  bm_dom : ∀ rid, is_Some (A !! rid) <-> is_Some (ib_req_id_to_index b !! rid);
  bm_rows : ∀ rid i st, ib_req_id_to_index b !! rid = Some i -> A !! rid = Some st ->
    st_req_id st = rid ∧ row_agrees st b i;
  bm_gens : ∀ i, is_Some (generators b !! i) -> occupied b i;
  bm_sets : sets_ok (ib_sets b) (st_sampling_params <$> A);
}.

Record holes (b : InputBatch) (n : nat) (E : list nat) : Prop := {
  ho_nodup : NoDup E;
  ho_range : ∀ i, i ∈ E -> (i < n + length E)%nat;
  ho_cap : (n + length E <= max_num_reqs b)%nat;
  ho_fill : ∀ i, occupied b i <-> (i < n + length E)%nat ∧ (i ∉ E);
}.

Definition batch_rep (b : InputBatch) (A : gmap string CachedRequestState) (E : list nat)
    (L W : nat) : Prop := batch_map b A L W ∧ holes b (size A) E.

(** ** Feature sets *)

Lemma tracks_add s P ps rid sp :
  ps !! rid = None -> tracks s P ps -> tracks (add_if (P sp) rid s) P (<[rid := sp]> ps).
Proof.
  intros Hn Ht rid'. unfold add_if. destruct (decide (rid' = rid)) as [->|Hne].
  - rewrite lookup_insert_eq. assert (rid ∉ s) by (intros Hin; apply Ht in Hin; naive_solver).
    destruct (P sp) eqn:HP.
    + split; [intros _; by exists sp|intros _; set_solver].
    + split; [done|]. intros (sp' & [= <-] & ?). congruence.
  - rewrite lookup_insert_ne by done. specialize (Ht rid').
    destruct (P sp); [|done]. rewrite elem_of_union, elem_of_singleton. tauto.
Qed.

Lemma tracks_discard s P ps rid : tracks s P ps -> tracks (s ∖ {[rid]}) P (delete rid ps).
Proof.
  intros Ht rid'. rewrite elem_of_difference, elem_of_singleton.
  destruct (decide (rid' = rid)) as [->|Hne].
  - rewrite lookup_delete_eq. split; [tauto|]. by intros (? & ? & _).
  - rewrite lookup_delete_ne by done. specialize (Ht rid'). tauto.
Qed.

Lemma sets_add_ok ss ps rid sp :
  ps !! rid = None -> sets_ok ss ps -> sets_ok (sets_add rid sp ss) (<[rid := sp]> ps).
Proof.
  intros Hn []. split; cbn [greedy_reqs random_reqs top_p_reqs top_k_reqs
    frequency_penalties_reqs presence_penalties_reqs repetition_penalties_reqs num_logprobs
    prompt_logprob_reqs sets_add];
    try (by apply tracks_add).
  - by apply (tracks_add (random_reqs ss) (fun sp => negb (is_greedy sp))).
  - intros rid'. destruct (decide (rid' = rid)) as [->|Hne].
    + rewrite lookup_insert_eq. cbn [mbind option_bind].
      destruct (wants_logprobs sp); [by rewrite lookup_insert_eq|]. by rewrite so_logprobs0, Hn.
    + rewrite (lookup_insert_ne ps) by done.
      destruct (wants_logprobs sp); [rewrite lookup_insert_ne by done|]; done.
Qed.

Lemma sets_discard_ok ss ps rid :
  sets_ok ss ps -> sets_ok (sets_discard rid ss) (delete rid ps).
Proof.
  intros []. split; cbn [greedy_reqs random_reqs top_p_reqs top_k_reqs
    frequency_penalties_reqs presence_penalties_reqs repetition_penalties_reqs num_logprobs
    prompt_logprob_reqs sets_discard];
    try (by apply tracks_discard).
  intros rid'. destruct (decide (rid' = rid)) as [->|Hne].
  - by rewrite !lookup_delete_eq.
  - by rewrite !lookup_delete_ne.
Qed.

(** ** Frames *)

Lemma row_agrees_frame st b b' i :
  ib_rows b' !! i = ib_rows b !! i ->
  block_table_np (ib_block_table b') !! i = block_table_np (ib_block_table b) !! i ->
  num_blocks_per_row (ib_block_table b') !! i = num_blocks_per_row (ib_block_table b) !! i ->
  generators b' !! i = generators b !! i ->
  row_agrees st b i -> row_agrees st b' i.
Proof. unfold row_agrees. by intros -> -> -> ->. Qed.

Lemma occupied_lt b L W i : batch_shape b L W -> occupied b i -> (i < max_num_reqs b)%nat.
Proof. intros Hs [rid Hi]. rewrite <- (bs_ids _ _ _ Hs). by eapply lookup_lt_Some. Qed.

Lemma batch_map_index_inj b A L W rid rid' i :
  batch_map b A L W -> ib_req_id_to_index b !! rid = Some i ->
  ib_req_id_to_index b !! rid' = Some i -> rid = rid'.
Proof. intros H H1 H2. apply (bm_index _ _ _ _ H) in H1, H2. congruence. Qed.

Lemma batch_rep_perm b A E E' L W : E ≡ₚ E' -> batch_rep b A E L W -> batch_rep b A E' L W.
Proof.
  intros HE [Hm Hh]. split; [done|]. destruct Hh. rewrite HE in *. split; try done.
  - intros i Hi. rewrite <- HE. apply ho_range0. by rewrite HE.
  - intros i. rewrite ho_fill0, HE. done.
Qed.

Lemma index_remove b b' A L W rid i :
  batch_map b A L W -> ib_req_id_to_index b !! rid = Some i ->
  req_ids b' = <[i := None]> (req_ids b) ->
  ib_req_id_to_index b' = delete rid (ib_req_id_to_index b) ->
  (∀ rid' j, ib_req_id_to_index b' !! rid' = Some j <-> req_ids b' !! j = Some (Some rid')) ∧
  (∀ j, occupied b' j <-> occupied b j ∧ j ≠ i).
Proof.
  intros Hm Hi Hr Hx. pose proof (bm_index _ _ _ _ Hm) as Hb.
  assert (Hlt : (i < length (req_ids b))%nat) by (apply Hb in Hi; by eapply lookup_lt_Some).
  split.
  - intros rid' j. rewrite Hx, Hr, lookup_delete_Some. destruct (decide (j = i)) as [->|Hj].
    + rewrite list_lookup_insert_eq by done. split; [|done]. intros [Hne Hj].
      destruct Hne. by eapply batch_map_index_inj.
    + rewrite list_lookup_insert_ne by done. rewrite Hb. split; [tauto|]. intros Hj'. split; [|done].
      intros <-. apply Hj. apply Hb in Hj'. congruence.
  - intros j. unfold occupied. rewrite Hr. destruct (decide (j = i)) as [->|Hj].
    + rewrite list_lookup_insert_eq by done. split; [by intros [? ?]|tauto].
    + rewrite list_lookup_insert_ne by done. tauto.
Qed.

Lemma ib_remove_spec b A E L W rid i :
  batch_rep b A E L W -> ib_req_id_to_index b !! rid = Some i ->
  ∃ b', ib_remove_request b rid = (b', Some i) ∧ batch_rep b' (delete rid A) (i :: E) L W ∧
    ib_req_id_to_index b' = delete rid (ib_req_id_to_index b) ∧ max_num_reqs b' = max_num_reqs b.
Proof.
  intros [Hm Hh] Hi. unfold ib_remove_request. rewrite Hi. eexists. split; [done|].
  split; [|done]. set (b' := mkBatch _ _ _ _ _ _ _ _ _).
  destruct (index_remove b b' A L W rid i Hm Hi eq_refl eq_refl) as [Hix Hoc].
  assert (HA : is_Some (A !! rid)) by (apply (bm_dom _ _ _ _ Hm); by eexists).
  assert (Hocc : occupied b i) by (exists rid; by apply (bm_index _ _ _ _ Hm)).
  destruct (Hm) as [[] _ Hd Hrows Hg Hs]. split.
  - split; [split; simpl; try done; by rewrite length_insert|done| | | |].
    + intros rid'. cbn [b' ib_req_id_to_index]. destruct (decide (rid' = rid)) as [->|Hne].
      * rewrite !lookup_delete_eq. done.
      * rewrite !lookup_delete_ne by done. apply Hd.
    + intros rid' j st Hj Hst. cbn [b' ib_req_id_to_index] in Hj.
      apply lookup_delete_Some in Hj as [Hne Hj], Hst as [_ Hst].
      destruct (Hrows rid' j st Hj Hst) as [? Hag]. split; [done|].
      eapply row_agrees_frame; [..|exact Hag]; try done. cbn [b' generators].
      apply lookup_delete_ne. intros ->. apply Hne. by eapply batch_map_index_inj.
    + intros j Hj. apply Hoc. cbn [b' generators] in Hj.
      destruct Hj as [g Hj]. apply lookup_delete_Some in Hj as [? Hj]. split; [apply Hg; by eexists|done].
    + cbn [b' ib_sets]. rewrite fmap_delete. by apply sets_discard_ok.
  - destruct Hh. rewrite map_size_delete_Some by done.
    assert (size A ≠ 0%nat) by (rewrite map_size_ne_0_lookup; by exists rid).
    assert (i ∉ E) by (by apply ho_fill0 in Hocc as [_ ?]).
    split; cbn [length].
    + by constructor.
    + intros j [->|Hj]%elem_of_cons; [apply ho_fill0 in Hocc|apply ho_range0 in Hj]; lia.
    + cbn [b' max_num_reqs]. lia.
    + intros j. rewrite Hoc, ho_fill0, not_elem_of_cons.
      replace (pred (size A) + S (length E))%nat with (size A + length E)%nat by lia. tauto.
Qed.

Lemma ib_remove_none b A E L W rid :
  batch_rep b A E L W -> A !! rid = None -> ib_remove_request b rid = (b, None).
Proof.
  intros [Hm _] Hn. unfold ib_remove_request.
  destruct (ib_req_id_to_index b !! rid) as [i|] eqn:E0; [|done].
  destruct (proj2 (bm_dom _ _ _ _ Hm rid)) as [? ?]; [by eexists|congruence].
Qed.

(** ** Adding a request *)

Lemma index_add b b' A L W rid i :
  batch_map b A L W -> ib_req_id_to_index b !! rid = None -> (i < max_num_reqs b)%nat ->
  ¬ occupied b i -> req_ids b' = <[i := Some rid]> (req_ids b) ->
  ib_req_id_to_index b' = <[rid := i]> (ib_req_id_to_index b) ->
  (∀ rid' j, ib_req_id_to_index b' !! rid' = Some j <-> req_ids b' !! j = Some (Some rid')) ∧
  (∀ j, occupied b' j <-> occupied b j ∨ j = i).
Proof.
  intros Hm Hn Hlt Hno Hr Hx. pose proof (bm_index _ _ _ _ Hm) as Hb.
  rewrite <- (bs_ids _ _ _ (bm_shape _ _ _ _ Hm)) in Hlt. split.
  - intros rid' j. rewrite Hx, Hr, lookup_insert_Some. destruct (decide (j = i)) as [->|Hj].
    + rewrite list_lookup_insert_eq by done. split; [|intros [= ->]; by left].
      intros [[-> _]|[_ Hj]]; [done|]. destruct Hno. exists rid'. by apply Hb.
    + rewrite list_lookup_insert_ne by done. rewrite <- Hb. split; [naive_solver|].
      intros Hj'. right. split; [|done]. intros <-. congruence.
  - intros j. unfold occupied. rewrite Hr. destruct (decide (j = i)) as [->|Hj].
    + rewrite list_lookup_insert_eq by done. split; [by right|by eexists].
    + rewrite list_lookup_insert_ne by done. tauto.
Qed.

(** ** Writing one row *)

(** The block table [t'] is [t] with one row and its counter replaced. *)
Record table_step (t t' : BlockTable) (i : nat) (blocks : list nat) (n : nat) : Prop := {
  ts_len : length (block_table_np t') = length (block_table_np t);
  ts_nums : length (num_blocks_per_row t') = length (num_blocks_per_row t);
  ts_row : block_table_np t' !! i = Some blocks;
  ts_num : num_blocks_per_row t' !! i = Some n;
  ts_other : ∀ j, j ≠ i -> block_table_np t' !! j = block_table_np t !! j ∧
    num_blocks_per_row t' !! j = num_blocks_per_row t !! j;
}.

Lemma table_step_insert t i blocks n dev :
  (i < length (block_table_np t))%nat -> (i < length (num_blocks_per_row t))%nat ->
  table_step t (mkBlockTable dev (<[i := blocks]> (block_table_np t))
                  (<[i := n]> (num_blocks_per_row t))) i blocks n.
Proof.
  intros H1 H2. split; simpl; rewrite ?length_insert; try done.
  - by apply list_lookup_insert_eq.
  - by apply list_lookup_insert_eq.
  - intros j Hj. by rewrite !list_lookup_insert_ne.
Qed.

Lemma append_row_spec t i start ids row n :
  block_table_np t !! i = Some row -> num_blocks_per_row t !! i = Some n ->
  (start + length ids <= length row)%nat ->
  ∃ t' row' n', append_row t i start ids = Ok t' ∧ table_step t t' i row' n' ∧
    length row' = length row ∧ take (start + length ids) row' = take start row ++ ids ∧
    (ids = [] ∧ n' = n ∨ n' = (start + length ids)%nat).
Proof.
  intros Hrow Hn Hle. unfold append_row.
  assert ((i < length (block_table_np t))%nat) by by eapply lookup_lt_Some.
  assert ((i < length (num_blocks_per_row t))%nat) by by eapply lookup_lt_Some.
  destruct (decide (ids = [])) as [->|Hne].
  - exists t, row, n. rewrite bool_decide_eq_true_2 by done. split; [done|].
    split; [by split|]. rewrite Nat.add_0_r, app_nil_r. auto.
  - rewrite bool_decide_eq_false_2 by done. rewrite Hrow. cbn [or_raise mbind result_bind].
    destruct (np_assign_spec row start ids Hle) as (row' & -> & Hl & Ht).
    cbn [mbind result_bind]. eexists _, row', _. split; [done|]. split; [by apply table_step_insert|].
    split; [done|]. split; [done|]. by right.
Qed.

Lemma batch_map_set b b' A L W rid i st row blocks n :
  batch_map b A L W -> max_num_reqs b' = max_num_reqs b ->
  length (req_ids b') = length (req_ids b) ->
  (∀ rid' j, ib_req_id_to_index b' !! rid' = Some j <-> req_ids b' !! j = Some (Some rid')) ->
  ib_req_id_to_index b' !! rid = Some i ->
  (∀ rid', rid' ≠ rid -> ib_req_id_to_index b' !! rid' = ib_req_id_to_index b !! rid') ->
  ib_rows b' = <[i := row]> (ib_rows b) ->
  table_step (ib_block_table b) (ib_block_table b') i blocks n ->
  row_holds st row -> blocks_hold st blocks n ->
  length (token_ids_cpu row) = L -> length blocks = W -> st_req_id st = rid ->
  generators b' !! i = st_generator st ->
  (∀ rid' j, rid' ≠ rid -> ib_req_id_to_index b !! rid' = Some j ->
    generators b' !! j = generators b !! j) ->
  (∀ j, is_Some (generators b' !! j) -> occupied b' j) ->
  sets_ok (ib_sets b') (st_sampling_params <$> <[rid := st]> A) ->
  batch_map b' (<[rid := st]> A) L W.
Proof.
  intros Hm Hmax Hlen Hix Hi Hoth Hrows Ht Hh Hbh HL HW Hid Hg Hgo Hgs Hsets.
  assert (Hlt : (i < length (ib_rows b))%nat).
  { destruct (bm_shape _ _ _ _ Hm). rewrite bs_rows0, <- bs_ids0, <- Hlen.
    apply Hix in Hi. by eapply lookup_lt_Some. }
  destruct (Hm) as [[] _ Hd Hr _ _]. destruct Ht. split; try done.
  - split; rewrite ?Hrows, ?length_insert; try congruence.
    + intros j r. destruct (decide (j = i)) as [->|Hj].
      * rewrite list_lookup_insert_eq by done. by intros [= <-].
      * rewrite list_lookup_insert_ne by done. apply bs_len0.
    + intros j r. destruct (decide (j = i)) as [->|Hj]; [rewrite ts_row0; by intros [= <-]|].
      rewrite (proj1 (ts_other0 j Hj)). apply bs_width0.
  - intros rid'. destruct (decide (rid' = rid)) as [->|Hne].
    + rewrite lookup_insert_eq, Hi. split; by eexists.
    + rewrite lookup_insert_ne, Hoth by done. apply Hd.
  - intros rid' j st' Hj Hst'. destruct (decide (rid' = rid)) as [->|Hne].
    + rewrite lookup_insert_eq in Hst'. rewrite Hi in Hj. simplify_eq. split; [done|].
      exists row, blocks, n. rewrite Hrows, list_lookup_insert_eq by done. done.
    + rewrite lookup_insert_ne in Hst' by done.
      assert (Hji : j ≠ i).
      { intros ->. apply Hix in Hj, Hi. congruence. }
      rewrite Hoth in Hj by done. destruct (Hr rid' j st' Hj Hst') as [? Hag]. split; [done|].
      destruct (ts_other0 j Hji). eapply row_agrees_frame; [..|exact Hag]; try done.
      * rewrite Hrows. by apply list_lookup_insert_ne.
      * by apply (Hgo rid').
Qed.

(** The row a request is written to. *)
Lemma add_tokens_spec (toks : list Z) st :
  (st_num_tokens st <= length toks)%nat ->
  ∃ t1 t2, np_assign toks 0 (st_prompt_token_ids st) = Ok t1 ∧
    np_assign t1 (length (st_prompt_token_ids st)) (st_output_token_ids st) = Ok t2 ∧
    length t2 = length toks ∧
    take (st_num_tokens st) t2 = st_prompt_token_ids st ++ st_output_token_ids st.
Proof.
  unfold st_num_tokens. intros Hle.
  destruct (np_assign_spec toks 0 (st_prompt_token_ids st)) as (t1 & H1 & Hl1 & Ht1); [lia|].
  destruct (np_assign_spec t1 (length (st_prompt_token_ids st)) (st_output_token_ids st))
    as (t2 & H2 & Hl2 & Ht2); [lia|].
  exists t1, t2. split; [done|]. split; [done|]. split; [congruence|].
  rewrite Ht2. f_equal. exact Ht1.
Qed.

(** The index [add_request] writes to: the hole it is given, or the end. *)
Definition add_target (b : InputBatch) (o : option nat) (E E' : list nat) : Prop :=
  match o with
  | Some i => E = i :: E'
  | None => E = [] ∧ E' = [] ∧ (ib_num_reqs b < max_num_reqs b)%nat
  end.

Lemma batch_rep_size b A E L W : batch_rep b A E L W -> ib_num_reqs b = size A.
Proof.
  intros [Hm _]. unfold ib_num_reqs. rewrite <- !size_dom. f_equal. apply set_eq. intros rid.
  rewrite !elem_of_dom. symmetry. apply (bm_dom _ _ _ _ Hm).
Qed.

Lemma add_target_free b A E E' L W o :
  batch_rep b A E L W -> add_target b o E E' ->
  let i := default (ib_num_reqs b) o in
  (i < max_num_reqs b)%nat ∧ ¬ occupied b i ∧ (i ∉ E') ∧
  (∀ b' n, max_num_reqs b' = max_num_reqs b -> n = S (size A) ->
    (∀ j, occupied b' j <-> occupied b j ∨ j = i) -> holes b' n E').
Proof.
  intros Hrep Ht. pose proof (batch_rep_size _ _ _ _ _ Hrep) as Hsz. destruct Hrep as [_ []].
  destruct o as [i|]; simpl in *.
  - subst E. cbn [length] in *. apply NoDup_cons in ho_nodup0 as [Hi Hn].
    assert (i < size A + S (length E'))%nat by (apply ho_range0; by left).
    split; [lia|]. split; [rewrite ho_fill0; set_solver|]. split; [done|].
    intros b' n Hmax -> Hoc. split; [done| | |].
    + intros j Hj. assert (j < size A + S (length E'))%nat by (apply ho_range0; by right). lia.
    + lia.
    + intros j. rewrite Hoc, ho_fill0, not_elem_of_cons.
      replace (S (size A) + length E')%nat with (size A + S (length E'))%nat by lia.
      destruct (decide (j = i)) as [->|]; naive_solver.
  - destruct Ht as (-> & -> & Hlt). rewrite Hsz in *. split; [done|].
    split; [rewrite ho_fill0; simpl; lia|]. split; [apply not_elem_of_nil|].
    intros b' n Hmax -> Hoc. split; [done| | |].
    + by intros j Hj%elem_of_nil.
    + simpl. lia.
    + intros j. rewrite Hoc, ho_fill0. simpl. rewrite !Nat.add_0_r.
      split; [intros [[? ?]| ->]; split; [lia|done|lia|apply not_elem_of_nil]|].
      intros [? _]. destruct (decide (j = size A)); [by right|left]. split; [lia|apply not_elem_of_nil].
Qed.

Lemma ib_add_spec b A E E' L W st o :
  batch_rep b A E L W -> add_target b o E E' -> A !! st_req_id st = None ->
  (st_num_tokens st <= L)%nat -> (length (st_block_ids st) <= W)%nat ->
  ∃ b', ib_add_request b st o = Ok b' ∧ batch_rep b' (<[st_req_id st := st]> A) E' L W ∧
    dom (ib_req_id_to_index b') = {[st_req_id st]} ∪ dom (ib_req_id_to_index b) ∧
    max_num_reqs b' = max_num_reqs b.
Proof.
  intros Hrep Ht HA HL HW.
  destruct (add_target_free b A E E' L W o Hrep Ht) as (Hlt & Hno & _ & Hholes).
  unfold ib_add_request. set (i := default (ib_num_reqs b) o) in *.
  destruct Hrep as [Hm Hh]. pose proof (bm_shape _ _ _ _ Hm) as Hsh. destruct Hsh.
  assert (Hx : ib_req_id_to_index b !! st_req_id st = None).
  { apply eq_None_not_Some. intros Hs. apply (bm_dom _ _ _ _ Hm) in Hs. rewrite HA in Hs. by destruct Hs. }
  rewrite bool_decide_eq_true_2 by done. cbn [py_assert mbind result_bind].
  destruct (lookup_lt_is_Some_2 (ib_rows b) i) as [row Hrow]; [lia|].
  destruct (lookup_lt_is_Some_2 (block_table_np (ib_block_table b)) i) as [blk Hblk]; [lia|].
  destruct (lookup_lt_is_Some_2 (num_blocks_per_row (ib_block_table b)) i) as [n Hn]; [lia|].
  rewrite Hrow. cbn [or_raise mbind result_bind].
  pose proof (bs_len0 i row Hrow) as HlenL. pose proof (bs_width0 i blk Hblk) as HlenW.
  destruct (add_tokens_spec (token_ids_cpu row) st) as (t1 & t2 & -> & E2 & Hl2 & Ht2); [lia|].
  cbn [mbind result_bind]. rewrite E2. cbn [mbind result_bind]. unfold add_row.
  destruct (append_row_spec (ib_block_table b) i 0 (st_block_ids st) blk n Hblk Hn)
    as (bt & blk' & n' & -> & Hts & Hlb & Htb & Hn'); [lia|].
  cbn [mbind result_bind]. eexists. split; [done|]. set (b' := mkBatch _ _ _ _ _ _ _ _ _).
  destruct (index_add b b' A L W (st_req_id st) i Hm Hx Hlt Hno eq_refl eq_refl) as [Hix Hoc].
  assert (Hgi : generators b !! i = None).
  { apply eq_None_not_Some. intros Hs. by apply Hno, (bm_gens _ _ _ _ Hm). }
  split; [split|split; [cbn [b' ib_req_id_to_index]; by rewrite dom_insert_L|done]].
  - eapply (batch_map_set b b' A L W (st_req_id st) i st); try done.
    + cbn [b' req_ids]. by rewrite length_insert.
    + cbn [b' ib_req_id_to_index]. by rewrite lookup_insert_eq.
    + intros rid' Hne. cbn [b' ib_req_id_to_index]. by rewrite lookup_insert_ne.
    + split; [exact Htb|]. destruct Hn' as [[-> _]| ->]; simpl; lia.
    + simpl. congruence.
    + congruence.
    + cbn [b' generators]. destruct (st_generator st); [by rewrite lookup_insert_eq|done].
    + intros rid' j Hne Hj. cbn [b' generators]. destruct (st_generator st); [|done].
      rewrite lookup_insert_ne; [done|]. intros ->. apply Hno. exists rid'. by apply (bm_index _ _ _ _ Hm).
    + intros j Hj. apply Hoc. cbn [b' generators] in Hj. destruct (st_generator st).
      * destruct Hj as [g' [[-> _]|[_ Hj]]%lookup_insert_Some]; [by right|left].
        apply (bm_gens _ _ _ _ Hm). by eexists.
      * left. by apply (bm_gens _ _ _ _ Hm).
    + cbn [b' ib_sets]. rewrite fmap_insert. apply sets_add_ok; [by rewrite lookup_fmap, HA|].
      apply (bm_sets _ _ _ _ Hm).
  - apply Hholes; [done| |done]. by rewrite map_size_insert_None.
Qed.

(** ** Condensing *)

Lemma index_move b b' A L W rid last empty :
  batch_map b A L W -> req_ids b !! last = Some (Some rid) -> (empty < max_num_reqs b)%nat ->
  ¬ occupied b empty -> req_ids b' = <[last := None]> (<[empty := Some rid]> (req_ids b)) ->
  ib_req_id_to_index b' = <[rid := empty]> (ib_req_id_to_index b) ->
  (∀ rid' j, ib_req_id_to_index b' !! rid' = Some j <-> req_ids b' !! j = Some (Some rid')) ∧
  (∀ j, occupied b' j <-> occupied b j ∧ j ≠ last ∨ j = empty).
Proof.
  intros Hm Hlast Hlt Hno Hr Hx. pose proof (bm_index _ _ _ _ Hm) as Hb.
  rewrite <- (bs_ids _ _ _ (bm_shape _ _ _ _ Hm)) in Hlt.
  assert (Hl : (last < length (req_ids b))%nat) by by eapply lookup_lt_Some.
  assert (Hne : last ≠ empty) by (intros ->; apply Hno; by exists rid).
  assert (Hlook : ∀ j, req_ids b' !! j =
    if decide (j = last) then Some None else if decide (j = empty) then Some (Some rid)
    else req_ids b !! j).
  { intros j. rewrite Hr. destruct (decide (j = last)) as [->|Hj].
    - apply list_lookup_insert_eq. by rewrite length_insert.
    - rewrite list_lookup_insert_ne by done. destruct (decide (j = empty)) as [->|Hj'].
      + by apply list_lookup_insert_eq.
      + by apply list_lookup_insert_ne. }
  split.
  - intros rid' j. rewrite Hx, Hlook, lookup_insert_Some.
    destruct (decide (j = last)) as [->|Hj]; [|destruct (decide (j = empty)) as [->|Hj']].
    + split; [|done]. intros [[_ ?]|[Hr' Hj]]; [done|]. apply Hb in Hj. congruence.
    + split; [|intros [= <-]; by left]. intros [[<- _]|[_ Hj']]; [done|].
      destruct Hno. exists rid'. by apply Hb.
    + rewrite <- Hb. split; [naive_solver|]. intros Hj2. right. split; [|done]. intros <-.
      apply Hb in Hj2. apply Hj. apply Hb in Hj2, Hlast. congruence.
  - intros j. unfold occupied. rewrite Hlook.
    destruct (decide (j = last)) as [->|Hj]; [|destruct (decide (j = empty)) as [->|Hj']].
    + split; [by intros [? ?]|]. intros [[_ ?]|?]; done.
    + split; [by right|by eexists].
    + split; [intros ?; by left|]. by intros [[? _]|?].
Qed.

Lemma move_row_spec t src tgt (num : nat) from to W :
  num_blocks_per_row t !! src = Some num -> block_table_np t !! src = Some from ->
  block_table_np t !! tgt = Some to -> (tgt < length (num_blocks_per_row t))%nat ->
  length from = W -> length to = W ->
  ∃ t', move_row t src tgt = Ok t' ∧ table_step t t' tgt (np_copy num from to) num.
Proof.
  intros H1 H2 H3 Hlt Hf Ht. unfold move_row. rewrite H1, H2, H3. cbn [or_raise mbind result_bind].
  eexists. split; [done|]. apply table_step_insert; [by eapply lookup_lt_Some|done].
Qed.

Lemma move_request_spec b A L W rid last empty :
  batch_map b A L W -> req_ids b !! last = Some (Some rid) -> (empty < max_num_reqs b)%nat ->
  ¬ occupied b empty ->
  ∃ b', move_request b last empty = Ok b' ∧ batch_map b' A L W ∧
    max_num_reqs b' = max_num_reqs b ∧
    (∀ j, occupied b' j <-> occupied b j ∧ j ≠ last ∨ j = empty) ∧
    dom (ib_req_id_to_index b') = dom (ib_req_id_to_index b).
Proof.
  intros Hm Hlast Hlt Hno. unfold move_request. rewrite Hlast. cbn [or_raise mbind result_bind].
  pose proof (proj2 (bm_index _ _ _ _ Hm rid last) Hlast) as Hidx.
  destruct (proj2 (bm_dom _ _ _ _ Hm rid)) as [st Hst]; [by eexists|].
  destruct (bm_rows _ _ _ _ Hm rid last st Hidx Hst)
    as [Hid (row & blk & n & Hrow & Hrh & Hblk & Hn & Hbh & Hg)].
  pose proof (bm_shape _ _ _ _ Hm) as Hsh. destruct Hsh.
  destruct (lookup_lt_is_Some_2 (ib_rows b) empty) as [row0 Hrow0]; [lia|].
  destruct (lookup_lt_is_Some_2 (block_table_np (ib_block_table b)) empty) as [blk0 Hblk0]; [lia|].
  rewrite Hrow, Hrow0. cbn [or_raise mbind result_bind].
  pose proof (bs_width0 _ _ Hblk) as HW. pose proof (bs_len0 _ _ Hrow) as HL.
  destruct (move_row_spec (ib_block_table b) last empty n blk blk0 W) as (bt & -> & Hts); try done;
    [lia|by eapply bs_width0|].
  cbn [mbind result_bind]. eexists. split; [done|]. set (b' := mkBatch _ _ _ _ _ _ _ _ _).
  destruct (index_move b b' A L W rid last empty Hm Hlast Hlt Hno eq_refl eq_refl) as [Hix Hoc].
  assert (Hgi : generators b !! empty = None).
  { apply eq_None_not_Some. intros Hs. by apply Hno, (bm_gens _ _ _ _ Hm). }
  assert (Hne : last ≠ empty) by (intros ->; apply Hno; by exists rid).
  assert (Hgens : ∀ j, generators b' !! j =
    if decide (j = empty) then st_generator st else if decide (j = last) then None
    else generators b !! j).
  { intros j. cbn [b' generators]. rewrite Hg. destruct (st_generator st) as [g|] eqn:Eg.
    - destruct (decide (j = empty)) as [->|]; [by rewrite lookup_insert_eq|].
      rewrite lookup_insert_ne by done. destruct (decide (j = last)) as [->|];
        [by rewrite lookup_delete_eq|by rewrite lookup_delete_ne].
    - destruct (decide (j = empty)) as [->|]; [done|]. destruct (decide (j = last)) as [->|]; done. }
  split; [|split; [done|split; [done|]]].
  - rewrite <- (insert_id A rid st Hst).
    eapply (batch_map_set b b' A L W rid empty st); try done.
    + cbn [b' req_ids]. by rewrite !length_insert.
    + cbn [b' ib_req_id_to_index]. by rewrite lookup_insert_eq.
    + intros rid' Hr. cbn [b' ib_req_id_to_index]. by rewrite lookup_insert_ne.
    + destruct Hrh. split; simpl; try done. rewrite np_copy_take; [done|lia|].
      apply (f_equal length) in rh_tokens0. rewrite length_take, length_app in rh_tokens0.
      unfold st_num_tokens in *. lia.
    + destruct Hbh as [Hb1 Hb2]. split; [|done]. rewrite np_copy_take; [done|done|].
      apply (f_equal length) in Hb1. rewrite length_take in Hb1. lia.
    + simpl. rewrite np_copy_length; [by eapply bs_len0|]. rewrite HL. symmetry. by eapply bs_len0.
    + rewrite np_copy_length; [by eapply bs_width0|]. rewrite HW. symmetry. by eapply bs_width0.
    + rewrite Hgens. by rewrite decide_True.
    + intros rid' j Hr Hj. rewrite Hgens. rewrite !decide_False; [done| |].
      * intros ->. apply Hr. by eapply batch_map_index_inj.
      * intros ->. apply Hno. exists rid'. by apply (bm_index _ _ _ _ Hm).
    + intros j Hj. apply Hoc. rewrite Hgens in Hj.
      destruct (decide (j = empty)) as [->|]; [by right|].
      destruct (decide (j = last)) as [->|]; [by destruct Hj|]. left. split; [|done].
      by apply (bm_gens _ _ _ _ Hm).
    + cbn [b' ib_sets]. rewrite insert_id by done. apply (bm_sets _ _ _ _ Hm).
  - cbn [b' ib_req_id_to_index]. rewrite dom_insert_L. assert (rid ∈ dom (ib_req_id_to_index b)).
    { apply elem_of_dom. by eexists. } set_solver.
Qed.

Lemma skip_empty_spec fuel empties last :
  -1 <= last -> (Z.to_nat (last + 1) <= fuel)%nat ->
  let last' := skip_empty fuel empties last in
  -1 <= last' <= last ∧ (∀ i, i ∈ empties -> Z.of_nat i ≠ last') ∧
  (∀ i : nat, last' < Z.of_nat i <= last -> i ∈ empties).
Proof.
  revert last. induction fuel as [|fuel IH]; intros last H1 H2; simpl;
    destruct (bool_decide (last ∈ Z.of_nat <$> empties)) eqn:E.
  - apply bool_decide_eq_true in E. apply list_elem_of_fmap in E as (i & -> & _). lia.
  - apply bool_decide_eq_false in E. split; [lia|]. split; [|lia].
    intros i Hi <-. apply E. by apply list_elem_of_fmap_2.
  - apply bool_decide_eq_true in E. apply list_elem_of_fmap in E as (i & -> & Hi).
    destruct (IH (Z.of_nat i - 1)) as (H3 & H4 & H5); [lia|lia|]. split; [lia|]. split; [done|].
    intros j Hj. destruct (decide (j = i)) as [->|]; [done|]. apply H5. lia.
  - apply bool_decide_eq_false in E. split; [lia|]. split; [|lia].
    intros i Hi <-. apply E. by apply list_elem_of_fmap_2.
Qed.

Lemma condense_loop_spec b A L W empties last :
  batch_map b A L W -> StronglySorted lt empties -> -1 <= last ->
  (∀ i, i ∈ empties -> (i < max_num_reqs b)%nat) ->
  (∀ i, occupied b i <-> Z.of_nat i <= last ∧ (i ∉ empties)) ->
  ∃ b' n, condense_loop b empties last = Ok b' ∧ batch_map b' A L W ∧
    max_num_reqs b' = max_num_reqs b ∧ (∀ i, occupied b' i <-> (i < n)%nat) ∧
    dom (ib_req_id_to_index b') = dom (ib_req_id_to_index b).
Proof.
  revert b last. induction empties as [|empty rest IH]; intros b last Hm Hs Hlast Hmax Hocc.
  { exists b, (Z.to_nat (last + 1)). split; [done|]. split; [done|]. split; [done|]. split; [|done].
    intros i. rewrite Hocc. split; [lia|]. split; [lia|apply not_elem_of_nil]. }
  cbn [condense_loop].
  destruct (skip_empty_spec (Z.to_nat (last + 1)) (empty :: rest) last) as (H1 & H2 & H3); [lia|lia|].
  cbv zeta. set (last' := skip_empty _ _ _) in *.
  apply StronglySorted_inv in Hs as [Hs Hall]. rewrite Forall_forall in Hall.
  assert (Hocc' : ∀ i, occupied b i <-> Z.of_nat i <= last' ∧ (i ∉ empty :: rest)).
  { intros i. rewrite Hocc. split; intros [Hi Hn]; [|split; [lia|done]]. split; [|done].
    destruct (decide (Z.of_nat i <= last')); [done|]. destruct Hn. apply H3. lia. }
  destruct (last' <=? Z.of_nat empty) eqn:Hcmp.
  - exists b, (Z.to_nat (last' + 1)). split; [done|]. split; [done|]. split; [done|]. split; [|done].
    intros i. rewrite Hocc'. split; [lia|]. intros Hi. split; [lia|].
    assert (Z.of_nat empty ≠ last') by (apply H2; by left).
    rewrite not_elem_of_cons. split; [lia|]. intros Hin. apply Hall in Hin. lia.
  - apply Z.leb_gt in Hcmp. assert (Hocl : occupied b (Z.to_nat last')).
    { apply Hocc'. split; [lia|]. intros Hin. apply H2 in Hin. lia. }
    destruct (Hocl) as [rid Hrid].
    destruct (move_request_spec b A L W rid (Z.to_nat last') empty) as (b1 & -> & Hm1 & Hmax1 & Hoc1 & Hd1);
      [done|done|apply Hmax; by left| |].
    { rewrite Hocc'. intros [_ Hn]. apply Hn. by left. }
    cbn [mbind result_bind]. destruct (IH b1 (last' - 1)) as (b' & n & E & Hm' & Hmax' & Hn & Hd');
      [done|done|lia| | |].
    { intros i Hi. rewrite Hmax1. apply Hmax. by right. }
    { intros i. rewrite Hoc1, Hocc', not_elem_of_cons. split.
      - intros [[[Hi Hn] Hl]| ->]; [split; [lia|tauto]|]. split; [lia|]. intros Hin. apply Hall in Hin. lia.
      - intros [Hi Hn]. destruct (decide (i = empty)) as [->|]; [by right|]. left. split; [|lia]. split; [lia|done]. }
    exists b', n. rewrite E. split; [done|]. split; [done|]. split; [congruence|]. split; [done|congruence].
Qed.

(** A batch whose occupied rows are the first [n] holds [n] requests. *)
Lemma dense_size b A L W n :
  batch_map b A L W -> (∀ i, occupied b i <-> (i < n)%nat) -> size (ib_req_id_to_index b) = n.
Proof.
  intros Hm Hocc. set (m := ib_req_id_to_index b).
  assert (Hp : (map_to_list m).*2 ≡ₚ seq 0 n).
  { apply NoDup_Permutation; [|apply NoDup_seq|].
    - apply (NoDup_fmap_2_strong snd); [|apply NoDup_map_to_list].
      intros [r1 i1] [r2 i2] H1 H2 E. simpl in E. subst i2.
      apply elem_of_map_to_list in H1, H2. f_equal. by eapply batch_map_index_inj.
    - intros i. rewrite elem_of_seq. rewrite list_elem_of_fmap. split.
      + intros ([rid j] & -> & Hin). apply elem_of_map_to_list in Hin. simpl.
        assert (occupied b j) as Hj by (exists rid; by apply (bm_index _ _ _ _ Hm)).
        apply Hocc in Hj. lia.
      + intros Hi. assert (occupied b i) as [rid Hr] by (apply Hocc; lia).
        exists (rid, i). split; [done|]. apply elem_of_map_to_list. by apply (bm_index _ _ _ _ Hm). }
  apply Permutation_length in Hp. rewrite length_fmap, length_seq in Hp. rewrite <- Hp.
  by rewrite length_map_to_list.
Qed.

Lemma batch_rep_dense b A L W n :
  batch_map b A L W -> (∀ i, occupied b i <-> (i < n)%nat) -> batch_rep b A [] L W.
Proof.
  intros Hm Hocc. split; [done|]. pose proof (dense_size b A L W n Hm Hocc) as Hsz.
  assert (HA : size A = n).
  { rewrite <- Hsz, <- !size_dom. f_equal. apply set_eq. intros rid.
    rewrite !elem_of_dom. apply (bm_dom _ _ _ _ Hm). }
  split.
  - apply NoDup_nil_2.
  - by intros i Hi%elem_of_nil.
  - simpl. rewrite HA, Nat.add_0_r. destruct n as [|n]; [lia|].
    assert (occupied b n) as Ho by (apply Hocc; lia).
    apply (occupied_lt b L W n (bm_shape _ _ _ _ Hm)) in Ho. lia.
  - intros i. rewrite Hocc, HA. simpl. rewrite Nat.add_0_r. split; [|tauto].
    intros Hi. split; [done|apply not_elem_of_nil].
Qed.

Lemma condense_spec b A E L W :
  batch_rep b A E L W -> StronglySorted lt (reverse E) ->
  ∃ b', condense b E = Ok b' ∧ batch_rep b' A [] L W ∧ max_num_reqs b' = max_num_reqs b ∧
    dom (ib_req_id_to_index b') = dom (ib_req_id_to_index b).
Proof.
  intros Hrep Hs. pose proof (batch_rep_size _ _ _ _ _ Hrep) as Hsz. destruct Hrep as [Hm Hh].
  unfold condense. rewrite Hsz. destruct (decide (size A = 0%nat)) as [H0|H0].
  - rewrite bool_decide_eq_true_2 by done. exists b. split; [done|]. split; [|done].
    apply (batch_rep_dense b A L W 0); [done|]. intros i. split; [|lia]. intros [rid Hr].
    apply (bm_index _ _ _ _ Hm) in Hr. unfold ib_num_reqs in Hsz. rewrite H0 in Hsz.
    apply map_size_empty_inv in Hsz. rewrite Hsz in Hr. done.
  - rewrite bool_decide_eq_false_2 by done. destruct Hh.
    destruct (condense_loop_spec b A L W (reverse E) (Z.of_nat (size A) + len E - 1))
      as (b' & n & -> & Hm' & Hmax & Hocc & Hd); [done|done|lia| | |].
    + intros i Hi. rewrite elem_of_reverse in Hi. apply ho_range0 in Hi. lia.
    + intros i. rewrite ho_fill0, elem_of_reverse. split; intros [? ?]; (split; [lia|done]).
    + exists b'. split; [done|]. split; [|done]. by eapply batch_rep_dense.
Qed.
