(* ===== verification/ModelRunner.v ===== *)
(** * The model runner: [vllm/v1/worker/gpu_model_runner.py]

    The worker mirrors the scheduler: [_update_states] applies a scheduler output
    to the cached request states and to the persistent batch, [_prepare_inputs]
    computes the index arrays of the forward pass, [_gather_encoder_outputs] picks
    the encoder outputs the step needs, and the end of [execute_model] books the
    sampled tokens.  [update_for_encoder] and [_execute_encoder] are the encoder
    worker's side.

    The model's forward pass with its sampler, and the vision encoder, are
    parameters.  A torch generator is identified by its seed.  Not modelled: the
    M-RoPE position tables, CUDA-graph padding, the rewinding of generators, and
    the attention backend's choice of cascade attention (the length of the common
    prefix it is offered is computed).  The int32 arrays of
    [_prepare_inputs] wrap ([int32]); elsewhere integers are unbounded. *)

From stdpp Require Import base tactics list gmap sets strings sorting.
From Stdlib Require Import ZArith QArith Lia.
From S2P Require Import Prelude.
From S2P Require Import SamplingParams.
From S2P Require Import Request.
From S2P Require Import Scheduler.
From S2P Require Import EncoderScheduler.
From S2P Require Import InputBatch.

Local Open Scope Z_scope.

Record ModelRunner : Type := mkRunner {
  mr_block_size : Z;
  mr_max_num_blocks_per_req : Z;
  mr_max_model_len : Z;
  mr_max_num_tokens : Z;
  is_multimodal_model : bool;
  mr_requests : gmap string CachedRequestState;
  mr_encoder_cache : gmap string (gmap nat nat);
  input_batch : InputBatch;
}.

Definition with_state (mr : ModelRunner) (reqs : gmap string CachedRequestState)
    (enc : gmap string (gmap nat nat)) (b : InputBatch) : ModelRunner :=
  mkRunner (mr_block_size mr) (mr_max_num_blocks_per_req mr) (mr_max_model_len mr)
    (mr_max_num_tokens mr) (is_multimodal_model mr) reqs enc b.

(** [__init__]; the cache of encoder outputs is the caller's, and empty in the
    encoder process. *)
Definition runner_init (block_size max_model_len max_num_batched_tokens max_num_seqs vocab_size : Z)
    (is_multimodal : bool) (encoder_cache : option (gmap string (gmap nat nat)))
    (uninit : Z * SamplingRow) : ModelRunner :=
  let max_num_blocks_per_req := cdiv max_model_len block_size in
  mkRunner block_size max_num_blocks_per_req max_model_len max_num_batched_tokens is_multimodal ∅
    (default ∅ encoder_cache)
    (ib_init (Z.to_nat max_num_seqs) (Z.to_nat max_model_len) (Z.to_nat max_num_blocks_per_req)
       vocab_size uninit).

(** ** [_update_states] *)

(** [for req_id in ids: d.pop(req_id, None)] *)
Definition pop_all {A} (ids : gset string) (m : gmap string A) : gmap string A :=
  foldl (fun m req_id => delete req_id m) m (elements ids).

(** Remove one finished request from the batch, recording its index. *)
Definition remove_finished (acc : InputBatch * list nat) (req_id : string) : InputBatch * list nat :=
  let '(b, o) := ib_remove_request acc.1 req_id in
  (b, match o with Some i => acc.2 ++ [i] | None => acc.2 end).

(** Free one encoder output; an empty inner dict is dropped. *)
Definition free_encoder_output (c : gmap string (gmap nat nat)) (key : string * nat) :
    gmap string (gmap nat nat) :=
  match c !! key.1 with
  | None => c
  | Some m =>
      let m := delete key.2 m in
      if bool_decide (m = ∅) then delete key.1 c else <[key.1 := m]> c
  end.

Definition remove_unscheduled (req_id : string) (acc : InputBatch * list nat) :
    result (InputBatch * list nat) :=
  let '(b, o) := ib_remove_request acc.1 req_id in
  i ← or_raise AssertionError o;
  Ok (b, acc.2 ++ [i]).

(** The cached state of a new request. *)
Definition new_state (d : NewRequestData) : CachedRequestState :=
  let sp := nrd_sampling_params d in
  mkReqState (nrd_req_id d) (nrd_prompt_token_ids d) (nrd_prompt d) (nrd_mm_inputs d)
    (nrd_mm_positions d) sp (match sampling_type sp with RANDOM_SEED => seed sp | _ => None end)
    (nrd_block_ids d) (nrd_num_computed_tokens d) [].

(** The new block list of a running or resumed request. *)
Definition resume_state (d : CachedRequestData) (st : CachedRequestState) : CachedRequestState :=
  mkReqState (st_req_id st) (st_prompt_token_ids st) (st_prompt st) (st_mm_inputs st)
    (st_mm_positions st) (st_sampling_params st) (st_generator st)
    (if crd_resumed_from_preemption d then crd_new_block_ids d
     else st_block_ids st ++ crd_new_block_ids d)
    (crd_num_computed_tokens d) (st_output_token_ids st).

(** [num_computed_tokens_cpu\[i\] = n] and [block_table.append_row(i, start, ids)] *)
Definition update_row (b : InputBatch) (i start : nat) (n : Z) (ids : list nat) :
    result InputBatch :=
  row ← or_raise IndexError (ib_rows b !! i);
  bt ← append_row (ib_block_table b) i start ids;
  let row := mkRow (token_ids_cpu row) (row_num_tokens row) (row_num_prompt_tokens row) n
               (row_sampling row) in
  Ok (mkBatch (max_num_reqs b) (vocab_size b) (req_ids b) (ib_req_id_to_index b)
        (<[i := row]> (ib_rows b)) bt (ib_sets b) (generators b) (ib_device b)).

(** The loop over [scheduled_cached_reqs]; the third component is
    [req_ids_to_add]. *)
Definition update_cached (d : CachedRequestData)
    (acc : gmap string CachedRequestState * InputBatch * list string) :
    result (gmap string CachedRequestState * InputBatch * list string) :=
  let '(reqs, b, to_add) := acc in
  let req_id := crd_req_id d in
  st ← or_raise KeyError (reqs !! req_id);
  let st := resume_state d st in
  let reqs := <[req_id := st]> reqs in
  match ib_req_id_to_index b !! req_id with
  | None => Ok (reqs, b, to_add ++ [req_id])
  | Some i =>
      b ← update_row b i (length (st_block_ids st) - length (crd_new_block_ids d))
            (crd_num_computed_tokens d) (crd_new_block_ids d);
      Ok (reqs, b, to_add)
  end.

(** Add the requests to the batch; the empty indices, in ascending order, are
    filled first. *)
Fixpoint fill_batch (reqs : gmap string CachedRequestState) (to_add : list string)
    (b : InputBatch) (empties : list nat) : result (InputBatch * list nat) :=
  match to_add with
  | [] => Ok (b, empties)
  | req_id :: to_add =>
      st ← or_raise KeyError (reqs !! req_id);
      match empties with
      | i :: empties => b ← ib_add_request b st (Some i); fill_batch reqs to_add b empties
      | [] => b ← ib_add_request b st None; fill_batch reqs to_add b []
      end
  end.

Definition _update_states (mr : ModelRunner) (so : SchedulerOutput) : result (ModelRunner * bool) :=
  let finished := so_finished_req_ids so in
  let reqs := pop_all finished (mr_requests mr) in
  let enc := pop_all finished (mr_encoder_cache mr) in
  let '(b, removed) := foldl remove_finished (input_batch mr, []) (elements finished) in
  let enc := foldl free_encoder_output enc (free_encoder_input_ids so) in
  let unscheduled :=
    elements (dom (ib_req_id_to_index b) ∖ dom (num_scheduled_tokens so) : gset string) in
  '(b, removed) ← for_each remove_unscheduled unscheduled (b, removed);
  let reqs := foldl (fun m d => <[nrd_req_id d := new_state d]> m) reqs (scheduled_new_reqs so) in
  '(reqs, b, to_add) ←
    for_each update_cached (scheduled_cached_reqs so)
      (reqs, b, nrd_req_id <$> scheduled_new_reqs so);
  '(b, empties) ← fill_batch reqs to_add b (merge_sort Nat.le removed);
  b ← (if bool_decide (empties = []) then Ok b else condense b (reverse empties));
  Ok (with_state mr reqs enc b,
      negb (bool_decide (unscheduled = [])) || negb (bool_decide (to_add = []))).

(** ** numpy *)

(** The value of [z] in a cell of an int32 array, in two's complement. *)
Definition int32 (z : Z) : Z := (z + 2 ^ 31) `mod` 2 ^ 32 - 2 ^ 31.

(** An int32 array times a Python int: the product is int32 when the scalar fits into an
    int32, and int64 otherwise (numpy 1 casts a scalar by its value). *)
Definition np_scale (k : Z) (a : list Z) : list Z :=
  (fun x => if int32 k =? k then int32 (x * k) else x * k) <$> a.

(** [a.max()] *)
Definition np_max (l : list Z) : Z := match l with [] => 0 | x :: l => foldr Z.max x l end.

Definition np_repeat {A} (l : list A) (counts : list Z) : list A :=
  concat (zip_with (fun x n => replicate (Z.to_nat n) x) l counts).

Fixpoint cumsum_from (acc : Z) (l : list Z) : list Z :=
  match l with
  | [] => []
  | x :: l => (acc + x) :: cumsum_from (acc + x) l
  end.
Definition np_cumsum (l : list Z) : list Z := cumsum_from 0 l.

(** An element-wise operation on one-dimensional arrays, with broadcasting. *)
Definition np_zip (f : Z -> Z -> Z) (a b : list Z) : result (list Z) :=
  if decide (length a = length b) then Ok (zip_with f a b)
  else match a, b with
       | [x], _ => Ok (f x <$> b)
       | _, [y] => Ok ((fun x => f x y) <$> a)
       | _, _ => Err ValueError
       end.

(** [a\[idx\]] with an array of indices; negative ones count from the end. *)
Definition np_get {A} (a : list A) (i : Z) : option A :=
  if (0 <=? i) then a !! Z.to_nat i
  else if (- len a <=? i) then a !! Z.to_nat (len a + i) else None.
Fixpoint np_take {A} (a : list A) (idx : list Z) : result (list A) :=
  match idx with
  | [] => Ok []
  | i :: idx =>
      x ← or_raise IndexError (np_get a i);
      rest ← np_take a idx;
      Ok (x :: rest)
  end.

(** [torch.index_select] refuses negative indices. *)
Fixpoint index_select {A} (a : list A) (idx : list Z) : result (list A) :=
  match idx with
  | [] => Ok []
  | i :: idx =>
      x ← or_raise IndexError (if 0 <=? i then a !! Z.to_nat i else None);
      rest ← index_select a idx;
      Ok (x :: rest)
  end.

(** ** [_prepare_inputs] *)

Record PreparedInputs : Type := mkPrepared {
  pi_num_actual_tokens : Z;
  pi_max_query_len : Z;
  pi_positions : list Z;
  pi_input_ids : list Z;
  pi_slot_mapping : list Z;
  pi_query_start_loc : list Z;
  pi_seq_lens : list Z;
  pi_max_seq_len : Z;
  pi_common_prefix_len : Z;
  pi_block_table : list (list nat);
  pi_logits_indices : list Z;
}.

(** [\[num_scheduled_tokens\[req_id\] for req_id in req_ids\]], as the Python loop. *)
Fixpoint scheduled_counts (ids : list (option string)) (tokens : gmap string Z) : result (list Z) :=
  match ids with
  | [] => Ok []
  | o :: ids =>
      req_id ← or_raise AssertionError o;
      n ← or_raise KeyError (tokens !! req_id);
      rest ← scheduled_counts ids tokens;
      Ok (n :: rest)
  end.

Definition max_z (l : list Z) : Z := foldr Z.max 0 l.
Definition min_z (l : list Z) : Z :=
  match l with [] => 0 | x :: l => foldr Z.min x l end.

(** [arange_np], of length [max(max_num_reqs + 1, max_model_len, max_num_tokens)] *)
Definition arange_np (mr : ModelRunner) : list Z :=
  Z.of_nat <$> seq 0 (Nat.max (max_num_reqs (input_batch mr) + 1)
                        (Nat.max (Z.to_nat (mr_max_model_len mr)) (Z.to_nat (mr_max_num_tokens mr)))).

(** The length of the prefix offered to cascade attention. *)
Definition common_prefix_len (block_size num_common_blocks : Z) (computed : list Z) : Z :=
  let common := num_common_blocks * block_size in
  if common =? 0 then 0 else Z.min common (min_z computed) / block_size * block_size.

(** The arrays [arange_np], [num_scheduled_tokens], [num_computed_tokens_cpu], the block
    table, [slot_mapping_np], [query_start_loc_np] and [seq_lens_np] are int32: a value that
    is stored in them, and the product of two int32, is reduced by [int32].  [cumsum],
    [positions_np] and what is added to them are int64, where no sum here can overflow.
    [np.repeat] refuses negative counts. *)
Definition _prepare_inputs (mr : ModelRunner) (so : SchedulerOutput) :
    result (ModelRunner * PreparedInputs) :=
  let total := total_num_scheduled_tokens so in
  _ ← py_assert (0 <? total);
  let b := input_batch mr in
  let num_reqs := ib_num_reqs b in
  _ ← py_assert (bool_decide (0 < num_reqs)%nat);
  let bt := commit (ib_block_table b) num_reqs in
  counts ← scheduled_counts (take num_reqs (req_ids b)) (num_scheduled_tokens so);
  let max_num_scheduled_tokens := max_z counts in
  let counts := int32 <$> counts in
  _ ← py_assert (0 <? max_num_scheduled_tokens);
  _ ← (if bool_decide (Forall (fun c => 0 <= c) counts) then Ok () else Err ValueError);
  let req_indices := np_repeat (take num_reqs (arange_np mr)) counts in
  let cu_num_tokens := np_cumsum counts in
  let cumsums_offsets := np_repeat (zip_with Z.sub cu_num_tokens counts) counts in
  arange ← np_zip Z.sub (take (Z.to_nat total) (arange_np mr)) cumsums_offsets;
  let computed := (fun row => int32 (num_computed_tokens_cpu row)) <$> ib_rows b in
  starts ← np_take computed req_indices;
  positions ← np_zip Z.add starts arange;
  (* out=positions_np\[:total\] *)
  _ ← (if decide (len positions = Z.min total (mr_max_num_tokens mr)) then Ok () else Err ValueError);
  let width := Z.of_nat (match ib_rows b with [] => 0%nat | r :: _ => length (token_ids_cpu r) end) in
  token_indices ← np_zip Z.add positions (np_scale width req_indices);
  input_ids ← index_select (concat (token_ids_cpu <$> ib_rows b)) token_indices;
  block_table_indices ←
    np_zip Z.add (np_scale (mr_max_num_blocks_per_req mr) req_indices)
      ((fun p => p / mr_block_size mr) <$> positions);
  block_numbers ← np_take (concat (block_table_np bt)) block_table_indices;
  slots ← np_zip Z.add (np_scale (mr_block_size mr) ((fun n : nat => int32 (Z.of_nat n)) <$> block_numbers))
            ((fun p => p `mod` mr_block_size mr) <$> positions);
  let slot_mapping := int32 <$> slots in
  let query_start_loc := 0 :: (int32 <$> cu_num_tokens) in
  seq_lens ← np_zip (fun x y => int32 (x + y)) (take num_reqs computed) counts;
  let b := mkBatch (max_num_reqs b) (vocab_size b) (req_ids b) (ib_req_id_to_index b) (ib_rows b) bt
             (ib_sets b) (generators b) (ib_device b) in
  Ok (with_state mr (mr_requests mr) (mr_encoder_cache mr) b,
      mkPrepared total max_num_scheduled_tokens positions input_ids slot_mapping query_start_loc seq_lens
        (np_max seq_lens)
        (common_prefix_len (mr_block_size mr) (num_common_prefix_blocks so) (take num_reqs computed))
        (take num_reqs (block_table bt))
        ((fun x => int32 (x - 1)) <$> (int32 <$> cu_num_tokens))).

(** ** Encoder outputs *)

(** [encoder_output\[start_idx:end_idx\]], with the output as a handle. *)
Record EncoderSlice : Type := mkEncSlice {
  es_output_handle : nat;
  es_start_idx : Z;
  es_end_idx : Z;
}.

Fixpoint gather_positions (c : gmap string (gmap nat nat)) (req_id : string)
    (l : list PlaceholderRange) (i : nat) (num_computed num_scheduled : Z) :
    result (list EncoderSlice) :=
  match l with
  | [] => Ok []
  | p :: l =>
      let start_pos := offset p in
      let num_encoder_tokens := length_ p in
      if num_computed + num_scheduled <=? start_pos then Ok []
      else if start_pos + num_encoder_tokens <=? num_computed
      then gather_positions c req_id l (S i) num_computed num_scheduled
      else
        let start_idx := Z.max (num_computed - start_pos) 0 in
        let end_idx := Z.min (num_computed - start_pos + num_scheduled) num_encoder_tokens in
        _ ← py_assert (start_idx <? end_idx);
        m ← or_raise AssertionError (c !! req_id);
        out ← or_raise AssertionError (m !! i);
        rest ← gather_positions c req_id l (S i) num_computed num_scheduled;
        Ok (mkEncSlice out start_idx end_idx :: rest)
  end.

Fixpoint gather_requests (mr : ModelRunner) (so : SchedulerOutput) (ids : list (option string)) :
    result (list EncoderSlice) :=
  match ids with
  | [] => Ok []
  | o :: ids =>
      req_id ← or_raise AssertionError o;
      n ← or_raise KeyError (num_scheduled_tokens so !! req_id);
      st ← or_raise KeyError (mr_requests mr !! req_id);
      here ← gather_positions (mr_encoder_cache mr) req_id (st_mm_positions st) 0
               (st_num_computed_tokens st) n;
      rest ← gather_requests mr so ids;
      Ok (here ++ rest)
  end.

Definition _gather_encoder_outputs (mr : ModelRunner) (so : SchedulerOutput) :
    result (list EncoderSlice) :=
  gather_requests mr so (take (ib_num_reqs (input_batch mr)) (req_ids (input_batch mr))).

(** ** [execute_model] *)

Definition _prepare_sampling (mr : ModelRunner) (batch_changed : bool) :
    result (ModelRunner * SamplingMetadata) :=
  '(b, md) ← make_sampling_metadata (input_batch mr) (st_output_token_ids <$> mr_requests mr)
               (negb batch_changed);
  Ok (with_state mr (mr_requests mr) (mr_encoder_cache mr) b, md).

Definition set_outputs (st : CachedRequestState) (outs : list Z) : CachedRequestState :=
  mkReqState (st_req_id st) (st_prompt_token_ids st) (st_prompt st) (st_mm_inputs st)
    (st_mm_positions st) (st_sampling_params st) (st_generator st) (st_block_ids st)
    (st_num_computed_tokens st) outs.

Definition with_row (b : InputBatch) (i : nat) (row : BatchRow) : InputBatch :=
  mkBatch (max_num_reqs b) (vocab_size b) (req_ids b) (ib_req_id_to_index b) (<[i := row]> (ib_rows b))
    (ib_block_table b) (ib_sets b) (generators b) (ib_device b).

(** The first loop after sampling: a request whose scheduled tokens reach its end
    gets room for one more token.  The list is [request_seq_lens]. *)
Fixpoint prime_outputs (so : SchedulerOutput) (ids : list (option string)) (i : nat)
    (reqs : gmap string CachedRequestState) (b : InputBatch) :
    result (gmap string CachedRequestState * InputBatch * list (nat * string * Z)) :=
  match ids with
  | [] => Ok (reqs, b, [])
  | o :: ids =>
      req_id ← or_raise AssertionError o;
      st ← or_raise KeyError (reqs !! req_id);
      n ← or_raise KeyError (num_scheduled_tokens so !! req_id);
      let seq_len := st_num_computed_tokens st + n in
      _ ← py_assert (seq_len <=? Z.of_nat (st_num_tokens st));
      if seq_len =? Z.of_nat (st_num_tokens st) then
        row ← or_raise IndexError (ib_rows b !! i);
        let b := with_row b i (mkRow (token_ids_cpu row) (S (row_num_tokens row))
                   (row_num_prompt_tokens row) (num_computed_tokens_cpu row) (row_sampling row)) in
        let reqs := <[req_id := set_outputs st (st_output_token_ids st ++ [0])]> reqs in
        '(reqs, b, l) ← prime_outputs so ids (S i) reqs b;
        Ok (reqs, b, (i, req_id, seq_len) :: l)
      else prime_outputs so ids (S i) reqs b
  end.

(** [token_ids_cpu\[i, seq_len\] = token_id] and [output_token_ids\[-1\] = token_id] *)
Definition store_token (sampled : list Z) (e : nat * string * Z)
    (acc : gmap string CachedRequestState * InputBatch) :
    result (gmap string CachedRequestState * InputBatch) :=
  let '(i, req_id, seq_len) := e in
  let '(reqs, b) := acc in
  token_id ← or_raise IndexError (sampled !! i);
  row ← or_raise IndexError (ib_rows b !! i);
  _ ← or_raise IndexError (token_ids_cpu row !! Z.to_nat seq_len);
  let b := with_row b i (mkRow (<[Z.to_nat seq_len := token_id]> (token_ids_cpu row))
             (row_num_tokens row) (row_num_prompt_tokens row) (num_computed_tokens_cpu row)
             (row_sampling row)) in
  st ← or_raise KeyError (reqs !! req_id);
  _ ← or_raise IndexError (last (st_output_token_ids st));
  Ok (<[req_id := set_outputs st (removelast (st_output_token_ids st) ++ [token_id])]> reqs, b).

Section execute.
(** The forward pass and the sampler: one token id per row. *)
Context (model : PreparedInputs -> list EncoderSlice -> SamplingMetadata -> result (list Z)).

Definition execute_model (mr : ModelRunner) (so : SchedulerOutput) :
    result (ModelRunner * ModelRunnerOutput) :=
  '(mr, batch_changed) ← _update_states mr so;
  encoder_outputs ← (if is_multimodal_model mr then _gather_encoder_outputs mr so else Ok []);
  '(mr, prepared) ← _prepare_inputs mr so;
  '(mr, md) ← _prepare_sampling mr batch_changed;
  sampled ← model prepared encoder_outputs md;
  let b := input_batch mr in
  let ids := take (ib_num_reqs b) (req_ids b) in
  '(reqs, b, l) ← prime_outputs so ids 0 (mr_requests mr) b;
  names ← (if bool_decide (Forall is_Some ids) then Ok (omap id ids) else Err AssertionError);
  '(reqs, b) ← for_each (store_token sampled) l (reqs, b);
  Ok (with_state mr reqs (mr_encoder_cache mr) b,
      mkModelRunnerOutput names (ib_req_id_to_index b) sampled).
End execute.

(** ** The encoder worker *)

(** [update_for_encoder] *)
Definition enc_new_state (d : EncNewRequestData) : CachedRequestState :=
  let sp := enr_sampling_params d in
  mkReqState (enr_req_id d) (enr_prompt_token_ids d) (enr_prompt d) (enr_mm_inputs d)
    (enr_mm_positions d) sp (match sampling_type sp with RANDOM_SEED => seed sp | _ => None end)
    (default [] (enr_block_ids d)) (enr_num_computed_tokens d) [].

Definition update_for_encoder (mr : ModelRunner) (so : EncSchedulerOutput) : ModelRunner :=
  with_state mr
    (foldl (fun m d => <[enr_req_id d := enc_new_state d]> m) (mr_requests mr) (eso_new_reqs so))
    (mr_encoder_cache mr) (input_batch mr).

(** [group_mm_inputs_by_modality] ([vllm/multimodal/utils.py]): maximal runs of
    inputs with the same key.  The key is a parameter: the input's modality, the
    empty string when it has none, the object's identity when it has several. *)
Fixpoint group_by {A} (key : A -> string) (l : list A) : list (list A) :=
  match l with
  | [] => []
  | x :: l =>
      match group_by key l with
      | (y :: g) :: gs => if bool_decide (key x = key y) then (x :: y :: g) :: gs
                          else [x] :: (y :: g) :: gs
      | gs => [x] :: gs
      end
  end.

(** The inputs to encode with their request and index. *)
Fixpoint encoder_batch_one (req_id : string) (inputs : list (option MMKwargs)) (ids : list nat) :
    result (list (string * nat * option MMKwargs)) :=
  match ids with
  | [] => Ok []
  | i :: ids =>
      x ← or_raise IndexError (inputs !! i);
      rest ← encoder_batch_one req_id inputs ids;
      Ok ((req_id, i, x) :: rest)
  end.

Fixpoint encoder_batch (reqs : gmap string CachedRequestState) (l : list (string * list nat)) :
    result (list (string * nat * option MMKwargs)) :=
  match l with
  | [] => Ok []
  | (req_id, ids) :: l =>
      st ← or_raise KeyError (reqs !! req_id);
      here ← encoder_batch_one req_id (st_mm_inputs st) ids;
      rest ← encoder_batch reqs l;
      Ok (here ++ rest)
  end.

(** The caching loop.  The test looks at [self.encoder_cache], the update goes to
    the local dict. *)
Fixpoint cache_outputs (own : gmap string (gmap nat nat)) (l : list (string * nat * nat))
    (c : gmap string (gmap nat nat)) : result (gmap string (gmap nat nat)) :=
  match l with
  | [] => Ok c
  | (req_id, input_id, out) :: l =>
      let c := match own !! req_id with None => <[req_id := ∅]> c | Some _ => c end in
      m ← or_raise KeyError (c !! req_id);
      cache_outputs own l (<[req_id := <[input_id := out]> m]> c)
  end.

Section encoder.
(** The key of an input's modality and the vision encoder on a batch of inputs. *)
Context (modality : option MMKwargs -> string).
Context (get_multimodal_embeddings : list (option MMKwargs) -> list nat).

(** [_execute_encoder]; [None] when there is nothing to encode. *)
Definition _execute_encoder (mr : ModelRunner) (so : EncSchedulerOutput) :
    result (option (gmap string (gmap nat nat))) :=
  if bool_decide (eso_encoder_inputs so = ∅) then Ok None
  else
    batch ← encoder_batch (mr_requests mr) (map_to_list (eso_encoder_inputs so));
    let encoder_outputs :=
      concat (get_multimodal_embeddings <$> group_by modality (snd <$> batch)) in
    c ← cache_outputs (mr_encoder_cache mr)
          (zip_with (fun e out => (e.1, out)) batch encoder_outputs) ∅;
    Ok (Some c).

(** The worker's [execute_vision_encoder]. *)
Definition execute_vision_encoder (mr : ModelRunner) (so : EncSchedulerOutput) :
    result (ModelRunner * option (gmap string (gmap nat nat))) :=
  let mr := update_for_encoder mr so in
  c ← _execute_encoder mr so;
  Ok (mr, if bool_decide (eso_new_reqs so = []) then None else c).
End encoder.
