(* ===== verification/RunnerInv.v ===== *)
(** * [_update_states] against the input batch's representation

    The persistent batch represents a sub-map of the cached request states.  This
    file carries that relation through the phases of [_update_states]: dropping
    finished and unscheduled requests, registering new ones, updating the running
    and resumed ones, filling the holes and condensing. *)

From stdpp Require Import base tactics list gmap sets strings sorting.
From Stdlib Require Import ZArith QArith Lia.
From S2P Require Import Prelude.
From S2P Require Import SamplingParams.
From S2P Require Import Request.
From S2P Require Import Scheduler.
From S2P Require Import InputBatch.
From S2P Require Import InputBatchInv.
From S2P Require Import ModelRunner.

Local Open Scope Z_scope.

(** ** Maps *)

(** The map without the given keys. *)
Definition without {A} (l : list string) (m : gmap string A) : gmap string A :=
  foldl (fun m k => delete k m) m l.

Lemma lookup_without {A} l (m : gmap string A) k :
  without l m !! k = if decide (k ∈ l) then None else m !! k.
Proof.
  revert m. induction l as [|x l IH]; intros m; unfold without; cbn [foldl].
  { by rewrite decide_False by apply not_elem_of_nil. }
  change (without l (delete x m) !! k = if decide (k ∈ x :: l) then None else m !! k).
  rewrite IH. destruct (decide (k ∈ l)) as [Hl|Hl].
  - by rewrite decide_True by by right.
  - destruct (decide (k = x)) as [->|Hne].
    + rewrite lookup_delete_eq. by rewrite decide_True by by left.
    + rewrite lookup_delete_ne by done. rewrite decide_False; [done|]. by rewrite not_elem_of_cons.
Qed.

Lemma without_subseteq {A} l (m m' : gmap string A) : m ⊆ m' -> without l m ⊆ without l m'.
Proof.
  intros Hs. apply map_subseteq_spec. intros k x. rewrite !lookup_without.
  destruct (decide (k ∈ l)); [done|]. by apply map_subseteq_spec.
Qed.

Lemma lookup_new_states l (m : gmap string CachedRequestState) k :
  NoDup (nrd_req_id <$> l) ->
  (∀ d, d ∈ l -> nrd_req_id d = k ->
    foldl (fun m d => <[nrd_req_id d := new_state d]> m) m l !! k = Some (new_state d)) ∧
  ((k ∉ nrd_req_id <$> l) ->
    foldl (fun m d => <[nrd_req_id d := new_state d]> m) m l !! k = m !! k).
Proof.
  revert m. induction l as [|x l IH]; intros m; cbn [foldl fmap list_fmap].
  { intros _. split; [by intros d Hd%elem_of_nil|done]. }
  intros [Hx Hn]%NoDup_cons. destruct (IH (<[nrd_req_id x := new_state x]> m) Hn) as [H1 H2]. split.
  - intros d [->|Hd]%elem_of_cons Hk; [|by apply H1]. subst k.
    rewrite (H2 Hx). apply lookup_insert_eq.
  - rewrite not_elem_of_cons. intros [Hne Hk]. rewrite (H2 Hk). by apply lookup_insert_ne.
Qed.

(** ** Dropping requests *)

Lemma remove_finished_spec l b A E L W :
  batch_rep b A E L W ->
  ∃ b' E', foldl remove_finished (b, E) l = (b', E') ∧ batch_rep b' (without l A) E' L W ∧
    max_num_reqs b' = max_num_reqs b.
Proof.
  revert b A E. induction l as [|rid l IH]; intros b A E Hrep.
  { exists b, E. done. }
  cbn [foldl]. unfold remove_finished at 2. cbn [fst snd].
  destruct (ib_req_id_to_index b !! rid) as [i|] eqn:Hi.
  - destruct (ib_remove_spec b A E L W rid i Hrep Hi) as (b1 & -> & Hrep1 & _ & Hmax).
    apply (batch_rep_perm _ _ _ (E ++ [i])) in Hrep1; [|by rewrite Permutation_app_comm].
    destruct (IH b1 _ _ Hrep1) as (b' & E' & -> & Hrep' & Hmax'). exists b', E'.
    split; [done|]. split; [done|congruence].
  - assert (HA : A !! rid = None).
    { apply eq_None_not_Some. intros Hs. destruct Hrep as [Hm _]. apply (bm_dom _ _ _ _ Hm) in Hs.
      rewrite Hi in Hs. by destruct Hs. }
    rewrite (ib_remove_none b A E L W rid Hrep HA).
    destruct (IH b A E Hrep) as (b' & E' & -> & Hrep' & Hmax'). exists b', E'.
    split; [done|]. split; [|done]. unfold without. cbn [foldl]. by rewrite delete_id.
Qed.

Lemma remove_unscheduled_spec l b A E L W :
  batch_rep b A E L W -> NoDup l -> (∀ rid, rid ∈ l -> is_Some (A !! rid)) ->
  ∃ b' E', for_each remove_unscheduled l (b, E) = Ok (b', E') ∧ batch_rep b' (without l A) E' L W ∧
    max_num_reqs b' = max_num_reqs b.
Proof.
  revert b A E. induction l as [|rid l IH]; intros b A E Hrep Hnd Hin.
  { exists b, E. done. }
  apply NoDup_cons in Hnd as [Hrid Hnd]. cbn [for_each].
  destruct (Hin rid ltac:(by left)) as [st Hst].
  destruct (Hrep) as [Hm _]. destruct (proj1 (bm_dom _ _ _ _ Hm rid)) as [i Hi]; [by eexists|].
  assert (Hstep : ∃ b1, remove_unscheduled rid (b, E) = Ok (b1, E ++ [i]) ∧
    batch_rep b1 (delete rid A) (E ++ [i]) L W ∧ max_num_reqs b1 = max_num_reqs b).
  { destruct (ib_remove_spec b A E L W rid i Hrep Hi) as (b1 & E1 & Hrep1 & _ & Hmax).
    exists b1. unfold remove_unscheduled. cbn [fst snd]. rewrite E1. cbn [or_raise mbind result_bind].
    split; [done|]. split; [|done]. eapply batch_rep_perm; [|exact Hrep1]. by rewrite Permutation_app_comm. }
  destruct Hstep as (b1 & -> & Hrep1 & Hmax). cbn [mbind result_bind].
  destruct (IH b1 _ _ Hrep1 Hnd) as (b' & E' & -> & Hrep' & Hmax').
  { intros r Hr. rewrite lookup_delete_ne by (intros ->; done). apply Hin. by right. }
  exists b', E'. split; [done|]. split; [done|congruence].
Qed.

(** ** Running and resumed requests *)

Lemma batch_rep_id b A E L W rid st :
  batch_rep b A E L W -> A !! rid = Some st -> st_req_id st = rid.
Proof.
  intros [Hm _] Hst. destruct (proj1 (bm_dom _ _ _ _ Hm rid)) as [i Hi]; [by eexists|].
  by destruct (bm_rows _ _ _ _ Hm rid i st Hi Hst).
Qed.

Lemma update_row_spec b A E L W rid i st d :
  batch_rep b A E L W -> ib_req_id_to_index b !! rid = Some i -> A !! rid = Some st ->
  let st' := resume_state d st in
  (length (st_block_ids st') <= W)%nat ->
  ∃ b', update_row b i (length (st_block_ids st') - length (crd_new_block_ids d))
          (crd_num_computed_tokens d) (crd_new_block_ids d) = Ok b' ∧
    batch_rep b' (<[rid := st']> A) E L W ∧
    ib_req_id_to_index b' = ib_req_id_to_index b ∧ max_num_reqs b' = max_num_reqs b.
Proof.
  intros Hrep Hi Hst st' HW. pose proof (batch_rep_id _ _ _ _ _ _ _ Hrep Hst) as Hid.
  destruct Hrep as [Hm Hh].
  destruct (bm_rows _ _ _ _ Hm rid i st Hi Hst)
    as [_ (row & blk & n & Hrow & Hrh & Hblk & Hn & [Hb1 Hb2] & Hg)].
  pose proof (bm_shape _ _ _ _ Hm) as Hsh. pose proof (bs_width _ _ _ Hsh _ _ Hblk) as HlenW.
  pose proof (bs_len _ _ _ Hsh _ _ Hrow) as HlenL.
  set (start := (length (st_block_ids st') - length (crd_new_block_ids d))%nat).
  assert (Hstart : st_block_ids st' = take start (st_block_ids st) ++ crd_new_block_ids d ∧
    (start + length (crd_new_block_ids d) = length (st_block_ids st') ∧ start <= length (st_block_ids st))%nat).
  { unfold start, st', resume_state. cbn [st_block_ids]. destruct (crd_resumed_from_preemption d).
    - rewrite Nat.sub_diag. simpl. split; [done|lia].
    - rewrite length_app, Nat.add_sub. rewrite take_ge by lia. split; [done|lia]. }
  destruct Hstart as (Hbl & Hlen & Hle). unfold update_row. rewrite Hrow. cbn [or_raise mbind result_bind].
  destruct (append_row_spec (ib_block_table b) i start (crd_new_block_ids d) blk n Hblk Hn)
    as (bt & blk' & n' & -> & Hts & Hlb & Htb & Hn'); [lia|].
  cbn [mbind result_bind]. eexists. split; [done|]. set (b' := mkBatch _ _ _ _ _ _ _ _ _).
  split; [split|done].
  - eapply (batch_map_set b b' A L W rid i st'); try done.
    + apply (bm_index _ _ _ _ Hm).
    + destruct Hrh. split; done.
    + split; [|destruct Hn' as [[Hnil ->]| ->]; [|lia]].
      * rewrite <- Hlen, Htb. rewrite Hbl. f_equal.
        rewrite <- Hb1, take_take. f_equal. lia.
      * rewrite <- Hlen, Hnil. simpl. lia.
    + congruence.
    + intros j Hj. apply (bm_gens _ _ _ _ Hm j Hj).
    + cbn [b' ib_sets]. rewrite fmap_insert. cbn [st' resume_state st_sampling_params].
      rewrite insert_id by (by rewrite lookup_fmap, Hst). apply (bm_sets _ _ _ _ Hm).
  - rewrite map_size_insert_Some by by eexists. destruct Hh. by split.
Qed.

(** The cached requests that are not in the batch have to be added again. *)
Definition absent (b : InputBatch) (ids : list string) : list string :=
  filter (fun rid => ib_req_id_to_index b !! rid = None) ids.

Lemma update_cached_spec ds reqs b A E L W to_add :
  batch_rep b A E L W -> A ⊆ reqs -> NoDup (crd_req_id <$> ds) ->
  (∀ d, d ∈ ds -> ∃ st, reqs !! crd_req_id d = Some st ∧
    (length (st_block_ids (resume_state d st)) <= W)%nat) ->
  ∃ reqs' b' A', for_each update_cached ds (reqs, b, to_add) =
      Ok (reqs', b', to_add ++ absent b (crd_req_id <$> ds)) ∧
    batch_rep b' A' E L W ∧ A' ⊆ reqs' ∧ dom A' = dom A ∧
    ib_req_id_to_index b' = ib_req_id_to_index b ∧ max_num_reqs b' = max_num_reqs b ∧
    (∀ d, d ∈ ds -> reqs' !! crd_req_id d = resume_state d <$> reqs !! crd_req_id d) ∧
    (∀ rid, (rid ∉ crd_req_id <$> ds) -> reqs' !! rid = reqs !! rid).
Proof.
  revert reqs b A to_add. induction ds as [|d ds IH]; intros reqs b A to_add Hrep Hsub Hnd Hall.
  { exists reqs, b, A. cbn [for_each]. unfold absent. simpl. rewrite app_nil_r. split; [done|].
    split; [done|]. split; [done|]. split; [done|]. split; [done|]. split; [done|].
    split; [by intros d Hd%elem_of_nil|done]. }
  rewrite fmap_cons in Hnd. apply NoDup_cons in Hnd as [Hd Hnd].
  destruct (Hall d ltac:(by left)) as (st & Hst & HW). set (rid := crd_req_id d) in *.
  set (reqs1 := <[rid := resume_state d st]> reqs).
  assert (Hstep : ∃ b1 A1, update_cached d (reqs, b, to_add) =
      Ok (reqs1, b1, to_add ++ absent b [rid]) ∧ batch_rep b1 A1 E L W ∧ A1 ⊆ reqs1 ∧
      dom A1 = dom A ∧ ib_req_id_to_index b1 = ib_req_id_to_index b ∧ max_num_reqs b1 = max_num_reqs b).
  { unfold update_cached, absent. fold rid. rewrite Hst. cbn [or_raise mbind result_bind]. fold reqs1.
    destruct (ib_req_id_to_index b !! rid) as [i|] eqn:Hi.
    - destruct (proj2 (bm_dom _ _ _ _ (proj1 Hrep) rid)) as [st0 Hst0]; [by eexists|].
      assert (st0 = st) as ->.
      { eapply (proj1 (map_subseteq_spec A reqs)) in Hsub; [|exact Hst0]. congruence. }
      destruct (update_row_spec b A E L W rid i st d Hrep Hi Hst0 HW) as (b1 & -> & Hrep1 & Hx & Hmax).
      exists b1, (<[rid := resume_state d st]> A). cbn [mbind result_bind].
      rewrite filter_cons_False by congruence. rewrite filter_nil, app_nil_r.
      split; [done|]. split; [done|]. split; [by apply insert_mono|].
      split; [|done]. rewrite dom_insert_L. assert (rid ∈ dom A) by (apply elem_of_dom; by eexists).
      set_solver.
    - exists b, A. rewrite filter_cons_True by done. rewrite filter_nil. split; [done|].
      split; [done|]. split; [|done]. apply insert_subseteq_r; [|done].
      apply eq_None_not_Some. intros Hs. apply (bm_dom _ _ _ _ (proj1 Hrep)) in Hs. rewrite Hi in Hs.
      by destruct Hs. }
  destruct Hstep as (b1 & A1 & E1 & Hrep1 & Hsub1 & Hdom1 & Hx1 & Hmax1).
  destruct (IH reqs1 b1 A1 (to_add ++ absent b [rid]) Hrep1 Hsub1 Hnd)
    as (reqs' & b' & A' & E' & Hrep' & Hsub' & Hdom' & Hx' & Hmax' & Hin & Hout).
  { intros d' Hd'. destruct (Hall d' ltac:(by right)) as (st' & Hst' & HW'). exists st'.
    split; [|done]. unfold reqs1. rewrite lookup_insert_ne; [done|]. intros Heq. apply Hd.
    rewrite Heq. by apply list_elem_of_fmap_2. }
  exists reqs', b', A'. cbn [for_each]. rewrite E1. cbn [mbind result_bind]. rewrite E'.
  split.
  { do 2 f_equal. rewrite <- (assoc app). f_equal. unfold absent. rewrite Hx1. by rewrite <- filter_app. }
  split; [done|]. split; [done|]. split; [congruence|]. split; [congruence|]. split; [congruence|]. split.
  - intros d' [->|Hd']%elem_of_cons.
    + fold rid. rewrite (Hout rid Hd), Hst. unfold reqs1. by rewrite lookup_insert_eq.
    + rewrite (Hin d' Hd'). f_equal. unfold reqs1. rewrite lookup_insert_ne; [done|]. intros Heq. apply Hd.
      rewrite Heq. by apply list_elem_of_fmap_2.
  - intros r. rewrite fmap_cons, not_elem_of_cons. intros [Hne Hr]. rewrite (Hout r Hr).
    unfold reqs1. by rewrite lookup_insert_ne.
Qed.

(** ** Filling the batch *)

Definition fits (L W : nat) (st : CachedRequestState) : Prop :=
  (st_num_tokens st <= L)%nat ∧ (length (st_block_ids st) <= W)%nat.

Lemma fill_batch_spec reqs to_add b A E L W :
  batch_rep b A E L W -> StronglySorted lt E -> A ⊆ reqs -> NoDup to_add ->
  (size A + length to_add <= max_num_reqs b)%nat ->
  (∀ rid, rid ∈ to_add -> A !! rid = None ∧
    ∃ st, reqs !! rid = Some st ∧ st_req_id st = rid ∧ fits L W st) ->
  ∃ b' A' E', fill_batch reqs to_add b E = Ok (b', E') ∧ batch_rep b' A' E' L W ∧
    StronglySorted lt E' ∧ A' ⊆ reqs ∧ dom A' = dom A ∪ list_to_set to_add ∧
    max_num_reqs b' = max_num_reqs b.
Proof.
  revert b A E. induction to_add as [|rid to_add IH]; intros b A E Hrep Hs Hsub Hnd Hcap Hall.
  { exists b, A, E. split; [done|]. split; [done|]. split; [done|]. split; [done|]. split; [set_solver|done]. }
  apply NoDup_cons in Hnd as [Hrid Hnd]. cbn [length] in Hcap.
  destruct (Hall rid ltac:(by left)) as (HA & st & Hst & Hid & HL & HW).
  assert (Hstep : ∃ o E1, add_target b o E E1 ∧ StronglySorted lt E1 ∧
    fill_batch reqs (rid :: to_add) b E =
      (b1 ← ib_add_request b st o; fill_batch reqs to_add b1 E1)).
  { cbn [fill_batch]. rewrite Hst. cbn [or_raise mbind result_bind]. destruct E as [|i E1].
    - exists None, []. split; [|done]. split; [done|]. split; [done|].
      rewrite (batch_rep_size _ _ _ _ _ Hrep). lia.
    - exists (Some i), E1. split; [done|]. split; [by apply StronglySorted_inv in Hs as [? _]|done]. }
  destruct Hstep as (o & E1 & Ht & Hs1 & ->).
  destruct (ib_add_spec b A E E1 L W st o Hrep Ht) as (b1 & -> & Hrep1 & _ & Hmax1);
    [by rewrite Hid|done|done|]. cbn [mbind result_bind]. rewrite Hid in Hrep1.
  assert (Hsub1 : <[rid := st]> A ⊆ reqs) by (by apply insert_subseteq_l).
  destruct (IH b1 (<[rid := st]> A) E1 Hrep1 Hs1 Hsub1 Hnd)
    as (b' & A' & E' & -> & Hrep' & Hs' & Hsub' & Hdom & Hmax).
  { rewrite map_size_insert_None by done. lia. }
  { intros r Hr. rewrite lookup_insert_ne by (intros ->; done). apply Hall. by right. }
  exists b', A', E'. split; [done|]. split; [done|]. split; [done|]. split; [done|].
  split; [|congruence]. rewrite Hdom, dom_insert_L. set_solver.
Qed.

Lemma sorted_strict (l : list nat) : NoDup l -> StronglySorted Nat.le l -> StronglySorted lt l.
Proof.
  intros Hnd Hs. induction Hs as [|x l Hs IH Hall]; [constructor|].
  apply NoDup_cons in Hnd as [Hx Hnd]. constructor; [by apply IH|].
  apply Forall_forall. intros y Hy. rewrite Forall_forall in Hall.
  specialize (Hall y Hy). destruct (decide (x = y)) as [->|]; [done|]. unfold Nat.le in Hall. lia.
Qed.

Lemma merge_sort_holes b A E L W :
  batch_rep b A E L W ->
  batch_rep b A (merge_sort Nat.le E) L W ∧ StronglySorted lt (merge_sort Nat.le E).
Proof.
  intros Hrep. assert (Hp : merge_sort Nat.le E ≡ₚ E) by apply merge_sort_Permutation. split.
  - by eapply batch_rep_perm.
  - apply sorted_strict; [rewrite Hp; apply (ho_nodup _ _ _ (proj2 Hrep))|].
    apply StronglySorted_merge_sort; [intros x y z; unfold Nat.le; lia|].
    intros x y. unfold Nat.le. lia.
Qed.

(** ** [_update_states] *)

(** The state between two steps. *)
Definition runner_inv (mr : ModelRunner) (A : gmap string CachedRequestState) (L W : nat) : Prop :=
  batch_rep (input_batch mr) A [] L W ∧ A ⊆ mr_requests mr ∧
  (∀ rid st, mr_requests mr !! rid = Some st -> st_req_id st = rid).

Definition output_ids (so : SchedulerOutput) : list string :=
  (nrd_req_id <$> scheduled_new_reqs so) ++ (crd_req_id <$> scheduled_cached_reqs so).

(** What the worker relies on of a scheduler output. *)
Record output_ok (mr : ModelRunner) (A : gmap string CachedRequestState) (L W : nat)
    (so : SchedulerOutput) : Prop := {
  oo_nodup : NoDup (output_ids so);
  oo_tokens : ∀ rid, rid ∈ output_ids so <-> is_Some (num_scheduled_tokens so !! rid);
  oo_count : (length (output_ids so) <= max_num_reqs (input_batch mr))%nat;
  oo_new : ∀ d, d ∈ scheduled_new_reqs so -> fits L W (new_state d) ∧
    (A !! nrd_req_id d = None ∨ nrd_req_id d ∈ so_finished_req_ids so);
  oo_cached : ∀ d, d ∈ scheduled_cached_reqs so -> (crd_req_id d ∉ so_finished_req_ids so) ∧
    ∃ st, mr_requests mr !! crd_req_id d = Some st ∧ fits L W (resume_state d st);
}.

(** What [_update_states] does to the cached states. *)
Record states_updated (mr mr' : ModelRunner) (so : SchedulerOutput) : Prop := {
  su_new : ∀ d, d ∈ scheduled_new_reqs so ->
    mr_requests mr' !! nrd_req_id d = Some (new_state d);
  su_cached : ∀ d, d ∈ scheduled_cached_reqs so ->
    mr_requests mr' !! crd_req_id d = resume_state d <$> mr_requests mr !! crd_req_id d;
  su_finished : ∀ rid, (rid ∉ output_ids so) -> rid ∈ so_finished_req_ids so ->
    mr_requests mr' !! rid = None ∧ mr_encoder_cache mr' !! rid = None;
  su_other : ∀ rid, (rid ∉ output_ids so) -> (rid ∉ so_finished_req_ids so) ->
    mr_requests mr' !! rid = mr_requests mr !! rid;
}.

Lemma free_encoder_outputs_none l c rid :
  c !! rid = None -> foldl free_encoder_output c l !! rid = None.
Proof.
  revert c. induction l as [|[r i] l IH]; intros c Hc; [done|]. cbn [foldl]. apply IH.
  unfold free_encoder_output. cbn [fst snd]. destruct (c !! r) as [m|] eqn:Hr; [|done].
  assert (r ≠ rid) by (intros ->; congruence).
  destruct (bool_decide (delete i m = ∅)); [by rewrite lookup_delete_ne|by rewrite lookup_insert_ne].
Qed.

(** The parameters of the runner do not change. *)
Definition same_config (mr mr' : ModelRunner) : Prop :=
  mr_block_size mr' = mr_block_size mr ∧
  mr_max_num_blocks_per_req mr' = mr_max_num_blocks_per_req mr ∧
  mr_max_model_len mr' = mr_max_model_len mr ∧ mr_max_num_tokens mr' = mr_max_num_tokens mr ∧
  is_multimodal_model mr' = is_multimodal_model mr ∧
  max_num_reqs (input_batch mr') = max_num_reqs (input_batch mr).

(** The requests that stay in the batch. *)
Definition kept (A : gmap string CachedRequestState) (so : SchedulerOutput) (rid : string) :
    option CachedRequestState :=
  if decide (rid ∈ so_finished_req_ids so) then None
  else if decide (is_Some (num_scheduled_tokens so !! rid)) then A !! rid else None.

Lemma drop_phase mr A L W so :
  batch_rep (input_batch mr) A [] L W ->
  ∃ b1 E1 b2 E2 A2,
    foldl remove_finished (input_batch mr, []) (elements (so_finished_req_ids so)) = (b1, E1) ∧
    for_each remove_unscheduled
      (elements (dom (ib_req_id_to_index b1) ∖ dom (num_scheduled_tokens so) : gset string))
      (b1, E1) = Ok (b2, E2) ∧
    batch_rep b2 A2 E2 L W ∧ max_num_reqs b2 = max_num_reqs (input_batch mr) ∧
    (∀ rid, A2 !! rid = kept A so rid).
Proof.
  intros Hrep. set (fin := so_finished_req_ids so).
  destruct (remove_finished_spec (elements fin) _ _ _ _ _ Hrep) as (b1 & E1 & E & Hrep1 & Hmax1).
  set (l := elements (dom (ib_req_id_to_index b1) ∖ dom (num_scheduled_tokens so) : gset string)).
  destruct (remove_unscheduled_spec l b1 _ _ _ _ Hrep1) as (b2 & E2 & E' & Hrep2 & Hmax2).
  { apply NoDup_elements. }
  { intros rid Hr. apply (bm_dom _ _ _ _ (proj1 Hrep1)). apply elem_of_dom. set_solver. }
  exists b1, E1, b2, E2, (without l (without (elements fin) A)).
  split; [done|]. split; [done|]. split; [done|]. split; [congruence|].
  assert (Hl : ∀ rid, rid ∈ l <-> is_Some (without (elements fin) A !! rid) ∧
    num_scheduled_tokens so !! rid = None).
  { intros rid. unfold l. rewrite elem_of_elements, elem_of_difference, elem_of_dom, not_elem_of_dom.
    by rewrite (bm_dom _ _ _ _ (proj1 Hrep1) rid). }
  intros rid. unfold kept. rewrite lookup_without. rewrite lookup_without in *.
  specialize (Hl rid). rewrite lookup_without in Hl.
  destruct (decide (rid ∈ elements fin)) as [Hf|Hf]; rewrite elem_of_elements in Hf.
  { rewrite (decide_True (P := rid ∈ so_finished_req_ids so)) by done. by destruct (decide (rid ∈ l)). }
  rewrite (decide_False (P := rid ∈ so_finished_req_ids so)) by done.
  destruct (decide (is_Some (num_scheduled_tokens so !! rid))) as [Hs|Hs].
  - rewrite decide_False; [done|]. rewrite Hl. intros [_ Hn]. rewrite Hn in Hs. by destruct Hs.
  - apply eq_None_not_Some in Hs. destruct (A !! rid) as [st|] eqn:HA.
    + rewrite decide_True; [done|]. apply Hl. split; [by eexists|done].
    + by destruct (decide (rid ∈ l)).
Qed.

Lemma pop_all_without {A} (ids : gset string) (m : gmap string A) :
  pop_all ids m = without (elements ids) m.
Proof. done. Qed.

(** The maps of cached states between the phases. *)
Lemma new_phase mr A L W so A2 :
  runner_inv mr A L W -> output_ok mr A L W so -> (∀ rid, A2 !! rid = kept A so rid) ->
  let reqs := foldl (fun m d => <[nrd_req_id d := new_state d]> m)
                (pop_all (so_finished_req_ids so) (mr_requests mr)) (scheduled_new_reqs so) in
  A2 ⊆ reqs ∧
  (∀ d, d ∈ scheduled_new_reqs so -> reqs !! nrd_req_id d = Some (new_state d)) ∧
  (∀ rid, (rid ∉ nrd_req_id <$> scheduled_new_reqs so) ->
    reqs !! rid = if decide (rid ∈ so_finished_req_ids so) then None else mr_requests mr !! rid) ∧
  (∀ rid st, reqs !! rid = Some st -> st_req_id st = rid).
Proof.
  intros (Hrep & Hsub & Hid) Hok HA2 reqs.
  assert (Hnd : NoDup (nrd_req_id <$> scheduled_new_reqs so)).
  { pose proof (oo_nodup _ _ _ _ _ Hok) as H. apply NoDup_app in H as [H _]. exact H. }
  assert (Hnew : ∀ d, d ∈ scheduled_new_reqs so -> reqs !! nrd_req_id d = Some (new_state d)).
  { intros d Hd. by apply (lookup_new_states (scheduled_new_reqs so) _ (nrd_req_id d) Hnd). }
  assert (Hold : ∀ rid, (rid ∉ nrd_req_id <$> scheduled_new_reqs so) ->
    reqs !! rid = if decide (rid ∈ so_finished_req_ids so) then None else mr_requests mr !! rid).
  { intros rid Hr. unfold reqs. rewrite (proj2 (lookup_new_states _ _ rid Hnd) Hr).
    rewrite pop_all_without, lookup_without.
    destruct (decide (rid ∈ elements _)) as [H|H]; rewrite elem_of_elements in H;
      [by rewrite decide_True|by rewrite decide_False]. }
  split; [|split; [done|split; [done|]]].
  - apply map_subseteq_spec. intros rid st. rewrite HA2. unfold kept.
    destruct (decide (rid ∈ so_finished_req_ids so)) as [Hf|Hf]; [done|].
    destruct (decide (is_Some _)); [|done]. intros HA. rewrite Hold.
    + rewrite decide_False by done. by eapply map_subseteq_spec.
    + intros (d & -> & Hd)%list_elem_of_fmap. destruct (oo_new _ _ _ _ _ Hok d Hd) as [_ [H|H]]; [congruence|done].
  - intros rid st Hst. destruct (decide (rid ∈ nrd_req_id <$> scheduled_new_reqs so)) as [Hin|Hin].
    + apply list_elem_of_fmap in Hin as (d & -> & Hd). rewrite (Hnew d Hd) in Hst. by simplify_eq.
    + rewrite (Hold rid Hin) in Hst. destruct (decide _); [done|]. by apply Hid.
Qed.

(** The requests to add, and the room for them. *)
Lemma to_add_spec mr A L W so b2 A2 E2 :
  runner_inv mr A L W -> output_ok mr A L W so -> batch_rep b2 A2 E2 L W ->
  (∀ rid, A2 !! rid = kept A so rid) ->
  let to_add := (nrd_req_id <$> scheduled_new_reqs so) ++
                absent b2 (crd_req_id <$> scheduled_cached_reqs so) in
  NoDup to_add ∧ (∀ rid, rid ∈ to_add -> A2 !! rid = None ∧ rid ∈ output_ids so) ∧
  (∀ rid, is_Some (A2 !! rid) ∨ rid ∈ to_add <-> is_Some (num_scheduled_tokens so !! rid)) ∧
  (size A2 + length to_add <= max_num_reqs (input_batch mr))%nat.
Proof.
  intros Hinv Hok Hrep HA2 to_add. destruct Hok.
  assert (Habs : ∀ rid, rid ∈ absent b2 (crd_req_id <$> scheduled_cached_reqs so) <->
    A2 !! rid = None ∧ rid ∈ crd_req_id <$> scheduled_cached_reqs so).
  { intros rid. unfold absent. rewrite list_elem_of_filter. f_equiv.
    rewrite !eq_None_not_Some. by rewrite (bm_dom _ _ _ _ (proj1 Hrep)). }
  assert (Hnew : ∀ rid, rid ∈ nrd_req_id <$> scheduled_new_reqs so -> A2 !! rid = None).
  { intros rid (d & -> & Hd)%list_elem_of_fmap. rewrite HA2. unfold kept.
    destruct (decide (_ ∈ _)) as [|Hf]; [done|]. destruct (decide (is_Some _)); [|done].
    by destruct (oo_new0 d Hd) as [_ [?|?]]. }
  assert (Hin : ∀ rid, rid ∈ to_add -> A2 !! rid = None ∧ rid ∈ output_ids so).
  { intros rid. unfold to_add, output_ids. rewrite !elem_of_app, Habs. intros [H|[H1 H2]];
      [split; [by apply Hnew|by left]|split; [done|by right]]. }
  assert (Hnd : NoDup to_add).
  { unfold to_add, output_ids in *. apply NoDup_app in oo_nodup0 as (H1 & H2 & H3).
    apply NoDup_app. split; [done|]. split; [|by apply NoDup_filter].
    intros rid Hr Ha. apply (H2 rid Hr). by apply Habs in Ha as [_ ?]. }
  assert (Hcov : ∀ rid, is_Some (A2 !! rid) ∨ rid ∈ to_add <-> is_Some (num_scheduled_tokens so !! rid)).
  { intros rid. rewrite <- oo_tokens0. split.
    - intros [Hs|Hr]; [|by apply Hin]. apply oo_tokens0. rewrite HA2 in Hs. unfold kept in Hs.
      destruct (decide (_ ∈ _)); [by destruct Hs|]. destruct (decide (is_Some _)); [done|by destruct Hs].
    - intros Hr. destruct (A2 !! rid) as [st|] eqn:Hst; [left; by eexists|right].
      unfold to_add, output_ids in *. rewrite elem_of_app in Hr. rewrite elem_of_app, Habs. tauto. }
  split; [done|]. split; [done|]. split; [done|].
  etrans; [|exact oo_count0]. rewrite <- size_dom. change (size (dom A2)) with (length (elements (dom A2))).
  rewrite <- length_app. apply submseteq_length, NoDup_submseteq.
  - apply NoDup_app. split; [apply NoDup_elements|]. split; [|done].
    intros rid Hr Ha. apply Hin in Ha as [Ha _]. rewrite elem_of_elements, elem_of_dom, Ha in Hr. by destruct Hr.
  - intros rid. rewrite elem_of_app, elem_of_elements, elem_of_dom. intros Hr.
    apply oo_tokens0, Hcov. tauto.
Qed.

Lemma update_states_spec mr A L W so :
  runner_inv mr A L W -> output_ok mr A L W so ->
  ∃ mr' changed A', _update_states mr so = Ok (mr', changed) ∧ runner_inv mr' A' L W ∧
    dom A' = dom (num_scheduled_tokens so) ∧ states_updated mr mr' so ∧ same_config mr mr'.
Proof.
  intros Hinv Hok. destruct (drop_phase mr A L W so (proj1 Hinv)) as (b1 & E1 & b2 & E2 & A2 & D1 & D2 & Hrep2 & Hmax2 & HA2).
  destruct (new_phase mr A L W so A2 Hinv Hok HA2) as (Hsub2 & Hnew & Hold & Hids).
  destruct (to_add_spec mr A L W so b2 A2 E2 Hinv Hok Hrep2 HA2) as (Hnd & Hadd & Hcov & Hcap).
  set (reqs2 := foldl _ _ (scheduled_new_reqs so)) in *.
  set (news := nrd_req_id <$> scheduled_new_reqs so) in *.
  set (cids := crd_req_id <$> scheduled_cached_reqs so) in *.
  pose proof (oo_nodup _ _ _ _ _ Hok) as Hnd0. unfold output_ids in Hnd0. fold news cids in Hnd0.
  apply NoDup_app in Hnd0 as (_ & Hdisj & Hndc).
  assert (Hc2 : ∀ d, d ∈ scheduled_cached_reqs so -> reqs2 !! crd_req_id d = mr_requests mr !! crd_req_id d).
  { intros d Hd. rewrite Hold, decide_False; [done|apply (oo_cached _ _ _ _ _ Hok d Hd)|].
    intros Hn. apply (Hdisj _ Hn). unfold cids. by apply list_elem_of_fmap_2. }
  destruct (update_cached_spec (scheduled_cached_reqs so) reqs2 b2 A2 E2 L W news Hrep2 Hsub2 Hndc)
    as (reqs3 & b3 & A3 & U & Hrep3 & Hsub3 & Hdom3 & Hx3 & Hmax3 & Hin3 & Hout3).
  { intros d Hd. rewrite (Hc2 d Hd). destruct (oo_cached _ _ _ _ _ Hok d Hd) as (_ & st & ? & _ & ?). eauto. }
  fold cids in U, Hout3. set (to_add := news ++ absent b2 cids) in *.
  destruct (merge_sort_holes _ _ _ _ _ Hrep3) as [Hrep3' Hsort].
  assert (Hid3 : ∀ rid st, reqs3 !! rid = Some st -> st_req_id st = rid).
  { intros rid st Hst. destruct (decide (rid ∈ cids)) as [Hin|Hn].
    - apply list_elem_of_fmap in Hin as (d & -> & Hd). rewrite (Hin3 d Hd) in Hst.
      destruct (reqs2 !! crd_req_id d) as [st0|] eqn:Hst0; [|done]. simplify_eq/=. by apply Hids.
    - rewrite (Hout3 rid Hn) in Hst. by apply Hids. }
  assert (Hnew3 : ∀ d, d ∈ scheduled_new_reqs so -> reqs3 !! nrd_req_id d = Some (new_state d)).
  { intros d Hd. rewrite Hout3; [by apply Hnew|]. apply Hdisj. unfold news. by apply list_elem_of_fmap_2. }
  destruct (fill_batch_spec reqs3 to_add b3 A3 (merge_sort Nat.le E2) L W Hrep3' Hsort Hsub3 Hnd)
    as (b4 & A4 & E4 & F & Hrep4 & Hs4 & Hsub4 & Hdom4 & Hmax4).
  { rewrite <- size_dom, Hdom3, size_dom. congruence. }
  { intros rid Hr. destruct (Hadd rid Hr) as [Hn Ho]. split.
    { apply not_elem_of_dom. rewrite Hdom3. by apply not_elem_of_dom. }
    unfold output_ids in Ho. apply elem_of_app in Ho as [(d & -> & Hd)%list_elem_of_fmap|(d & -> & Hd)%list_elem_of_fmap].
    - exists (new_state d). split; [by apply Hnew3|]. split; [done|]. by apply (oo_new _ _ _ _ _ Hok).
    - destruct (oo_cached _ _ _ _ _ Hok d Hd) as (_ & st & Hst & Hfit). exists (resume_state d st).
      rewrite (Hin3 d Hd), (Hc2 d Hd), Hst. split; [done|]. split; [|done].
      apply (Hid3 (crd_req_id d)). by rewrite (Hin3 d Hd), (Hc2 d Hd), Hst. }
  assert (Hcond : ∃ b5, (if bool_decide (E4 = []) then Ok b4 else condense b4 (reverse E4)) = Ok b5 ∧
    batch_rep b5 A4 [] L W ∧ max_num_reqs b5 = max_num_reqs b4).
  { destruct (decide (E4 = [])) as [->|Hne]; [rewrite bool_decide_eq_true_2 by done; eauto|].
    rewrite bool_decide_eq_false_2 by done.
    destruct (condense_spec b4 A4 (reverse E4) L W) as (b5 & ? & ? & ? & _); [|by rewrite reverse_involutive|eauto].
    eapply batch_rep_perm; [|exact Hrep4]. symmetry. apply reverse_Permutation. }
  destruct Hcond as (b5 & C & Hrep5 & Hmax5). unfold _update_states. rewrite D1. cbv beta iota zeta.
  rewrite D2. cbn [mbind result_bind]. fold reqs2 news. rewrite U. cbn [mbind result_bind].
  rewrite F. cbn [mbind result_bind]. rewrite C. cbn [mbind result_bind].
  eexists _, _, A4. split; [done|]. split; [done|]. split; [|split].
  - apply set_eq. intros rid. rewrite Hdom4, Hdom3, elem_of_union, !elem_of_dom, <- Hcov.
    by rewrite elem_of_list_to_set.
  - split; cbn [with_state mr_requests mr_encoder_cache].
    + done.
    + intros d Hd. by rewrite (Hin3 d Hd), (Hc2 d Hd).
    + intros rid Hno Hf. unfold output_ids in Hno. fold news cids in Hno. rewrite not_elem_of_app in Hno.
      rewrite (Hout3 rid) by tauto. rewrite (Hold rid) by tauto. rewrite decide_True by done.
      split; [done|]. apply free_encoder_outputs_none. rewrite pop_all_without, lookup_without.
      by rewrite decide_True by by apply elem_of_elements.
    + intros rid Hno Hf. unfold output_ids in Hno. fold news cids in Hno. rewrite not_elem_of_app in Hno.
      rewrite (Hout3 rid) by tauto. rewrite (Hold rid) by tauto. by rewrite decide_False.
  - split_and!; try done. cbn [with_state input_batch]. congruence.
Qed.
