(* ===== verification/PrepareInputs.v ===== *)
(** * The index arithmetic of [_prepare_inputs] against a per-request reference

    [_prepare_inputs] computes the positions, input ids and cache slots of all
    scheduled tokens with a handful of whole-array operations (repeat, cumulative
    sums, flattened gathers).  Here they are shown equal to the obvious
    per-request definitions, concatenated in row order. *)

From stdpp Require Import base tactics list gmap sets strings sorting.
From Stdlib Require Import ZArith QArith Lia.
From S2P Require Import Prelude.
From S2P Require Import SamplingParams.
From S2P Require Import Request.
From S2P Require Import Scheduler.
From S2P Require Import SchedulerLoops.
From S2P Require Import InputBatch.
From S2P Require Import InputBatchInv.
From S2P Require Import ModelRunner.
From S2P Require Import RunnerInv.

Local Open Scope Z_scope.

(** ** The reference *)

(** [0, 1, ..., n - 1] *)
Definition zseq (n : Z) : list Z := Z.of_nat <$> seq 0 (Z.to_nat n).

(** The scheduled tokens of a request: [c] of them, from the first uncomputed one. *)
Definition positions_of (e : CachedRequestState * Z) : list Z :=
  (fun k => st_num_computed_tokens e.1 + k) <$> zseq e.2.
Definition all_tokens (st : CachedRequestState) : list Z :=
  st_prompt_token_ids st ++ st_output_token_ids st.
Definition tokens_of (e : CachedRequestState * Z) : list Z :=
  (fun p => all_tokens e.1 !!! Z.to_nat p) <$> positions_of e.
(** The cache slot of a position: its block of the request, then the offset. *)
Definition slots_of (bs : Z) (e : CachedRequestState * Z) : list Z :=
  (fun p => Z.of_nat (st_block_ids e.1 !!! Z.to_nat (p / bs)) * bs + p `mod` bs) <$>
    positions_of e.

(** The requests of the batch in row order, with their scheduled tokens. *)
Definition batch_ids (b : InputBatch) : list string := omap id (take (ib_num_reqs b) (req_ids b)).
Definition plan (mr : ModelRunner) (so : SchedulerOutput) : list (CachedRequestState * Z) :=
  omap (fun rid => st ← mr_requests mr !! rid; c ← num_scheduled_tokens so !! rid; Some (st, c))
    (batch_ids (input_batch mr)).

Record prepared_ok (bs : Z) (P : list (CachedRequestState * Z)) (pi : PreparedInputs) : Prop := {
  po_positions : pi_positions pi = concat (positions_of <$> P);
  po_tokens : pi_input_ids pi = concat (tokens_of <$> P);
  po_slots : pi_slot_mapping pi = concat (slots_of bs <$> P);
  po_seq_lens : pi_seq_lens pi = (fun e => st_num_computed_tokens e.1 + e.2) <$> P;
  po_starts : pi_query_start_loc pi = 0 :: np_cumsum P.*2;
  (* the logits of row [i] are taken at the last scheduled token of its request *)
  po_logits : ∀ i e, P !! i = Some e -> ∃ k, pi_logits_indices pi !! i = Some (Z.of_nat k) ∧
    pi_positions pi !! k = Some (st_num_computed_tokens e.1 + e.2 - 1);
  (* the device's block table starts with the blocks of the request *)
  po_table : ∀ i e, P !! i = Some e -> ∃ row, pi_block_table pi !! i = Some row ∧
    take (length (st_block_ids e.1)) row = st_block_ids e.1;
  (* whole blocks, none of them past the computed tokens of a request *)
  po_prefix : (bs | pi_common_prefix_len pi) ∧
    ∀ e, e ∈ P -> pi_common_prefix_len pi <= st_num_computed_tokens e.1;
}.

(** What [_prepare_inputs] relies on for one request. *)
Record entry_ok (bs : Z) (e : CachedRequestState * Z) : Prop := {
  en_pos : 0 < e.2;
  en_computed : 0 <= st_num_computed_tokens e.1;
  en_tokens : st_num_computed_tokens e.1 + e.2 <= Z.of_nat (st_num_tokens e.1);
  en_blocks : st_num_computed_tokens e.1 + e.2 <= len (st_block_ids e.1) * bs;
  (* the slots of its blocks are int32 values *)
  en_slots : Forall (fun n : nat => (Z.of_nat n + 1) * bs <= 2 ^ 31) (st_block_ids e.1);
}.

(** The flattened token and block tables have indices that fit into an int32: [R] rows,
    of [L] tokens and of [W] blocks. *)
Definition int32_tables (R L W : nat) : Prop :=
  Z.of_nat R * Z.of_nat L < 2 ^ 31 ∧ Z.of_nat R * Z.of_nat W < 2 ^ 31.

(** ** int32 *)

Lemma int32_id z : - 2 ^ 31 <= z < 2 ^ 31 -> int32 z = z.
Proof. intros Hz. unfold int32. rewrite Z.mod_small; lia. Qed.

Lemma int32_ids (l : list Z) : (∀ z, z ∈ l -> - 2 ^ 31 <= z < 2 ^ 31) -> int32 <$> l = l.
Proof.
  induction l as [|z l IH]; intros H; [done|]. rewrite fmap_cons. f_equal; [apply int32_id, H; by left|].
  apply IH. intros x Hx. apply H. by right.
Qed.

(** A cell of [np_scale] whose product fits is the product. *)
Lemma np_scale_cell x k : 0 <= x * k < 2 ^ 31 -> (if int32 k =? k then int32 (x * k) else x * k) = x * k.
Proof. intros H. rewrite (int32_id (x * k)) by lia. by destruct (_ =? _). Qed.

(** With 1024 rows of 2^22 tokens the indices of row 512 wrap to negative numbers. *)
Lemma token_index_wraps : np_scale (2 ^ 22) [511; 512] = [511 * 2 ^ 22; - 2 ^ 31].
Proof. reflexivity. Qed.

Lemma cumsum_bounds a l z :
  Forall (fun c => 0 <= c) l -> z ∈ cumsum_from a l -> a <= z <= a + foldr Z.add 0 l.
Proof.
  intros Hl. revert a. induction Hl as [|c l Hc Hl IH]; intros a; cbn [cumsum_from foldr]; [by intros ?%elem_of_nil|].
  assert (0 <= foldr Z.add 0 l) by (clear -Hl; induction Hl; cbn; lia).
  intros [->|Hz]%elem_of_cons; [lia|]. specialize (IH _ Hz). lia.
Qed.

(** ** Arrays laid out row by row *)

Lemma length_zseq n : length (zseq n) = Z.to_nat n.
Proof. unfold zseq. by rewrite length_fmap, length_seq. Qed.

Lemma elem_of_zseq k n : k ∈ zseq n <-> 0 <= k < n.
Proof.
  unfold zseq. rewrite list_elem_of_fmap. split.
  - intros (i & -> & Hi%elem_of_seq). lia.
  - intros Hk. exists (Z.to_nat k). rewrite elem_of_seq. lia.
Qed.

Section layout.
Context {Q : Type} (cnt : Q -> Z).

(** [cnt q] entries for every row [q], the [k]-th being [F q k]. *)
Definition layout {B} (F : Q -> Z -> B) (l : list Q) : list B :=
  concat ((fun q => F q <$> zseq (cnt q)) <$> l).

Lemma layout_cons {B} (F : Q -> Z -> B) q l :
  layout F (q :: l) = (F q <$> zseq (cnt q)) ++ layout F l.
Proof. done. Qed.

Lemma layout_ext {B} (F G : Q -> Z -> B) l :
  (∀ q k, q ∈ l -> 0 <= k < cnt q -> F q k = G q k) -> layout F l = layout G l.
Proof.
  induction l as [|q l IH]; intros H; [done|]. rewrite !layout_cons. f_equal.
  - apply list_fmap_ext. intros i k Hk. apply H; [by left|].
    apply elem_of_zseq. by eapply list_elem_of_lookup_2.
  - apply IH. intros q' k Hq. apply H. by right.
Qed.

Lemma layout_fmap {B C} (h : B -> C) F l : h <$> layout F l = layout (fun q k => h (F q k)) l.
Proof.
  induction l as [|q l IH]; [done|]. rewrite !layout_cons, fmap_app, IH.
  f_equal. by rewrite <- list_fmap_compose.
Qed.

Lemma layout_length {B} (F : Q -> Z -> B) l :
  length (layout F l) = sum_list (Z.to_nat <$> (cnt <$> l)).
Proof.
  induction l as [|q l IH]; [done|]. rewrite layout_cons, length_app, length_fmap, length_zseq, IH. done.
Qed.

Lemma layout_zip {B C D} (f : B -> C -> D) F G l :
  zip_with f (layout F l) (layout G l) = layout (fun q k => f (F q k) (G q k)) l.
Proof.
  induction l as [|q l IH]; [done|]. rewrite !layout_cons.
  rewrite zip_with_app by by rewrite !length_fmap. rewrite IH. f_equal.
  by rewrite zip_with_fmap_l, zip_with_fmap_r, zip_with_diag.
Qed.

Lemma layout_np_zip f F G l :
  np_zip f (layout F l) (layout G l) = Ok (layout (fun q k => f (F q k) (G q k)) l).
Proof. unfold np_zip. rewrite decide_True by by rewrite !layout_length. by rewrite layout_zip. Qed.

Lemma layout_repeat {B} (g : Q -> B) l : np_repeat (g <$> l) (cnt <$> l) = layout (fun q _ => g q) l.
Proof.
  induction l as [|q l IH]; [done|]. rewrite layout_cons. unfold np_repeat in *.
  rewrite !fmap_cons. cbn [zip_with concat]. rewrite IH. f_equal.
  rewrite <- length_zseq. generalize (zseq (cnt q)). intros z. by rewrite <- const_fmap with (f := fun _ => g q).
Qed.

Lemma np_take_app {A} (a : list A) i1 i2 r1 r2 :
  np_take a i1 = Ok r1 -> np_take a i2 = Ok r2 -> np_take a (i1 ++ i2) = Ok (r1 ++ r2).
Proof.
  revert r1. induction i1 as [|i i1 IH]; intros r1 H1 H2; cbn [np_take app] in *; [by simplify_eq|].
  destruct (np_get a i) as [x|]; [|done]. cbn [or_raise mbind result_bind] in *.
  destruct (np_take a i1) as [r|] eqn:E; [|done]. cbn [mbind result_bind] in H1. simplify_eq.
  by rewrite (IH r).
Qed.

Lemma np_take_fmap {A C} (a : list A) (f : C -> Z) (v : C -> A) l :
  (∀ p, p ∈ l -> 0 <= f p ∧ a !! Z.to_nat (f p) = Some (v p)) -> np_take a (f <$> l) = Ok (v <$> l).
Proof.
  induction l as [|p l IH]; intros Hl; [done|]. rewrite !fmap_cons. cbn [np_take].
  destruct (Hl p ltac:(by left)) as [H1 H2]. unfold np_get. rewrite (proj2 (Z.leb_le 0 (f p)) H1), H2.
  cbn [or_raise mbind result_bind]. rewrite IH; [done|]. intros q Hq. apply Hl. by right.
Qed.

Lemma layout_take {B} (a : list B) F V l :
  (∀ q k, q ∈ l -> 0 <= k < cnt q -> 0 <= F q k ∧ a !! Z.to_nat (F q k) = Some (V q k)) ->
  np_take a (layout F l) = Ok (layout V l).
Proof.
  induction l as [|q l IH]; intros H; [done|]. rewrite !layout_cons. apply np_take_app.
  - apply np_take_fmap. intros k Hk%elem_of_zseq. apply H; [by left|done].
  - apply IH. intros q' k Hq. apply H. by right.
Qed.

Lemma index_select_take {A} (a : list A) idx r :
  (∀ i, i ∈ idx -> 0 <= i) -> np_take a idx = Ok r -> index_select a idx = Ok r.
Proof.
  revert r. induction idx as [|i idx IH]; intros r Hp H; [done|]. cbn [np_take index_select] in *.
  assert (0 <= i) as Hi by (apply Hp; by left). unfold np_get in H.
  rewrite (proj2 (Z.leb_le 0 i) Hi) in *. destruct (a !! Z.to_nat i); [|done].
  cbn [or_raise mbind result_bind] in *. destruct (np_take a idx) as [r'|]; [|done].
  rewrite (IH r') by (done || intros j Hj; apply Hp; by right). done.
Qed.

Lemma layout_elem {B} (F : Q -> Z -> B) l x :
  x ∈ layout F l -> ∃ q k, q ∈ l ∧ 0 <= k < cnt q ∧ x = F q k.
Proof.
  induction l as [|q l IH]; [by intros ?%elem_of_nil|]. rewrite layout_cons, elem_of_app.
  intros [(k & -> & Hk%elem_of_zseq)%list_elem_of_fmap|(q' & k & Hq & Hk & ->)%IH].
  - exists q, k. split; [by left|done].
  - exists q', k. split; [by right|done].
Qed.

Lemma layout_select {B} (a : list B) F V l :
  (∀ q k, q ∈ l -> 0 <= k < cnt q -> 0 <= F q k ∧ a !! Z.to_nat (F q k) = Some (V q k)) ->
  index_select a (layout F l) = Ok (layout V l).
Proof.
  intros H. apply index_select_take; [|by apply layout_take].
  intros i (q & k & Hq & Hk & ->)%layout_elem. by apply H.
Qed.
End layout.

(** A gather from a flattened matrix. *)
Lemma concat_lookup {A} (rows : list (list A)) w i p row :
  (∀ r, r ∈ rows -> length r = w) -> rows !! i = Some row -> (p < w)%nat ->
  concat rows !! (i * w + p)%nat = row !! p.
Proof.
  revert i. induction rows as [|r rows IH]; intros i Hl Hi Hp; [done|]. cbn [concat].
  assert (length r = w) as Hr by (apply Hl; by left). destruct i as [|i].
  - simplify_eq/=. rewrite lookup_app_l by lia. done.
  - rewrite lookup_app_r by (simpl; lia). rewrite Hr. simpl in Hi.
    replace (S i * w + p - w)%nat with (i * w + p)%nat by lia. apply IH; [|done|done].
    intros r' Hr'. apply Hl. by right.
Qed.

(** ** The batched [arange] *)

Lemma zip_sub_seq a n : zip_with Z.sub (Z.of_nat <$> seq a n) (replicate n (Z.of_nat a)) = Z.of_nat <$> seq 0 n.
Proof.
  apply list_eq. intros i. rewrite lookup_zip_with, !list_lookup_fmap.
  destruct (decide (i < n)%nat).
  - rewrite !lookup_seq_lt by done. rewrite lookup_replicate_2 by done. simpl. f_equal. lia.
  - rewrite !lookup_seq_ge by lia. done.
Qed.

(** [arange(total) - repeat(cumsum(counts) - counts, counts)] is the concatenation
    of [arange(c)] over the counts. *)
Lemma batched_arange counts a :
  Forall (fun c => 0 <= c) counts ->
  zip_with Z.sub (Z.of_nat <$> seq a (sum_list (Z.to_nat <$> counts)))
    (np_repeat (zip_with Z.sub (cumsum_from (Z.of_nat a) counts) counts) counts) =
  concat (zseq <$> counts).
Proof.
  revert a. induction counts as [|c counts IH]; intros a Hall; [done|].
  apply Forall_cons in Hall as [Hc Hall]. cbn [cumsum_from zip_with fmap list_fmap sum_list concat].
  unfold np_repeat. cbn [zip_with concat]. fold (@np_repeat Z).
  change (sum_list (Z.to_nat c :: (Z.to_nat <$> counts))) with (Z.to_nat c + sum_list (Z.to_nat <$> counts))%nat.
  rewrite seq_app, fmap_app. replace (Z.of_nat a + c - c) with (Z.of_nat a) by lia.
  rewrite zip_with_app by (rewrite length_fmap, length_seq, length_replicate; done).
  rewrite zip_sub_seq. unfold zseq at 1. f_equal.
  replace (Z.of_nat a + c) with (Z.of_nat (a + Z.to_nat c)) by lia. by apply IH.
Qed.

Lemma length_np_repeat {A} (l : list A) counts :
  length l = length counts -> length (np_repeat l counts) = sum_list (Z.to_nat <$> counts).
Proof.
  revert counts. induction l as [|x l IH]; intros [|c counts] Hl; try done. unfold np_repeat.
  cbn [zip_with concat fmap list_fmap]. rewrite length_app, length_replicate.
  change (sum_list (Z.to_nat c :: (Z.to_nat <$> counts))) with (Z.to_nat c + sum_list (Z.to_nat <$> counts))%nat.
  f_equal. apply IH. by injection Hl.
Qed.

Lemma length_cumsum a l : length (cumsum_from a l) = length l.
Proof. revert a. induction l as [|x l IH]; intros a; [done|]. simpl. by rewrite IH. Qed.

(** The same with the rows as a layout. *)
Lemma layout_arange {Q} (cnt : Q -> Z) l :
  (∀ q, q ∈ l -> 0 <= cnt q) ->
  np_zip Z.sub (Z.of_nat <$> seq 0 (sum_list (Z.to_nat <$> (cnt <$> l))))
    (np_repeat (zip_with Z.sub (np_cumsum (cnt <$> l)) (cnt <$> l)) (cnt <$> l)) =
  Ok (layout cnt (fun _ k => k) l).
Proof.
  intros Hl. assert (Hall : Forall (fun c => 0 <= c) (cnt <$> l)).
  { apply Forall_fmap, Forall_forall. exact Hl. }
  pose proof (batched_arange (cnt <$> l) 0 Hall) as E. unfold np_cumsum, np_zip. rewrite decide_True.
  - f_equal. etrans; [exact E|]. unfold layout. f_equal. rewrite <- list_fmap_compose.
    apply list_fmap_ext. intros i q _. simpl. symmetry. apply list_fmap_id.
  - rewrite length_fmap, length_seq.
    rewrite length_np_repeat; [done|]. rewrite length_zip_with, length_cumsum. lia.
Qed.

(** The cumulative counts point behind the last entry of each row. *)
Lemma layout_last {Q B} (cnt : Q -> Z) (F : Q -> Z -> B) l i q :
  (∀ q, q ∈ l -> 0 < cnt q) -> l !! i = Some q ->
  ∃ k : nat, (∀ a, cumsum_from a (cnt <$> l) !! i = Some (a + Z.of_nat k + 1)) ∧
    layout cnt F l !! k = Some (F q (cnt q - 1)).
Proof.
  revert i. induction l as [|x l IH]; intros i Hpos Hi; [done|].
  assert (0 < cnt x) as Hx by (apply Hpos; by left). destruct i as [|i].
  - simpl in Hi. simplify_eq. exists (Z.to_nat (cnt q - 1)). split.
    + intros a. rewrite fmap_cons. cbn [cumsum_from]. simpl. f_equal. lia.
    + rewrite layout_cons, lookup_app_l by (rewrite length_fmap, length_zseq; lia).
      rewrite list_lookup_fmap. unfold zseq. rewrite list_lookup_fmap, lookup_seq_lt by lia.
      simpl. do 2 f_equal. lia.
  - destruct (IH i) as (k & H1 & H2); [intros y Hy; apply Hpos; by right|done|].
    exists (Z.to_nat (cnt x) + k)%nat. split.
    + intros a. rewrite fmap_cons. cbn [cumsum_from]. simpl. rewrite H1. f_equal. lia.
    + rewrite layout_cons, lookup_app_r by (rewrite length_fmap, length_zseq; lia).
      rewrite length_fmap, length_zseq. by replace (Z.to_nat (cnt x) + k - Z.to_nat (cnt x))%nat with k by lia.
Qed.

(** ** The rows of a dense batch *)

#[export] Instance CachedRequestState_inhabited : Inhabited CachedRequestState :=
  populate (mkReqState "" [] None [] [] (plain_sampling None) None [] 0 []).

Lemma all_some_omap {A} (l : list (option A)) : Forall is_Some l -> l = Some <$> omap id l.
Proof.
  induction 1 as [|o l [x ->] Hl IH]; [done|]. cbn [omap list_omap id]. rewrite fmap_cons. by f_equal.
Qed.

Lemma batch_ids_spec b A L W :
  batch_rep b A [] L W ->
  take (ib_num_reqs b) (req_ids b) = Some <$> batch_ids b ∧ length (batch_ids b) = size A ∧
  NoDup (batch_ids b) ∧
  (∀ i rid, batch_ids b !! i = Some rid <-> ib_req_id_to_index b !! rid = Some i) ∧
  (∀ rid, rid ∈ batch_ids b <-> is_Some (A !! rid)).
Proof.
  intros Hrep. pose proof (batch_rep_size _ _ _ _ _ Hrep) as Hsz. destruct Hrep as [Hm Hh].
  assert (Hocc : ∀ i, occupied b i <-> (i < size A)%nat).
  { intros i. rewrite (ho_fill _ _ _ Hh). cbn [length]. rewrite Nat.add_0_r.
    split; [tauto|]. intros ?. split; [done|apply not_elem_of_nil]. }
  assert (Heq : take (ib_num_reqs b) (req_ids b) = Some <$> batch_ids b).
  { apply all_some_omap, Forall_lookup. intros i o Hi. apply lookup_take_Some in Hi as [Hi Hlt].
    rewrite Hsz in Hlt. apply Hocc in Hlt as [rid Hr]. rewrite Hr in Hi. simplify_eq. by eexists. }
  assert (Hlook : ∀ i rid, batch_ids b !! i = Some rid <-> ib_req_id_to_index b !! rid = Some i).
  { intros i rid. rewrite (bm_index _ _ _ _ Hm).
    assert (batch_ids b !! i = Some rid <-> take (ib_num_reqs b) (req_ids b) !! i = Some (Some rid)) as ->.
    { rewrite Heq, list_lookup_fmap. destruct (batch_ids b !! i); simpl; split; intros; by simplify_eq. }
    rewrite lookup_take_Some, Hsz. split; [tauto|]. intros Hr. split; [done|]. apply Hocc. by exists rid. }
  split; [done|]. split; [|split; [|split; [done|]]].
  - apply (f_equal length) in Heq. rewrite length_fmap, length_take, Hsz in Heq. rewrite <- Heq.
    pose proof (ho_cap _ _ _ Hh). rewrite (bs_ids _ _ _ (bm_shape _ _ _ _ Hm)). simpl in *. lia.
  - apply NoDup_alt. intros i j rid Hi Hj. apply Hlook in Hi, Hj. congruence.
  - intros rid. rewrite list_elem_of_lookup, (bm_dom _ _ _ _ Hm).
    split; intros [i Hi]; exists i; by apply Hlook.
Qed.

Lemma omap_total {A B} (f : A -> option B) (g : A -> B) (l : list A) :
  (∀ x, x ∈ l -> f x = Some (g x)) -> omap f l = g <$> l.
Proof.
  induction l as [|x l IH]; intros H; [done|]. cbn [omap list_omap]. rewrite fmap_cons.
  rewrite (H x) by by left. f_equal. apply IH. intros y Hy. apply H. by right.
Qed.

(** The plan lists, row by row, the state the row agrees with and its tokens. *)
Lemma plan_spec mr A L W so :
  runner_inv mr A L W -> dom A = dom (num_scheduled_tokens so) ->
  let b := input_batch mr in
  length (plan mr so) = ib_num_reqs b ∧
  (∀ i e, plan mr so !! i = Some e -> row_agrees e.1 b i) ∧
  scheduled_counts (take (ib_num_reqs b) (req_ids b)) (num_scheduled_tokens so) = Ok (plan mr so).*2 ∧
  (∀ i e, plan mr so !! i = Some e -> ∃ rid, batch_ids b !! i = Some rid ∧
    mr_requests mr !! rid = Some e.1 ∧ num_scheduled_tokens so !! rid = Some e.2).
Proof.
  intros (Hrep & Hsub & _) Hdom b.
  destruct (batch_ids_spec b A L W Hrep) as (Heq & Hlen & Hnd & Hlook & Hin).
  set (g := fun rid => (mr_requests mr !!! rid, num_scheduled_tokens so !!! rid)).
  assert (Hg : ∀ rid, rid ∈ batch_ids b -> A !! rid = Some (g rid).1 ∧
    mr_requests mr !! rid = Some (g rid).1 ∧ num_scheduled_tokens so !! rid = Some (g rid).2).
  { intros rid Hr. apply Hin in Hr as [st Hst].
    assert (mr_requests mr !! rid = Some st) as H1 by (by eapply map_subseteq_spec).
    assert (rid ∈ dom A) as H2 by (apply elem_of_dom; by eexists).
    rewrite Hdom in H2. apply elem_of_dom in H2 as [c Hc].
    unfold g. cbn [fst snd]. by rewrite (lookup_total_correct _ _ _ H1), (lookup_total_correct _ _ _ Hc). }
  assert (Hplan : plan mr so = g <$> batch_ids b).
  { apply omap_total. intros rid Hr. destruct (Hg rid Hr) as (_ & -> & ->). done. }
  rewrite Hplan. split; [|split; [|split]].
  - rewrite length_fmap, Hlen. symmetry. by eapply batch_rep_size.
  - intros i e He. rewrite list_lookup_fmap in He. destruct (batch_ids b !! i) as [rid|] eqn:Hi; [|done].
    simplify_eq/=. destruct (Hg rid) as (HA & _); [by eapply list_elem_of_lookup_2|].
    destruct Hrep as [Hm _]. apply Hlook in Hi. by apply (bm_rows _ _ _ _ Hm rid i).
  - rewrite Heq. clear -Hg. induction (batch_ids b) as [|rid l IH]; [done|].
    rewrite !fmap_cons. cbn [scheduled_counts or_raise mbind result_bind].
    destruct (Hg rid ltac:(by left)) as (_ & _ & ->). cbn [or_raise mbind result_bind].
    rewrite IH by (intros r Hr; apply Hg; by right). done.
  - intros i e He. rewrite list_lookup_fmap in He. destruct (batch_ids b !! i) as [rid|] eqn:Hi; [|done].
    simplify_eq/=. exists rid. destruct (Hg rid) as (_ & ? & ?); [by eapply list_elem_of_lookup_2|]. done.
Qed.

(** ** The total *)

Lemma sum_tokens_ids ids (m : gmap string Z) :
  NoDup ids -> (∀ rid, rid ∈ ids <-> is_Some (m !! rid)) ->
  sum_tokens m = foldr Z.add 0 ((fun rid => m !!! rid) <$> ids).
Proof.
  revert m. induction ids as [|rid ids IH]; intros m Hnd Hin.
  { assert (m = ∅) as ->; [|done]. apply map_empty. intros rid. apply eq_None_not_Some.
    rewrite <- Hin. apply not_elem_of_nil. }
  apply NoDup_cons in Hnd as [Hr Hnd]. destruct (proj1 (Hin rid)) as [c Hc]; [by left|].
  rewrite <- (insert_delete_id m rid c Hc). rewrite sum_tokens_insert by apply lookup_delete_eq.
  rewrite fmap_cons. cbn [foldr]. rewrite lookup_total_insert_eq. f_equal.
  rewrite (IH (delete rid m) Hnd).
  - f_equal. apply list_fmap_ext. intros i r Hi.
    assert (r ≠ rid) by (intros ->; apply Hr; by eapply list_elem_of_lookup_2).
    rewrite lookup_total_insert_ne by done. done.
  - intros r. destruct (decide (r = rid)) as [->|Hne].
    + rewrite lookup_delete_eq. split; [done|by intros [? ?]].
    + rewrite lookup_delete_ne by done. rewrite <- Hin, elem_of_cons. tauto.
Qed.

(** ** The main lemma *)

Section prepare.
Context (mr : ModelRunner) (A : gmap string CachedRequestState) (L W : nat) (so : SchedulerOutput).
Context (Hinv : runner_inv mr A L W) (Hdom : dom A = dom (num_scheduled_tokens so)).
Context (Hne : num_scheduled_tokens so ≠ ∅).
Context (Hbs : 0 < mr_block_size mr) (HW : mr_max_num_blocks_per_req mr = Z.of_nat W).
Context (Htotal : total_num_scheduled_tokens so = sum_tokens (num_scheduled_tokens so)).
Context (Hmax : total_num_scheduled_tokens so <= mr_max_num_tokens mr).
Context (Hok : Forall (entry_ok (mr_block_size mr)) (plan mr so)).
Context (Hfit : int32_tables (max_num_reqs (input_batch mr)) L W).

Let b := input_batch mr.
Let P := plan mr so.
Let n := ib_num_reqs b.

(** The rows with their indices. *)
Let Q : list (nat * (CachedRequestState * Z)) := zip (seq 0 n) P.
Let cnt (q : nat * (CachedRequestState * Z)) : Z := q.2.2.

Lemma rows_snd : Q.*2 = P.
Proof. apply snd_zip. unfold P, n, b. by rewrite length_seq, (proj1 (plan_spec mr A L W so Hinv Hdom)). Qed.
Lemma rows_fst : Q.*1 = seq 0 n.
Proof. apply fst_zip. unfold P, n, b. by rewrite length_seq, (proj1 (plan_spec mr A L W so Hinv Hdom)). Qed.

Lemma rows_elem i e : (i, e) ∈ Q -> P !! i = Some e ∧ row_agrees e.1 b i ∧ entry_ok (mr_block_size mr) e.
Proof.
  intros (j & Hj)%list_elem_of_lookup. apply lookup_zip_Some in Hj as [Hi He].
  apply lookup_seq in Hi as [-> _]. split; [done|]. split.
  - destruct (plan_spec mr A L W so Hinv Hdom) as (_ & H & _). by apply H.
  - by eapply Forall_lookup_1 in Hok; [|exact He].
Qed.

(** The sizes of a row. *)
Lemma row_bounds i e : (i, e) ∈ Q ->
  0 <= Z.of_nat i * Z.of_nat L < 2 ^ 31 ∧ 0 <= Z.of_nat i * Z.of_nat W < 2 ^ 31 ∧ Z.of_nat L < 2 ^ 31 ∧
  0 <= st_num_computed_tokens e.1 ∧ 0 < e.2 ∧ (st_num_tokens e.1 <= L)%nat ∧
  st_num_computed_tokens e.1 + e.2 <= Z.of_nat L.
Proof.
  intros Hq. destruct (rows_elem i e Hq) as (HP & (row & _ & _ & Hrow & Hrh & _) & Hen).
  destruct Hrh as [Htok _ _ _ _], Hen. pose proof (bm_shape _ _ _ _ (proj1 (proj1 Hinv))) as Hsh.
  assert (Hlen : (st_num_tokens e.1 <= L)%nat).
  { apply (f_equal length) in Htok. rewrite length_take, length_app, (bs_len _ _ _ Hsh i row Hrow) in Htok.
    unfold st_num_tokens. lia. }
  assert (Hi : (i < max_num_reqs b)%nat).
  { apply lookup_lt_Some in Hrow. unfold b in *. by rewrite (bs_rows _ _ _ Hsh) in Hrow. }
  destruct Hfit as [F1 F2]. fold b in F1, F2. split_and!; try lia; nia.
Qed.

Lemma counts_rows : P.*2 = cnt <$> Q.
Proof. rewrite <- rows_snd, <- list_fmap_compose. done. Qed.

Lemma total_sum : total_num_scheduled_tokens so = foldr Z.add 0 P.*2.
Proof.
  destruct (plan_spec mr A L W so Hinv Hdom) as (Hlen & _ & Hcnt & Hlk). fold b n P in Hlen, Hcnt, Hlk.
  destruct (batch_ids_spec b A L W (proj1 Hinv)) as (_ & Hl & Hnd & _ & Hin).
  assert (HPc : P.*2 = (fun rid => num_scheduled_tokens so !!! rid) <$> batch_ids b).
  { apply list_eq. intros i. rewrite !list_lookup_fmap. destruct (P !! i) as [e|] eqn:He.
    - destruct (Hlk i e He) as (rid & -> & _ & Hc). simpl. by rewrite (lookup_total_correct _ _ _ Hc).
    - apply lookup_ge_None in He. rewrite (lookup_ge_None_2 (batch_ids b)); [done|].
      rewrite Hl, <- (batch_rep_size _ _ _ _ _ (proj1 Hinv)). fold b n. lia. }
  rewrite Htotal, HPc. apply sum_tokens_ids; [done|]. intros rid.
  rewrite Hin, <- !elem_of_dom. by rewrite Hdom.
Qed.

Lemma total_rows : Z.to_nat (total_num_scheduled_tokens so) = sum_list (Z.to_nat <$> (cnt <$> Q)) ∧
  0 < total_num_scheduled_tokens so ∧ (0 < n)%nat ∧ 0 < max_z P.*2.
Proof.
  destruct (plan_spec mr A L W so Hinv Hdom) as (Hlen & _). fold b n P in Hlen.
  pose proof total_sum as Hsum.
  assert (Hpos : Forall (fun c => 0 < c) P.*2).
  { apply Forall_fmap. eapply Forall_impl; [exact Hok|]. intros e He. apply (en_pos _ _ He). }
  assert (Hn : (0 < n)%nat).
  { unfold n, b. rewrite (batch_rep_size _ _ _ _ _ (proj1 Hinv)), <- size_dom, Hdom, size_dom.
    destruct (size (num_scheduled_tokens so)) eqn:E; [|lia]. by apply map_size_empty_inv in E. }
  assert (Hnat : Z.to_nat (foldr Z.add 0 P.*2) = sum_list (Z.to_nat <$> P.*2) ∧ 0 <= foldr Z.add 0 P.*2).
  { clear -Hpos. induction Hpos as [|c l Hc Hl [IH1 IH2]]; [done|]. cbn [foldr]. rewrite fmap_cons.
    change (sum_list (Z.to_nat c :: (Z.to_nat <$> l))) with (Z.to_nat c + sum_list (Z.to_nat <$> l))%nat. lia. }
  rewrite <- counts_rows, Hsum. split; [apply Hnat|].
  assert (0 < foldr Z.add 0 P.*2 ∧ 0 < max_z P.*2); [|tauto].
  destruct (P.*2) as [|c l] eqn:E.
  { apply (f_equal length) in E. rewrite length_fmap, Hlen in E. simpl in E. lia. }
  apply Forall_cons in Hpos as [Hc Hl']. cbn [foldr max_z] in *. split; [|unfold max_z; simpl; lia].
  assert (0 <= foldr Z.add 0 l); [|lia]. clear -Hl'. induction Hl'; simpl; lia.
Qed.

(** The total is at most a full batch of full rows. *)
Lemma total_int32 : total_num_scheduled_tokens so < 2 ^ 31 ∧ int32 <$> P.*2 = P.*2 ∧
  int32 <$> np_cumsum P.*2 = np_cumsum P.*2 ∧
  (fun x => int32 (x - 1)) <$> np_cumsum P.*2 = (fun x => x - 1) <$> np_cumsum P.*2.
Proof.
  assert (Hb : ∀ c, c ∈ P.*2 -> 0 < c <= Z.of_nat L ∧ Z.of_nat L < 2 ^ 31).
  { rewrite counts_rows. intros c ([i e] & -> & Hq)%list_elem_of_fmap. pose proof (row_bounds i e Hq). unfold cnt. cbn. lia. }
  assert (Hle : ∀ l, (∀ c, c ∈ l -> 0 < c <= Z.of_nat L) -> foldr Z.add 0 l <= len l * Z.of_nat L).
  { induction l as [|c l IH]; intros Hl; cbn [foldr length]; [lia|].
    pose proof (Hl c ltac:(by left)). specialize (IH ltac:(intros; apply Hl; by right)). lia. }
  assert (Hsum : total_num_scheduled_tokens so = foldr Z.add 0 P.*2) by apply total_sum.
  assert (Hlen : (length P.*2 <= max_num_reqs b)%nat).
  { rewrite length_fmap. unfold P. rewrite (proj1 (plan_spec mr A L W so Hinv Hdom)). unfold b.
    rewrite (batch_rep_size _ _ _ _ _ (proj1 Hinv)). pose proof (ho_cap _ _ _ (proj2 (proj1 Hinv))) as Hc.
    cbn [length] in Hc. lia. }
  assert (Ht : foldr Z.add 0 P.*2 < 2 ^ 31).
  { specialize (Hle P.*2 ltac:(intros c Hc; by apply Hb)). destruct Hfit as [F1 _]. fold b in F1. nia. }
  assert (Hpos : Forall (fun c => 0 <= c) P.*2) by (apply Forall_forall; intros c Hc; specialize (Hb c Hc); lia).
  assert (Hcu : ∀ z, z ∈ np_cumsum P.*2 -> 0 <= z < 2 ^ 31).
  { intros z Hz. pose proof (cumsum_bounds 0 _ z Hpos Hz). lia. }
  rewrite Hsum. split_and!; [done|apply int32_ids|apply int32_ids|apply list_fmap_ext].
  - intros c Hc. specialize (Hb c Hc). lia.
  - intros z Hz. specialize (Hcu z Hz). lia.
  - intros i z Hz. apply int32_id. specialize (Hcu z ltac:(by eapply list_elem_of_lookup_2)). lia.
Qed.

Lemma arange_rows :
  take n (arange_np mr) = (fun q => Z.of_nat q.1) <$> Q ∧
  take (Z.to_nat (total_num_scheduled_tokens so)) (arange_np mr) =
    Z.of_nat <$> seq 0 (sum_list (Z.to_nat <$> (cnt <$> Q))).
Proof.
  assert (Ht : ∀ k m, (k <= m)%nat -> take k (Z.of_nat <$> seq 0 m) = Z.of_nat <$> seq 0 k).
  { intros k m Hk. rewrite <- fmap_take. f_equal. rewrite take_seq. f_equal. lia. }
  pose proof (batch_rep_size _ _ _ _ _ (proj1 Hinv)) as Hs.
  pose proof (ho_cap _ _ _ (proj2 (proj1 Hinv))) as Hc. simpl in Hc. rewrite <- Hs in Hc.
  destruct total_rows as (Htn & _). unfold arange_np. split.
  - rewrite Ht by (unfold n, b; lia). rewrite <- rows_fst, <- list_fmap_compose. done.
  - rewrite <- Htn. apply Ht. lia.
Qed.

(** The gathers from the rows. *)
Lemma row_tokens q k :
  q ∈ Q -> 0 <= k < cnt q ->
  let p := st_num_computed_tokens q.2.1 + k in
  ((fun row => int32 (num_computed_tokens_cpu row)) <$> ib_rows b) !! Z.to_nat (Z.of_nat q.1) =
    Some (st_num_computed_tokens q.2.1) ∧
  concat (token_ids_cpu <$> ib_rows b) !! Z.to_nat (p + Z.of_nat q.1 * Z.of_nat L) =
    Some (all_tokens q.2.1 !!! Z.to_nat p).
Proof.
  destruct q as [i e]. cbn beta iota delta [fst snd]. intros Hq Hk p.
  destruct (rows_elem i e Hq) as (HP & (row & blk & m & Hrow & Hrh & _) & Hen). change (0 <= k < e.2) in Hk.
  destruct Hrh as [Htok _ _ Hnc _], Hen. destruct (row_bounds i e Hq) as (_ & _ & ? & ? & ? & Hlen & ?).
  rewrite Nat2Z.id. split; [rewrite list_lookup_fmap, Hrow; simpl; rewrite Hnc, int32_id by lia; done|].
  pose proof (bm_shape _ _ _ _ (proj1 (proj1 Hinv))) as Hsh.
  pose proof (bs_len _ _ _ Hsh i row Hrow) as HL.
  replace (Z.to_nat (p + Z.of_nat i * Z.of_nat L)) with (i * L + Z.to_nat p)%nat by lia.
  rewrite (concat_lookup _ L i (Z.to_nat p) (token_ids_cpu row)).
  - unfold all_tokens. rewrite <- Htok.
    destruct (lookup_lt_is_Some_2 (take (st_num_tokens e.1) (token_ids_cpu row)) (Z.to_nat p)) as [x Hx].
    { rewrite length_take, HL. lia. }
    rewrite (list_lookup_total_correct _ _ _ Hx). by apply lookup_take_Some in Hx as [? _].
  - intros r (r' & -> & Hr)%list_elem_of_fmap. apply list_elem_of_lookup in Hr as [j Hj].
    by apply (bs_len _ _ _ Hsh j).
  - by rewrite list_lookup_fmap, Hrow.
  - lia.
Qed.

Lemma row_blocks q k :
  q ∈ Q -> 0 <= k < cnt q ->
  let p := st_num_computed_tokens q.2.1 + k in
  0 <= p / mr_block_size mr ∧
  concat (block_table_np (ib_block_table b)) !!
    Z.to_nat (Z.of_nat q.1 * mr_max_num_blocks_per_req mr + p / mr_block_size mr) =
    Some (st_block_ids q.2.1 !!! Z.to_nat (p / mr_block_size mr)) ∧
  (Z.of_nat (st_block_ids q.2.1 !!! Z.to_nat (p / mr_block_size mr)) + 1) * mr_block_size mr <= 2 ^ 31.
Proof.
  destruct q as [i e]. cbn beta iota delta [fst snd]. intros Hq Hk p.
  destruct (rows_elem i e Hq) as (HP & (row & blk & m & _ & _ & Hblk & _ & [Hb _] & _) & Hen).
  destruct Hen.
  change (0 <= k < e.2) in Hk. pose proof (bm_shape _ _ _ _ (proj1 (proj1 Hinv))) as Hsh.
  pose proof (bs_width _ _ _ Hsh i blk Hblk) as HWl.
  assert (Hlen : (length (st_block_ids e.1) <= W)%nat).
  { apply (f_equal length) in Hb. rewrite length_take, HWl in Hb. lia. }
  assert (Hd0 : 0 <= p / mr_block_size mr) by (apply Z.div_pos; lia).
  assert (Hd1 : p / mr_block_size mr < len (st_block_ids e.1)) by (apply Z.div_lt_upper_bound; lia).
  split; [done|]. rewrite HW.
  replace (Z.to_nat (Z.of_nat i * Z.of_nat W + p / mr_block_size mr))
    with (i * W + Z.to_nat (p / mr_block_size mr))%nat by lia.
  rewrite (concat_lookup _ W i _ blk); [|intros r [j Hj]%list_elem_of_lookup; by apply (bs_width _ _ _ Hsh j)|done|lia].
  destruct (lookup_lt_is_Some_2 (st_block_ids e.1) (Z.to_nat (p / mr_block_size mr))) as [x Hx]; [lia|].
  rewrite (list_lookup_total_correct _ _ _ Hx). split; [|by apply (Forall_lookup_1 _ _ _ _ en_slots0 Hx)].
  rewrite <- Hb in Hx. by apply lookup_take_Some in Hx as [? _].
Qed.

Lemma computed_rows :
  take n ((fun row => int32 (num_computed_tokens_cpu row)) <$> ib_rows b) = (fun q => st_num_computed_tokens q.2.1) <$> Q.
Proof.
  destruct (plan_spec mr A L W so Hinv Hdom) as (Hlen & Hag & _). fold b n P in Hlen, Hag.
  assert ((fun q => st_num_computed_tokens q.2.1) <$> Q = (fun e => st_num_computed_tokens e.1) <$> P) as ->.
  { by rewrite <- rows_snd, <- list_fmap_compose. }
  apply list_eq. intros i. rewrite list_lookup_fmap. destruct (P !! i) as [e|] eqn:He.
  - destruct (Hag i e He) as (row & _ & _ & Hrow & Hrh & _). simpl.
    rewrite lookup_take_lt by (apply lookup_lt_Some in He; lia).
    rewrite list_lookup_fmap, Hrow. simpl. f_equal. rewrite (rh_num_computed _ _ Hrh).
    assert (Hq : (i, e) ∈ Q).
    { apply (list_elem_of_lookup_2 _ i), lookup_zip_Some. split; [|done]. apply lookup_seq.
      apply lookup_lt_Some in He. lia. }
    pose proof (row_bounds i e Hq). apply int32_id. lia.
  - apply lookup_ge_None in He. apply lookup_take_ge. lia.
Qed.

(** A layout over the rows is the reference list over the plan. *)
Lemma layout_plan {B} (F : CachedRequestState * Z -> Z -> B) :
  layout cnt (fun q => F q.2) Q = concat ((fun e => F e <$> zseq e.2) <$> P).
Proof. unfold layout. rewrite <- rows_snd, <- list_fmap_compose. done. Qed.

Let pos (q : nat * (CachedRequestState * Z)) (k : Z) : Z := st_num_computed_tokens q.2.1 + k.

(** The slot of a scheduled token. *)
Lemma slot_cell q k : q ∈ Q -> 0 <= k < cnt q ->
  let bs := mr_block_size mr in let x := int32 (Z.of_nat (st_block_ids q.2.1 !!! Z.to_nat (pos q k / bs))) in
  int32 ((if int32 bs =? bs then int32 (x * bs) else x * bs) + pos q k `mod` bs) =
  Z.of_nat (st_block_ids q.2.1 !!! Z.to_nat (pos q k / bs)) * bs + pos q k `mod` bs.
Proof.
  intros Hq Hk bs x. destruct (row_blocks q k Hq Hk) as (_ & _ & Hs). fold (pos q k) bs in Hs.
  set (y := Z.of_nat (_ !!! _)) in *. assert (0 <= y) by (unfold y; lia).
  pose proof (Z.mod_pos_bound (pos q k) bs Hbs) as Hm. assert (0 < bs) by exact Hbs.
  assert (y * bs + bs <= 2 ^ 31) by lia. assert (y <= y * bs) by nia. assert (0 <= y * bs) by nia.
  assert (x = y) as -> by (unfold x; apply int32_id; lia).
  rewrite np_scale_cell by lia. apply int32_id. lia.
Qed.

Lemma min_z_le l x : x ∈ l -> min_z l <= x.
Proof.
  destruct l as [|y l]; [by intros ?%elem_of_nil|]. unfold min_z.
  assert (∀ k, foldr Z.min y k <= y ∧ ∀ z, z ∈ k -> foldr Z.min y k <= z) as H.
  { induction k as [|z k [IH1 IH2]]; cbn [foldr]; [split; [lia|by intros ? ?%elem_of_nil]|].
    split; [lia|]. intros w [->|Hw]%elem_of_cons; [lia|]. specialize (IH2 w Hw). lia. }
  intros [->|Hx]%elem_of_cons; [apply (proj1 (H l))|by apply (proj2 (H l))].
Qed.

Lemma prefix_len_spec k :
  let c := common_prefix_len (mr_block_size mr) k (st_num_computed_tokens ∘ fst <$> P) in
  (mr_block_size mr | c) ∧ ∀ e, e ∈ P -> c <= st_num_computed_tokens e.1.
Proof.
  intros c. unfold c, common_prefix_len. case_match; [split; [apply Z.divide_0_r|]|split; [apply Z.divide_factor_r|]].
  - intros e He. eapply Forall_forall in Hok; [|exact He]. apply Hok.
  - intros e He. etrans; [rewrite Z.mul_comm; apply Z.mul_div_le, Hbs|].
    etrans; [apply Z.le_min_r|]. apply min_z_le. by apply (list_elem_of_fmap_2 (st_num_computed_tokens ∘ fst)).
Qed.

Lemma device_table_spec i e :
  P !! i = Some e ->
  ∃ row, take n (block_table (commit (ib_block_table b) n)) !! i = Some row ∧
    take (length (st_block_ids e.1)) row = st_block_ids e.1.
Proof.
  intros He. destruct (plan_spec mr A L W so Hinv Hdom) as (Hlen & Hrow & _ & _). fold b n P in Hlen, Hrow.
  pose proof (lookup_lt_Some _ _ _ He) as Hlt.
  destruct (Hrow i e He) as (row & blocks & m & _ & _ & Hb & _ & [Ht _] & _).
  exists blocks. split; [|done]. unfold commit. cbn [block_table].
  pose proof (bm_shape _ _ _ _ (proj1 (proj1 Hinv))) as Hsh. fold b in Hsh.
  pose proof (ho_cap _ _ _ (proj2 (proj1 Hinv))) as Hc. rewrite <- (batch_rep_size _ _ _ _ _ (proj1 Hinv)) in Hc.
  fold b n in Hc. cbn [length] in Hc. pose proof (bs_table _ _ _ Hsh).
  rewrite np_copy_take by lia. rewrite lookup_take_lt by lia. exact Hb.
Qed.

Lemma prepare_inputs_lemma :
  ∃ mr' pi, _prepare_inputs mr so = Ok (mr', pi) ∧ prepared_ok (mr_block_size mr) P pi ∧
    runner_inv mr' A L W ∧ mr_requests mr' = mr_requests mr ∧ same_config mr mr' ∧
    mr_encoder_cache mr' = mr_encoder_cache mr ∧
    req_ids (input_batch mr') = req_ids b ∧
    ib_req_id_to_index (input_batch mr') = ib_req_id_to_index b.
Proof.
  destruct (plan_spec mr A L W so Hinv Hdom) as (Hlen & _ & Hcnt & _).
  destruct total_rows as (Htn & Htp & Hn & Hmx). destruct arange_rows as [Har1 Har2].
  fold b n P in Hlen, Hcnt. unfold _prepare_inputs. fold b. fold n.
  rewrite (proj2 (Z.ltb_lt 0 _) Htp). cbn [py_assert mbind result_bind].
  rewrite (bool_decide_eq_true_2 _ Hn). cbn [py_assert mbind result_bind].
  destruct total_int32 as (_ & Hc32 & Hcu32 & Hlg32).
  rewrite Hcnt. cbn [mbind result_bind]. rewrite (proj2 (Z.ltb_lt 0 _) Hmx). cbn [py_assert mbind result_bind].
  rewrite Hc32, Hcu32, Hlg32. rewrite bool_decide_eq_true_2; cycle 1.
  { apply Forall_fmap. eapply Forall_impl; [exact Hok|]. intros e []. simpl. lia. }
  cbn [mbind result_bind].
  rewrite Har1, Har2, counts_rows, layout_repeat, layout_arange; cycle 1.
  { intros [i e] Hq. destruct (rows_elem i e Hq) as (_ & _ & []). unfold cnt. simpl. lia. }
  cbn [mbind result_bind].
  rewrite (layout_take cnt _ _ (fun q _ => st_num_computed_tokens q.2.1)); cycle 1.
  { intros q k Hq Hk. split; [lia|]. by destruct (row_tokens q k Hq Hk). }
  cbn [mbind result_bind]. rewrite layout_np_zip. cbn [mbind result_bind]. fold pos.
  rewrite decide_True; cycle 1.
  { rewrite layout_length, <- Htn. lia. }
  cbn [mbind result_bind].
  assert (Hwidth : Z.of_nat (match ib_rows b with [] => 0%nat | r :: _ => length (token_ids_cpu r) end) = Z.of_nat L).
  { pose proof (bm_shape _ _ _ _ (proj1 (proj1 Hinv))) as Hsh. fold b in Hsh.
    pose proof (bs_len _ _ _ Hsh 0) as H0. pose proof (bs_rows _ _ _ Hsh) as Hr.
    pose proof (ho_cap _ _ _ (proj2 (proj1 Hinv))) as Hc. rewrite <- (batch_rep_size _ _ _ _ _ (proj1 Hinv)) in Hc.
    fold b n in Hc. destruct (ib_rows b) as [|r l]; [simpl in *; lia|]. by rewrite (H0 r). }
  unfold np_scale. rewrite Hwidth, !layout_fmap, !layout_np_zip. cbn [mbind result_bind].
  rewrite (layout_select cnt _ _ (fun q k => all_tokens q.2.1 !!! Z.to_nat (pos q k))); cycle 1.
  { intros q k Hq Hk. destruct (row_tokens q k Hq Hk) as [_ H]. destruct q as [i e].
    destruct (row_bounds i e Hq) as (H1 & _ & _ & H2 & _). cbn [fst snd] in *. rewrite (np_scale_cell _ _ H1).
    split; [|exact H]. unfold pos. cbn [fst snd]. lia. }
  cbn [mbind result_bind].
  change (block_table_np (commit (ib_block_table b) n)) with (block_table_np (ib_block_table b)).
  rewrite (layout_take cnt _ _ (fun q k => st_block_ids q.2.1 !!! Z.to_nat (pos q k / mr_block_size mr))); cycle 1.
  { intros q k Hq Hk. destruct (row_blocks q k Hq Hk) as (H1 & H2 & _). destruct q as [i e].
    destruct (row_bounds i e Hq) as (_ & H3 & _). cbn [fst snd] in *. rewrite HW in *. rewrite (np_scale_cell _ _ H3).
    split; [|exact H2]. unfold pos. cbn [fst snd]. lia. }
  cbn [mbind result_bind]. rewrite !layout_fmap, layout_np_zip. cbn [mbind result_bind]. rewrite layout_fmap.
  rewrite computed_rows. unfold np_zip at 1. rewrite decide_True by by rewrite !length_fmap.
  rewrite zip_with_fmap_l, zip_with_fmap_r, zip_with_diag. cbn [mbind result_bind].
  eexists _, _. split; [reflexivity|]. split; [|split; [|done]].
  - split; cbn [pi_positions pi_input_ids pi_slot_mapping pi_seq_lens pi_query_start_loc
      pi_logits_indices pi_block_table pi_common_prefix_len].
    + apply (layout_plan (fun e k => st_num_computed_tokens e.1 + k)).
    + etrans; [apply (layout_plan (fun e k => all_tokens e.1 !!! Z.to_nat (st_num_computed_tokens e.1 + k)))|].
      f_equal. apply list_fmap_ext. intros i e _. unfold tokens_of, positions_of. by rewrite <- list_fmap_compose.
    + etrans; [apply layout_ext; intros q k Hq Hk; apply (slot_cell q k Hq Hk)|].
      etrans; [apply (layout_plan (fun e k => let p := st_num_computed_tokens e.1 + k in
        Z.of_nat (st_block_ids e.1 !!! Z.to_nat (p / mr_block_size mr)) * mr_block_size mr + p `mod` mr_block_size mr))|].
      f_equal. apply list_fmap_ext. intros i e _. unfold slots_of, positions_of. by rewrite <- list_fmap_compose.
    + rewrite <- rows_snd, <- list_fmap_compose. apply list_fmap_ext. intros j [i e] Hq%list_elem_of_lookup_2.
      pose proof (row_bounds i e Hq). unfold cnt. cbn in *. apply int32_id. lia.
    + by rewrite counts_rows.
    + intros i e He.
      assert (HQi : Q !! i = Some (i, e)).
      { unfold Q. apply lookup_zip_Some. split; [|done]. apply lookup_seq. split; [done|].
        apply lookup_lt_Some in He. lia. }
      destruct (layout_last cnt pos Q i (i, e)) as (k & H1 & H2); [|done|].
      { intros [j e'] Hq. destruct (rows_elem j e' Hq) as (_ & _ & []). done. }
      exists k. rewrite list_lookup_fmap. unfold np_cumsum. rewrite H1. split; [simpl; f_equal; lia|].
      rewrite H2. unfold pos, cnt. simpl. f_equal. lia.
    + apply device_table_spec.
    + pose proof (prefix_len_spec (num_common_prefix_blocks so)) as Hcp.
      rewrite <- rows_snd, <- list_fmap_compose in Hcp. by rewrite rows_snd in Hcp.
  - destruct Hinv as ([Hm Hh] & Hsub & Hids). split; [|done]. destruct Hm as [[] Hi Hd Hr Hg Hs].
    split; [|by destruct Hh]. by split; [split|..].
Qed.
End prepare.
