(* ===== verification/RunnerSample.v ===== *)
(** * Booking the sampled tokens

    The two loops at the end of [execute_model]: the first makes room for a token
    in every request whose scheduled tokens reach its end, the second writes the
    sampled tokens into the batch and into the cached states.  Together they extend
    exactly those requests by their sampled token and keep the batch in step with
    the cached states. *)

From stdpp Require Import base tactics list gmap sets strings sorting.
From Stdlib Require Import ZArith QArith Lia.
From S2P Require Import Prelude.
From S2P Require Import SamplingParams.
From S2P Require Import Request.
From S2P Require Import Scheduler.
From S2P Require Import InputBatch.
From S2P Require Import InputBatchInv.
From S2P Require Import ModelRunner.
From S2P Require Import RunnerInv.
From S2P Require Import PrepareInputs.

Local Open Scope Z_scope.

Definition with_rows (b : InputBatch) (rows : list BatchRow) : InputBatch :=
  mkBatch (max_num_reqs b) (vocab_size b) (req_ids b) (ib_req_id_to_index b) rows
    (ib_block_table b) (ib_sets b) (generators b) (ib_device b).

(** The scheduled tokens reach the end of the request. *)
Definition due (st : CachedRequestState) (c : Z) : Prop :=
  st_num_computed_tokens st + c = Z.of_nat (st_num_tokens st).

#[export] Instance due_dec st c : Decision (due st c).
Proof. unfold due. apply _. Defined.

Definition bump (row : BatchRow) : BatchRow :=
  mkRow (token_ids_cpu row) (S (row_num_tokens row)) (row_num_prompt_tokens row)
    (num_computed_tokens_cpu row) (row_sampling row).

Definition put_token (s : nat) (tok : Z) (row : BatchRow) : BatchRow :=
  mkRow (<[s := tok]> (token_ids_cpu row)) (row_num_tokens row) (row_num_prompt_tokens row)
    (num_computed_tokens_cpu row) (row_sampling row).

(** ** The first loop *)

(** The requests [ids] sit in the rows from [i] on. *)
Definition rows_ready (so : SchedulerOutput) (ids : list string) (i : nat)
    (reqs : gmap string CachedRequestState) (rows : list BatchRow) : Prop :=
  ∀ j rid, ids !! j = Some rid -> ∃ st c row, reqs !! rid = Some st ∧
    num_scheduled_tokens so !! rid = Some c ∧ rows !! (i + j)%nat = Some row ∧
    st_num_computed_tokens st + c <= Z.of_nat (st_num_tokens st).

Record primed (so : SchedulerOutput) (ids : list string) (i : nat)
    (reqs reqs' : gmap string CachedRequestState) (rows rows' : list BatchRow)
    (l : list (nat * string * Z)) : Prop := {
  pr_len : length rows' = length rows;
  pr_due : ∀ j rid st c row, ids !! j = Some rid -> reqs !! rid = Some st ->
    num_scheduled_tokens so !! rid = Some c -> rows !! (i + j)%nat = Some row -> due st c ->
    reqs' !! rid = Some (set_outputs st (st_output_token_ids st ++ [0])) ∧
    rows' !! (i + j)%nat = Some (bump row) ∧
    ((i + j)%nat, rid, st_num_computed_tokens st + c) ∈ l;
  pr_partial : ∀ j rid st c row, ids !! j = Some rid -> reqs !! rid = Some st ->
    num_scheduled_tokens so !! rid = Some c -> rows !! (i + j)%nat = Some row -> ¬ due st c ->
    reqs' !! rid = Some st ∧ rows' !! (i + j)%nat = Some row;
  pr_list : ∀ k rid s, (k, rid, s) ∈ l -> ∃ j st c, k = (i + j)%nat ∧ ids !! j = Some rid ∧
    reqs !! rid = Some st ∧ num_scheduled_tokens so !! rid = Some c ∧ due st c ∧
    s = st_num_computed_tokens st + c;
  pr_nodup : NoDup l.*1.*1;
  pr_reqs : ∀ rid, (rid ∉ ids) -> reqs' !! rid = reqs !! rid;
  pr_rows : ∀ k, (k < i ∨ i + length ids <= k)%nat -> rows' !! k = rows !! k;
}.

Lemma prime_outputs_spec so ids i reqs b :
  NoDup ids -> rows_ready so ids i reqs (ib_rows b) ->
  ∃ reqs' rows' l, prime_outputs so (Some <$> ids) i reqs b = Ok (reqs', with_rows b rows', l) ∧
    primed so ids i reqs reqs' (ib_rows b) rows' l.
Proof.
  revert i reqs b. induction ids as [|rid ids IH]; intros i reqs b Hnd Hready.
  { exists reqs, (ib_rows b), []. split; [by destruct b|]. split; try done.
    - by intros k rid s Hin%elem_of_nil.
    - apply NoDup_nil_2. }
  apply NoDup_cons in Hnd as [Hrid Hnd]. rewrite fmap_cons. cbn [prime_outputs or_raise mbind result_bind].
  destruct (Hready 0%nat rid eq_refl) as (st & c & row & Hst & Hc & Hrow & Hle).
  rewrite Nat.add_0_r in Hrow. rewrite Hst, Hc. cbn [or_raise mbind result_bind].
  rewrite (proj2 (Z.leb_le _ _) Hle). cbn [py_assert mbind result_bind].
  assert (Hneid : ∀ j r, ids !! j = Some r -> r ≠ rid).
  { intros j r Hj ->. apply Hrid. by eapply list_elem_of_lookup_2. }
  assert (Hir : (i < length (ib_rows b))%nat) by by eapply lookup_lt_Some.
  destruct (decide (due st c)) as [Hd|Hd].
  - rewrite (proj2 (Z.eqb_eq _ _) Hd), Hrow. cbn [or_raise mbind result_bind].
    set (reqs1 := <[rid := set_outputs st (st_output_token_ids st ++ [0])]> reqs).
    destruct (IH (S i) reqs1 (with_row b i (bump row)) Hnd) as (reqs' & rows' & l & E & []).
    { intros j r Hj. destruct (Hready (S j) r Hj) as (st' & c' & row' & H1 & H2 & H3 & H4).
      exists st', c', row'. unfold reqs1. rewrite lookup_insert_ne by (by apply not_eq_sym, (Hneid j)).
      cbn [with_row ib_rows]. rewrite list_lookup_insert_ne by lia.
      rewrite Nat.add_succ_r in H3. done. }
    fold (bump row). rewrite E. cbn [mbind result_bind].
    exists reqs', rows', ((i, rid, st_num_computed_tokens st + c) :: l). split; [done|].
    cbn [with_row ib_rows] in *. split.
    + by rewrite pr_len0, length_insert.
    + intros [|j] r st' c' row' Hj Hst' Hc' Hrow' Hd'.
      * simpl in Hj. rewrite Nat.add_0_r in *. simplify_eq.
        rewrite (pr_reqs0 r Hrid), (pr_rows0 i) by lia. unfold reqs1.
        rewrite lookup_insert_eq, list_lookup_insert_eq by done. split; [done|]. split; [done|by left].
      * simpl in Hj. rewrite Nat.add_succ_r in *.
        destruct (pr_due0 j r st' c' row') as (H1 & H2 & H3); try done.
        -- unfold reqs1. rewrite lookup_insert_ne; [done|by apply not_eq_sym, (Hneid j)].
        -- rewrite list_lookup_insert_ne by lia. done.
        -- split; [done|]. split; [done|by right].
    + intros [|j] r st' c' row' Hj Hst' Hc' Hrow' Hd'.
      * simpl in Hj. simplify_eq. done.
      * simpl in Hj. rewrite Nat.add_succ_r in *. apply (pr_partial0 j r st' c' row'); try done.
        -- unfold reqs1. rewrite lookup_insert_ne; [done|by apply not_eq_sym, (Hneid j)].
        -- rewrite list_lookup_insert_ne by lia. done.
    + intros k r s [Heq|Hin]%elem_of_cons.
      * simplify_eq. exists 0%nat, st, c. rewrite Nat.add_0_r. done.
      * destruct (pr_list0 k r s Hin) as (j & st' & c' & -> & Hj & Hst' & H).
        exists (S j), st', c'. rewrite Nat.add_succ_r. split; [done|]. split; [done|].
        unfold reqs1 in Hst'. rewrite lookup_insert_ne in Hst' by (by apply not_eq_sym, (Hneid j)). done.
    + rewrite !fmap_cons. apply NoDup_cons. split; [|done].
      intros ([k r] & Hk & ([[k' r'] s] & Heq & Hin)%list_elem_of_fmap)%list_elem_of_fmap.
      simplify_eq/=. destruct (pr_list0 _ _ _ Hin) as (j & _ & _ & ? & _). lia.
    + intros r Hr. apply not_elem_of_cons in Hr as [Hne Hr]. rewrite (pr_reqs0 r Hr). unfold reqs1.
      by rewrite lookup_insert_ne.
    + intros k Hk. cbn [length] in Hk. rewrite (pr_rows0 k) by lia. apply list_lookup_insert_ne. lia.
  - rewrite (proj2 (Z.eqb_neq _ _) Hd).
    destruct (IH (S i) reqs b Hnd) as (reqs' & rows' & l & E & []).
    { intros j r Hj. destruct (Hready (S j) r Hj) as (st' & c' & row' & H).
      exists st', c', row'. by rewrite Nat.add_succ_r in H. }
    rewrite E. exists reqs', rows', l. split; [done|]. split; try done.
    + intros [|j] r st' c' row' Hj Hst' Hc' Hrow' Hd'; simpl in Hj; [by simplify_eq|].
      rewrite Nat.add_succ_r in *. by apply (pr_due0 j r st' c' row').
    + intros [|j] r st' c' row' Hj Hst' Hc' Hrow' Hd'; simpl in Hj.
      * rewrite Nat.add_0_r in *. simplify_eq. rewrite (pr_reqs0 r Hrid), (pr_rows0 i) by lia. done.
      * rewrite Nat.add_succ_r in *. by apply (pr_partial0 j r st' c' row').
    + intros k r s Hin. destruct (pr_list0 k r s Hin) as (j & st' & c' & -> & H).
      exists (S j), st', c'. by rewrite Nat.add_succ_r.
    + intros r Hr. apply not_elem_of_cons in Hr as [_ Hr]. by apply pr_reqs0.
    + intros k Hk. cbn [length] in Hk. apply pr_rows0. lia.
Qed.

(** ** The second loop *)

(** The entry can be written. *)
Definition storable (sampled : list Z) (reqs : gmap string CachedRequestState)
    (rows : list BatchRow) (e : nat * string * Z) : Prop :=
  is_Some (sampled !! e.1.1) ∧
  (∃ row, rows !! e.1.1 = Some row ∧ (Z.to_nat e.2 < length (token_ids_cpu row))%nat) ∧
  (∃ st, reqs !! e.1.2 = Some st ∧ st_output_token_ids st ≠ []).

Record stored (sampled : list Z) (l : list (nat * string * Z))
    (reqs reqs' : gmap string CachedRequestState) (rows rows' : list BatchRow) : Prop := {
  sd_len : length rows' = length rows;
  sd_entry : ∀ k rid s tok row st, (k, rid, s) ∈ l -> sampled !! k = Some tok ->
    rows !! k = Some row -> reqs !! rid = Some st ->
    rows' !! k = Some (put_token (Z.to_nat s) tok row) ∧
    reqs' !! rid = Some (set_outputs st (removelast (st_output_token_ids st) ++ [tok]));
  sd_reqs : ∀ rid, (rid ∉ l.*1.*2) -> reqs' !! rid = reqs !! rid;
  sd_rows : ∀ k, (k ∉ l.*1.*1) -> rows' !! k = rows !! k;
}.

Lemma store_tokens_spec sampled l reqs b :
  NoDup l.*1.*1 -> NoDup l.*1.*2 -> Forall (storable sampled reqs (ib_rows b)) l ->
  ∃ reqs' rows', for_each (store_token sampled) l (reqs, b) = Ok (reqs', with_rows b rows') ∧
    stored sampled l reqs reqs' (ib_rows b) rows'.
Proof.
  revert reqs b. induction l as [|[[k rid] s] l IH]; intros reqs b Hn1 Hn2 Hall.
  { exists reqs, (ib_rows b). split; [by destruct b|]. split; try done.
    by intros k rid s tok row st Hin%elem_of_nil. }
  rewrite !fmap_cons in Hn1, Hn2. apply NoDup_cons in Hn1 as [Hk Hn1], Hn2 as [Hr Hn2].
  apply Forall_cons in Hall as [([tok Htok] & (row & Hrow & Hs) & (st & Hst & Hout)) Hall].
  cbn [fst snd] in *.
  set (reqs1 := <[rid := set_outputs st (removelast (st_output_token_ids st) ++ [tok])]> reqs).
  set (b1 := with_row b k (put_token (Z.to_nat s) tok row)).
  assert (Hstep : store_token sampled (k, rid, s) (reqs, b) = Ok (reqs1, b1)).
  { unfold store_token. rewrite Htok. cbn [or_raise mbind result_bind]. rewrite Hrow.
    cbn [or_raise mbind result_bind]. destruct (lookup_lt_is_Some_2 _ _ Hs) as [x ->].
    cbn [or_raise mbind result_bind]. rewrite Hst. cbn [or_raise mbind result_bind].
    destruct (last (st_output_token_ids st)) eqn:El; [done|]. by apply last_None in El. }
  cbn [for_each]. rewrite Hstep. cbn [mbind result_bind].
  assert (Hlt : (k < length (ib_rows b))%nat) by by eapply lookup_lt_Some.
  destruct (IH reqs1 b1 Hn1 Hn2) as (reqs' & rows' & -> & []).
  { rewrite Forall_forall in *. intros [[k' r'] s'] Hin. destruct (Hall _ Hin) as (H1 & (row' & H2 & H3) & (st' & H4 & H5)).
    cbn [fst snd] in *. split; [done|]. split.
    - exists row'. cbn [b1 with_row ib_rows fst snd]. rewrite list_lookup_insert_ne; [done|].
      intros ->. apply Hk. apply list_elem_of_fmap. exists (k', r'). split; [done|].
      apply list_elem_of_fmap. by exists (k', r', s').
    - exists st'. unfold reqs1. cbn [fst snd]. rewrite lookup_insert_ne; [done|].
      intros ->. apply Hr. apply list_elem_of_fmap. exists (k', r'). split; [done|].
      apply list_elem_of_fmap. by exists (k', r', s'). }
  exists reqs', rows'. split; [done|]. cbn [b1 with_row ib_rows] in *. split.
  - by rewrite sd_len0, length_insert.
  - intros k' r' s' tok' row' st' [Heq|Hin]%elem_of_cons Ht Hrow' Hst'.
    + simplify_eq. rewrite (sd_rows0 k Hk), (sd_reqs0 rid Hr). unfold reqs1.
      rewrite list_lookup_insert_eq, lookup_insert_eq by done. done.
    + assert (k' ≠ k ∧ r' ≠ rid) as [? ?].
      { split; intros ->; [apply Hk|apply Hr]; apply list_elem_of_fmap.
        - exists (k, r'). split; [done|]. apply list_elem_of_fmap. by exists (k, r', s').
        - exists (k', rid). split; [done|]. apply list_elem_of_fmap. by exists (k', rid, s'). }
      apply (sd_entry0 k' r' s' tok' row' st'); try done.
      * by rewrite list_lookup_insert_ne.
      * unfold reqs1. by rewrite lookup_insert_ne.
  - intros r'. rewrite !fmap_cons, not_elem_of_cons. intros [? ?]. rewrite sd_reqs0 by done.
    unfold reqs1. by rewrite lookup_insert_ne.
  - intros k'. rewrite !fmap_cons, not_elem_of_cons. intros [? ?]. rewrite sd_rows0 by done.
    by rewrite list_lookup_insert_ne.
Qed.

(** ** Both loops *)

(** The state of a request after sampling. *)
Definition sampled_state (st : CachedRequestState) (c tok : Z) : CachedRequestState :=
  if decide (due st c) then set_outputs st (st_output_token_ids st ++ [tok]) else st.

Lemma row_holds_token st row tok :
  row_holds st row -> (st_num_tokens st < length (token_ids_cpu row))%nat ->
  row_holds (set_outputs st (st_output_token_ids st ++ [tok]))
    (put_token (st_num_tokens st) tok (bump row)).
Proof.
  intros [Ht Hn Hp Hc Hs] Hlt.
  assert (HS : st_num_tokens (set_outputs st (st_output_token_ids st ++ [tok])) = S (st_num_tokens st)).
  { unfold st_num_tokens. simpl. rewrite length_app. simpl. lia. }
  split; cbn [put_token bump token_ids_cpu row_num_tokens row_num_prompt_tokens num_computed_tokens_cpu
    row_sampling set_outputs st_prompt_token_ids st_output_token_ids st_num_computed_tokens
    st_sampling_params]; try done.
  - rewrite HS, (take_S_r _ _ tok) by by apply list_lookup_insert_eq.
    rewrite take_insert_ge by lia. by rewrite Ht, (assoc app).
  - by rewrite HS, Hn.
Qed.

Section book.
Context (mr : ModelRunner) (A : gmap string CachedRequestState) (L W : nat) (so : SchedulerOutput).
Context (Hinv : runner_inv mr A L W) (Hdom : dom A = dom (num_scheduled_tokens so)).
Context (bs : Z) (Hok : Forall (entry_ok bs) (plan mr so)).
Context (Hroom : ∀ e, e ∈ plan mr so -> due e.1 e.2 -> (st_num_tokens e.1 < L)%nat).
Context (sampled : list Z) (Hsampled : length sampled = ib_num_reqs (input_batch mr)).

Let b := input_batch mr.

(** What is known of the [i]-th row. *)
Lemma book_row i rid :
  batch_ids b !! i = Some rid ->
  ∃ st c tok row, A !! rid = Some st ∧ mr_requests mr !! rid = Some st ∧
    num_scheduled_tokens so !! rid = Some c ∧ sampled !! i = Some tok ∧
    ib_rows b !! i = Some row ∧ row_holds st row ∧ length (token_ids_cpu row) = L ∧
    st_num_computed_tokens st + c <= Z.of_nat (st_num_tokens st) ∧
    (due st c -> (st_num_tokens st < L)%nat).
Proof.
  intros Hi. destruct (plan_spec mr A L W so Hinv Hdom) as (Hlen & Hag & _ & Hlk). fold b in Hlen, Hag, Hlk.
  destruct (batch_ids_spec b A L W (proj1 Hinv)) as (_ & Hl & _ & _ & Hin).
  assert (Hlt : (i < length (plan mr so))%nat).
  { rewrite Hlen. unfold b. rewrite (batch_rep_size _ _ _ _ _ (proj1 Hinv)), <- Hl. by eapply lookup_lt_Some. }
  destruct (lookup_lt_is_Some_2 _ _ Hlt) as [e He].
  destruct (Hlk i e He) as (rid' & Hrid' & Hst & Hc). assert (rid' = rid) as -> by congruence.
  destruct (Hag i e He) as (row & _ & _ & Hrow & Hrh & _).
  destruct (lookup_lt_is_Some_2 sampled i) as [tok Htok]; [rewrite Hsampled; fold b; by rewrite <- Hlen|].
  exists e.1, e.2, tok, row. split.
  { destruct (proj1 (Hin rid)) as [st Hst']; [by eapply list_elem_of_lookup_2|].
    eapply (proj1 (map_subseteq_spec A _)) in Hst' as Hst2; [|apply (proj2 Hinv)]. congruence. }
  split; [done|]. split; [done|]. split; [done|]. split; [done|]. split; [done|].
  split; [by apply (bs_len _ _ _ (bm_shape _ _ _ _ (proj1 (proj1 Hinv))) i)|].
  assert (e ∈ plan mr so) as Hep by by eapply list_elem_of_lookup_2.
  rewrite Forall_forall in Hok. destruct (Hok e Hep). split; [done|]. by apply Hroom.
Qed.

Record booked (reqs' : gmap string CachedRequestState) (rows' : list BatchRow) : Prop := {
  bk_len : length rows' = length (ib_rows b);
  bk_row : ∀ i rid st c tok row, batch_ids b !! i = Some rid -> mr_requests mr !! rid = Some st ->
    num_scheduled_tokens so !! rid = Some c -> sampled !! i = Some tok -> ib_rows b !! i = Some row ->
    reqs' !! rid = Some (sampled_state st c tok) ∧
    rows' !! i = Some (if decide (due st c) then put_token (st_num_tokens st) tok (bump row) else row);
  bk_reqs : ∀ rid, (rid ∉ batch_ids b) -> reqs' !! rid = mr_requests mr !! rid;
  bk_rows : ∀ k, (length (batch_ids b) <= k)%nat -> rows' !! k = ib_rows b !! k;
}.

Lemma book_loops :
  ∃ reqs1 rows1 l reqs' rows',
    prime_outputs so (take (ib_num_reqs b) (req_ids b)) 0 (mr_requests mr) b =
      Ok (reqs1, with_rows b rows1, l) ∧
    for_each (store_token sampled) l (reqs1, with_rows b rows1) = Ok (reqs', with_rows b rows') ∧
    booked reqs' rows'.
Proof.
  destruct (batch_ids_spec b A L W (proj1 Hinv)) as (Heq & _ & Hnd & _ & _).
  destruct (prime_outputs_spec so (batch_ids b) 0 (mr_requests mr) b Hnd) as (reqs1 & rows1 & l & E1 & []).
  { intros j rid Hj. destruct (book_row j rid Hj) as (st & c & tok & row & ? & ? & ? & ? & ? & ? & ? & ? & ?). eauto 10. }
  assert (Hpr : ∀ k rid s, (k, rid, s) ∈ l -> ∃ st c tok row, batch_ids b !! k = Some rid ∧
    mr_requests mr !! rid = Some st ∧ num_scheduled_tokens so !! rid = Some c ∧ due st c ∧
    sampled !! k = Some tok ∧ ib_rows b !! k = Some row ∧ (st_num_tokens st < length (token_ids_cpu row))%nat ∧
    s = Z.of_nat (st_num_tokens st) ∧ rows1 !! k = Some (bump row) ∧
    reqs1 !! rid = Some (set_outputs st (st_output_token_ids st ++ [0]))).
  { intros k rid s Hin. destruct (pr_list0 k rid s Hin) as (j & st & c & -> & Hj & Hst & Hc & Hd & ->). simpl.
    destruct (book_row j rid Hj) as (st' & c' & tok & row & _ & Hst' & Hc' & Ht & Hrow & Hrh & HL & _ & Hr).
    assert (st' = st) as -> by congruence. assert (c' = c) as -> by congruence.
    destruct (pr_due0 j rid st c row Hj Hst Hc Hrow Hd) as (H1 & H2 & _).
    exists st, c, tok, row. split_and!; try done. specialize (Hr Hd). lia. }
  assert (Hnd2 : NoDup l.*1.*2).
  { apply NoDup_alt. intros x y rid Hx Hy. rewrite !list_lookup_fmap in Hx, Hy.
    destruct (l !! x) as [[[k1 r1] s1]|] eqn:Ex, (l !! y) as [[[k2 r2] s2]|] eqn:Ey; simplify_eq/=.
    destruct (Hpr k1 rid s1) as (_ & _ & _ & _ & Hk1 & _); [by eapply list_elem_of_lookup_2|].
    destruct (Hpr k2 rid s2) as (_ & _ & _ & _ & Hk2 & _); [by eapply list_elem_of_lookup_2|].
    assert (k1 = k2) as -> by exact (NoDup_lookup _ k1 k2 rid Hnd Hk1 Hk2).
    eapply (NoDup_lookup _ x y k2 pr_nodup0); rewrite !list_lookup_fmap, ?Ex, ?Ey; done. }
  destruct (store_tokens_spec sampled l reqs1 (with_rows b rows1) pr_nodup0 Hnd2) as (reqs' & rows' & E2 & []).
  { apply Forall_forall. intros [[k rid] s] Hin.
    destruct (Hpr k rid s Hin) as (st & c & tok & row & _ & _ & _ & _ & Ht & _ & Hlt & -> & Hr1 & Hs1).
    split; [by eexists|]. split; [exists (bump row); split; [done|]; simpl; lia|].
    eexists. split; [exact Hs1|]. simpl. by destruct (st_output_token_ids st). }
  cbn [with_rows ib_rows] in *. exists reqs1, rows1, l, reqs', rows'. rewrite Heq. split; [done|]. split; [done|]. split.
  - congruence.
  - intros i rid st c tok row Hi Hst Hc Ht Hrow. unfold sampled_state.
    destruct (decide (due st c)) as [Hd|Hd].
    + destruct (pr_due0 i rid st c row Hi Hst Hc Hrow Hd) as (H1 & H2 & H3).
      destruct (sd_entry0 _ _ _ tok (bump row) _ H3 Ht H2 H1) as [H4 H5]. simpl in *.
      rewrite Hd, Nat2Z.id in H4. rewrite H5. simpl. rewrite removelast_last. done.
    + destruct (pr_partial0 i rid st c row Hi Hst Hc Hrow Hd) as [H1 H2].
      assert (Hno : ∀ r s, ((i, r, s) ∉ l) ∧ ∀ k, (k, rid, s) ∉ l).
      { intros r s. split; [intros Hin|intros k Hin].
        - destruct (Hpr i r s Hin) as (st' & c' & _ & _ & Hi' & Hst' & Hc' & Hd' & _). by simplify_eq.
        - destruct (Hpr k rid s Hin) as (st' & c' & _ & _ & _ & Hst' & Hc' & Hd' & _). by simplify_eq. }
      rewrite sd_reqs0, sd_rows0; [done| |].
      * intros ([k r] & Heq1 & ([[k' r'] s] & Heq2 & Hin)%list_elem_of_fmap)%list_elem_of_fmap.
        simplify_eq/=. by apply (Hno r' s).
      * intros ([k r] & Heq1 & ([[k' r'] s] & Heq2 & Hin)%list_elem_of_fmap)%list_elem_of_fmap.
        simplify_eq/=. by apply (proj2 (Hno r' s) k').
  - intros rid Hr. rewrite sd_reqs0; [by apply pr_reqs0|].
    intros ([k r] & Heq1 & ([[k' r'] s] & Heq2 & Hin)%list_elem_of_fmap)%list_elem_of_fmap. simplify_eq/=.
    destruct (Hpr _ _ _ Hin) as (_ & _ & _ & _ & Hk & _). apply Hr. by eapply list_elem_of_lookup_2.
  - intros k Hk. rewrite sd_rows0; [apply pr_rows0; lia|].
    intros ([k0 r] & Heq1 & ([[k' r'] s] & Heq2 & Hin)%list_elem_of_fmap)%list_elem_of_fmap. simplify_eq/=.
    destruct (Hpr _ _ _ Hin) as (_ & _ & _ & _ & Hk' & _). apply lookup_lt_Some in Hk'. lia.
Qed.

Lemma booked_inv reqs' rows' enc :
  booked reqs' rows' ->
  ∃ A', runner_inv (with_state mr reqs' enc (with_rows b rows')) A' L W ∧ dom A' = dom A.
Proof.
  intros []. destruct (batch_ids_spec b A L W (proj1 Hinv)) as (_ & Hl & _ & Hlook & Hin).
  set (A' := map_imap (fun rid _ => reqs' !! rid) A).
  assert (HA' : ∀ rid, A' !! rid = A !! rid ≫= fun _ => reqs' !! rid) by (intros; apply map_lookup_imap).
  assert (Hrow : ∀ i rid, batch_ids b !! i = Some rid -> ∃ st c tok row, A !! rid = Some st ∧
    A' !! rid = Some (sampled_state st c tok) ∧ reqs' !! rid = Some (sampled_state st c tok) ∧
    ib_rows b !! i = Some row ∧ rows' !! i = Some (if decide (due st c) then put_token (st_num_tokens st) tok (bump row) else row) ∧
    row_holds st row ∧ length (token_ids_cpu row) = L ∧ (due st c -> (st_num_tokens st < L)%nat)).
  { intros i rid Hi. destruct (book_row i rid Hi) as (st & c & tok & row & HA & Hst & Hc & Ht & Hrow & Hrh & HL & _ & Hr).
    destruct (bk_row0 i rid st c tok row Hi Hst Hc Ht Hrow) as [H1 H2]. exists st, c, tok, row.
    rewrite HA', HA. simpl. split_and!; done. }
  assert (Hdom' : ∀ rid, is_Some (A' !! rid) <-> is_Some (A !! rid)).
  { intros rid. rewrite <- (Hin rid). split.
    - intros [st Hst]. apply Hin. rewrite HA' in Hst. destruct (A !! rid); [by eexists|done].
    - intros [i Hi]%list_elem_of_lookup. destruct (Hrow i rid Hi) as (st & c & tok & row & _ & ? & _). by eexists. }
  destruct Hinv as ([Hm Hh] & Hsub & Hids). exists A'. split; [split; [split|split]|].
  - destruct (Hm) as [Hsh Hix Hd Hr Hg Hs]. split; try done.
    + destruct Hsh as [? ? ? ? Hlens ?]. split; cbn [with_state with_rows input_batch req_ids ib_rows ib_block_table max_num_reqs]; try done.
      * etrans; [exact bk_len0|done].
      * intros i row Hi. destruct (decide (i < length (batch_ids b))%nat) as [Hlt|Hge].
        -- destruct (lookup_lt_is_Some_2 _ _ Hlt) as [rid Hrid].
           destruct (Hrow i rid Hrid) as (st & c & tok & row0 & _ & _ & _ & _ & Hi' & _ & HL & _).
           rewrite Hi in Hi'. simplify_eq. destruct (decide (due st c)); simpl; [by rewrite length_insert|done].
        -- rewrite bk_rows0 in Hi by lia. by apply (Hlens i).
    + intros rid. rewrite Hdom'. apply Hd.
    + intros rid i st' Hi Hst'. cbn [with_state input_batch with_rows ib_req_id_to_index] in Hi.
      apply Hlook in Hi as Hbi. destruct (Hrow i rid Hbi) as (st & c & tok & row & HA & HA2 & _ & Hrw & Hrw' & Hrh & HL & Hroom').
      destruct (Hr rid i st Hi HA) as [Hid (row0 & blk & m & Hrow0 & _ & Hblk & Hn & Hbh & Hgen)].
      rewrite HA2 in Hst'. simplify_eq. unfold sampled_state. split; [by destruct (decide (due st c))|].
      exists (if decide (due st c) then put_token (st_num_tokens st) tok (bump row) else row), blk, m.
      split; [done|]. split; [|by destruct (decide (due st c))].
      destruct (decide (due st c)) as [Hdue|]; [|done]. apply row_holds_token; [done|].
      specialize (Hroom' Hdue). lia.
    + cbn [with_state input_batch with_rows ib_sets].
      replace (st_sampling_params <$> A') with (st_sampling_params <$> A); [done|].
      apply map_eq. intros rid. rewrite !lookup_fmap. destruct (A !! rid) as [st|] eqn:HA.
      * assert (rid ∈ batch_ids b) as [i Hi]%list_elem_of_lookup by (apply Hin; by eexists).
        destruct (Hrow i rid Hi) as (st0 & c & tok & row & ? & -> & _). simplify_eq. simpl.
        unfold sampled_state. by destruct (decide (due st c)).
      * assert (A' !! rid = None) as -> by (by rewrite HA', HA). done.
  - assert (Hsz : size A' = size A).
    { rewrite <- !size_dom. f_equal. apply set_eq. intros rid. by rewrite !elem_of_dom. }
    rewrite Hsz. destruct Hh. by split.
  - apply map_subseteq_spec. intros rid st. rewrite HA'. by destruct (A !! rid).
  - cbn [with_state mr_requests]. intros rid st Hst.
    destruct (decide (rid ∈ batch_ids b)) as [Hb|Hn].
    + apply list_elem_of_lookup in Hb as [i Hi]. destruct (book_row i rid Hi) as (st0 & c & tok & row & HA & Hst0 & Hc & Ht & Hrw & _).
      destruct (bk_row0 i rid st0 c tok row Hi Hst0 Hc Ht Hrw) as [H1 _]. rewrite H1 in Hst. simplify_eq.
      apply Hids in Hst0. unfold sampled_state. by destruct (decide (due st0 c)).
    + rewrite bk_reqs0 in Hst by done. by apply Hids.
  - apply set_eq. intros rid. rewrite !elem_of_dom. apply Hdom'.
Qed.
End book.
