(* ===== verification/RunnerSpec.v ===== *)
(** * The steps of the model runner against the represented map

    Lemmas behind the worker's theorems: the initial runner, the gathered encoder
    outputs, the sampling metadata, and the whole of [execute_model]. *)

From stdpp Require Import base tactics list gmap sets strings sorting.
From Stdlib Require Import ZArith QArith Lia.
From S2P Require Import Prelude.
From S2P Require Import SamplingParams.
From S2P Require Import Request.
From S2P Require Import BlockHash.
From S2P Require Import EncoderCache.
From S2P Require Import Scheduler.
From S2P Require Import EncoderScheduler.
From S2P Require Import SchedulerUpdate.
From S2P Require Import SchedulerTheorems.
From S2P Require Import InputBatch.
From S2P Require Import InputBatchInv.
From S2P Require Import ModelRunner.
From S2P Require Import RunnerInv.
From S2P Require Import PrepareInputs.
From S2P Require Import RunnerSample.

Local Open Scope Z_scope.

(** ** The initial runner *)

Lemma ib_init_rep n L W v u : batch_rep (ib_init n L W v u) ∅ [] L W.
Proof.
  assert (Hno : ∀ i rid, req_ids (ib_init n L W v u) !! i ≠ Some (Some rid)).
  { intros i rid H. by apply lookup_replicate in H as [? _]. }
  assert (Htr : ∀ P, tracks ∅ P ∅) by (intros P rid; split; [set_solver|]; by intros (sp & ? & _)).
  split.
  { split.
  - split; cbn; rewrite ?length_replicate; try done.
    + intros i row [-> _]%lookup_replicate. cbn. apply length_replicate.
    + intros i row [-> _]%lookup_replicate. apply length_replicate.
  - intros rid i. split; [done|]. intros H. by apply Hno in H.
  - intros rid. by split; intros [? ?].
  - done.
  - by intros i [? ?].
  - rewrite fmap_empty. split; try apply Htr. done. }
  split.
  - apply NoDup_nil_2.
  - by intros i ?%elem_of_nil.
  - rewrite map_size_empty. cbn. lia.
  - intros i. rewrite map_size_empty. cbn [length]. split; [|lia]. intros [rid H]. by apply Hno in H.
Qed.

(** Before the first step no request is cached and the batch is empty. *)
Lemma runner_init_inv bs ml mt n v mm enc u :
  runner_inv (runner_init bs ml mt n v mm enc u) ∅ (Z.to_nat ml) (Z.to_nat (cdiv ml bs)).
Proof. split; [apply ib_init_rep|]. split; [apply map_empty_subseteq|done]. Qed.

(** ** Encoder outputs *)

(** The number of tokens of the placeholder among the scheduled ones. *)
Definition overlap (nc n : Z) (p : PlaceholderRange) : Z :=
  Z.max 0 (Z.min (nc + n) (offset p + length_ p) - Z.max nc (offset p)).

Definition slice_size (s : EncoderSlice) : Z := es_end_idx s - es_start_idx s.

Definition sum_z (l : list Z) : Z := foldr Z.add 0 l.

Lemma sum_z_app l1 l2 : sum_z (l1 ++ l2) = sum_z l1 + sum_z l2.
Proof. induction l1 as [|x l IH]; [done|]. cbn [app sum_z foldr]. unfold sum_z in *. lia. Qed.

(** In prompt order, without empty placeholders. *)
Definition places_ok (l : list PlaceholderRange) : Prop :=
  StronglySorted (fun p q => offset p <= offset q) l ∧ Forall (fun p => 0 < length_ p) l.

Lemma overlap_behind nc n l p :
  StronglySorted (fun p q => offset p <= offset q) (p :: l) -> nc + n <= offset p ->
  sum_z (overlap nc n <$> p :: l) = 0.
Proof.
  intros Hs Hp. apply StronglySorted_inv in Hs as [_ Hall].
  assert (Forall (fun q => nc + n <= offset q) (p :: l)) as H.
  { constructor; [done|]. eapply Forall_impl; [exact Hall|]. simpl. lia. }
  clear -H. induction H as [|q l' Hq Hl IH]; [done|]. rewrite fmap_cons.
  cbn [sum_z foldr]. unfold sum_z in IH. unfold overlap at 1. lia.
Qed.

Lemma gather_positions_spec c rid l i nc n :
  places_ok l -> 0 < n ->
  (∀ j p, l !! j = Some p -> 0 < overlap nc n p -> is_Some (c !! rid ≫= (.!! (i + j)%nat))) ->
  ∃ sl, gather_positions c rid l i nc n = Ok sl ∧
    sum_z (slice_size <$> sl) = sum_z (overlap nc n <$> l) ∧
    Forall (fun s => 0 <= es_start_idx s < es_end_idx s) sl.
Proof.
  revert i. induction l as [|p l IH]; intros i [Hs Hl] Hn Hc; [by exists []|]. cbn [gather_positions].
  destruct (nc + n <=? offset p) eqn:E1.
  { exists []. split; [done|]. split; [|constructor]. symmetry. apply overlap_behind; [done|lia]. }
  assert (Hrest : places_ok l).
  { apply StronglySorted_inv in Hs as [? _]. apply Forall_cons in Hl as [_ ?]. done. }
  assert (Hc' : ∀ j q, l !! j = Some q -> 0 < overlap nc n q -> is_Some (c !! rid ≫= (.!! (S i + j)%nat))).
  { intros j q Hj Ho. replace (S i + j)%nat with (i + S j)%nat by lia. by apply (Hc (S j) q). }
  apply Forall_cons in Hl as [Hlen _].
  destruct (IH (S i) Hrest Hn Hc') as (sl & E & Hsum & Hall). rewrite fmap_cons. cbn [sum_z foldr].
  fold (sum_z (overlap nc n <$> l)).
  destruct (offset p + length_ p <=? nc) eqn:E2.
  { exists sl. split; [done|]. split; [|done]. unfold overlap at 1. lia. }
  destruct (Hc 0%nat p eq_refl) as [out Hout]; [unfold overlap; lia|]. rewrite Nat.add_0_r in Hout.
  destruct (c !! rid) as [m|]; [|done]. simpl in Hout.
  rewrite (proj2 (Z.ltb_lt (Z.max (nc - offset p) 0) (Z.min (nc - offset p + n) (length_ p)))) by lia.
  cbn [py_assert or_raise mbind result_bind]. rewrite Hout. cbn [or_raise mbind result_bind].
  rewrite E. cbn [mbind result_bind]. eexists. split; [done|]. rewrite fmap_cons. cbn [sum_z foldr].
  fold (sum_z (slice_size <$> sl)). split; [|constructor; [simpl; lia|done]].
  unfold slice_size at 1, overlap at 1. cbn [es_start_idx es_end_idx]. lia.
Qed.

(** The encoder outputs of the scheduled placeholders have arrived. *)
Definition encoder_ready (mr : ModelRunner) (so : SchedulerOutput) : Prop :=
  ∀ rid st c, mr_requests mr !! rid = Some st -> num_scheduled_tokens so !! rid = Some c ->
    places_ok (st_mm_positions st) ∧
    ∀ j p, st_mm_positions st !! j = Some p -> 0 < overlap (st_num_computed_tokens st) c p ->
      is_Some (mr_encoder_cache mr !! rid ≫= (.!! j)).

(** The scheduled placeholder tokens of a request. *)
Definition scheduled_placeholders (e : CachedRequestState * Z) : Z :=
  sum_z (overlap (st_num_computed_tokens e.1) e.2 <$> st_mm_positions e.1).

Lemma gather_encoder_outputs_spec mr A L W so :
  runner_inv mr A L W -> dom A = dom (num_scheduled_tokens so) ->
  (∀ e, e ∈ plan mr so -> 0 < e.2) -> encoder_ready mr so ->
  ∃ sl, _gather_encoder_outputs mr so = Ok sl ∧
    sum_z (slice_size <$> sl) = sum_z (scheduled_placeholders <$> plan mr so) ∧
    Forall (fun s => 0 <= es_start_idx s < es_end_idx s) sl.
Proof.
  intros Hinv Hdom Hpos Hready. unfold _gather_encoder_outputs.
  destruct (batch_ids_spec _ A L W (proj1 Hinv)) as (-> & _ & _ & _ & Hin).
  set (f := fun rid => st ← mr_requests mr !! rid; c ← num_scheduled_tokens so !! rid; Some (st, c)).
  assert (Hf : ∀ rid, rid ∈ batch_ids (input_batch mr) -> ∃ st c, mr_requests mr !! rid = Some st ∧
    num_scheduled_tokens so !! rid = Some c).
  { intros rid Hr. apply Hin in Hr as [st Hst].
    assert (rid ∈ dom A) as H2 by (apply elem_of_dom; by eexists).
    rewrite Hdom in H2. apply elem_of_dom in H2 as [c Hc]. exists st, c. split; [|done].
    eapply map_subseteq_spec; [apply (proj2 Hinv)|done]. }
  unfold plan in *. fold f in Hpos |- *. clear Hin.
  induction (batch_ids (input_batch mr)) as [|rid ids IH]; [by exists []|].
  rewrite fmap_cons. cbn [gather_requests or_raise mbind result_bind].
  destruct (Hf rid ltac:(by left)) as (st & c & Hst & Hc). rewrite Hst, Hc. cbn [or_raise mbind result_bind].
  assert (Hfr : f rid = Some (st, c)) by (unfold f; by rewrite Hst, Hc).
  cbn [omap list_omap] in Hpos |- *. rewrite Hfr in Hpos |- *.
  destruct (Hready rid st c Hst Hc) as [Hpl Henc].
  destruct (gather_positions_spec (mr_encoder_cache mr) rid (st_mm_positions st) 0
    (st_num_computed_tokens st) c Hpl) as (sl & -> & Hsum & Hall); [apply (Hpos (st, c)); by left|done|].
  cbn [mbind result_bind]. destruct IH as (sl' & -> & Hsum' & Hall').
  { intros e He. apply Hpos. by right. }
  { intros r Hr. apply Hf. by right. }
  cbn [mbind result_bind]. eexists. split; [done|]. split; [|by apply Forall_app].
  rewrite fmap_app, sum_z_app, fmap_cons, Hsum, Hsum'. done.
Qed.

(** ** Sampling metadata *)

Lemma gather_outputs_spec ids (m : gmap string CachedRequestState) :
  (∀ rid, rid ∈ ids -> is_Some (m !! rid)) ->
  gather_outputs (Some <$> ids) (st_output_token_ids <$> m) =
    Ok ((fun rid => st_output_token_ids (m !!! rid)) <$> ids).
Proof.
  induction ids as [|rid ids IH]; intros Hin; [done|]. rewrite !fmap_cons.
  cbn [gather_outputs or_raise mbind result_bind]. destruct (Hin rid ltac:(by left)) as [st Hst].
  rewrite lookup_fmap, (lookup_total_correct _ _ _ Hst), Hst. cbn [fmap option_fmap option_map or_raise mbind result_bind].
  rewrite IH; [done|]. intros r Hr. apply Hin. by right.
Qed.

Definition with_device (b : InputBatch) (d : DeviceSampling) : InputBatch :=
  mkBatch (max_num_reqs b) (vocab_size b) (req_ids b) (ib_req_id_to_index b) (ib_rows b)
    (ib_block_table b) (ib_sets b) (generators b) d.

Lemma prepare_sampling_spec mr A L W changed :
  runner_inv mr A L W ->
  ∃ d md, _prepare_sampling mr changed =
      Ok (with_state mr (mr_requests mr) (mr_encoder_cache mr) (with_device (input_batch mr) d), md) ∧
    runner_inv (with_state mr (mr_requests mr) (mr_encoder_cache mr) (with_device (input_batch mr) d)) A L W ∧
    sm_output_token_ids md =
      (fun rid => st_output_token_ids (mr_requests mr !!! rid)) <$> batch_ids (input_batch mr).
Proof.
  intros Hinv. destruct (batch_ids_spec _ A L W (proj1 Hinv)) as (Heq & _ & _ & _ & Hin).
  unfold _prepare_sampling, make_sampling_metadata. rewrite Heq, gather_outputs_spec.
  - cbn [mbind result_bind]. eexists _, _. split; [done|]. split; [|done].
    destruct Hinv as ([Hm Hh] & Hsub & Hids). split; [|done]. destruct Hm as [[] Hi Hd Hr Hg Hs].
    split; [|by destruct Hh]. by split; [split|..].
  - intros rid Hr. apply Hin in Hr as [st Hst]. exists st. eapply map_subseteq_spec; [apply (proj2 Hinv)|done].
Qed.

Lemma np_copy_take_all {A} n (src dst : list A) : (n <= length src)%nat -> take n (np_copy n src dst) = take n src.
Proof. intros H. apply np_copy_take; lia. Qed.

(** A feature set is empty iff no request of the batch has the feature. *)
Lemma tracks_empty s P (A : gmap string CachedRequestState) :
  tracks s P (st_sampling_params <$> A) ->
  (bool_decide (s = ∅) = true <-> ∀ rid st, A !! rid = Some st -> P (st_sampling_params st) = false).
Proof.
  intros Ht. rewrite bool_decide_eq_true. split.
  - intros -> rid st Hst. destruct (P (st_sampling_params st)) eqn:HP; [|done].
    assert (rid ∈ (∅ : gset string)); [|set_solver]. apply Ht. eexists. by rewrite lookup_fmap, Hst.
  - intros Hall. apply set_eq. intros rid. split; [|set_solver]. intros (sp & Hsp & HP)%Ht.
    rewrite lookup_fmap in Hsp. destruct (A !! rid) as [st|] eqn:Hst; [|done]. simplify_eq/=.
    by rewrite (Hall rid st Hst) in HP.
Qed.

(** ** A whole step of the worker *)

(** What the worker relies on of the tokens and blocks of a scheduler output, and of the
    sizes of its int32 index arrays. *)
Record step_ok (mr : ModelRunner) (so : SchedulerOutput) (L : nat) (bs : Z) : Prop := {
  sk_new : ∀ d c, d ∈ scheduled_new_reqs so -> num_scheduled_tokens so !! nrd_req_id d = Some c ->
    entry_ok bs (new_state d, c) ∧ (due (new_state d) c -> (st_num_tokens (new_state d) < L)%nat);
  sk_cached : ∀ d st c, d ∈ scheduled_cached_reqs so -> mr_requests mr !! crd_req_id d = Some st ->
    num_scheduled_tokens so !! crd_req_id d = Some c ->
    entry_ok bs (resume_state d st, c) ∧
    (due (resume_state d st) c -> (st_num_tokens (resume_state d st) < L)%nat);
  sk_total : total_num_scheduled_tokens so = sum_tokens (num_scheduled_tokens so);
  sk_max : total_num_scheduled_tokens so <= mr_max_num_tokens mr;
  sk_some : num_scheduled_tokens so ≠ ∅;
  sk_fit : int32_tables (max_num_reqs (input_batch mr)) L (Z.to_nat (mr_max_num_blocks_per_req mr));
}.

Lemma step_ok_plan mr mr1 A A1 L W so bs :
  output_ok mr A L W so -> step_ok mr so L bs -> states_updated mr mr1 so ->
  runner_inv mr1 A1 L W -> dom A1 = dom (num_scheduled_tokens so) ->
  Forall (entry_ok bs) (plan mr1 so) ∧
  (∀ e, e ∈ plan mr1 so -> due e.1 e.2 -> (st_num_tokens e.1 < L)%nat).
Proof.
  intros Hok Hsk Hsu Hinv Hdom.
  destruct (plan_spec mr1 A1 L W so Hinv Hdom) as (_ & _ & _ & Hlk).
  assert (Hall : ∀ e, e ∈ plan mr1 so -> entry_ok bs e ∧ (due e.1 e.2 -> (st_num_tokens e.1 < L)%nat)).
  { intros [st c] [i Hi]%list_elem_of_lookup. destruct (Hlk i _ Hi) as (rid & _ & Hst & Hc). cbn [fst snd] in *.
    assert (rid ∈ output_ids so) as Hr by (apply (oo_tokens _ _ _ _ _ Hok); by eexists).
    unfold output_ids in Hr. apply elem_of_app in Hr as [(d & -> & Hd)%list_elem_of_fmap|(d & -> & Hd)%list_elem_of_fmap].
    - rewrite (su_new _ _ _ Hsu d Hd) in Hst. simplify_eq. by apply (sk_new _ _ _ _ Hsk d c).
    - rewrite (su_cached _ _ _ Hsu d Hd) in Hst.
      destruct (mr_requests mr !! crd_req_id d) as [st0|] eqn:Hst0; [|done]. simplify_eq/=.
      by apply (sk_cached _ _ _ _ Hsk d st0 c). }
  split; [|intros e He; by apply Hall]. apply Forall_forall. intros e He. by apply Hall.
Qed.

(** The model returns one token id per row. *)
Definition model_ok
    (model : PreparedInputs -> list EncoderSlice -> SamplingMetadata -> result (list Z)) : Prop :=
  ∀ pi sl md, ∃ toks, model pi sl md = Ok toks ∧ length toks = length (pi_seq_lens pi).

Section execute.
Context (model : PreparedInputs -> list EncoderSlice -> SamplingMetadata -> result (list Z)).
Context (mr : ModelRunner) (A : gmap string CachedRequestState) (L W : nat) (so : SchedulerOutput).
Context (Hmodel : model_ok model) (Hinv : runner_inv mr A L W) (Hok : output_ok mr A L W so).
Context (Hbs : 0 < mr_block_size mr) (HW : mr_max_num_blocks_per_req mr = Z.of_nat W).
Context (Hsk : step_ok mr so L (mr_block_size mr)).
Context (Henc : ∀ mr1 ch, _update_states mr so = Ok (mr1, ch) -> encoder_ready mr1 so).

Lemma execute_model_spec :
  ∃ mr1 ch mr' mo A', _update_states mr so = Ok (mr1, ch) ∧ states_updated mr mr1 so ∧
    execute_model model mr so = Ok (mr', mo) ∧ runner_inv mr' A' L W ∧
    dom A' = dom (num_scheduled_tokens so) ∧
    (∀ rid st c, mr_requests mr1 !! rid = Some st -> num_scheduled_tokens so !! rid = Some c ->
      ∃ tok, sampled mo rid tok ∧ mr_requests mr' !! rid = Some (sampled_state st c tok)) ∧
    (∀ rid, num_scheduled_tokens so !! rid = None -> mr_requests mr' !! rid = mr_requests mr1 !! rid) ∧
    same_config mr mr'.
Proof.
  destruct (update_states_spec mr A L W so Hinv Hok) as (mr1 & ch & A1 & E1 & Hinv1 & Hdom1 & Hsu & Hcfg).
  pose proof Hcfg as (Cbs & CW & _ & Cmax & Cmm & Creq).
  assert (Hfit : int32_tables (max_num_reqs (input_batch mr1)) L W).
  { pose proof (sk_fit _ _ _ _ Hsk) as Hf. rewrite HW, Nat2Z.id in Hf. by rewrite Creq. }
  destruct (step_ok_plan mr mr1 A A1 L W so (mr_block_size mr) Hok Hsk Hsu Hinv1 Hdom1) as [Hent Hroom].
  destruct (gather_encoder_outputs_spec mr1 A1 L W so Hinv1 Hdom1) as (sl & E2 & _ & _); [|by eapply Henc|].
  { intros e He. rewrite Forall_forall in Hent. apply (en_pos _ _ (Hent e He)). }
  destruct (prepare_inputs_lemma mr1 A1 L W so Hinv1 Hdom1)
    as (mr2 & pi & E3 & Hpi & Hinv2 & Hrq2 & Hcfg2 & _ & Hids2 & Hix2);
    try (by rewrite ?Cbs, ?CW, ?Cmax; try done; apply Hsk).
  destruct (prepare_sampling_spec mr2 A1 L W ch Hinv2) as (d & md & E4 & Hinv3 & _).
  set (mr3 := with_state mr2 _ _ _) in *. set (b := input_batch mr3).
  assert (Hids3 : batch_ids b = batch_ids (input_batch mr1)).
  { unfold batch_ids, ib_num_reqs, b. cbn [mr3 with_state input_batch with_device req_ids ib_req_id_to_index].
    by rewrite Hids2, Hix2. }
  assert (Hplan3 : plan mr3 so = plan mr1 so).
  { unfold plan. fold b. rewrite Hids3. cbn [mr3 with_state mr_requests]. by rewrite Hrq2. }
  destruct (Hmodel pi (if is_multimodal_model mr1 then sl else []) md) as (toks & E5 & Hlen).
  assert (Hlen3 : length toks = ib_num_reqs b).
  { destruct (plan_spec mr3 A1 L W so Hinv3 Hdom1) as [Hl _]. fold b in Hl.
    rewrite Hlen, (po_seq_lens _ _ _ Hpi), length_fmap, <- Hl. by rewrite Hplan3. }
  destruct (book_loops mr3 A1 L W so Hinv3 Hdom1 (mr_block_size mr)) with (sampled := toks)
    as (reqs1 & rows1 & l & reqs' & rows' & E6 & E7 & Hbk); [by rewrite Hplan3..|done|]. fold b in E6, E7, Hbk.
  destruct (booked_inv mr3 A1 L W so Hinv3 Hdom1 (mr_block_size mr)) with (sampled := toks)
    (reqs' := reqs') (rows' := rows') (enc := mr_encoder_cache mr3) as (A' & HinvA & HdomA);
    [by rewrite Hplan3..|done|done|]. fold b in HinvA.
  assert (Hnames : ∃ names, (if bool_decide (Forall is_Some (take (ib_num_reqs b) (req_ids b)))
    then Ok (omap id (take (ib_num_reqs b) (req_ids b))) else Err AssertionError) = Ok names).
  { rewrite bool_decide_eq_true_2; [by eexists|]. unfold b. rewrite (proj1 (batch_ids_spec _ A1 L W (proj1 Hinv3))).
    apply Forall_fmap, Forall_forall. by eexists. }
  destruct Hnames as [names E8]. eexists mr1, ch, _, _, A'. split; [done|]. split; [done|]. split.
  { unfold execute_model. rewrite E1. cbn [mbind result_bind]. rewrite E2.
    replace (if is_multimodal_model mr1 then Ok sl else Ok []) with
      (Ok (if is_multimodal_model mr1 then sl else []) : result (list EncoderSlice))
      by (by destruct (is_multimodal_model mr1)).
    cbn [mbind result_bind]. rewrite E3. cbn [mbind result_bind]. rewrite E4. cbn [mbind result_bind].
    rewrite E5. cbn [mbind result_bind]. fold mr3. fold b. rewrite E6. cbn [mbind result_bind].
    rewrite E8. cbn [mbind result_bind]. rewrite E7. cbn [mbind result_bind]. reflexivity. }
  split; [done|]. split; [congruence|].
  destruct (batch_ids_spec b A1 L W (proj1 Hinv3)) as (_ & _ & _ & Hlook & Hin). split_and!.
  - intros rid st c Hst Hc. assert (rid ∈ batch_ids b) as Hr.
    { apply Hin, elem_of_dom. rewrite Hdom1. apply elem_of_dom. by eexists. }
    apply list_elem_of_lookup in Hr as [i Hi].
    destruct (book_row mr3 A1 L W so Hinv3 Hdom1 (mr_block_size mr)) with (sampled := toks) (i := i) (rid := rid)
      as (st' & c' & tok & row & _ & Hst' & Hc' & Ht & Hrow & _); [by rewrite Hplan3..|done|done|].
    destruct (bk_row _ _ _ _ _ Hbk i rid st' c' tok row Hi Hst' Hc' Ht Hrow) as [Hres _].
    cbn [mr3 with_state mr_requests] in Hst'. rewrite Hrq2 in Hst'. simplify_eq. exists tok.
    split; [|done]. exists i. split; [|done]. cbn [req_id_to_index]. by apply Hlook.
  - intros rid Hn. cbn [with_state mr_requests]. rewrite (bk_reqs _ _ _ _ _ Hbk).
    + cbn [mr3 with_state mr_requests]. by rewrite Hrq2.
    + fold b. rewrite (Hin rid), <- elem_of_dom, Hdom1, elem_of_dom, Hn. by intros [? ?].
  - destruct Hcfg as (? & ? & ? & ? & ? & ?), Hcfg2 as (? & ? & ? & ? & ? & ?). split_and!; cbn; congruence.
Qed.
End execute.
