(* ===== verification/RunnerTheorems.v ===== *)
(** * What the worker guarantees

    The properties of the model runner: the batch refines a map of request
    states, the prepared inputs are the per-request ones, the gathered encoder
    outputs cover exactly the scheduled placeholder tokens, a whole
    [execute_model] keeps the invariant and returns a token for every scheduled
    request, and a defect: stale sampling parameters after a request finishes. *)

From stdpp Require Import base tactics list gmap sets strings sorting.
From Stdlib Require Import ZArith QArith Lia.
From S2P Require Import Prelude.
From S2P Require Import SamplingParams.
From S2P Require Import Request.
From S2P Require Import BlockHash.
From S2P Require Import KVTheorems.
From S2P Require Import Scheduler.
From S2P Require Import SchedulerUpdate.
From S2P Require Import SchedulerTheorems.
From S2P Require Import InputBatch.
From S2P Require Import InputBatchInv.
From S2P Require Import ModelRunner.
From S2P Require Import RunnerInv.
From S2P Require Import PrepareInputs.
From S2P Require Import RunnerSample.
From S2P Require Import RunnerSpec.

Local Open Scope Z_scope.

(** ** A small runner *)

(** A model that always samples token 9. *)
Definition demo_model (pi : PreparedInputs) (sl : list EncoderSlice) (md : SamplingMetadata) :
    result (list Z) := Ok (replicate (length (pi_seq_lens pi)) 9).

Lemma demo_model_ok : model_ok demo_model.
Proof. intros pi sl md. eexists. split; [done|apply length_replicate]. Qed.

Definition demo_temp (t : pyfloat) : SamplingParams :=
  with_temperature t (plain_sampling (Some 8)).

Definition demo_mr0 : ModelRunner :=
  runner_init 2 8 8 3 100 true (Some {["b"%string := {[0%nat := 70%nat]}]})
    (0, sampling_row (demo_temp 0)).

(** Two new requests; the second has an image at positions 1 and 2, and only its
    first two tokens are scheduled. *)
Definition demo_new_a : NewRequestData :=
  mkNewRequestData "a" [1; 2; 3] None [] [] [] (demo_temp 0) [1; 2]%nat 0.
Definition demo_new_b : NewRequestData :=
  mkNewRequestData "b" [4; 5; 5; 7] None [None] [] [mkPlaceholder 1 2] (demo_temp 1) [3; 4]%nat 0.
Definition demo_so1 : SchedulerOutput :=
  mkSchedulerOutput [demo_new_a; demo_new_b] [] {["a"%string := 3; "b"%string := 2]} 5 ∅ 0 ∅ [].

Definition demo_mr1 : ModelRunner := (ok_or (demo_mr0, false) (_update_states demo_mr0 demo_so1)).1.

Lemma demo_output_ok : output_ok demo_mr0 ∅ 8 4 demo_so1.
Proof.
  split.
  - apply (bool_decide_unpack _). vm_compute. done.
  - intros rid. cbn. rewrite !lookup_insert_is_Some, !lookup_singleton_is_Some.
    rewrite elem_of_cons, list_elem_of_singleton. destruct (decide (rid = "a"%string)); naive_solver.
  - cbn. lia.
  - intros d Hd. split; [|by left]. cbn in Hd.
    apply elem_of_cons in Hd as [-> | ->%list_elem_of_singleton]; split; cbn; lia.
  - intros d Hd. by apply elem_of_nil in Hd.
Qed.

(** Closes [entry_ok] for concrete states. *)
Ltac compute_entry :=
  split; [vm_compute; congruence..|];
  repeat (apply Forall_cons_2; [vm_compute; congruence|]); apply Forall_nil_2.

Lemma demo_step_ok : step_ok demo_mr0 demo_so1 8 2.
Proof.
  split; try (vm_compute; congruence).
  - intros d c Hd Hc. cbn in Hd. apply elem_of_cons in Hd as [-> | ->%list_elem_of_singleton];
      vm_compute in Hc; simplify_eq; (split; [compute_entry|]); cbn; intros _; lia.
  - split; vm_compute; congruence.
Qed.

Lemma demo_update : ∃ A, _update_states demo_mr0 demo_so1 = Ok (demo_mr1, true) ∧
  runner_inv demo_mr1 A 8 4 ∧ dom A = dom (num_scheduled_tokens demo_so1) ∧
  states_updated demo_mr0 demo_mr1 demo_so1.
Proof.
  destruct (update_states_spec demo_mr0 ∅ 8 4 demo_so1 (runner_init_inv _ _ _ _ _ _ _ _) demo_output_ok)
    as (mr' & ch & A' & E & Hinv & Hdom & Hsu & _).
  assert (E' : _update_states demo_mr0 demo_so1 = Ok (demo_mr1, true)) by (vm_compute; reflexivity).
  rewrite E in E'. simplify_eq. eauto.
Qed.

Lemma demo_encoder_ready : encoder_ready demo_mr1 demo_so1.
Proof.
  destruct demo_update as (A & _ & _ & _ & Hsu). intros rid st c Hst Hc.
  assert (rid = "a"%string ∨ rid = "b"%string) as [->| ->].
  { destruct (decide (rid = "a"%string)); [by left|]. right. cbn in Hc.
    rewrite lookup_insert_ne in Hc by done. by apply lookup_singleton_Some in Hc as [<- _]. }
  - assert (st = new_state demo_new_a) as ->.
    { pose proof (su_new _ _ _ Hsu demo_new_a ltac:(left)) as Hn. cbn [nrd_req_id demo_new_a] in Hn. congruence. }
    split; [split; constructor|done].
  - assert (st = new_state demo_new_b) as ->.
    { pose proof (su_new _ _ _ Hsu demo_new_b ltac:(right; left)) as Hn. cbn [nrd_req_id demo_new_b] in Hn. congruence. }
    split; [split; repeat constructor|]. intros [|j] p Hj _; [|done].
    by exists 70%nat.
Qed.

(** C19: a step of the worker.  If the scheduler output respects the batch (see
    [output_ok] and [step_ok], which includes that the flattened tables and the cache slots
    have int32 indices), the encoder outputs of the scheduled placeholders
    are there and the model returns one token per row, [execute_model] returns;
    its output has a token for every scheduled request; a request whose scheduled
    tokens reach its end is extended by exactly that token, every other state is
    the one [_update_states] left; and the batch again represents exactly the
    scheduled requests, so the next step starts from the same invariant. *)
Theorem execute_model_correct model mr A L W so :
  model_ok model -> runner_inv mr A L W -> output_ok mr A L W so ->
  0 < mr_block_size mr -> mr_max_num_blocks_per_req mr = Z.of_nat W ->
  step_ok mr so L (mr_block_size mr) ->
  (∀ mr1 ch, _update_states mr so = Ok (mr1, ch) -> encoder_ready mr1 so) ->
  ∃ mr1 ch mr' mo A', _update_states mr so = Ok (mr1, ch) ∧ states_updated mr mr1 so ∧
    execute_model model mr so = Ok (mr', mo) ∧ runner_ok so mo ∧
    runner_inv mr' A' L W ∧ dom A' = dom (num_scheduled_tokens so) ∧
    (∀ rid st c, mr_requests mr1 !! rid = Some st -> num_scheduled_tokens so !! rid = Some c ->
      ∃ tok, sampled mo rid tok ∧ mr_requests mr' !! rid = Some (sampled_state st c tok)) ∧
    (∀ rid, num_scheduled_tokens so !! rid = None -> mr_requests mr' !! rid = mr_requests mr1 !! rid).
Proof.
  intros Hmodel Hinv Hok Hbs HW Hsk Henc.
  destruct (execute_model_spec model mr A L W so Hmodel Hinv Hok Hbs HW Hsk Henc)
    as (mr1 & ch & mr' & mo & A' & E1 & Hsu & E & Hinv' & Hdom & Hin & Hout & _).
  exists mr1, ch, mr', mo, A'. split; [done|]. split; [done|]. split; [done|]. split; [|done].
  intros rid [c Hc]. assert (rid ∈ output_ids so) as Hr by (apply (oo_tokens _ _ _ _ _ Hok); by eexists).
  assert (is_Some (mr_requests mr1 !! rid)) as [st Hst].
  { unfold output_ids in Hr. apply elem_of_app in Hr as [(d & -> & Hd)%list_elem_of_fmap|(d & -> & Hd)%list_elem_of_fmap].
    - rewrite (su_new _ _ _ Hsu d Hd). by eexists.
    - rewrite (su_cached _ _ _ Hsu d Hd). destruct (oo_cached _ _ _ _ _ Hok d Hd) as (_ & st & -> & _). by eexists. }
  destruct (Hin rid st c Hst Hc) as (tok & ? & _). by exists tok.
Qed.

Lemma execute_model_correct_witness :
  ∃ mr' mo tok, execute_model demo_model demo_mr0 demo_so1 = Ok (mr', mo) ∧ sampled mo "a" tok.
Proof.
  destruct (execute_model_correct demo_model demo_mr0 ∅ 8 4 demo_so1 demo_model_ok
    (runner_init_inv _ _ _ _ _ _ _ _) demo_output_ok ltac:(vm_compute; reflexivity) eq_refl demo_step_ok)
    as (mr1 & ch & mr' & mo & A' & _ & Hsu & E & _ & _ & _ & Hs & _).
  - intros mr1 ch E. destruct demo_update as (A & E' & _). rewrite E in E'. simplify_eq.
    apply demo_encoder_ready.
  - destruct (Hs "a"%string (new_state demo_new_a) 3) as (tok & Ht & _);
      [apply (su_new _ _ _ Hsu demo_new_a); left|reflexivity|]. by exists mr', mo, tok.
Defined.

(** C21: applying a scheduler output.  [_update_states] never raises on an output
    that respects the batch; afterwards the rows [0 .. n-1] hold exactly the
    scheduled requests, each row agreeing with the cached state in tokens,
    counters, blocks, sampling parameters and generator; new requests got their
    state, running ones their new blocks appended, resumed ones their blocks
    replaced, and finished ones are forgotten together with their encoder
    outputs. *)
Theorem update_states_correct mr A L W so :
  runner_inv mr A L W -> output_ok mr A L W so ->
  ∃ mr' changed A', _update_states mr so = Ok (mr', changed) ∧ states_updated mr mr' so ∧
    A' ⊆ mr_requests mr' ∧ dom A' = dom (num_scheduled_tokens so) ∧
    (∀ i, occupied (input_batch mr') i <-> (i < size (num_scheduled_tokens so))%nat) ∧
    (∀ rid st, A' !! rid = Some st -> ∃ i, req_ids (input_batch mr') !! i = Some (Some rid) ∧
      row_agrees st (input_batch mr') i).
Proof.
  intros Hinv Hok. destruct (update_states_spec mr A L W so Hinv Hok)
    as (mr' & ch & A' & E & ([Hm Hh] & Hsub & _) & Hdom & Hsu & _).
  exists mr', ch, A'. split; [done|]. split; [done|]. split; [done|]. split; [done|]. split.
  - intros i. assert (size A' = size (num_scheduled_tokens so)) as Hsz by (by rewrite <- !size_dom, Hdom).
    rewrite (ho_fill _ _ _ Hh), Hsz. cbn [length]. rewrite Nat.add_0_r.
    split; [tauto|]. intros ?. split; [done|apply not_elem_of_nil].
  - intros rid st Hst. destruct (proj1 (bm_dom _ _ _ _ Hm rid)) as [i Hi]; [by eexists|].
    exists i. split; [by apply (bm_index _ _ _ _ Hm)|]. by apply (bm_rows _ _ _ _ Hm rid i st Hi Hst).
Qed.

Lemma update_states_correct_witness :
  ∃ mr' changed, _update_states demo_mr0 demo_so1 = Ok (mr', changed) ∧
    (∀ i, occupied (input_batch mr') i <-> (i < 2)%nat).
Proof.
  destruct (update_states_correct demo_mr0 ∅ 8 4 demo_so1 (runner_init_inv _ _ _ _ _ _ _ _)
    demo_output_ok) as (mr' & ch & A' & E & _ & _ & _ & Ho & _). by exists mr', ch.
Defined.

(** C22: closing the holes.  Given the sorted list of the empty rows, [condense]
    returns (its inner loop always finds an occupied row and its assertion never
    fails); afterwards exactly the first [num_reqs] rows are occupied, by the same
    requests, and every request's row still holds its state. *)
Theorem condense_correct b A E L W :
  batch_rep b A E L W -> StronglySorted lt (reverse E) ->
  ∃ b', condense b E = Ok b' ∧ ib_num_reqs b' = ib_num_reqs b ∧
    (∀ i, occupied b' i <-> (i < ib_num_reqs b)%nat) ∧
    (∀ rid st, A !! rid = Some st -> ∃ i, req_ids b' !! i = Some (Some rid) ∧ row_agrees st b' i).
Proof.
  intros Hrep Hs. destruct (condense_spec b A E L W Hrep Hs) as (b' & Ec & Hrep' & _ & _).
  exists b'. rewrite (batch_rep_size _ _ _ _ _ Hrep), (batch_rep_size _ _ _ _ _ Hrep').
  split; [done|]. split; [done|]. destruct Hrep' as [Hm Hh]. split.
  - intros i. rewrite (ho_fill _ _ _ Hh). cbn [length]. rewrite Nat.add_0_r.
    split; [tauto|]. intros ?. split; [done|apply not_elem_of_nil].
  - intros rid st Hst. destruct (proj1 (bm_dom _ _ _ _ Hm rid)) as [i Hi]; [by eexists|].
    exists i. split; [by apply (bm_index _ _ _ _ Hm)|]. by apply (bm_rows _ _ _ _ Hm rid i st Hi Hst).
Qed.

Lemma condense_correct_witness :
  ∃ b', condense (ib_remove_request (input_batch demo_mr1) "a").1 [0%nat] = Ok b' ∧
    (∀ i, occupied b' i <-> (i < 1)%nat).
Proof.
  destruct demo_update as (A & _ & Hinv & _).
  assert (Hi : ib_req_id_to_index (input_batch demo_mr1) !! "a"%string = Some 0%nat) by (vm_compute; reflexivity).
  destruct (ib_remove_spec _ A [] 8 4 "a" 0 (proj1 Hinv) Hi) as (b1 & E & Hrep & _). rewrite E. cbn [fst].
  destruct (condense_correct b1 (delete "a"%string A) [0%nat] 8 4 Hrep) as (b' & Ec & _ & Ho & _);
    [repeat constructor|]. exists b'. split; [done|].
  assert (ib_num_reqs b1 = 1%nat) as <-; [|done].
  replace b1 with (ib_remove_request (input_batch demo_mr1) "a").1 by (by rewrite E). vm_compute. reflexivity.
Defined.

(** C20: the index arithmetic of the forward pass.  On a batch that represents the
    scheduled requests, and as long as [max_num_reqs * max_model_len] and [max_num_reqs *
    max_num_blocks_per_req] are below 2^31 and no slot of a request's blocks is beyond it,
    [_prepare_inputs] never raises, none of its int32 products and stores wraps, and its
    whole-array computations give, in row order, for every request the positions from its
    first uncomputed token on, the tokens at these positions, and the cache slots
    [block * block_size + offset] in the request's own blocks; the query offsets,
    sequence lengths and logits indices are those of the rows. *)
Theorem prepare_inputs_correct mr A L W so :
  runner_inv mr A L W -> dom A = dom (num_scheduled_tokens so) ->
  num_scheduled_tokens so ≠ ∅ -> 0 < mr_block_size mr ->
  mr_max_num_blocks_per_req mr = Z.of_nat W ->
  total_num_scheduled_tokens so = sum_tokens (num_scheduled_tokens so) ->
  total_num_scheduled_tokens so <= mr_max_num_tokens mr ->
  Forall (entry_ok (mr_block_size mr)) (plan mr so) ->
  int32_tables (max_num_reqs (input_batch mr)) L W ->
  length (plan mr so) = ib_num_reqs (input_batch mr) ∧
  ∃ mr' pi, _prepare_inputs mr so = Ok (mr', pi) ∧
    prepared_ok (mr_block_size mr) (plan mr so) pi.
Proof.
  intros Hinv Hdom Hne Hbs HW Ht Hmax Hok Hfit. split; [by apply (plan_spec mr A L W so)|].
  destruct (prepare_inputs_lemma mr A L W so) as (mr' & pi & E & Hpi & _); try done. eauto.
Qed.

Lemma prepare_inputs_correct_witness :
  ∃ mr' pi, _prepare_inputs demo_mr1 demo_so1 = Ok (mr', pi) ∧ prepared_ok 2 (plan demo_mr1 demo_so1) pi.
Proof.
  destruct demo_update as (A & _ & Hinv & Hdom & _).
  apply (prepare_inputs_correct demo_mr1 A 8 4 demo_so1 Hinv Hdom); try (vm_compute; congruence).
  - repeat (constructor; [compute_entry|]). constructor.
  - split; vm_compute; congruence.
Defined.

(** The encoder outputs handed to the model.  When the outputs of the scheduled
    placeholders have arrived, no assertion of [_gather_encoder_outputs] fails, and
    the gathered slices have as many rows as there are placeholder tokens among
    the scheduled tokens of the batch. *)
Theorem gather_encoder_outputs_correct mr A L W so :
  runner_inv mr A L W -> dom A = dom (num_scheduled_tokens so) ->
  (∀ e, e ∈ plan mr so -> 0 < e.2) -> encoder_ready mr so ->
  ∃ sl, _gather_encoder_outputs mr so = Ok sl ∧
    sum_z (slice_size <$> sl) = sum_z (scheduled_placeholders <$> plan mr so) ∧
    Forall (fun s => 0 <= es_start_idx s < es_end_idx s) sl.
Proof. apply gather_encoder_outputs_spec. Qed.

Lemma gather_encoder_outputs_correct_witness :
  ∃ sl, _gather_encoder_outputs demo_mr1 demo_so1 = Ok sl ∧ sum_z (slice_size <$> sl) = 1.
Proof.
  destruct demo_update as (A & _ & Hinv & Hdom & _).
  destruct (gather_encoder_outputs_correct demo_mr1 A 8 4 demo_so1 Hinv Hdom) as (sl & E & Hs & _).
  - apply Forall_forall. repeat (constructor; [vm_compute; reflexivity|]). constructor.
  - apply demo_encoder_ready.
  - exists sl. split; [done|]. rewrite Hs. vm_compute. reflexivity.
Defined.

(** Sampling metadata of a changed batch are those of the requests.  When
    [make_sampling_metadata] copies (the batch changed), entry [i] of every
    parameter array is the parameter of the request in row [i], the output tokens
    are that request's, and the flags that let the sampler skip work are exact:
    [all_greedy] holds iff every request of the batch is greedy, and so on. *)
Theorem sampling_metadata_correct mr A L W mr' md :
  runner_inv mr A L W -> _prepare_sampling mr true = Ok (mr', md) ->
  (∀ i rid st, ib_req_id_to_index (input_batch mr) !! rid = Some i -> A !! rid = Some st ->
    let sp := st_sampling_params st in
    sm_temperature md !! i = Some (temperature sp) ∧ sm_top_p md !! i = Some (top_p sp) ∧
    sm_top_k md !! i = Some (top_k sp) ∧ sm_min_tokens md !! i = Some (min_tokens sp) ∧
    sm_stop_token_ids md !! i = Some (all_stop_token_ids sp) ∧
    sm_output_token_ids md !! i = Some (st_output_token_ids st) ∧
    sm_generators md !! i = st_generator st ∧
    (sm_no_penalties md = false ->
      sm_frequency_penalties md !! i = Some (frequency_penalty sp) ∧
      sm_presence_penalties md !! i = Some (presence_penalty sp) ∧
      sm_repetition_penalties md !! i = Some (repetition_penalty sp))) ∧
  (sm_all_greedy md = true <-> ∀ rid st, A !! rid = Some st -> is_greedy (st_sampling_params st) = true) ∧
  (sm_all_random md = true <-> ∀ rid st, A !! rid = Some st -> is_greedy (st_sampling_params st) = false) ∧
  (sm_no_top_p md = true <-> ∀ rid st, A !! rid = Some st -> uses_top_p (st_sampling_params st) = false) ∧
  (sm_no_top_k md = true <-> ∀ rid st, A !! rid = Some st -> uses_top_k (st_sampling_params st) = false).
Proof.
  intros Hinv Hmd. destruct (prepare_sampling_spec mr A L W true Hinv) as (d & md' & E & _ & Hout).
  rewrite E in Hmd. simplify_eq. unfold _prepare_sampling, make_sampling_metadata in E.
  destruct (gather_outputs _ _) as [outs|]; [|done]. cbn [mbind result_bind negb] in E. simplify_eq.
  destruct (batch_ids_spec _ A L W (proj1 Hinv)) as (_ & _ & _ & Hlook & _).
  destruct Hinv as ([Hm Hh] & Hsub & _). set (b := input_batch mr) in *. split.
  - intros i rid st Hi Hst sp. destruct (bm_rows _ _ _ _ Hm rid i st Hi Hst)
      as [_ (row & _ & _ & Hrow & Hrh & _ & _ & _ & Hg)].
    assert (Hlt : (i < ib_num_reqs b)%nat).
    { rewrite (batch_rep_size b A [] L W (conj Hm Hh)).
      assert (occupied b i) as Ho by (exists rid; by apply (bm_index _ _ _ _ Hm)).
      apply (ho_fill _ _ _ Hh) in Ho as [Ho _]. simpl in Ho. lia. }
    assert (Hcap : (ib_num_reqs b <= length (ib_rows b))%nat).
    { rewrite (batch_rep_size b A [] L W (conj Hm Hh)), (bs_rows _ _ _ (bm_shape _ _ _ _ Hm)).
      pose proof (ho_cap _ _ _ Hh). simpl in *. lia. }
    assert (Hcol : ∀ (B : Type) (f : SamplingRow -> B) dst,
      take (ib_num_reqs b) (np_copy (ib_num_reqs b) ((fun row => f (row_sampling row)) <$> ib_rows b) dst) !! i =
      Some (f (sampling_row sp))).
    { intros B f dst. rewrite np_copy_take_all by (by rewrite length_fmap).
      rewrite lookup_take_lt by done. rewrite list_lookup_fmap, Hrow. simpl. by rewrite (rh_sampling _ _ Hrh). }
    assert (Hcol2 : ∀ (B : Type) (f : SamplingRow -> B),
      ((fun row => f (row_sampling row)) <$> take (ib_num_reqs b) (ib_rows b)) !! i = Some (f (sampling_row sp))).
    { intros B f. rewrite list_lookup_fmap, lookup_take_lt, Hrow by done. simpl. by rewrite (rh_sampling _ _ Hrh). }
    cbn [sm_temperature sm_top_p sm_top_k sm_min_tokens sm_stop_token_ids sm_output_token_ids sm_generators
      sm_no_penalties sm_frequency_penalties sm_presence_penalties sm_repetition_penalties] in *.
    unfold copy_to_device. split_and!; try (destruct (no_penalties b); by apply (Hcol pyfloat) || by apply (Hcol Z)).
    + by apply (Hcol2 Z row_min_tokens).
    + by apply (Hcol2 (gset Z) row_stop_token_ids).
    + rewrite Hout, list_lookup_fmap. apply Hlook in Hi. rewrite Hi. simpl.
      assert (mr_requests mr !! rid = Some st) as Hrq by (by eapply map_subseteq_spec).
      by rewrite (lookup_total_correct _ _ _ Hrq).
    + done.
    + intros ->. split_and!; by apply (Hcol pyfloat).
  - destruct (bm_sets _ _ _ _ Hm) as [Hgr Hra Htp Htk _ _ _ _ _].
    cbn [sm_all_greedy sm_all_random sm_no_top_p sm_no_top_k]. split; [|split; [|split]].
    + unfold all_greedy. rewrite (tracks_empty _ _ _ Hra). split; intros H rid st Hst; specialize (H rid st Hst);
        by destruct (is_greedy _).
    + by apply (tracks_empty _ _ _ Hgr).
    + by apply (tracks_empty _ _ _ Htp).
    + by apply (tracks_empty _ _ _ Htk).
Qed.

Lemma sampling_metadata_correct_witness :
  ∃ mr' md, _prepare_sampling demo_mr1 true = Ok (mr', md) ∧
    ∃ A, runner_inv demo_mr1 A 8 4 ∧
      (sm_all_greedy md = true <-> ∀ rid st, A !! rid = Some st -> is_greedy (st_sampling_params st) = true).
Proof.
  destruct demo_update as (A & _ & Hinv & _ & _).
  destruct (_prepare_sampling demo_mr1 true) as [[mr' md]|] eqn:E; [|vm_compute in E; congruence].
  exists mr', md. split; [done|]. exists A. split; [done|].
  apply (sampling_metadata_correct demo_mr1 A 8 4 mr' md Hinv E).
Defined.


(** ** Stale sampling parameters *)

(** The next step after [demo_so1] in which [a] has finished and [b] continues. *)
Definition stale_so : SchedulerOutput :=
  mkSchedulerOutput [] [mkCachedRequestData "b" false [] 2] {["b"%string := 2]} 2 ∅ 0 {["a"%string]} [].

(** A request that finished does not count as a change of the batch.  After a
    step with the greedy request [a] in row 0 and the random request [b] in row 1,
    the scheduler reports that [a] has finished: [_update_states] moves [b] to row
    0 but returns [false], so [_prepare_sampling] skips the copy and the sampler
    gets the temperature of [a], 0, for [b], whose temperature is 1. *)
Theorem stale_sampling_after_finish :
  ∃ mr1 mo mr2 mr3 md, execute_model demo_model demo_mr0 demo_so1 = Ok (mr1, mo) ∧
    _update_states mr1 stale_so = Ok (mr2, false) ∧
    ib_req_id_to_index (input_batch mr2) = {["b"%string := 0%nat]} ∧
    _prepare_sampling mr2 false = Ok (mr3, md) ∧
    sm_temperature md = [Fin 0] ∧ sm_all_random md = true ∧
    temperature ∘ st_sampling_params <$> mr_requests mr2 !! "b"%string = Some (Fin 1).
Proof.
  destruct (execute_model demo_model demo_mr0 demo_so1) as [[mr1 mo]|] eqn:E1; [|vm_compute in E1; congruence].
  assert (mr1 = (ok_or (demo_mr0, mo) (execute_model demo_model demo_mr0 demo_so1)).1) as -> by (by rewrite E1).
  eexists _, mo, _, _, _. split; [done|]. split; [vm_compute; reflexivity|].
  split; [vm_compute; reflexivity|]. split; [vm_compute; reflexivity|].
  split; [vm_compute; reflexivity|]. split; vm_compute; reflexivity.
Qed.
