(* ===== verification/WorkerSync.v ===== *)
(** * Scheduler and worker together

    The scheduler never sends a whole request twice: it sends differences, and the
    worker keeps its own copy of every request it was told about.  [in_sync] says that
    these copies agree with the scheduler's objects: same prompt, same generated
    tokens, same block table.  The composed step ([schedule], [execute_model],
    [update_from_output]) keeps it, which discharges the preconditions under which
    the worker's theorems ([RunnerTheorems]) and the scheduler's ([SchedulerTheorems])
    hold. *)

From stdpp Require Import base tactics list gmap sets strings.
From Stdlib Require Import ZArith QArith Lia.
From S2P Require Import Prelude.
From S2P Require Import SamplingParams.
From S2P Require Import Request.
From S2P Require Import BlockQueue.
From S2P Require Import BlockHash.
From S2P Require Import KVCacheManager.
From S2P Require Import KVCacheInv.
From S2P Require Import KVAlloc.
From S2P Require Import KVTheorems.
From S2P Require Import EncoderCache.
From S2P Require Import Scheduler.
From S2P Require Import SchedulerInv.
From S2P Require Import SchedulerLoops.
From S2P Require Import SchedulerStep.
From S2P Require Import SchedulerUpdate.
From S2P Require Import SchedulerTheorems.
From S2P Require Import SchedulerTrace.
From S2P Require Import InputBatch.
From S2P Require Import InputBatchInv.
From S2P Require Import ModelRunner.
From S2P Require Import RunnerInv.
From S2P Require Import PrepareInputs.
From S2P Require Import RunnerSample.
From S2P Require Import RunnerSpec.
From S2P Require Import RunnerTheorems.

Local Open Scope Z_scope.

Abbreviation kv := kv_cache_manager.

(** ** Agreement *)

(** The worker's copy has the tokens of the request. *)
Definition knows (st : CachedRequestState) (r : Request) : Prop :=
  st_prompt_token_ids st = prompt_token_ids r ∧ st_output_token_ids st = output_token_ids r.

(** ... and its block table and computed tokens. *)
Definition views (s : Scheduler) (x : nat) (st : CachedRequestState) : Prop :=
  knows st (obj s x) ∧ st_block_ids st = blocks_of s x ∧
  st_num_computed_tokens st = num_computed_tokens (obj s x).

Definition row_len (s : Scheduler) : nat := Z.to_nat (max_model_len s).
Definition table_len (s : Scheduler) : nat := Z.to_nat (max_num_blocks_per_req (kv s)).

(** The worker was configured like the scheduler, with tables and a cache whose indices are
    int32 values. *)
Record same_setup (s : Scheduler) (mr : ModelRunner) : Prop := {
  ss_bs : mr_block_size mr = block_size (kv s);
  ss_tables : mr_max_num_blocks_per_req mr = max_num_blocks_per_req (kv s);
  ss_reqs : max_num_running_reqs s <= Z.of_nat (max_num_reqs (input_batch mr));
  ss_tokens : max_num_scheduled_tokens s <= mr_max_num_tokens mr;
  ss_fit : int32_tables (max_num_reqs (input_batch mr)) (row_len s) (table_len s);
  ss_slots : num_gpu_blocks (kv s) * block_size (kv s) <= 2 ^ 31;
}.

Record in_sync (s : Scheduler) (mr : ModelRunner) : Prop := {
  sy_setup : same_setup s mr;
  sy_runner : ∃ A, runner_inv mr A (row_len s) (table_len s);
  sy_running : ∀ x, x ∈ running s -> ∃ st, mr_requests mr !! request_id (obj s x) = Some st ∧
    knows st (obj s x) ∧ st_block_ids st = blocks_of s x;
  sy_preempted : ∀ x, x ∈ waiting s -> status (obj s x) ≠ WAITING ->
    ∃ st, mr_requests mr !! request_id (obj s x) = Some st ∧ knows st (obj s x);
  sy_waiting : ∀ x, x ∈ waiting s -> status (obj s x) = WAITING ->
    mr_requests mr !! request_id (obj s x) = None ∧ output_token_ids (obj s x) = [];
  sy_finished : ∀ x, x ∈ live s -> request_id (obj s x) ∈ finished_req_ids s -> status (obj s x) = WAITING;
  sy_room : ∀ x, x ∈ live s -> num_tokens (obj s x) < max_model_len s;
}.

Lemma same_setup_limits s s' mr mr' :
  same_limits s s' -> same_config mr mr' -> same_setup s mr -> same_setup s' mr'.
Proof.
  intros [E1 E2 E3 F] (C1 & C2 & _ & C4 & _ & C6) []. split; try congruence.
  - by rewrite C1, (kf_bs _ _ F).
  - by rewrite C2, (kf_max _ _ F).
  - unfold row_len, table_len. by rewrite C6, E3, (kf_max _ _ F).
  - by rewrite (kf_num _ _ F), (kf_bs _ _ F).
Qed.

(** ** What the worker is told *)

Section step.
Context `{PyHash}.
Context (s s1 : Scheduler) (out : SchedulerOutput) (mr : ModelRunner) (fl fl1 : list nat).
Context (Hi : sched_inv dll s fl) (Hi1 : sched_inv dll s1 fl1) (Hp : schedule_post s s1 out).
Context (Htold : told s s1 out) (Hcore : ∀ x, req_core (obj s1 x) = req_core (obj s x)).
Context (Hsync : in_sync s mr).

Lemma core_fields x : request_id (obj s1 x) = request_id (obj s x) ∧
  prompt_token_ids (obj s1 x) = prompt_token_ids (obj s x) ∧
  output_token_ids (obj s1 x) = output_token_ids (obj s x) ∧ num_tokens (obj s1 x) = num_tokens (obj s x).
Proof.
  pose proof (Hcore x) as E. split_and!; [by apply req_core_id|exact (f_equal prompt_token_ids E)
    |exact (f_equal output_token_ids E)|by apply req_core_tokens].
Qed.

Lemma knows_core st x : knows st (obj s x) -> knows st (obj s1 x).
Proof. destruct (core_fields x) as (_ & E1 & E2 & _). unfold knows. by rewrite E1, E2. Qed.

Lemma live_eq x : x ∈ live s1 <-> x ∈ live s.
Proof.
  unfold live. rewrite !elem_of_app, (or_comm (x ∈ waiting s1)), (or_comm (x ∈ waiting s)), <-!elem_of_app.
  by rewrite (sp_order _ _ _ Hp).
Qed.

(** A request other than a new one is not among the finished ones. *)
Lemma not_finished x : x ∈ live s -> status (obj s x) ≠ WAITING -> request_id (obj s1 x) ∉ so_finished_req_ids out.
Proof.
  intros Hx Hst Hin. rewrite (proj1 (td_finished _ _ _ Htold)) in Hin. destruct (core_fields x) as (E & _). rewrite E in Hin.
  by apply Hst, (sy_finished _ _ Hsync).
Qed.

Lemma running_status x : x ∈ running s -> status (obj s x) ≠ WAITING.
Proof. intros Hx. by destruct (qo_run _ _ _ _ _ (si_queues _ _ _ Hi) x Hx) as (-> & _). Qed.

Lemma told_new d : d ∈ scheduled_new_reqs out -> ∃ x, x ∈ running s1 ∧
  nrd_req_id d = request_id (obj s1 x) ∧ mr_requests mr !! nrd_req_id d = None ∧ views s1 x (new_state d).
Proof.
  intros Hd. destruct (td_new _ _ _ Htold d Hd) as (x & Hx1 & Hx & Hst & ->).
  destruct (sy_waiting _ _ Hsync x Hx Hst) as [Hn Ho]. destruct (core_fields x) as (E1 & _ & E3 & _).
  exists x. split_and!; try done; [cbn; by rewrite E1|]. split; [|done]. split; [done|]. cbn. by rewrite E3.
Qed.

Lemma told_cached d : d ∈ scheduled_cached_reqs out -> ∃ x st, x ∈ running s1 ∧
  crd_req_id d = request_id (obj s1 x) ∧ (crd_req_id d ∉ so_finished_req_ids out) ∧
  mr_requests mr !! crd_req_id d = Some st ∧ views s1 x (resume_state d st).
Proof.
  intros Hd. destruct (td_cached _ _ _ Htold d Hd) as (x & Hx1 & Eid & Enc & Hd').
  destruct (core_fields x) as (E1 & _). rewrite Eid.
  destruct (crd_resumed_from_preemption d) eqn:Er; destruct Hd' as (Hx & Hd').
  - destruct Hd' as [Hst Hbl]. destruct (sy_preempted _ _ Hsync x Hx ltac:(congruence)) as (st & Hst' & Hk).
    rewrite <-E1 in Hst'. exists x, st. split; [done|]. split; [done|]. split.
    { apply not_finished; [apply elem_of_app; by left|congruence]. }
    split; [done|]. split; [by apply knows_core|]. cbn. by rewrite Er.
  - destruct (sy_running _ _ Hsync x Hx) as (st & Hst' & Hk & Hb). rewrite <-E1 in Hst'.
    exists x, st. split; [done|]. split; [done|]. split.
    { apply not_finished; [apply elem_of_app; by right|by apply running_status]. }
    split; [done|]. split; [by apply knows_core|]. cbn. by rewrite Er, Hb, Hd'.
Qed.

(** A request that was given tokens and is seen by the worker. *)
Lemma views_ok x st c : x ∈ running s1 -> views s1 x st ->
  Z.of_nat (st_num_tokens st) = num_tokens (obj s1 x) ∧ fits (row_len s) (table_len s) st ∧
  (st_num_tokens st < row_len s)%nat ∧
  (num_scheduled_tokens out !! request_id (obj s1 x) = Some c -> entry_ok (block_size (kv s)) (st, c)).
Proof.
  intros Hx ([K1 K2] & Hb & Hnc). assert (Hl : x ∈ live s1) by (apply elem_of_app; by right).
  pose proof (si_queues _ _ _ Hi1) as Q. destruct (qo_req _ _ _ _ _ Q x Hl) as [Hwf _ _ _ _ _].
  assert (Hn : Z.of_nat (st_num_tokens st) = num_tokens (obj s1 x)).
  { unfold st_num_tokens, num_tokens. by rewrite K1, K2, (rwf_tokens _ Hwf), length_app. }
  pose proof (sy_room _ _ Hsync x (proj1 (live_eq x) Hl)) as Hroom. destruct (core_fields x) as (_ & _ & _ & Et).
  destruct (qo_run _ _ _ _ _ Q x Hx) as (_ & Hc & bl & k & Hbl & _ & Hlen & _).
  assert (Hbl' : blocks_of s1 x = bl) by (unfold blocks_of; by rewrite Hbl).
  pose proof (td_limits _ _ _ Htold) as Lm. rewrite (kf_max _ _ (sl_kv _ _ Lm)) in Hlen.
  split; [done|]. split; [|split]; unfold row_len, table_len in *; [split; [lia|rewrite Hb, Hbl'; lia]|lia|].
  intros Hs. destruct (sp_given _ _ _ Hp _ _ Hs) as (y & Hy & Ey & Hg).
  assert (y = x) as -> by (apply (qo_ids _ _ _ _ _ Q); [apply elem_of_app; by right|done..]).
  destruct Hg as (Hn0 & Htot & bl' & k' & Hbl2 & Hcov & _). rewrite Hbl in Hbl2. injection Hbl2 as <-.
  rewrite (kf_bs _ _ (sl_kv _ _ Lm)) in Hcov. split; cbn [fst snd]; rewrite ?Hnc, ?Hb, ?Hbl'; try lia.
  apply Forall_forall. intros blk Hblk. pose proof (si_kv _ _ _ Hi1) as Hkv.
  pose proof (req_block_range _ _ _ _ _ _ Hkv Hbl Hblk) as Hin. pose proof (ki_num _ _ _ _ Hkv) as Hnum.
  rewrite (kf_num _ _ (sl_kv _ _ Lm)) in Hnum. pose proof (ss_slots _ _ (sy_setup _ _ Hsync)).
  pose proof (ki_bs _ _ _ _ (si_kv _ _ _ Hi)). nia.
Qed.

Lemma sync_output_ok A : runner_inv mr A (row_len s) (table_len s) -> output_ok mr A (row_len s) (table_len s) out.
Proof.
  intros (_ & Hsub & _). split.
  - apply (td_nodup _ _ _ Htold).
  - apply (sp_data _ _ _ Hp).
  - assert (Hle : (length (output_ids out) <= length ((fun x => request_id (obj s1 x)) <$> running s1))%nat).
    { apply submseteq_length, NoDup_submseteq; [apply (td_nodup _ _ _ Htold)|]. intros rid Hr. apply list_elem_of_fmap.
      unfold output_ids in Hr. apply elem_of_app in Hr as [(d & -> & Hd)%list_elem_of_fmap|(d & -> & Hd)%list_elem_of_fmap].
      - destruct (told_new d Hd) as (x & ? & ? & _). eauto.
      - destruct (told_cached d Hd) as (x & st & ? & ? & _). eauto. }
    rewrite length_fmap in Hle. pose proof (sp_running _ _ _ Hp). pose proof (ss_reqs _ _ (sy_setup _ _ Hsync)). lia.
  - intros d Hd. destruct (told_new d Hd) as (x & Hx & Eid & Hn & Hv). split.
    + by apply (views_ok x _ 0 Hx Hv).
    + left. destruct (A !! nrd_req_id d) as [st|] eqn:E; [|done]. by rewrite (lookup_weaken _ _ _ _ E Hsub) in Hn.
  - intros d Hd. destruct (told_cached d Hd) as (x & st & Hx & Eid & Hnf & Hst & Hv). split; [done|].
    exists st. split; [done|]. by apply (views_ok x _ 0 Hx Hv).
Qed.

Lemma sync_step_ok : num_scheduled_tokens out ≠ ∅ -> step_ok mr out (row_len s) (mr_block_size mr).
Proof.
  intros Hne. rewrite (ss_bs _ _ (sy_setup _ _ Hsync)). split.
  - intros d c Hd Hc. destruct (told_new d Hd) as (x & Hx & Eid & _ & Hv). rewrite Eid in Hc.
    destruct (views_ok x _ c Hx Hv) as (_ & _ & ? & He). auto.
  - intros d st c Hd Hst Hc. destruct (told_cached d Hd) as (x & st' & Hx & Eid & _ & Hst' & Hv).
    rewrite Hst in Hst'. injection Hst' as <-. rewrite Eid in Hc.
    destruct (views_ok x _ c Hx Hv) as (_ & _ & ? & He). auto.
  - apply (sp_total _ _ _ Hp).
  - pose proof (sp_budget _ _ _ Hp). pose proof (ss_tokens _ _ (sy_setup _ _ Hsync)). lia.
  - done.
  - rewrite (ss_tables _ _ (sy_setup _ _ Hsync)). apply (ss_fit _ _ (sy_setup _ _ Hsync)).
Qed.

(** The parameters of the worker's step. *)
Lemma sync_params : num_scheduled_tokens out ≠ ∅ ->
  0 < mr_block_size mr ∧ mr_max_num_blocks_per_req mr = Z.of_nat (table_len s).
Proof.
  intros Hne. pose proof (sy_setup _ _ Hsync) as Hss. split; [rewrite (ss_bs _ _ Hss); apply (si_kv _ _ _ Hi)|].
  rewrite (ss_tables _ _ Hss). unfold table_len. rewrite Z2Nat.id; [done|].
  apply map_choose in Hne as (rid & c & Hrc). destruct (sp_given _ _ _ Hp _ _ Hrc) as (x & Hx & _).
  destruct (qo_run _ _ _ _ _ (si_queues _ _ _ Hi1) x Hx) as (_ & _ & bl & k & _ & _ & Hlen & _).
  rewrite (kf_max _ _ (sl_kv _ _ (td_limits _ _ _ Htold))) in Hlen. lia.
Qed.

(** The worker's copies after [_update_states]. *)
Lemma updated_scheduled mr1 x c : states_updated mr mr1 out -> x ∈ running s1 ->
  num_scheduled_tokens out !! request_id (obj s1 x) = Some c ->
  ∃ st, mr_requests mr1 !! request_id (obj s1 x) = Some st ∧ views s1 x st.
Proof.
  intros Hsu Hx Hc. pose proof (si_queues _ _ _ Hi1) as Q.
  assert (Hr : request_id (obj s1 x) ∈ output_ids out) by (apply (sp_data _ _ _ Hp); by eexists).
  assert (Huniq : ∀ y, y ∈ running s1 -> request_id (obj s1 x) = request_id (obj s1 y) -> y = x).
  { intros y Hy E. apply (qo_ids _ _ _ _ _ Q); [apply elem_of_app; by right..|done]. }
  unfold output_ids in Hr. apply elem_of_app in Hr as [(d & Ed & Hd)%list_elem_of_fmap|(d & Ed & Hd)%list_elem_of_fmap].
  - destruct (told_new d Hd) as (y & Hy & Ey & _ & Hv). rewrite (Huniq y Hy ltac:(congruence)) in Hv.
    exists (new_state d). split; [|done]. rewrite Ed. by apply (su_new _ _ _ Hsu).
  - destruct (told_cached d Hd) as (y & st & Hy & Ey & _ & Hst & Hv). rewrite (Huniq y Hy ltac:(congruence)) in Hv.
    exists (resume_state d st). split; [|done]. rewrite Ed, (su_cached _ _ _ Hsu d Hd), Hst. done.
Qed.

Lemma updated_other mr1 x : states_updated mr mr1 out ->
  num_scheduled_tokens out !! request_id (obj s1 x) = None ->
  (mr_requests mr !! request_id (obj s1 x) = None -> mr_requests mr1 !! request_id (obj s1 x) = None) ∧
  (x ∈ live s -> status (obj s x) ≠ WAITING ->
   mr_requests mr1 !! request_id (obj s1 x) = mr_requests mr !! request_id (obj s1 x)).
Proof.
  intros Hsu Hn.
  assert (Hno : request_id (obj s1 x) ∉ output_ids out).
  { intros Hr. apply (sp_data _ _ _ Hp) in Hr as [c Hc]. congruence. }
  split.
  - intros Hnone. destruct (decide (request_id (obj s1 x) ∈ so_finished_req_ids out)) as [Hf|Hf].
    + by apply (su_finished _ _ _ Hsu).
    + by rewrite (su_other _ _ _ Hsu).
  - intros Hx Hst. apply (su_other _ _ _ Hsu); [done|]. by apply not_finished.
Qed.

(** ** After the step *)

Context (mr1 mr' : ModelRunner) (mo : ModelRunnerOutput) (s2 : Scheduler) (fl2 : list nat).
Context (outs : list EngineCoreOutput).
Context (Hsu : states_updated mr mr1 out) (Hi2 : sched_inv dll s2 fl2) (Hw2 : waiting s2 = waiting s1).
Context (Hcfg : same_config mr mr').
Context (Hup : update_post s1 s2 (num_scheduled_tokens out) mo (running s1) (running s2) outs).
Context (Hin : ∀ rid st c, mr_requests mr1 !! rid = Some st -> num_scheduled_tokens out !! rid = Some c ->
  ∃ tok, sampled mo rid tok ∧ mr_requests mr' !! rid = Some (sampled_state st c tok)).
Context (Hout : ∀ rid, num_scheduled_tokens out !! rid = None -> mr_requests mr' !! rid = mr_requests mr1 !! rid).

Lemma kept_running x : x ∈ running s2 -> x ∈ running s1.
Proof. intros Hx. by eapply elem_of_sublist, (up_sublist _ _ _ _ _ _ _ Hup). Qed.

Lemma update_id x : request_id (obj s2 x) = request_id (obj s1 x).
Proof. apply (up_prompts _ _ _ _ _ _ _ Hup x). Qed.

(** Extending [all_token_ids] extends the outputs. *)
Lemma outputs_of_tokens r r' ts : request_wf r -> request_wf r' -> prompt_token_ids r' = prompt_token_ids r ->
  all_token_ids r' = all_token_ids r ++ ts -> output_token_ids r' = output_token_ids r ++ ts.
Proof.
  intros W W' Ep Ea. rewrite (rwf_tokens _ W), (rwf_tokens _ W'), Ep, <-app_assoc in Ea. by apply app_inv_head in Ea.
Qed.

Lemma sampled_fun rid t t' : sampled mo rid t -> sampled mo rid t' -> t = t'.
Proof. intros (i & E1 & E2) (j & E3 & E4). congruence. Qed.

(** A request that stays: the worker appended the same token, or none. *)
Lemma after_running x : x ∈ running s2 -> ∃ st, mr_requests mr' !! request_id (obj s2 x) = Some st ∧
  knows st (obj s2 x) ∧ st_block_ids st = blocks_of s2 x.
Proof.
  intros Hx. pose proof (kept_running x Hx) as Hx1. rewrite update_id.
  assert (Hbl : blocks_of s2 x = blocks_of s1 x).
  { unfold blocks_of. rewrite update_id, (up_tables _ _ _ _ _ _ _ Hup); [done|]. intros y Hy E.
    assert (y = x) as ->; [|done].
    apply (qo_ids _ _ _ _ _ (si_queues _ _ _ Hi1)); [apply elem_of_app; by right..|done]. }
  destruct (up_each _ _ _ _ _ _ _ Hup x Hx1) as (keep & o & Hu & Hkeep & _).
  assert (keep = true) as -> by by apply Hkeep. rewrite Hbl. unfold scheduled_for in Hu.
  destruct (num_scheduled_tokens out !! request_id (obj s1 x)) as [c|] eqn:Hc; cbn [default from_option id] in Hu.
  - destruct (updated_scheduled mr1 x c Hsu Hx1 Hc) as (st & Hst & Hv).
    destruct (Hin _ st c Hst Hc) as (tok & Htok & Hst'). exists (sampled_state st c tok).
    destruct (views_ok x st c Hx1 Hv) as (Hn & _ & _ & He). specialize (He Hc). pose proof (en_pos _ _ He) as Hcpos. cbn in Hcpos.
    destruct Hv as ([K1 K2] & Hb & Hnc). split; [done|]. unfold sampled_state.
    assert (Hdue : due st c <-> num_computed_tokens (obj s1 x) + c = num_tokens (obj s1 x))
      by (unfold due; by rewrite Hnc, Hn).
    destruct o as [eo|].
    + destruct Hu as (_ & Hd & t & Ht & Hall & _). rewrite decide_True by by apply Hdue.
      rewrite (sampled_fun _ _ _ Htok Ht). split; [|by rewrite <-Hb]. split; cbn.
      * rewrite K1. symmetry. apply (up_prompts _ _ _ _ _ _ _ Hup x).
      * rewrite K2. symmetry. apply outputs_of_tokens; [| |apply (up_prompts _ _ _ _ _ _ _ Hup x)|done].
        -- apply (qo_req _ _ _ _ _ (si_queues _ _ _ Hi1)), elem_of_app. by right.
        -- apply (qo_req _ _ _ _ _ (si_queues _ _ _ Hi2)), elem_of_app. by right.
    + destruct Hu as (_ & Hr & Hlt). specialize (Hlt ltac:(lia)). rewrite decide_False by (rewrite Hdue; lia).
      rewrite Hr. by split.
  - destruct o as [eo|]; [by destruct Hu|]. destruct Hu as (_ & Hr & _). rewrite Z.add_0_r in Hr.
    destruct (td_idle _ _ _ Htold x Hx1 Hc) as [Hx0 Hb]. rewrite Hb, Hr, (Hout _ Hc).
    destruct (updated_other mr1 x Hsu Hc) as [_ ->]; [|apply elem_of_app; by right|by apply running_status].
    destruct (core_fields x) as (E1 & E2 & E3 & _). destruct (sy_running _ _ Hsync x Hx0) as (st & Hst & [K1 K2] & Hst2).
    exists st. rewrite E1. split; [done|]. split; [|done]. split; cbn; congruence.
Qed.

Lemma after_waiting x : x ∈ waiting s2 ->
  (status (obj s2 x) ≠ WAITING -> ∃ st, mr_requests mr' !! request_id (obj s2 x) = Some st ∧ knows st (obj s2 x)) ∧
  (status (obj s2 x) = WAITING -> mr_requests mr' !! request_id (obj s2 x) = None ∧ output_token_ids (obj s2 x) = []).
Proof.
  rewrite Hw2. intros Hx. assert (Hl1 : x ∈ live s1) by (apply elem_of_app; by left).
  assert (Hnr : x ∉ running s1).
  { pose proof (qo_nodup _ _ _ _ _ (si_queues _ _ _ Hi1)) as Hnd. apply NoDup_app in Hnd as (_ & Hd & _). by apply Hd. }
  rewrite (up_rest _ _ _ _ _ _ _ Hup x Hnr). pose proof (proj1 (live_eq x) Hl1) as Hl.
  assert (Hc : num_scheduled_tokens out !! request_id (obj s1 x) = None).
  { destruct (num_scheduled_tokens out !! _) as [c|] eqn:E; [|done].
    destruct (sp_given _ _ _ Hp _ _ E) as (y & Hy & Ey & _). assert (y = x) as -> by
      (apply (qo_ids _ _ _ _ _ (si_queues _ _ _ Hi1)); [apply elem_of_app; by right|done..]). done. }
  rewrite (Hout _ Hc). destruct (updated_other mr1 x Hsu Hc) as [Hn Ho]. rewrite (td_waiting _ _ _ Htold x Hx).
  destruct (core_fields x) as (E1 & _ & E3 & _). split.
  - intros Hst. rewrite (Ho Hl Hst), E1. apply elem_of_app in Hl as [Hl|Hl].
    + destruct (sy_preempted _ _ Hsync x Hl Hst) as (st & ? & ?). exists st. split; [done|by apply knows_core].
    + destruct (sy_running _ _ Hsync x Hl) as (st & ? & ? & _). exists st. split; [done|by apply knows_core].
  - intros Hst. assert (Hxw : x ∈ waiting s).
    { apply elem_of_app in Hl as [?|Hr]; [done|]. by destruct (running_status x Hr). }
    destruct (sy_waiting _ _ Hsync x Hxw Hst) as [Hnone Hz]. rewrite E3. split; [|done]. apply Hn. by rewrite E1.
Qed.

Lemma sync_after : (∃ A, runner_inv mr' A (row_len s) (table_len s)) -> in_sync s2 mr'.
Proof.
  intros Hrun. assert (Lm : same_limits s s2).
  { transitivity s1; [apply (td_limits _ _ _ Htold)|apply (up_limits _ _ _ _ _ _ _ Hup)]. }
  assert (Hl2 : ∀ x, x ∈ live s2 -> x ∈ live s1).
  { intros x [Hx|Hx]%elem_of_app; apply elem_of_app; [left; by rewrite <-Hw2|right; by apply kept_running]. }
  split.
  - by eapply same_setup_limits, Hsync.
  - unfold row_len, table_len in *. by rewrite (sl_mml _ _ Lm), (kf_max _ _ (sl_kv _ _ Lm)).
  - apply after_running.
  - intros x Hx. by apply after_waiting.
  - intros x Hx. by apply after_waiting.
  - intros x Hx Hf. exfalso. apply (up_finished _ _ _ _ _ _ _ Hup) in Hf as [Hf|(y & Hy & Hk & E)].
    { by rewrite (proj2 (td_finished _ _ _ Htold)) in Hf. }
    rewrite update_id in E. assert (y = x) as ->.
    { apply (qo_ids _ _ _ _ _ (si_queues _ _ _ Hi1)); [apply elem_of_app; by right|by apply Hl2|done]. }
    apply elem_of_app in Hx as [Hx|Hx]; [|done]. rewrite Hw2 in Hx.
    pose proof (qo_nodup _ _ _ _ _ (si_queues _ _ _ Hi1)) as Hnd. apply NoDup_app in Hnd as (_ & Hd & _). by apply (Hd x).
  - intros x Hx. pose proof (Hl2 x Hx) as Hx1. rewrite (sl_mml _ _ Lm).
    assert (Hold : num_tokens (obj s1 x) < max_model_len s).
    { destruct (core_fields x) as (_ & _ & _ & ->). apply (sy_room _ _ Hsync). by apply live_eq. }
    apply elem_of_app in Hx as [Hx|Hx].
    + rewrite Hw2 in Hx. rewrite (up_rest _ _ _ _ _ _ _ Hup); [done|].
      pose proof (qo_nodup _ _ _ _ _ (si_queues _ _ _ Hi1)) as Hnd. apply NoDup_app in Hnd as (_ & Hd & _). by apply Hd.
    + destruct (up_each _ _ _ _ _ _ _ Hup x (kept_running x Hx)) as (keep & o & Hu & Hkeep & _).
      assert (keep = true) as -> by by apply Hkeep. destruct o as [eo|]; [|by destruct Hu as (_ & -> & _)].
      destruct Hu as (_ & _ & t & _ & Hall & _ & _ & Hst). unfold length_capped in Hst.
      rewrite (sl_mml _ _ (td_limits _ _ _ Htold)) in Hst.
      assert (num_tokens (obj s2 x) = num_tokens (append_output_token_ids [t] (obj s1 x))) as -> by
        (unfold num_tokens; by rewrite Hall).
      destruct (Z.lt_ge_cases (num_tokens (append_output_token_ids [t] (obj s1 x))) (max_model_len s)) as [|Hge]; [done|].
      exfalso. assert (true = false); [|done]. apply Hst. left. by left.
Qed.
End step.

(** ** The other operations *)

(** Requests leave, nothing else changes for those that stay. *)
Record shrunk (s s' : Scheduler) : Prop := {
  sh_running : running s' ⊆ running s;
  sh_waiting : waiting s' ⊆ waiting s;
  sh_objs : ∀ x, x ∈ live s' -> obj s' x = obj s x;
  sh_tables : ∀ x, x ∈ running s' -> blocks_of s' x = blocks_of s x;
  sh_finished : ∀ x, x ∈ live s' -> request_id (obj s' x) ∈ finished_req_ids s' ->
    request_id (obj s x) ∈ finished_req_ids s;
  sh_limits : same_limits s s';
}.

#[export] Instance shrunk_preorder : PreOrder shrunk.
Proof.
  split; [by split|]. intros s1 s2 s3 [R1 W1 O1 B1 F1 L1] [R2 W2 O2 B2 F2 L2].
  assert (Hl : ∀ x, x ∈ live s3 -> x ∈ live s2).
  { intros x [Hx|Hx]%elem_of_app; apply elem_of_app; auto. }
  split; [by etransitivity..| | | |by etransitivity].
  - intros x Hx. rewrite O2, O1; auto.
  - intros x Hx. rewrite B2, B1; auto.
  - intros x Hx Hf. apply F1; auto.
Qed.

Lemma shrunk_sync s s' mr : shrunk s s' -> in_sync s mr -> in_sync s' mr.
Proof.
  intros [R W O B F L] [S1 S2 S3 S4 S5 S6 S7].
  assert (Hl : ∀ x, x ∈ live s' -> x ∈ live s).
  { intros x [Hx|Hx]%elem_of_app; apply elem_of_app; auto. }
  assert (Or : ∀ x, x ∈ running s' -> obj s' x = obj s x) by (intros; apply O, elem_of_app; by right).
  assert (Ow : ∀ x, x ∈ waiting s' -> obj s' x = obj s x) by (intros; apply O, elem_of_app; by left).
  split.
  - eapply same_setup_limits; [done|by split_and!|done].
  - unfold row_len, table_len in *. by rewrite (sl_mml _ _ L), (kf_max _ _ (sl_kv _ _ L)).
  - intros x Hx. rewrite (Or x Hx), (B x Hx). apply S3. auto.
  - intros x Hx. rewrite (Ow x Hx). apply S4. auto.
  - intros x Hx. rewrite (Ow x Hx). apply S5. auto.
  - intros x Hx Hf. pose proof (F x Hx Hf) as Hf'. rewrite (O x Hx) in *. apply S6; auto.
  - intros x Hx. rewrite (O x Hx), (sl_mml _ _ L). apply S7. auto.
Qed.

Section finish.
Context `{PyHash}.

Lemma finish_request_shrunk s fl st rid s' :
  sched_inv dll s fl -> status_is_finished st = true -> finish_request st rid s = Ok s' -> shrunk s s'.
Proof.
  intros Hi Hfin E. pose proof (finish_request_spec dll st rid s fl Hi Hfin) as Hspec.
  unfold finish_request in E. destruct (requests s !! rid) as [ref|] eqn:Hreq; [|by simplify_eq].
  assert (E0 : finish_request st rid s = Ok s') by (unfold finish_request; by rewrite Hreq).
  case_decide as Hca; [|congruence].
  destruct Hspec as (s'' & fl'' & E1 & Hi' & Hperm & Hsw & Hsr & _). rewrite E0 in E1. injection E1 as <-.
  apply bind_Ok_inv in E as (s1 & Eq & E).
  assert (Hs1 : ∃ w r, s1 = with_queues s w r) by (case_decide; apply bind_Ok_inv in Eq as (l & _ & Eq); simplify_eq; eauto).
  destruct Hs1 as (w & r & ->). set (r' := set_status st (obj s ref)) in *.
  apply free_request_frame in E as (Ef & Eo & Er & Et & Em & _ & _ & Ek).
  assert (Hobj : ∀ x, x ≠ ref -> obj s' x = obj s x).
  { intros x Hx. rewrite Eo, obj_with_obj, decide_False by done. done. }
  pose proof (qo_nodup _ _ _ _ _ (si_queues _ _ _ Hi)) as Hnd.
  change (waiting s ++ running s) with (live s) in Hnd. rewrite Hperm in Hnd. apply NoDup_cons in Hnd as [Hnr _].
  assert (Hne : ∀ x, x ∈ live s' -> x ≠ ref) by (by intros x Hx ->).
  assert (Hids : ∀ x, x ∈ live s' -> request_id (obj s x) ≠ request_id (obj s ref)).
  { intros x Hx E. apply (Hne x Hx). apply (qo_ids _ _ _ _ _ (si_queues _ _ _ Hi)); [| |done];
      change (waiting s ++ running s) with (live s); rewrite Hperm; [by right|by left]. }
  destruct (free_spec dll (kv s) fl r' (si_kv _ _ _ Hi)) as (m' & freed & E1 & _ & F & R & _).
  change (kv (with_obj (with_queues s w r) ref r')) with (kv s) in Ek. rewrite Ek in E1. injection E1 as <-.
  split.
  - intros x Hx. by eapply elem_of_sublist.
  - intros x Hx. by eapply elem_of_sublist.
  - intros x Hx. apply Hobj. auto.
  - intros x Hx. assert (Hl : x ∈ live s') by (apply elem_of_app; by right).
    unfold blocks_of. rewrite (Hobj x (Hne x Hl)), R, lookup_delete_ne; [done|]. by apply not_eq_sym, Hids.
  - intros x Hx. rewrite (Hobj x (Hne x Hx)), Ef. intros [E%elem_of_singleton|?]%elem_of_union; [|done].
    by destruct (Hids x Hx).
  - by split.
Qed.

Lemma finish_requests_shrunk s fl ids st s' :
  sched_inv dll s fl -> finish_requests s ids st = Ok s' -> shrunk s s'.
Proof.
  intros Hi E. unfold finish_requests in E. apply bind_Ok_inv in E as (u & Hfin%py_assert_Ok & E).
  revert s fl Hi E. generalize (elements (list_to_set ids : gset string)) as l.
  induction l as [|rid l IH]; intros s fl Hi E; cbn [for_each] in E; [by simplify_eq|].
  apply bind_Ok_inv in E as (s1 & E1 & E). transitivity s1; [by eapply finish_request_shrunk|].
  pose proof (finish_request_spec dll st rid s fl Hi Hfin) as Hspec.
  destruct (requests s !! rid) as [ref|]; [case_decide|]; [|congruence|].
  - destruct Hspec as (s2 & fl2 & E2 & Hi2 & _). rewrite E1 in E2. injection E2 as <-. by apply (IH s1 fl2).
  - rewrite E1 in Hspec. injection Hspec as ->. by apply (IH s fl).
Qed.
End finish.
