(* ===== verification/Cluster.v ===== *)
(** * The scheduler and its worker as a transition system

    [cluster] lists the moves of a system of one scheduler and one worker: requests
    arrive and are aborted, encoder results come in, the prefix cache is reset, and
    the engine steps: [schedule], then [execute_model] on its output, then
    [update_from_output] on the worker's result.  In every reachable state the worker
    is in sync with the scheduler, and the next step goes through. *)

From stdpp Require Import base tactics list gmap sets strings.
From Stdlib Require Import ZArith QArith Lia.
From S2P Require Import Prelude.
From S2P Require Import SamplingParams.
From S2P Require Import Request.
From S2P Require Import BlockQueue.
From S2P Require Import BlockHash.
From S2P Require Import KVCacheManager.
From S2P Require Import KVCacheInv.
From S2P Require Import KVAlloc.
From S2P Require Import KVTheorems.
From S2P Require Import EncoderCache.
From S2P Require Import Scheduler.
From S2P Require Import SchedulerInv.
From S2P Require Import SchedulerLoops.
From S2P Require Import SchedulerStep.
From S2P Require Import SchedulerUpdate.
From S2P Require Import SchedulerTheorems.
From S2P Require Import SchedulerTrace.
From S2P Require Import InputBatch.
From S2P Require Import InputBatchInv.
From S2P Require Import ModelRunner.
From S2P Require Import RunnerInv.
From S2P Require Import PrepareInputs.
From S2P Require Import RunnerSample.
From S2P Require Import RunnerSpec.
From S2P Require Import RunnerTheorems.
From S2P Require Import WorkerSync.

Local Open Scope Z_scope.

Abbreviation kv := kv_cache_manager.

(** The encoder outputs of the placeholders among the scheduled tokens have arrived
    at the worker. *)
Definition encoder_arrived (mr : ModelRunner) (out : SchedulerOutput) : Prop :=
  ∀ mr1 ch, _update_states mr out = Ok (mr1, ch) -> encoder_ready mr1 out.

Section cluster.
Context `{PyHash}.
Context (model : PreparedInputs -> list EncoderSlice -> SamplingMetadata -> result (list Z)).

Inductive cluster : Scheduler -> ModelRunner -> Prop :=
  | cl_init max_seqs max_tok mml blocks bs sw ec budgets enc s vocab mm cache uninit :
      0 <= max_seqs -> 0 <= max_tok -> 0 <= mml -> 0 < bs ->
      (* the token table and the cache have int32 indices *)
      max_seqs * mml < 2 ^ 31 -> blocks * bs <= 2 ^ 31 ->
      scheduler_init max_seqs max_tok mml blocks bs sw ec budgets enc = Ok s ->
      cluster s (runner_init bs mml max_tok max_seqs vocab mm cache uninit)
  (* a prompt shorter than the context, under an id the worker does not know *)
  | cl_add s mr r : cluster s mr -> admissible s r -> num_tokens r < max_model_len s ->
      output_token_ids r = [] -> mr_requests mr !! request_id r = None ->
      cluster (add_request s r) mr
  | cl_encoder s mr enc cache : cluster s mr ->
      cluster (with_encoder_cache s enc) (with_state mr (mr_requests mr) cache (input_batch mr))
  | cl_finish s mr ids st s' : cluster s mr -> finish_requests s ids st = Ok s' -> cluster s' mr
  | cl_reset s mr : cluster s mr -> cluster (scheduler_reset_prefix_cache s).1 mr
  (* nothing to run: the output is not sent *)
  | cl_idle s mr s1 out : cluster s mr -> schedule s = Ok (s1, out) ->
      num_scheduled_tokens out = ∅ -> cluster s1 mr
  | cl_step s mr s1 out mr' mo s2 eo : cluster s mr -> schedule s = Ok (s1, out) ->
      num_scheduled_tokens out ≠ ∅ -> encoder_arrived mr out ->
      execute_model model mr out = Ok (mr', mo) ->
      update_from_output s1 out mo = Ok (s2, eo) -> cluster s2 mr'.

(** ** The moves keep the agreement *)

Lemma init_sync max_seqs max_tok mml blocks bs sw ec budgets enc s vocab mm cache uninit :
  0 <= max_seqs -> 0 <= mml -> 0 < bs -> max_seqs * mml < 2 ^ 31 -> blocks * bs <= 2 ^ 31 ->
  scheduler_init max_seqs max_tok mml blocks bs sw ec budgets enc = Ok s ->
  in_sync s (runner_init bs mml max_tok max_seqs vocab mm cache uninit).
Proof.
  intros Hs Hm Hbs Hfit Hslots E. unfold scheduler_init in E. apply bind_Ok_inv in E as (u & Ha%py_assert_Ok%Z.ltb_lt & E).
  destruct (kv_init_spec dll bs blocks mml sw ec 64 Hbs Ha ltac:(lia)) as (m & Em & Hm' & _ & E1 & E2 & _ & Enum).
  rewrite Em in E. cbn [mbind result_bind] in E.
  assert (Es : s = mkScheduler max_seqs max_tok mml m ∅ ∅ [] [] ∅ ∅ budgets.1 (ecm_init budgets.2) enc) by congruence.
  assert (Emax : max_num_blocks_per_req m = cdiv mml bs) by (by rewrite (ki_max _ _ _ _ Hm'), E1, E2).
  subst s. split; cbn; try (by intros x Hx%elem_of_nil); try done.
  - split; cbn; [done|done|lia|done| |].
    + unfold row_len, table_len. cbn. rewrite Emax. pose proof (cdiv_spec mml bs Hbs).
      pose proof (cdiv_nonneg mml bs Hbs Hm). assert (cdiv mml bs <= mml) by nia. split; rewrite !Z2Nat.id by lia; nia.
    + by rewrite Enum, E1.
  - exists ∅. unfold row_len, table_len. cbn. rewrite Emax. apply runner_init_inv.
Qed.

Lemma add_sync s fl mr r :
  sched_inv dll s fl -> admissible s r -> num_tokens r < max_model_len s -> output_token_ids r = [] ->
  mr_requests mr !! request_id r = None -> in_sync s mr -> in_sync (add_request s r) mr.
Proof.
  intros Hi Ha Hlt Ho Hn [S1 S2 S3 S4 S5 S6 S7]. set (ref := new_ref s).
  assert (Hnl : ref ∉ live s).
  { intros Hl. destruct (si_dom _ _ _ Hi ref Hl) as [y Hy].
    assert (Hfr : ref ∉ dom (objs s)) by exact (is_fresh (dom (objs s) : gset nat)).
    apply not_elem_of_dom in Hfr. congruence. }
  assert (Hobj : ∀ x, obj (add_request s r) x = if decide (x = ref) then r else obj s x)
    by (intros x; exact (obj_with_obj s ref r x)).
  assert (Hl : ∀ x, x ∈ live s -> obj (add_request s r) x = obj s x).
  { intros x Hx. rewrite Hobj, decide_False; [done|]. by intros ->. }
  assert (Hr : obj (add_request s r) ref = r) by by rewrite Hobj, decide_True.
  assert (Hlive : ∀ x, x ∈ live (add_request s r) -> x = ref ∨ x ∈ live s).
  { intros x [[Hx| ->%list_elem_of_singleton]%elem_of_app|Hx]%elem_of_app; [right|by left|right]; apply elem_of_app; auto. }
  assert (Hwait : ∀ x, x ∈ waiting (add_request s r) -> x = ref ∨ x ∈ waiting s).
  { intros x [Hx| ->%list_elem_of_singleton]%elem_of_app; auto. }
  split; try done.
  - destruct S1. by split.
  - intros x Hx. change (running (add_request s r)) with (running s) in Hx. unfold blocks_of.
    rewrite Hl by (apply elem_of_app; by right). by apply S3.
  - intros x [->|Hx]%Hwait; [by rewrite Hr, (ad_status _ _ Ha)|]. rewrite Hl by (apply elem_of_app; by left). by apply S4.
  - intros x [->|Hx]%Hwait; [by rewrite Hr|]. rewrite Hl by (apply elem_of_app; by left). by apply S5.
  - intros x [->|Hx]%Hlive; [by rewrite Hr, (ad_status _ _ Ha)|]. rewrite Hl by done. by apply S6.
  - intros x [->|Hx]%Hlive; [by rewrite Hr|]. rewrite Hl by done. by apply S7.
Qed.

Lemma reset_shrunk s : shrunk s (scheduler_reset_prefix_cache s).1.
Proof.
  unfold scheduler_reset_prefix_cache, reset_prefix_cache. cbv zeta.
  destruct (0 <? num_gpu_blocks (kv s) - num_free_blocks (free_block_queue (kv s))); cbn [fst].
  - by rewrite with_kv_id.
  - split; try done. split; try done. split; try done. cbn. by rewrite length_fmap.
Qed.

Lemma idle_sync s s1 fl fl1 out mr :
  sched_inv dll s fl -> sched_inv dll s1 fl1 -> schedule_post s s1 out -> told s s1 out ->
  (∀ x, req_core (obj s1 x) = req_core (obj s x)) -> num_scheduled_tokens out = ∅ ->
  in_sync s mr -> in_sync s1 mr.
Proof.
  intros Hi Hi1 Hp Ht Hcore Hnone Hsync. pose proof (td_limits _ _ _ Ht) as L.
  pose proof (core_fields s s1 Hcore) as Hf. pose proof (knows_core s s1 Hcore) as Hk.
  assert (Hl : ∀ x, x ∈ live s1 -> x ∈ live s) by (intros x; by apply (live_eq s s1 out Hp)).
  assert (Hidle : ∀ x, x ∈ running s1 -> x ∈ running s ∧ blocks_of s1 x = blocks_of s x).
  { intros x Hx. apply (td_idle _ _ _ Ht x Hx). by rewrite Hnone, lookup_empty. }
  split.
  - eapply same_setup_limits; [done|by split_and!|apply Hsync].
  - unfold row_len, table_len. rewrite (sl_mml _ _ L), (kf_max _ _ (sl_kv _ _ L)). apply (sy_runner _ _ Hsync).
  - intros x Hx. destruct (Hidle x Hx) as [Hx0 ->]. destruct (sy_running _ _ Hsync x Hx0) as (st & ? & ? & ?).
    destruct (Hf x) as (-> & _). exists st. auto.
  - intros x Hx Hst. rewrite (td_waiting _ _ _ Ht x Hx) in Hst. destruct (Hf x) as (-> & _).
    specialize (Hl x ltac:(apply elem_of_app; by left)). apply elem_of_app in Hl as [Hl|Hl].
    + destruct (sy_preempted _ _ Hsync x Hl Hst) as (st & ? & ?). exists st. auto.
    + destruct (sy_running _ _ Hsync x Hl) as (st & ? & ? & ?). exists st. auto.
  - intros x Hx Hst. rewrite (td_waiting _ _ _ Ht x Hx) in Hst. destruct (Hf x) as (-> & _ & -> & _).
    specialize (Hl x ltac:(apply elem_of_app; by left)). apply elem_of_app in Hl as [Hl|Hl]; [by apply (sy_waiting _ _ Hsync)|].
    by destruct (running_status s fl Hi x Hl).
  - intros x Hx Hfin. by rewrite (proj2 (td_finished _ _ _ Ht)) in Hfin.
  - intros x Hx. destruct (Hf x) as (_ & _ & _ & ->). rewrite (sl_mml _ _ L). apply (sy_room _ _ Hsync). auto.
Qed.

(** ** One step *)

Lemma step_sync s fl mr s1 out :
  model_ok model -> sched_inv dll s fl -> cached_ids_ok s -> in_sync s mr -> schedule s = Ok (s1, out) ->
  num_scheduled_tokens out ≠ ∅ -> encoder_arrived mr out ->
  ∃ mr' mo s2 eo, execute_model model mr out = Ok (mr', mo) ∧ runner_ok out mo ∧
    update_from_output s1 out mo = Ok (s2, eo) ∧ in_sync s2 mr'.
Proof.
  intros Hmodel Hi Hc Hsync Hsch Hne Henc.
  destruct (schedule_spec dll s fl Hi Hc) as (s' & out' & fl1 & E & Hi1 & Hc1 & Hp & Hcore).
  rewrite Hsch in E. injection E as <- <-.
  pose proof (schedule_told dll s fl s1 out Hi Hc Hsch) as Ht. destruct (sy_runner _ _ Hsync) as [A HA].
  pose proof (sync_output_ok s s1 out mr fl fl1 Hi Hi1 Hp Ht Hcore Hsync A HA) as Hok.
  pose proof (sync_step_ok s s1 out mr fl fl1 Hi Hi1 Hp Ht Hcore Hsync Hne) as Hsk.
  destruct (sync_params s s1 out mr fl fl1 Hi Hi1 Hp Ht Hsync Hne) as [Hbs HW].
  destruct (execute_model_spec model mr A (row_len s) (table_len s) out Hmodel HA Hok Hbs HW Hsk Henc)
    as (mr1 & ch & mr' & mo & A' & E1 & Hsu & E2 & HA' & Hdom & Hin & Hout & Hcfg).
  assert (Hro : runner_ok out mo).
  { intros rid [c Hrc]. destruct (sp_given _ _ _ Hp _ _ Hrc) as (x & Hx & <- & _).
    destruct (updated_scheduled s s1 out mr fl fl1 Hi Hi1 Hp Ht Hcore Hsync mr1 x c Hsu Hx Hrc) as (st & Hst & _).
    destruct (Hin _ st c Hst Hrc) as (tok & ? & _). by exists tok. }
  destruct (update_from_output_spec dll s1 fl1 out mo Hi1) as (s2 & eo & fl2 & E3 & Hi2 & Hw2 & _ & _ & Hup);
    [by eapply update_pre_of_schedule|].
  exists mr', mo, s2, eo. split_and!; try done.
  apply (sync_after s s1 out mr fl fl1 Hi Hi1 Hp Ht Hcore Hsync mr1 mr' mo s2 fl2 (outputs eo)); try done. eauto.
Qed.

(** ** Reachable states *)

Lemma cluster_reach s mr : model_ok model -> cluster s mr -> sched_reach s ∧ in_sync s mr.
Proof.
  intros Hmodel. induction 1 as [max_seqs max_tok mml blocks bs sw ec budgets enc s vocab mm cache uninit Hs Ht Hm Hbs Hfit Hslots E
    |s mr r _ [Hr Hy] Ha Hlt Ho Hn|s mr enc cache _ [Hr Hy]|s mr ids st s' _ [Hr Hy] E|s mr _ [Hr Hy]
    |s mr s1 out _ [Hr Hy] Hsch Hnone|s mr s1 out mr' mo s2 eo _ [Hr Hy] Hsch Hne Henc Hex Hup].
  all: try (destruct (sched_reach_inv s Hr) as (fl & Hi & Hc)).
  - split; [exact (sr_init max_seqs max_tok mml blocks bs sw ec budgets enc s Hs Ht Hbs E)|by eapply init_sync].
  - split; [by apply sr_add|by eapply add_sync].
  - split; [by apply sr_encoder|]. destruct Hy as [[] S2 S3 S4 S5 S6 S7]. by split.
  - split; [by eapply sr_finish|]. eapply shrunk_sync, Hy. by eapply finish_requests_shrunk.
  - split; [by apply sr_reset|]. eapply shrunk_sync, Hy. apply reset_shrunk.
  - split; [by eapply sr_schedule|].
    destruct (schedule_spec dll s fl Hi Hc) as (s' & out' & fl1 & E & Hi1 & Hc1 & Hp & Hcore).
    rewrite Hsch in E. injection E as <- <-.
    by apply (idle_sync s s1 fl fl1 out mr Hi Hi1 Hp (schedule_told dll s fl s1 out Hi Hc Hsch) Hcore).
  - destruct (step_sync s fl mr s1 out Hmodel Hi Hc Hy Hsch Hne Henc) as (mr2 & mo2 & s3 & eo3 & E1 & Hro & E2 & Hy2).
    rewrite Hex in E1. injection E1 as <- <-. rewrite Hup in E2. injection E2 as <- <-. split; [|done].
    apply (sr_step s s1 out (encoder_cache s1) mo s2 eo); [done..|]. rewrite <-Hup. by destruct s1.
Qed.
End cluster.

(** C2: the worker follows the scheduler.  Take a scheduler and a worker with the same
    configuration, whose token table ([max_num_seqs * max_model_len] entries) and cache
    slots have int32 indices, in any state they reach by arrivals of requests (prompts shorter
    than the context, under ids the worker does not know), aborts, encoder results,
    cache resets and engine steps.  The worker's copy of every running request has the
    prompt, the generated tokens and the block table the scheduler has for it, and its
    copy of a preempted request has the tokens.  The next step goes through: [schedule]
    returns, and if it hands out tokens and the encoder outputs they need have arrived,
    [execute_model] accepts its output without any assertion or lookup failing,
    [update_from_output] accepts the result, and both are again in such a state. *)
Theorem scheduler_worker_in_sync `{PyHash} model s mr :
  model_ok model -> cluster model s mr ->
  in_sync s mr ∧
  ∃ s1 out, schedule s = Ok (s1, out) ∧
    (num_scheduled_tokens out ≠ ∅ -> encoder_arrived mr out ->
     ∃ mr' mo s2 eo, execute_model model mr out = Ok (mr', mo) ∧
       update_from_output s1 out mo = Ok (s2, eo) ∧ cluster model s2 mr').
Proof.
  intros Hmodel Hcl. destruct (cluster_reach model s mr Hmodel Hcl) as [Hr Hy]. split; [done|].
  destruct (sched_reach_inv s Hr) as (fl & Hi & Hc).
  destruct (schedule_spec dll s fl Hi Hc) as (s1 & out & fl1 & Hsch & _). exists s1, out. split; [done|].
  intros Hne Henc. destruct (step_sync model s fl mr s1 out Hmodel Hi Hc Hy Hsch Hne Henc)
    as (mr' & mo & s2 & eo & E1 & _ & E2 & _). exists mr', mo, s2, eo. split_and!; try done. by eapply cl_step.
Qed.

(** Two requests, and a worker of the same configuration. *)
Definition demo_worker : ModelRunner := runner_init 2 20 8 4 100 false None (0, sampling_row (demo_temp 0)).
Definition demo_worker_updated : ModelRunner * bool :=
  ok_or (demo_worker, false) (_update_states demo_worker demo_scheduled.2).

Lemma demo_cluster : @cluster demo_hash demo_model demo_sched demo_worker.
Proof.
  unfold demo_sched. repeat (apply (@cl_add demo_hash); [|split; [by apply demo_request_ok|vm_compute; reflexivity..]
    |vm_compute; reflexivity..]).
  apply (@cl_init demo_hash demo_model 4 8 20 24 2 None true (10, 10) ∅); [lia..|vm_compute; reflexivity].
Qed.

(** No request has encoder inputs. *)
Lemma demo_arrived : encoder_arrived demo_worker demo_scheduled.2.
Proof.
  intros mr1 ch E. assert (E1 : _update_states demo_worker demo_scheduled.2 = Ok demo_worker_updated) by (vm_compute; reflexivity).
  rewrite E in E1. apply Ok_inj in E1. assert (mr1 = demo_worker_updated.1) as -> by exact (f_equal fst E1). clear E E1.
  intros rid st c Hst Hc.
  assert (Ec : num_scheduled_tokens demo_scheduled.2 = {["a" := 5; "b" := 2]}%string) by (vm_compute; reflexivity).
  rewrite Ec in Hc.
  assert (rid = "a"%string ∨ rid = "b"%string) as Hrid
    by (apply lookup_insert_Some in Hc as [[<- _]|[_ [<- _]%lookup_singleton_Some]]; auto). clear Hc Ec.
  assert (Hmm : st_mm_positions st = []).
  { assert (Hv : st_mm_positions <$> mr_requests demo_worker_updated.1 !! rid = Some [])
      by (destruct Hrid as [->| ->]; vm_compute; reflexivity). rewrite Hst in Hv. by injection Hv. }
  rewrite Hmm. clear Hst Hrid Hmm. split; [split; constructor|]. intros j p Hj. rewrite lookup_nil in Hj. discriminate Hj.
Qed.

Lemma scheduler_worker_in_sync_witness :
  ∃ mr' mo s2 eo, execute_model demo_model demo_worker demo_scheduled.2 = Ok (mr', mo) ∧
    update_from_output demo_scheduled.1 demo_scheduled.2 mo = Ok (s2, eo) ∧
    @cluster demo_hash demo_model s2 mr'.
Proof.
  destruct (@scheduler_worker_in_sync demo_hash demo_model demo_sched demo_worker demo_model_ok demo_cluster)
    as (_ & s1 & out & E & Hstep).
  assert (E1 : @schedule demo_hash demo_sched = Ok demo_scheduled) by (vm_compute; reflexivity).
  rewrite E in E1. apply Ok_inj in E1.
  assert (s1 = demo_scheduled.1) as -> by exact (f_equal fst E1). assert (out = demo_scheduled.2) as -> by exact (f_equal snd E1).
  clear E E1. apply Hstep; [vm_compute; congruence|apply demo_arrived].
Defined.
