(* ===== verification/Writes.v ===== *)
(** * No two tokens of a step go to the same cache slot

    Prefix caching lets block tables overlap, also with blocks that are only being
    filled in the current step.  [apart] (of [SchedulerTrace]) says that of two table
    entries with the same block at most one lies outside the computed tokens of its
    request; it holds in every reachable state, and makes the slots a step writes to
    pairwise distinct. *)

From stdpp Require Import base tactics list gmap sets strings.
From Stdlib Require Import ZArith QArith Lia.
From S2P Require Import Prelude.
From S2P Require Import SamplingParams.
From S2P Require Import Request.
From S2P Require Import BlockQueue.
From S2P Require Import BlockHash.
From S2P Require Import KVCacheManager.
From S2P Require Import KVCacheInv.
From S2P Require Import KVAlloc.
From S2P Require Import KVTheorems.
From S2P Require Import EncoderCache.
From S2P Require Import Scheduler.
From S2P Require Import SchedulerInv.
From S2P Require Import SchedulerLoops.
From S2P Require Import SchedulerStep.
From S2P Require Import SchedulerUpdate.
From S2P Require Import SchedulerTheorems.
From S2P Require Import SchedulerTrace.
From S2P Require Import InputBatch.
From S2P Require Import InputBatchInv.
From S2P Require Import ModelRunner.
From S2P Require Import RunnerInv.
From S2P Require Import PrepareInputs.
From S2P Require Import RunnerSample.
From S2P Require Import RunnerSpec.
From S2P Require Import RunnerTheorems.
From S2P Require Import WorkerSync.
From S2P Require Import Cluster.

Local Open Scope Z_scope.

Abbreviation kv := kv_cache_manager.

(** ** Tables stay apart *)

Lemma shrunk_apart s fl s' : sched_inv dll s fl -> shrunk s s' -> apart s -> apart s'.
Proof.
  intros Hi [R W O B F L]. apply apart_mono; [apply (si_kv _ _ _ Hi)|apply (kf_bs _ _ (sl_kv _ _ L))|].
  intros x Hx. split; [by apply R|]. split; [by apply B|]. rewrite O by (apply elem_of_app; by right). done.
Qed.

Lemma update_apart s s1 fl1 s2 out mo outs :
  sched_inv dll s1 fl1 -> schedule_post s s1 out ->
  update_post s1 s2 (num_scheduled_tokens out) mo (running s1) (running s2) outs -> apart s1 -> apart s2.
Proof.
  intros Hi1 Hp Hup. apply apart_mono; [apply (si_kv _ _ _ Hi1)|apply (kf_bs _ _ (sl_kv _ _ (up_limits _ _ _ _ _ _ _ Hup)))|].
  intros x Hx. assert (Hx1 : x ∈ running s1) by (by eapply elem_of_sublist, (up_sublist _ _ _ _ _ _ _ Hup)).
  destruct (up_prompts _ _ _ _ _ _ _ Hup x) as [Eid _]. split; [done|]. split.
  - unfold blocks_of. rewrite Eid, (up_tables _ _ _ _ _ _ _ Hup); [done|]. intros y Hy E.
    assert (y = x) as ->; [|done]. apply (qo_ids _ _ _ _ _ (si_queues _ _ _ Hi1)); [apply elem_of_app; by right..|done].
  - rewrite (up_computed _ _ _ _ _ _ _ Hup x Hx1). unfold scheduled_for.
    destruct (num_scheduled_tokens out !! request_id (obj s1 x)) as [n|] eqn:E; cbn [default from_option id]; [|lia].
    destruct (sp_given _ _ _ Hp _ _ E) as (y & _ & _ & Hn & _). lia.
Qed.

Lemma sched_reach_apart `{PyHash} s : sched_reach s -> apart s.
Proof.
  induction 1 as [max_seqs max_tok mml blocks bs sw ec budgets enc s Hs Ht Hbs Hinit
    |s r Hr IH Ha|s enc Hr IH|s s' out Hr IH Hsch|s s1 out enc mo s' eo Hr IH Hsch Hro Hup|s ids st s' Hr IH Hf|s Hr IH].
  all: try (destruct (sched_reach_inv s Hr) as (fl & Hi & Hc)).
  - unfold scheduler_init in Hinit. apply bind_Ok_inv in Hinit as (u & _ & E). apply bind_Ok_inv in E as (m & _ & E).
    injection E as <-. intros x y i j b Hx. by apply elem_of_nil in Hx.
  - assert (Hnr : new_ref s ∉ running s).
    { intros Hl. destruct (si_dom _ _ _ Hi (new_ref s) ltac:(apply elem_of_app; by right)) as [y Hy].
      assert (Hfr : new_ref s ∉ dom (objs s)) by exact (is_fresh (dom (objs s) : gset nat)).
      apply not_elem_of_dom in Hfr. congruence. }
    eapply apart_mono; [apply (si_kv _ _ _ Hi)|done| |exact IH]. intros x Hx. change (running (add_request s r)) with (running s) in Hx.
    assert (Eo : obj (add_request s r) x = obj s x).
    { etrans; [exact (obj_with_obj s (new_ref s) r x)|]. rewrite decide_False; [done|]. by intros ->. }
    unfold blocks_of. by rewrite Eo.
  - exact IH.
  - by apply (td_apart _ _ _ (schedule_told dll s fl s' out Hi Hc Hsch)).
  - destruct (schedule_spec dll s fl Hi Hc) as (s2 & out1 & fl1 & E & Hi1 & Hc1 & Hp & _).
    rewrite Hsch in E. injection E as <- <-.
    assert (Hi1' : sched_inv dll (with_encoder_cache s1 enc) fl1) by (destruct Hi1; by split).
    destruct (update_from_output_spec dll _ fl1 out mo Hi1') as (s3 & eo3 & fl3 & E & Hi3 & _ & _ & _ & Hpost).
    { exact (update_pre_of_schedule s s1 fl1 out mo Hi1 Hp Hro). }
    rewrite Hup in E. injection E as <- <-.
    apply (update_apart s (with_encoder_cache s1 enc) fl1 s' out mo (outputs eo) Hi1'); [|done|].
    + destruct Hp. by split.
    + by apply (td_apart _ _ _ (schedule_told dll s fl s1 out Hi Hc Hsch)).
  - eapply shrunk_apart; [exact Hi|by eapply finish_requests_shrunk|done].
  - eapply shrunk_apart; [exact Hi|apply reset_shrunk|done].
Qed.

(** ** Slots *)

Lemma NoDup_concat {A B} (f : A -> list B) (l : list A) :
  (∀ e, e ∈ l -> NoDup (f e)) ->
  (∀ i j e e' x, l !! i = Some e -> l !! j = Some e' -> x ∈ f e -> x ∈ f e' -> i = j) ->
  NoDup (concat (f <$> l)).
Proof.
  induction l as [|e l IH]; intros Hnd Hdis; [constructor|]. rewrite fmap_cons. cbn [concat]. apply NoDup_app. split_and!.
  - apply Hnd. by left.
  - intros x Hx Hin. apply elem_of_concat in Hin as (k & (e' & -> & He')%list_elem_of_fmap & Hx').
    apply list_elem_of_lookup in He' as [j Hj]. by specialize (Hdis 0%nat (S j) e e' x eq_refl Hj Hx Hx').
  - apply IH; [intros; apply Hnd; by right|]. intros i j e1 e2 x H1 H2 Hx1 Hx2.
    specialize (Hdis (S i) (S j) e1 e2 x H1 H2 Hx1 Hx2). lia.
Qed.

Lemma elem_of_slots bs st c slot :
  slot ∈ slots_of bs (st, c) -> ∃ p, st_num_computed_tokens st <= p < st_num_computed_tokens st + c ∧
    slot = Z.of_nat (st_block_ids st !!! Z.to_nat (p / bs)) * bs + p `mod` bs.
Proof.
  unfold slots_of, positions_of. cbn [fst snd]. intros (p & -> & (k & -> & Hk)%list_elem_of_fmap)%list_elem_of_fmap.
  apply elem_of_zseq in Hk. eexists. split; [|reflexivity]. lia.
Qed.

(** Two written slots are equal only for the same position of the same request. *)
Lemma slot_inj s x y st st' c c' p q :
  0 < block_size (kv s) -> apart s -> x ∈ running s -> y ∈ running s -> views s x st -> views s y st' ->
  entry_ok (block_size (kv s)) (st, c) -> entry_ok (block_size (kv s)) (st', c') ->
  st_num_computed_tokens st <= p < st_num_computed_tokens st + c ->
  st_num_computed_tokens st' <= q < st_num_computed_tokens st' + c' ->
  Z.of_nat (st_block_ids st !!! Z.to_nat (p / block_size (kv s))) * block_size (kv s) + p `mod` block_size (kv s) =
  Z.of_nat (st_block_ids st' !!! Z.to_nat (q / block_size (kv s))) * block_size (kv s) + q `mod` block_size (kv s) ->
  x = y ∧ p = q.
Proof.
  intros Hbs Ha Hx Hy (_ & Hb & Hnc) (_ & Hb' & Hnc') [_ Hc0 _ He] [_ Hc0' _ He'] Hp Hq E. cbn [fst snd] in *.
  set (bs := block_size (kv s)) in *.
  pose proof (Z.mod_pos_bound p bs Hbs) as Mp. pose proof (Z.mod_pos_bound q bs Hbs) as Mq.
  pose proof (Z.div_mod p bs ltac:(lia)) as Dp. pose proof (Z.div_mod q bs ltac:(lia)) as Dq.
  assert (Hblk : st_block_ids st !!! Z.to_nat (p / bs) = st_block_ids st' !!! Z.to_nat (q / bs) ∧ p `mod` bs = q `mod` bs).
  { rewrite !(Z.mul_comm _ bs) in E. apply Z.div_mod_unique in E as [E1 E2]; [|by left..]. split; [lia|done]. }
  destruct Hblk as [Eb Em]. rewrite Hb, Hb' in Eb.
  assert (Lp : (Z.to_nat (p / bs) < length (blocks_of s x))%nat) by (rewrite <-Hb; nia).
  assert (Lq : (Z.to_nat (q / bs) < length (blocks_of s y))%nat) by (rewrite <-Hb'; nia).
  pose proof (list_lookup_lookup_total_lt _ _ Lp) as Ip. pose proof (list_lookup_lookup_total_lt _ _ Lq) as Iq. rewrite Eb in Ip.
  destruct (decide ((x, Z.to_nat (p / bs)) = (y, Z.to_nat (q / bs)))) as [Exy|Hne].
  - injection Exy as -> Epq. split; [done|]. assert (0 <= p / bs) by (apply Z.div_pos; lia).
    assert (0 <= q / bs) by (apply Z.div_pos; lia). nia.
  - exfalso. destruct (Ha x y _ _ _ Hx Hy Hne Ip Iq) as [Hc|Hc]; unfold computed_entry in Hc; fold bs in Hc.
    + rewrite <-Hnc in Hc. pose proof (Z.div_le_mono (st_num_computed_tokens st) p bs Hbs ltac:(lia)). lia.
    + rewrite <-Hnc' in Hc. pose proof (Z.div_le_mono (st_num_computed_tokens st') q bs Hbs ltac:(lia)). lia.
Qed.

(** The slots of a batch whose rows are requests of the scheduler. *)
Lemma slots_apart s fl P (row : nat -> nat) :
  sched_inv dll s fl -> apart s ->
  (∀ i e, P !! i = Some e -> row i ∈ running s ∧ views s (row i) e.1 ∧ entry_ok (block_size (kv s)) e) ->
  (∀ i j, (i < length P)%nat -> (j < length P)%nat -> row i = row j -> i = j) ->
  NoDup (concat (slots_of (block_size (kv s)) <$> P)) ∧
  ∀ slot, slot ∈ concat (slots_of (block_size (kv s)) <$> P) ->
    0 <= slot < num_gpu_blocks (kv s) * block_size (kv s).
Proof.
  intros Hi Ha Hrow Hinj. pose proof (ki_bs _ _ _ _ (si_kv _ _ _ Hi)) as Hbs. set (bs := block_size (kv s)) in *. split.
  - apply NoDup_concat.
    + intros [st c] [i Hi']%list_elem_of_lookup. destruct (Hrow i _ Hi') as (Hx & Hv & He).
      unfold slots_of. apply NoDup_fmap_2_strong.
      * intros p q Hp Hq E. apply list_elem_of_fmap in Hp as (k & -> & Hk), Hq as (k' & -> & Hk').
        apply elem_of_zseq in Hk, Hk'. cbn [fst snd] in *.
        eapply (slot_inj s (row i) (row i) st st c c _ _ Hbs Ha Hx Hx Hv Hv He He); [| |exact E]; lia.
      * unfold positions_of. apply NoDup_fmap_2; [intros a b; lia|]. unfold zseq. apply NoDup_fmap_2; [apply _|apply NoDup_seq].
    + intros i j [st c] [st' c'] slot H1 H2 Hs Hs'.
      destruct (Hrow i _ H1) as (Hx & Hv & He), (Hrow j _ H2) as (Hy & Hv' & He').
      destruct (elem_of_slots _ _ _ _ Hs) as (p & Hp & Ep), (elem_of_slots _ _ _ _ Hs') as (q & Hq & Eq).
      destruct (slot_inj s (row i) (row j) st st' c c' p q Hbs Ha Hx Hy Hv Hv' He He' Hp Hq) as [Exy _];
        [unfold bs in *; congruence|].
      apply Hinj; [by eapply lookup_lt_Some..|done].
  - intros slot (l & ([st c] & -> & He)%list_elem_of_fmap & Hs)%elem_of_concat.
    apply list_elem_of_lookup in He as [i He]. destruct (Hrow i _ He) as (Hx & (_ & Hb & _) & [_ Hc0 _ Hcov]).
    destruct (elem_of_slots _ _ _ _ Hs) as (p & Hp & ->). cbn [fst snd] in *.
    assert (Hlt : (Z.to_nat (p / bs) < length (st_block_ids st))%nat).
    { pose proof (Z.div_lt_upper_bound p bs (len (st_block_ids st)) Hbs ltac:(lia)). lia. }
    pose proof (list_lookup_lookup_total_lt _ _ Hlt) as Hlk. rewrite Hb in Hlk at 1. unfold blocks_of in Hlk.
    destruct (req_to_blocks (kv s) !! request_id (obj s (row i))) as [bl|] eqn:Ebl; [|done]. cbn [default] in Hlk.
    pose proof (req_block_range dll _ fl _ bl _ (si_kv _ _ _ Hi) Ebl (list_elem_of_lookup_2 _ _ _ Hlk)) as Hrange.
    rewrite (ki_num _ _ _ _ (si_kv _ _ _ Hi)). pose proof (Z.mod_pos_bound p bs Hbs). nia.
Qed.

(** C3: no write conflicts.  In every state the scheduler and its worker reach (with a
    token table and a cache whose indices are int32 values, as in [cluster]), the
    slots into which the next step writes the keys and values of its tokens are pairwise
    distinct, within a request and across requests, and lie in the pool, although
    block tables may share cached blocks (also blocks that are filled in this very
    step). *)
Theorem no_write_conflicts `{PyHash} model s mr s1 out :
  model_ok model -> cluster model s mr -> schedule s = Ok (s1, out) -> num_scheduled_tokens out ≠ ∅ ->
  ∃ mr1 ch mr2 pi, _update_states mr out = Ok (mr1, ch) ∧ _prepare_inputs mr1 out = Ok (mr2, pi) ∧
    NoDup (pi_slot_mapping pi) ∧
    ∀ slot, slot ∈ pi_slot_mapping pi -> 0 <= slot < num_gpu_blocks (kv s1) * block_size (kv s1).
Proof.
  intros Hmodel Hcl Hsch Hne. destruct (cluster_reach model s mr Hmodel Hcl) as [Hr Hsync].
  destruct (sched_reach_inv s Hr) as (fl & Hi & Hc).
  destruct (schedule_spec dll s fl Hi Hc) as (s' & out' & fl1 & E & Hi1 & Hc1 & Hp & Hcore).
  rewrite Hsch in E. injection E as <- <-.
  pose proof (schedule_told dll s fl s1 out Hi Hc Hsch) as Ht. destruct (sy_runner _ _ Hsync) as [A HA].
  pose proof (sync_output_ok s s1 out mr fl fl1 Hi Hi1 Hp Ht Hcore Hsync A HA) as Hok.
  pose proof (sync_step_ok s s1 out mr fl fl1 Hi Hi1 Hp Ht Hcore Hsync Hne) as Hsk.
  destruct (sync_params s s1 out mr fl fl1 Hi Hi1 Hp Ht Hsync Hne) as [Hbs HW].
  destruct (update_states_spec mr A (row_len s) (table_len s) out HA Hok)
    as (mr1 & ch & A1 & E1 & HA1 & Hdom1 & Hsu & Cbs & CW & _ & Cmax & _ & Creq).
  destruct (step_ok_plan mr mr1 A A1 _ _ out _ Hok Hsk Hsu HA1 Hdom1) as [Hent _].
  destruct (prepare_inputs_lemma mr1 A1 _ _ out HA1 Hdom1) as (mr2 & pi & E2 & Hpi & _);
    try (by rewrite ?Cbs, ?CW, ?Cmax; try done; apply Hsk).
  { rewrite Creq. apply (ss_fit _ _ (sy_setup _ _ Hsync)). }
  exists mr1, ch, mr2, pi. split; [done|]. split; [done|]. rewrite (po_slots _ _ _ Hpi), Cbs.
  assert (Ebs : mr_block_size mr = block_size (kv s1)).
  { by rewrite (ss_bs _ _ (sy_setup _ _ Hsync)), (kf_bs _ _ (sl_kv _ _ (td_limits _ _ _ Ht))). }
  rewrite Ebs in *. destruct (plan_spec mr1 A1 _ _ out HA1 Hdom1) as (_ & _ & _ & Hlk).
  destruct (batch_ids_spec _ _ _ _ (proj1 HA1)) as (_ & _ & Hnd & _ & _).
  set (ids := batch_ids (input_batch mr1)) in *.
  assert (Hrow : ∀ i e, plan mr1 out !! i = Some e -> ∃ x, ids !! i = Some (request_id (obj s1 x)) ∧
    default 0%nat (ids !! i ≫= (requests s1 !!.)) = x ∧ x ∈ running s1 ∧ views s1 x e.1).
  { intros i e Hie. destruct (Hlk i e Hie) as (rid & Hid & Hst & Hrc).
    destruct (sp_given _ _ _ Hp _ _ Hrc) as (x & Hx & <- & _). exists x. split; [done|]. rewrite Hid. cbn [mbind option_bind].
    rewrite (proj2 (si_requests _ _ _ Hi1 _ x)) by (split; [apply elem_of_app; by right|done]).
    split; [done|]. split; [done|].
    destruct (updated_scheduled s s1 out mr fl fl1 Hi Hi1 Hp Ht Hcore Hsync mr1 x _ Hsu Hx Hrc) as (st & Hst' & Hv).
    rewrite Hst in Hst'. by injection Hst' as ->. }
  apply (slots_apart s1 fl1 (plan mr1 out) (fun i => default 0%nat (ids !! i ≫= (requests s1 !!.)))); [done| | |].
  - apply (td_apart _ _ _ Ht), (sched_reach_apart s Hr).
  - intros i e Hie. destruct (Hrow i e Hie) as (x & _ & -> & Hx & Hv). split; [done|]. split; [done|].
    by apply (proj1 (Forall_lookup _ _) Hent i).
  - intros i j [e He]%lookup_lt_is_Some [e' He']%lookup_lt_is_Some E.
    destruct (Hrow i e He) as (x & Ix & Ex & _), (Hrow j e' He') as (y & Iy & Ey & _).
    rewrite Ex, Ey in E. subst y. by eapply NoDup_lookup.
Qed.

Lemma no_write_conflicts_witness :
  ∃ mr1 ch mr2 pi, _update_states demo_worker demo_scheduled.2 = Ok (mr1, ch) ∧
    _prepare_inputs mr1 demo_scheduled.2 = Ok (mr2, pi) ∧ NoDup (pi_slot_mapping pi) ∧
    ∀ slot, slot ∈ pi_slot_mapping pi ->
      0 <= slot < num_gpu_blocks (kv demo_scheduled.1) * block_size (kv demo_scheduled.1).
Proof.
  apply (@no_write_conflicts demo_hash demo_model demo_sched demo_worker demo_scheduled.1 demo_scheduled.2
    demo_model_ok demo_cluster); [|vm_compute; congruence].
  assert (E : @schedule demo_hash demo_sched = Ok demo_scheduled) by (vm_compute; reflexivity).
  exact (eq_trans E (f_equal Ok (surjective_pairing demo_scheduled))).
Defined.
