(* ===== verification/MRope.v ===== *)
(** * Multi-modal rotary positions

    [MRotaryEmbedding.get_input_positions_tensor] and [get_next_input_positions_tensor]
    of [vllm/model_executor/layers/rotary_embedding.py], and the runner's
    [_calc_mrope_positions] ([vllm/v1/worker/gpu_model_runner.py]), which Qwen2-VL uses
    instead of plain positions: a text token has the same index in all three
    dimensions, a vision token its frame, row and column.

    A tensor of shape [(3, n)] is the list of its columns, of int64 values.  The frame
    indices are computed as torch does it: an int64 tensor times a Python float is a
    float32 tensor, so the frame number, the seconds per grid and the tokens per second are
    rounded to float32, and so are the two products, before [.long()] truncates.  Floats
    are those of [SpecFloat], with 24 bits of precision and exponents below 128. *)

From stdpp Require Import base tactics list gmap sets strings.
From Stdlib Require Import ZArith QArith Lia SpecFloat.
From S2P Require Import Prelude.
From S2P Require Import SamplingParams.
From S2P Require Import Request.
From S2P Require Import EncoderCache.
From S2P Require Import Scheduler.
From S2P Require Import InputBatch.
From S2P Require Import InputBatchInv.
From S2P Require Import ModelRunner.
From S2P Require Import RunnerInv.
From S2P Require Import PrepareInputs.
From S2P Require Import RunnerSample.
From S2P Require Import RunnerSpec.
From S2P Require Import RunnerTheorems.

Local Open Scope Z_scope.

(** ** Positions of a prompt *)

(** A column of the position tensor. *)
Abbreviation mpos := (Z * Z * Z)%type.

(** What is read of the model's configuration. *)
Record MRopeConfig : Type := mkMRopeConfig {
  image_token_id : Z;
  video_token_id : Z;
  vision_start_token_id : Z;
  spatial_merge_size : Z;
  tokens_per_second : spec_float;
}.

(** [torch.arange(n)] *)
Definition arange (n : Z) : result (list Z) := if n <? 0 then Err RuntimeError else Ok (seqZ 0 n).

(** The value of [z] in an int64 tensor. *)
Definition int64 (z : Z) : Z := (z + 2 ^ 63) `mod` 2 ^ 64 - 2 ^ 63.

(** float32: the nearest one to an integer and to a Python float, and the product. *)
Definition f32_of_Z (z : Z) : spec_float := binary_normalize 24 128 z 0 false.
Definition f32 (x : spec_float) : spec_float :=
  match x with
  | S754_finite s m e => binary_normalize 24 128 (cond_Zopp s (Zpos m)) e s
  | _ => x
  end.
Definition f32_mul (x y : spec_float) : spec_float := SFmul 24 128 x y.

(** The Python floats [0.0] and [1.0]. *)
Definition float_zero : spec_float := S754_zero false.
Definition float_one : spec_float := S754_finite false (2 ^ 52) (-52).

(** A finite value, truncated towards zero. *)
Definition truncate (s : bool) (m : positive) (e : Z) : Z :=
  cond_Zopp s (if 0 <=? e then Zpos m * 2 ^ e else Zpos m / 2 ^ (- e)).

(** [torch.arange(text_len).view(1, -1).expand(3, -1) + st_idx] *)
Definition text_positions (text_len st_idx : Z) : result (list mpos) :=
  if text_len <? 0 then Err RuntimeError
  else Ok ((fun i => (int64 (i + st_idx), int64 (i + st_idx), int64 (i + st_idx))) <$> seqZ 0 text_len).

Section vision.
(** What the conversion of a float32 gives that has no int64 value (an infinity, a NaN, or
    a value out of range), which C++ leaves undefined. *)
Context (undefined_long : spec_float -> Z).

(** [x.long()] *)
Definition to_long (x : spec_float) : Z :=
  match x with
  | S754_zero _ => 0
  | S754_finite s m e =>
      let z := truncate s m e in if int64 z =? z then z else int64 (undefined_long x)
  | _ => int64 (undefined_long x)
  end.

(** [(torch.arange(llm_grid_t) * video_second_per_grid_t * tokens_per_second).long()], at [t] *)
Definition frame_index (second tps : spec_float) (t : Z) : Z :=
  to_long (f32_mul (f32_mul (f32_of_Z t) (f32 second)) (f32 tps)).

(** The stacked [t_index], [h_index] and [w_index], shifted by [base]. *)
Definition grid_columns (ts hs ws : list Z) (second tps : spec_float) (base : Z) : list mpos :=
  concat ((fun t => concat ((fun h => (fun w =>
    (int64 (frame_index second tps t + base), int64 (h + base), int64 (w + base))) <$> ws) <$> hs)) <$> ts).

Definition vision_positions (t h w : Z) (second tps : spec_float) (base : Z) : result (list mpos) :=
  ts ← arange t; hs ← arange h; ws ← arange w; Ok (grid_columns ts hs ws second tps base).
End vision.

(** [x.max()]; an empty tensor raises. *)
Definition column_max (p : mpos) : Z := Z.max (Z.max p.1.1 p.1.2) p.2.
Definition tensor_max (l : list mpos) : result Z :=
  match l with
  | [] => Err RuntimeError
  | p :: l => Ok (foldr (fun q m => Z.max (column_max q) m) (column_max p) l)
  end.

(** [llm_pos_ids_list\[-1\].max() + 1 if len(llm_pos_ids_list) > 0 else 0] *)
Definition next_index (blocks : list (list mpos)) : result Z :=
  match last blocks with None => Ok 0 | Some b => m ← tensor_max b; Ok (int64 (m + 1)) end.

(** [l.index(x, st)] *)
Definition py_index (x : Z) (st : nat) (l : list Z) : result nat :=
  '(i, _) ← or_raise ValueError (list_find (x =.) (drop st l)); Ok (st + i)%nat.

(** [input_tokens\[vision_start_indices + 1\]] *)
Fixpoint vision_tokens (vision_start : Z) (l : list Z) : result (list Z) :=
  match l with
  | [] => Ok []
  | x :: l =>
      rest ← vision_tokens vision_start l;
      if x =? vision_start then y ← or_raise IndexError (head l); Ok (y :: rest) else Ok rest
  end.

Record MRopeState : Type := mkMRopeState {
  ms_st : nat;
  remain_images : Z;
  remain_videos : Z;
  image_index : nat;
  video_index : nat;
  llm_pos_ids_list : list (list mpos);
}.

Section positions.
Context (undefined_long : spec_float -> Z) (c : MRopeConfig) (input_tokens : list Z).
Context (image_grid_thw video_grid_thw : list mpos) (second_per_grid_ts : option (list spec_float)).

(** Where the next token [x] is, if one is left. *)
Definition next_token (x : Z) (remain : Z) (st : nat) : result nat :=
  if bool_decide (x ∈ input_tokens) && (0 <? remain) then py_index x st input_tokens
  else Ok (length input_tokens + 1)%nat.

(** The body of the loop over the vision items. *)
Definition mrope_step (s : MRopeState) : result MRopeState :=
  ed_image ← next_token (image_token_id c) (remain_images s) (ms_st s);
  ed_video ← next_token (video_token_id c) (remain_videos s) (ms_st s);
  let is_image := (ed_image <? ed_video)%nat in
  '(t, h, w) ← or_raise IndexError (if is_image then image_grid_thw !! image_index s
                                    else video_grid_thw !! video_index s);
  video_second_per_grid_t ←
    (if is_image then Ok float_zero
     else match second_per_grid_ts with
          | None => Ok float_one
          | Some l => or_raise IndexError (l !! video_index s)
          end);
  let ed := if is_image then ed_image else ed_video in
  llm_grid_h ← py_floordiv h (spatial_merge_size c);
  llm_grid_w ← py_floordiv w (spatial_merge_size c);
  let text_len := Z.of_nat ed - Z.of_nat (ms_st s) in
  st_idx ← next_index (llm_pos_ids_list s);
  text ← text_positions text_len st_idx;
  vision ← vision_positions undefined_long t llm_grid_h llm_grid_w video_second_per_grid_t
             (tokens_per_second c) (text_len + st_idx);
  Ok (mkMRopeState (Z.to_nat (Z.of_nat ed + t * llm_grid_h * llm_grid_w))
        (if is_image then remain_images s - 1 else remain_images s)
        (if is_image then remain_videos s else remain_videos s - 1)
        (if is_image then S (image_index s) else image_index s)
        (if is_image then video_index s else S (video_index s))
        (llm_pos_ids_list s ++ [text; vision])).

Fixpoint mrope_loop (n : nat) (s : MRopeState) : result MRopeState :=
  match n with
  | O => Ok s
  | S n => s ← mrope_step s; mrope_loop n s
  end.

(** [get_input_positions_tensor], for the whole prompt. *)
Definition get_input_positions_tensor : result (list mpos * Z) :=
  vts ← vision_tokens (vision_start_token_id c) input_tokens;
  let image_nums := length (filter (.= image_token_id c) vts) in
  let video_nums := length (filter (.= video_token_id c) vts) in
  s ← mrope_loop (image_nums + video_nums)
        (mkMRopeState 0 (Z.of_nat image_nums) (Z.of_nat video_nums) 0 0 []);
  blocks ←
    (if (ms_st s <? length input_tokens)%nat then
       st_idx ← next_index (llm_pos_ids_list s);
       text ← text_positions (len input_tokens - Z.of_nat (ms_st s)) st_idx;
       Ok (llm_pos_ids_list s ++ [text])
     else Ok (llm_pos_ids_list s));
  let llm_positions := concat blocks in
  m ← tensor_max llm_positions;
  Ok (llm_positions, int64 (m + 1 - len input_tokens)).
End positions.

(** [get_next_input_positions_tensor] *)
Definition get_next_input_positions_tensor (mrope_position_delta context_len seq_len : Z) : list mpos :=
  (fun i => (i, i, i)) <$> seqZ (mrope_position_delta + context_len) (seq_len - context_len).

(** ** Positions of a batch *)

(** The positions and the delta of each request, kept with its cached state. *)
Abbreviation mrope_map := (gmap string (list mpos * Z)).

(** [buf\[:, start:start + n\] = vals]: the slice is clipped, one column is broadcast,
    other lengths raise. *)
Definition torch_assign (buf : list mpos) (start n : nat) (vals : list mpos) : result (list mpos) :=
  let width := length (slice buf start (start + n)) in
  if decide (length vals = width) then Ok (list_inserts start vals buf)
  else match vals with
       | [v] => Ok (list_inserts start (replicate width v) buf)
       | _ => Err RuntimeError
       end.

(** One request of [_calc_mrope_positions]: [buf] is [mrope_positions_cpu], [ptr] is
    [mrope_pos_ptr]. *)
Definition mrope_request (req : CachedRequestState) (positions : list mpos) (delta : Z)
    (num_computed_tokens num_scheduled_tokens : Z) (buf : list mpos) (ptr : nat) :
    result (list mpos * nat) :=
  let num_prompt_tokens := len (st_prompt_token_ids req) in
  let '(prompt_part_len, completion_part_len) :=
    if num_prompt_tokens <? num_computed_tokens + num_scheduled_tokens then
      let p := Z.max 0 (num_prompt_tokens - num_computed_tokens) in
      (p, Z.max 0 (num_scheduled_tokens - p))
    else (num_scheduled_tokens, 0) in
  _ ← py_assert (num_scheduled_tokens =? prompt_part_len + completion_part_len);
  '(buf, ptr) ←
    (if 0 <? prompt_part_len then
       buf ← torch_assign buf ptr (Z.to_nat prompt_part_len)
               (slice positions (Z.to_nat num_computed_tokens) (Z.to_nat (num_computed_tokens + prompt_part_len)));
       Ok (buf, (ptr + Z.to_nat prompt_part_len)%nat)
     else Ok (buf, ptr));
  if 0 <? completion_part_len then
    buf ← torch_assign buf ptr (Z.to_nat completion_part_len)
            (get_next_input_positions_tensor delta (num_computed_tokens + prompt_part_len)
               (num_computed_tokens + prompt_part_len + completion_part_len));
    Ok (buf, (ptr + Z.to_nat completion_part_len)%nat)
  else Ok (buf, ptr).

Fixpoint mrope_requests (mr : ModelRunner) (mrope : mrope_map) (so : SchedulerOutput) (index : nat)
    (ids : list (option string)) (buf : list mpos) (ptr : nat) : result (list mpos * nat) :=
  match ids with
  | [] => Ok (buf, ptr)
  | o :: ids =>
      req_id ← or_raise AssertionError o;
      req ← or_raise KeyError (mr_requests mr !! req_id);
      '(positions, delta) ← or_raise AssertionError (mrope !! req_id);
      row ← or_raise IndexError (ib_rows (input_batch mr) !! index);
      n ← or_raise KeyError (num_scheduled_tokens so !! req_id);
      '(buf, ptr) ← mrope_request req positions delta (num_computed_tokens_cpu row) n buf ptr;
      mrope_requests mr mrope so (S index) ids buf ptr
  end.

Definition _calc_mrope_positions (mr : ModelRunner) (mrope : mrope_map) (so : SchedulerOutput)
    (mrope_positions_cpu : list mpos) : result (list mpos) :=
  '(buf, _) ← mrope_requests mr mrope so 0 (take (ib_num_reqs (input_batch mr)) (req_ids (input_batch mr)))
                mrope_positions_cpu 0;
  Ok buf.

(** ** The batch against the reference *)

(** The position of the [j]-th token of a request, prompt or completion. *)
Definition full_position (pd : list mpos * Z) (j : Z) : mpos :=
  match pd.1 !! Z.to_nat j with
  | Some p => p
  | None => (pd.2 + j, pd.2 + j, pd.2 + j)
  end.

Definition mrope_of (mrope : mrope_map) (e : CachedRequestState * Z) : list mpos :=
  match mrope !! st_req_id e.1 with
  | Some pd => full_position pd <$> positions_of e
  | None => []
  end.

Lemma torch_assign_exact (pre rest vals : list mpos) :
  (length vals <= length rest)%nat ->
  torch_assign (pre ++ rest) (length pre) (length vals) vals = Ok (pre ++ vals ++ drop (length vals) rest).
Proof.
  intros Hl. unfold torch_assign. rewrite decide_True.
  - f_equal. rewrite list_inserts_eq by (rewrite length_app; lia).
    rewrite take_app_length. by rewrite drop_app_add.
  - unfold slice. rewrite drop_app_length, length_take. lia.
Qed.

Lemma zseq_seqZ a n : (fun k => a + k) <$> zseq n = seqZ a n.
Proof. unfold zseq, seqZ. rewrite <-list_fmap_compose. apply list_fmap_ext. intros i x _. simpl. lia. Qed.

Lemma zseq_app a b : 0 <= a -> 0 <= b -> zseq (a + b) = zseq a ++ ((fun k => a + k) <$> zseq b).
Proof.
  intros Ha Hb. assert (H0 : ∀ n, zseq n = seqZ 0 n).
  { intros n. rewrite <-zseq_seqZ. rewrite <-(list_fmap_id (zseq n)) at 1. by apply list_fmap_ext. }
  rewrite zseq_seqZ, !H0, seqZ_app by done. done.
Qed.

(** The prompt part and the completion part are slices of the same sequence. *)
Lemma prompt_part_eq positions delta nc p :
  0 <= nc -> 0 <= p -> nc + p <= len positions ->
  slice positions (Z.to_nat nc) (Z.to_nat (nc + p)) =
    full_position (positions, delta) <$> ((fun k => nc + k) <$> zseq p).
Proof.
  intros Hn Hp Hl. apply list_eq. intros i. rewrite slice_lookup. unfold zseq. rewrite !list_lookup_fmap. destruct (decide (i < Z.to_nat p)%nat) as [Hi|Hi].
  - rewrite decide_True by lia. rewrite lookup_seq_lt by done. simpl. unfold full_position. cbn [fst].
    replace (Z.to_nat (nc + Z.of_nat i)) with (Z.to_nat nc + i)%nat by lia.
    destruct (lookup_lt_is_Some_2 positions (Z.to_nat nc + i)) as [x ->]; [lia|done].
  - rewrite decide_False by lia. by rewrite lookup_seq_ge by lia.
Qed.

Lemma completion_part_eq positions delta s n :
  len positions <= s -> 0 <= s -> 0 <= n ->
  get_next_input_positions_tensor delta s (s + n) =
    full_position (positions, delta) <$> ((fun k => s + k) <$> zseq n).
Proof.
  intros Hs Hs0 Hn. unfold get_next_input_positions_tensor. replace (s + n - s) with n by lia.
  rewrite <-zseq_seqZ, <-!list_fmap_compose. apply list_fmap_ext. intros i x Hx. unfold full_position, compose.
  cbn [fst snd]. apply list_elem_of_lookup_2, list_elem_of_fmap in Hx as (k & -> & _).
  rewrite lookup_ge_None_2 by lia. f_equal; [f_equal|]; lia.
Qed.

Lemma mrope_request_spec st positions delta n pre rest :
  len positions = len (st_prompt_token_ids st) -> 0 <= st_num_computed_tokens st -> 0 < n ->
  (Z.to_nat n <= length rest)%nat ->
  mrope_request st positions delta (st_num_computed_tokens st) n (pre ++ rest) (length pre) =
    Ok (pre ++ (full_position (positions, delta) <$> positions_of (st, n)) ++ drop (Z.to_nat n) rest,
        (length pre + Z.to_nat n)%nat).
Proof.
  intros Hlen Hnc Hn Hrest. unfold mrope_request. rewrite <-Hlen. set (nc := st_num_computed_tokens st) in *.
  set (p := if len positions <? nc + n then Z.max 0 (len positions - nc) else n).
  assert (Hparts : (if len positions <? nc + n
     then (Z.max 0 (len positions - nc), Z.max 0 (n - Z.max 0 (len positions - nc))) else (n, 0)) = (p, n - p)).
  { unfold p. destruct (Z.ltb_spec (len positions) (nc + n)); [f_equal; lia|f_equal; lia]. }
  rewrite Hparts. clear Hparts.
  assert (Hp : 0 <= p <= n ∧ (0 < p -> nc + p <= len positions) ∧ (0 < n - p -> len positions <= nc + p)).
  { unfold p. destruct (Z.ltb_spec (len positions) (nc + n)); lia. }
  clearbody p. destruct Hp as (Hp & Hp1 & Hp2).
  rewrite (proj2 (Z.eqb_eq n (p + (n - p)))) by lia. cbn [py_assert mbind result_bind].
  set (f := full_position (positions, delta)).
  assert (Hall : f <$> positions_of (st, n) = (f <$> ((fun k => nc + k) <$> zseq p)) ++
    (f <$> ((fun k => nc + p + k) <$> zseq (n - p)))).
  { unfold positions_of. cbn [fst snd]. fold nc. replace n with (p + (n - p)) at 1 by lia.
    rewrite zseq_app, !fmap_app by lia. f_equal. rewrite <-!list_fmap_compose. apply list_fmap_ext.
    intros i x _. unfold compose. f_equal. lia. }
  rewrite Hall.
  set (A := f <$> ((fun k => nc + k) <$> zseq p)). set (B := f <$> ((fun k => nc + p + k) <$> zseq (n - p))).
  assert (LA : length A = Z.to_nat p) by (unfold A; by rewrite !length_fmap, length_zseq).
  assert (LB : length B = Z.to_nat (n - p)) by (unfold B; by rewrite !length_fmap, length_zseq).
  assert (HA : (if 0 <? p then
       buf ← torch_assign (pre ++ rest) (length pre) (Z.to_nat p)
               (slice positions (Z.to_nat nc) (Z.to_nat (nc + p)));
       Ok (buf, (length pre + Z.to_nat p)%nat)
     else Ok (pre ++ rest, length pre)) = Ok ((pre ++ A) ++ drop (length A) rest, length (pre ++ A))).
  { destruct (Z.ltb_spec 0 p) as [Hpos|Hz].
    - rewrite (prompt_part_eq positions delta nc p) by lia. fold f A. rewrite <-LA, torch_assign_exact by lia.
      cbn [mbind result_bind]. by rewrite length_app, <-app_assoc.
    - assert (A = []) as -> by (apply nil_length_inv; lia). by rewrite app_nil_r. }
  rewrite HA. cbn [mbind result_bind]. destruct (Z.ltb_spec 0 (n - p)) as [Hpos|Hz].
  - rewrite (completion_part_eq positions delta (nc + p) (n - p)) by lia. fold f B.
    rewrite <-LB, torch_assign_exact by (rewrite length_drop; lia). cbn [mbind result_bind].
    rewrite drop_drop, !length_app, LA, LB, <-!app_assoc, <-Nat.add_assoc.
    by replace (Z.to_nat p + Z.to_nat (n - p))%nat with (Z.to_nat n) by lia.
  - assert (B = []) as -> by (apply nil_length_inv; lia). rewrite app_nil_r, length_app, LA, <-app_assoc.
    replace p with n by lia. done.
Qed.

(** Every request of the batch has positions for its whole prompt. *)
Definition mrope_ready (mrope : mrope_map) (e : CachedRequestState * Z) : Prop :=
  0 < e.2 ∧ 0 <= st_num_computed_tokens e.1 ∧
  ∃ positions delta, mrope !! st_req_id e.1 = Some (positions, delta) ∧
    len positions = len (st_prompt_token_ids e.1).

Lemma mrope_of_length mrope e : mrope_ready mrope e -> length (mrope_of mrope e) = Z.to_nat e.2.
Proof.
  intros (_ & _ & ps & d & E & _). unfold mrope_of, positions_of. rewrite E.
  by rewrite !length_fmap, length_zseq.
Qed.

Lemma mrope_requests_spec mr mrope so ids i pre rest P :
  (∀ rid st, mr_requests mr !! rid = Some st -> st_req_id st = rid) ->
  length ids = length P ->
  (∀ k rid e, ids !! k = Some rid -> P !! k = Some e -> mr_requests mr !! rid = Some e.1 ∧
     num_scheduled_tokens so !! rid = Some e.2 ∧ row_agrees e.1 (input_batch mr) (i + k) ∧ mrope_ready mrope e) ->
  (length (concat (mrope_of mrope <$> P)) <= length rest)%nat ->
  mrope_requests mr mrope so i (Some <$> ids) (pre ++ rest) (length pre) =
    Ok (pre ++ concat (mrope_of mrope <$> P) ++ drop (length (concat (mrope_of mrope <$> P))) rest,
        (length pre + length (concat (mrope_of mrope <$> P)))%nat).
Proof.
  intros Hid. revert i pre rest P. induction ids as [|rid ids IH]; intros i pre rest P Hlen Hall Hrest.
  { destruct P; [|done]. cbn. by rewrite Nat.add_0_r. }
  destruct P as [|e P]; [done|]. destruct (Hall 0%nat rid e eq_refl eq_refl) as (Hst & Hn & Hrow & Hrdy).
  pose proof (mrope_of_length mrope e Hrdy) as Hle.
  rewrite (fmap_cons (mrope_of mrope)) in Hrest |- *. cbn [concat] in Hrest |- *. rewrite length_app in Hrest.
  destruct Hrdy as (Hpos & Hnc & positions & delta & Hmr & Hpl).
  rewrite fmap_cons. cbn [mrope_requests or_raise mbind result_bind]. rewrite Hst. cbn [or_raise mbind result_bind].
  pose proof (Hid _ _ Hst) as Erid. rewrite <-Erid at 1. rewrite Hmr. cbn [or_raise mbind result_bind].
  rewrite Nat.add_0_r in Hrow. destruct Hrow as (row & ? & ? & Hrow & Hh & _). rewrite Hrow.
  cbn [or_raise mbind result_bind]. rewrite Hn, (rh_num_computed _ _ Hh). cbn [or_raise mbind result_bind].
  destruct e as [st n]. cbn [fst snd] in *.
  rewrite mrope_request_spec by (try done; lia). cbn [mbind result_bind].
  assert (Ee : mrope_of mrope (st, n) = full_position (positions, delta) <$> positions_of (st, n))
    by (unfold mrope_of; cbn [fst]; by rewrite Hmr).
  rewrite <-Ee, <-Hle, <-length_app, app_assoc.
  rewrite (IH (S i) (pre ++ mrope_of mrope (st, n)) (drop (length (mrope_of mrope (st, n))) rest) P); try done.
  - rewrite drop_drop, !length_app, <-!app_assoc. do 2 f_equal. lia.
  - by injection Hlen.
  - intros k rid' e' Hk He. replace (S i + k)%nat with (i + S k)%nat by lia. by apply Hall.
  - rewrite length_drop. lia.
Qed.

(** The M-RoPE positions of a batch.  For a batch that represents the scheduled
    requests, each with positions for its prompt, [_calc_mrope_positions] returns;
    the buffer then holds, request by request in row order, the positions of exactly
    the scheduled tokens, taken from the request's single sequence of positions (the
    prompt's, then the continuation by its delta) no matter how prefill was chunked;
    the rest of the buffer is untouched. *)
Theorem mrope_positions_correct mr A L W so mrope buf :
  runner_inv mr A L W -> dom A = dom (num_scheduled_tokens so) ->
  Forall (mrope_ready mrope) (plan mr so) ->
  (length (concat (mrope_of mrope <$> plan mr so)) <= length buf)%nat ->
  _calc_mrope_positions mr mrope so buf =
    Ok (concat (mrope_of mrope <$> plan mr so) ++ drop (length (concat (mrope_of mrope <$> plan mr so))) buf).
Proof.
  intros Hinv Hdom Hrdy Hbuf. unfold _calc_mrope_positions.
  destruct (plan_spec mr A L W so Hinv Hdom) as (Hlen & Hrow & _ & Hlk). pose proof Hinv as (Hrep & _ & Hids).
  destruct (batch_ids_spec _ A L W Hrep) as (Heq & Hl & _). rewrite Heq.
  assert (Hl2 : length (batch_ids (input_batch mr)) = length (plan mr so)).
  { rewrite Hlen. apply (f_equal length) in Heq. rewrite length_fmap, length_take in Heq.
    rewrite Hl. by rewrite (batch_rep_size _ _ _ _ _ Hrep). }
  pose proof (mrope_requests_spec mr mrope so (batch_ids (input_batch mr)) 0 [] buf (plan mr so)) as Hspec.
  cbn [app length Nat.add] in Hspec. rewrite Hspec; try done.
  intros k rid e Hk He. destruct (Hlk k e He) as (rid' & Hk' & Hst & Hn). assert (rid' = rid) as -> by congruence.
  split_and!; [done|done|by apply Hrow|]. rewrite Forall_forall in Hrdy. apply Hrdy. by eapply list_elem_of_lookup_2.
Qed.

(** The batch of two new requests: "a" has a text prompt, the image of "b" is a grid
    of one by two. *)
Definition demo_mrope : mrope_map :=
  {["a"%string := ([(0, 0, 0); (1, 1, 1); (2, 2, 2)], 0);
    "b"%string := ([(0, 0, 0); (1, 1, 1); (1, 1, 2); (3, 3, 3)], 0)]}.

Lemma mrope_positions_correct_witness :
  _calc_mrope_positions demo_mr1 demo_mrope demo_so1 (replicate 8 (9, 9, 9)) =
    Ok ([(0, 0, 0); (1, 1, 1); (2, 2, 2); (0, 0, 0); (1, 1, 1)] ++ replicate 3 (9, 9, 9)).
Proof.
  destruct demo_update as (A & _ & Hinv & Hdom & _).
  rewrite (mrope_positions_correct demo_mr1 A 8 4 demo_so1 demo_mrope (replicate 8 (9, 9, 9)) Hinv Hdom).
  - vm_compute. reflexivity.
  - repeat (constructor; [split_and!; [vm_compute; congruence..|];
      eexists _, _; split; vm_compute; reflexivity|]). constructor.
  - vm_compute. lia.
Defined.
