(* ===== verification/MRopeSpec.v ===== *)
(** * Multi-modal rotary positions of a prompt, against a reference

    A well-formed prompt of Qwen2-VL is a sequence of vision items, each preceded by
    text and the vision-start token, followed by text.  The reference walks over the
    items and numbers them; [get_input_positions_tensor] finds the items by searching
    the token list and takes maxima of tensors.  Both agree as long as the indices fit into
    an int64.  The frame indices are the float32 ones of [frame_index] in both. *)

From stdpp Require Import base tactics list gmap sets strings.
From Stdlib Require Import ZArith Lia SpecFloat.
From S2P Require Import Prelude.
From S2P Require Import PrepareInputs.
From S2P Require Import MRope.

Local Open Scope Z_scope.

(** ** Well-formed prompts and their positions *)

Record vision_item : Type := mkItem {
  vi_text : list Z;
  vi_image : bool;
  vi_grid : mpos;
  vi_second : spec_float;
}.

Section items.
Context (undefined_long : spec_float -> Z) (c : MRopeConfig).

Definition item_token (v : vision_item) : Z := if vi_image v then image_token_id c else video_token_id c.
Definition item_t (v : vision_item) : Z := (vi_grid v).1.1.
Definition item_h (v : vision_item) : Z := (vi_grid v).1.2 / spatial_merge_size c.
Definition item_w (v : vision_item) : Z := (vi_grid v).2 / spatial_merge_size c.
Definition item_size (v : vision_item) : Z := item_t v * item_h v * item_w v.
Definition item_second (v : vision_item) : spec_float := if vi_image v then float_zero else vi_second v.
(** The temporal index of frame [t]. *)
Definition item_frame (v : vision_item) (t : Z) : Z :=
  frame_index undefined_long (item_second v) (tokens_per_second c) t.

Definition item_tokens (v : vision_item) : list Z :=
  vi_text v ++ [vision_start_token_id c] ++ replicate (Z.to_nat (item_size v)) (item_token v).

Definition prompt_tokens (items : list vision_item) (tail : list Z) : list Z :=
  concat (item_tokens <$> items) ++ tail.

Definition plain_token (x : Z) : Prop :=
  x ≠ image_token_id c ∧ x ≠ video_token_id c ∧ x ≠ vision_start_token_id c.

Definition config_ok : Prop :=
  image_token_id c ≠ video_token_id c ∧ vision_start_token_id c ≠ image_token_id c ∧
  vision_start_token_id c ≠ video_token_id c ∧ spatial_merge_size c ≠ 0.

Definition item_ok (v : vision_item) : Prop :=
  Forall plain_token (vi_text v) ∧ 0 < item_t v ∧ 0 < item_h v ∧ 0 < item_w v.

(** The grids and the seconds per grid of the items of one kind, in order. *)
Definition of_kind (b : bool) (items : list vision_item) : list vision_item :=
  filter (fun v => vi_image v = b) items.
Definition seconds_agree (secs : option (list spec_float)) (items : list vision_item) : Prop :=
  match secs with
  | Some l => l = vi_second <$> of_kind false items
  | None => Forall (fun v => vi_second v = float_one) items
  end.

(** The text before the vision tokens, with the vision-start token. *)
Definition text_len_of (v : vision_item) : Z := len (vi_text v) + 1.
Definition text_columns (n idx : Z) : list mpos := (fun i => (i, i, i)) <$> seqZ idx n.
(** The number of indices the grid of an item takes. *)
Definition item_extent (v : vision_item) : Z :=
  foldr Z.max (Z.max (item_h v - 1) (item_w v - 1)) (item_frame v <$> seqZ 0 (item_t v)) + 1.
(** Frame by frame, row by row, the columns of a grid from [base] on. *)
Definition item_grid (base : Z) (v : vision_item) : list mpos :=
  t ← seqZ 0 (item_t v); h ← seqZ 0 (item_h v); w ← seqZ 0 (item_w v);
  [(base + item_frame v t, base + h, base + w)].

Definition item_columns (idx : Z) (v : vision_item) : list mpos :=
  text_columns (text_len_of v) idx ++ item_grid (text_len_of v + idx) v.

(** The positions of a prompt from index [idx] on, and the first free index. *)
Fixpoint prompt_positions (idx : Z) (items : list vision_item) (tail : list Z) : list mpos * Z :=
  match items with
  | [] => (text_columns (len tail) idx, idx + len tail)
  | v :: items =>
      let '(ps, next) := prompt_positions (idx + text_len_of v + item_extent v) items tail in
      (item_columns idx v ++ ps, next)
  end.

(** The indices of the prompt, and its length, are int64 values. *)
Definition fits_int64 (items : list vision_item) (tail : list Z) : Prop :=
  (prompt_positions 0 items tail).2 < 2 ^ 63 ∧ len (prompt_tokens items tail) < 2 ^ 63.

(** ** Lists *)

Lemma list_bind_concat {A B} (f : A -> list B) l : l ≫= f = concat (f <$> l).
Proof. induction l as [|x l IH]; [done|]. cbn. by rewrite <-IH. Qed.

Lemma list_bind_singletons {A B} (f : A -> B) l : (l ≫= fun x => [f x]) = f <$> l.
Proof. induction l as [|x l IH]; [done|]. cbn. by rewrite <-IH. Qed.

(** ** Maxima *)

Definition is_max (l : list mpos) (m : Z) : Prop :=
  (∃ p, p ∈ l ∧ column_max p = m) ∧ ∀ p, p ∈ l -> column_max p <= m.

Lemma tensor_max_spec l m : is_max l m -> tensor_max l = Ok m.
Proof.
  intros ((p & Hp & <-) & Hall). destruct l as [|q l]; [by apply elem_of_nil in Hp|]. cbn [tensor_max]. f_equal.
  assert (Hge : ∀ l q,
     (∀ p, p ∈ q :: l -> column_max p <= foldr (fun q m => Z.max (column_max q) m) (column_max q) l) ∧
     ∃ p, p ∈ q :: l ∧ foldr (fun q m => Z.max (column_max q) m) (column_max q) l = column_max p).
  { clear. intros l q. induction l as [|x l [IH1 (p & Hp & IH2)]]; cbn [foldr].
    - split; [intros p ->%list_elem_of_singleton; lia|]. exists q. split; [left|done].
    - split.
      + intros y Hy. apply elem_of_cons in Hy as [->|Hy]; [specialize (IH1 q ltac:(left)); lia|].
        apply elem_of_cons in Hy as [->|Hy]; [lia|]. specialize (IH1 y ltac:(by right)). lia.
      + destruct (Z.max_spec (column_max x) (foldr (fun q m => Z.max (column_max q) m) (column_max q) l))
          as [[_ ->]|[_ ->]]; [exists p|exists x]; (split; [|done]); set_solver. }
  destruct (Hge l q) as [H1 (x & Hx & H2)]. specialize (H1 p Hp). rewrite H2 in *.
  specialize (Hall x Hx). lia.
Qed.

Lemma text_columns_max n idx : 0 < n -> is_max (text_columns n idx) (idx + n - 1).
Proof.
  intros Hn. unfold text_columns. split.
  - exists (idx + n - 1, idx + n - 1, idx + n - 1). split; [|unfold column_max; simpl; lia].
    apply list_elem_of_fmap. exists (idx + n - 1). rewrite elem_of_seqZ. split; [done|lia].
  - intros p (i & -> & Hi%elem_of_seqZ)%list_elem_of_fmap. unfold column_max. simpl. lia.
Qed.

Lemma foldr_max_spec d (l : list Z) :
  (∀ x, x ∈ l -> x <= foldr Z.max d l) ∧ d <= foldr Z.max d l ∧ (foldr Z.max d l = d ∨ foldr Z.max d l ∈ l).
Proof.
  induction l as [|y l (IH1 & IH2 & IH3)]; cbn [foldr]; [split_and!; [by intros x ?%elem_of_nil|lia|by left]|].
  split_and!; [|lia|].
  - intros x [->|Hx]%elem_of_cons; [lia|]. specialize (IH1 x Hx). lia.
  - rewrite elem_of_cons. destruct (Z.max_spec y (foldr Z.max d l)) as [[_ ->]|[_ ->]]; [|auto].
    destruct IH3 as [->|]; auto.
Qed.

Lemma elem_of_grid p base v : p ∈ item_grid base v <->
  ∃ t h w, 0 <= t < item_t v ∧ 0 <= h < item_h v ∧ 0 <= w < item_w v ∧ p = (base + item_frame v t, base + h, base + w).
Proof.
  unfold item_grid. rewrite list_elem_of_bind. split.
  - intros (t & Hp & Ht%elem_of_seqZ). apply list_elem_of_bind in Hp as (h & Hp & Hh%elem_of_seqZ).
    apply list_elem_of_bind in Hp as (w & ->%list_elem_of_singleton & Hw%elem_of_seqZ). exists t, h, w. split_and!; lia || done.
  - intros (t & h & w & Ht & Hh & Hw & ->). exists t. rewrite list_elem_of_bind, elem_of_seqZ. split; [|lia].
    exists h. rewrite list_elem_of_bind, elem_of_seqZ. split; [|lia]. exists w. rewrite list_elem_of_singleton, elem_of_seqZ.
    split; [done|lia].
Qed.

Lemma item_frame_extent v t : 0 <= t < item_t v -> item_frame v t < item_extent v.
Proof.
  intros Ht. unfold item_extent. destruct (foldr_max_spec (Z.max (item_h v - 1) (item_w v - 1))
    (item_frame v <$> seqZ 0 (item_t v))) as (H & _). specialize (H (item_frame v t)).
  enough (item_frame v t ∈ item_frame v <$> seqZ 0 (item_t v)) by (specialize (H ltac:(done)); lia).
  apply list_elem_of_fmap_2, elem_of_seqZ. lia.
Qed.

Lemma item_sides_extent v : item_h v <= item_extent v ∧ item_w v <= item_extent v.
Proof.
  unfold item_extent. destruct (foldr_max_spec (Z.max (item_h v - 1) (item_w v - 1))
    (item_frame v <$> seqZ 0 (item_t v))) as (_ & H & _). lia.
Qed.

Lemma grid_max v base : item_ok v -> is_max (item_grid base v) (base + item_extent v - 1).
Proof.
  intros (_ & Ht & Hh & Hw). pose proof (item_sides_extent v) as Hs. split.
  - assert (∃ t, 0 <= t < item_t v ∧ Z.max (item_frame v t) (Z.max (item_h v - 1) (item_w v - 1)) = item_extent v - 1) as (t & Hlt & E).
    { unfold item_extent in *. destruct (foldr_max_spec (Z.max (item_h v - 1) (item_w v - 1))
        (item_frame v <$> seqZ 0 (item_t v))) as (H & _ & [E|(t & E & Htt%elem_of_seqZ)%list_elem_of_fmap]).
      - exists 0. split; [lia|]. specialize (H (item_frame v 0)). rewrite E in *.
        assert (item_frame v 0 <= Z.max (item_h v - 1) (item_w v - 1)); [|lia].
        apply H, list_elem_of_fmap_2, elem_of_seqZ. lia.
      - exists t. split; [lia|]. rewrite E in *. lia. }
    eexists. split; [apply elem_of_grid; exists t, (item_h v - 1), (item_w v - 1); split_and!; try lia; reflexivity|].
    unfold column_max. cbn [fst snd]. lia.
  - intros p (t & h & w & Hi & Hj & Hk & ->)%elem_of_grid. pose proof (item_frame_extent v t Hi).
    unfold column_max. cbn [fst snd]. lia.
Qed.

Lemma int64_id z : - 2 ^ 63 <= z < 2 ^ 63 -> int64 z = z.
Proof. intros Hz. unfold int64. rewrite Z.mod_small; lia. Qed.

Lemma int64_range z : - 2 ^ 63 <= int64 z < 2 ^ 63.
Proof. unfold int64. pose proof (Z.mod_pos_bound (z + 2 ^ 63) (2 ^ 64) ltac:(lia)). lia. Qed.

Lemma item_frame_range v t : - 2 ^ 63 <= item_frame v t.
Proof.
  unfold item_frame, frame_index, to_long. repeat case_match; try lia; try apply int64_range.
  all: match goal with H : (int64 ?z =? _) = true |- _ => apply Z.eqb_eq in H; rewrite <-H; apply int64_range end.
Qed.

Lemma item_extent_pos v : item_ok v -> 0 < item_extent v.
Proof. intros (_ & _ & Hh & _). pose proof (item_sides_extent v). lia. Qed.

Lemma prompt_positions_max idx items tail :
  Forall item_ok items -> 0 < len (prompt_tokens items tail) ->
  is_max (prompt_positions idx items tail).1 ((prompt_positions idx items tail).2 - 1) ∧
  idx < (prompt_positions idx items tail).2.
Proof.
  revert idx. induction items as [|v items IH]; intros idx Hok Hpos.
  { cbn in Hpos |- *. split; [by apply text_columns_max|lia]. }
  inversion_clear Hok as [|? ? Hv Hok']. cbn [prompt_positions].
  pose proof (item_extent_pos v Hv) as He. pose proof (grid_max v (text_len_of v + idx) Hv) as [(g & Hg & Eg) Hga].
  assert (Htl : 0 < text_len_of v) by (unfold text_len_of; lia).
  destruct (text_columns_max (text_len_of v) idx Htl) as [_ Hta].
  set (idx' := idx + text_len_of v + item_extent v) in *.
  assert (Hcols : ∀ p, p ∈ item_columns idx v -> column_max p <= idx' - 1).
  { intros p [Hp|Hp]%elem_of_app; [specialize (Hta p Hp); lia|specialize (Hga p Hp); lia]. }
  destruct (decide (prompt_tokens items tail = [])) as [E0|E0].
  - unfold prompt_tokens in E0. apply app_eq_nil in E0 as [E1 ->].
    destruct items as [|v' items]; [|by destruct v' as [[] ? ? ?]].
    cbn [prompt_positions fst snd]. change (text_columns (len []) idx') with (@nil mpos). rewrite app_nil_r.
    change (len []) with 0. split; [|unfold idx'; lia]. split.
    + exists g. split; [apply elem_of_app; by right|]. unfold idx'. lia.
    + intros p Hp. specialize (Hcols p Hp). lia.
  - destruct (IH idx' Hok') as [[(p & Hp & Ep) Hpa] Hlt].
    { destruct (prompt_tokens items tail); [done|cbn [length]; lia]. }
    destruct (prompt_positions idx' items tail) as [ps next]. cbn [fst snd] in *. split; [|unfold idx' in *; lia]. split.
    + exists p. split; [apply elem_of_app; by right|done].
    + intros q [Hq|Hq]%elem_of_app; [specialize (Hcols q Hq); lia|by apply Hpa].
Qed.

Lemma length_grid base v :
  length (item_grid base v) = (length (seqZ 0 (item_t v)) * length (seqZ 0 (item_h v)) * length (seqZ 0 (item_w v)))%nat.
Proof.
  assert (Hb : ∀ (A B : Type) (f : A -> list B) k l, (∀ x, length (f x) = k) -> length (l ≫= f) = (length l * k)%nat).
  { intros A B f k l Hf. rewrite list_bind_concat. induction l as [|x l IH]; [done|]. rewrite fmap_cons. cbn [concat length].
    rewrite length_app, Hf, IH. lia. }
  unfold item_grid. rewrite <-Nat.mul_assoc. apply Hb. intros t. apply Hb. intros h.
  rewrite (Hb _ _ _ 1%nat); [lia|done].
Qed.

Lemma length_item_columns idx v : item_ok v -> length (item_columns idx v) = length (item_tokens v).
Proof.
  intros (_ & Ht & Hh & Hw). unfold item_columns, item_tokens, text_columns, text_len_of, item_size.
  rewrite !length_app, length_fmap, length_grid, !length_seqZ, length_replicate. cbn [length]. nia.
Qed.

Lemma length_prompt_positions idx items tail : Forall item_ok items ->
  length (prompt_positions idx items tail).1 = length (prompt_tokens items tail).
Proof.
  revert idx. induction items as [|v items IH]; intros idx Hok.
  { cbn. unfold text_columns. rewrite length_fmap, length_seqZ. lia. }
  inversion_clear Hok as [|? ? Hv Hok']. cbn [prompt_positions]. specialize (IH (idx + text_len_of v + item_extent v) Hok').
  destruct (prompt_positions _ items tail) as [ps next]. cbn [fst] in *. unfold prompt_tokens in *.
  rewrite fmap_cons. cbn [concat]. rewrite <-app_assoc, !length_app in *. rewrite IH, length_item_columns by done. done.
Qed.

(** ** Searching the tokens *)

Lemma vision_tokens_skip vs pre l : vs ∉ pre -> vision_tokens vs (pre ++ l) = vision_tokens vs l.
Proof.
  induction pre as [|x pre IH]; [done|]. intros [Hx Hpre]%not_elem_of_cons. cbn [app vision_tokens].
  rewrite IH by done. rewrite (proj2 (Z.eqb_neq x vs)) by congruence.
  by destruct (vision_tokens vs l).
Qed.

Lemma plain_no_start l : Forall plain_token l -> vision_start_token_id c ∉ l.
Proof. intros Hl Hin. rewrite Forall_forall in Hl. by destruct (Hl _ Hin) as (_ & _ & []). Qed.

Lemma item_size_pos v : item_ok v -> 0 < item_size v.
Proof. intros (_ & Ht & Hh & Hw). unfold item_size. nia. Qed.

Lemma item_token_not_start v : config_ok -> vision_start_token_id c ≠ item_token v.
Proof. intros (_ & H1 & H2 & _). unfold item_token. by destruct (vi_image v). Qed.

Lemma vision_tokens_prompt items tail :
  config_ok -> Forall item_ok items -> Forall plain_token tail ->
  vision_tokens (vision_start_token_id c) (prompt_tokens items tail) = Ok (item_token <$> items).
Proof.
  intros Hc Hok Htail. unfold prompt_tokens. induction Hok as [|v items Hv Hok IH].
  - cbn [fmap list_fmap concat app]. rewrite <-(app_nil_r tail), vision_tokens_skip by by apply plain_no_start. done.
  - rewrite !fmap_cons. cbn [concat]. unfold item_tokens at 1. rewrite <-!app_assoc.
    rewrite vision_tokens_skip by (apply plain_no_start; apply Hv). cbn [app vision_tokens].
    rewrite vision_tokens_skip.
    2: { intros E%elem_of_replicate_inv. by apply (item_token_not_start v Hc). }
    rewrite IH. cbn [mbind result_bind]. rewrite Z.eqb_refl. pose proof (item_size_pos v Hv).
    destruct (Z.to_nat (item_size v)) eqn:E; [lia|]. done.
Qed.

Lemma of_kind_cons b v items : of_kind b (v :: items) = if decide (vi_image v = b) then v :: of_kind b items else of_kind b items.
Proof. unfold of_kind. by rewrite filter_cons. Qed.

Lemma of_kind_app b l1 l2 : of_kind b (l1 ++ l2) = of_kind b l1 ++ of_kind b l2.
Proof. apply filter_app. Qed.

Definition kind_token (b : bool) : Z := if b then image_token_id c else video_token_id c.

Lemma kind_token_inj b1 b2 : config_ok -> kind_token b1 = kind_token b2 -> b1 = b2.
Proof. intros (H & _). unfold kind_token. destruct b1, b2; congruence. Qed.

Lemma count_kind b items : config_ok ->
  length (filter (.= kind_token b) (item_token <$> items)) = length (of_kind b items).
Proof.
  intros Hc. induction items as [|v items IH]; [done|].
  rewrite fmap_cons, filter_cons, of_kind_cons. change (item_token v) with (kind_token (vi_image v)).
  destruct (decide (vi_image v = b)) as [->|Hne].
  - rewrite decide_True by done. cbn [length]. by rewrite IH.
  - rewrite decide_False by (intros E; by apply kind_token_inj in E). done.
Qed.

Lemma count_kinds items : (length (of_kind true items) + length (of_kind false items) = length items)%nat.
Proof.
  induction items as [|v items IH]; [done|]. rewrite !of_kind_cons. cbn [length]. rewrite <-IH.
  destruct (vi_image v); [rewrite decide_True, decide_False by done|rewrite decide_False, decide_True by done];
    cbn [length]; lia.
Qed.

(** The first token of a kind from an item on: at the item if it is of that kind,
    after its first token otherwise. *)
Lemma next_token_kind b pre v items tail :
  config_ok -> Forall item_ok (v :: items) ->
  ∃ ed, next_token (pre ++ prompt_tokens (v :: items) tail) (kind_token b) (len (of_kind b (v :: items))) (length pre) = Ok ed ∧
    if decide (vi_image v = b) then ed = (length pre + (length (vi_text v) + 1))%nat
    else (length pre + (length (vi_text v) + 1) < ed)%nat.
Proof.
  intros Hc Hok. inversion_clear Hok as [|? ? Hv Hok']. set (X := prompt_tokens (v :: items) tail).
  set (n := (length (vi_text v) + 1)%nat).
  assert (HX : X = (vi_text v ++ [vision_start_token_id c]) ++ replicate (Z.to_nat (item_size v)) (kind_token (vi_image v)) ++
     prompt_tokens items tail).
  { unfold X, prompt_tokens. rewrite fmap_cons. cbn [concat]. unfold item_tokens. by rewrite <-!app_assoc. }
  assert (Hbefore : ∀ j y, X !! j = Some y -> (j < n)%nat -> y ≠ kind_token b).
  { intros j y Hj Hlt. rewrite HX, lookup_app_l in Hj by (rewrite length_app; cbn; lia).
    apply list_elem_of_lookup_2, elem_of_app in Hj as [Hj| ->%list_elem_of_singleton].
    - destruct Hv as [Hplain _]. rewrite Forall_forall in Hplain. destruct (Hplain _ Hj) as (? & ? & _). by destruct b.
    - destruct Hc as (_ & ? & ? & _). by destruct b. }
  assert (Hat : X !! n = Some (kind_token (vi_image v))).
  { rewrite HX, lookup_app_r by (rewrite length_app; cbn; lia). rewrite length_app. cbn [length].
    replace (n - (length (vi_text v) + 1))%nat with 0%nat by lia. pose proof (item_size_pos v Hv).
    destruct (Z.to_nat (item_size v)) eqn:E; [lia|done]. }
  unfold next_token. rewrite of_kind_cons. destruct (decide (vi_image v = b)) as [E|Hne].
  - eexists. split; [|done]. rewrite bool_decide_true by
      (apply elem_of_app; right; rewrite <-E; by eapply list_elem_of_lookup_2).
    rewrite (proj2 (Z.ltb_lt 0 _)) by (cbn [length]; lia). cbn [andb]. unfold py_index. rewrite drop_app_length.
    assert (list_find (kind_token b =.) X = Some (n, kind_token b)) as ->; [|done].
    apply list_find_Some. rewrite <-E at 1. split_and!; [done|done|]. intros j y Hj Hlt He. by apply (Hbefore j y).
  - assert (Hlen : (length pre + n < length (pre ++ X))%nat).
    { rewrite length_app. apply lookup_lt_Some in Hat. lia. }
    destruct (bool_decide (kind_token b ∈ pre ++ X) && (0 <? len (of_kind b items))) eqn:Hb; [|eexists; split; [done|lia]].
    apply andb_prop in Hb as [_ Hpos%Z.ltb_lt].
    assert (Hin : kind_token b ∈ X).
    { destruct (of_kind b items) as [|u us] eqn:Eu; [cbn in Hpos; lia|].
      assert (Hu : u ∈ of_kind b items) by (rewrite Eu; left). apply list_elem_of_filter in Hu as [Eb Hu].
      rewrite HX. unfold prompt_tokens. rewrite !elem_of_app. right; right; left. apply elem_of_concat.
      exists (item_tokens u). split; [by apply list_elem_of_fmap_2|]. unfold item_tokens. rewrite !elem_of_app. right; right.
      rewrite Forall_forall in Hok'. pose proof (item_size_pos u (Hok' u Hu)). change (item_token u) with (kind_token (vi_image u)).
      rewrite Eb. apply elem_of_replicate. split; [done|lia]. }
    unfold py_index. rewrite drop_app_length.
    destruct (list_find_elem_of (kind_token b =.) X _ Hin eq_refl) as [[i x] Ei]. rewrite Ei.
    cbn [or_raise mbind result_bind]. eexists; split; [done|]. apply list_find_Some in Ei as (Hi & <- & _).
    destruct (decide (i < n)%nat) as [Hlt|]; [by destruct (Hbefore i _ Hi Hlt)|].
    assert (i ≠ n); [|lia]. intros ->. rewrite Hat in Hi. injection Hi as Hi. apply Hne. by apply kind_token_inj.
Qed.

(** ** The loop *)

Lemma text_positions_eq n idx : 0 <= n -> 0 <= idx -> idx + n <= 2 ^ 63 -> text_positions n idx = Ok (text_columns n idx).
Proof.
  intros Hn Hi Hm. unfold text_positions, text_columns. rewrite (proj2 (Z.ltb_ge n 0)) by lia. f_equal.
  rewrite <-!zseq_seqZ, <-!list_fmap_compose. apply list_fmap_ext. intros i x Hx. unfold compose.
  apply list_elem_of_lookup_2, elem_of_zseq in Hx. rewrite int64_id by lia. f_equal; [f_equal|]; lia.
Qed.

Lemma vision_positions_eq v base : item_ok v -> 0 <= base -> base + item_extent v <= 2 ^ 63 ->
  vision_positions undefined_long (item_t v) (item_h v) (item_w v) (item_second v) (tokens_per_second c) base =
    Ok (item_grid base v).
Proof.
  intros (_ & Ht & Hh & Hw) Hb Hm. unfold vision_positions, arange.
  rewrite !(proj2 (Z.ltb_ge _ 0)) by lia. cbn [mbind result_bind]. f_equal. unfold item_grid, grid_columns.
  pose proof (item_sides_extent v). rewrite list_bind_concat. f_equal. apply list_fmap_ext. intros i t Hi.
  apply list_elem_of_lookup_2, elem_of_seqZ in Hi. rewrite list_bind_concat. f_equal. apply list_fmap_ext. intros j h Hj.
  apply list_elem_of_lookup_2, elem_of_seqZ in Hj. rewrite list_bind_singletons. apply list_fmap_ext. intros k w Hk.
  apply list_elem_of_lookup_2, elem_of_seqZ in Hk. fold (item_frame v t).
  pose proof (item_frame_extent v t ltac:(lia)). pose proof (item_frame_range v t).
  rewrite !int64_id by lia. f_equal; [f_equal|]; lia.
Qed.

(** The two blocks of an item. *)
Definition item_blocks (idx : Z) (v : vision_item) : list (list mpos) :=
  [text_columns (text_len_of v) idx; item_grid (text_len_of v + idx) v].

Lemma next_index_item blocks idx v : item_ok v -> 0 <= idx -> idx + text_len_of v + item_extent v < 2 ^ 63 ->
  next_index (blocks ++ item_blocks idx v) = Ok (idx + text_len_of v + item_extent v).
Proof.
  intros Hv Hi Hm. unfold next_index, item_blocks. rewrite last_app_cons. cbn [last].
  rewrite (tensor_max_spec _ _ (grid_max v (text_len_of v + idx) Hv)). cbn [mbind result_bind]. f_equal.
  pose proof (item_extent_pos v Hv). unfold text_len_of in *. rewrite int64_id by lia. lia.
Qed.

Section prompt.
Context (items : list vision_item) (tail : list Z) (secs : option (list spec_float)).
Context (Hc : config_ok) (Hitems : Forall item_ok items) (Htail : Forall plain_token tail).
Context (Hsecs : seconds_agree secs items).

(** The state before the items [todo], the items [before] done. *)
Definition loop_state (before todo : list vision_item) (blocks : list (list mpos)) : MRopeState :=
  mkMRopeState (length (concat (item_tokens <$> before))) (len (of_kind true todo)) (len (of_kind false todo))
    (length (of_kind true before)) (length (of_kind false before)) blocks.

Lemma prompt_tokens_split before todo : items = before ++ todo ->
  prompt_tokens items tail = concat (item_tokens <$> before) ++ prompt_tokens todo tail.
Proof. intros E. unfold prompt_tokens. rewrite E. by rewrite fmap_app, concat_app, <-app_assoc. Qed.

Lemma kind_lookup {A} (f : vision_item -> A) before v todo : items = before ++ v :: todo ->
  (f <$> of_kind (vi_image v) items) !! length (of_kind (vi_image v) before) = Some (f v).
Proof.
  intros E. rewrite E, of_kind_app, of_kind_cons, decide_True by done.
  rewrite list_lookup_fmap, lookup_app_r, Nat.sub_diag by lia. done.
Qed.

Lemma second_lookup before v todo : items = before ++ v :: todo ->
  (if vi_image v then Ok float_zero
   else match secs with
        | None => Ok float_one
        | Some l => or_raise IndexError (l !! length (of_kind false before))
        end) = Ok (item_second v).
Proof.
  intros E. unfold item_second. destruct (vi_image v) eqn:Ev; [done|]. pose proof Hsecs as Hs. unfold seconds_agree in Hs.
  pose proof (kind_lookup vi_second before v todo E) as Hl. rewrite Ev in Hl. destruct secs as [l|].
  - rewrite <-Hs in Hl. by rewrite Hl.
  - rewrite Forall_forall in Hs. rewrite Hs; [done|]. rewrite E. apply elem_of_app. right; left.
Qed.

Lemma mrope_step_item before v todo blocks idx :
  items = before ++ v :: todo -> next_index blocks = Ok idx ->
  0 <= idx -> idx + text_len_of v + item_extent v < 2 ^ 63 ->
  mrope_step undefined_long c (prompt_tokens items tail) (vi_grid <$> of_kind true items) (vi_grid <$> of_kind false items) secs
    (loop_state before (v :: todo) blocks) =
    Ok (loop_state (before ++ [v]) todo (blocks ++ item_blocks idx v)).
Proof.
  intros E Hidx Hi0 Him. pose proof (prompt_tokens_split before (v :: todo) E) as Htoks.
  assert (Hall : Forall item_ok (v :: todo)) by (pose proof Hitems as Hi; rewrite E in Hi; by apply Forall_app in Hi as [_ ?]).
  assert (Hv : item_ok v) by by inversion_clear Hall.
  set (pre := concat (item_tokens <$> before)) in *.
  destruct (next_token_kind true pre v todo tail Hc Hall) as (e1 & E1 & H1).
  destruct (next_token_kind false pre v todo tail Hc Hall) as (e2 & E2 & H2).
  unfold mrope_step, loop_state. cbn [ms_st remain_images remain_videos image_index video_index llm_pos_ids_list].
  fold pre. rewrite Htoks.
  change (image_token_id c) with (kind_token true). change (video_token_id c) with (kind_token false).
  rewrite E1. cbn [mbind result_bind]. rewrite E2. cbn [mbind result_bind].
  assert (Himg : (e1 <? e2)%nat = vi_image v ∧ (if vi_image v then e1 else e2) = (length pre + (length (vi_text v) + 1))%nat).
  { destruct (vi_image v); [rewrite decide_True in H1 by done; rewrite decide_False in H2 by done
      |rewrite decide_False in H1 by done; rewrite decide_True in H2 by done].
    - by rewrite (proj2 (Nat.ltb_lt e1 e2)) by lia.
    - by rewrite (proj2 (Nat.ltb_ge e1 e2)) by lia. }
  destruct Himg as [-> ->].
  assert (Hgrid : (if vi_image v then (vi_grid <$> of_kind true items) !! length (of_kind true before)
     else (vi_grid <$> of_kind false items) !! length (of_kind false before)) = Some (vi_grid v)).
  { pose proof (kind_lookup vi_grid before v todo E) as Hk. by destruct (vi_image v). }
  rewrite Hgrid. cbn [or_raise mbind result_bind]. destruct (vi_grid v) as [[t h] w] eqn:Eg.
  rewrite (second_lookup before v todo E). cbn [mbind result_bind].
  assert (Hfd : ∀ x, py_floordiv x (spatial_merge_size c) = Ok (x / spatial_merge_size c)).
  { intros x. unfold py_floordiv. destruct Hc as (_ & _ & _ & Hm). by rewrite (proj2 (Z.eqb_neq _ 0)) by done. }
  rewrite !Hfd. cbn [mbind result_bind]. rewrite Hidx. cbn [mbind result_bind].
  assert (Et : t = item_t v) by (unfold item_t; by rewrite Eg).
  assert (Eh : h / spatial_merge_size c = item_h v) by (unfold item_h; by rewrite Eg).
  assert (Ew : w / spatial_merge_size c = item_w v) by (unfold item_w; by rewrite Eg).
  rewrite Et, Eh, Ew. fold (item_size v). pose proof (item_extent_pos v Hv) as Hext.
  replace (Z.of_nat (length pre + (length (vi_text v) + 1)) - len pre) with (text_len_of v) by (unfold text_len_of; lia).
  assert (Htl : 0 < text_len_of v) by (unfold text_len_of; lia).
  rewrite text_positions_eq by lia. cbn [mbind result_bind].
  rewrite vision_positions_eq by (done || lia). cbn [mbind result_bind]. f_equal.
  pose proof (item_size_pos v Hv) as Hsz.
  rewrite !of_kind_app, !of_kind_cons, !length_app. change (of_kind true []) with (@nil vision_item).
  change (of_kind false []) with (@nil vision_item). fold (item_blocks idx v).
  assert (Hst : Z.to_nat (Z.of_nat (length pre + (length (vi_text v) + 1)) + item_size v) =
     length (concat (item_tokens <$> before ++ [v]))).
  { rewrite fmap_app, concat_app. fold pre. cbn [fmap list_fmap concat]. rewrite app_nil_r. unfold item_tokens.
    rewrite !length_app, length_replicate. cbn [length]. lia. }
  rewrite Hst. destruct (vi_image v); [rewrite !(decide_True (P := true = true)), !(decide_False (P := true = false)) by done
    |rewrite !(decide_True (P := false = false)), !(decide_False (P := false = true)) by done];
    cbn [length]; f_equal; lia.
Qed.

Fixpoint all_blocks (idx : Z) (todo : list vision_item) : list (list mpos) * Z :=
  match todo with
  | [] => ([], idx)
  | v :: todo =>
      let '(bs, next) := all_blocks (idx + text_len_of v + item_extent v) todo in
      (item_blocks idx v ++ bs, next)
  end.

Lemma all_blocks_next idx todo : Forall item_ok todo -> idx <= (all_blocks idx todo).2.
Proof.
  intros Hok. revert idx. induction Hok as [|v todo Hv Hok IH]; intros idx; cbn [all_blocks snd]; [lia|].
  specialize (IH (idx + text_len_of v + item_extent v)). pose proof (item_extent_pos v Hv). unfold text_len_of in *.
  destruct (all_blocks _ todo). cbn [snd] in *. lia.
Qed.

Lemma mrope_loop_items todo before blocks idx :
  items = before ++ todo -> next_index blocks = Ok idx -> 0 <= idx -> (all_blocks idx todo).2 < 2 ^ 63 ->
  mrope_loop undefined_long c (prompt_tokens items tail) (vi_grid <$> of_kind true items) (vi_grid <$> of_kind false items) secs
    (length todo) (loop_state before todo blocks) =
    Ok (loop_state items [] (blocks ++ (all_blocks idx todo).1)) ∧
  next_index (blocks ++ (all_blocks idx todo).1) = Ok (all_blocks idx todo).2.
Proof.
  revert before blocks idx. induction todo as [|v todo IH]; intros before blocks idx E Hidx Hi0 Him.
  { cbn [length mrope_loop all_blocks fst snd]. rewrite !app_nil_r in *. by rewrite <-E. }
  assert (Hvt : item_ok v ∧ Forall item_ok todo)
    by (pose proof Hitems as Hi; rewrite E in Hi; apply Forall_app in Hi as [_ Hi]; by inversion_clear Hi).
  destruct Hvt as [Hv Htodo]. pose proof (item_extent_pos v Hv) as Hext.
  assert (Htl : 0 < text_len_of v) by (unfold text_len_of; lia).
  cbn [all_blocks] in Him. pose proof (all_blocks_next (idx + text_len_of v + item_extent v) todo Htodo) as Hnx.
  assert (Him' : (all_blocks (idx + text_len_of v + item_extent v) todo).2 < 2 ^ 63) by (by destruct (all_blocks _ todo)).
  cbn [length mrope_loop]. rewrite (mrope_step_item before v todo blocks idx E Hidx Hi0) by lia. cbn [mbind result_bind].
  destruct (IH (before ++ [v]) (blocks ++ item_blocks idx v) (idx + text_len_of v + item_extent v)) as [IH1 IH2].
  { by rewrite <-app_assoc. }
  { apply next_index_item; [done..|lia]. }
  { lia. }
  { done. }
  cbn [all_blocks]. destruct (all_blocks (idx + text_len_of v + item_extent v) todo) as [bs next]. cbn [fst snd] in *.
  by rewrite <-!app_assoc in *.
Qed.

Lemma prompt_positions_blocks idx todo :
  prompt_positions idx todo tail =
    (concat (all_blocks idx todo).1 ++ text_columns (len tail) (all_blocks idx todo).2,
     (all_blocks idx todo).2 + len tail).
Proof.
  revert idx. induction todo as [|v todo IH]; intros idx; [done|]. cbn [prompt_positions all_blocks]. rewrite IH.
  destruct (all_blocks (idx + text_len_of v + item_extent v) todo) as [bs next]. cbn [fst snd].
  rewrite concat_app. unfold item_blocks, item_columns. cbn [concat]. by rewrite app_nil_r, <-!app_assoc.
Qed.

Lemma get_input_positions_lemma : prompt_tokens items tail ≠ [] -> fits_int64 items tail ->
  get_input_positions_tensor undefined_long c (prompt_tokens items tail) (vi_grid <$> of_kind true items)
    (vi_grid <$> of_kind false items) secs =
    Ok ((prompt_positions 0 items tail).1,
        (prompt_positions 0 items tail).2 - len (prompt_tokens items tail)).
Proof.
  intros Hne [Hm Hlm]. unfold get_input_positions_tensor. rewrite vision_tokens_prompt by done. cbn [mbind result_bind].
  pose proof (count_kind true items Hc) as H1. pose proof (count_kind false items Hc) as H2. unfold kind_token in H1, H2.
  rewrite H1, H2, count_kinds. pose proof (all_blocks_next 0 items Hitems) as Hn0.
  assert (Hm' : (all_blocks 0 items).2 + len tail < 2 ^ 63) by (by rewrite prompt_positions_blocks in Hm).
  destruct (mrope_loop_items items [] [] 0 eq_refl eq_refl) as [Hloop Hnext]; [lia..|].
  unfold loop_state in Hloop at 1. cbn in Hloop. rewrite Hloop. cbn [mbind result_bind].
  cbn [app] in Hnext. cbn [loop_state ms_st llm_pos_ids_list].
  pose proof (prompt_positions_blocks 0 items) as Hpp. set (bs := (all_blocks 0 items).1) in *.
  set (next := (all_blocks 0 items).2) in *.
  assert (Hlen : length (prompt_tokens items tail) = (length (concat (item_tokens <$> items)) + length tail)%nat)
    by (unfold prompt_tokens; by rewrite length_app).
  assert (Hpos : 0 < len (prompt_tokens items tail)) by (destruct (prompt_tokens items tail); [done|cbn [length]; lia]).
  pose proof (tensor_max_spec _ _ (proj1 (prompt_positions_max 0 items tail Hitems Hpos))) as Hmax.
  rewrite Hpp in Hmax |- *. cbn [fst snd] in Hmax |- *.
  destruct (Nat.ltb_spec (length (concat (item_tokens <$> items))) (length (prompt_tokens items tail))) as [Hlt|Hge].
  - rewrite Hnext. cbn [mbind result_bind].
    replace (len (prompt_tokens items tail) - Z.of_nat (length (concat (item_tokens <$> items)))) with (len tail) by lia.
    rewrite text_positions_eq by lia. cbn [mbind result_bind]. rewrite concat_app. cbn [concat]. rewrite app_nil_r, Hmax.
    cbn [mbind result_bind]. do 2 f_equal. rewrite int64_id by lia. lia.
  - assert (tail = []) as Et by (apply nil_length_inv; lia). rewrite Et in Hmax, Hlm, Hpos, Hm' |- *.
    change (text_columns (len []) next) with (@nil mpos) in *. rewrite app_nil_r in *. cbn [mbind result_bind].
    rewrite Hmax. cbn [mbind result_bind]. do 2 f_equal. change (len []) with 0 in *. rewrite int64_id by lia. lia.
Qed.

End prompt.

(** C35: the rotary positions of a prompt.  For a prompt made of text and vision items
    (images, or videos with their seconds per grid; the grids are not empty, the three
    special token ids differ and do not occur in the text), whose length and indices are
    int64 values, [get_input_positions_tensor] finds every item and returns the reference's
    positions: text is numbered consecutively in all three dimensions, the tokens of an
    item by frame, row and column from the next free index on, one column per token of the
    prompt.  The index of a frame is the float32 product of its number, the seconds per
    grid and the tokens per second, truncated; what the conversion gives for a product that
    is no int64 is arbitrary ([undefined_long]).  The delta is such that the first generated token continues
    one after the largest index used in any dimension. *)
Theorem input_positions_correct items tail secs :
  config_ok -> Forall item_ok items -> Forall plain_token tail -> seconds_agree secs items ->
  prompt_tokens items tail ≠ [] -> fits_int64 items tail ->
  ∃ delta, get_input_positions_tensor undefined_long c (prompt_tokens items tail) (vi_grid <$> of_kind true items)
      (vi_grid <$> of_kind false items) secs = Ok ((prompt_positions 0 items tail).1, delta) ∧
    length (prompt_positions 0 items tail).1 = length (prompt_tokens items tail) ∧
    ∃ m, is_max (prompt_positions 0 items tail).1 m ∧
      get_next_input_positions_tensor delta (len (prompt_tokens items tail)) (len (prompt_tokens items tail) + 1) =
        [(m + 1, m + 1, m + 1)].
Proof.
  intros Hc Hok Htail Hs Hne Hfit. eexists. split; [by apply get_input_positions_lemma|].
  split; [by apply length_prompt_positions|]. exists ((prompt_positions 0 items tail).2 - 1). split.
  - apply prompt_positions_max; [done..|]. destruct (prompt_tokens items tail); [done|cbn [length]; lia].
  - unfold get_next_input_positions_tensor. rewrite Z.add_simpl_l, Z.sub_add, Z.sub_add.
    rewrite seqZ_cons by lia. done.
Qed.
End items.

(** At 3 frames per second a grid of two frames spans 2/3 of a second.  With 2 tokens per
    second frame 3 starts after 2 seconds and has index 4.  The double 2/3 is below 2/3, and
    the exact product is below 4; in float32 it rounds to 4. *)
Definition two_thirds : spec_float := S754_finite false 6004799503160661 (-53).
Definition float_two : spec_float := S754_finite false (2 ^ 52) (-51).

Lemma frame_index_3fps undef : frame_index undef two_thirds float_two <$> seqZ 0 7 = [0; 1; 2; 4; 5; 6; 8].
Proof. reflexivity. Qed.

(** One second per grid and two tokens per second: the even numbers. *)
Lemma frame_index_1s undef : frame_index undef float_one float_two <$> seqZ 0 1000 = Z.mul 2 <$> seqZ 0 1000.
Proof. vm_compute. reflexivity. Qed.

(** Text, a video of two frames of one by two, text: 7 text tokens, 4 vision tokens. *)
Definition demo_mrope_config : MRopeConfig := mkMRopeConfig 50 51 52 2 float_two.
Definition demo_half : spec_float := S754_finite false (2 ^ 52) (-53).
Definition demo_items : list vision_item := [mkItem [1; 2] false (2, 2, 4) demo_half].

Lemma input_positions_correct_witness :
  get_input_positions_tensor (fun _ => - 2 ^ 63) demo_mrope_config (prompt_tokens demo_mrope_config demo_items [7; 8]) []
    [(2, 2, 4)] (Some [demo_half]) =
    Ok ([(0, 0, 0); (1, 1, 1); (2, 2, 2); (3, 3, 3); (3, 3, 4); (4, 3, 3); (4, 3, 4); (5, 5, 5); (6, 6, 6)], -2).
Proof.
  destruct (input_positions_correct (fun _ => - 2 ^ 63) demo_mrope_config demo_items [7; 8] (Some [demo_half]))
    as (delta & E & _ & m & _ & Hn).
  - split_and!; vm_compute; congruence.
  - repeat (constructor; [split_and!; [repeat (constructor; [split_and!; vm_compute; congruence|]); constructor|
      vm_compute; congruence..]|]). constructor.
  - repeat (constructor; [split_and!; vm_compute; congruence|]). constructor.
  - vm_compute. reflexivity.
  - vm_compute. congruence.
  - split; vm_compute; congruence.
  - vm_compute in E. vm_compute. by rewrite E.
Defined.
