(* ===== verification/EncoderWorker.v ===== *)
(** * The encoder worker

    [_execute_encoder] and [execute_vision_encoder] of the worker in the encoder
    process: the inputs of all requests are encoded in one batch, and of several
    inputs of one request only the last output is returned. *)

From stdpp Require Import base tactics list gmap sets strings.
From Stdlib Require Import ZArith QArith Lia.
From S2P Require Import Prelude.
From S2P Require Import SamplingParams.
From S2P Require Import Request.
From S2P Require Import Scheduler.
From S2P Require Import EncoderScheduler.
From S2P Require Import InputBatch.
From S2P Require Import ModelRunner.

Local Open Scope Z_scope.

(** The dictionary entries an encoder step asks for, in order. *)
Definition wanted (l : list (string * list nat)) : list (string * nat) :=
  concat ((fun e : string * list nat => (e.1,.) <$> e.2) <$> l).

Definition overwrite (c : gmap string (gmap nat nat)) (e : string * nat * nat) :
    gmap string (gmap nat nat) := <[e.1.1 := {[e.1.2 := e.2]}]> c.

Lemma encoder_batch_one_spec rid inputs ids :
  Forall (fun i => i < length inputs)%nat ids ->
  ∃ batch, encoder_batch_one rid inputs ids = Ok batch ∧ batch.*1 = (rid,.) <$> ids.
Proof.
  induction 1 as [|i ids Hi _ (batch & E & Hb)]; [by exists []|]. cbn [encoder_batch_one].
  destruct (lookup_lt_is_Some_2 inputs i Hi) as [x ->]. cbn [or_raise mbind result_bind]. rewrite E.
  cbn [mbind result_bind]. eexists. split; [done|]. by rewrite !fmap_cons, Hb.
Qed.

(** The requested inputs exist. *)
Definition inputs_exist (reqs : gmap string CachedRequestState) (e : string * list nat) : Prop :=
  ∃ st, reqs !! e.1 = Some st ∧ Forall (fun i => i < length (st_mm_inputs st))%nat e.2.

Lemma encoder_batch_spec reqs l :
  Forall (inputs_exist reqs) l ->
  ∃ batch, encoder_batch reqs l = Ok batch ∧ batch.*1 = wanted l.
Proof.
  induction 1 as [|[rid ids] l (st & Hst & Hi) _ (batch & E & Hb)]; [by exists []|]. cbn [encoder_batch fst snd] in *.
  rewrite Hst. cbn [or_raise mbind result_bind].
  destruct (encoder_batch_one_spec rid (st_mm_inputs st) ids Hi) as (here & -> & Hh).
  cbn [mbind result_bind]. rewrite E. cbn [mbind result_bind]. eexists. split; [done|].
  rewrite fmap_app, Hh, Hb. done.
Qed.

Lemma concat_group_by {A} (key : A -> string) l : concat (group_by key l) = l.
Proof.
  induction l as [|x l IH]; [done|]. cbn [group_by]. destruct (group_by key l) as [|[|y g] gs].
  - by rewrite <- IH.
  - cbn in *. by rewrite IH.
  - destruct (bool_decide (key x = key y)); cbn in *; by rewrite IH.
Qed.

(** With nothing in [self.encoder_cache] every store starts a fresh inner dict. *)
Lemma cache_outputs_empty l c : cache_outputs ∅ l c = Ok (foldl overwrite c l).
Proof.
  revert c. induction l as [|[[rid i] out] l IH]; intros c; [done|]. cbn [cache_outputs foldl].
  rewrite lookup_empty, lookup_insert_eq. cbn [or_raise mbind result_bind].
  rewrite IH, insert_insert_eq. done.
Qed.

Lemma foldl_overwrite_last l2 c (rid : string) :
  (rid ∉ l2.*1.*1) -> foldl overwrite c l2 !! rid = c !! rid.
Proof.
  revert c. induction l2 as [|[[r i] out] l IH]; intros c; [done|]. rewrite !fmap_cons, not_elem_of_cons.
  intros [Hne Hl]. cbn [foldl]. rewrite (IH _ Hl). unfold overwrite. cbn in *. by rewrite lookup_insert_ne.
Qed.

Section keeps_last.
Context (modality : option MMKwargs -> string) (embed : list (option MMKwargs) -> list nat).
(** The encoder returns one output per input. *)
Context (Hembed : ∀ xs, length (embed xs) = length xs).

Lemma embeddings_length xs : length (concat (embed <$> group_by modality xs)) = length xs.
Proof.
  rewrite <- (concat_group_by modality xs) at 2.
  induction (group_by modality xs) as [|g gs IH]; [done|]. rewrite fmap_cons. cbn [concat].
  by rewrite !length_app, Hembed, IH.
Qed.

Lemma wanted_last (m : gmap string (list nat)) rid ids i :
  m !! rid = Some (ids ++ [i]) ->
  ∃ k1 k2, wanted (map_to_list m) = k1 ++ (rid, i) :: k2 ∧ (rid ∉ k2.*1).
Proof.
  intros H%elem_of_map_to_list. pose proof (NoDup_fst_map_to_list m) as Hnd.
  apply list_elem_of_split in H as (m1 & m2 & Em). rewrite Em in Hnd |- *.
  rewrite fmap_app, fmap_cons in Hnd. apply NoDup_app in Hnd as (_ & _ & [Hn _]%NoDup_cons).
  exists (wanted m1 ++ ((rid,.) <$> ids)), (wanted m2). split.
  - unfold wanted. rewrite fmap_app, concat_app, fmap_cons. cbn [concat fst snd].
    rewrite fmap_app, <- !(assoc app). done.
  - intros ((r & j) & -> & Hin)%list_elem_of_fmap. apply Hn.
    apply list_elem_of_In, in_concat in Hin as (ks & Hks & Hj).
    apply list_elem_of_In, list_elem_of_fmap in Hks as (e & -> & He).
    apply list_elem_of_In, list_elem_of_fmap in Hj as (j' & [= -> ->] & _).
    cbn [fst]. by apply list_elem_of_fmap_2.
Qed.

(** The encoder worker keeps one output per request.  [_execute_encoder] tests
    [self.encoder_cache], which the encoder process never fills, before it
    creates the inner dict of the result it returns; so the dict is created
    afresh for every input, and of all inputs encoded for a request only the
    last one's output is in the result. *)
Theorem encoder_keeps_last_input mr so :
  mr_encoder_cache mr = ∅ -> eso_encoder_inputs so ≠ ∅ ->
  (∀ rid ids, eso_encoder_inputs so !! rid = Some ids -> inputs_exist (mr_requests mr) (rid, ids)) ->
  ∃ c, _execute_encoder modality embed mr so = Ok (Some c) ∧
    ∀ rid ids i, eso_encoder_inputs so !! rid = Some (ids ++ [i]) ->
      ∃ out, c !! rid = Some {[i := out]}.
Proof.
  intros Hown Hne Hex. unfold _execute_encoder. rewrite bool_decide_eq_false_2 by done.
  destruct (encoder_batch_spec (mr_requests mr) (map_to_list (eso_encoder_inputs so))) as (batch & -> & Hb).
  { apply Forall_forall. intros [rid ids] Hin%elem_of_map_to_list. by apply Hex. }
  cbn [mbind result_bind]. rewrite Hown, cache_outputs_empty. cbn [mbind result_bind].
  set (outs := concat _). eexists. split; [done|]. intros rid ids i Hids.
  destruct (wanted_last _ _ _ _ Hids) as (k1 & k2 & Hw & Hk2). set (l := zip_with _ _ _).
  assert (Hl : l.*1 = k1 ++ (rid, i) :: k2).
  { rewrite <- Hw, <- Hb. unfold l.
    rewrite <- (zip_with_fmap_l pair fst). apply fst_zip.
    unfold outs. by rewrite embeddings_length, !length_fmap. }
  apply fmap_app_inv in Hl as (l1 & [|[k out] l2] & _ & Hl2 & El); [done|].
  rewrite fmap_cons in Hl2. injection Hl2 as Hk1 Hk. cbn in Hk1. subst k. exists out.
  rewrite El, foldl_app. cbn [foldl]. rewrite foldl_overwrite_last by (by rewrite <- Hk).
  apply lookup_insert_eq.
Qed.
End keeps_last.

(** An encoder step that asks for two images of one request. *)
Definition twice_mr : ModelRunner :=
  mkRunner 2 4 8 8 true
    {["r"%string := mkReqState "r" [1; 2] None [None; None] [] (plain_sampling None) None [] 0 []]} ∅
    (ib_init 1 8 4 100 (0, sampling_row (plain_sampling None))).
Definition twice_so : EncSchedulerOutput :=
  mkEncSchedulerOutput [] None None 0 {["r"%string := [0; 1]%nat]} 0 None None.

Lemma encoder_keeps_last_input_witness :
  ∃ c out, _execute_encoder (fun _ => "image"%string) (seq 5 ∘ length) twice_mr twice_so = Ok (Some c) ∧
    c !! "r"%string = Some {[1%nat := out]}.
Proof.
  destruct (encoder_keeps_last_input (fun _ => "image"%string) (seq 5 ∘ length)
    ltac:(intros xs; apply length_seq) twice_mr twice_so eq_refl) as (c & E & Hc).
  - vm_compute. congruence.
  - intros rid ids Hr. cbn [twice_so eso_encoder_inputs] in Hr. apply lookup_singleton_Some in Hr as [<- <-]. eexists. split; [reflexivity|].
    repeat (constructor; [cbn; lia|]). constructor.
  - destruct (Hc "r"%string [0%nat] 1%nat eq_refl) as [out Hout]. by exists c, out.
Defined.
