(* ===== verification/V0Sequence.v ===== *)
(** * Sequences and sequence groups of the previous engine (sequence.py)

    The fields and methods that the v0 block manager, scheduler and engine use.  The
    prompt and the output tokens of a sequence are kept as one list
    ([_cached_all_token_ids]) with the length of the prompt; texts, log-probabilities and metrics are left out, and
    times are exact rationals. *)

From stdpp Require Import base tactics list gmap sets strings.
From Stdlib Require Import ZArith QArith Lia.
From S2P Require Import Prelude.
From S2P Require Import SamplingParams.

Local Open Scope Z_scope.

Inductive SequenceStatus : Type :=
  | WAITING | RUNNING | SWAPPED
  | FINISHED_STOPPED | FINISHED_LENGTH_CAPPED | FINISHED_ABORTED | FINISHED_IGNORED.

#[export] Instance SequenceStatus_eq_dec : EqDecision SequenceStatus.
Proof. solve_decision. Defined.

(** [status > SequenceStatus.SWAPPED] on the values of the enumeration. *)
Definition sq_status_is_finished (st : SequenceStatus) : bool :=
  match st with WAITING | RUNNING | SWAPPED => false | _ => true end.

Inductive SequenceStage : Type := PREFILL | DECODE.

#[export] Instance SequenceStage_eq_dec : EqDecision SequenceStage.
Proof. solve_decision. Defined.

(** [Sequence] with its [SequenceData]. *)
Record Sequence : Type := mkSequence {
  seq_id : Z;
  seq_token_ids : list Z;
  seq_prompt_len : Z;
  seq_eos_token_id : option Z;
  seq_num_computed_tokens : Z;
  seq_stage : SequenceStage;
  seq_status : SequenceStatus;
}.

Definition seq_get_len (s : Sequence) : Z := len (seq_token_ids s).
Definition get_output_len (s : Sequence) : Z := seq_get_len s - seq_prompt_len s.
(** [get_last_token_id]: the last output token, or else the last prompt token. *)
Definition get_last_token_id (s : Sequence) : result Z := or_raise IndexError (last (seq_token_ids s)).
Definition seq_is_prefill (s : Sequence) : bool := bool_decide (seq_stage s = PREFILL).
Definition seq_is_finished (s : Sequence) : bool := sq_status_is_finished (seq_status s).
Definition get_num_uncomputed_tokens (s : Sequence) : Z := seq_get_len s - seq_num_computed_tokens s.

Definition set_status (st : SequenceStatus) (s : Sequence) : Sequence :=
  mkSequence (seq_id s) (seq_token_ids s) (seq_prompt_len s) (seq_eos_token_id s) (seq_num_computed_tokens s) (seq_stage s) st.

Definition update_num_computed_tokens (n : Z) (s : Sequence) : result Sequence :=
  let s := mkSequence (seq_id s) (seq_token_ids s) (seq_prompt_len s) (seq_eos_token_id s) (seq_num_computed_tokens s + n) (seq_stage s) (seq_status s) in
  _ ← py_assert (seq_num_computed_tokens s <=? seq_get_len s);
  Ok (if get_num_uncomputed_tokens s =? 0
      then mkSequence (seq_id s) (seq_token_ids s) (seq_prompt_len s) (seq_eos_token_id s) (seq_num_computed_tokens s) DECODE (seq_status s) else s).

Definition reset_state_for_recompute (s : Sequence) : Sequence :=
  mkSequence (seq_id s) (seq_token_ids s) (seq_prompt_len s) (seq_eos_token_id s) 0 PREFILL (seq_status s).

Definition append_token_id (token_id : Z) (s : Sequence) : Sequence :=
  mkSequence (seq_id s) (seq_token_ids s ++ [token_id]) (seq_prompt_len s) (seq_eos_token_id s)
    (seq_num_computed_tokens s) (seq_stage s) (seq_status s).

(** ** Groups *)

Record LoRARequest : Type := mkLoRARequest {
  lora_request_int_id : Z;
  long_lora_max_len : option Z;
}.

Record SequenceGroup : Type := mkSequenceGroup {
  sg_request_id : string;
  sg_seqs : list Sequence;
  sg_encoder_seq : option Sequence;
  sg_arrival_time : Q;
  sg_lora_request : option LoRARequest;
  sg_priority : Z;
  sg_sampling_params : option SamplingParams;
  sg_num_steps : Z;          (* SequenceGroupState *)
  sg_current_step : Z;
}.

Definition sg_with_seqs (g : SequenceGroup) (l : list Sequence) : SequenceGroup :=
  mkSequenceGroup (sg_request_id g) l (sg_encoder_seq g) (sg_arrival_time g) (sg_lora_request g) (sg_priority g) (sg_sampling_params g)
    (sg_num_steps g) (sg_current_step g).

(** Assigning [f] to the sequences that a loop over [get_seqs(status)] visits. *)
Definition update_seqs (p : Sequence -> bool) (f : Sequence -> Sequence) (g : SequenceGroup) : SequenceGroup :=
  sg_with_seqs g ((fun s => if p s then f s else s) <$> sg_seqs g).

Definition has_status (st : SequenceStatus) (s : Sequence) : bool := bool_decide (seq_status s = st).

Definition get_seqs (g : SequenceGroup) (status : SequenceStatus) : list Sequence :=
  match sg_seqs g with
  | [s] => if decide (seq_status s = status) then sg_seqs g else []
  | _ => filter (fun s => seq_status s = status) (sg_seqs g)
  end.

Definition first_seq (g : SequenceGroup) : result Sequence := or_raise IndexError (head (sg_seqs g)).
Definition sg_is_prefill (g : SequenceGroup) : result bool := s ← first_seq g; Ok (seq_is_prefill s).

Definition num_finished_seqs (g : SequenceGroup) : Z := len (filter (fun s => seq_is_finished s = true) (sg_seqs g)).

Definition get_max_num_running_seqs (g : SequenceGroup) : Z :=
  match sg_seqs g with
  | [s] => if seq_is_finished s then 0 else 1
  | l => len l - num_finished_seqs g
  end.

Definition sg_is_finished (g : SequenceGroup) : bool := forallb seq_is_finished (sg_seqs g).
Definition is_encoder_decoder (g : SequenceGroup) : bool := bool_decide (sg_encoder_seq g ≠ None).
Definition lora_int_id (g : SequenceGroup) : Z := from_option lora_request_int_id 0 (sg_lora_request g).

(** [SequenceGroup.update_num_computed_tokens] *)
Fixpoint update_all_computed (n : Z) (l : list Sequence) : result (list Sequence) :=
  match l with
  | [] => Ok []
  | s :: l =>
      s' ← (if seq_is_finished s then Ok s else update_num_computed_tokens n s);
      l' ← update_all_computed n l;
      Ok (s' :: l')
  end.
Definition sg_update_num_computed_tokens (n : Z) (g : SequenceGroup) : result SequenceGroup :=
  l ← update_all_computed n (sg_seqs g); Ok (sg_with_seqs g l).

Definition init_multi_step (num_steps : Z) (g : SequenceGroup) : SequenceGroup :=
  mkSequenceGroup (sg_request_id g) (sg_seqs g) (sg_encoder_seq g) (sg_arrival_time g) (sg_lora_request g) (sg_priority g) (sg_sampling_params g)
    num_steps 0.

Definition init_multi_step_from_lookahead_slots (num_lookahead_slots num_scheduler_steps : Z) (is_multi_step enable_chunking : bool)
    (g : SequenceGroup) : result SequenceGroup :=
  if negb is_multi_step then Ok (init_multi_step num_scheduler_steps g)
  else
    is_prefill ← sg_is_prefill g;
    if is_prefill && enable_chunking then
      _ ← py_assert (num_lookahead_slots =? num_scheduler_steps);
      Ok (init_multi_step num_lookahead_slots g)
    else
      _ ← py_assert ((num_lookahead_slots =? 0) || negb is_prefill);
      _ ← py_assert ((num_lookahead_slots + 1 =? num_scheduler_steps) || is_prefill);
      Ok (init_multi_step (num_lookahead_slots + 1) g).
