(* ===== verification/NaiveBlocks.v ===== *)
(** * Block allocators of the previous engine (core/block/)

    The objects below the v0 block manager, without prefix caching: reference counts,
    copy-on-write records, the pool of block objects, [NaiveBlock] with its allocator,
    and the [CpuGpuBlockAllocator] that holds one allocator per device.

    Block objects are mutable and shared: block tables, [prev_block] links and the pool
    refer to the same object, and an object keeps its pool slot when its physical
    block moves to the other device.  So objects live in the pools, and a reference is
    [Blk d i], slot [i] of the pool of device [d], or the one [NullBlk]. *)

From stdpp Require Import base tactics list gmap sets sorting.
From Stdlib Require Import ZArith Lia.
From S2P Require Import Prelude.

Local Open Scope Z_scope.

Inductive Device : Type := CPU | GPU.

#[export] Instance Device_eq_dec : EqDecision Device.
Proof. solve_decision. Defined.

(** A Python reference to a block object. *)
Inductive bref : Type :=
  | Blk (owner : Device) (pool_id : nat)
  | NullBlk.

#[export] Instance bref_eq_dec : EqDecision bref.
Proof. solve_decision. Defined.

(** ** Data *)

(** [_cow_target] is the block itself for every block a pool creates. *)
Record NaiveBlock : Type := mkNaiveBlock {
  nb_token_ids : list Z;
  nb_block_size : Z;
  nb_prev_block : option bref;
  nb_block_id : option nat;
}.

Record BlockPool : Type := mkBlockPool {
  bp_block_size : Z;
  bp_pool_size : nat;
  bp_free_ids : list nat;
  bp_pool : list NaiveBlock;
}.

Record NaiveBlockAllocator : Type := mkNaiveBlockAllocator {
  na_free_block_indices : list nat;
  na_all_block_indices : gset nat;
  na_refcounts : gmap nat Z;
  na_block_size : Z;
  na_copy_on_writes : list (nat * nat);
  na_block_pool : BlockPool;
}.

(** A dict whose order is observable: an association list without repeated keys. *)
Fixpoint dict_set {V} (k : nat) (v : V) (d : list (nat * V)) : list (nat * V) :=
  match d with
  | [] => [(k, v)]
  | (k', v') :: d => if decide (k' = k) then (k', v) :: d else (k', v') :: dict_set k v d
  end.

Record CpuGpuBlockAllocator : Type := mkCpuGpu {
  cg_cpu : NaiveBlockAllocator;
  cg_gpu : NaiveBlockAllocator;
  cg_swap_mapping : list (nat * nat);
  (* the block that [NullBlk] wraps, a slot of the GPU pool *)
  cg_null_block : option nat;
  cg_block_ids_to_allocator : gmap nat Device;
}.

(** ** Reference counts *)

Definition incr (rc : gmap nat Z) (b : nat) : result (Z * gmap nat Z) :=
  n ← or_raise AssertionError (rc !! b);
  _ ← py_assert (0 <=? n);
  Ok (n + 1, <[b := n + 1]> rc).

Definition decr (rc : gmap nat Z) (b : nat) : result (Z * gmap nat Z) :=
  n ← or_raise AssertionError (rc !! b);
  _ ← py_assert (0 <? n);
  Ok (n - 1, <[b := n - 1]> rc).

Definition get_refcount (rc : gmap nat Z) (b : nat) : result Z := or_raise AssertionError (rc !! b).

(** ** Field updates *)

Definition nb_with_tokens (b : NaiveBlock) (ts : list Z) : NaiveBlock :=
  mkNaiveBlock ts (nb_block_size b) (nb_prev_block b) (nb_block_id b).
Definition nb_with_id (b : NaiveBlock) (id : option nat) : NaiveBlock :=
  mkNaiveBlock (nb_token_ids b) (nb_block_size b) (nb_prev_block b) id.
Definition na_with (a : NaiveBlockAllocator) (free : list nat) (rc : gmap nat Z) : NaiveBlockAllocator :=
  mkNaiveBlockAllocator free (na_all_block_indices a) rc (na_block_size a) (na_copy_on_writes a) (na_block_pool a).
Definition na_with_cows (a : NaiveBlockAllocator) (l : list (nat * nat)) : NaiveBlockAllocator :=
  mkNaiveBlockAllocator (na_free_block_indices a) (na_all_block_indices a) (na_refcounts a) (na_block_size a) l (na_block_pool a).
Definition na_with_pool (a : NaiveBlockAllocator) (p : BlockPool) : NaiveBlockAllocator :=
  mkNaiveBlockAllocator (na_free_block_indices a) (na_all_block_indices a) (na_refcounts a) (na_block_size a)
    (na_copy_on_writes a) p.
Definition bp_with_pool (p : BlockPool) (l : list NaiveBlock) : BlockPool :=
  mkBlockPool (bp_block_size p) (bp_pool_size p) (bp_free_ids p) l.
Definition bp_with_free (p : BlockPool) (l : list nat) : BlockPool :=
  mkBlockPool (bp_block_size p) (bp_pool_size p) l (bp_pool p).

Definition alloc_of (c : CpuGpuBlockAllocator) (d : Device) : NaiveBlockAllocator :=
  match d with CPU => cg_cpu c | GPU => cg_gpu c end.
Definition with_alloc (c : CpuGpuBlockAllocator) (d : Device) (a : NaiveBlockAllocator) : CpuGpuBlockAllocator :=
  match d with
  | CPU => mkCpuGpu a (cg_gpu c) (cg_swap_mapping c) (cg_null_block c) (cg_block_ids_to_allocator c)
  | GPU => mkCpuGpu (cg_cpu c) a (cg_swap_mapping c) (cg_null_block c) (cg_block_ids_to_allocator c)
  end.

(** ** Block objects *)

Definition num_empty_slots (b : NaiveBlock) : Z := nb_block_size b - len (nb_token_ids b).
Definition is_full (b : NaiveBlock) : bool := num_empty_slots b =? 0.

Definition _append_token_ids_no_cow (b : NaiveBlock) (token_ids : list Z) : result NaiveBlock :=
  match token_ids with
  | [] => Ok b
  | _ => _ ← py_assert (len token_ids <=? num_empty_slots b);
         Ok (nb_with_tokens b (nb_token_ids b ++ token_ids))
  end.

Definition nb_init (prev_block : option bref) (token_ids : list Z) (block_size : Z) (block_id : option nat) :
    result NaiveBlock :=
  _append_token_ids_no_cow (mkNaiveBlock [] block_size prev_block block_id) token_ids.

(** Reading an object; the null block answers with its proxy. *)
Definition get_block (c : CpuGpuBlockAllocator) (r : bref) : result NaiveBlock :=
  match r with
  | Blk d i => or_raise IndexError (bp_pool (na_block_pool (alloc_of c d)) !! i)
  | NullBlk => i ← or_raise AttributeError (cg_null_block c);
               or_raise IndexError (bp_pool (na_block_pool (cg_gpu c)) !! i)
  end.

(** Storing a changed object; the setters of the null block raise. *)
Definition set_block (c : CpuGpuBlockAllocator) (r : bref) (b : NaiveBlock) : result CpuGpuBlockAllocator :=
  match r with
  | Blk d i =>
      let a := alloc_of c d in
      let p := na_block_pool a in
      Ok (with_alloc c d (na_with_pool a (bp_with_pool p (<[i := b]> (bp_pool p)))))
  | NullBlk => Err ValueError
  end.

Definition set_block_id (c : CpuGpuBlockAllocator) (r : bref) (id : option nat) : result CpuGpuBlockAllocator :=
  b ← get_block c r; set_block c r (nb_with_id b id).

(** ** The pool of block objects *)

Definition empty_block (block_size : Z) : NaiveBlock := mkNaiveBlock [] block_size None None.

Definition pool_init (block_size : Z) (pool_size : nat) : BlockPool :=
  mkBlockPool block_size pool_size (seq 0 pool_size) (replicate pool_size (empty_block block_size)).

Definition increase_pool (p : BlockPool) : BlockPool :=
  let cur := bp_pool_size p in
  mkBlockPool (bp_block_size p) (cur * 2) (bp_free_ids p ++ seq cur cur)
    (bp_pool p ++ replicate cur (empty_block (bp_block_size p))).

Definition init_block (p : BlockPool) (prev_block : option bref) (token_ids : list Z) (block_size : Z)
    (physical_block_id : option nat) : result (nat * BlockPool) :=
  let p := match bp_free_ids p with [] => increase_pool p | _ => p end in
  match bp_free_ids p with
  | [] => Err AssertionError
  | pool_id :: free =>
      _ ← or_raise IndexError (bp_pool p !! pool_id);
      b ← nb_init prev_block token_ids block_size physical_block_id;
      Ok (pool_id, mkBlockPool (bp_block_size p) (bp_pool_size p) free (<[pool_id := b]> (bp_pool p)))
  end.

(** [free_block]: the slot number is the one the object got from the pool that made it. *)
Definition free_block (p : BlockPool) (r : bref) : result BlockPool :=
  match r with
  | Blk _ pool_id => Ok (bp_with_free p (pool_id :: bp_free_ids p))
  | NullBlk => Err AttributeError
  end.

(** ** NaiveBlockAllocator *)

Definition na_init (num_blocks : nat) (block_size : Z) (block_ids : list nat) : result NaiveBlockAllocator :=
  _ ← py_assert (bool_decide (size (list_to_set block_ids : gset nat) = num_blocks));
  Ok (mkNaiveBlockAllocator block_ids (list_to_set block_ids)
        (gset_to_gmap 0 (list_to_set block_ids)) block_size [] (pool_init block_size (num_blocks * 4))).

Definition _allocate_block_id (a : NaiveBlockAllocator) : result (nat * NaiveBlockAllocator) :=
  match na_free_block_indices a with
  | [] => Err ValueError (* NoFreeBlocksError *)
  | b :: free =>
      x ← incr (na_refcounts a) b;
      Ok (b, na_with a free x.2)
  end.

(** [_free_block_id] of an id. *)
Definition free_block_id (a : NaiveBlockAllocator) (b : nat) : result NaiveBlockAllocator :=
  x ← decr (na_refcounts a) b;
  Ok (na_with a (if x.1 =? 0 then b :: na_free_block_indices a else na_free_block_indices a) x.2).

(** [_free_block_id] of a block object. *)
Definition _free_block_id (c : CpuGpuBlockAllocator) (d : Device) (r : bref) : result CpuGpuBlockAllocator :=
  b ← get_block c r;
  c ← set_block c r (nb_with_id b None);
  id ← or_raise AssertionError (nb_block_id b);
  a ← free_block_id (alloc_of c d) id;
  Ok (with_alloc c d a).

Definition is_appendable (a : NaiveBlockAllocator) (block_id : option nat) : result bool :=
  match block_id with
  | None => Ok true
  | Some b => n ← get_refcount (na_refcounts a) b; Ok (n <=? 1)
  end.

Definition record_cow (a : NaiveBlockAllocator) (src trg : nat) : NaiveBlockAllocator :=
  na_with_cows a (na_copy_on_writes a ++ [(src, trg)]).

Definition cow_block_if_not_appendable (c : CpuGpuBlockAllocator) (d : Device) (r : bref) :
    result (nat * CpuGpuBlockAllocator) :=
  b ← get_block c r;
  src ← or_raise AssertionError (nb_block_id b);
  ok ← is_appendable (alloc_of c d) (nb_block_id b);
  if (ok : bool) then Ok (src, c)
  else
    c ← _free_block_id c d r;
    x ← _allocate_block_id (alloc_of c d);
    Ok (x.1, with_alloc c d (record_cow x.2 src x.1)).

(** [NaiveBlock.append_token_ids]: the block's own allocator, that of its pool, is
    asked for the copy. *)
Definition append_token_ids (c : CpuGpuBlockAllocator) (r : bref) (token_ids : list Z) : result CpuGpuBlockAllocator :=
  match r with
  | NullBlk => Err ValueError
  | Blk d _ =>
      b ← get_block c r;
      b ← _append_token_ids_no_cow b token_ids;
      c ← set_block c r b;
      match nb_block_id b with
      | None => Ok c
      | Some _ => x ← cow_block_if_not_appendable c d r; set_block_id x.2 r (Some x.1)
      end
  end.

Definition allocate_mutable_block (c : CpuGpuBlockAllocator) (d : Device) (prev_block : option bref) :
    result (bref * CpuGpuBlockAllocator) :=
  x ← _allocate_block_id (alloc_of c d);
  y ← init_block (na_block_pool x.2) prev_block [] (na_block_size x.2) (Some x.1);
  Ok (Blk d y.1, with_alloc c d (na_with_pool x.2 y.2)).

Definition allocate_immutable_block (c : CpuGpuBlockAllocator) (d : Device) (prev_block : option bref)
    (token_ids : list Z) : result (bref * CpuGpuBlockAllocator) :=
  x ← allocate_mutable_block c d prev_block;
  c ← append_token_ids x.2 x.1 token_ids;
  Ok (x.1, c).

Fixpoint allocate_block_ids (a : NaiveBlockAllocator) (n : nat) : result (list nat * NaiveBlockAllocator) :=
  match n with
  | O => Ok ([], a)
  | S n => x ← _allocate_block_id a; y ← allocate_block_ids x.2 n; Ok (x.1 :: y.1, y.2)
  end.

(** The second loop of [allocate_immutable_blocks]. *)
Fixpoint init_blocks (c : CpuGpuBlockAllocator) (d : Device) (prev_block : option bref)
    (bs : list (list Z * nat)) : result (list bref * CpuGpuBlockAllocator) :=
  match bs with
  | [] => Ok ([], c)
  | (token_ids, id) :: bs =>
      let a := alloc_of c d in
      y ← init_block (na_block_pool a) prev_block token_ids (na_block_size a) (Some id);
      z ← init_blocks (with_alloc c d (na_with_pool a y.2)) d (Some (Blk d y.1)) bs;
      Ok (Blk d y.1 :: z.1, z.2)
  end.

Definition allocate_immutable_blocks (c : CpuGpuBlockAllocator) (d : Device) (prev_block : option bref)
    (block_token_ids : list (list Z)) : result (list bref * CpuGpuBlockAllocator) :=
  x ← allocate_block_ids (alloc_of c d) (length block_token_ids);
  init_blocks (with_alloc c d x.2) d prev_block (zip block_token_ids x.1).

Definition na_free (c : CpuGpuBlockAllocator) (d : Device) (r : bref) : result CpuGpuBlockAllocator :=
  c ← _free_block_id c d r;
  let a := alloc_of c d in
  p ← free_block (na_block_pool a) r;
  Ok (with_alloc c d (na_with_pool a p)).

(** [get_all_blocks_recursively]; a chain longer than the number of objects would be a
    cycle. *)
Fixpoint blocks_recurse (c : CpuGpuBlockAllocator) (fuel : nat) (r : bref) (lst : list bref) : result (list bref) :=
  match fuel with
  | O => Err OutOfFuel
  | S fuel =>
      b ← get_block c r;
      lst ← match nb_prev_block b with Some p => blocks_recurse c fuel p lst | None => Ok lst end;
      Ok (lst ++ [r])
  end.

Definition get_all_blocks_recursively (c : CpuGpuBlockAllocator) (last_block : bref) : result (list bref) :=
  blocks_recurse c (S (length (bp_pool (na_block_pool (cg_gpu c))) + length (bp_pool (na_block_pool (cg_cpu c))))) last_block [].

Fixpoint fork_blocks (c : CpuGpuBlockAllocator) (d : Device) (prev_block : option bref) (source : list bref) :
    result (list bref * CpuGpuBlockAllocator) :=
  match source with
  | [] => Ok ([], c)
  | r :: source =>
      b ← get_block c r;
      id ← or_raise AssertionError (nb_block_id b);
      x ← incr (na_refcounts (alloc_of c d)) id;
      _ ← py_assert (negb (x.1 =? 1));
      let a := na_with (alloc_of c d) (na_free_block_indices (alloc_of c d)) x.2 in
      y ← init_block (na_block_pool a) prev_block (nb_token_ids b) (na_block_size a) (Some id);
      z ← fork_blocks (with_alloc c d (na_with_pool a y.2)) d (Some (Blk d y.1)) source;
      Ok (Blk d y.1 :: z.1, z.2)
  end.

Definition na_fork (c : CpuGpuBlockAllocator) (d : Device) (last_block : bref) :
    result (list bref * CpuGpuBlockAllocator) :=
  source ← get_all_blocks_recursively c last_block;
  fork_blocks c d None source.

Definition na_get_num_free_blocks (a : NaiveBlockAllocator) : Z := len (na_free_block_indices a).
Definition na_get_num_total_blocks (a : NaiveBlockAllocator) : Z := Z.of_nat (size (na_all_block_indices a)).

(** [sorted(ids).index(absolute_id)] *)
Definition na_get_physical_block_id (a : NaiveBlockAllocator) (absolute_id : nat) : result nat :=
  or_raise ValueError (fst <$> list_find (absolute_id =.) (merge_sort le (elements (na_all_block_indices a)))).

Definition na_clear_copy_on_writes (a : NaiveBlockAllocator) : list (nat * nat) * NaiveBlockAllocator :=
  (na_copy_on_writes a, na_with_cows a []).

(** Block objects are hashed by identity. *)
Fixpoint full_blocks (c : CpuGpuBlockAllocator) (blocks : list bref) : result (list bref) :=
  match blocks with
  | [] => Ok []
  | r :: blocks => b ← get_block c r; l ← full_blocks c blocks; Ok (if is_full b then r :: l else l)
  end.

Definition na_get_num_full_blocks_touched (c : CpuGpuBlockAllocator) (blocks : list bref) : result Z :=
  l ← full_blocks c blocks; Ok (len (remove_dups l)).

Definition na_swap_out (c : CpuGpuBlockAllocator) (d : Device) (blocks : list bref) : result CpuGpuBlockAllocator :=
  for_each (fun r c => _free_block_id c d r) blocks c.

Definition swap_in_one (d : Device) (r : bref) (c : CpuGpuBlockAllocator) : result CpuGpuBlockAllocator :=
  b ← get_block c r;
  x ← (if is_full b then allocate_immutable_block c d (nb_prev_block b) (nb_token_ids b)
       else
         x ← allocate_mutable_block c d (nb_prev_block b);
         c ← append_token_ids x.2 x.1 (nb_token_ids b);
         Ok (x.1, c));
  let '(tmp, c) := x in
  t ← get_block c tmp;
  c ← set_block c tmp (nb_with_id t None);
  p ← free_block (na_block_pool (alloc_of c d)) tmp;
  let c := with_alloc c d (na_with_pool (alloc_of c d) p) in
  set_block_id c r (nb_block_id t).

Definition na_swap_in (c : CpuGpuBlockAllocator) (d : Device) (blocks : list bref) : result CpuGpuBlockAllocator :=
  for_each (swap_in_one d) blocks c.

(** ** CpuGpuBlockAllocator *)

(** [create] for the naive allocator; GPU ids come first, and on HPU id 0 is reserved. *)
Definition cg_create (is_hpu : bool) (num_gpu_blocks num_cpu_blocks : nat) (block_size : Z) : result CpuGpuBlockAllocator :=
  let reserved := if is_hpu then 1%nat else 0%nat in
  let block_ids := seq reserved (num_gpu_blocks + num_cpu_blocks - reserved) in
  let num_gpu := (num_gpu_blocks - reserved)%nat in
  gpu ← na_init num_gpu block_size (take num_gpu block_ids);
  cpu ← na_init num_cpu_blocks block_size (drop num_gpu block_ids);
  _ ← py_assert (bool_decide (na_all_block_indices cpu ∩ na_all_block_indices gpu = ∅));
  Ok (mkCpuGpu cpu gpu [] None
        (gset_to_gmap GPU (na_all_block_indices gpu) ∪ gset_to_gmap CPU (na_all_block_indices cpu))).

Definition allocate_or_get_null_block (c : CpuGpuBlockAllocator) : result CpuGpuBlockAllocator :=
  match cg_null_block c with
  | Some _ => Ok c
  | None =>
      x ← allocate_mutable_block c GPU None;
      match x.1 with
      | Blk _ i => Ok (mkCpuGpu (cg_cpu x.2) (cg_gpu x.2) (cg_swap_mapping x.2) (Some i) (cg_block_ids_to_allocator x.2))
      | NullBlk => Err RuntimeError
      end
  end.

Definition cg_free (c : CpuGpuBlockAllocator) (r : bref) : result CpuGpuBlockAllocator :=
  match r with
  | NullBlk => Ok c
  | Blk _ _ =>
      b ← get_block c r;
      id ← or_raise AssertionError (nb_block_id b);
      d ← or_raise KeyError (cg_block_ids_to_allocator c !! id);
      na_free c d r
  end.

Definition cg_fork (c : CpuGpuBlockAllocator) (last_block : bref) : result (list bref * CpuGpuBlockAllocator) :=
  match last_block with
  | NullBlk => Err AssertionError
  | Blk _ _ =>
      b ← get_block c last_block;
      id ← or_raise AssertionError (nb_block_id b);
      d ← or_raise KeyError (cg_block_ids_to_allocator c !! id);
      na_fork c d last_block
  end.

Definition cg_get_num_free_blocks (c : CpuGpuBlockAllocator) (d : Device) : Z := na_get_num_free_blocks (alloc_of c d).
Definition cg_get_num_total_blocks (c : CpuGpuBlockAllocator) (d : Device) : Z := na_get_num_total_blocks (alloc_of c d).
Definition cg_get_physical_block_id (c : CpuGpuBlockAllocator) (d : Device) (absolute_id : nat) : result nat :=
  na_get_physical_block_id (alloc_of c d) absolute_id.

Fixpoint block_ids_of (c : CpuGpuBlockAllocator) (blocks : list bref) : result (list (option nat)) :=
  match blocks with
  | [] => Ok []
  | r :: blocks => b ← get_block c r; l ← block_ids_of c blocks; Ok (nb_block_id b :: l)
  end.

(** The pairs of [zip(src, dst)] whose ids are both set. *)
Definition swap_pairs (src dst : list (option nat)) : list (nat * nat) :=
  omap (fun p => s ← p.1; d ← p.2; Some (s, d)) (zip src dst).

Definition cg_swap (c : CpuGpuBlockAllocator) (blocks : list bref) (src_device dst_device : Device) :
    result (list (nat * nat) * CpuGpuBlockAllocator) :=
  src ← block_ids_of c blocks;
  c ← na_swap_out c src_device blocks;
  c ← na_swap_in c dst_device blocks;
  dst ← block_ids_of c blocks;
  let set_all d := foldl (fun d p => dict_set p.1 p.2 d) d (swap_pairs src dst) in
  Ok (set_all [], mkCpuGpu (cg_cpu c) (cg_gpu c) (set_all (cg_swap_mapping c)) (cg_null_block c) (cg_block_ids_to_allocator c)).

(** Copy-on-write is only supported on the GPU. *)
Definition cg_clear_copy_on_writes (c : CpuGpuBlockAllocator) : list (nat * nat) * CpuGpuBlockAllocator :=
  let x := na_clear_copy_on_writes (cg_gpu c) in (x.1, with_alloc c GPU x.2).

Definition get_and_reset_swaps (c : CpuGpuBlockAllocator) : list (nat * nat) * CpuGpuBlockAllocator :=
  (cg_swap_mapping c, mkCpuGpu (cg_cpu c) (cg_gpu c) [] (cg_null_block c) (cg_block_ids_to_allocator c)).
