(* ===== verification/BlockManager.v ===== *)
(** * Block tables and the block manager of the previous engine

    [BlockTable] (core/block/block_table.py, with the [BlockList] of common.py) and
    [SelfAttnBlockSpaceManager] (core/block_manager.py) over the naive allocator
    ([enable_caching=False], so the trackers of computed blocks answer 0 and keep
    nothing). *)

From stdpp Require Import base tactics list gmap sets strings.
From Stdlib Require Import ZArith QArith Qround Lia.
From S2P Require Import Prelude.
From S2P Require Import V0Sequence.
From S2P Require Import NaiveBlocks.

Local Open Scope Z_scope.

(** ** Block tables *)

Record BlockTable : Type := mkBlockTable {
  bt_block_size : Z;
  bt_blocks : list bref;        (* BlockList._blocks *)
  bt_block_ids : list nat;      (* BlockList._block_ids *)
  bt_max_block_sliding_window : option Z;
  bt_num_full_slots : Z;
}.

Definition bt_with (t : BlockTable) (blocks : list bref) (ids : list nat) : BlockTable :=
  mkBlockTable (bt_block_size t) blocks ids (bt_max_block_sliding_window t) (bt_num_full_slots t).
Definition bt_with_slots (t : BlockTable) (n : Z) : BlockTable :=
  mkBlockTable (bt_block_size t) (bt_blocks t) (bt_block_ids t) (bt_max_block_sliding_window t) n.

(** [chunk_list] of utils.py; every round takes [n > 0] tokens or what is left. *)
Fixpoint chunks (fuel n : nat) (l : list Z) : list (list Z) :=
  match fuel, l with
  | S fuel, _ :: _ => take n l :: chunks fuel n (drop n l)
  | _, _ => []
  end.
Definition chunk_list (l : list Z) (n : Z) : list (list Z) := chunks (length l) (Z.to_nat n) l.

(** [BlockList.update]: the ids are read off the blocks. *)
Fixpoint ids_of_blocks (c : CpuGpuBlockAllocator) (blocks : list bref) : result (list nat) :=
  match blocks with
  | [] => Ok []
  | r :: blocks =>
      b ← get_block c r;
      id ← or_raise AssertionError (nb_block_id b);
      l ← ids_of_blocks c blocks;
      Ok (id :: l)
  end.

Definition bt_update (c : CpuGpuBlockAllocator) (t : BlockTable) (blocks : list bref) : result BlockTable :=
  ids ← ids_of_blocks c blocks; Ok (bt_with t blocks ids).

(** [BlockList.append_token_ids] *)
Definition bl_append_token_ids (c : CpuGpuBlockAllocator) (t : BlockTable) (block_index : nat) (token_ids : list Z) :
    result (CpuGpuBlockAllocator * BlockTable) :=
  r ← or_raise IndexError (bt_blocks t !! block_index);
  b ← get_block c r;
  c ← append_token_ids c r token_ids;
  b' ← get_block c r;
  if decide (nb_block_id b = nb_block_id b') then Ok (c, t)
  else
    id ← or_raise AssertionError (nb_block_id b');
    Ok (c, bt_with t (bt_blocks t) (<[block_index := id]> (bt_block_ids t))).

(** [BlockList.append] *)
Definition bl_append (c : CpuGpuBlockAllocator) (t : BlockTable) (r : bref) : result BlockTable :=
  b ← get_block c r;
  id ← or_raise AssertionError (nb_block_id b);
  Ok (bt_with t (bt_blocks t ++ [r]) (bt_block_ids t ++ [id])).

Fixpoint num_token_ids (c : CpuGpuBlockAllocator) (blocks : list bref) : result Z :=
  match blocks with
  | [] => Ok 0
  | r :: blocks => b ← get_block c r; n ← num_token_ids c blocks; Ok (len (nb_token_ids b) + n)
  end.

Definition bt_new (c : CpuGpuBlockAllocator) (block_size : Z) (blocks : list bref) (window : option Z) : result BlockTable :=
  ids ← ids_of_blocks c blocks;
  n ← num_token_ids c blocks;
  Ok (mkBlockTable block_size blocks ids window n).

Definition get_num_required_blocks (token_ids : list Z) (block_size num_lookahead_slots : Z) : Z :=
  cdiv (len token_ids + num_lookahead_slots) block_size.

Definition is_allocated (t : BlockTable) : bool := negb (bool_decide (bt_blocks t = [])).

Definition _allocate_blocks_for_token_ids (c : CpuGpuBlockAllocator) (t : BlockTable) (prev_block : option bref)
    (token_ids : list Z) (d : Device) : result (list bref * CpuGpuBlockAllocator) :=
  let cs := chunk_list token_ids (bt_block_size t) in
  let full := filter (fun l => len l = bt_block_size t) cs in
  let tail := filter (fun l => ¬ len l = bt_block_size t) cs in
  x ← (match full with [] => Ok ([], c) | _ => allocate_immutable_blocks c d prev_block full end);
  let prev_block := match full with [] => prev_block | _ => last x.1 end in
  match tail with
  | [] => Ok x
  | cur :: rest =>
      _ ← py_assert (bool_decide (rest = []));
      y ← allocate_mutable_block x.2 d prev_block;
      c ← append_token_ids y.2 y.1 cur;
      Ok (x.1 ++ [y.1], c)
  end.

Definition bt_allocate (c : CpuGpuBlockAllocator) (t : BlockTable) (token_ids : list Z) :
    result (CpuGpuBlockAllocator * BlockTable) :=
  _ ← py_assert (negb (is_allocated t));
  _ ← py_assert (negb (bool_decide (token_ids = [])));
  x ← _allocate_blocks_for_token_ids c t None token_ids GPU;
  t ← bt_update x.2 t x.1;
  Ok (x.2, bt_with_slots t (len token_ids)).

Definition bt_num_empty_slots (t : BlockTable) : result Z :=
  _ ← py_assert (is_allocated t);
  Ok (len (bt_blocks t) * bt_block_size t - bt_num_full_slots t).

(** The loop of [ensure_num_empty_slots]. *)
Fixpoint allocate_tail (n : nat) (c : CpuGpuBlockAllocator) (t : BlockTable) : result (CpuGpuBlockAllocator * BlockTable) :=
  match n with
  | O => Ok (c, t)
  | S n =>
      prev ← or_raise AssertionError (last (bt_blocks t));
      x ← allocate_mutable_block c GPU (Some prev);
      t ← bl_append x.2 t x.1;
      allocate_tail n x.2 t
  end.

Definition ensure_num_empty_slots (c : CpuGpuBlockAllocator) (t : BlockTable) (num_empty_slots : Z) :
    result (CpuGpuBlockAllocator * BlockTable) :=
  empty ← bt_num_empty_slots t;
  if num_empty_slots <=? empty then Ok (c, t)
  else allocate_tail (Z.to_nat (cdiv (num_empty_slots - empty) (bt_block_size t))) c t.

(** Blocks before the sliding window are released and replaced by the null block. *)
Definition drop_block (idx : nat) (x : CpuGpuBlockAllocator * BlockTable) : result (CpuGpuBlockAllocator * BlockTable) :=
  let '(c, t) := x in
  r ← or_raise IndexError (bt_blocks t !! idx);
  if decide (r = NullBlk) then Ok (c, t)
  else
    c ← cg_free c r;
    b ← get_block c NullBlk;
    id ← or_raise AssertionError (nb_block_id b);
    Ok (c, bt_with t (<[idx := NullBlk]> (bt_blocks t)) (<[idx := id]> (bt_block_ids t))).

Definition drop_window (c : CpuGpuBlockAllocator) (t : BlockTable) (num_computed_slots : option Z) :
    result (CpuGpuBlockAllocator * BlockTable) :=
  match bt_max_block_sliding_window t with
  | None => Ok (c, t)
  | Some w =>
      c ← allocate_or_get_null_block c;
      n ← or_raise AssertionError num_computed_slots;
      for_each drop_block (seq 0 (Z.to_nat (n / bt_block_size t - w))) (c, t)
  end.

Definition _chunk_token_blocks_for_append (t : BlockTable) (token_ids : list Z) : list (list Z) :=
  match token_ids with
  | [] => []
  | _ =>
      let first := bt_block_size t - bt_num_full_slots t `mod` bt_block_size t in
      take (Z.to_nat first) token_ids :: chunk_list (drop (Z.to_nat first) token_ids) (bt_block_size t)
  end.

Fixpoint append_chunks (i : nat) (cs : list (list Z)) (c : CpuGpuBlockAllocator) (t : BlockTable) :
    result (CpuGpuBlockAllocator * BlockTable) :=
  match cs with
  | [] => Ok (c, t)
  | ts :: cs => x ← bl_append_token_ids c t i ts; append_chunks (S i) cs x.1 x.2
  end.

Definition bt_append_token_ids (c : CpuGpuBlockAllocator) (t : BlockTable) (token_ids : list Z)
    (num_lookahead_slots : Z) (num_computed_slots : option Z) : result (CpuGpuBlockAllocator * BlockTable) :=
  _ ← py_assert (is_allocated t);
  x ← drop_window c t num_computed_slots;
  x ← ensure_num_empty_slots x.1 x.2 (len token_ids + num_lookahead_slots);
  let first_block_idx := Z.to_nat (bt_num_full_slots x.2 / bt_block_size x.2) in
  x ← append_chunks first_block_idx (_chunk_token_blocks_for_append x.2 token_ids) x.1 x.2;
  Ok (x.1, bt_with_slots x.2 (bt_num_full_slots x.2 + len token_ids)).

Definition bt_fork (c : CpuGpuBlockAllocator) (t : BlockTable) : result (CpuGpuBlockAllocator * BlockTable) :=
  _ ← py_assert (is_allocated t);
  l ← or_raise AssertionError (last (bt_blocks t));
  x ← cg_fork c l;
  t' ← bt_new x.2 (bt_block_size t) x.1 (bt_max_block_sliding_window t);
  Ok (x.2, t').

(** [BlockTable.free]; the table is emptied and then dropped by the manager. *)
Definition bt_free (c : CpuGpuBlockAllocator) (t : BlockTable) : result CpuGpuBlockAllocator :=
  for_each (fun r c => cg_free c r) (bt_blocks t) c.

Definition get_unseen_token_ids (t : BlockTable) (token_ids : list Z) : list Z :=
  drop (Z.to_nat (bt_num_full_slots t)) token_ids.

(** [1 + math.ceil((n - first) / block_size)] *)
Definition get_num_blocks_touched_by_append_slots (t : BlockTable) (token_ids : list Z) (num_lookahead_slots : Z) : Z :=
  let n := len token_ids + num_lookahead_slots in
  let first := bt_block_size t - bt_num_full_slots t `mod` bt_block_size t in
  1 + cdiv (n - first) (bt_block_size t).

(** ** The manager *)

Inductive AllocStatus : Type := AllocOK | AllocLATER | AllocNEVER.

#[export] Instance AllocStatus_eq_dec : EqDecision AllocStatus.
Proof. solve_decision. Defined.

Record BlockSpaceManager : Type := mkBlockSpaceManager {
  bm_block_size : Z;
  bm_num_total_gpu_blocks : Z;
  bm_max_block_sliding_window : option Z;
  bm_watermark_blocks : Z;
  block_allocator : CpuGpuBlockAllocator;
  block_tables : gmap Z BlockTable;
  cross_block_tables : gmap string BlockTable;
  seq_last_access : gmap Z (option Z);
}.

Definition bm_with (m : BlockSpaceManager) (c : CpuGpuBlockAllocator) (ts : gmap Z BlockTable) : BlockSpaceManager :=
  mkBlockSpaceManager (bm_block_size m) (bm_num_total_gpu_blocks m) (bm_max_block_sliding_window m)
    (bm_watermark_blocks m) c ts (cross_block_tables m) (seq_last_access m).
Definition bm_with_cross (m : BlockSpaceManager) (c : CpuGpuBlockAllocator) (ts : gmap string BlockTable) : BlockSpaceManager :=
  mkBlockSpaceManager (bm_block_size m) (bm_num_total_gpu_blocks m) (bm_max_block_sliding_window m)
    (bm_watermark_blocks m) c (block_tables m) ts (seq_last_access m).
Definition bm_with_access (m : BlockSpaceManager) (la : gmap Z (option Z)) : BlockSpaceManager :=
  mkBlockSpaceManager (bm_block_size m) (bm_num_total_gpu_blocks m) (bm_max_block_sliding_window m)
    (bm_watermark_blocks m) (block_allocator m) (block_tables m) (cross_block_tables m) la.

Definition bm_init (is_hpu : bool) (block_size : Z) (num_gpu_blocks num_cpu_blocks : nat) (watermark : Q)
    (sliding_window : option Z) : result BlockSpaceManager :=
  _ ← py_assert (Qle_bool 0 watermark);
  c ← cg_create is_hpu num_gpu_blocks num_cpu_blocks block_size;
  Ok (mkBlockSpaceManager block_size (Z.of_nat num_gpu_blocks)
        ((fun w => w / block_size + 1 + 1) <$> sliding_window)
        (Qfloor (watermark * inject_Z (Z.of_nat num_gpu_blocks))) c ∅ ∅ ∅).

Definition check_no_caching_or_swa_for_blockmgr_encdec (m : BlockSpaceManager) (g : SequenceGroup) : result unit :=
  match sg_encoder_seq g, bm_max_block_sliding_window m with
  | Some _, Some _ => Err NotImplementedError
  | _, _ => Ok tt
  end.

Definition can_allocate (m : BlockSpaceManager) (g : SequenceGroup) (num_lookahead_slots : Z) : result AllocStatus :=
  _ ← check_no_caching_or_swa_for_blockmgr_encdec m g;
  s ← or_raise IndexError (head (get_seqs g WAITING));
  let n := get_num_required_blocks (seq_token_ids s) (bm_block_size m) num_lookahead_slots in
  let n := match sg_encoder_seq g with
           | Some e => n + get_num_required_blocks (seq_token_ids e) (bm_block_size m) 0
           | None => n
           end in
  let n := match bm_max_block_sliding_window m with Some w => Z.min n w | None => n end in
  let free := cg_get_num_free_blocks (block_allocator m) GPU in
  Ok (if bm_num_total_gpu_blocks m - n <? bm_watermark_blocks m then AllocNEVER
      else if bm_watermark_blocks m <=? free - n then AllocOK else AllocLATER).

Definition _allocate_sequence (m : BlockSpaceManager) (c : CpuGpuBlockAllocator) (s : Sequence) :
    result (CpuGpuBlockAllocator * BlockTable) :=
  t ← bt_new c (bm_block_size m) [] (bm_max_block_sliding_window m);
  match seq_token_ids s with
  | [] => Ok (c, t)
  | ts => bt_allocate c t ts
  end.

(** [LastAccessBlocksTracker.add_seq], [remove_seq] *)
Definition add_seq (m : BlockSpaceManager) (id : Z) : result BlockSpaceManager :=
  _ ← py_assert (bool_decide (seq_last_access m !! id = None));
  Ok (bm_with_access m (<[id := None]> (seq_last_access m))).
Definition remove_seq (m : BlockSpaceManager) (id : Z) : result BlockSpaceManager :=
  _ ← or_raise AssertionError (seq_last_access m !! id);
  Ok (bm_with_access m (delete id (seq_last_access m))).

(** One more sequence of the group gets a fork of the first one's table. *)
Definition fork_seq (t : BlockTable) (s : Sequence) (m : BlockSpaceManager) : result BlockSpaceManager :=
  x ← bt_fork (block_allocator m) t;
  add_seq (bm_with m x.1 (<[seq_id s := x.2]> (block_tables m))) (seq_id s).

Definition bm_allocate (m : BlockSpaceManager) (g : SequenceGroup) : result BlockSpaceManager :=
  let waiting := get_seqs g WAITING in
  _ ← py_assert (forallb (fun s => bool_decide (block_tables m !! seq_id s = None)) waiting);
  s ← or_raise IndexError (head waiting);
  x ← _allocate_sequence m (block_allocator m) s;
  m ← add_seq (bm_with m x.1 (<[seq_id s := x.2]> (block_tables m))) (seq_id s);
  m ← for_each (fork_seq x.2) (tail waiting) m;
  _ ← py_assert (bool_decide (cross_block_tables m !! sg_request_id g = None));
  _ ← check_no_caching_or_swa_for_blockmgr_encdec m g;
  match sg_encoder_seq g with
  | None => Ok m
  | Some e =>
      y ← _allocate_sequence m (block_allocator m) e;
      Ok (bm_with_cross m y.1 (<[sg_request_id g := y.2]> (cross_block_tables m)))
  end.

Fixpoint touched_by_append (m : BlockSpaceManager) (seqs : list Sequence) (num_lookahead_slots : Z) : result Z :=
  match seqs with
  | [] => Ok 0
  | s :: seqs =>
      t ← or_raise KeyError (block_tables m !! seq_id s);
      n ← touched_by_append m seqs num_lookahead_slots;
      Ok (get_num_blocks_touched_by_append_slots t (get_unseen_token_ids t (seq_token_ids s)) num_lookahead_slots + n)
  end.

Definition can_append_slots (m : BlockSpaceManager) (g : SequenceGroup) (num_lookahead_slots : Z) : result bool :=
  n ← touched_by_append m (get_seqs g RUNNING) num_lookahead_slots;
  Ok (n <=? cg_get_num_free_blocks (block_allocator m) GPU).

Definition append_slots (m : BlockSpaceManager) (s : Sequence) (num_lookahead_slots : Z) :
    result (list (nat * nat) * BlockSpaceManager) :=
  t ← or_raise KeyError (block_tables m !! seq_id s);
  x ← bt_append_token_ids (block_allocator m) t (get_unseen_token_ids t (seq_token_ids s)) num_lookahead_slots
        (Some (seq_num_computed_tokens s));
  let y := cg_clear_copy_on_writes x.1 in
  Ok (y.1, bm_with m y.2 (<[seq_id s := x.2]> (block_tables m))).

Definition bm_free (m : BlockSpaceManager) (s : Sequence) : result BlockSpaceManager :=
  match block_tables m !! seq_id s with
  | None => Ok m
  | Some t =>
      _ ← or_raise AssertionError (seq_last_access m !! seq_id s);
      m ← remove_seq m (seq_id s);
      c ← bt_free (block_allocator m) t;
      Ok (bm_with m c (delete (seq_id s) (block_tables m)))
  end.

Definition free_cross (m : BlockSpaceManager) (g : SequenceGroup) : result BlockSpaceManager :=
  match cross_block_tables m !! sg_request_id g with
  | None => Ok m
  | Some t =>
      c ← bt_free (block_allocator m) t;
      Ok (bm_with_cross m c (delete (sg_request_id g) (cross_block_tables m)))
  end.

Definition get_block_table (m : BlockSpaceManager) (s : Sequence) : result (list nat) :=
  t ← or_raise KeyError (block_tables m !! seq_id s); Ok (bt_block_ids t).

Definition get_cross_block_table (m : BlockSpaceManager) (g : SequenceGroup) : result (list nat) :=
  t ← or_raise AssertionError (cross_block_tables m !! sg_request_id g); Ok (bt_block_ids t).

Definition get_num_free_gpu_blocks (m : BlockSpaceManager) : Z := cg_get_num_free_blocks (block_allocator m) GPU.
Definition get_num_free_cpu_blocks (m : BlockSpaceManager) : Z := cg_get_num_free_blocks (block_allocator m) CPU.

Definition bm_fork (m : BlockSpaceManager) (parent child : Sequence) : result BlockSpaceManager :=
  match block_tables m !! seq_id parent with
  | None => Ok m
  | Some t => fork_seq t child m
  end.

(** The counting loop of [_can_swap]. *)
Fixpoint touched_by_swap (m : BlockSpaceManager) (seqs : list Sequence) (num_lookahead_slots : Z) : result (Z * list bref) :=
  match seqs with
  | [] => Ok (0, [])
  | s :: seqs =>
      t ← or_raise KeyError (block_tables m !! seq_id s);
      x ← touched_by_swap m seqs num_lookahead_slots;
      Ok (get_num_blocks_touched_by_append_slots t (get_unseen_token_ids t (seq_token_ids s)) num_lookahead_slots + x.1,
          bt_blocks t ++ x.2)
  end.

Definition _can_swap (m : BlockSpaceManager) (g : SequenceGroup) (d : Device) (status : SequenceStatus)
    (num_lookahead_slots : Z) : result AllocStatus :=
  x ← touched_by_swap m (get_seqs g status) num_lookahead_slots;
  full ← na_get_num_full_blocks_touched (block_allocator m) x.2;
  let n := x.1 + full in
  let watermark := match d with GPU => bm_watermark_blocks m | CPU => 0 end in
  Ok (if cg_get_num_total_blocks (block_allocator m) d <? n then AllocNEVER
      else if watermark <=? cg_get_num_free_blocks (block_allocator m) d - n then AllocOK else AllocLATER).

Definition can_swap_in (m : BlockSpaceManager) (g : SequenceGroup) (num_lookahead_slots : Z) : result AllocStatus :=
  _can_swap m g GPU SWAPPED num_lookahead_slots.

Definition can_swap_out (m : BlockSpaceManager) (g : SequenceGroup) : result bool :=
  st ← _can_swap m g CPU RUNNING 0; Ok (bool_decide (st = AllocOK)).

Fixpoint physical_mapping (c : CpuGpuBlockAllocator) (src dst : Device) (l acc : list (nat * nat)) : result (list (nat * nat)) :=
  match l with
  | [] => Ok acc
  | (a, b) :: l =>
      a ← cg_get_physical_block_id c src a;
      b ← cg_get_physical_block_id c dst b;
      physical_mapping c src dst l (dict_set a b acc)
  end.

(** One sequence of the loops of [swap_in] and [swap_out]. *)
Definition swap_seq (src dst : Device) (s : Sequence) (x : list (nat * nat) * BlockSpaceManager) :
    result (list (nat * nat) * BlockSpaceManager) :=
  let '(acc, m) := x in
  t ← or_raise KeyError (block_tables m !! seq_id s);
  match bt_blocks t with
  | [] => Ok (acc, m)
  | blocks =>
      y ← cg_swap (block_allocator m) blocks src dst;
      t ← bt_update y.2 t blocks;
      l ← physical_mapping y.2 src dst y.1 [];
      Ok (acc ++ l, bm_with m y.2 (<[seq_id s := t]> (block_tables m)))
  end.

Definition swap_in (m : BlockSpaceManager) (g : SequenceGroup) : result (list (nat * nat) * BlockSpaceManager) :=
  for_each (swap_seq CPU GPU) (get_seqs g SWAPPED) ([], m).

Definition swap_out (m : BlockSpaceManager) (g : SequenceGroup) : result (list (nat * nat) * BlockSpaceManager) :=
  for_each (swap_seq GPU CPU) (get_seqs g RUNNING) ([], m).
