(* ===== verification/V0Interface.v ===== *)
(** * The interface of block managers (core/interfaces.py)

    The v0 scheduler calls a [BlockSpaceManager], of which the program has two: the
    manager of paged attention ([SelfAttnBlockSpaceManager], in [BlockManager]) and the
    one for models that need no blocks ([PlaceholderBlockSpaceManager]).  [BlockSpaceOps]
    lists the methods; each manager is an instance. *)

From stdpp Require Import base tactics list gmap sets strings.
From Stdlib Require Import ZArith QArith Lia.
From S2P Require Import Prelude.
From S2P Require Import V0Sequence.
From S2P Require Import NaiveBlocks.
From S2P Require Import BlockManager.

Local Open Scope Z_scope.

Class BlockSpaceOps (M : Type) : Type := {
  bs_can_allocate : M -> SequenceGroup -> Z -> result AllocStatus;
  bs_allocate : M -> SequenceGroup -> result M;
  bs_can_append_slots : M -> SequenceGroup -> Z -> result bool;
  bs_append_slots : M -> Sequence -> Z -> result (list (nat * nat) * M);
  bs_fork : M -> Sequence -> Sequence -> result M;
  bs_can_swap_in : M -> SequenceGroup -> Z -> result AllocStatus;
  (* the placeholder returns None for the mapping *)
  bs_swap_in : M -> SequenceGroup -> result (option (list (nat * nat)) * M);
  bs_can_swap_out : M -> SequenceGroup -> result bool;
  bs_swap_out : M -> SequenceGroup -> result (option (list (nat * nat)) * M);
  bs_free : M -> Sequence -> result M;
  (* not declared by the abstract class, but called by the scheduler *)
  bs_free_cross : M -> SequenceGroup -> result M;
  bs_get_block_table : M -> Sequence -> result (option (list nat));
  bs_get_cross_block_table : M -> SequenceGroup -> result (list nat);
  bs_access_all_blocks_in_seq : M -> Sequence -> Q -> result M;
  bs_get_common_computed_block_ids : M -> list Sequence -> result (list nat);
  bs_mark_blocks_as_computed : M -> SequenceGroup -> Z -> result M;
  bs_get_num_cached_tokens : M -> Sequence -> result Z;
}.

(** ** SelfAttnBlockSpaceManager without prefix caching *)

(** No token counts as cached, so every sequence contributes an empty prefix. *)
Fixpoint get_common_computed_block_ids (m : BlockSpaceManager) (seqs : list Sequence) : result (list nat) :=
  match seqs with
  | [] => Ok []
  | s :: seqs => _ ← or_raise KeyError (block_tables m !! seq_id s); get_common_computed_block_ids m seqs
  end.

#[export] Instance SelfAttnBlockSpaceManager_ops : BlockSpaceOps BlockSpaceManager := {
  bs_can_allocate := can_allocate;
  bs_allocate := bm_allocate;
  bs_can_append_slots := can_append_slots;
  bs_append_slots := append_slots;
  bs_fork := bm_fork;
  bs_can_swap_in := can_swap_in;
  bs_swap_in m g := x ← swap_in m g; Ok (Some x.1, x.2);
  bs_can_swap_out := can_swap_out;
  bs_swap_out m g := x ← swap_out m g; Ok (Some x.1, x.2);
  bs_free := bm_free;
  bs_free_cross := free_cross;
  bs_get_block_table m s := ids ← get_block_table m s; Ok (Some ids);
  bs_get_cross_block_table := get_cross_block_table;
  bs_access_all_blocks_in_seq m _ _ := Ok m;
  bs_get_common_computed_block_ids := get_common_computed_block_ids;
  bs_mark_blocks_as_computed m _ _ := Ok m;
  bs_get_num_cached_tokens _ _ := Ok 0;
}.

(** ** PlaceholderBlockSpaceManager *)

Inductive PlaceholderBlockSpaceManager : Type := Placeholder.

Definition PlaceholderBlockSpaceManager_ops : BlockSpaceOps PlaceholderBlockSpaceManager := {|
  bs_can_allocate _ _ _ := Ok AllocOK;
  bs_allocate m _ := Ok m;
  bs_can_append_slots _ _ _ := Ok true;
  bs_append_slots m _ _ := Ok ([], m);
  bs_fork m _ _ := Ok m;
  bs_can_swap_in _ _ _ := Ok AllocOK;
  bs_swap_in m _ := Ok (None, m);
  bs_can_swap_out _ _ := Ok true;
  bs_swap_out m _ := Ok (None, m);
  bs_free m _ := Ok m;
  bs_free_cross _ _ := Err AttributeError;
  bs_get_block_table _ _ := Ok None;
  bs_get_cross_block_table _ _ := Err AttributeError;
  bs_access_all_blocks_in_seq m _ _ := Ok m;
  bs_get_common_computed_block_ids _ _ := Ok [];
  bs_mark_blocks_as_computed m _ _ := Ok m;
  bs_get_num_cached_tokens _ _ := Ok 0;
|}.
#[export] Existing Instance PlaceholderBlockSpaceManager_ops.
