(* ===== verification/BlockStore.v ===== *)
(** * The invariant of the block store

    [store_inv c L]: the pools, reference counts and free lists of both devices are
    consistent with a list [L] of live block objects, all from the GPU pool.  Lemmas
    for the primitive operations: taking a block, appending to it with copy-on-write,
    releasing it, sharing it, moving it to the other device. *)

From stdpp Require Import base tactics list gmap sets.
From Stdlib Require Import ZArith Lia.
From S2P Require Import Prelude.
From S2P Require Import NaiveBlocks.

Local Open Scope Z_scope.

(** ** Reference counts and free lists of one device *)

Record device_ok (a : NaiveBlockAllocator) (uses : list nat) : Prop := {
  do_nodup : NoDup (na_free_block_indices a);
  do_free : ∀ b, b ∈ na_free_block_indices a <-> b ∈ na_all_block_indices a ∧ b ∉ uses;
  do_rc : ∀ b, na_refcounts a !! b = if decide (b ∈ na_all_block_indices a) then Some (occ b uses) else None;
}.

(** What the accounting operations leave alone. *)
Definition same_device (a a' : NaiveBlockAllocator) : Prop :=
  na_all_block_indices a' = na_all_block_indices a ∧ na_block_size a' = na_block_size a ∧
  na_copy_on_writes a' = na_copy_on_writes a ∧ na_block_pool a' = na_block_pool a.

Lemma occ_cons_eq (b : nat) l : occ b (b :: l) = occ b l + 1.
Proof. cbn [occ]. rewrite decide_True by done. lia. Qed.

Lemma occ_cons_ne (b b' : nat) l : b' ≠ b -> occ b' (b :: l) = occ b' l.
Proof. intros. cbn [occ]. by rewrite decide_False. Qed.

Lemma occ_Permutation (b : nat) l l' : l ≡ₚ l' -> occ b l = occ b l'.
Proof. induction 1; cbn [occ]; lia. Qed.

Lemma device_ok_perm a uses uses' : uses ≡ₚ uses' -> device_ok a uses -> device_ok a uses'.
Proof.
  intros Hp [H1 H2 H3]. split; [done| |].
  - intros b. by rewrite H2, Hp.
  - intros b. rewrite H3. by rewrite (occ_Permutation b _ _ Hp).
Qed.

(** Blocks of the other device do not count. *)
Lemma device_ok_other a uses b : b ∉ na_all_block_indices a -> (device_ok a (b :: uses) <-> device_ok a uses).
Proof.
  intros Hb. split; intros [H1 H2 H3]; split; try done; intros b'.
  - rewrite H2. rewrite not_elem_of_cons. split; [tauto|]. intros [? ?]. split_and!; [done|by intros ->|done].
  - rewrite H3. case_decide; [|done]. rewrite occ_cons_ne; [done|]. by intros ->.
  - rewrite H2. rewrite not_elem_of_cons. split; [|tauto]. intros [? ?]. split_and!; [done|by intros ->|done].
  - rewrite H3. case_decide; [|done]. rewrite occ_cons_ne; [done|]. by intros ->.
Qed.

Lemma allocate_id_spec a uses b rest :
  device_ok a uses -> na_free_block_indices a = b :: rest ->
  ∃ a', _allocate_block_id a = Ok (b, a') ∧ device_ok a' (b :: uses) ∧ same_device a a' ∧
    na_free_block_indices a' = rest ∧ (b ∉ uses) ∧ b ∈ na_all_block_indices a.
Proof.
  intros [H1 H2 H3] Hf. destruct (proj1 (H2 b)) as [Hall Hnu]; [rewrite Hf; by left|].
  unfold _allocate_block_id, incr. rewrite Hf, H3, decide_True by done. cbn [or_raise mbind result_bind].
  assert (occ b uses = 0) as Ho by (by apply occ_0). rewrite Ho. cbn [py_assert mbind result_bind Z.leb Z.compare].
  eexists. split; [reflexivity|]. rewrite Hf in H1. apply NoDup_cons in H1 as [Hnr Hnd].
  split; [|done]. split; cbn -[occ].
  - done.
  - intros b'. rewrite not_elem_of_cons. specialize (H2 b'). rewrite Hf, elem_of_cons in H2.
    split; [intros Hr; assert (b' ≠ b) by (by intros ->); tauto|tauto].
  - intros b'. destruct (decide (b' = b)) as [->|Hne].
    + rewrite lookup_insert_eq, decide_True, occ_cons_eq by done. f_equal. lia.
    + rewrite lookup_insert_ne, H3 by done. by rewrite occ_cons_ne.
Qed.

Lemma free_id_spec a uses b :
  device_ok a (b :: uses) -> b ∈ na_all_block_indices a ->
  ∃ a', free_block_id a b = Ok a' ∧ device_ok a' uses ∧ same_device a a' ∧
    na_free_block_indices a' = if decide (b ∈ uses) then na_free_block_indices a else b :: na_free_block_indices a.
Proof.
  intros [H1 H2 H3] Hb. unfold free_block_id, decr. rewrite H3, decide_True by done.
  cbn [or_raise mbind result_bind]. rewrite occ_cons_eq. pose proof (occ_nonneg b uses) as Hpos.
  rewrite (proj2 (Z.ltb_lt 0 (occ b uses + 1))) by lia. cbn [py_assert mbind result_bind fst snd].
  replace (occ b uses + 1 - 1) with (occ b uses) by lia. eexists. split; [reflexivity|].
  assert (Hrc : ∀ b', <[b := occ b uses]> (na_refcounts a) !! b' =
    if decide (b' ∈ na_all_block_indices a) then Some (occ b' uses) else None).
  { intros b'. destruct (decide (b' = b)) as [->|Hne].
    - by rewrite lookup_insert_eq, decide_True.
    - rewrite lookup_insert_ne, H3 by done. by rewrite occ_cons_ne. }
  assert (Hnf : b ∉ na_free_block_indices a) by (rewrite H2; intros [_ []]; by left).
  destruct (decide (b ∈ uses)) as [Hu|Hu].
  - pose proof (occ_pos b uses Hu). rewrite (proj2 (Z.eqb_neq (occ b uses) 0)) by lia. cbn -[occ].
    split_and!; [|done|done]. split; cbn -[occ]; [done| |done]. intros b'. rewrite H2, not_elem_of_cons.
    split; [tauto|]. intros [? ?]. split_and!; [done|by intros ->|done].
  - rewrite (proj2 (occ_0 b uses)) by done. cbn -[occ]. split_and!; [|done|done]. split; cbn -[occ].
    + by constructor.
    + intros b'. rewrite elem_of_cons, H2, not_elem_of_cons. destruct (decide (b' = b)) as [->|]; tauto.
    + rewrite (proj2 (occ_0 b uses)) in Hrc by done. done.
Qed.

(** A block in use gets one more user. *)
Lemma incr_spec a uses b :
  device_ok a uses -> b ∈ uses -> b ∈ na_all_block_indices a ->
  ∃ n rc, incr (na_refcounts a) b = Ok (n, rc) ∧ n ≠ 1 ∧ device_ok (na_with a (na_free_block_indices a) rc) (b :: uses).
Proof.
  intros [H1 H2 H3] Hu Hb. unfold incr. rewrite H3, decide_True by done. cbn [or_raise mbind result_bind].
  pose proof (occ_pos b uses Hu) as Hp. rewrite (proj2 (Z.leb_le 0 (occ b uses))) by lia.
  cbn [py_assert mbind result_bind]. eexists _, _. split; [reflexivity|]. split; [lia|]. split; cbn -[occ]; [done| |].
  - intros b'. rewrite H2, not_elem_of_cons. split; [|tauto]. intros [? ?]. split_and!; [done|by intros ->|done].
  - intros b'. destruct (decide (b' = b)) as [->|Hne].
    + rewrite lookup_insert_eq, decide_True, occ_cons_eq by done. done.
    + rewrite lookup_insert_ne, H3 by done. by rewrite occ_cons_ne.
Qed.

(** ** Pools *)

Record pool_ok (p : BlockPool) (L : list nat) : Prop := {
  pk_nodup : NoDup (L ++ bp_free_ids p);
  pk_range : ∀ i, i ∈ L ++ bp_free_ids p -> (i < length (bp_pool p))%nat;
  pk_len : length (bp_pool p) = bp_pool_size p;
}.

Lemma pool_ok_perm p L L' : L ≡ₚ L' -> pool_ok p L -> pool_ok p L'.
Proof.
  intros Hp [H1 H2 H3]. split; [by rewrite <-Hp| |done]. intros i. rewrite <-Hp. apply H2.
Qed.

Lemma pool_ok_set p L i b : pool_ok p L -> pool_ok (bp_with_pool p (<[i := b]> (bp_pool p))) L.
Proof. intros [H1 H2 H3]. split; cbn; [done| |]; by rewrite ?length_insert. Qed.

Lemma increase_pool_ok p L : pool_ok p L -> pool_ok (increase_pool p) L ∧ ∀ i b, bp_pool p !! i = Some b -> bp_pool (increase_pool p) !! i = Some b.
Proof.
  intros [H1 H2 H3]. split; [|intros; by apply lookup_app_l_Some]. split; cbn.
  - rewrite app_assoc. apply NoDup_app. split_and!; [done| |apply NoDup_seq].
    intros i Hi%H2 [? ?]%elem_of_seq. lia.
  - intros i. rewrite app_assoc, elem_of_app, elem_of_seq, length_app, length_replicate.
    intros [Hi%H2|?]; lia.
  - rewrite length_app, length_replicate. lia.
Qed.

Lemma nb_init_Ok prev ts bs id : len ts <= bs -> nb_init prev ts bs id = Ok (mkNaiveBlock ts bs prev id).
Proof.
  intros Hl. unfold nb_init, _append_token_ids_no_cow. destruct ts as [|t ts]; [done|].
  unfold num_empty_slots. cbn [nb_block_size nb_token_ids]. rewrite (proj2 (Z.leb_le _ _)); [done|]. cbn [length] in *. lia.
Qed.

Lemma init_block_spec p L prev ts bs id :
  pool_ok p L -> (0 < bp_pool_size p)%nat -> len ts <= bs ->
  ∃ i p', init_block p prev ts bs id = Ok (i, p') ∧ (i ∉ L) ∧ pool_ok p' (i :: L) ∧ (0 < bp_pool_size p')%nat ∧
    bp_pool p' !! i = Some (mkNaiveBlock ts bs prev id) ∧
    ∀ j b, j ≠ i -> bp_pool p !! j = Some b -> bp_pool p' !! j = Some b.
Proof.
  intros Hp Hsz Hl.
  assert (∃ q, match bp_free_ids p with [] => increase_pool p | _ => p end = q ∧ pool_ok q L ∧ bp_free_ids q ≠ [] ∧
    (0 < bp_pool_size q)%nat ∧ ∀ j b, bp_pool p !! j = Some b -> bp_pool q !! j = Some b) as (q & Eq & Hq & Hne & Hq0 & Hqp).
  { destruct (bp_free_ids p) eqn:E; (eexists; split; [reflexivity|]).
    - destruct (increase_pool_ok p L Hp) as [? ?]. split_and!; [done| |cbn; lia|done]. cbn. rewrite E. by destruct (bp_pool_size p); [lia|].
    - rewrite E. done. }
  unfold init_block. rewrite Eq. destruct (bp_free_ids q) as [|i free] eqn:Ef; [done|]. destruct Hq as [H1 H2 H3]. rewrite Ef in *.
  assert (Hi : (i < length (bp_pool q))%nat) by (apply H2, elem_of_app; right; by left).
  destruct (lookup_lt_is_Some_2 _ _ Hi) as [b0 Hb0]. rewrite Hb0. cbn [or_raise mbind result_bind].
  rewrite nb_init_Ok by done. cbn [mbind result_bind]. eexists _, _. split; [reflexivity|].
  apply NoDup_app in H1 as (N1 & N2 & N3%NoDup_cons). destruct N3 as [N3 N4]. cbn. split_and!.
  - intros HL. apply (N2 i HL). by left.
  - split; cbn.
    + constructor; [|apply NoDup_app; split_and!; [done| |done]].
      * rewrite elem_of_app. intros [HL|]; [|done]. apply (N2 i HL). by left.
      * intros x Hx Hx'. apply (N2 x Hx). by right.
    + intros x Hx. rewrite length_insert. apply H2. set_solver.
    + by rewrite length_insert.
  - done.
  - by rewrite list_lookup_insert_eq.
  - intros j b Hj Hb. rewrite list_lookup_insert_ne by done. by apply Hqp.
Qed.

(** ** The store *)

(** Object [i] of the GPU pool. *)
Definition obj (c : CpuGpuBlockAllocator) (i : nat) : option NaiveBlock := bp_pool (na_block_pool (cg_gpu c)) !! i.

(** The physical blocks of the live objects, with repetitions. *)
Definition uses (c : CpuGpuBlockAllocator) (L : list nat) : list nat := omap (fun i => obj c i ≫= nb_block_id) L.

Abbreviation all c d := (na_all_block_indices (alloc_of c d)).
Abbreviation free_list c d := (na_free_block_indices (alloc_of c d)).
Abbreviation pool_of c d := (na_block_pool (alloc_of c d)).
Abbreviation bsize c := (na_block_size (cg_gpu c)).

(** [X]: ids taken from the free lists that no object refers to (yet, or any more). *)
Record store_inv (c : CpuGpuBlockAllocator) (L X : list nat) : Prop := {
  sv_bs : 0 < bsize c;
  sv_sizes : ∀ d, na_block_size (alloc_of c d) = bsize c;
  sv_gpool : pool_ok (pool_of c GPU) L;
  sv_cpool : pool_ok (pool_of c CPU) [];
  sv_some : ∀ d, all c d ≠ ∅ -> (0 < bp_pool_size (pool_of c d))%nat;
  sv_dev : ∀ d, device_ok (alloc_of c d) (X ++ uses c L);
  sv_map : ∀ b d, cg_block_ids_to_allocator c !! b = Some d <-> b ∈ all c d;
  sv_null : cg_null_block c = None;
}.

Definition same_cfg (c c' : CpuGpuBlockAllocator) : Prop :=
  (∀ d, all c' d = all c d ∧ na_block_size (alloc_of c' d) = na_block_size (alloc_of c d)) ∧
  cg_block_ids_to_allocator c' = cg_block_ids_to_allocator c ∧ cg_null_block c' = cg_null_block c.

#[export] Instance same_cfg_preorder : PreOrder same_cfg.
Proof.
  split; [by intros c; split_and!|]. intros c1 c2 c3 (A & B & C) (A' & B' & C').
  split_and!; [|congruence..]. intros d. destruct (A d), (A' d). split; congruence.
Qed.

Lemma alloc_of_with c d d' a : alloc_of (with_alloc c d a) d' = if decide (d' = d) then a else alloc_of c d'.
Proof. by destruct d, d'. Qed.

Lemma alloc_of_with_eq c d a : alloc_of (with_alloc c d a) d = a.
Proof. by destruct d. Qed.

Lemma with_alloc_cfg c d a :
  na_all_block_indices a = all c d -> na_block_size a = na_block_size (alloc_of c d) -> same_cfg c (with_alloc c d a).
Proof. intros ? ?. split_and!; [|by destruct d..]. intros d'. by destruct d, d'. Qed.

Lemma uses_cons c i L : uses c (i :: L) = (match obj c i ≫= nb_block_id with Some b => [b] | None => [] end) ++ uses c L.
Proof. unfold uses. cbn [omap list_omap]. by destruct (obj c i ≫= nb_block_id). Qed.

Lemma uses_frame c c' L : (∀ j, j ∈ L -> obj c' j = obj c j) -> uses c' L = uses c L.
Proof.
  induction L as [|i L IH]; intros H; [done|]. rewrite !uses_cons, IH; [|intros; apply H; by right]. by rewrite H by left.
Qed.

Lemma uses_perm c L L' : L ≡ₚ L' -> uses c L ≡ₚ uses c L'.
Proof. intros Hp. unfold uses. by rewrite Hp. Qed.

Lemma elem_of_uses c L b : b ∈ uses c L <-> ∃ i x, i ∈ L ∧ obj c i = Some x ∧ nb_block_id x = Some b.
Proof.
  unfold uses. rewrite list_elem_of_omap. split.
  - intros (i & Hi & (x & Hx & Hb)%bind_Some). eauto.
  - intros (i & x & Hi & Hx & Hb). exists i. split; [done|]. by rewrite Hx.
Qed.

Lemma store_perm c L L' X X' : L ≡ₚ L' -> X ≡ₚ X' -> store_inv c L X -> store_inv c L' X'.
Proof.
  intros HL HX [H1 H2 H3 H4 H5 H6 H7 H8]. split; try done.
  - by eapply pool_ok_perm.
  - intros d. eapply device_ok_perm, H6. by rewrite HX, (uses_perm c _ _ HL).
Qed.

Lemma store_disjoint c L X b d d' : store_inv c L X -> b ∈ all c d -> b ∈ all c d' -> d = d'.
Proof. intros H Hb Hb'. apply (sv_map _ _ _ H) in Hb, Hb'. congruence. Qed.

Lemma store_obj c L X i : store_inv c L X -> i ∈ L -> ∃ b, obj c i = Some b.
Proof.
  intros H Hi. apply lookup_lt_is_Some_2, (pk_range _ _ (sv_gpool _ _ _ H)), elem_of_app. by left.
Qed.

(** An id more or less in use, on the device it belongs to. *)
Lemma store_account c L X X' d a :
  store_inv c L X -> same_device (alloc_of c d) a -> device_ok a (X' ++ uses c L) ->
  (∀ d', d' ≠ d -> device_ok (alloc_of c d') (X' ++ uses c L)) -> store_inv (with_alloc c d a) L X' ∧
  same_cfg c (with_alloc c d a) ∧ ∀ j, obj (with_alloc c d a) j = obj c j.
Proof.
  intros [H1 H2 H3 H4 H5 H6 H7 H8] (E1 & E2 & E3 & E4) Ha Ho.
  assert (Hobj : ∀ j, obj (with_alloc c d a) j = obj c j) by (intros j; unfold obj; destruct d; [done|]; cbn in *; by rewrite E4).
  split; [|split; [by apply with_alloc_cfg|done]]. split.
  - destruct d; [done|]. cbn in *. by rewrite E2.
  - intros d'. pose proof (H2 d') as E. destruct d, d'; cbn in *; congruence.
  - destruct d; [done|]. cbn in *. by rewrite E4.
  - destruct d; [|done]. cbn in *. by rewrite E4.
  - intros d' Hd. specialize (H5 d'). destruct d, d'; cbn in *; rewrite ?E4, ?E1 in *; auto.
  - intros d'. rewrite (uses_frame c) by auto. rewrite alloc_of_with. case_decide as Ed; [by subst|by apply Ho].
  - intros b d'. rewrite alloc_of_with. destruct d; cbn [with_alloc cg_block_ids_to_allocator]; rewrite H7; case_decide; subst; rewrite ?E1; done.
  - by destruct d.
Qed.

Lemma other_device c L X d d' b uses :
  store_inv c L X -> b ∈ all c d -> d' ≠ d -> (device_ok (alloc_of c d') (b :: uses) <-> device_ok (alloc_of c d') uses).
Proof. intros H Hb Hd. apply device_ok_other. intros Hb'. apply Hd. by eapply store_disjoint. Qed.

(** Taking an id off the free list. *)
Lemma store_take c L X d b rest :
  store_inv c L X -> free_list c d = b :: rest ->
  ∃ a, _allocate_block_id (alloc_of c d) = Ok (b, a) ∧ store_inv (with_alloc c d a) L (b :: X) ∧
    same_device (alloc_of c d) a ∧ na_free_block_indices a = rest ∧
    same_cfg c (with_alloc c d a) ∧ (∀ j, obj (with_alloc c d a) j = obj c j) ∧
    (b ∉ X) ∧ (b ∉ uses c L) ∧ b ∈ all c d.
Proof.
  intros H Hf. destruct (allocate_id_spec _ _ _ _ (sv_dev _ _ _ H d) Hf) as (a & E & Hok & Hs & Hr & Hnu & Hall).
  apply not_elem_of_app in Hnu as [Hx Hu]. exists a. destruct (store_account c L X (b :: X) d a H Hs Hok) as (? & ? & ?).
  { intros d' Hd. cbn [app]. rewrite other_device by done. apply H. }
  split_and!; done.
Qed.

(** Giving one back. *)
Lemma store_give c L X d b :
  store_inv c L (b :: X) -> b ∈ all c d ->
  ∃ a, free_block_id (alloc_of c d) b = Ok a ∧ store_inv (with_alloc c d a) L X ∧ same_device (alloc_of c d) a ∧
    same_cfg c (with_alloc c d a) ∧ (∀ j, obj (with_alloc c d a) j = obj c j) ∧
    na_free_block_indices a = if decide (b ∈ X ++ uses c L) then free_list c d else b :: free_list c d.
Proof.
  intros H Hb. destruct (free_id_spec _ _ _ (sv_dev _ _ _ H d) Hb) as (a & E & Hok & Hs & Hl).
  exists a. destruct (store_account c L (b :: X) X d a H Hs Hok) as (? & ? & ?); [|by split_and!].
  intros d' Hd. rewrite <-(other_device c L (b :: X) d d' b) by done. apply (sv_dev _ _ _ H d').
Qed.

(** One more user of a block in use. *)
Lemma store_share c L X d b :
  store_inv c L X -> b ∈ uses c L -> b ∈ all c d ->
  ∃ n rc, let a := na_with (alloc_of c d) (free_list c d) rc in
    incr (na_refcounts (alloc_of c d)) b = Ok (n, rc) ∧ n ≠ 1 ∧ store_inv (with_alloc c d a) L (b :: X) ∧
    same_cfg c (with_alloc c d a) ∧ (∀ j, obj (with_alloc c d a) j = obj c j).
Proof.
  intros H Hu Hb. destruct (incr_spec _ _ b (sv_dev _ _ _ H d)) as (n & rc & E & Hn & Hok); [apply elem_of_app; by right|done|].
  exists n, rc. destruct (store_account c L X (b :: X) d (na_with (alloc_of c d) (free_list c d) rc) H) as (? & ? & ?); [done|exact Hok| |by split_and!].
  intros d' Hd. cbn [app]. rewrite other_device by done. apply H.
Qed.

(** ** Objects *)

(** The store with object [i] of the GPU pool replaced. *)
Definition put (c : CpuGpuBlockAllocator) (i : nat) (b : NaiveBlock) : CpuGpuBlockAllocator :=
  with_alloc c GPU (na_with_pool (cg_gpu c) (bp_with_pool (pool_of c GPU) (<[i := b]> (bp_pool (pool_of c GPU))))).

Lemma set_block_gpu c i b : set_block c (Blk GPU i) b = Ok (put c i b).
Proof. done. Qed.

Lemma obj_put c i b j : (i < length (bp_pool (pool_of c GPU)))%nat ->
  obj (put c i b) j = if decide (j = i) then Some b else obj c j.
Proof.
  intros Hi. unfold obj, put. cbn. case_decide as E.
  - subst. by apply list_lookup_insert_eq.
  - by apply list_lookup_insert_ne.
Qed.

Definition ids1 (b : NaiveBlock) : list nat := match nb_block_id b with Some x => [x] | None => [] end.

Lemma uses_cons_obj c i L b : obj c i = Some b -> uses c (i :: L) = ids1 b ++ uses c L.
Proof. intros Hb. rewrite uses_cons, Hb. done. Qed.

Lemma store_fresh c i L X : store_inv c (i :: L) X -> (i ∉ L) ∧ (i < length (bp_pool (pool_of c GPU)))%nat.
Proof.
  intros H. pose proof (sv_gpool _ _ _ H) as [Hn Hr _]. split; [|apply Hr; by left].
  apply NoDup_app in Hn as ([Hn _]%NoDup_cons & _). done.
Qed.

(** A live object is replaced; its old and new ids balance with the pending ones. *)
Lemma store_put c L X X' i b b' :
  store_inv c (i :: L) X -> obj c i = Some b -> X ++ ids1 b ≡ₚ X' ++ ids1 b' ->
  store_inv (put c i b') (i :: L) X' ∧ obj (put c i b') i = Some b' ∧ (∀ j, j ≠ i -> obj (put c i b') j = obj c j) ∧
  same_cfg c (put c i b').
Proof.
  intros H Hb HX. destruct (store_fresh _ _ _ _ H) as [Hi Hlt]. pose proof (fun j => obj_put c i b' j Hlt) as Ho.
  assert (Hu : uses (put c i b') (i :: L) = ids1 b' ++ uses c L).
  { rewrite (uses_cons_obj _ _ _ b') by (by rewrite Ho, decide_True). f_equal. apply uses_frame.
    intros j Hj. rewrite Ho, decide_False; [done|]. by intros ->. }
  split_and!; [|by rewrite Ho, decide_True|intros; by rewrite Ho, decide_False|by apply with_alloc_cfg].
  destruct H as [H1 H2 H3 H4 H5 H6 H7 H8]. split; try done.
  - intros []; [exact (H2 CPU)|done].
  - by apply pool_ok_set.
  - intros []; [exact (H5 CPU)|exact (H5 GPU)].
  - intros d. rewrite Hu. specialize (H6 d). rewrite (uses_cons_obj _ _ _ b) in H6 by done. rewrite app_assoc in H6 |- *.
    assert (device_ok (alloc_of c d) ((X' ++ ids1 b') ++ uses c L)) as [K1 K2 K3] by (eapply device_ok_perm, H6; by rewrite HX).
    by destruct d; split.
  - intros x []; apply H7.
Qed.

(** A new object for a pending id. *)
Lemma store_new c L X prev ts x :
  store_inv c L (x :: X) -> len ts <= bsize c -> x ∈ all c GPU ->
  ∃ i p, let c' := with_alloc c GPU (na_with_pool (cg_gpu c) p) in
    init_block (pool_of c GPU) prev ts (bsize c) (Some x) = Ok (i, p) ∧ store_inv c' (i :: L) X ∧ (i ∉ L) ∧
    obj c' i = Some (mkNaiveBlock ts (bsize c) prev (Some x)) ∧ (∀ j, j ∈ L -> obj c' j = obj c j) ∧ same_cfg c c'.
Proof.
  intros H Hl Hx.
  destruct (init_block_spec (pool_of c GPU) L prev ts (bsize c) (Some x) (sv_gpool _ _ _ H)) as (i & p & E & Hi & Hp & Hsz & Hnew & Hold);
    [apply (sv_some _ _ _ H); set_solver|done|].
  exists i, p. cbv zeta.
  set (c' := with_alloc c GPU (na_with_pool (cg_gpu c) p)).
  assert (Hfr : ∀ j, j ∈ L -> obj c' j = obj c j).
  { intros j Hj. destruct (store_obj _ _ _ j H Hj) as [b Hb]. rewrite Hb. apply Hold; [by intros ->|exact Hb]. }
  split_and!; try done; [|by apply with_alloc_cfg].
  assert (Hu : uses c' (i :: L) = x :: uses c L).
  { rewrite (uses_cons_obj _ _ _ (mkNaiveBlock ts (bsize c) prev (Some x))) by exact Hnew. cbn. f_equal. by apply uses_frame. }
  destruct H as [H1 H2 H3 H4 H5 H6 H7 H8]. split; try done.
  - intros []; [exact (H2 CPU)|done].
  - intros [] ?; [by apply (H5 CPU)|exact Hsz].
  - intros d. rewrite Hu. assert (device_ok (alloc_of c d) (X ++ x :: uses c L)) as [K1 K2 K3].
    { eapply device_ok_perm, H6. cbn [app]. by rewrite Permutation_middle. }
    by destruct d; split.
  - intros y []; apply H7.
Qed.

(** The slot of an object without an id goes back to its pool. *)
Lemma store_drop c i L X b :
  store_inv c (i :: L) X -> obj c i = Some b -> nb_block_id b = None ->
  let c' := with_alloc c GPU (na_with_pool (cg_gpu c) (bp_with_free (pool_of c GPU) (i :: bp_free_ids (pool_of c GPU)))) in
  store_inv c' L X ∧ (∀ j, obj c' j = obj c j) ∧ same_cfg c c'.
Proof.
  intros [H1 H2 H3 H4 H5 H6 H7 H8] Hb Hid c'. split_and!; [|done|by apply with_alloc_cfg]. split; try done.
  - intros []; [exact (H2 CPU)|done].
  - destruct H3 as [K1 K2 K3]. split; [| |done]; cbn [with_alloc alloc_of na_with_pool na_block_pool bp_with_free bp_free_ids cg_gpu c'].
    + rewrite <-Permutation_middle. exact K1.
    + intros j Hj. apply K2. revert Hj. rewrite <-Permutation_middle. done.
  - intros []; [exact (H5 CPU)|exact (H5 GPU)].
  - intros d. specialize (H6 d). rewrite (uses_cons_obj _ _ _ b Hb) in H6. unfold ids1 in H6. rewrite Hid in H6.
    rewrite (uses_frame c) by done. destruct H6 as [K1 K2 K3]. by destruct d; split.
  - intros y []; apply H7.
Qed.

(** ** Operations *)

Lemma get_block_gpu c i b : obj c i = Some b -> get_block c (Blk GPU i) = Ok b.
Proof. intros Hb. unfold get_block. unfold obj in Hb. cbn [alloc_of]. by rewrite Hb. Qed.

(** The rest of the accounting: the other device and the recorded copies. *)
Definition only_gpu (c c' : CpuGpuBlockAllocator) : Prop := cg_cpu c' = cg_cpu c.
Definition cows (c : CpuGpuBlockAllocator) : list (nat * nat) := na_copy_on_writes (cg_gpu c).

(** An object gives up its physical block. *)
Lemma release_spec c d i L X b x :
  store_inv c (i :: L) X -> obj c i = Some b -> nb_block_id b = Some x -> x ∈ all c d ->
  ∃ c', _free_block_id c d (Blk GPU i) = Ok c' ∧ store_inv c' (i :: L) X ∧
    obj c' i = Some (nb_with_id b None) ∧ (∀ j, j ≠ i -> obj c' j = obj c j) ∧ same_cfg c c' ∧ cows c' = cows c ∧
    free_list c' d = (if decide (x ∈ X ++ uses c L) then free_list c d else x :: free_list c d) ∧
    (∀ d', d' ≠ d -> free_list c' d' = free_list c d') ∧ (d = GPU -> only_gpu c c').
Proof.
  intros H Hb Hx Hd. unfold _free_block_id. rewrite (get_block_gpu _ _ _ Hb). cbn [mbind result_bind]. rewrite set_block_gpu.
  cbn [mbind result_bind]. rewrite Hx. cbn [or_raise mbind result_bind].
  destruct (store_fresh _ _ _ _ H) as [Hi _].
  destruct (store_put c L X (x :: X) i b (nb_with_id b None) H Hb) as (H1 & Ho & Hf & Hc).
  { unfold ids1. rewrite Hx. cbn. rewrite app_nil_r. symmetry. apply Permutation_cons_append. }
  destruct (store_give _ _ _ d x H1) as (a & E & H2 & Hs & Hc2 & Ho2 & Hl).
  { by rewrite (proj1 (proj1 Hc d)). }
  rewrite E. cbn [mbind result_bind]. eexists. split; [reflexivity|].
  assert (Hu : uses (put c i (nb_with_id b None)) (i :: L) = uses c L).
  { rewrite (uses_cons_obj _ _ _ _ Ho). cbn. apply uses_frame. intros j Hj. apply Hf. by intros ->. }
  rewrite Hu in Hl. split_and!.
  - done.
  - by rewrite Ho2.
  - intros j Hj. rewrite Ho2. by apply Hf.
  - by etrans.
  - unfold cows. destruct Hs as (_ & _ & Ec & _). destruct d; cbn in *; [done|by rewrite Ec].
  - rewrite alloc_of_with_eq, Hl. by destruct d.
  - intros d' Hne. rewrite alloc_of_with, decide_False by done. by destruct d'.
  - by intros ->.
Qed.

Lemma rc_shared c L X d x : store_inv c L X -> x ∈ all c d ->
  get_refcount (na_refcounts (alloc_of c d)) x = Ok (occ x (X ++ uses c L)).
Proof. intros H Hx. unfold get_refcount. by rewrite (do_rc _ _ (sv_dev _ _ _ H d)), decide_True. Qed.

Lemma occ_shared x (l : list nat) : (occ x (x :: l) <=? 1) = negb (bool_decide (x ∈ l)).
Proof.
  rewrite occ_cons_eq. case_bool_decide as Hx; cbn.
  - pose proof (occ_pos x l Hx). apply Z.leb_gt. lia.
  - apply occ_0 in Hx. apply Z.leb_le. lia.
Qed.

(** Appending tokens: in place when the physical block is not shared, else in a copy. *)
Record appended (c c' : CpuGpuBlockAllocator) (i x x' : nat) (others : list nat) : Prop := {
  ap_frame : ∀ j, j ≠ i -> obj c' j = obj c j;
  ap_cfg : same_cfg c c';
  ap_gpu : only_gpu c c';
  ap_in : x' ∈ all c GPU;
  ap_new : x' ∉ others;
  ap_place : x ∉ others -> x' = x ∧ free_list c' GPU = free_list c GPU ∧ cows c' = cows c;
  ap_copy : x ∈ others -> free_list c GPU = x' :: free_list c' GPU ∧ cows c' = cows c ++ [(x, x')];
}.

Lemma append_token_ids_spec c i L X b x ts :
  store_inv c (i :: L) X -> obj c i = Some b -> nb_block_id b = Some x -> x ∈ all c GPU ->
  len ts <= num_empty_slots b -> (x ∈ X ++ uses c L -> free_list c GPU ≠ []) ->
  ∃ c' x', append_token_ids c (Blk GPU i) ts = Ok c' ∧ store_inv c' (i :: L) X ∧
    obj c' i = Some (mkNaiveBlock (nb_token_ids b ++ ts) (nb_block_size b) (nb_prev_block b) (Some x')) ∧
    appended c c' i x x' (X ++ uses c L).
Proof.
  intros H Hb Hx Hall Hl Hfree. destruct (store_fresh _ _ _ _ H) as [Hi _].
  set (b1 := mkNaiveBlock (nb_token_ids b ++ ts) (nb_block_size b) (nb_prev_block b) (Some x)).
  assert (E1 : _append_token_ids_no_cow b ts = Ok b1).
  { unfold _append_token_ids_no_cow, b1. rewrite <-Hx. destruct ts; [rewrite app_nil_r; by destruct b|].
    rewrite (proj2 (Z.leb_le _ _)) by done. done. }
  unfold append_token_ids. rewrite (get_block_gpu _ _ _ Hb). cbn [mbind result_bind]. rewrite E1. cbn [mbind result_bind].
  rewrite set_block_gpu. cbn [mbind result_bind nb_block_id b1].
  destruct (store_put c L X X i b b1 H Hb) as (H1 & Ho & Hf & Hc); [unfold ids1; by rewrite Hx|]. fold b1.
  set (c1 := put c i b1) in *.
  assert (Hu : uses c1 (i :: L) = x :: uses c L).
  { rewrite (uses_cons_obj _ _ _ _ Ho). cbn. f_equal. apply uses_frame. intros j Hj. apply Hf. by intros ->. }
  assert (Hus : uses c1 L = uses c L) by (apply uses_frame; intros j Hj; apply Hf; by intros ->).
  assert (Hall1 : x ∈ all c1 GPU) by (by rewrite (proj1 (proj1 Hc GPU))).
  unfold cow_block_if_not_appendable. rewrite (get_block_gpu _ _ _ Ho). cbn [mbind result_bind or_raise nb_block_id b1 is_appendable].
  rewrite (rc_shared _ _ _ _ _ H1 Hall1). cbn [mbind result_bind].
  rewrite (occ_Permutation x _ (x :: X ++ uses c L)) by (rewrite Hu; apply Permutation_sym, Permutation_middle).
  rewrite occ_shared. case_bool_decide as Hsh; cbn [negb].
  - (* a copy *)
    destruct (release_spec c1 GPU i L X b1 x H1 Ho eq_refl Hall1) as (c2 & E2 & H2 & Ho2 & Hf2 & Hc2 & Hcow2 & Hfl2 & _ & Hgpu2).
    rewrite Hus, decide_True in Hfl2 by done. rewrite E2. cbn [mbind result_bind].
    destruct (free_list c GPU) as [|y rest] eqn:Efl; [by apply Hfree in Hsh|].
    assert (Efl2 : free_list c2 GPU = y :: rest) by (rewrite Hfl2; exact Efl).
    destruct (store_take c2 (i :: L) X GPU y rest H2 Efl2) as (a & E3 & H3 & Hs3 & Hr3 & Hc3 & Ho3 & Hx3 & Hu3 & Hall3).
    rewrite E3. cbn [mbind result_bind fst snd].
    set (c3 := with_alloc c2 GPU a) in *.
    set (c4 := with_alloc c2 GPU (record_cow a x y)).
    assert (H4 : store_inv c4 (i :: L) (y :: X)).
    { destruct H3 as [K1 K2 K3 K4 K5 K6 K7 K8]. split; try done.
      - intros []; [exact (K2 CPU)|done].
      - intros []; [exact (K5 CPU)|exact (K5 GPU)].
      - intros d. rewrite (uses_frame c3) by done. destruct (K6 d) as [J1 J2 J3]. by destruct d; split.
      - intros z []; apply K7. }
    assert (Ho4 : obj c4 i = Some (nb_with_id b1 None)) by (change (obj c4 i) with (obj c3 i); by rewrite Ho3).
    assert (Hus2 : uses c2 (i :: L) = uses c L).
    { rewrite (uses_cons_obj _ _ _ _ Ho2). cbn. rewrite <-Hus. apply uses_frame. intros j Hj. apply Hf2. by intros ->. }
    rewrite Hus2 in Hu3.
    destruct (store_put c4 L (y :: X) X i _ (nb_with_id (nb_with_id b1 None) (Some y)) H4 Ho4) as (H5 & Ho5 & Hf5 & Hc5).
    { cbn. rewrite app_nil_r. apply Permutation_cons_append. }
    unfold set_block_id. rewrite (get_block_gpu _ _ _ Ho4). cbn [mbind result_bind]. rewrite set_block_gpu.
    eexists _, y. split; [reflexivity|]. split; [done|]. split; [exact Ho5|].
    assert (Hcfg2 : same_cfg c c2) by (by etrans).
    split.
    + intros j Hj. rewrite Hf5 by done. change (obj c4 j) with (obj c3 j). rewrite Ho3, Hf2 by done. by apply Hf.
    + etrans; [exact Hcfg2|]. etrans; [exact Hc3|]. etrans; [|exact Hc5]. split_and!; try done. by intros [].
    + exact (Hgpu2 eq_refl).
    + by rewrite <-(proj1 (proj1 Hcfg2 GPU)).
    + apply not_elem_of_app. done.
    + done.
    + intros _. cbn. split; [by rewrite Hr3|]. unfold cows in *. destruct Hs3 as (_ & _ & Ec & _). cbn in *. by rewrite Ec, Hcow2.
  - (* in place *)
    cbn [mbind result_bind fst snd]. unfold set_block_id. rewrite (get_block_gpu _ _ _ Ho). cbn [mbind result_bind]. rewrite set_block_gpu.
    destruct (store_put c1 L X X i b1 (nb_with_id b1 (Some x)) H1 Ho) as (H2 & Ho2 & Hf2 & Hc2); [done|].
    eexists _, x. split; [reflexivity|]. split; [done|]. split; [exact Ho2|]. split; try done.
    + intros j Hj. rewrite Hf2 by done. by apply Hf.
    + by etrans.
Qed.

(** A new block at the end of a table. *)
Lemma allocate_mutable_spec c L X prev x rest :
  store_inv c L X -> free_list c GPU = x :: rest ->
  ∃ c' i, allocate_mutable_block c GPU prev = Ok (Blk GPU i, c') ∧ store_inv c' (i :: L) X ∧ (i ∉ L) ∧
    obj c' i = Some (mkNaiveBlock [] (bsize c) prev (Some x)) ∧ (∀ j, j ∈ L -> obj c' j = obj c j) ∧ same_cfg c c' ∧
    only_gpu c c' ∧ cows c' = cows c ∧ free_list c' GPU = rest ∧ x ∈ all c GPU ∧ x ∉ X ++ uses c L.
Proof.
  intros H Hf. destruct (store_take c L X GPU x rest H Hf) as (a & E & H1 & Hs & Hr & Hc & Ho & Hx & Hu & Hall).
  unfold allocate_mutable_block. rewrite E. cbn [mbind result_bind fst snd].
  set (c1 := with_alloc c GPU a) in *. pose proof (sv_bs _ _ _ H) as Hbs.
  assert (Eb : bsize c1 = bsize c) by apply (proj1 Hc GPU).
  destruct (store_new c1 L X prev [] x H1) as (i & p & E2 & H2 & Hi & Hn & Hf2 & Hc2).
  { cbn [length]. rewrite Eb. lia. } { by rewrite (proj1 (proj1 Hc GPU)). }
  rewrite Eb in Hn. change (na_block_pool a) with (pool_of c1 GPU). change (na_block_size a) with (bsize c1).
  rewrite E2. cbn [mbind result_bind fst snd]. eexists _, i. split; [reflexivity|]. split; [exact H2|].
  split; [done|]. split; [exact Hn|]. split; [intros j Hj; etrans; [by apply Hf2|apply Ho]|]. split; [by etrans|].
  split; [done|]. split; [unfold cows; cbn; by destruct Hs as (_ & _ & -> & _)|]. split; [done|]. split; [done|].
  by apply not_elem_of_app.
Qed.

(** A table's block is returned. *)
Lemma cg_free_spec c i L X b x :
  store_inv c (i :: L) X -> obj c i = Some b -> nb_block_id b = Some x -> x ∈ all c GPU ->
  ∃ c', cg_free c (Blk GPU i) = Ok c' ∧ store_inv c' L X ∧ (∀ j, j ≠ i -> obj c' j = obj c j) ∧ same_cfg c c' ∧
    only_gpu c c' ∧ cows c' = cows c ∧
    free_list c' GPU = (if decide (x ∈ X ++ uses c L) then free_list c GPU else x :: free_list c GPU).
Proof.
  intros H Hb Hx Hall. unfold cg_free. rewrite (get_block_gpu _ _ _ Hb). cbn [mbind result_bind]. rewrite Hx.
  cbn [mbind result_bind or_raise]. rewrite (proj2 (sv_map _ _ _ H x GPU) Hall). cbn [mbind result_bind or_raise].
  unfold na_free. destruct (release_spec c GPU i L X b x H Hb Hx Hall) as (c1 & E & H1 & Ho & Hf & Hc & Hcow & Hfl & _ & Hg).
  rewrite E. cbn [mbind result_bind free_block]. eexists. split; [reflexivity|].
  destruct (store_drop c1 i L X _ H1 Ho eq_refl) as (H2 & Ho2 & Hc2). split; [done|]. split.
  { intros j Hj. etrans; [apply Ho2|by apply Hf]. }
  split; [by etrans|]. split; [by apply Hg|done].
Qed.

(** ** Moving blocks between the devices

    [swap_in] of the naive allocator takes a physical block of its device through a
    temporary block object and gives it to an object of the table being moved. *)

(** What a move leaves alone, apart from the id of the moved object. *)
Record moved (c c' : CpuGpuBlockAllocator) (d : Device) (i x : nat) (b : NaiveBlock) (L X : list nat) : Prop := {
  mv_inv : store_inv c' (i :: L) X;
  mv_obj : obj c' i = Some (nb_with_id b (Some x));
  mv_frame : ∀ j, j ∈ L -> obj c' j = obj c j;
  mv_cfg : same_cfg c c';
  mv_cows : cows c' = cows c;
  mv_free : free_list c d = x :: free_list c' d;
  mv_other : ∀ d', d' ≠ d -> free_list c' d' = free_list c d';
  mv_all : x ∈ all c d;
  mv_new : x ∉ X ++ uses c L;
}.

Lemma swap_in_one_eq d r c b : get_block c r = Ok b -> swap_in_one d r c =
  (x ← allocate_immutable_block c d (nb_prev_block b) (nb_token_ids b);
   let '(tmp, c) := x in
   t ← get_block c tmp;
   c ← set_block c tmp (nb_with_id t None);
   p ← free_block (na_block_pool (alloc_of c d)) tmp;
   set_block_id (with_alloc c d (na_with_pool (alloc_of c d) p)) r (nb_block_id t)).
Proof. intros E. unfold swap_in_one. rewrite E. cbn [mbind result_bind]. by destruct (is_full b). Qed.

(** *** Into the GPU: the temporary object is one of the GPU pool *)

Lemma swap_in_gpu c i L X b x rest :
  store_inv c (i :: L) X -> obj c i = Some b -> nb_block_id b = None -> len (nb_token_ids b) <= bsize c ->
  free_list c GPU = x :: rest ->
  ∃ c', swap_in_one GPU (Blk GPU i) c = Ok c' ∧ moved c c' GPU i x b L X.
Proof.
  intros H Hb Hid Hl Hf. rewrite (swap_in_one_eq _ _ _ _ (get_block_gpu _ _ _ Hb)). unfold allocate_immutable_block.
  destruct (allocate_mutable_spec c (i :: L) X (nb_prev_block b) x rest H Hf)
    as (c1 & t & E1 & H1 & Ht & Ho1 & Hfr1 & Hc1 & Hg1 & Hw1 & Hfl1 & Hall & Hnew).
  rewrite E1. cbn [mbind result_bind fst snd].
  assert (Eu : uses c (i :: L) = uses c L) by (rewrite (uses_cons_obj _ _ _ _ Hb); unfold ids1; by rewrite Hid).
  assert (Hne : t ≠ i) by (intros ->; apply Ht; by left).
  assert (Hu1 : uses c1 (i :: L) = uses c L) by (rewrite (uses_frame c), Eu; [done|exact Hfr1]).
  rewrite Eu in Hnew.
  destruct (append_token_ids_spec c1 t (i :: L) X _ x (nb_token_ids b) H1 Ho1 eq_refl) as (c2 & x2 & E2 & H2 & Ho2 & Hap).
  { by rewrite (proj1 (proj1 Hc1 GPU)). } { unfold num_empty_slots. cbn. lia. } { rewrite Hu1. done. }
  rewrite Hu1 in Hap. destruct (ap_place _ _ _ _ _ _ Hap Hnew) as (-> & Hfl2 & Hw2).
  rewrite E2. cbn [mbind result_bind]. rewrite (get_block_gpu _ _ _ Ho2). cbn [mbind result_bind]. rewrite set_block_gpu.
  cbn [mbind result_bind nb_token_ids nb_block_size nb_prev_block app nb_block_id] in Ho2 |- *.
  match type of Ho2 with _ = Some ?bb => set (b2 := bb) in * end.
  destruct (store_put c2 (i :: L) X (x :: X) t b2 (nb_with_id b2 None) H2 Ho2) as (H3 & Ho3 & Hf3 & Hc3).
  { cbn. rewrite app_nil_r. symmetry. apply Permutation_cons_append. }
  set (c3 := put c2 t (nb_with_id b2 None)) in *. cbn [free_block mbind result_bind].
  destruct (store_drop c3 t (i :: L) (x :: X) _ H3 Ho3 eq_refl) as (H4 & Ho4 & Hc4).
  set (c4 := with_alloc c3 GPU _) in *.
  assert (Hb4 : obj c4 i = Some b).
  { rewrite Ho4, Hf3 by done. rewrite (ap_frame _ _ _ _ _ _ Hap) by done. rewrite Hfr1; [done|by left]. }
  unfold set_block_id. rewrite (get_block_gpu _ _ _ Hb4). cbn [mbind result_bind]. rewrite set_block_gpu.
  destruct (store_put c4 L (x :: X) X i b (nb_with_id b (Some x)) H4 Hb4) as (H5 & Ho5 & Hf5 & Hc5).
  { unfold ids1. rewrite Hid. cbn. rewrite app_nil_r. apply Permutation_cons_append. }
  destruct (store_fresh _ _ _ _ H) as [Hi _].
  eexists. split; [reflexivity|]. split; try done.
  - intros j Hj. assert (j ≠ i) by (by intros ->). assert (j ≠ t) by (intros ->; apply Ht; by right).
    rewrite Hf5, Ho4, Hf3 by done. rewrite (ap_frame _ _ _ _ _ _ Hap) by done. apply Hfr1. by right.
  - etrans; [exact Hc1|]. etrans; [exact (ap_cfg _ _ _ _ _ _ Hap)|]. etrans; [exact Hc3|]. etrans; [exact Hc4|exact Hc5].
  - transitivity (cows c2); [done|by rewrite Hw2].
  - rewrite Hf. f_equal. by rewrite <-Hfl1, <-Hfl2.
  - intros [] Hd; [|done]. pose proof (ap_gpu _ _ _ _ _ _ Hap) as Hg2. unfold only_gpu in *. cbn in *. by rewrite Hg2, Hg1.
Qed.

(** *** Into the CPU *)

Lemma store_cpool c L X p :
  store_inv c L X -> pool_ok p [] -> (0 < bp_pool_size p)%nat ->
  let c' := with_alloc c CPU (na_with_pool (cg_cpu c) p) in
  store_inv c' L X ∧ (∀ j, obj c' j = obj c j) ∧ same_cfg c c'.
Proof.
  intros [H1 H2 H3 H4 H5 H6 H7 H8] Hp Hsz c'. split; [|split; [done|by apply with_alloc_cfg]]. split; try done.
  - intros []; [exact (H2 CPU)|done].
  - intros []; [done|exact (H5 GPU)].
  - intros d. destruct (H6 d) as [J1 J2 J3]. by destruct d; split.
  - intros z []; apply H7.
Qed.

(** Appending to a temporary object of the CPU pool that alone has its physical block. *)
Lemma append_tmp_cpu c t b x ts :
  bp_pool (pool_of c CPU) !! t = Some b -> nb_block_id b = Some x -> na_refcounts (cg_cpu c) !! x = Some 1 ->
  len ts <= num_empty_slots b ->
  ∃ p b', append_token_ids c (Blk CPU t) ts = Ok (with_alloc c CPU (na_with_pool (cg_cpu c) p)) ∧
    p = bp_with_pool (pool_of c CPU) (<[t := b']> (bp_pool (pool_of c CPU))) ∧ nb_block_id b' = Some x.
Proof.
  intros Hb Hx Hrc Hl. pose proof (lookup_lt_Some _ _ _ Hb) as Hlt.
  set (b1 := mkNaiveBlock (nb_token_ids b ++ ts) (nb_block_size b) (nb_prev_block b) (Some x)).
  assert (E1 : _append_token_ids_no_cow b ts = Ok b1).
  { unfold _append_token_ids_no_cow, b1. rewrite <-Hx. destruct ts; [rewrite app_nil_r; by destruct b|].
    rewrite (proj2 (Z.leb_le _ _)) by done. done. }
  unfold append_token_ids, get_block. cbn [alloc_of] in *. rewrite Hb. cbn [or_raise mbind result_bind]. rewrite E1.
  cbn [mbind result_bind set_block alloc_of nb_block_id b1].
  unfold cow_block_if_not_appendable. cbn [get_block alloc_of with_alloc cg_cpu na_with_pool na_block_pool bp_with_pool bp_pool].
  rewrite list_lookup_insert_eq by done. cbn [or_raise mbind result_bind nb_block_id b1 is_appendable get_refcount alloc_of cg_cpu na_refcounts].
  unfold get_refcount. cbn [na_with_pool na_refcounts]. rewrite Hrc. cbn [or_raise mbind result_bind].
  change (1 <=? 1) with true. cbn [mbind result_bind fst snd].
  unfold set_block_id. cbn [get_block alloc_of cg_cpu na_with_pool na_block_pool bp_with_pool bp_pool].
  rewrite list_lookup_insert_eq by done. cbn [or_raise mbind result_bind set_block alloc_of cg_cpu na_with_pool na_block_pool bp_with_pool bp_pool].
  rewrite list_insert_insert_eq. eexists _, (nb_with_id b1 (Some x)). split; [reflexivity|]. done.
Qed.

Lemma swap_in_cpu c i L X b x rest :
  store_inv c (i :: L) X -> obj c i = Some b -> nb_block_id b = None -> len (nb_token_ids b) <= bsize c ->
  free_list c CPU = x :: rest ->
  ∃ c', swap_in_one CPU (Blk GPU i) c = Ok c' ∧ moved c c' CPU i x b L X.
Proof.
  intros H Hb Hid Hl Hf. rewrite (swap_in_one_eq _ _ _ _ (get_block_gpu _ _ _ Hb)).
  unfold allocate_immutable_block, allocate_mutable_block.
  destruct (store_take c (i :: L) X CPU x rest H Hf) as (a & E1 & H1 & Hs & Hr & Hc1 & Ho1 & Hx & Hu & Hall).
  rewrite E1. cbn [mbind result_bind fst snd]. set (c1 := with_alloc c CPU a) in *.
  assert (Eu : uses c (i :: L) = uses c L) by (rewrite (uses_cons_obj _ _ _ _ Hb); unfold ids1; by rewrite Hid).
  rewrite Eu in Hu.
  assert (Ea : na_block_size a = bsize c) by (rewrite (proj1 (proj2 Hs)); apply (sv_sizes _ _ _ H CPU)).
  destruct (init_block_spec (na_block_pool a) [] (nb_prev_block b) [] (na_block_size a) (Some x)) as (t & p & E2 & _ & Hp & Hsz & Hn & _).
  { exact (sv_cpool _ _ _ H1). } { apply (sv_some _ _ _ H1 CPU). intros Hnil. cbn in Hnil.
    rewrite (proj1 Hs) in Hnil. set_solver. } { rewrite Ea. pose proof (sv_bs _ _ _ H). cbn. lia. }
  rewrite E2. cbn [mbind result_bind fst snd]. rewrite Ea in Hn.
  set (c2 := with_alloc c CPU (na_with_pool a p)).
  assert (Hrc : na_refcounts a !! x = Some 1).
  { pose proof (do_rc _ _ (sv_dev _ _ _ H1 CPU) x) as Hrc. cbn [alloc_of c1 with_alloc cg_cpu] in Hrc. rewrite Hrc.
    rewrite decide_True by (by rewrite (proj1 Hs)). rewrite (uses_frame c), Eu by (intros; apply Ho1). cbn [app].
    rewrite occ_cons_eq, (proj2 (occ_0 x (X ++ uses c L))); [done|]. by apply not_elem_of_app. }
  destruct (append_tmp_cpu c2 t _ x (nb_token_ids b) Hn eq_refl) as (p3 & b3 & E3 & Ep3 & Hb3).
  { exact Hrc. } { unfold num_empty_slots. cbn. lia. }
  rewrite E3. cbn [mbind result_bind]. pose proof (lookup_lt_Some _ _ _ Hn) as Hlt.
  assert (Hg3 : bp_pool p3 !! t = Some b3) by (rewrite Ep3; cbn; by rewrite list_lookup_insert_eq).
  cbn [get_block alloc_of with_alloc cg_cpu na_with_pool na_block_pool c2]. rewrite Hg3.
  cbn [or_raise mbind result_bind set_block alloc_of cg_cpu na_block_pool free_block].
  set (p4 := bp_with_free _ _).
  assert (Hp4 : pool_ok p4 [] ∧ (0 < bp_pool_size p4)%nat).
  { destruct Hp as [K1 K2 K3]. unfold p4. rewrite Ep3. cbn. split; [split; cbn; rewrite ?length_insert; done|done]. }
  destruct Hp4 as [Hp4 Hsz4].
  destruct (store_cpool c1 (i :: L) (x :: X) p4 H1 Hp4 Hsz4) as (H5 & Ho5 & Hc5).
  match goal with |- context [set_block_id ?cc _ _] => change cc with (with_alloc c1 CPU (na_with_pool (cg_cpu c1) p4)) end.
  set (c5 := with_alloc c1 CPU _) in *.
  assert (Hb5 : obj c5 i = Some b) by (rewrite Ho5, Ho1; done).
  unfold set_block_id. rewrite (get_block_gpu _ _ _ Hb5). cbn [mbind result_bind]. rewrite set_block_gpu, Hb3.
  destruct (store_put c5 L (x :: X) X i b (nb_with_id b (Some x)) H5 Hb5) as (H6 & Ho6 & Hf6 & Hc6).
  { unfold ids1. rewrite Hid. cbn. rewrite app_nil_r. apply Permutation_cons_append. }
  destruct (store_fresh _ _ _ _ H) as [Hi _].
  eexists. split; [reflexivity|]. split; try done.
  - intros j Hj. rewrite Hf6 by (by intros ->). rewrite Ho5. apply Ho1.
  - etrans; [exact Hc1|]. etrans; [exact Hc5|exact Hc6].
  - rewrite Hf. cbn. by rewrite Hr.
  - by intros [] Hd.
  - by apply not_elem_of_app.
Qed.

Lemma swap_in_one_spec c d i L X b x rest :
  store_inv c (i :: L) X -> obj c i = Some b -> nb_block_id b = None -> len (nb_token_ids b) <= bsize c ->
  free_list c d = x :: rest ->
  ∃ c', swap_in_one d (Blk GPU i) c = Ok c' ∧ moved c c' d i x b L X.
Proof. destruct d; [apply swap_in_cpu|apply swap_in_gpu]. Qed.
