(* ===== verification/BlockTables.v ===== *)
(** * Block tables hold their tokens

    [holds c t ts]: the blocks of table [t] are live objects that store the tokens
    [ts] in order, block by block, are linked through [prev_block], and have the
    physical ids the table lists. *)

From stdpp Require Import base tactics list gmap sets strings.
From Stdlib Require Import ZArith QArith Lia.
From S2P Require Import Prelude.
From S2P Require Import V0Sequence.
From S2P Require Import NaiveBlocks.
From S2P Require Import BlockStore.
From S2P Require Import BlockManager.

Local Open Scope Z_scope.

Definition slot_of (r : bref) : option nat := match r with Blk GPU i => Some i | _ => None end.
Definition slots (t : BlockTable) : list nat := omap slot_of (bt_blocks t).

(** The tokens of block [k]. *)
Definition piece (bs : Z) (ts : list Z) (k : nat) : list Z := take (Z.to_nat bs) (drop (k * Z.to_nat bs) ts).
Definition prev_of (blocks : list bref) (k : nat) : option bref := match k with O => None | S k => blocks !! k end.

Record holds (c : CpuGpuBlockAllocator) (t : BlockTable) (ts : list Z) : Prop := {
  hd_size : bt_block_size t = bsize c;
  hd_window : bt_max_block_sliding_window t = None;
  hd_blocks : bt_blocks t = Blk GPU <$> slots t;
  hd_ids : length (bt_block_ids t) = length (slots t);
  hd_fit : len ts <= len (slots t) * bsize c;
  hd_obj : ∀ k i, slots t !! k = Some i -> ∃ x, bt_block_ids t !! k = Some x ∧
    obj c i = Some (mkNaiveBlock (piece (bsize c) ts k) (bsize c) (prev_of (bt_blocks t) k) (Some x));
}.

(** The physical blocks of a table are on one device. *)
Definition on (c : CpuGpuBlockAllocator) (d : Device) (t : BlockTable) : Prop := ∀ x, x ∈ bt_block_ids t -> x ∈ all c d.

(** Objects with the same physical block store the same tokens. *)
Definition share_ok (c : CpuGpuBlockAllocator) (L : list nat) : Prop :=
  ∀ i j x y id, i ∈ L -> j ∈ L -> obj c i = Some x -> obj c j = Some y ->
    nb_block_id x = Some id -> nb_block_id y = Some id -> nb_token_ids x = nb_token_ids y.

Lemma slots_fmap (l : list nat) : omap slot_of (Blk GPU <$> l) = l.
Proof. induction l as [|i l IH]; [done|]. cbn. f_equal. exact IH. Qed.

Lemma holds_frame c c' t ts :
  (∀ i, i ∈ slots t -> obj c' i = obj c i) -> same_cfg c c' -> holds c t ts -> holds c' t ts.
Proof.
  intros Hf (Hc & _ & _) [H1 H2 H3 H4 H5 H6]. destruct (Hc GPU) as [_ Eb]. cbn [alloc_of] in Eb.
  split; rewrite ?Eb; try done. intros k i Hi. destruct (H6 k i Hi) as (x & ? & Ho). exists x. split; [done|].
  rewrite Hf; [done|]. by eapply list_elem_of_lookup_2.
Qed.

Lemma holds_uses c t ts : holds c t ts -> uses c (slots t) = bt_block_ids t.
Proof.
  intros [_ _ _ Hl _ Hobj]. assert (∀ sl ids, length ids = length sl -> (∀ k i, sl !! k = Some i -> ∃ x, ids !! k = Some x ∧
    obj c i ≫= nb_block_id = Some x) -> uses c sl = ids) as Hgen.
  { induction sl as [|i sl IH]; intros [|x ids] Hlen Ho; [done..|]. destruct (Ho 0%nat i eq_refl) as (y & [= <-] & Hy).
    rewrite uses_cons, Hy. cbn. f_equal. apply IH; [by injection Hlen|]. intros k j Hk. exact (Ho (S k) j Hk). }
  apply Hgen; [done|]. intros k i Hi. destruct (Hobj k i Hi) as (x & Hx & Ho). exists x. by rewrite Ho.
Qed.

Lemma uses_app c L L' : uses c (L ++ L') = uses c L ++ uses c L'.
Proof. apply omap_app. Qed.

Lemma share_fresh c c' i L b :
  (∀ j, j ∈ L -> obj c' j = obj c j) -> share_ok c L -> obj c' i = Some b ->
  (∀ x, nb_block_id b = Some x -> x ∉ uses c L) -> share_ok c' (i :: L).
Proof.
  intros Hf Hs Hb Hx.
  assert (Hone : ∀ j y id, j ∈ L -> obj c' j = Some y -> nb_block_id b = Some id -> nb_block_id y = Some id -> False).
  { intros j y id Hj Hy E1 E2. apply (Hx id E1), elem_of_uses. exists j, y. by rewrite <-Hf. }
  intros j1 j2 x y id [->|H1]%elem_of_cons [->|H2]%elem_of_cons E1 E2 I1 I2.
  - congruence.
  - rewrite Hb in E1. injection E1 as <-. by destruct (Hone j2 y id).
  - rewrite Hb in E2. injection E2 as <-. by destruct (Hone j1 x id).
  - apply (Hs j1 j2 x y id); [done|done|by rewrite <-Hf|by rewrite <-Hf|done..].
Qed.

(** Objects with physical blocks of their own share with nobody. *)
Lemma share_app c L sl ids :
  share_ok c L -> length sl = length ids -> NoDup ids -> (∀ x, x ∈ ids -> x ∉ uses c L) ->
  (∀ k i x, sl !! k = Some i -> ids !! k = Some x -> ∃ b, obj c i = Some b ∧ nb_block_id b = Some x) ->
  share_ok c (sl ++ L).
Proof.
  intros Hs Hlen Hnd Hnew Hobj.
  assert (Hid : ∀ i b id, i ∈ sl -> obj c i = Some b -> nb_block_id b = Some id -> ∃ k, sl !! k = Some i ∧ ids !! k = Some id).
  { intros i b id [k Hk]%list_elem_of_lookup Hb Hid. destruct (lookup_lt_is_Some_2 ids k) as [x Hx]; [rewrite <-Hlen; by eapply lookup_lt_Some|].
    destruct (Hobj k i x Hk Hx) as (b' & Hb' & Hx'). exists k. split; [done|]. congruence. }
  assert (Hcross : ∀ i j x y id, i ∈ sl -> j ∈ L -> obj c i = Some x -> obj c j = Some y ->
    nb_block_id x = Some id -> nb_block_id y = Some id -> False).
  { intros i j x y id Hi Hj Ex Ey Ix Iy. destruct (Hid i x id Hi Ex Ix) as (k & _ & Hk). apply (Hnew id).
    - by eapply list_elem_of_lookup_2.
    - apply elem_of_uses. eauto. }
  intros i j x y id [Hi|Hi]%elem_of_app [Hj|Hj]%elem_of_app Ex Ey Ix Iy.
  - destruct (Hid i x id Hi Ex Ix) as (k & Hk & Hk1), (Hid j y id Hj Ey Iy) as (k' & Hk' & Hk1').
    assert (k = k') as <- by (by eapply NoDup_lookup). congruence.
  - by destruct (Hcross i j x y id).
  - by destruct (Hcross j i y x id).
  - by apply (Hs i j x y id).
Qed.

Lemma share_perm c L L' : L ≡ₚ L' -> share_ok c L -> share_ok c L'.
Proof. intros Hp H i j x y id Hi Hj. apply H; by rewrite Hp. Qed.

Lemma share_frame c c' L : (∀ j, j ∈ L -> obj c' j = obj c j) -> share_ok c L -> share_ok c' L.
Proof. intros Hf H i j x y id Hi Hj. rewrite !Hf by done. by apply H. Qed.

(** A piece is short, empty past the end, and only the last one changes when tokens
    are appended to it. *)
Lemma piece_len bs ts k : 0 < bs -> len (piece bs ts k) = Z.max 0 (Z.min bs (len ts - Z.of_nat k * bs)).
Proof. intros Hb. unfold piece. rewrite length_take, length_drop. nia. Qed.

Lemma piece_nil bs ts k : 0 < bs -> len ts <= Z.of_nat k * bs -> piece bs ts k = [].
Proof. intros Hb Hl. unfold piece. rewrite drop_ge; [by rewrite take_nil|nia]. Qed.

Lemma piece_app_eq bs ts us k :
  0 < bs -> Z.of_nat k * bs <= len ts -> len ts + len us <= (Z.of_nat k + 1) * bs -> piece bs (ts ++ us) k = piece bs ts k ++ us.
Proof.
  intros Hb H1 H2. unfold piece. rewrite drop_app_le by nia.
  rewrite take_ge by (rewrite length_app, length_drop; nia). rewrite (take_ge (drop _ ts)) by (rewrite length_drop; nia). done.
Qed.

Lemma piece_app_ne bs ts us k k' :
  0 < bs -> Z.of_nat k * bs <= len ts -> len ts + len us <= (Z.of_nat k + 1) * bs -> k' ≠ k -> piece bs (ts ++ us) k' = piece bs ts k'.
Proof.
  intros Hb H1 H2 Hk. destruct (decide (k' < k)%nat).
  - unfold piece. rewrite drop_app_le by nia. rewrite take_app_le; [done|]. rewrite length_drop. nia.
  - rewrite !piece_nil; [done|done|nia|done|rewrite length_app; nia].
Qed.

Lemma piece_prefix bs ts us k : (k * Z.to_nat bs + Z.to_nat bs <= length ts)%nat -> piece bs (ts ++ us) k = piece bs ts k.
Proof.
  intros H. unfold piece. rewrite drop_app_le by lia. rewrite take_app_le; [done|]. rewrite length_drop. lia.
Qed.

(** ** Growing a table by empty blocks *)

(** What an operation on table [t] leaves alone: the other live objects [L], the CPU
    and the configuration. *)
Record table_step (c : CpuGpuBlockAllocator) (t : BlockTable) (c' : CpuGpuBlockAllocator) (t' : BlockTable) (ts' : list Z)
    (L : list nat) : Prop := {
  tp_inv : store_inv c' (slots t' ++ L) [];
  tp_share : share_ok c' (slots t' ++ L);
  tp_holds : holds c' t' ts';
  tp_on : on c' GPU t';
  tp_frame : ∀ j, j ∈ L -> obj c' j = obj c j;
  tp_cfg : same_cfg c c';
  tp_gpu : only_gpu c c';
  tp_slots : bt_num_full_slots t' = bt_num_full_slots t;
}.

Lemma table_step_trans c t c1 t1 ts1 c2 t2 ts2 L :
  table_step c t c1 t1 ts1 L -> table_step c1 t1 c2 t2 ts2 L -> table_step c t c2 t2 ts2 L.
Proof.
  intros [A1 A2 A3 A4 A5 A6 A7 A8] [B1 B2 B3 B4 B5 B6 B7 B8]. split; try done.
  - intros j Hj. rewrite B5 by done. by apply A5.
  - by etrans.
  - unfold only_gpu in *. congruence.
  - congruence.
Qed.

Lemma table_step_refl c t ts L :
  store_inv c (slots t ++ L) [] -> share_ok c (slots t ++ L) -> holds c t ts -> on c GPU t -> table_step c t c t ts L.
Proof. by split. Qed.

Lemma last_slots c t ts : holds c t ts -> slots t ≠ [] ->
  last (bt_blocks t) = prev_of (bt_blocks t) (length (slots t)) ∧ is_Some (last (bt_blocks t)).
Proof.
  intros H Hne. rewrite (hd_blocks _ _ _ H). destruct (slots t) as [|i sl] using rev_ind; [done|].
  rewrite fmap_app, length_app. cbn [fmap list_fmap length]. rewrite last_snoc. replace (length sl + 1)%nat with (S (length sl)) by lia.
  cbn [prev_of]. rewrite lookup_app_r by (by rewrite length_fmap). rewrite length_fmap, Nat.sub_diag. done.
Qed.

Lemma slots_app t blocks ids : slots (bt_with t (bt_blocks t ++ blocks) ids) = slots t ++ omap slot_of blocks.
Proof. unfold slots. cbn. apply omap_app. Qed.

Lemma grow_spec c t ts L x rest prev :
  table_step c t c t ts L -> free_list c GPU = x :: rest -> prev_of (bt_blocks t) (length (slots t)) = prev ->
  ∃ c' i, let t' := bt_with t (bt_blocks t ++ [Blk GPU i]) (bt_block_ids t ++ [x]) in
    allocate_mutable_block c GPU prev = Ok (Blk GPU i, c') ∧ bl_append c' t (Blk GPU i) = Ok t' ∧
    table_step c t c' t' ts L ∧ length (slots t') = S (length (slots t)) ∧ free_list c' GPU = rest ∧
    cows c' = cows c ∧ x ∉ bt_block_ids t ++ uses c L.
Proof.
  intros [A1 A2 A3 A4 _ _ _ _] Hf Hprev.
  destruct (allocate_mutable_spec c (slots t ++ L) [] prev x rest A1 Hf)
    as (c' & i & E & Hi & Hni & Ho & Hfr & Hc & Hg & Hw & Hfl & Hall & Hnew).
  cbn [app] in Hnew. rewrite uses_app, (holds_uses _ _ _ A3) in Hnew. exists c', i. cbv zeta. split; [done|].
  split; [unfold bl_append; by rewrite (get_block_gpu _ _ _ Ho)|].
  set (t' := bt_with _ _ _). assert (Es : slots t' = slots t ++ [i]) by apply slots_app.
  assert (Hfr' : ∀ j, j ∈ slots t -> obj c' j = obj c j) by (intros j Hj; apply Hfr, elem_of_app; by left).
  assert (HP : i :: slots t ++ L ≡ₚ (slots t ++ [i]) ++ L) by (rewrite (Permutation_app_comm (slots t) [i]); done).
  split; [|split_and!; [rewrite Es, length_app; cbn; lia|done..]].
  destruct Hc as (Hcd & Hc2). destruct (Hcd GPU) as [Eall Eb]. cbn [alloc_of] in Eb.
  destruct A3 as [H1 H2 H3 H4 H5 H6]. pose proof (sv_bs _ _ _ A1) as Hbs.
  split; try done.
  - rewrite Es. by eapply store_perm, Hi.
  - rewrite Es. apply (share_perm _ _ _ HP). eapply (share_fresh c); [exact Hfr|exact A2|exact Ho|].
    cbn. intros y [= <-]. rewrite uses_app, (holds_uses c t ts) by (by split). done.
  - split; rewrite ?Eb, ?Es; try done; cbn [t' bt_with bt_blocks bt_block_ids].
    + rewrite fmap_app, <-H3. done.
    + rewrite !length_app. cbn [length]. lia.
    + rewrite length_app. cbn [length]. nia.
    + intros k j Hk. destruct (decide (k < length (slots t))%nat) as [Hlt|Hge].
      * rewrite lookup_app_l in Hk by done. destruct (H6 k j Hk) as (y & Hy & Hob). exists y.
        rewrite lookup_app_l by lia. split; [done|]. rewrite Hfr' by (by eapply list_elem_of_lookup_2). rewrite Hob. do 2 f_equal.
        destruct k; [done|]. cbn. rewrite lookup_app_l; [done|]. rewrite H3, length_fmap. lia.
      * apply lookup_app_Some in Hk as [?%lookup_lt_Some|[_ Hk]]; [lia|].
        assert (k = length (slots t)) as ->. { apply lookup_lt_Some in Hk. cbn in Hk. lia. }
        rewrite Nat.sub_diag in Hk. injection Hk as <-. exists x. rewrite <-H4 at 1. split; [by rewrite lookup_app_r, Nat.sub_diag by lia|].
        rewrite Ho. do 2 f_equal; [symmetry; apply piece_nil; lia|]. rewrite <-Hprev. destruct (length (slots t)) eqn:El; [done|].
        cbn. rewrite lookup_app_l; [done|]. rewrite H3, length_fmap. lia.
  - intros y. cbn [t' bt_with bt_block_ids]. rewrite Eall. intros [Hy|Hy%list_elem_of_singleton]%elem_of_app; [by apply A4|by subst].
  - intros j Hj. apply Hfr, elem_of_app. by right.
Qed.

Lemma allocate_tail_spec n c t ts L :
  table_step c t c t ts L -> slots t ≠ [] -> (n <= length (free_list c GPU))%nat ->
  ∃ c' t' new, allocate_tail n c t = Ok (c', t') ∧ table_step c t c' t' ts L ∧
    bt_block_ids t' = bt_block_ids t ++ new ∧ length new = n ∧ length (slots t') = (length (slots t) + n)%nat ∧
    free_list c' GPU = drop n (free_list c GPU) ∧ cows c' = cows c ∧
    (∀ x, x ∈ new -> occ x (bt_block_ids t' ++ uses c L) = 1).
Proof.
  revert c t. induction n as [|n IH]; intros c t Hst Hne Hn.
  - exists c, t, []. rewrite app_nil_r. split_and!; try done; try lia. intros x Hx. by apply elem_of_nil in Hx.
  - destruct (free_list c GPU) as [|x rest] eqn:Hf; [cbn in Hn; lia|].
    destruct (last_slots c t ts (tp_holds _ _ _ _ _ _ Hst) Hne) as [El [r Hr]].
    destruct (grow_spec c t ts L x rest (Some r) Hst Hf) as (c1 & i & E1 & E2 & H1 & Hl1 & Hf1 & Hw1 & Hx); [congruence|].
    set (t1 := bt_with _ _ _) in *. cbn [allocate_tail]. rewrite Hr. cbn [or_raise mbind result_bind].
    rewrite E1. cbn [mbind result_bind fst snd]. rewrite E2. cbn [mbind result_bind].
    assert (Hst1 : table_step c1 t1 c1 t1 ts L) by (destruct H1; by apply table_step_refl).
    destruct (IH c1 t1 Hst1) as (c2 & t2 & new & E3 & H2 & Hids & Hlen & Hsl & Hf2 & Hw2 & Hocc).
    { intros Es. rewrite Es in Hl1. done. } { rewrite Hf1. cbn in Hn. lia. }
    assert (Hu : uses c1 L = uses c L) by (apply uses_frame, (tp_frame _ _ _ _ _ _ H1)).
    assert (HuL : ∀ y, y ∈ new -> y ≠ x).
    { intros y Hy ->. specialize (Hocc x Hy). rewrite Hids in Hocc. cbn [t1 bt_with bt_block_ids] in Hocc.
      rewrite !occ_app, occ_cons_eq in Hocc. pose proof (occ_pos x new Hy). pose proof (occ_nonneg x (bt_block_ids t)).
      pose proof (occ_nonneg x (uses c1 L)). cbn [occ] in Hocc. lia. }
    exists c2, t2, (x :: new). split; [exact E3|]. split; [by eapply table_step_trans|].
    rewrite Hids. cbn [t1 bt_with bt_block_ids]. rewrite <-app_assoc. split_and!; [done|cbn; lia|lia|by rewrite Hf2, Hf1|congruence|].
    intros y Hy. apply elem_of_cons in Hy as [->|Hy].
    + apply not_elem_of_app in Hx as [Hx1 Hx2]. rewrite !occ_app. rewrite occ_cons_eq. cbn [occ].
      apply occ_0 in Hx1, Hx2. assert (x ∉ new) as Hx3%occ_0 by (intros Hin; by destruct (HuL x Hin)). lia.
    + specialize (Hocc y Hy). rewrite Hids, Hu in Hocc. cbn [t1 bt_with bt_block_ids] in Hocc.
      rewrite <-!app_assoc in Hocc. by rewrite <-!app_assoc.
Qed.

(** ** Appending to the last blocks *)

Lemma uses_delete c t ts L k i x :
  holds c t ts -> slots t !! k = Some i -> bt_block_ids t !! k = Some x ->
  uses c (delete k (slots t) ++ L) = delete k (bt_block_ids t) ++ uses c L.
Proof.
  intros H Hk Hx. rewrite uses_app. f_equal. pose proof (holds_uses _ _ _ H) as Hu.
  destruct (hd_obj _ _ _ H k i Hk) as (y & Hy & Ho). rewrite Hx in Hy. injection Hy as <-.
  rewrite <-(take_drop_middle _ _ _ Hk) in Hu. rewrite uses_app, (uses_cons_obj _ _ _ _ Ho) in Hu. cbn in Hu.
  assert (Hlen : length (uses c (take k (slots t))) = k).
  { assert (Hlt := lookup_lt_Some _ _ _ Hk).
    unfold uses.
    assert (∀ sl, (∀ i, i ∈ sl -> is_Some (obj c i ≫= nb_block_id)) -> length (omap (fun i => obj c i ≫= nb_block_id) sl) = length sl) as Hg.
    { induction sl as [|j sl IH]; intros Hs; [done|]. cbn. destruct (Hs j) as [z ->]; [by left|]. cbn. f_equal. apply IH.
      intros j' Hj'. apply Hs. by right. }
    rewrite Hg, length_take; [lia|]. intros j [k' Hj]%list_elem_of_lookup. apply lookup_take_Some in Hj as [Hj _].
    destruct (hd_obj _ _ _ H k' j Hj) as (z & _ & ->). by eexists. }
  rewrite <-Hu, (delete_take_drop (slots t)), (delete_take_drop (uses c _ ++ _)), uses_app. f_equal.
  - by rewrite take_app_length'.
  - rewrite drop_app, Hlen. rewrite (drop_ge (uses c _)) by lia. replace (S k - k)%nat with 1%nat by lia. done.
Qed.

Lemma bl_append_spec c t ts us L k i x :
  table_step c t c t ts L -> slots t !! k = Some i -> bt_block_ids t !! k = Some x ->
  Z.of_nat k * bsize c <= len ts -> len ts + len us <= (Z.of_nat k + 1) * bsize c ->
  (x ∈ delete k (bt_block_ids t) ++ uses c L -> free_list c GPU ≠ []) ->
  ∃ c' t' x', bl_append_token_ids c t k us = Ok (c', t') ∧ table_step c t c' t' (ts ++ us) L ∧
    t' = bt_with t (bt_blocks t) (<[k := x']> (bt_block_ids t)) ∧
    appended c c' i x x' (delete k (bt_block_ids t) ++ uses c L).
Proof.
  intros [A1 A2 A3 A4 _ _ _ _] Hk Hx Hlo Hhi Hfree. pose proof (sv_bs _ _ _ A1) as Hbs.
  set (R := delete k (slots t) ++ L). assert (HP : i :: R ≡ₚ slots t ++ L).
  { unfold R. rewrite app_comm_cons. apply Permutation_app_tail. symmetry. by apply delete_Permutation. }
  pose proof (uses_delete c t ts L k i x A3 Hk Hx) as Hu. fold R in Hu.
  destruct (hd_obj _ _ _ A3 k i Hk) as (y & Hy & Ho). rewrite Hx in Hy. injection Hy as <-.
  assert (A1' : store_inv c (i :: R) []) by (by eapply store_perm, A1).
  destruct (append_token_ids_spec c i R [] _ x us A1' Ho eq_refl) as (c' & x' & E & H1 & Ho' & Hap).
  { apply A4. by eapply list_elem_of_lookup_2. }
  { unfold num_empty_slots. cbn [nb_token_ids nb_block_size]. rewrite piece_len by done. lia. }
  { cbn [app]. by rewrite Hu. }
  cbn [app nb_token_ids nb_block_size nb_prev_block] in Ho', Hap. rewrite Hu in Hap.
  rewrite <-piece_app_eq in Ho' by done. destruct (store_fresh _ _ _ _ A1') as [HiR _].
  assert (HfR : ∀ j, j ∈ R -> obj c' j = obj c j) by (intros j Hj; apply (ap_frame _ _ _ _ _ _ Hap); by intros ->).
  set (t' := bt_with t (bt_blocks t) (<[k := x']> (bt_block_ids t))).
  assert (Es : slots t' = slots t) by done. assert (Hlt := lookup_lt_Some _ _ _ Hx).
  assert (Hk' : ∀ k' j, slots t !! k' = Some j -> k' ≠ k -> j ∈ R).
  { intros k' j Hj Hne. unfold R. apply elem_of_app. left. apply list_elem_of_lookup.
    destruct (decide (k' < k)%nat); [exists k'; by rewrite list_lookup_delete_lt|].
    exists (pred k'). rewrite list_lookup_delete_ge by lia. by replace (S (pred k')) with k' by lia. }
  exists c', t', x'. split; [|split; [|done]].
  - assert (Er : bt_blocks t !! k = Some (Blk GPU i)) by (rewrite (hd_blocks _ _ _ A3), list_lookup_fmap, Hk; done).
    unfold bl_append_token_ids. rewrite Er. cbn [or_raise mbind result_bind].
    rewrite (get_block_gpu _ _ _ Ho). cbn [mbind result_bind]. rewrite E. cbn [mbind result_bind].
    rewrite (get_block_gpu _ _ _ Ho'). cbn [mbind result_bind nb_block_id or_raise]. case_decide as Ex; [|done].
    injection Ex as <-. unfold t'. rewrite list_insert_id by done. by destruct t.
  - pose proof (ap_cfg _ _ _ _ _ _ Hap) as Hcfg. destruct (proj1 Hcfg GPU) as [Eall Eb]. cbn [alloc_of] in Eb.
    split; try done.
    + rewrite Es. by eapply store_perm, H1.
    + rewrite Es. apply (share_perm _ _ _ HP). eapply (share_fresh c); [exact HfR| |exact Ho'|].
      * intros j1 j2 z1 z2 id Hj1 Hj2. apply A2; rewrite <-HP; by right.
      * cbn. intros z [= <-]. rewrite Hu. apply Hap.
    + destruct A3 as [K1 K2 K3 K4 K5 K6]. split; rewrite ?Eb, ?Es; try done.
      * cbn. by rewrite length_insert.
      * rewrite length_app. apply lookup_lt_Some in Hk. nia.
      * intros k' j Hj. destruct (decide (k' = k)) as [->|Hne].
        { rewrite Hk in Hj. injection Hj as <-. exists x'. cbn. by rewrite list_lookup_insert_eq. }
        destruct (K6 k' j Hj) as (z & Hz & Hob). exists z. cbn. rewrite list_lookup_insert_ne by done. split; [done|].
        rewrite HfR by (by eapply Hk'). rewrite Hob. by rewrite (piece_app_ne (bsize c) ts us k k').
    + intros z. cbn [t' bt_with bt_block_ids]. rewrite Eall. intros [k' Hz]%list_elem_of_lookup.
      apply list_lookup_insert_Some in Hz as [(_ & <- & _)|[_ Hz]]; [apply Hap|]. apply A4. by eapply list_elem_of_lookup_2.
    + intros j Hj. apply HfR. unfold R. apply elem_of_app. by right.
    + apply Hap.
Qed.

Lemma occ_delete (y : nat) l k x : l !! k = Some x -> occ y l = (if decide (y = x) then 1 else 0) + occ y (delete k l).
Proof. intros Hk. rewrite (occ_Permutation y _ _ (delete_Permutation _ _ _ Hk)). done. Qed.

Lemma occ_one_NoDup (l : list nat) : (∀ x, x ∈ l -> occ x l <= 1) -> NoDup l.
Proof.
  intros H. apply NoDup_alt. intros i j x Hi Hj. destruct (decide (i = j)) as [|Hne]; [done|].
  specialize (H x (list_elem_of_lookup_2 _ _ _ Hi)). rewrite (occ_delete x l i x Hi), decide_True in H by done.
  assert (Hin : x ∈ delete i l).
  { apply list_elem_of_lookup. destruct (decide (j < i)%nat); [exists j; by rewrite list_lookup_delete_lt|].
    exists (pred j). rewrite list_lookup_delete_ge by lia. by replace (S (pred j)) with j by lia. }
  pose proof (occ_pos x _ Hin). lia.
Qed.

Lemma list_delete_insert_eq (l : list nat) k x : delete k (<[k := x]> l) = delete k l.
Proof.
  destruct (decide (k < length l)%nat) as [Hk|Hk]; [|by rewrite list_insert_ge by lia].
  rewrite !delete_take_drop. by rewrite take_insert_ge, drop_insert_lt by lia.
Qed.

Lemma lookup_delete_elem (l : list nat) k k' y : l !! k' = Some y -> k' ≠ k -> y ∈ delete k l.
Proof.
  intros Hy Hne. apply list_elem_of_lookup. destruct (decide (k' < k)%nat); [exists k'; by rewrite list_lookup_delete_lt|].
  exists (pred k'). rewrite list_lookup_delete_ge by lia. by replace (S (pred k')) with k' by lia.
Qed.

(** Replacing a physical block by one that nobody else uses keeps the others'
    counts. *)
Lemma excl_step (ids U : list nat) k x x' :
  ids !! k = Some x -> x' ∉ delete k ids ++ U -> ∀ k' y, <[k := x']> ids !! k' = Some y ->
  (k' ≠ k -> occ y (ids ++ U) = 1) -> occ y (<[k := x']> ids ++ U) = 1.
Proof.
  intros Hx Hnew k' y Hy Hex. pose proof (lookup_lt_Some _ _ _ Hx) as Hlt.
  assert (Ho : ∀ z, occ z (<[k := x']> ids ++ U) = (if decide (z = x') then 1 else 0) + occ z (delete k ids ++ U)).
  { intros z. rewrite !occ_app, (occ_delete z _ k x'), list_delete_insert_eq by (by apply list_lookup_insert_eq). lia. }
  rewrite Ho. destruct (decide (k' = k)) as [->|Hne].
  - rewrite list_lookup_insert_eq in Hy by done. injection Hy as <-. rewrite decide_True by done. apply occ_0 in Hnew. lia.
  - rewrite list_lookup_insert_ne in Hy by done. specialize (Hex Hne).
    pose proof (lookup_delete_elem ids k k' y Hy Hne) as Hin.
    rewrite decide_False by (intros ->; apply Hnew, elem_of_app; by left).
    rewrite occ_app, (occ_delete y _ k x Hx) in Hex. rewrite occ_app. pose proof (occ_pos _ _ Hin).
    pose proof (occ_nonneg y U). case_decide; lia.
Qed.

Lemma shared_occ (ids U : list nat) k x : ids !! k = Some x -> (x ∈ delete k ids ++ U <-> occ x (ids ++ U) ≠ 1).
Proof.
  intros Hx. rewrite occ_app, (occ_delete x _ k x Hx), decide_True by done. rewrite <-Z.add_assoc, <-occ_app.
  split; [intros H%occ_pos; lia|]. intros H. destruct (decide (x ∈ delete k ids ++ U)) as [|Hn%occ_0]; [done|lia].
Qed.

(** The chunks go to consecutive blocks from [k] on, and each has room there. *)
Fixpoint chunks_fit (bs n : Z) (k : nat) (cs : list (list Z)) : Prop :=
  match cs with
  | [] => True
  | u :: cs => Z.of_nat k * bs <= n ∧ n + len u <= (Z.of_nat k + 1) * bs ∧ chunks_fit bs (n + len u) (S k) cs
  end.

(** How the ids of a table change when tokens go to the blocks [k .. k + n): each of
    them ends up with a physical block of its own, and the copies are recorded. *)
Record ids_written (U ids ids' : list nat) (k n : nat) (ps : list (nat * nat)) : Prop := {
  iw_len : length ids' = length ids;
  iw_same : ∀ k', ¬ (k <= k' < k + n)%nat -> ids' !! k' = ids !! k';
  iw_excl : ∀ k' y, (k <= k' < k + n)%nat -> ids' !! k' = Some y -> occ y (ids' ++ U) = 1;
  iw_keep : ∀ k' y, ids' !! k' = Some y -> ¬ (k <= k' < k + n)%nat -> occ y (ids ++ U) = 1 -> occ y (ids' ++ U) = 1;
  iw_copied : ∀ k' x x', ids !! k' = Some x -> ids' !! k' = Some x' -> x' = x ∨ (x, x') ∈ ps;
  iw_copies : ∀ x x', (x, x') ∈ ps -> ∃ k', ids !! k' = Some x ∧ ids' !! k' = Some x' ∧ (k <= k' < k + n)%nat ∧
    x ≠ x' ∧ occ x (ids ++ U) ≠ 1;
}.

Lemma ids_written_nil U ids k : ids_written U ids ids k 0 [].
Proof.
  split; try done; try lia.
  - intros k' x x' H1 H2. left. congruence.
  - intros x x' Hx. by apply elem_of_nil in Hx.
Qed.

Lemma ids_written_step U ids ids' k n x x' ps qs :
  ids !! k = Some x -> x' ∉ delete k ids ++ U -> (x' = x ∧ qs = [] ∨ x ∈ delete k ids ++ U ∧ qs = [(x, x')]) ->
  ids_written U (<[k := x']> ids) ids' (S k) n ps -> ids_written U ids ids' k (S n) (qs ++ ps).
Proof.
  intros Hx Hnew Hqs [W1 W2 W3 W4 W5 W6]. pose proof (lookup_lt_Some _ _ _ Hx) as Hlt.
  pose proof (excl_step ids U k x x' Hx Hnew) as Hex.
  assert (Hk : ids' !! k = Some x') by (rewrite W2 by lia; by apply list_lookup_insert_eq).
  split.
  - by rewrite W1, length_insert.
  - intros k' Hk'. rewrite W2 by lia. apply list_lookup_insert_ne. lia.
  - intros k' y Hr Hy. destruct (decide (k' = k)) as [->|Hne]; [|apply (W3 k'); [lia|done]].
    apply (W4 k y Hy ltac:(lia)). apply (Hex k y); [|done]. by rewrite <-Hy, Hk, list_lookup_insert_eq.
  - intros k' y Hy Hr Ho. apply (W4 k' y Hy ltac:(lia)). apply (Hex k' y); [|done]. rewrite <-Hy. symmetry. apply W2. lia.
  - intros k' y y' Hy Hy'. destruct (decide (k' = k)) as [->|Hne].
    + rewrite Hx in Hy. rewrite Hk in Hy'. injection Hy as <-. injection Hy' as <-.
      destruct Hqs as [[-> _]|[_ ->]]; [by left|right]. apply elem_of_app. left. by left.
    + destruct (W5 k' y y') as [|Hin]; [by rewrite list_lookup_insert_ne|done|by left|right]. apply elem_of_app. by right.
  - intros y y' [Hin|Hin]%elem_of_app.
    + destruct Hqs as [[_ ->]|[Hsh ->]]; [by apply elem_of_nil in Hin|]. apply list_elem_of_singleton in Hin as [= -> ->].
      exists k. split_and!; [done|done|lia|lia| |by apply (shared_occ ids U k)]. intros ->. done.
    + destruct (W6 y y' Hin) as (k' & Hy & Hy' & Hr & Hne & Ho). exists k'. rewrite list_lookup_insert_ne in Hy by lia.
      split_and!; [done|done|lia|lia|done|]. intros Ho'. apply Ho, (Hex k' y); [|done]. by rewrite list_lookup_insert_ne by lia.
Qed.

Lemma append_chunks_spec cs : ∀ k c t ts L n_old,
  table_step c t c t ts L -> chunks_fit (bsize c) (len ts) k cs -> (k + length cs <= length (slots t))%nat ->
  (∀ k' x, (n_old <= k')%nat -> bt_block_ids t !! k' = Some x -> occ x (bt_block_ids t ++ uses c L) = 1) ->
  (Nat.min n_old (k + length cs) - k <= length (free_list c GPU))%nat ->
  ∃ c' t' ps, append_chunks k cs c t = Ok (c', t') ∧ table_step c t c' t' (ts ++ concat cs) L ∧ bt_blocks t' = bt_blocks t ∧
    ids_written (uses c L) (bt_block_ids t) (bt_block_ids t') k (length cs) ps ∧ cows c' = cows c ++ ps ∧
    (length (free_list c' GPU) + length ps = length (free_list c GPU))%nat ∧
    (length ps <= Nat.min n_old (k + length cs) - k)%nat.
Proof.
  induction cs as [|u cs IH]; intros k c t ts L n_old Hst Hfit Hlen Hold Hfree.
  - exists c, t, []. cbn [concat]. rewrite !app_nil_r. split_and!; try done; [apply ids_written_nil|cbn; lia..].
  - cbn [chunks_fit length concat append_chunks] in *. destruct Hfit as (F1 & F2 & F3).
    destruct (lookup_lt_is_Some_2 (slots t) k) as [i Hi]; [lia|].
    pose proof (hd_ids _ _ _ (tp_holds _ _ _ _ _ _ Hst)) as Hids.
    destruct (lookup_lt_is_Some_2 (bt_block_ids t) k) as [x Hx]; [lia|].
    pose proof (shared_occ _ (uses c L) _ _ Hx) as Hsh.
    destruct (bl_append_spec c t ts u L k i x Hst Hi Hx F1 F2) as (c1 & t1 & x' & E1 & H1 & Et1 & Hap).
    { intros Hin. apply Hsh in Hin. destruct (decide (n_old <= k)%nat) as [Hge|]; [by destruct Hin; apply (Hold k)|].
      intros Hnil. rewrite Hnil in Hfree. cbn [length] in Hfree. lia. }
    rewrite E1. cbn [mbind result_bind fst snd]. pose proof (ap_new _ _ _ _ _ _ Hap) as Hnew.
    assert (Hst1 : table_step c1 t1 c1 t1 (ts ++ u) L) by (destruct H1; by apply table_step_refl).
    assert (Hu1 : uses c1 L = uses c L) by (apply uses_frame, (tp_frame _ _ _ _ _ _ H1)).
    assert (Eb : bsize c1 = bsize c) by apply (proj1 (ap_cfg _ _ _ _ _ _ Hap) GPU).
    assert (∃ qs, cows c1 = cows c ++ qs ∧ (length (free_list c1 GPU) + length qs = length (free_list c GPU))%nat ∧
      (x' = x ∧ qs = [] ∨ x ∈ delete k (bt_block_ids t) ++ uses c L ∧ qs = [(x, x')])) as (qs & Hw1 & Hf1 & Hqs).
    { destruct (decide (x ∈ delete k (bt_block_ids t) ++ uses c L)) as [Hin|Hin].
      - destruct (ap_copy _ _ _ _ _ _ Hap Hin) as [Ef ->]. exists [(x, x')]. rewrite Ef. cbn [length]. split_and!; [done|lia|by right].
      - destruct (ap_place _ _ _ _ _ _ Hap Hin) as (-> & -> & ->). exists []. rewrite app_nil_r. cbn [length]. split_and!; [done|lia|by left]. }
    assert (Hq1 : (n_old <= k)%nat -> qs = []).
    { intros Hge. destruct Hqs as [[_ ->]|[Hin _]]; [done|]. apply Hsh in Hin. by destruct Hin; apply (Hold k). }
    assert (Hq2 : (length qs <= 1)%nat) by (destruct Hqs as [[_ ->]|[_ ->]]; cbn; lia).
    destruct (IH (S k) c1 t1 (ts ++ u) L n_old Hst1) as (c2 & t2 & ps & E2 & H2 & Hb2 & Hw2 & Hcw2 & Hf2 & Hl2).
    { rewrite Eb, length_app, Nat2Z.inj_add. done. }
    { rewrite Et1. change (slots (bt_with _ _ _)) with (slots t). lia. }
    { intros k' y Hk' Hy. rewrite Et1 in Hy |- *. cbn [bt_with bt_block_ids] in *. rewrite Hu1. apply (excl_step _ _ _ _ _ Hx Hnew k' y Hy).
      intros Hne. rewrite list_lookup_insert_ne in Hy by done. by apply (Hold k'). }
    { destruct (decide (n_old <= k)%nat) as [Hge|]; [rewrite (Hq1 Hge) in Hf1; cbn in Hf1|]; lia. }
    exists c2, t2, (qs ++ ps). rewrite app_assoc. split; [exact E2|]. split; [by eapply table_step_trans|].
    split; [by rewrite Hb2, Et1|]. split.
    { eapply ids_written_step; [exact Hx|exact Hnew|exact Hqs|]. by rewrite Hu1, Et1 in Hw2. }
    split; [by rewrite Hcw2, Hw1, app_assoc|]. rewrite length_app. split; [lia|].
    destruct (decide (n_old <= k)%nat) as [Hge|]; [rewrite (Hq1 Hge); cbn|]; lia.
Qed.
