(* ===== verification/BlockAppend.v ===== *)
(** * Growing, creating, sharing and releasing whole tables

    The operations of [BlockTable] on a table that holds its tokens: appending tokens
    with lookahead slots, allocating a table for a prompt, forking, freeing and moving
    it to the other device. *)

From stdpp Require Import base tactics list gmap sets strings.
From Stdlib Require Import ZArith QArith Lia.
From S2P Require Import Prelude.
From S2P Require Import NaiveBlocks.
From S2P Require Import BlockStore.
From S2P Require Import BlockManager.
From S2P Require Import BlockTables.

Local Open Scope Z_scope.

(** ** Chunks *)

Lemma chunks_concat fuel n l : (0 < n)%nat -> (length l <= fuel)%nat -> concat (chunks fuel n l) = l.
Proof.
  intros Hn. revert l. induction fuel as [|fuel IH]; intros l Hl; [by destruct l; [|cbn in Hl; lia]|].
  destruct l as [|z l]; [done|]. cbn [chunks concat]. rewrite IH; [apply take_drop|]. rewrite length_drop. cbn in *. lia.
Qed.

Lemma chunks_fit_chunks bs fuel k l :
  0 < bs -> (length l <= fuel)%nat -> chunks_fit bs (Z.of_nat k * bs) k (chunks fuel (Z.to_nat bs) l) ∧
  (Z.of_nat (length (chunks fuel (Z.to_nat bs) l)) = cdiv (len l) bs).
Proof.
  intros Hbs. revert k l. induction fuel as [|fuel IH]; intros k l Hl.
  { destruct l; [|cbn in Hl; lia]. split; [done|]. symmetry. apply cdiv_unique; cbn; lia. }
  destruct l as [|z l]; [split; [done|]; symmetry; apply cdiv_unique; cbn; lia|].
  cbn [chunks chunks_fit length]. set (l' := z :: l) in *. assert (Hl' : (0 < length l')%nat) by (cbn; lia).
  change (S (length l)) with (length l').
  destruct (IH (S k) (drop (Z.to_nat bs) l')) as [IH1 IH2]; [rewrite length_drop; lia|].
  rewrite length_drop in IH2. rewrite length_take. destruct (decide (Z.to_nat bs <= length l')%nat) as [Hge|Hlt].
  - split; [split_and!; [lia|lia|]|].
    + replace (Z.of_nat k * bs + Z.of_nat (Z.to_nat bs `min` length l')) with (Z.of_nat (S k) * bs)
        by (rewrite Nat.min_l, Z2Nat.id, Nat2Z.inj_succ by lia; lia). exact IH1.
    + rewrite Nat2Z.inj_succ, IH2. rewrite Nat2Z.inj_sub, Z2Nat.id by lia.
      symmetry. apply cdiv_unique; [done|]. pose proof (cdiv_spec (len l' - bs) bs Hbs). lia.
  - assert (En : chunks fuel (Z.to_nat bs) [] = []) by (by destruct fuel). rewrite drop_ge, En by lia. cbn [chunks_fit length].
    rewrite Nat.min_r by lia. split; [split_and!; [lia|lia|done]|]. symmetry. apply cdiv_unique; lia.
Qed.

(** ** Appending *)

Definition first_chunk (t : BlockTable) : Z := bt_block_size t - bt_num_full_slots t `mod` bt_block_size t.

Lemma append_chunks_shape t (ts us : list Z) :
  0 < bt_block_size t -> bt_num_full_slots t = len ts ->
  let k := Z.to_nat (len ts / bt_block_size t) in
  let cs := _chunk_token_blocks_for_append t us in
  concat cs = us ∧ chunks_fit (bt_block_size t) (len ts) k cs ∧
  (us ≠ [] -> Z.of_nat (length cs) = 1 + cdiv (len us - first_chunk t) (bt_block_size t) ∨ (len us <= first_chunk t ∧ length cs = 1%nat)).
Proof.
  intros Hbs Hn k cs. unfold cs, _chunk_token_blocks_for_append, first_chunk. rewrite Hn. set (bs := bt_block_size t) in *.
  pose proof (Z.mod_pos_bound (len ts) bs Hbs) as Hm. pose proof (Z.div_mod (len ts) bs ltac:(lia)) as Hd.
  set (first := bs - len ts `mod` bs) in *. destruct us as [|u us]; [done|]. set (us' := u :: us) in *.
  assert (Hk : Z.of_nat k = len ts / bs) by (unfold k; rewrite Z2Nat.id; [done|apply Z.div_pos; lia]).
  unfold chunk_list. destruct (chunks_fit_chunks bs (length (drop (Z.to_nat first) us')) (S k) (drop (Z.to_nat first) us') Hbs ltac:(lia))
    as [Hfit Hlen]. rewrite length_drop in Hlen at 2.
  split_and!.
  - cbn [concat]. rewrite chunks_concat by lia. apply take_drop.
  - cbn [chunks_fit]. rewrite length_take. split_and!; [lia|lia|].
    destruct (decide (Z.to_nat first <= length us')%nat) as [Hge|Hlt].
    + replace (len ts + Z.of_nat (Z.to_nat first `min` length us')) with (Z.of_nat (S k) * bs)
        by (rewrite Nat.min_l, Z2Nat.id, Nat2Z.inj_succ by lia; nia). exact Hfit.
    + rewrite drop_ge by lia. done.
  - intros _. cbn [length]. destruct (decide (first <= len us')) as [Hge|Hlt].
    + left. rewrite Nat2Z.inj_succ, Hlen, Nat2Z.inj_sub, Z2Nat.id by lia. lia.
    + right. rewrite drop_ge by lia. cbn [chunks length]. split; lia.
Qed.

(** Growing the table for the new tokens and the lookahead slots. *)
Lemma ensure_spec c t ts n L :
  table_step c t c t ts L -> slots t ≠ [] -> bt_num_full_slots t = len ts ->
  let new := Z.to_nat (cdiv (len ts + n) (bsize c) - len (slots t)) in
  (new <= length (free_list c GPU))%nat ->
  ∃ c' t' ids, ensure_num_empty_slots c t n = Ok (c', t') ∧ table_step c t c' t' ts L ∧
    bt_block_ids t' = bt_block_ids t ++ ids ∧ length ids = new ∧ length (slots t') = (length (slots t) + new)%nat ∧
    free_list c' GPU = drop new (free_list c GPU) ∧ cows c' = cows c ∧
    (∀ x, x ∈ ids -> occ x (bt_block_ids t' ++ uses c L) = 1).
Proof.
  intros Hst Hne Hfull new Hnew. pose proof (tp_holds _ _ _ _ _ _ Hst) as Hh. pose proof (sv_bs _ _ _ (tp_inv _ _ _ _ _ _ Hst)) as Hbs.
  assert (Hal : is_allocated t = true).
  { unfold is_allocated. rewrite (hd_blocks _ _ _ Hh). destruct (slots t); [done|]. by rewrite bool_decide_false. }
  assert (Hlen : len (bt_blocks t) = len (slots t)) by (by rewrite (hd_blocks _ _ _ Hh), length_fmap).
  unfold ensure_num_empty_slots, bt_num_empty_slots. rewrite Hal. cbn [py_assert mbind result_bind]. rewrite Hlen, Hfull, (hd_size _ _ _ Hh).
  pose proof (cdiv_spec (len ts + n) (bsize c) Hbs) as Hcd.
  destruct (n <=? len (slots t) * bsize c - len ts) eqn:Hle.
  - apply Z.leb_le in Hle. assert (new = 0%nat) as E0 by (unfold new; nia). rewrite E0.
    exists c, t, []. rewrite app_nil_r, drop_0. split_and!; try done; try lia. intros x Hx. by apply elem_of_nil in Hx.
  - apply Z.leb_gt in Hle. replace (Z.to_nat (cdiv (n - (len (slots t) * bsize c - len ts)) (bsize c))) with new.
    + by apply allocate_tail_spec.
    + unfold new. f_equal. replace (n - (len (slots t) * bsize c - len ts)) with (len ts + n + (- len (slots t)) * bsize c) by lia.
      rewrite cdiv_add_mul by done. lia.
Qed.

(** What appending [us] to table [t] does: [written] relates the ids before (extended
    by new blocks) and after. *)
Record appended_table (c : CpuGpuBlockAllocator) (t : BlockTable) (ts us : list Z) (c' : CpuGpuBlockAllocator) (t' : BlockTable)
    (L : list nat) (new : list nat) (ps : list (nat * nat)) (n : nat) : Prop := {
  at_step : table_step c (bt_with_slots t (len (ts ++ us))) c' t' (ts ++ us) L;
  at_written : ids_written (uses c L) (bt_block_ids t ++ new) (bt_block_ids t') (Z.to_nat (len ts / bsize c)) n ps;
  at_room : len us ≠ 0 -> len ts + len us <= (len ts / bsize c + Z.of_nat n) * bsize c;
  at_new : ∀ x, x ∈ new -> x ∉ bt_block_ids t ++ uses c L;
  at_nodup : NoDup new;
  at_cows : cows c' = cows c ++ ps;
}.

Lemma touched_bounds t (ts us : list Z) n :
  0 < bt_block_size t -> bt_num_full_slots t = len ts -> 0 <= n ->
  let K := len ts / bt_block_size t + get_num_blocks_touched_by_append_slots t us n in
  (K - 1) * bt_block_size t < len ts + len us + n <= K * bt_block_size t.
Proof.
  intros Hbs Hf Hn K. unfold K, get_num_blocks_touched_by_append_slots. rewrite Hf.
  set (bs := bt_block_size t) in *. pose proof (Z.div_mod (len ts) bs ltac:(lia)) as Hd.
  pose proof (cdiv_spec (len us + n - (bs - len ts `mod` bs)) bs Hbs). nia.
Qed.

Lemma bt_append_spec c t ts us n comp L :
  table_step c t c t ts L -> slots t ≠ [] -> bt_num_full_slots t = len ts -> 0 <= n ->
  get_num_blocks_touched_by_append_slots t us n <= len (free_list c GPU) ->
  ∃ c' t' new ps w, bt_append_token_ids c t us n comp = Ok (c', t') ∧ appended_table c t ts us c' t' L new ps w ∧
    len (free_list c GPU) - get_num_blocks_touched_by_append_slots t us n <= len (free_list c' GPU) ∧
    len ts + len us + n <= len (slots t') * bsize c.
Proof.
  intros Hst Hne Hfull Hn Hfree. pose proof (tp_holds _ _ _ _ _ _ Hst) as Hh. pose proof (sv_bs _ _ _ (tp_inv _ _ _ _ _ _ Hst)) as Hbs.
  pose proof (hd_size _ _ _ Hh) as Ebs. pose proof (touched_bounds t ts us n) as HK. rewrite Ebs in HK. specialize (HK Hbs Hfull Hn). cbv zeta in HK.
  set (touched := get_num_blocks_touched_by_append_slots t us n) in *. set (k := len ts / bsize c) in *.
  assert (Hk0 : 0 <= k) by (apply Z.div_pos; lia).
  assert (Hkb : k * bsize c <= len ts < (k + 1) * bsize c).
  { pose proof (Z.div_mod (len ts) (bsize c) ltac:(lia)). pose proof (Z.mod_pos_bound (len ts) (bsize c) Hbs). unfold k. nia. }
  pose proof (hd_fit _ _ _ Hh) as Hfit.
  assert (HKeq : cdiv (len ts + (len us + n)) (bsize c) = k + touched) by (apply cdiv_unique; [done|lia]).
  assert (Hkn : k <= len (slots t)) by nia. assert (Ht0 : 0 <= touched) by nia.
  unfold bt_append_token_ids. assert (Hal : is_allocated t = true).
  { unfold is_allocated. rewrite (hd_blocks _ _ _ Hh). destruct (slots t); [done|]. by rewrite bool_decide_false. }
  rewrite Hal. cbn [py_assert mbind result_bind]. unfold drop_window. rewrite (hd_window _ _ _ Hh). cbn [mbind result_bind fst snd].
  set (new := Z.to_nat (cdiv (len ts + (len us + n)) (bsize c) - len (slots t))).
  assert (Hnf : (new <= length (free_list c GPU))%nat) by (unfold new; lia).
  destruct (ensure_spec c t ts (len us + n) L Hst Hne Hfull Hnf) as (c1 & t1 & ids & E1 & H1 & Hids & Hlids & Hsl & Hf1 & Hw1 & Hoc1).
  fold new in Hlids, Hsl, Hf1. rewrite E1. cbn [mbind result_bind fst snd].
  pose proof (tp_holds _ _ _ _ _ _ H1) as Hh1. pose proof (proj2 (proj1 (tp_cfg _ _ _ _ _ _ H1) GPU)) as Eb1. cbn [alloc_of] in Eb1.
  assert (Hfull1 : bt_num_full_slots t1 = len ts) by (by rewrite (tp_slots _ _ _ _ _ _ H1)).
  assert (Ebs1 : bt_block_size t1 = bsize c) by (by rewrite (hd_size _ _ _ Hh1)).
  destruct (append_chunks_shape t1 ts us) as (Hcat & Hcf & Hlen); [by rewrite Ebs1|done|]. rewrite Ebs1 in Hcf, Hlen.
  unfold first_chunk in Hlen. rewrite Hfull1, Ebs1 in Hlen |- *. fold k in Hcf |- *.
  set (cs := _chunk_token_blocks_for_append t1 us) in *.
  assert (Hst1 : table_step c1 t1 c1 t1 ts L) by (destruct H1; by apply table_step_refl).
  assert (Hu1 : uses c1 L = uses c L) by (apply uses_frame, (tp_frame _ _ _ _ _ _ H1)).
  assert (Hcs : (us = [] ∧ cs = []) ∨ (0 < len cs ∧ (k + len cs - 1) * bsize c < len ts + len us <= (k + len cs) * bsize c)).
  { destruct us as [|u us]; [left; done|right]. set (us' := u :: us) in *. assert (0 < len us') by (cbn; lia).
    assert (Hmod : len ts `mod` bsize c = len ts - k * bsize c) by (rewrite Z.mod_eq by lia; unfold k; lia). rewrite Hmod in Hlen.
    destruct (Hlen ltac:(done)) as [El|[Hle El]].
    - rewrite El. pose proof (cdiv_spec (len us' - (bsize c - (len ts - k * bsize c))) (bsize c) Hbs) as Hcd.
      assert (0 <= cdiv (len us' - (bsize c - (len ts - k * bsize c))) (bsize c)) by (cbn [length cs] in El; nia). nia.
    - rewrite El. lia. }
  assert (Hsl1 : len (slots t1) = Z.max (len (slots t)) (k + touched)) by (unfold new in Hsl; lia).
  destruct (append_chunks_spec cs (Z.to_nat k) c1 t1 ts L (length (slots t)) Hst1) as (c2 & t2 & ps & E2 & H2 & Hb2 & Hw2 & Hcw2 & Hf2 & Hl2).
  { by rewrite Eb1. }
  { destruct Hcs as [[_ ->]|Hcs]; cbn [length]; [lia|]. nia. }
  { intros k' x Hk' Hx. rewrite Hu1. apply Hoc1. rewrite Hids in Hx. rewrite lookup_app_r in Hx by (rewrite (hd_ids _ _ _ Hh); lia).
    by eapply list_elem_of_lookup_2. }
  { rewrite Hf1, length_drop. destruct Hcs as [[_ ->]|Hcs]; cbn [length]; [lia|]. unfold new. nia. }
  rewrite E2. cbn [mbind result_bind fst snd]. rewrite Hcat in H2. rewrite Hu1, Hids in Hw2.
  exists c2, (bt_with_slots t2 (bt_num_full_slots t2 + len us)), ids, ps, (length cs). split; [done|].
  assert (Hfull2 : bt_num_full_slots t2 + len us = len (ts ++ us)) by (rewrite (tp_slots _ _ _ _ _ _ H2), Hfull1, length_app; lia).
  split; [split|split].
  - destruct (table_step_trans _ _ _ _ _ _ _ _ _ H1 H2) as [B1 B2 B3 B4 B5 B6 B7 B8]. split; try done. destruct B3; by split.
  - exact Hw2.
  - intros Hus. fold k. destruct Hcs as [[-> _]|Hcs]; [done|lia].
  - intros x Hx. specialize (Hoc1 x Hx). rewrite Hids, !occ_app in Hoc1. pose proof (occ_pos x ids Hx).
    pose proof (occ_nonneg x (bt_block_ids t)). pose proof (occ_nonneg x (uses c L)). apply occ_0. rewrite occ_app. lia.
  - apply occ_one_NoDup. intros x Hx. specialize (Hoc1 x Hx). rewrite Hids, !occ_app in Hoc1.
    pose proof (occ_nonneg x (bt_block_ids t)). pose proof (occ_nonneg x (uses c L)). lia.
  - by rewrite Hcw2, Hw1.
  - rewrite Hf1, length_drop in Hf2. destruct Hcs as [[_ Ecs]|Hcs]; [rewrite Ecs in Hl2; cbn [length] in Hl2|]; unfold new in *; nia.
  - change (slots (bt_with_slots t2 _)) with (slots t2). unfold slots at 1. rewrite Hb2. fold (slots t1). nia.
Qed.
