(* ===== verification/BlockCreate.v ===== *)
(** * Creating, sharing and releasing tables

    Allocating a table for a prompt, forking it, freeing it and moving it to the
    other device. *)

From stdpp Require Import base tactics list gmap sets strings.
From Stdlib Require Import ZArith QArith Lia.
From S2P Require Import Prelude.
From S2P Require Import NaiveBlocks.
From S2P Require Import BlockStore.
From S2P Require Import BlockManager.
From S2P Require Import BlockTables.
From S2P Require Import BlockAppend.

Local Open Scope Z_scope.

(** ** Full and partial chunks of a prompt *)

Lemma piece_drop bs l k : piece bs (drop (Z.to_nat bs) l) k = piece bs l (S k).
Proof. unfold piece. by rewrite drop_drop. Qed.

(** The chunks are the pieces; the full ones come first. *)
Lemma chunks_pieces bs fuel l :
  0 < bs -> (length l <= fuel)%nat ->
  filter (fun u => len u = bs) (chunks fuel (Z.to_nat bs) l) = piece bs l <$> seq 0 (Z.to_nat (len l / bs)) ∧
  filter (fun u => ¬ len u = bs) (chunks fuel (Z.to_nat bs) l) =
    (if decide (len l `mod` bs = 0) then [] else [piece bs l (Z.to_nat (len l / bs))]).
Proof.
  intros Hbs. revert l. induction fuel as [|fuel IH]; intros l Hl; [|destruct l as [|z l]].
  1,2: try (destruct l; [|cbn in Hl; lia]); cbn [chunks length]; rewrite Z.div_0_l, decide_True by (try apply Z.mod_0_l; lia); done.
  cbn [chunks]. set (l' := z :: l) in *. assert (Hl' : (0 < length l')%nat) by (cbn; lia).
  destruct (IH (drop (Z.to_nat bs) l')) as [IH1 IH2]; [rewrite length_drop; lia|]. clear IH.
  rewrite !filter_cons. destruct (decide (bs <= len l')) as [Hge|Hlt].
  - assert (Hfull : len (take (Z.to_nat bs) l') = bs) by (rewrite length_take; lia).
    rewrite decide_True by done. rewrite decide_False by (intros Hn; by apply Hn).
    assert (El : len (drop (Z.to_nat bs) l') = len l' + (-1) * bs) by (rewrite length_drop; lia).
    rewrite IH1, IH2, El, Z.mod_add, Z.div_add by lia.
    assert (Hq : 1 <= len l' / bs) by (apply Z.div_le_lower_bound; lia).
    replace (Z.to_nat (len l' / bs)) with (S (Z.to_nat (len l' / bs + -1))) by lia. split.
    + cbn [seq]. rewrite fmap_cons. f_equal. rewrite <-fmap_S_seq, <-list_fmap_compose. apply list_fmap_ext. intros _ k _. apply piece_drop.
    + by rewrite piece_drop.
  - assert (Hdrop : drop (Z.to_nat bs) l' = []) by (apply drop_ge; lia). rewrite Hdrop in *.
    assert (Ec : chunks fuel (Z.to_nat bs) [] = []) by (by destruct fuel). rewrite Ec.
    rewrite Z.div_small, Z.mod_small by lia. rewrite (decide_False (P := len l' = 0)) by lia.
    rewrite decide_False by (rewrite length_take; lia). rewrite decide_True by (rewrite length_take; lia). done.
Qed.

Lemma pieces_take bs l q k : (k < q)%nat -> piece bs (take (q * Z.to_nat bs) l) k = piece bs l k.
Proof.
  intros Hk. unfold piece. rewrite skipn_firstn_comm, take_take. f_equal. nia.
Qed.

(** ** Blocks for full chunks *)

Lemma allocate_block_ids_spec n : ∀ c L X,
  store_inv c L X -> (n <= length (free_list c GPU))%nat ->
  ∃ a, let c' := with_alloc c GPU a in allocate_block_ids (cg_gpu c) n = Ok (take n (free_list c GPU), a) ∧
    store_inv c' L (take n (free_list c GPU) ++ X) ∧ same_device (cg_gpu c) a ∧
    na_free_block_indices a = drop n (free_list c GPU) ∧ (∀ j, obj c' j = obj c j) ∧
    (∀ x, x ∈ take n (free_list c GPU) -> x ∈ all c GPU ∧ x ∉ X ++ uses c L) ∧ NoDup (take n (free_list c GPU)).
Proof.
  induction n as [|n IH]; intros c L X H Hn.
  - exists (cg_gpu c). cbn [take drop allocate_block_ids]. assert (E : with_alloc c GPU (cg_gpu c) = c) by (by destruct c).
    rewrite E. split_and!; try done; [by intros x ?%elem_of_nil..|constructor].
  - destruct (free_list c GPU) as [|x rest] eqn:Hf; [cbn in Hn; lia|].
    destruct (store_take c L X GPU x rest H Hf) as (a & E & H1 & Hs & Hr & Hc & Ho & Hx & Hu & Hall).
    set (c1 := with_alloc c GPU a) in *.
    assert (Ef1 : free_list c1 GPU = rest) by done.
    destruct (IH c1 L (x :: X) H1) as (a' & E' & H2 & Hs' & Hr' & Ho' & Hin & Hnd); [rewrite Ef1; cbn in Hn; lia|]. rewrite Ef1 in *.
    exists a'. cbv zeta. change (with_alloc c GPU a') with (with_alloc c1 GPU a'). cbn [allocate_block_ids take drop].
    cbn [alloc_of] in E. rewrite E. cbn [mbind result_bind fst snd]. change a with (cg_gpu c1). rewrite E'. cbn [mbind result_bind fst snd].
    split; [done|]. split; [|split; [|split; [done|split; [|split]]]].
    + eapply store_perm, H2; [done|]. cbn [app]. symmetry. apply Permutation_middle.
    + destruct Hs as (A1 & A2 & A3 & A4), Hs' as (B1 & B2 & B3 & B4). cbn in *. split_and!; congruence.
    + intros j. rewrite Ho'. apply Ho.
    + intros y [->|Hy]%elem_of_cons; [split; [done|by apply not_elem_of_app]|]. destruct (Hin y Hy) as [Ha Hn'].
      rewrite (proj1 (proj1 Hc GPU)) in Ha. split; [done|]. rewrite (uses_frame c) in Hn' by (intros; apply Ho).
      cbn [app] in Hn'. by apply not_elem_of_cons in Hn' as [_ ?].
    + constructor; [|done]. intros Hy. destruct (Hin x Hy) as [_ Hn']. apply Hn'. by left.
Qed.

(** What a loop that makes one object per entry of [es] returns. *)
Record created (c c' : CpuGpuBlockAllocator) (L X : list nat) (prev : option bref) (es : list (list Z * nat)) (sl : list nat) : Prop := {
  cr_len : length sl = length es;
  cr_inv : store_inv c' (sl ++ L) X;
  cr_frame : ∀ j, j ∈ L -> obj c' j = obj c j;
  cr_cfg : same_cfg c c';
  cr_gpu : only_gpu c c';
  cr_cows : cows c' = cows c;
  cr_free : free_list c' GPU = free_list c GPU;
  cr_obj : ∀ k i u x, sl !! k = Some i -> es !! k = Some (u, x) ->
    obj c' i = Some (mkNaiveBlock u (bsize c) (match k with O => prev | S k => Blk GPU <$> sl !! k end) (Some x));
}.

Lemma created_nil c L X prev : store_inv c L X -> created c c L X prev [] [].
Proof. by split. Qed.

Lemma created_cons c c1 c2 L X prev u x i es sl :
  i ∉ L -> (∀ j, j ∈ L -> obj c1 j = obj c j) -> obj c1 i = Some (mkNaiveBlock u (bsize c) prev (Some x)) ->
  same_cfg c c1 -> only_gpu c c1 -> cows c1 = cows c -> free_list c1 GPU = free_list c GPU ->
  created c1 c2 (i :: L) X (Some (Blk GPU i)) es sl -> created c c2 L X prev ((u, x) :: es) (i :: sl).
Proof.
  intros Hi Hf Ho Hc Hg Hw Hfl [C1 C2 C3 C4 C5 C6 C7 C8]. pose proof (proj2 (proj1 Hc GPU)) as Eb. cbn [alloc_of] in Eb. split.
  - cbn. by rewrite C1.
  - eapply store_perm, C2; [|done]. cbn [app]. symmetry. apply Permutation_middle.
  - intros j Hj. rewrite C3 by (by right). by apply Hf.
  - by etrans.
  - unfold only_gpu in *. congruence.
  - congruence.
  - congruence.
  - intros [|k] j v y Hj Hv; cbn in Hj, Hv.
    + injection Hj as <-. injection Hv as <- <-. rewrite C3 by (by left). done.
    + rewrite (C8 k j v y Hj Hv), Eb. do 2 f_equal. by destruct k.
Qed.

Lemma init_blocks_spec es : ∀ c L X prev,
  store_inv c L (es.*2 ++ X) -> (∀ u x, (u, x) ∈ es -> len u <= bsize c ∧ x ∈ all c GPU) ->
  ∃ sl c', init_blocks c GPU prev es = Ok (Blk GPU <$> sl, c') ∧ created c c' L X prev es sl.
Proof.
  induction es as [|[u x] es IH]; intros c L X prev H Hes.
  - exists [], c. split; [done|]. by apply created_nil.
  - destruct (Hes u x) as [Hl Hx]; [by left|].
    destruct (store_new c L (es.*2 ++ X) prev u x H Hl Hx) as (i & p & E & H1 & Hi & Ho & Hf & Hc).
    set (c1 := with_alloc c GPU _) in *. pose proof (proj1 Hc GPU) as [Ea Eb]. cbn [alloc_of] in Eb.
    destruct (IH c1 (i :: L) X (Some (Blk GPU i)) H1) as (sl & c2 & E2 & Hcr).
    { intros v y Hv. rewrite Ea, Eb. apply Hes. by right. }
    exists (i :: sl), c2. cbn [init_blocks alloc_of] in *. rewrite E. cbn [mbind result_bind fst snd]. fold c1. rewrite E2.
    split; [done|]. by eapply created_cons.
Qed.

(** The objects made form a table. *)
Lemma created_holds c c' L X es sl ts w full :
  0 < bsize c -> w = None -> created c c' L X None es sl -> len ts <= len es * bsize c ->
  (∀ k u x, es !! k = Some (u, x) -> u = piece (bsize c) ts k) ->
  let t := mkBlockTable (bsize c) (Blk GPU <$> sl) es.*2 w full in slots t = sl ∧ holds c' t ts.
Proof.
  intros Hbs -> [C1 C2 C3 C4 C5 C6 C7 C8] Hts Hpc t. assert (Es : slots t = sl) by apply slots_fmap. split; [done|].
  pose proof (proj2 (proj1 C4 GPU)) as Eb. cbn [alloc_of] in Eb. split; rewrite ?Eb, ?Es; try done.
  - cbn. by rewrite length_fmap.
  - by rewrite C1.
  - intros k i Hi. destruct (lookup_lt_is_Some_2 es k) as [[u x] He]; [rewrite <-C1; by eapply lookup_lt_Some|].
    exists x. cbn [t bt_block_ids bt_blocks]. rewrite list_lookup_fmap, He. split; [done|]. rewrite (C8 k i u x Hi He), <-(Hpc k u x He).
    do 2 f_equal. destruct k; [done|]. cbn. by rewrite list_lookup_fmap.
Qed.

(** New objects with physical blocks of their own. *)
Lemma created_share c c' L X prev es sl :
  created c c' L X prev es sl -> share_ok c L -> NoDup es.*2 -> (∀ x, x ∈ es.*2 -> x ∉ uses c L) -> share_ok c' (sl ++ L).
Proof.
  intros [C1 C2 C3 C4 C5 C6 C7 C8] Hs Hnd Hnew. apply (share_app c' L sl es.*2).
  - by eapply share_frame.
  - by rewrite length_fmap.
  - done.
  - intros x Hx. rewrite (uses_frame c c') by done. by apply Hnew.
  - intros k i x Hi Hx. apply list_lookup_fmap_Some in Hx as ([u y] & -> & He). eexists. by rewrite (C8 k i u y Hi He).
Qed.

Lemma ids_of_blocks_spec c t ts : holds c t ts -> ids_of_blocks c (bt_blocks t) = Ok (bt_block_ids t).
Proof.
  intros [_ _ Hb Hl _ Ho]. rewrite Hb. revert Hl Ho. generalize (slots t) (bt_block_ids t) (bt_blocks t).
  intros sl ids bl Hl Ho.
  assert (Ho' : ∀ k i, sl !! k = Some i -> ∃ x b, ids !! k = Some x ∧ obj c i = Some b ∧ nb_block_id b = Some x).
  { intros k i Hi. destruct (Ho k i Hi) as (x & ? & ->). eauto. }
  clear Ho. revert ids Hl Ho'. induction sl as [|i sl IH]; intros [|x ids] Hl Ho; try done. rewrite fmap_cons. cbn [ids_of_blocks].
  destruct (Ho 0%nat i eq_refl) as (y & b & [= <-] & Hob & Hid). rewrite (get_block_gpu _ _ _ Hob). cbn [mbind result_bind].
  rewrite Hid. cbn [or_raise mbind result_bind]. rewrite (IH ids); [done|by injection Hl|]. intros k j Hj. exact (Ho (S k) j Hj).
Qed.

(** [bl_append_token_ids] appends to the block object. *)
Lemma bl_append_inv c t k us r c' t' :
  bl_append_token_ids c t k us = Ok (c', t') -> bt_blocks t !! k = Some r -> append_token_ids c r us = Ok c'.
Proof.
  unfold bl_append_token_ids. intros E Hr. rewrite Hr in E. cbn [or_raise mbind result_bind] in E.
  apply bind_Ok_inv in E as (b & _ & E). apply bind_Ok_inv in E as (c1 & E1 & E). apply bind_Ok_inv in E as (b' & _ & E).
  rewrite E1. f_equal. case_decide; [by injection E|]. apply bind_Ok_inv in E as (x & _ & E). by injection E.
Qed.

(** The full chunks of a prompt. *)
Lemma allocate_full_spec c ts L :
  store_inv c L [] -> share_ok c L -> let q := Z.to_nat (len ts / bsize c) in (q <= length (free_list c GPU))%nat ->
  let t ids sl := mkBlockTable (bsize c) (Blk GPU <$> sl) ids None 0 in
  ∃ sl c', match piece (bsize c) ts <$> seq 0 q with [] => Ok ([], c) | l => allocate_immutable_blocks c GPU None l end =
      Ok (Blk GPU <$> sl, c') ∧ length sl = q ∧
    table_step c (t [] []) c' (t (take q (free_list c GPU)) sl) (take (q * Z.to_nat (bsize c)) ts) L ∧
    free_list c' GPU = drop q (free_list c GPU) ∧ cows c' = cows c.
Proof.
  intros H Hsh q Hq t. pose proof (sv_bs _ _ _ H) as Hbs.
  destruct (allocate_block_ids_spec q c L [] H Hq) as (a & E1 & H1 & Hs & Hfl & Ho & Hin & Hnd). cbn [app] in Hin.
  set (ids := take q (free_list c GPU)) in *. set (c1 := with_alloc c GPU a) in *.
  assert (Hlids : length ids = q) by (unfold ids; rewrite length_take; lia).
  set (es := zip (piece (bsize c) ts <$> seq 0 q) ids).
  assert (Hes2 : es.*2 = ids) by (apply snd_zip; rewrite length_fmap, length_seq; lia).
  assert (Eb1 : bsize c1 = bsize c) by (cbn; apply (proj1 (proj2 Hs))).
  assert (Ea1 : all c1 GPU = all c GPU) by (cbn; apply (proj1 Hs)).
  assert (Hlook : ∀ k u x, es !! k = Some (u, x) -> u = piece (bsize c) ts k ∧ (k < q)%nat).
  { intros k u x Hk. unfold es in Hk. apply lookup_zip_Some in Hk as [Hk _]. apply list_lookup_fmap_Some in Hk as (j & -> & Hj).
    apply lookup_seq in Hj as [-> ?]. done. }
  destruct (init_blocks_spec es c1 L [] None) as (sl & c2 & E2 & Hcr).
  { by rewrite Hes2. }
  { intros u x [k Hk]%list_elem_of_lookup. destruct (Hlook k u x Hk) as [-> _]. rewrite Eb1, Ea1, piece_len by done. split; [lia|].
    apply Hin. rewrite <-Hes2. apply list_elem_of_fmap. exists (piece (bsize c) ts k, x). split; [done|]. by eapply list_elem_of_lookup_2. }
  assert (Hles : length es = q) by (rewrite <-(length_fmap snd), Hes2; done).
  assert (Hdiv : Z.of_nat q * bsize c <= len ts).
  { unfold q. pose proof (Z.mul_div_le (len ts) (bsize c) Hbs). rewrite Z2Nat.id by (apply Z.div_pos; lia). lia. }
  destruct (created_holds c1 c2 L [] es sl (take (q * Z.to_nat (bsize c)) ts) None 0) as [Es Hh].
  { by rewrite Eb1. } { done. } { done. } { rewrite length_take, Hles, Eb1. nia. }
  { intros k u x Hk. destruct (Hlook k u x Hk) as [-> ?]. by rewrite Eb1, pieces_take. }
  rewrite Eb1, Hes2 in Es, Hh. exists sl, c2. rewrite <-(cr_len _ _ _ _ _ _ _ Hcr) in Hles.
  assert (Hcfg : same_cfg c c2) by (etrans; [|exact (cr_cfg _ _ _ _ _ _ _ Hcr)]; by apply with_alloc_cfg; apply Hs).
  split; [|split; [lia|split; [|split]]].
  - assert (Hfin : allocate_immutable_blocks c GPU None (piece (bsize c) ts <$> seq 0 q) = Ok (Blk GPU <$> sl, c2)).
    { unfold allocate_immutable_blocks. rewrite length_fmap, length_seq. cbn [alloc_of]. rewrite E1. exact E2. }
    destruct (piece (bsize c) ts <$> seq 0 q) eqn:El; [|done].
    assert (q = 0%nat) as Eq by (rewrite <-(length_seq q 0), <-(length_fmap (piece (bsize c) ts)), El; done).
    unfold allocate_immutable_blocks in Hfin. cbn [length allocate_block_ids mbind result_bind zip zip_with init_blocks] in Hfin.
    rewrite <-Hfin. cbn. by destruct c.
  - assert (Es' : slots (t ids sl) = sl) by exact Es. split; rewrite ?Es'; try done.
    + exact (cr_inv _ _ _ _ _ _ _ Hcr).
    + eapply created_share; [exact Hcr| | |].
      * eapply share_frame, Hsh. intros; apply Ho.
      * by rewrite Hes2.
      * intros x. rewrite Hes2, (uses_frame c) by (intros; apply Ho). intros Hx. by apply Hin.
    + intros x Hx. rewrite (proj1 (proj1 Hcfg GPU)). by apply Hin.
    + intros j Hj. rewrite (cr_frame _ _ _ _ _ _ _ Hcr) by done. apply Ho.
    + exact (cr_gpu _ _ _ _ _ _ _ Hcr).
  - by rewrite (cr_free _ _ _ _ _ _ _ Hcr).
  - rewrite (cr_cows _ _ _ _ _ _ _ Hcr). unfold cows. cbn. apply Hs.
Qed.

Definition new_table (bs : Z) : BlockTable := mkBlockTable bs [] [] None 0.

Lemma table_at_slots c t c' t' ts L n : table_step c t c' t' ts L -> table_step c (bt_with_slots t n) c' (bt_with_slots t' n) ts L.
Proof. intros [A1 A2 [] A4 A5 A6 A7 A8]. by split. Qed.

(** The partial chunk at the end of a prompt: one more block, then its tokens. *)
Lemma allocate_rest_spec c t ts us L x rest :
  table_step c t c t ts L -> free_list c GPU = x :: rest -> len ts = len (slots t) * bsize c -> len us <= bsize c ->
  ∃ c1 i c2 t2, allocate_mutable_block c GPU (prev_of (bt_blocks t) (length (slots t))) = Ok (Blk GPU i, c1) ∧
    append_token_ids c1 (Blk GPU i) us = Ok c2 ∧ table_step c t c2 t2 (ts ++ us) L ∧
    bt_blocks t2 = bt_blocks t ++ [Blk GPU i] ∧ bt_block_ids t2 = bt_block_ids t ++ [x] ∧
    free_list c2 GPU = rest ∧ cows c2 = cows c.
Proof.
  intros Hst Hf Hfull Hus. pose proof (tp_holds _ _ _ _ _ _ Hst) as Hh.
  destruct (grow_spec c t ts L x rest _ Hst Hf eq_refl) as (c1 & i & E1 & _ & H1 & Hl1 & Hf1 & Hw1 & Hx).
  set (t1 := bt_with _ _ _) in *. assert (Es : slots t1 = slots t ++ [i]) by apply slots_app.
  assert (Hst1 : table_step c1 t1 c1 t1 ts L) by (destruct H1; by apply table_step_refl).
  assert (Eb : bsize c1 = bsize c) by apply (proj1 (tp_cfg _ _ _ _ _ _ H1) GPU).
  assert (Hu1 : uses c1 L = uses c L) by (apply uses_frame, (tp_frame _ _ _ _ _ _ H1)).
  assert (Hi : slots t1 !! length (slots t) = Some i) by (rewrite Es, lookup_app_r, Nat.sub_diag by lia; done).
  assert (Hlx : bt_block_ids t1 !! length (slots t) = Some x).
  { cbn. rewrite lookup_app_r, (hd_ids _ _ _ Hh), Nat.sub_diag by (rewrite (hd_ids _ _ _ Hh); lia). done. }
  assert (Hd : delete (length (slots t)) (bt_block_ids t1) = bt_block_ids t).
  { cbn. rewrite delete_take_drop, take_app_length' by (by rewrite (hd_ids _ _ _ Hh)). rewrite drop_ge, app_nil_r; [done|].
    rewrite length_app, (hd_ids _ _ _ Hh). cbn. lia. }
  destruct (bl_append_spec c1 t1 ts us L _ i x Hst1 Hi Hlx) as (c2 & t2 & x' & E2 & H2 & -> & Hap).
  { rewrite Eb. lia. } { rewrite Eb. lia. } { rewrite Hd, Hu1. done. }
  rewrite Hd, Hu1 in Hap. destruct (ap_place _ _ _ _ _ _ Hap Hx) as (-> & Hf2 & Hw2).
  exists c1, i, c2, (bt_with t1 (bt_blocks t1) (<[length (slots t) := x]> (bt_block_ids t1))). split; [done|]. split.
  { eapply bl_append_inv; [exact E2|]. cbn. rewrite (hd_blocks _ _ _ Hh), lookup_app_r, length_fmap, Nat.sub_diag by (by rewrite length_fmap). done. }
  split; [by eapply table_step_trans|]. cbn [bt_with bt_blocks bt_block_ids]. rewrite list_insert_id by done. split_and!; [done|done|congruence..].
Qed.

Lemma bt_allocate_spec c ts L :
  store_inv c L [] -> share_ok c L -> ts ≠ [] -> let n := Z.to_nat (cdiv (len ts) (bsize c)) in
  (n <= length (free_list c GPU))%nat ->
  ∃ c' t', bt_allocate c (new_table (bsize c)) ts = Ok (c', t') ∧
    table_step c (bt_with_slots (new_table (bsize c)) (len ts)) c' t' ts L ∧
    bt_block_ids t' = take n (free_list c GPU) ∧ free_list c' GPU = drop n (free_list c GPU) ∧ cows c' = cows c.
Proof.
  intros H Hsh Hne n Hn. pose proof (sv_bs _ _ _ H) as Hbs. set (q := Z.to_nat (len ts / bsize c)).
  pose proof (Z.div_mod (len ts) (bsize c) ltac:(lia)) as Hd. pose proof (Z.mod_pos_bound (len ts) (bsize c) Hbs) as Hm.
  assert (Hq : Z.of_nat q = len ts / bsize c) by (unfold q; rewrite Z2Nat.id; [done|apply Z.div_pos; lia]).
  assert (Hnq : n = if decide (len ts `mod` bsize c = 0) then q else S q).
  { unfold n. case_decide; rewrite (cdiv_unique _ _ (Z.of_nat q + if decide (len ts `mod` bsize c = 0) then 0 else 1)) by (try case_decide; nia);
      [rewrite decide_True by done|rewrite decide_False by done]; lia. }
  destruct (allocate_full_spec c ts L H Hsh) as (sl & c1 & E1 & Hsl & H1 & Hf1 & Hw1); [fold q; case_decide; lia|]. fold q in E1, Hsl, H1, Hf1.
  set (t1 := mkBlockTable (bsize c) (Blk GPU <$> sl) (take q (free_list c GPU)) None 0) in H1. assert (Es1 : slots t1 = sl) by apply slots_fmap.
  set (ids := take q (free_list c GPU)) in *.
  assert (Eb1 : bsize c1 = bsize c) by apply (proj1 (tp_cfg _ _ _ _ _ _ H1) GPU).
  unfold bt_allocate. change (is_allocated (new_table (bsize c))) with false. cbn [negb py_assert mbind result_bind].
  rewrite bool_decide_false by done. cbn [negb py_assert mbind result_bind]. unfold _allocate_blocks_for_token_ids, chunk_list.
  change (bt_block_size (new_table (bsize c))) with (bsize c). destruct (chunks_pieces (bsize c) (length ts) ts Hbs ltac:(done)) as [-> ->]. fold q.
  assert (Efull : (match piece (bsize c) ts <$> seq 0 q with [] => Ok ([], c) | _ => allocate_immutable_blocks c GPU None (piece (bsize c) ts <$> seq 0 q) end) =
    Ok (Blk GPU <$> sl, c1)) by (rewrite <-E1; by destruct (piece (bsize c) ts <$> seq 0 q)).
  rewrite Efull. cbn [mbind result_bind fst snd].
  destruct (decide (len ts `mod` bsize c = 0)) as [Hz|Hz].
  - cbn [mbind result_bind fst snd]. exists c1, (bt_with_slots t1 (len ts)). rewrite Hnq.
    replace (take (q * Z.to_nat (bsize c)) ts) with ts in H1 by (rewrite take_ge; [done|nia]).
    unfold bt_update. change (Blk GPU <$> sl) with (bt_blocks t1). rewrite (ids_of_blocks_spec c1 t1 ts (tp_holds _ _ _ _ _ _ H1)). cbn [mbind result_bind].
    split; [done|]. split; [by apply (table_at_slots _ _ _ _ _ _ (len ts)) in H1|done].
  - destruct (free_list c1 GPU) as [|x rest] eqn:Ef1; [apply (f_equal length) in Hf1; rewrite length_drop in Hf1; cbn [length] in Hf1; lia|].
    assert (Hst1 : table_step c1 t1 c1 t1 (take (q * Z.to_nat (bsize c)) ts) L) by (destruct H1; by apply table_step_refl).
    destruct (allocate_rest_spec c1 t1 _ (piece (bsize c) ts q) L x rest Hst1 Ef1) as (c2 & i & c3 & t3 & E2 & E3 & H3 & Hb3 & Hi3 & Hf3 & Hw3).
    { rewrite length_take, Es1, Hsl, Eb1. nia. } { rewrite piece_len by done. lia. }
    assert (Hprev : (match piece (bsize c) ts <$> seq 0 q with [] => None | _ => last (Blk GPU <$> sl) end) = prev_of (bt_blocks t1) (length (slots t1))).
    { rewrite Es1. destruct sl as [|s0 sl] using rev_ind; [rewrite <-Hsl; done|].
      rewrite <-Hsl, length_app. cbn [length]. replace (length sl + 1)%nat with (S (length sl)) by lia. cbn [seq fmap list_fmap prev_of t1 bt_blocks].
      rewrite fmap_app. cbn [fmap list_fmap]. rewrite last_snoc, lookup_app_r, length_fmap, Nat.sub_diag by (by rewrite length_fmap). done. }
    rewrite bool_decide_true by done. cbn [py_assert mbind result_bind]. rewrite Hprev, E2. cbn [mbind result_bind fst snd].
    rewrite E3. cbn [mbind result_bind fst snd].
    assert (Hts : take (q * Z.to_nat (bsize c)) ts ++ piece (bsize c) ts q = ts).
    { unfold piece. rewrite (take_ge (drop _ _)); [apply take_drop|]. rewrite length_drop. nia. }
    rewrite Hts in H3.
    assert (Eb3 : bt_blocks t3 = (Blk GPU <$> sl) ++ [Blk GPU i]) by (by rewrite Hb3).
    rewrite <-Eb3. unfold bt_update. rewrite (ids_of_blocks_spec c3 t3 ts (tp_holds _ _ _ _ _ _ H3)). cbn [mbind result_bind].
    exists c3, (bt_with_slots t3 (len ts)). split.
    { pose proof (tp_holds _ _ _ _ _ _ H3) as Hh3. pose proof (proj2 (proj1 (tp_cfg _ _ _ _ _ _ H3) GPU)) as Eb. cbn [alloc_of] in Eb.
      unfold bt_with_slots, bt_with. cbn [bt_block_size bt_blocks bt_block_ids bt_max_block_sliding_window new_table].
      by rewrite (hd_size _ _ _ Hh3), (hd_window _ _ _ Hh3), Eb, Eb1. }
    pose proof (table_step_trans _ _ _ _ _ _ _ _ _ H1 H3) as H13. split; [by apply (table_at_slots _ _ _ _ _ _ (len ts)) in H13|].
    rewrite Hnq. cbn [bt_with_slots bt_block_ids]. rewrite Hi3. split_and!.
    + cbn [t1 bt_block_ids]. symmetry. apply take_S_r. rewrite <-(Nat.add_0_r q), <-lookup_drop, <-Hf1. done.
    + rewrite Hf3. replace (S q) with (q + 1)%nat by lia. rewrite <-drop_drop, <-Hf1. done.
    + congruence.
Qed.

(** ** Forking and freeing tables *)

(** *** Forking *)

Lemma nodup_bounded (l : list nat) n : NoDup l -> (∀ x, x ∈ l -> (x < n)%nat) -> (length l <= n)%nat.
Proof.
  intros Hnd Hb. rewrite <-(length_seq n 0). apply submseteq_length, NoDup_submseteq; [done|].
  intros x Hx. apply elem_of_seq. specialize (Hb x Hx). lia.
Qed.

Lemma blocks_recurse_spec c t ts k : ∀ i fuel lst,
  holds c t ts -> slots t !! k = Some i -> (k < fuel)%nat ->
  blocks_recurse c fuel (Blk GPU i) lst = Ok (lst ++ take (S k) (bt_blocks t)).
Proof.
  induction k as [|k IH]; intros i fuel lst Hh Hi Hf; destruct fuel as [|fuel]; try lia.
  all: destruct (hd_obj _ _ _ Hh _ i Hi) as (x & _ & Ho); cbn [blocks_recurse]; rewrite (get_block_gpu _ _ _ Ho); cbn [mbind result_bind nb_prev_block prev_of].
  - rewrite (hd_blocks _ _ _ Hh). destruct (slots t) as [|j sl]; [done|]. cbn in Hi |- *. by injection Hi as ->.
  - destruct (lookup_lt_is_Some_2 (slots t) k) as [j Hj]; [apply lookup_lt_Some in Hi; lia|].
    assert (Hbj : bt_blocks t !! k = Some (Blk GPU j)) by (rewrite (hd_blocks _ _ _ Hh), list_lookup_fmap, Hj; done).
    assert (Hbi : bt_blocks t !! S k = Some (Blk GPU i)) by (rewrite (hd_blocks _ _ _ Hh), list_lookup_fmap, Hi; done).
    rewrite Hbj, (IH j fuel lst Hh Hj) by lia. cbn [mbind result_bind]. f_equal. rewrite <-app_assoc. f_equal.
    symmetry. by apply take_S_r.
Qed.

(** What a fork copies from object [i]. *)
Definition copy_of (c : CpuGpuBlockAllocator) (i : nat) : list Z * nat :=
  match obj c i with Some b => (nb_token_ids b, default 0%nat (nb_block_id b)) | None => ([], 0%nat) end.

Lemma fork_blocks_spec src : ∀ c L prev,
  store_inv c L [] ->
  (∀ i, i ∈ src -> i ∈ L ∧ ∃ b x, obj c i = Some b ∧ nb_block_id b = Some x ∧ x ∈ all c GPU ∧ len (nb_token_ids b) <= bsize c) ->
  ∃ sl c', fork_blocks c GPU prev (Blk GPU <$> src) = Ok (Blk GPU <$> sl, c') ∧ created c c' L [] prev (copy_of c <$> src) sl.
Proof.
  induction src as [|s src IH]; intros c L prev H Hsrc.
  - exists [], c. split; [done|]. by apply created_nil.
  - destruct (Hsrc s) as (HsL & b & x & Hb & Hx & Hall & Hl); [by left|].
    assert (Hu : x ∈ uses c L) by (apply elem_of_uses; eauto).
    destruct (store_share c L [] GPU x H Hu Hall) as (n & rc & E1 & Hn & H1 & Hc1 & Ho1). cbv zeta in *.
    set (a1 := na_with (alloc_of c GPU) (free_list c GPU) rc) in *. set (c1 := with_alloc c GPU a1) in *.
    pose proof (proj1 Hc1 GPU) as [Ea1 Eb1]. cbn [alloc_of] in Eb1.
    destruct (store_new c1 L [] prev (nb_token_ids b) x H1) as (i & p & E2 & H2 & Hi & Hnew & Hf2 & Hc2); [by rewrite Eb1|by rewrite Ea1|].
    cbv zeta in *. set (c2 := with_alloc c1 GPU _) in *. rewrite Eb1 in Hnew.
    assert (Hfr : ∀ j, j ∈ L -> obj c2 j = obj c j) by (intros j Hj; rewrite Hf2 by done; apply Ho1).
    assert (Hc : same_cfg c c2) by (by etrans). pose proof (proj1 Hc GPU) as [Ea2 Eb2]. cbn [alloc_of] in Eb2.
    destruct (IH c2 (i :: L) (Some (Blk GPU i)) H2) as (sl & c3 & E3 & Hcr).
    { intros j Hj. destruct (Hsrc j) as (HjL & b' & x' & ? & ? & ? & ?); [by right|]. split; [by right|]. exists b', x'.
      rewrite Hfr, Ea2, Eb2 by done. done. }
    exists (i :: sl), c3. split.
    + rewrite fmap_cons. cbn [fork_blocks]. rewrite (get_block_gpu _ _ _ Hb). cbn [mbind result_bind]. rewrite Hx.
      cbn [or_raise mbind result_bind]. rewrite E1. cbn [mbind result_bind fst snd]. rewrite (proj2 (Z.eqb_neq n 1)) by done.
      cbn [negb py_assert mbind result_bind]. fold a1. change (na_block_size a1) with (bsize c1). change (na_block_pool a1) with (pool_of c1 GPU).
      rewrite E2. cbn [mbind result_bind fst snd]. change (with_alloc c GPU (na_with_pool a1 p)) with c2. rewrite E3. done.
    + rewrite fmap_cons. assert (Es : copy_of c s = (nb_token_ids b, x)) by (unfold copy_of; by rewrite Hb, Hx). rewrite Es.
      eapply (created_cons c c2 c3 L [] prev _ x i _ sl); [done|done|exact Hnew|done|done|done|done|].
      replace (copy_of c <$> src) with (copy_of c2 <$> src); [exact Hcr|]. apply list_fmap_ext. intros k j Hj. unfold copy_of. rewrite Hfr; [done|].
      apply Hsrc. right. by eapply list_elem_of_lookup_2.
Qed.

Lemma pieces_concat bs ts n : 0 < bs -> len ts <= Z.of_nat n * bs -> concat (piece bs ts <$> seq 0 n) = ts.
Proof.
  intros Hbs. revert ts. induction n as [|n IH]; intros ts Hl; [destruct ts; [done|cbn in Hl; lia]|].
  cbn [seq]. rewrite fmap_cons. cbn [concat]. rewrite <-fmap_S_seq, <-list_fmap_compose.
  rewrite (list_fmap_ext _ (piece bs (drop (Z.to_nat bs) ts))) by (intros _ k _; symmetry; apply piece_drop).
  rewrite IH by (rewrite length_drop; lia). unfold piece. rewrite Nat.mul_0_l, drop_0. apply take_drop.
Qed.

(** The tokens stored in the blocks of a table: [_get_all_token_ids]. *)
Definition table_tokens (c : CpuGpuBlockAllocator) (t : BlockTable) : list Z :=
  concat ((fun i => from_option nb_token_ids [] (obj c i)) <$> slots t).

Lemma holds_tokens c t ts : 0 < bsize c -> holds c t ts -> table_tokens c t = ts.
Proof.
  intros Hbs Hh. rewrite <-(pieces_concat (bsize c) ts (length (slots t)) Hbs (hd_fit _ _ _ Hh)).
  unfold table_tokens. f_equal. apply list_eq. intros k. rewrite !list_lookup_fmap. destruct (slots t !! k) as [i|] eqn:Hi.
  - rewrite lookup_seq_lt by (by eapply lookup_lt_Some). destruct (hd_obj _ _ _ Hh k i Hi) as (x & _ & Ho). cbn. by rewrite Ho.
  - rewrite lookup_seq_ge; [done|]. by apply lookup_ge_None.
Qed.

Lemma num_token_ids_spec c t ts : 0 < bsize c -> holds c t ts -> num_token_ids c (bt_blocks t) = Ok (len ts).
Proof.
  intros Hbs Hh. rewrite <-(holds_tokens c t ts Hbs Hh), (hd_blocks _ _ _ Hh). unfold table_tokens.
  assert (Hob : ∀ i, i ∈ slots t -> is_Some (obj c i)).
  { intros i [k Hk]%list_elem_of_lookup. destruct (hd_obj _ _ _ Hh k i Hk) as (x & _ & ->). by eexists. }
  revert Hob. generalize (slots t). induction l as [|i l IH]; intros Hob; [done|]. rewrite !fmap_cons. cbn [num_token_ids concat].
  destruct (Hob i) as [b Hb]; [by left|]. rewrite (get_block_gpu _ _ _ Hb). cbn [mbind result_bind].
  rewrite IH by (intros j Hj; apply Hob; by right). cbn [mbind result_bind]. rewrite Hb, length_app. cbn [from_option]. f_equal. lia.
Qed.

Lemma copies_lookup c t ts k u x : holds c t ts -> (copy_of c <$> slots t) !! k = Some (u, x) ->
  u = piece (bsize c) ts k ∧ bt_block_ids t !! k = Some x.
Proof.
  intros Hh Hk. apply list_lookup_fmap_Some in Hk as (i & E & Hi). destruct (hd_obj _ _ _ Hh k i Hi) as (y & Hy & Ho).
  unfold copy_of in E. rewrite Ho in E. cbn in E. injection E as -> ->. done.
Qed.

Lemma copies_ids c t ts : holds c t ts -> (copy_of c <$> slots t).*2 = bt_block_ids t.
Proof.
  intros Hh. apply list_eq. intros k. rewrite list_lookup_fmap. destruct ((copy_of c <$> slots t) !! k) as [[u x]|] eqn:E.
  - by destruct (copies_lookup c t ts k u x Hh E) as [_ ->].
  - cbn. symmetry. apply lookup_ge_None. apply lookup_ge_None in E. rewrite length_fmap in E. by rewrite (hd_ids _ _ _ Hh).
Qed.

(** The copies store what their originals store. *)
Lemma fork_share c c' t ts L sl :
  holds c t ts -> share_ok c (slots t ++ L) -> created c c' (slots t ++ L) [] None (copy_of c <$> slots t) sl ->
  share_ok c' (sl ++ slots t ++ L).
Proof.
  intros Hh Hs [C1 _ C3 _ _ _ _ C8].
  assert (Horig : ∀ i b id, i ∈ sl ++ slots t ++ L -> obj c' i = Some b -> nb_block_id b = Some id ->
    ∃ j b0, j ∈ slots t ++ L ∧ obj c j = Some b0 ∧ nb_block_id b0 = Some id ∧ nb_token_ids b0 = nb_token_ids b).
  { intros i b id [Hi|Hi]%elem_of_app Hb Hid.
    - apply list_elem_of_lookup in Hi as [k Hk]. rewrite length_fmap in C1.
      destruct (lookup_lt_is_Some_2 (slots t) k) as [j Hj]; [rewrite <-C1; by eapply lookup_lt_Some|].
      assert (Hc : (copy_of c <$> slots t) !! k = Some (copy_of c j)) by (by rewrite list_lookup_fmap, Hj).
      destruct (hd_obj _ _ _ Hh k j Hj) as (x & Hx & Ho). destruct (copy_of c j) as [u y] eqn:Ec.
      destruct (copies_lookup c t ts k u y Hh Hc) as [-> Hy]. rewrite (C8 k i _ y Hk Hc) in Hb. injection Hb as <-. cbn in Hid. injection Hid as ->.
      eexists j, _. split; [apply elem_of_app; left; by eapply list_elem_of_lookup_2|]. split; [exact Ho|]. cbn. split; [congruence|done].
    - exists i, b. rewrite <-C3 by done. done. }
  intros i j x y id Hi Hj Ex Ey Ix Iy. destruct (Horig i x id Hi Ex Ix) as (i0 & x0 & Hi0 & Ex0 & Ix0 & <-).
  destruct (Horig j y id Hj Ey Iy) as (j0 & y0 & Hj0 & Ey0 & Iy0 & <-). by apply (Hs i0 j0 x0 y0 id).
Qed.

Lemma bt_fork_spec c t ts L :
  store_inv c (slots t ++ L) [] -> share_ok c (slots t ++ L) -> holds c t ts -> on c GPU t -> slots t ≠ [] ->
  ∃ c' t', bt_fork c t = Ok (c', t') ∧ table_step c t' c' t' ts (slots t ++ L) ∧ bt_block_ids t' = bt_block_ids t ∧
    bt_num_full_slots t' = len ts ∧ free_list c' GPU = free_list c GPU ∧ cows c' = cows c.
Proof.
  intros H Hsh Hh Hon Hne. pose proof (sv_bs _ _ _ H) as Hbs.
  assert (Hsrc : ∀ i, i ∈ slots t -> i ∈ slots t ++ L ∧ ∃ b x, obj c i = Some b ∧ nb_block_id b = Some x ∧ x ∈ all c GPU ∧
    len (nb_token_ids b) <= bsize c).
  { intros i Hi. split; [apply elem_of_app; by left|]. apply list_elem_of_lookup in Hi as [k Hk].
    destruct (hd_obj _ _ _ Hh k i Hk) as (x & Hx & Ho). eexists _, x. split; [exact Ho|]. split; [done|].
    split; [apply Hon; by eapply list_elem_of_lookup_2|]. cbn. rewrite piece_len by done. lia. }
  destruct (fork_blocks_spec (slots t) c (slots t ++ L) None H Hsrc) as (sl & c' & E & Hcr).
  pose proof (copies_ids c t ts Hh) as Eids. pose proof (proj1 (cr_cfg _ _ _ _ _ _ _ Hcr) GPU) as [Ea Eb]. cbn [alloc_of] in Eb.
  destruct (created_holds c c' (slots t ++ L) [] _ sl ts None (len ts) Hbs eq_refl Hcr) as [Es Hh'].
  { rewrite length_fmap. apply (hd_fit _ _ _ Hh). } { intros k u x Hk. by apply (copies_lookup c t ts k u x Hh). }
  rewrite Eids in Es, Hh'. set (t' := mkBlockTable _ _ _ _ _) in *.
  destruct (last_slots c t ts Hh Hne) as [Elast [r Hr]].
  assert (Hal : is_allocated t = true).
  { unfold is_allocated. rewrite (hd_blocks _ _ _ Hh). destruct (slots t); [done|]. by rewrite bool_decide_false. }
  assert (∃ i, r = Blk GPU i ∧ slots t !! (length (slots t) - 1)%nat = Some i) as (i & -> & Hi).
  { rewrite (hd_blocks _ _ _ Hh) in Hr. rewrite fmap_last in Hr. rewrite last_lookup in Hr.
    replace (pred (length (slots t))) with (length (slots t) - 1)%nat in Hr by lia.
    destruct (slots t !! (length (slots t) - 1)%nat) as [i|]; [|done]. injection Hr as <-. eauto. }
  destruct (hd_obj _ _ _ Hh _ i Hi) as (x & Hx & Ho).
  assert (Hall : x ∈ all c GPU) by (apply Hon; by eapply list_elem_of_lookup_2).
  assert (Hlen : (length (slots t) <= length (bp_pool (pool_of c GPU)))%nat).
  { pose proof (sv_gpool _ _ _ H) as [Hnd Hrg _]. apply nodup_bounded.
    - apply NoDup_app in Hnd as (Hnd & _). by apply NoDup_app in Hnd as (? & _).
    - intros j Hj. apply Hrg, elem_of_app. left. apply elem_of_app. by left. }
  exists c', t'. split; [|split; [|split; [done|split; [done|split; [apply Hcr|apply Hcr]]]]].
  - unfold bt_fork. rewrite Hal. cbn [py_assert mbind result_bind]. rewrite Hr. cbn [or_raise mbind result_bind]. unfold cg_fork.
    rewrite (get_block_gpu _ _ _ Ho). cbn [mbind result_bind nb_block_id or_raise]. rewrite (proj2 (sv_map _ _ _ H x GPU) Hall).
    cbn [or_raise mbind result_bind]. unfold na_fork, get_all_blocks_recursively.
    rewrite (blocks_recurse_spec c t ts (length (slots t) - 1) i _ [] Hh Hi) by (cbn [alloc_of] in Hlen; lia). cbn [mbind result_bind app].
    rewrite take_ge by (rewrite (hd_blocks _ _ _ Hh), length_fmap; lia). rewrite (hd_blocks _ _ _ Hh), E. cbn [mbind result_bind fst snd].
    unfold bt_new. change (Blk GPU <$> sl) with (bt_blocks t'). rewrite (ids_of_blocks_spec c' t' ts Hh'). cbn [mbind result_bind].
    rewrite (num_token_ids_spec c' t' ts) by (by rewrite ?Eb). cbn [mbind result_bind].
    by rewrite (hd_size _ _ _ Hh), (hd_window _ _ _ Hh).
  - assert (Es' : slots t' = sl) by exact Es. split; rewrite ?Es'; try done; try apply Hcr.
    + by eapply fork_share.
    + intros y Hy. rewrite Ea. by apply Hon.
Qed.

(** *** Freeing *)

Lemma free_table_blocks_spec sl : ∀ c L,
  store_inv c (sl ++ L) [] ->
  (∀ i, i ∈ sl -> ∃ b x, obj c i = Some b ∧ nb_block_id b = Some x ∧ x ∈ all c GPU) ->
  ∃ c', for_each (fun r c => cg_free c r) (Blk GPU <$> sl) c = Ok c' ∧ store_inv c' L [] ∧
    (∀ j, j ∈ L -> obj c' j = obj c j) ∧ same_cfg c c' ∧ only_gpu c c' ∧ cows c' = cows c.
Proof.
  induction sl as [|i sl IH]; intros c L H Hsl; [by exists c|].
  destruct (Hsl i) as (b & x & Hb & Hx & Hall); [by left|]. cbn [app] in H. destruct (store_fresh _ _ _ _ H) as [Hni _].
  destruct (cg_free_spec c i (sl ++ L) [] b x H Hb Hx Hall) as (c1 & E1 & H1 & Hf1 & Hc1 & Hg1 & Hw1 & _).
  rewrite fmap_cons. cbn [for_each]. rewrite E1. cbn [mbind result_bind].
  assert (Hne : ∀ j, j ∈ sl ++ L -> j ≠ i) by (intros j Hj ->; done).
  destruct (IH c1 L H1) as (c2 & E2 & H2 & Hf2 & Hc2 & Hg2 & Hw2).
  { intros j Hj. destruct (Hsl j) as (b' & x' & ? & ? & ?); [by right|]. exists b', x'.
    rewrite Hf1 by (apply Hne, elem_of_app; by left). by rewrite (proj1 (proj1 Hc1 GPU)). }
  exists c2. split; [done|]. split; [done|]. split.
  { intros j Hj. rewrite Hf2 by done. apply Hf1, Hne, elem_of_app. by right. }
  split; [by etrans|]. unfold only_gpu in *. split; congruence.
Qed.

Lemma bt_free_spec c t ts L :
  store_inv c (slots t ++ L) [] -> holds c t ts -> on c GPU t ->
  ∃ c', bt_free c t = Ok c' ∧ store_inv c' L [] ∧ (∀ j, j ∈ L -> obj c' j = obj c j) ∧ same_cfg c c' ∧ only_gpu c c' ∧ cows c' = cows c.
Proof.
  intros H Hh Hon. unfold bt_free. rewrite (hd_blocks _ _ _ Hh). apply free_table_blocks_spec; [done|].
  intros i [k Hk]%list_elem_of_lookup. destruct (hd_obj _ _ _ Hh k i Hk) as (x & Hx & Ho). eexists _, x. split; [exact Ho|].
  split; [done|]. apply Hon. by eapply list_elem_of_lookup_2.
Qed.
