(* ===== verification/BlockMove.v ===== *)
(** * Moving a table to the other device *)

From stdpp Require Import base tactics list gmap sets strings.
From Stdlib Require Import ZArith QArith Lia.
From S2P Require Import Prelude.
From S2P Require Import V0Sequence.
From S2P Require Import NaiveBlocks.
From S2P Require Import BlockStore.
From S2P Require Import BlockManager.
From S2P Require Import BlockTables.
From S2P Require Import BlockAppend.
From S2P Require Import BlockCreate.

Local Open Scope Z_scope.

(** [swap_out]: the objects lose their physical blocks. *)
Lemma swap_out_spec src sl : ∀ c L,
  store_inv c (sl ++ L) [] ->
  (∀ i, i ∈ sl -> ∃ b x, obj c i = Some b ∧ nb_block_id b = Some x ∧ x ∈ all c src) ->
  ∃ c', na_swap_out c src (Blk GPU <$> sl) = Ok c' ∧ store_inv c' (sl ++ L) [] ∧
    (∀ i b, i ∈ sl -> obj c i = Some b -> obj c' i = Some (nb_with_id b None)) ∧
    (∀ j, j ∈ L -> obj c' j = obj c j) ∧ same_cfg c c' ∧ cows c' = cows c ∧ ∀ d, d ≠ src -> free_list c' d = free_list c d.
Proof.
  induction sl as [|i sl IH]; intros c L H Hsl.
  { exists c. split_and!; try done. by intros i b ?%elem_of_nil. }
  destruct (Hsl i) as (b & x & Hb & Hx & Hall); [by left|]. cbn [app] in H. destruct (store_fresh _ _ _ _ H) as [Hni _].
  destruct (release_spec c src i (sl ++ L) [] b x H Hb Hx Hall) as (c1 & E1 & H1 & Ho1 & Hf1 & Hc1 & Hw1 & _ & Hd1 & _).
  assert (Hne : ∀ j, j ∈ sl ++ L -> j ≠ i) by (intros j Hj ->; done).
  assert (HP : i :: sl ++ L ≡ₚ sl ++ i :: L) by apply Permutation_middle.
  destruct (IH c1 (i :: L)) as (c2 & E2 & H2 & Hs2 & Hf2 & Hc2 & Hw2 & Hd2).
  { by eapply store_perm, H1. }
  { intros j Hj. destruct (Hsl j) as (b' & x' & ? & ? & ?); [by right|]. exists b', x'.
    rewrite Hf1 by (apply Hne, elem_of_app; by left). by rewrite (proj1 (proj1 Hc1 src)). }
  exists c2. split; [unfold na_swap_out in *; rewrite fmap_cons; cbn [for_each]; by rewrite E1|].
  split; [by eapply store_perm, H2|]. split.
  { intros j b' [->|Hj]%elem_of_cons Hb'.
    - rewrite Hb in Hb'. injection Hb' as <-. rewrite Hf2 by (by left). done.
    - apply (Hs2 j b' Hj). rewrite Hf1; [done|]. apply Hne, elem_of_app. by left. }
  split; [intros j Hj; rewrite Hf2 by (by right); apply Hf1, Hne, elem_of_app; by right|].
  split; [by etrans|]. split; [congruence|]. intros d Hd. by rewrite Hd2, Hd1.
Qed.

(** [swap_in]: they get the next free blocks of the other device. *)
Lemma swap_in_spec dst sl : ∀ c L,
  store_inv c (sl ++ L) [] -> (length sl <= length (free_list c dst))%nat ->
  (∀ i, i ∈ sl -> ∃ b, obj c i = Some b ∧ nb_block_id b = None ∧ len (nb_token_ids b) <= bsize c) ->
  ∃ c', na_swap_in c dst (Blk GPU <$> sl) = Ok c' ∧ store_inv c' (sl ++ L) [] ∧
    (∀ k i b x, sl !! k = Some i -> obj c i = Some b -> take (length sl) (free_list c dst) !! k = Some x ->
      obj c' i = Some (nb_with_id b (Some x))) ∧
    (∀ j, j ∈ L -> obj c' j = obj c j) ∧ same_cfg c c' ∧ cows c' = cows c ∧
    free_list c' dst = drop (length sl) (free_list c dst) ∧ ∀ d, d ≠ dst -> free_list c' d = free_list c d.
Proof.
  induction sl as [|i sl IH]; intros c L H Hlen Hsl.
  { exists c. by split_and!. }
  destruct (Hsl i) as (b & Hb & Hid & Hl); [by left|]. cbn [app] in H. destruct (store_fresh _ _ _ _ H) as [Hni _].
  destruct (free_list c dst) as [|x rest] eqn:Ef; [cbn in Hlen; lia|].
  destruct (swap_in_one_spec c dst i (sl ++ L) [] b x rest H Hb Hid Hl Ef) as (c1 & E1 & [M1 M2 M3 M4 M5 M6 M7 M8 M9]).
  rewrite Ef in M6. injection M6 as M6.
  assert (HP : i :: sl ++ L ≡ₚ sl ++ i :: L) by apply Permutation_middle.
  destruct (IH c1 (i :: L)) as (c2 & E2 & H2 & Hs2 & Hf2 & Hc2 & Hw2 & Hfl2 & Hd2).
  { by eapply store_perm, M1. } { rewrite <-M6. cbn in Hlen. lia. }
  { intros j Hj. destruct (Hsl j) as (b' & ? & ? & ?); [by right|]. exists b'.
    rewrite M3 by (apply elem_of_app; by left). by rewrite (proj2 (proj1 M4 GPU) : bsize c1 = bsize c). }
  exists c2. split; [unfold na_swap_in in *; rewrite fmap_cons; cbn [for_each]; by rewrite E1|].
  split; [by eapply store_perm, H2|]. cbn [length take drop]. rewrite M6. split.
  { intros [|k] j b' y Hj Hb' Hy; cbn in Hj, Hy.
    - injection Hj as <-. injection Hy as <-. rewrite Hb in Hb'. injection Hb' as <-. rewrite Hf2 by (by left). done.
    - apply (Hs2 k j b' y Hj); [|done]. rewrite M3; [done|]. apply elem_of_app. left. by eapply list_elem_of_lookup_2. }
  split; [intros j Hj; rewrite Hf2 by (by right); apply M3, elem_of_app; by right|].
  split; [by etrans|]. split; [congruence|]. split; [done|]. intros d Hd. by rewrite Hd2, M7.
Qed.

Lemma block_ids_of_spec c sl ids :
  length sl = length ids -> (∀ k i x, sl !! k = Some i -> ids !! k = Some x -> ∃ b, obj c i = Some b ∧ nb_block_id b = Some x) ->
  block_ids_of c (Blk GPU <$> sl) = Ok (Some <$> ids).
Proof.
  revert ids. induction sl as [|i sl IH]; intros [|x ids] Hlen Hob; try done. rewrite !fmap_cons. cbn [block_ids_of].
  destruct (Hob 0%nat i x eq_refl eq_refl) as (b & Hb & Hx). rewrite (get_block_gpu _ _ _ Hb). cbn [mbind result_bind].
  rewrite (IH ids); [|by injection Hlen|intros k j y Hj Hy; exact (Hob (S k) j y Hj Hy)]. cbn [mbind result_bind]. by rewrite Hx.
Qed.

Lemma swap_pairs_spec (a b : list nat) : swap_pairs (Some <$> a) (Some <$> b) = zip a b.
Proof. revert b. induction a as [|x a IH]; intros [|y b]; try done. unfold swap_pairs in *. cbn. f_equal. apply IH. Qed.

(** Building a dict from pairs with distinct keys keeps them all, in order. *)
Lemma dict_set_new {V} k (v : V) d : k ∉ d.*1 -> dict_set k v d = d ++ [(k, v)].
Proof.
  induction d as [|[k' v'] d IH]; intros Hk; [done|]. rewrite fmap_cons in Hk. apply not_elem_of_cons in Hk as [Hne Hk].
  cbn in Hne |- *. rewrite decide_False by done. by rewrite IH.
Qed.

Lemma dict_of_pairs {V} (ps : list (nat * V)) : ∀ d, NoDup (d.*1 ++ ps.*1) ->
  foldl (fun d p => dict_set p.1 p.2 d) d ps = d ++ ps.
Proof.
  induction ps as [|[k v] ps IH]; intros d Hnd; [by rewrite app_nil_r|]. cbn [foldl]. rewrite fmap_cons in Hnd. cbn [fst snd] in *.
  assert (Hk : k ∉ d.*1) by (apply NoDup_app in Hnd as (_ & Hdis & _); intros Hin; apply (Hdis k Hin); by left).
  rewrite dict_set_new by done. rewrite IH; [by rewrite <-app_assoc|]. rewrite fmap_app. cbn. rewrite <-app_assoc. done.
Qed.

(** ** A whole table *)

(** The table [t] that holds [ts] has moved from [src] to [dst]; block [k] was copied
    from physical block [ids !! k] to the new one. *)
Record table_moved (c c' : CpuGpuBlockAllocator) (src dst : Device) (t t' : BlockTable) (ts : list Z) (L : list nat) : Prop := {
  tm_inv : store_inv c' (slots t' ++ L) [];
  tm_share : share_ok c' (slots t' ++ L);
  tm_holds : holds c' t' ts;
  tm_on : on c' dst t';
  tm_nodup : NoDup (bt_block_ids t');
  tm_frame : ∀ j, j ∈ L -> obj c' j = obj c j;
  tm_cfg : same_cfg c c';
  tm_cows : cows c' = cows c;
  tm_ids : bt_block_ids t' = take (length (slots t)) (free_list c dst);
  tm_slots : bt_num_full_slots t' = bt_num_full_slots t;
  tm_free : free_list c' dst = drop (length (slots t)) (free_list c dst);
}.

Lemma store_swaps c L X sm : store_inv c L X ->
  store_inv (mkCpuGpu (cg_cpu c) (cg_gpu c) sm (cg_null_block c) (cg_block_ids_to_allocator c)) L X.
Proof.
  intros [H1 H2 H3 H4 H5 H6 H7 H8]. by split.
Qed.

Lemma cg_swap_spec c t ts L src dst :
  store_inv c (slots t ++ L) [] -> share_ok c (slots t ++ L) -> holds c t ts -> on c src t -> src ≠ dst ->
  NoDup (bt_block_ids t) -> (length (slots t) <= length (free_list c dst))%nat ->
  ∃ c' t', cg_swap c (bt_blocks t) src dst = Ok (zip (bt_block_ids t) (bt_block_ids t'), c') ∧
    bt_update c' t (bt_blocks t) = Ok t' ∧ bt_blocks t' = bt_blocks t ∧ table_moved c c' src dst t t' ts L.
Proof.
  intros H Hsh Hh Hon Hne Hnd Hlen. pose proof (sv_bs _ _ _ H) as Hbs.
  assert (Hobj : ∀ k i x, slots t !! k = Some i -> bt_block_ids t !! k = Some x -> ∃ b, obj c i = Some b ∧ nb_block_id b = Some x).
  { intros k i x Hi Hx. destruct (hd_obj _ _ _ Hh k i Hi) as (y & Hy & Ho). eexists. split; [exact Ho|]. cbn. congruence. }
  destruct (swap_out_spec src (slots t) c L H) as (c1 & E1 & H1 & Hs1 & Hf1 & Hc1 & Hw1 & Hd1).
  { intros i [k Hk]%list_elem_of_lookup. destruct (hd_obj _ _ _ Hh k i Hk) as (x & Hx & Ho). eexists _, x. split; [exact Ho|].
    split; [done|]. apply Hon. by eapply list_elem_of_lookup_2. }
  assert (Ho1 : ∀ k i, slots t !! k = Some i -> obj c1 i = Some (mkNaiveBlock (piece (bsize c) ts k) (bsize c) (prev_of (bt_blocks t) k) None)).
  { intros k i Hi. destruct (hd_obj _ _ _ Hh k i Hi) as (x & Hx & Ho). by rewrite (Hs1 i _ (list_elem_of_lookup_2 _ _ _ Hi) Ho). }
  destruct (swap_in_spec dst (slots t) c1 L H1) as (c2 & E2 & H2 & Hs2 & Hf2 & Hc2 & Hw2 & Hfl2 & Hd2).
  { by rewrite Hd1. }
  { intros i [k Hk]%list_elem_of_lookup. eexists. split; [by apply (Ho1 k i)|]. split; [done|]. cbn.
    rewrite (proj2 (proj1 Hc1 GPU) : bsize c1 = bsize c), piece_len by done. lia. }
  rewrite Hd1 in Hs2, Hfl2 by done. set (ids := take (length (slots t)) (free_list c dst)) in *.
  assert (Hids : length ids = length (slots t)) by (unfold ids; rewrite length_take; lia).
  assert (Hc : same_cfg c c2) by (by etrans). pose proof (proj2 (proj1 Hc GPU)) as Eb. cbn [alloc_of] in Eb.
  assert (Ho2 : ∀ k i x, slots t !! k = Some i -> ids !! k = Some x ->
    obj c2 i = Some (mkNaiveBlock (piece (bsize c) ts k) (bsize c) (prev_of (bt_blocks t) k) (Some x))).
  { intros k i x Hi Hx. by rewrite (Hs2 k i _ x Hi (Ho1 k i Hi) Hx). }
  assert (Hfr : ∀ j, j ∈ L -> obj c2 j = obj c j) by (intros j Hj; by rewrite Hf2, Hf1).
  assert (Hin : ∀ x, x ∈ ids -> x ∈ all c dst ∧ x ∉ uses c (slots t ++ L)).
  { intros x Hx. apply (do_free _ _ (sv_dev _ _ _ H dst)). by eapply elem_of_sublist, sublist_take. }
  assert (Hnd' : NoDup ids) by (eapply sublist_NoDup; [apply (do_nodup _ _ (sv_dev _ _ _ H dst))|apply sublist_take]).
  pose (sm := foldl (fun d p => dict_set p.1 p.2 d) (cg_swap_mapping c2) (zip (bt_block_ids t) ids)).
  pose (c3 := mkCpuGpu (cg_cpu c2) (cg_gpu c2) sm (cg_null_block c2) (cg_block_ids_to_allocator c2)).
  pose (t' := bt_with t (bt_blocks t) ids).
  assert (Hh' : holds c3 t' ts).
  { destruct Hh as [K1 K2 K3 K4 K5 K6]. split; try done; change (bsize c3) with (bsize c2); rewrite ?Eb; try done.
    intros k i Hi. change (slots t') with (slots t) in Hi. destruct (lookup_lt_is_Some_2 ids k) as [x Hx]; [rewrite Hids; by eapply lookup_lt_Some|].
    exists x. split; [done|]. exact (Ho2 k i x Hi Hx). }
  exists c3, t'. split; [|split; [|split; [done|]]].
  - unfold cg_swap. rewrite (hd_blocks _ _ _ Hh). rewrite (block_ids_of_spec c _ (bt_block_ids t)) by (try done; by rewrite (hd_ids _ _ _ Hh)).
    cbn [mbind result_bind]. rewrite E1. cbn [mbind result_bind]. rewrite E2. cbn [mbind result_bind].
    rewrite (block_ids_of_spec c2 _ ids); [|done|]. 2:{ intros k i x Hi Hx. eexists. by rewrite (Ho2 k i x Hi Hx). }
    cbn [mbind result_bind]. rewrite swap_pairs_spec. rewrite dict_of_pairs; [done|].
    cbn [fmap list_fmap app]. rewrite fst_zip by (rewrite (hd_ids _ _ _ Hh); lia). done.
  - unfold bt_update. by rewrite (ids_of_blocks_spec c3 t' ts Hh' : ids_of_blocks c3 (bt_blocks t) = Ok ids).
  - split; try done.
    + by apply store_swaps.
    + change (slots t') with (slots t). apply (share_frame c2); [done|]. apply (share_app c2 L (slots t) ids); [|done|done| |].
      * eapply share_frame; [exact Hfr|]. intros i j x y id Hi Hj. apply Hsh; apply elem_of_app; by right.
      * intros x Hx. rewrite (uses_frame c) by done. destruct (Hin x Hx) as [_ Hn]. rewrite uses_app in Hn. by apply not_elem_of_app in Hn as [_ ?].
      * intros k i x Hi Hx. eexists. by rewrite (Ho2 k i x Hi Hx).
    + intros x Hx. change (all c3 dst) with (all c2 dst). rewrite (proj1 (proj1 Hc dst)). by apply Hin.
    + change (cows c3) with (cows c2). congruence.
Qed.
