(* ===== verification/BlockSpaceInv.v ===== *)
(** * The invariant of the block manager

    [manager_inv m A]: the manager's tables hold the tokens that the abstract map [A]
    gives to each sequence, over a consistent block store. *)

From stdpp Require Import base tactics list gmap sets strings.
From Stdlib Require Import ZArith QArith Qround Lia.
From S2P Require Import Prelude.
From S2P Require Import V0Sequence.
From S2P Require Import NaiveBlocks.
From S2P Require Import BlockStore.
From S2P Require Import BlockManager.
From S2P Require Import BlockTables.
From S2P Require Import BlockAppend.
From S2P Require Import BlockCreate.
From S2P Require Import BlockMove.

Local Open Scope Z_scope.

(** ** All tables *)

Definition values {K} `{Countable K} (ts : gmap K BlockTable) : list BlockTable := (map_to_list ts).*2.
Definition tabs (m : BlockSpaceManager) : list BlockTable := values (block_tables m) ++ values (cross_block_tables m).
(** The tables besides that of sequence [id], or besides that of an encoder. *)
Definition others (m : BlockSpaceManager) (id : Z) : list BlockTable :=
  values (delete id (block_tables m)) ++ values (cross_block_tables m).
Definition cross_others (m : BlockSpaceManager) (rid : string) : list BlockTable :=
  values (block_tables m) ++ values (delete rid (cross_block_tables m)).
Definition live (l : list BlockTable) : list nat := concat (slots <$> l).

Section values.
Context {K : Type} `{Countable K}.
Implicit Types ts : gmap K BlockTable.

Lemma elem_of_values ts t : t ∈ values ts <-> ∃ k, ts !! k = Some t.
Proof.
  unfold values. rewrite list_elem_of_fmap. split.
  - intros ([k t'] & -> & Hk%elem_of_map_to_list). eauto.
  - intros [k Hk]. exists (k, t). by rewrite elem_of_map_to_list.
Qed.

Lemma values_lookup ts k t : ts !! k = Some t -> values ts ≡ₚ t :: values (delete k ts).
Proof. intros Hk. unfold values. rewrite <-(map_to_list_delete ts k t Hk). done. Qed.

Lemma values_insert ts k t : values (<[k := t]> ts) ≡ₚ t :: values (delete k ts).
Proof.
  rewrite (values_lookup (<[k := t]> ts) k t) by apply lookup_insert_eq. by rewrite delete_insert_eq.
Qed.
End values.

Lemma live_perm l l' : l ≡ₚ l' -> live l ≡ₚ live l'.
Proof.
  unfold live. induction 1 as [|x l l' _ IH|x y l|l1 l2 l3 _ IH1 _ IH2]; rewrite ?fmap_cons; cbn [concat].
  - done.
  - by rewrite IH.
  - rewrite !app_assoc. by rewrite (Permutation_app_comm (slots x)).
  - by rewrite IH1.
Qed.

Lemma live_cons t l : live (t :: l) = slots t ++ live l.
Proof. done. Qed.

Lemma elem_of_live l i : i ∈ live l <-> ∃ t, t ∈ l ∧ i ∈ slots t.
Proof.
  unfold live. rewrite elem_of_concat. split.
  - intros (s & (t & -> & Ht)%list_elem_of_fmap & Hi). eauto.
  - intros (t & Ht & Hi). exists (slots t). split; [by apply list_elem_of_fmap_2|done].
Qed.

Lemma tabs_lookup m id t : block_tables m !! id = Some t -> tabs m ≡ₚ t :: others m id.
Proof. intros Ht. unfold tabs, others. by rewrite (values_lookup _ _ _ Ht). Qed.

Lemma tabs_insert m c id t : tabs (bm_with m c (<[id := t]> (block_tables m))) ≡ₚ t :: others m id.
Proof. unfold tabs, others. cbn. by rewrite values_insert. Qed.

(** ** The invariant *)

Record tab_ok (c : CpuGpuBlockAllocator) (t : BlockTable) (ts : list Z) : Prop := {
  tk_holds : holds c t ts;
  tk_slots : bt_num_full_slots t = len ts;
  tk_nodup : NoDup (bt_block_ids t);
  tk_on : ∃ d, on c d t;
}.

Lemma on_cfg c c' d t : same_cfg c c' -> on c d t -> on c' d t.
Proof. intros Hc H x Hx. rewrite (proj1 (proj1 Hc d)). by apply H. Qed.

Lemma tab_ok_frame c c' t ts : (∀ i, i ∈ slots t -> obj c' i = obj c i) -> same_cfg c c' -> tab_ok c t ts -> tab_ok c' t ts.
Proof.
  intros Hf Hc [H1 H2 H3 [d H4]]. split; try done; [by eapply holds_frame|]. exists d. by eapply on_cfg.
Qed.

Record core_inv (m : BlockSpaceManager) (A : gmap Z (list Z)) : Prop := {
  ci_store : store_inv (block_allocator m) (live (tabs m)) [];
  ci_share : share_ok (block_allocator m) (live (tabs m));
  ci_tables : ∀ id t, block_tables m !! id = Some t -> ∃ ts, A !! id = Some ts ∧ tab_ok (block_allocator m) t ts;
  ci_dom : ∀ id, is_Some (A !! id) -> is_Some (block_tables m !! id);
  ci_cross : ∀ rid t, cross_block_tables m !! rid = Some t -> on (block_allocator m) GPU t ∧ ∃ ts, tab_ok (block_allocator m) t ts;
  ci_size : bm_block_size m = bsize (block_allocator m);
  ci_window : bm_max_block_sliding_window m = None;
  ci_water : 0 <= bm_watermark_blocks m;
  ci_cows : cows (block_allocator m) = [];
}.

Record manager_inv (m : BlockSpaceManager) (A : gmap Z (list Z)) : Prop := {
  mi_core : core_inv m A;
  mi_track : ∀ id, is_Some (seq_last_access m !! id) <-> is_Some (block_tables m !! id);
}.

(** The table of sequence [id] is set. *)
Lemma core_put m A id c' t' ts' :
  let c := block_allocator m in let L := live (others m id) in
  core_inv m A -> same_cfg c c' -> (∀ j, j ∈ L -> obj c' j = obj c j) ->
  store_inv c' (slots t' ++ L) [] -> share_ok c' (slots t' ++ L) -> tab_ok c' t' ts' -> cows c' = [] ->
  core_inv (bm_with m c' (<[id := t']> (block_tables m))) (<[id := ts']> A).
Proof.
  intros c L [C1 C2 C3 C4 C5 C6 C7 C8 C9] Hc Hf Hst Hsh Ht Hcw.
  assert (HP : slots t' ++ L ≡ₚ live (tabs (bm_with m c' (<[id := t']> (block_tables m))))).
  { rewrite (live_perm _ _ (tabs_insert m c' id t')). done. }
  assert (Hfr : ∀ t, t ∈ others m id -> ∀ i, i ∈ slots t -> obj c' i = obj c i).
  { intros t Hin i Hi. apply Hf, elem_of_live. eauto. }
  split; cbn [bm_with block_allocator block_tables cross_block_tables bm_block_size bm_max_block_sliding_window bm_watermark_blocks]; try done.
  - by eapply store_perm, Hst.
  - by eapply share_perm, Hsh.
  - intros id' t. destruct (decide (id' = id)) as [->|Hne].
    + rewrite !lookup_insert_eq. intros [= <-]. eauto.
    + rewrite !lookup_insert_ne by done. intros Hid. destruct (C3 id' t Hid) as (ts & ? & Hok). exists ts. split; [done|].
      eapply tab_ok_frame; [|exact Hc|exact Hok]. apply Hfr. unfold others. apply elem_of_app. left. apply elem_of_values.
      exists id'. by rewrite lookup_delete_ne.
  - intros id'. destruct (decide (id' = id)) as [->|Hne]; [by rewrite !lookup_insert_eq|]. rewrite !lookup_insert_ne by done. apply C4.
  - intros rid t Hr. destruct (C5 rid t Hr) as (Hon' & ts & Hok). split; [by eapply on_cfg|]. exists ts. eapply tab_ok_frame; [|exact Hc|exact Hok].
    apply Hfr. unfold others. apply elem_of_app. right. apply elem_of_values. eauto.
  - rewrite C6. symmetry. apply (proj1 Hc GPU).
Qed.

(** It is dropped. *)
Lemma core_drop m A id c' :
  let c := block_allocator m in let L := live (others m id) in
  core_inv m A -> same_cfg c c' -> (∀ j, j ∈ L -> obj c' j = obj c j) -> store_inv c' L [] -> share_ok c' L -> cows c' = [] ->
  core_inv (bm_with m c' (delete id (block_tables m))) (delete id A).
Proof.
  intros c L [C1 C2 C3 C4 C5 C6 C7 C8 C9] Hc Hf Hst Hsh Hcw.
  assert (Hfr : ∀ t, t ∈ others m id -> ∀ i, i ∈ slots t -> obj c' i = obj c i).
  { intros t Hin i Hi. apply Hf, elem_of_live. eauto. }
  split; cbn [bm_with block_allocator block_tables cross_block_tables bm_block_size bm_max_block_sliding_window bm_watermark_blocks]; try done.
  - intros id' t Hid. apply lookup_delete_Some in Hid as [Hne Hid]. rewrite lookup_delete_ne by done.
    destruct (C3 id' t Hid) as (ts & ? & Hok). exists ts. split; [done|].
    eapply tab_ok_frame; [|exact Hc|exact Hok]. apply Hfr. unfold others. apply elem_of_app. left. apply elem_of_values.
    exists id'. by rewrite lookup_delete_ne.
  - intros id' [ts Hid]. apply lookup_delete_Some in Hid as [Hne Hid]. rewrite lookup_delete_ne by done. apply C4. eauto.
  - intros rid t Hr. destruct (C5 rid t Hr) as (Hon' & ts & Hok). split; [by eapply on_cfg|]. exists ts. eapply tab_ok_frame; [|exact Hc|exact Hok].
    apply Hfr. unfold others. apply elem_of_app. right. apply elem_of_values. eauto.
  - rewrite C6. symmetry. apply (proj1 Hc GPU).
Qed.

(** The same for the table of an encoder. *)
Lemma cross_put m A rid c' t' ts' :
  let c := block_allocator m in let L := live (cross_others m rid) in
  core_inv m A -> same_cfg c c' -> (∀ j, j ∈ L -> obj c' j = obj c j) ->
  store_inv c' (slots t' ++ L) [] -> share_ok c' (slots t' ++ L) -> tab_ok c' t' ts' -> on c' GPU t' -> cows c' = [] ->
  core_inv (bm_with_cross m c' (<[rid := t']> (cross_block_tables m))) A.
Proof.
  intros c L [C1 C2 C3 C4 C5 C6 C7 C8 C9] Hc Hf Hst Hsh Ht Hgpu Hcw.
  assert (HP : slots t' ++ L ≡ₚ live (tabs (bm_with_cross m c' (<[rid := t']> (cross_block_tables m))))).
  { unfold L. rewrite <-live_cons. apply live_perm. unfold tabs, cross_others. cbn. rewrite values_insert. apply Permutation_middle. }
  assert (Hfr : ∀ t, t ∈ cross_others m rid -> ∀ i, i ∈ slots t -> obj c' i = obj c i).
  { intros t Hin i Hi. apply Hf, elem_of_live. eauto. }
  split; cbn [bm_with_cross block_allocator block_tables cross_block_tables bm_block_size bm_max_block_sliding_window bm_watermark_blocks]; try done.
  - by eapply store_perm, Hst.
  - by eapply share_perm, Hsh.
  - intros id t Hid. destruct (C3 id t Hid) as (ts & ? & Hok). exists ts. split; [done|].
    eapply tab_ok_frame; [|exact Hc|exact Hok]. apply Hfr. apply elem_of_app. left. apply elem_of_values. eauto.
  - intros rid' t. destruct (decide (rid' = rid)) as [->|Hne]; [rewrite lookup_insert_eq; intros [= <-]; eauto|].
    rewrite lookup_insert_ne by done. intros Hr. destruct (C5 rid' t Hr) as (Hon' & ts & Hok). split; [by eapply on_cfg|]. exists ts.
    eapply tab_ok_frame; [|exact Hc|exact Hok]. apply Hfr. apply elem_of_app. right. apply elem_of_values. exists rid'.
    by rewrite lookup_delete_ne.
  - rewrite C6. symmetry. apply (proj1 Hc GPU).
Qed.

Lemma cross_drop m A rid c' :
  let c := block_allocator m in let L := live (cross_others m rid) in
  core_inv m A -> same_cfg c c' -> (∀ j, j ∈ L -> obj c' j = obj c j) -> store_inv c' L [] -> share_ok c' L -> cows c' = [] ->
  core_inv (bm_with_cross m c' (delete rid (cross_block_tables m))) A.
Proof.
  intros c L [C1 C2 C3 C4 C5 C6 C7 C8 C9] Hc Hf Hst Hsh Hcw.
  assert (Hfr : ∀ t, t ∈ cross_others m rid -> ∀ i, i ∈ slots t -> obj c' i = obj c i).
  { intros t Hin i Hi. apply Hf, elem_of_live. eauto. }
  split; cbn [bm_with_cross block_allocator block_tables cross_block_tables bm_block_size bm_max_block_sliding_window bm_watermark_blocks]; try done.
  - intros id t Hid. destruct (C3 id t Hid) as (ts & ? & Hok). exists ts. split; [done|].
    eapply tab_ok_frame; [|exact Hc|exact Hok]. apply Hfr. apply elem_of_app. left. apply elem_of_values. eauto.
  - intros rid' t Hr. apply lookup_delete_Some in Hr as [Hne Hr]. destruct (C5 rid' t Hr) as (Hon' & ts & Hok). split; [by eapply on_cfg|]. exists ts.
    eapply tab_ok_frame; [|exact Hc|exact Hok]. apply Hfr. apply elem_of_app. right. apply elem_of_values. exists rid'.
    by rewrite lookup_delete_ne.
  - rewrite C6. symmetry. apply (proj1 Hc GPU).
Qed.

(** What the invariant gives for one table. *)
Lemma core_table m A id t : core_inv m A -> block_tables m !! id = Some t ->
  ∃ ts, A !! id = Some ts ∧ tab_ok (block_allocator m) t ts ∧
    store_inv (block_allocator m) (slots t ++ live (others m id)) [] ∧ share_ok (block_allocator m) (slots t ++ live (others m id)).
Proof.
  intros Hi Ht. destruct (ci_tables _ _ Hi id t Ht) as (ts & HA & Hok). exists ts. split; [done|]. split; [done|].
  pose proof (live_perm _ _ (tabs_lookup m id t Ht)) as HP. rewrite live_cons in HP.
  split; [by eapply store_perm, (ci_store _ _ Hi)|by eapply share_perm, (ci_share _ _ Hi)].
Qed.

Lemma core_cross_table m A rid t : core_inv m A -> cross_block_tables m !! rid = Some t ->
  on (block_allocator m) GPU t ∧
  ∃ ts, tab_ok (block_allocator m) t ts ∧ store_inv (block_allocator m) (slots t ++ live (cross_others m rid)) [] ∧
    share_ok (block_allocator m) (slots t ++ live (cross_others m rid)).
Proof.
  intros Hi Ht. destruct (ci_cross _ _ Hi rid t Ht) as (Hon & ts & Hok). split; [done|]. exists ts. split; [done|].
  assert (HP : live (tabs m) ≡ₚ slots t ++ live (cross_others m rid)).
  { rewrite <-live_cons. apply live_perm. unfold tabs, cross_others. rewrite (values_lookup _ _ _ Ht). symmetry. apply Permutation_middle. }
  split; [by eapply store_perm, (ci_store _ _ Hi)|by eapply share_perm, (ci_share _ _ Hi)].
Qed.

Lemma others_absent m id : block_tables m !! id = None -> others m id = tabs m.
Proof. intros Hn. unfold others, tabs. by rewrite delete_id. Qed.

Lemma cross_others_absent m rid : cross_block_tables m !! rid = None -> cross_others m rid = tabs m.
Proof. intros Hn. unfold cross_others, tabs. by rewrite delete_id. Qed.
