(* ===== verification/BlockSpaceOps.v ===== *)
(** * The operations of the block manager keep its invariant

    Each operation under the guard the scheduler checks: it returns, and the abstract
    map changes as specified. *)

From stdpp Require Import base tactics list gmap sets strings sorting.
From Stdlib Require Import ZArith QArith Qround Lia.
From S2P Require Import Prelude.
From S2P Require Import V0Sequence.
From S2P Require Import NaiveBlocks.
From S2P Require Import BlockStore.
From S2P Require Import BlockManager.
From S2P Require Import BlockTables.
From S2P Require Import BlockAppend.
From S2P Require Import BlockCreate.
From S2P Require Import BlockMove.
From S2P Require Import BlockSpaceInv.

Local Open Scope Z_scope.

(** ** Appending *)

Lemma store_cows c L X l : store_inv c L X ->
  let c' := with_alloc c GPU (na_with_cows (cg_gpu c) l) in store_inv c' L X ∧ (∀ j, obj c' j = obj c j) ∧ same_cfg c c'.
Proof.
  intros [H1 H2 H3 H4 H5 H6 H7 H8] c'. split; [|split; [done|by apply with_alloc_cfg]]. split; try done.
  - intros []; [exact (H2 CPU)|done].
  - intros []; [exact (H5 CPU)|exact (H5 GPU)].
  - intros d. rewrite (uses_frame c) by done. destruct (H6 d) as [J1 J2 J3]. by destruct d; split.
  - intros x []; apply H7.
Qed.

Lemma written_nodup U ids new ids' k n ps :
  NoDup ids -> NoDup new -> (∀ x, x ∈ new -> x ∉ ids) -> ids_written U (ids ++ new) ids' k n ps -> NoDup ids'.
Proof.
  intros Hn1 Hn2 Hdis [W1 W2 W3 _ _ _]. assert (Hn : NoDup (ids ++ new)) by (apply NoDup_app; split_and!; [done| |done]; intros x Hx Hx'; by apply (Hdis x)).
  apply NoDup_alt. intros i j x Hi Hj.
  assert (Hone : ∀ i j, (k <= i < k + n)%nat -> ids' !! i = Some x -> ids' !! j = Some x -> i = j).
  { intros i0 j0 Hr Hi0 Hj0. specialize (W3 i0 x Hr Hi0). rewrite occ_app, (occ_delete x _ i0 x Hi0), decide_True in W3 by done.
    destruct (decide (i0 = j0)) as [|Hne]; [done|]. assert (Hin : x ∈ delete i0 ids') by (eapply lookup_delete_elem; [exact Hj0|lia]). pose proof (occ_pos x _ Hin).
    pose proof (occ_nonneg x U). lia. }
  destruct (decide (k <= i < k + n)%nat) as [Hr|Hr]; [by apply Hone|].
  destruct (decide (k <= j < k + n)%nat) as [Hr'|Hr']; [symmetry; by apply Hone|].
  rewrite W2 in Hi, Hj by done. by eapply NoDup_lookup.
Qed.

Lemma append_slots_spec m A s n t ts us :
  manager_inv m A -> block_tables m !! seq_id s = Some t -> A !! seq_id s = Some ts -> seq_token_ids s = ts ++ us ->
  on (block_allocator m) GPU t -> slots t ≠ [] -> 0 <= n ->
  get_num_blocks_touched_by_append_slots t us n <= len (free_list (block_allocator m) GPU) ->
  ∃ ps m' c' t' new w, append_slots m s n = Ok (ps, m') ∧ manager_inv m' (<[seq_id s := seq_token_ids s]> A) ∧
    m' = bm_with m (cg_clear_copy_on_writes c').2 (<[seq_id s := t']> (block_tables m)) ∧
    appended_table (block_allocator m) t ts us c' t' (live (others m (seq_id s))) new ps w ∧
    len (free_list (block_allocator m) GPU) - get_num_blocks_touched_by_append_slots t us n <= len (free_list (block_allocator m') GPU) ∧
    len (seq_token_ids s) + n <= len (slots t') * bm_block_size m.
Proof.
  intros [Hi Htr] Ht HA Hseq Hon Hne Hn Hfree. set (c := block_allocator m) in *. set (L := live (others m (seq_id s))).
  destruct (core_table m A _ t Hi Ht) as (ts' & HA' & [Hh Hfull Hnd _] & Hst & Hsh). rewrite HA in HA'. injection HA' as <-.
  fold c L in Hh, Hst, Hsh.
  destruct (bt_append_spec c t ts us n (Some (seq_num_computed_tokens s)) L) as (c' & t' & new & ps & w & E & Hat & Hfr & Hroom); try done.
  pose proof Hat as [[B1 B2 B3 B4 B5 B6 B7 B8] W R N Nd C].
  destruct (store_cows c' (slots t' ++ L) [] [] B1) as (D1 & D2 & D3). set (c2 := with_alloc c' GPU _) in *.
  assert (Hus : get_unseen_token_ids t (seq_token_ids s) = us).
  { unfold get_unseen_token_ids. rewrite Hfull, Hseq, Nat2Z.id. by rewrite drop_app_length. }
  assert (Hc : same_cfg c c2) by (by etrans).
  exists ps, (bm_with m c2 (<[seq_id s := t']> (block_tables m))), c', t', new, w. split_and!; try done.
  - unfold append_slots. rewrite Ht. cbn [or_raise mbind result_bind]. rewrite Hus. fold c. rewrite E. cbn [mbind result_bind fst snd].
    unfold cg_clear_copy_on_writes, na_clear_copy_on_writes. cbn [fst snd]. f_equal. f_equal.
    change (na_copy_on_writes (cg_gpu c')) with (cows c'). rewrite C. unfold c. by rewrite (ci_cows _ _ Hi).
  - split; [|intros id; cbn; rewrite Htr; destruct (decide (id = seq_id s)) as [->|]; [rewrite lookup_insert_eq, Ht; split; eauto|by rewrite lookup_insert_ne]].
    apply (core_put m A (seq_id s) c2 t'); fold c L; try done.
    + rewrite Hseq. split.
      * eapply holds_frame; [|exact D3|exact B3]. done.
      * exact B8.
      * eapply written_nodup; [exact Hnd|exact Nd| |exact W].
        intros x Hx Hin. apply (N x Hx), elem_of_app. by left.
      * exists GPU. intros x Hx. rewrite (proj1 (proj1 D3 GPU)). by apply B4.
  - rewrite Hseq, length_app, Nat2Z.inj_add, (ci_size _ _ Hi). fold c. lia.
Qed.

(** ** Forking *)

Lemma track_insert m A c t' id ts' :
  core_inv (bm_with m c (<[id := t']> (block_tables m))) (<[id := ts']> A) ->
  (∀ id, is_Some (seq_last_access m !! id) <-> is_Some (block_tables m !! id)) -> block_tables m !! id = None ->
  ∃ m', add_seq (bm_with m c (<[id := t']> (block_tables m))) id = Ok m' ∧ manager_inv m' (<[id := ts']> A) ∧
    block_allocator m' = c ∧ block_tables m' = <[id := t']> (block_tables m) ∧ cross_block_tables m' = cross_block_tables m ∧
    bm_watermark_blocks m' = bm_watermark_blocks m.
Proof.
  intros Hc Htr Hn. unfold add_seq. cbn [bm_with seq_last_access].
  assert (Hna : seq_last_access m !! id = None).
  { destruct (seq_last_access m !! id) eqn:E; [|done]. assert (is_Some (block_tables m !! id)) as [? ?] by (apply Htr; eauto). congruence. }
  rewrite bool_decide_true by done. cbn [py_assert mbind result_bind]. eexists. split; [reflexivity|]. split; [|done]. split.
  - destruct Hc. by split.
  - intros id'. cbn. destruct (decide (id' = id)) as [->|]; [rewrite !lookup_insert_eq; split; eauto|by rewrite !lookup_insert_ne].
Qed.

Lemma fork_seq_spec m A pid t ts s :
  manager_inv m A -> block_tables m !! pid = Some t -> A !! pid = Some ts -> on (block_allocator m) GPU t -> slots t ≠ [] ->
  block_tables m !! seq_id s = None ->
  ∃ m' t', fork_seq t s m = Ok m' ∧ manager_inv m' (<[seq_id s := ts]> A) ∧ block_tables m' = <[seq_id s := t']> (block_tables m) ∧
    bt_block_ids t' = bt_block_ids t ∧ free_list (block_allocator m') GPU = free_list (block_allocator m) GPU ∧
    same_cfg (block_allocator m) (block_allocator m') ∧ cross_block_tables m' = cross_block_tables m ∧
    bm_watermark_blocks m' = bm_watermark_blocks m.
Proof.
  intros [Hi Htr] Ht HA Hon Hne Hn. destruct (core_table m A pid t Hi Ht) as (ts' & HA' & [Hh Hfull Hnd _] & Hst & Hsh).
  rewrite HA in HA'. injection HA' as <-.
  destruct (bt_fork_spec (block_allocator m) t ts _ Hst Hsh Hh Hon Hne) as (c' & t' & E & Hstep & Hids & Hfull' & Hfl & Hcw).
  pose proof Hstep as [B1 B2 B3 B4 B5 B6 B7 B8].
  assert (HP : slots t ++ live (others m pid) ≡ₚ live (others m (seq_id s))).
  { rewrite <-live_cons, (others_absent m (seq_id s) Hn). apply live_perm. symmetry. by apply tabs_lookup. }
  destruct (track_insert m A c' t' (seq_id s) ts) as (m' & E' & Hm' & Ec & Et & Ex & Ew); [|done|done|].
  - apply core_put; try done.
    + intros j Hj. apply B5. by rewrite HP.
    + eapply store_perm, B1; [by rewrite HP|done].
    + eapply share_perm, B2. by rewrite HP.
    + split; [done|done|by rewrite Hids|by exists GPU].
    + rewrite Hcw. apply Hi.
  - exists m', t'. unfold fork_seq. rewrite E. cbn [mbind result_bind fst snd]. rewrite E', Ec. by split_and!.
Qed.

(** ** Freeing *)

Lemma share_drop c L L' : share_ok c (L ++ L') -> share_ok c L'.
Proof. intros H i j x y id Hi Hj. apply H; apply elem_of_app; by right. Qed.

Lemma bm_free_spec m A s :
  manager_inv m A -> (∀ t, block_tables m !! seq_id s = Some t -> on (block_allocator m) GPU t) ->
  ∃ m', bm_free m s = Ok m' ∧ manager_inv m' (delete (seq_id s) A) ∧ block_tables m' = delete (seq_id s) (block_tables m) ∧
    cross_block_tables m' = cross_block_tables m ∧ same_cfg (block_allocator m) (block_allocator m').
Proof.
  intros [Hi Htr] Hon. unfold bm_free. destruct (block_tables m !! seq_id s) as [t|] eqn:Ht.
  - destruct (core_table m A _ t Hi Ht) as (ts & HA & [Hh Hfull Hnd _] & Hst & Hsh).
    destruct (bt_free_spec (block_allocator m) t ts _ Hst Hh (Hon t eq_refl)) as (c' & E & H1 & Hf & Hc & Hg & Hw).
    destruct (proj2 (Htr (seq_id s))) as [la Hla]; [by rewrite Ht|]. rewrite Hla. cbn [or_raise mbind result_bind].
    unfold remove_seq. rewrite Hla. cbn [or_raise mbind result_bind bm_with_access block_allocator]. rewrite E. cbn [mbind result_bind].
    eexists. split; [reflexivity|]. split; [|done]. split.
    + assert (Hcore : core_inv (bm_with m c' (delete (seq_id s) (block_tables m))) (delete (seq_id s) A)).
      { apply core_drop; try done; [|by rewrite Hw; apply Hi]. eapply share_frame; [exact Hf|]. by eapply share_drop. }
      destruct Hcore. by split.
    + intros id. cbn. destruct (decide (id = seq_id s)) as [->|]; [by rewrite !lookup_delete_eq|by rewrite !lookup_delete_ne].
  - exists m. assert (HA : A !! seq_id s = None).
    { destruct (A !! seq_id s) eqn:E; [|done]. destruct (ci_dom _ _ Hi (seq_id s)) as [? ?]; [eauto|congruence]. }
    rewrite !delete_id by done. done.
Qed.

Lemma free_cross_spec m A g :
  manager_inv m A -> ∃ m', free_cross m g = Ok m' ∧ manager_inv m' A ∧ block_tables m' = block_tables m ∧
    cross_block_tables m' = delete (sg_request_id g) (cross_block_tables m) ∧ same_cfg (block_allocator m) (block_allocator m').
Proof.
  intros [Hi Htr]. unfold free_cross. destruct (cross_block_tables m !! sg_request_id g) as [t|] eqn:Ht.
  - destruct (core_cross_table m A _ t Hi Ht) as (Hon & ts & [Hh Hfull Hnd _] & Hst & Hsh).
    destruct (bt_free_spec (block_allocator m) t ts _ Hst Hh Hon) as (c' & E & H1 & Hf & Hc & Hg & Hw).
    rewrite E. cbn [mbind result_bind]. eexists. split; [reflexivity|]. split; [|done]. split; [|done].
    apply cross_drop; try done; [|by rewrite Hw; apply Hi]. eapply share_frame; [exact Hf|]. by eapply share_drop.
  - exists m. by rewrite delete_id.
Qed.

(** ** Allocating *)

Lemma allocate_sequence_spec m c s L :
  store_inv c L [] -> share_ok c L -> bm_block_size m = bsize c -> bm_max_block_sliding_window m = None ->
  let n := Z.to_nat (get_num_required_blocks (seq_token_ids s) (bm_block_size m) 0) in (n <= length (free_list c GPU))%nat ->
  ∃ c' t', _allocate_sequence m c s = Ok (c', t') ∧ tab_ok c' t' (seq_token_ids s) ∧ store_inv c' (slots t' ++ L) [] ∧
    share_ok c' (slots t' ++ L) ∧ (∀ j, j ∈ L -> obj c' j = obj c j) ∧ same_cfg c c' ∧ cows c' = cows c ∧ on c' GPU t' ∧
    (seq_token_ids s ≠ [] -> slots t' ≠ []) ∧ free_list c' GPU = drop n (free_list c GPU).
Proof.
  intros H Hsh Hbs Hwin n Hn. pose proof (sv_bs _ _ _ H) as Hb0. unfold _allocate_sequence, bt_new. cbn [ids_of_blocks num_token_ids mbind result_bind].
  rewrite Hbs, Hwin. fold (new_table (bsize c)). unfold n, get_num_required_blocks in *. rewrite Hbs in *. rewrite Z.add_0_r in *.
  destruct (seq_token_ids s) as [|z ts] eqn:Es.
  - replace (Z.to_nat (cdiv (len []) (bsize c))) with 0%nat.
    2:{ rewrite (cdiv_unique (len []) (bsize c) 0); [done|done|cbn; lia]. }
    exists c, (new_table (bsize c)). rewrite drop_0. split; [done|]. split; [|split_and!; try done; [by intros x ?%elem_of_nil]].
    split; [|done|constructor|exists GPU; by intros x ?%elem_of_nil]. by split.
  - destruct (bt_allocate_spec c (z :: ts) L H Hsh) as (c' & t' & E & [B1 B2 B3 B4 B5 B6 B7 B8] & Hids & Hfl & Hcw); [done|done|].
    exists c', t'. split; [exact E|]. split; [|split_and!; try done].
    + split; [done|done| |by exists GPU]. rewrite Hids. eapply sublist_NoDup; [apply (do_nodup _ _ (sv_dev _ _ _ H GPU))|apply sublist_take].
    + intros _ Hnil. pose proof (hd_fit _ _ _ B3) as Hfit. rewrite Hnil in Hfit. cbn in Hfit. lia.
Qed.

(** All sequences of the group get the first one's prompt. *)
Definition prompt_all (p : list Z) (l : list Sequence) (A : gmap Z (list Z)) : gmap Z (list Z) :=
  foldl (fun A s => <[seq_id s := p]> A) A l.

Lemma fork_all_spec rest : ∀ m A id t ts,
  manager_inv m A -> block_tables m !! id = Some t -> A !! id = Some ts -> on (block_allocator m) GPU t -> slots t ≠ [] ->
  NoDup (seq_id <$> rest) -> (∀ s, s ∈ rest -> block_tables m !! seq_id s = None) ->
  ∃ m', for_each (fork_seq t) rest m = Ok m' ∧ manager_inv m' (prompt_all ts rest A) ∧
    free_list (block_allocator m') GPU = free_list (block_allocator m) GPU ∧ same_cfg (block_allocator m) (block_allocator m') ∧
    cross_block_tables m' = cross_block_tables m ∧ bm_watermark_blocks m' = bm_watermark_blocks m ∧
    (∀ s, s ∈ rest -> ∃ t', block_tables m' !! seq_id s = Some t' ∧ bt_block_ids t' = bt_block_ids t) ∧
    (∀ i, i ∉ seq_id <$> rest -> block_tables m' !! i = block_tables m !! i).
Proof.
  induction rest as [|s rest IH]; intros m A id t ts Hm Ht HA Hon Hne Hnd Hab.
  { exists m. split; [done|]. split; [done|]. split; [done|]. split; [done|]. split_and!; try done. by intros s ?%elem_of_nil. }
  rewrite fmap_cons in Hnd. apply NoDup_cons in Hnd as [Hns Hnd]. assert (Hs : block_tables m !! seq_id s = None) by (apply Hab; by left).
  destruct (fork_seq_spec m A id t ts s Hm Ht HA Hon Hne Hs) as (m1 & t1 & E & Hm1 & Et1 & Hids & Hfl & Hc & Hx & Hw).
  assert (Hid : id ≠ seq_id s) by (intros ->; congruence).
  destruct (IH m1 (<[seq_id s := ts]> A) id t ts Hm1) as (m2 & E2 & Hm2 & Hfl2 & Hc2 & Hx2 & Hw2 & Hall & Hsame); try done.
  { by rewrite Et1, lookup_insert_ne. } { by rewrite lookup_insert_ne. }
  { intros x Hx'. rewrite (proj1 (proj1 Hc GPU)). by apply Hon. }
  { intros s' Hs'. rewrite Et1, lookup_insert_ne; [apply Hab; by right|]. intros Heq. apply Hns. rewrite Heq. by apply list_elem_of_fmap_2. }
  exists m2. cbn [for_each]. rewrite E. cbn [mbind result_bind]. split; [done|]. split; [done|]. split; [congruence|]. split; [by etrans|].
  split; [congruence|]. split; [congruence|]. split.
  - intros s' [->|Hs']%elem_of_cons; [|by apply Hall]. exists t1. rewrite Hsame by done. by rewrite Et1, lookup_insert_eq.
  - intros i Hi. rewrite fmap_cons in Hi. apply not_elem_of_cons in Hi as [Hi1 Hi2]. rewrite Hsame by done. by rewrite Et1, lookup_insert_ne.
Qed.

(** The waiting sequences are new to the manager; only a single one may be empty. *)
Record alloc_pre (m : BlockSpaceManager) (g : SequenceGroup) (s0 : Sequence) (rest : list Sequence) : Prop := {
  ac_seqs : get_seqs g WAITING = s0 :: rest;
  ac_nodup : NoDup (seq_id <$> s0 :: rest);
  ac_new : ∀ s, s ∈ s0 :: rest -> block_tables m !! seq_id s = None;
  ac_cross : cross_block_tables m !! sg_request_id g = None;
  ac_prompt : rest ≠ [] -> seq_token_ids s0 ≠ [];
}.

(** Blocks that a group needs: [num_required_blocks] of [can_allocate]. *)
Definition group_blocks (m : BlockSpaceManager) (g : SequenceGroup) (s0 : Sequence) : Z :=
  get_num_required_blocks (seq_token_ids s0) (bm_block_size m) 0 +
  match sg_encoder_seq g with Some e => get_num_required_blocks (seq_token_ids e) (bm_block_size m) 0 | None => 0 end.

Lemma required_nonneg (ts : list Z) bs : 0 < bs -> 0 <= get_num_required_blocks ts bs 0.
Proof. intros Hb. apply cdiv_nonneg; lia. Qed.

(** The decoder sequences of a group get their tables. *)
Lemma allocate_seqs_spec m A s0 rest :
  manager_inv m A -> NoDup (seq_id <$> s0 :: rest) -> (∀ s, s ∈ s0 :: rest -> block_tables m !! seq_id s = None) ->
  (rest ≠ [] -> seq_token_ids s0 ≠ []) ->
  get_num_required_blocks (seq_token_ids s0) (bm_block_size m) 0 <= len (free_list (block_allocator m) GPU) ->
  ∃ c1 t1 m1 m2, _allocate_sequence m (block_allocator m) s0 = Ok (c1, t1) ∧
    add_seq (bm_with m c1 (<[seq_id s0 := t1]> (block_tables m))) (seq_id s0) = Ok m1 ∧ for_each (fork_seq t1) rest m1 = Ok m2 ∧
    manager_inv m2 (prompt_all (seq_token_ids s0) (s0 :: rest) A) ∧
    free_list (block_allocator m2) GPU =
      drop (Z.to_nat (get_num_required_blocks (seq_token_ids s0) (bm_block_size m) 0)) (free_list (block_allocator m) GPU) ∧
    same_cfg (block_allocator m) (block_allocator m2) ∧ cross_block_tables m2 = cross_block_tables m ∧
    bm_watermark_blocks m2 = bm_watermark_blocks m ∧ block_tables m2 !! seq_id s0 = Some t1 ∧ on (block_allocator m2) GPU t1 ∧
    (∀ s, s ∈ rest -> ∃ t', block_tables m2 !! seq_id s = Some t' ∧ bt_block_ids t' = bt_block_ids t1) ∧
    (∀ id, id ∉ seq_id <$> s0 :: rest -> block_tables m2 !! id = block_tables m !! id).
Proof.
  intros [Hi Htr] P2 P3 P5 Hcap. pose proof (ci_store _ _ Hi) as Hst.
  pose proof (ci_size _ _ Hi) as Esz. assert (Hs0 : block_tables m !! seq_id s0 = None) by (apply P3; by left).
  destruct (allocate_sequence_spec m (block_allocator m) s0 _ Hst (ci_share _ _ Hi) Esz (ci_window _ _ Hi))
    as (c1 & t1 & E1 & Hok1 & H1 & Hsh1 & Hf1 & Hc1 & Hw1 & Hon1 & Hne1 & Hfl1); [lia|].
  destruct (track_insert m A c1 t1 (seq_id s0) (seq_token_ids s0)) as (m1 & Em1 & Hm1 & Ec1 & Et1 & Ex1 & Ewm1); [|done|done|].
  { apply core_put; rewrite ?(others_absent m _ Hs0); try done. rewrite Hw1. apply Hi. }
  rewrite fmap_cons in P2. apply NoDup_cons in P2 as [P2a P2b]. exists c1, t1, m1. destruct rest as [|s1 rest'] eqn:Er.
  - exists m1. rewrite Ec1. split; [done|]. split; [done|]. split; [done|]. split; [done|]. split; [done|]. split; [done|]. split; [done|].
    split; [done|]. split; [by rewrite Et1, lookup_insert_eq|]. split; [done|]. split; [by intros s ?%elem_of_nil|].
    intros id Hid. rewrite Et1, lookup_insert_ne; [done|]. intros <-. apply Hid. by left.
  - rewrite <-Er in *. assert (Hrest : rest ≠ []) by (by rewrite Er). specialize (Hne1 (P5 Hrest)).
    destruct (fork_all_spec rest m1 (<[seq_id s0 := seq_token_ids s0]> A) (seq_id s0) t1 (seq_token_ids s0) Hm1)
      as (m2 & E2 & Hm2 & Hfl2 & Hc2 & Hx2 & Hw2 & Hall & Hsame).
    { by rewrite Et1, lookup_insert_eq. } { by rewrite lookup_insert_eq. } { by rewrite Ec1. } { done. } { done. }
    { intros s Hs. rewrite Et1, lookup_insert_ne; [apply P3; by right|]. intros Heq. apply P2a. rewrite Heq. by apply list_elem_of_fmap_2. }
    rewrite Ec1 in Hfl2, Hc2. exists m2. split; [done|]. split; [done|]. split; [done|]. split; [done|]. split; [congruence|].
    split; [by etrans|]. split; [congruence|]. split; [congruence|]. split; [rewrite Hsame by done; by rewrite Et1, lookup_insert_eq|].
    split; [by eapply on_cfg|]. split; [done|]. intros id Hid. rewrite fmap_cons in Hid. apply not_elem_of_cons in Hid as [Hid1 Hid2].
    rewrite Hsame by done. by rewrite Et1, lookup_insert_ne.
Qed.

Lemma bm_allocate_spec m A g s0 rest :
  manager_inv m A -> alloc_pre m g s0 rest -> group_blocks m g s0 <= len (free_list (block_allocator m) GPU) ->
  ∃ m', bm_allocate m g = Ok m' ∧ manager_inv m' (prompt_all (seq_token_ids s0) (s0 :: rest) A) ∧
    len (free_list (block_allocator m') GPU) = len (free_list (block_allocator m) GPU) - group_blocks m g s0 ∧
    bm_watermark_blocks m' = bm_watermark_blocks m ∧
    (∃ t0, block_tables m' !! seq_id s0 = Some t0 ∧ on (block_allocator m') GPU t0 ∧
      ∀ s, s ∈ rest -> ∃ t, block_tables m' !! seq_id s = Some t ∧ bt_block_ids t = bt_block_ids t0) ∧
    (∀ id, id ∉ seq_id <$> s0 :: rest -> block_tables m' !! id = block_tables m !! id) ∧
    same_cfg (block_allocator m) (block_allocator m') ∧
    dom (cross_block_tables m') =
      (if is_encoder_decoder g then {[sg_request_id g]} ∪ dom (cross_block_tables m) else dom (cross_block_tables m)).
Proof.
  intros Hm [P1 P2 P3 P4 P5] Hcap. pose proof (ci_size _ _ (mi_core _ _ Hm)) as Esz.
  assert (Hb0 : 0 < bm_block_size m) by (rewrite Esz; apply (sv_bs _ _ _ (ci_store _ _ (mi_core _ _ Hm)))).
  pose proof (required_nonneg (seq_token_ids s0) _ Hb0) as Hr0.
  assert (Henc0 : 0 <= match sg_encoder_seq g with Some e => get_num_required_blocks (seq_token_ids e) (bm_block_size m) 0 | None => 0 end)
    by (destruct (sg_encoder_seq g); [by apply required_nonneg|lia]).
  unfold group_blocks in *.
  destruct (allocate_seqs_spec m A s0 rest Hm P2 P3 P5) as (c1 & t1 & m1 & m2 & E1 & Em1 & E2 & Hm2 & Hfl2 & Hc2 & Hx2 & Hwm2 & Ht2 & Hon2 & Hall & Hsame); [lia|].
  assert (Hpre : bm_allocate m g = match sg_encoder_seq g with
    | None => Ok m2
    | Some e => y ← _allocate_sequence m2 (block_allocator m2) e;
        Ok (bm_with_cross m2 y.1 (<[sg_request_id g := y.2]> (cross_block_tables m2)))
    end).
  { unfold bm_allocate. rewrite P1. assert (Hf : forallb (fun s => bool_decide (block_tables m !! seq_id s = None)) (s0 :: rest) = true).
    { apply forallb_forall. intros s Hs%list_elem_of_In. by apply bool_decide_eq_true, P3. }
    rewrite Hf. cbn [py_assert mbind result_bind head or_raise]. rewrite E1. cbn [mbind result_bind fst snd]. rewrite Em1.
    cbn [mbind result_bind tail]. rewrite E2. cbn [mbind result_bind]. rewrite Hx2, P4, bool_decide_true by done. cbn [py_assert mbind result_bind].
    unfold check_no_caching_or_swa_for_blockmgr_encdec. rewrite (ci_window _ _ (mi_core _ _ Hm2)). by destruct (sg_encoder_seq g). }
  rewrite Hpre. clear Hpre. unfold is_encoder_decoder. destruct (sg_encoder_seq g) as [e|].
  - destruct Hm2 as [Hi2 Htr2].
    assert (Esz2 : bm_block_size m2 = bm_block_size m) by (rewrite (ci_size _ _ Hi2), Esz; apply (proj1 Hc2 GPU)).
    pose proof (required_nonneg (seq_token_ids e) _ Hb0) as Hre.
    destruct (allocate_sequence_spec m2 (block_allocator m2) e _ (ci_store _ _ Hi2) (ci_share _ _ Hi2) (ci_size _ _ Hi2) (ci_window _ _ Hi2))
      as (c3 & t3 & E3 & Hok3 & H3 & Hsh3 & Hf3 & Hc3 & Hw3 & Hon3 & _ & Hfl3).
    { rewrite Esz2, Hfl2, length_drop. lia. }
    rewrite E3. cbn [mbind result_bind fst snd]. eexists. split; [reflexivity|]. split; [split; [|done]|].
    + apply (cross_put m2 _ _ c3 t3 (seq_token_ids e)); rewrite ?cross_others_absent by (by rewrite Hx2); try done. rewrite Hw3. apply Hi2.
    + cbn [bm_with_cross block_allocator bm_watermark_blocks block_tables cross_block_tables]. split; [|split; [done|split; [|split; [done|split; [by etrans|]]]]].
      * rewrite Hfl3, length_drop, Hfl2, length_drop, Esz2. lia.
      * exists t1. split; [done|]. split; [by eapply on_cfg|done].
      * rewrite bool_decide_true by done. by rewrite dom_insert_L, Hx2.
  - exists m2. split; [done|]. split; [done|]. split; [rewrite Hfl2, length_drop; lia|]. split; [done|]. split; [eauto|].
    split; [done|]. split; [done|]. rewrite bool_decide_false by (intros Hn; by apply Hn). by rewrite Hx2.
Qed.

(** ** Swapping *)

(** The position of a block on its device. *)
Definition phys (c : CpuGpuBlockAllocator) (d : Device) (x : nat) : nat :=
  match cg_get_physical_block_id c d x with Ok n => n | Err _ => 0%nat end.

Lemma phys_spec c d x : x ∈ all c d ->
  cg_get_physical_block_id c d x = Ok (phys c d x) ∧ merge_sort le (elements (all c d)) !! phys c d x = Some x.
Proof.
  intros Hx. unfold phys, cg_get_physical_block_id, na_get_physical_block_id.
  assert (Hin : x ∈ merge_sort le (elements (all c d))) by (rewrite merge_sort_Permutation; by apply elem_of_elements).
  destruct (list_find (x =.) (merge_sort le (elements (all c d)))) as [[i y]|] eqn:E.
  - cbn. split; [done|]. apply list_find_Some in E as (Hi & -> & _). done.
  - exfalso. apply list_find_None in E. rewrite Forall_forall in E. by apply (E x Hin).
Qed.

Lemma physical_mapping_spec c src dst l : ∀ acc,
  (∀ x y, (x, y) ∈ l -> x ∈ all c src ∧ y ∈ all c dst) -> NoDup (acc.*1 ++ (phys c src <$> l.*1)) ->
  physical_mapping c src dst l acc = Ok (acc ++ ((fun p => (phys c src p.1, phys c dst p.2)) <$> l)).
Proof.
  induction l as [|[x y] l IH]; intros acc Hl Hnd; [by rewrite app_nil_r|].
  destruct (Hl x y) as [Hx Hy]; [by left|]. cbn [physical_mapping].
  rewrite (proj1 (phys_spec c src x Hx)). cbn [mbind result_bind]. rewrite (proj1 (phys_spec c dst y Hy)). cbn [mbind result_bind].
  rewrite !fmap_cons in Hnd. cbn [fst snd] in Hnd.
  rewrite dict_set_new.
  - rewrite IH; [rewrite <-app_assoc; done|intros; apply Hl; by right|]. rewrite fmap_app. cbn [fmap list_fmap fst]. rewrite <-app_assoc. done.
  - apply NoDup_app in Hnd as (_ & Hd & _). intros Hin. apply (Hd _ Hin). by left.
Qed.

(** The pairs of device positions to copy when table [t] moves to the blocks of [t']. *)
Definition move_pairs (c : CpuGpuBlockAllocator) (src dst : Device) (t t' : BlockTable) : list (nat * nat) :=
  zip (phys c src <$> bt_block_ids t) (phys c dst <$> bt_block_ids t').

Lemma swap_seq_spec m A s src dst t acc :
  manager_inv m A -> block_tables m !! seq_id s = Some t -> on (block_allocator m) src t -> src ≠ dst ->
  (length (slots t) <= length (free_list (block_allocator m) dst))%nat ->
  ∃ m' t', swap_seq src dst s (acc, m) = Ok (acc ++ move_pairs (block_allocator m) src dst t t', m') ∧ manager_inv m' A ∧
    block_tables m' = <[seq_id s := t']> (block_tables m) ∧ on (block_allocator m') dst t' ∧ slots t' = slots t ∧
    same_cfg (block_allocator m) (block_allocator m') ∧
    length (free_list (block_allocator m') dst) = (length (free_list (block_allocator m) dst) - length (slots t))%nat.
Proof.
  intros [Hi Htr] Ht Hon Hne Hlen. destruct (core_table m A _ t Hi Ht) as (ts & HA & [Hh Hfull Hnd _] & Hst & Hsh).
  unfold swap_seq. rewrite Ht. cbn [or_raise mbind result_bind].
  destruct (slots t) as [|i0 sl0] eqn:Esl.
  - rewrite (hd_blocks _ _ _ Hh), Esl. cbn [fmap list_fmap]. exists m, t. rewrite insert_id by done.
    assert (Hids : bt_block_ids t = []) by (apply nil_length_inv; by rewrite (hd_ids _ _ _ Hh), Esl).
    unfold move_pairs. rewrite Hids. cbn. rewrite app_nil_r. split; [done|]. split; [done|]. split; [done|]. split; [|split_and!; [done..|lia]].
    intros x. rewrite Hids. by intros ?%elem_of_nil.
  - rewrite <-Esl in *. destruct (cg_swap_spec (block_allocator m) t ts _ src dst Hst Hsh Hh Hon Hne Hnd Hlen) as (c' & t' & E1 & E2 & Eb & Hm).
    pose proof Hm as [M1 M2 M3 M4 M5 M6 M7 M8 M9 M10 M11].
    assert (Hbl : ∃ r bl, bt_blocks t = r :: bl) by (rewrite (hd_blocks _ _ _ Hh), Esl; eauto). destruct Hbl as (r & bl & Hbl).
    rewrite Hbl. rewrite <-Hbl. rewrite E1. cbn [mbind result_bind fst snd]. rewrite E2. cbn [mbind result_bind].
    assert (Eph : ∀ d x, phys c' d x = phys (block_allocator m) d x).
    { intros d x. unfold phys, cg_get_physical_block_id, na_get_physical_block_id. by rewrite (proj1 (proj1 M7 d)). }
    assert (Hl' : length (bt_block_ids t) = length (bt_block_ids t')).
    { rewrite (hd_ids _ _ _ Hh), (hd_ids _ _ _ M3). unfold slots. by rewrite Eb. }
    rewrite physical_mapping_spec.
    + cbn [app mbind result_bind]. exists (bm_with m c' (<[seq_id s := t']> (block_tables m))), t'. split.
      { do 3 f_equal. unfold move_pairs. rewrite zip_with_fmap_l, zip_with_fmap_r.
        clear -Eph. revert Eph. generalize (bt_block_ids t'). induction (bt_block_ids t) as [|x l IH]; intros [|y l'] Eph; try done.
        cbn. rewrite !Eph. f_equal. by apply IH. }
      assert (HAid : <[seq_id s := ts]> A = A) by (by apply insert_id).
      split; [split; [rewrite <-HAid; apply core_put; try done|]|].
      * split; [done|by rewrite M10|done|by exists dst].
      * rewrite M8. apply Hi.
      * intros id. cbn. rewrite Htr. destruct (decide (id = seq_id s)) as [->|]; [rewrite lookup_insert_eq, Ht; split; eauto|by rewrite lookup_insert_ne].
      * split; [done|]. split; [done|]. split; [unfold slots; by rewrite Eb|]. split; [done|].
        cbn [bm_with block_allocator]. rewrite M11, length_drop. done.
    + intros x y [k Hk]%list_elem_of_lookup. apply lookup_zip_Some in Hk as [Hx Hy]. split.
      * rewrite (proj1 (proj1 M7 src)). apply Hon. by eapply list_elem_of_lookup_2.
      * apply M4. by eapply list_elem_of_lookup_2.
    + cbn [fmap list_fmap app]. rewrite fst_zip by lia. apply NoDup_fmap_2_strong; [|done].
      intros x y Hx Hy E. apply Hon in Hx, Hy. rewrite !Eph in E. apply phys_spec in Hx as [_ Hx], Hy as [_ Hy]. rewrite E in Hx. congruence.
Qed.
