(* ===== verification/BlockSpaceTheorems.v ===== *)
(** * Theorems on the block manager of the previous engine

    [mgr_reach m A]: manager [m] is reached by the calls of the scheduler under the
    checks the scheduler makes, and [A] is what an ideal manager would remember: the
    tokens stored for each sequence.  The manager refines that map; its checks
    [can_allocate] and [can_append_slots] suffice for the calls they guard; a step
    writes only to blocks no other sequence sees. *)

From stdpp Require Import base tactics list gmap sets strings.
From Stdlib Require Import ZArith QArith Qround Lia.
From S2P Require Import Prelude.
From S2P Require Import V0Sequence.
From S2P Require Import NaiveBlocks.
From S2P Require Import BlockStore.
From S2P Require Import BlockManager.
From S2P Require Import BlockTables.
From S2P Require Import BlockAppend.
From S2P Require Import BlockCreate.
From S2P Require Import BlockMove.
From S2P Require Import BlockSpaceInv.
From S2P Require Import BlockSpaceOps.

Local Open Scope Z_scope.

(** ** The initial state *)

Lemma na_init_spec n bs ids a : NoDup ids -> na_init n bs ids = Ok a ->
  device_ok a [] ∧ na_all_block_indices a = list_to_set ids ∧ na_block_size a = bs ∧ pool_ok (na_block_pool a) [] ∧
  (na_all_block_indices a ≠ ∅ -> (0 < bp_pool_size (na_block_pool a))%nat) ∧ na_copy_on_writes a = [].
Proof.
  intros Hnd E. unfold na_init in E. apply bind_Ok_inv in E as (u & Hs%py_assert_Ok%bool_decide_eq_true & E). injection E as <-.
  split_and!; cbn; try done.
  - split; cbn; [done| |].
    + intros b. rewrite elem_of_list_to_set. pose proof (not_elem_of_nil b). tauto.
    + intros b. rewrite lookup_gset_to_gmap. case_decide as Hb.
      * by rewrite option_guard_True.
      * by rewrite option_guard_False.
  - split; cbn.
    + apply NoDup_seq.
    + intros i [? ?]%elem_of_seq. rewrite length_replicate. lia.
    + apply length_replicate.
  - intros Hne. assert (n ≠ 0%nat); [|lia]. intros ->. apply Hne, leibniz_equiv. by apply size_empty_iff.
Qed.

Lemma cg_create_spec hpu ng nc bs c : 0 < bs -> cg_create hpu ng nc bs = Ok c -> store_inv c [] [] ∧ bsize c = bs ∧ cows c = [].
Proof.
  intros Hbs E. unfold cg_create in E. set (r := if hpu then 1%nat else 0%nat) in E. set (ids := seq r (ng + nc - r)) in E.
  assert (Hnd : NoDup ids) by apply NoDup_seq.
  apply bind_Ok_inv in E as (g & Eg & E). apply bind_Ok_inv in E as (k & Ek & E).
  apply bind_Ok_inv in E as (u & Hd%py_assert_Ok%bool_decide_eq_true & E). injection E as <-.
  destruct (na_init_spec _ _ _ _ ltac:(eapply sublist_NoDup; [exact Hnd|apply sublist_take]) Eg) as (G1 & G2 & G3 & G4 & G5 & G6).
  destruct (na_init_spec _ _ _ _ ltac:(eapply sublist_NoDup; [exact Hnd|apply sublist_drop]) Ek) as (K1 & K2 & K3 & K4 & K5 & K6).
  split; [|done]. split; cbn; try done.
  - by rewrite G3.
  - intros []; cbn; congruence.
  - by intros [].
  - by intros [].
  - intros b d. rewrite lookup_union, !lookup_gset_to_gmap.
    assert (Hdis : b ∈ na_all_block_indices k -> b ∈ na_all_block_indices g -> False) by set_solver.
    destruct (decide (b ∈ na_all_block_indices g)) as [Hg|Hg], (decide (b ∈ na_all_block_indices k)) as [Hk|Hk]; [by destruct Hdis| | |].
    + rewrite option_guard_True, option_guard_False by done. by destruct d.
    + rewrite option_guard_False, option_guard_True by done. by destruct d.
    + rewrite !option_guard_False by done. by destruct d.
Qed.

Lemma bm_init_inv hpu bs ng nc wm m : 0 < bs -> bm_init hpu bs ng nc wm None = Ok m -> manager_inv m ∅.
Proof.
  intros Hbs E. unfold bm_init in E. apply bind_Ok_inv in E as (u & Hw%py_assert_Ok%Qle_bool_iff & E). apply bind_Ok_inv in E as (c & Ec & E).
  injection E as <-. destruct (cg_create_spec _ _ _ _ _ Hbs Ec) as (Hs & Eb & Hcw).
  assert (Hq : 0 <= Qfloor (wm * inject_Z (Z.of_nat ng))).
  { rewrite <-(Qfloor_Z 0). apply Qfloor_resp_le, Qmult_le_0_compat; [done|]. unfold inject_Z, Qle. cbn. lia. }
  split; [split|]; try done.
  - by intros i j x y id ?%elem_of_nil.
  - intros id [ts Hts]. by rewrite lookup_empty in Hts.
  - intros id. cbn [seq_last_access block_tables]. rewrite !lookup_empty. by split; intros [? ?].
Qed.

(** ** Groups *)

Definition table_of (m : BlockSpaceManager) (s : Sequence) : BlockTable :=
  default (new_table (bm_block_size m)) (block_tables m !! seq_id s).

(** The sequence has blocks, all on device [d]. *)
Definition resident (m : BlockSpaceManager) (d : Device) (s : Sequence) : Prop :=
  ∃ t, block_tables m !! seq_id s = Some t ∧ on (block_allocator m) d t.

Definition total_blocks (m : BlockSpaceManager) (l : list Sequence) : nat :=
  sum_list_with (fun s => length (slots (table_of m s))) l.

Lemma swap_all_spec src dst l : ∀ acc m A,
  manager_inv m A -> src ≠ dst -> NoDup (seq_id <$> l) -> (∀ s, s ∈ l -> resident m src s) ->
  (total_blocks m l <= length (free_list (block_allocator m) dst))%nat ->
  ∃ acc' m', for_each (swap_seq src dst) l (acc, m) = Ok (acc', m') ∧ manager_inv m' A ∧ (∀ s, s ∈ l -> resident m' dst s) ∧
    (∀ id, id ∉ seq_id <$> l -> block_tables m' !! id = block_tables m !! id) ∧
    same_cfg (block_allocator m) (block_allocator m').
Proof.
  induction l as [|s l IH]; intros acc m A Hm Hne Hnd Hres Hcap.
  { exists acc, m. split; [done|]. split; [done|]. split; [by intros s ?%elem_of_nil|]. done. }
  rewrite fmap_cons in Hnd. apply NoDup_cons in Hnd as [Hns Hnd].
  destruct (Hres s) as (t & Ht & Hon); [by left|]. unfold total_blocks in Hcap. cbn [sum_list_with] in Hcap. fold (total_blocks m l) in Hcap.
  unfold table_of in Hcap at 1. rewrite Ht in Hcap. cbn [default from_option id] in Hcap.
  destruct (swap_seq_spec m A s src dst t acc Hm Ht Hon Hne ltac:(lia)) as (m1 & t1 & E1 & Hm1 & Et1 & Hon1 & Hsl1 & Hc1 & Hfl1).
  assert (Hother : ∀ s', s' ∈ l -> block_tables m1 !! seq_id s' = block_tables m !! seq_id s').
  { intros s' Hs'. rewrite Et1, lookup_insert_ne; [done|]. intros Heq. apply Hns. rewrite Heq. by apply list_elem_of_fmap_2. }
  assert (Hbs : bm_block_size m1 = bm_block_size m).
  { rewrite (ci_size _ _ (mi_core _ _ Hm1)), (ci_size _ _ (mi_core _ _ Hm)). apply (proj1 Hc1 GPU). }
  assert (Htot : total_blocks m1 l = total_blocks m l).
  { unfold total_blocks. clear -Hother Hbs. induction l as [|s' l IH]; [done|]. cbn [sum_list_with]. rewrite IH.
    - unfold table_of. by rewrite Hother, Hbs by left.
    - intros s'' Hs''. apply Hother. by right. }
  destruct (IH (acc ++ move_pairs (block_allocator m) src dst t t1) m1 A Hm1 Hne Hnd) as (acc2 & m2 & E2 & Hm2 & Hres2 & Hsame2 & Hc2).
  { intros s' Hs'. destruct (Hres s') as (t' & Ht' & Hon'); [by right|]. exists t'. rewrite Hother by done. split; [done|]. by eapply on_cfg. }
  { rewrite Htot, Hfl1. lia. }
  exists acc2, m2. cbn [for_each]. rewrite E1. cbn [mbind result_bind]. split; [done|]. split; [done|]. split; [|split; [|by etrans]].
  - intros s' [->|Hs']%elem_of_cons; [|by apply Hres2]. exists t1. rewrite Hsame2 by done. rewrite Et1, lookup_insert_eq. split; [done|].
    by eapply on_cfg.
  - intros id Hid. rewrite fmap_cons in Hid. apply not_elem_of_cons in Hid as [H1 H2]. rewrite Hsame2 by done. by rewrite Et1, lookup_insert_ne.
Qed.

(** The loop of the scheduler's [_append_slots]. *)
Definition sched_append_slots (n : Z) (s : Sequence) (x : list (nat * nat) * BlockSpaceManager) :
    result (list (nat * nat) * BlockSpaceManager) :=
  y ← append_slots x.2 s n; Ok (x.1 ++ y.1, y.2).

(** A running sequence: its stored tokens are a prefix of its tokens. *)
Definition runs (m : BlockSpaceManager) (A : gmap Z (list Z)) (s : Sequence) : Prop :=
  resident m GPU s ∧ slots (table_of m s) ≠ [] ∧ ∃ ts, A !! seq_id s = Some ts ∧ ts `prefix_of` seq_token_ids s.

Definition appended_all (l : list Sequence) (A : gmap Z (list Z)) : gmap Z (list Z) :=
  foldl (fun A s => <[seq_id s := seq_token_ids s]> A) A l.

Lemma runs_unseen m A s t ts us : manager_inv m A -> block_tables m !! seq_id s = Some t -> A !! seq_id s = Some ts ->
  seq_token_ids s = ts ++ us -> get_unseen_token_ids t (seq_token_ids s) = us.
Proof.
  intros Hm Ht HA Hs. destruct (ci_tables _ _ (mi_core _ _ Hm) _ t Ht) as (ts' & HA' & Hok). rewrite HA in HA'. injection HA' as <-.
  unfold get_unseen_token_ids. rewrite (tk_slots _ _ _ Hok), Hs, Nat2Z.id. by rewrite drop_app_length.
Qed.

Lemma touched_nonneg m A n l : ∀ j, manager_inv m A -> 0 <= n -> touched_by_append m l n = Ok j -> 0 <= j.
Proof.
  induction l as [|s l IH]; intros j Hm Hn E; cbn [touched_by_append] in E; [injection E as <-; done|].
  apply bind_Ok_inv in E as (t & Ht%or_raise_Ok & E). apply bind_Ok_inv in E as (j' & E' & E). injection E as <-.
  pose proof (IH j' Hm Hn E') as Hj. destruct (ci_tables _ _ (mi_core _ _ Hm) _ t Ht) as (ts & _ & Hok).
  pose proof (sv_bs _ _ _ (ci_store _ _ (mi_core _ _ Hm))) as Hbs.
  pose proof (touched_bounds t ts (get_unseen_token_ids t (seq_token_ids s)) n) as Hb. rewrite (hd_size _ _ _ (tk_holds _ _ _ Hok)) in Hb.
  specialize (Hb Hbs (tk_slots _ _ _ Hok) Hn). cbv zeta in Hb. set (q := len ts / _) in Hb.
  assert (q * bsize (block_allocator m) <= len ts) by (unfold q; rewrite Z.mul_comm; apply Z.mul_div_le; lia). nia.
Qed.

Lemma append_all_spec n l : ∀ acc m A k,
  manager_inv m A -> 0 <= n -> NoDup (seq_id <$> l) -> (∀ s, s ∈ l -> runs m A s) ->
  touched_by_append m l n = Ok k -> k <= len (free_list (block_allocator m) GPU) ->
  ∃ acc' m', for_each (sched_append_slots n) l (acc, m) = Ok (acc', m') ∧ manager_inv m' (appended_all l A).
Proof.
  induction l as [|s l IH]; intros acc m A k Hm Hn Hnd Hruns Hk Hcap; [by exists acc, m|].
  rewrite fmap_cons in Hnd. apply NoDup_cons in Hnd as [Hns Hnd].
  destruct (Hruns s) as ((t & Ht & Hon) & Hne & ts & HA & us & Hs); [by left|].
  unfold table_of in Hne. rewrite Ht in Hne. cbn [default from_option id] in Hne.
  cbn [touched_by_append] in Hk. rewrite Ht in Hk. cbn [or_raise mbind result_bind] in Hk. apply bind_Ok_inv in Hk as (k' & Hk' & Hk).
  injection Hk as <-. rewrite (runs_unseen m A s t ts us Hm Ht HA Hs) in Hcap.
  pose proof (touched_nonneg m A n l k' Hm Hn Hk') as Hk'0.
  destruct (append_slots_spec m A s n t ts us Hm Ht HA Hs Hon Hne Hn) as (ps & m1 & c1 & t1 & new & w & E1 & Hm1 & Em1 & Hat & Hfr & _); [lia|].
  assert (Hc1 : same_cfg (block_allocator m) (block_allocator m1)).
  { rewrite Em1. cbn [bm_with block_allocator]. etrans; [exact (tp_cfg _ _ _ _ _ _ (at_step _ _ _ _ _ _ _ _ _ _ Hat))|]. by apply with_alloc_cfg. }
  assert (Hother : ∀ s', s' ∈ l -> seq_id s' ≠ seq_id s).
  { intros s' Hs' Heq. apply Hns. rewrite <-Heq. by apply list_elem_of_fmap_2. }
  assert (Htab : ∀ s', s' ∈ l -> block_tables m1 !! seq_id s' = block_tables m !! seq_id s').
  { intros s' Hs'. rewrite Em1. cbn. rewrite lookup_insert_ne; [done|]. by apply not_eq_sym, Hother. }
  assert (Ht1 : ∀ l', (∀ s', s' ∈ l' -> s' ∈ l) -> touched_by_append m1 l' n = touched_by_append m l' n).
  { induction l' as [|s' l' IHl]; intros Hsub; [done|]. cbn [touched_by_append]. rewrite Htab by (apply Hsub; by left).
    rewrite IHl by (intros; apply Hsub; by right). done. }
  destruct (IH (acc ++ ps) m1 (<[seq_id s := seq_token_ids s]> A) k' Hm1 Hn Hnd) as (acc2 & m2 & E2 & Hm2).
  { intros s' Hs'. destruct (Hruns s') as ((t' & Ht' & Hon') & Hne' & ts' & HA' & Hp'); [by right|].
    split; [|split].
    - exists t'. rewrite Htab by done. split; [done|]. by eapply on_cfg.
    - unfold table_of in *. rewrite Htab by done. rewrite Ht' in *. done.
    - exists ts'. rewrite lookup_insert_ne by (by apply not_eq_sym, Hother). done. }
  { rewrite Ht1 by done. done. } { lia. }
  exists acc2, m2. cbn [for_each].
  assert (E : sched_append_slots n s (acc, m) = Ok (acc ++ ps, m1)) by (unfold sched_append_slots; cbn [fst snd]; by rewrite E1).
  rewrite E. split; [exact E2|exact Hm2].
Qed.

(** ** Reachable managers *)

(** The calls of the scheduler, each under the check made before it, on a manager
    built without a sliding window (the last argument of [bm_init] is [None]: with one,
    the checks do not suffice, see [sliding_window_check_unsound]).  A sequence is
    only freed while its blocks are on the GPU (see [abort_swapped_breaks_swapping]),
    and a swap finds room for all blocks of the group (see [can_swap_out_unsound]). *)
Inductive mgr_reach : BlockSpaceManager -> gmap Z (list Z) -> Prop :=
  | mg_init hpu bs ng nc wm m : 0 < bs -> bm_init hpu bs ng nc wm None = Ok m -> mgr_reach m ∅
  | mg_allocate m A g s0 rest n m' : mgr_reach m A -> alloc_pre m g s0 rest -> 0 <= n ->
      can_allocate m g n = Ok AllocOK -> bm_allocate m g = Ok m' ->
      mgr_reach m' (prompt_all (seq_token_ids s0) (s0 :: rest) A)
  | mg_append m A l n k acc m' : mgr_reach m A -> 0 <= n -> NoDup (seq_id <$> l) -> (∀ s, s ∈ l -> runs m A s) ->
      touched_by_append m l n = Ok k -> k <= cg_get_num_free_blocks (block_allocator m) GPU ->
      for_each (sched_append_slots n) l ([], m) = Ok (acc, m') -> mgr_reach m' (appended_all l A)
  | mg_fork m A parent child ts m' : mgr_reach m A -> resident m GPU parent -> slots (table_of m parent) ≠ [] ->
      A !! seq_id parent = Some ts -> block_tables m !! seq_id child = None ->
      bm_fork m parent child = Ok m' -> mgr_reach m' (<[seq_id child := ts]> A)
  | mg_free m A s m' : mgr_reach m A -> (∀ t, block_tables m !! seq_id s = Some t -> on (block_allocator m) GPU t) ->
      bm_free m s = Ok m' -> mgr_reach m' (delete (seq_id s) A)
  | mg_free_cross m A g m' : mgr_reach m A -> free_cross m g = Ok m' -> mgr_reach m' A
  | mg_swap_out m A g acc m' : mgr_reach m A -> NoDup (seq_id <$> get_seqs g RUNNING) ->
      (∀ s, s ∈ get_seqs g RUNNING -> resident m GPU s) ->
      (total_blocks m (get_seqs g RUNNING) <= length (free_list (block_allocator m) CPU))%nat ->
      swap_out m g = Ok (acc, m') -> mgr_reach m' A
  | mg_swap_in m A g acc m' : mgr_reach m A -> NoDup (seq_id <$> get_seqs g SWAPPED) ->
      (∀ s, s ∈ get_seqs g SWAPPED -> resident m CPU s) ->
      (total_blocks m (get_seqs g SWAPPED) <= length (free_list (block_allocator m) GPU))%nat ->
      swap_in m g = Ok (acc, m') -> mgr_reach m' A.

Lemma can_allocate_room m A g s0 rest n : manager_inv m A -> alloc_pre m g s0 rest -> 0 <= n -> can_allocate m g n = Ok AllocOK ->
  group_blocks m g s0 + bm_watermark_blocks m <= len (free_list (block_allocator m) GPU).
Proof.
  intros [Hi _] Hp Hn E. unfold can_allocate, check_no_caching_or_swa_for_blockmgr_encdec in E. rewrite (ci_window _ _ Hi) in E.
  assert (E' : (match sg_encoder_seq g with Some _ | _ => Ok tt end) = Ok tt) by (by destruct (sg_encoder_seq g)).
  rewrite E', (ac_seqs _ _ _ _ Hp) in E. cbn [mbind result_bind head or_raise] in E.
  pose proof (sv_bs _ _ _ (ci_store _ _ Hi)) as Hbs. rewrite <-(ci_size _ _ Hi) in Hbs.
  pose proof (cdiv_mono (len (seq_token_ids s0) + 0) (len (seq_token_ids s0) + n) _ Hbs ltac:(lia)) as Hmono.
  unfold group_blocks, get_num_required_blocks, cg_get_num_free_blocks, na_get_num_free_blocks in *. apply Ok_inj in E.
  match type of E with (if ?b then _ else _) = _ => destruct b; [done|] end.
  match type of E with (if ?b then _ else _) = _ => destruct b eqn:Hle; [|done] end. apply Z.leb_le in Hle.
  destruct (sg_encoder_seq g); lia.
Qed.

Lemma mgr_reach_inv m A : mgr_reach m A -> manager_inv m A.
Proof.
  induction 1 as [hpu bs ng nc wm m Hbs E|m A g s0 rest n m' _ IH Hp Hn Hc E|m A l n k acc m' _ IH Hn Hnd Hr Hk Hcap E
    |m A parent child ts m' _ IH (t & Ht & Hon) Hne HA Hc E|m A s m' _ IH Hon E|m A g m' _ IH E
    |m A g acc m' _ IH Hnd Hr Hcap E|m A g acc m' _ IH Hnd Hr Hcap E].
  - by eapply bm_init_inv.
  - pose proof (can_allocate_room m A g s0 rest n IH Hp Hn Hc) as Hroom. pose proof (ci_water _ _ (mi_core _ _ IH)).
    destruct (bm_allocate_spec m A g s0 rest IH Hp ltac:(lia)) as (m1 & E1 & Hm1 & _). rewrite E in E1. by injection E1 as <-.
  - destruct (append_all_spec n l [] m A k IH Hn Hnd Hr Hk Hcap) as (acc' & m1 & E1 & Hm1). rewrite E in E1. by injection E1 as <- <-.
  - unfold table_of in Hne. rewrite Ht in Hne. destruct (fork_seq_spec m A _ t ts child IH Ht HA Hon Hne Hc) as (m1 & t1 & E1 & Hm1 & _).
    unfold bm_fork in E. rewrite Ht, E1 in E. by injection E as <-.
  - destruct (bm_free_spec m A s IH Hon) as (m1 & E1 & Hm1 & _). rewrite E in E1. by injection E1 as <-.
  - destruct (free_cross_spec m A g IH) as (m1 & E1 & Hm1 & _). rewrite E in E1. by injection E1 as <-.
  - destruct (swap_all_spec GPU CPU _ [] m A IH ltac:(done) Hnd Hr Hcap) as (acc1 & m1 & E1 & Hm1 & _). unfold swap_out in E.
    rewrite E in E1. by injection E1 as <- <-.
  - destruct (swap_all_spec CPU GPU _ [] m A IH ltac:(done) Hnd Hr Hcap) as (acc1 & m1 & E1 & Hm1 & _). unfold swap_in in E.
    rewrite E in E1. by injection E1 as <- <-.
Qed.

(** ** What the invariant means *)








(** C12: the checks of a block manager without a sliding window suffice.  In every state
    that such a manager reaches by the scheduler's calls ([mgr_reach]: allocations,
    appends, forks, frees of sequences whose blocks are on the GPU, swaps that find room
    for all blocks of the group), when [can_allocate] answers OK for a group of new sequences, [allocate] returns and
    leaves at least the watermark of blocks free; and when [can_append_slots] answers
    yes for a running group, appending the new tokens and lookahead slots of all its
    sequences, one after the other, returns: no call runs out of blocks, although
    appending may have to copy shared blocks.  With a sliding window the first part
    fails ([sliding_window_check_unsound]). *)
Theorem block_manager_checks_suffice m A :
  mgr_reach m A ->
  (∀ g s0 rest n, alloc_pre m g s0 rest -> 0 <= n -> can_allocate m g n = Ok AllocOK ->
    ∃ m', bm_allocate m g = Ok m' ∧ bm_watermark_blocks m <= cg_get_num_free_blocks (block_allocator m') GPU) ∧
  (∀ g n, 0 <= n -> NoDup (seq_id <$> get_seqs g RUNNING) -> (∀ s, s ∈ get_seqs g RUNNING -> runs m A s) ->
    can_append_slots m g n = Ok true ->
    ∃ cows m', for_each (sched_append_slots n) (get_seqs g RUNNING) ([], m) = Ok (cows, m')).
Proof.
  intros Hr. pose proof (mgr_reach_inv m A Hr) as Hm. split.
  - intros g s0 rest n Hp Hn Hc. pose proof (can_allocate_room m A g s0 rest n Hm Hp Hn Hc) as Hroom.
    pose proof (ci_water _ _ (mi_core _ _ Hm)). destruct (bm_allocate_spec m A g s0 rest Hm Hp ltac:(lia)) as (m' & E & _ & Hfl & _).
    exists m'. split; [done|]. unfold cg_get_num_free_blocks, na_get_num_free_blocks. lia.
  - intros g n Hn Hnd Hruns E. unfold can_append_slots in E. apply bind_Ok_inv in E as (k & Hk & E). apply Ok_inj, Z.leb_le in E.
    destruct (append_all_spec n _ [] m A k Hm Hn Hnd Hruns Hk E) as (acc & m' & E' & _). eauto.
Qed.







(** ** A small manager *)

Definition value_or {A} (d : A) (x : result A) : A := match x with Ok a => a | Err _ => d end.

Definition bs_nothing : BlockSpaceManager :=
  mkBlockSpaceManager 1 0 None 0
    (let a := mkNaiveBlockAllocator [] ∅ ∅ 1 [] (mkBlockPool 1 0 [] []) in mkCpuGpu a a [] None ∅) ∅ ∅ ∅.

(** Blocks of two tokens, eight on the GPU and two on the CPU. *)
Definition bs_demo0 : BlockSpaceManager := value_or bs_nothing (bm_init false 2 8 2 (0 # 1) None).

Definition bs_seq (id : Z) (toks : list Z) (st : SequenceStatus) : Sequence := mkSequence id toks (len toks) None 0 PREFILL st.
Definition bs_group (l : list Sequence) : SequenceGroup := mkSequenceGroup "g" l None (0 # 1) None 0 None 1 0.

(** Two sequences share a prompt of three tokens. *)
Definition bs_demo : BlockSpaceManager :=
  value_or bs_nothing (bm_allocate bs_demo0 (bs_group [bs_seq 1 [1; 2; 3] WAITING; bs_seq 2 [1; 2; 3] WAITING])).
Definition bs_map : gmap Z (list Z) :=
  prompt_all [1; 2; 3] [bs_seq 1 [1; 2; 3] WAITING; bs_seq 2 [1; 2; 3] WAITING] ∅.

Lemma bs_demo0_reach : mgr_reach bs_demo0 ∅.
Proof. by apply (mg_init false 2 8 2 (0 # 1)). Qed.

Lemma bs_demo0_pre toks : toks ≠ [] ->
  alloc_pre bs_demo0 (bs_group [bs_seq 1 toks WAITING; bs_seq 2 toks WAITING]) (bs_seq 1 toks WAITING) [bs_seq 2 toks WAITING].
Proof.
  intros Ht. split; try done.
  apply (bool_decide_unpack _). by vm_compute.
Qed.

Lemma bs_demo_reach : mgr_reach bs_demo bs_map.
Proof.
  apply (mg_allocate bs_demo0 ∅ (bs_group [bs_seq 1 [1; 2; 3] WAITING; bs_seq 2 [1; 2; 3] WAITING]) (bs_seq 1 [1; 2; 3] WAITING)
    [bs_seq 2 [1; 2; 3] WAITING] 0).
  - exact bs_demo0_reach.
  - by apply bs_demo0_pre.
  - lia.
  - by vm_compute.
  - by vm_compute.
Qed.

(** The first sequence has sampled token 4. *)
Lemma bs_demo_runs : runs bs_demo bs_map (bs_seq 1 [1; 2; 3; 4] RUNNING).
Proof.
  split; [|split].
  - exists (table_of bs_demo (bs_seq 1 [] RUNNING)). split; [by vm_compute|]. intros x Hx.
    assert (Hb : forallb (fun x => bool_decide (x ∈ na_all_block_indices (cg_gpu (block_allocator bs_demo)))) [0%nat; 1%nat] = true) by (by vm_compute).
    assert (E : bt_block_ids (table_of bs_demo (bs_seq 1 [] RUNNING)) = [0%nat; 1%nat]) by (by vm_compute).
    rewrite E in Hx. rewrite forallb_forall in Hb. apply list_elem_of_In in Hx. by apply Hb, bool_decide_eq_true in Hx.
  - by vm_compute.
  - exists [1; 2; 3]. split; [by vm_compute|]. by exists [4].
Qed.


Lemma block_manager_checks_suffice_witness :
  ∃ copies m', for_each (sched_append_slots 1) [bs_seq 1 [1; 2; 3; 4] RUNNING] ([], bs_demo) = Ok (copies, m').
Proof.
  apply (proj2 (block_manager_checks_suffice bs_demo bs_map bs_demo_reach) (bs_group [bs_seq 1 [1; 2; 3; 4] RUNNING]) 1); cbn [bs_group].
  - lia.
  - apply NoDup_singleton.
  - intros s Hs. apply list_elem_of_singleton in Hs as ->. exact bs_demo_runs.
  - by vm_compute.
Defined.


(** ** Where the manager's checks fall short *)

(** With a sliding window [can_allocate] caps the blocks a prompt needs at
    [max_block_sliding_window], but [allocate] takes blocks for the whole prompt.  With
    three blocks of two tokens and a window of two tokens, a prompt of ten tokens is
    answered OK, and allocating it runs out of blocks. *)
Theorem sliding_window_check_unsound :
  ∃ m, bm_init false 2 3 0 (0 # 1) (Some 2) = Ok m ∧
    let g := bs_group [bs_seq 1 [1; 2; 3; 4; 5; 6; 7; 8; 9; 10] WAITING] in
    can_allocate m g 0 = Ok AllocOK ∧ bm_allocate m g = Err ValueError.
Proof. eexists. split; [by vm_compute|]. by vm_compute. Qed.

(** [can_swap_out] counts the full blocks of a group and the block its next token
    goes to, but not the empty blocks reserved as lookahead slots.  A sequence of two
    tokens with four lookahead slots has three blocks; with one CPU block the check
    answers yes, and [swap_out] raises for want of free blocks. *)
Theorem can_swap_out_unsound :
  ∃ m0 m1 x, bm_init false 2 8 1 (0 # 1) None = Ok m0 ∧ bm_allocate m0 (bs_group [bs_seq 1 [1; 2] WAITING]) = Ok m1 ∧
    append_slots m1 (bs_seq 1 [1; 2] RUNNING) 4 = Ok x ∧
    let g := bs_group [bs_seq 1 [1; 2] RUNNING] in
    can_swap_out x.2 g = Ok true ∧ swap_out x.2 g = Err ValueError.
Proof.
  exists (value_or bs_nothing (bm_init false 2 8 1 (0 # 1) None)).
  eexists _, _. split; [by vm_compute|]. split; [by vm_compute|]. split; [by vm_compute|]. by vm_compute.
Qed.

(** Freeing a sequence whose blocks are swapped out, as an abort does, hands its block objects to
    the pool of the CPU allocator although they came from the GPU's: the slot number of
    a GPU object becomes a free slot of the CPU pool, where it may not exist.  A later
    [swap_out], allowed by [can_swap_out], raises IndexError on it. *)
Theorem abort_swapped_breaks_swapping :
  ∃ m x m1 m2 m3,
    (m ← bm_init false 2 8 1 (0 # 1) None;
     m ← bm_allocate m (bs_group [bs_seq 1 [1; 2; 3; 4; 5; 6; 7; 8] WAITING]);
     bm_allocate m (bs_group [bs_seq 2 [1; 2] WAITING])) = Ok m ∧
    can_swap_out m (bs_group [bs_seq 2 [1; 2] RUNNING]) = Ok true ∧
    swap_out m (bs_group [bs_seq 2 [1; 2] RUNNING]) = Ok x ∧
    bm_free x.2 (bs_seq 2 [1; 2] SWAPPED) = Ok m1 ∧
    bm_free m1 (bs_seq 1 [1; 2; 3; 4; 5; 6; 7; 8] FINISHED_STOPPED) = Ok m2 ∧
    bm_allocate m2 (bs_group [bs_seq 3 [1] WAITING]) = Ok m3 ∧
    let g := bs_group [bs_seq 3 [1] RUNNING] in
    can_swap_out m3 g = Ok true ∧ swap_out m3 g = Err IndexError.
Proof.
  eexists _, _, _, _, _. split; [by vm_compute|]. split; [by vm_compute|]. split; [by vm_compute|]. split; [by vm_compute|].
  split; [by vm_compute|]. split; [by vm_compute|]. by vm_compute.
Qed.
