(* ===== verification/Evictor.v ===== *)
(** * The evictor of prefix caching (core/evictor.py)

    [LRUEvictor] keeps the blocks that may be evicted in a table and their priorities in a
    heap whose outdated entries are skipped when they come up.  A heap is kept here as the
    sorted list of its items: heapq promises that [heappop] gives the smallest item, and
    the evictor uses nothing else of its layout.  Times are only compared. *)

From stdpp Require Import base tactics list gmap sets sorting.
From Stdlib Require Import ZArith Lia.
From S2P Require Import Prelude.

Local Open Scope Z_scope.

(** ** Data *)

Record BlockMetaData : Type := mkBlockMetaData {
  md_content_hash : Z;
  md_num_hashed_tokens : Z;
  md_last_accessed : Z;
}.

(** An item of the priority queue: [(last_accessed, -num_hashed_tokens, block_id,
    content_hash)], compared as a tuple. *)
Record HeapItem : Type := mkHeapItem {
  hi_last_accessed : Z;
  hi_neg_tokens : Z;
  hi_block_id : nat;
  hi_content_hash : Z;
}.

#[export] Instance HeapItem_eq_dec : EqDecision HeapItem.
Proof. solve_decision. Defined.

Definition item_leb (x y : HeapItem) : bool :=
  (hi_last_accessed x <? hi_last_accessed y) ||
  (hi_last_accessed x =? hi_last_accessed y) &&
    ((hi_neg_tokens x <? hi_neg_tokens y) ||
     (hi_neg_tokens x =? hi_neg_tokens y) &&
       ((hi_block_id x <? hi_block_id y)%nat ||
        (hi_block_id x =? hi_block_id y)%nat && (hi_content_hash x <=? hi_content_hash y))).

Record LRUEvictor : Type := mkLRUEvictor {
  free_table : gmap nat BlockMetaData;
  priority_queue : list HeapItem;
}.

Inductive EvictionPolicy : Type := EvictLRU.

(** ** heapq *)

Fixpoint heappush (x : HeapItem) (q : list HeapItem) : list HeapItem :=
  match q with
  | [] => [x]
  | y :: q' => if item_leb x y then x :: q else y :: heappush x q'
  end.

Definition heapify (l : list HeapItem) : list HeapItem := foldr heappush [] l.

(** ** Operations *)

Definition CLEANUP_THRESHOLD : Z := 50.

Definition ev_init : LRUEvictor := mkLRUEvictor ∅ [].
Definition make_evictor (p : EvictionPolicy) : LRUEvictor := match p with EvictLRU => ev_init end.

Definition ev_contains (e : LRUEvictor) (block_id : nat) : bool := bool_decide (is_Some (free_table e !! block_id)).
Definition ev_num_blocks (e : LRUEvictor) : Z := Z.of_nat (size (free_table e)).

(** The loop of [evict]. *)
Fixpoint evict_loop (table : gmap nat BlockMetaData) (q : list HeapItem) : result (nat * Z * LRUEvictor) :=
  match q with
  | [] => Err ValueError
  | x :: q =>
      match table !! hi_block_id x with
      | Some m =>
          if md_last_accessed m =? hi_last_accessed x
          then Ok (hi_block_id x, hi_content_hash x, mkLRUEvictor (delete (hi_block_id x) table) q)
          else evict_loop table q
      | None => evict_loop table q
      end
  end.

Definition evict (e : LRUEvictor) : result (nat * Z * LRUEvictor) :=
  if (size (free_table e) =? 0)%nat then Err ValueError else evict_loop (free_table e) (priority_queue e).

Definition item_of (block_id : nat) (m : BlockMetaData) : HeapItem :=
  mkHeapItem (md_last_accessed m) (- md_num_hashed_tokens m) block_id (md_content_hash m).

Definition _cleanup (e : LRUEvictor) : LRUEvictor :=
  mkLRUEvictor (free_table e) (heapify ((fun x : nat * BlockMetaData => item_of x.1 x.2) <$> map_to_list (free_table e))).

Definition _cleanup_if_necessary (e : LRUEvictor) : LRUEvictor :=
  if CLEANUP_THRESHOLD * ev_num_blocks e <? len (priority_queue e) then _cleanup e else e.

Definition ev_add (e : LRUEvictor) (block_id : nat) (content_hash num_hashed_tokens last_accessed : Z) : LRUEvictor :=
  let m := mkBlockMetaData content_hash num_hashed_tokens last_accessed in
  _cleanup_if_necessary (mkLRUEvictor (<[block_id := m]> (free_table e)) (heappush (item_of block_id m) (priority_queue e))).

Definition ev_update (e : LRUEvictor) (block_id : nat) (last_accessed : Z) : result LRUEvictor :=
  m ← or_raise KeyError (free_table e !! block_id);
  Ok (mkLRUEvictor (<[block_id := mkBlockMetaData (md_content_hash m) (md_num_hashed_tokens m) last_accessed]> (free_table e)) (priority_queue e)).

Definition ev_remove (e : LRUEvictor) (block_id : nat) : result LRUEvictor :=
  match free_table e !! block_id with
  | None => Err ValueError
  | Some _ => Ok (mkLRUEvictor (delete block_id (free_table e)) (priority_queue e))
  end.

(** ** The order *)

Definition item_le (x y : HeapItem) : Prop := item_leb x y = true.

Lemma item_le_spec x y : item_le x y <->
  hi_last_accessed x < hi_last_accessed y ∨ hi_last_accessed x = hi_last_accessed y ∧
    (hi_neg_tokens x < hi_neg_tokens y ∨ hi_neg_tokens x = hi_neg_tokens y ∧
      ((hi_block_id x < hi_block_id y)%nat ∨ hi_block_id x = hi_block_id y ∧ hi_content_hash x <= hi_content_hash y)).
Proof.
  unfold item_le, item_leb. rewrite !orb_true_iff, !andb_true_iff, !orb_true_iff, !andb_true_iff, !orb_true_iff, !andb_true_iff.
  rewrite !Z.ltb_lt, !Z.eqb_eq, Nat.ltb_lt, Nat.eqb_eq, Z.leb_le. tauto.
Qed.

#[export] Instance item_le_trans : Transitive item_le.
Proof. intros x y z. rewrite !item_le_spec. lia. Qed.

Lemma item_le_total x y : item_le x y ∨ item_le y x.
Proof. rewrite !item_le_spec. lia. Qed.

Lemma heappush_perm x q : heappush x q ≡ₚ x :: q.
Proof. induction q as [|y q IH]; cbn; [done|]. destruct (item_leb x y); [done|]. rewrite IH. constructor. Qed.

Lemma heappush_sorted x q : StronglySorted item_le q -> StronglySorted item_le (heappush x q).
Proof.
  induction 1 as [|y q Hs IH Hf]; cbn; [by repeat constructor|]. destruct (item_leb x y) eqn:E.
  - constructor; [by constructor|]. constructor; [done|]. eapply Forall_impl; [exact Hf|]. intros z. by apply item_le_trans.
  - constructor; [done|]. rewrite heappush_perm. constructor; [|done]. destruct (item_le_total x y) as [H|H]; [|done].
    unfold item_le in H. congruence.
Qed.

Lemma heapify_perm l : heapify l ≡ₚ l.
Proof. induction l as [|x l IH]; [done|]. cbn [heapify foldr]. fold (heapify l). rewrite heappush_perm, IH. done. Qed.

Lemma heapify_sorted l : StronglySorted item_le (heapify l).
Proof. induction l as [|x l IH]; [constructor|]. cbn [heapify foldr]. fold (heapify l). by apply heappush_sorted. Qed.

(** ** The invariant *)

(** Every block of the table has its item in the queue, and an item of a block that has
    the block's time is that item. *)
Record ev_inv (e : LRUEvictor) : Prop := {
  ei_sorted : StronglySorted item_le (priority_queue e);
  ei_queued : ∀ b m, free_table e !! b = Some m -> item_of b m ∈ priority_queue e;
  ei_match : ∀ x m, x ∈ priority_queue e -> free_table e !! hi_block_id x = Some m -> md_last_accessed m = hi_last_accessed x ->
    x = item_of (hi_block_id x) m;
}.

Lemma ev_inv_init : ev_inv ev_init.
Proof. split; cbn; [constructor|intros b m; by rewrite lookup_empty|intros x m ?%not_elem_of_nil; done]. Qed.

Lemma evict_loop_spec table q :
  StronglySorted item_le q ->
  (∀ x m, x ∈ q -> table !! hi_block_id x = Some m -> md_last_accessed m = hi_last_accessed x -> x = item_of (hi_block_id x) m) ->
  (∀ b m, table !! b = Some m -> item_of b m ∈ q) -> table ≠ ∅ ->
  ∃ b m q', evict_loop table q = Ok (b, md_content_hash m, mkLRUEvictor (delete b table) q') ∧ table !! b = Some m ∧
    (∀ b' m', table !! b' = Some m' -> item_le (item_of b m) (item_of b' m')) ∧
    StronglySorted item_le q' ∧ (∀ x, x ∈ q' -> x ∈ q) ∧ (∀ b' m', b' ≠ b -> table !! b' = Some m' -> item_of b' m' ∈ q').
Proof.
  intros Hs. induction Hs as [|x q Hs IH Hf]; intros Hm Hq Hne.
  { destruct (map_choose table Hne) as (b & m & E). apply Hq in E. by apply not_elem_of_nil in E. }
  assert (Hskip : (∀ m, table !! hi_block_id x = Some m -> md_last_accessed m ≠ hi_last_accessed x) ->
    ∃ b m q', evict_loop table q = Ok (b, md_content_hash m, mkLRUEvictor (delete b table) q') ∧ table !! b = Some m ∧
    (∀ b' m', table !! b' = Some m' -> item_le (item_of b m) (item_of b' m')) ∧
    StronglySorted item_le q' ∧ (∀ y, y ∈ q' -> y ∈ x :: q) ∧ (∀ b' m', b' ≠ b -> table !! b' = Some m' -> item_of b' m' ∈ q')).
  { intros Hx. destruct IH as (b & m & q' & E & H1 & H2 & H3 & H4 & H5).
    - intros y m Hy. apply Hm. by right.
    - intros b m Hb. specialize (Hq b m Hb). apply elem_of_cons in Hq as [Hq|Hq]; [|done]. destruct (Hx m); subst x; done.
    - done.
    - exists b, m, q'. split; [done|]. split; [done|]. split; [done|]. split; [done|]. split; [|done]. intros y Hy. right. by apply H4. }
  cbn [evict_loop]. destruct (table !! hi_block_id x) as [m|] eqn:Eb; [|by apply Hskip].
  destruct (Z.eqb_spec (md_last_accessed m) (hi_last_accessed x)) as [Et|Et]; [|apply Hskip; by intros m' [= <-]].
  assert (Hx : x = item_of (hi_block_id x) m) by (apply Hm; [by left|done|done]).
  exists (hi_block_id x), m, q. split; [by rewrite Hx at 2|]. split; [done|]. rewrite <-Hx. split; [|split; [done|]].
  - intros b' m' Hb'. specialize (Hq b' m' Hb'). apply elem_of_cons in Hq as [->|Hq]; [|rewrite Forall_forall in Hf; by apply Hf].
    destruct (item_le_total x x); done.
  - split; [intros y Hy; by right|]. intros b' m' Hne' Hb'. specialize (Hq b' m' Hb'). apply elem_of_cons in Hq as [E|Hq]; [|done].
    destruct Hne'. by rewrite <-E.
Qed.

Lemma ev_evict_spec e : ev_inv e -> free_table e ≠ ∅ ->
  ∃ b m e', evict e = Ok (b, md_content_hash m, e') ∧ free_table e !! b = Some m ∧ free_table e' = delete b (free_table e) ∧ ev_inv e' ∧
    ∀ b' m', free_table e !! b' = Some m' -> item_le (item_of b m) (item_of b' m').
Proof.
  intros [Hs Hq Hm] Hne. unfold evict. destruct (Nat.eqb_spec (size (free_table e)) 0) as [E|_]; [by apply map_size_empty_iff in E|].
  destruct (evict_loop_spec _ _ Hs Hm Hq Hne) as (b & m & q' & E & Hb & Hmin & Hs' & Hsub & Hq'). rewrite E.
  exists b, m, (mkLRUEvictor (delete b (free_table e)) q'). split; [done|]. split; [done|]. split; [done|]. split; [|done]. split; cbn.
  - done.
  - intros b' m' [Hne' Hb']%lookup_delete_Some. by apply Hq'.
  - intros x m' Hx [Hne' Hb']%lookup_delete_Some Ht. by apply Hm; [apply Hsub|..].
Qed.

Lemma cleanup_spec e : ev_inv (_cleanup e).
Proof.
  split; cbn; [apply heapify_sorted| |].
  - intros b m Hb. rewrite heapify_perm. apply list_elem_of_fmap. exists (b, m). split; [done|]. by apply elem_of_map_to_list.
  - intros x m Hx Hb _. rewrite heapify_perm in Hx. apply list_elem_of_fmap in Hx as ([b' m'] & -> & Hin%elem_of_map_to_list). cbn in *. congruence.
Qed.

Lemma cleanup_table e : free_table (_cleanup_if_necessary e) = free_table e.
Proof. unfold _cleanup_if_necessary. by destruct (_ <? _). Qed.

(** No item of [b] with time [t] says something else. *)
Definition fresh_time (e : LRUEvictor) (b : nat) (h n t : Z) : Prop :=
  ∀ x, x ∈ priority_queue e -> hi_block_id x = b -> hi_last_accessed x = t -> x = mkHeapItem t (- n) b h.

Lemma ev_add_spec e b h n t : ev_inv e -> fresh_time e b h n t ->
  ev_inv (ev_add e b h n t) ∧ free_table (ev_add e b h n t) = <[b := mkBlockMetaData h n t]> (free_table e).
Proof.
  intros [Hs Hq Hm] Hfresh. unfold ev_add. split; [|by rewrite cleanup_table]. unfold _cleanup_if_necessary.
  destruct (_ <? _); [apply cleanup_spec|]. split; cbn; [by apply heappush_sorted| |].
  - intros b' m'. rewrite heappush_perm. intros [[<- <-]|[Hne Hb']]%lookup_insert_Some; [by left|right; by apply Hq].
  - intros x m'. rewrite heappush_perm. intros [->|Hx]%elem_of_cons; cbn.
    + rewrite lookup_insert_eq. by intros [= <-].
    + intros [[Hb <-]|[Hne Hb']]%lookup_insert_Some Ht; [|by apply Hm]. cbn in Ht. rewrite <-Hb. unfold item_of. cbn. by apply Hfresh.
Qed.

Lemma ev_remove_spec e b m : ev_inv e -> free_table e !! b = Some m ->
  ∃ e', ev_remove e b = Ok e' ∧ ev_inv e' ∧ free_table e' = delete b (free_table e).
Proof.
  intros [Hs Hq Hm] Hb. unfold ev_remove. rewrite Hb. eexists. split; [done|]. split; [|done]. split; cbn; [done| |].
  - intros b' m' [Hne Hb']%lookup_delete_Some. by apply Hq.
  - intros x m' Hx [Hne Hb']%lookup_delete_Some. by apply Hm.
Qed.
