(* ===== verification/PrefixCaching.v ===== *)
(** * The prefix-caching block allocator (core/block/prefix_caching_block.py)

    [PrefixCachingBlockAllocator] gives blocks with the same content hash the same physical
    block.  Physical blocks without a hash belong to a [NaiveBlockAllocator] (the "hashless"
    one) that shares its reference counts and its pool of block objects; unused blocks with
    a hash are kept in the evictor for reuse.

    Block objects are mutable and linked ([prev_block]); they live in the pool and a
    reference is a slot number.  Reading [content_hash] stores it in the object, so it is a
    state change here too.  [NaiveBlock] calls the allocator's copy-on-write with the inner
    block, whose [content_hash] is None.  NoFreeBlocksError is the ValueError it derives
    from. *)

From stdpp Require Import base tactics list gmap sets sorting.
From Stdlib Require Import ZArith Lia QArith.
From S2P Require Import Prelude.
From S2P Require Import NaiveBlocks.
From S2P Require Import Evictor.

Local Open Scope Z_scope.

(** Python's [hash] of the tuple [(is_first, prev, *tokens, extra)], and hash('None'). *)
Class PrefixHash : Type := {
  py_hash : bool -> option Z -> list Z -> option Z -> Z;
  none_hash : Z;
}.

(** ** Data *)

Definition _DEFAULT_LAST_ACCESSED_TIME : Z := -1.

Record BlockTracker : Type := mkTracker {
  bt_active : bool;
  bt_last_accessed : Z;
  bt_computed : bool;
}.

Record PrefixCachingBlock : Type := mkPCBlock {
  pb_token_ids : list Z;
  pb_block_size : Z;
  pb_prev_block : option nat;
  pb_block_id : option nat;
  pb_cached_content_hash : option Z;
  pb_num_tokens_total : Z;
  pb_computed : bool;
  pb_extra_hash : option Z;
}.

(** [CacheMetricData]; rates are exact. *)
Record CacheMetricData : Type := mkMetric {
  num_completed_blocks : Z;
  completed_block_cache_hit_rate : Q;
  num_incompleted_block_queries : Z;
  num_incompleted_block_hit : Z;
  metric_block_size : Z;
}.

Record PrefixCachingBlockAllocator : Type := mkPCAllocator {
  pc_block_size : Z;
  pc_cached_blocks : gmap Z nat;
  pc_touched_blocks : gset nat;
  pc_block_tracker : gmap nat BlockTracker;
  pc_pool_free_ids : list nat;
  pc_pool : list PrefixCachingBlock;
  pc_evictor : LRUEvictor;
  (* the hashless allocator *)
  pc_free_block_indices : list nat;
  pc_all_block_indices : gset nat;
  pc_refcounts : gmap nat Z;
  pc_copy_on_writes : list (nat * nat);
  pc_metric_data : CacheMetricData;
}.

(** ** Field updates *)

Implicit Types (a : PrefixCachingBlockAllocator) (r b : nat).

Definition pb_with_id (o : PrefixCachingBlock) (id : option nat) : PrefixCachingBlock :=
  mkPCBlock (pb_token_ids o) (pb_block_size o) (pb_prev_block o) id (pb_cached_content_hash o) (pb_num_tokens_total o) (pb_computed o) (pb_extra_hash o).
Definition pb_with_hash (o : PrefixCachingBlock) (h : option Z) : PrefixCachingBlock :=
  mkPCBlock (pb_token_ids o) (pb_block_size o) (pb_prev_block o) (pb_block_id o) h (pb_num_tokens_total o) (pb_computed o) (pb_extra_hash o).
Definition pb_with_tokens (o : PrefixCachingBlock) (l : list Z) : PrefixCachingBlock :=
  mkPCBlock l (pb_block_size o) (pb_prev_block o) (pb_block_id o) (pb_cached_content_hash o) (pb_num_tokens_total o) (pb_computed o) (pb_extra_hash o).
Definition pb_with_total (o : PrefixCachingBlock) (n : Z) : PrefixCachingBlock :=
  mkPCBlock (pb_token_ids o) (pb_block_size o) (pb_prev_block o) (pb_block_id o) (pb_cached_content_hash o) n (pb_computed o) (pb_extra_hash o).
Definition pb_with_computed (o : PrefixCachingBlock) (c : bool) : PrefixCachingBlock :=
  mkPCBlock (pb_token_ids o) (pb_block_size o) (pb_prev_block o) (pb_block_id o) (pb_cached_content_hash o) (pb_num_tokens_total o) c (pb_extra_hash o).

Definition pc_with_cached a (x : gmap Z nat) : PrefixCachingBlockAllocator :=
  mkPCAllocator (pc_block_size a) x (pc_touched_blocks a) (pc_block_tracker a) (pc_pool_free_ids a) (pc_pool a) (pc_evictor a)
    (pc_free_block_indices a) (pc_all_block_indices a) (pc_refcounts a) (pc_copy_on_writes a) (pc_metric_data a).
Definition with_touched a (x : gset nat) : PrefixCachingBlockAllocator :=
  mkPCAllocator (pc_block_size a) (pc_cached_blocks a) x (pc_block_tracker a) (pc_pool_free_ids a) (pc_pool a) (pc_evictor a)
    (pc_free_block_indices a) (pc_all_block_indices a) (pc_refcounts a) (pc_copy_on_writes a) (pc_metric_data a).
Definition with_tracker a (x : gmap nat BlockTracker) : PrefixCachingBlockAllocator :=
  mkPCAllocator (pc_block_size a) (pc_cached_blocks a) (pc_touched_blocks a) x (pc_pool_free_ids a) (pc_pool a) (pc_evictor a)
    (pc_free_block_indices a) (pc_all_block_indices a) (pc_refcounts a) (pc_copy_on_writes a) (pc_metric_data a).
Definition pc_with_pool a (free : list nat) (x : list PrefixCachingBlock) : PrefixCachingBlockAllocator :=
  mkPCAllocator (pc_block_size a) (pc_cached_blocks a) (pc_touched_blocks a) (pc_block_tracker a) free x (pc_evictor a)
    (pc_free_block_indices a) (pc_all_block_indices a) (pc_refcounts a) (pc_copy_on_writes a) (pc_metric_data a).
Definition with_evictor a (x : LRUEvictor) : PrefixCachingBlockAllocator :=
  mkPCAllocator (pc_block_size a) (pc_cached_blocks a) (pc_touched_blocks a) (pc_block_tracker a) (pc_pool_free_ids a) (pc_pool a) x
    (pc_free_block_indices a) (pc_all_block_indices a) (pc_refcounts a) (pc_copy_on_writes a) (pc_metric_data a).
Definition with_refs a (free : list nat) (x : gmap nat Z) : PrefixCachingBlockAllocator :=
  mkPCAllocator (pc_block_size a) (pc_cached_blocks a) (pc_touched_blocks a) (pc_block_tracker a) (pc_pool_free_ids a) (pc_pool a) (pc_evictor a)
    free (pc_all_block_indices a) x (pc_copy_on_writes a) (pc_metric_data a).
Definition with_cows a (x : list (nat * nat)) : PrefixCachingBlockAllocator :=
  mkPCAllocator (pc_block_size a) (pc_cached_blocks a) (pc_touched_blocks a) (pc_block_tracker a) (pc_pool_free_ids a) (pc_pool a) (pc_evictor a)
    (pc_free_block_indices a) (pc_all_block_indices a) (pc_refcounts a) x (pc_metric_data a).
Definition with_metric a (x : CacheMetricData) : PrefixCachingBlockAllocator :=
  mkPCAllocator (pc_block_size a) (pc_cached_blocks a) (pc_touched_blocks a) (pc_block_tracker a) (pc_pool_free_ids a) (pc_pool a) (pc_evictor a)
    (pc_free_block_indices a) (pc_all_block_indices a) (pc_refcounts a) (pc_copy_on_writes a) x.

(** ** Metrics *)

Definition metric_init : CacheMetricData := mkMetric 0 0 0 0 1000.

Definition query (m : CacheMetricData) (hit : bool) : CacheMetricData :=
  let queries := num_incompleted_block_queries m + 1 in
  let hits := num_incompleted_block_hit m + (if hit then 1 else 0) in
  if queries =? metric_block_size m then
    let hit_rate := (inject_Z hits / inject_Z queries)%Q in
    mkMetric (num_completed_blocks m + 1)
      ((completed_block_cache_hit_rate m * inject_Z (num_completed_blocks m) + hit_rate) / (inject_Z (num_completed_blocks m) + 1))%Q
      0 0 (metric_block_size m)
  else mkMetric (num_completed_blocks m) (completed_block_cache_hit_rate m) queries hits (metric_block_size m).

Definition get_hit_rate (m : CacheMetricData) : Q :=
  (let incomplete_ratio := inject_Z (num_incompleted_block_queries m) / inject_Z (metric_block_size m) in
   let total_blocks := inject_Z (num_completed_blocks m) + incomplete_ratio in
   if Qeq_bool total_blocks 0 then 0
   else
     let completed_block_hit :=
       if (0 <? num_completed_blocks m)%Z then completed_block_cache_hit_rate m * inject_Z (num_completed_blocks m) else 0 in
     let incompleted_block_hit :=
       if (0 <? num_incompleted_block_queries m)%Z
       then inject_Z (num_incompleted_block_hit m) / inject_Z (num_incompleted_block_queries m) * incomplete_ratio else 0 in
     (completed_block_hit + incompleted_block_hit) / total_blocks)%Q.

(** ** Block objects *)

Definition get_obj a r : result PrefixCachingBlock := or_raise IndexError (pc_pool a !! r).
Definition set_obj a r (o : PrefixCachingBlock) : PrefixCachingBlockAllocator := pc_with_pool a (pc_pool_free_ids a) (<[r := o]> (pc_pool a)).

Definition pb_num_empty_slots (o : PrefixCachingBlock) : Z := pb_block_size o - len (pb_token_ids o).
Definition pb_is_full (o : PrefixCachingBlock) : bool := pb_num_empty_slots o =? 0.

(** [_append_token_ids_no_cow] of the inner block. *)
Definition pb_append_no_cow (o : PrefixCachingBlock) (token_ids : list Z) : result PrefixCachingBlock :=
  match token_ids with
  | [] => Ok o
  | _ => _ ← py_assert (len token_ids <=? pb_num_empty_slots o); Ok (pb_with_tokens o (pb_token_ids o ++ token_ids))
  end.

Definition _update_num_tokens_total a (o : PrefixCachingBlock) : result PrefixCachingBlock :=
  prev ← match pb_prev_block o with
         | Some p => q ← get_obj a p; Ok (pb_num_tokens_total q)
         | None => Ok 0
         end;
  Ok (pb_with_total o (prev + len (pb_token_ids o))).

(** [PrefixCachingBlock.__init__] *)
Definition pb_init a (prev_block : option nat) (token_ids : list Z) (block_size : Z) (block_id : option nat) (extra_hash : option Z) :
    result PrefixCachingBlock :=
  o ← pb_append_no_cow (mkPCBlock [] block_size prev_block block_id None 0 false extra_hash) token_ids;
  _update_num_tokens_total a o.

Definition pb_empty (block_size : Z) : PrefixCachingBlock := mkPCBlock [] block_size None None None 0 false None.

(** [BlockPool.init_block]; an empty pool doubles first. *)
Definition pc_init_block a (prev_block : option nat) (token_ids : list Z) (block_id : option nat) (extra_hash : option Z) :
    result (nat * PrefixCachingBlockAllocator) :=
  let a := match pc_pool_free_ids a with
           | [] => let n := length (pc_pool a) in pc_with_pool a (seq n n) (pc_pool a ++ replicate n (pb_empty (pc_block_size a)))
           | _ => a
           end in
  match pc_pool_free_ids a with
  | [] => Err AssertionError
  | r :: free =>
      _ ← get_obj a r;
      o ← pb_init a prev_block token_ids (pc_block_size a) block_id extra_hash;
      Ok (r, pc_with_pool a free (<[r := o]> (pc_pool a)))
  end.

Definition pc_free_object a r : PrefixCachingBlockAllocator := pc_with_pool a (r :: pc_pool_free_ids a) (pc_pool a).

Section prefix_caching.
Context `{!PrefixHash}.

Definition pb_hash_block_tokens (is_first_block : bool) (prev_block_hash : option Z) (cur_block_token_ids : list Z) (extra_hash : option Z) : Z :=
  let prev_block_hash := match is_first_block, prev_block_hash with true, None => Some none_hash | _, p => p end in
  py_hash is_first_block prev_block_hash cur_block_token_ids extra_hash.

(** [content_hash]: reads the objects before it and stores what it finds. *)
Fixpoint content_hash_loop (fuel : nat) a r : result (option Z * PrefixCachingBlockAllocator) :=
  match fuel with
  | O => Err OutOfFuel
  | S fuel =>
      o ← get_obj a r;
      match pb_cached_content_hash o with
      | Some h => Ok (Some h, a)
      | None =>
          if negb (pb_is_full o) then Ok (None, a)
          else
            x ← match pb_prev_block o with
                | None => Ok (Some none_hash, a)
                | Some p => content_hash_loop fuel a p
                end;
            let '(prev_block_hash, a) := x in
            let is_first_block := bool_decide (pb_prev_block o = None) in
            if bool_decide (prev_block_hash = Some none_hash) && negb is_first_block then Ok (None, a)
            else
              let h := pb_hash_block_tokens is_first_block prev_block_hash (pb_token_ids o) (pb_extra_hash o) in
              o ← get_obj a r;
              Ok (Some h, set_obj a r (pb_with_hash o (Some h)))
      end
  end.

Definition content_hash a r : result (option Z * PrefixCachingBlockAllocator) := content_hash_loop (S (length (pc_pool a))) a r.

(** ** Tracking *)

Definition _track_block_id a b (computed : bool) : result PrefixCachingBlockAllocator :=
  t ← or_raise KeyError (pc_block_tracker a !! b);
  _ ← py_assert (negb (bt_active t));
  Ok (with_tracker a (<[b := mkTracker true _DEFAULT_LAST_ACCESSED_TIME computed]> (pc_block_tracker a))).

Definition _untrack_block_id a b : result PrefixCachingBlockAllocator :=
  t ← or_raise KeyError (pc_block_tracker a !! b);
  _ ← py_assert (bt_active t);
  Ok (with_tracker a (<[b := mkTracker false _DEFAULT_LAST_ACCESSED_TIME false]> (pc_block_tracker a))).

(** ** Reference counts *)

Definition _incr_refcount_cached_block a r : result PrefixCachingBlockAllocator :=
  o ← get_obj a r;
  let a := set_obj a r (pb_with_computed o true) in
  b ← or_raise AssertionError (pb_block_id o);
  x ← incr (pc_refcounts a) b;
  let a := with_refs a (pc_free_block_indices a) x.2 in
  if x.1 =? 1 then
    a ← (if ev_contains (pc_evictor a) b then e ← ev_remove (pc_evictor a) b; Ok (with_evictor a e) else Ok a);
    _track_block_id a b true
  else Ok a.

Definition _decr_refcount_cached_block a r : result PrefixCachingBlockAllocator :=
  x ← content_hash a r;
  let '(h, a) := x in
  h ← or_raise AssertionError h;
  o ← get_obj a r;
  b ← or_raise AssertionError (pb_block_id o);
  x ← decr (pc_refcounts a) b;
  let a := with_refs a (pc_free_block_indices a) x.2 in
  if 0 <? x.1 then Ok (set_obj a r (pb_with_id o None))
  else
    _ ← py_assert (x.1 =? 0);
    _ ← or_raise AssertionError (pc_cached_blocks a !! h);
    t ← or_raise KeyError (pc_block_tracker a !! b);
    let a := with_evictor a (ev_add (pc_evictor a) b h (pb_num_tokens_total o) (bt_last_accessed t)) in
    a ← _untrack_block_id a b;
    Ok (set_obj a r (pb_with_id o None)).

(** [_hashless_allocator.free_block_id] *)
Definition hashless_free_id a b : result PrefixCachingBlockAllocator :=
  x ← decr (pc_refcounts a) b;
  Ok (with_refs a (if x.1 =? 0 then b :: pc_free_block_indices a else pc_free_block_indices a) x.2).

Definition _decr_refcount_hashless_block a r : result PrefixCachingBlockAllocator :=
  o ← get_obj a r;
  b ← or_raise AssertionError (pb_block_id o);
  n ← get_refcount (pc_refcounts a) b;
  a ← (if n =? 1 then _untrack_block_id a b else Ok a);
  o ← get_obj a r;
  hashless_free_id (set_obj a r (pb_with_id o None)) b.

(** ** Physical blocks *)

Definition _maybe_allocate_hashless_block_id a : result (option nat * PrefixCachingBlockAllocator) :=
  match pc_free_block_indices a with
  | [] => Ok (None, a)
  | b :: free =>
      x ← incr (pc_refcounts a) b;
      y ← pc_init_block (with_refs a free x.2) None [] (Some b) None;
      a ← _track_block_id (pc_free_object y.2 y.1) b false;
      Ok (Some b, a)
  end.

Definition _maybe_allocate_evicted_block_id a : result (option nat * PrefixCachingBlockAllocator) :=
  if ev_num_blocks (pc_evictor a) =? 0 then Ok (None, a)
  else
    x ← evict (pc_evictor a);
    let '(b, h, e) := x in
    let a := with_evictor a e in
    b' ← or_raise AssertionError (pc_cached_blocks a !! h);
    n ← get_refcount (pc_refcounts a) b';
    _ ← py_assert (n =? 0);
    _ ← py_assert (bool_decide (b' = b));
    let a := pc_with_cached a (delete h (pc_cached_blocks a)) in
    x ← incr (pc_refcounts a) b;
    a ← _track_block_id (with_refs a (pc_free_block_indices a) x.2) b false;
    Ok (Some b, a).

Definition pc_allocate_block_id a : result (nat * PrefixCachingBlockAllocator) :=
  x ← _maybe_allocate_hashless_block_id a;
  match x with
  | (Some b, a) => Ok (b, a)
  | (None, a) =>
      y ← _maybe_allocate_evicted_block_id a;
      match y with
      | (Some b, a) => Ok (b, a)
      | (None, _) => Err ValueError
      end
  end.

Definition pc_free_block_id a r : result PrefixCachingBlockAllocator :=
  o ← get_obj a r;
  _ ← or_raise AssertionError (pb_block_id o);
  x ← content_hash a r;
  let '(h, a) := x in
  a ← match h with Some _ => _decr_refcount_cached_block a r | None => _decr_refcount_hashless_block a r end;
  o ← get_obj a r;
  _ ← py_assert (bool_decide (pb_block_id o = None));
  Ok a.

(** [keep_block_object] is False for every caller. *)
Definition pc_free a r : result PrefixCachingBlockAllocator := a ← pc_free_block_id a r; Ok (pc_free_object a r).

(** Called by the inner [NaiveBlock], which has no hash. *)
Definition pc_cow_block_if_not_appendable a r : result (nat * PrefixCachingBlockAllocator) :=
  o ← get_obj a r;
  src ← or_raise AssertionError (pb_block_id o);
  n ← get_refcount (pc_refcounts a) src;
  if n <=? 1 then Ok (src, a)
  else
    a ← _decr_refcount_hashless_block a r;
    x ← pc_allocate_block_id a;
    Ok (x.1, with_cows x.2 (pc_copy_on_writes x.2 ++ [(src, x.1)])).

Definition pc_clear_copy_on_writes a : list (nat * nat) * PrefixCachingBlockAllocator := (pc_copy_on_writes a, with_cows a []).

Definition promote_to_immutable_block a r : result (nat * PrefixCachingBlockAllocator) :=
  x ← content_hash a r;
  let '(h, a) := x in
  h ← or_raise AssertionError h;
  o ← get_obj a r;
  b ← or_raise AssertionError (pb_block_id o);
  n ← get_refcount (pc_refcounts a) b;
  _ ← py_assert (0 <? n);
  match pc_cached_blocks a !! h with
  | None => Ok (b, with_touched (pc_with_cached a (<[h := b]> (pc_cached_blocks a))) ({[b]} ∪ pc_touched_blocks a))
  | Some b' =>
      a ← _decr_refcount_hashless_block a r;
      o ← get_obj a r;
      a ← _incr_refcount_cached_block (set_obj a r (pb_with_id o (Some b'))) r;
      Ok (b', a)
  end.

(** [PrefixCachingBlock.append_token_ids] *)
Definition pc_append_token_ids a r (token_ids : list Z) : result PrefixCachingBlockAllocator :=
  x ← content_hash a r;
  let '(h, a) := x in
  _ ← py_assert (bool_decide (h = None));
  o ← get_obj a r;
  _ ← py_assert (negb (pb_computed o));
  match token_ids with
  | [] => Ok a
  | _ =>
      o ← pb_append_no_cow o token_ids;
      let a := set_obj a r o in
      a ← match pb_block_id o with
          | None => Ok a
          | Some _ => x ← pc_cow_block_if_not_appendable a r; o ← get_obj x.2 r; Ok (set_obj x.2 r (pb_with_id o (Some x.1)))
          end;
      o ← get_obj a r;
      o ← _update_num_tokens_total a o;
      x ← content_hash (set_obj a r o) r;
      let '(h, a) := x in
      match h with
      | None => Ok a
      | Some _ => x ← promote_to_immutable_block a r; o ← get_obj x.2 r; Ok (set_obj x.2 r (pb_with_id o (Some x.1)))
      end
  end.

(** ** Allocation *)

Definition pc_allocate_mutable_block a (prev_block : option nat) (extra_hash : option Z) : result (nat * PrefixCachingBlockAllocator) :=
  x ← pc_allocate_block_id a;
  y ← pc_init_block x.2 prev_block [] (Some x.1) extra_hash;
  o ← get_obj y.2 y.1;
  _ ← py_assert (negb (pb_computed o));
  z ← content_hash y.2 y.1;
  _ ← py_assert (bool_decide (z.1 = None));
  Ok (y.1, z.2).

Definition pc_allocate_immutable_block a (prev_block : option nat) (token_ids : list Z) (extra_hash : option Z) :
    result (nat * PrefixCachingBlockAllocator) :=
  x ← pc_init_block a prev_block token_ids None extra_hash;
  let r := x.1 in
  y ← content_hash x.2 r;
  let '(h, a) := y in
  h ← or_raise AssertionError h;
  match pc_cached_blocks a !! h with
  | Some b =>
      let a := with_metric a (query (pc_metric_data a) true) in
      o ← get_obj a r;
      a ← _incr_refcount_cached_block (set_obj a r (pb_with_id o (Some b))) r;
      Ok (r, a)
  | None =>
      let a := pc_free_object (with_metric a (query (pc_metric_data a) false)) r in
      x ← pc_allocate_mutable_block a prev_block extra_hash;
      a ← pc_append_token_ids x.2 x.1 token_ids;
      Ok (x.1, a)
  end.

Fixpoint pc_allocate_immutable_blocks a (prev_block : option nat) (block_token_ids : list (list Z)) (extra_hash : option Z) :
    result (list nat * PrefixCachingBlockAllocator) :=
  match block_token_ids with
  | [] => Ok ([], a)
  | token_ids :: l =>
      x ← pc_allocate_immutable_block a prev_block token_ids extra_hash;
      y ← pc_allocate_immutable_blocks x.2 (Some x.1) l extra_hash;
      Ok (x.1 :: y.1, y.2)
  end.

(** ** Forking *)

Fixpoint pc_blocks_recurse (fuel : nat) a r (lst : list nat) : result (list nat) :=
  match fuel with
  | O => Err OutOfFuel
  | S fuel =>
      o ← get_obj a r;
      lst ← match pb_prev_block o with Some p => pc_blocks_recurse fuel a p lst | None => Ok lst end;
      Ok (lst ++ [r])
  end.

Fixpoint pc_fork_blocks a (prev_block : option nat) (source : list nat) : result (list nat * PrefixCachingBlockAllocator) :=
  match source with
  | [] => Ok ([], a)
  | r :: source =>
      o ← get_obj a r;
      b ← or_raise AssertionError (pb_block_id o);
      x ← incr (pc_refcounts a) b;
      _ ← py_assert (negb (x.1 =? 1));
      y ← pc_init_block (with_refs a (pc_free_block_indices a) x.2) prev_block (pb_token_ids o) (Some b) (pb_extra_hash o);
      z ← pc_fork_blocks y.2 (Some y.1) source;
      Ok (y.1 :: z.1, z.2)
  end.

Definition pc_fork a (last_block : nat) : result (list nat * PrefixCachingBlockAllocator) :=
  source ← pc_blocks_recurse (S (length (pc_pool a))) a last_block [];
  pc_fork_blocks a None source.

(** ** The rest of the interface *)

Definition pc_get_num_free_blocks a : Z := len (pc_free_block_indices a) + ev_num_blocks (pc_evictor a).
Definition pc_get_num_total_blocks a : Z := Z.of_nat (size (pc_all_block_indices a)).

(** The loop of [reset_prefix_cache]. *)
Fixpoint free_evicted (fuel : nat) a : result PrefixCachingBlockAllocator :=
  match fuel with
  | O => Err OutOfFuel
  | S fuel =>
      x ← _maybe_allocate_evicted_block_id a;
      match x with
      | (Some b, a) => a ← hashless_free_id a b; free_evicted fuel a
      | (None, a) => Ok a
      end
  end.

Definition pc_reset_prefix_cache a : result (bool * PrefixCachingBlockAllocator) :=
  if 0 <? pc_get_num_total_blocks a - pc_get_num_free_blocks a then Ok (false, a)
  else
    a ← free_evicted (S (size (free_table (pc_evictor a)))) a;
    _ ← py_assert (bool_decide (pc_cached_blocks a = ∅));
    let a := with_evictor a (make_evictor EvictLRU) in
    let a := with_tracker a ((fun _ => mkTracker false _DEFAULT_LAST_ACCESSED_TIME false) <$> pc_block_tracker a) in
    Ok (true, with_metric a metric_init).

Definition is_block_cached a r : result (bool * PrefixCachingBlockAllocator) :=
  x ← content_hash a r;
  let '(h, a) := x in
  h ← or_raise AssertionError h;
  Ok (bool_decide (is_Some (pc_cached_blocks a !! h)), a).

Definition mark_accessed (now : Z) b a : result PrefixCachingBlockAllocator :=
  t ← or_raise KeyError (pc_block_tracker a !! b);
  if bt_active t then Ok (with_tracker a (<[b := mkTracker true now (bt_computed t)]> (pc_block_tracker a)))
  else if ev_contains (pc_evictor a) b then e ← ev_update (pc_evictor a) b now; Ok (with_evictor a e)
  else Err ValueError.

Definition mark_blocks_as_accessed a (block_ids : list nat) (now : Z) : result PrefixCachingBlockAllocator :=
  for_each (mark_accessed now) block_ids a.

Definition mark_computed_one b a : result PrefixCachingBlockAllocator :=
  t ← or_raise KeyError (pc_block_tracker a !! b);
  Ok (with_tracker a (<[b := mkTracker (bt_active t) (bt_last_accessed t) true]> (pc_block_tracker a))).

Definition mark_blocks_as_computed a : result PrefixCachingBlockAllocator :=
  a ← for_each mark_computed_one (elements (pc_touched_blocks a)) a;
  Ok (with_touched a ∅).

Definition block_is_computed a b : result bool :=
  t ← or_raise KeyError (pc_block_tracker a !! b);
  if bt_active t then Ok (bt_computed t) else Ok (ev_contains (pc_evictor a) b).

(** [os.path.commonprefix]: the prefix that the least and the greatest list share. *)
Fixpoint lex_leb (x y : list nat) : bool :=
  match x, y with
  | [], _ => true
  | _, [] => false
  | i :: x, j :: y => (i <? j)%nat || (i =? j)%nat && lex_leb x y
  end.

Fixpoint shared_prefix (x y : list nat) : list nat :=
  match x, y with
  | i :: x, j :: y => if decide (i = j) then i :: shared_prefix x y else []
  | _, _ => []
  end.

Definition commonprefix (l : list (list nat)) : list nat :=
  match l with
  | [] => []
  | x :: l =>
      let least := foldl (fun m y => if lex_leb m y then m else y) x l in
      let greatest := foldl (fun m y => if lex_leb y m then m else y) x l in
      shared_prefix least greatest
  end.

Definition pc_get_common_computed_block_ids (computed_seq_block_ids : list (list nat)) : list nat :=
  match computed_seq_block_ids with
  | [ids] => ids
  | l => commonprefix (filter (fun ids => ids ≠ []) l)
  end.

Fixpoint pc_get_num_full_blocks_touched a (blocks : list nat) : result (Z * PrefixCachingBlockAllocator) :=
  match blocks with
  | [] => Ok (0, a)
  | r :: blocks =>
      o ← get_obj a r;
      x ← (if pb_is_full o then
             y ← is_block_cached a r;
             if negb y.1 then Ok (1, y.2)
             else
               z ← content_hash y.2 r;
               match z.1 with
               | None => Ok (0, z.2)
               | Some h =>
                   b ← or_raise KeyError (pc_cached_blocks z.2 !! h);
                   Ok (if ev_contains (pc_evictor z.2) b then 1 else 0, z.2)
               end
           else Ok (0, a));
      y ← pc_get_num_full_blocks_touched x.2 blocks;
      Ok (x.1 + y.1, y.2)
  end.

Definition pc_swap_out a (blocks : list nat) : result PrefixCachingBlockAllocator := for_each (fun r a => pc_free_block_id a r) blocks a.

Definition pc_swap_in_one r a : result PrefixCachingBlockAllocator :=
  o ← get_obj a r;
  x ← (if pb_is_full o then pc_allocate_immutable_block a (pb_prev_block o) (pb_token_ids o) (pb_extra_hash o)
       else
         x ← pc_allocate_mutable_block a (pb_prev_block o) (pb_extra_hash o);
         a ← pc_append_token_ids x.2 x.1 (pb_token_ids o);
         Ok (x.1, a));
  let '(tmp, a) := x in
  t ← get_obj a tmp;
  let a := pc_free_object a tmp in
  o ← get_obj a r;
  Ok (set_obj a r (pb_with_id o (pb_block_id t))).

Definition pc_swap_in a (blocks : list nat) : result PrefixCachingBlockAllocator := for_each pc_swap_in_one blocks a.

(** ** Looking up hashes *)

Definition _block_is_cached a (h : Z) : result bool :=
  match pc_cached_blocks a !! h with
  | None => Ok false
  | Some b => block_is_computed a b
  end.

(** [bisect_left(a, True, key)] for a boolean key. *)
Fixpoint bisect_left (fuel : nat) (key : Z -> result bool) (l : list Z) (lo hi : nat) : result nat :=
  match fuel with
  | O => Err OutOfFuel
  | S fuel =>
      if (lo <? hi)%nat then
        let mid := ((lo + hi) / 2)%nat in
        x ← or_raise IndexError (l !! mid);
        k ← key x;
        if negb k then bisect_left fuel key l (S mid) hi else bisect_left fuel key l lo mid
      else Ok lo
  end.

Definition find_cached_blocks_prefix a (block_hashes : list Z) : result (list Z) :=
  idx ← bisect_left (S (length block_hashes)) (fun h => c ← _block_is_cached a h; Ok (negb c)) block_hashes 0 (length block_hashes);
  Ok (take idx block_hashes).
End prefix_caching.

(** [__init__] *)
Definition pc_create (num_blocks : nat) (block_size : Z) (block_ids : list nat) : result PrefixCachingBlockAllocator :=
  _ ← py_assert (bool_decide (size (list_to_set block_ids : gset nat) = num_blocks));
  let ids : gset nat := list_to_set block_ids in
  let n := (num_blocks * 4)%nat in
  Ok (mkPCAllocator block_size ∅ ∅ (gset_to_gmap (mkTracker false _DEFAULT_LAST_ACCESSED_TIME false) ids)
        (seq 0 n) (replicate n (pb_empty block_size)) (make_evictor EvictLRU) block_ids ids (gset_to_gmap 0 ids) [] metric_init).
