(* ===== verification/PrefixInv.v ===== *)
(** * Accounting of the prefix-caching allocator

    [ids_ok a uses]: every physical block is in use (as often as it occurs in [uses], its
    reference count), free in the hashless allocator, or cached and evictable; the tracker
    follows the blocks in use, and the map of cached blocks is consistent with the
    evictor.  Lemmas for every operation on physical blocks. *)

From stdpp Require Import base tactics list gmap sets sorting.
From Stdlib Require Import ZArith Lia.
From S2P Require Import Prelude.
From S2P Require Import NaiveBlocks.
From S2P Require Import BlockStore.
From S2P Require Import Evictor.
From S2P Require Import PrefixCaching.

Local Open Scope Z_scope.

Implicit Types (a : PrefixCachingBlockAllocator) (uses : list nat) (b : nat).

Abbreviation table_of a := (free_table (pc_evictor a)).

Record ids_ok a uses : Prop := {
  io_uses : ∀ b, b ∈ uses -> b ∈ pc_all_block_indices a;
  io_rc : ∀ b, pc_refcounts a !! b = if decide (b ∈ pc_all_block_indices a) then Some (occ b uses) else None;
  io_tracker : ∀ b, b ∈ pc_all_block_indices a -> ∃ t, pc_block_tracker a !! b = Some t ∧ bt_active t = bool_decide (b ∈ uses);
  io_nodup : NoDup (pc_free_block_indices a);
  io_free : ∀ b, b ∈ pc_free_block_indices a <-> b ∈ pc_all_block_indices a ∧ b ∉ uses ∧ table_of a !! b = None;
  io_table : ∀ b m, table_of a !! b = Some m -> b ∈ pc_all_block_indices a ∧ b ∉ uses ∧ pc_cached_blocks a !! md_content_hash m = Some b;
  io_ev : ev_inv (pc_evictor a);
  io_cached : ∀ h b, pc_cached_blocks a !! h = Some b -> b ∈ pc_all_block_indices a ∧ b ∉ pc_free_block_indices a;
  io_inj : ∀ h h' b, pc_cached_blocks a !! h = Some b -> pc_cached_blocks a !! h' = Some b -> h = h';
  io_comp : ∀ h b t, pc_cached_blocks a !! h = Some b -> pc_block_tracker a !! b = Some t -> bt_active t = true ->
    bt_computed t = true ∨ b ∈ pc_touched_blocks a;
}.

(** The parts of the state that concern physical blocks. *)
Definition same_ids a a' : Prop :=
  pc_cached_blocks a' = pc_cached_blocks a ∧ pc_block_tracker a' = pc_block_tracker a ∧ pc_evictor a' = pc_evictor a ∧
  pc_free_block_indices a' = pc_free_block_indices a ∧ pc_all_block_indices a' = pc_all_block_indices a ∧ pc_refcounts a' = pc_refcounts a ∧
  pc_touched_blocks a' = pc_touched_blocks a.

Lemma ids_ok_same a a' uses : same_ids a a' -> ids_ok a uses -> ids_ok a' uses.
Proof. intros (E1 & E2 & E3 & E4 & E5 & E6 & E7) [I1 I2 I3 I4 I5 I6 I7 I8 I9 I10]. split; rewrite ?E1, ?E2, ?E3, ?E4, ?E5, ?E6, ?E7; done. Qed.

Lemma ids_ok_perm a uses uses' : uses ≡ₚ uses' -> ids_ok a uses -> ids_ok a uses'.
Proof.
  intros HP [I1 I2 I3 I4 I5 I6 I7 I8 I9 I10]. split; try done.
  - intros b. rewrite <-HP. apply I1.
  - intros b. rewrite I2. by rewrite (occ_Permutation b _ _ HP).
  - intros b Hb. destruct (I3 b Hb) as (t & E & Ha). exists t. split; [done|]. rewrite Ha. apply bool_decide_ext. by rewrite HP.
  - intros b. rewrite I5, HP. done.
  - intros b m. rewrite <-HP. apply I6.
Qed.

(** Unused blocks with a hash wait in the evictor. *)
Lemma cached_unused a uses h b : ids_ok a uses -> pc_cached_blocks a !! h = Some b -> b ∉ uses ->
  ∃ m, table_of a !! b = Some m ∧ md_content_hash m = h.
Proof.
  intros I Hc Hu. destruct (io_cached _ _ I h b Hc) as [Ha Hf]. destruct (table_of a !! b) as [m|] eqn:E.
  - exists m. split; [done|]. destruct (io_table _ _ I b m E) as (_ & _ & Hc'). by eapply io_inj.
  - destruct Hf. apply (io_free _ _ I). done.
Qed.

(** ** Tracking *)

Lemma track_spec a b t c : pc_block_tracker a !! b = Some t -> bt_active t = false ->
  _track_block_id a b c = Ok (with_tracker a (<[b := mkTracker true _DEFAULT_LAST_ACCESSED_TIME c]> (pc_block_tracker a))).
Proof. intros E Ha. unfold _track_block_id. rewrite E. cbn [or_raise mbind result_bind]. by rewrite Ha. Qed.

Lemma untrack_spec a b t : pc_block_tracker a !! b = Some t -> bt_active t = true ->
  _untrack_block_id a b = Ok (with_tracker a (<[b := mkTracker false _DEFAULT_LAST_ACCESSED_TIME false]> (pc_block_tracker a))).
Proof. intros E Ha. unfold _untrack_block_id. rewrite E. cbn [or_raise mbind result_bind]. by rewrite Ha. Qed.

Lemma incr_count a uses b : ids_ok a uses -> b ∈ pc_all_block_indices a ->
  incr (pc_refcounts a) b = Ok (occ b uses + 1, <[b := occ b uses + 1]> (pc_refcounts a)).
Proof.
  intros I Hb. unfold incr. rewrite (io_rc _ _ I), decide_True by done. cbn [or_raise mbind result_bind].
  pose proof (occ_nonneg b uses). by rewrite (proj2 (Z.leb_le 0 (occ b uses))).
Qed.

Lemma decr_count a uses b : ids_ok a (b :: uses) ->
  decr (pc_refcounts a) b = Ok (occ b uses, <[b := occ b uses]> (pc_refcounts a)).
Proof.
  intros I. unfold decr. rewrite (io_rc _ _ I), decide_True by (apply I; by left). cbn [or_raise mbind result_bind]. rewrite occ_cons_eq.
  pose proof (occ_nonneg b uses). rewrite (proj2 (Z.ltb_lt 0 (occ b uses + 1))) by lia. cbn [py_assert mbind result_bind].
  by replace (occ b uses + 1 - 1) with (occ b uses) by lia.
Qed.

(** The reference counts after one more, or one less, use of [b]. *)
Lemma rc_more a uses b : ids_ok a uses -> b ∈ pc_all_block_indices a -> ∀ b',
  <[b := occ b uses + 1]> (pc_refcounts a) !! b' = if decide (b' ∈ pc_all_block_indices a) then Some (occ b' (b :: uses)) else None.
Proof.
  intros I Hb b'. destruct (decide (b' = b)) as [->|Hne].
  - by rewrite lookup_insert_eq, decide_True, occ_cons_eq.
  - rewrite lookup_insert_ne by done. rewrite (io_rc _ _ I). by rewrite occ_cons_ne.
Qed.

Lemma rc_less a uses b : ids_ok a (b :: uses) -> ∀ b',
  <[b := occ b uses]> (pc_refcounts a) !! b' = if decide (b' ∈ pc_all_block_indices a) then Some (occ b' uses) else None.
Proof.
  intros I b'. destruct (decide (b' = b)) as [->|Hne].
  - rewrite lookup_insert_eq, decide_True; [done|]. apply I. by left.
  - rewrite lookup_insert_ne by done. rewrite (io_rc _ _ I). by rewrite occ_cons_ne.
Qed.

(** [b] is in use once more; [a'] differs from [a] as given. *)
Lemma ids_ok_use a a' uses b t' :
  ids_ok a uses -> b ∈ pc_all_block_indices a -> bt_active t' = true ->
  pc_all_block_indices a' = pc_all_block_indices a -> pc_refcounts a' = <[b := occ b uses + 1]> (pc_refcounts a) ->
  pc_block_tracker a' = (if decide (b ∈ uses) then pc_block_tracker a else <[b := t']> (pc_block_tracker a)) ->
  NoDup (pc_free_block_indices a') -> (∀ x, x ∈ pc_free_block_indices a' <-> x ∈ pc_free_block_indices a ∧ x ≠ b) ->
  table_of a' = delete b (table_of a) -> ev_inv (pc_evictor a') ->
  (∀ h x, pc_cached_blocks a' !! h = Some x -> pc_cached_blocks a !! h = Some x) ->
  (∀ h x, pc_cached_blocks a !! h = Some x -> x ≠ b -> pc_cached_blocks a' !! h = Some x) ->
  pc_touched_blocks a' = pc_touched_blocks a -> (∀ h, pc_cached_blocks a' !! h = Some b -> b ∉ uses -> bt_computed t' = true) ->
  ids_ok a' (b :: uses).
Proof.
  intros I Hb Ht Ea Er Et Hnd Hf Etab Hev Hc1 Hc2 Etch Hcomp. split; rewrite ?Ea.
  - intros x [->|Hx]%elem_of_cons; [done|by apply (io_uses _ _ I)].
  - intros x. rewrite Er. by apply rc_more.
  - intros x Hx. destruct (io_tracker _ _ I x Hx) as (t & E & Hact). rewrite Et. destruct (decide (b ∈ uses)) as [Hu|Hu].
    + exists t. split; [done|]. rewrite Hact. apply bool_decide_ext. rewrite elem_of_cons. split; [by right|]. by intros [->|].
    + destruct (decide (x = b)) as [->|Hne].
      * exists t'. rewrite lookup_insert_eq. split; [done|]. rewrite Ht. symmetry. apply bool_decide_eq_true_2. by left.
      * exists t. rewrite lookup_insert_ne by done. split; [done|]. rewrite Hact. apply bool_decide_ext. rewrite elem_of_cons. tauto.
  - done.
  - intros x. rewrite Hf, (io_free _ _ I), not_elem_of_cons, Etab. destruct (decide (x = b)) as [->|Hne]; [tauto|].
    rewrite lookup_delete_ne by done. tauto.
  - intros x m. rewrite Etab. intros [Hne Hx]%lookup_delete_Some. destruct (io_table _ _ I x m Hx) as (H1 & H2 & H3).
    split; [done|]. split; [|by apply Hc2]. rewrite not_elem_of_cons. done.
  - done.
  - intros h x Hc. apply Hc1 in Hc. destruct (io_cached _ _ I h x Hc) as [H1 H2]. split; [done|]. rewrite Hf. tauto.
  - intros h h' x Hc Hc'. apply (io_inj _ _ I h h' x); by apply Hc1.
  - intros h x t Hc. rewrite Et, Etch. destruct (decide (b ∈ uses)) as [Hu|Hu]; [apply (io_comp _ _ I h x t); by apply Hc1|].
    intros [[<- <-]|[_ E]]%lookup_insert_Some Hact; [left; by eapply Hcomp|]. apply (io_comp _ _ I h x t); [by apply Hc1|done|done].
Qed.

(** [b] is in use once less. *)
Lemma ids_ok_release a a' uses b t' :
  ids_ok a (b :: uses) -> bt_active t' = false ->
  pc_all_block_indices a' = pc_all_block_indices a -> pc_refcounts a' = <[b := occ b uses]> (pc_refcounts a) ->
  pc_block_tracker a' = (if decide (b ∈ uses) then pc_block_tracker a else <[b := t']> (pc_block_tracker a)) ->
  pc_cached_blocks a' = pc_cached_blocks a -> ev_inv (pc_evictor a') ->
  (if decide (b ∈ uses) then pc_free_block_indices a' = pc_free_block_indices a ∧ table_of a' = table_of a
   else (pc_free_block_indices a' = b :: pc_free_block_indices a ∧ table_of a' = table_of a ∧ ∀ h, pc_cached_blocks a !! h ≠ Some b) ∨
        (pc_free_block_indices a' = pc_free_block_indices a ∧ ∃ m, table_of a' = <[b := m]> (table_of a) ∧ pc_cached_blocks a !! md_content_hash m = Some b)) ->
  pc_touched_blocks a' = pc_touched_blocks a -> ids_ok a' uses.
Proof.
  intros I Ht Ea Er Et Ec Hev Hcase Etch.
  assert (Hb : b ∈ pc_all_block_indices a) by (apply (io_uses _ _ I); by left).
  assert (Hnf : b ∉ pc_free_block_indices a) by (rewrite (io_free _ _ I); intros (_ & [] & _); by left).
  assert (Hnt : table_of a !! b = None).
  { destruct (table_of a !! b) as [m|] eqn:E; [|done]. destruct (io_table _ _ I b m E) as (_ & [] & _). by left. }
  assert (Hin : ∀ x, x ∈ b :: uses <-> if decide (b ∈ uses) then x ∈ uses else x = b ∨ x ∈ uses).
  { intros x. rewrite elem_of_cons. case_decide; [|done]. split; [by intros [->|]|by right]. }
  split; rewrite ?Ea, ?Ec.
  - intros x Hx. apply (io_uses _ _ I). by right.
  - intros x. rewrite Er. by apply rc_less.
  - intros x Hx. destruct (io_tracker _ _ I x Hx) as (t & E & Hact). rewrite Et. destruct (decide (b ∈ uses)) as [Hu|Hu].
    + exists t. split; [done|]. rewrite Hact. apply bool_decide_ext. rewrite elem_of_cons. split; [by intros [->|]|by right].
    + destruct (decide (x = b)) as [->|Hne].
      * exists t'. rewrite lookup_insert_eq. split; [done|]. rewrite Ht. symmetry. by apply bool_decide_eq_false_2.
      * exists t. rewrite lookup_insert_ne by done. split; [done|]. rewrite Hact. apply bool_decide_ext. rewrite elem_of_cons. tauto.
  - destruct (decide (b ∈ uses)) as [Hu|Hu]; [destruct Hcase as [-> _]; apply I|]. destruct Hcase as [(-> & _)|(-> & _)]; [|apply I].
    apply NoDup_cons. split; [done|apply I].
  - intros x. pose proof (io_free _ _ I x) as Hx. rewrite not_elem_of_cons in Hx. destruct (decide (b ∈ uses)) as [Hu|Hu].
    + destruct Hcase as [-> ->]. rewrite Hx. split; [tauto|]. intros (? & ? & ?). split; [done|]. split; [|done]. split; [by intros ->|done].
    + destruct Hcase as [(-> & -> & _)|(-> & m & -> & _)].
      * rewrite elem_of_cons, Hx. destruct (decide (x = b)) as [->|Hne]; [|tauto]. split; [intros _; done|by left].
      * rewrite Hx. destruct (decide (x = b)) as [->|Hne]; [|rewrite lookup_insert_ne by done; tauto]. rewrite lookup_insert_eq. split; [tauto|]. by intros (_ & _ & ?).
  - intros x m Hx. destruct (decide (b ∈ uses)) as [Hu|Hu].
    + destruct Hcase as [_ Etab]. rewrite Etab in Hx. destruct (io_table _ _ I x m Hx) as (? & Hn & ?). rewrite not_elem_of_cons in Hn. tauto.
    + destruct Hcase as [(_ & Etab & _)|(_ & m' & Etab & Hm')]; rewrite Etab in Hx.
      * destruct (io_table _ _ I x m Hx) as (? & Hn & ?). rewrite not_elem_of_cons in Hn. tauto.
      * apply lookup_insert_Some in Hx as [[<- <-]|[Hne Hx]]; [done|]. destruct (io_table _ _ I x m Hx) as (? & Hn & ?). rewrite not_elem_of_cons in Hn. tauto.
  - done.
  - intros h x Hc. destruct (io_cached _ _ I h x Hc) as [H1 H2]. split; [done|]. destruct (decide (b ∈ uses)); [by destruct Hcase as [-> _]|].
    destruct Hcase as [(-> & _ & Hno)|(-> & _)]; [|done]. rewrite not_elem_of_cons. split; [|done]. intros ->. by destruct (Hno h).
  - apply (io_inj _ _ I).
  - intros h x t Hc. rewrite Et, Etch. destruct (decide (b ∈ uses)) as [Hu|Hu]; [by apply (io_comp _ _ I h x t)|].
    intros [[<- <-]|[_ E]]%lookup_insert_Some Hact; [congruence|]. by apply (io_comp _ _ I h x t).
Qed.

(** ** Block objects *)

(** The slots [L] hold live objects, the others are free. *)
Record slots_fine a (L : list nat) : Prop := {
  sf_nodup : NoDup (L ++ pc_pool_free_ids a);
  sf_range : ∀ i, i ∈ L ++ pc_pool_free_ids a -> (i < length (pc_pool a))%nat;
  sf_some : (0 < length (pc_pool a))%nat;
}.

(** The objects in the slots [L] are as they were. *)
Record keeps a a' (L : list nat) : Prop := {
  kp_objs : ∀ i, i ∈ L -> pc_pool a' !! i = pc_pool a !! i;
  kp_len : (length (pc_pool a) <= length (pc_pool a'))%nat;
  kp_size : pc_block_size a' = pc_block_size a;
  kp_all : pc_all_block_indices a' = pc_all_block_indices a;
}.

Lemma keeps_refl a L : keeps a a L.
Proof. by split. Qed.

Lemma keeps_trans a1 a2 a3 L : keeps a1 a2 L -> keeps a2 a3 L -> keeps a1 a3 L.
Proof. intros [H1 H2 H3 H4] [K1 K2 K3 K4]. split; [|lia|congruence|congruence]. intros i Hi. rewrite K1 by done. by apply H1. Qed.

Lemma same_ids_trans a1 a2 a3 : same_ids a1 a2 -> same_ids a2 a3 -> same_ids a1 a3.
Proof. unfold same_ids. intuition congruence. Qed.

Definition new_obj a (prev : option nat) (ts : list Z) (id : option nat) (x : option Z) (o : PrefixCachingBlock) : Prop :=
  ∃ n, o = mkPCBlock ts (pc_block_size a) prev id None n false x.

Lemma update_total a o : (∀ p, pb_prev_block o = Some p -> (p < length (pc_pool a))%nat) ->
  ∃ n, _update_num_tokens_total a o = Ok (pb_with_total o n).
Proof.
  intros Hp. unfold _update_num_tokens_total, get_obj. destruct (pb_prev_block o) as [p|]; [|by eexists].
  destruct (lookup_lt_is_Some_2 (pc_pool a) p) as [q E]; [by apply Hp|]. rewrite E. cbn [or_raise mbind result_bind]. by eexists.
Qed.

Lemma pb_init_Ok a prev ts id x : len ts <= pc_block_size a -> (∀ p, prev = Some p -> (p < length (pc_pool a))%nat) ->
  ∃ o, pb_init a prev ts (pc_block_size a) id x = Ok o ∧ new_obj a prev ts id x o.
Proof.
  intros Hl Hp. unfold pb_init. set (o := mkPCBlock [] _ _ _ _ _ _ _).
  assert (E : pb_append_no_cow o ts = Ok (pb_with_tokens o ts)).
  { unfold pb_append_no_cow. destruct ts as [|t ts]; [done|]. unfold pb_num_empty_slots. cbn [pb_block_size pb_token_ids o].
    rewrite (proj2 (Z.leb_le _ _)); [done|]. cbn [length] in *. lia. }
  rewrite E. cbn [mbind result_bind]. destruct (update_total a (pb_with_tokens o ts)) as [n En]; [done|]. rewrite En. eexists. split; [done|]. by exists n.
Qed.

Lemma pc_init_spec a L prev ts id x : slots_fine a L -> len ts <= pc_block_size a -> (∀ p, prev = Some p -> (p < length (pc_pool a))%nat) ->
  ∃ r a' o, pc_init_block a prev ts id x = Ok (r, a') ∧ r ∉ L ∧ slots_fine a' (r :: L) ∧ pc_pool a' !! r = Some o ∧ new_obj a' prev ts id x o ∧
    keeps a a' L ∧ same_ids a a' ∧ pc_touched_blocks a' = pc_touched_blocks a.
Proof.
  intros [Hn Hr Hs] Hl Hp. unfold pc_init_block.
  set (a1 := match pc_pool_free_ids a with [] => _ | _ => a end).
  assert (H1 : slots_fine a1 L ∧ pc_pool_free_ids a1 ≠ [] ∧ keeps a a1 L ∧ same_ids a a1 ∧ pc_touched_blocks a1 = pc_touched_blocks a).
  { subst a1. destruct (pc_pool_free_ids a) as [|i free] eqn:Ef.
    - rewrite app_nil_r in Hn, Hr. split; [split; cbn|split; [cbn; destruct (length (pc_pool a)); [lia|done]|split; [split; cbn|done]]].
      + apply NoDup_app. split; [done|]. split; [|apply NoDup_seq]. intros i Hi%Hr [? ?]%elem_of_seq. lia.
      + intros i. rewrite elem_of_app, elem_of_seq, length_app, length_replicate. intros [Hi%Hr|?]; lia.
      + rewrite length_app. lia.
      + intros i Hi%Hr. by rewrite lookup_app_l.
      + rewrite length_app. lia.
      + done.
      + done.
    - split; [split; rewrite ?Ef; done|]. split; [by rewrite Ef|]. split; [apply keeps_refl|done]. }
  clearbody a1. destruct H1 as ([Hn1 Hr1 Hs1] & Hne & Hk & Hi & Htch). destruct (pc_pool_free_ids a1) as [|r free] eqn:Ef; [done|].
  assert (Hrr : (r < length (pc_pool a1))%nat) by (apply Hr1; apply elem_of_app; right; by left).
  unfold get_obj. destruct (lookup_lt_is_Some_2 _ _ Hrr) as [o0 E0]. rewrite E0. cbn [or_raise mbind result_bind].
  destruct (pb_init_Ok a1 prev ts id x) as (o & Eo & Ho); [by rewrite (kp_size _ _ _ Hk)|intros p Ep; pose proof (kp_len _ _ _ Hk); specialize (Hp p Ep); lia|].
  rewrite Eo. cbn [mbind result_bind]. assert (HrL : r ∉ L). { apply NoDup_app in Hn1 as (_ & Hd & _). intros HL. apply (Hd r HL). by left. }
  eexists _, _, o. split; [reflexivity|]. split; [done|]. split; [split; cbn|].
  - change (NoDup (r :: (L ++ free))). by rewrite <-Permutation_middle in Hn1.
  - intros i Hi'. rewrite length_insert. apply Hr1. rewrite <-Permutation_middle. done.
  - by rewrite length_insert.
  - cbn. split; [by apply list_lookup_insert_eq|]. split; [done|]. split; [|done]. eapply keeps_trans; [exact Hk|]. split; cbn; [|by rewrite length_insert|done|done].
    intros i HiL. rewrite list_lookup_insert_ne; [done|]. by intros ->.
Qed.

Lemma free_object_spec a L r : slots_fine a (r :: L) -> slots_fine (pc_free_object a r) L.
Proof.
  intros [H1 H2 H3]. split; cbn; [|intros i; rewrite <-Permutation_middle; apply H2|done].
  rewrite <-Permutation_middle. done.
Qed.

(** ** Taking a physical block *)

Lemma hashless_alloc_spec a uses L : ids_ok a uses -> slots_fine a L -> 0 <= pc_block_size a ->
  match pc_free_block_indices a with
  | [] => _maybe_allocate_hashless_block_id a = Ok (None, a)
  | b :: _ => ∃ a', _maybe_allocate_hashless_block_id a = Ok (Some b, a') ∧ ids_ok a' (b :: uses) ∧ slots_fine a' L ∧ keeps a a' L ∧ b ∉ uses ∧
      pc_cached_blocks a' = pc_cached_blocks a ∧ (∀ h, pc_cached_blocks a !! h ≠ Some b) ∧ pc_touched_blocks a' = pc_touched_blocks a
  end.
Proof.
  intros I S Hbs. unfold _maybe_allocate_hashless_block_id. destruct (pc_free_block_indices a) as [|b free] eqn:Ef; [done|].
  destruct (proj1 (io_free _ _ I b)) as (Hb & Hu & Ht); [rewrite Ef; by left|].
  rewrite (incr_count a uses b I Hb). cbn [mbind result_bind fst snd]. set (a1 := with_refs _ _ _).
  destruct (pc_init_spec a1 L None [] (Some b) None) as (r & a2 & o & E2 & HrL & S2 & _ & _ & K2 & I2 & T2); [by destruct S|done|done|].
  rewrite E2. cbn [mbind result_bind fst snd]. destruct I2 as (J1 & J2 & J3 & J4 & J5 & J6 & _).
  destruct (io_tracker _ _ I b Hb) as (t & Et & Hact). rewrite bool_decide_eq_false_2 in Hact by done.
  rewrite (track_spec _ b t) by (cbn; rewrite ?J2; done). cbn [mbind result_bind]. eexists. split; [reflexivity|].
  assert (Hno : ∀ h, pc_cached_blocks a !! h ≠ Some b).
  { intros h Hc. destruct (io_cached _ _ I h b Hc) as [_ []]. rewrite Ef. by left. }
  split; [|split; [by apply free_object_spec in S2; destruct S2|split; [destruct K2 as [K21 K22 K23 K24]; split; [exact K21|exact K22|exact K23|exact K24]|]]].
  - pose proof (io_nodup _ _ I) as Hnd. rewrite Ef in Hnd. apply NoDup_cons in Hnd as [Hbf Hnd].
    eapply (ids_ok_use a _ uses b (mkTracker true _DEFAULT_LAST_ACCESSED_TIME false)); cbn; rewrite ?J1, ?J2, ?J3, ?J4, ?J5, ?J6; cbn; try done.
    + by rewrite decide_False.
    + intros y. rewrite Ef, elem_of_cons. split; [|tauto]. intros Hy. split; [by right|]. by intros ->.
    + symmetry. by apply delete_id.
    + apply I.
    + intros h Hh. by destruct (Hno h).
  - split; [done|]. split; [cbn; by rewrite J1|]. split; [done|]. cbn. by rewrite T2.
Qed.

Lemma evicted_alloc_spec a uses : ids_ok a uses ->
  (table_of a = ∅ ∧ _maybe_allocate_evicted_block_id a = Ok (None, a)) ∨
  ∃ b h a', _maybe_allocate_evicted_block_id a = Ok (Some b, a') ∧ ids_ok a' (b :: uses) ∧ b ∉ uses ∧ is_Some (table_of a !! b) ∧
    pc_cached_blocks a !! h = Some b ∧ pc_cached_blocks a' = delete h (pc_cached_blocks a) ∧ table_of a' = delete b (table_of a) ∧
    pc_free_block_indices a' = pc_free_block_indices a ∧ pc_all_block_indices a' = pc_all_block_indices a ∧
    pc_pool a' = pc_pool a ∧ pc_pool_free_ids a' = pc_pool_free_ids a ∧ pc_block_size a' = pc_block_size a ∧ pc_touched_blocks a' = pc_touched_blocks a.
Proof.
  intros I. unfold _maybe_allocate_evicted_block_id, ev_num_blocks.
  destruct (Z.eqb_spec (Z.of_nat (size (table_of a))) 0) as [E0|E0].
  { left. split; [|done]. apply map_size_empty_iff. lia. }
  right. assert (Hne : table_of a ≠ ∅) by (intros E; rewrite E, map_size_empty in E0; done).
  destruct (ev_evict_spec (pc_evictor a) (io_ev _ _ I) Hne) as (b & m & e' & E & Hb & Etab & Hinv & _). rewrite E. cbn [mbind result_bind].
  destruct (io_table _ _ I b m Hb) as (Ha & Hu & Hc). cbn [pc_cached_blocks with_evictor]. rewrite Hc. cbn [or_raise mbind result_bind].
  unfold get_refcount. cbn [pc_refcounts with_evictor]. rewrite (io_rc _ _ I), decide_True by done. cbn [or_raise mbind result_bind].
  rewrite (proj2 (occ_0 b uses) Hu). cbn [Z.eqb py_assert mbind result_bind]. rewrite bool_decide_eq_true_2 by done. cbn [py_assert mbind result_bind].
  cbn [pc_refcounts with_evictor pc_with_cached pc_cached_blocks]. rewrite (incr_count a uses b I Ha). cbn [mbind result_bind fst snd].
  destruct (io_tracker _ _ I b Ha) as (t & Et & Hact). rewrite bool_decide_eq_false_2 in Hact by done.
  rewrite (track_spec _ b t) by done. cbn [mbind result_bind]. exists b, (md_content_hash m). eexists. split; [reflexivity|].
  split; [|split; [done|]; split; [by rewrite Hb|]; cbn; by rewrite Etab].
  eapply (ids_ok_use a _ uses b (mkTracker true _DEFAULT_LAST_ACCESSED_TIME false)); cbn; try done.
  - by rewrite decide_False.
  - apply I.
  - intros x. split; [|tauto]. intros Hx. split; [done|]. intros ->. apply (io_free _ _ I) in Hx as (_ & _ & Hn). congruence.
  - intros h x [_ Hx]%lookup_delete_Some. done.
  - intros h x Hx Hxb. rewrite lookup_delete_ne; [done|]. intros <-. congruence.
  - intros h [Hne' Hx]%lookup_delete_Some _. destruct Hne'. by apply (io_inj _ _ I _ _ b).
Qed.

(** [_allocate_block_id] succeeds exactly when [get_num_free_blocks] is positive. *)
Lemma allocate_block_id_spec a uses L : ids_ok a uses -> slots_fine a L -> 0 <= pc_block_size a ->
  (pc_get_num_free_blocks a = 0 ∧ pc_allocate_block_id a = Err ValueError) ∨
  ∃ b a', pc_allocate_block_id a = Ok (b, a') ∧ 0 < pc_get_num_free_blocks a ∧ ids_ok a' (b :: uses) ∧ slots_fine a' L ∧ keeps a a' L ∧ b ∉ uses ∧
    (∀ h, pc_cached_blocks a' !! h ≠ Some b) ∧ (∀ h x, pc_cached_blocks a' !! h = Some x <-> pc_cached_blocks a !! h = Some x ∧ x ≠ b) ∧
    pc_touched_blocks a' = pc_touched_blocks a.
Proof.
  intros I S Hbs. pose proof (hashless_alloc_spec a uses L I S Hbs) as Hh. unfold pc_allocate_block_id, pc_get_num_free_blocks, ev_num_blocks.
  destruct (pc_free_block_indices a) as [|b free] eqn:Ef.
  - rewrite Hh. cbn [mbind result_bind]. destruct (evicted_alloc_spec a uses I) as [[Et E]|(b & h & a' & E & I' & Hu & Ht & Hc & Ec & _ & _ & Eall & Ep & Epf & Es & Et)].
    + left. rewrite Et, E, map_size_empty. done.
    + right. rewrite E. cbn [mbind result_bind]. exists b, a'. split; [done|]. split.
      { assert (size (table_of a) ≠ 0%nat); [|cbn [length]; lia]. intros E0%map_size_empty_iff. rewrite E0, lookup_empty in Ht. by destruct Ht. }
      split; [done|]. split; [destruct S; split; rewrite ?Ep, ?Epf; done|]. split; [split; rewrite ?Ep; done|]. split; [done|].
      assert (Hiff : ∀ h' x, pc_cached_blocks a' !! h' = Some x <-> pc_cached_blocks a !! h' = Some x ∧ x ≠ b).
      { intros h' x. rewrite Ec, lookup_delete_Some. split.
        - intros [Hne Hx]. split; [done|]. intros ->. apply Hne. by apply (io_inj _ _ I h h' b).
        - intros [Hx Hne]. split; [|done]. intros ->. congruence. }
      split; [|done]. intros h' Hx%Hiff. tauto.
  - right. destruct Hh as (a' & E & I' & S' & K & Hu & Ec & Hno & Et). rewrite E. cbn [mbind result_bind]. exists b, a'. split; [done|].
    split; [cbn [length]; lia|]. split; [done|]. split; [done|]. split; [done|]. split; [done|]. rewrite Ec. split; [done|]. split; [|done].
    intros h x. split; [|tauto]. intros Hx. split; [done|]. intros ->. by destruct (Hno h).
Qed.

(** ** Operations of the prefix-caching allocator

    [pc_inv a H]: [H] maps the live block objects to their physical blocks.  A live object
    is immutable (full, hashed, its physical block registered under its hash) or mutable
    (not full, the only user of its physical block).  Each operation keeps this. *)

Implicit Types (r : nat) (H : gmap nat nat) (o : PrefixCachingBlock).

(** *** Reference counts of objects *)

Section counts.
Context `{PH : !PrefixHash}.

(** What an operation on the object in slot [r] leaves alone. *)
Definition other_parts a a' : Prop :=
  pc_pool_free_ids a' = pc_pool_free_ids a ∧ pc_block_size a' = pc_block_size a ∧ pc_touched_blocks a' = pc_touched_blocks a ∧
  pc_all_block_indices a' = pc_all_block_indices a.

Lemma obj_set_ids a r o : same_ids a (set_obj a r o).
Proof. done. Qed.

Lemma obj_set_get a r o o' : pc_pool a !! r = Some o -> pc_pool (set_obj a r o') !! r = Some o'.
Proof. intros E. cbn. apply list_lookup_insert_eq. by eapply lookup_lt_Some. Qed.

Lemma hashless_release a uses r o b :
  ids_ok a (b :: uses) -> pc_pool a !! r = Some o -> pb_block_id o = Some b -> (b ∉ uses -> ∀ h, pc_cached_blocks a !! h ≠ Some b) ->
  ∃ a', _decr_refcount_hashless_block a r = Ok a' ∧ ids_ok a' uses ∧ pc_pool a' = <[r := pb_with_id o None]> (pc_pool a) ∧
    pc_cached_blocks a' = pc_cached_blocks a ∧ other_parts a a'.
Proof.
  intros I Eo Eb Hno. assert (Hb : b ∈ pc_all_block_indices a) by (apply (io_uses _ _ I); by left).
  unfold _decr_refcount_hashless_block, get_obj, get_refcount. rewrite Eo. cbn [or_raise mbind result_bind]. rewrite Eb. cbn [or_raise mbind result_bind].
  rewrite (io_rc _ _ I), decide_True by done. cbn [or_raise mbind result_bind]. rewrite occ_cons_eq.
  destruct (io_tracker _ _ I b Hb) as (t & Et & Hact). rewrite bool_decide_eq_true_2 in Hact by (by left).
  pose proof (occ_nonneg b uses) as Hp. destruct (decide (b ∈ uses)) as [Hu|Hu].
  - pose proof (occ_pos b uses Hu). destruct (Z.eqb_spec (occ b uses + 1) 1) as [|_]; [lia|]. cbn [mbind result_bind]. rewrite Eo. cbn [or_raise mbind result_bind].
    unfold hashless_free_id. cbn [set_obj pc_with_pool pc_refcounts pc_free_block_indices]. rewrite (decr_count a uses b I). cbn [mbind result_bind fst snd].
    destruct (Z.eqb_spec (occ b uses) 0) as [|_]; [lia|]. eexists. split; [reflexivity|]. split; [|done].
    eapply (ids_ok_release a _ uses b (mkTracker false 0 false)); cbn; rewrite ?decide_True by done; try done. apply I.
  - rewrite (proj2 (occ_0 b uses) Hu). change (0 + 1 =? 1) with true. cbv iota. rewrite (untrack_spec a b t Et Hact). cbn [mbind result_bind].
    cbn [with_tracker pc_pool]. rewrite Eo. cbn [or_raise mbind result_bind]. unfold hashless_free_id. cbn [set_obj pc_with_pool with_tracker pc_refcounts pc_free_block_indices].
    rewrite (decr_count a uses b I). cbn [mbind result_bind fst snd]. rewrite (proj2 (occ_0 b uses) Hu). cbn [Z.eqb].
    eexists. split; [reflexivity|]. split; [|done].
    eapply (ids_ok_release a _ uses b (mkTracker false _DEFAULT_LAST_ACCESSED_TIME false)); cbn; rewrite ?decide_False by done; try done.
    + by rewrite (proj2 (occ_0 b uses) Hu).
    + apply I.
    + left. split; [done|]. split; [done|]. by apply Hno.
Qed.

Lemma cached_use a uses r o b :
  ids_ok a uses -> pc_pool a !! r = Some o -> pb_block_id o = Some b -> b ∈ pc_all_block_indices a -> b ∉ pc_free_block_indices a ->
  ∃ a', _incr_refcount_cached_block a r = Ok a' ∧ ids_ok a' (b :: uses) ∧ pc_pool a' = <[r := pb_with_computed o true]> (pc_pool a) ∧
    pc_cached_blocks a' = pc_cached_blocks a ∧ other_parts a a'.
Proof.
  intros I Eo Eb Hb Hf. unfold _incr_refcount_cached_block, get_obj. rewrite Eo. cbn [or_raise mbind result_bind]. rewrite Eb. cbn [or_raise mbind result_bind].
  cbn [set_obj pc_with_pool pc_refcounts]. rewrite (incr_count a uses b I Hb). cbn [mbind result_bind fst snd].
  destruct (io_tracker _ _ I b Hb) as (t & Et & Hact). pose proof (occ_nonneg b uses) as Hp. destruct (decide (b ∈ uses)) as [Hu|Hu].
  - pose proof (occ_pos b uses Hu). destruct (Z.eqb_spec (occ b uses + 1) 1) as [|_]; [lia|]. eexists. split; [reflexivity|]. split; [|done].
    assert (Hnt : table_of a !! b = None). { destruct (table_of a !! b) as [m|] eqn:E; [|done]. by destruct (io_table _ _ I b m E) as (_ & [] & _). }
    eapply (ids_ok_use a _ uses b (mkTracker true 0 true)); cbn; rewrite ?decide_True by done; try done.
    + apply I.
    + intros x. split; [|tauto]. intros Hx. split; [done|]. by intros ->.
    + symmetry. by apply delete_id.
    + apply I.
  - rewrite (proj2 (occ_0 b uses) Hu). change (0 + 1 =? 1) with true. cbn [with_refs pc_evictor set_obj pc_with_pool].
    rewrite bool_decide_eq_false_2 in Hact by done.
    destruct (table_of a !! b) as [m|] eqn:Em; [|destruct Hf; by apply (io_free _ _ I)].
    unfold ev_contains. rewrite bool_decide_eq_true_2 by (by rewrite Em). destruct (ev_remove_spec (pc_evictor a) b m (io_ev _ _ I) Em) as (e' & Ee & Hinv & Etab).
    rewrite Ee. cbn [mbind result_bind]. rewrite (track_spec _ b t) by done. eexists. split; [reflexivity|]. split; [|done].
    eapply (ids_ok_use a _ uses b (mkTracker true _DEFAULT_LAST_ACCESSED_TIME true)); cbn; rewrite ?decide_False by done; try done.
    + by rewrite (proj2 (occ_0 b uses) Hu).
    + apply I.
    + intros x. split; [|tauto]. intros Hx. split; [done|]. by intros ->.
Qed.

Lemma content_hash_cached a r o h : pc_pool a !! r = Some o -> pb_cached_content_hash o = Some h -> content_hash a r = Ok (Some h, a).
Proof. intros E Eh. unfold content_hash. cbn [content_hash_loop]. unfold get_obj. rewrite E. cbn [or_raise mbind result_bind]. by rewrite Eh. Qed.

Lemma content_hash_partial a r o : pc_pool a !! r = Some o -> pb_cached_content_hash o = None -> len (pb_token_ids o) ≠ pb_block_size o -> content_hash a r = Ok (None, a).
Proof.
  intros E Eh Hf. unfold content_hash. cbn [content_hash_loop]. unfold get_obj. rewrite E. cbn [or_raise mbind result_bind]. rewrite Eh.
  assert (pb_is_full o = false) as ->; [|done]. unfold pb_is_full, pb_num_empty_slots. apply Z.eqb_neq. lia.
Qed.

(** The block is new to the evictor under this time. *)
Definition fresh_access a b o : Prop :=
  ∀ h t, pb_cached_content_hash o = Some h -> pc_block_tracker a !! b = Some t -> fresh_time (pc_evictor a) b h (pb_num_tokens_total o) (bt_last_accessed t).

Lemma cached_release a uses r o b h :
  ids_ok a (b :: uses) -> pc_pool a !! r = Some o -> pb_block_id o = Some b -> pb_cached_content_hash o = Some h -> pc_cached_blocks a !! h = Some b ->
  (b ∉ uses -> fresh_access a b o) ->
  ∃ a', _decr_refcount_cached_block a r = Ok a' ∧ ids_ok a' uses ∧ pc_pool a' = <[r := pb_with_id o None]> (pc_pool a) ∧
    pc_cached_blocks a' = pc_cached_blocks a ∧ other_parts a a'.
Proof.
  intros I Eo Eb Eh Hc Hfresh. assert (Hb : b ∈ pc_all_block_indices a) by (apply (io_uses _ _ I); by left).
  unfold _decr_refcount_cached_block. rewrite (content_hash_cached a r o h Eo Eh). cbn [mbind result_bind or_raise]. unfold get_obj. rewrite Eo. cbn [mbind result_bind or_raise].
  rewrite Eb. cbn [mbind result_bind or_raise]. rewrite (decr_count a uses b I). cbn [mbind result_bind fst snd].
  destruct (io_tracker _ _ I b Hb) as (t & Et & Hact). rewrite bool_decide_eq_true_2 in Hact by (by left). pose proof (occ_nonneg b uses) as Hp.
  destruct (decide (b ∈ uses)) as [Hu|Hu].
  - pose proof (occ_pos b uses Hu). rewrite (proj2 (Z.ltb_lt 0 (occ b uses))) by lia. eexists. split; [reflexivity|]. split; [|done].
    eapply (ids_ok_release a _ uses b (mkTracker false 0 false)); cbn; rewrite ?decide_True by done; try done. apply I.
  - rewrite (proj2 (occ_0 b uses) Hu). change (0 <? 0) with false. change (0 =? 0) with true. cbn [py_assert mbind result_bind].
    cbn [with_refs pc_cached_blocks pc_block_tracker pc_evictor]. rewrite Hc. cbn [mbind result_bind or_raise]. rewrite Et. cbn [mbind result_bind or_raise].
    destruct (ev_add_spec (pc_evictor a) b h (pb_num_tokens_total o) (bt_last_accessed t) (io_ev _ _ I) (Hfresh Hu h t Eh Et)) as [Hinv Etab].
    rewrite (untrack_spec _ b t) by done. cbn [mbind result_bind]. eexists. split; [reflexivity|]. split; [|done].
    eapply (ids_ok_release a _ uses b (mkTracker false _DEFAULT_LAST_ACCESSED_TIME false)); cbn; rewrite ?decide_False by done; try done.
    + by rewrite (proj2 (occ_0 b uses) Hu).
    + right. split; [done|]. eexists. split; [exact Etab|]. done.
Qed.
End counts.

(** *** Live objects *)

Section inv.
Context `{PH : !PrefixHash}.

Definition uses_of H : list nat := (map_to_list H).*2.
Definition slots_of H : list nat := (map_to_list H).*1.

(** Full, hashed, and registered under its hash. *)
Definition immutable a b o : Prop :=
  ∃ h first prev, pb_cached_content_hash o = Some h ∧ len (pb_token_ids o) = pc_block_size a ∧ pc_cached_blocks a !! h = Some b ∧
    h = py_hash first prev (pb_token_ids o) (pb_extra_hash o).

(** Not full, and the only user of its physical block. *)
Definition mutable a H r b o : Prop :=
  pb_cached_content_hash o = None ∧ len (pb_token_ids o) < pc_block_size a ∧ pb_computed o = false ∧
  (∀ r', H !! r' = Some b -> r' = r) ∧ ∀ h, pc_cached_blocks a !! h ≠ Some b.

Record obj_ok a H r b o : Prop := {
  oo_id : pb_block_id o = Some b;
  oo_size : pb_block_size o = pc_block_size a;
  oo_prev : ∀ p, pb_prev_block o = Some p -> (p < length (pc_pool a))%nat;
  oo_state : immutable a b o ∨ mutable a H r b o;
}.

Record pc_inv a H : Prop := {
  pi_size : 0 < pc_block_size a;
  pi_ids : ids_ok a (uses_of H);
  pi_slots : slots_fine a (slots_of H);
  pi_touched : pc_touched_blocks a ⊆ pc_all_block_indices a;
  pi_objs : ∀ r b, H !! r = Some b -> ∃ o, pc_pool a !! r = Some o ∧ obj_ok a H r b o;
}.

Lemma uses_elem H b : b ∈ uses_of H <-> ∃ r, H !! r = Some b.
Proof.
  unfold uses_of. rewrite list_elem_of_fmap. split.
  - intros ([r b'] & -> & Hin%elem_of_map_to_list). by exists r.
  - intros [r E]. exists (r, b). split; [done|]. by apply elem_of_map_to_list.
Qed.

Lemma slots_elem H r : r ∈ slots_of H <-> is_Some (H !! r).
Proof.
  unfold slots_of. rewrite list_elem_of_fmap. split.
  - intros ([r' b'] & -> & Hin%elem_of_map_to_list). by exists b'.
  - intros [b E]. exists (r, b). split; [done|]. by apply elem_of_map_to_list.
Qed.

Lemma uses_insert H r b : H !! r = None -> uses_of (<[r := b]> H) ≡ₚ b :: uses_of H.
Proof. intros E. unfold uses_of. by rewrite map_to_list_insert. Qed.

Lemma slots_insert H r b : H !! r = None -> slots_of (<[r := b]> H) ≡ₚ r :: slots_of H.
Proof. intros E. unfold slots_of. by rewrite map_to_list_insert. Qed.

Lemma pc_uses_delete H r b : H !! r = Some b -> uses_of H ≡ₚ b :: uses_of (delete r H).
Proof. intros E. rewrite <-(uses_insert (delete r H) r b) by apply lookup_delete_eq. by rewrite insert_delete_id. Qed.

Lemma slots_delete H r b : H !! r = Some b -> slots_of H ≡ₚ r :: slots_of (delete r H).
Proof. intros E. rewrite <-(slots_insert (delete r H) r b) by apply lookup_delete_eq. by rewrite insert_delete_id. Qed.

Lemma slots_replace H r b b' : H !! r = Some b -> slots_of (<[r := b']> H) ≡ₚ slots_of H.
Proof.
  intros E. rewrite (slots_delete (<[r := b']> H) r b'), (slots_delete H r b) by (by rewrite ?lookup_insert_eq).
  by rewrite delete_insert_eq.
Qed.

Lemma uses_replace H r b b' : H !! r = Some b -> uses_of (<[r := b']> H) ≡ₚ b' :: uses_of (delete r H).
Proof. intros E. rewrite (pc_uses_delete (<[r := b']> H) r b') by (by rewrite lookup_insert_eq). by rewrite delete_insert_eq. Qed.

Lemma slots_fine_perm a L L' : L ≡ₚ L' -> slots_fine a L -> slots_fine a L'.
Proof. intros HP [H1 H2 H3]. split; [by rewrite <-HP| |done]. intros i. rewrite <-HP. apply H2. Qed.

(** The objects other than that in slot [r] are untouched. *)
Lemma objs_step a a' H H' r :
  pc_inv a H ->
  (∀ r0 b0, r0 ≠ r -> H' !! r0 = Some b0 -> H !! r0 = Some b0) ->
  (∀ r0 b0, r0 ≠ r -> H' !! r0 = Some b0 -> pc_pool a' !! r0 = pc_pool a !! r0) ->
  (length (pc_pool a) <= length (pc_pool a'))%nat -> pc_block_size a' = pc_block_size a ->
  (∀ r0 b0 h, r0 ≠ r -> H' !! r0 = Some b0 -> pc_cached_blocks a !! h = Some b0 -> pc_cached_blocks a' !! h = Some b0) ->
  (∀ r0 b0 h, r0 ≠ r -> H' !! r0 = Some b0 -> pc_cached_blocks a' !! h = Some b0 -> pc_cached_blocks a !! h = Some b0) ->
  (∀ b0, H' !! r = Some b0 -> (∃ o, pc_pool a' !! r = Some o ∧ obj_ok a' H' r b0 o) ∧
    ∀ r0, r0 ≠ r -> H' !! r0 = Some b0 -> ∃ h, pc_cached_blocks a !! h = Some b0) ->
  ∀ r0 b0, H' !! r0 = Some b0 -> ∃ o, pc_pool a' !! r0 = Some o ∧ obj_ok a' H' r0 b0 o.
Proof.
  intros I Hsub Hpool Hlen Hsize Hc1 Hc2 Hr r0 b0 E0. destruct (decide (r0 = r)) as [->|Hne]; [by apply Hr|].
  destruct (pi_objs _ _ I r0 b0 (Hsub _ _ Hne E0)) as (o & Eo & [O1 O2 O3 O4]). exists o. rewrite (Hpool r0 b0 Hne E0). split; [done|].
  split; [done|congruence|intros p Hp; specialize (O3 p Hp); lia|]. destruct O4 as [(h & f & p & H1 & H2 & H3 & H4)|(H1 & H2 & H3 & H4 & H5)].
  - left. exists h, f, p. rewrite Hsize. split; [done|]. split; [done|]. split; [by eapply Hc1|done].
  - right. split; [done|]. split; [by rewrite Hsize|]. split; [done|]. split.
    + intros r' E'. destruct (decide (r' = r)) as [->|Hne']; [|by apply H4, Hsub]. destruct (proj2 (Hr b0 E') r0 Hne E0) as [h Hh]. by destruct (H5 h).
    + intros h Hh. apply (H5 h). by eapply Hc2.
Qed.

(** *** Reading the hash of a block that has just become full *)

(** The block before is full and live and its hash is not that of 'None' (which
    [content_hash] takes for a missing hash), or there is none. *)
Definition prev_ok a H (prev : option nat) : Prop :=
  match prev with
  | None => True
  | Some p => ∃ q h, is_Some (H !! p) ∧ pc_pool a !! p = Some q ∧ pb_cached_content_hash q = Some h ∧ h ≠ none_hash
  end.

(** The hash of a full block: that of the block before, its tokens and the extra hash. *)
Definition hash_after a (prev : option nat) (ts : list Z) (x : option Z) : Z :=
  match prev with
  | None => py_hash true (Some none_hash) ts x
  | Some p => py_hash false (pc_pool a !! p ≫= pb_cached_content_hash) ts x
  end.

Lemma hash_after_form a prev ts x : ∃ first p, hash_after a prev ts x = py_hash first p ts x.
Proof. destruct prev; by eexists _, _. Qed.

Lemma content_hash_new a r o : pc_pool a !! r = Some o -> pb_cached_content_hash o = None -> len (pb_token_ids o) = pb_block_size o ->
  (∀ p, pb_prev_block o = Some p -> ∃ q h, pc_pool a !! p = Some q ∧ pb_cached_content_hash q = Some h ∧ h ≠ none_hash) ->
  let h := hash_after a (pb_prev_block o) (pb_token_ids o) (pb_extra_hash o) in
  content_hash a r = Ok (Some h, set_obj a r (pb_with_hash o (Some h))).
Proof.
  intros Eo Eh Hf Hp h. unfold content_hash. assert (0 < length (pc_pool a))%nat by (apply lookup_lt_Some in Eo; lia).
  assert (Eg : get_obj a r = Ok o) by (unfold get_obj; by rewrite Eo).
  destruct (length (pc_pool a)) as [|n]; [lia|]. cbn [content_hash_loop]. rewrite Eg. cbn [mbind result_bind]. rewrite Eh.
  assert (pb_is_full o = true) as -> by (unfold pb_is_full, pb_num_empty_slots; apply Z.eqb_eq; lia). cbn [negb].
  destruct (pb_prev_block o) as [p|] eqn:Ep.
  - destruct (Hp p eq_refl) as (q & hq & Eq & Ehq & Hne). assert (Egp : get_obj a p = Ok q) by (unfold get_obj; by rewrite Eq).
    rewrite Egp. cbn [mbind result_bind]. rewrite Ehq. cbn [mbind result_bind].
    rewrite (bool_decide_eq_false_2 (Some hq = Some none_hash)) by congruence. cbn [andb]. rewrite Eg. cbn [mbind result_bind].
    rewrite (bool_decide_eq_false_2 (Some p = None)) by done. unfold pb_hash_block_tokens, h, hash_after. rewrite Eq. cbn. by rewrite Ehq.
  - cbn [mbind result_bind]. rewrite (bool_decide_eq_true_2 (None = None)) by done. rewrite andb_false_r, Eg. cbn [mbind result_bind].
    done.
Qed.
End inv.
