(* ===== verification/PrefixSteps.v ===== *)
(** * The invariant of the prefix-caching allocator through its operations *)

From stdpp Require Import base tactics list gmap sets sorting.
From Stdlib Require Import ZArith Lia.
From S2P Require Import Prelude.
From S2P Require Import NaiveBlocks.
From S2P Require Import BlockStore.
From S2P Require Import Evictor.
From S2P Require Import PrefixCaching.
From S2P Require Import PrefixInv.

Local Open Scope Z_scope.

Implicit Types (a : PrefixCachingBlockAllocator) (uses : list nat) (r b : nat) (H : gmap nat nat) (o : PrefixCachingBlock).

Section steps.
Context `{PH : !PrefixHash}.

Lemma shared_cached a H r r0 b : pc_inv a H -> H !! r = Some b -> H !! r0 = Some b -> r0 ≠ r -> ∃ h, pc_cached_blocks a !! h = Some b.
Proof.
  intros I E E0 Hne. destruct (pi_objs _ _ I r0 b E0) as (o & _ & [_ _ _ [(h & _ & _ & _ & _ & Hc & _)|(_ & _ & _ & Hu & _)]]); [by exists h|].
  destruct Hne. by rewrite (Hu r E).
Qed.

Lemma used_range a H p : pc_inv a H -> is_Some (H !! p) -> (p < length (pc_pool a))%nat.
Proof. intros I Hp. apply (sf_range _ _ (pi_slots _ _ I)). apply elem_of_app. left. by apply slots_elem. Qed.

Lemma prev_range a H prev : pc_inv a H -> prev_ok a H prev -> ∀ p, prev = Some p -> (p < length (pc_pool a))%nat.
Proof. intros I Hp p ->. destruct Hp as (q & h & Hs & _). by eapply used_range. Qed.

Lemma set_slots a r o L : slots_fine a L -> slots_fine (set_obj a r o) L.
Proof. intros [H1 H2 H3]. split; cbn; rewrite ?length_insert; done. Qed.

(** Changing one object. *)
Lemma set_obj_inv a H r b o o' : pc_inv a H -> H !! r = Some b -> pc_pool a !! r = Some o -> obj_ok a H r b o' -> pc_inv (set_obj a r o') H.
Proof.
  intros I E Eo [O1 O2 O3 O4]. split; [apply I|eapply ids_ok_same; [|apply I]; done|apply set_slots, I|apply I|].
  eapply (objs_step a _ H H r); try done; cbn.
  - intros r0 b0 Hne _. by rewrite list_lookup_insert_ne.
  - by rewrite length_insert.
  - intros b0 E'. rewrite E in E'. injection E' as <-. split; [|intros r0 Hne E0; by eapply (shared_cached a H r r0)].
    exists o'. split; [apply list_lookup_insert_eq; by eapply lookup_lt_Some|]. split; [done|done|cbn; by rewrite length_insert|done].
Qed.

(** ** Mutable blocks *)

Lemma free_count a uses : ids_ok a uses -> pc_get_num_free_blocks a = 0 <-> pc_free_block_indices a = [] ∧ table_of a = ∅.
Proof.
  intros I. unfold pc_get_num_free_blocks, ev_num_blocks. split.
  - intros E. assert (len (pc_free_block_indices a) = 0) as E1 by lia. assert (Z.of_nat (size (table_of a)) = 0) as E2 by lia.
    split; [apply length_zero_iff_nil; lia|apply map_size_empty_iff; lia].
  - intros [-> ->]. by rewrite map_size_empty.
Qed.

Lemma pc_mutable_spec a H prev x : pc_inv a H -> (∀ p, prev = Some p -> (p < length (pc_pool a))%nat) ->
  (pc_get_num_free_blocks a = 0 ∧ pc_allocate_mutable_block a prev x = Err ValueError) ∨
  ∃ r b a' o, pc_allocate_mutable_block a prev x = Ok (r, a') ∧ 0 < pc_get_num_free_blocks a ∧ H !! r = None ∧ b ∉ uses_of H ∧
    pc_inv a' (<[r := b]> H) ∧ keeps a a' (slots_of H) ∧ pc_pool a' !! r = Some o ∧ new_obj a' prev [] (Some b) x o.
Proof.
  intros I Hprev. pose proof (pi_size _ _ I) as Hbs. unfold pc_allocate_mutable_block.
  destruct (allocate_block_id_spec a (uses_of H) (slots_of H)) as [[E0 E]|(b & a1 & E & Hpos & I1 & S1 & K1 & Hu & Hno & Hc & T1)];
    [apply I|apply I|lia|left; split; [done|by rewrite E]|right].
  rewrite E. cbn [mbind result_bind fst snd].
  destruct (pc_init_spec a1 (slots_of H) prev [] (Some b) x S1) as (r & a2 & o & E2 & HrL & S2 & Eo & Ho & K2 & J2 & T2).
  { rewrite (kp_size _ _ _ K1). cbn. lia. }
  { intros p Ep. pose proof (kp_len _ _ _ K1). specialize (Hprev p Ep). lia. }
  rewrite E2. cbn [mbind result_bind fst snd]. unfold get_obj. rewrite Eo. cbn [or_raise mbind result_bind].
  destruct Ho as [n Ho]. assert (Hcomp : pb_computed o = false) by (by rewrite Ho). rewrite Hcomp. cbn [negb py_assert mbind result_bind].
  pose proof (keeps_trans _ _ _ _ K1 K2) as K. pose proof (kp_size _ _ _ K) as Hsize.
  rewrite (content_hash_partial a2 r o); [|done|by rewrite Ho|rewrite Ho; cbn; rewrite Hsize; lia]. cbn [mbind result_bind fst snd].
  rewrite bool_decide_eq_true_2 by done. cbn [py_assert mbind result_bind]. exists r, b, a2, o.
  assert (Hr : H !! r = None). { destruct (H !! r) eqn:E3; [|done]. destruct HrL. apply slots_elem. by eexists. }
  pose proof J2 as (J1 & _). split; [done|]. split; [done|]. split; [done|]. split; [done|]. split; [|split; [done|split; [done|by exists n]]].
  assert (Hkeep : ∀ r0 b0, r0 ≠ r -> <[r := b]> H !! r0 = Some b0 -> H !! r0 = Some b0 ∧ b0 ≠ b).
  { intros r0 b0 Hne. rewrite lookup_insert_ne by done. intros E3. split; [done|]. intros ->. destruct Hu. apply uses_elem. by exists r0. }
  split.
  - by rewrite Hsize.
  - eapply ids_ok_perm; [symmetry; by apply uses_insert|]. by eapply ids_ok_same; [|exact I1].
  - eapply slots_fine_perm; [symmetry; by apply slots_insert|done].
  - rewrite T2, T1, (kp_all _ _ _ K). apply I.
  - eapply (objs_step a a2 H _ r); try done.
    + intros r0 b0 Hne E3. by apply (Hkeep r0 b0).
    + intros r0 b0 Hne E3. apply (kp_objs _ _ _ K). apply slots_elem. eexists. by apply (Hkeep r0 b0).
    + apply K.
    + intros r0 b0 h Hne E3 Hh. rewrite J1. apply Hc. split; [done|]. by apply (Hkeep r0 b0).
    + intros r0 b0 h Hne E3. rewrite J1. by intros [? _]%Hc.
    + intros b0. rewrite lookup_insert_eq. intros [= <-]. split.
      * exists o. split; [done|]. rewrite Ho. split; cbn; [done|done|intros p Ep; pose proof (kp_len _ _ _ K); specialize (Hprev p Ep); lia|].
        right. split; [done|]. split; [cbn; lia|]. split; [done|]. split; [|by rewrite J1].
        intros r' E3. destruct (decide (r' = r)) as [|Hne]; [done|]. by destruct (Hkeep r' b Hne E3).
      * intros r0 Hne E3. by destruct (Hkeep r0 b Hne E3).
Qed.

(** ** Appending *)

Lemma set_obj_twice a r o o' : set_obj (set_obj a r o) r o' = set_obj a r o'.
Proof. unfold set_obj, pc_with_pool. cbn. by rewrite list_insert_insert_eq. Qed.

Lemma pb_same_id o b : pb_block_id o = Some b -> pb_with_id o (Some b) = o.
Proof. intros <-. by destruct o. Qed.

Lemma get_set a r o o' : pc_pool a !! r = Some o -> get_obj (set_obj a r o') r = Ok o'.
Proof. intros E. unfold get_obj. by rewrite (obj_set_get a r o o' E). Qed.

(** Registering a block in use under its hash. *)
Lemma ids_ok_register a uses h b t : ids_ok a uses -> pc_cached_blocks a !! h = None -> b ∈ uses -> (∀ h', pc_cached_blocks a !! h' ≠ Some b) -> {[b]} ∪ pc_touched_blocks a ⊆ t ->
  ids_ok (with_touched (pc_with_cached a (<[h := b]> (pc_cached_blocks a))) t) uses.
Proof.
  intros [I1 I2 I3 I4 I5 I6 I7 I8 I9 I10] Hh Hb Hno Ht. split; cbn; try done.
  - intros b' m E. destruct (I6 b' m E) as (? & ? & ?). split; [done|]. split; [done|]. rewrite lookup_insert_ne; [done|]. congruence.
  - intros h' b' [[<- <-]|[_ E]]%lookup_insert_Some; [|by eapply I8]. split; [by apply I1|]. rewrite I5. tauto.
  - intros h1 h2 b' [[<- <-]|[_ E1]]%lookup_insert_Some [[<- E2]|[_ E2]]%lookup_insert_Some; try done; try by destruct (Hno h2).
    + subst b'. by destruct (Hno h1).
    + by eapply I9.
  - intros h' b' t' [[<- <-]|[_ E]]%lookup_insert_Some Et Hact; [right; set_solver|]. destruct (I10 h' b' t' E Et Hact); [by left|right; set_solver].
Qed.

Lemma mutable_once a H r b o : pc_inv a H -> H !! r = Some b -> mutable a H r b o -> b ∉ uses_of (delete r H).
Proof.
  intros I E (_ & _ & _ & Hu & _) [r' E']%uses_elem. apply lookup_delete_Some in E' as [Hne E']. by rewrite (Hu r' E') in Hne.
Qed.

Lemma mutable_count a H r b o : pc_inv a H -> H !! r = Some b -> mutable a H r b o -> pc_refcounts a !! b = Some 1.
Proof.
  intros I E Hm. pose proof (mutable_once a H r b o I E Hm) as Hn. rewrite (io_rc _ _ (pi_ids _ _ I)), decide_True.
  - rewrite (occ_Permutation b _ _ (pc_uses_delete H r b E)), occ_cons_eq, (proj2 (occ_0 _ _) Hn). done.
  - apply (io_uses _ _ (pi_ids _ _ I)). apply uses_elem. by exists r.
Qed.

(** A full block whose hash is new is registered, otherwise it shares the block that is. *)
Section promote.
Context (a : PrefixCachingBlockAllocator) (H : gmap nat nat) (r b : nat) (o o1 : PrefixCachingBlock) (h : Z) (first : bool) (prev : option Z).
Context (I : pc_inv a H) (E : H !! r = Some b) (Eo : pc_pool a !! r = Some o) (Hm : mutable a H r b o).
Context (Hid : pb_block_id o1 = Some b) (Hsz : pb_block_size o1 = pc_block_size a) (Hpr : ∀ p, pb_prev_block o1 = Some p -> (p < length (pc_pool a))%nat).
Context (Hh : pb_cached_content_hash o1 = Some h) (Hfull : len (pb_token_ids o1) = pc_block_size a)
  (Hhash : h = py_hash first prev (pb_token_ids o1) (pb_extra_hash o1)).

(** The object has become immutable, in block [b']. *)
Definition promoted (a' : PrefixCachingBlockAllocator) (b' : nat) : Prop :=
  pc_inv a' (<[r := b']> H) ∧ keeps a a' (slots_of (delete r H)) ∧
  ∃ o', pc_pool a' !! r = Some o' ∧ pb_block_id o' = Some b' ∧ pb_token_ids o' = pb_token_ids o1 ∧ pb_prev_block o' = pb_prev_block o1 ∧
    pb_extra_hash o' = pb_extra_hash o1 ∧ pb_cached_content_hash o' = Some h.

Lemma promote_one : pc_pool (set_obj a r o1) !! r = Some o1.
Proof. by eapply obj_set_get. Qed.

Lemma promote_keeps a' o' : pc_pool a' = <[r := o']> (pc_pool a) -> pc_block_size a' = pc_block_size a -> pc_all_block_indices a' = pc_all_block_indices a ->
  keeps a a' (slots_of (delete r H)).
Proof.
  intros Ep Es Ea. split; rewrite ?Ep, ?length_insert; try done. intros i Hi. rewrite list_lookup_insert_ne; [done|].
  intros ->. apply slots_elem in Hi as [? Hi]. by rewrite lookup_delete_eq in Hi.
Qed.

Lemma promote_share b' : pc_cached_blocks a !! h = Some b' ->
  ∃ a', (a2 ← _decr_refcount_hashless_block (set_obj a r o1) r; o2 ← get_obj a2 r; _incr_refcount_cached_block (set_obj a2 r (pb_with_id o2 (Some b'))) r) = Ok a' ∧
    promoted a' b'.
Proof.
  intros Ec. destruct Hm as (_ & _ & _ & _ & Hno). pose proof promote_one as Eo1. set (a1 := set_obj a r o1) in *.
  assert (I1 : ids_ok a1 (b :: uses_of (delete r H))).
  { eapply ids_ok_perm; [by apply pc_uses_delete|]. eapply ids_ok_same; [apply obj_set_ids|apply I]. }
  destruct (hashless_release a1 (uses_of (delete r H)) r o1 b I1 Eo1 Hid) as (a2 & E2 & I2 & P2 & C2 & Q1 & Q2 & Q3 & Q4); [by intros _|].
  rewrite E2. cbn [mbind result_bind]. assert (Eo2 : pc_pool a2 !! r = Some (pb_with_id o1 None)) by (rewrite P2; apply list_lookup_insert_eq; by eapply lookup_lt_Some).
  unfold get_obj. rewrite Eo2. cbn [mbind result_bind or_raise]. set (o3 := pb_with_id (pb_with_id o1 None) (Some b')). set (a3 := set_obj a2 r o3).
  assert (Eo3 : pc_pool a3 !! r = Some o3) by (by eapply obj_set_get).
  assert (I3 : ids_ok a3 (uses_of (delete r H))) by (eapply ids_ok_same; [apply obj_set_ids|done]).
  assert (C3 : pc_cached_blocks a3 = pc_cached_blocks a) by exact C2. destruct (io_cached _ _ I3 h b') as [Hall Hnf]; [by rewrite C3|].
  destruct (cached_use a3 (uses_of (delete r H)) r o3 b' I3 Eo3 eq_refl Hall Hnf) as (a4 & E4 & I4 & P4 & C4 & R1 & R2 & R3 & R4).
  exists a4. split; [done|]. set (o4 := pb_with_computed o3 true) in P4.
  assert (Epool : pc_pool a4 = <[r := o4]> (pc_pool a)). { rewrite P4. unfold a3, set_obj. cbn. rewrite P2. cbn. by rewrite !list_insert_insert_eq. }
  assert (Eo4 : pc_pool a4 !! r = Some o4) by (rewrite Epool; apply list_lookup_insert_eq; by eapply lookup_lt_Some).
  assert (Hsize4 : pc_block_size a4 = pc_block_size a) by (rewrite R2; exact Q2).
  split; [|split; [apply (promote_keeps a4 o4); [done|done|rewrite R4; exact Q4]|by exists o4]]. split.
  - rewrite Hsize4. apply I.
  - eapply ids_ok_perm; [symmetry; by eapply uses_replace|done].
  - eapply slots_fine_perm; [symmetry; by eapply slots_replace|]. pose proof (pi_slots _ _ I) as [S1 S2 S3].
    assert (Ef : pc_pool_free_ids a4 = pc_pool_free_ids a) by (rewrite R1; exact Q1). split; rewrite ?Ef, ?Epool, ?length_insert; done.
  - rewrite R3, R4. change (pc_touched_blocks a2 ⊆ pc_all_block_indices a2). rewrite Q3, Q4. apply I.
  - eapply (objs_step a a4 H _ r); try done.
    + intros r0 b0 Hne. by rewrite lookup_insert_ne.
    + intros r0 b0 Hne _. rewrite Epool. by rewrite list_lookup_insert_ne.
    + by rewrite Epool, length_insert.
    + intros r0 b0 h0 _ _. by rewrite C4, C3.
    + intros r0 b0 h0 _ _. by rewrite C4, C3.
    + intros b0. rewrite lookup_insert_eq. intros [= <-]. split; [|intros; by exists h]. exists o4. split; [done|].
      split; [done|cbn; congruence|cbn; rewrite Epool, length_insert; done|]. left. exists h, first, prev. rewrite C4, C3, Hsize4. done.
Qed.

Lemma promote_register : pc_cached_blocks a !! h = None ->
  promoted (with_touched (pc_with_cached (set_obj a r o1) (<[h := b]> (pc_cached_blocks a))) ({[b]} ∪ pc_touched_blocks a)) b.
Proof.
  intros Ec. destruct Hm as (_ & _ & _ & Huniq & Hno). pose proof promote_one as Eo1. set (a2 := with_touched _ _).
  assert (Hothers : ∀ r0 b0, r0 ≠ r -> H !! r0 = Some b0 -> b0 ≠ b) by (intros r0 b0 Hne E0 ->; by apply Hne, Huniq).
  split; [|split; [by apply (promote_keeps a2 o1)|by exists o1]]. rewrite insert_id by done. split.
  - apply I.
  - apply (ids_ok_register (set_obj a r o1) (uses_of H) h b); [eapply ids_ok_same; [apply obj_set_ids|apply I]|done|apply uses_elem; by exists r|done|done].
  - pose proof (pi_slots _ _ I) as [S1 S2 S3]. split; cbn; rewrite ?length_insert; done.
  - cbn. pose proof (pi_touched _ _ I). assert (b ∈ pc_all_block_indices a) by (apply (io_uses _ _ (pi_ids _ _ I)), uses_elem; by exists r). set_solver.
  - eapply (objs_step a a2 H _ r); try done; cbn.
    + intros r0 b0 Hne _. by rewrite list_lookup_insert_ne.
    + by rewrite length_insert.
    + intros r0 b0 h0 Hne E0 Hc. rewrite lookup_insert_ne; [done|]. congruence.
    + intros r0 b0 h0 Hne E0 [[_ <-]|[_ Hc]]%lookup_insert_Some; [|done]. by destruct (Hothers r0 b Hne E0).
    + intros b0 E0. rewrite E in E0. injection E0 as <-. split; [|intros r0 Hne E0; by destruct (Hothers r0 b Hne E0)].
      exists o1. split; [exact Eo1|]. split; [done|done|cbn; by rewrite length_insert|]. left. exists h, first, prev. cbn. by rewrite lookup_insert_eq.
Qed.

Lemma promote_spec :
  ∃ b' a', (x ← promote_to_immutable_block (set_obj a r o1) r; y ← get_obj x.2 r; Ok (set_obj x.2 r (pb_with_id y (Some x.1)))) = Ok a' ∧ promoted a' b'.
Proof.
  assert (Hlast : ∀ a' b', promoted a' b' -> (y ← get_obj a' r; Ok (set_obj a' r (pb_with_id y (Some b')))) = Ok a').
  { intros a' b' (_ & _ & o' & Eo' & Hid' & _). unfold get_obj. rewrite Eo'. cbn [mbind result_bind or_raise]. rewrite (pb_same_id o' b' Hid').
    f_equal. unfold set_obj, pc_with_pool. rewrite (list_insert_id _ _ _ Eo'). by destruct a'. }
  pose proof promote_one as Eo1. assert (Eg1 : get_obj (set_obj a r o1) r = Ok o1) by (unfold get_obj; by rewrite Eo1).
  unfold promote_to_immutable_block. rewrite (content_hash_cached _ r o1 h Eo1 Hh). cbn [mbind result_bind or_raise]. rewrite Eg1. cbn [mbind result_bind].
  rewrite Hid. cbn [mbind result_bind or_raise]. unfold get_refcount. change (pc_refcounts (set_obj a r o1)) with (pc_refcounts a).
  rewrite (mutable_count a H r b o I E Hm). cbn [mbind result_bind or_raise]. change (0 <? 1) with true. cbn [py_assert mbind result_bind].
  change (pc_cached_blocks (set_obj a r o1)) with (pc_cached_blocks a). destruct (pc_cached_blocks a !! h) as [b'|] eqn:Ec.
  - destruct (promote_share b' Ec) as (a' & E' & Hp). destruct (_decr_refcount_hashless_block (set_obj a r o1) r) as [a2|]; [|done].
    cbn [mbind result_bind] in E' |- *. destruct (get_obj a2 r) as [o2|]; [|done]. cbn [mbind result_bind] in E' |- *. rewrite E'.
    cbn [mbind result_bind fst snd]. exists b', a'. split; [by apply Hlast|done].
  - cbn [mbind result_bind fst snd]. eexists b, _. pose proof (promote_register Ec) as Hp. split; [by apply Hlast|done].
Qed.
End promote.

Lemma prev_hashes a H prev : prev_ok a H prev ->
  ∀ p, prev = Some p -> ∃ q h, pc_pool a !! p = Some q ∧ pb_cached_content_hash q = Some h ∧ h ≠ none_hash.
Proof. intros Hp p ->. destruct Hp as (q & h & _ & Eq & Eh & Hn). by exists q, h. Qed.

Lemma append_no_cow o ts : len (pb_token_ids o) + len ts <= pb_block_size o -> ts ≠ [] -> pb_append_no_cow o ts = Ok (pb_with_tokens o (pb_token_ids o ++ ts)).
Proof.
  intros Hl Hne. unfold pb_append_no_cow. destruct ts as [|t ts]; [done|]. unfold pb_num_empty_slots. rewrite (proj2 (Z.leb_le _ _)); [done|lia].
Qed.

Lemma pc_append_spec a H r b o ts :
  pc_inv a H -> H !! r = Some b -> pc_pool a !! r = Some o -> mutable a H r b o -> ts ≠ [] -> len (pb_token_ids o) + len ts <= pc_block_size a ->
  (len (pb_token_ids o) + len ts = pc_block_size a -> prev_ok a H (pb_prev_block o)) ->
  ∃ a' b' o', pc_append_token_ids a r ts = Ok a' ∧ pc_inv a' (<[r := b']> H) ∧ pc_pool a' !! r = Some o' ∧ pb_token_ids o' = pb_token_ids o ++ ts ∧
    pb_prev_block o' = pb_prev_block o ∧ pb_extra_hash o' = pb_extra_hash o ∧ keeps a a' (slots_of (delete r H)) ∧
    (len (pb_token_ids o) + len ts = pc_block_size a ->
      pb_cached_content_hash o' = Some (hash_after a (pb_prev_block o) (pb_token_ids o ++ ts) (pb_extra_hash o))).
Proof.
  intros I E Eo Hm Hne Hlen Hprev. pose proof (mutable_count a H r b o I E Hm) as Hrc. pose proof Hm as (Hh & Hlt & Hcomp & Huniq & Hno).
  destruct (pi_objs _ _ I r b E) as (o0 & Eo0 & [O1 O2 O3 _]). rewrite Eo in Eo0. injection Eo0 as <-.
  unfold pc_append_token_ids. rewrite (content_hash_partial a r o Eo Hh) by lia. cbn [mbind result_bind]. rewrite bool_decide_eq_true_2 by done.
  cbn [py_assert mbind result_bind]. assert (Eg : get_obj a r = Ok o) by (unfold get_obj; by rewrite Eo). rewrite Eg. cbn [mbind result_bind].
  rewrite Hcomp. cbn [negb py_assert mbind result_bind]. destruct ts as [|t0 ts0] eqn:Ets; [done|]. rewrite <-Ets in *. clear Ets t0 ts0.
  rewrite append_no_cow by (try done; lia). cbn [mbind result_bind]. set (o1 := pb_with_tokens o (pb_token_ids o ++ ts)).
  change (pb_block_id o1) with (pb_block_id o). rewrite O1. unfold pc_cow_block_if_not_appendable. rewrite (get_set a r o o1 Eo). cbn [mbind result_bind].
  change (pb_block_id o1) with (pb_block_id o). rewrite O1. cbn [or_raise mbind result_bind]. unfold get_refcount. change (pc_refcounts (set_obj a r o1)) with (pc_refcounts a).
  rewrite Hrc. cbn [or_raise mbind result_bind]. change (1 <=? 1) with true. cbn [mbind result_bind fst snd]. rewrite (get_set a r o o1 Eo). cbn [mbind result_bind].
  rewrite (pb_same_id o1 b O1), set_obj_twice, (get_set a r o o1 Eo). cbn [mbind result_bind].
  destruct (update_total (set_obj a r o1) o1) as [n En]; [intros p Hp; cbn; rewrite length_insert; by apply O3|].
  rewrite En. cbn [mbind result_bind]. rewrite set_obj_twice. set (o2 := pb_with_total o1 n).
  assert (Htok : pb_token_ids o2 = pb_token_ids o ++ ts) by done. assert (Hl2 : len (pb_token_ids o2) = len (pb_token_ids o) + len ts) by (rewrite Htok, length_app; lia).
  assert (Eo2 : pc_pool (set_obj a r o2) !! r = Some o2) by (by eapply obj_set_get). assert (Hbs2 : pb_block_size o2 = pc_block_size a) by exact O2.
  destruct (decide (len (pb_token_ids o) + len ts = pc_block_size a)) as [Hfull|Hpart].
  - assert (Ech : let h := hash_after (set_obj a r o2) (pb_prev_block o2) (pb_token_ids o2) (pb_extra_hash o2) in
      content_hash (set_obj a r o2) r = Ok (Some h, set_obj (set_obj a r o2) r (pb_with_hash o2 (Some h)))).
    { apply (content_hash_new (set_obj a r o2) r o2 Eo2); [done|lia|].
      intros p Ep. destruct (prev_hashes a H (pb_prev_block o) (Hprev Hfull) p Ep) as (q & h & Eq & Ehq & Hn). exists q, h. split; [|done].
      cbn. rewrite list_lookup_insert_ne; [done|]. intros <-. congruence. }
    cbn zeta in Ech. set (h := hash_after _ _ _ _) in Ech. destruct (hash_after_form (set_obj a r o2) (pb_prev_block o2) (pb_token_ids o2) (pb_extra_hash o2)) as (first & prev & Hhash). fold h in Hhash.
    rewrite Ech, set_obj_twice. cbn [mbind result_bind].
    destruct (promote_spec a H r b o (pb_with_hash o2 (Some h)) h first prev I E Eo Hm O1) as (b' & a' & E' & I' & K & o' & Eo' & _ & T1 & T2 & T3 & T4); try done; [change (len (pb_token_ids o2) = pc_block_size a); lia|].
    exists a', b', o'. split; [exact E'|]. split; [done|]. split; [done|]. split; [by rewrite T1|]. split; [done|]. split; [done|]. split; [done|].
    intros _. rewrite T4. f_equal. unfold h, hash_after. change (pb_prev_block o2) with (pb_prev_block o). destruct (pb_prev_block o) as [p|] eqn:Ep; [|done].
    cbn. rewrite list_lookup_insert_ne; [done|]. intros <-. destruct (Hprev Hfull) as (q & hq & _ & Eq & Ehq & _). congruence.
  - rewrite (content_hash_partial _ r o2 Eo2) by (try done; lia). cbn [mbind result_bind].
    exists (set_obj a r o2), b, o2. rewrite insert_id by done. split; [done|]. split; [|split; [done|split; [done|split; [done|split; [done|split; [|lia]]]]]].
    + eapply (set_obj_inv a H r b o); [done|done|done|]. split; [done|done|done|]. right. split; [done|]. split; [lia|]. done.
    + split; cbn; rewrite ?length_insert; try done. intros i Hi. rewrite list_lookup_insert_ne; [done|].
      intros ->. apply slots_elem in Hi as [? Hi]. by rewrite lookup_delete_eq in Hi.
Qed.

(** ** Freeing *)

Lemma free_block_id_spec a H r b o :
  pc_inv a H -> H !! r = Some b -> pc_pool a !! r = Some o -> (b ∉ uses_of (delete r H) -> fresh_access a b o) ->
  ∃ a', pc_free_block_id a r = Ok a' ∧ ids_ok a' (uses_of (delete r H)) ∧ pc_pool a' = <[r := pb_with_id o None]> (pc_pool a) ∧
    pc_cached_blocks a' = pc_cached_blocks a ∧ other_parts a a'.
Proof.
  intros I E Eo Hfresh. destruct (pi_objs _ _ I r b E) as (o0 & Eo0 & [O1 O2 O3 O4]). rewrite Eo in Eo0. injection Eo0 as <-.
  assert (Eg : get_obj a r = Ok o) by (unfold get_obj; by rewrite Eo). unfold pc_free_block_id. rewrite Eg. cbn [mbind result_bind]. rewrite O1. cbn [or_raise mbind result_bind].
  assert (I1 : ids_ok a (b :: uses_of (delete r H))) by (eapply ids_ok_perm; [by apply pc_uses_delete|apply I]).
  assert (Hlast : ∀ a', pc_pool a' = <[r := pb_with_id o None]> (pc_pool a) ->
    (x ← get_obj a' r; _ ← py_assert (bool_decide (pb_block_id x = None)); Ok a') = Ok a').
  { intros a' Ep. unfold get_obj. rewrite Ep, list_lookup_insert_eq by (by eapply lookup_lt_Some). cbn [or_raise mbind result_bind]. by rewrite bool_decide_eq_true_2. }
  destruct O4 as [(h & f & p & Hh & Hlen & Hc & _)|Hm].
  - rewrite (content_hash_cached a r o h Eo Hh). cbn [mbind result_bind].
    destruct (cached_release a (uses_of (delete r H)) r o b h I1 Eo O1 Hh Hc Hfresh) as (a' & Ea & Ia & Pa & Ca & Qa). rewrite Ea. cbn [mbind result_bind].
    exists a'. split; [by apply Hlast|done].
  - pose proof (mutable_once a H r b o I E Hm) as Honce. destruct Hm as (Hh & Hlt & _ & _ & Hno). rewrite (content_hash_partial a r o Eo Hh) by lia. cbn [mbind result_bind].
    destruct (hashless_release a (uses_of (delete r H)) r o b I1 Eo O1) as (a' & Ea & Ia & Pa & Ca & Qa); [by intros _|]. rewrite Ea. cbn [mbind result_bind].
    exists a'. split; [by apply Hlast|done].
Qed.

Lemma pc_free_spec a H r b o :
  pc_inv a H -> H !! r = Some b -> pc_pool a !! r = Some o -> (b ∉ uses_of (delete r H) -> fresh_access a b o) ->
  ∃ a', pc_free a r = Ok a' ∧ pc_inv a' (delete r H) ∧ keeps a a' (slots_of (delete r H)) ∧ pc_cached_blocks a' = pc_cached_blocks a.
Proof.
  intros I E Eo Hfresh. destruct (free_block_id_spec a H r b o I E Eo Hfresh) as (a' & Ea & Ia & Pa & Ca & Q1 & Q2 & Q3 & Q4).
  unfold pc_free. rewrite Ea. cbn [mbind result_bind]. exists (pc_free_object a' r). split; [done|].
  assert (K : keeps a (pc_free_object a' r) (slots_of (delete r H))).
  { split; cbn; rewrite ?Pa, ?length_insert; try done. intros i Hi. rewrite list_lookup_insert_ne; [done|].
    intros ->. apply slots_elem in Hi as [? Hi]. by rewrite lookup_delete_eq in Hi. }
  split; [|done]. split; cbn.
  - rewrite Q2. apply I.
  - eapply ids_ok_same; [|exact Ia]. done.
  - apply free_object_spec. eapply slots_fine_perm; [by apply (slots_delete H r b)|]. pose proof (pi_slots _ _ I) as [S1 S2 S3].
    split; rewrite ?Q1, ?Pa, ?length_insert; done.
  - rewrite Q3, Q4. apply I.
  - eapply (objs_step a (pc_free_object a' r) H (delete r H) r); try done; cbn.
    + intros r0 b0 Hne. by rewrite lookup_delete_ne.
    + intros r0 b0 Hne _. rewrite Pa. by rewrite list_lookup_insert_ne.
    + by rewrite Pa, length_insert.
    + intros r0 b0 h _ _. by rewrite Ca.
    + intros r0 b0 h _ _. by rewrite Ca.
    + intros b0. by rewrite lookup_delete_eq.
Qed.

(** ** Immutable blocks *)

(** A state in which only free objects differ. *)
Lemma inv_keeps a a' H : pc_inv a H -> same_ids a a' -> keeps a a' (slots_of H) -> slots_fine a' (slots_of H) -> pc_touched_blocks a' = pc_touched_blocks a -> pc_inv a' H.
Proof.
  intros I J K S T. pose proof J as (J1 & _). split.
  - rewrite (kp_size _ _ _ K). apply I.
  - eapply ids_ok_same; [done|apply I].
  - done.
  - rewrite T, (kp_all _ _ _ K). apply I.
  - intros r b E. destruct (pi_objs _ _ I r b E) as (o & Eo & [O1 O2 O3 O4]). exists o. rewrite (kp_objs _ _ _ K) by (apply slots_elem; by eexists).
    split; [done|]. split; [done|by rewrite (kp_size _ _ _ K)|intros p Hp; pose proof (kp_len _ _ _ K); specialize (O3 p Hp); lia|].
    unfold immutable, mutable. rewrite J1, (kp_size _ _ _ K). exact O4.
Qed.

Lemma prev_ok_keeps a a' H H' prev : prev_ok a H prev -> keeps a a' (slots_of H) -> (∀ r, is_Some (H !! r) -> is_Some (H' !! r)) -> prev_ok a' H' prev.
Proof.
  intros Hp K Hs. destruct prev as [p|]; [|done]. destruct Hp as (q & h & Hl & Eq & Eh). exists q, h. split; [by apply Hs|].
  rewrite (kp_objs _ _ _ K) by (by apply slots_elem). done.
Qed.

(** The object tried first: [a1] is the state after its hash was read. *)
Lemma immutable_try a H prev ts x : pc_inv a H -> prev_ok a H prev -> len ts = pc_block_size a ->
  ∃ r n a1, let o1 := mkPCBlock ts (pc_block_size a) prev None (Some (hash_after a prev ts x)) n false x in
    (y ← pc_init_block a prev ts None x; z ← content_hash y.2 y.1; Ok (y.1, z)) = Ok (r, (Some (hash_after a prev ts x), a1)) ∧
    H !! r = None ∧ slots_fine a1 (r :: slots_of H) ∧ pc_pool a1 !! r = Some o1 ∧ keeps a a1 (slots_of H) ∧ same_ids a a1.
Proof.
  intros I Hprev Hlen. pose proof (pi_size _ _ I) as Hbs. pose proof (prev_range a H prev I Hprev) as Hrange.
  destruct (pc_init_spec a (slots_of H) prev ts None x) as (r & a1 & o & E1 & HrL & S1 & Eo & [n Ho] & K1 & J1 & T1); [apply I|lia|done|].
  rewrite E1. cbn [mbind result_bind fst snd]. pose proof (kp_size _ _ _ K1) as Hsize.
  assert (Hr : H !! r = None). { destruct (H !! r) eqn:E3; [|done]. destruct HrL. apply slots_elem. by eexists. }
  assert (Hsame : ∀ p, prev = Some p -> pc_pool a1 !! p = pc_pool a !! p).
  { intros p ->. apply (kp_objs _ _ _ K1). destruct Hprev as (? & ? & Hs & _). by apply slots_elem. }
  assert (Hh : hash_after a1 (pb_prev_block o) (pb_token_ids o) (pb_extra_hash o) = hash_after a prev ts x).
  { rewrite Ho. cbn. destruct prev as [p|]; [|done]. cbn. by rewrite Hsame. }
  assert (Ech : content_hash a1 r = Ok (Some (hash_after a prev ts x), set_obj a1 r (pb_with_hash o (Some (hash_after a prev ts x))))).
  { rewrite <-Hh. apply (content_hash_new a1 r o Eo); [by rewrite Ho|rewrite Ho; cbn; lia|].
    intros p Ep. rewrite Ho in Ep. cbn in Ep. destruct (prev_hashes a H prev Hprev p Ep) as (q & hq & Eq & Ehq & Hn). exists q, hq. by rewrite Hsame. }
  rewrite Ech. cbn [mbind result_bind]. exists r, n. eexists. split; [reflexivity|]. split; [done|]. split; [by apply set_slots|].
  split; [rewrite (obj_set_get a1 r o _ Eo), Ho; cbn; by rewrite Hsize|]. split; [|by eapply same_ids_trans; [exact J1|apply obj_set_ids]].
  eapply keeps_trans; [exact K1|]. split; cbn; rewrite ?length_insert; try done. intros i Hi. rewrite list_lookup_insert_ne; [done|]. by intros ->.
Qed.

(** What an allocated immutable block is. *)
Definition immutable_new a H prev ts x r b a' : Prop :=
  H !! r = None ∧ pc_inv a' (<[r := b]> H) ∧ keeps a a' (slots_of H) ∧
  ∃ o, pc_pool a' !! r = Some o ∧ pb_token_ids o = ts ∧ pb_prev_block o = prev ∧ pb_extra_hash o = x ∧
    pb_cached_content_hash o = Some (hash_after a prev ts x) ∧ pc_cached_blocks a' !! hash_after a prev ts x = Some b.

Lemma immutable_hit a H prev ts x r n a1 b :
  let o1 := mkPCBlock ts (pc_block_size a) prev None (Some (hash_after a prev ts x)) n false x in
  pc_inv a H -> prev_ok a H prev -> len ts = pc_block_size a -> H !! r = None -> slots_fine a1 (r :: slots_of H) -> pc_pool a1 !! r = Some o1 ->
  keeps a a1 (slots_of H) -> same_ids a a1 -> pc_cached_blocks a !! hash_after a prev ts x = Some b ->
  ∃ a', _incr_refcount_cached_block (set_obj (with_metric a1 (query (pc_metric_data a1) true)) r (pb_with_id o1 (Some b))) r = Ok a' ∧ immutable_new a H prev ts x r b a'.
Proof.
  intros o1 I Hprev Hlen Hr S1 Eo1 K1 J1 Ec. pose proof (prev_range a H prev I Hprev) as Hrange. set (h := hash_after a prev ts x) in *.
  destruct (hash_after_form a prev ts x) as (first & pv & Hhash). fold h in Hhash. pose proof J1 as (C1 & _ & _ & _ & _ & _ & T1).
  set (o2 := pb_with_id o1 (Some b)). set (a2 := set_obj _ r o2). assert (Eo2 : pc_pool a2 !! r = Some o2) by (by eapply (obj_set_get (with_metric a1 _) r o1)).
  assert (I2 : ids_ok a2 (uses_of H)) by (eapply ids_ok_same; [exact J1|apply I]). destruct (io_cached _ _ I2 h b) as [Hall Hnf]; [change (pc_cached_blocks a1 !! h = Some b); by rewrite C1|].
  destruct (cached_use a2 (uses_of H) r o2 b I2 Eo2 eq_refl Hall Hnf) as (a5 & E5 & I5 & P5 & C5 & Q1 & Q2 & Q3 & Q4).
  exists a5. split; [done|]. set (o5 := pb_with_computed o2 true) in P5.
  assert (Ep5 : pc_pool a5 = <[r := o5]> (pc_pool a1)). { rewrite P5. cbn. by rewrite list_insert_insert_eq. }
  assert (K5 : keeps a a5 (slots_of H)).
  { eapply keeps_trans; [exact K1|]. split; rewrite ?Ep5, ?length_insert; [|done|rewrite Q2; done|rewrite Q4; done]. intros i Hi. rewrite list_lookup_insert_ne; [done|].
    intros ->. apply slots_elem in Hi as [? Hi]. congruence. }
  assert (Eo5 : pc_pool a5 !! r = Some o5) by (rewrite Ep5; apply list_lookup_insert_eq; by eapply lookup_lt_Some).
  assert (C5' : pc_cached_blocks a5 = pc_cached_blocks a) by (rewrite C5; exact C1).
  split; [done|]. split; [|split; [done|exists o5; rewrite C5'; done]]. split.
  - rewrite (kp_size _ _ _ K5). apply I.
  - eapply ids_ok_perm; [symmetry; by apply uses_insert|done].
  - eapply slots_fine_perm; [symmetry; by apply slots_insert|]. destruct S1 as [S11 S12 S13].
    assert (Ef : pc_pool_free_ids a5 = pc_pool_free_ids a1) by (rewrite Q1; done). split; rewrite ?Ef, ?Ep5, ?length_insert; done.
  - rewrite (kp_all _ _ _ K5). assert (pc_touched_blocks a5 = pc_touched_blocks a) as -> by (rewrite Q3; exact T1). apply I.
  - eapply (objs_step a a5 H _ r); try done; [| | | |intros r0 b0 h0 _ _; by rewrite C5'|intros r0 b0 h0 _ _; by rewrite C5'|].
    + intros r0 b0 Hne. by rewrite lookup_insert_ne.
    + intros r0 b0 Hne. rewrite lookup_insert_ne by done. intros E0. apply (kp_objs _ _ _ K5). apply slots_elem. by eexists.
    + apply K5.
    + apply K5.
    + intros b0. rewrite lookup_insert_eq. intros [= <-]. split; [|intros; by exists h]. exists o5. split; [done|]. split; [done|cbn; by rewrite (kp_size _ _ _ K5)| |].
      * intros p Ep. pose proof (kp_len _ _ _ K5). specialize (Hrange p Ep). lia.
      * left. exists h, first, pv. rewrite (kp_size _ _ _ K5), C5'. done.
Qed.

Lemma immutable_miss a H prev ts x a3 : pc_inv a H -> prev_ok a H prev -> len ts = pc_block_size a -> pc_inv a3 H -> keeps a a3 (slots_of H) ->
  (pc_get_num_free_blocks a3 = 0 ∧ pc_allocate_mutable_block a3 prev x = Err ValueError) ∨
  ∃ r b a', (y ← pc_allocate_mutable_block a3 prev x; a' ← pc_append_token_ids y.2 y.1 ts; Ok (y.1, a')) = Ok (r, a') ∧ immutable_new a H prev ts x r b a'.
Proof.
  intros I Hprev Hlen I3 K3. pose proof (pi_size _ _ I) as Hbs. pose proof (prev_range a H prev I Hprev) as Hrange.
  destruct (pc_mutable_spec a3 H prev x I3) as [?|(r & b4 & a4 & o4 & E4 & _ & Hr & Hu4 & I4 & K4 & Eo4 & [n4 Ho4])]; [|by left|right].
  { intros p Ep. pose proof (kp_len _ _ _ K3). specialize (Hrange p Ep). lia. }
  rewrite E4. cbn [mbind result_bind fst snd]. pose proof (keeps_trans _ _ _ _ K3 K4) as K34. pose proof (kp_size _ _ _ K34) as Hs4.
  destruct (pi_objs _ _ I4 r b4) as (o4' & Eo4' & [_ _ _ St]); [apply lookup_insert_eq|]. rewrite Eo4 in Eo4'. injection Eo4' as <-.
  assert (Hm : mutable a4 (<[r := b4]> H) r b4 o4). { destruct St as [(? & ? & ? & E & _)|]; [|done]. by rewrite Ho4 in E. }
  destruct (pc_append_spec a4 (<[r := b4]> H) r b4 o4 ts I4) as (a5 & b5 & o5 & E5 & I5 & Eo5 & T51 & T52 & T53 & K5 & Hh5); [apply lookup_insert_eq|done|done| | | |].
  { intros ->. cbn in Hlen. lia. }
  { rewrite Ho4. cbn. lia. }
  { intros _. rewrite Ho4. cbn. eapply prev_ok_keeps; [exact Hprev|done|]. intros r0 Hr0. apply lookup_insert_is_Some. destruct (decide (r = r0)); [by left|by right]. }
  rewrite E5. cbn [mbind result_bind]. exists r, b5, a5. rewrite insert_insert_eq in I5. split; [done|]. split; [done|]. split; [done|].
  split. { eapply keeps_trans; [exact K34|]. by rewrite delete_insert_id in K5. }
  assert (Hh5' : pb_cached_content_hash o5 = Some (hash_after a prev ts x)).
  { rewrite Hh5 by (rewrite Ho4; cbn; lia). f_equal. rewrite Ho4. cbn. destruct prev as [p|]; [|done]. cbn. rewrite (kp_objs _ _ _ K34); [done|].
    destruct Hprev as (? & ? & Hs & _). by apply slots_elem. }
  exists o5. split; [done|]. split; [rewrite T51, Ho4; done|]. split; [rewrite T52, Ho4; done|]. split; [rewrite T53, Ho4; done|]. split; [done|].
  destruct (pi_objs _ _ I5 r b5) as (o5' & Eo5' & [_ _ _ [(h5 & ? & ? & Eh5 & _ & Hc5 & _)|(Hl5 & _)]]); [apply lookup_insert_eq| |];
    rewrite Eo5 in Eo5'; injection Eo5' as <-; congruence.
Qed.

Lemma allocate_immutable_spec a H prev ts x : pc_inv a H -> prev_ok a H prev -> len ts = pc_block_size a ->
  (pc_get_num_free_blocks a = 0 ∧ pc_allocate_immutable_block a prev ts x = Err ValueError) ∨
  ∃ r b a', pc_allocate_immutable_block a prev ts x = Ok (r, a') ∧ immutable_new a H prev ts x r b a'.
Proof.
  intros I Hprev Hlen. destruct (immutable_try a H prev ts x I Hprev Hlen) as (r & n & a1 & E1 & Hr & S1 & Eo1 & K1 & J1). cbn zeta in Eo1.
  set (h := hash_after a prev ts x) in *. set (o1 := mkPCBlock ts _ _ _ _ _ _ _) in *. unfold pc_allocate_immutable_block.
  destruct (pc_init_block a prev ts None x) as [[r' a0]|]; [|done]. cbn [mbind result_bind fst snd] in E1 |- *.
  destruct (content_hash a0 r') as [z|]; [|done]. cbn [mbind result_bind fst snd] in E1 |- *. apply Ok_inj in E1. injection E1 as -> ->.
  cbn [mbind result_bind or_raise]. pose proof J1 as (C1 & _ & EV & FR & _ & _ & T1). rewrite C1. destruct (pc_cached_blocks a !! h) as [b|] eqn:Ec.
  - right. destruct (immutable_hit a H prev ts x r n a1 b I Hprev Hlen Hr S1 Eo1 K1 J1 Ec) as (a' & E' & Hn').
    set (a2 := with_metric a1 _) in *. assert (Eg : get_obj a2 r = Ok o1) by (unfold get_obj; change (pc_pool a2) with (pc_pool a1); by rewrite Eo1).
    rewrite Eg. cbn [mbind result_bind]. rewrite (E' : _incr_refcount_cached_block (set_obj a2 r (pb_with_id o1 (Some b))) r = Ok a'). cbn [mbind result_bind]. by exists r, b, a'.
  - set (a3 := pc_free_object _ _).
    assert (S3 : slots_fine a3 (slots_of H)) by (apply free_object_spec; destruct S1 as [S11 S12 S13]; by split).
    assert (K3 : keeps a a3 (slots_of H)) by (destruct K1 as [K21 K22 K23 K24]; by split).
    assert (I3 : pc_inv a3 H) by (eapply (inv_keeps a a3 H I); [exact J1|done|done|exact T1]).
    assert (Efree : pc_get_num_free_blocks a3 = pc_get_num_free_blocks a).
    { unfold pc_get_num_free_blocks. change (pc_evictor a3) with (pc_evictor a1). change (pc_free_block_indices a3) with (pc_free_block_indices a1). by rewrite EV, FR. }
    destruct (immutable_miss a H prev ts x a3 I Hprev Hlen I3 K3) as [[E0 E4]|(r4 & b4 & a4 & E4 & Hn')].
    + left. split; [congruence|]. by rewrite E4.
    + right. exists r4, b4, a4. split; [exact E4|done].
Qed.
End steps.

(** ** Access times, computed blocks, counting and reset of the prefix cache *)

(** *** Counting *)

(** The free blocks are those that nobody uses. *)
Lemma num_free_spec a uses : ids_ok a uses ->
  pc_get_num_free_blocks a = pc_get_num_total_blocks a - Z.of_nat (size (list_to_set uses : gset nat)).
Proof.
  intros I. unfold pc_get_num_free_blocks, pc_get_num_total_blocks, ev_num_blocks.
  assert (E : pc_all_block_indices a = list_to_set uses ∪ (list_to_set (pc_free_block_indices a) ∪ dom (table_of a))).
  { apply set_eq. intros b. rewrite !elem_of_union, !elem_of_list_to_set, elem_of_dom. split.
    - intros Hb. destruct (decide (b ∈ uses)); [by left|right]. destruct (table_of a !! b) as [m|] eqn:E; [right; by eexists|left]. by apply (io_free _ _ I).
    - intros [Hu|[Hf|[m Hm]]]; [by apply (io_uses _ _ I)|by apply (io_free _ _ I)|by apply (io_table _ _ I b m)]. }
  rewrite E, size_union, size_union, (size_list_to_set (pc_free_block_indices a)), size_dom.
  - lia.
  - apply I.
  - intros b Hf%elem_of_list_to_set [m Hm]%elem_of_dom. apply (io_free _ _ I) in Hf as (_ & _ & Hn). congruence.
  - intros b Hu%elem_of_list_to_set [Hf%elem_of_list_to_set|[m Hm]%elem_of_dom]%elem_of_union.
    + by apply (io_free _ _ I) in Hf as (_ & ? & _).
    + by apply (io_table _ _ I) in Hm as (_ & ? & _).
Qed.

Section reset.
Context `{PH : !PrefixHash}.

(** *** Access times and computed blocks *)

Lemma tracker_update a uses b t t' : ids_ok a uses -> pc_block_tracker a !! b = Some t -> bt_active t' = bt_active t -> (bt_computed t = true -> bt_computed t' = true) ->
  ids_ok (with_tracker a (<[b := t']> (pc_block_tracker a))) uses.
Proof.
  intros [I1 I2 I3 I4 I5 I6 I7 I8 I9 I10] Et Ha Hc. split; cbn; try done.
  - intros b' Hb'. destruct (I3 b' Hb') as (t0 & E0 & A0). destruct (decide (b' = b)) as [->|Hne]; [|exists t0; by rewrite lookup_insert_ne].
    exists t'. rewrite lookup_insert_eq. split; [done|]. rewrite Et in E0. injection E0 as ->. congruence.
  - intros h b' t0 Hh [[<- <-]|[_ E]]%lookup_insert_Some Hact; [|by apply (I10 h b')]. rewrite Ha in Hact. destruct (I10 h b t Hh Et Hact); [left; by apply Hc|by right].
Qed.

Lemma inv_tracker a H x : pc_inv a H -> ids_ok (with_tracker a x) (uses_of H) -> pc_inv (with_tracker a x) H.
Proof.
  intros [P1 P2 P3 P4 P5] I. split; [done|done|by destruct P3|done|]. intros r b E. destruct (P5 r b E) as (o & Eo & [O1 O2 O3 O4]). exists o. split; [done|]. by split.
Qed.

Lemma mark_accessed_spec ids now : ∀ a H, pc_inv a H -> (∀ b, b ∈ ids -> b ∈ uses_of H) ->
  ∃ a', mark_blocks_as_accessed a ids now = Ok a' ∧ pc_inv a' H ∧ ∃ x, a' = with_tracker a x.
Proof.
  unfold mark_blocks_as_accessed. induction ids as [|b ids IH]; intros a H I Hu; [exists a; split; [done|]; split; [done|]; exists (pc_block_tracker a); by destruct a|].
  cbn [for_each]. assert (Hb : b ∈ uses_of H) by (apply Hu; by left). pose proof (pi_ids _ _ I) as IDS.
  destruct (io_tracker _ _ IDS b (io_uses _ _ IDS b Hb)) as (t & Et & Ha). rewrite bool_decide_eq_true_2 in Ha by done.
  assert (E1 : mark_accessed now b a = Ok (with_tracker a (<[b := mkTracker true now (bt_computed t)]> (pc_block_tracker a)))).
  { unfold mark_accessed. rewrite Et. cbn [or_raise mbind result_bind]. by rewrite Ha. }
  rewrite E1. cbn [mbind result_bind]. destruct (IH (with_tracker a (<[b := mkTracker true now (bt_computed t)]> (pc_block_tracker a))) H) as (a' & E' & I' & x & ->).
  - apply inv_tracker; [done|]. eapply tracker_update; [done|done|by rewrite Ha|done].
  - intros b' Hb'. apply Hu. by right.
  - eexists. split; [exact E'|]. split; [done|]. by exists x.
Qed.

(** The block is tracked and marked as computed. *)
Definition is_computed (x : gmap nat BlockTracker) b : Prop := ∃ t, x !! b = Some t ∧ bt_computed t = true.

Lemma mark_computed_loop l : ∀ a H, pc_inv a H -> (∀ b, b ∈ l -> b ∈ pc_all_block_indices a) ->
  ∃ a' x, for_each mark_computed_one l a = Ok a' ∧ pc_inv a' H ∧ a' = with_tracker a x ∧ (∀ b, b ∈ l -> is_computed x b) ∧
    ∀ b, is_computed (pc_block_tracker a) b -> is_computed x b.
Proof.
  induction l as [|b l IH]; intros a H I Hall.
  { exists a, (pc_block_tracker a). split; [done|]. split; [done|]. split; [by destruct a|]. split; [|done]. by intros b ?%not_elem_of_nil. }
  cbn [for_each]. pose proof (pi_ids _ _ I) as IDS. destruct (io_tracker _ _ IDS b) as (t & Et & Ha); [apply Hall; by left|].
  set (t' := mkTracker (bt_active t) (bt_last_accessed t) true).
  assert (E1 : mark_computed_one b a = Ok (with_tracker a (<[b := t']> (pc_block_tracker a)))) by (unfold mark_computed_one; by rewrite Et).
  rewrite E1. cbn [mbind result_bind]. destruct (IH (with_tracker a (<[b := t']> (pc_block_tracker a))) H) as (a' & x & E' & I' & -> & Hl & Hk).
  - apply inv_tracker; [done|]. by eapply tracker_update.
  - intros b' Hb'. apply Hall. by right.
  - assert (Hk' : ∀ b', b' = b ∨ is_computed (pc_block_tracker a) b' -> is_computed x b').
    { intros b' Hb'. apply Hk. cbn. destruct (decide (b' = b)) as [->|Hne]; [exists t'; by rewrite lookup_insert_eq|].
      destruct Hb' as [|(t0 & E0 & C0)]; [done|]. exists t0. by rewrite lookup_insert_ne. }
    eexists _, x. split; [exact E'|]. split; [done|]. split; [done|]. split; [|intros b' Hb'; apply Hk'; by right].
    intros b' [->|Hb']%elem_of_cons; [apply Hk'; by left|by apply Hl].
Qed.

Lemma pc_computed_spec a H : pc_inv a H -> ∃ a' x, mark_blocks_as_computed a = Ok a' ∧ pc_inv a' H ∧ a' = with_touched (with_tracker a x) ∅.
Proof.
  intros I. unfold mark_blocks_as_computed. destruct (mark_computed_loop (elements (pc_touched_blocks a)) a H I) as (a1 & x & E1 & I1 & -> & Hl & _).
  { intros b Hb%elem_of_elements. by apply (pi_touched _ _ I). }
  rewrite E1. cbn [mbind result_bind]. eexists _, x. split; [done|]. split; [|done]. destruct I1 as [P1 P2 P3 P4 P5]. split; [done| | |cbn; set_solver|].
  - destruct P2 as [I1 I2 I3 I4 I5 I6 I7 I8 I9 I10]. split; try done. intros h b t Hh Et Hact. left.
    destruct (I10 h b t Hh Et Hact) as [|Ht]; [done|]. destruct (Hl b) as (t1 & E2 & C2); [by apply elem_of_elements|]. cbn in Et. congruence.
  - by destruct P3.
  - intros r b E. destruct (P5 r b E) as (o & Eo & [O1 O2 O3 O4]). exists o. split; [done|]. by split.
Qed.

(** *** Reset *)

Definition idle_tracker : BlockTracker := mkTracker false _DEFAULT_LAST_ACCESSED_TIME false.

(** During a reset the trackers of the blocks already taken stay on. *)
Record resetting a : Prop := {
  rs_ids : ids_ok (with_tracker a (gset_to_gmap idle_tracker (pc_all_block_indices a))) [];
  rs_idle : ∀ b m, table_of a !! b = Some m -> ∃ t, pc_block_tracker a !! b = Some t ∧ bt_active t = false;
  rs_dom : ∀ b, b ∈ pc_all_block_indices a -> is_Some (pc_block_tracker a !! b);
}.

Lemma take_evicted a : resetting a -> table_of a ≠ ∅ ->
  ∃ b a1 a2, _maybe_allocate_evicted_block_id a = Ok (Some b, a1) ∧ hashless_free_id a1 b = Ok a2 ∧ resetting a2 ∧
    size (table_of a) = S (size (table_of a2)) ∧ pc_pool a2 = pc_pool a ∧ pc_pool_free_ids a2 = pc_pool_free_ids a ∧
    pc_block_size a2 = pc_block_size a ∧ pc_all_block_indices a2 = pc_all_block_indices a ∧ pc_touched_blocks a2 = pc_touched_blocks a.
Proof.
  intros [[I1 I2 I3 I4 I5 I6 I7 I8 I9 I10] Hidle Hdom] Hne. cbn in *. unfold _maybe_allocate_evicted_block_id, ev_num_blocks.
  destruct (Z.eqb_spec (Z.of_nat (size (table_of a))) 0) as [E0|_]; [destruct Hne; apply map_size_empty_iff; lia|].
  destruct (ev_evict_spec (pc_evictor a) I7 Hne) as (b & m & e' & E & Hb & Etab & Hinv & _). rewrite E. cbn [mbind result_bind].
  destruct (I6 b m Hb) as (Ha & _ & Hc). cbn [pc_cached_blocks with_evictor]. rewrite Hc. cbn [or_raise mbind result_bind].
  assert (Hrc : pc_refcounts a !! b = Some 0) by (rewrite I2, decide_True; done).
  unfold get_refcount. cbn [pc_refcounts with_evictor]. rewrite Hrc. cbn [or_raise mbind result_bind]. change (0 =? 0) with true. cbn [py_assert mbind result_bind].
  rewrite bool_decide_eq_true_2 by done. cbn [py_assert mbind result_bind]. cbn [pc_refcounts with_evictor pc_with_cached pc_cached_blocks].
  unfold incr. rewrite Hrc. cbn [or_raise mbind result_bind]. change (0 <=? 0) with true. cbn [py_assert mbind result_bind fst snd].
  destruct (Hidle b m Hb) as (t & Et & Hact). rewrite (track_spec _ b t) by done. cbn [mbind result_bind]. eexists b, _, _. split; [reflexivity|].
  unfold hashless_free_id, decr. cbn [with_tracker with_refs pc_refcounts]. rewrite lookup_insert_eq. cbn [or_raise mbind result_bind].
  change (0 <? 0 + 1) with true. cbn [py_assert mbind result_bind fst snd]. change (0 + 1 - 1) with 0. change (0 =? 0) with true. cbv iota.
  split; [reflexivity|]. cbn. rewrite Etab.
  assert (Hbf : b ∉ pc_free_block_indices a) by (intros Hf; apply I5 in Hf as (_ & _ & Hn); congruence).
  split; [|split; [rewrite map_size_delete_Some by (by rewrite Hb); assert (size (table_of a) ≠ 0%nat) by (intros E0%map_size_empty_iff; done); lia|done]].
  split; cbn; rewrite ?Etab.
  - split; cbn; rewrite ?Etab.
    + done.
    + intros b'. rewrite insert_insert_eq. destruct (decide (b' = b)) as [->|Hn]; [by rewrite lookup_insert_eq, decide_True|]. rewrite lookup_insert_ne by done. apply I2.
    + done.
    + by constructor.
    + intros b'. rewrite elem_of_cons, I5. destruct (decide (b' = b)) as [->|Hn]; [|by rewrite lookup_delete_ne by done; tauto].
      rewrite lookup_delete_eq. split; [|by left]. intros _. split; [done|]. split; [apply not_elem_of_nil|done].
    + intros b' m' [Hn Hb']%lookup_delete_Some. destruct (I6 b' m' Hb') as (? & ? & Hc'). split; [done|]. split; [done|]. rewrite lookup_delete_ne; [done|]. congruence.
    + done.
    + intros h' b' [Hn Hc']%lookup_delete_Some. destruct (I8 h' b' Hc') as [? ?]. split; [done|]. rewrite not_elem_of_cons. split; [|done].
      intros ->. apply Hn. by eapply I9.
    + intros h1 h2 b' [_ H1]%lookup_delete_Some [_ H2]%lookup_delete_Some. by eapply I9.
    + by intros h' b' t' _ [_ <-]%lookup_gset_to_gmap_Some.
  - intros b' m' [Hn Hb']%lookup_delete_Some. destruct (Hidle b' m' Hb') as (t' & Et' & Ha'). exists t'. by rewrite lookup_insert_ne.
  - intros b' Hb'. apply lookup_insert_is_Some. destruct (decide (b = b')); [by left|right]. split; [done|by apply Hdom].
Qed.

Lemma free_evicted_spec fuel : ∀ a, resetting a -> (size (table_of a) < fuel)%nat ->
  ∃ a', free_evicted fuel a = Ok a' ∧ resetting a' ∧ table_of a' = ∅ ∧ pc_pool a' = pc_pool a ∧ pc_pool_free_ids a' = pc_pool_free_ids a ∧
    pc_block_size a' = pc_block_size a ∧ pc_all_block_indices a' = pc_all_block_indices a ∧ pc_touched_blocks a' = pc_touched_blocks a.
Proof.
  induction fuel as [|fuel IH]; intros a R Hf; [lia|]. cbn [free_evicted]. destruct (decide (table_of a = ∅)) as [E0|Hne].
  - unfold _maybe_allocate_evicted_block_id, ev_num_blocks. rewrite E0, map_size_empty. cbn [Z.of_nat Z.eqb mbind result_bind]. by exists a.
  - destruct (take_evicted a R Hne) as (b & a1 & a2 & E1 & E2 & R2 & Hs & P1 & P2 & P3 & P4 & P5). rewrite E1. cbn [mbind result_bind]. rewrite E2. cbn [mbind result_bind].
    destruct (IH a2 R2 ltac:(lia)) as (a' & E' & R' & T' & Q1 & Q2 & Q3 & Q4 & Q5). exists a'. split; [done|]. split; [done|]. split; [done|]. split_and!; congruence.
Qed.

(** With no block in use the cache is emptied; otherwise nothing happens. *)
Lemma reset_spec a H : pc_inv a H ->
  if decide (H = ∅) then
    ∃ a', pc_reset_prefix_cache a = Ok (true, a') ∧ pc_inv a' ∅ ∧ pc_cached_blocks a' = ∅ ∧ pc_evictor a' = ev_init ∧
      len (pc_free_block_indices a') = pc_get_num_total_blocks a'
  else pc_reset_prefix_cache a = Ok (false, a).
Proof.
  intros I. pose proof (pi_ids _ _ I) as IDS. unfold pc_reset_prefix_cache. rewrite (num_free_spec a (uses_of H) IDS).
  replace (pc_get_num_total_blocks a - (pc_get_num_total_blocks a - Z.of_nat (size (list_to_set (uses_of H) : gset nat)))) with (Z.of_nat (size (list_to_set (uses_of H) : gset nat))) by lia.
  case_decide as HH.
  2: { rewrite (proj2 (Z.ltb_lt _ _)); [done|]. assert (size (list_to_set (uses_of H) : gset nat) ≠ 0%nat); [|lia].
       intros E%size_empty_inv. destruct (map_choose H HH) as (r & b & Eb). assert (b ∈ (∅ : gset nat)) as Hb; [|set_solver].
       apply E. apply elem_of_list_to_set, uses_elem. by exists r. }
  subst H. assert (Hu : uses_of ∅ = []) by done. rewrite Hu. cbn [list_to_set]. rewrite size_empty. change (0 <? Z.of_nat 0) with false. cbv iota.
  assert (R : resetting a).
  { split; [|intros b m Hm|intros b Hb; destruct (io_tracker _ _ IDS b Hb) as (t & -> & _); by eexists].
    - destruct IDS as [I1 I2 I3 I4 I5 I6 I7 I8 I9 I10]. rewrite Hu in *. split; cbn; try done; [|by intros h' b' t' _ [_ <-]%lookup_gset_to_gmap_Some].
      intros b Hb. exists idle_tracker. split; [by apply lookup_gset_to_gmap_Some|done].
    - destruct (io_table _ _ IDS b m Hm) as (Ha & _ & _). destruct (io_tracker _ _ IDS b Ha) as (t & Et & Hact). exists t. split; [done|]. by rewrite Hact. }
  destruct (free_evicted_spec (S (size (table_of a))) a R ltac:(lia)) as (a1 & E1 & R1 & T1 & Q1 & Q2 & Q3 & Q4 & Q5).
  rewrite E1. cbn [mbind result_bind]. destruct R1 as [IDS1 _ Hdom1].
  assert (Hc : pc_cached_blocks a1 = ∅).
  { apply map_empty. intros h. destruct (pc_cached_blocks a1 !! h) as [b|] eqn:E; [|done]. destruct (cached_unused _ _ h b IDS1 E) as (m & Hm & _); [apply not_elem_of_nil|].
    cbn in Hm. rewrite T1 in Hm. by rewrite lookup_empty in Hm. }
  rewrite Hc. rewrite bool_decide_eq_true_2 by done. cbn [py_assert mbind result_bind]. eexists. split; [reflexivity|].
  assert (IDS2 : ids_ok (with_metric (with_tracker (with_evictor a1 (make_evictor EvictLRU)) ((fun _ => idle_tracker) <$> pc_block_tracker a1)) metric_init) []).
  { destruct IDS1 as [I1 I2 I3 I4 I5 I6 I7 I8 I9 I10]. cbn in *. rewrite T1 in *. split; cbn; try done; [|apply ev_inv_init|intros h b t; rewrite Hc; by rewrite lookup_empty].
    intros b Hb. exists idle_tracker. split; [|done]. rewrite lookup_fmap. destruct (Hdom1 b Hb) as [t Et]. by rewrite Et. }
  split; [|split; [done|split; [done|]]].
  - split; cbn.
    + rewrite Q3. apply I.
    + exact IDS2.
    + pose proof (pi_slots _ _ I) as [S1 S2 S3]. split; cbn; rewrite ?Q1, ?Q2; done.
    + rewrite Q5, Q4. apply I.
    + intros r b. by rewrite lookup_empty.
  - pose proof (num_free_spec _ _ IDS2) as Hn. unfold pc_get_num_free_blocks, pc_get_num_total_blocks, ev_num_blocks in Hn |- *.
    cbn in Hn |- *. rewrite map_size_empty, size_empty in Hn. lia.
Qed.
End reset.

(** *** The initial state *)

Lemma create_inv `{PH : !PrefixHash} n bs ids a : 0 < bs -> NoDup ids -> (0 < n)%nat -> pc_create n bs ids = Ok a -> pc_inv a ∅.
Proof.
  intros Hbs Hnd Hn. unfold pc_create. case_bool_decide as Hsz; [|done]. cbn [py_assert mbind result_bind]. intros E. apply Ok_inj in E as <-.
  split; cbn; [done| | |set_solver|intros r b; by rewrite lookup_empty].
  - assert (Hu : uses_of ∅ = []) by done. rewrite Hu. split; cbn.
    + by intros b ?%not_elem_of_nil.
    + intros b. destruct (decide (b ∈ list_to_set ids)) as [Hb|Hb]; [by apply lookup_gset_to_gmap_Some|by apply lookup_gset_to_gmap_None].
    + intros b Hb. eexists. split; [by apply lookup_gset_to_gmap_Some|]. done.
    + done.
    + intros b. rewrite elem_of_list_to_set. split; [|tauto]. intros Hb. split; [done|]. split; [apply not_elem_of_nil|by rewrite lookup_empty].
    + intros b m. by rewrite lookup_empty.
    + apply ev_inv_init.
    + intros h b. by rewrite lookup_empty.
    + intros h h' b. by rewrite lookup_empty.
    + intros h b t. by rewrite lookup_empty.
  - assert (Hs : slots_of ∅ = []) by done. rewrite Hs. split; cbn; [apply NoDup_seq| |rewrite length_replicate; lia]. intros i. rewrite elem_of_seq, length_replicate. lia.
Qed.
