(* ===== verification/PrefixTheorems.v ===== *)
(** * Correctness of the prefix-caching allocator

    Over every sequence of allocations, appends, frees and resets by a caller that keeps
    chains of blocks (sequences that are neither forked nor swapped, with access times as
    [fresh_access] says): blocks are shared only by blocks of the same content or by a
    collision of the hash, are accounted for exactly, and no operation fails unless memory
    is exhausted.  At the end, what happens outside these conditions. *)

From stdpp Require Import base tactics list gmap sets sorting.
From Stdlib Require Import ZArith Lia QArith.
From S2P Require Import Prelude.
From S2P Require Import NaiveBlocks.
From S2P Require Import BlockStore.
From S2P Require Import Evictor.
From S2P Require Import PrefixCaching.
From S2P Require Import PrefixInv.
From S2P Require Import PrefixSteps.

Local Open Scope Z_scope.

Implicit Types (a : PrefixCachingBlockAllocator) (r b : nat) (H : gmap nat nat) (o : PrefixCachingBlock).

Section reach.
Context `{PH : !PrefixHash}.

(** An object that is not full. *)
Definition partial a o : Prop := len (pb_token_ids o) < pc_block_size a.

(** The calls of a block table that is not forked and not swapped.  [H] maps the objects it
    holds to their blocks.  Blocks are appended to a full, live predecessor whose hash is
    not that of 'None' ([prev_ok]); when the last user of a hashed block is freed, no
    outdated queue entry of the block has its access time ([fresh_access]: otherwise the
    evictor may evict under an old hash, see [evictor_stale_hash]); and only blocks in use
    are marked as accessed (otherwise see [evictor_update_loses_block]). *)
Inductive pc_step a H : PrefixCachingBlockAllocator -> gmap nat nat -> Prop :=
  | step_immutable prev ts x r a' o b :
      prev_ok a H prev -> len ts = pc_block_size a -> pc_allocate_immutable_block a prev ts x = Ok (r, a') ->
      pc_pool a' !! r = Some o -> pb_block_id o = Some b -> pc_step a H a' (<[r := b]> H)
  | step_mutable prev x r a' o b :
      prev_ok a H prev -> pc_allocate_mutable_block a prev x = Ok (r, a') ->
      pc_pool a' !! r = Some o -> pb_block_id o = Some b -> pc_step a H a' (<[r := b]> H)
  | step_append r o ts a' o' b :
      is_Some (H !! r) -> pc_pool a !! r = Some o -> partial a o -> ts ≠ [] -> len (pb_token_ids o) + len ts <= pc_block_size a ->
      (len (pb_token_ids o) + len ts = pc_block_size a -> prev_ok a H (pb_prev_block o)) ->
      pc_append_token_ids a r ts = Ok a' -> pc_pool a' !! r = Some o' -> pb_block_id o' = Some b -> pc_step a H a' (<[r := b]> H)
  | step_free r b o a' :
      H !! r = Some b -> pc_pool a !! r = Some o -> (b ∉ uses_of (delete r H) -> fresh_access a b o) ->
      pc_free a r = Ok a' -> pc_step a H a' (delete r H)
  | step_accessed ids now a' :
      (∀ b, b ∈ ids -> b ∈ uses_of H) -> mark_blocks_as_accessed a ids now = Ok a' -> pc_step a H a' H
  | step_computed a' : mark_blocks_as_computed a = Ok a' -> pc_step a H a' H
  | step_reset res a' : pc_reset_prefix_cache a = Ok (res, a') -> pc_step a H a' H.

Inductive pc_reach : PrefixCachingBlockAllocator -> gmap nat nat -> Prop :=
  | reach_create n bs ids a : 0 < bs -> NoDup ids -> (0 < n)%nat -> pc_create n bs ids = Ok a -> pc_reach a ∅
  | reach_step a H a' H' : pc_reach a H -> pc_step a H a' H' -> pc_reach a' H'.

Lemma partial_mutable a H r b o : pc_inv a H -> H !! r = Some b -> pc_pool a !! r = Some o -> partial a o -> mutable a H r b o.
Proof.
  intros I E Eo Hp. destruct (pi_objs _ _ I r b E) as (o' & Eo' & [_ _ _ [(h & ? & ? & _ & Hl & _)|]]); rewrite Eo in Eo'; injection Eo' as <-; [|done].
  unfold partial in Hp. lia.
Qed.

Lemma obj_id a H r b b' o : pc_inv a H -> H !! r = Some b -> pc_pool a !! r = Some o -> pb_block_id o = Some b' -> b = b'.
Proof. intros I E Eo Eb. destruct (pi_objs _ _ I r b E) as (o' & Eo' & [Hid _ _ _]). rewrite Eo in Eo'. injection Eo' as <-. congruence. Qed.

Lemma step_inv a H a' H' : pc_inv a H -> pc_step a H a' H' -> pc_inv a' H'.
Proof.
  intros I Hs. destruct Hs as [prev ts x r a' o b Hp Hl E Eo Eb|prev x r a' o b Hp E Eo Eb|r o ts a' o' b [b0 Hr] Eo Hpa Hne Hl Hpr E Eo' Eb|r b o a' Hr Eo Hf E|ids now a' Hu E|a' E|res a' E].
  - destruct (allocate_immutable_spec a H prev ts x I Hp Hl) as [[_ E']|(r1 & b1 & a1 & E1 & _ & I1 & _)]; [congruence|].
    rewrite E1 in E. apply Ok_inj in E as [= -> ->]. rewrite <-(obj_id a' _ r b1 b o I1 (lookup_insert_eq _ _ _) Eo Eb). done.
  - destruct (pc_mutable_spec a H prev x I (prev_range a H prev I Hp)) as [[_ E']|(r1 & b1 & a1 & o1 & E1 & _ & _ & _ & I1 & _)]; [congruence|].
    rewrite E1 in E. apply Ok_inj in E as [= -> ->]. rewrite <-(obj_id a' _ r b1 b o I1 (lookup_insert_eq _ _ _) Eo Eb). done.
  - destruct (pc_append_spec a H r b0 o ts I Hr Eo (partial_mutable a H r b0 o I Hr Eo Hpa) Hne Hl Hpr) as (a1 & b1 & o1 & E1 & I1 & _).
    rewrite E1 in E. apply Ok_inj in E as ->. rewrite <-(obj_id a' _ r b1 b o' I1 (lookup_insert_eq _ _ _) Eo' Eb). done.
  - destruct (pc_free_spec a H r b o I Hr Eo Hf) as (a1 & E1 & I1 & _). rewrite E1 in E. by apply Ok_inj in E as ->.
  - destruct (mark_accessed_spec ids now a H I Hu) as (a1 & E1 & I1 & _). rewrite E1 in E. by apply Ok_inj in E as ->.
  - destruct (pc_computed_spec a H I) as (a1 & x & E1 & I1 & _). rewrite E1 in E. by apply Ok_inj in E as ->.
  - pose proof (reset_spec a H I) as Hr. case_decide as HH; [|by rewrite Hr in E; apply Ok_inj in E as [= _ ->]].
    destruct Hr as (a1 & E1 & I1 & _). rewrite E1 in E. apply Ok_inj in E as [= _ ->]. by rewrite HH.
Qed.

Lemma reach_inv a H : pc_reach a H -> pc_inv a H.
Proof. induction 1; [by eapply create_inv|by eapply step_inv]. Qed.
End reach.

(** Two different tuples with the same hash. *)
Definition hash_collision `{PH : !PrefixHash} (f : bool) (p : option Z) (ts : list Z) (x : option Z) (f' : bool) (p' : option Z) (ts' : list Z) (x' : option Z) : Prop :=
  py_hash f p ts x = py_hash f' p' ts' x' ∧ (f, p, ts, x) ≠ (f', p', ts', x').

(** C13: consider an allocator driven by a block table that allocates, appends, frees, marks
    and resets, without forks and swaps ([pc_reach]; a block is appended only to a full
    predecessor, and the access times satisfy [fresh_access]).  In every state it reaches,
    the reference count of a block is the number of live block objects that use it, the
    number of free blocks it reports is the number of blocks without users, and a block
    that is not full is the only user of its memory.  Two objects that share memory have
    the same tokens, unless the hash function collides: then both are registered under
    one hash, which is the hash of two different tuples, one with the tokens of each.
    Every registered hash stands for a block in use or one that waits in the evictor. *)
Theorem prefix_cache_invariant `{PH : !PrefixHash} a H :
  pc_reach a H ->
  (∀ b n, pc_refcounts a !! b = Some n -> n = occ b (map_to_list H).*2) ∧
  pc_get_num_free_blocks a = pc_get_num_total_blocks a - Z.of_nat (size (list_to_set (map_to_list H).*2 : gset nat)) ∧
  (∀ r r' b o, H !! r = Some b -> H !! r' = Some b -> pc_pool a !! r = Some o -> partial a o -> r' = r) ∧
  (∀ r r' b o o', H !! r = Some b -> H !! r' = Some b -> pc_pool a !! r = Some o -> pc_pool a !! r' = Some o' ->
    pb_block_id o = Some b ∧
    (pb_token_ids o = pb_token_ids o' ∨
     ∃ f p f' p', hash_collision f p (pb_token_ids o) (pb_extra_hash o) f' p' (pb_token_ids o') (pb_extra_hash o') ∧
       pb_cached_content_hash o = Some (py_hash f p (pb_token_ids o) (pb_extra_hash o)) ∧
       pb_cached_content_hash o' = Some (py_hash f' p' (pb_token_ids o') (pb_extra_hash o')))) ∧
  (∀ h b, pc_cached_blocks a !! h = Some b -> (∃ r, H !! r = Some b) ∨ ∃ m, free_table (pc_evictor a) !! b = Some m ∧ md_content_hash m = h).
Proof.
  intros R. pose proof (reach_inv a H R) as I. pose proof (pi_ids _ _ I) as IDS. split; [|split; [by apply num_free_spec|split; [|split]]].
  - intros b n. rewrite (io_rc _ _ IDS). case_decide; [|done]. intros E. by injection E.
  - intros r r' b o E E' Eo Hp. destruct (partial_mutable a H r b o I E Eo Hp) as (_ & _ & _ & Hu & _). by apply Hu.
  - intros r r' b o o' E E' Eo Eo'. destruct (pi_objs _ _ I r b E) as (o1 & Eo1 & [O1 _ _ S1]). destruct (pi_objs _ _ I r' b E') as (o2 & Eo2 & [_ _ _ S2]).
    rewrite Eo in Eo1. injection Eo1 as <-. rewrite Eo' in Eo2. injection Eo2 as <-. split; [done|].
    destruct (decide (pb_token_ids o = pb_token_ids o')) as [|Hne]; [by left|right].
    destruct S1 as [(h & f & p & H1 & _ & C1 & Hh)|(_ & _ & _ & Hu & _)]; [|rewrite (Hu r' E') in Eo'; congruence].
    destruct S2 as [(h' & f' & p' & H1' & _ & C2 & Hh')|(_ & _ & _ & Hu & _)]; [|rewrite (Hu r E) in Eo; congruence].
    pose proof (io_inj _ _ IDS h' h b C2 C1) as ->. exists f, p, f', p'. rewrite <-Hh, <-Hh'. split; [|done].
    split; [congruence|]. intros Et. by injection Et.
  - intros h b Hc. destruct (decide (b ∈ uses_of H)) as [Hu|Hu]; [left; by apply uses_elem|right]. by eapply cached_unused.
Qed.

(** C14: consider an allocator driven by a block table without forks and swaps
    ([pc_reach]).  In every state it reaches: allocating after a full predecessor (one whose
    hash is not that of 'None') fails only with NoFreeBlocksError, and only when every
    block is in use; appending tokens that fit to a block that is not full never fails;
    freeing a block never fails, provided that, when its last user is freed, no outdated
    entry of the evictor's queue has the block's access time ([fresh_access]); marking
    blocks in use as accessed, and marking the touched blocks as computed, never fail; a
    reset refuses while a block is in use and otherwise empties the cache.  Outside these
    conditions an allocation can fail with an assertion ([evictor_stale_hash]: equal access
    times) or although a block is free ([evictor_update_loses_block]: an access of a block
    that is not in use). *)
Theorem prefix_ops_total `{PH : !PrefixHash} a H :
  pc_reach a H ->
  (∀ prev ts x, prev_ok a H prev -> len ts = pc_block_size a ->
    (∃ r a', pc_allocate_immutable_block a prev ts x = Ok (r, a')) ∨
    (pc_get_num_free_blocks a = 0 ∧ pc_allocate_immutable_block a prev ts x = Err ValueError)) ∧
  (∀ prev x, prev_ok a H prev ->
    if decide (pc_get_num_free_blocks a = 0) then pc_allocate_mutable_block a prev x = Err ValueError
    else ∃ r a', pc_allocate_mutable_block a prev x = Ok (r, a')) ∧
  (∀ r b o ts, H !! r = Some b -> pc_pool a !! r = Some o -> partial a o -> len (pb_token_ids o) + len ts <= pc_block_size a ->
    (len (pb_token_ids o) + len ts = pc_block_size a -> prev_ok a H (pb_prev_block o)) -> ts ≠ [] ->
    ∃ a' o', pc_append_token_ids a r ts = Ok a' ∧ pc_pool a' !! r = Some o' ∧ pb_token_ids o' = pb_token_ids o ++ ts) ∧
  (∀ r b o, H !! r = Some b -> pc_pool a !! r = Some o -> (b ∉ uses_of (delete r H) -> fresh_access a b o) -> ∃ a', pc_free a r = Ok a') ∧
  (∀ ids now, (∀ b, b ∈ ids -> b ∈ uses_of H) -> ∃ a', mark_blocks_as_accessed a ids now = Ok a') ∧
  (∃ a', mark_blocks_as_computed a = Ok a') ∧
  (if decide (H = ∅) then ∃ a', pc_reset_prefix_cache a = Ok (true, a') ∧ pc_cached_blocks a' = ∅ else pc_reset_prefix_cache a = Ok (false, a)).
Proof.
  intros R. pose proof (reach_inv a H R) as I. split; [|split; [|split; [|split; [|split; [|split]]]]].
  - intros prev ts x Hp Hl. destruct (allocate_immutable_spec a H prev ts x I Hp Hl) as [?|(r & b & a' & E & _)]; [by right|left; by exists r, a'].
  - intros prev x Hp. destruct (pc_mutable_spec a H prev x I (prev_range a H prev I Hp)) as [[-> E]|(r & b & a' & o & E & Hpos & _)].
    + by rewrite decide_True.
    + rewrite decide_False by lia. by exists r, a'.
  - intros r b o ts E Eo Hp Hl Hpr Hne. destruct (pc_append_spec a H r b o ts I E Eo (partial_mutable a H r b o I E Eo Hp) Hne Hl Hpr) as (a' & b' & o' & E' & _ & Eo' & Ht & _).
    by exists a', o'.
  - intros r b o E Eo Hf. destruct (pc_free_spec a H r b o I E Eo Hf) as (a' & E' & _). by exists a'.
  - intros ids now Hu. destruct (mark_accessed_spec ids now a H I Hu) as (a' & E' & _). by exists a'.
  - destruct (pc_computed_spec a H I) as (a' & x & E' & _). by exists a'.
  - pose proof (reset_spec a H I) as Hr. case_decide; [|done]. destruct Hr as (a' & E & _ & Hc & _). by exists a'.
Qed.

(** ** A concrete run *)

(** A hash function without collisions. *)
#[export] Instance encode_hash : PrefixHash := {|
  py_hash first prev ts x := Zpos (encode (first, prev, ts, x));
  none_hash := 0;
|}.

Lemma encode_no_collision f p ts x f' p' ts' x' : ¬ hash_collision f p ts x f' p' ts' x'.
Proof. intros [E Hne]. injection E as E. by apply encode_inj in E. Qed.

Definition value_of {A} (d : A) (r : result A) : A := match r with Ok x => x | Err _ => d end.

(** Two blocks of two tokens; the tokens [1; 2] are allocated twice and share a block. *)
Definition run_dead : PrefixCachingBlockAllocator := mkPCAllocator 2 ∅ ∅ ∅ [] [] ev_init [] ∅ ∅ [] metric_init.
Definition run_start : PrefixCachingBlockAllocator := value_of run_dead (pc_create 2 2 [0; 1]%nat).
Definition run_one : nat * PrefixCachingBlockAllocator := value_of (0%nat, run_dead) (pc_allocate_immutable_block run_start None [1; 2] None).
Definition run_two : nat * PrefixCachingBlockAllocator := value_of (0%nat, run_dead) (pc_allocate_immutable_block run_one.2 None [1; 2] None).
Definition run_uses : gmap nat nat := {[run_two.1 := 0%nat; run_one.1 := 0%nat]}.

Lemma run_start_reach : pc_reach run_start ∅.
Proof.
  apply (reach_create 2 2 [0; 1]%nat); [lia|exact (NoDup_seq 0 2)|lia|by vm_compute].
Qed.

Lemma run_reach : pc_reach run_two.2 run_uses.
Proof.
  unfold run_uses. eapply reach_step; [eapply reach_step; [exact run_start_reach|]|].
  - eapply (step_immutable _ _ None [1; 2] None run_one.1); [done|done|by vm_compute|by vm_compute|by vm_compute].
  - eapply (step_immutable _ _ None [1; 2] None run_two.1); [done|done|by vm_compute|by vm_compute|by vm_compute].
Qed.

(** The two objects share a block; the hash has no collisions, so they have the same tokens. *)
Lemma prefix_cache_invariant_witness :
  pc_reach run_two.2 run_uses ∧ pc_refcounts run_two.2 !! 0%nat = Some 2 ∧ pc_get_num_free_blocks run_two.2 = 1 ∧
  ∃ o o', pc_pool run_two.2 !! run_one.1 = Some o ∧ pc_pool run_two.2 !! run_two.1 = Some o' ∧ pb_token_ids o = pb_token_ids o'.
Proof.
  split; [exact run_reach|].
  pose proof (prefix_cache_invariant run_two.2 run_uses run_reach) as (_ & Hf & _ & Ht & _).
  split; [by vm_compute|]. split; [rewrite Hf; by vm_compute|]. eexists _, _. split; [by vm_compute|]. split; [by vm_compute|].
  destruct (Ht run_one.1 run_two.1 0%nat _ _ ltac:(by vm_compute) ltac:(by vm_compute) ltac:(by vm_compute) ltac:(by vm_compute)) as [_ [E|(f & p & f' & p' & Hc & _)]].
  - exact E.
  - destruct (encode_no_collision _ _ _ _ _ _ _ _ Hc).
Defined.

Lemma prefix_ops_total_witness :
  pc_reach run_two.2 run_uses ∧ ∃ r a', pc_allocate_mutable_block run_two.2 (Some run_two.1) None = Ok (r, a').
Proof.
  split; [exact run_reach|].
  pose proof (prefix_ops_total run_two.2 run_uses run_reach) as (_ & Hm & _).
  specialize (Hm (Some run_two.1) None). rewrite decide_False in Hm; [|by vm_compute]. apply Hm.
  exists (value_of (pb_empty 2) (get_obj run_two.2 run_two.1)), (default 0 (pb_cached_content_hash (value_of (pb_empty 2) (get_obj run_two.2 run_two.1)))).
  split; [by eexists; vm_compute|]. split; [by vm_compute|]. split; by vm_compute.
Defined.

(** ** What the evictor gets wrong *)

(** [update] changes the access time of an unused block but queues no entry with the new
    time, so the block can no longer be evicted: every block is free and an allocation
    fails all the same. *)
Definition update_run : result (Z * result (nat * PrefixCachingBlockAllocator)) :=
  a ← pc_create 1 2 [0%nat];
  x ← pc_allocate_immutable_block a None [1; 2] None;
  a ← pc_free x.2 x.1;
  a ← mark_blocks_as_accessed a [0%nat] 5;
  Ok (pc_get_num_free_blocks a, pc_allocate_mutable_block a None None).

Lemma evictor_update_loses_block : update_run = Ok (1, Err ValueError).
Proof. by vm_compute. Qed.

(** Entries of the queue are compared by access time only.  A block that was used again and
    freed under another hash with the same time is evicted with its old hash, and the
    allocator's assertion that the hash is registered fails. *)
Definition stale_run : result (Z * result (nat * PrefixCachingBlockAllocator)) :=
  a ← pc_create 1 2 [0%nat];
  x ← pc_allocate_immutable_block a None [1; 2] None;
  a ← pc_free x.2 x.1;
  x ← pc_allocate_immutable_block a None [1; 2] None;
  a ← pc_free x.2 x.1;
  x ← pc_allocate_immutable_block a None [3; 4] None;
  a ← pc_free x.2 x.1;
  Ok (pc_get_num_free_blocks a, pc_allocate_immutable_block a None [5; 6] None).

Lemma evictor_stale_hash : stale_run = Ok (1, Err AssertionError).
Proof. by vm_compute. Qed.

(** A full block after one that has no hash yet gets a hash of its own, not None. *)
Definition gap_run : result (option Z) :=
  a ← pc_create 2 2 [0; 1]%nat;
  x ← pc_allocate_mutable_block a None None;
  y ← pc_init_block x.2 (Some x.1) [1; 2] (Some 1%nat) None;
  z ← content_hash y.2 y.1;
  Ok z.1.

Lemma content_hash_after_gap : gap_run = Ok (Some (py_hash false None [1; 2] None)).
Proof. by vm_compute. Qed.
