(* ===== verification/PrefixLookup.v ===== *)
(** * Looking up cached prefixes (core/block/prefix_caching_block.py, common.py)

    [ComputedBlocksTracker] remembers the block hashes of every sequence and asks the
    allocator how many of them are cached.  Its hashes have to agree with those the blocks
    compute for themselves; the lookup is a binary search.  [CacheMetricData] keeps the hit
    rate in blocks of queries. *)

From stdpp Require Import base tactics list gmap sets sorting.
From Stdlib Require Import ZArith Lia QArith.
From S2P Require Import Prelude.
From S2P Require Import NaiveBlocks.
From S2P Require Import V0Sequence.
From S2P Require Import Evictor.
From S2P Require Import PrefixCaching.
From S2P Require Import PrefixInv.
From S2P Require Import PrefixSteps.
From S2P Require Import PrefixTheorems.

Local Open Scope Z_scope.

(** ** The tracker *)

Record ComputedBlocksTracker : Type := mkComputedTracker {
  ct_block_size : Z;
  ct_enable_caching : bool;
  ct_seq_hashes : gmap Z (list Z);
  ct_num_tokens_computed : gmap Z Z;
}.

Definition tracker_init (block_size : Z) (enable_caching : bool) : ComputedBlocksTracker := mkComputedTracker block_size enable_caching ∅ ∅.

Section tracker.
Context `{PH : !PrefixHash}.

(** The loop over the new full blocks. *)
Fixpoint hash_new_blocks (block_size : Z) (extra_hash : option Z) (token_ids : list Z) (idxs : list nat) (prev_block_hash : Z) (recorded : list Z) :
    result (list Z) :=
  match idxs with
  | [] => Ok recorded
  | i :: idxs =>
      _ ← py_assert ((Z.of_nat i + 1) * block_size <=? len token_ids);
      let block_token_ids := slice token_ids (i * Z.to_nat block_size) ((i + 1) * Z.to_nat block_size) in
      let block_hash := pb_hash_block_tokens (prev_block_hash =? none_hash) (Some prev_block_hash) block_token_ids extra_hash in
      hash_new_blocks block_size extra_hash token_ids idxs block_hash (recorded ++ [block_hash])
  end.

(** [extra_hash]: what [seq.extra_hash()] returns. *)
Definition _update_seq_hashes (t : ComputedBlocksTracker) (seq : Sequence) (extra_hash : option Z) : result ComputedBlocksTracker :=
  _ ← py_assert (ct_enable_caching t);
  let recorded := default [] (ct_seq_hashes t !! seq_id seq) in
  let cur := length recorded in
  let token_ids := seq_token_ids seq in
  _ ← py_assert (Z.of_nat cur * ct_block_size t <=? len token_ids);
  let num_computed_blocks := Z.to_nat (len token_ids / ct_block_size t) in
  let prev_block_hash := default none_hash (last recorded) in
  recorded ← hash_new_blocks (ct_block_size t) extra_hash token_ids (List.seq cur (num_computed_blocks - cur)) prev_block_hash recorded;
  Ok (mkComputedTracker (ct_block_size t) (ct_enable_caching t) (<[seq_id seq := recorded]> (ct_seq_hashes t)) (ct_num_tokens_computed t)).

Definition get_num_cached_tokens (t : ComputedBlocksTracker) (a : PrefixCachingBlockAllocator) (seq : Sequence) (extra_hash : option Z) :
    result (Z * ComputedBlocksTracker) :=
  if negb (ct_enable_caching t) then Ok (0, t)
  else
    t ← _update_seq_hashes t seq extra_hash;
    match ct_num_tokens_computed t !! seq_id seq, seq_is_prefill seq with
    | Some n, true => Ok (n, t)
    | _, _ =>
        block_hashes ← or_raise KeyError (ct_seq_hashes t !! seq_id seq);
        l ← find_cached_blocks_prefix a block_hashes;
        let n := len l * ct_block_size t in
        Ok (n, mkComputedTracker (ct_block_size t) (ct_enable_caching t) (ct_seq_hashes t) (<[seq_id seq := n]> (ct_num_tokens_computed t)))
    end.

Definition tracker_remove_seq (t : ComputedBlocksTracker) (id : Z) : result ComputedBlocksTracker :=
  if negb (ct_enable_caching t) then Ok t
  else
    _ ← or_raise AssertionError (ct_seq_hashes t !! id);
    _ ← or_raise AssertionError (ct_num_tokens_computed t !! id);
    Ok (mkComputedTracker (ct_block_size t) (ct_enable_caching t) (delete id (ct_seq_hashes t)) (delete id (ct_num_tokens_computed t))).

(** [LastAccessBlocksTracker]: the access time of a sequence, and of its blocks. *)
Definition update_last_access (l : gmap Z (option Z)) (id time : Z) : result (gmap Z (option Z)) :=
  _ ← or_raise AssertionError (l !! id);
  Ok (<[id := Some time]> l).

Definition update_seq_blocks_last_access (l : gmap Z (option Z)) (a : PrefixCachingBlockAllocator) (id : Z) (block_ids : list nat) :
    result PrefixCachingBlockAllocator :=
  ts ← or_raise AssertionError (l !! id);
  match ts with
  | None => Ok a
  | Some now => mark_blocks_as_accessed a block_ids now
  end.

(** ** The hashes *)









(** ** In sync with the blocks *)



(** ** Binary search *)


End tracker.

(** ** The hit rate *)

(** The number of hits among the answers of a list of queries. *)
Definition count_hits (l : list bool) : Z := len (filter (fun h : bool => h = true) l).

Record metric_ok (m : CacheMetricData) (l : list bool) : Prop := {
  mo_size : metric_block_size m = 1000;
  mo_range : 0 <= num_completed_blocks m ∧ 0 <= num_incompleted_block_queries m < 1000;
  mo_total : num_completed_blocks m * 1000 + num_incompleted_block_queries m = len l;
  mo_hits : (completed_block_cache_hit_rate m * inject_Z (num_completed_blocks m) * 1000 + inject_Z (num_incompleted_block_hit m) == inject_Z (count_hits l))%Q;
  mo_none : num_incompleted_block_queries m = 0 -> num_incompleted_block_hit m = 0;
}.

Lemma count_hits_snoc l h : count_hits (l ++ [h]) = count_hits l + (if h then 1 else 0).
Proof. unfold count_hits. rewrite filter_app, length_app. destruct h; [rewrite filter_cons_True by done|rewrite filter_cons_False by done]; rewrite filter_nil, Nat2Z.inj_add; cbn; lia. Qed.

Lemma query_ok m l h : metric_ok m l -> metric_ok (query m h) (l ++ [h]).
Proof.
  intros [Hs [Hn Hq] Ht Hh Hz]. unfold query. rewrite Hs. set (hits := num_incompleted_block_hit m + _).
  assert (Hlen : len (l ++ [h]) = len l + 1) by (rewrite length_app; cbn; lia).
  assert (Hc : (completed_block_cache_hit_rate m * inject_Z (num_completed_blocks m) * 1000 + inject_Z hits == inject_Z (count_hits (l ++ [h])))%Q).
  { unfold hits. rewrite count_hits_snoc, !inject_Z_plus, <-Hh. ring. }
  destruct (Z.eqb_spec (num_incompleted_block_queries m + 1) 1000) as [E|E]; cbn [negb].
  - rewrite E. split; cbn [metric_block_size num_completed_blocks num_incompleted_block_queries num_incompleted_block_hit completed_block_cache_hit_rate]; [done|lia|lia| |done].
    rewrite <-Hc, inject_Z_plus. change (inject_Z 1) with 1%Q. change (inject_Z 0) with 0%Q. change (inject_Z 1000) with 1000%Q. field.
    change 1%Q with (inject_Z 1). rewrite <-inject_Z_plus. change 0%Q with (inject_Z 0). rewrite inject_Z_injective. lia.
  - split; cbn [metric_block_size num_completed_blocks num_incompleted_block_queries num_incompleted_block_hit completed_block_cache_hit_rate]; [done|lia|lia|exact Hc|lia].
Qed.

Lemma queries_ok l : metric_ok (foldl query metric_init l) l.
Proof.
  induction l as [|h l IH] using rev_ind; [split; cbn; try done; lia|]. rewrite foldl_app. by apply query_ok.
Qed.

Lemma hit_rate_spec m l : metric_ok m l -> l ≠ [] -> (get_hit_rate m == inject_Z (count_hits l) / inject_Z (len l))%Q.
Proof.
  intros [Hs [Hn Hq] Ht Hh Hz] Hl. unfold get_hit_rate. rewrite Hs.
  assert (Hpos : 0 < len l) by (destruct l; [done|cbn; lia]).
  assert (Ht' : (inject_Z (num_completed_blocks m) + inject_Z (num_incompleted_block_queries m) / inject_Z 1000 == inject_Z (len l) / 1000)%Q).
  { rewrite <-Ht, inject_Z_plus, inject_Z_mult. change (inject_Z 1000) with 1000%Q. field. }
  assert (Hne : ¬ (inject_Z (len l) == 0)%Q) by (change 0%Q with (inject_Z 0); rewrite inject_Z_injective; lia).
  assert (Hne2 : ¬ (inject_Z (len l) / 1000 == 0)%Q).
  { intros E. apply Hne. rewrite <-(Qmult_div_r (inject_Z (len l)) 1000) by done. rewrite E. done. }
  assert (Eq : Qeq_bool (inject_Z (num_completed_blocks m) + inject_Z (num_incompleted_block_queries m) / inject_Z 1000) 0 = false).
  { apply not_true_iff_false. rewrite Qeq_bool_iff, Ht'. done. }
  rewrite Eq, Ht'. rewrite <-Hh. change (inject_Z 1000) with 1000%Q.
  destruct (Z.ltb_spec 0 (num_completed_blocks m)) as [Hc|Hc]; destruct (Z.ltb_spec 0 (num_incompleted_block_queries m)) as [Hi|Hi].
  - field. split; [done|]. change 0%Q with (inject_Z 0). rewrite inject_Z_injective. lia.
  - rewrite Hz by lia. change (inject_Z 0) with 0%Q. field. done.
  - replace (num_completed_blocks m) with 0 by lia. change (inject_Z 0) with 0%Q. field. split; [done|]. change 0%Q with (inject_Z 0). rewrite inject_Z_injective. lia.
  - lia.
Qed.

(** ** Correctness of the cached-prefix lookup

    [ComputedBlocksTracker.get_num_cached_tokens] agrees with the allocator: it counts the
    longest prefix of the sequence's blocks that are registered, and finds every block of a
    prompt that has been allocated and computed before. *)

Implicit Types (a : PrefixCachingBlockAllocator) (H : gmap nat nat).

Section lookup.
Context `{PH : !PrefixHash}.











End lookup.


(** The hit rate, kept per thousand queries to bound the numbers, is exactly the fraction
    of hits (over the rationals). *)
Theorem hit_rate_exact (l : list bool) :
  (get_hit_rate (foldl query metric_init l) == if decide (l = []) then 0 else inject_Z (count_hits l) / inject_Z (len l))%Q.
Proof. case_decide as E; [by rewrite E|]. apply hit_rate_spec; [apply queries_ok|done]. Qed.



(** ** When the cached blocks are not a prefix *)

(** The bisection relies on a block being cached only if those before it are.  This fails
    when a sequence that shares a first block is freed last but was accessed earlier: the
    block takes the older time and is evicted before its successor.  Sequence 1 holds the
    blocks [1; 2] and [3; 4] and was last accessed at time 9, sequence 2 holds [1; 2] and
    was last accessed at time 5.  After both are freed and two blocks are taken, the first
    block is gone, yet the tracker reports both as cached. *)
Definition orphan_run : result (option bool * result (Z * ComputedBlocksTracker)) :=
  a ← pc_create 3 2 [0; 1; 2]%nat;
  let times : gmap Z (option Z) := {[1 := Some 9; 2 := Some 5]} in
  one ← pc_allocate_immutable_blocks a None [[1; 2]; [3; 4]] None;
  two ← pc_allocate_immutable_blocks one.2 None [[1; 2]] None;
  a ← mark_blocks_as_computed two.2;
  a ← update_seq_blocks_last_access times a 1 [0; 1]%nat;
  a ← for_each (fun r a => pc_free a r) one.1 a;
  a ← update_seq_blocks_last_access times a 2 [0%nat];
  a ← for_each (fun r a => pc_free a r) two.1 a;
  x ← pc_allocate_mutable_block a None None;
  x ← pc_allocate_mutable_block x.2 None None;
  let first := bool_decide (is_Some (pc_cached_blocks x.2 !! pb_hash_block_tokens true None [1; 2] None)) in
  Ok (Some first, get_num_cached_tokens (tracker_init 2 true) x.2 (mkSequence 3 [1; 2; 3; 4] 4 None 0 PREFILL WAITING) None).

Theorem orphan_block_counted : ∃ t, orphan_run = Ok (Some false, Ok (4, t)).
Proof. eexists. by vm_compute. Qed.
