(* ===== verification/V0Scheduler.v ===== *)
(** * The scheduler of the previous engine (core/scheduler.py)

    [SchedulingBudget] and [Scheduler] over any block manager ([BlockSpaceOps]).
    Sequence groups are mutable objects that the queues, the lists of a step and the
    engine share, so they live in a store and are referred to by number.  [time.time()]
    reads a clock: its n-th call returns [clock n].

    Object caches ([PyObjectCache]) only save allocations and are not modelled;
    [decode_seq_groups_list] is read off [decode_seq_groups]; the artificial preemption
    of tests (off unless an environment variable is set) and metrics are left out. *)

From stdpp Require Import base tactics list gmap sets strings.
From Stdlib Require Import ZArith QArith Lia.
From S2P Require Import Prelude.
From S2P Require Import SamplingParams.
From S2P Require Import V0Sequence.
From S2P Require Import NaiveBlocks.
From S2P Require Import BlockManager.
From S2P Require Import V0Interface.

Local Open Scope Z_scope.

(** ** Configuration (config.py) *)

Record SchedulerConfig : Type := mkSchedulerConfig {
  sc_runner_type : string;
  sc_max_num_batched_tokens : Z;
  sc_max_num_seqs : Z;
  sc_max_model_len : Z;
  sc_num_lookahead_slots : Z;
  sc_delay_factor : Q;
  sc_chunked_prefill_enabled : bool;
  sc_preemption_mode : option string;
  sc_num_scheduler_steps : Z;
  sc_send_delta_data : bool;
  sc_policy : string;
}.

Definition sc_is_pooling (c : SchedulerConfig) : bool := bool_decide (sc_runner_type c = "pooling"%string).

Definition is_multi_step (c : SchedulerConfig) : bool := 1 <? sc_num_scheduler_steps c.

(** [_verify_args] *)
Definition sc_verify_args (c : SchedulerConfig) : result unit :=
  if (sc_max_num_batched_tokens c <? sc_max_model_len c) && negb (sc_chunked_prefill_enabled c) then Err ValueError
  else if sc_max_num_batched_tokens c <? sc_max_num_seqs c then Err ValueError
  else if sc_num_lookahead_slots c <? 0 then Err ValueError
  else if sc_num_scheduler_steps c <? 1 then Err ValueError
  else Ok tt.

(** The value [__post_init__] gives [max_num_batched_tokens] when it is None. *)
Definition default_max_num_batched_tokens (chunked pooling multimodal : bool) (num_scheduler_steps max_model_len : Z) : Z :=
  let n := if chunked then if 1 <? num_scheduler_steps then Z.max max_model_len 2048 else 2048
           else Z.max max_model_len 2048 in
  let n := if pooling then Z.max n 32768 else n in
  if multimodal then Z.max n 5120 else n.

Definition SchedulerConfig_post_init (max_num_batched_tokens : option Z) (multimodal : bool) (c : SchedulerConfig) :
    result SchedulerConfig :=
  let n := match max_num_batched_tokens with
           | Some n => n
           | None => default_max_num_batched_tokens (sc_chunked_prefill_enabled c) (sc_is_pooling c) multimodal
                       (sc_num_scheduler_steps c) (sc_max_model_len c)
           end in
  let c := mkSchedulerConfig (sc_runner_type c) n (sc_max_num_seqs c) (sc_max_model_len c) (sc_num_lookahead_slots c) (sc_delay_factor c)
             (sc_chunked_prefill_enabled c) (sc_preemption_mode c) (sc_num_scheduler_steps c) (sc_send_delta_data c) (sc_policy c) in
  _ ← sc_verify_args c; Ok c.

Record V0CacheConfig : Type := mkV0CacheConfig {
  cc_block_size : Z;
  cc_enable_prefix_caching : bool;
}.

(** ** SchedulingBudget *)

Record SchedulingBudget : Type := mkBudget {
  token_budget : Z;
  bg_max_num_seqs : Z;
  _request_ids_num_batched_tokens : gset string;
  _request_ids_num_curr_seqs : gset string;
  bg_num_cached_tokens : Z;
  bg_num_batched_tokens : Z;
  bg_num_curr_seqs : Z;
}.

Definition new_budget (tokens seqs : Z) : SchedulingBudget := mkBudget tokens seqs ∅ ∅ 0 0 0.

Definition can_schedule (b : SchedulingBudget) (num_new_tokens num_new_seqs : Z) : result bool :=
  _ ← py_assert (0 <=? num_new_tokens);
  _ ← py_assert (negb (num_new_seqs =? 0));
  Ok ((bg_num_batched_tokens b + num_new_tokens <=? token_budget b) && (bg_num_curr_seqs b + num_new_seqs <=? bg_max_num_seqs b)).

Definition remaining_token_budget (b : SchedulingBudget) : Z := token_budget b - bg_num_batched_tokens b.

Definition add_num_batched_tokens (b : SchedulingBudget) (req_id : string) (num_batched_tokens num_cached_tokens : Z) :
    result SchedulingBudget :=
  if decide (req_id ∈ _request_ids_num_batched_tokens b) then Ok b
  else
    _ ← py_assert (0 <=? num_cached_tokens);
    _ ← py_assert (0 <=? num_batched_tokens);
    Ok (mkBudget (token_budget b) (bg_max_num_seqs b) ({[req_id]} ∪ _request_ids_num_batched_tokens b) (_request_ids_num_curr_seqs b)
          (bg_num_cached_tokens b + num_cached_tokens) (bg_num_batched_tokens b + num_batched_tokens) (bg_num_curr_seqs b)).

Definition subtract_num_batched_tokens (b : SchedulingBudget) (req_id : string) (num_batched_tokens : Z) : SchedulingBudget :=
  if decide (req_id ∈ _request_ids_num_batched_tokens b) then
    mkBudget (token_budget b) (bg_max_num_seqs b) (_request_ids_num_batched_tokens b ∖ {[req_id]}) (_request_ids_num_curr_seqs b)
      (bg_num_cached_tokens b) (bg_num_batched_tokens b - num_batched_tokens) (bg_num_curr_seqs b)
  else b.

Definition add_num_seqs (b : SchedulingBudget) (req_id : string) (num_curr_seqs : Z) : SchedulingBudget :=
  if decide (req_id ∈ _request_ids_num_curr_seqs b) then b
  else mkBudget (token_budget b) (bg_max_num_seqs b) (_request_ids_num_batched_tokens b) ({[req_id]} ∪ _request_ids_num_curr_seqs b)
         (bg_num_cached_tokens b) (bg_num_batched_tokens b) (bg_num_curr_seqs b + num_curr_seqs).

Definition subtract_num_seqs (b : SchedulingBudget) (req_id : string) (num_curr_seqs : Z) : SchedulingBudget :=
  if decide (req_id ∈ _request_ids_num_curr_seqs b) then
    mkBudget (token_budget b) (bg_max_num_seqs b) (_request_ids_num_batched_tokens b) (_request_ids_num_curr_seqs b ∖ {[req_id]})
      (bg_num_cached_tokens b) (bg_num_batched_tokens b) (bg_num_curr_seqs b - num_curr_seqs)
  else b.

(** ** Results of the parts of a step *)

Record ScheduledSequenceGroup : Type := mkScheduled {
  ssg_seq_group : nat;
  token_chunk_size : Z;
}.

Record SchedulerRunningOutputs : Type := mkRunningOutputs {
  ro_decode_seq_groups : list ScheduledSequenceGroup;
  ro_prefill_seq_groups : list ScheduledSequenceGroup;
  ro_preempted : list nat;
  ro_swapped_out : list nat;
  ro_blocks_to_swap_out : list (nat * nat);
  ro_blocks_to_copy : list (nat * nat);
  ro_num_lookahead_slots : Z;
}.

Record SchedulerSwappedInOutputs : Type := mkSwappedInOutputs {
  so_decode_seq_groups : list ScheduledSequenceGroup;
  so_prefill_seq_groups : list ScheduledSequenceGroup;
  so_blocks_to_swap_in : list (nat * nat);
  so_blocks_to_copy : list (nat * nat);
  so_num_lookahead_slots : Z;
  so_infeasible_seq_groups : list nat;
}.

Record SchedulerPrefillOutputs : Type := mkPrefillOutputs {
  po_seq_groups : list ScheduledSequenceGroup;
  po_ignored_seq_groups : list nat;
  po_num_lookahead_slots : Z;
}.

Record SchedulerOutputs : Type := mkSchedulerOutputs {
  scheduled_seq_groups : list ScheduledSequenceGroup;
  num_prefill_groups : Z;
  out_num_batched_tokens : Z;
  blocks_to_swap_in : list (nat * nat);
  blocks_to_swap_out : list (nat * nat);
  blocks_to_copy : list (nat * nat);
  ignored_seq_groups : list nat;
  out_num_lookahead_slots : Z;
  running_queue_size : Z;
  out_preempted : Z;
}.

Inductive PreemptionMode : Type := SWAP | RECOMPUTE.

(** [SequenceGroupMetadata], or with [md_delta] the [SequenceGroupMetadataDelta]. *)
Record SequenceGroupMetadata : Type := mkMetadata {
  md_request_id : string;
  md_is_prompt : bool;
  md_seq_data : list (Z * list Z);
  md_block_tables : list (Z * option (list nat));
  md_do_sample : bool;
  md_token_chunk_size : Z;
  md_computed_block_nums : list nat;
  md_cross_block_table : option (list nat);
  md_delta : bool;
}.

(** ** The scheduler *)

Record V0Scheduler (M : Type) : Type := mkV0 {
  v0_config : SchedulerConfig;
  v0_cache_config : V0CacheConfig;
  v0_max_loras : option Z;                  (* lora_config *)
  block_manager : M;
  v0_groups : gmap nat SequenceGroup;
  v0_waiting : list nat;
  v0_running : list nat;
  v0_swapped : list nat;
  v0_finished_requests_ids : list string;
  prev_time : Q;
  prev_prompt : bool;
  last_prompt_latency : Q;
  num_cumulative_preemption : Z;
  _async_stopped : list nat;
  v0_ticks : nat;
}.
#[global] Arguments mkV0 {M}.
#[global] Arguments v0_config {M}.
#[global] Arguments v0_cache_config {M}.
#[global] Arguments v0_max_loras {M}.
#[global] Arguments block_manager {M}.
#[global] Arguments v0_groups {M}.
#[global] Arguments v0_waiting {M}.
#[global] Arguments v0_running {M}.
#[global] Arguments v0_swapped {M}.
#[global] Arguments v0_finished_requests_ids {M}.
#[global] Arguments prev_time {M}.
#[global] Arguments prev_prompt {M}.
#[global] Arguments last_prompt_latency {M}.
#[global] Arguments num_cumulative_preemption {M}.
#[global] Arguments _async_stopped {M}.
#[global] Arguments v0_ticks {M}.

(** [sorted], stable, by a comparison of keys. *)
Fixpoint insert_with {A} (leb : A -> A -> bool) (x : A) (l : list A) : list A :=
  match l with
  | [] => [x]
  | y :: l' => if leb x y then x :: l else y :: insert_with leb x l'
  end.
Definition sort_with {A} (leb : A -> A -> bool) (l : list A) : list A := foldr (insert_with leb) [] l.

(** [deque.extendleft] *)
Definition extendleft {A} (l q : list A) : list A := reverse l ++ q.

(** [deque.remove] *)
Fixpoint remove_first (x : nat) (l : list nat) : list nat :=
  match l with
  | [] => []
  | y :: l => if decide (y = x) then l else y :: remove_first x l
  end.

Section setters.
Context {M : Type}.
Implicit Types s : V0Scheduler M.

Definition v0_with_bm s (m : M) : V0Scheduler M :=
  mkV0 (v0_config s) (v0_cache_config s) (v0_max_loras s) m (v0_groups s) (v0_waiting s) (v0_running s) (v0_swapped s)
    (v0_finished_requests_ids s) (prev_time s) (prev_prompt s) (last_prompt_latency s) (num_cumulative_preemption s)
    (_async_stopped s) (v0_ticks s).
Definition v0_with_groups s (gs : gmap nat SequenceGroup) : V0Scheduler M :=
  mkV0 (v0_config s) (v0_cache_config s) (v0_max_loras s) (block_manager s) gs (v0_waiting s) (v0_running s) (v0_swapped s)
    (v0_finished_requests_ids s) (prev_time s) (prev_prompt s) (last_prompt_latency s) (num_cumulative_preemption s)
    (_async_stopped s) (v0_ticks s).
Definition v0_with_queues s (w r sw : list nat) : V0Scheduler M :=
  mkV0 (v0_config s) (v0_cache_config s) (v0_max_loras s) (block_manager s) (v0_groups s) w r sw
    (v0_finished_requests_ids s) (prev_time s) (prev_prompt s) (last_prompt_latency s) (num_cumulative_preemption s)
    (_async_stopped s) (v0_ticks s).
Definition v0_with_finished s (ids : list string) : V0Scheduler M :=
  mkV0 (v0_config s) (v0_cache_config s) (v0_max_loras s) (block_manager s) (v0_groups s) (v0_waiting s) (v0_running s) (v0_swapped s)
    ids (prev_time s) (prev_prompt s) (last_prompt_latency s) (num_cumulative_preemption s) (_async_stopped s) (v0_ticks s).
Definition v0_with_time s (t : Q) (prompt : bool) (latency : Q) (ticks : nat) : V0Scheduler M :=
  mkV0 (v0_config s) (v0_cache_config s) (v0_max_loras s) (block_manager s) (v0_groups s) (v0_waiting s) (v0_running s) (v0_swapped s)
    (v0_finished_requests_ids s) t prompt latency (num_cumulative_preemption s) (_async_stopped s) ticks.
Definition v0_with_preemption s (n : Z) : V0Scheduler M :=
  mkV0 (v0_config s) (v0_cache_config s) (v0_max_loras s) (block_manager s) (v0_groups s) (v0_waiting s) (v0_running s) (v0_swapped s)
    (v0_finished_requests_ids s) (prev_time s) (prev_prompt s) (last_prompt_latency s) n (_async_stopped s) (v0_ticks s).
Definition v0_with_stopped s (l : list nat) : V0Scheduler M :=
  mkV0 (v0_config s) (v0_cache_config s) (v0_max_loras s) (block_manager s) (v0_groups s) (v0_waiting s) (v0_running s) (v0_swapped s)
    (v0_finished_requests_ids s) (prev_time s) (prev_prompt s) (last_prompt_latency s) (num_cumulative_preemption s) l (v0_ticks s).

Definition v0_set_group s (ref : nat) (g : SequenceGroup) : V0Scheduler M := v0_with_groups s (<[ref := g]> (v0_groups s)).
Definition v0_with_running s (l : list nat) : V0Scheduler M := v0_with_queues s (v0_waiting s) l (v0_swapped s).
Definition v0_with_waiting s (l : list nat) : V0Scheduler M := v0_with_queues s l (v0_running s) (v0_swapped s).
Definition v0_with_swapped s (l : list nat) : V0Scheduler M := v0_with_queues s (v0_waiting s) (v0_running s) l.

(** Following a reference. *)
Definition get_group s (ref : nat) : result SequenceGroup := or_raise KeyError (v0_groups s !! ref).
End setters.

(** ** How many tokens *)

Definition _get_num_lookahead_slots (c : SchedulerConfig) (is_prefill enable_chunking : bool) : Z :=
  if is_prefill then if is_multi_step c && enable_chunking then sc_num_lookahead_slots c + 1 else 0
  else sc_num_lookahead_slots c.

Definition _get_prompt_limit (c : SchedulerConfig) (g : SequenceGroup) : result Z :=
  let limit := if sc_chunked_prefill_enabled c && negb (is_multi_step c) then sc_max_model_len c
               else Z.min (sc_max_model_len c) (sc_max_num_batched_tokens c) in
  match (r ← sg_lora_request g; long_lora_max_len r) with
  | Some n => if n =? 0 then Ok limit else _ ← py_assert (limit <=? n); Ok n
  | None => Ok limit
  end.

Definition _chunk_new_tokens_to_schedule (c : SchedulerConfig) (cc : V0CacheConfig) (b : SchedulingBudget)
    (prompt_limit num_new_tokens : Z) : result Z :=
  let remaining := remaining_token_budget b in
  if is_multi_step c then
    Ok (if prompt_limit <? num_new_tokens then num_new_tokens
        else if remaining <? num_new_tokens then 0 else num_new_tokens)
  else if cc_enable_prefix_caching cc then
    if negb (token_budget b `mod` cc_block_size cc =? 0) then Err ValueError
    else Ok (Z.min num_new_tokens (remaining / cc_block_size cc * cc_block_size cc))
  else Ok (Z.min num_new_tokens remaining).

Section scheduler.
Context {M : Type} `{!BlockSpaceOps M}.
Context (clock : nat -> Q).
(* [output_proc_callback]; given iff outputs are processed asynchronously *)
Context (output_proc_callback : option (string -> V0Scheduler M -> result (V0Scheduler M))).
Implicit Types s : V0Scheduler M.

Fixpoint count_new_tokens s (seqs : list Sequence) (uncached cached : Z) : result (Z * Z) :=
  match seqs with
  | [] => Ok (uncached, cached)
  | q :: seqs =>
      if negb (seq_is_prefill q) then count_new_tokens s seqs (uncached + 1) cached
      else
        let computed := seq_num_computed_tokens q in
        let all_new := seq_get_len q - computed in
        if negb (cc_enable_prefix_caching (v0_cache_config s)) then count_new_tokens s seqs (uncached + all_new) cached
        else
          n ← bs_get_num_cached_tokens (block_manager s) q;
          _ ← py_assert ((computed <=? n) ||
                 (seq_is_prefill q && has_status RUNNING q && sc_chunked_prefill_enabled (v0_config s)));
          let cached_new := Z.max 0 (n - computed) in
          count_new_tokens s seqs (uncached + (all_new - cached_new)) (cached + cached_new)
  end.

Definition _get_num_new_uncached_and_cached_tokens s (g : SequenceGroup) (status : SequenceStatus) (enable_chunking : bool)
    (b : SchedulingBudget) : result (Z * Z) :=
  let seqs := get_seqs g status in
  x ← count_new_tokens s seqs 0 0;
  let x := if (x.1 =? 0) && (0 <? x.2) then (1, x.2 - 1) else x in
  if enable_chunking && (len seqs =? 1) then
    limit ← _get_prompt_limit (v0_config s) g;
    n ← _chunk_new_tokens_to_schedule (v0_config s) (v0_cache_config s) b limit x.1;
    Ok (n, x.2)
  else Ok x.

(** ** Operations on one group *)

Definition free_seq s (q : Sequence) : result (V0Scheduler M) :=
  m ← bs_free (block_manager s) q; Ok (v0_with_bm s m).

Definition v0_fork_seq s (parent child : Sequence) : result (V0Scheduler M) :=
  m ← bs_fork (block_manager s) parent child; Ok (v0_with_bm s m).

Definition _free_seq_group_cross_attn_blocks s (g : SequenceGroup) : result (V0Scheduler M) :=
  if is_encoder_decoder g then m ← bs_free_cross (block_manager s) g; Ok (v0_with_bm s m) else Ok s.

Definition _free_finished_seqs s (g : SequenceGroup) : result (V0Scheduler M) :=
  for_each (fun q s => free_seq s q) (filter (fun q => seq_is_finished q = true) (sg_seqs g)) s.

Definition _free_finished_seq_group s (ref : nat) : result (V0Scheduler M) :=
  g ← get_group s ref;
  s ← (if sg_is_finished g then
         s ← _free_seq_group_cross_attn_blocks s g;
         Ok (v0_with_finished s (v0_finished_requests_ids s ++ [sg_request_id g]))
       else Ok s);
  _free_finished_seqs s g.

Definition _allocate_and_set_running s (ref : nat) : result (V0Scheduler M) :=
  g ← get_group s ref;
  m ← bs_allocate (block_manager s) g;
  Ok (v0_set_group (v0_with_bm s m) ref (update_seqs (has_status WAITING) (set_status RUNNING) g)).

Definition _can_append_slots s (ref : nat) (enable_chunking : bool) : result bool :=
  g ← get_group s ref;
  is_prefill ← sg_is_prefill g;
  let n := _get_num_lookahead_slots (v0_config s) is_prefill enable_chunking in
  _ ← py_assert (negb (is_prefill && (0 <? n)) || (is_multi_step (v0_config s) && enable_chunking));
  bs_can_append_slots (block_manager s) g n.

Definition append_seq_slots (n : Z) (q : Sequence) (x : list (nat * nat) * M) : result (list (nat * nat) * M) :=
  y ← bs_append_slots x.2 q n; Ok (x.1 ++ y.1, y.2).

(** The copies are returned; the callers append them to their lists. *)
Definition _append_slots s (ref : nat) (enable_chunking : bool) : result (list (nat * nat) * V0Scheduler M) :=
  let c := v0_config s in
  g ← get_group s ref;
  is_prefill ← sg_is_prefill g;
  let n := _get_num_lookahead_slots c is_prefill enable_chunking in
  g ← init_multi_step_from_lookahead_slots n (sc_num_scheduler_steps c) (is_multi_step c) enable_chunking g;
  let seqs := if is_multi_step c && enable_chunking then sg_seqs g else get_seqs g RUNNING in
  x ← for_each (append_seq_slots n) seqs ([], block_manager s);
  Ok (x.1, v0_set_group (v0_with_bm s x.2) ref g).

Definition _preempt_by_recompute s (ref : nat) : result (V0Scheduler M) :=
  g ← get_group s ref;
  let seqs := get_seqs g RUNNING in
  _ ← py_assert (len seqs =? 1);
  s ← for_each (fun q s => free_seq s q) seqs s;
  let s := v0_set_group s ref (update_seqs (has_status RUNNING) (fun q => reset_state_for_recompute (set_status WAITING q)) g) in
  _free_seq_group_cross_attn_blocks s g.

Definition _swap_out s (ref : nat) : result (list (nat * nat) * V0Scheduler M) :=
  g ← get_group s ref;
  ok ← bs_can_swap_out (block_manager s) g;
  if negb ok then Err RuntimeError
  else
    x ← bs_swap_out (block_manager s) g;
    mapping ← or_raise TypeError x.1;
    Ok (mapping, v0_set_group (v0_with_bm s x.2) ref (update_seqs (has_status RUNNING) (set_status SWAPPED) g)).

Definition _swap_in s (ref : nat) : result (list (nat * nat) * V0Scheduler M) :=
  g ← get_group s ref;
  x ← bs_swap_in (block_manager s) g;
  mapping ← or_raise TypeError x.1;
  Ok (mapping, v0_set_group (v0_with_bm s x.2) ref (update_seqs (has_status SWAPPED) (set_status RUNNING) g)).

Definition preemption_mode (c : SchedulerConfig) (g : SequenceGroup) : PreemptionMode :=
  match sc_preemption_mode c with
  | None => if get_max_num_running_seqs g =? 1 then RECOMPUTE else SWAP
  | Some mode => if decide (mode = "swap"%string) then SWAP else RECOMPUTE
  end.

Definition _preempt s (ref : nat) : result (PreemptionMode * list (nat * nat) * V0Scheduler M) :=
  g ← get_group s ref;
  let mode := preemption_mode (v0_config s) g in
  let s := v0_with_preemption s (num_cumulative_preemption s + 1) in
  match mode with
  | RECOMPUTE => s ← _preempt_by_recompute s ref; Ok (mode, [], s)
  | SWAP => x ← _swap_out s ref; Ok (mode, x.1, x.2)
  end.

(** ** Running groups *)

(** The variables of a scheduling loop: the scheduler, the budget and [curr_loras]. *)
Record loop_vars : Type := mkVars {
  lv_s : V0Scheduler M;
  lv_budget : SchedulingBudget;
  lv_loras : option (gset Z);
}.

Definition ro_decode (ro : SchedulerRunningOutputs) (x : ScheduledSequenceGroup) : SchedulerRunningOutputs :=
  mkRunningOutputs (ro_decode_seq_groups ro ++ [x]) (ro_prefill_seq_groups ro) (ro_preempted ro) (ro_swapped_out ro)
    (ro_blocks_to_swap_out ro) (ro_blocks_to_copy ro) (ro_num_lookahead_slots ro).
Definition ro_prefill (ro : SchedulerRunningOutputs) (x : ScheduledSequenceGroup) : SchedulerRunningOutputs :=
  mkRunningOutputs (ro_decode_seq_groups ro) (ro_prefill_seq_groups ro ++ [x]) (ro_preempted ro) (ro_swapped_out ro)
    (ro_blocks_to_swap_out ro) (ro_blocks_to_copy ro) (ro_num_lookahead_slots ro).
Definition ro_copy (ro : SchedulerRunningOutputs) (l : list (nat * nat)) : SchedulerRunningOutputs :=
  mkRunningOutputs (ro_decode_seq_groups ro) (ro_prefill_seq_groups ro) (ro_preempted ro) (ro_swapped_out ro)
    (ro_blocks_to_swap_out ro) (ro_blocks_to_copy ro ++ l) (ro_num_lookahead_slots ro).
Definition ro_preempt (ro : SchedulerRunningOutputs) (mode : PreemptionMode) (mapping : list (nat * nat)) (victim : nat) :
    SchedulerRunningOutputs :=
  match mode with
  | RECOMPUTE => mkRunningOutputs (ro_decode_seq_groups ro) (ro_prefill_seq_groups ro) (ro_preempted ro ++ [victim]) (ro_swapped_out ro)
      (ro_blocks_to_swap_out ro ++ mapping) (ro_blocks_to_copy ro) (ro_num_lookahead_slots ro)
  | SWAP => mkRunningOutputs (ro_decode_seq_groups ro) (ro_prefill_seq_groups ro) (ro_preempted ro) (ro_swapped_out ro ++ [victim])
      (ro_blocks_to_swap_out ro ++ mapping) (ro_blocks_to_copy ro) (ro_num_lookahead_slots ro)
  end.

Definition empty_running : SchedulerRunningOutputs := mkRunningOutputs [] [] [] [] [] [] 0.
Definition empty_swapped_in : SchedulerSwappedInOutputs := mkSwappedInOutputs [] [] [] [] 0 [].
Definition empty_prefills : SchedulerPrefillOutputs := mkPrefillOutputs [] [] 0.

(** Pending output of the victim is processed first; it may turn out to be finished. *)
Definition settle_victim s (victim : nat) : result (bool * V0Scheduler M) :=
  match output_proc_callback with
  | None => Ok (true, s)
  | Some callback =>
      v ← get_group s victim;
      s ← callback (sg_request_id v) s;
      v ← get_group s victim;
      if sg_is_finished v then s ← _free_finished_seq_group s victim; Ok (false, s) else Ok (true, s)
  end.

(** The inner loop of [_schedule_running]: preempt from the end of the running queue
    until the slots of group [ref] fit (true), or until [ref] itself was preempted. *)
Fixpoint preempt_until_fits (fuel : nat) (ref : nat) (num_running_tokens : Z) (enable_chunking : bool) (v : loop_vars)
    (ro : SchedulerRunningOutputs) : result (bool * loop_vars * SchedulerRunningOutputs) :=
  match fuel with
  | O => Err OutOfFuel
  | S fuel =>
      let s := lv_s v in
      ok ← _can_append_slots s ref enable_chunking;
      if (ok : bool) then Ok (true, v, ro)
      else
        g ← get_group s ref;
        let b := subtract_num_batched_tokens (lv_budget v) (sg_request_id g) num_running_tokens in
        let b := subtract_num_seqs b (sg_request_id g) (get_max_num_running_seqs g) in
        let loras := match lv_loras v with
                     | Some l => Some (if decide (0 < lora_int_id g ∧ lora_int_id g ∈ l) then l ∖ {[lora_int_id g]} else l)
                     | None => None
                     end in
        let '(victim, cont_loop, s) :=
          match last (v0_running s) with
          | Some victim => (victim, true, v0_with_running s (removelast (v0_running s)))
          | None => (ref, false, s)
          end in
        x ← settle_victim s victim;
        y ← (if x.1 : bool then p ← _preempt x.2 victim; Ok (p.2, ro_preempt ro p.1.1 p.1.2 victim) else Ok (x.2, ro));
        let v := mkVars y.1 b loras in
        if (cont_loop : bool) then preempt_until_fits fuel ref num_running_tokens enable_chunking v y.2 else Ok (false, v, y.2)
  end.

(** The [else] branch: group [ref] runs. *)
Definition run_group (ref : nat) (num_running_tokens : Z) (enable_chunking : bool) (v : loop_vars) (ro : SchedulerRunningOutputs) :
    result (loop_vars * SchedulerRunningOutputs) :=
  x ← _append_slots (lv_s v) ref enable_chunking;
  g ← get_group x.2 ref;
  is_prefill ← sg_is_prefill g;
  let ro := ro_copy ro x.1 in
  let ro := if (is_prefill : bool) then ro_prefill ro (mkScheduled ref num_running_tokens) else ro_decode ro (mkScheduled ref 1) in
  b ← add_num_batched_tokens (lv_budget v) (sg_request_id g) num_running_tokens 0;
  let b := if enable_chunking then add_num_seqs b (sg_request_id g) (get_max_num_running_seqs g) else b in
  let loras := match lv_loras v with
               | Some l => Some (if 0 <? lora_int_id g then {[lora_int_id g]} ∪ l else l)
               | None => None
               end in
  Ok (mkVars x.2 b loras, ro).

Definition use_async_output_proc : bool := match output_proc_callback with Some _ => true | None => false end.

Fixpoint running_loop (fuel : nat) (enable_chunking : bool) (v : loop_vars) (ro : SchedulerRunningOutputs) :
    result (loop_vars * SchedulerRunningOutputs) :=
  match fuel with
  | O => Err OutOfFuel
  | S fuel =>
      let s := lv_s v in
      match v0_running s with
      | [] => Ok (v, ro)
      | ref :: rest =>
          g ← get_group s ref;
          n ← _get_num_new_uncached_and_cached_tokens s g RUNNING enable_chunking (lv_budget v);
          let num_running_tokens := n.1 in
          if num_running_tokens =? 0 then Ok (v, ro)
          else
            let s := v0_with_running s rest in
            q ← first_seq g;
            if use_async_output_proc && (sc_max_model_len (v0_config s) <? seq_get_len q) then
              running_loop fuel enable_chunking
                (mkVars (v0_with_stopped s (_async_stopped s ++ [ref])) (lv_budget v) (lv_loras v)) ro
            else
              x ← preempt_until_fits (S (length rest)) ref num_running_tokens enable_chunking
                    (mkVars s (lv_budget v) (lv_loras v)) ro;
              y ← (if x.1.1 : bool then run_group ref num_running_tokens enable_chunking x.1.2 x.2 else Ok (x.1.2, x.2));
              running_loop fuel enable_chunking y.1 y.2
      end
  end.

Definition _schedule_running (v : loop_vars) (enable_chunking : bool) : result (loop_vars * SchedulerRunningOutputs) :=
  let s := lv_s v in
  let ro := mkRunningOutputs [] [] [] [] [] [] (_get_num_lookahead_slots (v0_config s) false enable_chunking) in
  _ ← py_assert (bool_decide (_async_stopped s = []));
  running_loop (S (length (v0_running s))) enable_chunking v ro.

(** ** Swapped groups *)

(** No adapter slot is left for the LoRA of the group. *)
Definition lora_blocked s (loras : option (gset Z)) (g : SequenceGroup) : result bool :=
  match v0_max_loras s with
  | None => Ok false
  | Some max_loras =>
      l ← or_raise AssertionError loras;
      Ok (bool_decide (0 < lora_int_id g ∧ (lora_int_id g ∉ l) ∧ max_loras <= Z.of_nat (size l)))
  end.

(** [lora_int_id] stays 0 in these loops unless LoRA is enabled. *)
Definition lora_add s (loras : option (gset Z)) (g : SequenceGroup) : option (gset Z) :=
  match v0_max_loras s with
  | None => loras
  | Some _ => (fun l => if 0 <? lora_int_id g then {[lora_int_id g]} ∪ l else l) <$> loras
  end.

Definition ignore_group s (ref : nat) (g : SequenceGroup) (p : Sequence -> bool) : V0Scheduler M :=
  v0_set_group s ref (update_seqs p (set_status FINISHED_IGNORED) g).

Fixpoint swapped_loop (fuel : nat) (enable_chunking : bool) (v : loop_vars) (so : SchedulerSwappedInOutputs) (leftover : list nat) :
    result (loop_vars * SchedulerSwappedInOutputs * list nat) :=
  match fuel with
  | O => Err OutOfFuel
  | S fuel =>
      let s := lv_s v in
      match v0_swapped s with
      | [] => Ok (v, so, leftover)
      | ref :: rest =>
          g ← get_group s ref;
          is_prefill ← sg_is_prefill g;
          st ← bs_can_swap_in (block_manager s) g (_get_num_lookahead_slots (v0_config s) is_prefill enable_chunking);
          match st with
          | AllocLATER => Ok (v, so, leftover)
          | AllocNEVER =>
              let s := ignore_group (v0_with_swapped s rest) ref g (fun _ => true) in
              swapped_loop fuel enable_chunking (mkVars s (lv_budget v) (lv_loras v))
                (mkSwappedInOutputs (so_decode_seq_groups so) (so_prefill_seq_groups so) (so_blocks_to_swap_in so)
                   (so_blocks_to_copy so) (so_num_lookahead_slots so) (so_infeasible_seq_groups so ++ [ref])) leftover
          | AllocOK =>
              blocked ← lora_blocked s (lv_loras v) g;
              if (blocked : bool) then
                swapped_loop fuel enable_chunking (mkVars (v0_with_swapped s rest) (lv_budget v) (lv_loras v)) so (ref :: leftover)
              else
                let num_new_seqs := get_max_num_running_seqs g in
                n ← _get_num_new_uncached_and_cached_tokens s g SWAPPED enable_chunking (lv_budget v);
                ok ← (if n.1 =? 0 then Ok false else can_schedule (lv_budget v) n.1 num_new_seqs);
                if negb ok then Ok (v, so, leftover)
                else
                  let loras := lora_add s (lv_loras v) g in
                  x ← _swap_in (v0_with_swapped s rest) ref;
                  y ← _append_slots x.2 ref enable_chunking;
                  g ← get_group y.2 ref;
                  is_prefill ← sg_is_prefill g;
                  let so :=
                    mkSwappedInOutputs
                      (if (is_prefill : bool) then so_decode_seq_groups so else so_decode_seq_groups so ++ [mkScheduled ref 1])
                      (if (is_prefill : bool) then so_prefill_seq_groups so ++ [mkScheduled ref (n.1 + n.2)] else so_prefill_seq_groups so)
                      (so_blocks_to_swap_in so ++ x.1) (so_blocks_to_copy so ++ y.1) (so_num_lookahead_slots so)
                      (so_infeasible_seq_groups so) in
                  b ← add_num_batched_tokens (lv_budget v) (sg_request_id g) n.1 n.2;
                  let b := add_num_seqs b (sg_request_id g) num_new_seqs in
                  swapped_loop fuel enable_chunking (mkVars y.2 b loras) so leftover
          end
      end
  end.

Definition _schedule_swapped (v : loop_vars) (enable_chunking : bool) : result (loop_vars * SchedulerSwappedInOutputs) :=
  let s := lv_s v in
  x ← swapped_loop (S (length (v0_swapped s))) enable_chunking v
        (mkSwappedInOutputs [] [] [] [] (_get_num_lookahead_slots (v0_config s) false enable_chunking) []) [];
  let s := lv_s x.1.1 in
  Ok (mkVars (v0_with_swapped s (extendleft x.2 (v0_swapped s))) (lv_budget x.1.1) (lv_loras x.1.1), x.1.2).

(** ** Waiting groups *)

Fixpoint min_arrival s (acc : option Q) (refs : list nat) : result (option Q) :=
  match refs with
  | [] => Ok acc
  | ref :: refs =>
      g ← get_group s ref;
      let t := sg_arrival_time g in
      min_arrival s (Some (match acc with Some a => if Qle_bool a t then a else t | None => t end)) refs
  end.

Definition _passed_delay s : result (bool * V0Scheduler M) :=
  let now := clock (v0_ticks s) in
  let latency := if prev_prompt s then (now - prev_time s)%Q else last_prompt_latency s in
  let s := v0_with_time s now false latency (S (v0_ticks s)) in
  let delay := sc_delay_factor (v0_config s) in
  if negb (Qle_bool delay 0) && negb (bool_decide (v0_waiting s = [])) then
    t ← min_arrival s None (v0_waiting s);
    earliest ← or_raise ValueError t;
    Ok (negb (Qle_bool (now - earliest) (delay * latency)) || bool_decide (v0_running s = []), s)
  else Ok (true, s).

Fixpoint prefill_loop (fuel : nat) (enable_chunking : bool) (v : loop_vars) (po : SchedulerPrefillOutputs) (leftover : list nat) :
    result (loop_vars * SchedulerPrefillOutputs * list nat) :=
  match fuel with
  | O => Err OutOfFuel
  | S fuel =>
      d ← _passed_delay (lv_s v);
      let s := d.2 in
      let c := v0_config s in
      let v := mkVars s (lv_budget v) (lv_loras v) in
      match v0_waiting s with
      | [] => Ok (v, po, leftover)
      | ref :: rest =>
          if negb d.1 then Ok (v, po, leftover)
          else
            g ← get_group s ref;
            let waiting_seqs := get_seqs g WAITING in
            q ← (match waiting_seqs with [q] => Ok q | _ => Err AssertionError end);
            n ← _get_num_new_uncached_and_cached_tokens s g WAITING enable_chunking (lv_budget v);
            let num_new_tokens := n.1 + n.2 in
            _ ← py_assert (enable_chunking || (num_new_tokens =? seq_get_len q));
            prompt_limit ← _get_prompt_limit c g;
            let ignored := mkPrefillOutputs (po_seq_groups po) (po_ignored_seq_groups po ++ [ref]) (po_num_lookahead_slots po) in
            let s' := v0_with_waiting s rest in
            let v_ignored := mkVars (ignore_group s' ref g (has_status WAITING)) (lv_budget v) (lv_loras v) in
            if prompt_limit <? num_new_tokens then prefill_loop fuel enable_chunking v_ignored ignored leftover
            else
              let num_lookahead_slots :=
                if is_multi_step c && enable_chunking then _get_num_lookahead_slots c true enable_chunking else 0 in
              st ← bs_can_allocate (block_manager s) g num_lookahead_slots;
              match st with
              | AllocLATER => Ok (v, po, leftover)
              | AllocNEVER => prefill_loop fuel enable_chunking v_ignored ignored leftover
              | AllocOK =>
                  blocked ← lora_blocked s (lv_loras v) g;
                  if (blocked : bool) then
                    prefill_loop fuel enable_chunking (mkVars s' (lv_budget v) (lv_loras v)) po (ref :: leftover)
                  else if sc_max_num_batched_tokens c <=? bg_num_batched_tokens (lv_budget v) then Ok (v, po, leftover)
                  else
                    let num_new_seqs := get_max_num_running_seqs g in
                    ok ← (if n.1 =? 0 then Ok false else can_schedule (lv_budget v) n.1 num_new_seqs);
                    if negb ok then Ok (v, po, leftover)
                    else
                      let loras := lora_add s (lv_loras v) g in
                      s1 ← _allocate_and_set_running s' ref;
                      s2 ← (if enable_chunking && is_multi_step c then
                              x ← _append_slots s1 ref enable_chunking;
                              _ ← py_assert (bool_decide (x.1 = []));
                              Ok x.2
                            else
                              g1 ← get_group s1 ref;
                              g2 ← init_multi_step_from_lookahead_slots num_lookahead_slots (sc_num_scheduler_steps c)
                                     (is_multi_step c) enable_chunking g1;
                              Ok (v0_set_group s1 ref g2));
                      b ← add_num_batched_tokens (lv_budget v) (sg_request_id g) n.1 n.2;
                      let b := add_num_seqs b (sg_request_id g) num_new_seqs in
                      prefill_loop fuel enable_chunking (mkVars s2 b loras)
                        (mkPrefillOutputs (po_seq_groups po ++ [mkScheduled ref num_new_tokens]) (po_ignored_seq_groups po)
                           (po_num_lookahead_slots po)) leftover
              end
      end
  end.

Definition _schedule_prefills (v : loop_vars) (enable_chunking : bool) : result (loop_vars * SchedulerPrefillOutputs) :=
  let s := lv_s v in
  x ← prefill_loop (S (length (v0_waiting s))) enable_chunking v
        (mkPrefillOutputs [] [] (_get_num_lookahead_slots (v0_config s) true enable_chunking)) [];
  let '(v, po, leftover) := x in
  let s := v0_with_waiting (lv_s v) (extendleft leftover (v0_waiting (lv_s v))) in
  let s := match po_seq_groups po with
           | [] => s
           | _ => v0_with_time s (prev_time s) true (last_prompt_latency s) (v0_ticks s)
           end in
  Ok (mkVars s (lv_budget v) (lv_loras v), po).

(** ** Priorities *)

Definition _get_priority (g : SequenceGroup) : Z * Q := (sg_priority g, sg_arrival_time g).

(** Comparison of the tuples. *)
Definition priority_leb (a b : Z * Q) : bool := (a.1 <? b.1) || ((a.1 =? b.1) && Qle_bool a.2 b.2).

Fixpoint groups_of s (refs : list nat) : result (list (nat * SequenceGroup)) :=
  match refs with
  | [] => Ok []
  | ref :: refs => g ← get_group s ref; l ← groups_of s refs; Ok ((ref, g) :: l)
  end.

Definition sort_by_priority s (refs : list nat) : result (list nat) :=
  l ← groups_of s refs;
  Ok (sort_with (fun a b => priority_leb (_get_priority a.2) (_get_priority b.2)) l).*1.

(** [running] is the local, sorted queue; victims go to the front of the waiting queue. *)
Fixpoint force_preemptions (fuel : nat) (ref : nat) (num_new_tokens num_new_seqs : Z) s (b : SchedulingBudget) (running : list nat)
    (count : Z) : result (V0Scheduler M * SchedulingBudget * list nat * Z) :=
  match fuel with
  | O => Err OutOfFuel
  | S fuel =>
      match last running with
      | None => Ok (s, b, running, count)
      | Some victim =>
          gv ← get_group s victim;
          g ← get_group s ref;
          if priority_leb (_get_priority gv) (_get_priority g) then Ok (s, b, running, count)
          else
            st ← bs_can_allocate (block_manager s) g 0;
            fits ← (if (0 <? num_new_tokens) && bool_decide (st = AllocOK) then can_schedule b num_new_tokens num_new_seqs else Ok false);
            if (fits : bool) then Ok (s, b, running, count)
            else
              n ← _get_num_new_uncached_and_cached_tokens s gv RUNNING false b;
              let b := subtract_num_batched_tokens b (sg_request_id gv) n.1 in
              let b := subtract_num_seqs b (sg_request_id gv) (get_max_num_running_seqs gv) in
              p ← _preempt s victim;
              let s := v0_with_waiting p.2 (victim :: v0_waiting p.2) in
              force_preemptions fuel ref num_new_tokens num_new_seqs s b (removelast running) (count + 1)
      end
  end.

Definition _schedule_priority_preemption (v : loop_vars) : result (loop_vars * Z) :=
  let s := lv_s v in
  running ← sort_by_priority s (v0_running s);
  x ← (match v0_waiting s with
       | [] => Ok (s, lv_budget v, running, 0)
       | ref :: rest =>
           g ← get_group s ref;
           n ← _get_num_new_uncached_and_cached_tokens s g WAITING false (lv_budget v);
           y ← force_preemptions (S (length running)) ref n.1 (get_max_num_running_seqs g) (v0_with_waiting s rest) (lv_budget v) running 0;
           let '(s, b, running, count) := y in
           Ok (v0_with_waiting s (ref :: v0_waiting s), b, running, count)
       end);
  let '(s, b, running, count) := x in
  waiting ← sort_by_priority s (v0_waiting s);
  Ok (mkVars (v0_with_queues s waiting running (v0_swapped s)) b (lv_loras v), count).

(** ** A step *)

(** [SchedulerOutputs.__post_init__]; the groups are sorted only when one uses LoRA. *)
Definition lora_key_leb (with_stage : bool) (a b : ScheduledSequenceGroup * SequenceGroup * bool) : bool :=
  let lex := (lora_int_id a.1.2 <? lora_int_id b.1.2) ||
             ((lora_int_id a.1.2 =? lora_int_id b.1.2) && String.leb (sg_request_id a.1.2) (sg_request_id b.1.2)) in
  (* keys start with [not is_prefill()], False first *)
  if with_stage then (a.2 && negb b.2) || (bool_decide (a.2 = b.2) && lex) else lex.

Fixpoint scheduled_groups s (l : list ScheduledSequenceGroup) : result (list (ScheduledSequenceGroup * SequenceGroup * bool)) :=
  match l with
  | [] => Ok []
  | x :: l => g ← get_group s (ssg_seq_group x); p ← sg_is_prefill g; r ← scheduled_groups s l; Ok ((x, g, p) :: r)
  end.

Definition _sort_by_lora_ids s (l : list ScheduledSequenceGroup) (num_prefill : Z) : result (list ScheduledSequenceGroup) :=
  _ ← py_assert ((0 <=? num_prefill) && (num_prefill <=? len l));
  gs ← scheduled_groups s l;
  Ok (sort_with (lora_key_leb ((0 <? num_prefill) && (num_prefill <? len l))) gs).*1.*1.

Definition outputs_post_init s (o : SchedulerOutputs) : result SchedulerOutputs :=
  _ ← py_assert (bool_decide (blocks_to_swap_in o = []) || bool_decide (blocks_to_swap_out o = []));
  gs ← scheduled_groups s (scheduled_seq_groups o);
  l ← (if existsb (fun x => bool_decide (sg_lora_request x.1.2 ≠ None)) gs
       then _sort_by_lora_ids s (scheduled_seq_groups o) (num_prefill_groups o) else Ok (scheduled_seq_groups o));
  Ok (mkSchedulerOutputs l (num_prefill_groups o) (out_num_batched_tokens o) (blocks_to_swap_in o) (blocks_to_swap_out o)
        (blocks_to_copy o) (ignored_seq_groups o) (out_num_lookahead_slots o) (running_queue_size o) (out_preempted o)).

Definition add_running_seqs (ref : nat) (x : V0Scheduler M * SchedulingBudget) : result (V0Scheduler M * SchedulingBudget) :=
  g ← get_group x.1 ref;
  Ok (x.1, add_num_seqs x.2 (sg_request_id g) (get_max_num_running_seqs g)).

Definition running_loras s : result (option (gset Z)) :=
  match v0_max_loras s with
  | None => Ok None
  | Some _ =>
      gs ← groups_of s (v0_running s);
      Ok (Some (list_to_set (filter (fun i => 0 < i) ((fun x => lora_int_id x.2) <$> gs))))
  end.

Definition refs_of (l : list ScheduledSequenceGroup) : list nat := ssg_seq_group <$> l.

Definition _schedule_default s : result (SchedulerOutputs * V0Scheduler M) :=
  let c := v0_config s in
  x ← for_each add_running_seqs (v0_running s) (s, new_budget (sc_max_num_batched_tokens c) (sc_max_num_seqs c));
  loras ← running_loras s;
  let v := mkVars s x.2 loras in
  x ← (match v0_swapped s with [] => _schedule_prefills v false | _ => Ok (v, empty_prefills) end);
  let '(v, prefills) := x in
  let none := bool_decide (po_seq_groups prefills = []) in
  v ← (if none && bool_decide (sc_policy c = "priority"%string) then x ← _schedule_priority_preemption v; Ok x.1 else Ok v);
  x ← (if none then _schedule_running v false else Ok (v, empty_running));
  let '(v, running) := x in
  x ← (if none && bool_decide (ro_preempted running = []) && bool_decide (ro_swapped_out running = [])
       then _schedule_swapped v false else Ok (v, empty_swapped_in));
  let '(v, swapped_in) := x in
  let b := lv_budget v in
  let s := lv_s v in
  _ ← py_assert (bg_num_batched_tokens b <=? sc_max_num_batched_tokens c);
  _ ← py_assert (bg_num_curr_seqs b <=? sc_max_num_seqs c);
  let s := v0_with_queues s (extendleft (ro_preempted running) (v0_waiting s))
             (v0_running s ++ refs_of (po_seq_groups prefills) ++ refs_of (ro_decode_seq_groups running) ++
              refs_of (so_decode_seq_groups swapped_in))
             (v0_swapped s ++ ro_swapped_out running) in
  _ ← py_assert (bool_decide (ro_prefill_seq_groups running = []));
  _ ← py_assert (bool_decide (so_prefill_seq_groups swapped_in = []));
  o ← outputs_post_init s
    (mkSchedulerOutputs (po_seq_groups prefills ++ ro_decode_seq_groups running ++ so_decode_seq_groups swapped_in)
       (len (po_seq_groups prefills)) (bg_num_batched_tokens b + bg_num_cached_tokens b)
       (so_blocks_to_swap_in swapped_in) (ro_blocks_to_swap_out running)
       (ro_blocks_to_copy running ++ so_blocks_to_copy swapped_in)
       (po_ignored_seq_groups prefills ++ so_infeasible_seq_groups swapped_in)
       (ro_num_lookahead_slots running) (len (v0_running s))
       (len (ro_preempted running) + len (ro_swapped_out running)));
  Ok (o, s).

Definition _schedule_chunked_prefill s : result (SchedulerOutputs * V0Scheduler M) :=
  let c := v0_config s in
  x ← _schedule_running (mkVars s (new_budget (sc_max_num_batched_tokens c) (sc_max_num_seqs c)) (Some ∅)) true;
  let '(v, running) := x in
  x ← (if bool_decide (ro_preempted running = []) && bool_decide (ro_swapped_out running = [])
       then _schedule_swapped v false else Ok (v, empty_swapped_in));
  let '(v, swapped_in) := x in
  x ← _schedule_prefills v true;
  let '(v, prefills) := x in
  let b := lv_budget v in
  let s := lv_s v in
  _ ← py_assert (bg_num_batched_tokens b <=? sc_max_num_batched_tokens c);
  _ ← py_assert (bg_num_curr_seqs b <=? sc_max_num_seqs c);
  let s := v0_with_queues s (extendleft (ro_preempted running) (v0_waiting s))
             (v0_running s ++ refs_of (so_decode_seq_groups swapped_in) ++ refs_of (so_prefill_seq_groups swapped_in) ++
              refs_of (ro_decode_seq_groups running) ++ refs_of (ro_prefill_seq_groups running) ++ refs_of (po_seq_groups prefills))
             (v0_swapped s ++ ro_swapped_out running) in
  let scheduled := po_seq_groups prefills ++ ro_prefill_seq_groups running ++ so_prefill_seq_groups swapped_in ++
                   ro_decode_seq_groups running ++ so_decode_seq_groups swapped_in in
  let num_prefill := len (po_seq_groups prefills) + len (so_prefill_seq_groups swapped_in) + len (ro_prefill_seq_groups running) in
  let all_prefills := len scheduled =? num_prefill in
  o ← outputs_post_init s
    (mkSchedulerOutputs scheduled num_prefill (bg_num_batched_tokens b + bg_num_cached_tokens b)
       (so_blocks_to_swap_in swapped_in) (ro_blocks_to_swap_out running)
       (ro_blocks_to_copy running ++ so_blocks_to_copy swapped_in)
       (po_ignored_seq_groups prefills ++ so_infeasible_seq_groups swapped_in)
       (if all_prefills && negb (is_multi_step c) then 0 else ro_num_lookahead_slots running) (len (v0_running s))
       (len (ro_preempted running) + len (ro_swapped_out running)));
  Ok (o, s).

Definition _schedule s : result (SchedulerOutputs * V0Scheduler M) :=
  if sc_chunked_prefill_enabled (v0_config s) then _schedule_chunked_prefill s else _schedule_default s.

(** The block tables of the running sequences of a group. *)
Fixpoint seq_tables (m : M) (now : Q) (seqs : list Sequence) : result (list (Z * option (list nat)) * M) :=
  match seqs with
  | [] => Ok ([], m)
  | q :: seqs =>
      t ← bs_get_block_table m q;
      m ← bs_access_all_blocks_in_seq m q now;
      x ← seq_tables m now seqs;
      Ok ((seq_id q, t) :: x.1, x.2)
  end.

Definition group_metadata (now : Q) s (x : ScheduledSequenceGroup) : result (SequenceGroupMetadata * V0Scheduler M) :=
  g ← get_group s (ssg_seq_group x);
  cross ← (if is_encoder_decoder g then t ← bs_get_cross_block_table (block_manager s) g; Ok (Some t) else Ok None);
  let seqs := get_seqs g RUNNING in
  y ← seq_tables (block_manager s) now seqs;
  let s := v0_with_bm s y.2 in
  computed ← (if cc_enable_prefix_caching (v0_cache_config s)
              then bs_get_common_computed_block_ids (block_manager s) seqs else Ok []);
  is_prompt ← sg_is_prefill g;
  z ← (if (is_prompt : bool) then
         q ← (match sg_seqs g with [q] => Ok q | _ => Err AssertionError end);
         let n := seq_num_computed_tokens q in
         Ok (n =? 0, negb (token_chunk_size x + n <? seq_get_len q))
       else Ok (false, true));
  Ok (mkMetadata (sg_request_id g) is_prompt ((fun q => (seq_id q, seq_token_ids q)) <$> seqs) y.1 z.2 (token_chunk_size x) computed
        cross (negb (z.1 || negb (sc_send_delta_data (v0_config s)))), s).

Fixpoint metadata_list (now : Q) s (l : list ScheduledSequenceGroup) : result (list SequenceGroupMetadata * V0Scheduler M) :=
  match l with
  | [] => Ok ([], s)
  | x :: l => y ← group_metadata now s x; z ← metadata_list now y.2 l; Ok (y.1 :: z.1, z.2)
  end.

Definition mark_computed (x : ScheduledSequenceGroup) s : result (V0Scheduler M) :=
  g ← get_group s (ssg_seq_group x);
  m ← bs_mark_blocks_as_computed (block_manager s) g (token_chunk_size x);
  Ok (v0_with_bm s m).

Definition _allow_async_output_proc (g : SequenceGroup) : bool := match sg_sampling_params g with None => true | Some p => sp_n p =? 1 end.

Definition v0_schedule s : result (list SequenceGroupMetadata * SchedulerOutputs * bool * V0Scheduler M) :=
  x ← _schedule s;
  let '(o, s) := x in
  let now := clock (v0_ticks s) in
  let s := v0_with_time s (prev_time s) (prev_prompt s) (last_prompt_latency s) (S (v0_ticks s)) in
  gs ← scheduled_groups s (scheduled_seq_groups o);
  let async := use_async_output_proc && forallb (fun x => _allow_async_output_proc x.1.2) gs in
  y ← metadata_list now s (scheduled_seq_groups o);
  s ← for_each mark_computed (scheduled_seq_groups o) y.2;
  Ok (y.1, o, async, s).

(** ** Requests come and go *)

Definition add_seq_group s (ref : nat) : V0Scheduler M := v0_with_waiting s (v0_waiting s ++ [ref]).

Fixpoint collect_aborted s (ids : gset string) (queue : list nat) : result (list nat * gset string) :=
  match queue with
  | [] => Ok ([], ids)
  | ref :: queue =>
      if decide (ids = ∅) then Ok ([], ids)
      else
        g ← get_group s ref;
        if decide (sg_request_id g ∈ ids) then
          x ← collect_aborted s (ids ∖ {[sg_request_id g]}) queue; Ok (ref :: x.1, x.2)
        else collect_aborted s ids queue
  end.

Definition abort_group (ref : nat) s : result (V0Scheduler M) :=
  g ← get_group s ref;
  let s := v0_with_finished s (v0_finished_requests_ids s ++ [sg_request_id g]) in
  s ← for_each (fun q s => free_seq s q) (filter (fun q => seq_is_finished q = false) (sg_seqs g)) s;
  let s := v0_set_group s ref (update_seqs (fun q => negb (seq_is_finished q)) (set_status FINISHED_ABORTED) g) in
  _free_seq_group_cross_attn_blocks s g.

Definition abort_seq_group s (request_ids : gset string) : result (V0Scheduler M) :=
  x ← collect_aborted s request_ids (v0_waiting s);
  s ← for_each (fun ref s => abort_group ref (v0_with_waiting s (remove_first ref (v0_waiting s)))) x.1 s;
  y ← collect_aborted s x.2 (v0_running s);
  s ← for_each (fun ref s => abort_group ref (v0_with_running s (remove_first ref (v0_running s)))) y.1 s;
  z ← collect_aborted s y.2 (v0_swapped s);
  for_each (fun ref s => abort_group ref (v0_with_swapped s (remove_first ref (v0_swapped s)))) z.1 s.

Fixpoint free_running (s : V0Scheduler M) (queue : list nat) : result (list nat * V0Scheduler M) :=
  match queue with
  | [] => Ok ([], s)
  | ref :: queue =>
      s ← _free_finished_seq_group s ref;
      g ← get_group s ref;
      x ← free_running s queue;
      Ok (if sg_is_finished g then x.1 else ref :: x.1, x.2)
  end.

Definition free_stopped (ref : nat) s : result (V0Scheduler M) :=
  g ← get_group s ref;
  s ← _free_seq_group_cross_attn_blocks s g;
  _free_finished_seqs (v0_with_finished s (v0_finished_requests_ids s ++ [sg_request_id g])) g.

Definition free_finished_seq_groups s : result (V0Scheduler M) :=
  x ← free_running s (v0_running s);
  let s := v0_with_running x.2 x.1 in
  s ← for_each free_stopped (_async_stopped s) s;
  Ok (v0_with_stopped s []).

Definition has_unfinished_seqs s : bool :=
  negb (len (v0_waiting s) =? 0) || negb (len (v0_running s) =? 0) || negb (len (v0_swapped s) =? 0).
Definition get_num_unfinished_seq_groups s : Z := len (v0_waiting s) + len (v0_running s) + len (v0_swapped s).
Definition get_and_reset_finished_requests_ids s : list string * V0Scheduler M :=
  (v0_finished_requests_ids s, v0_with_finished s []).
End scheduler.

(** [Scheduler.__init__] with a block manager *)
Definition v0_init {M} (c : SchedulerConfig) (cc : V0CacheConfig) (max_loras : option Z) (m : M) : V0Scheduler M :=
  mkV0 c cc max_loras m ∅ [] [] [] [] 0 false 0 0 [] 0.
