(* ===== verification/V0Engine.v ===== *)
(** * The step of the previous engine

    [LLMEngine.step] (engine/llm_engine.py) with synchronous, single-step output
    processing: schedule, execute, apply the sampled tokens
    ([SingleStepOutputProcessor]), stop sequences ([StopChecker]) and free what
    finished.  The model is a function from the batch to one sample per group; a sample
    is the token and whether the new text completes a stop string (what
    [check_stop_strings] finds in the text, see [Detokenizer]).

    The runner type of the model configuration is that of the scheduler configuration,
    which engine/arg_utils.py builds from it. *)

From stdpp Require Import base tactics list gmap sets strings.
From Stdlib Require Import ZArith QArith Lia.
From S2P Require Import Prelude.
From S2P Require Import SamplingParams.
From S2P Require Import V0Sequence.
From S2P Require Import NaiveBlocks.
From S2P Require Import BlockManager.
From S2P Require Import V0Interface.
From S2P Require Import V0Scheduler.

Local Open Scope Z_scope.

Record Sample : Type := mkSample {
  output_token : Z;
  stop_string_found : bool;
}.

(** [StopChecker._get_max_model_len] *)
Definition stop_max_model_len (max_model_len : Z) (g : SequenceGroup) : Z :=
  match (r ← sg_lora_request g; long_lora_max_len r) with
  | Some n => if n =? 0 then max_model_len else n
  | None => max_model_len
  end.

(** [StopChecker.maybe_stop_sequence]: the new status of the sequence. *)
Definition maybe_stop_sequence (max_model_len : Z) (p : SamplingParams) (stop_string : bool) (q : Sequence) : result Sequence :=
  if get_output_len q <? min_tokens p then Ok q
  else
    t ← get_last_token_id q;
    if negb (ignore_eos p) && bool_decide (seq_eos_token_id q = Some t) then Ok (set_status FINISHED_STOPPED q)
    else if bool_decide (t ∈ default [] (stop_token_ids p)) then Ok (set_status FINISHED_STOPPED q)
    else if stop_string then Ok (set_status FINISHED_STOPPED q)
    else if max_model_len <? seq_get_len q then Ok (set_status FINISHED_LENGTH_CAPPED q)
    else if bool_decide (sp_max_tokens p = Some (get_output_len q)) then Ok (set_status FINISHED_LENGTH_CAPPED q)
    else Ok q.

Definition is_empty (o : SchedulerOutputs) : bool :=
  bool_decide (scheduled_seq_groups o = []) && bool_decide (blocks_to_swap_in o = []) &&
  bool_decide (blocks_to_swap_out o = []) && bool_decide (blocks_to_copy o = []).

Section engine.
Context {M : Type} `{!BlockSpaceOps M}.
Context (clock : nat -> Q).
Context (execute_model : list SequenceGroupMetadata -> list Sample).
Implicit Types s : V0Scheduler M.

(** [SingleStepOutputProcessor._process_sequence_group_outputs] *)
Definition sample_group (ref : nat) (o : Sample) s : result (V0Scheduler M) :=
  g ← get_group s ref;
  p ← or_raise AttributeError (sg_sampling_params g);
  q ← first_seq g;
  q' ← maybe_stop_sequence (stop_max_model_len (sc_max_model_len (v0_config s)) g) p (stop_string_found o)
         (append_token_id (output_token o) q);
  let s := v0_set_group s ref (sg_with_seqs g (q' :: tail (sg_seqs g))) in
  if seq_is_finished q' then free_seq s q' else Ok s.

(** One round of the loop of [_process_model_outputs]; true if the group finished. *)
Definition process_group (md : SequenceGroupMetadata) (ref : nat) (o : option Sample) s : result (bool * V0Scheduler M) :=
  g ← get_group s ref;
  if sg_is_finished g then Ok (false, s)
  else
    o ← or_raise IndexError o;
    g' ← sg_update_num_computed_tokens (md_token_chunk_size md) g;
    let s := v0_set_group s ref g' in
    s ← (if sc_is_pooling (v0_config s) then Ok (v0_set_group s ref (update_seqs (fun _ => true) (set_status FINISHED_STOPPED) g'))
         else if md_do_sample md then sample_group ref o s else Ok s);
    g ← get_group s ref;
    Ok (sg_is_finished g, s).

Fixpoint process_groups (mds : list SequenceGroupMetadata) (refs : list nat) (os : list Sample) s : result (bool * V0Scheduler M) :=
  match mds, refs with
  | md :: mds, ref :: refs =>
      x ← process_group md ref (head os) s;
      y ← process_groups mds refs (tail os) x.2;
      Ok (x.1 || y.1, y.2)
  | [], [] => Ok (false, s)
  | _, _ => Err AssertionError
  end.

(** [LLMEngine.step]; the finished ids are handed to the worker with the batch. *)
Definition v0_step s : result (SchedulerOutputs * V0Scheduler M) :=
  x ← v0_schedule clock None s;
  let '(mds, o, _, s) := x in
  let s := (get_and_reset_finished_requests_ids s).2 in
  let samples := if is_empty o then [] else execute_model mds in
  y ← process_groups mds (refs_of (scheduled_seq_groups o)) samples s;
  s ← (if y.1 : bool then free_finished_seq_groups y.2 else Ok y.2);
  Ok (o, s).
End engine.
