(* ===== verification/V0Contract.v ===== *)
(** * What the scheduler relies on in a block manager

    [BlockSpaceSpec] is the contract between the v0 scheduler and a block manager, for
    groups of one sequence and without swapping: [bs_inv m A C] says that manager [m]
    stores the tokens [A] of the sequences, and has cross-attention tables for the
    requests [C].  Checks answer, and a positive answer means that the guarded call
    returns.  Both managers of the program satisfy it. *)

From stdpp Require Import base tactics list gmap sets strings.
From Stdlib Require Import ZArith QArith Lia.
From S2P Require Import Prelude.
From S2P Require Import V0Sequence.
From S2P Require Import NaiveBlocks.
From S2P Require Import BlockStore.
From S2P Require Import BlockManager.
From S2P Require Import BlockTables.
From S2P Require Import BlockAppend.
From S2P Require Import BlockCreate.
From S2P Require Import BlockMove.
From S2P Require Import BlockSpaceInv.
From S2P Require Import BlockSpaceOps.
From S2P Require Import BlockSpaceTheorems.
From S2P Require Import V0Interface.

Local Open Scope Z_scope.

Class BlockSpaceSpec (M : Type) `{!BlockSpaceOps M} : Type := {
  bs_inv : M -> gmap Z (list Z) -> gset string -> Prop;
  (* whether encoder-decoder groups are supported *)
  bs_encdec : bool;
  (* the sizes of the manager, which no operation changes and on which alone the answer
     NEVER depends *)
  bs_shape : M -> list Z;
  bs_allocate_shape m g m' : bs_allocate m g = Ok m' -> bs_shape m' = bs_shape m;
  bs_append_shape m q n copies m' : bs_append_slots m q n = Ok (copies, m') -> bs_shape m' = bs_shape m;
  bs_free_shape m q m' : bs_free m q = Ok m' -> bs_shape m' = bs_shape m;
  bs_free_cross_shape m g m' : bs_free_cross m g = Ok m' -> bs_shape m' = bs_shape m;
  bs_never_ok m A C m' A' C' g q n :
    bs_inv m A C -> bs_inv m' A' C' -> bs_shape m' = bs_shape m -> sg_seqs g = [q] -> seq_status q = WAITING ->
    bs_can_allocate m g n = Ok AllocNEVER -> bs_can_allocate m' g n = Ok AllocNEVER;
  bs_allocate_ok m A C g q n :
    bs_inv m A C -> sg_seqs g = [q] -> seq_status q = WAITING -> seq_token_ids q ≠ [] -> A !! seq_id q = None ->
    sg_request_id g ∉ C -> (is_encoder_decoder g = true -> bs_encdec = true) -> 0 <= n ->
    ∃ st, bs_can_allocate m g n = Ok st ∧
      (st = AllocOK -> ∃ m', bs_allocate m g = Ok m' ∧
        bs_inv m' (<[seq_id q := seq_token_ids q]> A) (if is_encoder_decoder g then {[sg_request_id g]} ∪ C else C));
  bs_append_ok m A C g q n ts :
    bs_inv m A C -> sg_seqs g = [q] -> seq_status q = RUNNING -> A !! seq_id q = Some ts -> ts ≠ [] ->
    ts `prefix_of` seq_token_ids q -> 0 <= n ->
    ∃ ok, bs_can_append_slots m g n = Ok ok ∧
      (ok = true -> ∃ copies m', bs_append_slots m q n = Ok (copies, m') ∧ bs_inv m' (<[seq_id q := seq_token_ids q]> A) C);
  bs_free_ok m A C q : bs_inv m A C -> ∃ m', bs_free m q = Ok m' ∧ bs_inv m' (delete (seq_id q) A) C;
  bs_free_cross_ok m A C g : bs_inv m A C -> bs_encdec = true ->
    ∃ m', bs_free_cross m g = Ok m' ∧ bs_inv m' A (C ∖ {[sg_request_id g]});
  bs_table_ok m A C q : bs_inv m A C -> is_Some (A !! seq_id q) -> ∃ t, bs_get_block_table m q = Ok t;
  bs_cross_table_ok m A C g : bs_inv m A C -> sg_request_id g ∈ C -> bs_encdec = true -> ∃ t, bs_get_cross_block_table m g = Ok t;
  bs_access_ok m A C q now : bs_inv m A C -> ∃ m', bs_access_all_blocks_in_seq m q now = Ok m' ∧ bs_inv m' A C;
  bs_mark_ok m A C g n : bs_inv m A C -> ∃ m', bs_mark_blocks_as_computed m g n = Ok m' ∧ bs_inv m' A C;
}.

(** ** The manager of paged attention *)

(** Nothing is swapped out. *)
Record gpu_inv (m : BlockSpaceManager) (A : gmap Z (list Z)) (C : gset string) : Prop := {
  gi_inv : manager_inv m A;
  gi_gpu : ∀ id t, block_tables m !! id = Some t -> on (block_allocator m) GPU t;
  gi_cross : C = dom (cross_block_tables m);
}.

Lemma gpu_absent m A C id : gpu_inv m A C -> A !! id = None -> block_tables m !! id = None.
Proof.
  intros [Hm _ _] HA. destruct (block_tables m !! id) as [t|] eqn:Ht; [|done].
  destruct (ci_tables _ _ (mi_core _ _ Hm) id t Ht) as (ts & ? & _). congruence.
Qed.

Lemma gpu_present m A C id ts : gpu_inv m A C -> A !! id = Some ts ->
  ∃ t, block_tables m !! id = Some t ∧ on (block_allocator m) GPU t ∧ (ts ≠ [] -> slots t ≠ []).
Proof.
  intros [Hm Hon _] HA. destruct (ci_dom _ _ (mi_core _ _ Hm) id) as [t Ht]; [eauto|]. exists t. split; [done|]. split; [by eapply Hon|].
  intros Hne Hsl. destruct (ci_tables _ _ (mi_core _ _ Hm) id t Ht) as (ts' & HA' & Hok). rewrite HA in HA'. injection HA' as <-.
  pose proof (hd_fit _ _ _ (tk_holds _ _ _ Hok)) as Hfit. rewrite Hsl in Hfit. destruct ts; cbn in Hfit; [done|lia].
Qed.

(** With nothing stored, all blocks of the GPU are free. *)
Lemma gpu_inv_empty m : gpu_inv m ∅ ∅ ->
  cg_get_num_free_blocks (block_allocator m) GPU = cg_get_num_total_blocks (block_allocator m) GPU.
Proof.
  intros Hg. pose proof Hg as [[Hcore _] _ HC]. pose proof (ci_store _ _ Hcore) as Hst.
  assert (Ht : block_tables m = ∅) by (apply map_empty; intros id; by apply (gpu_absent m ∅ ∅ id Hg)).
  assert (Hx : cross_block_tables m = ∅) by (by apply dom_empty_iff_L).
  unfold tabs in Hst. rewrite Ht, Hx in Hst. destruct (sv_dev _ _ _ Hst GPU) as [Hnd Hfree _].
  unfold cg_get_num_free_blocks, cg_get_num_total_blocks, na_get_num_free_blocks, na_get_num_total_blocks. f_equal.
  rewrite <-(size_list_to_set (C := gset nat) _ Hnd). f_equal. apply set_eq. intros x. rewrite elem_of_list_to_set, Hfree. split; [by intros [? _]|].
  intros Hin. split; [done|]. by apply not_elem_of_nil.
Qed.

Lemma get_seqs_single g q st : sg_seqs g = [q] -> seq_status q = st -> get_seqs g st = [q].
Proof. intros Hg Hq. unfold get_seqs. rewrite Hg, decide_True; done. Qed.

Lemma can_allocate_total m A C g q n : gpu_inv m A C -> get_seqs g WAITING = [q] -> ∃ st, can_allocate m g n = Ok st.
Proof.
  intros [Hm _ _] Hq. unfold can_allocate, check_no_caching_or_swa_for_blockmgr_encdec. rewrite (ci_window _ _ (mi_core _ _ Hm)).
  destruct (sg_encoder_seq g); rewrite Hq; cbn [mbind result_bind head or_raise]; eauto.
Qed.

Lemma selfattn_allocate_ok m A C g q n :
  gpu_inv m A C -> sg_seqs g = [q] -> seq_status q = WAITING -> seq_token_ids q ≠ [] -> A !! seq_id q = None ->
  sg_request_id g ∉ C -> 0 <= n ->
  ∃ st, can_allocate m g n = Ok st ∧
    (st = AllocOK -> ∃ m', bm_allocate m g = Ok m' ∧
      gpu_inv m' (<[seq_id q := seq_token_ids q]> A) (if is_encoder_decoder g then {[sg_request_id g]} ∪ C else C)).
Proof.
  intros Hg Hq Hst Hne HA HC Hn. pose proof (get_seqs_single g q _ Hq Hst) as Hs.
  destruct (can_allocate_total m A C g q n Hg Hs) as [st E]. exists st. split; [done|]. intros ->.
  pose proof (gpu_absent _ _ _ _ Hg HA) as Habs. pose proof Hg as [Hm Hon HCd].
  assert (Hp : alloc_pre m g q []).
  { split; [done|apply NoDup_singleton| |by apply not_elem_of_dom; rewrite <-HCd|done].
    intros s Hin%list_elem_of_singleton. by subst s. }
  pose proof (can_allocate_room m A g q [] n Hm Hp Hn E) as Hroom. pose proof (ci_water _ _ (mi_core _ _ Hm)).
  destruct (bm_allocate_spec m A g q [] Hm Hp ltac:(lia)) as (m' & E' & Hm' & _ & _ & (t0 & Ht0 & Hon0 & _) & Hsame & Hc & Hd).
  exists m'. split; [done|]. split; [done| |by rewrite Hd, HCd].
  intros id t Ht. destruct (decide (id = seq_id q)) as [->|Hne']; [rewrite Ht0 in Ht; by injection Ht as <-|].
  rewrite Hsame in Ht by (by intros ?%list_elem_of_singleton). eapply on_cfg; [exact Hc|by eapply Hon].
Qed.

Lemma selfattn_append_ok m A C g q n ts :
  gpu_inv m A C -> sg_seqs g = [q] -> seq_status q = RUNNING -> A !! seq_id q = Some ts -> ts ≠ [] ->
  ts `prefix_of` seq_token_ids q -> 0 <= n ->
  ∃ ok, can_append_slots m g n = Ok ok ∧
    (ok = true -> ∃ copies m', append_slots m q n = Ok (copies, m') ∧ gpu_inv m' (<[seq_id q := seq_token_ids q]> A) C).
Proof.
  intros Hg Hq Hst HA Hne [us Hus] Hn. destruct (gpu_present _ _ _ _ _ Hg HA) as (t & Ht & Hon & Hsl). pose proof Hg as [Hm Hall HCd].
  unfold can_append_slots. rewrite (get_seqs_single g q _ Hq Hst). cbn [touched_by_append]. rewrite Ht. cbn [or_raise mbind result_bind].
  rewrite (runs_unseen m A q t ts us Hm Ht HA Hus). eexists. split; [reflexivity|]. intros Hle%Z.leb_le. rewrite Z.add_0_r in Hle.
  destruct (append_slots_spec m A q n t ts us Hm Ht HA Hus Hon (Hsl Hne) Hn Hle) as (ps & m' & c' & t' & new & w & E & Hm' & Em' & Hat & _).
  exists ps, m'. split; [done|]. split; [done| |by rewrite Em'].
  assert (Hc : same_cfg c' (cg_clear_copy_on_writes c').2) by (by apply with_alloc_cfg).
  intros id u Hu. rewrite Em' in Hu |- *. cbn [bm_with block_tables block_allocator] in Hu |- *.
  destruct (decide (id = seq_id q)) as [->|Hne'].
  - rewrite lookup_insert_eq in Hu. injection Hu as <-. eapply on_cfg; [exact Hc|]. apply (tp_on _ _ _ _ _ _ (at_step _ _ _ _ _ _ _ _ _ _ Hat)).
  - rewrite lookup_insert_ne in Hu by done. eapply on_cfg; [exact Hc|]. eapply on_cfg; [|by eapply Hall].
    apply (tp_cfg _ _ _ _ _ _ (at_step _ _ _ _ _ _ _ _ _ _ Hat)).
Qed.

Lemma selfattn_free_ok m A C q : gpu_inv m A C -> ∃ m', bm_free m q = Ok m' ∧ gpu_inv m' (delete (seq_id q) A) C.
Proof.
  intros [Hm Hon HC]. destruct (bm_free_spec m A q Hm) as (m' & E & Hm' & Et & Ex & Hc); [by intros t; apply Hon|].
  exists m'. split; [done|]. split; [done| |by rewrite Ex]. intros id t Ht. rewrite Et in Ht. apply lookup_delete_Some in Ht as [_ Ht].
  eapply on_cfg; [exact Hc|by eapply Hon].
Qed.

Lemma selfattn_free_cross_ok m A C g : gpu_inv m A C -> ∃ m', free_cross m g = Ok m' ∧ gpu_inv m' A (C ∖ {[sg_request_id g]}).
Proof.
  intros [Hm Hon HC]. destruct (free_cross_spec m A g Hm) as (m' & E & Hm' & Et & Ex & Hc). exists m'. split; [done|]. split; [done| |].
  - intros id t Ht. rewrite Et in Ht. eapply on_cfg; [exact Hc|by eapply Hon].
  - by rewrite Ex, dom_delete_L, HC.
Qed.

(** Block size, number of blocks and watermark. *)
Definition bm_shape (m : BlockSpaceManager) : list Z := [bm_block_size m; bm_num_total_gpu_blocks m; bm_watermark_blocks m].

Lemma add_seq_shape m id m' : add_seq m id = Ok m' -> bm_shape m' = bm_shape m.
Proof. unfold add_seq. intros (? & _ & H)%bind_Ok_inv. by apply Ok_inj in H as <-. Qed.

Lemma fork_seqs_shape t l : ∀ m m', for_each (fork_seq t) l m = Ok m' -> bm_shape m' = bm_shape m.
Proof.
  induction l as [|s l IH]; intros m m'; cbn [for_each]; [by intros H; apply Ok_inj in H as <-|].
  intros (m1 & H1 & H)%bind_Ok_inv. rewrite (IH _ _ H). unfold fork_seq in H1. apply bind_Ok_inv in H1 as (x & _ & H1).
  by rewrite (add_seq_shape _ _ _ H1).
Qed.

Lemma bm_allocate_shape m g m' : bm_allocate m g = Ok m' -> bm_shape m' = bm_shape m.
Proof.
  unfold bm_allocate. intros (u & _ & H)%bind_Ok_inv. apply bind_Ok_inv in H as (s & _ & H). apply bind_Ok_inv in H as (y0 & _ & H).
  apply bind_Ok_inv in H as (m1 & H1 & H). apply bind_Ok_inv in H as (m2 & H2 & H). apply bind_Ok_inv in H as (? & _ & H). apply bind_Ok_inv in H as (? & _ & H).
  transitivity (bm_shape m2); [|by rewrite (fork_seqs_shape _ _ _ _ H2), (add_seq_shape _ _ _ H1)].
  destruct (sg_encoder_seq g); [apply bind_Ok_inv in H as (y & _ & H)|]; by apply Ok_inj in H as <-.
Qed.

Lemma append_slots_shape m q n copies m' : append_slots m q n = Ok (copies, m') -> bm_shape m' = bm_shape m.
Proof.
  unfold append_slots. intros (t & _ & H)%bind_Ok_inv. apply bind_Ok_inv in H as (x & _ & H). by apply Ok_inj in H as [= _ <-].
Qed.

Lemma bm_free_shape m q m' : bm_free m q = Ok m' -> bm_shape m' = bm_shape m.
Proof.
  unfold bm_free, remove_seq. destruct (block_tables m !! seq_id q); [|by intros H; apply Ok_inj in H as <-].
  intros (? & _ & H)%bind_Ok_inv. apply bind_Ok_inv in H as (m1 & H1 & H). apply bind_Ok_inv in H1 as (? & _ & H1). apply Ok_inj in H1 as <-.
  apply bind_Ok_inv in H as (c & _ & H). by apply Ok_inj in H as <-.
Qed.

Lemma free_cross_shape m g m' : free_cross m g = Ok m' -> bm_shape m' = bm_shape m.
Proof.
  unfold free_cross. destruct (cross_block_tables m !! _); [|by intros H; apply Ok_inj in H as <-].
  intros (c & _ & H)%bind_Ok_inv. by apply Ok_inj in H as <-.
Qed.

(** NEVER: the pool is too small for the prompt, whatever is free. *)
Lemma can_allocate_never m A C g q n : gpu_inv m A C -> sg_seqs g = [q] -> seq_status q = WAITING ->
  can_allocate m g n = Ok AllocNEVER <->
  bm_num_total_gpu_blocks m - (get_num_required_blocks (seq_token_ids q) (bm_block_size m) n +
    match sg_encoder_seq g with Some e => get_num_required_blocks (seq_token_ids e) (bm_block_size m) 0 | None => 0 end) < bm_watermark_blocks m.
Proof.
  intros [Hm _ _] Hq Hst. unfold can_allocate, check_no_caching_or_swa_for_blockmgr_encdec.
  rewrite (ci_window _ _ (mi_core _ _ Hm)), (get_seqs_single g q _ Hq Hst).
  destruct (sg_encoder_seq g); cbn [mbind result_bind head or_raise]; rewrite ?Z.add_0_r;
    (match goal with |- context [?x <? bm_watermark_blocks m] => destruct (Z.ltb_spec x (bm_watermark_blocks m)) end; [done|]; case_match; split; [done|lia|done|lia]).
Qed.

#[export] Instance SelfAttnBlockSpaceManager_spec : BlockSpaceSpec BlockSpaceManager.
Proof.
  refine {| bs_inv := gpu_inv; bs_encdec := true; bs_shape := bm_shape |}.
  - exact bm_allocate_shape.
  - exact append_slots_shape.
  - exact bm_free_shape.
  - exact free_cross_shape.
  - intros m A C m' A' C' g q n Hg Hg' Es H1 H2 H3. apply (can_allocate_never m' A' C' g q n Hg' H1 H2).
    apply (can_allocate_never m A C g q n Hg H1 H2) in H3. unfold bm_shape in Es. injection Es as -> -> ->. done.
  - intros m A C g q n Hg H1 H2 H3 H4 H5 _ H6. by apply selfattn_allocate_ok.
  - intros m A C g q n ts. by apply selfattn_append_ok.
  - intros m A C q. by apply selfattn_free_ok.
  - intros m A C g Hg _. by apply selfattn_free_cross_ok.
  - intros m A C q Hg [ts HA]. destruct (gpu_present _ _ _ _ _ Hg HA) as (t & Ht & _).
    exists (Some (bt_block_ids t)). cbn. unfold get_block_table. by rewrite Ht.
  - intros m A C g [_ _ ->] [t Ht]%elem_of_dom _. exists (bt_block_ids t). cbn. unfold get_cross_block_table. by rewrite Ht.
  - intros m A C q now Hg. by exists m.
  - intros m A C g n Hg. by exists m.
Defined.

(** ** The placeholder *)

#[export] Instance PlaceholderBlockSpaceManager_spec : BlockSpaceSpec PlaceholderBlockSpaceManager.
Proof.
  refine {| bs_inv := fun _ _ _ => True; bs_encdec := false; bs_shape := fun _ => [] |}.
  - done.
  - done.
  - done.
  - done.
  - done.
  - intros m A C g q n _ _ _ _ _ _ _ _. exists AllocOK. split; [done|]. intros _. by exists m.
  - intros m A C g q n ts _ _ _ _ _ _ _. exists true. split; [done|]. intros _. by exists [], m.
  - intros m A C q _. by exists m.
  - done.
  - intros m A C q _ _. by exists None.
  - done.
  - intros m A C q now _. by exists m.
  - intros m A C g n _. by exists m.
Defined.
