(* ===== verification/V0SchedInv.v ===== *)
(** * The invariant of the v0 scheduler

    [mid key m gs A C W R T F]: in the middle of a step, the live groups are those in
    [W] (waiting), [R] (running, not scheduled in this step), [T] (scheduled, with their
    tokens stored) and [F] (finished, not yet released); the block manager [m] stores
    tokens for those in [R], [T] and [F] only.  Groups have one sequence; [key] gives
    the request and sequence id of each. *)

From stdpp Require Import base tactics list gmap sets strings.
From Stdlib Require Import ZArith QArith Lia.
From S2P Require Import Prelude.
From S2P Require Import SamplingParams.
From S2P Require Import V0Sequence.
From S2P Require Import NaiveBlocks.
From S2P Require Import BlockManager.
From S2P Require Import V0Interface.
From S2P Require Import V0Contract.
From S2P Require Import V0Scheduler.

Local Open Scope Z_scope.

(** ** Groups *)

(** The configurations covered: single-step, no prefix caching, preemption by
    recomputation. *)
Record config_ok (c : SchedulerConfig) (cc : V0CacheConfig) : Prop := {
  co_verified : sc_verify_args c = Ok tt;
  co_steps : sc_num_scheduler_steps c = 1;
  co_mode : sc_preemption_mode c ≠ Some "swap"%string;
  co_cache : cc_enable_prefix_caching cc = false;
}.

Lemma config_bounds c cc : config_ok c cc -> sc_max_num_seqs c <= sc_max_num_batched_tokens c ∧ 0 <= sc_num_lookahead_slots c ∧
  (sc_chunked_prefill_enabled c = false -> sc_max_model_len c <= sc_max_num_batched_tokens c).
Proof.
  intros [Hv _ _ _]. unfold sc_verify_args in Hv. destruct (_ && _) eqn:E1; [done|]. destruct (Z.ltb_spec (sc_max_num_batched_tokens c) (sc_max_num_seqs c)); [done|].
  destruct (Z.ltb_spec (sc_num_lookahead_slots c) 0); [done|]. split; [done|]. split; [done|]. intros Hc. rewrite Hc, andb_true_r in E1.
  by apply Z.ltb_ge.
Qed.

Lemma config_single c cc : config_ok c cc -> is_multi_step c = false.
Proof. intros Hc. unfold is_multi_step. by rewrite (co_steps _ _ Hc). Qed.

Section inv.
Context {M : Type} `{!BlockSpaceOps M} `{!BlockSpaceSpec M}.
Context (c : SchedulerConfig) (cc : V0CacheConfig) (Hcfg : config_ok c cc).
Context (key : nat -> string * Z).
Abbreviation ch := (sc_chunked_prefill_enabled c).

(** A group of one sequence with the ids of [key]. *)
Record one (r : nat) (g : SequenceGroup) (q : Sequence) : Prop := {
  on_seqs : sg_seqs g = [q];
  on_rid : sg_request_id g = (key r).1;
  on_sid : seq_id q = (key r).2;
  on_toks : seq_token_ids q ≠ [];
  on_encdec : is_encoder_decoder g = true -> bs_encdec = true;
  on_limit : ∃ n, _get_prompt_limit c g = Ok n;
  on_params : sc_is_pooling c = false -> sg_sampling_params g ≠ None;
}.

Definition uncomputed (q : Sequence) : Z := seq_get_len q - seq_num_computed_tokens q.

(** In decoding, one token is not computed; in prefill, some are. *)
Definition staged (q : Sequence) : Prop := 0 <= seq_num_computed_tokens q ∧
  (seq_stage q = DECODE ∧ uncomputed q = 1 ∨ seq_stage q = PREFILL ∧ 1 <= uncomputed q).

(** How many tokens a scheduled sequence may process. *)
Definition chunk_ok (q : Sequence) (n : Z) : Prop :=
  1 <= n <= uncomputed q ∧ (ch = false -> n = uncomputed q).

(** The roles of a group. *)
Definition waits (gs : gmap nat SequenceGroup) (r : nat) : Prop :=
  ∃ g q, gs !! r = Some g ∧ one r g q ∧ seq_status q = WAITING ∧ seq_stage q = PREFILL ∧ seq_num_computed_tokens q = 0.

Definition runs_idle (gs : gmap nat SequenceGroup) (A : gmap Z (list Z)) (C : gset string) (r : nat) : Prop :=
  ∃ g q ts, gs !! r = Some g ∧ one r g q ∧ seq_status q = RUNNING ∧ staged q ∧ (ch = false -> seq_stage q = DECODE) ∧
    A !! (key r).2 = Some ts ∧ ts ≠ [] ∧ ts `prefix_of` seq_token_ids q ∧ (is_encoder_decoder g = true -> (key r).1 ∈ C).

Definition runs_now (gs : gmap nat SequenceGroup) (A : gmap Z (list Z)) (C : gset string) (x : ScheduledSequenceGroup) : Prop :=
  ∃ g q, gs !! ssg_seq_group x = Some g ∧ one (ssg_seq_group x) g q ∧ seq_status q = RUNNING ∧ staged q ∧
    chunk_ok q (token_chunk_size x) ∧ A !! (key (ssg_seq_group x)).2 = Some (seq_token_ids q) ∧
    (is_encoder_decoder g = true -> (key (ssg_seq_group x)).1 ∈ C).

Definition ended (gs : gmap nat SequenceGroup) (r : nat) : Prop :=
  ∃ g q, gs !! r = Some g ∧ one r g q ∧ seq_is_finished q = true.

Record mid (m : M) (gs : gmap nat SequenceGroup) (A : gmap Z (list Z)) (C : gset string)
    (W R : list nat) (T : list ScheduledSequenceGroup) (F : list nat) : Prop := {
  md_bm : bs_inv m A C;
  md_rids : NoDup ((fun r => (key r).1) <$> W ++ R ++ refs_of T ++ F);
  md_sids : NoDup ((fun r => (key r).2) <$> W ++ R ++ refs_of T ++ F);
  md_w : ∀ r, r ∈ W -> waits gs r;
  md_r : ∀ r, r ∈ R -> runs_idle gs A C r;
  md_t : ∀ x, x ∈ T -> runs_now gs A C x;
  md_f : ∀ r, r ∈ F -> ended gs r;
  md_dom : ∀ id, is_Some (A !! id) -> id ∈ (fun r => (key r).2) <$> R ++ refs_of T ++ F;
  md_cross : ∀ rid, rid ∈ C -> ∃ r g, r ∈ R ++ refs_of T ++ F ∧ gs !! r = Some g ∧ rid = (key r).1 ∧ is_encoder_decoder g = true;
}.

(** ** Reordering *)

Lemma mid_perm m gs A C W W' R R' T T' F F' :
  W ≡ₚ W' -> R ≡ₚ R' -> T ≡ₚ T' -> F ≡ₚ F' -> mid m gs A C W R T F -> mid m gs A C W' R' T' F'.
Proof.
  intros HW HR HT HF [M1 M2 M3 M4 M5 M6 M7 M8 M9].
  assert (Hrefs : refs_of T ≡ₚ refs_of T') by (by apply fmap_Permutation).
  split.
  - done.
  - by rewrite <-HW, <-HR, <-Hrefs, <-HF.
  - by rewrite <-HW, <-HR, <-Hrefs, <-HF.
  - intros r Hr. apply M4. by rewrite HW.
  - intros r Hr. apply M5. by rewrite HR.
  - intros x Hx. apply M6. by rewrite HT.
  - intros r Hr. apply M7. by rewrite HF.
  - intros id Hid. rewrite <-HR, <-Hrefs, <-HF. by apply M8.
  - intros rid Hrid. destruct (M9 rid Hrid) as (r & g & Hr & Hg). exists r, g. split; [|done]. by rewrite <-HR, <-Hrefs, <-HF.
Qed.

(** ** One group changes

    [around r ...]: group [r] is taken out of its list; nothing is said about it, except
    that its ids are its own. *)

Abbreviation rid r := (key r).1.
Abbreviation sid r := (key r).2.

Record around (r : nat) (m : M) (gs : gmap nat SequenceGroup) (A : gmap Z (list Z)) (C : gset string)
    (W R : list nat) (T : list ScheduledSequenceGroup) (F : list nat) : Prop := {
  ar_bm : bs_inv m A C;
  ar_rids : NoDup ((fun r => rid r) <$> r :: W ++ R ++ refs_of T ++ F);
  ar_sids : NoDup ((fun r => sid r) <$> r :: W ++ R ++ refs_of T ++ F);
  ar_w : ∀ r, r ∈ W -> waits gs r;
  ar_r : ∀ r, r ∈ R -> runs_idle gs A C r;
  ar_t : ∀ x, x ∈ T -> runs_now gs A C x;
  ar_f : ∀ r, r ∈ F -> ended gs r;
  ar_dom : ∀ id, is_Some (A !! id) -> id = sid r ∨ id ∈ (fun r => sid r) <$> R ++ refs_of T ++ F;
  ar_cross : ∀ x, x ∈ C -> x = rid r ∨ ∃ r' g, r' ∈ R ++ refs_of T ++ F ∧ gs !! r' = Some g ∧ x = rid r' ∧ is_encoder_decoder g = true;
}.

Lemma fresh_keys r m gs A C W R T F r' : around r m gs A C W R T F -> r' ∈ W ++ R ++ refs_of T ++ F ->
  rid r' ≠ rid r ∧ sid r' ≠ sid r ∧ r' ≠ r.
Proof.
  intros Ha Hr'. pose proof (ar_rids _ _ _ _ _ _ _ _ _ Ha) as H1. pose proof (ar_sids _ _ _ _ _ _ _ _ _ Ha) as H2.
  rewrite fmap_cons in H1. rewrite fmap_cons in H2. apply NoDup_cons in H1 as [H1 _]. apply NoDup_cons in H2 as [H2 _].
  assert (rid r' ≠ rid r) by (intros E; apply H1; rewrite <-E; by apply (list_elem_of_fmap_2 (fun r => rid r))).
  split; [done|]. split; [|by intros ->]. intros E; apply H2; rewrite <-E; by apply (list_elem_of_fmap_2 (fun r => sid r)).
Qed.

Lemma take_w r m gs A C W R T F : mid m gs A C (r :: W) R T F -> around r m gs A C W R T F ∧ waits gs r ∧ A !! sid r = None ∧ rid r ∉ C.
Proof.
  intros [M1 M2 M3 M4 M5 M6 M7 M8 M9]. assert (Ha : around r m gs A C W R T F).
  { split; try done; [intros r' Hr'; apply M4; by right|by auto|by auto]. }
  split; [done|]. split; [apply M4; by left|]. split.
  - destruct (A !! sid r) eqn:E; [|done]. assert (Hin : sid r ∈ (fun r => sid r) <$> R ++ refs_of T ++ F) by (apply M8; eauto).
    apply list_elem_of_fmap in Hin as (r' & Hs & Hr'). destruct (fresh_keys r m gs A C W R T F r' Ha) as (_ & ? & _); [apply elem_of_app; by right|]. done.
  - intros Hr. destruct (M9 _ Hr) as (r' & g & Hr' & _ & Hs & _). destruct (fresh_keys r m gs A C W R T F r' Ha) as (? & _); [apply elem_of_app; by right|]. done.
Qed.

Lemma take_r r m gs A C W R T F : mid m gs A C W (r :: R) T F -> around r m gs A C W R T F ∧ runs_idle gs A C r.
Proof.
  intros [M1 M2 M3 M4 M5 M6 M7 M8 M9]. split; [|apply M5; by left]. split; try done.
  - rewrite Permutation_middle. done.
  - rewrite Permutation_middle. done.
  - intros r' Hr'. apply M5. by right.
  - intros id Hid. apply M8 in Hid. rewrite <-app_comm_cons, fmap_cons in Hid. by apply elem_of_cons in Hid.
  - intros x Hx. destruct (M9 x Hx) as (r' & g & Hr' & Hg & -> & He). rewrite <-app_comm_cons in Hr'. apply elem_of_cons in Hr' as [->|Hr']; [by left|].
    right. by exists r', g.
Qed.

Lemma take_t x m gs A C W R T F : mid m gs A C W R (x :: T) F -> around (ssg_seq_group x) m gs A C W R T F ∧ runs_now gs A C x.
Proof.
  intros [M1 M2 M3 M4 M5 M6 M7 M8 M9]. split; [|apply M6; by left].
  assert (HP : W ++ R ++ refs_of (x :: T) ++ F ≡ₚ ssg_seq_group x :: W ++ R ++ refs_of T ++ F).
  { unfold refs_of. rewrite fmap_cons. cbn. rewrite <-(Permutation_middle R), <-(Permutation_middle W). done. }
  assert (HP' : R ++ refs_of (x :: T) ++ F ≡ₚ ssg_seq_group x :: R ++ refs_of T ++ F).
  { unfold refs_of. rewrite fmap_cons. cbn. by rewrite <-(Permutation_middle R). }
  split; try done.
  - by rewrite <-HP.
  - by rewrite <-HP.
  - intros x' Hx'. apply M6. by right.
  - intros id Hid. apply M8 in Hid. rewrite HP', fmap_cons in Hid. by apply elem_of_cons in Hid.
  - intros y Hy. destruct (M9 y Hy) as (r' & g & Hr' & Hg & -> & He). rewrite HP' in Hr'. apply elem_of_cons in Hr' as [->|Hr']; [by left|].
    right. by exists r', g.
Qed.

Lemma take_f r m gs A C W R T F : mid m gs A C W R T (r :: F) -> around r m gs A C W R T F ∧ ended gs r.
Proof.
  intros [M1 M2 M3 M4 M5 M6 M7 M8 M9]. split; [|apply M7; by left].
  assert (HP : W ++ R ++ refs_of T ++ r :: F ≡ₚ r :: W ++ R ++ refs_of T ++ F) by (by rewrite <-(Permutation_middle (refs_of T)), <-(Permutation_middle R), <-(Permutation_middle W)).
  assert (HP' : R ++ refs_of T ++ r :: F ≡ₚ r :: R ++ refs_of T ++ F) by (by rewrite <-(Permutation_middle (refs_of T)), <-(Permutation_middle R)).
  split; try done.
  - by rewrite <-HP.
  - by rewrite <-HP.
  - intros x' Hx'. apply M7. by right.
  - intros id Hid. apply M8 in Hid. rewrite HP', fmap_cons in Hid. by apply elem_of_cons in Hid.
  - intros y Hy. destruct (M9 y Hy) as (r' & g & Hr' & Hg & -> & He). rewrite HP' in Hr'. apply elem_of_cons in Hr' as [->|Hr']; [by left|].
    right. by exists r', g.
Qed.

(** The cross-attention table of a request is its own. *)
Lemma cross_own m gs A C W R T F r g : mid m gs A C W R T F -> r ∈ R ++ refs_of T ++ F -> gs !! r = Some g -> rid r ∈ C ->
  is_encoder_decoder g = true.
Proof.
  intros Hmid Hr Hg HC. destruct (md_cross _ _ _ _ _ _ _ _ Hmid _ HC) as (r' & g' & Hr' & Hg' & Hk & He).
  assert (r' = r) as ->; [|congruence]. pose proof (md_rids _ _ _ _ _ _ _ _ Hmid) as Hnd. rewrite fmap_app in Hnd. apply NoDup_app in Hnd as (_ & _ & Hnd).
  apply list_elem_of_lookup in Hr as [i Hi], Hr' as [j Hj].
  assert (i = j) as <-; [|congruence]. eapply (NoDup_lookup _ i j (rid r) Hnd); rewrite list_lookup_fmap; [by rewrite Hi|rewrite Hj; cbn; by rewrite Hk].
Qed.

(** The group and what is stored for it change. *)
Lemma around_update r g' m m' gs A A' C C' W R T F :
  around r m gs A C W R T F -> bs_inv m' A' C' -> (∀ id, id ≠ sid r -> A' !! id = A !! id) -> (∀ x, x ≠ rid r -> x ∈ C' <-> x ∈ C) ->
  around r m' (<[r := g']> gs) A' C' W R T F.
Proof.
  intros Ha Hm HA HC. pose proof (fresh_keys r m gs A C W R T F) as Hk. pose proof Ha as [H1 H2 H3 H4 H5 H6 H7 H8 H9].
  assert (Hin : ∀ r', r' ∈ R ++ refs_of T ++ F -> rid r' ≠ rid r ∧ sid r' ≠ sid r ∧ r' ≠ r).
  { intros r' Hr'. apply (Hk r' Ha). apply elem_of_app. by right. }
  split; try done.
  - intros r' Hr'. destruct (Hk r' Ha) as (_ & _ & Hne); [apply elem_of_app; by left|]. unfold waits. rewrite lookup_insert_ne by done. by apply H4.
  - intros r' Hr'. destruct (Hin r') as (? & ? & Hne); [apply elem_of_app; by left|]. unfold runs_idle. rewrite lookup_insert_ne by done.
    destruct (H5 r' Hr') as (g & q & ts & ? & ? & ? & ? & ? & ? & ? & ? & Hc). exists g, q, ts. rewrite HA by done. split_and!; try done.
    intros He. apply HC; [done|]. by apply Hc.
  - intros x Hx. destruct (Hin (ssg_seq_group x)) as (? & ? & Hne); [apply elem_of_app; right; apply elem_of_app; left; by apply list_elem_of_fmap_2|].
    unfold runs_now. rewrite lookup_insert_ne by done. destruct (H6 x Hx) as (g & q & ? & ? & ? & ? & ? & ? & Hc). exists g, q. rewrite HA by done.
    split_and!; try done. intros He. apply HC; [done|]. by apply Hc.
  - intros r' Hr'. destruct (Hin r') as (_ & _ & Hne); [apply elem_of_app; right; apply elem_of_app; by right|]. unfold ended. rewrite lookup_insert_ne by done.
    by apply H7.
  - intros id Hid. destruct (decide (id = sid r)) as [->|Hne]; [by left|]. rewrite HA in Hid by done. destruct (H8 id Hid); by auto.
  - intros x Hx. destruct (decide (x = rid r)) as [->|Hne]; [by left|]. apply HC in Hx; [|done]. destruct (H9 x Hx) as [->|(r' & g & Hr' & Hg & -> & He)]; [done|].
    right. exists r', g. destruct (Hin r' Hr') as (_ & _ & Hne'). by rewrite lookup_insert_ne.
Qed.

(** Putting the group into a list. *)
Lemma put_w r m gs A C W R T F : around r m gs A C W R T F -> waits gs r -> A !! sid r = None -> rid r ∉ C -> mid m gs A C (r :: W) R T F.
Proof.
  intros [H1 H2 H3 H4 H5 H6 H7 H8 H9] Hw HA HC. split; try done.
  - intros r' [->|Hr']%elem_of_cons; [done|by apply H4].
  - intros id Hid. destruct (H8 id Hid) as [->|]; [|done]. rewrite HA in Hid. by destruct Hid.
  - intros x Hx. destruct (H9 x Hx) as [->|]; done.
Qed.

Lemma put_r r m gs A C W R T F : around r m gs A C W R T F -> runs_idle gs A C r -> (rid r ∈ C -> ∃ g, gs !! r = Some g ∧ is_encoder_decoder g = true) ->
  mid m gs A C W (r :: R) T F.
Proof.
  intros [H1 H2 H3 H4 H5 H6 H7 H8 H9] Hw HC. split; try done.
  - rewrite Permutation_middle in H2. done.
  - rewrite Permutation_middle in H3. done.
  - intros r' [->|Hr']%elem_of_cons; [done|by apply H5].
  - intros id Hid. rewrite <-app_comm_cons, fmap_cons, elem_of_cons. by apply H8.
  - intros x Hx. destruct (H9 x Hx) as [->|(r' & g & Hr' & Hg & -> & He)].
    + destruct (HC Hx) as (g & Hg & He). exists r, g. split; [by left|done].
    + exists r', g. split; [by right|done].
Qed.

Lemma put_t x m gs A C W R T F : around (ssg_seq_group x) m gs A C W R T F -> runs_now gs A C x ->
  (rid (ssg_seq_group x) ∈ C -> ∃ g, gs !! ssg_seq_group x = Some g ∧ is_encoder_decoder g = true) -> mid m gs A C W R (x :: T) F.
Proof.
  intros [H1 H2 H3 H4 H5 H6 H7 H8 H9] Hw HC.
  assert (HP : W ++ R ++ refs_of (x :: T) ++ F ≡ₚ ssg_seq_group x :: W ++ R ++ refs_of T ++ F).
  { unfold refs_of. rewrite fmap_cons. cbn. rewrite <-(Permutation_middle R), <-(Permutation_middle W). done. }
  assert (HP' : R ++ refs_of (x :: T) ++ F ≡ₚ ssg_seq_group x :: R ++ refs_of T ++ F).
  { unfold refs_of. rewrite fmap_cons. cbn. by rewrite <-(Permutation_middle R). }
  split; try done.
  - by rewrite HP.
  - by rewrite HP.
  - intros x' [->|Hx']%elem_of_cons; [done|by apply H6].
  - intros id Hid. rewrite HP', fmap_cons, elem_of_cons. by apply H8.
  - intros y Hy. destruct (H9 y Hy) as [->|(r' & g & Hr' & Hg & -> & He)].
    + destruct (HC Hy) as (g & Hg & He). exists (ssg_seq_group x), g. split; [|done]. rewrite HP'. by left.
    + exists r', g. split; [|done]. rewrite HP'. by right.
Qed.

Lemma put_f r m gs A C W R T F : around r m gs A C W R T F -> ended gs r -> (rid r ∈ C -> ∃ g, gs !! r = Some g ∧ is_encoder_decoder g = true) ->
  mid m gs A C W R T (r :: F).
Proof.
  intros [H1 H2 H3 H4 H5 H6 H7 H8 H9] Hw HC.
  assert (HP : W ++ R ++ refs_of T ++ r :: F ≡ₚ r :: W ++ R ++ refs_of T ++ F) by (by rewrite <-(Permutation_middle (refs_of T)), <-(Permutation_middle R), <-(Permutation_middle W)).
  assert (HP' : R ++ refs_of T ++ r :: F ≡ₚ r :: R ++ refs_of T ++ F) by (by rewrite <-(Permutation_middle (refs_of T)), <-(Permutation_middle R)).
  split; try done.
  - by rewrite HP.
  - by rewrite HP.
  - intros x' [->|Hx']%elem_of_cons; [done|by apply H7].
  - intros id Hid. rewrite HP', fmap_cons, elem_of_cons. by apply H8.
  - intros y Hy. destruct (H9 y Hy) as [->|(r' & g & Hr' & Hg & -> & He)].
    + destruct (HC Hy) as (g & Hg & He). exists r, g. split; [|done]. rewrite HP'. by left.
    + exists r', g. split; [|done]. rewrite HP'. by right.
Qed.

(** Or dropping it. *)
Lemma drop_it r m gs A C W R T F : around r m gs A C W R T F -> A !! sid r = None -> rid r ∉ C -> mid m gs A C W R T F.
Proof.
  intros [H1 H2 H3 H4 H5 H6 H7 H8 H9] HA HC. rewrite fmap_cons in H2. rewrite fmap_cons in H3.
  apply NoDup_cons in H2 as [_ H2]. apply NoDup_cons in H3 as [_ H3]. split; try done.
  - intros id Hid. destruct (H8 id Hid) as [->|]; [|done]. rewrite HA in Hid. by destruct Hid.
  - intros x Hx. destruct (H9 x Hx) as [->|]; done.
Qed.
End inv.
