(* ===== verification/V0SchedOps.v ===== *)
(** * Operations of the v0 scheduler on one group

    Counting tokens, preempting, appending slots, allocating, ignoring, releasing: each
    moves a group between the lists of [mid]. *)

From stdpp Require Import base tactics list gmap sets strings.
From Stdlib Require Import ZArith QArith Lia.
From S2P Require Import Prelude.
From S2P Require Import SamplingParams.
From S2P Require Import V0Sequence.
From S2P Require Import NaiveBlocks.
From S2P Require Import BlockManager.
From S2P Require Import V0Interface.
From S2P Require Import V0Contract.
From S2P Require Import V0Scheduler.
From S2P Require Import V0SchedInv.

Local Open Scope Z_scope.

(** What an operation on a group leaves alone. *)
Record frame {M} (s s' : V0Scheduler M) : Prop := {
  fr_config : v0_config s' = v0_config s;
  fr_cache : v0_cache_config s' = v0_cache_config s;
  fr_loras : v0_max_loras s' = v0_max_loras s;
  fr_waiting : v0_waiting s' = v0_waiting s;
  fr_running : v0_running s' = v0_running s;
  fr_swapped : v0_swapped s' = v0_swapped s;
  fr_stopped : _async_stopped s' = _async_stopped s;
}.

#[export] Instance frame_preorder {M} : PreOrder (@frame M).
Proof. split; [by intros s; split|]. intros s1 s2 s3 [] []. split; congruence. Qed.

Section ops.
Context {M : Type} `{!BlockSpaceOps M} `{!BlockSpaceSpec M}.
Context (c : SchedulerConfig) (cc : V0CacheConfig) (Hcfg : config_ok c cc).
Context (key : nat -> string * Z).
Implicit Types s : V0Scheduler M.
Abbreviation ch := (sc_chunked_prefill_enabled c).
Abbreviation rid r := (key r).1.
Abbreviation sid r := (key r).2.
Abbreviation mid := (mid c key).
Abbreviation one := (one c key).

Definition configured s : Prop := v0_config s = c ∧ v0_cache_config s = cc.

Lemma get_group_ok s r g : v0_groups s !! r = Some g -> get_group s r = Ok g.
Proof. intros E. unfold get_group. by rewrite E. Qed.

Lemma first_seq_ok g q : sg_seqs g = [q] -> first_seq g = Ok q.
Proof. intros E. unfold first_seq. by rewrite E. Qed.

Lemma is_prefill_ok g q : sg_seqs g = [q] -> sg_is_prefill g = Ok (seq_is_prefill q).
Proof. intros E. unfold sg_is_prefill. by rewrite (first_seq_ok g q E). Qed.

(** ** Counting *)

Lemma staged_waiting q : seq_token_ids q ≠ [] -> seq_stage q = PREFILL -> seq_num_computed_tokens q = 0 -> staged q.
Proof.
  intros Hne Hs Hc. split; [lia|]. right. split; [done|]. unfold uncomputed, seq_get_len. rewrite Hc. destruct (seq_token_ids q); [done|]. cbn. lia.
Qed.

Lemma num_new_spec s g q st e b :
  configured s -> sg_seqs g = [q] -> seq_status q = st -> staged q -> (∃ n, _get_prompt_limit c g = Ok n) ->
  _get_num_new_uncached_and_cached_tokens s g st e b =
    Ok (if e then Z.min (uncomputed q) (remaining_token_budget b) else uncomputed q, 0).
Proof.
  intros [Hc Hcc] Hg Hst [Hn Hstage] [lim Hlim]. unfold _get_num_new_uncached_and_cached_tokens.
  rewrite (get_seqs_single g q st Hg Hst). cbn [count_new_tokens].
  assert (E : count_new_tokens s [q] 0 0 = Ok (uncomputed q, 0)).
  { cbn [count_new_tokens]. unfold seq_is_prefill. destruct Hstage as [[-> Hu]|[-> Hu]].
    - cbn. by rewrite Hu.
    - rewrite bool_decide_true by done. cbn [negb]. rewrite Hcc, (co_cache _ _ Hcfg). cbn [negb]. unfold uncomputed in *. done. }
  cbn [count_new_tokens] in E. rewrite E. cbn [mbind result_bind fst snd]. rewrite andb_false_r.
  destruct e; [|done]. cbn [len length]. rewrite Hc, Hlim. cbn [andb]. change (Z.of_nat 1 =? 1) with true. cbn [mbind result_bind].
  unfold _chunk_new_tokens_to_schedule. rewrite (config_single c cc Hcfg), Hcc, (co_cache _ _ Hcfg). done.
Qed.

Lemma max_running_one g q : sg_seqs g = [q] -> seq_is_finished q = false -> get_max_num_running_seqs g = 1.
Proof. intros Hg Hq. unfold get_max_num_running_seqs. by rewrite Hg, Hq. Qed.

Lemma status_unfinished q st : seq_status q = st -> sq_status_is_finished st = false -> seq_is_finished q = false.
Proof. intros <- H. done. Qed.

Lemma update_seqs_one g q p f : sg_seqs g = [q] -> p q = true -> sg_seqs (update_seqs p f g) = [f q].
Proof. intros Hg Hp. unfold update_seqs, sg_with_seqs. cbn [sg_seqs]. rewrite Hg. cbn. by rewrite Hp. Qed.

Lemma has_status_true q st : seq_status q = st -> has_status st q = true.
Proof. intros <-. by apply bool_decide_eq_true. Qed.

(** A new version of a group that keeps what [one] speaks of. *)
Lemma one_update r g q p f : one r g q -> p q = true -> seq_id (f q) = seq_id q -> seq_token_ids (f q) = seq_token_ids q ->
  one r (update_seqs p f g) (f q).
Proof.
  intros [H1 H2 H3 H4 H5 [n H6] H7] Hp Hi Ht. split; try done; [by apply update_seqs_one|congruence|congruence|by exists n].
Qed.

(** ** Releasing blocks *)

Lemma free_cross_group s g A C :
  bs_inv (block_manager s) A C -> (is_encoder_decoder g = true -> bs_encdec = true) ->
  ∃ m', _free_seq_group_cross_attn_blocks s g = Ok (v0_with_bm s m') ∧
    bs_inv m' A (if is_encoder_decoder g then C ∖ {[sg_request_id g]} else C) ∧ bs_shape m' = bs_shape (block_manager s).
Proof.
  intros Hm He. unfold _free_seq_group_cross_attn_blocks. destruct (is_encoder_decoder g).
  - destruct (bs_free_cross_ok _ A C g Hm (He eq_refl)) as (m' & E & Hm'). rewrite E. exists m'. split; [done|]. split; [done|]. by eapply bs_free_cross_shape.
  - exists (block_manager s). split; [|done]. by destruct s.
Qed.

(** ** Preemption *)

Lemma preempt_spec s r A C W R T F :
  configured s -> mid (block_manager s) (v0_groups s) A C W (r :: R) T F ->
  ∃ s' A' C', _preempt s r = Ok (RECOMPUTE, [], s') ∧ mid (block_manager s') (v0_groups s') A' C' (r :: W) R T F ∧ frame s s' ∧
    (∀ r', r' ≠ r -> v0_groups s' !! r' = v0_groups s !! r') ∧ bs_shape (block_manager s') = bs_shape (block_manager s).
Proof.
  intros [Hc Hcc] Hmid. destruct (take_r c key r _ _ _ _ _ _ _ _ Hmid) as (Ha & g & q & ts & Hg & Ho & Hst & Hsg & _ & HA & _ & _ & HC).
  pose proof Ho as [O1 O2 O3 O4 O5 O6 O7].
  assert (Hmode : preemption_mode (v0_config s) g = RECOMPUTE).
  { unfold preemption_mode. rewrite Hc. pose proof (co_mode _ _ Hcfg) as Hmode. destruct (sc_preemption_mode c) as [mode|].
    - rewrite decide_False; [done|]. congruence.
    - by rewrite (max_running_one g q O1 (status_unfinished q _ Hst eq_refl)). }
  unfold _preempt. rewrite (get_group_ok s r g Hg). cbn [mbind result_bind]. rewrite Hmode. unfold _preempt_by_recompute.
  set (s1 := v0_with_preemption s _). rewrite (get_group_ok s1 r g Hg). cbn [mbind result_bind]. rewrite (get_seqs_single g q _ O1 Hst).
  cbn [length]. change (Z.of_nat 1 =? 1) with true. cbn [py_assert mbind result_bind for_each]. unfold free_seq.
  destruct (bs_free_ok (block_manager s1) A C q (ar_bm _ _ _ _ _ _ _ _ _ _ _ Ha)) as (m1 & E1 & Hm1). rewrite E1. cbn [mbind result_bind].
  set (g' := update_seqs _ _ g). set (s2 := v0_set_group _ _ _).
  destruct (free_cross_group s2 g (delete (seq_id q) A) C Hm1 O5) as (m2 & E2 & Hm2 & Hsh). rewrite E2. cbn [mbind result_bind].
  rewrite O3, O2 in Hm2. eexists _, _, _. split; [reflexivity|]. split; [|split; [by split|]].
  2: { split; [intros r' Hr'; cbn; by rewrite lookup_insert_ne|]. cbn. rewrite Hsh. by apply (bs_free_shape _ _ _ E1). }
  assert (Ha' := around_update c key r g' _ m2 _ A _ C _ _ _ _ _ Ha Hm2).
  apply (put_w c key r); [apply Ha'|..].
  - intros id Hid. by rewrite lookup_delete_ne.
  - intros x Hx. destruct (is_encoder_decoder g); set_solver.
  - exists g', (reset_state_for_recompute (set_status WAITING q)). split; [cbn; by rewrite lookup_insert_eq|].
    split; [|done]. apply (one_update r g q _ (fun q => reset_state_for_recompute (set_status WAITING q))); [done|by apply has_status_true|done|done].
  - by rewrite lookup_delete_eq.
  - destruct (is_encoder_decoder g) eqn:E; [set_solver|]. intros Hin.
    apply (cross_own c key _ _ _ _ _ _ _ _ r g Hmid) in Hin; [congruence|by left|done].
Qed.

(** ** Appending slots *)

Lemma lookahead_nonneg p e : 0 <= _get_num_lookahead_slots c p e ∧ (p = true -> _get_num_lookahead_slots c p e = 0).
Proof.
  unfold _get_num_lookahead_slots. rewrite (config_single c cc Hcfg). destruct (config_bounds c cc Hcfg) as (_ & H & _). by destruct p.
Qed.

Lemma init_multi_ok n e g : init_multi_step_from_lookahead_slots n 1 false e g = Ok (init_multi_step 1 g).
Proof. done. Qed.

Lemma append_spec s r e A C W R T F :
  configured s -> mid (block_manager s) (v0_groups s) A C W (r :: R) T F ->
  ∃ g q, v0_groups s !! r = Some g ∧ one r g q ∧ seq_status q = RUNNING ∧ staged q ∧ (ch = false -> seq_stage q = DECODE) ∧
  ∃ ok, _can_append_slots s r e = Ok ok ∧
    (ok = true -> ∀ n, chunk_ok c q n -> ∃ copies s' A', _append_slots s r e = Ok (copies, s') ∧
      mid (block_manager s') (v0_groups s') A' C W R (mkScheduled r n :: T) F ∧ frame s s' ∧ v0_groups s' !! r = Some (init_multi_step 1 g) ∧
      (∀ r', r' ≠ r -> v0_groups s' !! r' = v0_groups s !! r') ∧ bs_shape (block_manager s') = bs_shape (block_manager s)).
Proof.
  intros [Hc Hcc] Hmid. destruct (take_r c key r _ _ _ _ _ _ _ _ Hmid) as (Ha & g & q & ts & Hg & Ho & Hst & Hsg & Hdec & HA & Hts & Hpre & HC).
  exists g, q. split; [done|]. split; [done|]. split; [done|]. split; [done|]. split; [done|]. pose proof Ho as [O1 O2 O3 O4 O5 O6 O7].
  set (n0 := _get_num_lookahead_slots c (seq_is_prefill q) e).
  assert (Hn0 : 0 <= n0 ∧ (seq_is_prefill q = true -> n0 = 0)) by (apply lookahead_nonneg). destruct Hn0 as [Hn0 Hn1].
  rewrite <-O3 in HA.
  destruct (bs_append_ok _ A C g q n0 ts (ar_bm _ _ _ _ _ _ _ _ _ _ _ Ha) O1 Hst HA Hts Hpre Hn0) as (ok & Eok & Hok).
  exists ok. split.
  { unfold _can_append_slots. rewrite (get_group_ok s r g Hg). cbn [mbind result_bind]. rewrite (is_prefill_ok g q O1). cbn [mbind result_bind].
    rewrite Hc. fold n0. destruct (seq_is_prefill q); [rewrite (Hn1 eq_refl)|]; cbn [andb negb orb py_assert mbind result_bind]; [rewrite (Hn1 eq_refl) in Eok|]; done. }
  intros -> n Hchunk. destruct (Hok eq_refl) as (copies & m' & E & Hm').
  assert (Eapp : _append_slots s r e = Ok (copies, v0_set_group (v0_with_bm s m') r (init_multi_step 1 g))).
  { unfold _append_slots. rewrite (get_group_ok s r g Hg). cbn [mbind result_bind]. rewrite (is_prefill_ok g q O1). cbn [mbind result_bind].
    rewrite Hc, (co_steps _ _ Hcfg), (config_single c cc Hcfg), init_multi_ok. cbn [mbind result_bind andb]. fold n0.
    rewrite (get_seqs_single (init_multi_step 1 g) q _ O1 Hst). cbn [for_each]. unfold append_seq_slots at 1. cbn [fst snd]. rewrite E. done. }
  eexists copies, _, _. split; [exact Eapp|]. split; [|split; [by split|]].
  2: { cbn. split; [by rewrite lookup_insert_eq|]. split; [intros r' Hr'; by rewrite lookup_insert_ne|by apply (bs_append_shape _ _ _ _ _ E)]. }
  rewrite O3 in Hm', HA.
  assert (Ha' := around_update c key r (init_multi_step 1 g) _ m' _ A _ C C _ _ _ _ Ha Hm').
  apply (put_t c key (mkScheduled r n)); cbn [ssg_seq_group block_manager v0_groups v0_set_group v0_with_groups v0_with_bm].
  - apply Ha'; [|done]. intros id Hid. by rewrite lookup_insert_ne.
  - exists (init_multi_step 1 g), q. cbn [ssg_seq_group token_chunk_size]. rewrite !lookup_insert_eq. split_and!; try done; by destruct Ho; split.
  - intros Hin. exists (init_multi_step 1 g). rewrite lookup_insert_eq. split; [done|].
    by apply (cross_own c key _ _ _ _ _ _ _ _ r g Hmid); [left|..].
Qed.

(** ** Allocating *)

Lemma allocate_spec s r A C W R T F :
  configured s -> mid (block_manager s) (v0_groups s) A C (r :: W) R T F ->
  ∃ g q, v0_groups s !! r = Some g ∧ one r g q ∧ seq_status q = WAITING ∧ seq_stage q = PREFILL ∧ seq_num_computed_tokens q = 0 ∧
  ∃ st, bs_can_allocate (block_manager s) g 0 = Ok st ∧
    (st = AllocOK -> ∀ n, chunk_ok c q n -> ∃ s' g' A' C', _allocate_and_set_running s r = Ok s' ∧ v0_groups s' !! r = Some g' ∧
      mid (block_manager s') (v0_groups (v0_set_group s' r (init_multi_step 1 g'))) A' C' W R (mkScheduled r n :: T) F ∧ frame s s' ∧
      (∀ r', r' ≠ r -> v0_groups s' !! r' = v0_groups s !! r') ∧ bs_shape (block_manager s') = bs_shape (block_manager s)).
Proof.
  intros [Hc Hcc] Hmid. destruct (take_w c key r _ _ _ _ _ _ _ _ Hmid) as (Ha & (g & q & Hg & Ho & Hst & Hpf & Hcomp) & HA & HC).
  exists g, q. split; [done|]. split; [done|]. split; [done|]. split; [done|]. split; [done|]. pose proof Ho as [O1 O2 O3 O4 O5 O6 O7].
  rewrite <-O3 in HA. rewrite <-O2 in HC.
  destruct (bs_allocate_ok _ A C g q 0 (ar_bm _ _ _ _ _ _ _ _ _ _ _ Ha) O1 Hst O4 HA HC O5 ltac:(lia)) as (st & E & Hok).
  exists st. split; [done|]. intros -> n Hchunk. destruct (Hok eq_refl) as (m' & E' & Hm').
  set (g' := update_seqs (has_status WAITING) (set_status RUNNING) g).
  assert (Hg' : one r g' (set_status RUNNING q)) by (apply one_update; [done|by apply has_status_true|done|done]).
  exists (v0_set_group (v0_with_bm s m') r g'), g'. eexists _, _. split.
  { unfold _allocate_and_set_running. rewrite (get_group_ok s r g Hg). cbn [mbind result_bind]. rewrite E'. done. }
  split; [cbn; by rewrite lookup_insert_eq|]. split; [|split; [by split|cbn; split; [intros r' Hr'; by rewrite lookup_insert_ne|by apply (bs_allocate_shape _ _ _ E')]]]. rewrite O3, O2 in Hm'.
  assert (Ha' := around_update c key r (init_multi_step 1 g') _ m' _ A _ C _ _ _ _ _ Ha Hm').
  assert (Eg : v0_groups (v0_set_group (v0_set_group (v0_with_bm s m') r g') r (init_multi_step 1 g')) = <[r := init_multi_step 1 g']> (v0_groups s))
    by (cbn; apply insert_insert_eq). rewrite Eg.
  apply (put_t c key (mkScheduled r n)); cbn [ssg_seq_group block_manager v0_set_group v0_with_groups v0_with_bm].
  - apply Ha'; [intros id Hid; by rewrite lookup_insert_ne|]. intros x Hx. destruct (is_encoder_decoder g); set_solver.
  - exists (init_multi_step 1 g'), (set_status RUNNING q). cbn [ssg_seq_group token_chunk_size]. rewrite !lookup_insert_eq. split_and!; try done.
    + by destruct Hg'; split.
    + by apply (staged_waiting (set_status RUNNING q)).
    + intros He. assert (E2 : is_encoder_decoder g = true) by exact He. rewrite E2. set_solver.
  - intros Hin. exists (init_multi_step 1 g'). rewrite lookup_insert_eq. split; [done|]. change (is_encoder_decoder (init_multi_step 1 g')) with (is_encoder_decoder g).
    destruct (is_encoder_decoder g); [done|]. rewrite O2 in HC. done.
Qed.

(** ** Ignoring a waiting group *)

Lemma ignore_spec s r g A C W R T F :
  mid (block_manager s) (v0_groups s) A C (r :: W) R T F ->
  mid (block_manager s) (v0_groups (ignore_group s r g (has_status WAITING))) A C W R T F.
Proof.
  intros Hmid. destruct (take_w c key r _ _ _ _ _ _ _ _ Hmid) as (Ha & _ & HA & HC).
  apply (drop_it c key r); [|done|done]. cbn.
  by apply (around_update c key r _ _ _ _ A A C C _ _ _ _ Ha); [apply (ar_bm _ _ _ _ _ _ _ _ _ _ _ Ha)|..].
Qed.
End ops.
