(* ===== verification/V0SchedLoops.v ===== *)
(** * The loops of the v0 scheduler

    [_schedule_running] with its preemption loop, [_schedule_prefills] and
    [_schedule_priority_preemption], over the invariant [mid] and the budget. *)

From stdpp Require Import base tactics list gmap sets strings.
From Stdlib Require Import ZArith QArith Lia.
From S2P Require Import Prelude.
From S2P Require Import SamplingParams.
From S2P Require Import V0Sequence.
From S2P Require Import NaiveBlocks.
From S2P Require Import BlockManager.
From S2P Require Import V0Interface.
From S2P Require Import V0Contract.
From S2P Require Import V0Scheduler.
From S2P Require Import V0SchedInv.
From S2P Require Import V0SchedOps.

Local Open Scope Z_scope.

Definition sum_chunks (T : list ScheduledSequenceGroup) : Z := foldr (fun x n => token_chunk_size x + n) 0 T.

Lemma sum_chunks_app T T' : sum_chunks (T ++ T') = sum_chunks T + sum_chunks T'.
Proof. induction T as [|x T IH]; [done|]. cbn. fold (sum_chunks (T ++ T')). fold (sum_chunks T). lia. Qed.

Lemma sum_chunks_perm T T' : T ≡ₚ T' -> sum_chunks T = sum_chunks T'.
Proof. unfold sum_chunks. induction 1; cbn [foldr]; lia. Qed.

Section loops.
Context {M : Type} `{!BlockSpaceOps M} `{!BlockSpaceSpec M}.
Context (c : SchedulerConfig) (cc : V0CacheConfig) (Hcfg : config_ok c cc).
Context (key : nat -> string * Z).
Implicit Types s : V0Scheduler M.
Abbreviation ch := (sc_chunked_prefill_enabled c).
Abbreviation rid r := (key r).1.
Abbreviation sid r := (key r).2.
Abbreviation mid := (mid c key).
Abbreviation one := (one c key).
Abbreviation configured := (configured c cc).

(** ** The budget *)

(** The tokens of exactly the groups [T] are charged. *)
Record charged (b : SchedulingBudget) (T : list ScheduledSequenceGroup) : Prop := {
  cg_total : token_budget b = sc_max_num_batched_tokens c;
  cg_max : bg_max_num_seqs b = sc_max_num_seqs c;
  cg_ids : ∀ x, x ∈ _request_ids_num_batched_tokens b <-> x ∈ (fun r => rid r) <$> refs_of T;
  cg_sum : bg_num_batched_tokens b = sum_chunks T;
  cg_cached : bg_num_cached_tokens b = 0;
  cg_le : sum_chunks T <= sc_max_num_batched_tokens c;
}.

(** The sequences of exactly the groups [K] are counted. *)
Record counted (b : SchedulingBudget) (K : list nat) : Prop := {
  ct_ids : ∀ x, x ∈ _request_ids_num_curr_seqs b <-> x ∈ (fun r => rid r) <$> K;
  ct_num : bg_num_curr_seqs b = len K;
}.

Lemma charged_perm b T T' : T ≡ₚ T' -> charged b T -> charged b T'.
Proof.
  intros HT [H1 H2 H3 H4 H5 H6]. pose proof (sum_chunks_perm _ _ HT) as Hs. split; try done; try congruence.
  intros x. rewrite H3. unfold refs_of. by rewrite HT.
Qed.

Lemma charge b T r n : charged b T -> rid r ∉ (fun r => rid r) <$> refs_of T -> 0 <= n -> sum_chunks T + n <= sc_max_num_batched_tokens c ->
  ∃ b', add_num_batched_tokens b (rid r) n 0 = Ok b' ∧ charged b' (T ++ [mkScheduled r n]) ∧
    _request_ids_num_curr_seqs b' = _request_ids_num_curr_seqs b ∧ bg_num_curr_seqs b' = bg_num_curr_seqs b.
Proof.
  intros [H1 H2 H3 H4 H5 H6] Hr Hn Hle. unfold add_num_batched_tokens. rewrite decide_False by (by rewrite H3).
  cbn [py_assert mbind result_bind]. rewrite (proj2 (Z.leb_le 0 n) Hn). cbn [py_assert mbind result_bind].
  eexists. split; [reflexivity|]. split; [|done]. rewrite <-H4 in *. split; cbn; try done; try lia.
  - intros x. unfold refs_of. rewrite fmap_app, fmap_app, elem_of_app. cbn. rewrite elem_of_union, H3, elem_of_singleton, list_elem_of_singleton. tauto.
  - rewrite sum_chunks_app. cbn. lia.
  - rewrite sum_chunks_app. cbn. lia.
Qed.

Lemma uncharged b T r n : charged b T -> rid r ∉ (fun r => rid r) <$> refs_of T -> subtract_num_batched_tokens b (rid r) n = b.
Proof. intros [_ _ H3 _ _ _] Hr. unfold subtract_num_batched_tokens. by rewrite decide_False by (by rewrite H3). Qed.

Lemma count_one b K r : counted b K -> rid r ∉ (fun r => rid r) <$> K -> counted (add_num_seqs b (rid r) 1) (K ++ [r]).
Proof.
  intros [H1 H2] Hr. unfold add_num_seqs. rewrite decide_False by (by rewrite H1). split; cbn.
  - intros x. rewrite fmap_app, elem_of_app. cbn. rewrite elem_of_union, H1, elem_of_singleton, list_elem_of_singleton. tauto.
  - rewrite H2, length_app. cbn. lia.
Qed.

(** During the running loop: with chunked prefill the scheduled groups are counted as
    they are scheduled, otherwise all running ones were counted before. *)
Definition seqs_ok (b : SchedulingBudget) (T : list ScheduledSequenceGroup) : Prop :=
  if ch then counted b (refs_of T) else bg_num_curr_seqs b <= sc_max_num_seqs c.

Lemma seqs_subtract b T r : charged b T -> seqs_ok b T -> rid r ∉ (fun r => rid r) <$> refs_of T ->
  charged (subtract_num_seqs b (rid r) 1) T ∧ seqs_ok (subtract_num_seqs b (rid r) 1) T.
Proof.
  intros [H1 H2 H3 H4 H5 H6] Hs Hr. unfold seqs_ok, subtract_num_seqs in *. destruct ch.
  - rewrite decide_False by (by rewrite (ct_ids _ _ Hs)). done.
  - case_decide; [|done]. split; [by split|]. cbn. lia.
Qed.

(** ** Running groups *)

Record running_inv (v : loop_vars) (ro : SchedulerRunningOutputs) (A : gmap Z (list Z)) (C : gset string)
    (cur : list nat) (T : list ScheduledSequenceGroup) (r0 : list nat) : Prop := {
  rn_cfg : configured (lv_s v);
  rn_mid : mid (block_manager (lv_s v)) (v0_groups (lv_s v)) A C (ro_preempted ro ++ v0_waiting (lv_s v)) (cur ++ v0_running (lv_s v)) T [];
  rn_order : r0 = refs_of T ++ cur ++ v0_running (lv_s v) ++ reverse (ro_preempted ro);
  rn_lists : T ≡ₚ ro_decode_seq_groups ro ++ ro_prefill_seq_groups ro;
  rn_decode : ro_prefill_seq_groups ro = [] -> T = ro_decode_seq_groups ro;
  rn_default : ch = false -> ro_prefill_seq_groups ro = [] ∧ sum_chunks T = len T;
  rn_noswap : ro_swapped_out ro = [] ∧ ro_blocks_to_swap_out ro = [];
  rn_charged : charged (lv_budget v) T;
  rn_seqs : seqs_ok (lv_budget v) T;
  rn_loras : v0_max_loras (lv_s v) ≠ None -> lv_loras v ≠ None;
}.

(** The parts that the loop leaves alone. *)
Record outside (s s' : V0Scheduler M) : Prop := {
  os_config : v0_config s' = v0_config s;
  os_cache : v0_cache_config s' = v0_cache_config s;
  os_loras : v0_max_loras s' = v0_max_loras s;
  os_waiting : v0_waiting s' = v0_waiting s;
  os_swapped : v0_swapped s' = v0_swapped s;
  os_stopped : _async_stopped s' = _async_stopped s;
  os_groups : ∀ r, r ∈ v0_waiting s -> v0_groups s' !! r = v0_groups s !! r;
  os_shape : bs_shape (block_manager s') = bs_shape (block_manager s);
}.

#[local] Instance outside_preorder : PreOrder outside.
Proof. split; [by intros s; split|]. intros s1 s2 s3 [] [? ? ? ? ? ? Hg ?]. split; try congruence.
  intros r Hr. rewrite Hg by congruence. auto. Qed.

Lemma frame_outside s s' : frame s s' -> (∀ r, r ∈ v0_waiting s -> v0_groups s' !! r = v0_groups s !! r) ->
  bs_shape (block_manager s') = bs_shape (block_manager s) -> outside s s'.
Proof. intros []. by split. Qed.

Lemma running_fresh v ro A C cur T r0 r :
  running_inv v ro A C cur T r0 -> r ∈ cur ++ v0_running (lv_s v) -> rid r ∉ (fun r => rid r) <$> refs_of T.
Proof.
  intros Hi Hr Hin. pose proof (md_rids _ _ _ _ _ _ _ _ _ _ (rn_mid _ _ _ _ _ _ _ Hi)) as Hnd.
  rewrite fmap_app in Hnd. apply NoDup_app in Hnd as (_ & _ & Hnd). rewrite fmap_app in Hnd. apply NoDup_app in Hnd as (_ & Hnd & _).
  apply (Hnd (rid r)); [by apply (list_elem_of_fmap_2 (fun r => rid r))|]. rewrite fmap_app. apply elem_of_app. by left.
Qed.

(** One preemption: [victim] is the current group or the last of the queue. *)
Lemma preempt_step v ro A C cur T r0 b loras s0 victim cur' :
  running_inv v ro A C cur T r0 -> outside (lv_s v) s0 -> block_manager s0 = block_manager (lv_s v) -> v0_groups s0 = v0_groups (lv_s v) ->
  cur ++ v0_running (lv_s v) = (cur' ++ v0_running s0) ++ [victim] ->
  charged b T -> seqs_ok b T -> (lv_loras v ≠ None -> loras ≠ None) ->
  ∃ s' A' C', _preempt s0 victim = Ok (RECOMPUTE, [], s') ∧ outside s0 s' ∧ v0_running s' = v0_running s0 ∧
    (∀ r', r' ≠ victim -> v0_groups s' !! r' = v0_groups s0 !! r') ∧
    running_inv (mkVars s' b loras) (ro_preempt ro RECOMPUTE [] victim) A' C' cur' T r0.
Proof.
  intros [H1 H2 H3 H4 H5 H6 H7 H8 H9 H10] Ho Ebm Egs Hsplit Hb Hs Hl.
  assert (Hmid : mid (block_manager s0) (v0_groups s0) A C (ro_preempted ro ++ v0_waiting (lv_s v)) (victim :: cur' ++ v0_running s0) T []).
  { rewrite Ebm, Egs. eapply mid_perm; [reflexivity| |reflexivity|reflexivity|exact H2]. by rewrite Hsplit, <-Permutation_cons_append. }
  assert (Hc0 : configured s0) by (destruct H1; split; [rewrite (os_config _ _ Ho)|rewrite (os_cache _ _ Ho)]; done).
  destruct (preempt_spec c cc Hcfg key s0 victim A C _ _ _ _ Hc0 Hmid) as (s' & A' & C' & E & Hm & Hf & Hgs & Hsh).
  exists s', A', C'. split; [done|]. split.
  { apply frame_outside; [done| |done]. intros r Hr. apply Hgs. intros ->.
    pose proof (md_rids _ _ _ _ _ _ _ _ _ _ Hmid) as Hnd. rewrite (os_waiting _ _ Ho) in Hr. rewrite !fmap_app in Hnd. apply NoDup_app in Hnd as (_ & Hnd & _).
    apply (Hnd (rid victim)); [apply elem_of_app; right; by apply (list_elem_of_fmap_2 (fun r => rid r))|]. cbn. by left. } split; [by destruct Hf|]. split; [done|].
  pose proof Hf as [F1 F2 F3 F4 F5 F6 F7]. destruct Ho as [U1 U2 U3 U4 U5 U6].
  split; cbn [lv_s lv_budget lv_loras ro_preempt ro_preempted ro_decode_seq_groups ro_prefill_seq_groups ro_swapped_out ro_blocks_to_swap_out]; try done.
  - destruct H1. split; congruence.
  - rewrite F4, F5, U4. eapply mid_perm; [|reflexivity|reflexivity|reflexivity|exact Hm]. rewrite app_comm_cons. by rewrite <-Permutation_cons_append.
  - rewrite H3, F5, reverse_app. cbn. rewrite (app_assoc cur), Hsplit, <-!app_assoc. done.
  - destruct H7 as [-> ->]. done.
  - rewrite F3, U3. auto.
Qed.

Lemma last_split (l : list nat) x : last l = Some x -> l = removelast l ++ [x].
Proof. intros [l' ->]%last_Some. by rewrite removelast_last. Qed.

Lemma can_append_total v ro A C ref T r0 :
  running_inv v ro A C [ref] T r0 -> ∃ ok, _can_append_slots (lv_s v) ref ch = Ok ok.
Proof.
  intros Hi. destruct (append_spec c cc Hcfg key (lv_s v) ref ch A C _ _ _ _ (rn_cfg _ _ _ _ _ _ _ Hi) (rn_mid _ _ _ _ _ _ _ Hi))
    as (g & q & _ & _ & _ & _ & _ & ok & E & _). eauto.
Qed.

(** The current group of the running loop. *)
Lemma running_cur v ro A C ref T r0 : running_inv v ro A C [ref] T r0 ->
  ∃ g q, v0_groups (lv_s v) !! ref = Some g ∧ one ref g q ∧ seq_status q = RUNNING ∧ staged q ∧ (ch = false -> seq_stage q = DECODE).
Proof.
  intros Hi. destruct (append_spec c cc Hcfg key (lv_s v) ref ch A C _ _ _ _ (rn_cfg _ _ _ _ _ _ _ Hi) (rn_mid _ _ _ _ _ _ _ Hi))
    as (g & q & ? & ? & ? & ? & ? & _). by exists g, q.
Qed.

Lemma preempt_until_fits_spec ref n T r0 fuel : ∀ v ro A C,
  running_inv v ro A C [ref] T r0 -> (length (v0_running (lv_s v)) < fuel)%nat ->
  ∃ ok v' ro' A' C', preempt_until_fits None fuel ref n ch v ro = Ok (ok, v', ro') ∧ outside (lv_s v) (lv_s v') ∧
    (length (v0_running (lv_s v')) <= length (v0_running (lv_s v)))%nat ∧
    if ok : bool then running_inv v' ro' A' C' [ref] T r0 ∧ _can_append_slots (lv_s v') ref ch = Ok true ∧
      v0_groups (lv_s v') !! ref = v0_groups (lv_s v) !! ref
    else running_inv v' ro' A' C' [] T r0 ∧ v0_running (lv_s v') = [].
Proof.
  induction fuel as [|fuel IH]; intros v ro A C Hi Hfuel; [lia|]. cbn [preempt_until_fits].
  destruct (can_append_total v ro A C ref T r0 Hi) as [[] Eok]; rewrite Eok; cbn [mbind result_bind].
  { exists true, v, ro, A, C. split; [done|]. split; [done|]. split; [done|done]. }
  destruct (running_cur v ro A C ref T r0 Hi) as (g & q & Hg & [O1 O2 _ _ _ _ _] & Hst & _).
  rewrite (get_group_ok (lv_s v) ref g Hg). cbn [mbind result_bind].
  assert (Hfresh : rid ref ∉ (fun r => rid r) <$> refs_of T) by (eapply running_fresh; [exact Hi|by left]).
  rewrite O2, (uncharged _ T ref n (rn_charged _ _ _ _ _ _ _ Hi) Hfresh), (max_running_one g q O1 (status_unfinished q _ Hst eq_refl)).
  destruct (seqs_subtract _ T ref (rn_charged _ _ _ _ _ _ _ Hi) (rn_seqs _ _ _ _ _ _ _ Hi) Hfresh) as [Hb Hs].
  set (b := subtract_num_seqs _ _ _) in *. set (loras := match lv_loras v with Some _ => _ | None => _ end).
  assert (Hl : lv_loras v ≠ None -> loras ≠ None) by (unfold loras; by destruct (lv_loras v)).
  destruct (last (v0_running (lv_s v))) as [victim|] eqn:El.
  - apply last_split in El. set (s0 := v0_with_running (lv_s v) _). cbn [settle_victim mbind result_bind fst snd].
    destruct (preempt_step v ro A C [ref] T r0 b loras s0 victim [ref] Hi) as (s' & A' & C' & E & Ho & Er & Hgs & Hi'); try done.
    { cbn [v0_running s0 v0_with_running v0_with_queues]. rewrite El at 1. by rewrite app_assoc. }
    rewrite E. cbn [mbind result_bind fst snd].
    assert (Hlen : (length (v0_running s') < length (v0_running (lv_s v)))%nat).
    { rewrite Er, El. cbn [v0_running s0 v0_with_running v0_with_queues]. rewrite length_app. cbn. lia. }
    destruct (IH (mkVars s' b loras) _ A' C' Hi') as (ok & v' & ro' & A2 & C2 & E2 & Ho2 & Hl2 & Hres); [cbn; lia|].
    exists ok, v', ro', A2, C2. split; [exact E2|]. split; [etrans; [|exact Ho2]; cbn; etrans; [|exact Ho]; by split|]. split; [cbn in Hl2; lia|].
    destruct ok; [|done]. destruct Hres as (K1 & K2 & K3). split; [done|]. split; [done|]. rewrite K3. apply Hgs.
    pose proof (md_rids _ _ _ _ _ _ _ _ _ _ (rn_mid _ _ _ _ _ _ _ Hi)) as Hnd. rewrite El in Hnd. intros <-. clear -Hnd.
    rewrite fmap_app in Hnd. apply NoDup_app in Hnd as (_ & _ & Hnd). cbn in Hnd. apply NoDup_cons in Hnd as [Hnd _]. apply Hnd.
    rewrite !fmap_app. apply elem_of_app. left. apply elem_of_app. right. by left.
  - apply last_None in El. cbn [settle_victim mbind result_bind fst snd].
    destruct (preempt_step v ro A C [ref] T r0 b loras (lv_s v) ref [] Hi) as (s' & A' & C' & E & Ho & Er & Hgs & Hi'); try done.
    { by rewrite El. }
    rewrite E. cbn [mbind result_bind fst snd]. exists false. eexists _, _, A', C'. split; [reflexivity|]. split; [done|].
    cbn [lv_s]. rewrite Er, El. split; [done|]. split; [exact Hi'|done].
Qed.

Lemma run_group_spec v ro A C ref n T r0 :
  running_inv v ro A C [ref] T r0 -> _can_append_slots (lv_s v) ref ch = Ok true ->
  (∀ g q, v0_groups (lv_s v) !! ref = Some g -> sg_seqs g = [q] -> chunk_ok c q n ∧ (seq_stage q = DECODE -> n = 1)) ->
  sum_chunks T + n <= sc_max_num_batched_tokens c ->
  ∃ v' ro' A' C', run_group ref n ch v ro = Ok (v', ro') ∧ outside (lv_s v) (lv_s v') ∧ v0_running (lv_s v') = v0_running (lv_s v) ∧
    running_inv v' ro' A' C' [] (T ++ [mkScheduled ref n]) r0.
Proof.
  intros Hi Hcan Hn Hle. pose proof Hi as [H1 H2 H3 H4 H5 H6 H7 H8 H9 H10].
  destruct (append_spec c cc Hcfg key (lv_s v) ref ch A C _ _ _ _ H1 H2) as (g & q & Hg & Ho & Hst & Hsg & Hdec & ok & E & Happ).
  rewrite Hcan in E. injection E as <-. pose proof Ho as [O1 O2 O3 O4 O5 O6 O7]. destruct (Hn g q Hg O1) as [Hck Hdn].
  destruct (Happ eq_refl n Hck) as (copies & s' & A' & E & Hm & Hf & Hg' & Hgs & Hsh).
  assert (Hfresh : rid ref ∉ (fun r => rid r) <$> refs_of T) by (eapply running_fresh; [exact Hi|by left]).
  destruct (charge _ T ref n H8 Hfresh ltac:(destruct Hck; lia) Hle) as (b' & Eb & Hb' & Hids & Hnum).
  unfold run_group. rewrite E. cbn [mbind result_bind fst snd]. rewrite (get_group_ok s' ref _ Hg'). cbn [mbind result_bind].
  rewrite (is_prefill_ok (init_multi_step 1 g) q O1). cbn [mbind result_bind]. change (sg_request_id (init_multi_step 1 g)) with (sg_request_id g).
  rewrite O2, Eb. cbn [mbind result_bind]. change (get_max_num_running_seqs (init_multi_step 1 g)) with (get_max_num_running_seqs g).
  rewrite (max_running_one g q O1 (status_unfinished q _ Hst eq_refl)).
  eexists _, _, A', C. split; [reflexivity|]. cbn [lv_s]. split.
  { apply frame_outside; [done| |done]. intros r Hr. apply Hgs. intros ->.
    pose proof (md_rids _ _ _ _ _ _ _ _ _ _ H2) as Hnd. rewrite !fmap_app in Hnd. apply NoDup_app in Hnd as (_ & Hnd & _).
    apply (Hnd (rid ref)); [apply elem_of_app; right; by apply (list_elem_of_fmap_2 (fun r => rid r))|]. cbn. by left. }
  split; [by destruct Hf|].
  pose proof Hf as [F1 F2 F3 F4 F5 F6 F7].
  assert (Hbud : charged (if ch then add_num_seqs b' (rid ref) 1 else b') (T ++ [mkScheduled ref n])).
  { destruct ch; [|done]. unfold add_num_seqs. case_decide; [done|]. by destruct Hb'; split. }
  assert (Hseqs : seqs_ok (if ch then add_num_seqs b' (rid ref) 1 else b') (T ++ [mkScheduled ref n])).
  { unfold seqs_ok in *. destruct ch; [|by rewrite Hnum]. unfold refs_of. rewrite fmap_app. apply count_one; [|done].
    destruct H9 as [K1 K2]. split; [by rewrite Hids|by rewrite Hnum]. }
  assert (Hstage : seq_is_prefill q = false -> mkScheduled ref n = mkScheduled ref 1).
  { intros Hp. unfold seq_is_prefill in Hp. apply bool_decide_eq_false in Hp. f_equal. apply Hdn. by destruct (seq_stage q). }
  split; cbn [lv_s lv_budget lv_loras].
  - destruct H1. split; congruence.
  - rewrite F4, F5. destruct (seq_is_prefill q); cbn [ro_preempted ro_prefill ro_decode ro_copy app];
      (eapply mid_perm; [reflexivity|reflexivity| |reflexivity|exact Hm]; by rewrite <-Permutation_cons_append).
  - rewrite H3, F5. unfold refs_of. rewrite fmap_app. cbn. destruct (seq_is_prefill q); cbn [ro_preempted ro_prefill ro_decode ro_copy]; by rewrite <-app_assoc.
  - destruct (seq_is_prefill q); cbn [ro_prefill ro_decode ro_copy ro_decode_seq_groups ro_prefill_seq_groups].
    + by rewrite H4, app_assoc.
    + rewrite <-Hstage by done. rewrite H4, <-!app_assoc. apply Permutation_app_head. by rewrite Permutation_app_comm.
  - destruct (seq_is_prefill q); cbn [ro_prefill ro_decode ro_copy ro_decode_seq_groups ro_prefill_seq_groups].
    + intros Hnil. by destruct (ro_prefill_seq_groups ro).
    + intros Hnil. by rewrite <-Hstage, (H5 Hnil) by done.
  - intros Hch. destruct (H6 Hch) as [K1 K2]. assert (Hp : seq_is_prefill q = false) by (unfold seq_is_prefill; by rewrite (Hdec Hch)).
    rewrite Hp. cbn [ro_decode ro_copy ro_prefill_seq_groups]. split; [done|]. rewrite sum_chunks_app, length_app. cbn. rewrite K2, (Hdn (Hdec Hch)). lia.
  - destruct (seq_is_prefill q); done.
  - done.
  - done.
  - rewrite F3. intros Hx. specialize (H10 Hx). by destruct (lv_loras v).
Qed.

Lemma running_pop v ro A C ref rest T r0 : running_inv v ro A C [] T r0 -> v0_running (lv_s v) = ref :: rest ->
  running_inv (mkVars (v0_with_running (lv_s v) rest) (lv_budget v) (lv_loras v)) ro A C [ref] T r0.
Proof. intros [H1 H2 H3 H4 H5 H6 H7 H8 H9 H10] E. rewrite E in *. by split. Qed.

Lemma running_loop_spec r0 fuel : ∀ v ro A C T,
  running_inv v ro A C [] T r0 -> (length (v0_running (lv_s v)) < fuel)%nat -> len r0 <= sc_max_num_seqs c ->
  ∃ v' ro' A' C' T', running_loop None fuel ch v ro = Ok (v', ro') ∧ outside (lv_s v) (lv_s v') ∧
    running_inv v' ro' A' C' [] T' r0 ∧
    (v0_running (lv_s v') = [] ∨ ch = true ∧ sc_max_num_batched_tokens c <= bg_num_batched_tokens (lv_budget v')).
Proof.
  induction fuel as [|fuel IH]; intros v ro A C T Hi Hfuel Hr0; [lia|]. cbn [running_loop].
  destruct (v0_running (lv_s v)) as [|ref rest] eqn:Er.
  { exists v, ro, A, C, T. split; [done|]. split; [done|]. split; [done|]. by left. }
  pose proof (running_pop v ro A C ref rest T r0 Hi Er) as Hi1. set (v1 := mkVars _ _ _) in Hi1.
  destruct (running_cur v1 ro A C ref T r0 Hi1) as (g & q & Hg & [O1 O2 O3 O4 O5 O6 O7] & Hst & Hsg & Hdec).
  rewrite (get_group_ok (lv_s v) ref g Hg). cbn [mbind result_bind].
  rewrite (num_new_spec c cc Hcfg _ g q _ _ _ (rn_cfg _ _ _ _ _ _ _ Hi) O1 Hst Hsg O6). cbn [mbind result_bind fst].
  pose proof (rn_charged _ _ _ _ _ _ _ Hi) as [B1 B2 B3 B4 B5 B6]. destruct Hsg as [Hc0 Hstage].
  assert (Hu : 1 <= uncomputed q) by (destruct Hstage as [[_ ->]|[_ ?]]; lia).
  assert (Hrem : 0 <= remaining_token_budget (lv_budget v)) by (unfold remaining_token_budget; lia).
  set (n := if ch then _ else _). destruct (Z.eqb_spec n 0) as [Hz|Hnz].
  { exists v, ro, A, C, T. split; [done|]. split; [done|]. split; [done|]. right. unfold n in Hz. destruct ch; [|lia].
    split; [done|]. unfold remaining_token_budget in *. lia. }
  rewrite (first_seq_ok g q O1). cbn [mbind result_bind use_async_output_proc andb].
  destruct (preempt_until_fits_spec ref n T r0 (S (length rest)) v1 ro A C Hi1) as (ok & v2 & ro2 & A2 & C2 & E2 & Ho2 & Hl2 & Hres); [cbn; lia|].
  change (mkVars _ _ _) with v1. rewrite E2. cbn [mbind result_bind fst snd].
  assert (Hnext : ∃ v3 ro3 A3 C3 T3, (if ok then run_group ref n ch v2 ro2 else Ok (v2, ro2)) = Ok (v3, ro3) ∧ outside (lv_s v2) (lv_s v3) ∧
    (length (v0_running (lv_s v3)) <= length (v0_running (lv_s v2)))%nat ∧ running_inv v3 ro3 A3 C3 [] T3 r0).
  { destruct ok; [|destruct Hres as [K1 K2]; by exists v2, ro2, A2, C2, T]. destruct Hres as (K1 & K2 & K3).
    destruct (run_group_spec v2 ro2 A2 C2 ref n T r0 K1 K2) as (v3 & ro3 & A3 & C3 & E3 & Ho3 & Er3 & Hi3).
    - intros g' q' Hg' Hq'. assert (g' = g) as -> by (rewrite K3, Hg in Hg'; congruence). assert (q' = q) as -> by congruence.
      unfold chunk_ok, n. destruct ch; (split; [split; [lia|by intros ?]|]); intros Hd; destruct Hstage as [[_ ?]|[? _]]; try congruence; lia.
    - unfold n. destruct ch eqn:Ech; [unfold remaining_token_budget; lia|]. destruct (rn_default _ _ _ _ _ _ _ Hi Ech) as [_ Hs].
      pose proof (Hdec eq_refl) as Hd. destruct Hstage as [[_ ->]|[? _]]; [|congruence]. pose proof (rn_order _ _ _ _ _ _ _ Hi) as Hord.
      assert (len T + 1 <= len r0).
      { rewrite Hord, Er. rewrite !length_app. unfold refs_of. rewrite length_fmap. cbn. lia. }
      destruct (config_bounds c cc Hcfg). lia.
    - exists v3, ro3, A3, C3, (T ++ [mkScheduled ref n]). split; [done|]. split; [done|]. rewrite Er3. done. }
  destruct Hnext as (v3 & ro3 & A3 & C3 & T3 & E3 & Ho3 & Hl3 & Hi3). rewrite E3. cbn [mbind result_bind fst snd].
  destruct (IH v3 ro3 A3 C3 T3 Hi3) as (v4 & ro4 & A4 & C4 & T4 & E4 & Ho4 & Hi4 & Hend); [cbn in Hl2, Hfuel; lia|done|].
  exists v4, ro4, A4, C4, T4. split; [done|]. split; [|done]. etrans; [|exact Ho4]. etrans; [|exact Ho3]. etrans; [|exact Ho2]. by split.
Qed.
End loops.
