(* ===== verification/V0SchedPrefill.v ===== *)
(** * Admitting waiting groups

    [_schedule_prefills] of the v0 scheduler over the invariant [mid] and the budget. *)

From stdpp Require Import base tactics list gmap sets strings.
From Stdlib Require Import ZArith QArith Lia.
From S2P Require Import Prelude.
From S2P Require Import SamplingParams.
From S2P Require Import V0Sequence.
From S2P Require Import NaiveBlocks.
From S2P Require Import BlockManager.
From S2P Require Import V0Interface.
From S2P Require Import V0Contract.
From S2P Require Import V0Scheduler.
From S2P Require Import V0SchedInv.
From S2P Require Import V0SchedOps.
From S2P Require Import V0SchedLoops.

Local Open Scope Z_scope.

Section prefill.
Context {M : Type} `{!BlockSpaceOps M} `{!BlockSpaceSpec M}.
Context (c : SchedulerConfig) (cc : V0CacheConfig) (Hcfg : config_ok c cc).
Context (clock : nat -> Q) (key : nat -> string * Z).
Implicit Types s : V0Scheduler M.
Abbreviation ch := (sc_chunked_prefill_enabled c).
Abbreviation rid r := (key r).1.
Abbreviation sid r := (key r).2.
Abbreviation mid := (mid c key).
Abbreviation one := (one c key).
Abbreviation configured := (configured c cc).
Abbreviation charged := (charged c key).
Abbreviation counted := (counted key).

(** What the loop leaves alone: all but the waiting queue, the groups, their blocks and the clock. *)
Record apart (s s' : V0Scheduler M) : Prop := {
  ap_config : v0_config s' = v0_config s;
  ap_cache : v0_cache_config s' = v0_cache_config s;
  ap_loras : v0_max_loras s' = v0_max_loras s;
  ap_running : v0_running s' = v0_running s;
  ap_swapped : v0_swapped s' = v0_swapped s;
  ap_stopped : _async_stopped s' = _async_stopped s;
}.

#[local] Instance apart_preorder : PreOrder apart.
Proof. split; [by intros s; split|]. intros s1 s2 s3 [] []. split; congruence. Qed.

(** ** The delay *)

Lemma min_arrival_ok s acc refs : (∀ r, r ∈ refs -> is_Some (v0_groups s !! r)) -> refs ≠ [] ∨ acc ≠ None ->
  ∃ t, min_arrival s acc refs = Ok (Some t).
Proof.
  revert acc. induction refs as [|r refs IH]; intros acc Hg Hne; cbn [min_arrival].
  - destruct acc as [t|]; [by exists t|]. by destruct Hne.
  - destruct (Hg r) as [g E]; [by left|]. rewrite (get_group_ok s r g E). cbn [mbind result_bind]. apply IH; [|by right].
    intros r' Hr'. apply Hg. by right.
Qed.

Lemma passed_delay_ok s : (∀ r, r ∈ v0_waiting s -> is_Some (v0_groups s !! r)) ->
  ∃ d s', _passed_delay clock s = Ok (d, s') ∧ block_manager s' = block_manager s ∧ v0_groups s' = v0_groups s ∧
    v0_waiting s' = v0_waiting s ∧ apart s s'.
Proof.
  intros Hg. unfold _passed_delay. cbn [v0_config v0_with_time v0_waiting v0_running].
  destruct (negb (Qle_bool _ _) && negb (bool_decide (v0_waiting s = []))) eqn:E; [|by eexists _, _].
  apply andb_true_iff in E as [_ E]. apply negb_true_iff, bool_decide_eq_false in E.
  set (s' := v0_with_time s _ _ _ _). destruct (min_arrival_ok s' None (v0_waiting s)) as [t Et]; [done|by left|]. rewrite Et. cbn [mbind result_bind or_raise].
  by eexists _, _.
Qed.

(** ** The loop *)

(** The group can never be scheduled: its prompt is longer than the limit, or the block
    manager answers NEVER. *)
Definition hopeless s (r : nat) : Prop :=
  ∃ g q lim, v0_groups s !! r = Some g ∧ sg_seqs g = [q] ∧ _get_prompt_limit c g = Ok lim ∧
    (lim < seq_get_len q ∨ bs_can_allocate (block_manager s) g 0 = Ok AllocNEVER).

Context (R P : list nat) (T0 : list ScheduledSequenceGroup) (K0 w0 : list nat).
(* the state when the step began *)
Context (s0 : V0Scheduler M) (Hs0 : ∃ A C, bs_inv (block_manager s0) A C).

Record prefill_inv (v : loop_vars) (po : SchedulerPrefillOutputs) (leftover : list nat) (A : gmap Z (list Z)) (C : gset string) : Prop := {
  pf_cfg : configured (lv_s v);
  pf_mid : mid (block_manager (lv_s v)) (v0_groups (lv_s v)) A C (leftover ++ P ++ v0_waiting (lv_s v)) R (T0 ++ po_seq_groups po) [];
  pf_perm : w0 ≡ₚ leftover ++ v0_waiting (lv_s v) ++ refs_of (po_seq_groups po) ++ po_ignored_seq_groups po;
  pf_fcfs : v0_max_loras (lv_s v) = None -> leftover = [] ∧ refs_of (po_seq_groups po) ++ v0_waiting (lv_s v) `sublist_of` w0;
  pf_charged : charged (lv_budget v) (T0 ++ po_seq_groups po);
  pf_counted : counted (lv_budget v) (K0 ++ refs_of (po_seq_groups po));
  pf_seqs : len (K0 ++ refs_of (po_seq_groups po)) <= sc_max_num_seqs c;
  pf_loras : v0_max_loras (lv_s v) ≠ None -> lv_loras v ≠ None;
  pf_same : ∀ r, r ∈ leftover ++ v0_waiting (lv_s v) -> v0_groups (lv_s v) !! r = v0_groups s0 !! r;
  pf_shape : bs_shape (block_manager (lv_s v)) = bs_shape (block_manager s0);
  pf_ignored : ∀ r, r ∈ po_ignored_seq_groups po -> hopeless s0 r;
}.

Context (HK0 : ∀ r, r ∈ K0 -> r ∈ R ++ refs_of T0).

Lemma pf_groups v po leftover A C : prefill_inv v po leftover A C -> ∀ r, r ∈ v0_waiting (lv_s v) -> is_Some (v0_groups (lv_s v) !! r).
Proof.
  intros Hi r Hr. destruct (md_w _ _ _ _ _ _ _ _ _ _ (pf_mid _ _ _ _ _ Hi) r) as (g & q & Hg & _); [|by exists g].
  apply elem_of_app. right. apply elem_of_app. by right.
Qed.

(** The head of the waiting queue is set aside, or ignored. *)
Lemma prefill_skip v po leftover A C ref rest : prefill_inv v po leftover A C -> v0_waiting (lv_s v) = ref :: rest ->
  v0_max_loras (lv_s v) ≠ None ->
  prefill_inv (mkVars (v0_with_waiting (lv_s v) rest) (lv_budget v) (lv_loras v)) po (ref :: leftover) A C.
Proof.
  intros [H1 H2 H3 H4 H5 H6 H7 H8 H9 H10 H11] E Hl. rewrite E in *. split; cbn; try done; [| |intros r Hr; apply H9; set_solver].
  - eapply mid_perm; [|reflexivity|reflexivity|reflexivity|exact H2]. rewrite (app_assoc leftover), <-Permutation_middle. cbn. by rewrite <-app_assoc.
  - rewrite H3. cbn. by rewrite <-Permutation_middle.
Qed.

Lemma prefill_ignore v po leftover A C ref rest g : prefill_inv v po leftover A C -> v0_waiting (lv_s v) = ref :: rest -> hopeless s0 ref ->
  prefill_inv (mkVars (ignore_group (v0_with_waiting (lv_s v) rest) ref g (has_status WAITING)) (lv_budget v) (lv_loras v))
    (mkPrefillOutputs (po_seq_groups po) (po_ignored_seq_groups po ++ [ref]) (po_num_lookahead_slots po)) leftover A C.
Proof.
  intros [H1 H2 H3 H4 H5 H6 H7 H8 H9 H10 H11] E Hhl. rewrite E in *.
  assert (Hnr : ∀ r, r ∈ leftover ++ rest -> r ≠ ref).
  { intros r Hr ->. assert (Hmid : mid (block_manager (lv_s v)) (v0_groups (lv_s v)) A C (ref :: leftover ++ P ++ rest) R (T0 ++ po_seq_groups po) []).
    { eapply mid_perm; [|reflexivity|reflexivity|reflexivity|exact H2]. by rewrite (app_assoc leftover), <-Permutation_middle, <-app_assoc. }
    pose proof (md_rids _ _ _ _ _ _ _ _ _ _ Hmid) as Hnd. rewrite <-app_comm_cons, fmap_cons in Hnd. apply NoDup_cons in Hnd as [Hnd _].
    apply Hnd. apply (list_elem_of_fmap_2 (fun r => rid r)). set_solver. }
  split; cbn [lv_s lv_budget lv_loras po_seq_groups po_ignored_seq_groups]; try done.
  - apply (ignore_spec c key (v0_with_waiting (lv_s v) rest) ref g). cbn.
    eapply mid_perm; [|reflexivity|reflexivity|reflexivity|exact H2]. by rewrite (app_assoc leftover), <-Permutation_middle, <-app_assoc.
  - cbn. rewrite H3. cbn. rewrite <-Permutation_middle. rewrite !app_assoc. by rewrite <-Permutation_cons_append.
  - cbn. intros Hl. destruct (H4 Hl) as [K1 K2]. split; [done|]. etrans; [|exact K2]. apply sublist_app; [done|by apply sublist_cons].
  - cbn. intros r Hr. rewrite lookup_insert_ne by (by apply not_eq_sym, Hnr). apply H9. set_solver.
  - intros r [Hr|Hr%list_elem_of_singleton]%elem_of_app; [by apply H11|by subst].
Qed.

Lemma can_schedule_ok b n : 0 <= n -> ∃ ok, can_schedule b n 1 = Ok ok ∧
  (ok = true -> bg_num_batched_tokens b + n <= token_budget b ∧ bg_num_curr_seqs b + 1 <= bg_max_num_seqs b).
Proof.
  intros Hn. unfold can_schedule. rewrite (proj2 (Z.leb_le 0 n) Hn). cbn [py_assert mbind result_bind negb Z.eqb].
  eexists. split; [reflexivity|]. intros [H1%Z.leb_le H2%Z.leb_le]%andb_true_iff. lia.
Qed.

(** The head of the waiting queue is admitted. *)
Lemma prefill_admit v po leftover A C ref rest n :
  prefill_inv v po leftover A C -> v0_waiting (lv_s v) = ref :: rest ->
  ∃ g q, v0_groups (lv_s v) !! ref = Some g ∧ one ref g q ∧ seq_status q = WAITING ∧ seq_stage q = PREFILL ∧ seq_num_computed_tokens q = 0 ∧
  ∃ st, bs_can_allocate (block_manager (lv_s v)) g 0 = Ok st ∧
  (st = AllocOK -> chunk_ok c q n -> bg_num_batched_tokens (lv_budget v) + n <= token_budget (lv_budget v) ->
   bg_num_curr_seqs (lv_budget v) + 1 <= bg_max_num_seqs (lv_budget v) ->
   ∃ s1 g1 b A' C', _allocate_and_set_running (v0_with_waiting (lv_s v) rest) ref = Ok s1 ∧ v0_groups s1 !! ref = Some g1 ∧
     add_num_batched_tokens (lv_budget v) (sg_request_id g) n 0 = Ok b ∧ apart (lv_s v) s1 ∧ v0_waiting s1 = rest ∧
     prefill_inv (mkVars (v0_set_group s1 ref (init_multi_step 1 g1)) (add_num_seqs b (sg_request_id g) 1) (lora_add (lv_s v) (lv_loras v) g))
       (mkPrefillOutputs (po_seq_groups po ++ [mkScheduled ref n]) (po_ignored_seq_groups po) (po_num_lookahead_slots po)) leftover A' C').
Proof.
  intros [H1 H2 H3 H4 H5 H6 H7 H8 H9 H10 H11] E. set (s' := v0_with_waiting (lv_s v) rest).
  assert (Hmid : mid (block_manager s') (v0_groups s') A C (ref :: leftover ++ P ++ rest) R (T0 ++ po_seq_groups po) []).
  { rewrite E in H2. eapply mid_perm; [|reflexivity|reflexivity|reflexivity|exact H2]. by rewrite (app_assoc leftover), <-Permutation_middle, <-app_assoc. }
  assert (Hc' : configured s') by exact H1.
  destruct (allocate_spec c cc Hcfg key s' ref A C _ _ _ _ Hc' Hmid) as (g & q & Hg & Ho & Hst & Hpf & Hcomp & st & Est & Hall).
  exists g, q. split; [done|]. split; [done|]. split; [done|]. split; [done|]. split; [done|]. exists st. split; [done|].
  intros Hst' Hck Hle Hseq. destruct (Hall Hst' n Hck) as (s1 & g1 & A' & C' & E1 & Hg1 & Hm1 & [F1 F2 F3 F4 F5 F6 F7] & Hgs & Hsh).
  pose proof H5 as [B1 B2 B3 B4 B5 B6]. pose proof H6 as [D1 D2].
  assert (Hnew : ∀ r, r ∈ R ++ refs_of (T0 ++ po_seq_groups po) -> rid r ≠ rid ref).
  { intros r Hr Heq. pose proof (md_rids _ _ _ _ _ _ _ _ _ _ Hmid) as Hnd. rewrite <-app_comm_cons, fmap_cons in Hnd. apply NoDup_cons in Hnd as [Hnd _].
    apply Hnd. rewrite <-Heq. apply (list_elem_of_fmap_2 (fun r => rid r)). apply elem_of_app. right. rewrite app_nil_r. done. }
  assert (HnT : rid ref ∉ (fun r => rid r) <$> refs_of (T0 ++ po_seq_groups po)).
  { intros (r & Hr & Hin)%list_elem_of_fmap. apply (Hnew r); [apply elem_of_app; by right|done]. }
  assert (HnK : rid ref ∉ (fun r => rid r) <$> K0 ++ refs_of (po_seq_groups po)).
  { intros (r & Hr & Hin)%list_elem_of_fmap. apply (Hnew r); [|done]. unfold refs_of in *. rewrite fmap_app.
    apply elem_of_app in Hin as [Hin%HK0|Hin]; set_solver. }
  destruct (charge c key _ _ ref n H5 HnT ltac:(destruct Hck; lia) ltac:(lia)) as (b & Eb & Hb & Hids & Hnum).
  pose proof (on_rid _ _ _ _ _ Ho) as Hrid. rewrite <-Hrid in Eb. exists s1, g1, b, A', C'. split; [done|]. split; [done|]. split; [done|].
  split; [by split|]. split; [done|].
  assert (Hcnt : counted (add_num_seqs b (rid ref) 1) ((K0 ++ refs_of (po_seq_groups po)) ++ [ref])).
  { apply count_one; [|done]. split; [by rewrite Hids|by rewrite Hnum]. }
  rewrite Hrid. split; cbn [lv_s lv_budget lv_loras po_seq_groups po_ignored_seq_groups].
  - destruct H1 as [G1 G2]. split; cbn; [by rewrite F1|by rewrite F2].
  - cbn [v0_waiting v0_set_group v0_with_groups]. rewrite F4. cbn. eapply mid_perm; [reflexivity|reflexivity| |reflexivity|exact Hm1].
    rewrite app_assoc. by rewrite <-Permutation_cons_append.
  - cbn. rewrite F4. cbn. rewrite H3, E. unfold refs_of. rewrite fmap_app. cbn. rewrite <-!app_assoc. apply Permutation_app_head. cbn.
    rewrite (app_assoc rest), <-Permutation_middle. by rewrite <-app_assoc, <-Permutation_middle.
  - cbn. rewrite F3, F4. cbn. intros Hl. destruct (H4 Hl) as [K1 K2]. split; [done|]. rewrite E in K2. unfold refs_of. rewrite fmap_app. cbn. by rewrite <-app_assoc.
  - unfold add_num_seqs. rewrite app_assoc. case_decide; [done|]. by destruct Hb; split.
  - unfold refs_of in *. rewrite fmap_app, app_assoc. done.
  - unfold refs_of in *. rewrite fmap_app, app_assoc, length_app. cbn. lia.
  - cbn. rewrite F3. intros Hl. unfold lora_add. cbn in Hl. specialize (H8 Hl). destruct (v0_max_loras (lv_s v)), (lv_loras v); done.
  - cbn. rewrite F4. cbn. intros r Hr.
    assert (Hne : r ≠ ref).
    { intros ->. pose proof (md_rids _ _ _ _ _ _ _ _ _ _ Hmid) as Hnd. rewrite <-app_comm_cons, fmap_cons in Hnd. apply NoDup_cons in Hnd as [Hnd _].
      apply Hnd. apply (list_elem_of_fmap_2 (fun r => rid r)). set_solver. }
    rewrite lookup_insert_ne by done. rewrite Hgs by done. apply H9. rewrite E. set_solver.
  - cbn. rewrite Hsh. exact H10.
  - done.
Qed.

Lemma lora_blocked_ok s loras g : (v0_max_loras s ≠ None -> loras ≠ None) -> ∃ b, lora_blocked s loras g = Ok b ∧ (b = true -> v0_max_loras s ≠ None).
Proof.
  intros Hl. unfold lora_blocked. destruct (v0_max_loras s); [|by exists false]. destruct loras; [|by destruct Hl].
  cbn [or_raise mbind result_bind]. eexists. split; [reflexivity|]. done.
Qed.

Lemma prefill_loop_spec fuel : ∀ v po leftover A C,
  prefill_inv v po leftover A C -> (length (v0_waiting (lv_s v)) < fuel)%nat ->
  ∃ v' po' leftover' A' C', prefill_loop clock fuel ch v po leftover = Ok (v', po', leftover') ∧ apart (lv_s v) (lv_s v') ∧
    prefill_inv v' po' leftover' A' C' ∧
    (sc_max_num_batched_tokens c <= bg_num_batched_tokens (lv_budget v) -> po_seq_groups po' = po_seq_groups po).
Proof.
  induction fuel as [|fuel IH]; intros v po leftover A C Hi Hfuel; [lia|]. cbn [prefill_loop].
  destruct (passed_delay_ok (lv_s v) (pf_groups v po leftover A C Hi)) as (d & s1 & Ed & Ebm & Egs & Ewt & Hap). rewrite Ed. cbn [mbind result_bind fst snd].
  set (v1 := mkVars s1 (lv_budget v) (lv_loras v)).
  assert (Hi1 : prefill_inv v1 po leftover A C).
  { destruct Hi as [H1 H2 H3 H4 H5 H6 H7 H8 H9 H10 H11]. destruct H1 as [G1 G2], Hap as [P1 P2 P3 P4 P5 P6]. split; cbn; rewrite ?Ebm, ?Egs, ?Ewt, ?P3; try done.
    split; congruence. }
  destruct (v0_waiting s1) as [|ref rest] eqn:Ew.
  { exists v1, po, leftover, A, C. done. }
  destruct d; cbn [negb]; [|by exists v1, po, leftover, A, C].
  destruct (prefill_admit v1 po leftover A C ref rest 0 Hi1 Ew) as (g & q & Hg & Ho & Hst & Hpf & Hcomp & st & Est & _).
  pose proof Ho as [O1 O2 O3 O4 O5 [lim Hlim] O7].
  rewrite (get_group_ok s1 ref g Hg). cbn [mbind result_bind]. rewrite (get_seqs_single g q _ O1 Hst).
  cbn [mbind result_bind]. pose proof (staged_waiting q O4 Hpf Hcomp) as Hsg.
  rewrite (num_new_spec c cc Hcfg s1 g q _ _ _ (pf_cfg _ _ _ _ _ Hi1) O1 Hst Hsg (ex_intro _ lim Hlim)). cbn [mbind result_bind fst snd].
  set (n := if ch then _ else _). rewrite Z.add_0_r.
  assert (Hu : uncomputed q = seq_get_len q) by (unfold uncomputed; lia).
  assert (Has : ch || (n =? seq_get_len q) = true) by (unfold n; destruct ch; [done|]; rewrite Hu; by rewrite Z.eqb_refl).
  rewrite Has. cbn [py_assert mbind result_bind]. destruct (pf_cfg _ _ _ _ _ Hi1) as [Ec Ecc]. cbn [lv_s v1] in Ec, Ecc. rewrite Ec, Hlim. cbn [mbind result_bind].
  set (v_ign := mkVars (ignore_group _ _ _ _) _ _). set (po_ign := mkPrefillOutputs _ (_ ++ [ref]) _).
  assert (Hg0 : v0_groups s0 !! ref = Some g) by (rewrite <-(pf_same _ _ _ _ _ Hi1 ref); [done|cbn; rewrite Ew; set_solver]).
  assert (Hign : hopeless s0 ref -> ∃ v' po' leftover' A' C', prefill_loop clock fuel ch v_ign po_ign leftover = Ok (v', po', leftover') ∧ apart (lv_s v) (lv_s v') ∧
    prefill_inv v' po' leftover' A' C' ∧ (sc_max_num_batched_tokens c <= bg_num_batched_tokens (lv_budget v) -> po_seq_groups po' = po_seq_groups po)).
  { intros Hhl. destruct (IH v_ign po_ign leftover A C) as (v' & po' & lo' & A' & C' & E' & Hap' & Hi' & Hno).
    - by apply (prefill_ignore v1 po leftover A C ref rest g Hi1).
    - cbn. rewrite <-Ewt in Hfuel. cbn in Hfuel. lia.
    - exists v', po', lo', A', C'. split; [done|]. split; [|done]. etrans; [exact Hap|]. etrans; [|exact Hap']. by split. }
  destruct (Z.ltb_spec lim n) as [Hover|_].
  { apply Hign. exists g, q, lim. split; [done|]. split; [done|]. split; [done|]. left. eapply Z.lt_le_trans; [exact Hover|].
    unfold n. rewrite Hu. destruct ch; [apply Z.le_min_r || apply Z.le_min_l|done]. } rewrite (config_single c cc Hcfg), andb_false_l. change (bs_can_allocate (block_manager s1) g 0) with (bs_can_allocate (block_manager (lv_s v1)) g 0).
  rewrite Est. cbn [mbind result_bind]. destruct st; [|by exists v1, po, leftover, A, C|].
  2: { apply Hign. exists g, q, lim. split; [done|]. split; [done|]. split; [done|]. right. destruct Hs0 as (A0 & C0 & Hs0').
    eapply (bs_never_ok _ _ _ _ _ _ g q 0 (md_bm _ _ _ _ _ _ _ _ _ _ (pf_mid _ _ _ _ _ Hi1)) Hs0'); [symmetry; apply Hi1|done|done|exact Est]. }
  destruct (lora_blocked_ok s1 (lv_loras v) g (pf_loras _ _ _ _ _ Hi1)) as (blk & Eb & Hblk). cbn [lv_loras v1]. rewrite Eb. cbn [mbind result_bind].
  assert (Hrest : (length rest < fuel)%nat) by (rewrite <-Ewt in Hfuel; cbn in Hfuel; lia).
  destruct blk.
  { destruct (IH _ po (ref :: leftover) A C (prefill_skip v1 po leftover A C ref rest Hi1 Ew (Hblk eq_refl))) as (v' & po' & lo' & A' & C' & E' & Hap' & Hi' & Hno); [cbn; lia|].
    exists v', po', lo', A', C'. split; [done|]. split; [|done]. etrans; [exact Hap|]. etrans; [|exact Hap']. by split. }
  destruct (Z.leb_spec (sc_max_num_batched_tokens c) (bg_num_batched_tokens (lv_budget v1))) as [|Hlt]; [by exists v1, po, leftover, A, C|].
  rewrite (max_running_one g q O1 (status_unfinished q _ Hst eq_refl)).
  destruct (Z.eqb_spec n 0) as [|Hnz]; cbn [mbind result_bind]; [by exists v1, po, leftover, A, C|].
  pose proof (pf_charged _ _ _ _ _ Hi1) as [B1 B2 B3 B4 B5 B6].
  assert (Hn : 1 <= n <= uncomputed q ∧ (ch = false -> n = uncomputed q)).
  { destruct Hsg as [_ [[? _]|[_ ?]]]; [congruence|]. unfold n in *. unfold remaining_token_budget in *. cbn [lv_budget v1] in *. destruct ch; [|lia]. split; [lia|done]. }
  destruct (can_schedule_ok (lv_budget v1) n ltac:(lia)) as ([] & Eok & Hok); rewrite Eok; cbn [mbind result_bind negb]; [|by exists v1, po, leftover, A, C].
  destruct (Hok eq_refl) as [Hok1 Hok2].
  destruct (prefill_admit v1 po leftover A C ref rest n Hi1 Ew) as (g' & q' & Hg' & [O1' _ _ _ _ _ _] & _ & _ & _ & st' & Est' & Hadm).
  assert (g' = g) as -> by congruence. assert (q' = q) as -> by congruence. rewrite Est in Est'. injection Est' as <-.
  destruct (Hadm eq_refl Hn Hok1 Hok2) as (s2 & g1 & b & A' & C' & E2 & Hg1 & Eb2 & Hap2 & Ew2 & Hi2).
  cbn [lv_s v1] in E2. rewrite E2. cbn [mbind result_bind]. rewrite andb_false_r, (get_group_ok s2 ref g1 Hg1). cbn [mbind result_bind].
  rewrite (co_steps _ _ Hcfg), init_multi_ok. cbn [mbind result_bind]. rewrite Eb2. cbn [mbind result_bind].
  destruct (IH _ _ leftover A' C' Hi2) as (v' & po' & lo' & A2 & C2 & E' & Hap' & Hi' & Hno); [cbn; rewrite Ew2; lia|].
  exists v', po', lo', A2, C2. split; [done|]. split; [|split; [done|cbn [lv_budget v1] in Hlt; lia]].
  etrans; [exact Hap|]. etrans; [exact Hap2|]. etrans; [|exact Hap']. by split.
Qed.

(** The whole of [_schedule_prefills]. *)
Lemma schedule_prefills_spec v A C :
  prefill_inv v (mkPrefillOutputs [] [] (_get_num_lookahead_slots (v0_config (lv_s v)) true ch)) [] A C ->
  ∃ v' po A' C', _schedule_prefills clock v ch = Ok (v', po) ∧ apart (lv_s v) (lv_s v') ∧ prefill_inv v' po [] A' C' ∧
    (sc_max_num_batched_tokens c <= bg_num_batched_tokens (lv_budget v) -> po_seq_groups po = []).
Proof.
  intros Hi. unfold _schedule_prefills.
  destruct (prefill_loop_spec (S (length (v0_waiting (lv_s v)))) v _ [] A C Hi ltac:(lia)) as (v1 & po & lo & A' & C' & E & Hap & Hi1 & Hno).
  rewrite E. cbn [mbind result_bind]. set (s1 := v0_with_waiting _ _). set (s2 := match po_seq_groups po with [] => _ | _ => _ end).
  assert (Hs2 : block_manager s2 = block_manager (lv_s v1) ∧ v0_groups s2 = v0_groups (lv_s v1) ∧ v0_waiting s2 = extendleft lo (v0_waiting (lv_s v1)) ∧ apart (lv_s v1) s2).
  { unfold s2. destruct (po_seq_groups po); done. }
  destruct Hs2 as (Ebm & Egs & Ew & Hap2). eexists _, po, A', C'. split; [reflexivity|]. cbn [lv_s]. split; [by etrans|]. split; [|done].
  destruct Hi1 as [H1 H2 H3 H4 H5 H6 H7 H8 H9 H10 H11]. destruct H1 as [G1 G2], Hap2 as [P1 P2 P3 P4 P5 P6]. unfold extendleft in Ew.
  split; cbn [lv_s lv_budget lv_loras]; rewrite ?Ebm, ?Egs, ?Ew, ?P3; try done.
  - split; congruence.
  - eapply mid_perm; [|reflexivity|reflexivity|reflexivity|exact H2]. cbn. rewrite !app_assoc. apply Permutation_app_tail.
    rewrite Permutation_app_comm. apply Permutation_app_head. symmetry. apply reverse_Permutation.
  - rewrite H3. cbn. rewrite !app_assoc. do 3 apply Permutation_app_tail. symmetry. apply reverse_Permutation.
  - intros Hl. destruct (H4 Hl) as [-> K2]. done.
  - intros r [Hr%elem_of_reverse|Hr]%elem_of_app; apply H9; set_solver.
Qed.
End prefill.
