(* ===== verification/V0SchedPriority.v ===== *)
(** * Preemption by priority

    [_schedule_priority_preemption] of the v0 scheduler: sorting the queues and moving
    running groups of lower priority back to the waiting queue. *)

From stdpp Require Import base tactics list gmap sets strings.
From Stdlib Require Import ZArith QArith Lia.
From S2P Require Import Prelude.
From S2P Require Import SamplingParams.
From S2P Require Import V0Sequence.
From S2P Require Import NaiveBlocks.
From S2P Require Import BlockManager.
From S2P Require Import V0Interface.
From S2P Require Import V0Contract.
From S2P Require Import V0Scheduler.
From S2P Require Import V0SchedInv.
From S2P Require Import V0SchedOps.
From S2P Require Import V0SchedLoops.
From S2P Require Import V0SchedPrefill.

Local Open Scope Z_scope.

Lemma insert_with_perm {A} (leb : A -> A -> bool) x l : insert_with leb x l ≡ₚ x :: l.
Proof. induction l as [|y l IH]; [done|]. cbn [insert_with]. case_match; [done|]. rewrite IH. apply Permutation_swap. Qed.

Lemma sort_with_perm {A} (leb : A -> A -> bool) l : sort_with leb l ≡ₚ l.
Proof. induction l as [|x l IH]; [done|]. unfold sort_with in *. cbn [foldr]. by rewrite insert_with_perm, IH. Qed.

Section priority.
Context {M : Type} `{!BlockSpaceOps M} `{!BlockSpaceSpec M}.
Context (c : SchedulerConfig) (cc : V0CacheConfig) (Hcfg : config_ok c cc).
Context (key : nat -> string * Z).
Implicit Types s : V0Scheduler M.
Abbreviation ch := (sc_chunked_prefill_enabled c).
Abbreviation mid := (mid c key).
Abbreviation configured := (configured c cc).

Lemma groups_of_ok s refs : (∀ r, r ∈ refs -> is_Some (v0_groups s !! r)) -> ∃ l, groups_of s refs = Ok l ∧ l.*1 = refs.
Proof.
  induction refs as [|r refs IH]; intros Hg; [by exists []|]. cbn [groups_of]. destruct (Hg r) as [g E]; [by left|].
  rewrite (get_group_ok s r g E). cbn [mbind result_bind]. destruct IH as (l & -> & El); [intros r' Hr'; apply Hg; by right|].
  cbn [mbind result_bind]. eexists. split; [reflexivity|]. cbn. by rewrite El.
Qed.

Lemma sort_by_priority_ok s refs : (∀ r, r ∈ refs -> is_Some (v0_groups s !! r)) -> ∃ l, sort_by_priority s refs = Ok l ∧ l ≡ₚ refs.
Proof.
  intros Hg. destruct (groups_of_ok s refs Hg) as (l & E & <-). unfold sort_by_priority. rewrite E. cbn [mbind result_bind].
  eexists. split; [reflexivity|]. apply fmap_Permutation, sort_with_perm.
Qed.

Lemma mid_groups m gs A C W R T F r : mid m gs A C W R T F -> r ∈ W ++ R -> is_Some (gs !! r).
Proof.
  intros Hm [Hr|Hr]%elem_of_app.
  - destruct (md_w _ _ _ _ _ _ _ _ _ _ Hm r Hr) as (g & q & Hg & _). by exists g.
  - destruct (md_r _ _ _ _ _ _ _ _ _ _ Hm r Hr) as (g & q & ts & Hg & _). by exists g.
Qed.

(** The budget of the default policy before anything was scheduled. *)
Definition idle_budget (b : SchedulingBudget) : Prop := charged c key b [] ∧ bg_num_curr_seqs b <= sc_max_num_seqs c.

Lemma idle_subtract b x n : idle_budget b -> subtract_num_batched_tokens b x n = b ∧ idle_budget (subtract_num_seqs b x 1).
Proof.
  intros [Hb Hs]. split.
  - unfold subtract_num_batched_tokens. rewrite decide_False; [done|]. rewrite (cg_ids _ _ _ _ Hb). apply not_elem_of_nil.
  - unfold subtract_num_seqs. case_decide; [|done]. split; [by destruct Hb; split|]. cbn. lia.
Qed.

Lemma force_preemptions_spec ref n fuel : ∀ s b running count A C,
  configured s -> mid (block_manager s) (v0_groups s) A C (ref :: v0_waiting s) running [] [] -> idle_budget b -> 0 <= n ->
  (length running < fuel)%nat ->
  ∃ s' b' running' count' A' C', force_preemptions fuel ref n 1 s b running count = Ok (s', b', running', count') ∧
    configured s' ∧ mid (block_manager s') (v0_groups s') A' C' (ref :: v0_waiting s') running' [] [] ∧ idle_budget b' ∧
    v0_waiting s' ++ running' ≡ₚ v0_waiting s ++ running ∧ v0_swapped s' = v0_swapped s ∧ _async_stopped s' = _async_stopped s ∧
    v0_max_loras s' = v0_max_loras s ∧ (length running' <= length running)%nat.
Proof.
  induction fuel as [|fuel IH]; intros s b running count A C Hc Hm Hb Hn Hfuel; [lia|]. cbn [force_preemptions].
  destruct (last running) as [victim|] eqn:El; [|exists s, b, running, count, A, C; done]. apply last_split in El.
  assert (Hvic : victim ∈ running) by (rewrite El; apply elem_of_app; right; by left).
  destruct (md_r _ _ _ _ _ _ _ _ _ _ Hm victim Hvic) as (gv & qv & ts & Hgv & [O1 O2 O3 O4 O5 O6 O7] & Hst & Hsg & _).
  rewrite (get_group_ok s victim gv Hgv). cbn [mbind result_bind].
  destruct (allocate_spec c cc Hcfg key s ref A C _ _ _ _ Hc Hm) as (g & q & Hg & _ & _ & _ & _ & st & Est & _).
  rewrite (get_group_ok s ref g Hg). cbn [mbind result_bind].
  destruct (priority_leb _ _); [exists s, b, running, count, A, C; done|]. rewrite Est. cbn [mbind result_bind].
  assert (Hfits : ∃ fits, (if (0 <? n) && bool_decide (st = AllocOK) then can_schedule b n 1 else Ok false) = Ok fits).
  { destruct (_ && _); [|by eauto]. destruct (can_schedule_ok b n Hn) as (ok & -> & _). eauto. }
  destruct Hfits as [[] ->]; cbn [mbind result_bind]; [exists s, b, running, count, A, C; done|].
  rewrite (num_new_spec c cc Hcfg s gv qv _ _ _ Hc O1 Hst Hsg O6). cbn [mbind result_bind fst].
  rewrite (max_running_one gv qv O1 (status_unfinished qv _ Hst eq_refl)).
  destruct (idle_subtract b (sg_request_id gv) (uncomputed qv) Hb) as [-> Hb'].
  assert (Hm' : mid (block_manager s) (v0_groups s) A C (ref :: v0_waiting s) (victim :: removelast running) [] []).
  { eapply mid_perm; [reflexivity| |reflexivity|reflexivity|exact Hm]. rewrite El at 1. by rewrite <-Permutation_cons_append. }
  destruct (preempt_spec c cc Hcfg key s victim A C _ _ _ _ Hc Hm') as (s1 & A1 & C1 & E1 & Hm1 & [F1 F2 F3 F4 F5 F6 F7] & _).
  rewrite E1. cbn [mbind result_bind snd]. set (s2 := v0_with_waiting s1 _).
  destruct (IH s2 (subtract_num_seqs b (sg_request_id gv) 1) (removelast running) (count + 1) A1 C1) as (s' & b' & run' & n' & A' & C' & E & K1 & K2 & K3 & K4 & K5 & K6 & K7 & K8).
  - destruct Hc. split; cbn; congruence.
  - cbn. rewrite F4. eapply mid_perm; [|reflexivity|reflexivity|reflexivity|exact Hm1]. apply Permutation_swap.
  - done.
  - done.
  - rewrite El in Hfuel. rewrite length_app in Hfuel. cbn in Hfuel. lia.
  - exists s', b', run', n', A', C'. split; [done|]. split; [done|]. split; [done|]. split; [done|]. split; [|cbn in *; split; [congruence|split; [congruence|split; [congruence|rewrite El, length_app; cbn; lia]]]].
    rewrite K4. change (v0_waiting s2) with (victim :: v0_waiting s1). rewrite F4. clear -El. rewrite El at 2.
    rewrite app_assoc. apply (Permutation_cons_append (v0_waiting s ++ removelast running)).
Qed.

Lemma priority_preemption_spec v A C :
  configured (lv_s v) -> mid (block_manager (lv_s v)) (v0_groups (lv_s v)) A C (v0_waiting (lv_s v)) (v0_running (lv_s v)) [] [] ->
  idle_budget (lv_budget v) ->
  ∃ v' n A' C', _schedule_priority_preemption v = Ok (v', n) ∧ configured (lv_s v') ∧
    mid (block_manager (lv_s v')) (v0_groups (lv_s v')) A' C' (v0_waiting (lv_s v')) (v0_running (lv_s v')) [] [] ∧ idle_budget (lv_budget v') ∧
    v0_waiting (lv_s v') ++ v0_running (lv_s v') ≡ₚ v0_waiting (lv_s v) ++ v0_running (lv_s v) ∧
    v0_swapped (lv_s v') = v0_swapped (lv_s v) ∧ _async_stopped (lv_s v') = _async_stopped (lv_s v) ∧
    v0_max_loras (lv_s v') = v0_max_loras (lv_s v) ∧ lv_loras v' = lv_loras v ∧
    len (v0_running (lv_s v')) <= len (v0_running (lv_s v)).
Proof.
  intros Hc Hm Hb. unfold _schedule_priority_preemption. set (s := lv_s v) in *.
  destruct (sort_by_priority_ok s (v0_running s)) as (run & Er & Hrun); [intros r Hr; eapply mid_groups; [exact Hm|set_solver]|].
  rewrite Er. cbn [mbind result_bind].
  assert (Hx : ∃ s1 b1 run1 n1 A1 C1, (match v0_waiting s with
      | [] => Ok (s, lv_budget v, run, 0)
      | ref :: rest =>
          g ← get_group s ref;
          n ← _get_num_new_uncached_and_cached_tokens s g WAITING false (lv_budget v);
          y ← force_preemptions (S (length run)) ref n.1 (get_max_num_running_seqs g) (v0_with_waiting s rest) (lv_budget v) run 0;
          let '(s, b, running, count) := y in Ok (v0_with_waiting s (ref :: v0_waiting s), b, running, count)
      end) = Ok (s1, b1, run1, n1) ∧ configured s1 ∧ mid (block_manager s1) (v0_groups s1) A1 C1 (v0_waiting s1) run1 [] [] ∧ idle_budget b1 ∧
      v0_waiting s1 ++ run1 ≡ₚ v0_waiting s ++ v0_running s ∧ v0_swapped s1 = v0_swapped s ∧ _async_stopped s1 = _async_stopped s ∧
      v0_max_loras s1 = v0_max_loras s ∧ (length run1 <= length run)%nat).
  { destruct (v0_waiting s) as [|ref rest] eqn:Ew.
    - exists s, (lv_budget v), run, 0, A, C. split; [done|]. split; [done|]. split; [|rewrite Ew, Hrun; done]. rewrite Ew.
      eapply mid_perm; [reflexivity|symmetry; exact Hrun|reflexivity|reflexivity|exact Hm].
    - destruct (md_w _ _ _ _ _ _ _ _ _ _ Hm ref) as (g & q & Hg & [O1 O2 O3 O4 O5 O6 O7] & Hst & Hpf & Hcomp); [by left|].
      rewrite (get_group_ok s ref g Hg). cbn [mbind result_bind]. pose proof (staged_waiting q O4 Hpf Hcomp) as Hsg.
      rewrite (num_new_spec c cc Hcfg s g q _ _ _ Hc O1 Hst Hsg O6). cbn [mbind result_bind fst].
      rewrite (max_running_one g q O1 (status_unfinished q _ Hst eq_refl)).
      destruct (force_preemptions_spec ref (uncomputed q) (S (length run)) (v0_with_waiting s rest) (lv_budget v) run 0 A C)
        as (s1 & b1 & run1 & n1 & A1 & C1 & E & K1 & K2 & K3 & K4 & K5 & K6 & K7 & K8); [done| |done|destruct Hsg as [_ [[_ ->]|[_ ?]]]; lia|lia|].
      { cbn. eapply mid_perm; [reflexivity|symmetry; exact Hrun|reflexivity|reflexivity|exact Hm]. }
      rewrite E. cbn [mbind result_bind]. eexists _, _, _, _, A1, C1. split; [reflexivity|]. split; [done|]. split; [done|]. split; [done|].
      split; [|done]. cbn. rewrite K4. cbn. by rewrite Hrun. }
  destruct Hx as (s1 & b1 & run1 & n1 & A1 & C1 & E & K1 & K2 & K3 & K4 & K5 & K6 & K7 & K8). rewrite E. cbn [mbind result_bind].
  destruct (sort_by_priority_ok s1 (v0_waiting s1)) as (wt & Ew & Hwt); [intros r Hr; eapply mid_groups; [exact K2|set_solver]|].
  rewrite Ew. cbn [mbind result_bind]. eexists _, n1, A1, C1. split; [reflexivity|]. cbn. split; [done|]. split.
  { eapply mid_perm; [symmetry; exact Hwt|reflexivity|reflexivity|reflexivity|exact K2]. }
  split; [done|]. rewrite Hwt. apply Permutation_length in Hrun. split_and!; try done. lia.
Qed.
End priority.
