(* ===== verification/V0SchedStep.v ===== *)
(** * A scheduling step of the v0 scheduler

    [_schedule_default] and [_schedule_chunked_prefill] put together from the loops, with
    the assertions they end in, the order of the batch and its metadata. *)

From stdpp Require Import base tactics list gmap sets strings.
From AAC_tactics Require Import AAC.
From AAC_tactics Require Instances.
From Stdlib Require Import ZArith QArith Lia.
From S2P Require Import Prelude.
From S2P Require Import SamplingParams.
From S2P Require Import V0Sequence.
From S2P Require Import NaiveBlocks.
From S2P Require Import BlockManager.
From S2P Require Import V0Interface.
From S2P Require Import V0Contract.
From S2P Require Import V0Scheduler.
From S2P Require Import V0SchedInv.
From S2P Require Import V0SchedOps.
From S2P Require Import V0SchedLoops.
From S2P Require Import V0SchedPrefill.
From S2P Require Import V0SchedPriority.

Local Open Scope Z_scope.

Import Instances.Lists.

(** Lists up to reordering are rewritten modulo associativity and commutativity of [++]. *)
#[local] Instance permutation_lift {A} : AAC_lift (@Permutation A) (@Permutation A).
Proof. split; apply _. Qed.

#[local] Arguments sum_chunks _ : simpl never.

Section step.
Context {M : Type} `{!BlockSpaceOps M} `{!BlockSpaceSpec M}.
Context (c : SchedulerConfig) (cc : V0CacheConfig) (Hcfg : config_ok c cc).
Context (key : nat -> string * Z).
Implicit Types s : V0Scheduler M.
Abbreviation ch := (sc_chunked_prefill_enabled c).
Abbreviation rid r := (key r).1.
Abbreviation sid r := (key r).2.
Abbreviation mid := (mid c key).
Abbreviation one := (one c key).
Abbreviation configured := (configured c cc).
Abbreviation charged := (charged c key).
Abbreviation counted := (counted key).

(** Between two steps. *)
Record idle s (A : gmap Z (list Z)) (C : gset string) : Prop := {
  id_cfg : configured s;
  id_mid : mid (block_manager s) (v0_groups s) A C (v0_waiting s) (v0_running s) [] [];
  id_swapped : v0_swapped s = [];
  id_stopped : _async_stopped s = [];
  id_seqs : len (v0_running s) <= sc_max_num_seqs c;
}.

(** After [_schedule]: the batch is part of the running queue, [R] is its rest. *)
Record planned s s' (o : SchedulerOutputs) (R : list nat) (A : gmap Z (list Z)) (C : gset string) : Prop := {
  pl_cfg : configured s';
  pl_mid : mid (block_manager s') (v0_groups s') A C (v0_waiting s') R (scheduled_seq_groups o) [];
  pl_running : v0_running s' ≡ₚ R ++ refs_of (scheduled_seq_groups o);
  pl_swapped : v0_swapped s' = [];
  pl_stopped : _async_stopped s' = [];
  pl_seqs : len (v0_running s') <= sc_max_num_seqs c;
  pl_tokens : out_num_batched_tokens o = sum_chunks (scheduled_seq_groups o) ∧ out_num_batched_tokens o <= sc_max_num_batched_tokens c;
  pl_queues : v0_waiting s ++ v0_running s ≡ₚ v0_waiting s' ++ v0_running s' ++ ignored_seq_groups o;
  pl_swaps : blocks_to_swap_in o = [] ∧ blocks_to_swap_out o = [];
  pl_size : running_queue_size o = len (v0_running s');
  pl_fcfs : ch = false -> sc_policy c ≠ "priority"%string -> v0_max_loras s = None ->
    v0_running s' ++ v0_waiting s' `sublist_of` v0_running s ++ v0_waiting s;
  pl_ignored : ∀ r, r ∈ ignored_seq_groups o -> hopeless c s r;
}.

(** ** The parts *)

Lemma charged_new : 0 <= sc_max_num_batched_tokens c -> charged (new_budget (sc_max_num_batched_tokens c) (sc_max_num_seqs c)) [].
Proof. intros H. split; try done. intros x. cbn. set_solver. Qed.

Lemma running_queue_spec v A C :
  configured (lv_s v) -> mid (block_manager (lv_s v)) (v0_groups (lv_s v)) A C (v0_waiting (lv_s v)) (v0_running (lv_s v)) [] [] ->
  charged (lv_budget v) [] -> seqs_ok c key (lv_budget v) [] -> _async_stopped (lv_s v) = [] ->
  (v0_max_loras (lv_s v) ≠ None -> lv_loras v ≠ None) -> len (v0_running (lv_s v)) <= sc_max_num_seqs c ->
  ∃ v' ro A' C' T, _schedule_running None v ch = Ok (v', ro) ∧ outside (lv_s v) (lv_s v') ∧
    running_inv c cc key v' ro A' C' [] T (v0_running (lv_s v)) ∧
    (v0_running (lv_s v') = [] ∨ ch = true ∧ sc_max_num_batched_tokens c <= bg_num_batched_tokens (lv_budget v')).
Proof.
  intros H1 H2 H3 H4 H5 H6 H7. unfold _schedule_running. rewrite bool_decide_true by done. cbn [py_assert mbind result_bind].
  apply (running_loop_spec c cc Hcfg key _ _ _ _ A C []); [|lia|done]. split; try done. cbn. by rewrite app_nil_r.
Qed.

Lemma schedule_swapped_nil v e : v0_swapped (lv_s v) = [] ->
  ∃ n, _schedule_swapped v e = Ok (v, mkSwappedInOutputs [] [] [] [] n []).
Proof.
  intros E. unfold _schedule_swapped. rewrite E. cbn [length swapped_loop]. rewrite E. cbn [mbind result_bind fst snd].
  rewrite E. unfold extendleft. cbn. eexists. do 3 f_equal. destruct v as [s b l], s. cbn in *. by subst.
Qed.

Lemma swapped_part (b : bool) v : v0_swapped (lv_s v) = [] ->
  ∃ n, (if b then _schedule_swapped v false else Ok (v, empty_swapped_in)) = Ok (v, mkSwappedInOutputs [] [] [] [] n []).
Proof. intros E. destruct b; [by apply schedule_swapped_nil|by eexists]. Qed.

Lemma count_running s refs : ∀ K b,
  (∀ r, r ∈ refs -> ∃ g q, v0_groups s !! r = Some g ∧ one r g q ∧ seq_is_finished q = false) ->
  NoDup ((fun r => rid r) <$> K ++ refs) -> counted b K -> charged b [] ->
  ∃ b', for_each add_running_seqs refs (s, b) = Ok (s, b') ∧ counted b' (K ++ refs) ∧ charged b' [].
Proof.
  induction refs as [|r refs IH]; intros K b Hr Hnd Hk Hb; [exists b; by rewrite app_nil_r|].
  destruct (Hr r) as (g & q & Hg & [O1 O2 O3 O4 O5 O6 O7] & Hq); [by left|]. cbn [for_each].
  assert (E1 : add_running_seqs r (s, b) = Ok (s, add_num_seqs b (rid r) 1)).
  { unfold add_running_seqs. cbn [fst snd]. rewrite (get_group_ok s r g Hg). cbn [mbind result_bind]. by rewrite (max_running_one g q O1 Hq), O2. }
  rewrite E1. cbn [mbind result_bind].
  assert (Hfresh : rid r ∉ (fun r => rid r) <$> K).
  { rewrite fmap_app in Hnd. apply NoDup_app in Hnd as (_ & Hnd & _). intros Hin. apply (Hnd _ Hin). by left. }
  destruct (IH (K ++ [r]) (add_num_seqs b (rid r) 1)) as (b' & E & Hk' & Hb').
  - intros r' Hr'. apply Hr. by right.
  - by rewrite <-app_assoc.
  - by apply count_one.
  - unfold add_num_seqs. case_decide; [done|]. by destruct Hb; split.
  - exists b'. split; [done|]. by rewrite <-app_assoc in Hk'.
Qed.

Lemma running_loras_ok s : (∀ r, r ∈ v0_running s -> is_Some (v0_groups s !! r)) ->
  ∃ l, running_loras s = Ok l ∧ (v0_max_loras s ≠ None -> l ≠ None).
Proof.
  intros Hg. unfold running_loras. destruct (v0_max_loras s); [|by exists None].
  destruct (groups_of_ok s (v0_running s) Hg) as (l & -> & _). cbn [mbind result_bind]. eexists. split; [reflexivity|done].
Qed.

(** ** The order of the batch *)

Lemma scheduled_groups_ok s l :
  (∀ x, x ∈ l -> ∃ g q, v0_groups s !! ssg_seq_group x = Some g ∧ sg_seqs g = [q]) ->
  ∃ gs, scheduled_groups s l = Ok gs ∧ gs.*1.*1 = l.
Proof.
  induction l as [|x l IH]; intros Hg; [by exists []|]. cbn [scheduled_groups]. destruct (Hg x) as (g & q & E & Hq); [by left|].
  rewrite (get_group_ok s _ g E). cbn [mbind result_bind]. rewrite (is_prefill_ok g q Hq). cbn [mbind result_bind].
  destruct IH as (gs & -> & <-); [intros y Hy; apply Hg; by right|]. cbn [mbind result_bind]. by eexists.
Qed.

Lemma post_init_spec s o :
  (∀ x, x ∈ scheduled_seq_groups o -> ∃ g q, v0_groups s !! ssg_seq_group x = Some g ∧ sg_seqs g = [q]) ->
  blocks_to_swap_in o = [] -> 0 <= num_prefill_groups o <= len (scheduled_seq_groups o) ->
  ∃ l, outputs_post_init s o = Ok (mkSchedulerOutputs l (num_prefill_groups o) (out_num_batched_tokens o) (blocks_to_swap_in o)
      (blocks_to_swap_out o) (blocks_to_copy o) (ignored_seq_groups o) (out_num_lookahead_slots o) (running_queue_size o) (out_preempted o)) ∧
    l ≡ₚ scheduled_seq_groups o.
Proof.
  intros Hg Hin Hn. unfold outputs_post_init. rewrite (bool_decide_true _ Hin). cbn [orb py_assert mbind result_bind].
  destruct (scheduled_groups_ok s _ Hg) as (gs & E & Hgs). rewrite E. cbn [mbind result_bind].
  destruct (existsb _ gs); [|cbn [mbind result_bind]; by eexists].
  unfold _sort_by_lora_ids. rewrite (proj2 (Z.leb_le _ _) (proj1 Hn)), (proj2 (Z.leb_le _ _) (proj2 Hn)), E.
  cbn [andb py_assert mbind result_bind]. eexists. split; [reflexivity|]. by rewrite sort_with_perm, Hgs.
Qed.

Lemma planned_groups m gs A C W R T F x : mid m gs A C W R T F -> x ∈ T -> ∃ g q, gs !! ssg_seq_group x = Some g ∧ sg_seqs g = [q].
Proof.
  intros Hm Hx. destruct (md_t _ _ _ _ _ _ _ _ _ _ Hm x Hx) as (g & q & Hg & [Hq _ _ _ _ _ _] & _). by exists g, q.
Qed.

Lemma planned_post_init s s' o R A C : planned s s' o R A C -> 0 <= num_prefill_groups o <= len (scheduled_seq_groups o) ->
  ∃ o', outputs_post_init s' o = Ok o' ∧ planned s s' o' R A C.
Proof.
  intros [H1 H2 H3 H4 H5 H6 H7 H8 H9 H10 H11 H12] Hn. destruct (post_init_spec s' o) as (l & E & Hl).
  - intros x Hx. by eapply planned_groups.
  - by destruct H9.
  - done.
  - eexists. split; [exact E|]. split; cbn; try done.
    + eapply mid_perm; [reflexivity|reflexivity|symmetry; exact Hl|reflexivity|exact H2].
    + rewrite H3. unfold refs_of. by rewrite Hl.
    + by rewrite (sum_chunks_perm _ _ Hl).
Qed.

(** ** The default policy *)

(** Waiting groups were admitted: the running ones wait for the next step. *)
Lemma default_prefills s s1 v po A C n :
  prefill_inv c cc key (v0_running s) [] [] (v0_running s) (v0_waiting s) s v po [] A C -> apart s (lv_s v) ->
  v0_swapped s = [] -> _async_stopped s = [] ->
  s1 = v0_with_queues (lv_s v) (extendleft [] (v0_waiting (lv_s v)))
         (v0_running (lv_s v) ++ refs_of (po_seq_groups po) ++ refs_of [] ++ refs_of []) (v0_swapped (lv_s v) ++ []) ->
  planned s s1 (mkSchedulerOutputs (po_seq_groups po ++ [] ++ []) (len (po_seq_groups po))
    (bg_num_batched_tokens (lv_budget v) + bg_num_cached_tokens (lv_budget v)) [] [] ([] ++ []) (po_ignored_seq_groups po ++ []) n
    (len (v0_running s1)) (len (@nil nat) + len (@nil nat))) (v0_running s) A C.
Proof.
  intros [H1 H2 H3 H4 H5 H6 H7 H8 H9 H10 H11] [P1 P2 P3 P4 P5 P6] Hsw Hst ->. destruct H5 as [B1 B2 B3 B4 B5 B6]. cbn [app] in *.
  split; cbn; rewrite ?app_nil_r, ?P4; try done.
  - by rewrite P5.
  - by rewrite P6.
  - rewrite B4, B5. lia.
  - rewrite H3. cbn. rewrite <-!app_assoc. apply Permutation_app_head. rewrite !app_assoc, (Permutation_app_comm _ (v0_running s)). by rewrite !app_assoc.
  - intros _ _ Hl. rewrite <-app_assoc. apply sublist_app; [done|]. apply H4. by rewrite P3.
Qed.

(** Or else the running groups decode. *)
Lemma default_running s s1 v ro A C T r0 ign so n :
  running_inv c cc key v ro A C [] T r0 -> ch = false -> v0_running (lv_s v) = [] -> len r0 <= sc_max_num_seqs c ->
  v0_swapped (lv_s v) = [] -> _async_stopped (lv_s v) = [] ->
  v0_waiting s ++ v0_running s ≡ₚ v0_waiting (lv_s v) ++ r0 ++ ign ->
  (sc_policy c ≠ "priority"%string -> v0_max_loras s = None -> r0 ++ v0_waiting (lv_s v) `sublist_of` v0_running s ++ v0_waiting s) ->
  (∀ r, r ∈ ign -> hopeless c s r) ->
  s1 = v0_with_queues (lv_s v) (extendleft (ro_preempted ro) (v0_waiting (lv_s v)))
         (v0_running (lv_s v) ++ refs_of [] ++ refs_of (ro_decode_seq_groups ro) ++ refs_of []) (v0_swapped (lv_s v) ++ ro_swapped_out ro) ->
  planned s s1 (mkSchedulerOutputs ([] ++ ro_decode_seq_groups ro ++ []) (len (@nil ScheduledSequenceGroup))
    (bg_num_batched_tokens (lv_budget v) + bg_num_cached_tokens (lv_budget v)) [] (ro_blocks_to_swap_out ro) (ro_blocks_to_copy ro ++ so) (ign ++ []) n
    (len (v0_running s1)) (len (ro_preempted ro) + len (ro_swapped_out ro))) [] A C.
Proof.
  intros [H1 H2 H3 H4 H5 H6 H7 H8 H9 H10] Hch Hrun Hr0 Hsw Hst Hq Hf Hign ->. destruct (H6 Hch) as [Hpf _]. rewrite <-(H5 Hpf). destruct H7 as [E1 E2].
  rewrite E1, E2. destruct H8 as [B1 B2 B3 B4 B5 B6]. rewrite Hrun in *. cbn in H3.
  assert (Hlen : len (refs_of T) <= sc_max_num_seqs c) by (rewrite H3, length_app in Hr0; lia).
  split; cbn; rewrite ?app_nil_r; try done.
  - eapply mid_perm; [|reflexivity|reflexivity|reflexivity|exact H2]. unfold extendleft. apply Permutation_app_tail. symmetry. apply reverse_Permutation.
  - rewrite B4, B5. lia.
  - rewrite Hq, H3. unfold extendleft. rewrite !app_assoc. apply Permutation_app_tail. rewrite (Permutation_app_comm _ (refs_of T)), (Permutation_app_comm _ (refs_of T)).
    rewrite <-!app_assoc. apply Permutation_app_head, Permutation_app_comm.
  - intros _ Hp Hl. specialize (Hf Hp Hl). rewrite H3, <-app_assoc in Hf. done.
Qed.

(** Preemption by priority, when the policy asks for it. *)
Lemma priority_part v A C :
  configured (lv_s v) -> mid (block_manager (lv_s v)) (v0_groups (lv_s v)) A C (v0_waiting (lv_s v)) (v0_running (lv_s v)) [] [] ->
  idle_budget c key (lv_budget v) ->
  ∃ v' A' C', (if bool_decide (sc_policy c = "priority"%string) then x ← _schedule_priority_preemption v; Ok x.1 else Ok v) = Ok v' ∧
    configured (lv_s v') ∧ mid (block_manager (lv_s v')) (v0_groups (lv_s v')) A' C' (v0_waiting (lv_s v')) (v0_running (lv_s v')) [] [] ∧
    idle_budget c key (lv_budget v') ∧ v0_waiting (lv_s v') ++ v0_running (lv_s v') ≡ₚ v0_waiting (lv_s v) ++ v0_running (lv_s v) ∧
    (len (v0_running (lv_s v')) <= len (v0_running (lv_s v))) ∧
    v0_swapped (lv_s v') = v0_swapped (lv_s v) ∧ _async_stopped (lv_s v') = _async_stopped (lv_s v) ∧
    v0_max_loras (lv_s v') = v0_max_loras (lv_s v) ∧ lv_loras v' = lv_loras v ∧ (sc_policy c ≠ "priority"%string -> v' = v).
Proof.
  intros Hc Hm Hb. case_bool_decide as Hp; [|by exists v, A, C].
  destruct (priority_preemption_spec c cc Hcfg key v A C Hc Hm Hb) as (v' & n & A' & C' & E & H). rewrite E. cbn [mbind result_bind fst].
  exists v', A', C'. split; [done|]. naive_solver.
Qed.

(** The default policy first counts the running sequences and admits waiting ones. *)
Lemma default_admission clock s A C : idle s A C -> ch = false ->
  ∃ b l v po A' C', for_each add_running_seqs (v0_running s) (s, new_budget (sc_max_num_batched_tokens c) (sc_max_num_seqs c)) = Ok (s, b) ∧
    running_loras s = Ok l ∧ _schedule_prefills clock (mkVars s b l) false = Ok (v, po) ∧ apart s (lv_s v) ∧
    prefill_inv c cc key (v0_running s) [] [] (v0_running s) (v0_waiting s) s v po [] A' C'.
Proof.
  intros [I1 I2 I3 I4 I5] Hch. destruct (config_bounds c cc Hcfg) as (Hb1 & Hb2 & Hb3).
  assert (Hb0 : 0 <= sc_max_num_seqs c) by (pose proof (Zle_0_nat (length (v0_running s))); lia).
  destruct (count_running s (v0_running s) [] (new_budget (sc_max_num_batched_tokens c) (sc_max_num_seqs c))) as (b & Eb & Hcnt & Hchg).
  { intros r Hr. destruct (md_r _ _ _ _ _ _ _ _ _ _ I2 r Hr) as (g & q & ts & Hg & Ho & Hst & _). exists g, q. by rewrite (status_unfinished q _ Hst). }
  { pose proof (md_rids _ _ _ _ _ _ _ _ _ _ I2) as Hnd. rewrite fmap_app in Hnd. apply NoDup_app in Hnd as (_ & _ & Hnd). by rewrite app_nil_r in Hnd. }
  { split; [|done]. intros x. cbn. set_solver. }
  { apply charged_new. lia. }
  destruct (running_loras_ok s) as (l & El & Hl); [intros r Hr; eapply mid_groups; [exact I2|set_solver]|].
  destruct (schedule_prefills_spec c cc Hcfg clock key (v0_running s) [] [] (v0_running s) (v0_waiting s) s) with (v := mkVars s b l) (A := A) (C := C)
    as (v & po & A1 & C1 & E & Hap & Hi & _).
  { exists A, C. by apply I2. }
  { intros r Hr. apply elem_of_app. by left. }
  { split; cbn; try done. - by rewrite !app_nil_r. - by rewrite app_nil_r. - by rewrite app_nil_r. - by intros r ?%not_elem_of_nil. }
  rewrite Hch in E. by exists b, l, v, po, A1, C1.
Qed.

Lemma prefill_budget v po R P T0 K0 w0 s0 lo A C : prefill_inv c cc key R P T0 K0 w0 s0 v po lo A C ->
  (bg_num_batched_tokens (lv_budget v) <=? sc_max_num_batched_tokens c) = true ∧ (bg_num_curr_seqs (lv_budget v) <=? sc_max_num_seqs c) = true.
Proof.
  intros Hi. pose proof (pf_charged _ _ _ _ _ _ _ _ _ _ _ _ _ _ Hi) as [_ _ _ B4 _ B6]. pose proof (pf_counted _ _ _ _ _ _ _ _ _ _ _ _ _ _ Hi) as [_ D2].
  pose proof (pf_seqs _ _ _ _ _ _ _ _ _ _ _ _ _ _ Hi) as Hs. rewrite !Z.leb_le. lia.
Qed.

Ltac post_init s1 E := match goal with
  |- context [outputs_post_init s1 ?x] => replace (outputs_post_init s1 x) with (Ok E : result SchedulerOutputs) by (symmetry; assumption) end; cbn [mbind result_bind].

Lemma schedule_default_spec clock s A C : idle s A C -> ch = false ->
  ∃ o s' R A' C', _schedule_default clock None s = Ok (o, s') ∧ planned s s' o R A' C'.
Proof.
  intros Hidle Hch. destruct (default_admission clock s A C Hidle Hch) as (b & l & v & po & A1 & C1 & Eb & El & E & Hap & Hi).
  destruct Hidle as [[Ec Ecc] I2 I3 I4 I5]. unfold _schedule_default. rewrite Ec, Eb. cbn [mbind result_bind snd]. rewrite El. cbn [mbind result_bind].
  rewrite I3, E. cbn [mbind result_bind]. destruct (decide (po_seq_groups po = [])) as [Hnil|Hne].
  2: { rewrite (bool_decide_false _ Hne). cbn [andb mbind result_bind]. destruct (prefill_budget _ _ _ _ _ _ _ _ _ _ _ Hi) as [-> ->].
    cbn [py_assert mbind result_bind]. rewrite bool_decide_true by done. cbn [py_assert mbind result_bind]. set (s1 := v0_with_queues _ _ _ _).
    destruct (planned_post_init s s1 _ _ A1 C1 (default_prefills s s1 v po A1 C1 0 Hi Hap I3 I4 eq_refl)) as (o & Eo & Ho).
    { cbn. rewrite !app_nil_r. lia. }
    post_init s1 o. by exists o, s1, (v0_running s), A1, C1. }
  rewrite (bool_decide_true _ Hnil). cbn [andb]. rewrite Hnil.
  destruct Hi as [K1 K2 K3 K4 K5 K6 K7 K8 K9 K10 K11]. rewrite Hnil in *. cbn [app refs_of fmap list_fmap] in *. rewrite ?app_nil_r in *. destruct Hap as [P1 P2 P3 P4 P5 P6].
  rewrite <-P4 in K2. destruct (priority_part v A1 C1 K1 K2) as (v2 & A2 & C2 & E2 & L1 & L2 & [L3 L3'] & L4 & L5 & L6 & L7 & L8 & L9 & L10).
  { split; [done|]. rewrite (ct_num _ _ _ K6). lia. }
  rewrite E2. cbn [mbind result_bind].
  destruct (running_queue_spec v2 A2 C2 L1 L2 L3) as (v3 & ro & A3 & C3 & T & E3 & Ho3 & Hi3 & Hend).
  { unfold seqs_ok. by rewrite Hch. }
  { congruence. }
  { by rewrite L8, L9. }
  { rewrite P4 in L5. lia. }
  rewrite Hch in E3. rewrite E3. cbn [mbind result_bind].
  destruct Hend as [Hend|[? _]]; [|congruence]. pose proof Ho3 as [U1 U2 U3 U4 U5 U6].
  destruct (swapped_part (bool_decide (ro_preempted ro = []) && bool_decide (ro_swapped_out ro = [])) v3) as [n En]; [congruence|].
  rewrite En. cbn [mbind result_bind]. clear En.
  pose proof (rn_charged _ _ _ _ _ _ _ _ _ _ Hi3) as [B1 B2 B3 B4 B5 B6]. pose proof (rn_seqs _ _ _ _ _ _ _ _ _ _ Hi3) as Hs. unfold seqs_ok in Hs. rewrite Hch in Hs.
  rewrite (proj2 (Z.leb_le (bg_num_batched_tokens _) _)) by lia. rewrite (proj2 (Z.leb_le (bg_num_curr_seqs _) _)) by done. cbn [py_assert mbind result_bind].
  destruct (rn_default _ _ _ _ _ _ _ _ _ _ Hi3 Hch) as [Hpf _]. rewrite (bool_decide_true _ Hpf). cbn [py_assert mbind result_bind so_prefill_seq_groups].
  rewrite bool_decide_true by done. cbn [py_assert mbind result_bind]. set (s1 := v0_with_queues _ _ _ _).
  destruct (planned_post_init s s1 _ _ A3 C3 (default_running s s1 v3 ro A3 C3 T _ (po_ignored_seq_groups po) [] (ro_num_lookahead_slots ro) Hi3 Hch Hend
    ltac:(rewrite P4 in L5; lia) ltac:(congruence) ltac:(congruence)
    ltac:(rewrite U4, app_assoc, L4, P4, K3; rewrite <-!app_assoc; apply Permutation_app_head, Permutation_app_comm)
    ltac:(intros Hp Hnl; rewrite U4, (L10 Hp), P4; apply sublist_app; [done|]; apply K4; congruence) K11 eq_refl)) as (o & Eo & Ho).
  { cbn. rewrite !app_nil_r. lia. }
  post_init s1 o. by exists o, s1, [], A3, C3.
Qed.

(** ** Chunked prefill *)

Lemma chunked_plan s s1 v1 ro T v po A1 C1 A C nl :
  running_inv c cc key v1 ro A1 C1 [] T (v0_running s) -> outside s (lv_s v1) -> ch = true ->
  prefill_inv c cc key (v0_running (lv_s v1)) (ro_preempted ro) T (refs_of T) (v0_waiting s) s v po [] A C -> apart (lv_s v1) (lv_s v) ->
  v0_swapped s = [] -> _async_stopped s = [] -> len (v0_running s) <= sc_max_num_seqs c ->
  (v0_running (lv_s v1) = [] ∨ po_seq_groups po = []) ->
  s1 = v0_with_queues (lv_s v) (extendleft (ro_preempted ro) (v0_waiting (lv_s v)))
         (v0_running (lv_s v) ++ refs_of [] ++ refs_of [] ++ refs_of (ro_decode_seq_groups ro) ++ refs_of (ro_prefill_seq_groups ro) ++
          refs_of (po_seq_groups po)) (v0_swapped (lv_s v) ++ ro_swapped_out ro) ->
  planned s s1 (mkSchedulerOutputs (po_seq_groups po ++ ro_prefill_seq_groups ro ++ [] ++ ro_decode_seq_groups ro ++ [])
    (len (po_seq_groups po) + len (@nil ScheduledSequenceGroup) + len (ro_prefill_seq_groups ro))
    (bg_num_batched_tokens (lv_budget v) + bg_num_cached_tokens (lv_budget v)) [] (ro_blocks_to_swap_out ro) (ro_blocks_to_copy ro ++ [])
    (po_ignored_seq_groups po ++ []) nl (len (v0_running s1)) (len (ro_preempted ro) + len (ro_swapped_out ro))) (v0_running (lv_s v1)) A C.
Proof.
  intros [_ _ H3 H4 _ _ [E1 E2] _ _ _] [U1 U2 U3 U4 U5 U6] Hch [K1 K2 K3 K4 K5 K6 K7 K8 K9 K10 K11] [P1 P2 P3 P4 P5 P6] Hsw Hst Hlen Hor ->.
  rewrite E1, E2, P4. destruct K5 as [B1 B2 B3 B4 B5 B6]. cbn [app] in *. rewrite !app_nil_r.
  assert (HT : T ++ po_seq_groups po ≡ₚ po_seq_groups po ++ ro_prefill_seq_groups ro ++ ro_decode_seq_groups ro).
  { by rewrite H4, (Permutation_app_comm (po_seq_groups po)), (Permutation_app_comm (ro_prefill_seq_groups ro)). }
  assert (HR : v0_running (lv_s v1) ++ refs_of (ro_decode_seq_groups ro) ++ refs_of (ro_prefill_seq_groups ro) ++ refs_of (po_seq_groups po)
    ≡ₚ v0_running (lv_s v1) ++ refs_of T ++ refs_of (po_seq_groups po)).
  { apply Permutation_app_head. unfold refs_of. rewrite H4, fmap_app. by rewrite <-app_assoc. }
  split; cbn [v0_with_queues v0_waiting v0_running v0_swapped block_manager v0_groups scheduled_seq_groups out_num_batched_tokens ignored_seq_groups
    blocks_to_swap_in blocks_to_swap_out running_queue_size _async_stopped refs_of fmap list_fmap app]; try done.
  - eapply mid_perm; [|reflexivity|exact HT|reflexivity|exact K2]. unfold extendleft. apply Permutation_app_tail. symmetry. apply reverse_Permutation.
  - change (v0_running (lv_s v1) ++ refs_of (ro_decode_seq_groups ro) ++ refs_of (ro_prefill_seq_groups ro) ++ refs_of (po_seq_groups po) ≡ₚ
      v0_running (lv_s v1) ++ refs_of (po_seq_groups po ++ ro_prefill_seq_groups ro ++ ro_decode_seq_groups ro)).
    rewrite HR. unfold refs_of. by rewrite <-HT, fmap_app.
  - congruence.
  - congruence.
  - apply (Permutation_length) in HR. cbn in HR. etrans; [apply inj_le, Nat.eq_le_incl; exact HR|].
    rewrite !length_app in *. destruct Hor as [->|Hpo]; [cbn; lia|]. rewrite Hpo. rewrite H3 in Hlen. rewrite !length_app in Hlen. cbn in *. lia.
  - rewrite B4, B5, (sum_chunks_perm _ _ HT) in *. lia.
  - match goal with |- _ ≡ₚ _ ++ ?l ++ _ => change l with (v0_running (lv_s v1) ++ refs_of (ro_decode_seq_groups ro) ++ refs_of (ro_prefill_seq_groups ro) ++ refs_of (po_seq_groups po)) end.
    rewrite HR, H3, K3. unfold extendleft. cbn [app]. aac_reflexivity.
  - intros. congruence.
Qed.

Lemma schedule_chunked_spec clock s A C : idle s A C -> ch = true ->
  ∃ o s' R A' C', _schedule_chunked_prefill clock None s = Ok (o, s') ∧ planned s s' o R A' C'.
Proof.
  intros [[Ec Ecc] I2 I3 I4 I5] Hch. destruct (config_bounds c cc Hcfg) as (Hb1 & Hb2 & Hb3).
  assert (Hb0 : 0 <= sc_max_num_seqs c) by (pose proof (Zle_0_nat (length (v0_running s))); lia).
  unfold _schedule_chunked_prefill. rewrite Ec. set (v0 := mkVars s _ _).
  destruct (running_queue_spec v0 A C (conj Ec Ecc) I2) as (v1 & ro & A1 & C1 & T & E1 & Ho & Hi & Hend); try done.
  { apply charged_new. lia. }
  { unfold seqs_ok. rewrite Hch. split; [|done]. intros x. cbn. set_solver. }
  rewrite Hch in E1. rewrite E1. cbn [mbind result_bind]. pose proof Ho as [U1 U2 U3 U4 U5 U6]. pose proof Hi as [H1 H2 H3 H4 H5 H6 H7 H8 H9 H10].
  destruct (swapped_part (bool_decide (ro_preempted ro = []) && bool_decide (ro_swapped_out ro = [])) v1) as [n En]; [rewrite U5; done|].
  rewrite En. cbn [mbind result_bind]. clear En. cbn [lv_s v0 app] in *. unfold seqs_ok in H9. rewrite Hch in H9.
  assert (HlT : len (refs_of T) <= sc_max_num_seqs c) by (rewrite H3, length_app in I5; lia).
  destruct (schedule_prefills_spec c cc Hcfg clock key (v0_running (lv_s v1)) (ro_preempted ro) T (refs_of T) (v0_waiting s) s) with (v := v1) (A := A1) (C := C1)
    as (v & po & A2 & C2 & E2 & Hap & Hi2 & Hno).
  { exists A, C. by apply I2. }
  { intros r Hr. apply elem_of_app. by right. }
  { split; cbn [po_seq_groups po_ignored_seq_groups refs_of fmap list_fmap app]; rewrite ?app_nil_r; try done; rewrite ?U4; try done. by intros r ?%not_elem_of_nil. }
  rewrite Hch in E2. rewrite E2. cbn [mbind result_bind]. destruct (prefill_budget _ _ _ _ _ _ _ _ _ _ _ Hi2) as [-> ->]. cbn [py_assert mbind result_bind].
  set (s1 := v0_with_queues _ _ _ _). set (nl := if _ : bool then 0 else _).
  destruct (planned_post_init s s1 _ _ A2 C2 (chunked_plan s s1 v1 ro T v po A1 C1 A2 C2 nl Hi Ho Hch Hi2 Hap I3 I4 I5
    ltac:(destruct Hend as [?|[_ ?]]; [by left|right; by apply Hno]) eq_refl)) as (o & Eo & Hp).
  { cbn. rewrite !app_nil_r, !length_app. lia. }
  post_init s1 o. by eexists o, s1, _, A2, C2.
Qed.

Lemma v0_schedule_plan clock s A C : idle s A C -> ∃ o s' R A' C', _schedule clock None s = Ok (o, s') ∧ planned s s' o R A' C'.
Proof.
  intros Hi. unfold _schedule. rewrite (proj1 (id_cfg _ _ _ Hi)).
  destruct ch eqn:Hch; [by eapply schedule_chunked_spec|by eapply schedule_default_spec].
Qed.
End step.

(** ** The batch of a step of the v0 scheduler

    [Scheduler.schedule] after [_schedule]: the metadata of the scheduled groups and the
    marking of computed blocks. *)

(** What the metadata of a scheduled group says: its only sequence with all its tokens,
    and a sample is wanted unless the prompt is computed in part only. *)
Definition md_for (gs : gmap nat SequenceGroup) (md : SequenceGroupMetadata) (x : ScheduledSequenceGroup) : Prop :=
  ∃ g q, gs !! ssg_seq_group x = Some g ∧ sg_seqs g = [q] ∧ md_request_id md = sg_request_id g ∧
    md_token_chunk_size md = token_chunk_size x ∧ md_seq_data md = [(seq_id q, seq_token_ids q)] ∧ md_is_prompt md = seq_is_prefill q ∧
    md_do_sample md = negb (seq_is_prefill q && (token_chunk_size x + seq_num_computed_tokens q <? seq_get_len q)) ∧
    (md_block_tables md).*1 = [seq_id q].

Section batch.
Context {M : Type} `{!BlockSpaceOps M} `{!BlockSpaceSpec M}.
Context (c : SchedulerConfig) (cc : V0CacheConfig) (Hcfg : config_ok c cc).
Context (key : nat -> string * Z).
Implicit Types s : V0Scheduler M.
Abbreviation mid := (mid c key).
Abbreviation configured := (configured c cc).
Abbreviation planned := (planned c cc key).

Lemma mid_bm m m' gs A C W R T F : mid m gs A C W R T F -> bs_inv m' A C -> mid m' gs A C W R T F.
Proof. intros [] H. by split. Qed.

(** Only the block manager changes, and it stores the same tokens. *)
Record same_store s s' (A : gmap Z (list Z)) (C : gset string) : Prop := {
  ss_frame : frame s s';
  ss_groups : v0_groups s' = v0_groups s;
  ss_inv : bs_inv (block_manager s') A C;
}.

Lemma same_store_trans s s1 s2 A C : same_store s s1 A C -> same_store s1 s2 A C -> same_store s s2 A C.
Proof. intros [F1 G1 _] [F2 G2 I2]. split; [by etrans|congruence|done]. Qed.

Lemma planned_store s s1 s2 o R A C : planned s s1 o R A C -> same_store s1 s2 A C -> planned s s2 o R A C.
Proof.
  intros [H1 H2 H3 H4 H5 H6 H7 H8 H9 H10 H11 H12] [[F1 F2 F3 F4 F5 F6 F7] G I]. destruct H1.
  split; rewrite ?F4, ?F5, ?F6, ?F7, ?G; try done; [split; congruence|by eapply mid_bm].
Qed.

Lemma group_metadata_spec now s x A C W R T :
  configured s -> mid (block_manager s) (v0_groups s) A C W R T [] -> x ∈ T ->
  ∃ md s', group_metadata now s x = Ok (md, s') ∧ md_for (v0_groups s) md x ∧ same_store s s' A C.
Proof.
  intros [Ec Ecc] Hm Hx. destruct (md_t _ _ _ _ _ _ _ _ _ _ Hm x Hx) as (g & q & Hg & [O1 O2 O3 O4 O5 O6 O7] & Hst & Hsg & Hck & HA & HC).
  unfold group_metadata. rewrite (get_group_ok s _ g Hg). cbn [mbind result_bind].
  pose proof (md_bm _ _ _ _ _ _ _ _ _ _ Hm) as Hinv.
  assert (Hcross : ∃ t, (if is_encoder_decoder g then t ← bs_get_cross_block_table (block_manager s) g; Ok (Some t) else Ok None) = Ok t).
  { destruct (is_encoder_decoder g); [|by eexists]. destruct (bs_cross_table_ok _ A C g Hinv) as [t ->]; [rewrite O2; by apply HC|by apply O5|]. by eexists. }
  destruct Hcross as [cross ->]. cbn [mbind result_bind]. rewrite (get_seqs_single g q _ O1 Hst). cbn [seq_tables].
  rewrite <-O3 in HA. destruct (bs_table_ok _ A C q Hinv) as [t Et]; [by rewrite HA|]. rewrite Et. cbn [mbind result_bind].
  destruct (bs_access_ok _ A C q now Hinv) as (m' & Em & Hm'). rewrite Em. cbn [mbind result_bind fst snd].
  change (v0_cache_config (v0_with_bm s m')) with (v0_cache_config s). rewrite Ecc, (co_cache _ _ Hcfg). cbn [mbind result_bind].
  rewrite (is_prefill_ok g q O1), O1. cbn [mbind result_bind].
  destruct (seq_is_prefill q) eqn:Hp; cbn [mbind result_bind fst snd]; (eexists _, _; split; [reflexivity|]; split; [|by split]);
    exists g, q; rewrite Hp; cbn; by split_and!.
Qed.

Lemma metadata_list_spec now l : ∀ s A C W R T,
  configured s -> mid (block_manager s) (v0_groups s) A C W R T [] -> (∀ x, x ∈ l -> x ∈ T) ->
  ∃ mds s', metadata_list now s l = Ok (mds, s') ∧ Forall2 (md_for (v0_groups s)) mds l ∧ same_store s s' A C.
Proof.
  induction l as [|x l IH]; intros s A C W R T Hc Hm Hl.
  { exists [], s. split; [done|]. split; [constructor|]. split; [done|done|]. by apply Hm. }
  destruct (group_metadata_spec now s x A C W R T Hc Hm) as (md & s1 & E1 & Hmd & H1); [apply Hl; by left|].
  cbn [metadata_list]. rewrite E1. cbn [mbind result_bind fst snd]. pose proof H1 as [F1 G1 I1].
  destruct (IH s1 A C W R T) as (mds & s2 & E2 & Hmds & H2).
  { destruct Hc, F1. split; congruence. }
  { rewrite G1. by eapply mid_bm. }
  { intros y Hy. apply Hl. by right. }
  rewrite E2. cbn [mbind result_bind fst snd]. eexists _, s2. split; [reflexivity|]. split; [|by eapply same_store_trans].
  constructor; [done|]. by rewrite <-G1.
Qed.

Lemma mark_computed_spec l : ∀ s A C W R T,
  mid (block_manager s) (v0_groups s) A C W R T [] -> (∀ x, x ∈ l -> x ∈ T) ->
  ∃ s', for_each mark_computed l s = Ok s' ∧ same_store s s' A C.
Proof.
  induction l as [|x l IH]; intros s A C W R T Hm Hl.
  { exists s. split; [done|]. split; [done|done|]. by apply Hm. }
  destruct (planned_groups c key _ _ _ _ _ _ _ _ x Hm) as (g & q & Hg & Hq); [apply Hl; by left|].
  destruct (bs_mark_ok (block_manager s) A C g (token_chunk_size x)) as (m' & Em & Hm'); [by apply Hm|].
  assert (E1 : mark_computed x s = Ok (v0_with_bm s m')).
  { unfold mark_computed. rewrite (get_group_ok s _ g Hg). cbn [mbind result_bind]. by rewrite Em. }
  cbn [for_each]. rewrite E1. cbn [mbind result_bind].
  destruct (IH (v0_with_bm s m') A C W R T) as (s' & E & Hs); [by eapply mid_bm|intros y Hy; apply Hl; by right|].
  exists s'. split; [done|]. eapply same_store_trans; [|exact Hs]. by split.
Qed.

Lemma schedule_batch_spec clock s A C : idle c cc key s A C ->
  ∃ mds o s' R A' C', v0_schedule clock None s = Ok (mds, o, false, s') ∧ planned s s' o R A' C' ∧
    Forall2 (md_for (v0_groups s')) mds (scheduled_seq_groups o).
Proof.
  intros Hi. destruct (v0_schedule_plan c cc Hcfg key clock s A C Hi) as (o & s1 & R & A' & C' & E & Hp). unfold v0_schedule. rewrite E. cbn [mbind result_bind].
  set (s2 := v0_with_time _ _ _ _ _). assert (H2 : same_store s1 s2 A' C') by (split; [done|done|]; apply (pl_mid _ _ _ _ _ _ _ _ _ Hp)).
  pose proof (planned_store _ _ _ _ _ _ _ Hp H2) as Hp2. clearbody s2. pose proof (pl_mid _ _ _ _ _ _ _ _ _ Hp2) as Hm2.
  destruct (scheduled_groups_ok s2 (scheduled_seq_groups o)) as (gs & -> & _).
  { intros x Hx. by apply (planned_groups c key _ _ _ _ _ _ _ _ x Hm2). }
  cbn [mbind result_bind use_async_output_proc andb].
  destruct (metadata_list_spec (clock (v0_ticks s1)) (scheduled_seq_groups o) s2 A' C' _ _ _ (pl_cfg _ _ _ _ _ _ _ _ _ Hp2) Hm2 (fun x H => H)) as (mds & s3 & -> & Hmds & H3).
  cbn [mbind result_bind fst snd]. pose proof (planned_store _ _ _ _ _ _ _ Hp2 H3) as Hp3.
  destruct (mark_computed_spec (scheduled_seq_groups o) s3 A' C' _ _ _ (pl_mid _ _ _ _ _ _ _ _ _ Hp3) (fun x H => H)) as (s4 & -> & H4).
  cbn [mbind result_bind]. exists mds, o, s4, R, A', C'. split; [done|]. split; [by eapply planned_store|].
  rewrite (ss_groups _ _ _ _ H4), (ss_groups _ _ _ _ H3). done.
Qed.
End batch.
