(* ===== verification/V0EngineInv.v ===== *)
(** * Applying the sampled tokens

    [_process_model_outputs] and [free_finished_seq_groups] over the invariant of the v0
    scheduler: each scheduled group goes back to the running ones or finishes and is
    released. *)

From stdpp Require Import base tactics list gmap sets strings.
From Stdlib Require Import ZArith QArith Lia.
From S2P Require Import Prelude.
From S2P Require Import SamplingParams.
From S2P Require Import V0Sequence.
From S2P Require Import NaiveBlocks.
From S2P Require Import BlockManager.
From S2P Require Import V0Interface.
From S2P Require Import V0Contract.
From S2P Require Import V0Scheduler.
From S2P Require Import V0Engine.
From S2P Require Import V0SchedInv.
From S2P Require Import V0SchedOps.
From S2P Require Import V0SchedLoops.
From S2P Require Import V0SchedPrefill.
From S2P Require Import V0SchedStep.

Local Open Scope Z_scope.

(** ** One sequence *)

(** Counting the computed tokens of a scheduled chunk. *)
Lemma update_computed_spec c q n : staged q -> chunk_ok c q n ->
  ∃ q', update_num_computed_tokens n q = Ok q' ∧ seq_id q' = seq_id q ∧ seq_token_ids q' = seq_token_ids q ∧ seq_status q' = seq_status q ∧
    seq_num_computed_tokens q' = seq_num_computed_tokens q + n ∧ seq_stage q' = (if decide (n = uncomputed q) then DECODE else seq_stage q).
Proof.
  intros [Hc Hst] [Hn _]. unfold uncomputed in *. unfold update_num_computed_tokens. cbn [seq_num_computed_tokens].
  unfold seq_get_len at 1. cbn [seq_token_ids]. rewrite (proj2 (Z.leb_le _ _)) by (unfold seq_get_len in *; lia). cbn [py_assert mbind result_bind].
  eexists. split; [reflexivity|]. unfold get_num_uncomputed_tokens, seq_get_len in *. cbn [seq_num_computed_tokens seq_token_ids].
  destruct (Z.eqb_spec (len (seq_token_ids q) - (seq_num_computed_tokens q + n)) 0) as [E|E]; case_decide; try lia; done.
Qed.

(** The stop checker leaves the sequence as it is, or finishes it. *)
Lemma maybe_stop_spec n p stop q : seq_token_ids q ≠ [] ->
  ∃ q', maybe_stop_sequence n p stop q = Ok q' ∧
    (q' = q ∨ ∃ st, q' = set_status st q ∧ sq_status_is_finished st = true).
Proof.
  intros Hne. unfold maybe_stop_sequence. case_match; [eauto|]. unfold get_last_token_id.
  destruct (last (seq_token_ids q)) as [t|] eqn:El; [|by apply last_None in El]. cbn [or_raise mbind result_bind].
  repeat (case_match; [eexists; split; [reflexivity|]; right; by eexists|]). eauto.
Qed.

Section engine.
Context {M : Type} `{!BlockSpaceOps M} `{!BlockSpaceSpec M}.
Context (c : SchedulerConfig) (cc : V0CacheConfig) (Hcfg : config_ok c cc).
Context (key : nat -> string * Z).
Implicit Types s : V0Scheduler M.
Abbreviation ch := (sc_chunked_prefill_enabled c).
Abbreviation sid r := (key r).2.
Abbreviation rid r := (key r).1.
Abbreviation mid := (mid c key).
Abbreviation one := (one c key).
Abbreviation configured := (configured c cc).

Lemma one_seqs r g q q' : one r g q -> seq_id q' = seq_id q -> seq_token_ids q' ≠ [] -> one r (sg_with_seqs g [q']) q'.
Proof. intros [H1 H2 H3 H4 H5 H6 H7] Hi Ht. split; try done. congruence. Qed.

(** ** One group *)

(** A scheduled group after its outputs were processed: it ended, or runs on. *)
Lemma settle r n g q q' m m' A C W R T F gs :
  mid m gs A C W R (mkScheduled r n :: T) F -> gs !! r = Some g -> one r g q ->
  seq_id q' = seq_id q -> seq_token_ids q' ≠ [] ->
  (∃ A', bs_inv m' A' C ∧ (∀ id, id ≠ sid r -> A' !! id = A !! id) ∧
    if seq_is_finished q' then True
    else seq_status q' = RUNNING ∧ staged q' ∧ (ch = false -> seq_stage q' = DECODE) ∧ A' = A ∧ seq_token_ids q `prefix_of` seq_token_ids q') ->
  ∃ A', mid m' (<[r := sg_with_seqs g [q']]> gs) A' C W (if seq_is_finished q' then R else r :: R) T (if seq_is_finished q' then r :: F else F).
Proof.
  intros Hm Hg Ho Hid Hne (A' & Hinv & HA' & Hcase). destruct (take_t c key _ _ _ _ _ _ _ _ _ Hm) as [Ha (g0 & q0 & Hg0 & Ho0 & Hst & Hsg & Hck & HA & HC)].
  cbn [ssg_seq_group token_chunk_size] in *. assert (g0 = g) as -> by congruence. assert (q0 = q) as -> by (destruct Ho, Ho0; congruence).
  pose proof (one_seqs r g q q' Ho Hid Hne) as Ho'.
  assert (Hcross : rid r ∈ C -> ∃ g1, <[r := sg_with_seqs g [q']]> gs !! r = Some g1 ∧ is_encoder_decoder g1 = true).
  { intros Hin. exists (sg_with_seqs g [q']). rewrite lookup_insert_eq. split; [done|].
    apply (cross_own c key _ _ _ _ _ _ _ _ r g Hm) in Hin; [done| |done]. apply elem_of_app. right. by left. }
  pose proof (around_update c key r (sg_with_seqs g [q']) m m' gs A A' C C W R T F Ha Hinv HA' (fun x _ => iff_refl _)) as Ha'. exists A'.
  destruct (seq_is_finished q') eqn:Hf.
  - apply put_f; [done| |done]. eexists _, q'. rewrite lookup_insert_eq. done.
  - destruct Hcase as (Hrun & Hstg & Hdec & -> & Hpre). apply put_r; [done| |done].
    eexists _, q', _. rewrite lookup_insert_eq. split; [done|]. split; [done|]. split; [done|]. split; [done|]. split; [done|].
    split; [done|]. split; [by destruct Ho|]. split; [done|]. exact HC.
Qed.

(** The token is applied; if the sequence stops, its blocks are freed. *)
Lemma sample_group_spec r n o s g q q1 A C W R T F :
  configured s -> sc_is_pooling c = false -> mid (block_manager s) (v0_groups s) A C W R (mkScheduled r n :: T) F ->
  v0_groups s !! r = Some g -> one r g q ->
  seq_id q1 = seq_id q -> seq_token_ids q1 = seq_token_ids q -> seq_status q1 = RUNNING -> seq_stage q1 = DECODE ->
  0 <= seq_num_computed_tokens q1 -> uncomputed q1 = 0 ->
  ∃ s' q' A', sample_group r o (v0_set_group s r (sg_with_seqs g [q1])) = Ok s' ∧ frame s s' ∧
    v0_groups s' = <[r := sg_with_seqs g [q']]> (v0_groups s) ∧
    mid (block_manager s') (v0_groups s') A' C W (if seq_is_finished q' then R else r :: R) T (if seq_is_finished q' then r :: F else F).
Proof.
  intros Hc Hpl Hm Hg Ho Hid Htok Hst Hdec Hc0 Hu. unfold sample_group. set (s0 := v0_set_group s r _). set (g1 := sg_with_seqs g [q1]) in *.
  assert (Hg1 : v0_groups s0 !! r = Some g1) by (cbn; by rewrite lookup_insert_eq).
  rewrite (get_group_ok s0 r g1 Hg1). cbn [mbind result_bind]. change (sg_sampling_params g1) with (sg_sampling_params g).
  destruct (sg_sampling_params g) as [p|] eqn:Ep; [|by destruct (on_params _ _ _ _ _ Ho Hpl)]. cbn [or_raise mbind result_bind].
  rewrite (first_seq_ok g1 q1 eq_refl). cbn [mbind result_bind]. set (q2 := append_token_id (output_token o) q1).
  assert (Hne : seq_token_ids q2 ≠ []) by (cbn; by destruct (seq_token_ids q1)).
  destruct (maybe_stop_spec (stop_max_model_len (sc_max_model_len (v0_config s0)) g1) p (stop_string_found o) q2 Hne) as (q' & E & Hq'). rewrite E. cbn [mbind result_bind].
  assert (Hq : seq_id q' = seq_id q ∧ seq_token_ids q' = seq_token_ids q ++ [output_token o]).
  { destruct Hq' as [->|(st & -> & _)]; cbn; by rewrite Hid, Htok. }
  destruct Hq as [Hqid Hqt]. cbn [tail g1 sg_with_seqs sg_seqs]. change (sg_with_seqs _ [q']) with (sg_with_seqs g [q']).
  assert (Hgs : v0_groups (v0_set_group s0 r (sg_with_seqs g [q'])) = <[r := sg_with_seqs g [q']]> (v0_groups s)) by (cbn; apply insert_insert_eq).
  pose proof (md_bm _ _ _ _ _ _ _ _ _ _ Hm) as Hinv.
  destruct (seq_is_finished q') eqn:Hf.
  - unfold free_seq. destruct (bs_free_ok (block_manager s) A C q' Hinv) as (m' & Em & Hm'). cbn [block_manager v0_set_group v0_with_groups s0] in *. rewrite Em. cbn [mbind result_bind].
    destruct (settle r n g q q' _ m' A C W R T F _ Hm Hg Ho Hqid) as [A' HA'].
    { rewrite Hqt. by destruct (seq_token_ids q). }
    { rewrite Hf. exists (delete (seq_id q') A). split; [done|]. split; [|done]. intros id Hne'. apply lookup_delete_ne. rewrite Hqid, (on_sid _ _ _ _ _ Ho). done. }
    rewrite Hf in HA'. eexists _, q', A'. split; [reflexivity|]. split; [by split|]. cbn in Hgs |- *. rewrite Hgs, Hf. done.
  - destruct Hq' as [->|(st & -> & Hfin)]; [|unfold seq_is_finished in Hf; cbn in Hf; congruence].
    destruct (settle r n g q q2 _ (block_manager s) A C W R T F _ Hm Hg Ho Hqid Hne) as [A' HA'].
    { rewrite Hf. exists A. split; [done|]. split; [done|]. split; [done|].
      split; [|split; [done|split; [done|rewrite Hqt; by eexists]]]. split; [done|]. left. split; [done|].
      unfold uncomputed, seq_get_len in *. cbn. rewrite length_app. cbn. lia. }
    rewrite Hf in HA'. eexists _, q2, A'. split; [reflexivity|]. split; [by split|]. rewrite Hf. cbn in Hgs |- *. rewrite Hgs. done.
Qed.

Lemma process_group_spec md x o s A C W R T F :
  configured s -> mid (block_manager s) (v0_groups s) A C W R (x :: T) F -> md_for (v0_groups s) md x ->
  ∃ fin s' A', process_group md (ssg_seq_group x) (Some o) s = Ok (fin, s') ∧ frame s s' ∧
    (∀ r, r ≠ ssg_seq_group x -> v0_groups s' !! r = v0_groups s !! r) ∧
    mid (block_manager s') (v0_groups s') A' C W (if fin : bool then R else ssg_seq_group x :: R) T (if fin then ssg_seq_group x :: F else F).
Proof.
  intros Hc Hm (g & q & Hg & Hq & Hrid & Hn & _ & _ & Hdo & _). destruct x as [r n]. cbn [ssg_seq_group token_chunk_size] in *.
  destruct (md_t _ _ _ _ _ _ _ _ _ _ Hm (mkScheduled r n)) as (g0 & q0 & Hg0 & Ho & Hst & Hsg & Hck & HA & HC); [by left|]. cbn in Hg0, Hck.
  assert (g0 = g) as -> by congruence. assert (q0 = q) as -> by (destruct Ho; congruence). clear Hg0.
  assert (Hfin : seq_is_finished q = false) by exact (status_unfinished q _ Hst eq_refl).
  unfold process_group. rewrite (get_group_ok s r g Hg). cbn [mbind result_bind]. unfold sg_is_finished at 1. rewrite Hq. cbn [forallb]. rewrite Hfin. cbn [andb or_raise mbind result_bind].
  destruct (update_computed_spec c q n Hsg Hck) as (q1 & Eq1 & Hi1 & Ht1 & Hs1 & Hc1 & Hg1). rewrite Hn.
  unfold sg_update_num_computed_tokens. rewrite Hq. cbn [update_all_computed]. rewrite Hfin, Eq1. cbn [mbind result_bind].
  change (v0_config (v0_set_group s r _)) with (v0_config s). rewrite (proj1 Hc).
  destruct Hck as [Hn1 Hn2]. pose proof Hsg as [Hc0 Hstage].
  destruct (sc_is_pooling c) eqn:Hpl; [|destruct (md_do_sample md) eqn:Hds; symmetry in Hdo].
  - cbn [mbind result_bind]. set (q' := set_status FINISHED_STOPPED q1).
    change (update_seqs _ _ (sg_with_seqs g [q1])) with (sg_with_seqs g [q']).
    destruct (settle r n g q q' _ (block_manager s) A C W R T F _ Hm Hg Ho Hi1) as [A' HA'].
    { cbn. rewrite Ht1. by destruct Ho. }
    { exists A. split; [by apply Hm|]. done. }
    set (s' := v0_set_group _ _ _). assert (Egs : v0_groups s' = <[r := sg_with_seqs g [q']]> (v0_groups s)) by (cbn; apply insert_insert_eq).
    rewrite (get_group_ok s' r (sg_with_seqs g [q'])) by (rewrite Egs; by rewrite lookup_insert_eq). cbn [mbind result_bind].
    exists true, s', A'. split; [done|]. split; [by split|]. rewrite Egs. split; [intros r' Hr'; by rewrite lookup_insert_ne|exact HA'].
  - assert (Hall : n = uncomputed q).
    { unfold uncomputed in *. apply negb_true_iff, andb_false_iff in Hdo as [Hp|Hp%Z.ltb_ge]; [|lia].
      unfold seq_is_prefill in Hp. apply bool_decide_eq_false in Hp. destruct Hstage as [[_ ?]|[? _]]; [lia|done]. }
    rewrite decide_True in Hg1 by done.
    destruct (sample_group_spec r n o s g q q1 A C W R T F Hc Hpl Hm Hg Ho Hi1 Ht1) as (s' & q' & A' & E & Hf & Hgs & Hm');
      [congruence|done|lia|unfold uncomputed, seq_get_len in *; rewrite Ht1; lia|].
    rewrite E. cbn [mbind result_bind]. rewrite (get_group_ok s' r (sg_with_seqs g [q'])) by (rewrite Hgs; by rewrite lookup_insert_eq).
    cbn [mbind result_bind]. exists (seq_is_finished q'), s', A'. split; [unfold sg_is_finished; cbn; by rewrite andb_true_r|]. split; [done|].
    split; [|done]. intros r' Hr'. by rewrite Hgs, lookup_insert_ne.
  - apply negb_false_iff, andb_true_iff in Hdo as [Hp Hlt%Z.ltb_lt]. unfold seq_is_prefill in Hp. apply bool_decide_eq_true in Hp.
    assert (Hnu : n ≠ uncomputed q) by (unfold uncomputed; lia). rewrite decide_False in Hg1 by done.
    assert (Hf1 : seq_is_finished q1 = false) by (unfold seq_is_finished; by rewrite Hs1).
    destruct (settle r n g q q1 _ (block_manager s) A C W R T F _ Hm Hg Ho Hi1) as [A' HA'].
    { rewrite Ht1. by destruct Ho. }
    { rewrite Hf1. exists A. split; [by apply Hm|]. split; [done|]. split; [congruence|]. split; [|split; [intros Hch; by destruct Hnu; apply Hn2|]].
      - split; [lia|]. right. unfold uncomputed, seq_get_len in *. rewrite Ht1. split; [congruence|lia].
      - by rewrite Ht1. }
    cbn [mbind result_bind]. rewrite (get_group_ok _ r (sg_with_seqs g [q1])) by (cbn; by rewrite lookup_insert_eq). cbn [mbind result_bind].
    rewrite Hf1 in HA'. exists false. eexists _, A'. split; [unfold sg_is_finished; cbn; by rewrite Hf1|]. split; [by split|].
    split; [|done]. intros r' Hr'. cbn. by rewrite lookup_insert_ne.
Qed.

Lemma process_groups_spec : ∀ T mds os s A C W R F,
  configured s -> mid (block_manager s) (v0_groups s) A C W R T F -> Forall2 (md_for (v0_groups s)) mds T -> (length T <= length os)%nat ->
  ∃ fin s' A' R' F', process_groups mds (refs_of T) os s = Ok (fin, s') ∧ frame s s' ∧
    mid (block_manager s') (v0_groups s') A' C W R' [] F' ∧ R' ++ F' ≡ₚ R ++ refs_of T ++ F ∧ (fin = false -> F' = F).
Proof.
  induction T as [|x T IH]; intros mds os s A C W R F Hc Hm Hmd Hlen.
  { apply Forall2_nil_inv_r in Hmd as ->. exists false, s, A, R, F. done. }
  apply Forall2_cons_inv_r in Hmd as (md & mds' & Hx & Hmd & ->). destruct os as [|o os]; [cbn in Hlen; lia|].
  destruct (process_group_spec md x o s A C W R T F Hc Hm Hx) as (fin & s1 & A1 & E1 & Hf1 & Hgs & Hm1).
  cbn [refs_of fmap list_fmap process_groups head tail]. rewrite E1. cbn [mbind result_bind fst snd].
  destruct (take_t c key _ _ _ _ _ _ _ _ _ Hm) as [Ha _].
  destruct (IH mds' os s1 A1 C W (if fin then R else ssg_seq_group x :: R) (if fin then ssg_seq_group x :: F else F)) as (fin2 & s2 & A2 & R2 & F2 & E2 & Hf2 & Hm2 & HP & HF).
  - destruct Hc, Hf1. split; congruence.
  - exact Hm1.
  - apply Forall2_same_length_lookup_2; [by apply Forall2_length in Hmd|]. intros i md' x' Hi Hi'.
    pose proof (Forall2_lookup_lr _ _ _ _ _ _ Hmd Hi Hi') as (g & q & Hg & Hrest). exists g, q. split; [|done]. rewrite Hgs; [done|].
    destruct (fresh_keys c key _ _ _ _ _ _ _ _ _ (ssg_seq_group x') Ha) as (_ & _ & ?); [|done].
    apply elem_of_app. right. apply elem_of_app. right. apply elem_of_app. left. apply list_elem_of_fmap_2. by eapply list_elem_of_lookup_2.
  - cbn in Hlen. lia.
  - fold (refs_of T). rewrite E2. cbn [mbind result_bind fst snd]. eexists _, s2, A2, R2, F2. split; [reflexivity|]. split; [by etrans|]. split; [done|]. split.
    + rewrite HP. destruct fin; cbn; [|apply Permutation_middle]. apply Permutation_app_head. symmetry. apply Permutation_middle.
    + intros [-> ->]%orb_false_iff. by apply HF.
Qed.

(** ** Releasing the finished groups *)

Lemma free_finished_one s r A C W R F :
  mid (block_manager s) (v0_groups s) A C W R [] (r :: F) ->
  ∃ s' A' C', _free_finished_seq_group s r = Ok s' ∧ frame s s' ∧ v0_groups s' = v0_groups s ∧
    mid (block_manager s') (v0_groups s') A' C' W R [] F ∧ ∃ g, v0_groups s !! r = Some g ∧ sg_is_finished g = true.
Proof.
  intros Hm. destruct (take_f c key _ _ _ _ _ _ _ _ _ Hm) as [Ha (g & q & Hg & Ho & Hf)]. pose proof Ho as [O1 O2 O3 O4 O5 O6 O7].
  assert (Hfin : sg_is_finished g = true) by (unfold sg_is_finished; rewrite O1; cbn; by rewrite Hf).
  unfold _free_finished_seq_group. rewrite (get_group_ok s r g Hg). cbn [mbind result_bind]. rewrite Hfin.
  destruct (free_cross_group s g A C (md_bm _ _ _ _ _ _ _ _ _ _ Hm) O5) as (m1 & E1 & Hm1 & _). rewrite E1. cbn [mbind result_bind].
  unfold _free_finished_seqs. rewrite O1. rewrite filter_cons_True, filter_nil by done. cbn [for_each].
  set (s1 := v0_with_finished _ _). unfold free_seq. destruct (bs_free_ok (block_manager s1) A _ q Hm1) as (m2 & E2 & Hm2). rewrite E2. cbn [mbind result_bind].
  eexists _, _, _. split; [reflexivity|]. split; [by split|]. split; [done|]. split; [|by exists g]. cbn [block_manager v0_groups v0_with_bm].
  rewrite O3, O2 in Hm2.
  assert (Ha' := around_update c key r g _ m2 _ A _ C _ _ _ _ _ Ha Hm2). change (v0_groups s1) with (v0_groups s).
  rewrite <-(insert_id (v0_groups s) r g Hg). apply (drop_it c key r); [apply Ha'|..].
  - intros id Hid. by rewrite lookup_delete_ne.
  - intros x Hx. destruct (is_encoder_decoder g); set_solver.
  - by rewrite lookup_delete_eq.
  - destruct (is_encoder_decoder g) eqn:E; [set_solver|]. intros Hin.
    apply (cross_own c key _ _ _ _ _ _ _ _ r g Hm) in Hin; [congruence|apply elem_of_app; right; apply elem_of_app; right; by left|done].
Qed.

Lemma free_running_one s r A C W R F : r ∈ R ->
  mid (block_manager s) (v0_groups s) A C W R [] F ->
  _free_finished_seq_group s r = Ok s ∧ ∃ g, v0_groups s !! r = Some g ∧ sg_is_finished g = false.
Proof.
  intros Hr Hm. destruct (md_r _ _ _ _ _ _ _ _ _ _ Hm r Hr) as (g & q & ts & Hg & [O1 _ _ _ _ _ _] & Hst & _).
  assert (Hfin : sg_is_finished g = false) by (unfold sg_is_finished; rewrite O1; cbn; by rewrite (status_unfinished q _ Hst eq_refl)).
  split; [|by exists g]. unfold _free_finished_seq_group. rewrite (get_group_ok s r g Hg). cbn [mbind result_bind]. rewrite Hfin. cbn [mbind result_bind].
  unfold _free_finished_seqs. rewrite O1, filter_cons_False; [done|]. by rewrite (status_unfinished q _ Hst eq_refl).
Qed.

Lemma free_running_spec W R : ∀ queue s A C F,
  mid (block_manager s) (v0_groups s) A C W R [] F -> NoDup queue -> (∀ r, r ∈ queue -> r ∈ R ++ F) -> (∀ r, r ∈ F -> r ∈ queue) ->
  ∃ l s' A' C', free_running s queue = Ok (l, s') ∧ frame s s' ∧ mid (block_manager s') (v0_groups s') A' C' W R [] [] ∧
    l `sublist_of` queue ∧ (∀ r, r ∈ l <-> r ∈ queue ∧ r ∈ R) ∧ v0_groups s' = v0_groups s.
Proof.
  induction queue as [|r queue IH]; intros s A C F Hm Hnd Hin Hall.
  { assert (F = []) as -> by (destruct F as [|r F]; [done|]; destruct (not_elem_of_nil r); apply Hall; by left).
    exists [], s, A, C. split; [done|]. split; [done|]. split; [done|]. split; [done|]. split; [set_solver|done]. }
  apply NoDup_cons in Hnd as [Hr Hnd]. cbn [free_running].
  pose proof (md_rids _ _ _ _ _ _ _ _ _ _ Hm) as Hids. rewrite fmap_app in Hids. apply NoDup_app in Hids as (_ & _ & Hids). cbn in Hids.
  apply NoDup_fmap_1 in Hids. apply NoDup_app in Hids as (_ & HRF & HndF).
  destruct (decide (r ∈ F)) as [HF|HF].
  - apply elem_of_Permutation in HF as [F1 HF].
    destruct (free_finished_one s r A C W R F1) as (s1 & A1 & C1 & E1 & Hf1 & Hg1 & Hm1 & g & Hg & Hfin).
    { eapply mid_perm; [reflexivity|reflexivity|reflexivity|exact HF|exact Hm]. }
    rewrite HF in HndF. apply NoDup_cons in HndF as [HrF _].
    rewrite E1. cbn [mbind result_bind]. rewrite (get_group_ok s1 r g) by (by rewrite Hg1). cbn [mbind result_bind]. rewrite Hfin.
    destruct (IH s1 A1 C1 F1 Hm1 Hnd) as (l & s2 & A2 & C2 & E2 & Hf2 & Hm2 & Hl1 & Hl2 & Hgs2).
    + intros r' Hr'. pose proof (Hin r' ltac:(by right)) as Hx. apply elem_of_app in Hx as [Hx|Hx]; [set_solver|]. rewrite HF in Hx. set_solver.
    + intros r' Hr'. pose proof (Hall r' ltac:(rewrite HF; by right)) as Hx. apply elem_of_cons in Hx as [->|Hx]; done.
    + rewrite E2. cbn [mbind result_bind fst snd]. exists l, s2, A2, C2. split; [done|]. split; [by etrans|]. split; [done|].
      split; [by constructor|]. split; [|congruence]. intros r'. rewrite Hl2, elem_of_cons. split; [naive_solver|]. intros [[->|?] HrR]; [|done].
      destruct (HRF r HrR). rewrite HF. by left.
  - assert (HrR : r ∈ R) by (pose proof (Hin r ltac:(by left)) as Hx; by apply elem_of_app in Hx as [?|?]).
    destruct (free_running_one s r A C W R F HrR Hm) as (E1 & g & Hg & Hfin). rewrite E1. cbn [mbind result_bind].
    rewrite (get_group_ok s r g Hg). cbn [mbind result_bind]. rewrite Hfin.
    destruct (IH s A C F Hm Hnd) as (l & s2 & A2 & C2 & E2 & Hf2 & Hm2 & Hl1 & Hl2 & Hgs2).
    + intros r' Hr'. apply Hin. by right.
    + intros r' Hr'. pose proof (Hall r' Hr') as Hx. apply elem_of_cons in Hx as [->|Hx]; done.
    + rewrite E2. cbn [mbind result_bind fst snd]. exists (r :: l), s2, A2, C2. split; [done|]. split; [done|]. split; [done|].
      split; [by constructor|]. split; [|done]. intros r'. rewrite !elem_of_cons, Hl2. naive_solver.
Qed.

Lemma free_finished_spec s A C W R F :
  mid (block_manager s) (v0_groups s) A C W R [] F -> v0_running s ≡ₚ R ++ F -> _async_stopped s = [] ->
  ∃ s' A' C', free_finished_seq_groups s = Ok s' ∧ mid (block_manager s') (v0_groups s') A' C' W (v0_running s') [] [] ∧
    v0_config s' = v0_config s ∧ v0_cache_config s' = v0_cache_config s ∧ v0_waiting s' = v0_waiting s ∧ v0_swapped s' = v0_swapped s ∧
    _async_stopped s' = [] ∧ v0_running s' `sublist_of` v0_running s ∧ v0_running s' ++ F ≡ₚ v0_running s ∧
    v0_groups s' = v0_groups s.
Proof.
  intros Hm HP Hst. pose proof (md_rids _ _ _ _ _ _ _ _ _ _ Hm) as Hids. rewrite fmap_app in Hids. apply NoDup_app in Hids as (_ & _ & Hids).
  cbn in Hids. apply NoDup_fmap_1 in Hids. pose proof Hids as Hq. rewrite <-HP in Hq.
  destruct (free_running_spec W R (v0_running s) s A C F Hm Hq) as (l & s1 & A1 & C1 & E & [F1 F2 F3 F4 F5 F6 F7] & Hm1 & Hl1 & Hl2 & Hgs).
  { intros r. by rewrite HP. }
  { intros r Hr. rewrite HP. apply elem_of_app. by right. }
  assert (HlR : l ≡ₚ R).
  { apply NoDup_Permutation; [by eapply sublist_NoDup|by apply NoDup_app in Hids as (? & _)|]. intros r. rewrite Hl2, HP, elem_of_app. naive_solver. }
  unfold free_finished_seq_groups. rewrite E. cbn [mbind result_bind fst snd _async_stopped v0_with_running v0_with_queues]. rewrite F7, Hst. cbn [for_each mbind result_bind].
  eexists _, A1, C1. split; [reflexivity|]. cbn. split; [eapply mid_perm; [reflexivity|symmetry; exact HlR|reflexivity|reflexivity|exact Hm1]|].
  split_and!; try done. by rewrite HlR, HP.
Qed.

(** ** The step of the engine *)

Lemma v0_step_spec clock execute_model s A C :
  idle c cc key s A C -> (∀ mds, length (execute_model mds) = length mds) ->
  ∃ o s' A' C' ended, v0_step clock execute_model s = Ok (o, s') ∧ idle c cc key s' A' C' ∧
    v0_waiting s' ++ v0_running s' ++ ended ++ ignored_seq_groups o ≡ₚ v0_waiting s ++ v0_running s ∧
    (∀ r, r ∈ ignored_seq_groups o -> hopeless c s r) ∧
    ∀ r, r ∈ ended -> ∃ g, v0_groups s' !! r = Some g ∧ sg_is_finished g = true.
Proof.
  intros Hi Hexe. destruct (schedule_batch_spec c cc Hcfg key clock s A C Hi) as (mds & o & s1 & R & A1 & C1 & E & Hp & Hmd).
  unfold v0_step. rewrite E. cbn [mbind result_bind get_and_reset_finished_requests_ids snd]. set (s2 := v0_with_finished s1 []).
  set (samples := if is_empty o then [] else execute_model mds).
  assert (Hlen : (length (scheduled_seq_groups o) <= length samples)%nat).
  { rewrite <-(Forall2_length _ _ _ Hmd). unfold samples, is_empty. case_bool_decide as Hnil; [|cbn; rewrite Hexe; done].
    rewrite Hnil in Hmd. apply Forall2_nil_inv_r in Hmd as ->. cbn. lia. }
  destruct Hp as [P1 P2 P3 P4 P5 P6 P7 P8 P9 P10 P11 P12].
  destruct (process_groups_spec (scheduled_seq_groups o) mds samples s2 A1 C1 _ _ _ P1 P2 Hmd Hlen) as (fin & s3 & A3 & R' & F' & E3 & [F1 F2 F3 F4 F5 F6 F7] & Hm3 & HP & HF).
  rewrite E3. cbn [mbind result_bind fst snd]. cbn in F1, F2, F3, F4, F5, F6, F7. rewrite app_nil_r, <-P3 in HP. destruct P1 as [Q1 Q2].
  destruct fin; cbn [mbind result_bind].
  - destruct (free_finished_spec s3 A3 C1 _ R' F' Hm3) as (s4 & A4 & C4 & E4 & Hm4 & G1 & G2 & G3 & G4 & G5 & G6 & G7 & G8).
    { by rewrite F5. }
    { congruence. }
    rewrite E4. cbn [mbind result_bind]. exists o, s4, A4, C4, F'. split; [done|]. split.
    + split; [split; congruence|rewrite G3, F4; done|congruence|done|]. apply sublist_length in G6. rewrite F5 in G6. lia.
    + split; [rewrite P8, G3, F4, (app_assoc (v0_running s4)), G7, F5; done|]. split; [done|]. intros r Hr. rewrite G8.
      destruct (md_f _ _ _ _ _ _ _ _ _ _ Hm3 r Hr) as (g & q & Hg & [Hq _ _ _ _ _ _] & Hf). exists g. split; [done|]. unfold sg_is_finished. rewrite Hq. cbn. by rewrite Hf.
  - specialize (HF eq_refl) as ->. rewrite app_nil_r in HP. exists o, s3, A3, C1, []. split; [done|]. split.
    + split; [split; congruence| |congruence|congruence|rewrite F5; done].
      rewrite F4, F5. eapply mid_perm; [reflexivity|exact HP|reflexivity|reflexivity|exact Hm3].
    + split; [rewrite P8, F4, F5; done|]. split; [done|]. by intros r ?%not_elem_of_nil.
Qed.
End engine.
