(* ===== verification/V0Requests.v ===== *)
(** * Requests come and go in the v0 scheduler

    [add_seq_group] and [abort_seq_group] over the invariant between steps. *)

From stdpp Require Import base tactics list gmap sets strings.
From Stdlib Require Import ZArith QArith Lia.
From S2P Require Import Prelude.
From S2P Require Import SamplingParams.
From S2P Require Import V0Sequence.
From S2P Require Import NaiveBlocks.
From S2P Require Import BlockManager.
From S2P Require Import V0Interface.
From S2P Require Import V0Contract.
From S2P Require Import V0Scheduler.
From S2P Require Import V0SchedInv.
From S2P Require Import V0SchedOps.
From S2P Require Import V0SchedLoops.
From S2P Require Import V0SchedStep.

Local Open Scope Z_scope.

Lemma remove_first_perm x l : x ∈ l -> l ≡ₚ x :: remove_first x l.
Proof.
  induction l as [|y l IH]; intros Hx; [by apply not_elem_of_nil in Hx|]. cbn. case_decide as E; [by subst|].
  apply elem_of_cons in Hx as [->|Hx]; [done|]. rewrite (IH Hx) at 1. apply Permutation_swap.
Qed.

Section requests.
Context {M : Type} `{!BlockSpaceOps M} `{!BlockSpaceSpec M}.
Context (c : SchedulerConfig) (cc : V0CacheConfig).
Context (key : nat -> string * Z).
Implicit Types s : V0Scheduler M.
Abbreviation rid r := (key r).1.
Abbreviation sid r := (key r).2.
Abbreviation mid := (mid c key).
Abbreviation around := (around c key).
Abbreviation one := (one c key).
Abbreviation idle := (idle c cc key).

(** ** Adding *)

(** A group as [_add_processed_request] builds it: one waiting sequence, nothing computed. *)
Definition new_group (r : nat) (g : SequenceGroup) : Prop :=
  ∃ q, one r g q ∧ seq_status q = WAITING ∧ seq_stage q = PREFILL ∧ seq_num_computed_tokens q = 0.

Definition fresh s (r : nat) : Prop :=
  (∀ r', r' ∈ v0_waiting s ++ v0_running s -> rid r' ≠ rid r) ∧ (∀ r', r' ∈ v0_waiting s ++ v0_running s -> sid r' ≠ sid r).

Lemma idle_around s A C r : idle s A C -> fresh s r ->
  around r (block_manager s) (v0_groups s) A C (v0_waiting s) (v0_running s) [] [] ∧ A !! sid r = None ∧ rid r ∉ C.
Proof.
  intros [_ [M1 M2 M3 M4 M5 M6 M7 M8 M9] _ _ _] [Hr Hs]. cbn [refs_of fmap list_fmap app] in *. rewrite ?app_nil_r in *.
  assert (HA : A !! sid r = None).
  { destruct (A !! sid r) eqn:E; [|done]. pose proof (M8 (sid r) ltac:(eauto)) as Hin. apply list_elem_of_fmap in Hin as (r' & Hr' & Hin). destruct (Hs r'); [apply elem_of_app; by right|done]. }
  assert (HC : rid r ∉ C).
  { intros Hin. destruct (M9 _ Hin) as (r' & g & Hin' & _ & E & _). rewrite ?app_nil_r in *. destruct (Hr r'); [apply elem_of_app; by right|done]. }
  split; [|done]. split; try done; cbn [refs_of fmap list_fmap app]; rewrite ?app_nil_r.
  - constructor; [|done]. intros (r' & E & Hin)%list_elem_of_fmap. by apply (Hr r' Hin).
  - constructor; [|done]. intros (r' & E & Hin)%list_elem_of_fmap. by apply (Hs r' Hin).
  - intros id Hid. right. specialize (M8 id Hid). by rewrite ?app_nil_r in M8.
  - intros x Hx. right. destruct (M9 x Hx) as (r' & g & H). exists r', g. by rewrite ?app_nil_r in H.
Qed.

Lemma add_spec s A C r g : idle s A C -> fresh s r -> new_group r g -> idle (add_seq_group (v0_set_group s r g) r) A C.
Proof.
  intros Hi Hf (q & Ho & Hst & Hpf & Hcomp). destruct (idle_around s A C r Hi Hf) as (Ha & HA & HC). destruct Hi as [I1 I2 I3 I4 I5].
  split; try done. cbn. eapply mid_perm; [apply Permutation_cons_append|reflexivity|reflexivity|reflexivity|].
  apply put_w; [|by exists g, q; rewrite lookup_insert_eq|done|done].
  by apply (around_update c key r g _ _ _ A A C C _ _ _ _ Ha); [apply (ar_bm _ _ _ _ _ _ _ _ _ _ _ Ha)|..].
Qed.

(** ** Aborting *)

Lemma abort_group_spec s r g q A C W R :
  around r (block_manager s) (v0_groups s) A C W R [] [] -> v0_groups s !! r = Some g -> one r g q -> seq_is_finished q = false ->
  (rid r ∈ C -> is_encoder_decoder g = true) ->
  ∃ s' A' C', abort_group r s = Ok s' ∧ frame s s' ∧ mid (block_manager s') (v0_groups s') A' C' W R [] [] ∧
    (∀ r', r' ≠ r -> v0_groups s' !! r' = v0_groups s !! r').
Proof.
  intros Ha Hg [O1 O2 O3 O4 O5 O6 O7] Hf Hcross. unfold abort_group. rewrite (get_group_ok s r g Hg). cbn [mbind result_bind].
  set (s1 := v0_with_finished s _). rewrite O1, filter_cons_True, filter_nil by done. cbn [for_each]. unfold free_seq.
  destruct (bs_free_ok (block_manager s1) A C q (ar_bm _ _ _ _ _ _ _ _ _ _ _ Ha)) as (m1 & E1 & Hm1). rewrite E1. cbn [mbind result_bind].
  set (g' := update_seqs _ _ g). set (s2 := v0_set_group _ _ _).
  destruct (free_cross_group s2 g (delete (seq_id q) A) C Hm1 O5) as (m2 & E2 & Hm2 & _). rewrite E2, O3, O2 in *.
  eexists _, _, _. split; [reflexivity|]. split; [by split|]. split; [|intros r' Hr'; cbn; by rewrite lookup_insert_ne].
  assert (Ha' := around_update c key r g' _ m2 _ A _ C _ _ _ _ _ Ha Hm2). apply (drop_it c key r); [apply Ha'|..].
  - intros id Hid. by rewrite lookup_delete_ne.
  - intros x Hx. destruct (is_encoder_decoder g); set_solver.
  - by rewrite lookup_delete_eq.
  - destruct (is_encoder_decoder g) eqn:E; [set_solver|]. intros Hin. by apply Hcross in Hin.
Qed.

Lemma collect_spec s queue : ∀ ids,
  (∀ r, r ∈ queue -> ∃ g, v0_groups s !! r = Some g ∧ sg_request_id g = rid r) -> NoDup ((fun r => rid r) <$> queue) ->
  ∃ l ids', collect_aborted s ids queue = Ok (l, ids') ∧ NoDup l ∧ (∀ r, r ∈ l <-> r ∈ queue ∧ rid r ∈ ids) ∧
    (∀ x, x ∈ ids' <-> x ∈ ids ∧ x ∉ (fun r => rid r) <$> queue).
Proof.
  induction queue as [|r queue IH]; intros ids Hg Hnd.
  { exists [], ids. split; [done|]. split; [constructor|]. split; set_solver. }
  cbn [collect_aborted]. rewrite fmap_cons in Hnd. apply NoDup_cons in Hnd as [Hr Hnd]. case_decide as Hids.
  { subst ids. exists [], ∅. split; [done|]. split; [constructor|]. set_solver. }
  destruct (Hg r) as (g & E & Hid); [by left|]. rewrite (get_group_ok s r g E). cbn [mbind result_bind]. rewrite Hid.
  assert (Hg' : ∀ r', r' ∈ queue -> ∃ g, v0_groups s !! r' = Some g ∧ sg_request_id g = rid r') by (intros r' Hr'; apply Hg; by right).
  assert (Hne : ∀ r', r' ∈ queue -> rid r' ≠ rid r) by (intros r' Hr' Eq; apply Hr; rewrite <-Eq; by apply (list_elem_of_fmap_2 (fun r => rid r))).
  case_decide as Hin.
  - destruct (IH (ids ∖ {[rid r]}) Hg' Hnd) as (l & ids' & -> & Hl1 & Hl2 & Hl3). cbn [mbind result_bind fst snd]. eexists _, ids'. split; [reflexivity|].
    split; [constructor; [|done]|]; [rewrite Hl2; set_solver|]. split; [|intros x; rewrite Hl3, fmap_cons; set_solver].
    intros r'. rewrite !elem_of_cons, Hl2. split; [set_solver|]. intros [[->|Hr'] Hi]; [by left|]. right. split; [done|]. specialize (Hne r' Hr'). set_solver.
  - destruct (IH ids Hg' Hnd) as (l & ids' & -> & Hl1 & Hl2 & Hl3). eexists l, ids'. split; [reflexivity|]. split; [done|].
    split; [intros r'; rewrite Hl2; set_solver|]. intros x. rewrite Hl3, fmap_cons. set_solver.
Qed.

Lemma abort_waiting l : ∀ s A C, idle s A C -> NoDup l -> (∀ r, r ∈ l -> r ∈ v0_waiting s) ->
  ∃ s' A' C', for_each (fun ref s => abort_group ref (v0_with_waiting s (remove_first ref (v0_waiting s)))) l s = Ok s' ∧ idle s' A' C' ∧
    v0_waiting s ≡ₚ l ++ v0_waiting s' ∧ v0_running s' = v0_running s.
Proof.
  induction l as [|r l IH]; intros s A C Hi Hnd Hl; [by exists s, A, C|]. apply NoDup_cons in Hnd as [Hr Hnd]. cbn [for_each].
  pose proof (remove_first_perm r (v0_waiting s) (Hl r ltac:(by left))) as HP. destruct Hi as [I1 I2 I3 I4 I5]. set (s0 := v0_with_waiting s _).
  assert (Hm : mid (block_manager s0) (v0_groups s0) A C (r :: v0_waiting s0) (v0_running s0) [] []).
  { eapply mid_perm; [exact HP|reflexivity|reflexivity|reflexivity|exact I2]. }
  destruct (take_w c key _ _ _ _ _ _ _ _ _ Hm) as (Ha & (g & q & Hg & Ho & Hst & _) & HA & HC).
  destruct (abort_group_spec s0 r g q A C _ _ Ha Hg Ho) as (s1 & A1 & C1 & E1 & [F1 F2 F3 F4 F5 F6 F7] & Hm1 & Hgs); [by unfold seq_is_finished; rewrite Hst|done|].
  rewrite E1. cbn [mbind result_bind]. destruct (IH s1 A1 C1) as (s2 & A2 & C2 & E2 & Hi2 & HP2 & Hrun).
  - destruct I1 as [Ec Ecc]. split; rewrite ?F4, ?F5, ?F6, ?F7; try done. by split; [rewrite F1|rewrite F2].
  - done.
  - intros r' Hr'. pose proof (Hl r' ltac:(by right)) as Hx. rewrite HP in Hx. rewrite F4. apply elem_of_cons in Hx as [->|Hx]; done.
  - exists s2, A2, C2. split; [done|]. split; [done|]. split; [|by rewrite Hrun, F5]. rewrite HP. rewrite F4 in HP2. cbn in HP2. cbn. by rewrite <-HP2.
Qed.

Lemma abort_running l : ∀ s A C, idle s A C -> NoDup l -> (∀ r, r ∈ l -> r ∈ v0_running s) ->
  ∃ s' A' C', for_each (fun ref s => abort_group ref (v0_with_running s (remove_first ref (v0_running s)))) l s = Ok s' ∧ idle s' A' C' ∧
    v0_running s ≡ₚ l ++ v0_running s' ∧ v0_waiting s' = v0_waiting s.
Proof.
  induction l as [|r l IH]; intros s A C Hi Hnd Hl; [by exists s, A, C|]. apply NoDup_cons in Hnd as [Hr Hnd]. cbn [for_each].
  pose proof (remove_first_perm r (v0_running s) (Hl r ltac:(by left))) as HP. destruct Hi as [I1 I2 I3 I4 I5]. set (s0 := v0_with_running s _).
  assert (Hm : mid (block_manager s0) (v0_groups s0) A C (v0_waiting s0) (r :: v0_running s0) [] []).
  { eapply mid_perm; [reflexivity|exact HP|reflexivity|reflexivity|exact I2]. }
  destruct (take_r c key _ _ _ _ _ _ _ _ _ Hm) as (Ha & g & q & ts & Hg & Ho & Hst & _).
  destruct (abort_group_spec s0 r g q A C _ _ Ha Hg Ho) as (s1 & A1 & C1 & E1 & [F1 F2 F3 F4 F5 F6 F7] & Hm1 & Hgs); [by unfold seq_is_finished; rewrite Hst| |].
  { intros Hin. by apply (cross_own c key _ _ _ _ _ _ _ _ r g Hm); [left|..]. }
  rewrite E1. cbn [mbind result_bind]. apply Permutation_length in HP as Hlen. cbn in Hlen.
  destruct (IH s1 A1 C1) as (s2 & A2 & C2 & E2 & Hi2 & HP2 & Hrun).
  - destruct I1 as [Ec Ecc]. split; rewrite ?F4, ?F5, ?F6, ?F7; try done; [by split; [rewrite F1|rewrite F2]|cbn; lia].
  - done.
  - intros r' Hr'. pose proof (Hl r' ltac:(by right)) as Hx. rewrite HP in Hx. rewrite F5. apply elem_of_cons in Hx as [->|Hx]; done.
  - exists s2, A2, C2. split; [done|]. split; [done|]. split; [|by rewrite Hrun, F4]. rewrite HP. rewrite F5 in HP2. cbn in HP2. cbn. by rewrite <-HP2.
Qed.

Lemma idle_ids s A C : idle s A C -> ∀ r, r ∈ v0_waiting s ++ v0_running s -> ∃ g, v0_groups s !! r = Some g ∧ sg_request_id g = rid r.
Proof.
  intros Hi r [Hr|Hr]%elem_of_app.
  - destruct (md_w _ _ _ _ _ _ _ _ _ _ (id_mid _ _ _ _ _ _ Hi) r Hr) as (g & q & Hg & [_ ? _ _ _ _ _] & _). by exists g.
  - destruct (md_r _ _ _ _ _ _ _ _ _ _ (id_mid _ _ _ _ _ _ Hi) r Hr) as (g & q & ts & Hg & [_ ? _ _ _ _ _] & _). by exists g.
Qed.

(** Exactly the requests with these ids leave, with their blocks. *)
Lemma abort_spec s A C ids : idle s A C ->
  ∃ s' A' C', abort_seq_group s ids = Ok s' ∧ idle s' A' C' ∧
    (∀ r, r ∈ v0_waiting s' <-> r ∈ v0_waiting s ∧ rid r ∉ ids) ∧ (∀ r, r ∈ v0_running s' <-> r ∈ v0_running s ∧ rid r ∉ ids).
Proof.
  intros Hi. pose proof (md_rids _ _ _ _ _ _ _ _ _ _ (id_mid _ _ _ _ _ _ Hi)) as Hnd. rewrite app_nil_r in Hnd. pose proof (NoDup_fmap_1 _ _ Hnd) as Hnd'.
  rewrite fmap_app in Hnd. apply NoDup_app in Hnd as (HndW & Hdis & HndR). apply NoDup_app in Hnd' as (_ & _ & HndR').
  destruct (collect_spec s (v0_waiting s) ids) as (lw & ids1 & E1 & H1 & H2 & H3); [intros r Hr; apply (idle_ids s A C Hi), elem_of_app; by left|done|].
  unfold abort_seq_group. rewrite E1. cbn [mbind result_bind fst snd].
  destruct (abort_waiting lw s A C Hi H1) as (s1 & A1 & C1 & E2 & Hi1 & HP1 & Er1); [intros r Hr; by apply H2|]. rewrite E2. cbn [mbind result_bind].
  destruct (collect_spec s1 (v0_running s1) ids1) as (lr & ids2 & E3 & H4 & H5 & H6); [intros r Hr; apply (idle_ids s1 A1 C1 Hi1), elem_of_app; by right|by rewrite Er1|].
  rewrite E3. cbn [mbind result_bind fst snd].
  destruct (abort_running lr s1 A1 C1 Hi1 H4) as (s2 & A2 & C2 & E4 & Hi2 & HP2 & Ew2); [intros r Hr; by apply H5|]. rewrite E4. cbn [mbind result_bind].
  rewrite (id_swapped _ _ _ _ _ _ Hi2). cbn [collect_aborted mbind result_bind fst snd for_each]. exists s2, A2, C2. split; [done|]. split; [done|].
  pose proof (NoDup_fmap_1 _ _ HndW) as HndW'. rewrite HP1 in HndW'. rewrite Er1 in *. rewrite HP2 in HndR'. apply NoDup_app in HndW' as (_ & HdW & _). apply NoDup_app in HndR' as (_ & HdR & _).
  split; intros r.
  - rewrite Ew2. split.
    + intros Hr. assert (Hr0 : r ∈ v0_waiting s) by (rewrite HP1; apply elem_of_app; by right). split; [done|]. intros Hid. apply (HdW r); [by apply H2|done].
    + intros [Hr Hid]. rewrite HP1 in Hr. apply elem_of_app in Hr as [Hr%H2|Hr]; [by destruct Hr|done].
  - assert (Hids : r ∈ v0_running s -> rid r ∈ ids1 <-> rid r ∈ ids).
    { intros Hr. rewrite H3. split; [by intros [? _]|]. intros Hid. split; [done|]. intros Hw. apply (Hdis _ Hw). by apply (list_elem_of_fmap_2 (fun r => rid r)). }
    split.
    + intros Hr. assert (Hr0 : r ∈ v0_running s) by (rewrite HP2; apply elem_of_app; by right). split; [done|]. intros Hid%(Hids Hr0).
      apply (HdR r); [by apply H5|done].
    + intros [Hr Hid]. pose proof Hr as Hr0. rewrite HP2 in Hr. apply elem_of_app in Hr as [Hr%H5|Hr]; [|done]. destruct Hr as [_ Hr%(Hids Hr0)]. done.
Qed.
End requests.
