(* ===== verification/V0Theorems.v ===== *)
(** * Theorems about the v0 scheduler and engine

    [v0_reach]: the states the engine goes through, over any block manager that meets
    the contract [BlockSpaceSpec], with requests added and aborted between its steps. *)

From stdpp Require Import base tactics list gmap sets strings.
From Stdlib Require Import ZArith QArith Lia.
From S2P Require Import Prelude.
From S2P Require Import SamplingParams.
From S2P Require Import V0Sequence.
From S2P Require Import NaiveBlocks.
From S2P Require Import BlockStore.
From S2P Require Import BlockManager.
From S2P Require Import BlockTables.
From S2P Require Import BlockSpaceInv.
From S2P Require Import BlockSpaceTheorems.
From S2P Require Import V0Interface.
From S2P Require Import V0Contract.
From S2P Require Import V0Scheduler.
From S2P Require Import V0Engine.
From S2P Require Import V0SchedInv.
From S2P Require Import V0SchedOps.
From S2P Require Import V0SchedLoops.
From S2P Require Import V0SchedPrefill.
From S2P Require Import V0SchedStep.
From S2P Require Import V0EngineInv.
From S2P Require Import V0Requests.

Local Open Scope Z_scope.

Section reach.
Context {M : Type} `{!BlockSpaceOps M} `{!BlockSpaceSpec M}.
Context (c : SchedulerConfig) (cc : V0CacheConfig) (key : nat -> string * Z).
Implicit Types s : V0Scheduler M.

(** A run of the engine: group [r] has the request and sequence id [key r].  The theorems
    below use it with [config_ok c cc]: a configuration that passes its checks, with one
    scheduler step per call, no prefix caching, and preemption by recomputation (swapping
    can break the engine, see [priority_swap_breaks_engine]).  The groups added
    ([new_group]) have one waiting sequence with at least one token, and their prompt limit
    is defined: for a LoRA adapter with its own long context, this context is at least the
    limit without it, as [_get_prompt_limit] asserts. *)
Inductive v0_reach : V0Scheduler M -> Prop :=
  | vr_init max_loras m : bs_inv m ∅ ∅ -> 0 <= sc_max_num_seqs c -> v0_reach (v0_init c cc max_loras m)
  | vr_add s r g : v0_reach s -> fresh key s r -> new_group c key r g -> v0_reach (add_seq_group (v0_set_group s r g) r)
  | vr_step clock execute_model s o s' : v0_reach s -> (∀ mds, length (execute_model mds) = length mds) ->
      v0_step clock execute_model s = Ok (o, s') -> v0_reach s'
  | vr_abort ids s s' : v0_reach s -> abort_seq_group s ids = Ok s' -> v0_reach s'.

Lemma init_idle max_loras m : bs_inv m ∅ ∅ -> 0 <= sc_max_num_seqs c -> idle c cc key (v0_init c cc max_loras m) ∅ ∅.
Proof.
  intros Hm Hs. split; try done. split; cbn; try constructor; try done; intros r Hr; try by apply not_elem_of_nil in Hr.
  by destruct Hr.
Qed.

Lemma v0_reach_idle s : config_ok c cc -> v0_reach s -> ∃ A C, idle c cc key s A C.
Proof.
  intros Hcfg. induction 1 as [max_loras m Hm Hs|s r g _ (A & C & Hi) Hf Hn|clock exe s o s' _ (A & C & Hi) Hexe E|ids s s' _ (A & C & Hi) E].
  - exists ∅, ∅. by apply init_idle.
  - exists A, C. by apply add_spec.
  - destruct (v0_step_spec c cc Hcfg key clock exe s A C Hi Hexe) as (o' & s1 & A1 & C1 & ended & E1 & Hi1 & _). rewrite E in E1. injection E1 as -> ->. eauto.
  - destruct (abort_spec c cc key s A C ids Hi) as (s1 & A1 & C1 & E1 & Hi1 & _). rewrite E in E1. injection E1 as ->. eauto.
Qed.

(** What a scheduled group may do: its tokens are stored and the chunk is part of what is
    left to compute, all of it unless prefills are chunked. *)
Definition batch_entry_ok (gs : gmap nat SequenceGroup) (A : gmap Z (list Z)) (x : ScheduledSequenceGroup) : Prop :=
  ∃ g q, gs !! ssg_seq_group x = Some g ∧ sg_seqs g = [q] ∧ seq_status q = RUNNING ∧ A !! seq_id q = Some (seq_token_ids q) ∧
    1 <= token_chunk_size x <= get_num_uncomputed_tokens q ∧
    (sc_chunked_prefill_enabled c = false -> token_chunk_size x = get_num_uncomputed_tokens q).
End reach.

(** C7: scheduling never fails and stays within its budgets, for the configurations
    [config_ok]: checked by [SchedulerConfig], single-step, without prefix caching, and
    with preemption by recomputation (not by swapping, where a step can fail an
    assertion: [priority_swap_breaks_engine]).  Requests are groups of one sequence;
    a LoRA adapter with a long context of its own has one that meets the assertion of
    [_get_prompt_limit].  In every state reached with such requests
    [Scheduler.schedule] returns, so none of its other assertions, block allocations or
    table lookups fails, with chunked prefills or without, under both policies.  The
    tokens it counts are those of the batch and at most
    [max_num_batched_tokens], and at most [max_num_seqs] groups run afterwards.  Each
    group is scheduled at most once, is in the running queue, and all its tokens are
    stored in the block manager; every group is afterwards waiting, running or ignored,
    none twice.  There is one metadata entry per scheduled group, with its tokens, and
    it asks for a sample unless only part of the prompt is computed. *)
Theorem v0_schedule_safe {M} `{!BlockSpaceOps M} `{!BlockSpaceSpec M} (c : SchedulerConfig) (cc : V0CacheConfig) (key : nat -> string * Z)
    (clock : nat -> Q) (s : V0Scheduler M) :
  config_ok c cc -> v0_reach c cc key s ->
  ∃ mds o s' A C, v0_schedule clock None s = Ok (mds, o, false, s') ∧ bs_inv (block_manager s') A C ∧
    out_num_batched_tokens o = sum_chunks (scheduled_seq_groups o) ∧ out_num_batched_tokens o <= sc_max_num_batched_tokens c ∧
    len (v0_running s') <= sc_max_num_seqs c ∧
    NoDup (refs_of (scheduled_seq_groups o)) ∧ (∀ r, r ∈ refs_of (scheduled_seq_groups o) -> r ∈ v0_running s') ∧
    Forall (batch_entry_ok c (v0_groups s') A) (scheduled_seq_groups o) ∧
    v0_waiting s' ++ v0_running s' ++ ignored_seq_groups o ≡ₚ v0_waiting s ++ v0_running s ∧
    Forall2 (md_for (v0_groups s')) mds (scheduled_seq_groups o).
Proof.
  intros Hcfg Hr. destruct (v0_reach_idle c cc key s Hcfg Hr) as (A & C & Hi).
  destruct (schedule_batch_spec c cc Hcfg key clock s A C Hi) as (mds & o & s' & R & A' & C' & E & [P1 P2 P3 P4 P5 P6 P7 P8 P9 P10 P11 _] & Hmd).
  exists mds, o, s', A', C'. split; [done|]. split; [by apply P2|]. split; [apply P7|]. split; [apply P7|]. split; [done|]. split.
  { pose proof (md_rids _ _ _ _ _ _ _ _ _ _ P2) as Hnd. apply NoDup_fmap_1 in Hnd. rewrite app_nil_r in Hnd. by apply NoDup_app in Hnd as (_ & _ & (_ & _ & ?)%NoDup_app). }
  split; [intros r Hin; rewrite P3; apply elem_of_app; by right|]. split; [|done].
  apply Forall_forall. intros x Hx. destruct (md_t _ _ _ _ _ _ _ _ _ _ P2 x Hx) as (g & q & Hg & [O1 O2 O3 _ _ _ _] & Hst & _ & [Hn1 Hn2] & HA & _).
  exists g, q. by rewrite O3.
Qed.

(** C8: the engine does not fail and loses no request, for the configurations
    [config_ok] (checked, single-step, no prefix caching, preemption by recomputation;
    with swapping it can fail, see [priority_swap_breaks_engine]) and requests of one
    sequence whose LoRA adapter, if any, meets the assertion of [_get_prompt_limit].  In every reachable state, whatever
    tokens the model samples, a step of the engine returns, in a reachable state again;
    each group that was waiting or running still is, or finished in this step, or is
    ignored.  A group is only ignored when it can never be scheduled: its sequence is
    longer than its prompt limit, or the block manager answers NEVER for it, which
    depends on the sizes of the pool and not on the blocks in use ([bs_never_ok]). *)
Theorem v0_step_total {M} `{!BlockSpaceOps M} `{!BlockSpaceSpec M} (c : SchedulerConfig) (cc : V0CacheConfig) (key : nat -> string * Z)
    (clock : nat -> Q) (execute_model : list SequenceGroupMetadata -> list Sample) (s : V0Scheduler M) :
  config_ok c cc -> v0_reach c cc key s -> (∀ mds, length (execute_model mds) = length mds) ->
  ∃ o s' finished, v0_step clock execute_model s = Ok (o, s') ∧ v0_reach c cc key s' ∧
    v0_waiting s' ++ v0_running s' ++ finished ++ ignored_seq_groups o ≡ₚ v0_waiting s ++ v0_running s ∧
    (∀ r, r ∈ finished -> ∃ g, v0_groups s' !! r = Some g ∧ sg_is_finished g = true) ∧
    ∀ r, r ∈ ignored_seq_groups o -> ∃ g q lim, v0_groups s !! r = Some g ∧ sg_seqs g = [q] ∧ _get_prompt_limit c g = Ok lim ∧
      (lim < seq_get_len q ∨ bs_can_allocate (block_manager s) g 0 = Ok AllocNEVER).
Proof.
  intros Hcfg Hr Hexe. destruct (v0_reach_idle c cc key s Hcfg Hr) as (A & C & Hi).
  destruct (v0_step_spec c cc Hcfg key clock execute_model s A C Hi Hexe) as (o & s' & A' & C' & fin & E & _ & HP & Hh & Hf).
  exists o, s', fin. split; [done|]. split; [by eapply vr_step|]. split; [done|]. split; [done|exact Hh].
Qed.

(** C9: first come, first served.  With the default policy, without chunked prefills and
    LoRA (and single-step, without prefix caching, with preemption by recomputation), a
    scheduling step keeps the order of the groups: read as running queue
    followed by waiting queue, it only drops the ignored ones.  So no group overtakes
    another, and a preempted group returns to the head of the waiting queue, in
    order. *)
Theorem v0_default_fcfs {M} `{!BlockSpaceOps M} `{!BlockSpaceSpec M} (c : SchedulerConfig) (cc : V0CacheConfig) (key : nat -> string * Z)
    (clock : nat -> Q) (s : V0Scheduler M) :
  config_ok c cc -> v0_reach c cc key s -> sc_chunked_prefill_enabled c = false -> sc_policy c ≠ "priority"%string -> v0_max_loras s = None ->
  ∃ mds o s', v0_schedule clock None s = Ok (mds, o, false, s') ∧
    v0_running s' ++ v0_waiting s' `sublist_of` v0_running s ++ v0_waiting s ∧
    v0_running s' ++ v0_waiting s' ++ ignored_seq_groups o ≡ₚ v0_running s ++ v0_waiting s.
Proof.
  intros Hcfg Hr Hch Hpol Hl. destruct (v0_reach_idle c cc key s Hcfg Hr) as (A & C & Hi).
  destruct (schedule_batch_spec c cc Hcfg key clock s A C Hi) as (mds & o & s' & R & A' & C' & E & Hp & Hmd).
  exists mds, o, s'. split; [done|]. split; [by apply (pl_fcfs _ _ _ _ _ _ _ _ _ Hp)|].
  rewrite (Permutation_app_comm (v0_running s)), (pl_queues _ _ _ _ _ _ _ _ _ Hp), !app_assoc. apply Permutation_app_tail, Permutation_app_comm.
Qed.

(** Aborting removes exactly the named requests.  In every reachable state
    [abort_seq_group] returns; afterwards the waiting and running groups are those of
    before whose request id was not named, and the blocks of the others are free. *)
Theorem v0_abort_exact {M} `{!BlockSpaceOps M} `{!BlockSpaceSpec M} (c : SchedulerConfig) (cc : V0CacheConfig) (key : nat -> string * Z)
    (ids : gset string) (s : V0Scheduler M) :
  config_ok c cc -> v0_reach c cc key s ->
  ∃ s' A C, abort_seq_group s ids = Ok s' ∧ bs_inv (block_manager s') A C ∧
    (∀ r, r ∈ v0_waiting s' <-> r ∈ v0_waiting s ∧ (key r).1 ∉ ids) ∧ (∀ r, r ∈ v0_running s' <-> r ∈ v0_running s ∧ (key r).1 ∉ ids) ∧
    (∀ id, is_Some (A !! id) -> ∃ r, r ∈ v0_running s' ∧ id = (key r).2).
Proof.
  intros Hcfg Hr. destruct (v0_reach_idle c cc key s Hcfg Hr) as (A & C & Hi).
  destruct (abort_spec c cc key s A C ids Hi) as (s' & A' & C' & E & Hi' & Hw & Hrun). exists s', A', C'.
  split; [done|]. pose proof (id_mid _ _ _ _ _ _ Hi') as Hm. split; [by apply Hm|]. split; [done|]. split; [done|].
  intros id Hid. pose proof (md_dom _ _ _ _ _ _ _ _ _ _ Hm id Hid) as Hin. rewrite !app_nil_r in Hin. apply list_elem_of_fmap in Hin as (r & -> & Hin). eauto.
Qed.

(** C26: no block leaks, for the configurations [config_ok] (single-step, no prefix caching,
    preemption by recomputation).  When no group is waiting or running, every block of the GPU is
    free again, whatever was scheduled, preempted, finished or aborted before. *)
Theorem v0_no_leak (c : SchedulerConfig) (cc : V0CacheConfig) (key : nat -> string * Z) (s : V0Scheduler BlockSpaceManager) :
  config_ok c cc -> v0_reach c cc key s -> has_unfinished_seqs s = false ->
  let a := block_allocator (block_manager s) in cg_get_num_free_blocks a GPU = cg_get_num_total_blocks a GPU.
Proof.
  intros Hcfg Hr Hnone a. destruct (v0_reach_idle c cc key s Hcfg Hr) as (A & C & [_ Hm _ _ _]).
  assert (Hq : v0_waiting s = [] ∧ v0_running s = []).
  { unfold has_unfinished_seqs in Hnone. apply orb_false_iff in Hnone as [[H1 H2]%orb_false_iff _]. by destruct (v0_waiting s), (v0_running s). }
  destruct Hq as [Ew Er]. rewrite Ew, Er in Hm.
  assert (HA : A = ∅) by (apply map_empty; intros id; destruct (A !! id) eqn:E; [|done]; destruct (not_elem_of_nil id); apply (md_dom _ _ _ _ _ _ _ _ _ _ Hm id); eauto).
  assert (HC : C = ∅).
  { apply leibniz_equiv, set_equiv. intros x. split; [|set_solver]. intros Hx. destruct (md_cross _ _ _ _ _ _ _ _ _ _ Hm x Hx) as (r & g & Hin & _). by apply not_elem_of_nil in Hin. }
  apply gpu_inv_empty. rewrite <-HA at 1. rewrite <-HC at 1. by apply Hm.
Qed.

(** ** Witnesses *)

Definition v0_demo_config (mode : option string) (policy : string) : SchedulerConfig :=
  mkSchedulerConfig "generate" 8 4 8 0 0 false mode 1 false policy.
Definition v0_demo_cache : V0CacheConfig := mkV0CacheConfig 2 false.
Definition v0_demo_params : SamplingParams :=
  mkSamplingParams 1 None None 0 0 0 0 0 0 0 None [] None [] false (Some 6) 0 None None false false false false None CUMULATIVE 0 ∅.
Definition v0_demo_group (rid : string) (id : Z) (toks : list Z) (priority : Z) : SequenceGroup :=
  mkSequenceGroup rid [bs_seq id toks WAITING] None 0 None priority (Some v0_demo_params) 1 0.
Definition v0_demo_key (r : nat) : string * Z := match r with 0%nat => ("a"%string, 10) | 1%nat => ("b"%string, 11) | _ => ("c"%string, 12) end.
Definition v0_demo_clock (n : nat) : Q := 0.
Definition v0_demo_model (mds : list SequenceGroupMetadata) : list Sample := replicate (length mds) (mkSample 9 false).

Abbreviation demo_config := (v0_demo_config None "fcfs").
Abbreviation demo_reach := (v0_reach demo_config v0_demo_cache v0_demo_key).

Definition v0_demo0 : V0Scheduler BlockSpaceManager := v0_init demo_config v0_demo_cache None bs_demo0.
Definition v0_demo1 : V0Scheduler BlockSpaceManager := add_seq_group (v0_set_group v0_demo0 0 (v0_demo_group "a" 10 [1; 2; 3] 0)) 0.
Definition v0_demo2 : V0Scheduler BlockSpaceManager := add_seq_group (v0_set_group v0_demo1 1 (v0_demo_group "b" 11 [4; 5] 0)) 1.

Lemma bs_demo0_gpu : gpu_inv bs_demo0 ∅ ∅.
Proof.
  split; [apply (mgr_reach_inv _ _ bs_demo0_reach)| |by vm_compute]. intros id t Ht. exfalso.
  assert (E : block_tables bs_demo0 = ∅) by (by vm_compute). rewrite E in Ht. by apply lookup_empty_Some in Ht.
Qed.

Lemma demo_config_ok : config_ok demo_config v0_demo_cache.
Proof. by split. Qed.

Lemma demo_new r rid id toks : v0_demo_key r = (rid, id) -> toks ≠ [] ->
  new_group (M := BlockSpaceManager) demo_config v0_demo_key r (v0_demo_group rid id toks 0).
Proof.
  intros Hk Ht. exists (bs_seq id toks WAITING). split; [|done]. split; try done; [by rewrite Hk|by rewrite Hk|]. by eexists.
Qed.

Lemma v0_demo1_reach : demo_reach v0_demo1.
Proof.
  apply vr_add; [apply vr_init; [exact bs_demo0_gpu|cbn; lia]| |by apply demo_new].
  split; intros r Hr; by apply not_elem_of_nil in Hr.
Qed.

Lemma v0_demo2_reach : demo_reach v0_demo2.
Proof.
  apply vr_add; [exact v0_demo1_reach| |by apply demo_new].
  split; intros r Hr; apply list_elem_of_singleton in Hr as ->; done.
Qed.

Lemma v0_schedule_safe_witness :
  ∃ mds o s', v0_schedule v0_demo_clock None v0_demo2 = Ok (mds, o, false, s') ∧ out_num_batched_tokens o <= 8.
Proof.
  destruct (v0_schedule_safe _ _ _ v0_demo_clock v0_demo2 demo_config_ok v0_demo2_reach) as (mds & o & s' & A & C & E & _ & _ & Hle & _).
  exists mds, o, s'. split; [exact E|exact Hle].
Defined.

Lemma v0_step_total_witness :
  ∃ o s' finished, v0_step v0_demo_clock v0_demo_model v0_demo2 = Ok (o, s') ∧
    v0_waiting s' ++ v0_running s' ++ finished ++ ignored_seq_groups o ≡ₚ [0%nat; 1%nat].
Proof.
  destruct (v0_step_total _ _ _ v0_demo_clock v0_demo_model v0_demo2 demo_config_ok v0_demo2_reach (fun mds => length_replicate _ _))
    as (o & s' & fin & E & _ & HP & _).
  exists o, s', fin. split; [exact E|exact HP].
Defined.

Lemma v0_default_fcfs_witness :
  ∃ mds o s', v0_schedule v0_demo_clock None v0_demo2 = Ok (mds, o, false, s') ∧ v0_running s' ++ v0_waiting s' `sublist_of` [0%nat; 1%nat].
Proof.
  destruct (v0_default_fcfs _ _ _ v0_demo_clock v0_demo2 demo_config_ok v0_demo2_reach eq_refl ltac:(discriminate) eq_refl) as (mds & o & s' & E & Hs & _).
  exists mds, o, s'. split; [exact E|exact Hs].
Defined.

Lemma v0_abort_exact_witness : ∃ s', abort_seq_group v0_demo2 {["a"%string]} = Ok s' ∧ (0%nat ∉ v0_waiting s') ∧ 1%nat ∈ v0_waiting s'.
Proof.
  destruct (v0_abort_exact _ _ _ {["a"%string]} v0_demo2 demo_config_ok v0_demo2_reach) as (s' & A & C & E & _ & Hw & _).
  exists s'. split; [exact E|]. split; [intros Hin; destruct (proj1 (Hw 0%nat) Hin) as [_ H]; apply H; by apply elem_of_singleton|].
  apply Hw. split; [cbn; right; left|]. intros H. by apply elem_of_singleton in H.
Defined.

(** After a step that runs both groups, both are aborted. *)
Definition v0_demo3 : V0Scheduler BlockSpaceManager :=
  value_or v0_demo0 (x ← v0_step v0_demo_clock v0_demo_model v0_demo2; abort_seq_group x.2 {["a"%string; "b"%string]}).

Lemma v0_demo3_reach : demo_reach v0_demo3.
Proof.
  destruct (v0_step v0_demo_clock v0_demo_model v0_demo2) as [[o s]|e] eqn:E; [|exfalso; revert E; by vm_compute].
  assert (Hs : demo_reach s) by (eapply vr_step; [exact v0_demo2_reach| |exact E]; intros mds; apply length_replicate).
  unfold v0_demo3. rewrite E. cbn [mbind result_bind snd].
  destruct (abort_seq_group s _) as [s'|e] eqn:E'; [by eapply vr_abort|].
  apply vr_init; [exact bs_demo0_gpu|cbn; lia].
Qed.

Lemma v0_no_leak_witness :
  cg_get_num_free_blocks (block_allocator (block_manager v0_demo3)) GPU = cg_get_num_total_blocks (block_allocator (block_manager v0_demo3)) GPU.
Proof. apply (v0_no_leak _ _ _ v0_demo3 demo_config_ok v0_demo3_reach). by vm_compute. Defined.

(** ** Preemption by priority with swapping *)

Definition priority_demo0 : V0Scheduler BlockSpaceManager :=
  let c := v0_demo_config (Some "swap"%string) "priority" in
  let m := value_or bs_nothing (bm_init false 2 3 4 0 None) in
  add_seq_group (v0_set_group (v0_init c v0_demo_cache None m) 0 (v0_demo_group "a" 10 [1; 2; 3] 5)) 0.
Definition priority_demo1 : V0Scheduler BlockSpaceManager :=
  value_or priority_demo0
    (x ← v0_step v0_demo_clock v0_demo_model priority_demo0;
     Ok (add_seq_group (v0_set_group x.2 1 (v0_demo_group "b" 11 [4; 5; 6] 0)) 1)).

(** With the priority policy and preemption by swapping, preempting for a request of
    higher priority breaks the engine.  One group runs, a more urgent one arrives and
    the blocks do not suffice for both.  The step swaps the running group out, but puts
    it into the waiting queue, and the list of blocks to copy to the CPU is dropped, so
    its cached tokens are lost; the next step fails the assertion that a waiting group
    has one waiting sequence. *)
Theorem priority_swap_breaks_engine :
  ∃ o s g, v0_step v0_demo_clock v0_demo_model priority_demo1 = Ok (o, s) ∧ blocks_to_swap_out o = [] ∧
    v0_waiting s = [1%nat; 0%nat] ∧ v0_swapped s = [] ∧ v0_groups s !! 0%nat = Some g ∧ (seq_status <$> sg_seqs g) = [SWAPPED] ∧
    v0_step v0_demo_clock v0_demo_model s = Err AssertionError.
Proof.
  destruct (v0_step v0_demo_clock v0_demo_model priority_demo1) as [[o s]|e] eqn:E; [|exfalso; revert E; by vm_compute].
  pose (r := x ← v0_step v0_demo_clock v0_demo_model priority_demo1; Ok (blocks_to_swap_out x.1, v0_waiting x.2, v0_swapped x.2, v0_groups x.2 !! 0%nat)).
  assert (Hr : ∃ g, r = Ok ([], [1%nat; 0%nat], [], Some g) ∧ (seq_status <$> sg_seqs g) = [SWAPPED]) by (eexists; split; by vm_compute).
  assert (Hn : (x ← v0_step v0_demo_clock v0_demo_model priority_demo1; v0_step v0_demo_clock v0_demo_model x.2) = Err AssertionError) by (by vm_compute).
  unfold r in Hr. rewrite E in Hr, Hn. cbn [mbind result_bind fst snd] in Hr, Hn. destruct Hr as (g & Hr & Hg). injection Hr as H1 H2 H3 H4.
  exists o, s, g. split; [reflexivity|]. split; [exact H1|]. split; [exact H2|]. split; [exact H3|]. split; [exact H4|]. split; [exact Hg|exact Hn].
Qed.
